(* ===== verification/_CoqProject ===== *)
-Q . S2P
Prelude.v
Extents.v
Bytes.v
KvmSlots.v
GpaWindow.v
Ring.v
TableHandles.v
TableWindows.v
Tables.v
HandleTable.v
Abi.v
UvmVa.v
Allowlists.v
IoctlGate.v
GpaAlloc.v
IsoMmap.v
Sessions.v
SessionRuns.v
Seccomp.v
StubHandles.v
StubIoctl.v
StubMarshal.v
StubRing.v
FsSync.v
StubJobs.v
IsoPending.v
IsoSync.v
StubWire.v
StubMain.v
StubLink.v
HostFiles.v
Requests.v
VirtioTx.v
GuestCalls.v
GuestTransport.v
GuestRing.v
Gmmu.v
ClientState.v
PtTrack.v
PtRelease.v
FbMem.v
Layout.v
Kmem.v
GuestIoctl.v
IoctlSafety.v
IoctlFields.v
IoctlCalls.v
AbiAgreement.v
GuestMmap.v
MmapMigrate.v
MmapPages.v
GuestFiles.v
FileLives.v
FileRuns.v
FileOwns.v
FileIsolates.v
FileHost.v
