(* ===== verification/Prelude.v ===== *)
(** * nvkvm: a verified model of the GPU-forwarding backend

    ** The program

    nvkvm gives a virtual machine the use of the host's NVIDIA driver without
    passing the device through.  A guest kernel module turns the system calls on
    its device files into requests on a virtio queue.  The device model inside
    QEMU ([src/qemu]) answers them: it keeps tables of handles, sessions,
    isolates and mappings, decides which ioctls may reach the host, and forwards
    those that may to an _isolate_, a sandboxed child process running a small
    static program, the _stub_ ([src/stub]).  The stub holds the GPU
    descriptors, points the pointers inside an ioctl's parameters at its own
    copies of the guest's buffers, calls the driver and answers.  QEMU and a
    stub talk over a SEQPACKET socket and, for simple controls, the guest and
    the stub over a ring in shared memory ([src/common]).  The guest is not
    trusted, and QEMU does not trust a stub either.  In a second mode QEMU
    emulates the GPU's registers itself and mirrors what the guest's own driver
    builds in emulated video memory ([qemu/nvkvm_gpu_emul.c]).

    ** Files

    Shared by all: this file (zero-initialised arrays, C loops, machine-width
    integers, the [res] error type, tactics and hints), [Extents] (the algebra
    of address extents, through the number of extents covering an address) and
    [Bytes] (byte memory with little-endian accesses).

    QEMU side:
    - [KvmSlots], module [Slots]: the KVM memory-slot pool of
      [qemu/nvkvm_mmap_host.c].
    - [GpaWindow], modules [Sparse] and [Legacy]: the two guest-physical windows
      of the same file; [GpaAlloc]: the class [GpaAllocator], what a window
      promises to its users, and the sparse window as an instance.
    - [TableHandles], [TableWindows], [Tables]: [qemu/nvkvm_tables.c], the
      generation-tagged tables, the GPA windows with their free lists, and the
      operations that cross tables.
    - [HandleTable], module [HTab]: [qemu/nvkvm_handle.c].
    - [Abi]: [common/nvkvm_abi.h], driver version strings and ABI profiles.
    - [Allowlists]: the four [qemu/nvkvm_*_allowlist.h].
    - [UvmVa], [IoctlGate], [IsoMmap], [Sessions], [SessionRuns]:
      [qemu/nvkvm_isolate_handlers.c] with the parts of [qemu/nvkvm_isolate.c]
      and [qemu/virtio_nvgpu.c] they call: the UVM schema and the ownership
      table; the ioctl request; mappings; sessions, isolates and handles; and
      the invariants of runs of those requests.
    - [IsoPending], [IsoSync]: the transport of [qemu/nvkvm_isolate.c], that is
      ioctl callers and the reader thread, and the answer slot shared by all
      other commands.

    - [HostFiles]: host files offered to the guest and the broker between
      isolates; [Requests]: the remaining request handlers and their dispatch;
      [VirtioTx]: the request queue of [qemu/virtio_nvgpu.c], from a popped
      element to the response written back.

    Shared memory: [Ring], [common/nvkvm_ring.h].

    Structures of the driver: [Layout], the declarations of [abi/nvgpu.h] and
    [abi/uvm.h] with the layout an x86-64 compiler gives them; [AbiAgreement]
    compares it with the numbers the device and the stub use.

    Guest side, the kernel module under [guest]:
    - [GuestCalls]: each call of the guest's request interface, what it encodes
      and what it takes from the answer.
    - [GuestTransport]: transaction ids, slots of shared memory, waiting and
      completion, with any number of callers.
    - [GuestRing]: the guest's end of the command ring with the pump thread,
      composed with [Ring] and the stub's consumer.
    - [Kmem]: a monad for the module's C code, with buffers that have bounds, copies
      from and to the caller, allocation failures and early returns, and its rules.
    - [GuestIoctl]: [nvkvm_ioctl] and the sizing, staging, sanitizing and copying
      back around it ([guest/nvkvm_main.c], [guest/nvkvm_ioctl.c]);
      [IoctlSafety], [IoctlFields], [IoctlCalls]: its accesses, its pointers and
      descriptors, its retries and its cache.
    - [GuestMmap]: [guest/nvkvm_mmap.c], device memory in a process and pages of a
      process moved to the host; [MmapMigrate], [MmapPages]: what moving, writing
      back and releasing keep.
    - [GuestFiles]: opening, closing and polling device files, sessions and buffer
      objects ([guest/nvkvm_main.c], [guest/nvkvm_session.c],
      [guest/nvkvm_drm.c]) as threads that interleave, over a host given by the
      class [file_host]; [FileLives], [FileRuns]: the invariant of reference
      counts; [FileOwns]: what is held, and that closing gives it back;
      [FileIsolates]: the isolate of a session, from the class [isolate_host];
      [FileHost]: the calls of [GuestCalls] as an instance of both.

    Emulated GPU, [qemu/nvkvm_gpu_emul.c]:
    - [Gmmu]: the page-table walk, the enumeration of all mappings as runs, the
      walk of the BAR2 aperture.
    - [ClientState]: tables of channels, address spaces, duplications, clients
      and processes; who owns an address space; what a free removes.
    - [PtTrack]: the sets of table pages, the sweep over a client's address
      spaces, and the latching and decoding of pages written by the copy engine;
      [PtRelease]: what a release hands on for them.
    - [FbMem]: reads and writes of video memory, the index over the ranges backed
      by host objects, the registration of objects and their deferred mapping.

    Stub side, [stub/nvkvm_stub.c] and [stub/stub_freestanding.h]:
    - [Seccomp]: the BPF program of [apply_seccomp].
    - [StubHandles], module [StubH]: descriptors, the poll set, device opening.
    - [StubIoctl] and [StubMarshal]: one job of [worker_thread], and what driver
      and guest see of it.
    - [StubRing]: the consumer of the command ring ([common/nvkvm_ring_ioctl.h]).
    - [FsSync], [StubJobs]: the futex mutex, the condition variable, the pool of
      workers and its queue.
    - [StubWire]: the byte format of commands and the reader that decodes them
      ([common/nvkvm_isolate_proto.h]).
    - [StubMain]: [stub_dispatch_cmd] and the handlers not in the files above.

    [StubLink] puts the sides together: the ioctl request of QEMU with the stub
    as the isolate that answers, and ring setup with the stub's handler.

    ** How the code is modelled

    Structs are records with the source's field names, enums and tagged unions
    inductive types, arrays that start zeroed finite maps that read zero where
    nothing was written.  Integers are [Z] with the wrap-around of their C type
    written out ([u8], [u16], [u32], [u64], [s32]).  An operation is a function
    from the state to the new state and its result; calls to the kernel, to the
    driver and to another process are arguments (their outcomes) or entries of a
    list of effects (that they were made).  Loops over a table of fixed size run
    for that size; [Ring] and [StubRing] bound a scan by the number of records
    the region can hold, respectively by the idle budget and the records present,
    and the theorems on them show that this fuel is enough.  The merging of a
    freed extent runs for the length of the free list, a search for a free
    transaction id for the 255 ids, the removal from a table for its length, a
    hash probe for the number of slots, the binary search for the number of
    entries; each visits everything there is.  The pins of a range run for its
    pages, a call is forwarded at most the source's 128 times, a batch of pages
    written back has the source's 64, and the search for a free session id runs
    for the number of ids taken.  The
    enumeration of page tables has the source's own budget, and its theorems say
    what holds when it is not used up and what holds always.
    Code under one lock is one step.  Where threads interleave ([Ring],
    [TableHandles], [Tables], [FsSync], [StubJobs], [IsoPending], [IsoSync],
    [GuestTransport], [GuestRing], [GuestFiles]) the steps form an inductive
    relation or a function of the scheduler's choice, and the theorems hold in every reachable
    state.  Memory is sequentially consistent.  The moving of a chunk of guest
    memory is one step: writes by other threads of the process meanwhile are not
    modelled.

    ** What the theorems show

    - Memory of the guest: extents handed out are disjoint, inside their window
      and conserved ([sparse_window_sound], [region_alloc_sound],
      [slot_pool_sound]); a mapping's pages belong to it alone
      ([mapping_exclusive]).
    - Tables: a handle in use is not closed under its user, ids are never
      confused across generations, each open descriptor has one owner
      ([handle_held_valid], [handle_id_exact], [handle_fd_ownership],
      [isolate_table_sound], [link_map_refines]); killing, opening and closing do
      what they say to the whole device state ([session_kill_exact],
      [session_table_sound], [open_handle_outcome]).
    - What reaches a driver: UVM calls name ranges the guest owns
      ([uvm_driver_calls], [uvm_ownership], [va_table_refines]); other calls are
      sent on exactly when they pass the allowlists and, where the parameters are
      long enough to hold one, name a client of this VM or one of the two reserved
      values ([iso_calls_checked]); the pointers of the controls listed in
      [StubMarshal] are the stub's and the other controls' parameters are untouched
      ([driver_pointers_confined]), and both hold of one request from end to end
      ([guest_control_end_to_end]).
      Answers carry no address of the stub ([response_hides_stub]); the filter
      allows exactly the listed system calls ([filter_exact]).
    - Transport: the ring is a FIFO with no duplicated or torn record
      ([ring_fifo]), and the fast path answers as the socket path does
      ([ring_path_equiv]); commands arrive as they were sent ([wire_framing]),
      each is answered once ([dispatch_answers_once]), a response reaches its
      caller only and never a returned one ([pending_calls_sound]), callers are
      woken when the reader ends ([pending_all_woken]), and serial commands get
      their own answer ([sync_serial_exact]); both ends of a ring agree on its
      layout ([ring_setup_agrees]); a replayed UVM descriptor gets the recorded
      calls ([realize_replays]).
    - Requests end to end: a call of the guest gives the answer of the handler
      and performs the same actions ([guest_call_transparent]); calls share no slot
      or id ([guest_transport_sound]) and do not write to each other's slots where
      those hold 24 KiB ([slot_isolation]); the queue keeps the device's tables in
      order ([device_tables_sound]), answers each element once and touches only
      its memory ([tx_exactly_once], [tx_shm_confined]);
      a call over the ring is executed once and its answer is its own
      ([ring_call_exactly_once]), and it completes ([ring_call_completes]).
    - The guest's ioctls: every access is inside its buffer and every buffer is
      freed once ([ioctl_memory_safe]); of the parameter structure the listed
      pointers are cleared and descriptors replaced ([forwarded_clean]), and the
      caller's own values put back in the fields named there
      ([caller_fields_restored]); forwarding ends ([forwarding_ends]); a
      validation from the cache gives what the cache model gives
      ([validate_refines]); the three programs agree on sizes and descriptors, and
      on the status but for six commands ([layouts_agree]).
    - Memory of a guest process: moving a range changes nothing the process sees
      ([migration_transparent]) and loses no reference or handle
      ([migration_balanced], [migrate_release_roundtrip]).
    - Open files of the guest: no thread follows a pointer to freed memory and all
      reference counts are exact ([lifetimes_sound]); threads end, and closing
      everything gives everything back ([shutdown_releases]); a process reaches its
      own isolate only ([device_isolation]).  Between them they exclude the use of another
      file's context and the reuse of a session id, and the examples
      [resolved_context_freed] and [session_id_reused] show both in the code.
    - Emulated GPU: the runs reported for an address space are the mappings of
      its tables ([enum_runs_exact]) within the budget ([enum_bounded]); an edit
      of swept tables asks for another sweep ([tracked_edits_arm]), and the pages of
      a table of small pages that the copy engine wrote to are handed on by the next
      release that stays within its budget ([latched_leaves_backed]); sweeps keep to their client's address spaces
      ([sweep_respects_owners], [owner_exclusive]); what a free removes from
      each table is stated ([free_exact], [root_free_disowns]) and references survive the
      moving of entries ([reap_keeps_references]).  Accesses to video memory
      behave as one array of bytes over its three backings
      ([video_memory_refines]), the index answers as the scan does
      ([gpga_index_exact]), and registering an object keeps what was written
      ([register_keeps_bytes]), where ranges do not overlap.
    - Stub concurrency: mutual exclusion without lost wake-ups ([mutex_correct]),
      no job lost, duplicated or left with an idle worker ([jobs_conserved],
      [jobs_not_stuck]); the consumer loop drains the ring ([ring_loop_drains]).
    - Faults of the code, as theorems and examples on concrete behaviour:
      [guest_pointer_reaches_driver], [sync_answers_cross],
      [claimed_caller_stranded], [refused_ioctl_desyncs],
      [registration_loses_bytes], [version_strings_overread],
      [process_memory_lost], [session_id_reused], [resolved_context_freed] and
      others beside the component they concern.

    ** Not modelled

    The NVIDIA drivers, the kernel, KVM and QEMU's object model are not part of
    the repository; the model takes their outcomes as arguments.  Process
    spawning, namespaces and the signal handler that records fault addresses are
    sequences of system calls with no state of the program's own.  The set-up of
    the virtio device and its event queue, the legacy object graph and its
    dispatch, the registration of the guest's devices, the other ioctls of the
    render node and the KMS callbacks are kernel and QEMU glue around the modelled
    calls.  Of [guest/nvkvm_mmap.c] the cache bits of the page table
    ([nvkvm_force_range_wb]) and the realize path, which no caller reaches, are left
    out; of buffer objects the pages an import of a dma-buf allocates.  Of the
    emulated GPU the registers, the message queues, the execution of channels and
    the calls to the host beneath the allocation of an object are not modelled; the
    recorded device tables are data. *)

From stdpp Require Export prelude gmap.
From Stdlib Require Export ZArith Lia.

Declare Scope nv_scope.
Delimit Scope nv_scope with nv.

Local Open Scope Z_scope.

(** ** Machine integers

    A [uintN_t] is a [Z] in [0, 2^N); the conversions below are the C
    conversions to the unsigned types (reduction modulo [2^N]). *)

Definition u8 (x : Z) : Z := x mod 2 ^ 8.
Definition u16 (x : Z) : Z := x mod 2 ^ 16.
Definition u32 (x : Z) : Z := x mod 2 ^ 32.
Definition u64 (x : Z) : Z := x mod 2 ^ 64.

(** The value of a bit pattern read as a signed integer. *)
Definition s32 (x : Z) : Z :=
  let y := u32 x in if y <? 2 ^ 31 then y else y - 2 ^ 32.
Definition s64 (x : Z) : Z :=
  let y := u64 x in if y <? 2 ^ 63 then y else y - 2 ^ 64.

(** [x & ~(a - 1)] on 64-bit operands. *)
Definition mask_down (x a : Z) : Z := Z.land x (u64 (Z.lnot (a - 1))).

(** ** Errors

    C functions return [0] or [-errno]; here [Ok] carries the out parameters
    and [Err] the positive errno. *)

Inductive res (A : Type) : Type :=
| Ok (a : A)
| Err (e : Z).
Arguments Ok {A} _.
Arguments Err {A} _.

Definition is_ok {A} (r : res A) : bool :=
  match r with Ok _ => true | Err _ => false end.

Definition EPERM : Z := 1.
Definition ENOENT : Z := 2.
Definition EINTR : Z := 4.
Definition EIO : Z := 5.
Definition EBADF : Z := 9.
Definition ENOMEM : Z := 12.
Definition EACCES : Z := 13.
Definition EFAULT : Z := 14.
Definition EBUSY : Z := 16.
Definition EEXIST : Z := 17.
Definition ENODEV : Z := 19.
Definition EINVAL : Z := 22.
Definition EMFILE : Z := 24.
Definition ENOTTY : Z := 25.
Definition ENOSPC : Z := 28.
Definition ENOTSUP : Z := 95.
Definition EPROTO : Z := 71.
Definition EALREADY : Z := 114.

(** ** Zero-initialised arrays

    A C array of structs that starts as all-zero bytes is a finite map from
    the index to the entry; an index that was never written reads as the
    zeroed entry. *)

Class Zeroed (A : Type) := zeroed : A.

#[export] Instance Zeroed_Z : Zeroed Z := 0.
#[export] Instance Zeroed_bool : Zeroed bool := false.
#[export] Instance Zeroed_option {A} : Zeroed (option A) := None.

Definition aget {A} `{Zeroed A} (a : gmap Z A) (i : Z) : A :=
  default zeroed (a !! i).

Notation "a .[ i ]" := (aget a i)
  (at level 1, i at level 200, left associativity, format "a .[ i ]") : nv_scope.
Notation "a .[ i <- v ]" := (<[i:=v]> a)
  (at level 1, i at level 200, left associativity, format "a .[ i  <-  v ]") : nv_scope.

Local Open Scope nv_scope.

(** ** Loops *)

(** [for (k = i; k < i + n; k++) if (P(k)) return k;] *)
Fixpoint scan (P : Z -> bool) (i : Z) (n : nat) : option Z :=
  match n with
  | O => None
  | S n' => if P i then Some i else scan P (i + 1) n'
  end.

(** [for (k = i; k < i + n; k++) if (P(k)) c++;] *)
Fixpoint tally (P : Z -> bool) (i : Z) (n : nat) : Z :=
  match n with
  | O => 0
  | S n' => (if P i then 1 else 0) + tally P (i + 1) n'
  end.

(** [for (k = i; k < i + n; k++) s = f(k, s);] *)
Fixpoint sweep {T : Type} (f : Z -> T -> T) (i : Z) (n : nat) (s : T) : T :=
  match n with
  | O => s
  | S n' => sweep f (i + 1) n' (f i s)
  end.

(** ** Tactics *)

Ltac nv_bool :=
  repeat match goal with
  | H : (_ && _)%bool = true |- _ => apply andb_true_iff in H; destruct H
  | H : (_ || _)%bool = false |- _ => apply orb_false_iff in H; destruct H
  | H : negb _ = true |- _ => apply negb_true_iff in H
  | H : negb _ = false |- _ => apply negb_false_iff in H
  | H : (_ =? _) = true |- _ => apply Z.eqb_eq in H
  | H : (_ =? _) = false |- _ => apply Z.eqb_neq in H
  | H : (_ <? _) = true |- _ => apply Z.ltb_lt in H
  | H : (_ <? _) = false |- _ => apply Z.ltb_ge in H
  | H : (_ <=? _) = true |- _ => apply Z.leb_le in H
  | H : (_ <=? _) = false |- _ => apply Z.leb_gt in H
  end.

(** Case analysis on the condition of an [if] or [match] in the goal or in a
    hypothesis, with the comparison turned into a proposition. *)
Ltac nv_case :=
  match goal with
  | H : context [if ?b then _ else _] |- _ => destruct b eqn:?; nv_bool; simplify_eq/=
  | H : context [match ?x with _ => _ end] |- _ => destruct x eqn:?; nv_bool; simplify_eq/=
  | |- context [if ?b then _ else _] => destruct b eqn:?; nv_bool; simplify_eq/=
  | |- context [match ?x with _ => _ end] => destruct x eqn:?; nv_bool; simplify_eq/=
  end.

Ltac nv_cases := repeat nv_case.

(** ** Lemmas on machine integers *)

Lemma u16_range x : 0 <= u16 x < 2 ^ 16.
Proof. apply Z.mod_pos_bound. lia. Qed.

Lemma u32_range x : 0 <= u32 x < 2 ^ 32.
Proof. apply Z.mod_pos_bound. lia. Qed.

Lemma u64_range x : 0 <= u64 x < 2 ^ 64.
Proof. apply Z.mod_pos_bound. lia. Qed.

Lemma u16_small x : 0 <= x < 2 ^ 16 -> u16 x = x.
Proof. apply Z.mod_small. Qed.

Lemma u32_small x : 0 <= x < 2 ^ 32 -> u32 x = x.
Proof. apply Z.mod_small. Qed.

Lemma u64_small x : 0 <= x < 2 ^ 64 -> u64 x = x.
Proof. apply Z.mod_small. Qed.

Lemma land_pow2_minus_1 x k : 0 <= k -> Z.land x (2 ^ k - 1) = x mod 2 ^ k.
Proof. intros. rewrite <- Z.land_ones by done. by rewrite Z.ones_equiv, Z.sub_1_r. Qed.

(** A field above the low [k] bits. *)
Lemma lor_shiftl_low g s k : 0 <= k -> Z.lor (Z.shiftl g k) (s mod 2 ^ k) = g * 2 ^ k + s mod 2 ^ k.
Proof.
  intros Hk. rewrite <- (Z.shiftl_mul_pow2 g k) by done. symmetry. rewrite <- Z.add_lor_land.
  enough (Z.land (Z.shiftl g k) (s mod 2 ^ k) = 0) by lia.
  apply Z.bits_inj'. intros i Hi. rewrite Z.land_spec, Z.bits_0. destruct (decide (i < k)).
  - by rewrite Z.shiftl_spec_low.
  - rewrite Z.mod_pow2_bits_high by lia. apply andb_false_r.
Qed.

Lemma ldiff_ones_sub x k : 0 <= k -> Z.ldiff x (Z.ones k) = x - x mod 2 ^ k.
Proof.
  intros Hk. rewrite Z.ldiff_ones_r by done.
  rewrite Z.shiftl_mul_pow2, Z.shiftr_div_pow2 by done.
  pose proof (Z.div_mod x (2 ^ k)). assert (0 < 2 ^ k) by (apply Z.pow_pos_nonneg; lia). lia.
Qed.

(** Rounding down to a power of two on a 64-bit value. *)
Lemma mask_down_pow2 x k :
  0 <= k < 64 -> 0 <= x < 2 ^ 64 -> mask_down x (2 ^ k) = x - x mod 2 ^ k.
Proof.
  intros Hk Hx. unfold mask_down, u64.
  rewrite <- ldiff_ones_sub by lia. rewrite <- Z.land_ones by lia.
  replace (2 ^ k - 1) with (Z.ones k) by (rewrite Z.ones_equiv; lia).
  apply Z.bits_inj'; intros i Hi.
  rewrite Z.ldiff_spec, !Z.land_spec, Z.lnot_spec by lia.
  destruct (decide (i < 64)).
  - rewrite (Z.ones_spec_low 64) by lia. by rewrite andb_true_r.
  - rewrite (Z.ones_spec_high 64) by lia.
    rewrite (Z.bits_above_log2 x i); [done | lia |].
    destruct (decide (x = 0)); [subst; simpl; lia |].
    apply Z.log2_lt_pow2; [lia |]. eapply Z.lt_le_trans; [apply Hx |].
    apply Z.pow_le_mono_r; lia.
Qed.

Lemma mask_down_4096 x : 0 <= x < 2 ^ 64 -> mask_down x 4096 = x - x mod 4096.
Proof. apply (mask_down_pow2 x 12). lia. Qed.

(** [(v + 4095) & ~4095], away from the wrap, is the least page multiple
    above [v]. *)
Lemma page_round_spec v :
  0 <= v -> v + 4095 < 2 ^ 64 ->
  let r := mask_down (u64 (v + 4095)) 4096 in
  v <= r < v + 4096 /\ r mod 4096 = 0.
Proof.
  intros Hv Hb. cbv zeta. rewrite u64_small by lia. rewrite mask_down_4096 by lia.
  split; [pose proof (Z.mod_pos_bound (v + 4095) 4096); lia |].
  rewrite Zminus_mod_idemp_r, Z.sub_diag. done.
Qed.

(** ** Lemmas on zero-initialised arrays *)

Section arrays.
Context {A : Type} `{Zeroed A}.
Implicit Types (a : gmap Z A) (i j : Z) (x : A).

Lemma aget_set_eq a i x : (a.[i <- x]).[i] = x.
Proof. unfold aget. by rewrite lookup_insert_eq. Qed.

Lemma aget_set_ne a i j x : i ≠ j -> (a.[i <- x]).[j] = a.[j].
Proof. intros. unfold aget. by rewrite lookup_insert_ne. Qed.

Lemma aget_set a i j x : (a.[i <- x]).[j] = if decide (i = j) then x else a.[j].
Proof. case_decide; subst; [apply aget_set_eq | by apply aget_set_ne]. Qed.

Lemma aget_empty i : (∅ : gmap Z A).[i] = zeroed.
Proof. unfold aget. by rewrite lookup_empty. Qed.
End arrays.

(** ** Lemmas on loops *)

Lemma scan_Some P i n j :
  scan P i n = Some j ->
  i <= j < i + Z.of_nat n /\ P j = true /\ (forall k, i <= k < j -> P k = false).
Proof.
  revert i. induction n as [|n IH]; intros i Hs; simplify_eq/=.
  destruct (P i) eqn:E; simplify_eq.
  - split_and!; [lia | lia | done | intros; lia].
  - apply IH in Hs as (? & ? & Hk). split_and!; [lia | lia | done |].
    intros k ?. destruct (decide (k = i)); [by subst | apply Hk; lia].
Qed.

Lemma scan_None P i n :
  scan P i n = None <-> (forall k, i <= k < i + Z.of_nat n -> P k = false).
Proof.
  revert i. induction n as [|n IH]; intros i; simpl.
  - split; [intros; lia | done].
  - destruct (P i) eqn:E.
    + split; [done |]. intros Hk. rewrite Hk in E by lia. done.
    + rewrite IH. split.
      * intros Hk k ?. destruct (decide (k = i)); [by subst | apply Hk; lia].
      * intros Hk k ?. apply Hk. lia.
Qed.

Lemma scan_ext P Q i n :
  (forall k, i <= k < i + Z.of_nat n -> P k = Q k) -> scan P i n = scan Q i n.
Proof.
  revert i. induction n as [|n IH]; intros i HPQ; [done |]. simpl.
  rewrite HPQ by lia. destruct (Q i); [done |]. apply IH. intros; apply HPQ; lia.
Qed.

Lemma tally_nonneg P i n : 0 <= tally P i n.
Proof. revert i. induction n; intros i; simpl; [lia |]. specialize (IHn (i + 1)). destruct (P i); lia. Qed.

Lemma tally_le P i n : tally P i n <= Z.of_nat n.
Proof. revert i. induction n; intros i; simpl; [lia |]. specialize (IHn (i + 1)). destruct (P i); lia. Qed.

Lemma tally_zero P i n :
  tally P i n = 0 <-> (forall k, i <= k < i + Z.of_nat n -> P k = false).
Proof.
  revert i. induction n as [|n IH]; intros i; simpl.
  - split; [intros; lia | done].
  - pose proof (tally_nonneg P (i + 1) n). destruct (P i) eqn:E.
    + split; [lia |]. intros Hk. rewrite Hk in E by lia. done.
    + rewrite Z.add_0_l, IH. split.
      * intros Hk k ?. destruct (decide (k = i)); [by subst | apply Hk; lia].
      * intros Hk k ?. apply Hk. lia.
Qed.

Lemma tally_ext P Q i n :
  (forall k, i <= k < i + Z.of_nat n -> P k = Q k) -> tally P i n = tally Q i n.
Proof.
  revert i. induction n as [|n IH]; intros i HPQ; [done |]. simpl.
  rewrite HPQ by lia. f_equal. apply IH. intros; apply HPQ; lia.
Qed.

Lemma tally_compl P i n : tally (fun k => negb (P k)) i n = Z.of_nat n - tally P i n.
Proof. revert i. induction n as [|n IH]; intros i; simpl; [lia |]. rewrite IH. destruct (P i); simpl; lia. Qed.

(** Changing the predicate at one index of the range changes the count by the
    difference there. *)
Lemma tally_update P Q i n j :
  i <= j < i + Z.of_nat n ->
  (forall k, i <= k < i + Z.of_nat n -> k ≠ j -> P k = Q k) ->
  tally Q i n = tally P i n - (if P j then 1 else 0) + (if Q j then 1 else 0).
Proof.
  revert i. induction n as [|n IH]; intros i Hj HPQ; [lia |]. simpl.
  destruct (decide (i = j)) as [->|].
  - rewrite (tally_ext P Q (j + 1) n) by (intros; apply HPQ; lia). lia.
  - rewrite (IH (i + 1)) by (try lia; intros; apply HPQ; lia).
    rewrite (HPQ i) by lia. lia.
Qed.

(** An invariant of the loop body is an invariant of the loop. *)
Lemma sweep_inv {T} (I : T -> Prop) (f : Z -> T -> T) i n s :
  I s -> (forall k t, i <= k < i + Z.of_nat n -> I t -> I (f k t)) -> I (sweep f i n s).
Proof.
  revert i s. induction n as [|n IH]; intros i s Hs Hf; [done |]. simpl.
  apply IH; [apply Hf; [lia | done] | intros; apply Hf; [lia | done]].
Qed.

(** An invariant indexed by the loop counter. *)
Lemma sweep_ind {T} (I : Z -> T -> Prop) (f : Z -> T -> T) i n s :
  I i s ->
  (forall k t, i <= k < i + Z.of_nat n -> I k t -> I (k + 1) (f k t)) ->
  I (i + Z.of_nat n) (sweep f i n s).
Proof.
  revert i s. induction n as [|n IH]; intros i s Hs Hf.
  - by rewrite Z.add_0_r.
  - simpl sweep. replace (i + Z.of_nat (S n)) with ((i + 1) + Z.of_nat n) by lia.
    apply IH; [apply Hf; [lia | done] | intros; apply Hf; [lia | done]].
Qed.

(** ** Hint database *)

Create HintDb nv discriminated.
#[export] Hint Resolve u16_range u32_range u64_range tally_nonneg : nv.

Create Rewrite HintDb nvarr.
#[export] Hint Rewrite @aget_set_eq @aget_empty : nvarr.
#[export] Hint Rewrite @aget_set_ne using (done || lia) : nvarr.

Ltac nv_arr := autorewrite with nvarr in *.
