(* ===== verification/Extents.v ===== *)
(** * Extents of an address window

    The two window allocators of the backend ([nvkvm_mmap_host.c]'s sparse
    GPA window and [nvkvm_tables.c]'s GPA windows) keep lists of extents
    [(offset, length)].  Their correctness is stated here with one notion, the
    number of extents of a list that contain a given address ([cover]):
    disjointness, conservation of space and coalescing are equations on
    [cover]. *)

From S2P Require Import Prelude.
Local Open Scope Z_scope.

(** [struct nvkvm_gpa_extent { uint64_t off; uint64_t len; }] *)
Record extent := Ext { e_off : Z; e_len : Z }.

#[export] Instance Zeroed_extent : Zeroed extent := Ext 0 0.

#[export] Instance extent_eq_dec : EqDecision extent.
Proof. solve_decision. Defined.

Definition e_end (e : extent) : Z := e_off e + e_len e.

Definition inside (x : Z) (e : extent) : bool := (e_off e <=? x) && (x <? e_end e).

Definition cov1 (e : extent) (x : Z) : Z := if inside x e then 1 else 0.

Fixpoint cover (l : list extent) (x : Z) : Z :=
  match l with
  | [] => 0
  | e :: l' => cov1 e x + cover l' x
  end.

(** [a[i] = a[--n]] on the live prefix [l] of an array. *)
Definition swap_remove {A} (i : nat) (l : list A) : list A :=
  match last l with
  | Some x => take (length l - 1) (<[i:=x]> l)
  | None => l
  end.

(** Two extents share no address. *)
Definition disj (e1 e2 : extent) : Prop := forall x, inside x e1 = true -> inside x e2 = false.

Ltac cov_lia :=
  repeat rewrite andb_true_iff in *; unfold cov1, inside, e_end in *; simpl in *;
  repeat match goal with
  | |- context [?a <=? ?b] => destruct (Z.leb_spec a b)
  | |- context [?a <? ?b] => destruct (Z.ltb_spec a b)
  | H : context [?a <=? ?b] |- _ => destruct (Z.leb_spec a b)
  | H : context [?a <? ?b] |- _ => destruct (Z.ltb_spec a b)
  end; simpl in *; try lia; try done.

Lemma inside_spec x e : inside x e = true <-> e_off e <= x < e_end e.
Proof. unfold inside. rewrite andb_true_iff, Z.leb_le, Z.ltb_lt. done. Qed.

Lemma cov1_range e x : 0 <= cov1 e x <= 1.
Proof. unfold cov1. destruct (inside x e); lia. Qed.

Lemma cov1_in e x : e_off e <= x < e_end e -> cov1 e x = 1.
Proof. intros. unfold cov1. by rewrite (proj2 (inside_spec x e)). Qed.

Lemma cov1_out e x : ~ (e_off e <= x < e_end e) -> cov1 e x = 0.
Proof. intros Hn. unfold cov1. destruct (inside x e) eqn:E; [|done]. by apply inside_spec in E. Qed.

Lemma cover_nonneg l x : 0 <= cover l x.
Proof. induction l as [|e l IH]; simpl; [lia |]. pose proof (cov1_range e x). lia. Qed.

Lemma cover_app l1 l2 x : cover (l1 ++ l2) x = cover l1 x + cover l2 x.
Proof. induction l1; simpl; lia. Qed.

(** Splits every cover of an append in the goal. *)
Ltac cov_norm := simpl; rewrite ?cover_app; simpl; rewrite ?cover_app.

#[export] Instance cover_perm : Proper ((≡ₚ) ==> eq ==> eq) cover.
Proof. intros l1 l2 Hp x ? <-. induction Hp; simpl; lia. Qed.

Lemma cover_lookup l i e x : l !! i = Some e -> cov1 e x <= cover l x.
Proof.
  revert i. induction l as [|e' l IH]; intros [|i] Hi; simplify_eq/=.
  - pose proof (cover_nonneg l x). lia.
  - pose proof (IH _ Hi). pose proof (cov1_range e' x). lia.
Qed.

Lemma cover_elem l e x : e ∈ l -> cov1 e x <= cover l x.
Proof. intros [i Hi]%list_elem_of_lookup. by eapply cover_lookup. Qed.

Lemma cover_zero_elem l e x : cover l x = 0 -> e ∈ l -> ~ (e_off e <= x < e_end e).
Proof. intros Hz He Hin. pose proof (cover_elem l e x He). rewrite cov1_in in *; lia. Qed.

Lemma cover_pos_elem l x : 0 < cover l x -> exists e, e ∈ l /\ e_off e <= x < e_end e.
Proof.
  induction l as [|e l IH]; simpl; [lia |]. intros Hp.
  destruct (inside x e) eqn:E.
  - exists e. split; [left | by apply inside_spec].
  - unfold cov1 in Hp. rewrite E in Hp. destruct IH as (e' & ? & ?); [lia |].
    exists e'. split; [by right | done].
Qed.

Lemma cover_list_insert l i e e' x :
  l !! i = Some e -> cover (<[i:=e']> l) x = cover l x - cov1 e x + cov1 e' x.
Proof.
  revert i. induction l as [|a l IH]; intros [|i] Hi; simplify_eq/=; [lia |].
  rewrite (IH _ Hi). lia.
Qed.

(** [swap_remove] removes exactly the [i]-th entry. *)
Lemma swap_remove_perm {A} (l : list A) i e : l !! i = Some e -> l ≡ₚ e :: swap_remove i l.
Proof.
  intros Hi. destruct l as [|x l _] using rev_ind; [done |].
  unfold swap_remove. rewrite last_snoc, length_app. simpl.
  replace (length l + 1 - 1)%nat with (length l) by lia.
  destruct (decide (i < length l)%nat).
  - rewrite lookup_app_l in Hi by done.
    rewrite insert_app_l by done. rewrite take_app_length' by (by rewrite length_insert).
    rewrite insert_take_drop by done.
    rewrite <- (take_drop_middle l i e Hi) at 1.
    generalize (take i l) (drop (S i) l). intros t d.
    rewrite <- app_assoc. simpl. rewrite <- Permutation_middle.
    constructor. apply Permutation_app_head. by rewrite Permutation_app_comm.
  - pose proof (lookup_lt_Some _ _ _ Hi) as Hl. rewrite length_app in Hl. simpl in Hl.
    assert (i = length l) as -> by lia.
    rewrite list_lookup_middle in Hi by done. simplify_eq.
    rewrite insert_app_r_alt by lia. rewrite take_app_length' by done.
    by rewrite Permutation_app_comm.
Qed.

Lemma cover_swap_remove l i e x :
  l !! i = Some e -> cover (swap_remove i l) x = cover l x - cov1 e x.
Proof. intros Hi. rewrite (swap_remove_perm l i e Hi) at 2. simpl. lia. Qed.

Lemma swap_remove_elem {A} (l : list A) i e e' : l !! i = Some e -> e' ∈ swap_remove i l -> e' ∈ l.
Proof. intros Hi He. rewrite (swap_remove_perm l i e Hi). by right. Qed.

Lemma length_swap_remove {A} (l : list A) i e : l !! i = Some e -> length l = S (length (swap_remove i l)).
Proof. intros Hi. by rewrite (swap_remove_perm l i e Hi) at 1. Qed.

Lemma Forall_swap_remove {A} (P : A -> Prop) l i e :
  l !! i = Some e -> Forall P l -> Forall P (swap_remove i l).
Proof.
  intros Hi Hl. rewrite (swap_remove_perm l i e Hi) in Hl. by inversion Hl.
Qed.

(** A cover bounded by one makes distinct entries disjoint. *)
Lemma cover_disj e l1 l2 :
  (forall x, cover (l1 ++ e :: l2) x <= 1) -> forall e', e' ∈ l1 ++ l2 -> disj e e'.
Proof.
  intros Hc e' He' x Hx. destruct (inside x e') eqn:E; [|done]. exfalso.
  apply inside_spec in Hx, E. specialize (Hc x).
  rewrite cover_app in Hc. simpl in Hc. rewrite (cov1_in e) in Hc by done.
  pose proof (cover_elem (l1 ++ l2) e' x He') as Hle. rewrite cover_app, cov1_in in Hle by done.
  lia.
Qed.

Lemma cover_tail_zero e l x :
  cover (e :: l) x <= 1 -> e_off e <= x < e_end e -> cover l x = 0.
Proof. simpl. intros Hc Hin. rewrite cov1_in in Hc by done. pose proof (cover_nonneg l x). lia. Qed.

(** A live list whose addresses are all covered at most once is unchanged in
    cover by moving an entry between two lists. *)
Lemma cover_move e l x : cover (e :: l) x - cov1 e x = cover l x.
Proof. simpl. lia. Qed.

#[export] Hint Resolve cover_nonneg cov1_range : nv.
