(* ===== verification/Bytes.v ===== *)
(** * Byte memory

    Buffers the program reads and writes through [memcpy] or casts: a
    zero-initialised array of bytes, with little-endian 16-, 32- and 64-bit
    loads and stores (the program runs on x86-64 only). *)

From S2P Require Import Prelude.
Local Open Scope Z_scope.
Local Open Scope nv_scope.

Abbreviation bytes := (gmap Z Z).

Definition get8 (d : bytes) (o : Z) : Z := u8 d.[o].
Definition get16 (d : bytes) (o : Z) : Z := get8 d o + 2 ^ 8 * get8 d (o + 1).
Definition get32 (d : bytes) (o : Z) : Z := get16 d o + 2 ^ 16 * get16 d (o + 2).
Definition get64 (d : bytes) (o : Z) : Z := get32 d o + 2 ^ 32 * get32 d (o + 4).

Definition put8 (d : bytes) (o v : Z) : bytes := d.[o <- u8 v].
Definition put16 (d : bytes) (o v : Z) : bytes := put8 (put8 d o v) (o + 1) (Z.shiftr v 8).
Definition put32 (d : bytes) (o v : Z) : bytes := put16 (put16 d o v) (o + 2) (Z.shiftr v 16).
Definition put64 (d : bytes) (o v : Z) : bytes := put32 (put32 d o v) (o + 4) (Z.shiftr v 32).

(** [memcpy] out of and into the array. *)
Definition read_bytes (d : bytes) (o n : Z) : list Z := (fun k => get8 d (o + k)) <$> seqZ 0 n.

Fixpoint write_bytes (d : bytes) (o : Z) (l : list Z) : bytes :=
  match l with
  | [] => d
  | b :: l' => write_bytes (put8 d o b) (o + 1) l'
  end.

(** A list of bytes. *)
Definition octets (l : list Z) : Prop := Forall (fun b => 0 <= b < 2 ^ 8) l.

(** The two memories hold the same bytes in [a, b). *)
Definition agree (d1 d2 : bytes) (a b : Z) : Prop := forall i, a <= i < b -> get8 d1 i = get8 d2 i.

Lemma u8_range x : 0 <= u8 x < 2 ^ 8.
Proof. apply Z.mod_pos_bound. lia. Qed.

Lemma u8_idem x : u8 (u8 x) = u8 x.
Proof. apply Z.mod_mod. lia. Qed.

Lemma get8_range d o : 0 <= get8 d o < 2 ^ 8.
Proof. apply u8_range. Qed.

Lemma get16_range d o : 0 <= get16 d o < 2 ^ 16.
Proof. unfold get16. pose proof (get8_range d o). pose proof (get8_range d (o + 1)). lia. Qed.

Lemma get32_range d o : 0 <= get32 d o < 2 ^ 32.
Proof. unfold get32. pose proof (get16_range d o). pose proof (get16_range d (o + 2)). lia. Qed.

Lemma get64_range d o : 0 <= get64 d o < 2 ^ 64.
Proof. unfold get64. pose proof (get32_range d o). pose proof (get32_range d (o + 4)). lia. Qed.

Lemma get8_put8 d o v : get8 (put8 d o v) o = u8 v.
Proof. unfold get8, put8. by rewrite aget_set_eq, u8_idem. Qed.

Lemma get8_put8_ne d o v i : i <> o -> get8 (put8 d o v) i = get8 d i.
Proof. intros. unfold get8, put8. by rewrite aget_set_ne. Qed.

Lemma get8_put16_ne d o v i : ~ (o <= i < o + 2) -> get8 (put16 d o v) i = get8 d i.
Proof. intros. unfold put16. rewrite !get8_put8_ne by lia. done. Qed.

Lemma get8_put32_ne d o v i : ~ (o <= i < o + 4) -> get8 (put32 d o v) i = get8 d i.
Proof. intros. unfold put32. rewrite !get8_put16_ne by lia. done. Qed.

Lemma get8_put64_ne d o v i : ~ (o <= i < o + 8) -> get8 (put64 d o v) i = get8 d i.
Proof. intros. unfold put64. rewrite !get8_put32_ne by lia. done. Qed.

Lemma split_low v a b : 0 <= a -> 0 <= b -> v mod 2 ^ (a + b) = v mod 2 ^ a + 2 ^ a * (Z.shiftr v a mod 2 ^ b).
Proof.
  intros Ha Hb. rewrite Z.shiftr_div_pow2, Z.pow_add_r by done.
  apply Z.rem_mul_r; [apply Z.pow_nonzero | apply Z.pow_pos_nonneg]; lia.
Qed.

Lemma get16_put16 d o v : get16 (put16 d o v) o = u16 v.
Proof.
  unfold get16, put16. rewrite get8_put8, get8_put8_ne, get8_put8 by lia.
  symmetry. apply (split_low v 8 8); lia.
Qed.

Lemma agree_get16 d1 d2 a b o : agree d1 d2 a b -> a <= o -> o + 2 <= b -> get16 d1 o = get16 d2 o.
Proof. intros Ha ??. unfold get16. rewrite !Ha by lia. done. Qed.

Lemma agree_get32 d1 d2 a b o : agree d1 d2 a b -> a <= o -> o + 4 <= b -> get32 d1 o = get32 d2 o.
Proof. intros Ha ??. unfold get32. rewrite !(agree_get16 d1 d2 a b) by (done || lia). done. Qed.

Lemma agree_get64 d1 d2 a b o : agree d1 d2 a b -> a <= o -> o + 8 <= b -> get64 d1 o = get64 d2 o.
Proof. intros Ha ??. unfold get64. rewrite !(agree_get32 d1 d2 a b) by (done || lia). done. Qed.

Lemma agree_sub d1 d2 a b a' b' : agree d1 d2 a b -> a <= a' -> b' <= b -> agree d1 d2 a' b'.
Proof. intros Ha ?? i ?. apply Ha. lia. Qed.

Lemma agree_trans d1 d2 d3 a b : agree d1 d2 a b -> agree d2 d3 a b -> agree d1 d3 a b.
Proof. intros H1 H2 i Hi. by rewrite H1, H2. Qed.

Lemma agree_sym d1 d2 a b : agree d1 d2 a b -> agree d2 d1 a b.
Proof. intros H i Hi. by rewrite H. Qed.

Lemma agree_put32 d o v a b : b <= o \/ o + 4 <= a -> agree (put32 d o v) d a b.
Proof. intros H i Hi. apply get8_put32_ne. lia. Qed.

Lemma get32_put32 d o v : get32 (put32 d o v) o = u32 v.
Proof.
  unfold get32, put32. rewrite get16_put16.
  rewrite (agree_get16 _ (put16 d o v) o (o + 2)) by
    (try lia; intros i Hi; apply get8_put16_ne; lia).
  rewrite get16_put16. symmetry. apply (split_low v 16 16); lia.
Qed.

Lemma get32_put32_ne d o v o' : o' + 4 <= o \/ o + 4 <= o' -> get32 (put32 d o v) o' = get32 d o'.
Proof. intros. apply (agree_get32 _ _ o' (o' + 4)); [apply agree_put32; lia | lia | lia]. Qed.

Lemma get64_put64 d o v : get64 (put64 d o v) o = u64 v.
Proof.
  unfold get64, put64. rewrite get32_put32, (get32_put32_ne _ (o + 4)) by lia.
  rewrite get32_put32. symmetry. apply (split_low v 32 32); lia.
Qed.

Lemma agree_read d1 d2 a b o n :
  agree d1 d2 a b -> a <= o -> o + n <= b -> read_bytes d1 o n = read_bytes d2 o n.
Proof.
  intros Ha ??. apply list_fmap_ext. intros i k Hk. apply lookup_seqZ in Hk. apply Ha. lia.
Qed.

Lemma length_read_bytes d o n : length (read_bytes d o n) = Z.to_nat n.
Proof. unfold read_bytes. by rewrite length_fmap, length_seqZ. Qed.

Lemma read_bytes_app d o n m :
  0 <= n -> 0 <= m -> read_bytes d o (n + m) = read_bytes d o n ++ read_bytes d (o + n) m.
Proof.
  intros Hn Hm. unfold read_bytes. rewrite seqZ_app by done. rewrite fmap_app. f_equal.
  unfold seqZ. rewrite <- !list_fmap_compose.
  apply list_fmap_ext. intros i k _. simpl. f_equal. lia.
Qed.

Lemma read_bytes_cons d o n :
  0 < n -> read_bytes d o n = get8 d o :: read_bytes d (o + 1) (n - 1).
Proof.
  intros Hn. replace n with (1 + (n - 1)) at 1 by lia.
  rewrite read_bytes_app by lia. unfold read_bytes at 1. simpl. by rewrite Z.add_0_r.
Qed.

Lemma get8_write_ne d o l i :
  ~ (o <= i < o + Z.of_nat (length l)) -> get8 (write_bytes d o l) i = get8 d i.
Proof.
  revert d o. induction l as [|b l IH]; intros d o Hi; [done |]. simpl in *.
  rewrite IH by lia. apply get8_put8_ne. lia.
Qed.

Lemma read_write d o l :
  octets l -> read_bytes (write_bytes d o l) o (Z.of_nat (length l)) = l.
Proof.
  revert d o. induction l as [|b l IH]; intros d o Hl; [done |].
  apply Forall_cons in Hl as [Hb Hl]. rewrite read_bytes_cons by (simpl; lia). f_equal.
  - simpl. rewrite get8_write_ne by lia. rewrite get8_put8. by apply Z.mod_small.
  - simpl length. replace (Z.of_nat (S (length l)) - 1) with (Z.of_nat (length l)) by lia.
    by apply IH.
Qed.

Lemma get8_write_in d o l k b :
  octets l -> l !! k = Some b -> get8 (write_bytes d o l) (o + Z.of_nat k) = b.
Proof.
  revert d o k. induction l as [|c l IH]; intros d o k Hl Hk; [done |].
  apply Forall_cons in Hl as [Hc Hl]. destruct k as [|k]; simplify_eq/=.
  - rewrite Z.add_0_r, get8_write_ne by lia. rewrite get8_put8. by apply Z.mod_small.
  - replace (o + Z.of_nat (S k)) with ((o + 1) + Z.of_nat k) by lia. by apply IH.
Qed.

Lemma octets_read d o n : octets (read_bytes d o n).
Proof. apply Forall_forall. intros b (k & -> & _)%list_elem_of_fmap. apply get8_range. Qed.

Lemma lookup_read d o n k :
  (k < Z.to_nat n)%nat -> read_bytes d o n !! k = Some (get8 d (o + Z.of_nat k)).
Proof. intros Hk. unfold read_bytes. rewrite list_lookup_fmap, lookup_seqZ_lt by lia. by rewrite Z.add_0_l. Qed.

Lemma agree_refl d a b : agree d d a b.
Proof. done. Qed.

Lemma agree_put64 d o v a b : b <= o \/ o + 8 <= a -> agree (put64 d o v) d a b.
Proof. intros H i Hi. apply get8_put64_ne. lia. Qed.

Lemma agree_write d o l a b : b <= o \/ o + Z.of_nat (length l) <= a -> agree (write_bytes d o l) d a b.
Proof. intros H i Hi. apply get8_write_ne. lia. Qed.

Lemma get32_put64_ne d o v o' : o' + 4 <= o \/ o + 8 <= o' -> get32 (put64 d o v) o' = get32 d o'.
Proof. intros. apply (agree_get32 _ _ o' (o' + 4)); [apply agree_put64; lia | lia | lia]. Qed.

Lemma get64_put64_ne d o v o' : o' + 8 <= o \/ o + 8 <= o' -> get64 (put64 d o v) o' = get64 d o'.
Proof. intros. apply (agree_get64 _ _ o' (o' + 8)); [apply agree_put64; lia | lia | lia]. Qed.

Lemma get64_put32_ne d o v o' : o' + 8 <= o \/ o + 4 <= o' -> get64 (put32 d o v) o' = get64 d o'.
Proof. intros. apply (agree_get64 _ _ o' (o' + 8)); [apply agree_put32; lia | lia | lia]. Qed.

Lemma get32_write_ne d o l o' :
  o' + 4 <= o \/ o + Z.of_nat (length l) <= o' -> get32 (write_bytes d o l) o' = get32 d o'.
Proof. intros. apply (agree_get32 _ _ o' (o' + 4)); [apply agree_write; lia | lia | lia]. Qed.

Lemma get64_write_ne d o l o' :
  o' + 8 <= o \/ o + Z.of_nat (length l) <= o' -> get64 (write_bytes d o l) o' = get64 d o'.
Proof. intros. apply (agree_get64 _ _ o' (o' + 8)); [apply agree_write; lia | lia | lia]. Qed.

(** Equal stores keep memories equal. *)
Lemma agree_put8_both d1 d2 o v a b : agree d1 d2 a b -> agree (put8 d1 o v) (put8 d2 o v) a b.
Proof.
  intros Ha i Hi. destruct (decide (i = o)) as [->|]; [by rewrite !get8_put8 |].
  rewrite !get8_put8_ne by done. by apply Ha.
Qed.

Lemma agree_put64_both d1 d2 o v a b : agree d1 d2 a b -> agree (put64 d1 o v) (put64 d2 o v) a b.
Proof. intros. unfold put64, put32, put16. by repeat apply agree_put8_both. Qed.

Lemma agree_write_both d1 d2 o l a b : agree d1 d2 a b -> agree (write_bytes d1 o l) (write_bytes d2 o l) a b.
Proof.
  revert d1 d2 o. induction l as [|x l IH]; intros d1 d2 o Ha; [done |]. by apply IH, agree_put8_both.
Qed.

(** A written stretch does not depend on what was there. *)
Lemma agree_write_in d1 d2 o l :
  octets l -> agree (write_bytes d1 o l) (write_bytes d2 o l) o (o + Z.of_nat (length l)).
Proof.
  intros Hl i Hi. destruct (lookup_lt_is_Some_2 l (Z.to_nat (i - o))) as [x Hx]; [lia |].
  replace i with (o + Z.of_nat (Z.to_nat (i - o))) by lia. by rewrite !(get8_write_in _ _ _ _ x).
Qed.

(** The low half of a 64-bit word. *)
Lemma u32_get64 d o : u32 (get64 d o) = get32 d o.
Proof.
  unfold get64, u32. pose proof (get32_range d o). pose proof (get32_range d (o + 4)).
  rewrite Z.mul_comm, Z.mod_add by lia. by apply Z.mod_small.
Qed.

Lemma get32_put64_low d o v : get32 (put64 d o v) o = u32 v.
Proof. unfold put64. rewrite get32_put32_ne by lia. apply get32_put32. Qed.

(** A zeroed stretch. *)
Lemma get8_zeros d o n i :
  get8 (write_bytes d o (replicate n 0)) i = if decide (o <= i < o + Z.of_nat n) then 0 else get8 d i.
Proof.
  case_decide.
  - replace i with (o + Z.of_nat (Z.to_nat (i - o))) by lia. apply get8_write_in.
    + apply Forall_replicate. lia.
    + apply lookup_replicate. split; [done | lia].
  - apply get8_write_ne. rewrite length_replicate. lia.
Qed.

Lemma zero64 d o : (forall i, o <= i < o + 8 -> get8 d i = 0) -> get64 d o = 0.
Proof.
  intros H. unfold get64, get32, get16. rewrite !H by lia. done.
Qed.

Lemma s32_u32 x : s32 (u32 x) = s32 x.
Proof. unfold s32. unfold u32. by rewrite Z.mod_mod by lia. Qed.

(** Storing the signed reading of a word stores the word. *)
Lemma u32_s32 x : u32 (s32 x) = u32 x.
Proof.
  unfold s32. destruct (u32 x <? 2 ^ 31); unfold u32; [by rewrite Z.mod_mod by lia |].
  rewrite <- (Z.mod_mod x (2 ^ 32)) at 2 by lia.
  replace (x mod 2 ^ 32 - 2 ^ 32) with (x mod 2 ^ 32 + (-1) * 2 ^ 32) by lia. by rewrite Z.mod_add by lia.
Qed.

#[export] Hint Resolve get8_range get16_range get32_range get64_range agree_sym : nv.
