(* ===== verification/KvmSlots.v ===== *)
(** * The KVM memory-slot pool ([src/qemu/nvkvm_mmap_host.c])

    Slots [64, 512) are handed out to dynamic GPU mappings: a stack of
    recycled slots, then a watermark of never-used ones.  The pool is the file's
    static variables; [KVM_SET_USER_MEMORY_REGION] is a parameter of the
    operations that issue it. *)

From S2P Require Import Prelude.
Local Open Scope Z_scope.
Local Open Scope nv_scope.

Module Slots.

Definition NVKVM_KVM_SLOT_BASE : Z := 64.
Definition NVKVM_KVM_SLOT_COUNT : Z := 448.

(** The static variables of the pool. *)
Record slot_pool := Pool {
  kvm_slot_water : Z;
  kvm_slot_free_head : Z;
  kvm_slot_free_stack : gmap Z Z;
  kvm_slot_in_use : Z;
  kvm_slot_in_use_peak : Z;
  kvm_slot_alloc_count : Z;
  kvm_slot_free_count : Z
}.

Definition slot_pool_init : slot_pool := Pool NVKVM_KVM_SLOT_BASE 0 ∅ 0 0 0 0.

(** The bookkeeping after a slot was chosen. *)
Definition slot_account (p : slot_pool) : slot_pool :=
  let in_use := kvm_slot_in_use p + 1 in
  Pool (kvm_slot_water p) (kvm_slot_free_head p) (kvm_slot_free_stack p) in_use
    (if kvm_slot_in_use_peak p <? in_use then in_use else kvm_slot_in_use_peak p)
    (u64 (kvm_slot_alloc_count p + 1)) (kvm_slot_free_count p).

(** Returns the slot, [-1] on exhaustion. *)
Definition nvkvm_kvm_slot_alloc (p : slot_pool) : slot_pool * Z :=
  let '(p1, slot) :=
    if 0 <? kvm_slot_free_head p then
      let head := kvm_slot_free_head p - 1 in
      (Pool (kvm_slot_water p) head (kvm_slot_free_stack p) (kvm_slot_in_use p)
         (kvm_slot_in_use_peak p) (kvm_slot_alloc_count p) (kvm_slot_free_count p),
       (kvm_slot_free_stack p).[head])
    else if kvm_slot_water p <? NVKVM_KVM_SLOT_BASE + NVKVM_KVM_SLOT_COUNT then
      (Pool (kvm_slot_water p + 1) (kvm_slot_free_head p) (kvm_slot_free_stack p)
         (kvm_slot_in_use p) (kvm_slot_in_use_peak p) (kvm_slot_alloc_count p)
         (kvm_slot_free_count p),
       kvm_slot_water p)
    else (p, -1) in
  if 0 <=? slot then (slot_account p1, slot) else (p1, slot).

Definition nvkvm_kvm_slot_release (slot : Z) (p : slot_pool) : slot_pool :=
  if (slot <? NVKVM_KVM_SLOT_BASE) || (NVKVM_KVM_SLOT_BASE + NVKVM_KVM_SLOT_COUNT <=? slot) then p
  else
    let '(head, stack) :=
      if kvm_slot_free_head p <? NVKVM_KVM_SLOT_COUNT then
        (kvm_slot_free_head p + 1, (kvm_slot_free_stack p).[kvm_slot_free_head p <- slot])
      else (kvm_slot_free_head p, kvm_slot_free_stack p) in
    Pool (kvm_slot_water p) head stack
      (if 0 <? kvm_slot_in_use p then kvm_slot_in_use p - 1 else kvm_slot_in_use p)
      (kvm_slot_in_use_peak p) (kvm_slot_alloc_count p) (u64 (kvm_slot_free_count p + 1)).

(** [struct nvkvm_kvm_mem_region] *)
Record kvm_mem_region := Region {
  r_slot : Z;
  r_flags : Z;
  r_guest_phys_addr : Z;
  r_memory_size : Z;
  r_userspace_addr : Z
}.

Section kvm.
(** The VM fd ([kvm_vm_fd], negative when unset) and the KVM ioctl: the errno
    it fails with, [None] on success. *)
Context (kvm_vm_fd : Z) (kvm_set_region : kvm_mem_region -> option Z).

(** Ok carries [*slot_out]. *)
Definition kvm_add_memory_region (gpa hva length : Z) (readonly : bool) (p : slot_pool)
  : slot_pool * res Z :=
  let '(p1, slot) := nvkvm_kvm_slot_alloc p in
  if slot <? 0 then (p1, Err ENOSPC)
  else if kvm_vm_fd <? 0 then (nvkvm_kvm_slot_release slot p1, Ok (-1))
  else
    match kvm_set_region (Region (u32 slot) (if readonly then 2 else 0) gpa length hva) with
    | Some e => (nvkvm_kvm_slot_release slot p1, Err e)
    | None => (p1, Ok slot)
    end.

(** The second component is the deletion request sent to KVM, if any; its
    outcome is ignored. *)
Definition kvm_remove_memory_region (slot : Z) (p : slot_pool)
  : slot_pool * option kvm_mem_region :=
  (nvkvm_kvm_slot_release slot p,
   if 0 <=? kvm_vm_fd then Some (Region (u32 slot) 0 0 0 0) else None).

End kvm.

(** ** The pool's contract

    [live] is the list of slots handed out and not yet released. *)

Definition slot_stack (p : slot_pool) : list Z :=
  (fun k => (kvm_slot_free_stack p).[k]) <$> seqZ 0 (kvm_slot_free_head p).

(** Recycled and live slots are together exactly the slots below the
    watermark, each once, and the counter of live slots is right. *)
Record pool_inv (p : slot_pool) (live : list Z) : Prop := {
  pi_water : NVKVM_KVM_SLOT_BASE <= kvm_slot_water p <= NVKVM_KVM_SLOT_BASE + NVKVM_KVM_SLOT_COUNT;
  pi_head : 0 <= kvm_slot_free_head p;
  pi_part : slot_stack p ++ live ≡ₚ seqZ NVKVM_KVM_SLOT_BASE (kvm_slot_water p - NVKVM_KVM_SLOT_BASE);
  pi_use : kvm_slot_in_use p = Z.of_nat (length live);
  pi_peak : kvm_slot_in_use p <= kvm_slot_in_use_peak p
}.

Lemma slot_stack_length p :
  0 <= kvm_slot_free_head p -> Z.of_nat (length (slot_stack p)) = kvm_slot_free_head p.
Proof. intros. unfold slot_stack. rewrite length_fmap, length_seqZ. lia. Qed.

Lemma slot_stack_pop p head :
  kvm_slot_free_head p = head + 1 -> 0 <= head ->
  slot_stack p = ((fun k => (kvm_slot_free_stack p).[k]) <$> seqZ 0 head)
                 ++ [(kvm_slot_free_stack p).[head]].
Proof.
  intros Hh Hp. unfold slot_stack. rewrite Hh.
  rewrite seqZ_app by lia. by rewrite fmap_app.
Qed.

Lemma slot_stack_push (stack : gmap Z Z) head slot :
  0 <= head ->
  (fun k => (stack.[head <- slot]).[k]) <$> seqZ 0 (head + 1)
  = ((fun k => stack.[k]) <$> seqZ 0 head) ++ [slot].
Proof.
  intros Hh. rewrite seqZ_app by lia. rewrite fmap_app. f_equal.
  - apply list_fmap_ext. intros i k Hk. apply lookup_seqZ in Hk. rewrite aget_set_ne by lia. done.
  - simpl. by rewrite Z.add_0_l, aget_set_eq.
Qed.

Lemma pool_counts p live :
  pool_inv p live ->
  kvm_slot_free_head p + Z.of_nat (length live) = kvm_slot_water p - NVKVM_KVM_SLOT_BASE.
Proof.
  intros [Hw Hh Hp _ _]. apply Permutation_length in Hp.
  rewrite length_app, length_seqZ in Hp. rewrite <- (slot_stack_length p) by done. lia.
Qed.

Lemma pool_slot_range p live s :
  pool_inv p live -> s ∈ slot_stack p ++ live ->
  NVKVM_KVM_SLOT_BASE <= s < NVKVM_KVM_SLOT_BASE + NVKVM_KVM_SLOT_COUNT.
Proof.
  intros [Hw _ Hp _ _] Hs. rewrite Hp in Hs. apply elem_of_seqZ in Hs. lia.
Qed.

Lemma pool_nodup p live : pool_inv p live -> NoDup (slot_stack p ++ live).
Proof. intros [_ _ Hp _ _]. rewrite Hp. apply NoDup_seqZ. Qed.

Lemma pool_init_inv : pool_inv slot_pool_init [].
Proof. by split. Qed.

Lemma slot_alloc_inv p live p' slot :
  pool_inv p live -> nvkvm_kvm_slot_alloc p = (p', slot) ->
  (slot = -1 /\ p' = p /\ Z.of_nat (length live) = NVKVM_KVM_SLOT_COUNT) \/
  (0 <= slot /\ (slot ∉ live) /\ pool_inv p' (slot :: live)).
Proof.
  intros Hi. pose proof (pool_counts _ _ Hi) as Hc. pose proof (pool_nodup _ _ Hi) as Hnd.
  pose proof (fun s => pool_slot_range _ _ s Hi) as Hr. destruct Hi as [Hw Hh Hp Hu Hk].
  unfold nvkvm_kvm_slot_alloc. destruct (0 <? kvm_slot_free_head p) eqn:E1; nv_bool.
  - remember (kvm_slot_free_head p - 1) as head eqn:Ehd.
    rewrite (slot_stack_pop p head) in * by lia.
    set (s := (kvm_slot_free_stack p).[head]) in *.
    assert (NVKVM_KVM_SLOT_BASE <= s < NVKVM_KVM_SLOT_BASE + NVKVM_KVM_SLOT_COUNT) as Hs
      by (apply Hr; set_solver). unfold NVKVM_KVM_SLOT_BASE in Hs.
    rewrite (proj2 (Z.leb_le 0 s)) by lia. intros [= <- <-]. right.
    rewrite <- app_assoc in Hnd. simpl in Hnd. apply NoDup_app in Hnd as (_ & _ & Hnd).
    apply NoDup_cons in Hnd as [? _]. split_and!; [lia | done |].
    split; simpl; [done | lia | | lia | nv_case; lia].
    rewrite <- Hp, <- app_assoc. done.
  - assert (kvm_slot_free_head p = 0) as Hz by lia.
    assert (slot_stack p = []) as Hst by (unfold slot_stack; by rewrite Hz).
    rewrite Hst in *. simpl in *.
    destruct (kvm_slot_water p <? _) eqn:E2; nv_bool.
    + assert (0 <= kvm_slot_water p) by (unfold NVKVM_KVM_SLOT_BASE in Hw; lia).
      rewrite (proj2 (Z.leb_le 0 _)) by done. intros [= <- <-]. right. split_and!; [done | |].
      * rewrite Hp, elem_of_seqZ. lia.
      * split; simpl; [unfold NVKVM_KVM_SLOT_BASE, NVKVM_KVM_SLOT_COUNT in *; lia | lia | | lia | nv_case; lia].
        unfold slot_stack. simpl. rewrite Hz. simpl. rewrite Hp.
        replace (kvm_slot_water p + 1 - NVKVM_KVM_SLOT_BASE)
          with ((kvm_slot_water p - NVKVM_KVM_SLOT_BASE) + 1) by lia.
        rewrite seqZ_app by lia. simpl.
        replace (NVKVM_KVM_SLOT_BASE + (kvm_slot_water p - NVKVM_KVM_SLOT_BASE))
          with (kvm_slot_water p) by lia. by rewrite Permutation_app_comm.
    + simpl. intros [= <- <-]. left. split_and!; [done | done | lia].
Qed.

Lemma slot_release_inv p live1 live2 slot :
  pool_inv p (live1 ++ slot :: live2) ->
  pool_inv (nvkvm_kvm_slot_release slot p) (live1 ++ live2).
Proof.
  intros Hi. pose proof (pool_counts _ _ Hi) as Hc.
  assert (NVKVM_KVM_SLOT_BASE <= slot < NVKVM_KVM_SLOT_BASE + NVKVM_KVM_SLOT_COUNT) as Hs
    by (apply (pool_slot_range _ _ _ Hi); set_solver).
  destruct Hi as [Hw Hh Hp Hu Hk]. rewrite length_app in *. simpl in *.
  unfold nvkvm_kvm_slot_release.
  rewrite (proj2 (Z.ltb_ge slot _)), (proj2 (Z.leb_gt _ slot)) by lia. simpl.
  rewrite (proj2 (Z.ltb_lt (kvm_slot_free_head p) _)) by lia.
  rewrite (proj2 (Z.ltb_lt 0 (kvm_slot_in_use p))) by lia.
  split; simpl; [done | lia | | rewrite length_app; lia | lia].
  unfold slot_stack. simpl. rewrite slot_stack_push by done.
  rewrite <- Hp. unfold slot_stack. rewrite <- app_assoc. simpl.
  apply Permutation_app_head. by rewrite Permutation_middle.
Qed.

(** A run of the pool: allocations record the slot they return as live, and
    only live slots are released. *)
Inductive pool_reach : slot_pool -> list Z -> Prop :=
| pr_init : pool_reach slot_pool_init []
| pr_alloc p live p' slot :
    pool_reach p live -> nvkvm_kvm_slot_alloc p = (p', slot) -> 0 <= slot ->
    pool_reach p' (slot :: live)
| pr_alloc_fail p live p' slot :
    pool_reach p live -> nvkvm_kvm_slot_alloc p = (p', slot) -> slot < 0 ->
    pool_reach p' live
| pr_release p live1 slot live2 :
    pool_reach p (live1 ++ slot :: live2) ->
    pool_reach (nvkvm_kvm_slot_release slot p) (live1 ++ live2).

Lemma pool_reach_inv p live : pool_reach p live -> pool_inv p live.
Proof.
  induction 1 as [|p live p' slot _ IH Ha Hs|p live p' slot _ IH Ha Hs|].
  - apply pool_init_inv.
  - by destruct (slot_alloc_inv _ _ _ _ IH Ha) as [(? & ? & ?)|(? & ? & ?)]; [lia|].
  - by destruct (slot_alloc_inv _ _ _ _ IH Ha) as [(? & -> & ?)|(? & ? & ?)]; [|lia].
  - by apply slot_release_inv.
Qed.

(** [slot_pool_sound]: in every run in which callers release only
    slots they hold, live KVM slots are pairwise distinct, lie in [64, 512), the
    live counter is exact, and an allocation fails exactly when all 448 slots
    are live. *)
Theorem slot_pool_sound (p : slot_pool) (live : list Z) :
  pool_reach p live ->
  NoDup live /\
  (forall s, s ∈ live -> 64 <= s < 512) /\
  kvm_slot_in_use p = Z.of_nat (length live) /\
  (snd (nvkvm_kvm_slot_alloc p) = -1 <-> length live = 448%nat).
Proof.
  intros Hr. pose proof (pool_reach_inv _ _ Hr) as Hi. split_and!.
  - apply (NoDup_app (slot_stack p) live), pool_nodup, Hi.
  - intros s Hs. apply (pool_slot_range _ _ s Hi). set_solver.
  - apply Hi.
  - pose proof (pool_counts _ _ Hi). destruct (nvkvm_kvm_slot_alloc p) as [p' s] eqn:E. simpl.
    destruct (slot_alloc_inv _ _ _ _ Hi E) as [(-> & _ & Hl)|(? & _ & Hi')].
    + unfold NVKVM_KVM_SLOT_COUNT in Hl. split; [lia | done].
    + pose proof (pool_counts _ _ Hi'). destruct Hi' as [Hw Hh _ _ _]. simpl in *.
      unfold NVKVM_KVM_SLOT_BASE, NVKVM_KVM_SLOT_COUNT in *. split; lia.
Qed.

Lemma slot_pool_sound_witness :
  pool_reach (fst (nvkvm_kvm_slot_alloc slot_pool_init)) [64] /\
  kvm_slot_in_use (fst (nvkvm_kvm_slot_alloc slot_pool_init)) = 1.
Proof.
  assert (pool_reach (fst (nvkvm_kvm_slot_alloc slot_pool_init)) [64]) as Hr
    by (by apply (pr_alloc slot_pool_init [] _ 64 pr_init)).
  split; [exact Hr |]. destruct (slot_pool_sound _ _ Hr) as (_ & _ & H & _). exact H.
Defined.

(** A failed or unbacked region registration returns its slot to the pool. *)
Lemma kvm_add_memory_region_inv vm_fd set_region gpa hva len ro p live p' r :
  pool_inv p live ->
  kvm_add_memory_region vm_fd set_region gpa hva len ro p = (p', r) ->
  match r with
  | Ok slot => (slot = -1 /\ vm_fd < 0 /\ pool_inv p' live) \/ (0 <= slot /\ (slot ∉ live) /\ pool_inv p' (slot :: live))
  | Err _ => pool_inv p' live
  end.
Proof.
  intros Hi. unfold kvm_add_memory_region.
  destruct (nvkvm_kvm_slot_alloc p) as [p1 slot] eqn:E.
  destruct (slot_alloc_inv _ _ _ _ Hi E) as [(-> & -> & _)|(Hs & Hn & Hi')].
  - simpl. by intros [= <- <-].
  - rewrite (proj2 (Z.ltb_ge slot 0)) by done.
    pose proof (slot_release_inv p1 [] live slot Hi').
    destruct (vm_fd <? 0) eqn:?; nv_bool; [intros [= <- <-]; by left |].
    destruct (set_region _); intros [= <- <-]; [done | by right].
Qed.

End Slots.
