(* ===== verification/GpaWindow.v ===== *)
(** * Guest-physical windows of the device ([src/qemu/nvkvm_mmap_host.c])

    The sparse GPA window: one pre-installed KVM memslot whose 128 GiB are
    sub-allocated with a bump pointer and a list of recycled extents
    ([nvkvm_sparse_*]); and the legacy 16 GiB bump window ([alloc_gpa]). *)

From S2P Require Import Prelude Extents KvmSlots.
Local Open Scope Z_scope.

Module Sparse.

Definition NVKVM_SPARSE_GPA_BASE : Z := 0x20000000000.
Definition NVKVM_SPARSE_GPA_SIZE : Z := Z.shiftl 128 30.
Definition NVKVM_GPA_FREE_MAX : Z := 16384.

(** The [sparse_*] fields of [VirtIONvgpu].  [sparse_free] is the live prefix
    [sparse_free[0 .. sparse_free_n)] of the array and [sparse_free_ptr] says
    whether the array is allocated. *)
Record sparse_win := Sparse {
  sparse_gpa_base : Z;
  sparse_size : Z;
  sparse_vmm_va : Z;
  sparse_cur : Z;
  sparse_kvm_slot : Z;
  sparse_free_ptr : bool;
  sparse_free : list extent
}.

(** [(size + 4095) & ~4095ULL] *)
Definition page_round (size : Z) : Z := mask_down (u64 (size + 4095)) 4096.

(** [host_mmap] is the outcome of the anonymous [mmap] of the window. *)
Definition nvkvm_sparse_init (host_mmap : res Z) (s : sparse_win) : sparse_win * res unit :=
  if negb (sparse_vmm_va s =? 0) then (s, Ok tt)
  else
    match host_mmap with
    | Err e => (s, Err e)
    | Ok va => (Sparse 0 NVKVM_SPARSE_GPA_SIZE va 0 (-1) true [], Ok tt)
    end.

Section ensure.
(** [window_base_get]: [None] without a BAR transport, otherwise the BAR's
    current GPA (0 until the guest programs it). *)
Context (kvm_vm_fd : Z) (kvm_set_region : Slots.kvm_mem_region -> option Z)
        (window_base_get : option Z).

(** Returns the window base, 0 when it could not be installed. *)
Definition nvkvm_sparse_ensure (s : sparse_win) (p : Slots.slot_pool)
  : sparse_win * Slots.slot_pool * Z :=
  if sparse_vmm_va s =? 0 then (s, p, 0)
  else if 0 <=? sparse_kvm_slot s then (s, p, sparse_gpa_base s)
  else
    let base := match window_base_get with Some b => b | None => NVKVM_SPARSE_GPA_BASE end in
    if (match window_base_get with Some _ => true | None => false end) && (base =? 0)
    then (s, p, 0)
    else
      match Slots.kvm_add_memory_region kvm_vm_fd kvm_set_region base (sparse_vmm_va s)
              (sparse_size s) false p with
      | (p', Err _) => (s, p', 0)
      | (p', Ok slot) =>
          (Sparse base (sparse_size s) (sparse_vmm_va s) (sparse_cur s) slot
             (sparse_free_ptr s) (sparse_free s), p', base)
      end.

(** One iteration of the best-fit scan: the smallest sufficient extent. *)
Definition best_step (l : list extent) (size : Z) (i best : nat) : nat :=
  if (size <=? e_len (nth i l zeroed)) &&
     ((best =? length l)%nat || (e_len (nth i l zeroed) <? e_len (nth best l zeroed)))
  then i else best.

Fixpoint best_scan (l : list extent) (size : Z) (i k best : nat) : nat :=
  match k with
  | O => best
  | S k' => best_scan l size (S i) k' (best_step l size i best)
  end.

Definition best_fit (l : list extent) (size : Z) : nat :=
  best_scan l size 0 (length l) (length l).

(** The allocation proper, under [sparse_lock], of an already rounded size:
    the window offset, [None] when the window is exhausted. *)
Definition sparse_carve (size : Z) (s : sparse_win) : sparse_win * option Z :=
  let upd cur free :=
    Sparse (sparse_gpa_base s) (sparse_size s) (sparse_vmm_va s) cur (sparse_kvm_slot s)
      (sparse_free_ptr s) free in
  let l := sparse_free s in
  let best := best_fit l size in
  if sparse_free_ptr s && (best <? length l)%nat then
    let e := nth best l zeroed in
    if e_len e =? size then (upd (sparse_cur s) (swap_remove best l), Some (e_off e))
    else (upd (sparse_cur s) (<[best := Ext (u64 (e_off e + size)) (u64 (e_len e - size))]> l),
          Some (e_off e))
  else
    let off := mask_down (u64 (sparse_cur s + 4095)) 4096 in
    if sparse_size s <? u64 (off + size) then (s, None)
    else (upd (u64 (off + size)) l, Some off).

Definition nvkvm_sparse_gpa_alloc (size : Z) (s : sparse_win) (p : Slots.slot_pool)
  : sparse_win * Slots.slot_pool * Z :=
  if sparse_vmm_va s =? 0 then (s, p, 0)
  else
    let '(s1, p1, base) := nvkvm_sparse_ensure s p in
    if base =? 0 then (s1, p1, 0)
    else
      match sparse_carve (page_round size) s1 with
      | (s2, Some off) => (s2, p1, u64 (sparse_gpa_base s2 + off))
      | (s2, None) => (s2, p1, 0)
      end.

End ensure.

(** The [while (merged)] loop of the fast path: absorb every free extent that
    ends at the watermark.  Each round removes one extent, so [length l] rounds
    are enough. *)
Fixpoint absorb (fuel : nat) (cur : Z) (l : list extent) : Z * list extent :=
  match fuel with
  | O => (cur, l)
  | S fuel' =>
      match list_find (fun e => u64 (e_end e) = cur) l with
      | Some (i, e) => absorb fuel' (e_off e) (swap_remove i l)
      | None => (cur, l)
      end
  end.

Definition nvkvm_sparse_gpa_free (gpa size : Z) (s : sparse_win) : sparse_win :=
  let upd cur free :=
    Sparse (sparse_gpa_base s) (sparse_size s) (sparse_vmm_va s) cur (sparse_kvm_slot s)
      (sparse_free_ptr s) free in
  let l := sparse_free s in
  if (sparse_vmm_va s =? 0) || negb (sparse_free_ptr s) then s
  else if gpa <? sparse_gpa_base s then s
  else
    let off := gpa - sparse_gpa_base s in
    let size := page_round size in
    if (size =? 0) || (sparse_size s <? u64 (off + size)) then s
    else if u64 (off + size) =? sparse_cur s then
      let '(cur, free) := absorb (length l) off l in upd cur free
    else
      match list_find (fun e => u64 (e_end e) = off ∨ u64 (off + size) = e_off e) l with
      | Some (i, e) =>
          if u64 (e_end e) =? off
          then upd (sparse_cur s) (<[i := Ext (e_off e) (u64 (e_len e + size))]> l)
          else upd (sparse_cur s) (<[i := Ext off (u64 (e_len e + size))]> l)
      | None =>
          if Z.of_nat (length l) <? NVKVM_GPA_FREE_MAX
          then upd (sparse_cur s) (l ++ [Ext off size])
          else s
      end.

(** 0 stands for [NULL]. *)
Definition nvkvm_gpa_to_vmm_va (gpa size : Z) (s : sparse_win) : Z :=
  if sparse_vmm_va s =? 0 then 0
  else if gpa <? sparse_gpa_base s then 0
  else
    let off := gpa - sparse_gpa_base s in
    if (sparse_size s <=? off) || (sparse_size s <? u64 (off + size)) then 0
    else sparse_vmm_va s + off.

(** What [nvkvm_sparse_fini] asks of the host: the memslot deletion and the
    [munmap] of the window. *)
Definition nvkvm_sparse_fini (kvm_vm_fd : Z) (s : sparse_win) (p : Slots.slot_pool)
  : sparse_win * Slots.slot_pool * option Slots.kvm_mem_region * option (Z * Z) :=
  if sparse_vmm_va s =? 0 then (s, p, None, None)
  else
    let '(p', req) := if 0 <=? sparse_kvm_slot s
                      then Slots.kvm_remove_memory_region kvm_vm_fd (sparse_kvm_slot s) p
                      else (p, None) in
    (Sparse (sparse_gpa_base s) (sparse_size s) 0 (sparse_cur s) (sparse_kvm_slot s) false [],
     p', req, Some (sparse_vmm_va s, sparse_size s)).

(** ** Invariant

    [live] are the extents handed out, [leak] those dropped because the
    free list was full. *)

Definition good (cur : Z) (e : extent) : Prop :=
  0 <= e_off e /\ 0 < e_len e /\ e_end e <= cur /\
  e_off e mod 4096 = 0 /\ e_len e mod 4096 = 0.

Record win_inv (s : sparse_win) (live leak : list extent) : Prop := {
  wi_size : 0 <= sparse_size s <= 2 ^ 62 /\ sparse_size s mod 4096 = 0;
  wi_cur : 0 <= sparse_cur s <= sparse_size s /\ sparse_cur s mod 4096 = 0;
  wi_base : 0 < sparse_gpa_base s <= 2 ^ 62;
  wi_ptr : sparse_vmm_va s <> 0 /\ sparse_free_ptr s = true /\ 0 <= sparse_kvm_slot s;
  wi_good : Forall (good (sparse_cur s)) (sparse_free s ++ live ++ leak);
  wi_tile : forall x, cover (sparse_free s ++ live ++ leak) x = cov1 (Ext 0 (sparse_cur s)) x;
  wi_top : Forall (fun e => e_end e <> sparse_cur s) (sparse_free s)
}.

(** *** Best fit *)

Lemma best_scan_spec l size k i best :
  (i + k = length l)%nat ->
  (best = length l -> forall j e, (j < i)%nat -> l !! j = Some e -> e_len e < size) ->
  ((best < length l)%nat -> (best < i)%nat /\ exists e, l !! best = Some e /\ size <= e_len e) ->
  (best <= length l)%nat ->
  let b := best_scan l size i k best in
  (b <= length l)%nat /\
  (b = length l -> forall e, e ∈ l -> e_len e < size) /\
  ((b < length l)%nat -> exists e, l !! b = Some e /\ size <= e_len e).
Proof.
  revert i best. induction k as [|k IH]; intros i best Hik Hnone Hsome Hle; cbv zeta; simpl.
  - split_and!; [done | | intros Hb; by destruct (Hsome Hb)].
    intros Hb e [j Hj]%list_elem_of_lookup. apply (Hnone Hb j e); [|done].
    apply lookup_lt_Some in Hj. lia.
  - destruct (lookup_lt_is_Some_2 l i) as [e Hi]; [lia |].
    assert (nth i l zeroed = e) as Hn by (by apply nth_lookup_Some).
    unfold best_step. rewrite Hn. destruct (size <=? e_len e) eqn:E1; nv_bool; simpl.
    + destruct ((best =? length l)%nat || _) eqn:E2.
      * apply IH; [lia | intros; lia | intros; split; [lia | by exists e] | lia].
      * apply orb_false_iff in E2 as [E2 _]. apply Nat.eqb_neq in E2.
        apply IH; [lia | intros; lia | | done].
        intros Hb. destruct (Hsome Hb) as [? ?]. split; [lia | done].
    + apply IH; [lia | | | done].
      * intros Hb j e' Hj Hj'. destruct (decide (j = i)) as [->|].
        { simplify_eq. lia. } { apply (Hnone Hb j e'); [lia | done]. }
      * intros Hb. destruct (Hsome Hb) as [? ?]. split; [lia | done].
Qed.

Lemma best_fit_spec l size :
  (best_fit l size <= length l)%nat /\
  (best_fit l size = length l -> forall e, e ∈ l -> e_len e < size) /\
  ((best_fit l size < length l)%nat -> exists e, l !! best_fit l size = Some e /\ size <= e_len e).
Proof. apply best_scan_spec; try lia. Qed.

(** *** Page arithmetic *)

Lemma page_round_id v :
  0 <= v <= 2 ^ 63 -> v mod 4096 = 0 -> mask_down (u64 (v + 4095)) 4096 = v.
Proof.
  intros Hv Hm. destruct (page_round_spec v) as [Hr Hrm]; [lia | lia |].
  revert Hr Hrm. generalize (mask_down (u64 (v + 4095)) 4096). intros r.
  Z.to_euclidean_division_equations. lia.
Qed.

Lemma page_round_ge size :
  0 < size <= 2 ^ 62 ->
  size <= page_round size < size + 4096 /\ page_round size mod 4096 = 0.
Proof. intros. unfold page_round. apply page_round_spec; lia. Qed.

Lemma page_round_le size bound :
  0 < size <= bound -> bound <= 2 ^ 62 -> bound mod 4096 = 0 -> page_round size <= bound.
Proof.
  intros Hs Hb Hm. destruct (page_round_ge size) as [Hr Hrm]; [lia |].
  revert Hr Hrm. generalize (page_round size). intros r. Z.to_euclidean_division_equations. lia.
Qed.

Lemma mod4096_add a b : a mod 4096 = 0 -> b mod 4096 = 0 -> (a + b) mod 4096 = 0.
Proof. intros. Z.to_euclidean_division_equations. lia. Qed.

Lemma mod4096_sub a b : a mod 4096 = 0 -> b mod 4096 = 0 -> (a - b) mod 4096 = 0.
Proof. intros. Z.to_euclidean_division_equations. lia. Qed.

(** *** Moving the watermark *)

Lemma good_mono c1 c2 e : c1 <= c2 -> good c1 e -> good c2 e.
Proof. unfold good. lia. Qed.

(** Taking the topmost extent off a tiled window tiles the window below it. *)
Lemma strip_top e l cur :
  Forall (good cur) (e :: l) ->
  (forall x, cover (e :: l) x = cov1 (Ext 0 cur) x) ->
  e_end e = cur ->
  Forall (good (e_off e)) l /\ forall x, cover l x = cov1 (Ext 0 (e_off e)) x.
Proof.
  intros Hg Ht He. apply Forall_cons in Hg as [Hge Hgl]. split.
  - apply Forall_forall. intros e' He'. pose proof (proj1 (Forall_forall _ _) Hgl e' He') as Hg'.
    unfold good in *. destruct (decide (e_end e' <= e_off e)); [lia |]. exfalso.
    specialize (Ht (e_end e' - 1)). simpl in Ht.
    pose proof (cover_elem l e' (e_end e' - 1) He') as Hc.
    rewrite (cov1_in e') in Hc by (unfold e_end in *; lia).
    rewrite (cov1_in e) in Ht by lia. pose proof (cov1_range (Ext 0 cur) (e_end e' - 1)). lia.
  - intros x. specialize (Ht x). simpl in Ht. unfold good in Hge.
    assert (0 <= cover l x) by apply cover_nonneg. subst cur.
    destruct Hge as (? & ? & ? & _). cov_lia.
Qed.

Lemma absorb_spec rest fuel cur l cur' l' :
  (length l <= fuel)%nat -> 0 <= cur <= 2 ^ 62 -> cur mod 4096 = 0 ->
  Forall (good cur) (l ++ rest) ->
  (forall x, cover (l ++ rest) x = cov1 (Ext 0 cur) x) ->
  absorb fuel cur l = (cur', l') ->
  (0 <= cur' <= cur /\ cur' mod 4096 = 0) /\
  Forall (good cur') (l' ++ rest) /\
  (forall x, cover (l' ++ rest) x = cov1 (Ext 0 cur') x) /\
  Forall (fun e => e_end e <> cur') l' /\ (length l' <= length l)%nat.
Proof.
  revert cur l. induction fuel as [|fuel IH]; intros cur l Hf Hc Hm Hg Ht Ha; simpl in Ha.
  { destruct l; simpl in Hf; [|lia]. simplify_eq. split_and!; try done; lia. }
  assert (forall e, e ∈ l -> u64 (e_end e) = e_end e) as Hu.
  { intros e He. apply u64_small. apply Forall_app in Hg as [Hg _].
    pose proof (proj1 (Forall_forall _ _) Hg e He) as G. unfold good, e_end in *. lia. }
  destruct (list_find _ l) as [[i e]|] eqn:E.
  - apply list_find_Some in E as (Hi & He & _). rewrite Hu in He by (by eapply list_elem_of_lookup_2).
    rewrite (swap_remove_perm l i e Hi) in Hg. setoid_rewrite (swap_remove_perm l i e Hi) in Ht.
    destruct (strip_top e (swap_remove i l ++ rest) cur) as [Hg' Ht']; [done | done | done |].
    apply Forall_cons in Hg as [Hge _]. unfold good in Hge.
    pose proof (length_swap_remove l i e Hi). assert (e_off e <= cur) by (unfold e_end in *; lia).
    destruct (IH (e_off e) (swap_remove i l)) as (? & ? & ? & ? & ?); try done; try lia.
    split_and!; try done; lia.
  - simplify_eq. apply list_find_None in E. split_and!; try done; try lia.
    apply Forall_forall. intros e He Heq. rewrite Forall_forall in E.
    apply (E e He). by rewrite Hu.
Qed.

(** *** Allocation *)

Lemma sparse_carve_inv s live leak size s' off :
  win_inv s live leak -> 0 < size <= 2 ^ 62 -> size mod 4096 = 0 ->
  sparse_carve size s = (s', Some off) ->
  win_inv s' (Ext off size :: live) leak /\
  sparse_gpa_base s' = sparse_gpa_base s /\ sparse_size s' = sparse_size s /\
  0 <= off /\ off + size <= sparse_size s.
Proof.
  intros Hi Hs Hm Hc. unfold sparse_carve in Hc.
  destruct (best_fit_spec (sparse_free s) size) as (_ & _ & Hbs).
  destruct Hi as [[Hsz Hszm] [Hcr Hcrm] Hb [Hva [Hptr Hslot]] Hg Ht Htop].
  rewrite Hptr in Hc. simpl in Hc. destruct (best_fit _ _ <? _)%nat eqn:Eb.
  - apply Nat.ltb_lt in Eb. destruct (Hbs Eb) as (e & He & Hle).
    set (b := best_fit (sparse_free s) size) in *. clearbody b. clear Hbs.
    rewrite (nth_lookup_Some _ _ zeroed e He) in Hc.
    pose proof He as He'. apply list_elem_of_lookup_2 in He'.
    assert (good (sparse_cur s) e) as G.
    { apply (proj1 (Forall_forall _ _) Hg), elem_of_app. by left. }
    assert (e_end e <> sparse_cur s) as G' by (by apply (proj1 (Forall_forall _ _) Htop)).
    unfold good in G. destruct G as (G1 & G2 & G3 & G4 & G5).
    apply Forall_app in Hg as [Hgf Hgr].
    destruct (e_len e =? size) eqn:El; nv_bool; simplify_eq/=.
    + unfold e_end in *. split_and!; try done; try lia. split; simpl; try done.
      * apply Forall_app. split; [by eapply Forall_swap_remove |].
        apply Forall_cons. split; [|done]. unfold good, e_end. simpl. lia.
      * intros x. rewrite <- Ht. cov_norm.
        rewrite (cover_swap_remove _ _ _ _ He). destruct e. simpl. lia.
      * by eapply Forall_swap_remove.
    + rewrite (u64_small (e_off e + size)), (u64_small (e_len e - size)) by (unfold e_end in *; lia).
      unfold e_end in *. split_and!; try done; try lia. split; simpl; try done.
      * apply Forall_app. split.
        { apply Forall_insert; [done |]. unfold good, e_end. simpl.
          split_and!; try lia; [by apply mod4096_add | by apply mod4096_sub]. }
        apply Forall_cons. split; [|done]. unfold good, e_end. simpl. split_and!; try lia.
      * intros x. rewrite <- Ht. cov_norm.
        rewrite (cover_list_insert _ _ _ _ _ He). destruct e as [o n]. simpl in *.
        generalize (cover (sparse_free s) x) (cover live x) (cover leak x). clear -Hs Hle El G1. intros. cov_lia.
      * apply Forall_insert; [done |]. unfold e_end. simpl. lia.
  - rewrite page_round_id in Hc by lia. rewrite u64_small in Hc by lia.
    destruct (sparse_size s <? _) eqn:Ec; nv_bool; simplify_eq/=.
    split_and!; try done; try lia. split; simpl; try done.
    + split; [lia | by apply mod4096_add].
    + assert (Forall (good (sparse_cur s + size)) (sparse_free s ++ live ++ leak)) as Hg'.
      { apply (Forall_impl _ _ _ Hg). intros e. apply good_mono. lia. }
      apply Forall_app in Hg' as [??]. apply Forall_app. split; [done |].
      apply Forall_cons. split; [unfold good, e_end; simpl; lia | done].
    + intros x. specialize (Ht x). revert Ht. cov_norm.
      generalize (cover (sparse_free s) x) (cover live x) (cover leak x). clear -Hs Hcr. intros. cov_lia.
    + apply Forall_app in Hg as [Hgf _]. apply (Forall_impl _ _ _ Hgf).
      intros e. unfold good. lia.
Qed.

(** An allocation fails only when no recycled extent is large enough and the
    space above the watermark is too small. *)
Lemma sparse_carve_none s live leak size s' :
  win_inv s live leak -> 0 < size <= 2 ^ 62 -> size mod 4096 = 0 ->
  sparse_carve size s = (s', None) ->
  s' = s /\ (forall e, e ∈ sparse_free s -> e_len e < size) /\ sparse_size s < sparse_cur s + size.
Proof.
  intros [[Hsz Hszm] [Hcr Hcrm] Hb [Hva [Hptr Hslot]] Hg Ht Htop] Hs Hm Hc.
  unfold sparse_carve in Hc. rewrite Hptr in Hc. simpl in Hc.
  destruct (best_fit_spec (sparse_free s) size) as (Hle & Hnone & _).
  destruct (best_fit _ _ <? _)%nat eqn:Eb; [by repeat nv_case |].
  apply Nat.ltb_ge in Eb. rewrite page_round_id in Hc by lia. rewrite u64_small in Hc by lia.
  destruct (sparse_size s <? _) eqn:Ec; nv_bool; simplify_eq/=.
  split_and!; [done | apply Hnone; lia | lia].
Qed.

(** *** Release *)

(** Replacing a free extent by the same extent grown over a live one. *)
Lemma grow_inv s live leak i e e' d :
  win_inv s (d :: live) leak -> sparse_free s !! i = Some e ->
  good (sparse_cur s) e' -> e_end e' <> sparse_cur s ->
  (forall x, cov1 e' x = cov1 e x + cov1 d x) ->
  win_inv (Sparse (sparse_gpa_base s) (sparse_size s) (sparse_vmm_va s) (sparse_cur s)
             (sparse_kvm_slot s) (sparse_free_ptr s) (<[i := e']> (sparse_free s))) live leak.
Proof.
  intros [Hsz Hcr Hb Hp Hg Ht Htop] Hi Hg' Htop' Hc. split; simpl; try done.
  - apply Forall_app in Hg as [Hgf Hgr]. apply Forall_cons in Hgr as [_ Hgr].
    apply Forall_app. split; [by apply Forall_insert | done].
  - intros x. specialize (Ht x). revert Ht. cov_norm.
    rewrite (cover_list_insert _ _ _ _ _ Hi), Hc. intros. lia.
  - by apply Forall_insert.
Qed.

(** The freed extent touches the watermark: it and the free extents below it
    return to the untouched space. *)
Lemma free_top_inv s live leak d cur' l' :
  win_inv s (d :: live) leak -> e_end d = sparse_cur s ->
  absorb (length (sparse_free s)) (e_off d) (sparse_free s) = (cur', l') ->
  win_inv (Sparse (sparse_gpa_base s) (sparse_size s) (sparse_vmm_va s) cur'
             (sparse_kvm_slot s) (sparse_free_ptr s) l') live leak.
Proof.
  intros [Hsz Hcr Hb Hp Hg Ht Htop] He Ha.
  assert (sparse_free s ++ (d :: live) ++ leak ≡ₚ d :: sparse_free s ++ live ++ leak) as HP
    by (simpl; by rewrite <- Permutation_middle).
  rewrite HP in Hg. setoid_rewrite HP in Ht.
  destruct (strip_top _ _ _ Hg Ht) as [Hg1 Ht1]; [done |].
  apply Forall_cons in Hg as [Hd _]. unfold good, e_end in *.
  destruct (absorb_spec (live ++ leak) (length (sparse_free s)) (e_off d) (sparse_free s) cur' l')
    as ([? ?] & ? & ? & ? & ?); try done; try lia.
  split; simpl; try done; split; try done; lia.
Qed.

(** The freed extent touches a free extent, before or after it. *)
Lemma free_merge_inv s live leak off size i e :
  win_inv s (Ext off size :: live) leak -> sparse_free s !! i = Some e ->
  off + size <> sparse_cur s -> e_end e = off \/ off + size = e_off e ->
  win_inv (Sparse (sparse_gpa_base s) (sparse_size s) (sparse_vmm_va s) (sparse_cur s)
             (sparse_kvm_slot s) (sparse_free_ptr s)
             (<[i := Ext (if e_end e =? off then e_off e else off) (e_len e + size)]>
                (sparse_free s))) live leak.
Proof.
  intros Hi Hl Htop Hor. pose proof Hi as [_ _ _ _ Hg _ Htops].
  pose proof (list_elem_of_lookup_2 _ _ _ Hl) as He.
  pose proof (proj1 (Forall_forall _ _) Htops e He) as Het.
  apply Forall_app in Hg as [Hgf [(D1 & D2 & D3 & D4 & D5) _]%Forall_cons].
  destruct (proj1 (Forall_forall _ _) Hgf e He) as (E1 & E2 & E3 & E4 & E5).
  unfold e_end in *. simpl in *.
  eapply grow_inv; [done | done | | |]; unfold good, e_end; simpl;
    destruct (_ =? off) eqn:Eo; nv_bool; try lia;
    try (split_and!; try lia; by apply mod4096_add); intros x; cov_lia.
Qed.

(** Releasing a live extent, spelled by any size with the same rounding. *)
Lemma sparse_free_inv s live leak off size :
  let d := Ext off (page_round size) in
  win_inv s (d :: live) leak ->
  exists leak',
    win_inv (nvkvm_sparse_gpa_free (sparse_gpa_base s + off) size s) live leak' /\
    (leak' = leak \/
     leak' = d :: leak /\ NVKVM_GPA_FREE_MAX <= Z.of_nat (length (sparse_free s)) /\
     nvkvm_sparse_gpa_free (sparse_gpa_base s + off) size s = s).
Proof.
  intros d Hi. subst d. unfold nvkvm_sparse_gpa_free. revert Hi.
  generalize (page_round size). clear size. intros size Hi.
  pose proof Hi as [Hsz Hcr Hb [Hva [Hptr Hsl]] Hg Ht Htop].
  pose proof Hg as [Hgf [(D1 & D2 & D3 & _) _]%Forall_cons]%Forall_app.
  unfold e_end in D3. simpl in D1, D2, D3.
  rewrite (proj2 (Z.eqb_neq _ _) Hva), Hptr. simpl. rewrite (proj2 (Z.ltb_ge _ _)) by lia.
  replace (sparse_gpa_base s + off - sparse_gpa_base s) with off by lia.
  rewrite (u64_small (off + size)), (proj2 (Z.eqb_neq size 0)) by lia. simpl.
  rewrite (proj2 (Z.ltb_ge _ _)) by lia.
  destruct (_ =? sparse_cur s) eqn:Etop; nv_bool.
  { destruct (absorb _ _ _) as [cur' l'] eqn:Ea. exists leak. split; [|by left].
    rewrite <- Hptr. by eapply free_top_inv. }
  destruct (list_find _ _) as [[i e]|] eqn:Ef.
  - apply list_find_Some in Ef as (Hli & Hor & _).
    pose proof (proj1 (Forall_forall _ _) Hgf e (list_elem_of_lookup_2 _ _ _ Hli)) as Ge.
    unfold good in Ge. assert (u64 (e_end e) = e_end e) as Hue by (apply u64_small; unfold e_end in *; lia).
    rewrite Hue in *. exists leak. split; [|by left].
    pose proof (free_merge_inv s live leak off size i e Hi Hli Etop Hor) as HM.
    rewrite (u64_small (e_len e + size)) by (unfold e_end in *; lia).
    rewrite Hptr in HM. by destruct (e_end e =? off).
  - destruct (_ <? NVKVM_GPA_FREE_MAX) eqn:Em; nv_bool.
    + exists leak. split; [|by left]. split; simpl; try done.
      * rewrite <- app_assoc. done.
      * intros x. rewrite <- Ht. cov_norm. lia.
      * apply Forall_app. split; [done |]. apply Forall_singleton. done.
    + exists (Ext off size :: leak). split; [|by right]. split; try done.
      * revert Hg. simpl. by rewrite <- !Permutation_middle.
      * intros x. rewrite <- Ht. cov_norm. lia.
Qed.

(** *** Runs of the window

    [live] and [leak] as in [win_inv].  The slot pool is shared with the
    other mappings, so it is any reachable pool at each step; so is the BAR
    base, which the guest programs. *)
Section run.
Context (kvm_vm_fd : Z) (kvm_set_region : Slots.kvm_mem_region -> option Z).

Definition bar_ok (bar : option Z) : Prop := match bar with Some b => 0 <= b <= 2 ^ 62 | None => True end.

Inductive win_reach : sparse_win -> list extent -> list extent -> Prop :=
| wr_init s0 va s :
    sparse_vmm_va s0 = 0 -> va <> 0 -> nvkvm_sparse_init (Ok va) s0 = (s, Ok tt) ->
    win_reach s [] []
| wr_alloc s live leak p slots bar size s' p' gpa :
    win_reach s live leak -> Slots.pool_reach p slots -> bar_ok bar -> 0 < size <= 2 ^ 61 ->
    nvkvm_sparse_gpa_alloc kvm_vm_fd kvm_set_region bar size s p = (s', p', gpa) -> gpa <> 0 ->
    win_reach s' (Ext (gpa - sparse_gpa_base s') (page_round size) :: live) leak
| wr_alloc_fail s live leak p slots bar size s' p' :
    win_reach s live leak -> Slots.pool_reach p slots -> bar_ok bar -> 0 < size <= 2 ^ 61 ->
    nvkvm_sparse_gpa_alloc kvm_vm_fd kvm_set_region bar size s p = (s', p', 0) ->
    win_reach s' live leak
| wr_free s live live' off size leak s' :
    win_reach s live leak -> live ≡ₚ Ext off (page_round size) :: live' ->
    nvkvm_sparse_gpa_free (sparse_gpa_base s + off) size s = s' -> s' <> s ->
    win_reach s' live' leak
| wr_free_dropped s live live' off size leak :
    win_reach s live leak -> live ≡ₚ Ext off (page_round size) :: live' ->
    nvkvm_sparse_gpa_free (sparse_gpa_base s + off) size s = s ->
    win_reach s live' (Ext off (page_round size) :: leak).

(** A window whose memslot is not installed yet. *)
Definition pristine (s : sparse_win) : Prop :=
  sparse_size s = NVKVM_SPARSE_GPA_SIZE /\ sparse_cur s = 0 /\ sparse_kvm_slot s = -1 /\
  sparse_free s = [] /\ sparse_vmm_va s <> 0 /\ sparse_free_ptr s = true.

Definition win_ok (s : sparse_win) (live leak : list extent) : Prop :=
  (pristine s /\ live = [] /\ leak = []) \/ win_inv s live leak.

Hypothesis vm_fd_set : 0 <= kvm_vm_fd.

Lemma sparse_ensure_ok s p slots bar live leak s' p' base :
  win_ok s live leak -> Slots.pool_inv p slots -> bar_ok bar ->
  nvkvm_sparse_ensure kvm_vm_fd kvm_set_region bar s p = (s', p', base) ->
  (base = 0 /\ s' = s) \/
  (base <> 0 /\ win_inv s' live leak /\ sparse_cur s' = sparse_cur s /\ sparse_free s' = sparse_free s /\
   sparse_size s' = sparse_size s).
Proof.
  intros Hok Hp Hb. unfold nvkvm_sparse_ensure. destruct Hok as [[Hpr [-> ->]]|Hi].
  - destruct Hpr as (P1 & P2 & P3 & P4 & P5 & P6).
    rewrite (proj2 (Z.eqb_neq _ _) P5), P3. simpl.
    destruct (_ && _) eqn:Eb; [intros [= <- <- <-]; by left |].
    destruct (Slots.kvm_add_memory_region _ _ _ _ _ _ _) as [p1 [slot|e]] eqn:Ek;
      [|intros [= <- <- <-]; by left].
    intros [= <- <- <-]. right.
    destruct (Slots.kvm_add_memory_region_inv _ _ _ _ _ _ _ _ _ _ Hp Ek) as [(_ & ? & _)|(Hs & _ & _)];
      [lia |].
    assert (0 < match bar with Some b => b | None => NVKVM_SPARSE_GPA_BASE end <= 2 ^ 62) as Hbase.
    { destruct bar as [b|]; simpl in *; [nv_bool; lia | done]. }
    split_and!; try done; [lia |]. split; simpl; try done; rewrite ?P1, ?P2, ?P4; try done.
    intros x. cov_lia.
  - pose proof Hi as [Hsz Hcr Hbs [Hva [Hptr Hsl]] Hg Ht Htop].
    rewrite (proj2 (Z.eqb_neq _ _) Hva), (proj2 (Z.leb_le _ _) Hsl). intros [= <- <- <-].
    right. split_and!; try done. lia.
Qed.

Lemma sparse_alloc_ok s p slots bar size live leak s' p' gpa :
  win_ok s live leak -> Slots.pool_inv p slots -> bar_ok bar -> 0 < size <= 2 ^ 61 ->
  nvkvm_sparse_gpa_alloc kvm_vm_fd kvm_set_region bar size s p = (s', p', gpa) ->
  (gpa = 0 /\ win_ok s' live leak) \/
  (gpa <> 0 /\ win_inv s' (Ext (gpa - sparse_gpa_base s') (page_round size) :: live) leak).
Proof.
  intros Hok Hp Hb Hs. unfold nvkvm_sparse_gpa_alloc.
  destruct (sparse_vmm_va s =? 0); [intros [= <- <- <-]; by left |].
  destruct (nvkvm_sparse_ensure _ _ _ _ _) as [[s1 p1] base] eqn:Ee.
  destruct (sparse_ensure_ok _ _ _ _ _ _ _ _ _ Hok Hp Hb Ee)
    as [[-> ->]|(Hn & Hi & _)]; [intros [= <- <- <-]; by left |].
  rewrite (proj2 (Z.eqb_neq _ _) Hn). destruct (page_round_ge size) as [Hr Hrm]; [lia |]. assert (0 < page_round size <= 2 ^ 62) as Hr' by lia.
  destruct (sparse_carve _ _) as [s2 [off|]] eqn:Ec; intros [= <- <- <-].
  - right. destruct (sparse_carve_inv _ _ _ _ _ _ Hi Hr' Hrm Ec) as (Hi' & Hb1 & _ & Ho & Ho').
    pose proof (wi_base _ _ _ Hi). pose proof (wi_size _ _ _ Hi).
    rewrite u64_small by lia. split; [lia |].
    by replace (sparse_gpa_base s2 + off - sparse_gpa_base s2) with off by lia.
  - left. split; [done |]. right.
    by destruct (sparse_carve_none _ _ _ _ _ Hi Hr' Hrm Ec) as (-> & _ & _).
Qed.

Lemma sparse_free_perm s live leak d live' :
  live ≡ₚ d :: live' -> win_ok s live leak -> win_inv s (d :: live') leak.
Proof.
  intros HP [(_ & -> & _)|[]]; [by apply Permutation_nil_l in HP |].
  split; try done; setoid_rewrite <- HP; done.
Qed.

Lemma win_reach_ok s live leak : win_reach s live leak -> win_ok s live leak.
Proof.
  induction 1 as [s0 va s Hz Hva Hin|s live leak p slots bar size s' p' gpa _ IH Hp Hb Hs Ha Hn
                 |s live leak p slots bar size s' p' _ IH Hp Hb Hs Ha
                 |s live live' off size leak s' _ IH HP Hf Hn|s live live' off size leak _ IH HP Hf].
  - left. unfold nvkvm_sparse_init in Hin. rewrite Hz in Hin. simplify_eq/=. done.
  - right. apply Slots.pool_reach_inv in Hp.
    by destruct (sparse_alloc_ok _ _ _ _ _ _ _ _ _ _ IH Hp Hb Hs Ha) as [[? ?]|[_ ?]].
  - apply Slots.pool_reach_inv in Hp.
    by destruct (sparse_alloc_ok _ _ _ _ _ _ _ _ _ _ IH Hp Hb Hs Ha) as [[_ ?]|[? ?]].
  - right. destruct (sparse_free_inv s live' leak off size (sparse_free_perm _ _ _ _ _ HP IH))
      as (leak' & Hi & [->|(_ & _ & Heq)]); [by rewrite Hf in Hi | congruence].
  - right. pose proof (sparse_free_perm _ _ _ _ _ HP IH) as Hd.
    destruct (sparse_free_inv s live' leak off size Hd) as (leak' & Hi & [->|(-> & _)]);
      rewrite Hf in Hi; [|done]. exfalso.
    pose proof (wi_tile _ _ _ Hi off) as T1. pose proof (wi_tile _ _ _ Hd off) as T2.
    pose proof (wi_good _ _ _ Hd) as [_ [(_ & ? & _) _]%Forall_cons]%Forall_app.
    revert T1 T2. cov_norm. rewrite (cov1_in (Ext off _)) by (unfold e_end; simpl in *; lia). lia.
Qed.

(** C1. [sparse_window_sound]: in every run that frees only live extents, the
    live extents of the sparse window are page-aligned, lie below the watermark
    and inside the window, are pairwise disjoint, and every address below the
    watermark belongs to exactly one live, recycled or dropped extent. *)
Theorem sparse_window_sound (s : sparse_win) (live leak : list extent) :
  win_reach s live leak ->
  sparse_cur s <= sparse_size s /\
  (forall e, e ∈ live -> 0 <= e_off e /\ 0 < e_len e /\ e_end e <= sparse_cur s /\
                       e_off e mod 4096 = 0 /\ e_len e mod 4096 = 0) /\
  (forall l1 e l2 e', live = l1 ++ e :: l2 -> e' ∈ l1 ++ l2 -> disj e e') /\
  (forall x, 0 <= x < sparse_cur s -> cover (sparse_free s ++ live ++ leak) x = 1).
Proof.
  intros [((P1 & P2 & P3) & -> & ->)|[Hsz Hcr _ _ Hg Ht _]]%win_reach_ok.
  { rewrite P1, P2. split_and!; [done | set_solver | by intros [] | intros; lia]. }
  split_and!; [lia | | |].
  - intros e He. apply (proj1 (Forall_forall _ _) Hg). rewrite !elem_of_app. tauto.
  - intros l1 e l2 e' -> He'. eapply cover_disj; [|done]. intros x.
    specialize (Ht x). revert Ht. cov_norm. pose proof (cover_nonneg (sparse_free s) x).
    pose proof (cover_nonneg leak x). pose proof (cov1_range (Ext 0 (sparse_cur s)) x). lia.
  - intros x Hx. rewrite Ht. by apply cov1_in.
Qed.

(** [sparse_window_reclaim]: when every extent was freed and none was dropped
    on a full free list, the watermark is back at 0 and the free list is empty,
    so fragmentation never outlives its allocations. *)
Theorem sparse_window_reclaim (s : sparse_win) :
  win_reach s [] [] -> sparse_cur s = 0 /\ sparse_free s = [].
Proof.
  intros [((P1 & P2 & P3 & P4 & _) & _)|[Hsz Hcr _ _ Hg Ht Htop]]%win_reach_ok; [done |].
  simpl in *. rewrite app_nil_r in *. assert (sparse_cur s = 0) as Hz.
  { destruct (decide (sparse_cur s = 0)); [done |]. exfalso.
    specialize (Ht (sparse_cur s - 1)). rewrite cov1_in in Ht by (unfold e_end; simpl; lia).
    destruct (cover_pos_elem (sparse_free s) (sparse_cur s - 1)) as (e & He & Hin); [lia |].
    pose proof (proj1 (Forall_forall _ _) Hg e He) as (_ & _ & ? & _).
    apply (proj1 (Forall_forall _ _) Htop e He). lia. }
  split; [done |]. rewrite Hz in Hg. destruct (sparse_free s) as [|e l]; [done |].
  apply Forall_cons in Hg as [(? & ? & ? & _) _]. unfold e_end in *. lia.
Qed.

(** [sparse_alloc_complete]: an allocation on an installed window fails only
    when no recycled extent is large enough and the space above the watermark is
    too small; a failure changes nothing. *)
Theorem sparse_alloc_complete (s : sparse_win) (live leak : list extent)
    (p : Slots.slot_pool) (slots : list Z) (bar : option Z) (size : Z)
    (s' : sparse_win) (p' : Slots.slot_pool) :
  win_reach s live leak -> Slots.pool_reach p slots -> 0 <= sparse_kvm_slot s ->
  0 < size <= 2 ^ 61 ->
  nvkvm_sparse_gpa_alloc kvm_vm_fd kvm_set_region bar size s p = (s', p', 0) ->
  s' = s /\ p' = p /\ (forall e, e ∈ sparse_free s -> e_len e < page_round size) /\
  sparse_size s < sparse_cur s + page_round size.
Proof.
  intros [((_ & _ & P3 & _) & _)|Hi]%win_reach_ok _ Hsl Hs; [lia |].
  destruct (page_round_ge size) as [Hr Hrm]; [lia |]. assert (0 < page_round size <= 2 ^ 62) as Hr' by lia.
  pose proof (wi_base _ _ _ Hi) as Hb. pose proof (wi_size _ _ _ Hi) as Hsz.
  pose proof (wi_ptr _ _ _ Hi) as [Hva _].
  unfold nvkvm_sparse_gpa_alloc, nvkvm_sparse_ensure.
  rewrite (proj2 (Z.eqb_neq _ _) Hva), (proj2 (Z.leb_le _ _) Hsl).
  rewrite (proj2 (Z.eqb_neq _ _)) by lia.
  destruct (sparse_carve _ _) as [s2 [off|]] eqn:Ec.
  - destruct (sparse_carve_inv _ _ _ _ _ _ Hi Hr' Hrm Ec) as (_ & Hb1 & _ & Ho & Ho').
    rewrite u64_small by lia. intros [= _ _ E]. lia.
  - intros [= <- <-]. destruct (sparse_carve_none _ _ _ _ _ Hi Hr' Hrm Ec) as (-> & ? & ?). done.
Qed.

(** [sparse_translate_live]: a byte range inside a live extent translates to
    the host address at the same offset of the window buffer, and the range
    stays inside the buffer. *)
Theorem sparse_translate_live (s : sparse_win) (live leak : list extent) (e : extent) (d n : Z) :
  win_reach s live leak -> e ∈ live -> 0 <= d -> 0 <= n -> d + n <= e_len e -> d < e_len e ->
  nvkvm_gpa_to_vmm_va (sparse_gpa_base s + e_off e + d) n s = sparse_vmm_va s + e_off e + d /\
  e_off e + d + n <= sparse_size s.
Proof.
  intros [((_ & _) & -> & _)|Hi]%win_reach_ok He Hd Hn Hdn Hd'; [set_solver |].
  destruct Hi as [Hsz Hcr Hb [Hva _] Hg _ _].
  assert (good (sparse_cur s) e) as G
    by (apply (proj1 (Forall_forall _ _) Hg); rewrite !elem_of_app; tauto).
  unfold good, e_end in G. unfold nvkvm_gpa_to_vmm_va.
  rewrite (proj2 (Z.eqb_neq _ _) Hva), (proj2 (Z.ltb_ge _ _)) by lia.
  replace (sparse_gpa_base s + e_off e + d - sparse_gpa_base s) with (e_off e + d) by lia.
  rewrite (u64_small (e_off e + d + n)) by lia.
  rewrite (proj2 (Z.leb_gt _ _)), (proj2 (Z.ltb_ge _ _)) by lia. simpl. lia.
Qed.

End run.

(** *** A concrete run: two allocations, and the release of the second *)

Definition ex_kvm : Slots.kvm_mem_region -> option Z := fun _ => None.
Definition ex_win0 : sparse_win := Sparse 0 NVKVM_SPARSE_GPA_SIZE 0x7f0000000000 0 (-1) true [].
Definition ex_win1 : sparse_win :=
  Sparse 0x20000000000 NVKVM_SPARSE_GPA_SIZE 0x7f0000000000 8192 64 true [].
Definition ex_win2 : sparse_win :=
  Sparse 0x20000000000 NVKVM_SPARSE_GPA_SIZE 0x7f0000000000 12288 64 true [].
Definition ex_win3 : sparse_win :=
  Sparse 0x20000000000 NVKVM_SPARSE_GPA_SIZE 0x7f0000000000 12288 64 true [Ext 0 8192].
Definition ex_win4 : sparse_win :=
  Sparse 0x20000000000 NVKVM_SPARSE_GPA_SIZE 0x7f0000000000 0 64 true [].

Lemma ex_reach0 : win_reach 3 ex_kvm ex_win0 [] [].
Proof. by apply (wr_init _ _ (Sparse 0 0 0 0 0 false []) 0x7f0000000000). Qed.

Lemma ex_reach2 : win_reach 3 ex_kvm ex_win2 [Ext 8192 4096; Ext 0 8192] [].
Proof.
  apply (wr_alloc 3 ex_kvm ex_win1 [Ext 0 8192] [] Slots.slot_pool_init [] None 4096 ex_win2
           Slots.slot_pool_init 0x20000002000); try done; [|apply Slots.pr_init].
  eapply (wr_alloc 3 ex_kvm ex_win0 [] [] Slots.slot_pool_init [] None 5000 ex_win1
           _ 0x20000000000); try done; [apply ex_reach0 | apply Slots.pr_init].
Qed.

(** Freeing the lower extent first leaves a recycled extent, which the
    release of the upper one then absorbs. *)
Lemma ex_reach3 : win_reach 3 ex_kvm ex_win3 [Ext 8192 4096] [].
Proof.
  apply (wr_free 3 ex_kvm ex_win2 [Ext 8192 4096; Ext 0 8192] _ 0 5000); try done;
    [apply ex_reach2 | constructor].
Qed.

Lemma ex_reach4 : win_reach 3 ex_kvm ex_win4 [] [].
Proof.
  apply (wr_free 3 ex_kvm ex_win3 [Ext 8192 4096] _ 8192 4096); try done. apply ex_reach3.
Qed.

Lemma sparse_window_sound_witness :
  sparse_cur ex_win2 = 12288 /\ disj (Ext 8192 4096) (Ext 0 8192).
Proof.
  split; [done |].
  destruct (sparse_window_sound 3 ex_kvm ltac:(lia) ex_win2 _ _ ex_reach2) as (_ & _ & Hd & _).
  apply (Hd [] (Ext 8192 4096) [Ext 0 8192]); [done | set_solver].
Defined.

Lemma sparse_window_reclaim_witness : sparse_cur ex_win4 = 0 /\ sparse_free ex_win4 = [].
Proof. apply (sparse_window_reclaim 3 ex_kvm ltac:(lia) ex_win4 ex_reach4). Defined.

Lemma sparse_alloc_complete_witness :
  sparse_size ex_win3 < sparse_cur ex_win3 + page_round 0x2000000000.
Proof.
  destruct (sparse_alloc_complete 3 ex_kvm ltac:(lia) ex_win3 _ _ Slots.slot_pool_init [] None
              0x2000000000 ex_win3 Slots.slot_pool_init ex_reach3 Slots.pr_init ltac:(done)
              ltac:(lia) ltac:(vm_compute; reflexivity)) as (_ & _ & _ & H). exact H.
Defined.

Lemma sparse_translate_live_witness :
  nvkvm_gpa_to_vmm_va (0x20000000000 + 8192 + 16) 100 ex_win2 = 0x7f0000000000 + 8192 + 16.
Proof.
  apply (sparse_translate_live 3 ex_kvm ltac:(lia) ex_win2 _ _ (Ext 8192 4096) 16 100 ex_reach2);
    try (simpl; lia). set_solver.
Defined.

End Sparse.

(** ** The legacy window ([alloc_gpa]) and the regions mapped in it *)

Module Legacy.

(** The [mmap_win_*] fields of [VirtIONvgpu]. *)
Record mmap_win := MmapWin { mmap_win_gpa : Z; mmap_win_size : Z; mmap_win_cur : Z }.

Definition win_align (length : Z) : Z := if Z.shiftl 2 20 <=? length then Z.shiftl 2 20 else 4096.

(** Returns the GPA, 0 when the window is exhausted. *)
Definition alloc_gpa (length : Z) (w : mmap_win) : mmap_win * Z :=
  let align := win_align length in
  let cur := mask_down (u64 (mmap_win_cur w + align - 1)) align in
  if mmap_win_size w <? u64 (cur + length)
  then (MmapWin (mmap_win_gpa w) (mmap_win_size w) cur, 0)
  else (MmapWin (mmap_win_gpa w) (mmap_win_size w) (u64 (cur + length)),
        u64 (mmap_win_gpa w + cur)).

(** [struct nvkvm_mmap_region]; [g_new0] leaves [guest_pa] and [kvm_slot] 0. *)
Record mmap_region := MmapRegion {
  mr_host_va : Z;
  mr_length : Z;
  mr_guest_pa : Z;
  mr_kvm_slot : Z
}.

(** [host_mmap length] is the outcome of the host [mmap]. *)
Definition nvkvm_mmap_create (host_mmap : Z -> res Z) (length : Z) : res mmap_region :=
  let length := mask_down (u64 (length + 4095)) 4096 in
  match host_mmap length with
  | Err e => Err e
  | Ok hva => Ok (MmapRegion hva length 0 0)
  end.

Section kvm.
Context (kvm_vm_fd : Z) (kvm_set_region : Slots.kvm_mem_region -> option Z).

(** The [list (Z * Z)] are the [munmap(va, length)] calls made: on failure
    the host mapping of the region is unmapped. *)
Definition nvkvm_mmap_map_to_guest (r : mmap_region) (w : mmap_win) (p : Slots.slot_pool)
  : mmap_win * Slots.slot_pool * res mmap_region * list (Z * Z) :=
  let '(w', gpa) := alloc_gpa (mr_length r) w in
  if gpa =? 0 then (w', p, Err ENOMEM, [(mr_host_va r, mr_length r)])
  else
    match Slots.kvm_add_memory_region kvm_vm_fd kvm_set_region gpa (mr_host_va r) (mr_length r)
            false p with
    | (p', Err e) => (w', p', Err e, [(mr_host_va r, mr_length r)])
    | (p', Ok slot) => (w', p', Ok (MmapRegion (mr_host_va r) (mr_length r) gpa slot), [])
    end.

Definition nvkvm_mmap_unmap_from_guest (r : mmap_region) (p : Slots.slot_pool)
  : mmap_region * Slots.slot_pool * option Slots.kvm_mem_region :=
  if 0 <=? mr_kvm_slot r then
    let '(p', req) := Slots.kvm_remove_memory_region kvm_vm_fd (mr_kvm_slot r) p in
    (MmapRegion (mr_host_va r) (mr_length r) (mr_guest_pa r) (-1), p', req)
  else (r, p, None).
End kvm.

(** The [munmap] calls of the destruction; [MAP_FAILED] is [(void* )-1]. *)
Definition nvkvm_mmap_destroy (r : mmap_region) : list (Z * Z) :=
  if negb (mr_host_va r =? 0) && negb (mr_host_va r =? 2 ^ 64 - 1)
  then [(mr_host_va r, mr_length r)] else [].

Lemma win_align_pow2 length :
  win_align length = 2 ^ 21 \/ win_align length = 2 ^ 12.
Proof. unfold win_align. nv_case; auto. Qed.

Lemma align_up_spec v k :
  0 <= k <= 32 -> 0 <= v <= 2 ^ 62 ->
  let r := mask_down (u64 (v + 2 ^ k - 1)) (2 ^ k) in v <= r < v + 2 ^ k /\ r mod 2 ^ k = 0.
Proof.
  intros Hk Hv. cbv zeta. assert (0 < 2 ^ k <= 2 ^ 32) as Hp.
  { split; [apply Z.pow_pos_nonneg; lia | apply Z.pow_le_mono_r; lia]. }
  rewrite u64_small by lia. rewrite mask_down_pow2 by lia.
  pose proof (Z.mod_pos_bound (v + 2 ^ k - 1) (2 ^ k)). split; [lia |].
  rewrite Zminus_mod_idemp_r, Z.sub_diag. apply Z.mod_0_l. lia.
Qed.

(** [alloc_gpa_fresh]: below the wrap, the legacy window hands out ranges that
    start at or above the previous watermark, end at the new one and inside
    the window, are 4 KiB aligned, and 2 MiB aligned when at least 2 MiB long;
    a refusal leaves the watermark within one alignment step and means that
    the range does not fit above it. *)
Theorem alloc_gpa_fresh (w w' : mmap_win) (length gpa : Z) :
  0 <= mmap_win_cur w <= 2 ^ 61 -> 0 <= mmap_win_size w <= 2 ^ 61 ->
  0 < mmap_win_gpa w <= 2 ^ 61 -> 0 < length <= 2 ^ 61 ->
  alloc_gpa length w = (w', gpa) ->
  (gpa <> 0 /\
   mmap_win_gpa w + mmap_win_cur w <= gpa /\
   gpa + length = mmap_win_gpa w + mmap_win_cur w' /\
   mmap_win_cur w' <= mmap_win_size w /\
   (gpa - mmap_win_gpa w) mod (if 2 ^ 21 <=? length then 2 ^ 21 else 4096) = 0) \/
  (gpa = 0 /\ mmap_win_size w < mmap_win_cur w' + length /\
   mmap_win_cur w <= mmap_win_cur w' < mmap_win_cur w + 2 ^ 21).
Proof.
  intros Hc Hs Hg Hl. unfold alloc_gpa.
  assert (exists k, win_align length = 2 ^ k /\ 0 <= k <= 21 /\
           (if 2 ^ 21 <=? length then 2 ^ 21 else 4096) = 2 ^ k) as (k & Ek & Hk & Ek').
  { unfold win_align. destruct (Z.leb_spec (Z.shiftl 2 20) length) as [E|E];
      change (Z.shiftl 2 20) with (2 ^ 21) in *.
    - exists 21. rewrite (proj2 (Z.leb_le _ _) E). done.
    - exists 12. rewrite (proj2 (Z.leb_gt _ _) E). done. }
  rewrite Ek, Ek'. destruct (align_up_spec (mmap_win_cur w) k) as [Hr Hm]; [lia | lia |].
  assert (2 ^ k <= 2 ^ 21) by (apply Z.pow_le_mono_r; lia).
  revert Hr Hm. generalize (mask_down (u64 (mmap_win_cur w + 2 ^ k - 1)) (2 ^ k)). intros r Hr Hm.
  rewrite (u64_small (r + length)), (u64_small (mmap_win_gpa w + r)) by lia.
  destruct (_ <? _) eqn:E; nv_bool; intros [= <- <-]; simpl; [right; lia | left].
  replace (mmap_win_gpa w + r - mmap_win_gpa w) with r by lia. lia.
Qed.

Lemma alloc_gpa_fresh_witness :
  alloc_gpa 3000000 (MmapWin 0x10000000000 0x400000000 5000) =
    (MmapWin 0x10000000000 0x400000000 5097152, 0x10000200000) /\
  (0x10000200000 - 0x10000000000) mod 2 ^ 21 = 0.
Proof.
  split; [vm_compute; reflexivity |].
  destruct (alloc_gpa_fresh (MmapWin 0x10000000000 0x400000000 5000)
    (MmapWin 0x10000000000 0x400000000 5097152) 3000000 0x10000200000)
    as [(_ & _ & _ & _ & H)|(H & _)]; try (simpl; lia); [vm_compute; reflexivity | exact H].
Defined.

End Legacy.
