(* ===== verification/Ring.v ===== *)
(** * The command-buffer ring ([src/common/nvkvm_ring.h])

    A single-producer single-consumer byte ring in memory shared by the guest
    and an isolate.  The control words and the data region are the shared
    memory; each helper is a function of it.  The two ends run concurrently, so
    the contract is stated on the step relation [step], in which every shared
    access of either end is a separate step. *)

From S2P Require Import Prelude Bytes.
Local Open Scope Z_scope.
Local Open Scope nv_scope.

Module Ring.

Definition NVKVM_RING_ALIGN : Z := 8.
Definition NVKVM_RING_REC_SKIP : Z := 0.
Definition NVKVM_RING_REC_DATA : Z := 1.

(** [sizeof(struct nvkvm_ring_rec)] and [sizeof(struct nvkvm_ring)]. *)
Definition sizeof_rec : Z := 4 + 4.
Definition sizeof_ring : Z := (8 + 8 * 7) + (8 + 8 * 7) + (8 + 8 * 7) + (4 + 4 * 15).

(** [struct nvkvm_ring] and the data region behind it. *)
Record ring := Shm {
  r_size : Z;
  r_tail : Z;
  r_head : Z;
  r_data : bytes
}.

Definition nvkvm_ring_resp_off (ring_bytes : Z) : Z := u64 (sizeof_ring + ring_bytes).
Definition nvkvm_ring_region_size (ring_bytes : Z) : Z := u64 (2 * u64 (sizeof_ring + ring_bytes)).

Definition nvkvm_ring_roundup (x : Z) : Z :=
  Z.land (u32 (x + (NVKVM_RING_ALIGN - 1))) (u32 (Z.lnot (NVKVM_RING_ALIGN - 1))).

Definition nvkvm_ring_size_ok (n : Z) : bool := (64 <=? n) && (Z.land n (u64 (n - 1)) =? 0).

(** Writes a record header. *)
Definition put_rec (d : bytes) (off len type : Z) : bytes := put32 (put32 d off len) (off + 4) type.

Definition set_data (r : ring) (d : bytes) : ring := Shm (r_size r) (r_tail r) (r_head r) d.

(** [Some (ring, payload offset in the data region, *out_total)], [None] for
    [NULL]. *)
Definition nvkvm_ring_reserve (r : ring) (cap payload : Z) : option (ring * Z * Z) :=
  let rec := nvkvm_ring_roundup (u32 (sizeof_rec + payload)) in
  let N := cap in
  if negb (nvkvm_ring_size_ok N) then None
  else
    let tail := r_tail r in
    let head := r_head r in
    let used := u64 (tail - head) in
    let off := Z.land tail (u64 (N - 1)) in
    let to_end := u64 (N - off) in
    if (N <? rec) || (N <? payload) then None
    else if rec <=? to_end then
      if u64 (N - used) <? rec then None
      else Some (set_data r (put_rec (r_data r) off rec NVKVM_RING_REC_DATA),
                 off + sizeof_rec, rec)
    else if u64 (N - used) <? u64 (to_end + rec) then None
    else
      let d1 := put_rec (r_data r) off (u32 to_end) NVKVM_RING_REC_SKIP in
      let d2 := put_rec d1 0 rec NVKVM_RING_REC_DATA in
      Some (set_data r d2, sizeof_rec, u64 (to_end + rec)).

Definition nvkvm_ring_commit (r : ring) (total : Z) : ring :=
  Shm (r_size r) (u64 (r_tail r + total)) (r_head r) (r_data r).

(** One iteration of the [for (;;)] of [nvkvm_ring_peek]. *)
Inductive peek_res :=
| PEmpty
| PBad
| PSkip (head : Z)
| PData (pay len total : Z).

(** The first component lists the [(offset, length)] loads from the data
    region. *)
Definition peek_iter (r : ring) (N : Z) : list (Z * Z) * peek_res :=
  let head := r_head r in
  let tail := r_tail r in
  let avail := u64 (tail - head) in
  if avail =? 0 then ([], PEmpty)
  else if (avail <? sizeof_rec) || (N <? avail) then ([], PBad)
  else
    let off := Z.land head (u64 (N - 1)) in
    let len := get32 (r_data r) off in
    let type := get32 (r_data r) (off + 4) in
    ([(off, sizeof_rec)],
     if (len <? sizeof_rec) || negb (Z.land len (NVKVM_RING_ALIGN - 1) =? 0) || (avail <? len)
        || (N <? len) || (N <? u64 (off + len)) then PBad
     else if type =? NVKVM_RING_REC_SKIP then PSkip (u64 (head + len))
     else if negb (type =? NVKVM_RING_REC_DATA) then PBad
     else PData (off + sizeof_rec) (len - sizeof_rec) len).

Definition set_head (r : ring) (head : Z) : ring := Shm (r_size r) (r_tail r) head (r_data r).

(** The result of a whole [nvkvm_ring_peek]. *)
Inductive peek_out :=
| Peek_empty
| Peek_bad
| Peek_ok (pay len total : Z)
| Peek_fuel.

Fixpoint peek_loop (fuel : nat) (r : ring) (N : Z) : ring * peek_out :=
  match fuel with
  | O => (r, Peek_fuel)
  | S fuel' =>
      match snd (peek_iter r N) with
      | PEmpty => (r, Peek_empty)
      | PBad => (r, Peek_bad)
      | PSkip head => peek_loop fuel' (set_head r head) N
      | PData pay len total => (r, Peek_ok pay len total)
      end
  end.

(** Each skip consumes at least 8 of at most [cap] available bytes. *)
Definition nvkvm_ring_peek (r : ring) (cap : Z) : ring * peek_out :=
  if negb (nvkvm_ring_size_ok cap) then (r, Peek_bad)
  else peek_loop (Z.to_nat (cap / 8) + 1) r cap.

Definition nvkvm_ring_pop (r : ring) (total : Z) : ring := set_head r (u64 (r_head r + total)).

Definition nvkvm_ring_has_work (r : ring) : bool := negb (r_tail r =? r_head r).

(** ** Arithmetic of the ring *)

(** [nvkvm_ring_size_ok] accepts exactly the powers of two from 64 up. *)
Lemma size_ok_pow2 n :
  0 <= n < 2 ^ 64 -> nvkvm_ring_size_ok n = true <-> exists k, 6 <= k < 64 /\ n = 2 ^ k.
Proof.
  intros Hn. unfold nvkvm_ring_size_ok. split.
  - intros [H64 Hl]%andb_true_iff. nv_bool. rewrite u64_small in Hl by lia.
    exists (Z.log2 n). assert (0 < n) as Hp by lia. pose proof (Z.log2_spec n Hp) as [L1 L2].
    assert (6 <= Z.log2 n) by (apply Z.log2_le_pow2; lia).
    assert (Z.log2 n < 64) by (apply Z.log2_lt_pow2; lia).
    split; [lia |]. destruct (decide (n = 2 ^ Z.log2 n)); [done |]. exfalso.
    assert (Z.log2 (n - 1) = Z.log2 n) as Hlog.
    { apply Z.log2_unique; [lia |]. rewrite <- Z.add_1_r in L2. lia. }
    assert (Z.testbit (Z.land n (n - 1)) (Z.log2 n) = true) as Hb.
    { rewrite Z.land_spec, Z.bit_log2 by lia. rewrite <- Hlog. by rewrite Z.bit_log2 by lia. }
    rewrite Hl, Z.bits_0 in Hb. done.
  - intros (k & Hk & ->). assert (2 ^ 6 <= 2 ^ k) by (apply Z.pow_le_mono_r; lia).
    apply andb_true_iff. split; [apply Z.leb_le; lia |]. apply Z.eqb_eq.
    rewrite u64_small by lia. rewrite land_pow2_minus_1 by lia. apply Z.mod_same. lia.
Qed.

Lemma roundup_spec x :
  0 <= x < 2 ^ 32 - 8 ->
  x <= nvkvm_ring_roundup x < x + 8 /\ nvkvm_ring_roundup x mod 8 = 0.
Proof.
  intros Hx. unfold nvkvm_ring_roundup, NVKVM_RING_ALIGN. change (8 - 1) with 7.
  rewrite u32_small by lia.
  assert (Z.land (x + 7) (u32 (Z.lnot 7)) = (x + 7) - (x + 7) mod 8) as ->.
  { change 8 with (2 ^ 3). rewrite <- ldiff_ones_sub by lia. change (Z.lnot 7) with (Z.lnot (Z.ones 3)).
    unfold u32. rewrite <- Z.land_ones by lia. apply Z.bits_inj'. intros i Hi.
    rewrite Z.ldiff_spec, !Z.land_spec, Z.lnot_spec by lia.
    destruct (decide (i < 32)).
    - rewrite (Z.ones_spec_low 32) by lia. by rewrite andb_true_r.
    - rewrite (Z.ones_spec_high 32), (Z.bits_above_log2 (x + 7) i); [done | lia | | lia].
      apply Z.log2_lt_pow2; [lia |]. apply Z.lt_le_trans with (2 ^ 32); [lia |].
      apply Z.pow_le_mono_r; lia. }
  pose proof (Z.mod_pos_bound (x + 7) 8). split; [lia |].
  rewrite Zminus_mod_idemp_r, Z.sub_diag. done.
Qed.

(** [d'] differs from [d] at most in the [n] bytes at offset [o]. *)
Definition changed (d d' : bytes) (o n : Z) : Prop :=
  forall i, ~ (o <= i < o + n) -> get8 d' i = get8 d i.

Lemma put_rec_changed d o len ty : changed d (put_rec d o len ty) o 8.
Proof. intros i Hi. unfold put_rec. rewrite !get8_put32_ne by lia. done. Qed.

Lemma write_changed d o l : changed d (write_bytes d o l) o (Z.of_nat (length l)).
Proof. intros i Hi. by apply get8_write_ne. Qed.

(** ** Representation

    The counters run freely modulo [2^64]; [h] and [t] below are their
    unbounded values, of which [r_head] and [r_tail] are the 64-bit images.
    The bytes of the logical range [a, b) live at offsets [x mod N]. *)

Section repr.
Context (N k : Z) (HN : N = 2 ^ k) (Hk : 6 <= k <= 31).

(** A well-formed record at logical position [a]. *)
Definition seg (d : bytes) (a len type : Z) : Prop :=
  get32 d (a mod N) = len /\ get32 d (a mod N + 4) = type /\
  8 <= len /\ len mod 8 = 0 /\ a mod N + len <= N.

(** The logical range [a, b) is a sequence of records whose data records carry
    the given payloads. *)
Inductive recs (d : bytes) : Z -> Z -> list (list Z) -> Prop :=
| recs_nil a : recs d a a []
| recs_skip a len b q :
    seg d a len NVKVM_RING_REC_SKIP -> recs d (a + len) b q -> recs d a b q
| recs_data a len b q :
    seg d a len NVKVM_RING_REC_DATA -> recs d (a + len) b q ->
    recs d a b (read_bytes d (a mod N + 8) (len - 8) :: q).

Lemma N_bounds : 64 <= N <= 2 ^ 31.
Proof.
  rewrite HN. change 64 with (2 ^ 6). split; apply Z.pow_le_mono_r; lia.
Qed.

Lemma N_size_ok : nvkvm_ring_size_ok N = true.
Proof. pose proof N_bounds. apply size_ok_pow2; [lia |]. exists k. lia. Qed.

Lemma u64_mod_N t : u64 t mod N = t mod N.
Proof.
  unfold u64. rewrite HN. apply Z.mod_mod_divide. exists (2 ^ (64 - k)).
  rewrite <- Z.pow_add_r by lia. f_equal. lia.
Qed.

Lemma off_mod t : Z.land (u64 t) (u64 (N - 1)) = t mod N.
Proof.
  pose proof N_bounds. rewrite (u64_small (N - 1)) by lia. rewrite <- u64_mod_N.
  rewrite HN. apply land_pow2_minus_1. lia.
Qed.

Lemma u64_sub_small h t : 0 <= t - h < 2 ^ 64 -> u64 (u64 t - u64 h) = t - h.
Proof. intros. unfold u64. rewrite <- Zminus_mod. by apply Z.mod_small. Qed.

Lemma u64_add a b : u64 (u64 a + b) = u64 (a + b).
Proof. unfold u64. apply Zplus_mod_idemp_l. Qed.

Lemma mod_N_range t : 0 <= t mod N < N.
Proof. pose proof N_bounds. apply Z.mod_pos_bound. lia. Qed.

Lemma mod_N_aligned t : t mod 8 = 0 -> (t mod N) mod 8 = 0.
Proof.
  intros Ht. rewrite HN, Z.mod_mod_divide; [done |]. exists (2 ^ (k - 3)).
  change 8 with (2 ^ 3). rewrite <- Z.pow_add_r by lia. f_equal. lia.
Qed.

(** Inside one lap of the ring an offset determines its position. *)
Lemma mod_N_add t i : t mod N + i < N -> 0 <= t mod N + i -> (t + i) mod N = t mod N + i.
Proof.
  intros H1 H2. pose proof N_bounds. rewrite <- Zplus_mod_idemp_l. apply Z.mod_small. lia.
Qed.

Lemma mod_N_next_lap t : (t + (N - t mod N)) mod N = 0.
Proof.
  pose proof N_bounds. rewrite <- Zplus_mod_idemp_l.
  replace (t mod N + (N - t mod N)) with N by lia. apply Z.mod_same. lia.
Qed.

Lemma mod_N_inj x y : x <= y < x + N -> x mod N = y mod N -> x = y.
Proof.
  intros H1 H2. pose proof N_bounds. pose proof (Z.div_mod x N). pose proof (Z.div_mod y N).
  assert (y / N = x / N); [|lia].
  destruct (Z.lt_trichotomy (x / N) (y / N)) as [?|[?|?]]; nia.
Qed.

(** Memories that agree on the offsets of a logical range. *)
Definition same (d d' : bytes) (a b : Z) : Prop :=
  forall x, a <= x < b -> get8 d' (x mod N) = get8 d (x mod N).

Lemma same_agree d d' a b x n :
  same d d' a b -> a <= x -> x + n <= b -> x mod N + n <= N -> agree d d' (x mod N) (x mod N + n).
Proof.
  intros Hs Hx Hb Hn i Hi. pose proof (mod_N_range x).
  specialize (Hs (x + (i - x mod N))). rewrite mod_N_add in Hs by lia.
  replace (x mod N + (i - x mod N)) with i in Hs by lia. symmetry. apply Hs. lia.
Qed.

Lemma seg_same d d' a b x len ty :
  same d d' a b -> a <= x -> x + len <= b -> seg d x len ty -> seg d' x len ty.
Proof.
  intros Hs Hx Hb (H1 & H2 & H3 & H4 & H5).
  pose proof (same_agree d d' a b x len Hs Hx Hb H5) as Ha. unfold seg.
  rewrite <- (agree_get32 d d' (x mod N) (x mod N + len)) by (done || lia).
  rewrite <- (agree_get32 d d' (x mod N) (x mod N + len) (x mod N + 4)) by (done || lia). done.
Qed.

Lemma recs_le d a b q : recs d a b q -> a <= b.
Proof. induction 1 as [|a len b q [? ?]|a len b q [? ?]]; lia. Qed.

Lemma recs_app d a b c q1 q2 : recs d a b q1 -> recs d b c q2 -> recs d a c (q1 ++ q2).
Proof.
  induction 1; intros; [done | eapply recs_skip; eauto | simpl; eapply recs_data; eauto].
Qed.

Lemma recs_same d d' a b q : same d d' a b -> recs d a b q -> recs d' a b q.
Proof.
  intros Hs Hr. induction Hr as [|x len b q Hg Hr IH|x len b q Hg Hr IH]; [constructor | |];
    pose proof (recs_le _ _ _ _ Hr); pose proof Hg as (_ & _ & ? & _ & ?).
  all: assert (recs d' (x + len) b q) by (apply IH; intros y Hy; apply Hs; lia).
  all: pose proof (seg_same d d' x b x len _ Hs ltac:(lia) ltac:(lia) Hg).
  - by eapply recs_skip.
  - rewrite (agree_read d d' (x mod N) (x mod N + len)) by
      (try lia; by apply (same_agree d d' x b); [done | lia | lia | lia]).
    by eapply recs_data.
Qed.

(** A write ahead of the range, less than a lap away, does not touch it. *)
Lemma changed_same d d' x n a b :
  changed d d' (x mod N) n -> x mod N + n <= N -> b <= x -> x + n <= a + N -> same d d' a b.
Proof.
  intros Hc Hn Hb Ha y Hy. apply Hc. intros Hin. pose proof (mod_N_range x).
  set (j := y mod N - x mod N) in *.
  assert ((x + j) mod N = y mod N) as E by (rewrite mod_N_add by lia; lia).
  symmetry in E. apply (mod_N_inj y (x + j)) in E; lia.
Qed.

Lemma seg_put_rec d a len ty :
  8 <= len < 2 ^ 32 -> 0 <= ty < 2 ^ 32 -> len mod 8 = 0 -> a mod N + len <= N ->
  seg (put_rec d (a mod N) len ty) a len ty.
Proof.
  intros. unfold seg, put_rec. rewrite get32_put32_ne by lia. rewrite !get32_put32.
  rewrite !u32_small by lia. lia.
Qed.

(** Writing the payload keeps the header. *)
Lemma seg_changed d d' a len ty n :
  changed d d' (a mod N + 8) n -> seg d a len ty -> seg d' a len ty.
Proof.
  intros Hc (H1 & H2 & H3). unfold seg.
  assert (agree d' d (a mod N) (a mod N + 8)) as Ha by (intros i Hi; apply Hc; lia).
  rewrite (agree_get32 d' d _ _ _ Ha), (agree_get32 d' d _ _ (a mod N + 4) Ha) by lia. done.
Qed.

(** What a reservation leaves behind: a data record of [len] bytes at the
    logical position [a], after at most one skip record, all in free space. *)
Record reserved (d d' : bytes) (h t payload pay total a len : Z) : Prop := {
  rs_room : t + total <= h + N;
  rs_pos : t <= a /\ a + len = t + total /\ total mod 8 = 0;
  rs_pay : pay = a mod N + 8;
  rs_len : payload + 8 <= len < payload + 16;
  rs_seg : seg d' a len NVKVM_RING_REC_DATA;
  rs_skip : a = t \/ seg d' t (a - t) NVKVM_RING_REC_SKIP;
  rs_same : same d d' h t;
  rs_bound : changed d d' 0 N
}.

Lemma to_end_spec t :
  t mod 8 = 0 -> 8 <= N - t mod N <= N /\ (N - t mod N) mod 8 = 0.
Proof.
  intros Ht. pose proof N_bounds. pose proof (mod_N_range t). pose proof (mod_N_aligned t Ht).
  assert (N mod 8 = 0) as HN8.
  { rewrite HN. replace k with (3 + (k - 3)) by lia. rewrite Z.pow_add_r by lia.
    rewrite Z.mul_comm. apply Z.mod_mul. lia. }
  assert ((N - t mod N) mod 8 = 0) as H8 by (rewrite Zminus_mod, HN8; by rewrite H1).
  split; [|done]. revert H8. Z.to_euclidean_division_equations. lia.
Qed.

Lemma reserve_spec r h t payload r' pay total :
  r_head r = u64 h -> r_tail r = u64 t -> h <= t <= h + N -> t mod 8 = 0 -> 0 <= payload < 2 ^ 32 ->
  nvkvm_ring_reserve r N payload = Some (r', pay, total) ->
  r' = set_data r (r_data r') /\
  exists a len, reserved (r_data r) (r_data r') h t payload pay total a len.
Proof.
  intros Hh Ht Hht Ht8 Hp. pose proof N_bounds as HNb. unfold nvkvm_ring_reserve.
  rewrite N_size_ok, Hh, Ht, off_mod, u64_sub_small by lia. simpl negb. cbv iota zeta.
  pose proof (mod_N_range t) as Hr. destruct (to_end_spec t Ht8) as [He He8].
  rewrite (u64_small (N - t mod N)), (u64_small (N - (t - h))) by lia.
  destruct ((N <? _) || (N <? payload)) eqn:Eg; [done |]. apply orb_false_iff in Eg as [Eg Eg2]. nv_bool.
  destruct (roundup_spec (u32 (sizeof_rec + payload))) as [R1 R8].
  { rewrite u32_small; unfold sizeof_rec; lia. }
  revert R1 R8 Eg. rewrite (u32_small (sizeof_rec + payload)) by (unfold sizeof_rec; lia).
  unfold sizeof_rec. generalize (nvkvm_ring_roundup (4 + 4 + payload)). intros rec R1 R8 Eg.
  destruct (rec <=? _) eqn:E1; nv_bool.
  - destruct (_ <? rec) eqn:E2; [done |]. nv_bool. intros [= <- <- <-]. simpl. split; [done |].
    pose proof (put_rec_changed (r_data r) (t mod N) rec NVKVM_RING_REC_DATA) as Hc.
    exists t, rec. split; try lia; [apply seg_put_rec; unfold NVKVM_RING_REC_DATA; lia | | intros i Hi; apply Hc; lia].
    eapply (changed_same _ _ t 8); [done | lia | lia | lia].
  - rewrite u64_small by lia. destruct (_ <? _) eqn:E2; [done |]. nv_bool.
    intros [= <- <- <-]. simpl. split; [done |]. rewrite (u32_small (N - t mod N)) by lia.
    set (a := t + (N - t mod N)). set (d1 := put_rec _ (t mod N) _ _).
    assert (a mod N = 0) as Ha by apply mod_N_next_lap.
    pose proof (put_rec_changed (r_data r) (t mod N) (N - t mod N) NVKVM_RING_REC_SKIP) as C1.
    fold d1 in C1. replace (put_rec d1 0 rec NVKVM_RING_REC_DATA)
      with (put_rec d1 (a mod N) rec NVKVM_RING_REC_DATA) by (by rewrite Ha).
    pose proof (put_rec_changed d1 (a mod N) rec NVKVM_RING_REC_DATA) as C2.
    exists a, rec. split; try lia; try (unfold a; lia).
    + split_and!; [unfold a; lia | unfold a; lia |].
      rewrite <- Zplus_mod_idemp_l, <- Zplus_mod_idemp_r, He8, R8. done.
    + apply seg_put_rec; unfold NVKVM_RING_REC_DATA; lia.
    + right. replace (a - t) with (N - t mod N) by (unfold a; lia).
      apply (seg_same d1 _ t a t); try (unfold a; lia).
      * apply (changed_same _ _ a 8); [done | lia | lia | unfold a; lia].
      * apply seg_put_rec; unfold NVKVM_RING_REC_SKIP; lia.
    + intros x Hx. rewrite (changed_same d1 _ a 8 h t C2) by (unfold a in *; lia).
      apply (changed_same _ _ t 8 h t C1); lia.
    + intros i Hi. rewrite C2 by lia. apply C1. lia.
Qed.

(** On a well-formed ring one iteration of [peek] decodes the first record. *)
Inductive peeked (d : bytes) (h t : Z) (q : list (list Z)) : peek_res -> Prop :=
| pk_empty : h = t -> q = [] -> peeked d h t q PEmpty
| pk_skip len :
    seg d h len NVKVM_RING_REC_SKIP -> recs d (h + len) t q -> peeked d h t q (PSkip (u64 (h + len)))
| pk_data len q' :
    seg d h len NVKVM_RING_REC_DATA -> recs d (h + len) t q' ->
    q = read_bytes d (h mod N + 8) (len - 8) :: q' ->
    peeked d h t q (PData (h mod N + 8) (len - 8) len).

Lemma peek_iter_spec r h t q :
  r_head r = u64 h -> r_tail r = u64 t -> h <= t <= h + N -> recs (r_data r) h t q ->
  peeked (r_data r) h t q (snd (peek_iter r N)) /\
  Forall (fun '(o, n) => 0 <= o /\ o + n <= N) (fst (peek_iter r N)).
Proof.
  intros Hh Ht Hht Hr. pose proof N_bounds as HNb. pose proof (mod_N_range h) as Hm.
  unfold peek_iter. rewrite Hh, Ht, off_mod, u64_sub_small by lia. unfold sizeof_rec.
  assert (forall len ty, seg (r_data r) h len ty -> h + len <= t ->
    (t - h =? 0) = false /\ ((t - h <? 4 + 4) || (N <? t - h)) = false /\
    get32 (r_data r) (h mod N) = len /\ get32 (r_data r) (h mod N + 4) = ty /\
    ((len <? 4 + 4) || negb (Z.land len (NVKVM_RING_ALIGN - 1) =? 0) || (t - h <? len)
      || (N <? len) || (N <? u64 (h mod N + len))) = false) as Hseg.
  { intros len ty (S1 & S2 & S3 & S4 & S5) Hl. split_and!; try done; [lia | lia |].
    unfold NVKVM_RING_ALIGN. change (8 - 1) with (2 ^ 3 - 1). rewrite land_pow2_minus_1 by lia.
    change (2 ^ 3) with 8. rewrite S4, u64_small by lia. simpl. lia. }
  destruct Hr as [a|a len b q Hg Hr|a len b q Hg Hr].
  - rewrite Z.sub_diag. simpl. split; [by constructor | done].
  - destruct (Hseg _ _ Hg (recs_le _ _ _ _ Hr)) as (-> & -> & -> & -> & ->). simpl.
    rewrite u64_add. destruct Hg as (? & ? & ? & ? & ?). split; [by eapply pk_skip |].
    apply Forall_singleton. lia.
  - destruct (Hseg _ _ Hg (recs_le _ _ _ _ Hr)) as (-> & -> & -> & -> & ->). simpl.
    pose proof Hg as (? & ? & ? & ? & ?). split; [by eapply pk_data |].
    apply Forall_singleton. lia.
Qed.

(** ** Both ends running

    [pend] is the producer between two commits, [cend] the consumer between
    [peek] and [pop].  The ghost lists [sent] and [rcvd] record the payloads
    committed and the payloads copied out. *)
Inductive pend :=
| P_idle
| P_reserved (pay total : Z) (msg : list Z)
| P_written (pay total : Z) (msg : list Z).

Inductive cend :=
| C_idle
| C_got (pay len total : Z).

Record sys := Sys {
  y_ring : ring;
  y_prod : pend;
  y_cons : cend;
  y_sent : list (list Z);
  y_rcvd : list (list Z)
}.

Definition sys_init : sys := Sys (Shm N 0 0 ∅) P_idle C_idle [] [].

Inductive step : sys -> sys -> Prop :=
| st_reserve r c sent rcvd msg r' pay total :
    octets msg -> Z.of_nat (length msg) < 2 ^ 32 ->
    nvkvm_ring_reserve r N (Z.of_nat (length msg)) = Some (r', pay, total) ->
    step (Sys r P_idle c sent rcvd) (Sys r' (P_reserved pay total msg) c sent rcvd)
| st_write r c sent rcvd pay total msg :
    step (Sys r (P_reserved pay total msg) c sent rcvd)
         (Sys (set_data r (write_bytes (r_data r) pay msg)) (P_written pay total msg) c sent rcvd)
| st_commit r c sent rcvd pay total msg :
    step (Sys r (P_written pay total msg) c sent rcvd)
         (Sys (nvkvm_ring_commit r total) P_idle c (sent ++ [msg]) rcvd)
| st_skip r p sent rcvd head :
    snd (peek_iter r N) = PSkip head ->
    step (Sys r p C_idle sent rcvd) (Sys (set_head r head) p C_idle sent rcvd)
| st_peek r p sent rcvd pay len total :
    snd (peek_iter r N) = PData pay len total ->
    step (Sys r p C_idle sent rcvd) (Sys r p (C_got pay len total) sent rcvd)
| st_pop r p sent rcvd pay len total :
    step (Sys r p (C_got pay len total) sent rcvd)
         (Sys (nvkvm_ring_pop r total) p C_idle sent (rcvd ++ [read_bytes (r_data r) pay len])).

(** A received buffer is the sent payload followed by fewer than 8 bytes of
    alignment padding. *)
Definition carries (msg buf : list Z) : Prop := exists pad, buf = msg ++ pad /\ (length pad < 8)%nat.

Definition prod_inv (d : bytes) (h t : Z) (p : pend) : Prop :=
  match p with
  | P_idle => True
  | P_reserved pay total msg =>
      octets msg /\
      exists d0 a len, reserved d0 d h t (Z.of_nat (length msg)) pay total a len
  | P_written pay total msg =>
      t + total <= h + N /\ total mod 8 = 0 /\ 0 <= total /\
      exists buf, recs d t (t + total) [buf] /\ carries msg buf
  end.

Definition cons_inv (d : bytes) (h t : Z) (q : list (list Z)) (c : cend) : Prop :=
  match c with
  | C_idle => True
  | C_got pay len total =>
      pay = h mod N + 8 /\ len = total - 8 /\ seg d h total NVKVM_RING_REC_DATA /\
      exists q', q = read_bytes d pay len :: q' /\ recs d (h + total) t q'
  end.

Definition ring_inv (y : sys) : Prop :=
  exists h t q,
    r_head (y_ring y) = u64 h /\ r_tail (y_ring y) = u64 t /\ h <= t <= h + N /\
    h mod 8 = 0 /\ t mod 8 = 0 /\
    recs (r_data (y_ring y)) h t q /\ Forall2 carries (y_sent y) (y_rcvd y ++ q) /\
    prod_inv (r_data (y_ring y)) h t (y_prod y) /\
    cons_inv (r_data (y_ring y)) h t q (y_cons y).

Lemma cons_inv_same d d' h t q c : same d d' h t -> cons_inv d h t q c -> cons_inv d' h t q c.
Proof.
  intros Hs. destruct c as [|pay len total]; [done |].
  intros (-> & -> & Hg & q' & -> & Hr). pose proof (recs_le _ _ _ _ Hr) as Hle.
  pose proof Hg as (_ & _ & ? & _ & ?).
  split_and!; try done; [by eapply seg_same; [done | lia | lia | done] |].
  exists q'. split.
  - f_equal. apply (agree_read d d' (h mod N) (h mod N + total)); [|lia | lia].
    apply (same_agree d d' h t); [done | lia | lia | lia].
  - eapply recs_same; [|done]. intros x Hx. apply Hs. lia.
Qed.

Lemma prod_inv_advance d h h' t p : h <= h' -> prod_inv d h t p -> prod_inv d h' t p.
Proof.
  intros Hh. destruct p as [|pay total msg|pay total msg]; [done | |].
  - intros (? & d0 & a & len & [R1 R2 R3 R4 R5 R6 R7 R8]). split; [done |].
    exists d0, a, len. split; try done; [lia |]. intros x Hx. apply R7. lia.
  - intros (? & ? & ? & ?). split_and!; try done. lia.
Qed.

(** Copying the payload into a reservation completes the record. *)
Lemma write_completes d0 d h t pay total msg a len :
  octets msg -> h <= t ->
  reserved d0 d h t (Z.of_nat (length msg)) pay total a len ->
  let d' := write_bytes d pay msg in
  same d d' h t /\ prod_inv d' h t (P_written pay total msg).
Proof.
  intros Ho Hht [R1 (R2 & R2' & R2'') -> R4 R5 R6 R7 R8] d'.
  pose proof (write_changed d (a mod N + 8) msg) as Hc. fold d' in Hc.
  pose proof R5 as (_ & _ & S3 & _ & S5). pose proof (mod_N_range a).
  assert (same d d' h a) as Hs.
  { destruct (decide (length msg = 0%nat)) as [E|]; [intros x Hx; apply Hc; lia |].
    apply (changed_same _ _ (a + 8) (Z.of_nat (length msg))); rewrite ?mod_N_add by lia; try lia.
    done. }
  split; [intros x Hx; apply Hs; lia |].
  assert (seg d' a len NVKVM_RING_REC_DATA) as Hg by (by eapply seg_changed).
  assert (recs d' a (t + total) [read_bytes d' (a mod N + 8) (len - 8)]) as Hr.
  { eapply recs_data; [done |]. rewrite R2'. constructor. }
  split_and!; try done; [lia |]. exists (read_bytes d' (a mod N + 8) (len - 8)). split.
  - destruct R6 as [->|R6]; [done |]. eapply recs_skip; [|by replace (t + (a - t)) with a by lia].
    eapply seg_same; [exact Hs | lia | lia | done].
  - replace (len - 8) with (Z.of_nat (length msg) + (len - 8 - Z.of_nat (length msg))) by lia.
    rewrite read_bytes_app by lia. unfold d' at 1. rewrite read_write by done.
    eexists. split; [done |]. rewrite length_read_bytes. lia.
Qed.

Lemma ring_init_inv : ring_inv sys_init.
Proof.
  pose proof N_bounds. exists 0, 0, []. simpl. split_and!; try done; try lia; by constructor.
Qed.

Lemma aligned_add a b : a mod 8 = 0 -> b mod 8 = 0 -> (a + b) mod 8 = 0.
Proof. intros. Z.to_euclidean_division_equations. lia. Qed.

(** The producer's steps. *)
Lemma reserve_inv r c sent rcvd msg r' pay total :
  octets msg -> Z.of_nat (length msg) < 2 ^ 32 ->
  nvkvm_ring_reserve r N (Z.of_nat (length msg)) = Some (r', pay, total) ->
  ring_inv (Sys r P_idle c sent rcvd) ->
  ring_inv (Sys r' (P_reserved pay total msg) c sent rcvd).
Proof.
  intros Ho Hl He (h & t & q & I1 & I2 & I3 & I4 & I5 & I6 & I7 & I8 & I9). simpl in *.
  destruct (reserve_spec r h t (Z.of_nat (length msg)) r' pay total) as (E & a & len & Hrs);
    try done; [lia |].
  pose proof (rs_same _ _ _ _ _ _ _ _ _ Hrs) as Hs. rewrite E.
  exists h, t, q. simpl. split_and!; try done; try lia;
    [by eapply recs_same | by exists (r_data r), a, len | by eapply cons_inv_same].
Qed.

Lemma write_inv r c sent rcvd pay total msg :
  ring_inv (Sys r (P_reserved pay total msg) c sent rcvd) ->
  ring_inv (Sys (set_data r (write_bytes (r_data r) pay msg)) (P_written pay total msg) c sent rcvd).
Proof.
  intros (h & t & q & I1 & I2 & I3 & I4 & I5 & I6 & I7 & (Ho & d0 & a & len & Hrs) & I9). simpl in *.
  destruct (write_completes d0 (r_data r) h t pay total msg a len Ho ltac:(lia) Hrs) as [Hs Hw].
  exists h, t, q. simpl. split_and!; try done; try lia;
    [by eapply recs_same | apply Hw.. | by eapply cons_inv_same].
Qed.

Lemma commit_inv r c sent rcvd pay total msg :
  ring_inv (Sys r (P_written pay total msg) c sent rcvd) ->
  ring_inv (Sys (nvkvm_ring_commit r total) P_idle c (sent ++ [msg]) rcvd).
Proof.
  intros (h & t & q & I1 & I2 & I3 & I4 & I5 & I6 & I7 & (R1 & R2 & R3 & buf & Hr & Hcar) & I9).
  simpl in *. exists h, (t + total), (q ++ [buf]). simpl. rewrite I2, u64_add.
  split_and!; try done; try lia.
  - by apply aligned_add.
  - by eapply recs_app.
  - rewrite app_assoc. apply Forall2_app; [done |]. by repeat constructor.
  - destruct c as [|pay' len' total']; [done |].
    destruct I9 as (-> & -> & Hg & q' & -> & Hr'). split_and!; try done.
    exists (q' ++ [buf]). split; [done |]. by eapply recs_app.
Qed.

(** The consumer's steps. *)
Lemma skip_inv r p sent rcvd head :
  snd (peek_iter r N) = PSkip head ->
  ring_inv (Sys r p C_idle sent rcvd) -> ring_inv (Sys (set_head r head) p C_idle sent rcvd).
Proof.
  intros He (h & t & q & I1 & I2 & I3 & I4 & I5 & I6 & I7 & I8 & I9). simpl in *.
  destruct (peek_iter_spec r h t q I1 I2 I3 I6) as [Hp _]. rewrite He in Hp.
  inversion Hp as [|len Hg Hr|]; subst. pose proof (recs_le _ _ _ _ Hr).
  pose proof Hg as (_ & _ & ? & ? & _).
  exists (h + len), t, q. simpl. split_and!; try done; try lia; [by apply aligned_add |].
  eapply prod_inv_advance; [|done]. lia.
Qed.

Lemma peek_inv r p sent rcvd pay len total :
  snd (peek_iter r N) = PData pay len total ->
  ring_inv (Sys r p C_idle sent rcvd) -> ring_inv (Sys r p (C_got pay len total) sent rcvd).
Proof.
  intros He (h & t & q & I1 & I2 & I3 & I4 & I5 & I6 & I7 & I8 & I9). simpl in *.
  destruct (peek_iter_spec r h t q I1 I2 I3 I6) as [Hp _]. rewrite He in Hp.
  inversion Hp as [| |? q' Hg Hr Hq]; subst.
  exists h, t, (read_bytes (r_data r) (h mod N + 8) (total - 8) :: q').
  simpl. split_and!; try done; try lia. by exists q'.
Qed.

Lemma pop_inv r p sent rcvd pay len total :
  ring_inv (Sys r p (C_got pay len total) sent rcvd) ->
  ring_inv (Sys (nvkvm_ring_pop r total) p C_idle sent (rcvd ++ [read_bytes (r_data r) pay len])).
Proof.
  intros (h & t & q & I1 & I2 & I3 & I4 & I5 & I6 & I7 & I8 & (-> & -> & Hg & q' & -> & Hr)). simpl in *.
  pose proof (recs_le _ _ _ _ Hr). pose proof Hg as (_ & _ & ? & ? & _).
  exists (h + total), t, q'. simpl. rewrite I1, u64_add. split_and!; try done; try lia.
  - by apply aligned_add.
  - by rewrite <- app_assoc.
  - eapply prod_inv_advance; [|done]. lia.
Qed.

Inductive reach : sys -> Prop :=
| reach_init : reach sys_init
| reach_step y y' : reach y -> step y y' -> reach y'.

Lemma reach_inv y : reach y -> ring_inv y.
Proof.
  induction 1 as [|y y' _ IH Hs]; [apply ring_init_inv |]. destruct Hs.
  - by eapply reserve_inv.
  - by apply write_inv.
  - by eapply commit_inv.
  - by apply skip_inv.
  - by apply peek_inv.
  - by apply pop_inv.
Qed.

(** C3. [ring_fifo]: in every interleaving of one producer and one consumer,
    across any number of laps and counter wrap-arounds, the payloads received
    are a prefix of the payloads committed, in order and byte for byte up to the
    alignment padding; the consumer never sees a malformed ring and never loads
    outside the data region. *)
Theorem ring_fifo (y : sys) :
  reach y ->
  (length (y_rcvd y) <= length (y_sent y))%nat /\
  Forall2 carries (take (length (y_rcvd y)) (y_sent y)) (y_rcvd y) /\
  snd (peek_iter (y_ring y) N) <> PBad /\
  Forall (fun '(o, n) => 0 <= o /\ o + n <= N) (fst (peek_iter (y_ring y) N)).
Proof.
  intros (h & t & q & I1 & I2 & I3 & _ & _ & I6 & I7 & _)%reach_inv.
  destruct (peek_iter_spec _ h t q I1 I2 I3 I6) as [Hp Hl].
  pose proof (Forall2_length _ _ _ I7) as Hlen. rewrite length_app in Hlen.
  split_and!; [lia | | by destruct Hp | done].
  apply (Forall2_take _ _ _ (length (y_rcvd y))) in I7. by rewrite take_app_length in I7.
Qed.

(** Each record takes at least 8 bytes, so [(t - h) / 8] rounds of skips are
    enough. *)
Lemma peek_loop_recs fuel r h t q :
  r_head r = u64 h -> r_tail r = u64 t -> h <= t <= h + N -> recs (r_data r) h t q ->
  t - h < 8 * Z.of_nat fuel ->
  match q with
  | [] => snd (peek_loop fuel r N) = Peek_empty
  | b :: _ => exists pay len total,
      snd (peek_loop fuel r N) = Peek_ok pay len total /\ read_bytes (r_data r) pay len = b
  end.
Proof.
  revert r h. induction fuel as [|fuel IH]; intros r h Hh Ht Hht Hr Hf; [simpl in *; lia |].
  destruct (peek_iter_spec r h t q Hh Ht Hht Hr) as [Hp _]. simpl.
  destruct Hp as [-> ->|len Hg Hr'|len q' Hg Hr' ->]; [done | |].
  - pose proof (recs_le _ _ _ _ Hr'). destruct Hg as (_ & _ & ? & _).
    apply (IH (set_head r (u64 (h + len))) (h + len)); try done; lia.
  - by eexists _, _, _.
Qed.

(** [ring_no_loss]: a call to [nvkvm_ring_peek] by an idle consumer returns the
    oldest committed payload not yet received when there is one, and
    reports an empty ring when there is none. *)
Theorem ring_no_loss (y : sys) :
  reach y -> y_cons y = C_idle ->
  match y_sent y !! length (y_rcvd y) with
  | Some msg => exists r pay len total,
      nvkvm_ring_peek (y_ring y) N = (r, Peek_ok pay len total) /\
      carries msg (read_bytes (r_data (y_ring y)) pay len)
  | None => snd (nvkvm_ring_peek (y_ring y) N) = Peek_empty
  end.
Proof.
  intros (h & t & q & I1 & I2 & I3 & _ & _ & I6 & I7 & _)%reach_inv _.
  pose proof N_bounds. unfold nvkvm_ring_peek. rewrite N_size_ok. simpl negb. cbv iota.
  pose proof (peek_loop_recs (Z.to_nat (N / 8) + 1) _ h t q I1 I2 I3 I6) as Hl.
  pose proof (Z.div_mod N 8). pose proof (Z.mod_pos_bound N 8). specialize (Hl ltac:(lia)).
  destruct (y_sent y !! length (y_rcvd y)) as [msg|] eqn:E.
  - destruct (Forall2_lookup_l _ _ _ _ _ I7 E) as (b & Hb & Hc).
    rewrite lookup_app_r, Nat.sub_diag in Hb by lia. destruct q as [|b' q]; simplify_eq/=.
    destruct Hl as (pay & len & total & Hpk & Hrd).
    destruct (peek_loop _ _ _) as [r' o]. simpl in Hpk. subst o.
    exists r', pay, len, total. split; [done | by rewrite Hrd].
  - apply lookup_ge_None in E. pose proof (Forall2_length _ _ _ I7) as Hlen.
    rewrite length_app in Hlen. destruct q; [done | simpl in Hlen; lia].
Qed.

End repr.

(** ** A hostile peer

    Nothing is assumed about the shared memory below: the peer may have
    written any value to the counters and to the data region. *)

Lemma size_ok_N N :
  0 <= N <= 2 ^ 31 -> nvkvm_ring_size_ok N = true -> exists k, N = 2 ^ k /\ 6 <= k <= 31.
Proof.
  intros HN Hok. apply size_ok_pow2 in Hok as (k & Hk & ->); [|lia]. exists k. split; [done |].
  split; [lia |]. apply (Z.pow_le_mono_r_iff 2); lia.
Qed.

Lemma land_mask_range N x :
  0 <= N <= 2 ^ 31 -> nvkvm_ring_size_ok N = true -> 0 <= Z.land x (u64 (N - 1)) < N.
Proof.
  intros HN Hok. destruct (size_ok_N N HN Hok) as (k & -> & Hk).
  assert (2 ^ 6 <= 2 ^ k) by (apply Z.pow_le_mono_r; lia).
  rewrite u64_small by lia. rewrite land_pow2_minus_1 by lia. apply Z.mod_pos_bound. lia.
Qed.

(** What a data record reported by [peek] satisfies whatever the memory
    holds. *)
Definition payload_ok (N : Z) (pay len total : Z) : Prop :=
  0 <= pay /\ 0 <= len /\ pay + len <= N /\ total = len + 8.

Lemma peek_iter_hostile N r :
  0 <= N <= 2 ^ 31 -> nvkvm_ring_size_ok N = true ->
  match snd (peek_iter r N) with
  | PData pay len total => payload_ok N pay len total
  | PSkip head => exists len, 8 <= len <= u64 (r_tail r - r_head r) /\ head = u64 (r_head r + len) /\
                              u64 (r_tail r - r_head r) <= N
  | _ => True
  end.
Proof.
  intros HN Hok. unfold peek_iter, sizeof_rec. pose proof (land_mask_range N (r_head r) HN Hok) as Ho.
  destruct (_ =? 0); [done |]. destruct (_ || _) eqn:E1; [done |]. simpl.
  revert Ho. generalize (Z.land (r_head r) (u64 (N - 1))). intros off Ho.
  pose proof (get32_range (r_data r) off) as Hg.
  rewrite (u64_small (off + get32 (r_data r) off)) by lia.
  destruct ((_ <? 4 + 4) || _ || _ || _ || _) eqn:E2; [done |]. nv_bool.
  destruct (_ =? NVKVM_RING_REC_SKIP); [eexists; split_and!; [..|done|]; lia |].
  destruct (negb _); [done |]. unfold payload_ok. lia.
Qed.

Lemma u64_sub_add a b c : u64 (a - u64 (b + c)) = u64 (u64 (a - b) - c).
Proof. unfold u64. rewrite Zminus_mod_idemp_r, Zminus_mod_idemp_l. f_equal. lia. Qed.

Lemma peek_loop_hostile N fuel r :
  0 <= N <= 2 ^ 31 -> nvkvm_ring_size_ok N = true -> u64 (r_tail r - r_head r) < 8 * Z.of_nat fuel ->
  match snd (peek_loop fuel r N) with
  | Peek_ok pay len total => payload_ok N pay len total
  | Peek_fuel => False
  | _ => True
  end.
Proof.
  intros HN Hok. revert r. induction fuel as [|fuel IH]; intros r Hf.
  - pose proof (u64_range (r_tail r - r_head r)). lia.
  - simpl. pose proof (peek_iter_hostile N r HN Hok) as Hi.
    destruct (snd (peek_iter r N)) as [| |head|pay len total]; try done.
    destruct Hi as (len & Hlen & -> & _). apply IH. simpl. rewrite u64_sub_add.
    pose proof (u64_range (r_tail r - r_head r)). rewrite (u64_small (_ - len)) by lia. lia.
Qed.

(** [ring_peek_hostile]: whatever the peer wrote, [nvkvm_ring_peek] terminates
    within [cap / 8 + 1] rounds, and a payload it reports lies inside the data
    region. *)
Theorem ring_peek_hostile (r : ring) (cap : Z) :
  0 <= cap <= 2 ^ 31 ->
  match snd (nvkvm_ring_peek r cap) with
  | Peek_ok pay len total => payload_ok cap pay len total
  | Peek_fuel => False
  | _ => True
  end.
Proof.
  intros HN. unfold nvkvm_ring_peek. destruct (nvkvm_ring_size_ok cap) eqn:Hok; [|done]. simpl.
  destruct (decide (u64 (r_tail r - r_head r) <= cap)) as [Hle|Hgt].
  - apply peek_loop_hostile; try done. pose proof (Z.div_mod cap 8).
    pose proof (Z.mod_pos_bound cap 8). lia.
  - replace (Z.to_nat (cap / 8) + 1)%nat with (S (Z.to_nat (cap / 8))) by lia. simpl.
    unfold peek_iter. rewrite (proj2 (Z.eqb_neq _ 0)) by lia.
    rewrite (proj2 (Z.ltb_lt cap _)) by lia. by rewrite orb_true_r.
Qed.

(** [ring_reserve_hostile]: with an 8-aligned tail and whatever the peer wrote
    elsewhere, a reservation writes only inside the data region and the payload
    area it returns has room for the payload inside the data region. *)
Theorem ring_reserve_hostile (r r' : ring) (cap payload pay total : Z) :
  0 <= cap <= 2 ^ 31 -> r_tail r mod 8 = 0 -> 0 <= payload < 2 ^ 32 ->
  nvkvm_ring_reserve r cap payload = Some (r', pay, total) ->
  changed (r_data r) (r_data r') 0 cap /\ 0 <= pay /\ pay + payload <= cap.
Proof.
  intros Hc Ht Hp. unfold nvkvm_ring_reserve, sizeof_rec.
  destruct (nvkvm_ring_size_ok cap) eqn:Hok; [|done]. cbv [negb]. cbv iota zeta.
  destruct (size_ok_N cap Hc Hok) as (k & HN & Hk). pose proof (N_bounds cap k HN Hk) as HNb.
  pose proof (land_mask_range cap (r_tail r) Hc Hok) as Ho.
  destruct (to_end_spec cap k HN Hk (r_tail r) Ht) as [He _].
  assert (Z.land (r_tail r) (u64 (cap - 1)) = r_tail r mod cap) as Eo.
  { rewrite u64_small by lia. rewrite HN. apply land_pow2_minus_1. lia. }
  rewrite Eo in *. revert He Ho. generalize (r_tail r mod cap). intros off He Ho.
  rewrite (u64_small (cap - off)) by lia.
  destruct ((cap <? _) || _) eqn:Eg; [done |]. apply orb_false_iff in Eg as [Eg Eg2]. nv_bool.
  revert Eg. rewrite (u32_small (4 + 4 + payload)) by lia.
  destruct (roundup_spec (4 + 4 + payload)) as [R1 _]; [lia |].
  revert R1. generalize (nvkvm_ring_roundup (4 + 4 + payload)). intros rec R1 Eg.
  destruct (rec <=? _) eqn:E1; nv_bool.
  - destruct (_ <? rec); [done |]. intros [= <- <- <-]. simpl. split; [|lia].
    intros i Hi. apply put_rec_changed. lia.
  - destruct (_ <? _); [done |]. intros [= <- <- <-]. simpl. split; [|lia].
    intros i Hi. rewrite !put_rec_changed by lia. done.
Qed.

(** [ring_forged_counters]: the alignment of the counters is never checked. For
    every capacity, a tail forged to 4 below a lap makes [nvkvm_ring_reserve]
    write its skip header across the end of the data region (the word just past
    it becomes 0), and a head forged the same way makes [nvkvm_ring_peek] load a
    header that ends 4 bytes past the region. *)
Theorem ring_forged_counters (k : Z) (d : bytes) :
  6 <= k <= 31 ->
  let cap := 2 ^ k in
  (exists r' pay total,
     nvkvm_ring_reserve (Shm cap (cap - 4) (cap - 4) d) cap 8 = Some (r', pay, total) /\
     get32 (r_data r') cap = 0) /\
  fst (peek_iter (Shm cap (cap + 12) (cap - 4) d) cap) = [(cap - 4, 8)].
Proof.
  intros Hk cap. pose proof (N_bounds cap k eq_refl Hk) as HNb.
  assert (Z.land (cap - 4) (u64 (cap - 1)) = cap - 4) as Eo.
  { rewrite u64_small by lia. unfold cap at 2. rewrite land_pow2_minus_1 by lia.
    apply Z.mod_small. fold cap. lia. }
  split.
  - unfold nvkvm_ring_reserve. rewrite (N_size_ok cap k eq_refl Hk). simpl negb.
    change (nvkvm_ring_roundup (u32 (sizeof_rec + 8))) with 16. cbv iota zeta. simpl r_tail. simpl r_head.
    rewrite Eo, Z.sub_diag. change (u64 0) with 0. rewrite Z.sub_0_r.
    rewrite (u64_small (cap - (cap - 4))), (u64_small cap), (u64_small (_ + 16)) by lia.
    rewrite (proj2 (Z.ltb_ge cap 16)), (proj2 (Z.ltb_ge cap 8)) by lia. simpl orb. cbv iota.
    rewrite (proj2 (Z.leb_gt 16 _)), (proj2 (Z.ltb_ge cap _)) by lia.
    eexists _, _, _. split; [done |]. simpl. unfold put_rec.
    rewrite !(get32_put32_ne _ _ _ cap) by lia. replace (cap - 4 + 4) with cap by lia.
    by rewrite get32_put32.
  - unfold peek_iter. simpl r_tail. simpl r_head. rewrite Eo.
    rewrite (u64_small (cap + 12 - _)) by lia. replace (cap + 12 - (cap - 4)) with 16 by lia.
    rewrite (proj2 (Z.ltb_ge cap 16)) by lia. done.
Qed.

(** ** A concrete exchange on a 64-byte ring *)

Definition ex_ring0 : ring := Shm 64 0 0 ∅.
Definition ex_ring1 : ring := Shm 64 0 0 (put_rec ∅ 0 16 1).
Definition ex_ring2 : ring := set_data ex_ring1 (write_bytes (r_data ex_ring1) 8 [1; 2; 3]).
Definition ex_ring3 : ring := nvkvm_ring_commit ex_ring2 16.

Lemma ex_ring_reach : reach 64 (Sys ex_ring3 P_idle C_idle [[1; 2; 3]] []).
Proof.
  eapply reach_step; [|apply (st_commit 64 ex_ring2 C_idle [] [] 8 16 [1; 2; 3])].
  eapply reach_step; [|apply (st_write 64 ex_ring1 C_idle [] [] 8 16 [1; 2; 3])].
  eapply reach_step; [apply reach_init |].
  apply (st_reserve 64 (Shm 64 0 0 ∅) C_idle [] [] [1; 2; 3] ex_ring1 8 16); [|done | done].
  repeat constructor; done.
Qed.

Lemma ring_fifo_witness :
  reach 64 (Sys ex_ring3 P_idle C_idle [[1; 2; 3]] []) /\ snd (peek_iter ex_ring3 64) <> PBad.
Proof.
  split; [exact ex_ring_reach |].
  apply (ring_fifo 64 6 eq_refl ltac:(lia) _ ex_ring_reach).
Defined.

Lemma ring_no_loss_witness :
  exists r pay len total,
    nvkvm_ring_peek ex_ring3 64 = (r, Peek_ok pay len total) /\
    carries [1; 2; 3] (read_bytes (r_data ex_ring3) pay len).
Proof. exact (ring_no_loss 64 6 eq_refl ltac:(lia) _ ex_ring_reach eq_refl). Defined.

Lemma ring_peek_hostile_witness : payload_ok 64 8 8 16.
Proof.
  pose proof (ring_peek_hostile ex_ring3 64 ltac:(lia)) as H.
  replace (snd (nvkvm_ring_peek ex_ring3 64)) with (Peek_ok 8 8 16) in H by (vm_compute; reflexivity).
  exact H.
Defined.

Lemma ring_reserve_hostile_witness : changed (r_data ex_ring0) (r_data ex_ring1) 0 64 /\ 8 + 3 <= 64.
Proof.
  destruct (ring_reserve_hostile ex_ring0 ex_ring1 64 3 8 16 ltac:(lia) eq_refl ltac:(lia)
              ltac:(vm_compute; reflexivity)) as (H1 & _ & H2).
  split; [exact H1 | exact H2].
Defined.

Lemma ring_forged_counters_witness :
  fst (peek_iter (Shm 64 76 60 ∅) 64) = [(60, 8)].
Proof. destruct (ring_forged_counters 6 ∅ ltac:(lia)) as [_ H]. exact H. Defined.

End Ring.
