(* ===== verification/TableHandles.v ===== *)
(** * Generation-tagged tables ([src/qemu/nvkvm_tables.c], first half)

    Ids that carry a slot and a generation ([Ids]), the handle table with its
    reference counts ([Handles]), the isolate table ([Isolates]) and the map
    from isolate and handle to the stub's descriptor ([Links]).  Every function
    that takes one table lock is one atomic operation. *)

From S2P Require Import Prelude.
Local Open Scope Z_scope.
Local Open Scope nv_scope.

Module Ids.

Definition ID_SLOT_BITS : Z := 12.
Definition ID_SLOT_MASK : Z := Z.shiftl 1 ID_SLOT_BITS - 1.

(** [gen] is a [uint16_t], so nothing is lost in the 32-bit shift. *)
Definition id_pack (gen slot : Z) : Z :=
  Z.lor (u32 (Z.shiftl gen ID_SLOT_BITS)) (Z.land slot ID_SLOT_MASK).
Definition id_slot (id : Z) : Z := u16 (Z.land id ID_SLOT_MASK).
Definition id_gen (id : Z) : Z := u16 (Z.shiftr id ID_SLOT_BITS).

(** The allocation scan: the first slot other than 0 that is not in use, in
    cyclic order from [next]. *)
Definition slot_search (max next : Z) (used : Z -> bool) : option Z :=
  let at_ i := u32 (next + i) mod max in
  match scan (fun i => negb (at_ i =? 0) && negb (used (at_ i))) 0 (Z.to_nat max) with
  | Some i => Some (at_ i)
  | None => None
  end.

Definition next_after (max s : Z) : Z :=
  let n := (s + 1) mod max in if n =? 0 then 1 else n.

Lemma id_pack_val gen slot :
  0 <= gen < 2 ^ 16 -> 0 <= slot -> id_pack gen slot = gen * 4096 + slot mod 4096.
Proof.
  intros Hg Hs. unfold id_pack, ID_SLOT_MASK, ID_SLOT_BITS.
  rewrite u32_small by (rewrite Z.shiftl_mul_pow2; lia).
  change (Z.shiftl 1 12 - 1) with (2 ^ 12 - 1). rewrite land_pow2_minus_1 by lia.
  apply (lor_shiftl_low gen slot 12). lia.
Qed.

Lemma id_slot_val id : 0 <= id -> id_slot id = id mod 4096.
Proof.
  intros. unfold id_slot, ID_SLOT_MASK, ID_SLOT_BITS. change (Z.shiftl 1 12 - 1) with (2 ^ 12 - 1).
  rewrite land_pow2_minus_1 by lia. apply u16_small.
  change (2 ^ 12) with 4096. pose proof (Z.mod_pos_bound id 4096). lia.
Qed.

Lemma id_slot_pack gen slot :
  0 <= gen < 2 ^ 16 -> 0 <= slot -> id_slot (id_pack gen slot) = slot mod 4096.
Proof.
  intros. pose proof (Z.mod_pos_bound slot 4096). rewrite id_pack_val by done.
  rewrite id_slot_val by lia. rewrite Z.add_comm, Z.mod_add by lia. apply Z.mod_mod. lia.
Qed.

Lemma id_gen_pack gen slot : 0 <= gen < 2 ^ 16 -> 0 <= slot -> id_gen (id_pack gen slot) = gen.
Proof.
  intros. pose proof (Z.mod_pos_bound slot 4096). rewrite id_pack_val by done.
  unfold id_gen, ID_SLOT_BITS. rewrite Z.shiftr_div_pow2 by lia. change (2 ^ 12) with 4096.
  rewrite Z.add_comm, Z.div_add, Z.div_small by lia. by apply u16_small.
Qed.

(** The scan returns a usable slot, and fails only when there is none. *)
Lemma slot_search_Some max next used s :
  1 < max <= 2 ^ 31 -> slot_search max next used = Some s -> 0 < s < max /\ used s = false.
Proof.
  intros Hm. unfold slot_search. destruct (scan _ _ _) as [i|] eqn:E; [|done]. intros [= <-].
  apply scan_Some in E as (_ & E & _). nv_bool.
  pose proof (Z.mod_pos_bound (u32 (next + i)) max). split; [lia | done].
Qed.

Lemma slot_search_None max next used s :
  1 < max <= 2 ^ 31 -> 0 <= next < max -> slot_search max next used = None ->
  0 < s < max -> used s = true.
Proof.
  intros Hm Hn. unfold slot_search. destruct (scan _ _ _) eqn:E; [done |]. intros _ Hs.
  pose proof (proj1 (scan_None _ _ _) E) as Ha.
  set (i := (s - next) mod max). pose proof (Z.mod_pos_bound (s - next) max).
  specialize (Ha i ltac:(unfold i; lia)). simpl in Ha.
  rewrite u32_small in Ha by (unfold i; lia).
  assert ((next + i) mod max = s) as Hi.
  { unfold i. rewrite Zplus_mod_idemp_r. replace (next + (s - next)) with s by lia.
    apply Z.mod_small. lia. }
  rewrite Hi in Ha. rewrite (proj2 (Z.eqb_neq s 0)) in Ha by lia. simpl in Ha. by apply negb_false_iff.
Qed.

Lemma next_after_range max s : 1 < max -> 0 < next_after max s < max.
Proof.
  intros. unfold next_after. pose proof (Z.mod_pos_bound (s + 1) max).
  destruct (_ =? 0) eqn:E; nv_bool; lia.
Qed.

End Ids.

Module Handles.
Import Ids.

Definition NVKVM_TABLES_MAX_HANDLES : Z := 4096.

Inductive handle_type :=
| HND_INVALID
| HND_NVIDIACTL
| HND_NVIDIA_GPU
| HND_NVIDIA_UVM
| HND_MEMFD
| HND_EVENTFD.

Record handle_entry := Handle {
  h_in_use : bool;
  h_id : Z;
  h_type : handle_type;
  h_qemu_fd : Z;
  h_ready : bool;
  h_poll_enabled : bool;
  h_refcount : Z
}.

(** A free slot, as [nvkvm_tables_init] and every [memset] leave it. *)
Definition free_handle : handle_entry := Handle false 0 HND_INVALID (-1) false false 0.

#[export] Instance Zeroed_handle : Zeroed handle_entry := free_handle.

Record handle_table := HTable {
  ht_slots : gmap Z handle_entry;
  ht_generation : gmap Z Z;
  ht_next_slot : Z
}.

Definition handles_init : handle_table := HTable ∅ ∅ 1.

Definition set_slot (s : Z) (e : handle_entry) (t : handle_table) : handle_table :=
  HTable ((ht_slots t).[s <- e]) (ht_generation t) (ht_next_slot t).

Definition nvkvm_tables_handle_alloc (type : handle_type) (t : handle_table)
  : handle_table * res Z :=
  match type with
  | HND_INVALID => (t, Err EINVAL)
  | _ =>
      match slot_search NVKVM_TABLES_MAX_HANDLES (ht_next_slot t)
              (fun s => h_in_use (ht_slots t).[s]) with
      | None => (t, Err ENOSPC)
      | Some s =>
          let gen := u16 ((ht_generation t).[s] + 1) in
          let id := id_pack gen s in
          (HTable ((ht_slots t).[s <- Handle true id type (-1) false false 0])
             ((ht_generation t).[s <- gen]) (next_after NVKVM_TABLES_MAX_HANDLES s),
           Ok id)
      end
  end.

(** The slot of a live id. *)
Definition handle_lookup_locked (t : handle_table) (id : Z) : option Z :=
  let s := id_slot id in
  if (s =? 0) || (NVKVM_TABLES_MAX_HANDLES <=? s) then None
  else
    let e := (ht_slots t).[s] in
    if negb (h_in_use e) || negb (h_id e =? id) then None else Some s.

Definition nvkvm_tables_handle_attach_qemu_fd (id qemu_fd : Z) (t : handle_table)
  : handle_table * res unit :=
  if qemu_fd <? 0 then (t, Err EINVAL)
  else
    match handle_lookup_locked t id with
    | None => (t, Err ENOENT)
    | Some s =>
        let e := (ht_slots t).[s] in
        if h_ready e then (t, Err EALREADY)
        else (set_slot s (Handle (h_in_use e) (h_id e) (h_type e) qemu_fd true
                            (h_poll_enabled e) (h_refcount e)) t, Ok tt)
    end.

(** Ok carries the descriptor to close, if any. *)
Definition fd_to_close (fd : Z) : option Z := if 0 <=? fd then Some fd else None.

Definition nvkvm_tables_handle_abort_open (id : Z) (t : handle_table)
  : handle_table * res (option Z) :=
  match handle_lookup_locked t id with
  | None => (t, Err ENOENT)
  | Some s =>
      let e := (ht_slots t).[s] in
      if h_ready e then (t, Err EALREADY)
      else (set_slot s free_handle t, Ok (fd_to_close (h_qemu_fd e)))
  end.

Definition set_refcount (n : Z) (e : handle_entry) : handle_entry :=
  Handle (h_in_use e) (h_id e) (h_type e) (h_qemu_fd e) (h_ready e) (h_poll_enabled e) n.

(** Ok carries the slot whose entry the caller now references. *)
Definition nvkvm_tables_handle_acquire (id : Z) (t : handle_table) : handle_table * res Z :=
  match handle_lookup_locked t id with
  | None => (t, Err ENOENT)
  | Some s =>
      let e := (ht_slots t).[s] in
      if negb (h_ready e) then (t, Err EBUSY)
      else (set_slot s (set_refcount (u32 (h_refcount e + 1)) e) t, Ok s)
  end.

Definition nvkvm_tables_handle_release (id : Z) (t : handle_table) : handle_table :=
  match handle_lookup_locked t id with
  | None => t
  | Some s =>
      let e := (ht_slots t).[s] in
      if h_refcount e =? 0 then t else set_slot s (set_refcount (h_refcount e - 1) e) t
  end.

(** [nvkvm_tables_handle_close] from taking the lock to the wait: the slot the
    closer keeps a pointer to. *)
Definition close_mark (id : Z) (t : handle_table) : handle_table * res Z :=
  match handle_lookup_locked t id with
  | None => (t, Err ENOENT)
  | Some s =>
      let e := (ht_slots t).[s] in
      (set_slot s (Handle (h_in_use e) (h_id e) (h_type e) (h_qemu_fd e) false
                     (h_poll_enabled e) (h_refcount e)) t, Ok s)
  end.

(** The wait and what follows it, on the kept pointer: [None] while the closer
    sleeps on the condition variable. *)
Definition close_finish (s : Z) (t : handle_table) : option (handle_table * option Z) :=
  let e := (ht_slots t).[s] in
  if 0 <? h_refcount e then None
  else Some (set_slot s free_handle t, fd_to_close (h_qemu_fd e)).

(** ** Concurrent use of the handle table

    The ghost state of a run: how often each slot was allocated, the ids whose
    open transaction is pending, the ids acquired and not released, and the
    slots a closer waits on.  Only the opener attaches or aborts, releases match
    acquisitions, and a handle is closed by one caller at a time. *)
Record ghost := Ghost {
  g_count : gmap Z Z;
  g_opening : list Z;
  g_held : list Z;
  g_closing : list Z
}.

Inductive hstep : handle_table * ghost -> handle_table * ghost -> Prop :=
| hs_alloc t g type t' id :
    nvkvm_tables_handle_alloc type t = (t', Ok id) ->
    hstep (t, g)
          (t', Ghost ((g_count g).[id_slot id <- (g_count g).[id_slot id] + 1]) (id :: g_opening g)
                 (g_held g) (g_closing g))
| hs_attach t c op1 op2 he cl id fd t' :
    nvkvm_tables_handle_attach_qemu_fd id fd t = (t', Ok tt) ->
    hstep (t, Ghost c (op1 ++ id :: op2) he cl) (t', Ghost c (op1 ++ op2) he cl)
| hs_abort t c op1 op2 he cl id t' fd :
    nvkvm_tables_handle_abort_open id t = (t', Ok fd) ->
    hstep (t, Ghost c (op1 ++ id :: op2) he cl) (t', Ghost c (op1 ++ op2) he cl)
| hs_acquire t c op he cl id t' s :
    nvkvm_tables_handle_acquire id t = (t', Ok s) -> Z.of_nat (length he) < 2 ^ 31 ->
    hstep (t, Ghost c op he cl) (t', Ghost c op (id :: he) cl)
| hs_release t c op he1 he2 cl id :
    hstep (t, Ghost c op (he1 ++ id :: he2) cl)
          (nvkvm_tables_handle_release id t, Ghost c op (he1 ++ he2) cl)
| hs_close_mark t c op he cl id t' s :
    close_mark id t = (t', Ok s) -> id ∉ op -> s ∉ cl ->
    hstep (t, Ghost c op he cl) (t', Ghost c op he (s :: cl))
| hs_close_finish t c op he cl1 cl2 s t' fd :
    close_finish s t = Some (t', fd) ->
    hstep (t, Ghost c op he (cl1 ++ s :: cl2)) (t', Ghost c op he (cl1 ++ cl2)).

Inductive hreach : handle_table -> ghost -> Prop :=
| hr_init : hreach handles_init (Ghost ∅ [] [] [])
| hr_step t g t' g' : hreach t g -> hstep (t, g) (t', g') -> hreach t' g'.

(** The part of a ghost list that concerns one slot. *)
Definition at_slot (s : Z) (l : list Z) : list Z := filter (fun id => id_slot id = s) l.
Definition closers (s : Z) (l : list Z) : list Z := filter (fun x => x = s) l.

(** What relates the entry of slot [s] to the ghost state. *)
Inductive slot_ok (s : Z) (e : handle_entry) (c : Z) (op he cl : list Z) : Prop :=
| so_free : e = free_handle -> op = [] -> he = [] -> cl = [] -> slot_ok s e c op he cl
| so_used :
    h_in_use e = true -> h_id e = id_pack (u16 c) s -> 1 <= c ->
    Forall (fun id => id = h_id e) he -> h_refcount e = Z.of_nat (length he) ->
    (h_ready e = true /\ 0 <= h_qemu_fd e /\ op = [] /\ cl = []) \/
    (h_ready e = false /\ op = [h_id e] /\ he = [] /\ cl = []) \/
    (h_ready e = false /\ 0 <= h_qemu_fd e /\ op = [] /\ cl = [s]) ->
    slot_ok s e c op he cl.

Record table_inv (t : handle_table) (g : ghost) : Prop := {
  ti_slot : forall s, 0 < s < 4096 ->
    slot_ok s (ht_slots t).[s] (g_count g).[s] (at_slot s (g_opening g)) (at_slot s (g_held g))
      (closers s (g_closing g));
  ti_gen : forall s, 0 < s < 4096 ->
    (ht_generation t).[s] = u16 (g_count g).[s] /\ 0 <= (g_count g).[s];
  ti_range : Forall (fun id => 0 < id_slot id < 4096) (g_opening g ++ g_held g) /\
             Forall (fun s => 0 < s < 4096) (g_closing g);
  ti_next : 0 < ht_next_slot t < 4096
}.

Lemma at_slot_cons s id l : at_slot s (id :: l) = if decide (id_slot id = s) then id :: at_slot s l else at_slot s l.
Proof. unfold at_slot. rewrite filter_cons. done. Qed.

Lemma at_slot_app s l1 l2 : at_slot s (l1 ++ l2) = at_slot s l1 ++ at_slot s l2.
Proof. apply filter_app. Qed.

Lemma closers_cons s x l : closers s (x :: l) = if decide (x = s) then x :: closers s l else closers s l.
Proof. unfold closers. rewrite filter_cons. done. Qed.

Lemma closers_app s l1 l2 : closers s (l1 ++ l2) = closers s l1 ++ closers s l2.
Proof. apply filter_app. Qed.

Lemma at_slot_mid s id l1 l2 :
  at_slot s (l1 ++ id :: l2) =
  at_slot s l1 ++ (if decide (id_slot id = s) then [id] else []) ++ at_slot s l2.
Proof. rewrite at_slot_app, at_slot_cons. by case_decide. Qed.

Lemma closers_mid s x l1 l2 :
  closers s (l1 ++ x :: l2) = closers s l1 ++ (if decide (x = s) then [x] else []) ++ closers s l2.
Proof. rewrite closers_app, closers_cons. by case_decide. Qed.

Lemma lookup_Some t id s :
  handle_lookup_locked t id = Some s ->
  s = id_slot id /\ 0 < s < 4096 /\ h_in_use (ht_slots t).[s] = true /\ h_id (ht_slots t).[s] = id.
Proof.
  unfold handle_lookup_locked, NVKVM_TABLES_MAX_HANDLES. intros H. repeat nv_case.
  pose proof (u16_range (Z.land id ID_SLOT_MASK)). unfold id_slot in *. split_and!; try done; lia.
Qed.

Lemma lookup_used t s :
  0 < s < 4096 -> h_in_use (ht_slots t).[s] = true -> id_slot (h_id (ht_slots t).[s]) = s ->
  handle_lookup_locked t (h_id (ht_slots t).[s]) = Some s.
Proof.
  intros Hs Hu Hi. unfold handle_lookup_locked, NVKVM_TABLES_MAX_HANDLES. rewrite Hi, Hu, Z.eqb_refl.
  rewrite (proj2 (Z.eqb_neq s 0)), (proj2 (Z.leb_gt 4096 s)) by lia. done.
Qed.

Lemma used_id_slot s e c op he cl :
  0 < s < 4096 -> slot_ok s e c op he cl -> h_in_use e = true -> id_slot (h_id e) = s.
Proof.
  intros Hs [-> _ _ _|_ -> _ _ _ _]; [done |]. intros _.
  rewrite id_slot_pack by (try apply u16_range; lia). apply Z.mod_small. lia.
Qed.

(** A step that changes only slot [s] and the ghost entries of slot [s]
    preserves the invariant of the other slots. *)
Lemma table_inv_frame t g t' g' s :
  table_inv t g -> 0 < s < 4096 ->
  (forall s', 0 < s' < 4096 -> s' <> s ->
     (ht_slots t').[s'] = (ht_slots t).[s'] /\ (g_count g').[s'] = (g_count g).[s'] /\
     (ht_generation t').[s'] = (ht_generation t).[s'] /\
     at_slot s' (g_opening g') = at_slot s' (g_opening g) /\
     at_slot s' (g_held g') = at_slot s' (g_held g) /\
     closers s' (g_closing g') = closers s' (g_closing g)) ->
  slot_ok s (ht_slots t').[s] (g_count g').[s] (at_slot s (g_opening g')) (at_slot s (g_held g'))
    (closers s (g_closing g')) ->
  ((ht_generation t').[s] = u16 (g_count g').[s] /\ 0 <= (g_count g').[s]) ->
  (Forall (fun id => 0 < id_slot id < 4096) (g_opening g' ++ g_held g') /\
   Forall (fun s => 0 < s < 4096) (g_closing g')) ->
  0 < ht_next_slot t' < 4096 -> table_inv t' g'.
Proof.
  intros [I1 I2 _ _] Hs Hf Hok Hgen Hr Hn. split; [| |done|done].
  - intros s' Hs'. destruct (decide (s' = s)) as [->|Hne]; [done |].
    destruct (Hf s' Hs' Hne) as (-> & -> & _ & -> & -> & ->). by apply I1.
  - intros s' Hs'. destruct (decide (s' = s)) as [->|Hne]; [done |].
    destruct (Hf s' Hs' Hne) as (_ & -> & -> & _). by apply I2.
Qed.

Ltac frame_tac :=
  intros s' Hs' Hne; simpl;
  rewrite ?at_slot_mid, ?closers_mid, ?at_slot_cons, ?closers_cons, ?at_slot_app, ?closers_app;
  rewrite ?aget_set_ne by congruence; repeat case_decide; try congruence; done.

Lemma app_single {A} (x y : A) l1 l2 : l1 ++ [x] ++ l2 = [y] -> l1 = [] /\ x = y /\ l2 = [].
Proof.
  destruct l1 as [|a l1]; simpl; [intros [= -> ->]; done |].
  intros [= _ H]. by destruct l1.
Qed.

Lemma alloc_inv t g type t' id :
  table_inv t g -> nvkvm_tables_handle_alloc type t = (t', Ok id) ->
  table_inv t' (Ghost ((g_count g).[id_slot id <- (g_count g).[id_slot id] + 1])
                  (id :: g_opening g) (g_held g) (g_closing g)).
Proof.
  intros Hi Ha. pose proof Hi as [I1 I2 [I3 I3'] I4].
  unfold nvkvm_tables_handle_alloc, NVKVM_TABLES_MAX_HANDLES in Ha.
  destruct type; [done | ..].
  all: destruct (slot_search _ _ _) as [s|] eqn:E; [|done]; injection Ha as <- <-.
  all: apply slot_search_Some in E as [Hs Hu]; [|lia]; destruct (I2 s Hs) as [G1 G2].
  all: pose proof (id_slot_pack (u16 ((ht_generation t).[s] + 1)) s (u16_range _) ltac:(lia)) as Hid;
       rewrite (Z.mod_small s) in Hid by lia.
  all: assert (u16 ((ht_generation t).[s] + 1) = u16 ((g_count g).[s] + 1)) as Hg
       by (rewrite G1; unfold u16; apply Zplus_mod_idemp_l).
  all: destruct (I1 s Hs) as [He Ho Hh Hc|Hu' _ _ _ _ _]; [|congruence].
  all: apply (table_inv_frame t g _ _ s Hi Hs); simpl; rewrite ?Hid, ?aget_set_eq;
       [frame_tac | | split; [done | lia] | | apply (next_after_range 4096); lia].
  all: try (split; [apply Forall_cons; split; [lia | done] | done]).
  all: rewrite at_slot_cons, decide_True by done; rewrite Ho, Hh, Hc; apply so_used; simpl;
       [done | by rewrite <- Hg | lia | constructor | done | by right; left].
Qed.

Lemma attach_inv t c op1 op2 he cl id fd t' :
  table_inv t (Ghost c (op1 ++ id :: op2) he cl) ->
  nvkvm_tables_handle_attach_qemu_fd id fd t = (t', Ok tt) ->
  table_inv t' (Ghost c (op1 ++ op2) he cl).
Proof.
  intros Hi Ha. pose proof Hi as [I1 I2 [I3 I3'] I4]. unfold nvkvm_tables_handle_attach_qemu_fd in Ha.
  destruct (fd <? 0) eqn:Ef; [done |]. nv_bool.
  destruct (handle_lookup_locked t id) as [s|] eqn:El; [|done].
  apply lookup_Some in El as (Es & Hs & Hu & Hid).
  destruct (h_ready _) eqn:Er; [done |]. injection Ha as <-.
  apply (table_inv_frame t _ _ _ s Hi Hs); simpl; rewrite ?aget_set_eq;
    [frame_tac | | by apply I2 | | done].
  - specialize (I1 s Hs). simpl in I1. rewrite at_slot_mid, decide_True in I1 by done.
    destruct I1 as [E _ _ _|H1 H2 H3 H4 H5 H6]; [rewrite E in Hu; done |].
    rewrite at_slot_app. destruct H6 as [(? & _)|[(_ & Hop & Hhe & Hcl)|(_ & _ & Hop & _)]];
      [congruence | | by destruct (at_slot s op1)].
    apply app_single in Hop as (-> & _ & ->). rewrite Hhe, Hcl in *.
    apply so_used; simpl; try done. by left.
  - split; [|done]. revert I3. simpl. rewrite !Forall_app, Forall_cons. tauto.
Qed.

Lemma abort_inv t c op1 op2 he cl id fd t' :
  table_inv t (Ghost c (op1 ++ id :: op2) he cl) ->
  nvkvm_tables_handle_abort_open id t = (t', Ok fd) ->
  table_inv t' (Ghost c (op1 ++ op2) he cl).
Proof.
  intros Hi Ha. pose proof Hi as [I1 I2 [I3 I3'] I4]. unfold nvkvm_tables_handle_abort_open in Ha.
  destruct (handle_lookup_locked t id) as [s|] eqn:El; [|done].
  apply lookup_Some in El as (Es & Hs & Hu & Hid).
  destruct (h_ready _) eqn:Er; [done |]. injection Ha as <- _.
  apply (table_inv_frame t _ _ _ s Hi Hs); simpl; rewrite ?aget_set_eq;
    [frame_tac | | by apply I2 | | done].
  - specialize (I1 s Hs). simpl in I1. rewrite at_slot_mid, decide_True in I1 by done.
    destruct I1 as [E _ _ _|H1 H2 H3 H4 H5 H6]; [rewrite E in Hu; done |].
    rewrite at_slot_app. destruct H6 as [(? & _)|[(_ & Hop & Hhe & Hcl)|(_ & _ & Hop & _)]];
      [congruence | | by destruct (at_slot s op1)].
    apply app_single in Hop as (-> & _ & ->). rewrite Hhe, Hcl. by apply so_free.
  - split; [|done]. revert I3. simpl. rewrite !Forall_app, Forall_cons. tauto.
Qed.

Lemma acquire_inv t c op he cl id t' s :
  table_inv t (Ghost c op he cl) -> Z.of_nat (length he) < 2 ^ 31 ->
  nvkvm_tables_handle_acquire id t = (t', Ok s) -> table_inv t' (Ghost c op (id :: he) cl).
Proof.
  intros Hi Hl Ha. pose proof Hi as [I1 I2 [I3 I3'] I4]. unfold nvkvm_tables_handle_acquire in Ha.
  destruct (handle_lookup_locked t id) as [s0|] eqn:El; [|done].
  apply lookup_Some in El as (Es & Hs & Hu & Hid).
  destruct (h_ready _) eqn:Er; [|done]. injection Ha as <- <-.
  apply (table_inv_frame t _ _ _ s0 Hi Hs); simpl; rewrite ?aget_set_eq;
    [frame_tac | | by apply I2 | | done].
  - specialize (I1 s0 Hs). simpl in I1. rewrite at_slot_cons, decide_True by done.
    destruct I1 as [E _ _ _|H1 H2 H3 H4 H5 H6]; [rewrite E in Hu; done |].
    assert (length (at_slot s0 he) <= length he)%nat by apply length_filter.
    apply so_used; simpl; try done.
    + by constructor.
    + rewrite H5, u32_small; lia.
    + destruct H6 as [H6|[(? & _)|(? & _)]]; [by left | congruence..].
  - split; [|done]. revert I3. simpl. rewrite !Forall_app, Forall_cons. intros [? ?]. by rewrite <- Es.
Qed.

Lemma release_inv t c op he1 he2 cl id :
  table_inv t (Ghost c op (he1 ++ id :: he2) cl) ->
  table_inv (nvkvm_tables_handle_release id t) (Ghost c op (he1 ++ he2) cl).
Proof.
  intros Hi. pose proof Hi as [I1 I2 [I3 I3'] I4].
  assert (0 < id_slot id < 4096) as Hs.
  { simpl in I3. apply (proj1 (Forall_forall _ _) I3). rewrite !elem_of_app, elem_of_cons. tauto. }
  pose proof (I1 _ Hs) as Hok. simpl in Hok. rewrite at_slot_mid, decide_True in Hok by done.
  destruct Hok as [_ _ E _|H1 H2 H3 H4 H5 H6]; [by destruct (at_slot _ he1) |].
  assert (h_id (ht_slots t).[id_slot id] = id) as Hid.
  { apply Forall_app in H4 as [_ [? _]%Forall_cons]. done. }
  assert (handle_lookup_locked t id = Some (id_slot id)) as El.
  { pose proof (lookup_used t (id_slot id) Hs H1) as Hl. rewrite Hid in Hl. by apply Hl. }
  rewrite !length_app in H5. simpl in H5.
  unfold nvkvm_tables_handle_release. rewrite El, (proj2 (Z.eqb_neq _ 0)) by lia.
  apply (table_inv_frame t _ _ _ _ Hi Hs); simpl; rewrite ?aget_set_eq;
    [frame_tac | | by apply I2 | | done].
  - apply so_used; simpl; try done.
    + rewrite at_slot_app. revert H4. rewrite !Forall_app. tauto.
    + rewrite at_slot_app, length_app. lia.
    + rewrite at_slot_app. destruct H6 as [H6|[(_ & _ & E & _)|H6]]; [by left | | by right; right].
      by destruct (at_slot _ he1).
  - split; [|done]. revert I3. simpl. rewrite !Forall_app, Forall_cons. tauto.
Qed.

Lemma close_mark_inv t c op he cl id t' s :
  table_inv t (Ghost c op he cl) -> close_mark id t = (t', Ok s) -> id ∉ op -> s ∉ cl ->
  table_inv t' (Ghost c op he (s :: cl)).
Proof.
  intros Hi Ha Hop Hcl. pose proof Hi as [I1 I2 [I3 I3'] I4]. unfold close_mark in Ha.
  destruct (handle_lookup_locked t id) as [s0|] eqn:El; [|done].
  apply lookup_Some in El as (Es & Hs & Hu & Hid). injection Ha as <- <-.
  apply (table_inv_frame t _ _ _ s0 Hi Hs); simpl; rewrite ?aget_set_eq;
    [frame_tac | | by apply I2 | | done].
  - specialize (I1 s0 Hs). simpl in I1. rewrite closers_cons, decide_True by done.
    destruct I1 as [E _ _ _|H1 H2 H3 H4 H5 H6]; [rewrite E in Hu; done |].
    apply so_used; simpl; try done. right. right.
    destruct H6 as [(_ & ? & ? & ->)|[(_ & E & _)|(_ & _ & _ & E)]]; [done | |].
    + exfalso. apply Hop. assert (h_id (ht_slots t).[s0] ∈ at_slot s0 op) as Hin by (rewrite E; left).
      apply list_elem_of_filter in Hin as [_ Hin]. by rewrite Hid in Hin.
    + exfalso. apply Hcl. assert (s0 ∈ closers s0 cl) as Hin by (rewrite E; left).
      by apply list_elem_of_filter in Hin as [_ Hin].
  - split; [done |]. by apply Forall_cons.
Qed.

Lemma close_finish_inv t c op he cl1 cl2 s t' fd :
  table_inv t (Ghost c op he (cl1 ++ s :: cl2)) -> close_finish s t = Some (t', fd) ->
  table_inv t' (Ghost c op he (cl1 ++ cl2)) /\ fd = Some (h_qemu_fd (ht_slots t).[s]).
Proof.
  intros Hi Ha. pose proof Hi as [I1 I2 [I3 I3'] I4]. unfold close_finish in Ha.
  assert (0 < s < 4096) as Hs.
  { simpl in I3'. apply (proj1 (Forall_forall _ _) I3'). rewrite elem_of_app, elem_of_cons. tauto. }
  destruct (0 <? _) eqn:Er; [done |]. nv_bool. injection Ha as <- <-.
  pose proof (I1 _ Hs) as Hok. simpl in Hok. rewrite closers_mid, decide_True in Hok by done.
  destruct Hok as [_ _ _ E|H1 H2 H3 H4 H5 H6]; [by destruct (closers _ cl1) |].
  destruct H6 as [(_ & _ & _ & E)|[(_ & _ & _ & E)|(_ & Hfd & Ho & E)]];
    [by destruct (closers _ cl1).. |]. split.
  - apply (table_inv_frame t _ _ _ s Hi Hs); simpl; rewrite ?aget_set_eq;
      [frame_tac | | by apply I2 | | done].
    + apply app_single in E as (E1 & _ & E2). rewrite closers_app, E1, E2, Ho.
      rewrite (nil_length_inv (at_slot s he)) by lia. by apply so_free.
    + split; [done |]. revert I3'. simpl. rewrite !Forall_app, Forall_cons. tauto.
  - unfold fd_to_close. by rewrite (proj2 (Z.leb_le _ _) Hfd).
Qed.

Lemma handles_init_inv : table_inv handles_init (Ghost ∅ [] [] []).
Proof.
  split; simpl; [| |by split|done].
  - intros s Hs. rewrite !aget_empty. by apply so_free.
  - intros s Hs. by rewrite !aget_empty.
Qed.

Lemma hreach_inv t g : hreach t g -> table_inv t g.
Proof.
  induction 1 as [|t g t' g' _ IH Hs]; [apply handles_init_inv |].
  inversion Hs; subst.
  - by eapply alloc_inv.
  - by eapply attach_inv.
  - by eapply abort_inv.
  - by eapply acquire_inv.
  - by eapply release_inv.
  - by eapply close_mark_inv.
  - by eapply close_finish_inv.
Qed.

Lemma u16_eq_mod a b : u16 a = u16 b <-> (a - b) mod 2 ^ 16 = 0.
Proof.
  unfold u16. split; intros E.
  - rewrite Zminus_mod, E, Z.sub_diag. done.
  - apply Z.mod_divide in E as [k Hk]; [|lia]. replace a with (b + k * 2 ^ 16) by lia.
    apply Z.mod_add. lia.
Qed.

(** [handle_id_exact]: the id issued by the [c]-th allocation of a slot resolves
    exactly when the slot is in use and the number of allocations of the slot
    since then is a multiple of 65536.  So stale ids fail until a slot has been
    reused 65536 times, when the 16-bit generation comes round. *)
Theorem handle_id_exact (t : handle_table) (g : ghost) (s c : Z) :
  hreach t g -> 0 < s < 4096 -> 1 <= c <= (g_count g).[s] ->
  handle_lookup_locked t (id_pack (u16 c) s) = Some s <->
  h_in_use (ht_slots t).[s] = true /\ ((g_count g).[s] - c) mod 65536 = 0.
Proof.
  intros Hi%hreach_inv Hs Hc.
  pose proof (id_slot_pack (u16 c) s (u16_range c) ltac:(lia)) as Hsl.
  rewrite (Z.mod_small s) in Hsl by lia. change 65536 with (2 ^ 16). rewrite <- u16_eq_mod.
  pose proof (ti_slot _ _ Hi s Hs) as Hok. split.
  - intros (_ & _ & Hu & Hid)%lookup_Some. split; [done |].
    destruct Hok as [E _ _ _|_ Hid' _ _ _ _]; [by rewrite E in Hu |].
    rewrite Hid' in Hid. apply (f_equal id_gen) in Hid.
    rewrite !id_gen_pack in Hid by (try apply u16_range; lia). done.
  - intros [Hu Hg]. destruct Hok as [E _ _ _|_ Hid' _ _ _ _]; [by rewrite E in Hu |].
    rewrite Hg in Hid'. rewrite <- Hid'. apply lookup_used; [done | done |]. by rewrite Hid'.
Qed.

(** [handle_held_valid]: in every interleaving of opens, acquisitions, releases
    and closes, an acquired id keeps resolving to an entry with an open
    descriptor and a reference count equal to the number of its holders, and a
    closer of that entry keeps waiting. *)
Theorem handle_held_valid (t : handle_table) (g : ghost) (id : Z) :
  hreach t g -> id ∈ g_held g ->
  exists s, handle_lookup_locked t id = Some s /\
    0 <= h_qemu_fd (ht_slots t).[s] /\
    h_refcount (ht_slots t).[s] = Z.of_nat (length (at_slot s (g_held g))) /\
    close_finish s t = None.
Proof.
  intros Hi%hreach_inv Hh. destruct Hi as [I1 _ [I3 _] _]. exists (id_slot id).
  assert (0 < id_slot id < 4096) as Hs.
  { apply (proj1 (Forall_forall _ _) I3), elem_of_app. by right. }
  assert (id ∈ at_slot (id_slot id) (g_held g)) as Hin by (by apply list_elem_of_filter).
  destruct (I1 _ Hs) as [_ _ E _|H1 H2 H3 H4 H5 H6]; [rewrite E in Hin; by apply elem_of_nil in Hin |].
  assert (h_id (ht_slots t).[id_slot id] = id) as Hid by (symmetry; by apply (proj1 (Forall_forall _ _) H4)).
  assert (0 < h_refcount (ht_slots t).[id_slot id]) as Hr.
  { rewrite H5. destruct (at_slot _ _); [by apply elem_of_nil in Hin | simpl; lia]. }
  split_and!; [| | done |].
  - pose proof (lookup_used t (id_slot id) Hs H1) as Hl. rewrite Hid in Hl. by apply Hl.
  - destruct H6 as [(_ & ? & _)|[(_ & _ & E & _)|(_ & ? & _)]]; [done | | done].
    rewrite E in Hin. by apply elem_of_nil in Hin.
  - unfold close_finish. by rewrite (proj2 (Z.ltb_lt _ _) Hr).
Qed.

(** [handle_close_drains]: once the last holder has released, a waiting closer
    goes through, gets the descriptor to close exactly once, and the id no
    longer resolves. *)
Theorem handle_close_drains (t : handle_table) (g : ghost) (s : Z) :
  hreach t g -> s ∈ g_closing g -> at_slot s (g_held g) = [] ->
  exists t' fd, close_finish s t = Some (t', Some fd) /\ fd = h_qemu_fd (ht_slots t).[s] /\
    handle_lookup_locked t (h_id (ht_slots t).[s]) = Some s /\
    handle_lookup_locked t' (h_id (ht_slots t).[s]) = None.
Proof.
  intros Hi%hreach_inv Hcl Hh. apply list_elem_of_split in Hcl as (cl1 & cl2 & Hcl).
  assert (0 < s < 4096) as Hs.
  { apply (proj1 (Forall_forall _ _) (proj2 (ti_range _ _ Hi))). rewrite Hcl, elem_of_app, elem_of_cons. tauto. }
  pose proof (ti_slot _ _ Hi s Hs) as Hok. pose proof Hok as Hok'.
  rewrite Hcl, closers_mid, decide_True, Hh in Hok by done.
  destruct Hok as [_ _ _ E|H1 H2 H3 H4 H5 H6]; [by destruct (closers _ cl1) |].
  destruct (close_finish s t) as [[t' fd]|] eqn:Ef;
    [|unfold close_finish in Ef; simpl in H5; rewrite H5 in Ef; done].
  pose proof (used_id_slot _ _ _ _ _ _ Hs Hok' H1) as Hsl.
  destruct g as [c op he cl]. simpl in *. subst cl.
  destruct (close_finish_inv _ _ _ _ _ _ _ _ _ Hi Ef) as [_ ->].
  eexists t', _. split_and!; [done | done | by apply lookup_used |].
  unfold close_finish in Ef. destruct (0 <? _); [done |]. injection Ef as <- _.
  destruct (handle_lookup_locked _ _) as [s'|] eqn:El; [|done].
  apply lookup_Some in El as (Es & _ & Hu & _). rewrite Hsl in Es. subst s'.
  simpl in Hu. rewrite aget_set_eq in Hu. done.
Qed.

(** [abort_during_close]: an entry being closed looks like one being opened
    ([ready] is false for both), so [nvkvm_tables_handle_abort_open] succeeds on
    it and frees the slot even while other threads hold references to it. *)
Theorem abort_during_close (t : handle_table) (g : ghost) (id : Z) :
  hreach t g -> id ∈ g_held g -> id_slot id ∈ g_closing g ->
  exists t' fd, nvkvm_tables_handle_abort_open id t = (t', Ok fd) /\
    handle_lookup_locked t' id = None.
Proof.
  intros Hi%hreach_inv Hh Hcl. destruct Hi as [I1 _ [I3 _] _].
  assert (0 < id_slot id < 4096) as Hs.
  { apply (proj1 (Forall_forall _ _) I3), elem_of_app. by right. }
  assert (id ∈ at_slot (id_slot id) (g_held g)) as Hin by (by apply list_elem_of_filter).
  assert (id_slot id ∈ closers (id_slot id) (g_closing g)) as Hin' by (by apply list_elem_of_filter).
  destruct (I1 _ Hs) as [_ _ E _|H1 H2 H3 H4 H5 H6]; [rewrite E in Hin; by apply elem_of_nil in Hin |].
  assert (h_id (ht_slots t).[id_slot id] = id) as Hid by (symmetry; by apply (proj1 (Forall_forall _ _) H4)).
  pose proof (lookup_used t (id_slot id) Hs H1) as Hl. rewrite Hid in Hl.
  unfold nvkvm_tables_handle_abort_open. rewrite Hl by done.
  destruct H6 as [(_ & _ & _ & E)|[(_ & _ & _ & E)|(-> & _)]];
    [rewrite E in Hin'; by apply elem_of_nil in Hin'.. |].
  eexists _, _. split; [done |].
  destruct (handle_lookup_locked (set_slot _ _ _) _) as [s'|] eqn:El; [|done].
  apply lookup_Some in El as (-> & _ & Hu & _). simpl in Hu. rewrite aget_set_eq in Hu. done.
Qed.

(** ** Two closers of one handle *)

(** [n] successful allocations. *)
Fixpoint fill (n : nat) (t : handle_table) : handle_table :=
  match n with
  | O => t
  | S n' => fill n' (fst (nvkvm_tables_handle_alloc HND_NVIDIACTL t))
  end.

(** With every other slot taken: two threads close the same handle while a
    third holds it; the holder releases, the first closer finishes, and the
    slot is allocated and attached again for descriptor 9. *)
Definition double_close_wait : handle_table :=
  let id := id_pack 1 1 in
  nvkvm_tables_handle_release id
    (fst (close_mark id
    (fst (close_mark id
    (fst (nvkvm_tables_handle_acquire id
    (fst (nvkvm_tables_handle_attach_qemu_fd id 5 (fill (Z.to_nat 4095) handles_init))))))))).

Definition reopen (closed : option (handle_table * option Z)) : option handle_table :=
  match closed with
  | Some (t, _) =>
      Some (fst (nvkvm_tables_handle_attach_qemu_fd (id_pack 2 1) 9
                   (fst (nvkvm_tables_handle_alloc HND_MEMFD t))))
  | None => None
  end.

Definition double_close_run : option handle_table := reopen (close_finish 1 double_close_wait).

Lemma double_close_facts :
  match double_close_run with
  | Some t => bool_decide (handle_lookup_locked t (id_pack 2 1) = Some 1) && h_ready (ht_slots t).[1] &&
              (h_refcount (ht_slots t).[1] =? 0) && (h_qemu_fd (ht_slots t).[1] =? 9)
  | None => false
  end = true.
Proof. vm_compute. reflexivity. Qed.

(** [double_close_destroys]: the second closer kept a pointer to the slot and
    re-checks only the reference count, so when it wakes up it frees the new
    owner's handle and closes the new owner's descriptor. *)
Theorem double_close_destroys :
  exists t t', double_close_run = Some t /\
    handle_lookup_locked t (id_pack 2 1) = Some 1 /\ h_ready (ht_slots t).[1] = true /\
    close_finish 1 t = Some (t', Some 9) /\ handle_lookup_locked t' (id_pack 2 1) = None.
Proof.
  pose proof double_close_facts as H. destruct double_close_run as [t|]; [|done].
  apply andb_true_iff in H as [H H4]. apply andb_true_iff in H as [H H3].
  apply andb_true_iff in H as [H1 H2]. apply bool_decide_eq_true in H1. nv_bool.
  exists t, (set_slot 1 free_handle t). unfold close_finish. rewrite H3, H4. split_and!; try done.
  destruct (handle_lookup_locked (set_slot _ _ _) _) as [s'|] eqn:El; [|done].
  apply lookup_Some in El as (-> & _ & Hu & _). change (id_slot (id_pack 2 1)) with 1 in Hu.
  simpl in Hu. rewrite aget_set_eq in Hu. done.
Qed.

(** ** A concrete run: open, acquire, start closing, release *)

Definition ex_t1 : handle_table := fst (nvkvm_tables_handle_alloc HND_MEMFD handles_init).
Definition ex_t2 : handle_table := fst (nvkvm_tables_handle_attach_qemu_fd 4097 5 ex_t1).
Definition ex_t3 : handle_table := fst (nvkvm_tables_handle_acquire 4097 ex_t2).
Definition ex_t4 : handle_table := fst (close_mark 4097 ex_t3).
Definition ex_t5 : handle_table := nvkvm_tables_handle_release 4097 ex_t4.
Definition ex_count : gmap Z Z := (∅ : gmap Z Z).[id_slot 4097 <- (∅ : gmap Z Z).[id_slot 4097] + 1].

Lemma ex_hreach4 : hreach ex_t4 (Ghost ex_count [] [4097] [1]).
Proof.
  apply (hr_step ex_t3 (Ghost ex_count [] [4097] [])).
  2: { apply (hs_close_mark _ _ _ _ _ 4097); [vm_compute; reflexivity | set_solver | set_solver]. }
  apply (hr_step ex_t2 (Ghost ex_count [] [] [])).
  2: { apply (hs_acquire _ _ _ _ _ _ _ 1); [vm_compute; reflexivity | simpl; lia]. }
  apply (hr_step ex_t1 (Ghost ex_count [4097] [] [])).
  2: { apply (hs_attach _ _ [] [] _ _ _ 5). vm_compute. reflexivity. }
  apply (hr_step _ _ _ _ hr_init).
  apply (hs_alloc handles_init (Ghost ∅ [] [] []) HND_MEMFD ex_t1 4097). vm_compute. reflexivity.
Qed.

Lemma ex_hreach5 : hreach ex_t5 (Ghost ex_count [] [] [1]).
Proof. apply (hr_step _ _ _ _ ex_hreach4). apply (hs_release _ _ _ [] []). Qed.

Lemma handle_id_exact_witness : handle_lookup_locked ex_t4 (id_pack (u16 1) 1) = Some 1.
Proof.
  apply (handle_id_exact ex_t4 _ 1 1 ex_hreach4); [lia | vm_compute; split; discriminate |].
  vm_compute. split; reflexivity.
Defined.

Lemma handle_held_valid_witness : exists s, handle_lookup_locked ex_t4 4097 = Some s /\ close_finish s ex_t4 = None.
Proof.
  destruct (handle_held_valid ex_t4 _ 4097 ex_hreach4) as (s & H1 & _ & _ & H2); [simpl; left |].
  exists s. split; [exact H1 | exact H2].
Defined.

Lemma handle_close_drains_witness : exists t' fd, close_finish 1 ex_t5 = Some (t', Some fd).
Proof.
  destruct (handle_close_drains ex_t5 _ 1 ex_hreach5) as (t' & fd & H & _); [simpl; left | reflexivity |].
  exists t', fd. exact H.
Defined.

Lemma abort_during_close_witness :
  exists t' fd, nvkvm_tables_handle_abort_open 4097 ex_t4 = (t', Ok fd).
Proof.
  destruct (abort_during_close ex_t4 _ 4097 ex_hreach4) as (t' & fd & H & _); [simpl; left | simpl; left |].
  exists t', fd. exact H.
Defined.

End Handles.

Module Isolates.
Import Ids.

Definition NVKVM_TABLES_MAX_ISOLATES : Z := 256.

Record isolate_entry := Isolate {
  i_in_use : bool;
  i_id : Z;
  i_pid : Z;
  i_comm_fd : Z;
  i_alive : bool
}.

#[export] Instance Zeroed_isolate : Zeroed isolate_entry := Isolate false 0 0 0 false.

Record isolate_table := ITable {
  it_slots : gmap Z isolate_entry;
  it_generation : gmap Z Z;
  it_next_slot : Z
}.

Definition isolates_init : isolate_table := ITable ∅ ∅ 1.

Definition nvkvm_tables_isolate_alloc (pid comm_fd : Z) (t : isolate_table) : isolate_table * res Z :=
  match slot_search NVKVM_TABLES_MAX_ISOLATES (it_next_slot t) (fun s => i_in_use (it_slots t).[s]) with
  | None => (t, Err ENOSPC)
  | Some s =>
      let gen := u16 ((it_generation t).[s] + 1) in
      let id := id_pack gen s in
      (ITable ((it_slots t).[s <- Isolate true id pid comm_fd true])
         ((it_generation t).[s <- gen]) (next_after NVKVM_TABLES_MAX_ISOLATES s), Ok id)
  end.

Definition isolate_lookup_locked (t : isolate_table) (id : Z) : option Z :=
  let s := id_slot id in
  if (s =? 0) || (NVKVM_TABLES_MAX_ISOLATES <=? s) then None
  else
    let e := (it_slots t).[s] in
    if negb (i_in_use e) || negb (i_id e =? id) then None else Some s.

Definition nvkvm_tables_isolate_mark_dead (id : Z) (t : isolate_table) : isolate_table * res unit :=
  match isolate_lookup_locked t id with
  | None => (t, Err ENOENT)
  | Some s =>
      let e := (it_slots t).[s] in
      (ITable ((it_slots t).[s <- Isolate (i_in_use e) (i_id e) (i_pid e) (i_comm_fd e) false])
         (it_generation t) (it_next_slot t), Ok tt)
  end.

(** Ok carries the descriptor to close, if any. *)
Definition nvkvm_tables_isolate_close (id : Z) (t : isolate_table) : isolate_table * res (option Z) :=
  match isolate_lookup_locked t id with
  | None => (t, Err ENOENT)
  | Some s =>
      (ITable ((it_slots t).[s <- Isolate false 0 0 (-1) false]) (it_generation t) (it_next_slot t),
       Ok (Handles.fd_to_close (i_comm_fd (it_slots t).[s])))
  end.

(** Every used slot carries an id that decodes to it. *)
Record isolates_inv (t : isolate_table) : Prop := {
  ii_id : forall s, 0 < s < 256 -> i_in_use (it_slots t).[s] = true ->
          i_id (it_slots t).[s] = id_pack (u16 (it_generation t).[s]) s;
  ii_next : 0 < it_next_slot t < 256
}.

Lemma isolate_lookup_Some t id s :
  isolate_lookup_locked t id = Some s ->
  s = id_slot id /\ 0 < s < 256 /\ i_in_use (it_slots t).[s] = true /\ i_id (it_slots t).[s] = id.
Proof.
  unfold isolate_lookup_locked, NVKVM_TABLES_MAX_ISOLATES. intros H. repeat nv_case.
  pose proof (u16_range (Z.land id ID_SLOT_MASK)). unfold id_slot in *. split_and!; try done; lia.
Qed.

Inductive ireach : isolate_table -> Prop :=
| ir_init : ireach isolates_init
| ir_alloc t pid fd t' r : ireach t -> nvkvm_tables_isolate_alloc pid fd t = (t', r) -> ireach t'
| ir_dead t id t' r : ireach t -> nvkvm_tables_isolate_mark_dead id t = (t', r) -> ireach t'
| ir_close t id t' r : ireach t -> nvkvm_tables_isolate_close id t = (t', r) -> ireach t'.

Lemma u16_u16 x : u16 (u16 x) = u16 x.
Proof. apply Z.mod_mod. lia. Qed.

Lemma isolate_set_inv t s e :
  isolates_inv t -> (0 < s < 256 -> i_in_use e = true -> i_id e = i_id (it_slots t).[s] /\ i_in_use (it_slots t).[s] = true) ->
  isolates_inv (ITable ((it_slots t).[s <- e]) (it_generation t) (it_next_slot t)).
Proof.
  intros [I1 I2] He. split; simpl; [|done]. intros s' Hs'. rewrite aget_set. case_decide; subst.
  - intros Hu. destruct (He Hs' Hu) as [-> ?]. by apply I1.
  - by apply I1.
Qed.

Lemma ireach_inv t : ireach t -> isolates_inv t.
Proof.
  induction 1 as [|t pid fd t' r _ IH Ha|t id t' r _ IH Ha|t id t' r _ IH Ha].
  - split; [|done]. intros s Hs. simpl. by rewrite aget_empty.
  - unfold nvkvm_tables_isolate_alloc, NVKVM_TABLES_MAX_ISOLATES in Ha.
    destruct (slot_search _ _ _) as [s|] eqn:E; injection Ha as <- _; [|done].
    apply slot_search_Some in E as [Hs _]; [|lia].
    split; simpl; [|apply (next_after_range 256); lia].
    intros s' Hs'. rewrite !aget_set. case_decide; subst; [by rewrite u16_u16 | by apply IH].
  - unfold nvkvm_tables_isolate_mark_dead in Ha.
    destruct (isolate_lookup_locked t id) as [s|] eqn:El; injection Ha as <- _; [|done].
    apply isolate_set_inv; [done |]. intros. by apply isolate_lookup_Some in El as (_ & _ & ? & _).
  - unfold nvkvm_tables_isolate_close in Ha.
    destruct (isolate_lookup_locked t id) as [s|] eqn:El; injection Ha as <- _; [|done].
    by apply isolate_set_inv.
Qed.

(** [isolate_table_sound]: a new isolate id is not 0, resolves to an alive entry
    with the given pid and socket, and leaves every other resolving id
    unchanged; allocation fails only when all 255 slots are used; and a closed
    id stops resolving. *)
Theorem isolate_table_sound (t : isolate_table) (pid fd : Z) :
  ireach t ->
  match nvkvm_tables_isolate_alloc pid fd t with
  | (t', Ok id) =>
      id <> 0 /\ isolate_lookup_locked t id = None /\
      isolate_lookup_locked t' id = Some (id_slot id) /\
      (it_slots t').[id_slot id] = Isolate true id pid fd true /\
      (forall id', isolate_lookup_locked t id' <> None ->
         isolate_lookup_locked t' id' = isolate_lookup_locked t id') /\
      isolate_lookup_locked (fst (nvkvm_tables_isolate_close id t')) id = None
  | (t', Err e) => t' = t /\ e = ENOSPC /\ forall s, 0 < s < 256 -> i_in_use (it_slots t).[s] = true
  end.
Proof.
  intros [I1 I2]%ireach_inv. unfold nvkvm_tables_isolate_alloc, NVKVM_TABLES_MAX_ISOLATES.
  destruct (slot_search _ _ _) as [s|] eqn:E.
  2: { split_and!; try done. intros s Hs. apply (slot_search_None 256 (it_next_slot t) (fun s => i_in_use (it_slots t).[s])); try done; lia. }
  apply slot_search_Some in E as [Hs Hu]; [|lia].
  set (gen := u16 _). set (id := id_pack gen s).
  assert (id_slot id = s) as Hid.
  { unfold id. rewrite id_slot_pack by (try apply u16_range; lia). apply Z.mod_small. lia. }
  assert (forall tab, isolate_lookup_locked tab id =
    if negb (i_in_use (it_slots tab).[s]) || negb (i_id (it_slots tab).[s] =? id) then None else Some s) as Hl.
  { intros tab. unfold isolate_lookup_locked, NVKVM_TABLES_MAX_ISOLATES. rewrite Hid.
    rewrite (proj2 (Z.eqb_neq s 0)), (proj2 (Z.leb_gt 256 s)) by lia. done. }
  rewrite Hid, !Hl. cbn [it_slots i_in_use i_id i_comm_fd fst negb orb].
  rewrite aget_set_eq, Hu. cbn [it_slots i_in_use i_id i_comm_fd fst negb orb]. rewrite Z.eqb_refl. split_and!; try done.
  - intros E0. rewrite E0 in Hid. change (id_slot 0) with 0 in Hid. lia.
  - intros id' Hn. destruct (isolate_lookup_locked t id') as [s'|] eqn:El; [|done].
    apply isolate_lookup_Some in El as (-> & Hs' & Hu' & Hi').
    unfold isolate_lookup_locked, NVKVM_TABLES_MAX_ISOLATES. cbn [it_slots i_in_use i_id i_comm_fd fst negb orb].
    rewrite aget_set_ne by congruence. rewrite Hu', Hi', Z.eqb_refl.
    rewrite (proj2 (Z.eqb_neq _ 0)), (proj2 (Z.leb_gt 256 _)) by lia. done.
  - unfold nvkvm_tables_isolate_close. rewrite Hl. cbn [it_slots i_in_use i_id i_comm_fd fst negb orb].
    rewrite aget_set_eq. cbn [it_slots i_in_use i_id i_comm_fd fst negb orb].
    rewrite Z.eqb_refl. cbn [it_slots i_in_use i_id i_comm_fd fst negb orb]. by rewrite aget_set_eq.
Qed.

Lemma isolate_table_sound_witness :
  isolate_lookup_locked (fst (nvkvm_tables_isolate_alloc 42 7 isolates_init)) 4097 = Some 1.
Proof.
  destruct (isolate_table_sound isolates_init 42 7 ir_init) as (_ & _ & H & _). exact H.
Defined.

End Isolates.

Module Links.

Definition NVKVM_TABLES_MAX_ISO_HND_LINKS : Z := 16384.

Record iso_hnd_entry := Link {
  l_in_use : bool;
  l_isolate_id : Z;
  l_handle_id : Z;
  l_fd_on_isolate : Z
}.

#[export] Instance Zeroed_link : Zeroed iso_hnd_entry := Link false 0 0 0.

Definition max_links : nat := Z.to_nat NVKVM_TABLES_MAX_ISO_HND_LINKS.
Arguments max_links : simpl never.

Lemma max_links_val : Z.of_nat max_links = 16384.
Proof. unfold max_links, NVKVM_TABLES_MAX_ISO_HND_LINKS. lia. Qed.

#[local] Opaque max_links.

Definition link_matches (m : gmap Z iso_hnd_entry) (isolate_id handle_id i : Z) : bool :=
  let e := m.[i] in
  l_in_use e && (l_isolate_id e =? isolate_id) && (l_handle_id e =? handle_id).

Definition nvkvm_tables_iso_hnd_link (isolate_id handle_id fd_on_isolate : Z)
    (m : gmap Z iso_hnd_entry) : gmap Z iso_hnd_entry * res unit :=
  if fd_on_isolate <? 0 then (m, Err EINVAL)
  else
    match scan (link_matches m isolate_id handle_id) 0 max_links with
    | Some _ => (m, Err EEXIST)
    | None =>
        match scan (fun i => negb (l_in_use m.[i])) 0 max_links with
        | Some i => (m.[i <- Link true isolate_id handle_id fd_on_isolate], Ok tt)
        | None => (m, Err ENOSPC)
        end
    end.

Definition nvkvm_tables_iso_hnd_unlink (isolate_id handle_id : Z) (m : gmap Z iso_hnd_entry)
  : gmap Z iso_hnd_entry * res unit :=
  match scan (link_matches m isolate_id handle_id) 0 max_links with
  | Some i => (m.[i <- zeroed], Ok tt)
  | None => (m, Err ENOENT)
  end.

Definition nvkvm_tables_iso_hnd_lookup_fd (isolate_id handle_id : Z) (m : gmap Z iso_hnd_entry) : res Z :=
  match scan (link_matches m isolate_id handle_id) 0 max_links with
  | Some i => Ok (l_fd_on_isolate m.[i])
  | None => Err ENOENT
  end.

Definition nvkvm_tables_iso_hnd_count_for_handle (handle_id : Z) (m : gmap Z iso_hnd_entry) : Z :=
  tally (fun i => l_in_use m.[i] && (l_handle_id m.[i] =? handle_id)) 0 max_links.

(** ** Refinement

    The array of links implements a finite map from (isolate, handle) to the
    descriptor in the isolate. *)
Abbreviation lmap := (gmap (Z * Z) Z).

Record refines (m : gmap Z iso_hnd_entry) (a : lmap) : Prop := {
  rf_in : forall i, 0 <= i < 16384 -> l_in_use m.[i] = true ->
          a !! (l_isolate_id m.[i], l_handle_id m.[i]) = Some (l_fd_on_isolate m.[i]);
  rf_on : forall k fd, a !! k = Some fd -> exists i, 0 <= i < 16384 /\ l_in_use m.[i] = true /\
          (l_isolate_id m.[i], l_handle_id m.[i]) = k;
  rf_uniq : forall i j, 0 <= i < 16384 -> 0 <= j < 16384 ->
          l_in_use m.[i] = true -> l_in_use m.[j] = true ->
          l_isolate_id m.[i] = l_isolate_id m.[j] -> l_handle_id m.[i] = l_handle_id m.[j] -> i = j
}.

Lemma link_matches_spec m iso h i :
  link_matches m iso h i = true <->
  l_in_use m.[i] = true /\ l_isolate_id m.[i] = iso /\ l_handle_id m.[i] = h.
Proof. unfold link_matches. rewrite !andb_true_iff, !Z.eqb_eq. tauto. Qed.

Lemma scan_refines m a iso h :
  refines m a ->
  match scan (link_matches m iso h) 0 max_links with
  | Some i => 0 <= i < 16384 /\ l_in_use m.[i] = true /\ l_isolate_id m.[i] = iso /\
              l_handle_id m.[i] = h /\ a !! (iso, h) = Some (l_fd_on_isolate m.[i])
  | None => a !! (iso, h) = None
  end.
Proof.
  intros [R1 R2 R3]. destruct (scan _ _ _) as [i|] eqn:E.
  - apply scan_Some in E as (Hi & (Hu & H1 & H2)%link_matches_spec & _).
    assert (0 <= i < 16384) as Hr by (rewrite max_links_val in Hi; lia).
    split_and!; try done; try lia. rewrite <- H1, <- H2. by apply R1.
  - destruct (a !! (iso, h)) as [fd|] eqn:Ea; [|done].
    destruct (R2 _ _ Ea) as (i & Hi & Hu & [= H1 H2]). exfalso.
    pose proof (proj1 (scan_None _ _ _) E i) as Hs.
    rewrite (proj2 (link_matches_spec m iso h i)) in Hs by done.
    discriminate Hs. rewrite max_links_val. lia.
Qed.

Lemma link_refines m a iso h fd m' :
  refines m a -> nvkvm_tables_iso_hnd_link iso h fd m = (m', Ok tt) ->
  a !! (iso, h) = None /\ refines m' (<[(iso, h) := fd]> a).
Proof.
  intros Hr. pose proof (scan_refines m a iso h Hr) as Hs. unfold nvkvm_tables_iso_hnd_link.
  destruct (fd <? 0); [done |]. destruct (scan (link_matches _ _ _) _ _); [done |].
  destruct (scan _ _ _) as [i|] eqn:E; [|done]. intros [= <-]. split; [done |].
  apply scan_Some in E as (Hi & Hu & _). nv_bool. destruct Hr as [R1 R2 R3].
  assert (0 <= i < 16384) as Hr by (rewrite max_links_val in Hi; lia).
  assert (forall j, 0 <= j < 16384 -> l_in_use m.[j] = true ->
            (l_isolate_id m.[j], l_handle_id m.[j]) <> (iso, h)) as Hn.
  { intros j Hj Hju E. rewrite <- E, (R1 j Hj Hju) in Hs. done. }
  split.
  - intros j Hj. rewrite aget_set. case_decide; subst; simpl; [by rewrite lookup_insert_eq |].
    intros Hju. rewrite lookup_insert_ne by (intros E; by apply (Hn j)). by apply R1.
  - intros k fd'. destruct (decide (k = (iso, h))) as [->|].
    + intros _. exists i. rewrite aget_set_eq. done.
    + rewrite lookup_insert_ne by done. intros (j & Hj & Hju & Ek)%R2. exists j.
      rewrite aget_set_ne by (intros ->; congruence). done.
  - intros j1 j2 H1 H2. rewrite !aget_set. repeat case_decide; subst; simpl; try done.
    + intros _ Hju E1 E2. exfalso. apply (Hn j2 H2 Hju). by rewrite <- E1, <- E2.
    + intros Hju _ E1 E2. exfalso. apply (Hn j1 H1 Hju). by rewrite E1, E2.
    + by apply R3.
Qed.

Lemma unlink_refines m a iso h m' :
  refines m a -> nvkvm_tables_iso_hnd_unlink iso h m = (m', Ok tt) ->
  a !! (iso, h) <> None /\ refines m' (delete (iso, h) a).
Proof.
  intros Hr. pose proof (scan_refines m a iso h Hr) as Hs. unfold nvkvm_tables_iso_hnd_unlink.
  destruct (scan _ _ _) as [i|]; [|done]. intros [= <-].
  destruct Hs as (Hi & Hu & H1 & H2 & Ha). split; [congruence |]. destruct Hr as [R1 R2 R3].
  assert (forall j, 0 <= j < 16384 -> j <> i -> l_in_use m.[j] = true ->
            (l_isolate_id m.[j], l_handle_id m.[j]) <> (iso, h)) as Hn.
  { intros j Hj Hji Hju [= E1 E2]. apply Hji. apply R3; congruence. }
  split.
  - intros j Hj. rewrite aget_set. case_decide; subst; simpl; [done |].
    intros Hju. rewrite lookup_delete_ne; [by apply R1 |]. intros E. by apply (Hn j).
  - intros k fd'. destruct (decide (k = (iso, h))) as [->|]; [by rewrite lookup_delete_eq |].
    rewrite lookup_delete_ne by done. intros (j & Hj & Hju & Ek)%R2. exists j.
    rewrite aget_set_ne by (intros ->; congruence). done.
  - intros j1 j2 H1' H2'. rewrite !aget_set. repeat case_decide; subst; simpl; try done. by apply R3.
Qed.

(** [link_map_refines]: the link array implements a finite map: a link inserts a
    new pair or reports a duplicate or a full array, an unlink deletes the
    pair or reports it missing, and a lookup returns the linked descriptor. *)
Theorem link_map_refines (m : gmap Z iso_hnd_entry) (a : lmap) (iso h fd : Z) :
  refines m a -> 0 <= fd ->
  nvkvm_tables_iso_hnd_lookup_fd iso h m =
    match a !! (iso, h) with Some x => Ok x | None => Err ENOENT end /\
  match nvkvm_tables_iso_hnd_link iso h fd m with
  | (m', Ok _) => a !! (iso, h) = None /\ refines m' (<[(iso, h) := fd]> a)
  | (m', Err e) => m' = m /\ (e = EEXIST /\ a !! (iso, h) <> None \/
                              e = ENOSPC /\ forall i, 0 <= i < 16384 -> l_in_use m.[i] = true)
  end /\
  match nvkvm_tables_iso_hnd_unlink iso h m with
  | (m', Ok _) => a !! (iso, h) <> None /\ refines m' (delete (iso, h) a)
  | (m', Err e) => m' = m /\ e = ENOENT /\ a !! (iso, h) = None
  end.
Proof.
  intros Hr Hfd. pose proof (scan_refines m a iso h Hr) as Hs. split_and!.
  - unfold nvkvm_tables_iso_hnd_lookup_fd. destruct (scan _ _ _) as [i|]; [|by rewrite Hs].
    by destruct Hs as (_ & _ & _ & _ & ->).
  - destruct (nvkvm_tables_iso_hnd_link iso h fd m) as [m' [[]|e]] eqn:E; [by eapply link_refines |].
    unfold nvkvm_tables_iso_hnd_link in E. rewrite (proj2 (Z.ltb_ge fd 0)) in E by lia.
    destruct (scan (link_matches _ _ _) _ _) as [i|]; simplify_eq/=.
    + split; [done |]. left. split; [done |]. destruct Hs as (_ & _ & _ & _ & ->). done.
    + destruct (scan _ _ _) eqn:E2; simplify_eq/=. split; [done |]. right. split; [done |].
      intros i Hi. pose proof (proj1 (scan_None _ _ _) E2 i) as Hn.
      apply negb_false_iff, Hn. rewrite max_links_val. lia.
  - destruct (nvkvm_tables_iso_hnd_unlink iso h m) as [m' [[]|e]] eqn:E; [by eapply unlink_refines |].
    unfold nvkvm_tables_iso_hnd_unlink in E. destruct (scan _ _ _); simplify_eq/=. done.
Qed.

Lemma refines_empty : refines ∅ ∅.
Proof.
  split.
  - intros i _. by rewrite aget_empty.
  - intros k fd E. by rewrite lookup_empty in E.
  - intros i j _ _. by rewrite aget_empty.
Qed.

Lemma link_map_refines_witness : nvkvm_tables_iso_hnd_lookup_fd 1 2 ∅ = Err ENOENT.
Proof. destruct (link_map_refines ∅ ∅ 1 2 5 refines_empty ltac:(lia)) as [H _]. exact H. Defined.

End Links.
