(* ===== verification/TableWindows.v ===== *)
(** * GPA windows ([src/qemu/nvkvm_tables.c], second half)

    The sorted, coalescing free list inside one window ([Regions]) and the
    table of windows ([Windows]).  The linked list of free regions is the list
    of its [(offset, size)] pairs from [free_head] on; a pointer into it is a
    split of the list. *)

From S2P Require Import Prelude Extents KvmSlots TableHandles.
Local Open Scope Z_scope.
Local Open Scope nv_scope.

Module Regions.

Definition NVKVM_TABLES_PAGE_SIZE : Z := 4096.

Definition align_up (v a : Z) : Z := mask_down (u64 (v + a - 1)) a.

(** The walk of [pp] past the regions below [off]: what precedes [pp] and what
    starts at it. *)
Fixpoint walk_lt (off : Z) (l : list extent) : list extent * list extent :=
  match l with
  | x :: l' =>
      if e_off x <? off then let '(b, a) := walk_lt off l' in (x :: b, a) else ([], l)
  | [] => ([], [])
  end.

(** Coalescing the new region with its successor. *)
Definition join_next (r : extent) (after : list extent) : extent * list extent :=
  match after with
  | n :: after' =>
      if u64 (e_end r) =? e_off n then (Ext (e_off r) (u64 (e_len r + e_len n)), after')
      else (r, after)
  | [] => (r, after)
  end.

(** Coalescing the new region with its predecessor, the last of [before]. *)
Fixpoint join_prev (before : list extent) (r : extent) (after : list extent) : list extent :=
  match before with
  | [] => r :: after
  | [p] =>
      if u64 (e_end p) =? e_off r then Ext (e_off p) (u64 (e_len p + e_len r)) :: after
      else p :: r :: after
  | x :: before' => x :: join_prev before' r after
  end.

(** [malloc_ok]: whether the [malloc] of the list node succeeds. *)
Definition window_add_free_region (malloc_ok : bool) (off size : Z) (l : list extent)
  : list extent * res unit :=
  if size =? 0 then (l, Ok tt)
  else if negb malloc_ok then (l, Err ENOMEM)
  else
    let '(before, after) := walk_lt off l in
    let '(r, after') := join_next (Ext off size) after in
    (join_prev before r after', Ok tt).

(** First fit: the remaining list and [*out_offset]. *)
Fixpoint window_take_region (size : Z) (l : list extent) : option (list extent * Z) :=
  match l with
  | [] => None
  | x :: l' =>
      if size <=? e_len x then
        let rest := u64 (e_len x - size) in
        Some (if rest =? 0 then l' else Ext (u64 (e_off x + size)) rest :: l', e_off x)
      else
        match window_take_region size l' with
        | Some (l'', off) => Some (x :: l'', off)
        | None => None
        end
  end.

(** ** The free list is sorted and maximally coalesced *)

Fixpoint canon (lo : Z) (l : list extent) : Prop :=
  match l with
  | [] => True
  | e :: l' => lo <= e_off e /\ 0 < e_len e /\ canon (e_end e + 1) l'
  end.

(** [live] are the regions handed out and not returned. *)
Record region_inv (size : Z) (free live : list extent) : Prop := {
  ri_size : 0 < size <= 2 ^ 62;
  ri_canon : canon 0 free;
  ri_live : Forall (fun e => 0 <= e_off e /\ 0 < e_len e /\ e_end e <= size) live;
  ri_tile : forall x, cover (free ++ live) x = cov1 (Ext 0 size) x
}.

Lemma canon_weaken lo lo' l : lo' <= lo -> canon lo l -> canon lo' l.
Proof. destruct l; simpl; [done |]. intros ? (? & ? & ?). split_and!; try done; lia. Qed.

Lemma walk_lt_spec off l b a :
  walk_lt off l = (b, a) ->
  l = b ++ a /\ Forall (fun e => e_off e < off) b /\
  match a with [] => True | n :: _ => off <= e_off n end.
Proof.
  revert b a. induction l as [|x l IH]; intros b a; simpl; [by intros [= <- <-] |].
  destruct (e_off x <? off) eqn:E; nv_bool; [|by intros [= <- <-]].
  destruct (walk_lt off l) as [b' a'] eqn:Ew. intros [= <- <-].
  destruct (IH _ _ eq_refl) as (-> & ? & ?). split_and!; try done. by constructor.
Qed.

Lemma join_next_spec lo r a r' a' :
  0 <= e_off r -> 0 < e_len r -> lo <= e_off r ->
  Forall (fun e => e_end e <= 2 ^ 62) (r :: a) ->
  canon lo a -> match a with [] => True | n :: _ => e_end r <= e_off n end ->
  join_next r a = (r', a') ->
  e_off r' = e_off r /\ 0 < e_len r' /\ e_end r' <= 2 ^ 62 /\
  canon (e_end r' + 1) a' /\ forall x, cover (r' :: a') x = cover (r :: a) x.
Proof.
  intros H0 Hl Hlo Hb Hc Hn. unfold join_next. apply Forall_cons in Hb as [Hr Hb].
  destruct a as [|n a]; [by intros [= <- <-] |]. destruct Hc as (C1 & C2 & C3).
  apply Forall_cons in Hb as [Hbn _]. rewrite (u64_small (e_end r)) by (unfold e_end in *; lia).
  destruct (_ =? _) eqn:E; nv_bool; intros [= <- <-].
  - rewrite u64_small by (unfold e_end in *; lia). unfold e_end in *. simpl.
    split_and!; try done; try lia.
    + eapply canon_weaken; [|exact C3]. unfold e_end; simpl; lia.
    + intros x. destruct r, n. simpl in *. generalize (cover a x). intros. cov_lia.
  - split_and!; try done. simpl. split_and!; try done. lia.
Qed.

Lemma join_prev_spec lo b r a :
  canon lo b -> Forall (fun e => 0 <= e_off e /\ e_end e <= e_off r) b ->
  lo <= e_off r -> 0 < e_len r -> e_end r <= 2 ^ 62 -> canon (e_end r + 1) a ->
  canon lo (join_prev b r a) /\ forall x, cover (join_prev b r a) x = cover (b ++ r :: a) x.
Proof.
  revert lo. induction b as [|p b IH]; intros lo Hb Hf Hlo Hl Hr Ha; [simpl; done |].
  apply Forall_cons in Hf as [[Hp0 Hp] Hf]. destruct Hb as (B1 & B2 & B3).
  destruct b as [|p' b].
  - simpl. rewrite (u64_small (e_end p)) by (unfold e_end in *; lia).
    destruct (_ =? _) eqn:E; nv_bool.
    + rewrite u64_small by (unfold e_end in *; lia). unfold e_end in *. simpl. split_and!; try lia.
      * eapply canon_weaken; [|exact Ha]. unfold e_end; simpl; lia.
      * intros x. destruct p, r. simpl in *. generalize (cover a x). intros. cov_lia.
    + simpl. split_and!; try done; lia.
  - change (join_prev (p :: p' :: b) r a) with (p :: join_prev (p' :: b) r a).
    assert (e_end p + 1 <= e_off r) as Hlo'.
    { destruct B3 as (? & ? & _). apply Forall_cons in Hf as [[? ?] _]. unfold e_end in *. lia. }
    destruct (IH _ B3 Hf Hlo' Hl Hr Ha) as [I1 I2]. split; [done |].
    intros x. specialize (I2 x). simpl in *. lia.
Qed.

Lemma canon_app_inv lo b a : canon lo (b ++ a) -> canon lo b /\ exists hi, lo <= hi /\ canon hi a.
Proof.
  revert lo. induction b as [|e b IH]; intros lo; simpl; [intros; split; [done | exists lo; split; [lia | done]] |].
  intros (H1 & H2 & (H3 & hi & Hh & H4)%IH). split; [done |]. exists hi. unfold e_end in *. split; [lia | done].
Qed.

Lemma canon_elem lo l e : canon lo l -> e ∈ l -> lo <= e_off e /\ 0 < e_len e.
Proof.
  revert lo. induction l as [|x l IH]; intros lo; [by intros _ ?%elem_of_nil |].
  intros (H1 & H2 & H3) [->|He]%elem_of_cons; [done |].
  destruct (IH _ H3 He). unfold e_end in *. lia.
Qed.

Lemma free_bounds size free live e :
  region_inv size free live -> e ∈ free -> 0 <= e_off e /\ 0 < e_len e /\ e_end e <= size.
Proof.
  intros [Hsz Hc _ Ht] He. destruct (canon_elem _ _ _ Hc He) as [H1 H2]. split_and!; try done.
  pose proof (cover_elem (free ++ live) e (e_end e - 1)) as Hcv. rewrite Ht in Hcv.
  rewrite (cov1_in e) in Hcv by (unfold e_end; lia).
  destruct (decide (e_end e <= size)); [done |].
  rewrite (cov1_out (Ext 0 size)) in Hcv by (unfold e_end in *; simpl; lia).
  enough (1 <= 0) by lia. apply Hcv, elem_of_app. by left.
Qed.

(** A live region is separate from every free one. *)
Lemma live_free_sep size free live1 d live2 e :
  region_inv size free (live1 ++ d :: live2) -> e ∈ free ->
  e_end e <= e_off d \/ e_end d <= e_off e.
Proof.
  intros Hi He. destruct (free_bounds _ _ _ _ Hi He) as (E1 & E2 & E3).
  pose proof (ri_live _ _ _ Hi) as [_ [(D1 & D2 & D3) _]%Forall_cons]%Forall_app.
  assert (disj d e) as Hdj.
  { apply (cover_disj d (free ++ live1) live2).
    - intros x. rewrite <- app_assoc, (ri_tile _ _ _ Hi). apply cov1_range.
    - rewrite !elem_of_app. tauto. }
  destruct (decide (e_end e <= e_off d)); [by left |].
  destruct (decide (e_end d <= e_off e)); [by right |].
  exfalso. specialize (Hdj (Z.max (e_off d) (e_off e))). unfold inside, e_end in *. lia.
Qed.

(** Returning a live region. *)
Lemma add_region_inv size free live1 live2 off n free' r0 :
  region_inv size free (live1 ++ Ext off n :: live2) ->
  window_add_free_region true off n free = (free', r0) ->
  r0 = Ok tt /\ region_inv size free' (live1 ++ live2).
Proof.
  intros Hi. set (d := Ext off n) in *.
  pose proof (ri_live _ _ _ Hi) as [L1 [(D1 & D2 & D3) L2]%Forall_cons]%Forall_app.
  pose proof (ri_size _ _ _ Hi) as Hsz. simpl in D1, D2.
  unfold window_add_free_region. rewrite (proj2 (Z.eqb_neq n 0)) by lia. simpl.
  destruct (walk_lt off free) as [b a] eqn:Ew. apply walk_lt_spec in Ew as (-> & Hb & Ha).
  pose proof (fun e => free_bounds _ _ _ e Hi) as He.
  pose proof (fun e => live_free_sep _ _ _ _ _ e Hi) as Hsep.
  destruct (canon_app_inv _ _ _ (ri_canon _ _ _ Hi)) as [Cb (hi & Hhi & Ca)].
  assert (forall x l, a = x :: l -> e_end d <= e_off x) as Han.
  { intros x l ->. assert (x ∈ b ++ x :: l) as Hx by (rewrite elem_of_app; right; left).
    destruct (Hsep x Hx) as [?|?]; [|done]. destruct (He x Hx) as (? & ? & ?).
    unfold e_end, d in *. simpl in *. lia. }
  change (Ext off n) with d. destruct (join_next d a) as [r a'] eqn:Ej.
  destruct (join_next_spec off d a r a') as (J1 & J2 & J3 & J4 & J5); try done; try (simpl; lia).
  { apply Forall_cons. split; [lia |]. apply Forall_forall. intros e Hee.
    destruct (He e) as (? & ? & ?); [rewrite elem_of_app; by right | lia]. }
  { destruct a as [|x a]; [done |]. destruct Ca as (? & ? & ?). done. }
  { destruct a as [|x a]; [done |]. by eapply Han. }
  destruct (join_prev_spec 0 b r a') as [P1 P2]; try done; [|rewrite J1; simpl; lia|].
  { rewrite J1. apply Forall_forall. intros e Hee.
    assert (e ∈ b ++ a) as Hee' by (rewrite elem_of_app; by left).
    destruct (He e Hee') as (? & ? & ?). pose proof (proj1 (Forall_forall _ _) Hb e Hee).
    destruct (Hsep e Hee') as [?|?]; unfold e_end, d in *; simpl in *; lia. }
  intros [= <- <-]. split; [done |]. split; [done | done | by apply Forall_app |].
  intros x. rewrite <- (ri_tile _ _ _ Hi). cov_norm. rewrite P2. cov_norm.
  specialize (J5 x). simpl in J5. lia.
Qed.

(** Handing out a region. *)
Lemma take_region_spec size l lo l' off :
  0 < size -> 0 <= lo -> canon lo l -> Forall (fun e => e_end e <= 2 ^ 62) l ->
  window_take_region size l = Some (l', off) ->
  lo <= off /\ canon lo l' /\ forall x, cover (Ext off size :: l') x = cover l x.
Proof.
  intros Hs. revert lo l' off. induction l as [|e l IH]; intros lo l' off Hlo Hc Hb; [done |].
  destruct Hc as (C1 & C2 & C3). apply Forall_cons in Hb as [Hb1 Hb2]. simpl.
  destruct (size <=? e_len e) eqn:E; nv_bool.
  - rewrite !u64_small by (unfold e_end in *; lia).
    destruct (e_len e - size =? 0) eqn:E0; nv_bool; intros [= <- <-].
    + split_and!; [done | eapply canon_weaken; [|done]; unfold e_end; lia |].
      intros x. destruct e. simpl in *. replace size with e_len by lia. done.
    + unfold e_end in *. split_and!; [done | |].
      * simpl. split_and!; [lia | lia |].
        eapply canon_weaken; [|exact C3]. unfold e_end; simpl; lia.
      * intros x. destruct e. simpl in *. generalize (cover l x). intros. cov_lia.
  - destruct (window_take_region size l) as [[l'' off']|] eqn:Et; [|done]. intros [= <- <-].
    destruct (IH (e_end e + 1) l'' off') as (I1 & I2 & I3); try done; [unfold e_end; lia |].
    split_and!; [unfold e_end in *; lia | done |]. intros x. specialize (I3 x). simpl in *. lia.
Qed.

Lemma take_region_none size l : window_take_region size l = None <-> Forall (fun e => e_len e < size) l.
Proof.
  induction l as [|e l IH]; simpl; [by split; constructor |]. rewrite Forall_cons, <- IH.
  destruct (size <=? e_len e) eqn:E; nv_bool; [split; [done | lia] |].
  destruct (window_take_region size l) as [[??]|]; split; try done; by intros [? ?].
Qed.

Lemma take_region_inv size free live n free' off :
  region_inv size free live -> 0 < n -> window_take_region n free = Some (free', off) ->
  region_inv size free' (Ext off n :: live).
Proof.
  intros Hi Hn Ht. pose proof (ri_size _ _ _ Hi) as Hsz.
  destruct (take_region_spec n free 0 free' off) as (T1 & T2 & T3); try done; [apply Hi | |].
  { apply Forall_forall. intros e He. destruct (free_bounds _ _ _ _ Hi He) as (_ & _ & ?). lia. }
  assert (forall x, cover (free' ++ Ext off n :: live) x = cov1 (Ext 0 size) x) as Htile.
  { intros x. rewrite <- (ri_tile _ _ _ Hi). cov_norm. specialize (T3 x). simpl in T3. lia. }
  split; [done | done | | done]. apply Forall_cons. split; [|apply Hi]. simpl. split_and!; [done | done |].
  pose proof (cover_elem (free' ++ Ext off n :: live) (Ext off n) (off + n - 1)) as Hcv.
  rewrite Htile, (cov1_in (Ext off n)) in Hcv by (unfold e_end; simpl; lia).
  destruct (decide (e_end (Ext off n) <= size)); [done |].
  rewrite (cov1_out (Ext 0 size)) in Hcv by (unfold e_end in *; simpl in *; lia).
  enough (1 <= 0) by lia. apply Hcv. rewrite elem_of_app. right. left.
Qed.

(** ** Runs of one window *)

Inductive region_reach (size : Z) : list extent -> list extent -> Prop :=
| rr_init l : 0 < size <= 2 ^ 62 -> window_add_free_region true 0 size [] = (l, Ok tt) -> region_reach size l []
| rr_take l live n l' off :
    region_reach size l live -> 0 < n -> window_take_region n l = Some (l', off) ->
    region_reach size l' (Ext off n :: live)
| rr_add l live1 off n live2 l' r :
    region_reach size l (live1 ++ Ext off n :: live2) ->
    window_add_free_region true off n l = (l', r) -> region_reach size l' (live1 ++ live2).

Lemma region_reach_inv size l live : region_reach size l live -> region_inv size l live.
Proof.
  induction 1 as [l Hs Ha|l live n l' off _ IH Hn Ht|l live1 off n live2 l' r _ IH Ha].
  - unfold window_add_free_region in Ha. rewrite (proj2 (Z.eqb_neq size 0)) in Ha by lia.
    simpl in Ha. injection Ha as <-. split; [done | simpl; lia | constructor |].
    intros x. simpl. lia.
  - by eapply take_region_inv.
  - by eapply add_region_inv.
Qed.

(** [region_alloc_sound]: in every run of one GPA window, live regions are
    inside the window and pairwise disjoint, live and free regions tile the
    window, and the free list stays sorted with a gap between any two regions;
    a request fails only when no free region is large enough; and when all
    regions have been returned the window is one free region again. *)
Theorem region_alloc_sound (size : Z) (free live : list extent) :
  region_reach size free live ->
  canon 0 free /\
  (forall e, e ∈ live -> 0 <= e_off e /\ 0 < e_len e /\ e_end e <= size) /\
  (forall l1 e l2 e', live = l1 ++ e :: l2 -> e' ∈ l1 ++ l2 -> disj e e') /\
  (forall x, cover (free ++ live) x = cov1 (Ext 0 size) x) /\
  (forall n, window_take_region n free = None <-> Forall (fun e => e_len e < n) free) /\
  (live = [] -> free = [Ext 0 size]).
Proof.
  intros Hi%region_reach_inv. pose proof Hi as [Hsz Hc Hl Ht].
  split_and!; try done; [by apply Forall_forall | | intros n; apply take_region_none |].
  - intros l1 e l2 e' -> He'. apply (cover_disj e l1 l2); [|done]. intros x.
    specialize (Ht x). rewrite cover_app in Ht. pose proof (cover_nonneg free x).
    pose proof (cov1_range (Ext 0 size) x). lia.
  - intros ->. rewrite app_nil_r in Ht. destruct free as [|e l].
    { specialize (Ht 0). rewrite cov1_in in Ht by (unfold e_end; simpl; lia). simpl in Ht. lia. }
    destruct Hc as (C1 & C2 & C3). pose proof (fun e => free_bounds _ _ _ e Hi) as He.
    destruct (He e) as (_ & _ & Hend); [left |].
    assert (forall x, cover l x = cover (e :: l) x - cov1 e x) as Hcl by (intros x; simpl; lia).
    assert (forall lo x, canon lo l -> x < lo -> cover l x = 0) as Hlow.
    { clear. induction l as [|e l IH]; intros lo x Hc Hx; [done |]. destruct Hc as (? & ? & Hc). simpl.
      rewrite cov1_out by lia. apply (IH (e_end e + 1)); [done | unfold e_end; lia]. }
    assert (e_off e = 0) as H0.
    { specialize (Ht 0). rewrite (cov1_in (Ext 0 size)) in Ht by (unfold e_end; simpl; lia).
      simpl in Ht. rewrite (Hlow _ 0 C3) in Ht by (unfold e_end; lia).
      destruct (decide (e_off e = 0)); [done |]. rewrite cov1_out in Ht by lia. lia. }
    assert (e_end e = size) as H1.
    { destruct (decide (e_end e = size)); [done |]. specialize (Ht (e_end e)).
      rewrite (cov1_in (Ext 0 size)) in Ht by (unfold e_end in *; simpl; lia). simpl in Ht.
      rewrite (Hlow _ _ C3), cov1_out in Ht by lia. lia. }
    destruct l as [|e' l].
    + destruct e. unfold e_end in *. simpl in *. by subst.
    + exfalso. destruct (He e') as (? & ? & ?); [right; left |]. destruct C3 as (? & _).
      unfold e_end in *. lia.
Qed.

Lemma region_alloc_sound_witness : canon 0 [Ext 8192 57344].
Proof.
  assert (region_reach 65536 [Ext 8192 57344] [Ext 0 8192]) as Hr.
  { apply (rr_take 65536 [Ext 0 65536] []); [|lia | reflexivity].
    apply rr_init; [lia | reflexivity]. }
  destruct (region_alloc_sound 65536 _ _ Hr) as [H _]. exact H.
Defined.

End Regions.

Module Windows.
Import Regions Ids.

Definition NVKVM_TABLES_MAX_WINDOWS : Z := 8.

Record gpa_window := Win {
  w_in_use : bool;
  w_id : Z;
  w_gpa_base : Z;
  w_size : Z;
  w_memfd : Z;
  w_qva : Z;
  w_kvm_slot : Z;
  w_free : list extent
}.

#[export] Instance Zeroed_window : Zeroed gpa_window := Win false 0 0 0 0 0 0 [].

(** [memset] followed by [memfd = kvm_slot = -1]. *)
Definition dead_window : gpa_window := Win false 0 0 0 (-1) 0 (-1) [].

Definition set_free (w : gpa_window) (free : list extent) : gpa_window :=
  Win (w_in_use w) (w_id w) (w_gpa_base w) (w_size w) (w_memfd w) (w_qva w) (w_kvm_slot w) free.

Record window_table := WTable {
  wt_windows : gmap Z gpa_window;
  wt_generation : gmap Z Z;
  wt_next_gpa_base : Z
}.

Definition windows_init : window_table := WTable ∅ ∅ (Z.shiftl 1 40).

(** What the table asks of the host. *)
Inductive host_call :=
| HC_kvm_region (r : Slots.kvm_mem_region)
| HC_munmap (va len : Z)
| HC_close (fd : Z)
| HC_punch_hole (fd off len : Z).

Definition MAP_FAILED : Z := 2 ^ 64 - 1.

Definition window_destroy_locked (w : gpa_window) (kvm_vm_fd : Z) : gpa_window * list host_call :=
  if negb (w_in_use w) then (w, [])
  else
    (dead_window,
     (if (0 <=? kvm_vm_fd) && (0 <=? w_kvm_slot w)
      then [HC_kvm_region (Slots.Region (u32 (w_kvm_slot w)) 0 (w_gpa_base w) 0 (w_qva w))] else [])
     ++ (if negb (w_qva w =? 0) && negb (w_qva w =? MAP_FAILED) then [HC_munmap (w_qva w) (w_size w)] else [])
     ++ (if 0 <=? w_memfd w then [HC_close (w_memfd w)] else [])).

(** The outcomes of the system calls of one window creation. *)
Record create_env := CEnv {
  ce_memfd : res Z;
  ce_ftruncate : option Z;
  ce_mmap : res Z;
  ce_malloc : bool;
  ce_kvm : option Z
}.

Definition nvkvm_tables_window_create (env : create_env) (size kvm_vm_fd : Z) (t : window_table)
  : window_table * res Z * list host_call :=
  if size =? 0 then (t, Err EINVAL, [])
  else
    let size := align_up size NVKVM_TABLES_PAGE_SIZE in
    match scan (fun i => negb (w_in_use (wt_windows t).[i])) 1 (Z.to_nat NVKVM_TABLES_MAX_WINDOWS - 1) with
    | None => (t, Err ENOSPC, [])
    | Some s =>
        let put w := WTable ((wt_windows t).[s <- w]) (wt_generation t) (wt_next_gpa_base t) in
        match ce_memfd env with
        | Err e => (put (Win false 0 0 0 (-1) 0 (-1) []), Err e, [])
        | Ok memfd =>
            match ce_ftruncate env with
            | Some e => (put dead_window, Err e, [HC_close memfd])
            | None =>
                match ce_mmap env with
                | Err e => (put (Win false 0 0 0 (-1) MAP_FAILED (-1) []), Err e, [HC_close memfd])
                | Ok qva =>
                    let gen := u16 ((wt_generation t).[s] + 1) in
                    let base := wt_next_gpa_base t in
                    let id := id_pack gen s in
                    let put w := WTable ((wt_windows t).[s <- w]) ((wt_generation t).[s <- gen])
                                   (u64 (base + size)) in
                    match window_add_free_region (ce_malloc env) 0 size [] with
                    | (free, Err _) =>
                        let '(w', calls) :=
                          window_destroy_locked (Win true id base size memfd qva (-1) free) (-1) in
                        (put w', Err ENOMEM, calls)
                    | (free, Ok _) =>
                        if 0 <=? kvm_vm_fd then
                          let region := HC_kvm_region (Slots.Region s 0 base size qva) in
                          match ce_kvm env with
                          | Some e =>
                              let '(w', calls) :=
                                window_destroy_locked (Win true id base size memfd qva (-1) free) (-1) in
                              (put w', Err e, region :: calls)
                          | None => (put (Win true id base size memfd qva s free), Ok id, [region])
                          end
                        else (put (Win true id base size memfd qva (-1) free), Ok id, [])
                    end
                end
            end
        end
    end.

Definition nvkvm_tables_window_destroy (window_id kvm_vm_fd : Z) (t : window_table)
  : window_table * res unit * list host_call :=
  let s := id_slot window_id in
  if (s =? 0) || (NVKVM_TABLES_MAX_WINDOWS <=? s) then (t, Err ENOENT, [])
  else
    let w := (wt_windows t).[s] in
    if negb (w_in_use w) || negb (w_id w =? window_id) then (t, Err ENOENT, [])
    else
      let '(w', calls) := window_destroy_locked w kvm_vm_fd in
      (WTable ((wt_windows t).[s <- w']) (wt_generation t) (wt_next_gpa_base t), Ok tt, calls).

(** The region taken: window id, offset, host address and GPA. *)
Record taken := Taken { tk_window : Z; tk_offset : Z; tk_vmm_va : Z; tk_gpa : Z }.

Definition window_fits (size : Z) (t : window_table) (i : Z) : bool :=
  let w := (wt_windows t).[i] in
  w_in_use w && (match window_take_region size (w_free w) with Some _ => true | None => false end).

Definition put_free (t : window_table) (i : Z) (free : list extent) : window_table :=
  WTable ((wt_windows t).[i <- set_free (wt_windows t).[i] free]) (wt_generation t) (wt_next_gpa_base t).

Definition windows_take (size : Z) (t : window_table) : window_table * res taken :=
  match scan (window_fits size t) 1 (Z.to_nat NVKVM_TABLES_MAX_WINDOWS - 1) with
  | None => (t, Err ENOSPC)
  | Some i =>
      let w := (wt_windows t).[i] in
      match window_take_region size (w_free w) with
      | Some (free, off) =>
          (put_free t i free, Ok (Taken (w_id w) off (w_qva w + off) (u64 (w_gpa_base w + off))))
      | None => (t, Err ENOSPC)
      end
  end.

(** The hole punched after [off, off + size) went back to the free list; the
    outcome of [fallocate] is ignored by the caller. *)
Definition window_punch_around (w : gpa_window) (off size : Z) : list host_call :=
  let '(p_off, p_size) :=
    match list_find (fun r => e_off r <= off /\ u64 (off + size) <= u64 (e_end r)) (w_free w) with
    | Some (_, r) => (e_off r, e_len r)
    | None => (off, size)
    end in
  let p_off := align_up p_off NVKVM_TABLES_PAGE_SIZE in
  let p_size := Z.land p_size (u64 (Z.lnot (NVKVM_TABLES_PAGE_SIZE - 1))) in
  if p_size =? 0 then [] else [HC_punch_hole (w_memfd w) p_off p_size].

(** The window with a given id, as the loops of [mmap_alloc] and [mmap_free]
    find it. *)
Definition window_of (window_id : Z) (t : window_table) : option Z :=
  scan (fun i => w_in_use (wt_windows t).[i] && (w_id (wt_windows t).[i] =? window_id)) 1
    (Z.to_nat NVKVM_TABLES_MAX_WINDOWS - 1).

Definition windows_return (malloc_ok : bool) (window_id off size : Z) (t : window_table)
  : window_table * list host_call :=
  match window_of window_id t with
  | None => (t, [])
  | Some i =>
      let '(free, _) := window_add_free_region malloc_ok off size (w_free (wt_windows t).[i]) in
      let t' := put_free t i free in
      (t', window_punch_around (wt_windows t').[i] off size)
  end.

End Windows.
