(* ===== verification/Tables.v ===== *)
(** * The aggregate of the tables ([src/qemu/nvkvm_tables.c])

    The mmap table and the operations that cross tables: [mmap_alloc],
    [mmap_free] and [handle_close].  The cross-table operations are sequences of
    atomic parts, one per lock they take. *)

From S2P Require Import Prelude Extents TableHandles TableWindows.
Local Open Scope Z_scope.
Local Open Scope nv_scope.

Module Tables.
Import Ids Handles Isolates Links Regions Windows.

Definition NVKVM_TABLES_MAX_MMAPS : Z := 8192.

Record mmap_entry := Mmap {
  m_in_use : bool;
  m_id : Z;
  m_handle_id : Z;
  m_handle_offset : Z;
  m_vmm_va : Z;
  m_gpa : Z;
  m_size : Z;
  m_prot : Z;
  m_window_id : Z;
  m_window_offset : Z
}.

#[export] Instance Zeroed_mmap : Zeroed mmap_entry := Mmap false 0 0 0 0 0 0 0 0 0.

Record mmap_table := MTable {
  mt_slots : gmap Z mmap_entry;
  mt_generation : gmap Z Z;
  mt_next_slot : Z
}.

Record tables := Tabs {
  t_handles : handle_table;
  t_isolates : isolate_table;
  t_iso_hnd : gmap Z iso_hnd_entry;
  t_mmaps : mmap_table;
  t_windows : window_table
}.

Definition nvkvm_tables_init : tables :=
  Tabs handles_init isolates_init ∅ (MTable ∅ ∅ 1) windows_init.

Definition set_handles (h : handle_table) (t : tables) : tables :=
  Tabs h (t_isolates t) (t_iso_hnd t) (t_mmaps t) (t_windows t).
Definition set_mmaps (m : mmap_table) (t : tables) : tables :=
  Tabs (t_handles t) (t_isolates t) (t_iso_hnd t) m (t_windows t).
Definition set_windows (w : window_table) (t : tables) : tables :=
  Tabs (t_handles t) (t_isolates t) (t_iso_hnd t) (t_mmaps t) w.

Definition max_mmaps : nat := Z.to_nat NVKVM_TABLES_MAX_MMAPS.
Arguments max_mmaps : simpl never.

Definition nvkvm_tables_mmap_count_for_handle (handle_id : Z) (m : mmap_table) : Z :=
  tally (fun i => m_in_use (mt_slots m).[i] && (m_handle_id (mt_slots m).[i] =? handle_id)) 0 max_mmaps.

(** ** Closing a handle *)

(** The two dependency checks, each under its own lock. *)
Definition close_deps_ok (handle_id : Z) (t : tables) : bool :=
  negb (0 <? nvkvm_tables_mmap_count_for_handle handle_id (t_mmaps t)) &&
  negb (0 <? nvkvm_tables_iso_hnd_count_for_handle handle_id (t_iso_hnd t)).

(** A close that runs without interruption; [None] when it has to wait for
    references to drain. *)
Definition nvkvm_tables_handle_close (handle_id : Z) (t : tables) : option (tables * res (option Z)) :=
  if negb (close_deps_ok handle_id t) then Some (t, Err EBUSY)
  else
    match close_mark handle_id (t_handles t) with
    | (h, Err e) => Some (set_handles h t, Err e)
    | (h, Ok s) =>
        match close_finish s h with
        | Some (h', fd) => Some (set_handles h' t, Ok fd)
        | None => None
        end
    end.

(** ** Mappings *)

(** The first part of [mmap_alloc], under the handle lock. *)
Definition mmap_handle_ok (handle_id : Z) (h : handle_table) : bool :=
  match handle_lookup_locked h handle_id with
  | Some s => h_ready (ht_slots h).[s]
  | None => false
  end.

(** The last part, under the mmap lock: [None] when the table is full. *)
Definition mmap_insert (handle_id handle_offset size prot : Z) (k : taken) (m : mmap_table)
  : option (mmap_table * Z) :=
  match slot_search NVKVM_TABLES_MAX_MMAPS (mt_next_slot m) (fun s => m_in_use (mt_slots m).[s]) with
  | None => None
  | Some s =>
      let gen := u16 ((mt_generation m).[s] + 1) in
      let mid := id_pack gen s in
      Some (MTable ((mt_slots m).[s <- Mmap true mid handle_id handle_offset (tk_vmm_va k) (tk_gpa k)
                                         size prot (tk_window k) (tk_offset k)])
              ((mt_generation m).[s <- gen]) (next_after NVKVM_TABLES_MAX_MMAPS s), mid)
  end.

(** Ok carries [*out_gpa] and [*out_mmap_id]. *)
Definition nvkvm_tables_mmap_alloc (malloc_ok : bool) (handle_id handle_offset size prot : Z) (t : tables)
  : tables * res (Z * Z) :=
  if size =? 0 then (t, Err EINVAL)
  else
    let size := align_up size NVKVM_TABLES_PAGE_SIZE in
    if negb (mmap_handle_ok handle_id (t_handles t)) then (t, Err ENOENT)
    else
      match windows_take size (t_windows t) with
      | (w, Err e) => (set_windows w t, Err e)
      | (w, Ok k) =>
          match mmap_insert handle_id handle_offset size prot k (t_mmaps t) with
          | Some (m, mid) => (set_mmaps m (set_windows w t), Ok (tk_gpa k, mid))
          | None =>
              let w' := match window_of (tk_window k) w with
                        | Some i => put_free w i (fst (window_add_free_region malloc_ok (tk_offset k) size
                                                         (w_free (wt_windows w).[i])))
                        | None => w
                        end in
              (set_windows w' t, Err ENOSPC)
          end
      end.

Definition nvkvm_tables_mmap_free (malloc_ok : bool) (mmap_id : Z) (t : tables)
  : tables * res unit * list host_call :=
  let s := id_slot mmap_id in
  if (s =? 0) || (NVKVM_TABLES_MAX_MMAPS <=? s) then (t, Err ENOENT, [])
  else
    let m := (mt_slots (t_mmaps t)).[s] in
    if negb (m_in_use m) || negb (m_id m =? mmap_id) then (t, Err ENOENT, [])
    else
      let mt := MTable ((mt_slots (t_mmaps t)).[s <- zeroed]) (mt_generation (t_mmaps t))
                  (mt_next_slot (t_mmaps t)) in
      let '(w, calls) := windows_return malloc_ok (m_window_id m) (m_window_offset m) (m_size m)
                           (t_windows t) in
      (set_windows w (set_mmaps mt t), Ok tt, calls).

(** What [nvkvm_tables_fini] closes and unmaps. *)
Definition nvkvm_tables_fini (t : tables) : window_table * list host_call :=
  let '(w, calls) :=
    sweep (fun i '(w, calls) =>
             if w_in_use (wt_windows w).[i] then
               let '(wi, c) := window_destroy_locked (wt_windows w).[i] (-1) in
               (WTable ((wt_windows w).[i <- wi]) (wt_generation w) (wt_next_gpa_base w), calls ++ c)
             else (w, calls))
      0 (Z.to_nat NVKVM_TABLES_MAX_WINDOWS) (t_windows t, []) in
  let hcalls :=
    sweep (fun i c => let e := (ht_slots (t_handles t)).[i] in
             if h_in_use e && (0 <=? h_qemu_fd e) then c ++ [HC_close (h_qemu_fd e)] else c)
      0 (Z.to_nat NVKVM_TABLES_MAX_HANDLES) [] in
  let icalls :=
    sweep (fun i c => let e := (it_slots (t_isolates t)).[i] in
             if i_in_use e && (0 <=? i_comm_fd e) then c ++ [HC_close (i_comm_fd e)] else c)
      0 (Z.to_nat NVKVM_TABLES_MAX_ISOLATES) [] in
  (w, calls ++ hcalls ++ icalls).

(** ** Ids of the mmap table *)

(** [mmap_high_slot_stuck]: the mmap table has 8192 slots but an id carries only
    12 slot bits, so no id frees a mapping in slot 4096 or above. *)
Theorem mmap_high_slot_stuck (malloc_ok : bool) (mmap_id s : Z) (t : tables) :
  4096 <= s < 8192 -> 0 <= mmap_id ->
  (mt_slots (t_mmaps (fst (fst (nvkvm_tables_mmap_free malloc_ok mmap_id t))))).[s] =
  (mt_slots (t_mmaps t)).[s].
Proof.
  intros Hs Hid. unfold nvkvm_tables_mmap_free.
  assert (id_slot mmap_id < 4096) as Hlt.
  { rewrite id_slot_val by done. by apply Z.mod_pos_bound. }
  destruct (_ || _); [done |]. destruct (_ || _); [done |].
  destruct (windows_return _ _ _ _ _) as [w calls]. simpl. rewrite aget_set_ne by lia. done.
Qed.

Lemma mmap_high_slot_stuck_witness :
  (mt_slots (t_mmaps (fst (fst (nvkvm_tables_mmap_free true 4097 nvkvm_tables_init))))).[5000] = zeroed.
Proof. rewrite (mmap_high_slot_stuck true 4097 5000 nvkvm_tables_init); [reflexivity | lia | lia]. Defined.

(** ** A closing race

    Thread A allocates a mapping of a handle while thread B closes it: A checks
    the handle, B checks that it has no mappings and frees it, A inserts its
    mapping. *)
Definition race_env : create_env := CEnv (Ok 10) None (Ok 0x7f0000000000) true None.

(** A window, and handle 4097 attached to descriptor 5. *)
Definition race_start : tables :=
  set_windows (fst (fst (nvkvm_tables_window_create race_env 65536 (-1) windows_init)))
    (set_handles (fst (nvkvm_tables_handle_attach_qemu_fd 4097 5
       (fst (nvkvm_tables_handle_alloc HND_MEMFD handles_init)))) nvkvm_tables_init).

(** [mmap_close_race]: the interleaving runs to completion on both sides and
    leaves a live mapping whose handle no longer exists. *)
Theorem mmap_close_race :
  exists h fd w k m mid,
    mmap_handle_ok 4097 (t_handles race_start) = true /\
    nvkvm_tables_handle_close 4097 race_start = Some (set_handles h race_start, Ok fd) /\
    windows_take 4096 (t_windows race_start) = (w, Ok k) /\
    mmap_insert 4097 0 4096 3 k (t_mmaps race_start) = Some (m, mid) /\
    m_in_use (mt_slots m).[1] = true /\ m_handle_id (mt_slots m).[1] = 4097 /\
    handle_lookup_locked h 4097 = None.
Proof. eexists _, _, _, _, _, _. vm_compute. split_and!; reflexivity. Qed.

End Tables.
