(* ===== verification/HandleTable.v ===== *)
(** * The global handle table ([src/qemu/nvkvm_handle.c])

    Handles name the host descriptors the device holds for the guest.  Every
    operation runs under the table lock and is one atomic function; the
    descriptors it closes are part of its result. *)

From S2P Require Import Prelude.
Local Open Scope Z_scope.
Local Open Scope nv_scope.

Module HTab.

Definition NVKVM_HANDLE_TYPE_NVIDIA : Z := 1.
Definition NVKVM_HANDLE_TYPE_MEMORY : Z := 2.
Definition NVKVM_HANDLE_MAX : Z := 65536.

(** [NVKVM_DEV_*] of [nvkvm_proto.h]. *)
Definition NVKVM_DEV_CTL : Z := 0.
Definition NVKVM_DEV_UVM : Z := 1.
Definition NVKVM_DEV_EVENTFD : Z := 0xFF.

Record handle := Hnd {
  hd_id : Z;
  hd_type : Z;
  hd_fd : Z;
  hd_session_id : Z;
  hd_dev_id : Z;
  hd_isolate_refcount : Z;
  hd_poll_active : bool;
  hd_in_use : bool
}.

(** The entries as [nvkvm_handle_table_init] leaves them. *)
#[export] Instance Zeroed_handle : Zeroed handle := Hnd 0 0 (-1) 0 0 0 false false.

Record handle_table := HTb { tb_handles : gmap Z handle; tb_next_id : Z }.

Definition nvkvm_handle_table_init : handle_table := HTb ∅ 1.

Definition put (i : Z) (h : handle) (t : handle_table) : handle_table :=
  HTb ((tb_handles t).[i <- h]) (tb_next_id t).

(** The device nodes a [dev_id] names. *)
Inductive dev_path := Path_nvidiactl | Path_nvidia_uvm | Path_nvidia (n : Z).

Definition nvidia_dev_path (dev_id : Z) : option dev_path :=
  if dev_id =? NVKVM_DEV_CTL then Some Path_nvidiactl
  else if dev_id =? NVKVM_DEV_UVM then Some Path_nvidia_uvm
  else let n := dev_id - 16 in
       if (0 <=? n) && (n <? 16) then Some (Path_nvidia n) else None.

(** [next_id++] with its wrap. *)
Definition bump (n : Z) : Z := let n' := u32 (n + 1) in if NVKVM_HANDLE_MAX <=? n' then 1 else n'.

Fixpoint alloc_slot_loop (fuel : nat) (t : handle_table) : handle_table * option Z :=
  match fuel with
  | O => (t, None)
  | S fuel' =>
      let id := tb_next_id t in
      let t1 := HTb (tb_handles t) (bump id) in
      if id =? 0 then alloc_slot_loop fuel' t1
      else if negb (hd_in_use (tb_handles t).[id mod NVKVM_HANDLE_MAX])
      then (put (id mod NVKVM_HANDLE_MAX) (Hnd id 0 (-1) 0 0 0 false true) t1, Some id)
      else alloc_slot_loop fuel' t1
  end.

Definition max_attempts : nat := Z.to_nat NVKVM_HANDLE_MAX.
Arguments max_attempts : simpl never.

Definition alloc_slot (t : handle_table) : handle_table * option Z := alloc_slot_loop max_attempts t.

(** The tail of the three opening functions: a slot for [fd], or the descriptor
    closed again. *)
Definition install (type fd session_id dev_id : Z) (t : handle_table)
  : handle_table * res Z * list Z :=
  match alloc_slot t with
  | (t1, None) => (t1, Err EMFILE, if 0 <=? fd then [fd] else [])
  | (t1, Some id) => (put id (Hnd id type fd session_id dev_id 0 false true) t1, Ok id, [])
  end.

Section opens.
(** The outcomes of [open], by path and flags, and of [eventfd]. *)
Context (host_open : dev_path -> Z -> res Z) (host_eventfd : res Z).

(** The descriptor behind a device id; 0x80000 is [O_CLOEXEC]. *)
Definition open_dev (dev_id flags : Z) : res Z :=
  if dev_id =? NVKVM_DEV_EVENTFD then host_eventfd
  else match nvidia_dev_path dev_id with
       | None => Err EINVAL
       | Some path => host_open path (Z.lor flags 0x80000)
       end.

Definition nvkvm_handle_open_nvidia (session_id dev_id flags : Z) (t : handle_table)
  : handle_table * res Z * list Z :=
  match open_dev dev_id flags with
  | Err e => (t, Err e, [])
  | Ok fd => install NVKVM_HANDLE_TYPE_NVIDIA fd session_id dev_id t
  end.

End opens.

Definition nvkvm_handle_alloc_pending (session_id dev_id : Z) (t : handle_table) : handle_table * res Z :=
  let '(t', r, _) := install NVKVM_HANDLE_TYPE_NVIDIA (-1) session_id dev_id t in (t', r).

(** [memfd] and [ftruncate]: their outcomes. *)
Definition nvkvm_handle_open_memory (memfd : res Z) (ftruncate : option Z) (session_id size : Z)
    (t : handle_table) : handle_table * res Z * list Z :=
  match memfd with
  | Err e => (t, Err e, [])
  | Ok fd =>
      match (if 0 <? size then ftruncate else None) with
      | Some e => (t, Err e, [fd])
      | None => install NVKVM_HANDLE_TYPE_MEMORY fd session_id 0 t
      end
  end.

Definition bad_id (id : Z) : bool := (id =? 0) || (NVKVM_HANDLE_MAX <=? id).

(** The entry an id names, when it is live. *)
Definition live_entry (id : Z) (t : handle_table) : option handle :=
  let h := (tb_handles t).[id mod NVKVM_HANDLE_MAX] in
  if negb (hd_in_use h) || negb (hd_id h =? id) then None else Some h.

Definition set_fd (fd : Z) (h : handle) : handle :=
  Hnd (hd_id h) (hd_type h) fd (hd_session_id h) (hd_dev_id h) (hd_isolate_refcount h)
    (hd_poll_active h) (hd_in_use h).

Definition nvkvm_handle_attach_fd (id fd : Z) (t : handle_table) : handle_table * res unit :=
  if bad_id id || (fd <? 0) then (t, Err EINVAL)
  else
    match live_entry id t with
    | None => (t, Err EBADF)
    | Some h =>
        if 0 <=? hd_fd h then (t, Err EEXIST)
        else (put (id mod NVKVM_HANDLE_MAX) (set_fd fd h) t, Ok tt)
    end.

(** [in_use = false], with [fd] as given. *)
Definition retire (fd : Z) (h : handle) : handle :=
  Hnd (hd_id h) (hd_type h) fd (hd_session_id h) (hd_dev_id h) (hd_isolate_refcount h)
    (hd_poll_active h) false.

Definition nvkvm_handle_abort_open (id : Z) (t : handle_table) : handle_table :=
  if bad_id id then t
  else
    match live_entry id t with
    | Some h => if hd_fd h <? 0 then put (id mod NVKVM_HANDLE_MAX) (retire (hd_fd h) h) t else t
    | None => t
    end.

Definition nvkvm_handle_get (id : Z) (t : handle_table) : option handle :=
  if bad_id id then None else live_entry id t.

(** [dup fd] is the outcome of [fcntl(fd, F_DUPFD_CLOEXEC)], -1 on failure; the
    result is the duplicate and the device id. *)
Definition nvkvm_handle_acquire_fd (dup : Z -> Z) (id : Z) (t : handle_table) : Z * option Z :=
  if bad_id id then (-1, None)
  else
    match live_entry id t with
    | Some h => if 0 <=? hd_fd h then (dup (hd_fd h), Some (hd_dev_id h)) else (-1, None)
    | None => (-1, None)
    end.

Definition set_refs (n : Z) (h : handle) : handle :=
  Hnd (hd_id h) (hd_type h) (hd_fd h) (hd_session_id h) (hd_dev_id h) n (hd_poll_active h)
    (hd_in_use h).

Definition nvkvm_handle_ref_isolate (id : Z) (t : handle_table) : handle_table * res unit :=
  match nvkvm_handle_get id t with
  | None => (t, Err EBADF)
  | Some h => (put (id mod NVKVM_HANDLE_MAX) (set_refs (u32 (hd_isolate_refcount h + 1)) h) t, Ok tt)
  end.

Definition nvkvm_handle_unref_isolate (id : Z) (t : handle_table) : handle_table * res unit :=
  match nvkvm_handle_get id t with
  | None => (t, Err EBADF)
  | Some h =>
      (if 0 <? hd_isolate_refcount h
       then put (id mod NVKVM_HANDLE_MAX) (set_refs (hd_isolate_refcount h - 1) h) t else t, Ok tt)
  end.

Definition closed_fd (h : handle) : list Z := if 0 <=? hd_fd h then [hd_fd h] else [].
Definition fd_after_close (h : handle) : Z := if 0 <=? hd_fd h then -1 else hd_fd h.

Definition nvkvm_handle_close (id : Z) (t : handle_table) : handle_table * res unit * list Z :=
  match nvkvm_handle_get id t with
  | None => (t, Err EBADF, [])
  | Some h =>
      if 0 <? hd_isolate_refcount h then (t, Err EBUSY, [])
      else (put (id mod NVKVM_HANDLE_MAX) (retire (fd_after_close h) h) t, Ok tt, closed_fd h)
  end.

(** One iteration of the loop of [nvkvm_handle_close_session]. *)
Definition close_if (session_id i : Z) (st : handle_table * list Z) : handle_table * list Z :=
  let h := (tb_handles (fst st)).[i] in
  if negb (hd_in_use h) || negb (hd_session_id h =? session_id) then st
  else (put i (retire (fd_after_close h) h) (fst st), snd st ++ closed_fd h).

Definition nvkvm_handle_close_session (session_id : Z) (t : handle_table) : handle_table * list Z :=
  sweep (close_if session_id) 1 (max_attempts - 1) (t, []).

(** The descriptors closed by [nvkvm_handle_table_fini]. *)
Definition nvkvm_handle_table_fini (t : handle_table) : handle_table * list Z :=
  sweep (fun i st =>
           let h := (tb_handles (fst st)).[i] in
           if hd_in_use h && (0 <=? hd_fd h)
           then (put i (set_fd (-1) h) (fst st), snd st ++ [hd_fd h]) else st)
    0 max_attempts (t, []).

(** ** Slot allocation *)

Lemma max_attempts_val : Z.of_nat max_attempts = 65536.
Proof. unfold max_attempts, NVKVM_HANDLE_MAX. lia. Qed.

#[local] Opaque max_attempts.

(** The [j]-th id tried from [n]. *)
Definition cyc (n j : Z) : Z := (n - 1 + j) mod 65535 + 1.

Lemma cyc_range n j : 1 <= cyc n j <= 65535.
Proof. unfold cyc. pose proof (Z.mod_pos_bound (n - 1 + j) 65535). lia. Qed.

Lemma cyc_0 n : 1 <= n <= 65535 -> cyc n 0 = n.
Proof. intros. unfold cyc. rewrite Z.mod_small; lia. Qed.

Lemma cyc_bump n j : 1 <= n <= 65535 -> cyc (bump n) j = cyc n (j + 1).
Proof.
  intros Hn. unfold cyc, bump, NVKVM_HANDLE_MAX. rewrite u32_small by lia.
  destruct (65536 <=? n + 1) eqn:E; nv_bool; [|f_equal; f_equal; lia].
  assert (n = 65535) as -> by lia. f_equal.
  replace (65535 - 1 + (j + 1)) with (1 - 1 + j + 1 * 65535) by lia. by rewrite Z.mod_add.
Qed.

Lemma bump_range n : 1 <= n <= 65535 -> 1 <= bump n <= 65535.
Proof.
  intros Hn. unfold bump, NVKVM_HANDLE_MAX. rewrite u32_small by lia. nv_case; lia.
Qed.

Lemma alloc_loop_spec fuel t :
  1 <= tb_next_id t <= 65535 ->
  match alloc_slot_loop fuel t with
  | (t', Some id) =>
      1 <= id <= 65535 /\ hd_in_use (tb_handles t).[id] = false /\
      tb_handles t' = (tb_handles t).[id <- Hnd id 0 (-1) 0 0 0 false true] /\
      1 <= tb_next_id t' <= 65535
  | (t', None) =>
      tb_handles t' = tb_handles t /\ 1 <= tb_next_id t' <= 65535 /\
      forall j, 0 <= j < Z.of_nat fuel -> hd_in_use (tb_handles t).[cyc (tb_next_id t) j] = true
  end.
Proof.
  revert t. induction fuel as [|fuel IH]; intros t Hn; [simpl; split_and!; try done; lia |].
  simpl. rewrite (proj2 (Z.eqb_neq _ 0)) by lia.
  unfold NVKVM_HANDLE_MAX at 1. rewrite (Z.mod_small _ 65536) by lia.
  destruct (hd_in_use _) eqn:E; simpl.
  - specialize (IH (HTb (tb_handles t) (bump (tb_next_id t))) (bump_range _ Hn)).
    destruct (alloc_slot_loop fuel _) as [t' [id|]]; [done |]. simpl in IH.
    destruct IH as (I1 & I2 & I3). split_and!; try done; try lia.
    intros j Hj. destruct (decide (j = 0)) as [->|]; [by rewrite cyc_0 |].
    specialize (I3 (j - 1)). rewrite cyc_bump in I3 by done.
    replace (j - 1 + 1) with j in I3 by lia. apply I3. lia.
  - unfold NVKVM_HANDLE_MAX. rewrite (Z.mod_small _ 65536) by lia.
    split_and!; try done; try lia; apply bump_range; done.
Qed.

Lemma alloc_slot_spec t :
  1 <= tb_next_id t <= 65535 ->
  match alloc_slot t with
  | (t', Some id) =>
      1 <= id <= 65535 /\ hd_in_use (tb_handles t).[id] = false /\
      tb_handles t' = (tb_handles t).[id <- Hnd id 0 (-1) 0 0 0 false true] /\
      1 <= tb_next_id t' <= 65535
  | (t', None) =>
      tb_handles t' = tb_handles t /\ 1 <= tb_next_id t' <= 65535 /\
      forall i, 1 <= i <= 65535 -> hd_in_use (tb_handles t).[i] = true
  end.
Proof.
  intros Hn. unfold alloc_slot. pose proof (alloc_loop_spec max_attempts t Hn) as H.
  destruct (alloc_slot_loop max_attempts t) as [t' [id|]]; [done |].
  destruct H as (H1 & H2 & H3). split_and!; try done; try lia. intros i Hi.
  specialize (H3 ((i - tb_next_id t) mod 65535)). rewrite max_attempts_val in H3.
  pose proof (Z.mod_pos_bound (i - tb_next_id t) 65535).
  unfold cyc in H3. rewrite Zplus_mod_idemp_r in H3.
  replace (tb_next_id t - 1 + (i - tb_next_id t)) with (i - 1) in H3 by lia.
  rewrite (Z.mod_small (i - 1) 65535) in H3 by lia. replace (i - 1 + 1) with i in H3 by lia. apply H3. lia.
Qed.

(** ** Ownership of descriptors

    [o] is the set of host descriptors the table owns and has not closed.  The
    host never returns a descriptor that is still open. *)

Record tab_inv (t : handle_table) (o : gset Z) : Prop := {
  tv_next : 1 <= tb_next_id t <= 65535;
  tv_zero : hd_in_use (tb_handles t).[0] = false;
  tv_id : forall i, 1 <= i <= 65535 -> hd_in_use (tb_handles t).[i] = true -> hd_id (tb_handles t).[i] = i;
  tv_dead : forall i, 0 <= i <= 65535 -> hd_in_use (tb_handles t).[i] = false -> hd_fd (tb_handles t).[i] < 0;
  tv_own : forall i, 1 <= i <= 65535 -> 0 <= hd_fd (tb_handles t).[i] -> hd_fd (tb_handles t).[i] ∈ o;
  tv_all : forall fd, fd ∈ o -> exists i, 1 <= i <= 65535 /\ hd_fd (tb_handles t).[i] = fd /\ 0 <= fd;
  tv_inj : forall i j, 1 <= i <= 65535 -> 1 <= j <= 65535 -> 0 <= hd_fd (tb_handles t).[i] ->
           hd_fd (tb_handles t).[i] = hd_fd (tb_handles t).[j] -> i = j
}.

Lemma tab_init_inv : tab_inv nvkvm_handle_table_init ∅.
Proof.
  split; simpl; try (intros; rewrite ?aget_empty in *; simpl in *; done || lia).
Qed.

(** Replacing one entry: the descriptor it owned leaves [o], the new one
    joins it. *)
Lemma put_inv t o i h next :
  tab_inv t o -> 1 <= i <= 65535 -> 1 <= next <= 65535 ->
  (hd_in_use h = true -> hd_id h = i) -> (hd_in_use h = false -> hd_fd h < 0) ->
  (0 <= hd_fd h -> hd_fd h ∉ o \/ hd_fd h = hd_fd (tb_handles t).[i]) ->
  tab_inv (HTb ((tb_handles t).[i <- h]) next)
    ((if decide (0 <= hd_fd h) then {[ hd_fd h ]} else ∅) ∪ (o ∖ {[ hd_fd (tb_handles t).[i] ]})).
Proof.
  intros [I0 Iz I1 I2 I3 I4 I5] Hi Hn H1 H2 H3. split; simpl; [done | | | | | |].
  - rewrite aget_set_ne by lia. done.
  - intros j Hj. rewrite aget_set. case_decide; subst; auto.
  - intros j Hj. rewrite aget_set. case_decide; subst; auto.
  - intros j Hj. rewrite aget_set. case_decide as E; subst.
    + intros. rewrite decide_True by done. apply elem_of_union_l. by apply elem_of_singleton.
    + intros Hf. apply elem_of_union. right. apply elem_of_difference. split; [by apply I3 |].
      rewrite elem_of_singleton. intros Heq. apply E. symmetry. by apply I5.
  - intros fd [Hf|[Hf Hne]%elem_of_difference]%elem_of_union.
    + case_decide; [|set_solver]. apply elem_of_singleton in Hf as ->. exists i.
      by rewrite aget_set_eq.
    + destruct (I4 fd Hf) as (j & Hj & <- & Hp). exists j.
      rewrite aget_set_ne; [done |]. intros ->. set_solver.
  - intros j k Hj Hk. rewrite !aget_set.
    destruct (decide (i = j)) as [<-|], (decide (i = k)) as [<-|]; try done.
    + intros Hf Heq. destruct (H3 Hf) as [Hno|Hold]; [exfalso; apply Hno; rewrite Heq; apply I3; [done | lia] |].
      apply I5; [done | done | lia | congruence].
    + intros Hf Heq. destruct (H3 ltac:(lia)) as [Hno|Hold]; [exfalso; apply Hno; rewrite <- Heq; by apply I3 |].
      apply I5; [done | done | lia | congruence].
    + by apply I5.
Qed.

Lemma tab_inv_ext t o o' : tab_inv t o -> o ≡ o' -> tab_inv t o'.
Proof. intros Hi Ho. apply leibniz_equiv in Ho. by subst. Qed.

(** Installing a descriptor the table does not own, or none. *)
Lemma install_inv t o type fd sid dev t' r cl :
  tab_inv t o -> (0 <= fd -> fd ∉ o) -> install type fd sid dev t = (t', r, cl) ->
  tab_inv t' ((if decide (0 <= fd) then {[ fd ]} ∪ o else o) ∖ list_to_set cl).
Proof.
  intros Hi Hf. unfold install. pose proof (alloc_slot_spec t (tv_next _ _ Hi)) as Ha.
  destruct (alloc_slot t) as [t1 [id|]].
  - destruct Ha as (A1 & A2 & A3 & A4). intros [= <- <- <-]. unfold put. rewrite A3, insert_insert_eq.
    pose proof (tv_dead _ _ Hi id ltac:(lia) A2) as Hd.
    eapply tab_inv_ext; [apply (put_inv t o id _ _ Hi A1 A4); simpl; [done | done | intros; left; auto] |].
    simpl. assert (hd_fd (tb_handles t).[id] ∉ o) as Hno.
    { intros (i & _ & Hx & ?)%(tv_all _ _ Hi). lia. }
    case_decide; set_solver.
  - destruct Ha as (A1 & A2 & _). intros [= <- <- <-].
    assert (tab_inv t1 o) as Hi1.
    { destruct Hi as [I0 Iz I1 I2 I3 I4 I5]. split; rewrite ?A1; done. }
    eapply tab_inv_ext; [exact Hi1 |]. destruct (0 <=? fd) eqn:E; nv_bool.
    + rewrite decide_True by done. specialize (Hf E). set_solver.
    + rewrite decide_False by lia. set_solver.
Qed.

Lemma get_iff id t h :
  0 <= id ->
  nvkvm_handle_get id t = Some h <->
  1 <= id <= 65535 /\ h = (tb_handles t).[id] /\ hd_in_use h = true /\ hd_id h = id.
Proof.
  intros H0. unfold nvkvm_handle_get, bad_id, live_entry, NVKVM_HANDLE_MAX.
  destruct ((id =? 0) || _) eqn:E; nv_bool; [split; [done | lia] |].
  rewrite Z.mod_small by lia. destruct (hd_in_use _) eqn:Eu; simpl.
  - destruct (hd_id _ =? id) eqn:Ei; nv_bool; simpl; split.
    + intros [= <-]. split_and!; try done; lia.
    + by intros (_ & -> & _).
    + done.
    + by intros (_ & -> & _ & ?).
  - split; [done |]. intros (_ & -> & ? & _). congruence.
Qed.

Lemma get_used t o i :
  tab_inv t o -> 1 <= i <= 65535 -> hd_in_use (tb_handles t).[i] = true ->
  nvkvm_handle_get i t = Some (tb_handles t).[i].
Proof. intros Hi Hr Hu. apply get_iff; [lia |]. split_and!; try done; try lia. by apply (tv_id _ _ Hi). Qed.

Lemma retire_inv t o i :
  tab_inv t o -> 1 <= i <= 65535 -> hd_in_use (tb_handles t).[i] = true ->
  tab_inv (put i (retire (fd_after_close (tb_handles t).[i]) (tb_handles t).[i]) t)
    (o ∖ list_to_set (closed_fd (tb_handles t).[i])).
Proof.
  intros Hi Hr Hu. unfold fd_after_close, closed_fd.
  destruct (0 <=? hd_fd _) eqn:E; nv_bool;
    (eapply tab_inv_ext; [apply (put_inv t o i _ _ Hi Hr (tv_next _ _ Hi)); simpl; try done; lia |]).
  - simpl. rewrite ?decide_False by lia. set_solver.
  - simpl. rewrite ?decide_False by lia.
    assert (hd_fd (tb_handles t).[i] ∉ o) by (intros (j & _ & Hx & ?)%(tv_all _ _ Hi); lia). set_solver.
Qed.

Lemma close_session_inv t o sid t' cl :
  tab_inv t o -> nvkvm_handle_close_session sid t = (t', cl) -> tab_inv t' (o ∖ list_to_set cl).
Proof.
  intros Hi Hc. unfold nvkvm_handle_close_session in Hc.
  pose proof (sweep_inv (fun st => tab_inv (fst st) (o ∖ list_to_set (snd st))) (close_if sid)
                1 (max_attempts - 1) (t, [])) as H.
  rewrite Hc in H. apply H; clear H Hc.
  - cbn [fst snd]. eapply tab_inv_ext; [exact Hi | set_solver].
  - intros i [t1 cl1] Hr Hi1. simpl in *. unfold close_if. simpl.
    pose proof max_attempts_val.
    destruct (hd_in_use (tb_handles t1).[i]) eqn:Eu; [|done].
    destruct (hd_session_id _ =? sid); [|done]. simpl.
    eapply tab_inv_ext; [apply (retire_inv t1 _ i Hi1); [lia | done] |].
    rewrite list_to_set_app_L. clear. set_solver.
Qed.

(** Changing an entry in place without touching its descriptor. *)
Lemma touch_inv t o i h :
  tab_inv t o -> 1 <= i <= 65535 -> hd_fd h = hd_fd (tb_handles t).[i] ->
  (hd_in_use h = true -> hd_id h = i) -> (hd_in_use h = false -> hd_fd h < 0) -> tab_inv (put i h t) o.
Proof.
  intros Hi Hr Hf H1 H2. eapply tab_inv_ext.
  - apply (put_inv t o i h _ Hi Hr (tv_next _ _ Hi)); [done | done | by right].
  - rewrite <- Hf. case_decide as E.
    + assert (hd_fd h ∈ o) as Hin by (rewrite Hf; apply (tv_own _ _ Hi); [done | lia]).
      clear -Hin. intros x. destruct (decide (x = hd_fd h)); set_solver.
    + assert (hd_fd h ∉ o) as Hno by (intros (j & _ & Hx & ?)%(tv_all _ _ Hi); lia).
      clear -Hno. set_solver.
Qed.

(** ** Runs of the table *)

Definition fresh (r : res Z) (o : gset Z) : Prop := match r with Ok fd => 0 <= fd /\ fd ∉ o | Err _ => True end.
Definition gained (r : res Z) (o : gset Z) : gset Z := match r with Ok fd => {[ fd ]} ∪ o | Err _ => o end.

Inductive treach : handle_table -> gset Z -> Prop :=
| tr_init : treach nvkvm_handle_table_init ∅
| tr_open t o ho he sid dev fl t' r cl :
    treach t o -> fresh (open_dev ho he dev fl) o ->
    nvkvm_handle_open_nvidia ho he sid dev fl t = (t', r, cl) ->
    treach t' (gained (open_dev ho he dev fl) o ∖ list_to_set cl)
| tr_memory t o memfd ft sid size t' r cl :
    treach t o -> fresh memfd o -> nvkvm_handle_open_memory memfd ft sid size t = (t', r, cl) ->
    treach t' (gained memfd o ∖ list_to_set cl)
| tr_pending t o sid dev t' r :
    treach t o -> nvkvm_handle_alloc_pending sid dev t = (t', r) -> treach t' o
| tr_attach t o id fd t' :
    treach t o -> 0 <= id -> fd ∉ o -> nvkvm_handle_attach_fd id fd t = (t', Ok tt) ->
    treach t' ({[ fd ]} ∪ o)
| tr_abort t o id : treach t o -> 0 <= id -> treach (nvkvm_handle_abort_open id t) o
| tr_ref t o id : treach t o -> 0 <= id -> treach (fst (nvkvm_handle_ref_isolate id t)) o
| tr_unref t o id : treach t o -> 0 <= id -> treach (fst (nvkvm_handle_unref_isolate id t)) o
| tr_close t o id t' r cl :
    treach t o -> 0 <= id -> nvkvm_handle_close id t = (t', r, cl) -> treach t' (o ∖ list_to_set cl)
| tr_close_session t o sid t' cl :
    treach t o -> nvkvm_handle_close_session sid t = (t', cl) -> treach t' (o ∖ list_to_set cl).

Lemma mod_id id : 1 <= id <= 65535 -> id mod NVKVM_HANDLE_MAX = id.
Proof. intros. unfold NVKVM_HANDLE_MAX. apply Z.mod_small. lia. Qed.

Lemma tab_attach_inv t o id fd t' :
  tab_inv t o -> 0 <= id -> fd ∉ o -> nvkvm_handle_attach_fd id fd t = (t', Ok tt) ->
  tab_inv t' ({[ fd ]} ∪ o).
Proof.
  intros Hi H0 Hf. unfold nvkvm_handle_attach_fd.
  destruct (bad_id id || (fd <? 0)) eqn:E; [done |]. apply orb_false_iff in E as [Eb Ef]. nv_bool.
  destruct (live_entry id t) as [h|] eqn:El; [|done].
  assert (nvkvm_handle_get id t = Some h) as Hg by (unfold nvkvm_handle_get; by rewrite Eb).
  apply get_iff in Hg as (Hr & -> & Hu & Hid); [|done].
  destruct (0 <=? hd_fd _) eqn:Eh; [done |]. nv_bool. intros [= <-]. rewrite mod_id by done.
  eapply tab_inv_ext; [apply (put_inv t o id _ _ Hi Hr (tv_next _ _ Hi)); simpl; auto; lia || congruence |].
  simpl. rewrite decide_True by lia.
  assert (hd_fd (tb_handles t).[id] ∉ o) by (intros (j & _ & Hx & ?)%(tv_all _ _ Hi); lia). set_solver.
Qed.

Lemma tab_abort_inv t o id : tab_inv t o -> 0 <= id -> tab_inv (nvkvm_handle_abort_open id t) o.
Proof.
  intros Hi H0. unfold nvkvm_handle_abort_open. destruct (bad_id id) eqn:Eb; [done |].
  destruct (live_entry id t) as [h|] eqn:El; [|done].
  assert (nvkvm_handle_get id t = Some h) as Hg by (unfold nvkvm_handle_get; by rewrite Eb).
  apply get_iff in Hg as (Hr & -> & Hu & Hid); [|done].
  destruct (hd_fd _ <? 0) eqn:Eh; [|done]. nv_bool. rewrite mod_id by done. by apply touch_inv.
Qed.

Lemma ref_inv t o id : tab_inv t o -> 0 <= id ->
  tab_inv (fst (nvkvm_handle_ref_isolate id t)) o /\ tab_inv (fst (nvkvm_handle_unref_isolate id t)) o.
Proof.
  intros Hi H0. unfold nvkvm_handle_ref_isolate, nvkvm_handle_unref_isolate.
  destruct (nvkvm_handle_get id t) as [h|] eqn:Hg; [|done].
  apply get_iff in Hg as (Hr & -> & Hu & Hid); [|done]. simpl. rewrite mod_id by done.
  split; [apply touch_inv; simpl; congruence || done |].
  destruct (0 <? _); [|done]. simpl. apply touch_inv; simpl; congruence || done.
Qed.

Lemma close_inv t o id t' r cl :
  tab_inv t o -> 0 <= id -> nvkvm_handle_close id t = (t', r, cl) -> tab_inv t' (o ∖ list_to_set cl).
Proof.
  intros Hi H0. unfold nvkvm_handle_close.
  destruct (nvkvm_handle_get id t) as [h|] eqn:Hg;
    [|intros [= <- <- <-]; eapply tab_inv_ext; [exact Hi | set_solver]].
  apply get_iff in Hg as (Hr & -> & Hu & Hid); [|done].
  destruct (0 <? _); intros [= <- <- <-]; [eapply tab_inv_ext; [exact Hi | set_solver] |].
  rewrite mod_id by done. by apply retire_inv.
Qed.

Lemma treach_inv t o : treach t o -> tab_inv t o.
Proof.
  induction 1 as [|t o ho he sid dev fl t' r cl _ IH Hf Ho|t o memfd ft sid size t' r cl _ IH Hf Ho
    |t o sid dev t' r _ IH Hp|t o id fd t' _ IH H0 Hf Ha|t o id _ IH H0|t o id _ IH H0|t o id _ IH H0
    |t o id t' r cl _ IH H0 Hc|t o sid t' cl _ IH Hc].
  - apply tab_init_inv.
  - unfold nvkvm_handle_open_nvidia in Ho. destruct (open_dev ho he dev fl) as [fd|e]; simpl in *.
    + apply (install_inv _ o) in Ho; [|done | tauto]. by rewrite decide_True in Ho by apply Hf.
    + injection Ho as <- <- <-. eapply tab_inv_ext; [exact IH | set_solver].
  - unfold nvkvm_handle_open_memory in Ho. destruct memfd as [fd|e]; simpl in *.
    + destruct (if 0 <? size then ft else None); [injection Ho as <- <- <-|].
      * eapply tab_inv_ext; [exact IH |]. destruct Hf as [_ Hf]. clear -Hf. set_solver.
      * apply (install_inv _ o) in Ho; [|done | tauto]. by rewrite decide_True in Ho by apply Hf.
    + injection Ho as <- <- <-. eapply tab_inv_ext; [exact IH | set_solver].
  - unfold nvkvm_handle_alloc_pending in Hp. destruct (install _ _ _ _ _) as [[t1 r1] cl1] eqn:Ei.
    injection Hp as <- <-. pose proof (install_inv t o _ (-1) sid dev t1 r1 cl1 IH ltac:(intros; lia) Ei) as Hi.
    rewrite decide_False in Hi by lia. unfold install in Ei.
    eapply tab_inv_ext; [exact Hi |]. destruct (alloc_slot t) as [t2 [id|]]; simplify_eq/=; set_solver.
  - by eapply tab_attach_inv.
  - by apply tab_abort_inv.
  - by apply ref_inv.
  - by apply ref_inv.
  - by eapply close_inv.
  - by eapply close_session_inv.
Qed.

Lemma fd_unique t o id id' h h' :
  treach t o -> 0 <= id -> 0 <= id' -> nvkvm_handle_get id t = Some h -> nvkvm_handle_get id' t = Some h' ->
  0 <= hd_fd h -> hd_fd h' = hd_fd h -> id' = id.
Proof.
  intros Hi%treach_inv H0 H0' Hg Hg' Hf He. apply get_iff in Hg as (Hr & -> & _); [|done].
  apply get_iff in Hg' as (Hr' & -> & _); [|done]. symmetry. by apply (tv_inj _ _ Hi).
Qed.

(** C37. [handle_fd_ownership]: in every run of the table against a host that returns only
    unused descriptors, two live handles that have a descriptor never have the same one,
    such a descriptor is open, and every descriptor that the table received and did not
    close is that of a live handle (none leaks). *)
Theorem handle_fd_ownership (t : handle_table) (o : gset Z) :
  treach t o ->
  (forall id h, 0 <= id -> nvkvm_handle_get id t = Some h -> 0 <= hd_fd h ->
     hd_fd h ∈ o /\
     forall id' h', 0 <= id' -> nvkvm_handle_get id' t = Some h' -> hd_fd h' = hd_fd h -> id' = id) /\
  (forall fd, fd ∈ o -> exists id h, nvkvm_handle_get id t = Some h /\ hd_fd h = fd).
Proof.
  intros Ht. pose proof (treach_inv _ _ Ht) as Hi. split.
  - intros id h H0 Hg Hf. split; [|intros; by eapply fd_unique].
    apply get_iff in Hg as (Hr & -> & _); [|done]. by apply (tv_own _ _ Hi).
  - intros fd Hfd. destruct (tv_all _ _ Hi fd Hfd) as (i & Hr & Hf & Hp).
    exists i, (tb_handles t).[i]. split; [|done]. apply (get_used t o); try done.
    destruct (hd_in_use _) eqn:Eu; [done |].
    pose proof (tv_dead _ _ Hi i ltac:(lia) Eu). lia.
Qed.

(** [handle_alloc_complete]: reserving a handle yields an id from 1 to 65535 that
    was not live and now is, with every other live handle unchanged; it fails
    only when all 65535 handles are live. *)
Theorem handle_alloc_complete (t : handle_table) (o : gset Z) (sid dev : Z) :
  treach t o ->
  match nvkvm_handle_alloc_pending sid dev t with
  | (t', Ok id) =>
      1 <= id <= 65535 /\ nvkvm_handle_get id t = None /\
      nvkvm_handle_get id t' = Some (Hnd id NVKVM_HANDLE_TYPE_NVIDIA (-1) sid dev 0 false true) /\
      forall i, 0 <= i -> i <> id -> nvkvm_handle_get i t' = nvkvm_handle_get i t
  | (_, Err e) => e = EMFILE /\ forall i, 1 <= i <= 65535 -> nvkvm_handle_get i t <> None
  end.
Proof.
  intros Hi%treach_inv. unfold nvkvm_handle_alloc_pending, install.
  pose proof (alloc_slot_spec t (tv_next _ _ Hi)) as Ha.
  destruct (alloc_slot t) as [t1 [id|]].
  - destruct Ha as (A1 & A2 & A3 & _). unfold put. rewrite A3, insert_insert_eq. split_and!; try lia.
    + destruct (nvkvm_handle_get id t) as [h|] eqn:Hg; [|done].
      apply get_iff in Hg as (_ & -> & Hu & _); [congruence | lia].
    + apply get_iff; [lia |]. simpl. rewrite aget_set_eq. done.
    + intros i H0 Hne. unfold nvkvm_handle_get, live_entry. simpl.
      destruct (bad_id i) eqn:Eb; [done |]. unfold bad_id, NVKVM_HANDLE_MAX in Eb. nv_bool.
      rewrite !mod_id by lia. by rewrite aget_set_ne.
  - destruct Ha as (_ & _ & A3). split; [done |]. intros i Hr. by rewrite (get_used t o) by auto.
Qed.

(** The state of the loop of [nvkvm_handle_close_session] before index [k]. *)
Definition closed_upto (sid : Z) (t : handle_table) (k : Z) (st : handle_table * list Z) : Prop :=
  (forall i, (tb_handles (fst st)).[i] =
     let h := (tb_handles t).[i] in
     if (1 <=? i) && (i <? k) && hd_in_use h && (hd_session_id h =? sid)
     then retire (fd_after_close h) h else h) /\
  snd st = concat ((fun i => let h := (tb_handles t).[i] in
                     if hd_in_use h && (hd_session_id h =? sid) then closed_fd h else []) <$> seqZ 1 (k - 1)).

Lemma close_session_sweep sid t n :
  closed_upto sid t (1 + Z.of_nat n) (sweep (close_if sid) 1 n (t, [])).
Proof.
  apply (sweep_ind (closed_upto sid t)).
  - split; [|done]. intros i. simpl. destruct (1 <=? i) eqn:E1, (i <? 1) eqn:E2; nv_bool; try done; lia.
  - intros k [t1 cl] Hk [H1 H2]. cbn [fst snd] in *. unfold close_if. cbn [fst snd].
    assert (seqZ 1 (k + 1 - 1) = seqZ 1 (k - 1) ++ [k]) as Hsq.
    { replace (k + 1 - 1) with ((k - 1) + 1) by lia. rewrite seqZ_app by lia. f_equal.
      replace (1 + (k - 1)) with k by lia. done. }
    unfold closed_upto. rewrite Hsq, fmap_app, concat_app. pose proof (H1 k) as Hkk. cbv zeta in Hkk.
    rewrite (proj2 (Z.ltb_ge k k)), andb_false_r in Hkk by lia. simpl in Hkk. rewrite Hkk.
    destruct (hd_in_use (tb_handles t).[k]) eqn:Eu, (hd_session_id (tb_handles t).[k] =? sid) eqn:Es;
      cbn [negb orb fst snd]; (split; [|rewrite H2; simpl; rewrite ?Eu, ?Es, ?app_nil_r; done]).
    all: intros i; cbv zeta; unfold put; cbn [tb_handles]; destruct (decide (i = k)) as [->|Hne];
      [|rewrite ?aget_set_ne by done; rewrite H1; cbv zeta; replace (i <? k + 1) with (i <? k) by lia; done].
    all: rewrite ?aget_set_eq, ?Hkk, ?Eu, ?Es, ?andb_false_r, ?andb_true_r; try done.
    rewrite (proj2 (Z.leb_le 1 k)), (proj2 (Z.ltb_lt k (k + 1))) by lia. done.
Qed.

(** What closing a session does to the handles, and what it closes. *)
Lemma close_session_spec t o sid :
  tab_inv t o ->
  let '(t', cl) := nvkvm_handle_close_session sid t in
  (forall id h, 0 <= id -> nvkvm_handle_get id t' = Some h <->
     nvkvm_handle_get id t = Some h /\ hd_session_id h <> sid) /\
  (forall fd, fd ∈ cl <-> exists id h, nvkvm_handle_get id t = Some h /\ hd_session_id h = sid /\
                                       hd_fd h = fd /\ 0 <= fd /\ 0 <= id).
Proof.
  intros Hi. unfold nvkvm_handle_close_session. pose proof max_attempts_val as Hm.
  pose proof (close_session_sweep sid t (max_attempts - 1)) as [H1 H2].
  destruct (sweep _ _ _ _) as [t' cl]. cbn [fst snd] in *.
  replace (Z.of_nat (max_attempts - 1)) with 65535 in * by lia. clear Hm. split.
  - intros id h H0. rewrite !get_iff by done. split.
    + intros (Hr & -> & Hu & Hid). rewrite H1 in *. cbv zeta in *.
      destruct ((1 <=? id) && _ && _ && _) eqn:E; [done |].
      rewrite (proj2 (Z.leb_le 1 id)), (proj2 (Z.ltb_lt id _)), Hu in E by lia. simpl in E. nv_bool. done.
    + intros ((Hr & -> & Hu & Hid) & Hs). rewrite H1. cbv zeta.
      rewrite (proj2 (Z.eqb_neq _ sid) Hs), andb_false_r. done.
  - intros fd. rewrite H2, list_elem_of_In, in_concat. split.
    + intros (l & Hl & Hfd). apply list_elem_of_In, list_elem_of_fmap in Hl as (i & -> & Hir).
      apply elem_of_seqZ in Hir. cbv zeta in Hfd.
      destruct (hd_in_use (tb_handles t).[i]) eqn:Eu; [|done].
      destruct (hd_session_id (tb_handles t).[i] =? sid) eqn:Es; [|done]. nv_bool.
      unfold closed_fd in Hfd. simpl in Hfd. destruct (0 <=? hd_fd (tb_handles t).[i]) eqn:Ef; [|done].
      destruct Hfd as [<-|[]]. nv_bool. exists i, (tb_handles t).[i].
      split_and!; try done; try lia. apply (get_used t o); [done | lia | done].
    + intros (id & h & Hg & Hs & Hfd & Hp & H0). apply get_iff in Hg as (Hr & -> & Hu & Hid); [|done].
      eexists. split; [apply list_elem_of_In, list_elem_of_fmap; exists id; split; [reflexivity | apply elem_of_seqZ; lia] |].
      cbv zeta. rewrite Hu, Hs, Z.eqb_refl. unfold closed_fd. simpl.
      rewrite Hfd, (proj2 (Z.leb_le 0 fd)) by done. by left.
Qed.

(** [close_session_exact]: closing a session retires exactly the live handles of
    that session, whatever references isolates hold, and leaves every other
    handle untouched; the descriptors closed are exactly those of the session. *)
Theorem close_session_exact (t : handle_table) (o : gset Z) (sid : Z) :
  treach t o ->
  let '(t', cl) := nvkvm_handle_close_session sid t in
  (forall id h, 0 <= id -> nvkvm_handle_get id t' = Some h <->
     nvkvm_handle_get id t = Some h /\ hd_session_id h <> sid) /\
  (forall fd, fd ∈ cl <-> exists id h, nvkvm_handle_get id t = Some h /\ hd_session_id h = sid /\
                                       hd_fd h = fd /\ 0 <= fd /\ 0 <= id).
Proof. intros Hi%treach_inv. exact (close_session_spec t o sid Hi). Qed.

(** ** A concrete run: a pending device handle of session 7 gets descriptor 5,
    session 8 opens a memory handle on descriptor 6 *)

Definition ex_tab1 : handle_table := fst (nvkvm_handle_alloc_pending 7 0 nvkvm_handle_table_init).
Definition ex_tab2 : handle_table := fst (nvkvm_handle_attach_fd 1 5 ex_tab1).
Definition ex_tab3 : handle_table := fst (fst (nvkvm_handle_open_memory (Ok 6) None 8 4096 ex_tab2)).
Definition ex_own : gset Z := gained (Ok 6) ({[ 5 ]} ∪ ∅) ∖ list_to_set [].

#[local] Transparent max_attempts.

Lemma ex_treach : treach ex_tab3 ex_own.
Proof.
  apply (tr_memory ex_tab2 _ (Ok 6) None 8 4096 _ (Ok 2)); [| |reflexivity].
  - apply (tr_attach ex_tab1 ∅ 1); [|lia | set_solver | reflexivity].
    apply (tr_pending _ _ 7 0 _ (Ok 1) tr_init). reflexivity.
  - split; [lia |]. set_solver.
Qed.

Lemma handle_fd_ownership_witness : exists id h, nvkvm_handle_get id ex_tab3 = Some h /\ hd_fd h = 6.
Proof. apply (handle_fd_ownership ex_tab3 ex_own ex_treach). unfold ex_own, gained. set_solver. Defined.

Lemma handle_alloc_complete_witness :
  nvkvm_handle_get 3 (fst (nvkvm_handle_alloc_pending 9 1 ex_tab3)) <> None.
Proof.
  destruct (handle_alloc_complete ex_tab3 ex_own 9 1 ex_treach) as (_ & _ & H & _).
  intros E. pose proof (eq_trans (eq_sym E) H) as F. discriminate F.
Defined.

Lemma close_session_exact_witness : 5 ∈ snd (nvkvm_handle_close_session 7 ex_tab3).
Proof.
  pose proof (close_session_exact ex_tab3 ex_own 7 ex_treach) as H.
  destruct (nvkvm_handle_close_session 7 ex_tab3) as [t' cl]. destruct H as [_ H].
  apply (proj2 (H 5)). exists 1, (tb_handles ex_tab3).[1]. split_and!; try lia; reflexivity.
Defined.

End HTab.
