(* ===== verification/Abi.v ===== *)
(** * Driver ABI profiles ([src/common/nvkvm_abi.h])

    The table of struct sizes per driver generation, the parser of driver
    version strings, and the selection of a row.  [unsigned] arithmetic is
    modulo [2^32]. *)

From S2P Require Import Prelude.
From stdpp Require Import strings.
From Stdlib Require Import Ascii.
Local Open Scope Z_scope.

Module Abi.

Definition NVKVM_ABI_515 : Z := 515.
Definition NVKVM_ABI_525 : Z := 525.
Definition NVKVM_ABI_535 : Z := 535.
Definition NVKVM_ABI_545 : Z := 545.
Definition NVKVM_ABI_550 : Z := 550.
Definition NVKVM_ABI_570 : Z := 570.
Definition NVKVM_ABI_580 : Z := 580.
Definition NVKVM_ABI_610 : Z := 610.

Record abi_profile := Prof {
  id : Z;
  uvm_map_ext_size : Z;
  uvm_map_ext_fd_off : Z;
  uvm_sem_pool_size : Z;
  chan_alloc_size : Z;
  vaspace_alloc_size : Z;
  mem_alloc_size : Z;
  nv00de_alloc_size : Z;
  nvos46_size : Z;
  nvos46_status_off : Z
}.

Definition nvkvm_abi_profiles : list abi_profile :=
  [ Prof NVKVM_ABI_515 1200 1184 1184 304 48 120 0 56 48;
    Prof NVKVM_ABI_525 1200 1184 1184 304 48 120 4 56 48;
    Prof NVKVM_ABI_535 1200 1184 1184 360 48 120 4 56 48;
    Prof NVKVM_ABI_545 1200 1184 1184 360 48 128 8 56 48;
    Prof NVKVM_ABI_550 9264 9248 9248 360 48 128 8 56 48;
    Prof NVKVM_ABI_570 9264 9248 9248 368 48 128 8 56 48;
    Prof NVKVM_ABI_580 9264 9248 9248 368 56 128 8 64 56;
    Prof NVKVM_ABI_610 9264 9248 9248 376 56 128 8 64 56 ].

(** [*vs - '0'] when [*vs] is a digit. *)
Definition digit (c : Ascii.ascii) : option Z :=
  let n := Z.of_N (Ascii.N_of_ascii c) in
  if (48 <=? n) && (n <=? 57) then Some (n - 48) else None.

(** [while (digit) { v = v * 10u + digit; vs++; }]: the value and the rest of
    the string, whose end reads as NUL. *)
Fixpoint parse_number (v : Z) (vs : string) : Z * string :=
  match vs with
  | EmptyString => (v, vs)
  | String c vs' =>
      match digit c with
      | Some d => parse_number (u32 (u32 (v * 10) + d)) vs'
      | None => (v, vs)
      end
  end.

(** [None] is the null pointer. *)
Definition nvkvm_abi_parse_major (vs : option string) : Z :=
  match vs with None => 0 | Some s => fst (parse_number 0 s) end.

(** The loop over the components: [n] of them are left. *)
Fixpoint parse_components (n : nat) (vs : string) : list Z :=
  match n with
  | O => []
  | S n' =>
      let '(v, rest) := parse_number 0 vs in
      match rest with
      | String "."%char rest' => v :: parse_components n' rest'
      | _ => [v]
      end
  end.

Definition nvkvm_abi_parse_version (vs : option string) : Z * Z * Z :=
  let v := match vs with None => [] | Some s => parse_components 3 s end in
  (nth 0 v 0, nth 1 v 0, nth 2 v 0).

(** The loop of [nvkvm_abi_by_id], with [dflt] the row found for the default so
    far. *)
Fixpoint by_id_loop (i : Z) (l : list abi_profile) (dflt : abi_profile) : abi_profile :=
  match l with
  | [] => dflt
  | p :: l' =>
      if id p =? i then p
      else by_id_loop i l' (if id p =? NVKVM_ABI_570 then p else dflt)
  end.

Definition nvkvm_abi_by_id (i : Z) : abi_profile :=
  match nvkvm_abi_profiles with
  | [] => Prof 0 0 0 0 0 0 0 0 0 0
  | first :: _ => by_id_loop i nvkvm_abi_profiles first
  end.

Definition nvkvm_abi_id_for_version (major minor patch : Z) : Z :=
  if major =? 0 then NVKVM_ABI_570
  else if major <=? 520 then NVKVM_ABI_515
  else if major <=? 530 then NVKVM_ABI_525
  else if major =? 535 then
    if (minor =? 43) && (patch <? 8) then NVKVM_ABI_525
    else if minor =? 54 then NVKVM_ABI_525
    else NVKVM_ABI_535
  else if major <? 545 then NVKVM_ABI_535
  else if major =? 545 then NVKVM_ABI_545
  else if major <? 550 then NVKVM_ABI_545
  else if major =? 550 then
    if (minor =? 40) && (patch <? 53) then NVKVM_ABI_545 else NVKVM_ABI_550
  else if major <=? 565 then NVKVM_ABI_550
  else if major <=? 579 then NVKVM_ABI_570
  else if major <=? 595 then NVKVM_ABI_580
  else if major <? 610 then NVKVM_ABI_580
  else NVKVM_ABI_610.

Definition nvkvm_abi_id_for_major (major : Z) : Z :=
  nvkvm_abi_id_for_version major (2 ^ 32 - 1) (2 ^ 32 - 1).

Definition nvkvm_abi_for_version (vs : option string) : abi_profile :=
  let '(major, minor, patch) := nvkvm_abi_parse_version vs in
  nvkvm_abi_by_id (nvkvm_abi_id_for_version major minor patch).

(** ** Parsing *)

(** The value of a decimal numeral, without a width. *)
Fixpoint numeral (v : Z) (ds : list Z) : Z :=
  match ds with [] => v | d :: ds' => numeral (v * 10 + d) ds' end.

Definition digit_char (d : Z) : Ascii.ascii := Ascii.ascii_of_N (Z.to_N (48 + d)).

(** The string with the given digits followed by [rest]. *)
Fixpoint print_number (ds : list Z) (rest : string) : string :=
  match ds with [] => rest | d :: ds' => String (digit_char d) (print_number ds' rest) end.

Definition is_digit (d : Z) : Prop := 0 <= d <= 9.

(** [rest] does not continue a number. *)
Definition stops (rest : string) : Prop :=
  match rest with String c _ => digit c = None | EmptyString => True end.

Lemma digit_digit_char d : is_digit d -> digit (digit_char d) = Some d.
Proof.
  intros Hd. unfold digit, digit_char. rewrite Ascii.N_ascii_embedding by (unfold is_digit in Hd; lia).
  rewrite Z2N.id by (unfold is_digit in Hd; lia).
  rewrite (proj2 (andb_true_iff _ _)) by (unfold is_digit in Hd; lia). f_equal. lia.
Qed.

Lemma parse_number_stop v rest : stops rest -> parse_number v rest = (v, rest).
Proof. destruct rest; simpl; [done |]. by intros ->. Qed.

Lemma numeral_u32 v ds : u32 (numeral (u32 v) ds) = u32 (numeral v ds).
Proof.
  revert v. induction ds as [|d ds IH]; intros v; simpl.
  - unfold u32. by rewrite Z.mod_mod by lia.
  - rewrite <- (IH (u32 v * 10 + d)), <- (IH (v * 10 + d)). do 2 f_equal.
    unfold u32. rewrite <- (Zplus_mod_idemp_l (v mod 2 ^ 32 * 10)), Zmult_mod_idemp_l.
    by rewrite Zplus_mod_idemp_l.
Qed.

Lemma parse_print_number v ds rest :
  Forall is_digit ds -> stops rest -> 0 <= v < 2 ^ 32 ->
  parse_number v (print_number ds rest) = (u32 (numeral v ds), rest).
Proof.
  intros Hd Hr. revert v. induction Hd as [|d ds Hx Hd IH]; intros v Hv; simpl.
  - rewrite parse_number_stop, u32_small by done. done.
  - rewrite digit_digit_char by done. rewrite IH by apply u32_range. f_equal.
    rewrite numeral_u32. replace (u32 (v * 10) + d) with (d + u32 (v * 10)) by lia.
    rewrite <- numeral_u32. unfold u32 at 2 3. rewrite Zplus_mod_idemp_r.
    fold (u32 (d + v * 10)). rewrite numeral_u32. do 2 f_equal. lia.
Qed.

Lemma numeral_nonneg v ds : 0 <= v -> Forall is_digit ds -> 0 <= numeral v ds.
Proof.
  intros Hv Hd. revert v Hv. induction Hd as [|d ds Hx Hd IH]; intros v Hv; simpl; [done |].
  apply IH. unfold is_digit in Hx. lia.
Qed.

(** [version_parse_exact]: a version string of three dotted numerals, leading
    zeros allowed and anything but a digit after the third, parses to exactly
    those three numbers modulo [2^32]; with fewer components, the missing ones
    are 0. *)
Theorem version_parse_exact (ma mi pa : list Z) (rest : string) :
  Forall is_digit ma -> Forall is_digit mi -> Forall is_digit pa -> stops rest ->
  nvkvm_abi_parse_version (Some (print_number ma (String "." (print_number mi (String "." (print_number pa rest)))))) =
    (u32 (numeral 0 ma), u32 (numeral 0 mi), u32 (numeral 0 pa)) /\
  nvkvm_abi_parse_version (Some (print_number ma (String "." (print_number mi EmptyString)))) =
    (u32 (numeral 0 ma), u32 (numeral 0 mi), 0) /\
  nvkvm_abi_parse_version (Some (print_number ma EmptyString)) = (u32 (numeral 0 ma), 0, 0).
Proof.
  intros H1 H2 H3 Hr. unfold nvkvm_abi_parse_version. cbn [parse_components].
  split_and!; repeat (rewrite parse_print_number by (done || lia)); try done.
  destruct rest as [|[[] [] [] [] [] [] [] []] rest]; done.
Qed.

Lemma version_parse_exact_witness :
  nvkvm_abi_parse_version (Some "550.40.07"%string) = (550, 40, 7) /\
  nvkvm_abi_parse_version (Some "550.76"%string) = (550, 76, 0).
Proof.
  destruct (version_parse_exact [5;5;0] [4;0] [0;7] EmptyString) as (H & _);
    [repeat constructor; unfold is_digit; lia .. | done |].
  destruct (version_parse_exact [5;5;0] [7;6] [] EmptyString) as (_ & H' & _);
    [repeat constructor; unfold is_digit; lia .. | done |].
  split; [exact H | exact H'].
Defined.

(** ** Selection *)

Lemma by_id_member major minor patch :
  let i := nvkvm_abi_id_for_version major minor patch in id (nvkvm_abi_by_id i) = i.
Proof. unfold nvkvm_abi_id_for_version. cbv zeta. repeat case_match; reflexivity. Qed.

(** [abi_selection]: for every version string the selected profile is the row
    whose id the version maps to (the fallback of the lookup is never taken);
    inside a row the embedded descriptor of the map structure and the status of
    [NVOS46] lie within their structures, and the struct sizes never shrink from
    a row to a later one. *)
Theorem abi_selection (vs : option string) :
  (let '(major, minor, patch) := nvkvm_abi_parse_version vs in
   id (nvkvm_abi_for_version vs) = nvkvm_abi_id_for_version major minor patch) /\
  nvkvm_abi_for_version vs ∈ nvkvm_abi_profiles /\
  uvm_map_ext_fd_off (nvkvm_abi_for_version vs) + 4 <= uvm_map_ext_size (nvkvm_abi_for_version vs) /\
  nvos46_status_off (nvkvm_abi_for_version vs) + 4 <= nvos46_size (nvkvm_abi_for_version vs) /\
  forall p, p ∈ nvkvm_abi_profiles -> id p <= id (nvkvm_abi_for_version vs) ->
    uvm_map_ext_size p <= uvm_map_ext_size (nvkvm_abi_for_version vs) /\
    chan_alloc_size p <= chan_alloc_size (nvkvm_abi_for_version vs) /\
    vaspace_alloc_size p <= vaspace_alloc_size (nvkvm_abi_for_version vs) /\
    mem_alloc_size p <= mem_alloc_size (nvkvm_abi_for_version vs) /\
    nvos46_size p <= nvos46_size (nvkvm_abi_for_version vs).
Proof.
  unfold nvkvm_abi_for_version. destruct (nvkvm_abi_parse_version vs) as [[major minor] patch].
  split; [apply by_id_member |].
  assert (nvkvm_abi_by_id (nvkvm_abi_id_for_version major minor patch) ∈ nvkvm_abi_profiles) as Hin.
  { unfold nvkvm_abi_id_for_version. repeat case_match; unfold nvkvm_abi_profiles; cbn; set_solver. }
  split; [done |]. revert Hin. generalize (nvkvm_abi_by_id (nvkvm_abi_id_for_version major minor patch)).
  intros q Hq. unfold nvkvm_abi_profiles in Hq.
  repeat (apply elem_of_cons in Hq as [->|Hq]);
    try (split; [cbn; lia |]; split; [cbn; lia |]; intros p Hp; unfold nvkvm_abi_profiles in Hp;
         repeat (apply elem_of_cons in Hp as [->|Hp]); [cbn; unfold NVKVM_ABI_515, NVKVM_ABI_525,
         NVKVM_ABI_535, NVKVM_ABI_545, NVKVM_ABI_550, NVKVM_ABI_570, NVKVM_ABI_580, NVKVM_ABI_610; lia ..|]);
    by apply not_elem_of_nil in Hp || by apply not_elem_of_nil in Hq.
Qed.

(** The driver releases the comments of the table name for each row. *)
Definition measured : list (Z * list string) :=
  [ (515, ["515.43.04"; "515.57"; "515.105.01"; "520.56.06"; "520.61.07"]%string);
    (525, ["525.47.04"; "525.85.05"; "525.147.05"; "530.30.02"; "530.41.03"; "535.43.02";
           "535.54.03"]%string);
    (535, ["535.43.08"; "535.43.28"; "535.86.05"; "535.86.10"; "535.98"; "535.104.05"; "535.113.01";
           "535.129.03"; "535.146.02"; "535.154.05"; "535.161.07"; "535.171.04"; "535.179";
           "535.183.01"; "535.216.01"; "535.247.01"; "535.309.01"]%string);
    (545, ["545.23.06"; "545.23.08"; "545.29.02"; "545.29.03"; "545.29.06"; "550.40.07"]%string);
    (550, ["550.40.53"; "550.40.85"; "550.54.14"; "550.54.15"; "550.76"; "550.90.07"; "550.127.05";
           "550.163.01"; "555.42.02"; "555.52.04"; "555.58.02"; "560.28.03"; "560.31.02";
           "560.35.03"; "565.57.01"; "565.77"]%string);
    (570, ["570.86.15"; "570.123.01"; "570.144"; "570.172.08"; "570.211.01"; "575.51.02";
           "575.57.08"; "575.64.05"]%string);
    (580, ["580.65.06"; "580.94.02"; "580.95.05"; "580.126.09"; "580.178.04"; "590.44.01";
           "590.48.01"; "595.44.02"; "595.58.03"; "595.91.07"]%string);
    (610, ["610.43.02"; "610.43.03"; "610.57.04"]%string) ].

Lemma measured_rows :
  Forall (fun r => Forall (fun v => id (nvkvm_abi_for_version (Some v)) = fst r) (snd r)) measured.
Proof. repeat constructor. Qed.

(** [abi_measured_releases]: every driver release the comments of the table name
    selects the row it is listed under, also the two branches that change layout
    half way; and the selection by major number alone agrees with the full
    selection for all listed releases but the three early ones of those
    branches. *)
Theorem abi_measured_releases (i : Z) (vs : list string) (v : string) :
  (i, vs) ∈ measured -> v ∈ vs ->
  id (nvkvm_abi_for_version (Some v)) = i /\
  (nvkvm_abi_id_for_major (nvkvm_abi_parse_major (Some v)) <> i <->
   v ∈ ["535.43.02"; "535.54.03"; "550.40.07"]%string).
Proof.
  intros Hi Hv. split; [pose proof (proj1 (Forall_forall _ _) measured_rows (i, vs) Hi) as H;
    by apply (proj1 (Forall_forall _ _) H) |].
  assert (Forall (fun r => Forall (fun w =>
    bool_decide (nvkvm_abi_id_for_major (nvkvm_abi_parse_major (Some w)) <> fst r) =
    bool_decide (w ∈ ["535.43.02"; "535.54.03"; "550.40.07"]%string)) (snd r)) measured) as H.
  { repeat constructor. }
  pose proof (proj1 (Forall_forall _ _) H (i, vs) Hi) as H'. cbn [fst snd] in H'.
  apply (proj1 (Forall_forall _ _) H') in Hv.
  cbv beta in Hv. split; intros Hx.
  - apply (bool_decide_eq_true_1 _). rewrite <- Hv. by apply bool_decide_eq_true_2.
  - apply (bool_decide_eq_true_1 _). rewrite Hv. by apply bool_decide_eq_true_2.
Qed.

Lemma abi_measured_releases_witness : id (nvkvm_abi_for_version (Some "550.40.07"%string)) = 545.
Proof.
  apply (abi_measured_releases 545 ["545.23.06"; "545.23.08"; "545.29.02"; "545.29.03"; "545.29.06"; "550.40.07"]%string);
    unfold measured; set_solver.
Defined.

End Abi.
