(* ===== verification/UvmVa.v ===== *)
(** * UVM commands and the VA-range ownership table
      ([src/qemu/nvkvm_isolate_handlers.c], "Phase 3" and "U-6")

    UVM ioctls run in the device process itself, so a guest-supplied address
    range names memory of that process.  The schema lists the commands that may
    be forwarded at all; the ownership table records, per UVM handle, the ranges
    the driver accepted. Each function takes the table lock once and is one
    atomic step. *)

From S2P Require Import Prelude.
Local Open Scope Z_scope.
Local Open Scope nv_scope.

Module UvmVa.

Inductive va_mode := NVKVM_UVM_VA_NONE | NVKVM_UVM_VA_CREATE | NVKVM_UVM_VA_USE | NVKVM_UVM_VA_FREE.

#[export] Instance va_mode_eq_dec : EqDecision va_mode.
Proof. solve_decision. Defined.

Record uvm_desc := Desc {
  d_cmd : Z;
  d_min_size : Z;
  d_fd_off : Z * Z;
  d_va_off : Z;
  d_va_mode : va_mode
}.

Definition NOFF : Z := 0xffff.
Definition nofd : Z * Z := (NOFF, NOFF).

Definition nvkvm_uvm_schema : list uvm_desc :=
  [ Desc 0x30000001 16 nofd NOFF NVKVM_UVM_VA_NONE;
    Desc 0x30000002 8 nofd NOFF NVKVM_UVM_VA_NONE;
    Desc 23 16 nofd NOFF NVKVM_UVM_VA_NONE;
    Desc 24 16 nofd NOFF NVKVM_UVM_VA_NONE;
    Desc 25 32 (16, NOFF) NOFF NVKVM_UVM_VA_NONE;
    Desc 26 20 nofd NOFF NVKVM_UVM_VA_NONE;
    Desc 27 48 nofd 32 NVKVM_UVM_VA_CREATE;
    Desc 28 28 nofd NOFF NVKVM_UVM_VA_NONE;
    Desc 29 40 nofd NOFF NVKVM_UVM_VA_NONE;
    Desc 30 40 nofd NOFF NVKVM_UVM_VA_NONE;
    Desc 31 32 nofd 8 NVKVM_UVM_VA_USE;
    Desc 33 9264 nofd 0 NVKVM_UVM_VA_USE;
    Desc 34 24 nofd 0 NVKVM_UVM_VA_FREE;
    Desc 37 32 nofd NOFF NVKVM_UVM_VA_NONE;
    Desc 38 24 nofd NOFF NVKVM_UVM_VA_NONE;
    Desc 39 8 nofd NOFF NVKVM_UVM_VA_NONE;
    Desc 42 40 nofd 0 NVKVM_UVM_VA_USE;
    Desc 43 24 nofd 0 NVKVM_UVM_VA_USE;
    Desc 44 0 nofd 0 NVKVM_UVM_VA_USE;
    Desc 45 0 nofd 0 NVKVM_UVM_VA_USE;
    Desc 46 40 nofd 0 NVKVM_UVM_VA_USE;
    Desc 47 40 nofd 0 NVKVM_UVM_VA_USE;
    Desc 51 48 nofd 0 NVKVM_UVM_VA_USE;
    Desc 53 0 nofd NOFF NVKVM_UVM_VA_NONE;
    Desc 65 0 nofd 0 NVKVM_UVM_VA_CREATE;
    Desc 66 0 nofd 0 NVKVM_UVM_VA_USE;
    Desc 68 9248 nofd 0 NVKVM_UVM_VA_CREATE;
    Desc 70 24 nofd NOFF NVKVM_UVM_VA_NONE;
    Desc 72 24 nofd 0 NVKVM_UVM_VA_USE;
    Desc 73 24 nofd 0 NVKVM_UVM_VA_CREATE;
    Desc 75 8 (0, NOFF) NOFF NVKVM_UVM_VA_NONE ].

Fixpoint schema_find (cmd : Z) (l : list uvm_desc) : option uvm_desc :=
  match l with
  | [] => None
  | d :: l' => if d_cmd d =? cmd then Some d else schema_find cmd l'
  end.

Definition nvkvm_uvm_lookup (cmd : Z) : option uvm_desc := schema_find cmd nvkvm_uvm_schema.

Definition NVKVM_UVM_VA_MAX : Z := 16384.

Record va_ent := Ent { v_handle_id : Z; v_base : Z; v_length : Z }.

#[export] Instance Zeroed_va : Zeroed va_ent := Ent 0 0 0.

#[export] Instance va_ent_eq_dec : EqDecision va_ent.
Proof. solve_decision. Defined.

#[export] Instance va_ent_countable : Countable va_ent.
Proof.
  apply (inj_countable' (fun e => (v_handle_id e, v_base e, v_length e))
    (fun '(h, b, l) => Ent h b l)). by intros [].
Defined.

(** [uvm_va_tbl] and [uvm_va_used]. *)
Record va_table := Tbl { va_tbl : gmap Z va_ent; va_used : Z }.

Definition va_init : va_table := Tbl ∅ 0.

Definition va_max : nat := Z.to_nat NVKVM_UVM_VA_MAX.
Arguments va_max : simpl never.

Lemma va_max_val : Z.of_nat va_max = 16384.
Proof. unfold va_max, NVKVM_UVM_VA_MAX. lia. Qed.

Definition uvm_va_sane (base length : Z) : bool :=
  if length =? 0 then false
  else if u64 (base + length) <? base then false
  else Z.land (Z.lor base length) 0xfff =? 0.

Definition uvm_va_have_room (t : va_table) : bool := va_used t <? NVKVM_UVM_VA_MAX.

Definition same_range (t : va_table) (handle_id base length i : Z) : bool :=
  let e := (va_tbl t).[i] in
  (v_handle_id e =? handle_id) && (v_base e =? base) && (v_length e =? length).

Definition uvm_va_add (handle_id base length : Z) (t : va_table) : va_table * bool :=
  match scan (same_range t handle_id base length) 0 va_max with
  | Some _ => (t, true)
  | None =>
      match scan (fun i => v_handle_id (va_tbl t).[i] =? 0) 0 va_max with
      | Some i => (Tbl ((va_tbl t).[i <- Ent handle_id base length]) (u32 (va_used t + 1)), true)
      | None => (t, false)
      end
  end.

(** The test of one entry in the loop of [uvm_va_covers]. *)
Definition ent_covers (handle_id base length : Z) (e : va_ent) : bool :=
  (v_handle_id e =? handle_id) &&
  ((v_base e <=? base) && (u64 (base + length) <=? u64 (v_base e + v_length e))).

Definition uvm_va_covers (handle_id base length : Z) (t : va_table) : bool :=
  match scan (fun i => ent_covers handle_id base length (va_tbl t).[i]) 0 va_max with
  | Some _ => true
  | None => false
  end.

(** The loop body of [uvm_va_drop] and [nvkvm_uvm_va_purge_handle]: an entry that
    passes the test [P] becomes a free slot. *)
Definition forget_if (P : va_ent -> bool) (i : Z) (t : va_table) : va_table :=
  let e := (va_tbl t).[i] in
  if P e then Tbl ((va_tbl t).[i <- Ent 0 (v_base e) (v_length e)])
                  (if va_used t =? 0 then 0 else va_used t - 1)
  else t.

Definition ent_inside (handle_id base length : Z) (e : va_ent) : bool :=
  (v_handle_id e =? handle_id) &&
  ((base <=? v_base e) && (u64 (v_base e + v_length e) <=? u64 (base + length))).

Definition uvm_va_drop (handle_id base length : Z) (t : va_table) : va_table :=
  sweep (forget_if (ent_inside handle_id base length)) 0 va_max t.

Definition nvkvm_uvm_va_purge_handle (handle_id : Z) (t : va_table) : va_table :=
  if handle_id =? 0 then t
  else sweep (forget_if (fun e => v_handle_id e =? handle_id)) 0 va_max t.

#[local] Opaque va_max.

(** ** Ranges *)

(** [base, base + length) is a non-empty page-aligned range below [2^64]. *)
Definition range_ok (base length : Z) : Prop :=
  0 <= base /\ 0 < length /\ base + length < 2 ^ 64 /\ base mod 4096 = 0 /\ length mod 4096 = 0.

Lemma lor_mod_pages a b : Z.land (Z.lor a b) 0xfff = 0 -> a mod 4096 = 0 /\ b mod 4096 = 0.
Proof.
  intros H. change 4096 with (2 ^ 12). change 0xfff with (Z.ones 12) in H.
  rewrite <- !Z.land_ones by lia. rewrite Z.land_lor_distr_l in H. by apply Z.lor_eq_0_iff in H.
Qed.

Lemma va_sane_spec base length :
  0 <= base < 2 ^ 64 -> 0 <= length < 2 ^ 64 ->
  uvm_va_sane base length = true -> range_ok base length.
Proof.
  intros Hb Hl. unfold uvm_va_sane. case_match; [done |]. case_match; [done |]. nv_bool.
  intros (? & ?)%Z.eqb_eq%lor_mod_pages. unfold u64 in *.
  destruct (decide (base + length < 2 ^ 64)); [split_and!; lia |].
  replace ((base + length) mod 2 ^ 64) with (base + length - 2 ^ 64) in * by
    (symmetry; rewrite <- (Z.mod_add _ (-1)) by lia; apply Z.mod_small; lia).
  lia.
Qed.

(** ** The table implements a finite set of ranges *)

Record refines (t : va_table) (s : gset va_ent) : Prop := {
  rf_in : forall i, 0 <= i < 16384 -> v_handle_id (va_tbl t).[i] <> 0 -> (va_tbl t).[i] ∈ s;
  rf_on : forall e, e ∈ s -> exists i, 0 <= i < 16384 /\ (va_tbl t).[i] = e;
  rf_uniq : forall i j, 0 <= i < 16384 -> 0 <= j < 16384 -> v_handle_id (va_tbl t).[i] <> 0 ->
            (va_tbl t).[i] = (va_tbl t).[j] -> i = j;
  rf_ok : forall e, e ∈ s -> v_handle_id e <> 0 /\ range_ok (v_base e) (v_length e);
  rf_used : va_used t = Z.of_nat (size s);
  rf_count : va_used t = tally (fun i => negb (v_handle_id (va_tbl t).[i] =? 0)) 0 va_max
}.

Lemma refines_init : refines va_init ∅.
Proof.
  split; simpl.
  - intros i _. rewrite aget_empty. done.
  - intros e. set_solver.
  - intros i j _ _. rewrite aget_empty. done.
  - intros e. set_solver.
  - done.
  - symmetry. apply tally_zero. intros k _. by rewrite aget_empty.
Qed.

Lemma used_range t s : refines t s -> 0 <= va_used t <= 16384.
Proof.
  intros Hr. rewrite (rf_count t s Hr), <- va_max_val. split; [apply tally_nonneg | apply tally_le].
Qed.

Lemma same_range_spec t h b l i : same_range t h b l i = true <-> (va_tbl t).[i] = Ent h b l.
Proof.
  unfold same_range. rewrite !andb_true_iff, !Z.eqb_eq. destruct (va_tbl t).[i]; simpl.
  split; [intros [[-> ->] ->]; done | intros [= -> -> ->]; done].
Qed.

(** Counting used slots after one slot changed. *)
Lemma count_set t i e :
  0 <= i < 16384 ->
  tally (fun j => negb (v_handle_id ((va_tbl t).[i <- e]).[j] =? 0)) 0 va_max =
  tally (fun j => negb (v_handle_id (va_tbl t).[j] =? 0)) 0 va_max
  - (if negb (v_handle_id (va_tbl t).[i] =? 0) then 1 else 0)
  + (if negb (v_handle_id e =? 0) then 1 else 0).
Proof.
  intros Hi. rewrite (tally_update (fun j => negb (v_handle_id (va_tbl t).[j] =? 0)) _ 0 va_max i).
  - by rewrite aget_set_eq.
  - rewrite va_max_val. lia.
  - intros k _ Hk. by rewrite aget_set_ne.
Qed.

(** Recording a new range in a free slot. *)
Lemma insert_refines t s i h b l :
  refines t s -> h <> 0 -> range_ok b l -> 0 <= i < 16384 -> v_handle_id (va_tbl t).[i] = 0 ->
  Ent h b l ∉ s ->
  refines (Tbl ((va_tbl t).[i <- Ent h b l]) (u32 (va_used t + 1))) ({[Ent h b l]} ∪ s).
Proof.
  intros Hr Hh Hok Hi Hz Hn. pose proof (used_range t s Hr) as Hu. destruct Hr as [R1 R2 R3 R4 R5 R6].
  assert (forall j, 0 <= j < 16384 -> (va_tbl t).[j] <> Ent h b l) as Hj.
  { intros j Hj E. apply Hn. rewrite <- E. apply R1; [done | by rewrite E]. }
  pose proof (count_set t i (Ent h b l) Hi) as Hc. rewrite Hz in Hc. simpl in Hc.
  rewrite (proj2 (Z.eqb_neq h 0)) in Hc by done. simpl in Hc.
  assert (va_used t < 16384) as Hlt.
  { rewrite R6. pose proof (tally_le (fun j => negb (v_handle_id ((va_tbl t).[i <- Ent h b l]).[j] =? 0)) 0 va_max).
    rewrite va_max_val in *. lia. }
  split; simpl.
  - intros j Hjr. rewrite aget_set. case_decide; [intros; by apply elem_of_union_l, elem_of_singleton |].
    intros. by apply elem_of_union_r, R1.
  - intros e [->%elem_of_singleton|He]%elem_of_union; [exists i; rewrite aget_set_eq; split; [lia | done] |].
    destruct (R2 e He) as (j & Hjr & Ej). exists j. rewrite aget_set_ne; [done |].
    intros ->. apply (proj1 (R4 e He)). by rewrite <- Ej.
  - intros j1 j2 H1 H2. rewrite !aget_set. repeat case_decide; subst; try done; simpl.
    + intros _ E. symmetry in E. by apply Hj in E.
    + intros _ E. by apply Hj in E.
    + by apply R3.
  - intros e [->%elem_of_singleton|He]%elem_of_union; [done | by apply R4].
  - rewrite u32_small by lia. rewrite size_union by (by apply disjoint_singleton_l).
    rewrite size_singleton. lia.
  - rewrite u32_small, Hc by lia. lia.
Qed.

Lemma add_refines t s h b l :
  refines t s -> h <> 0 -> range_ok b l ->
  match uvm_va_add h b l t with
  | (t', true) => refines t' ({[Ent h b l]} ∪ s)
  | (t', false) => t' = t /\ Z.of_nat (size s) = 16384 /\ Ent h b l ∉ s
  end.
Proof.
  intros Hr Hh Hok. pose proof Hr as [R1 R2 R3 R4 R5 R6]. unfold uvm_va_add.
  destruct (scan (same_range _ _ _ _) _ _) as [i|] eqn:E1.
  { apply scan_Some in E1 as (Hi & Hs%same_range_spec & _). rewrite va_max_val in Hi.
    assert (Ent h b l ∈ s) by (rewrite <- Hs; apply R1; [lia | by rewrite Hs]).
    by rewrite subseteq_union_1_L by (by apply singleton_subseteq_l). }
  assert (Ent h b l ∉ s) as Hn.
  { intros (i & Hi & Hs)%R2. pose proof (proj1 (scan_None _ _ _) E1 i) as Hf.
    rewrite (proj2 (same_range_spec t h b l i)) in Hf by done. rewrite va_max_val in Hf. discriminate Hf. lia. }
  destruct (scan (fun i => v_handle_id _ =? 0) _ _) as [i|] eqn:E2.
  - apply scan_Some in E2 as (Hi & Hz%Z.eqb_eq & _). rewrite va_max_val in Hi.
    by apply insert_refines.
  - split; [done |]. split; [|done]. rewrite R5 in R6. rewrite R6.
    pose proof (proj1 (scan_None _ _ _) E2) as Hf.
    pose proof (proj2 (tally_zero (fun i => v_handle_id (va_tbl t).[i] =? 0) 0 va_max) Hf) as Hz.
    rewrite tally_compl, Hz, va_max_val. lia.
Qed.

(** Freeing a used slot removes its range. *)
Lemma remove_refines t s i b l :
  refines t s -> 0 <= i < 16384 -> v_handle_id (va_tbl t).[i] <> 0 ->
  refines (Tbl ((va_tbl t).[i <- Ent 0 b l]) (if va_used t =? 0 then 0 else va_used t - 1))
    (s ∖ {[(va_tbl t).[i]]}).
Proof.
  intros Hr Hi Hz. pose proof (used_range t s Hr) as Hu. destruct Hr as [R1 R2 R3 R4 R5 R6].
  pose proof (count_set t i (Ent 0 b l) Hi) as Hc. simpl in Hc.
  rewrite (proj2 (Z.eqb_neq (v_handle_id (va_tbl t).[i]) 0)) in Hc by done. simpl in Hc.
  assert (size (s ∖ {[(va_tbl t).[i]]}) = (size s - 1)%nat) as Hsz.
  { rewrite size_difference, size_singleton; [done |]. apply singleton_subseteq_l. by apply R1. }
  assert (0 < va_used t) as Hpos.
  { rewrite R5. assert ((va_tbl t).[i] ∈ s) as Hin by (by apply R1).
    apply singleton_subseteq_l, subseteq_size in Hin. rewrite size_singleton in Hin. lia. }
  rewrite (proj2 (Z.eqb_neq (va_used t) 0)) by lia.
  split; simpl.
  - intros j Hj. rewrite aget_set. case_decide; subst; [done |]. intros Hnz.
    apply elem_of_difference. split; [by apply R1 |]. intros E%elem_of_singleton.
    apply R3 in E; [by subst | done ..].
  - intros e [He Hne]%elem_of_difference. destruct (R2 e He) as (j & Hj & Ej). exists j.
    rewrite aget_set_ne; [done |]. intros ->. apply Hne, elem_of_singleton. done.
  - intros j1 j2 H1 H2. rewrite !aget_set. repeat case_decide; subst; try done; simpl.
    + intros Hn E. rewrite E in Hn. done.
    + by apply R3.
  - intros e [He _]%elem_of_difference. by apply R4.
  - rewrite Hsz. lia.
  - rewrite Hc. lia.
Qed.

(** A forgetting loop removes exactly the ranges that pass its test. *)
Lemma forget_refines (P : va_ent -> bool) t s :
  refines t s -> (forall e, P e = true -> v_handle_id e <> 0) ->
  refines (sweep (forget_if P) 0 va_max t) (filter (fun e => P e = false) s).
Proof.
  intros Hr HP.
  pose (I := fun k t' => exists s', refines t' s' /\ s' ⊆ s /\
    (forall e, e ∈ s -> P e = false -> e ∈ s') /\
    forall i, 0 <= i < k -> v_handle_id (va_tbl t').[i] <> 0 -> P (va_tbl t').[i] = false).
  assert (I (0 + Z.of_nat va_max) (sweep (forget_if P) 0 va_max t)) as (s' & Hr' & Hsub & Hkeep & Hdone).
  { apply (sweep_ind I).
    - exists s. split_and!; [done | done | done | intros; lia].
    - intros k t' Hk (s' & Hr' & Hsub & Hkeep & Hdone). rewrite va_max_val in Hk. unfold forget_if.
      destruct (P (va_tbl t').[k]) eqn:E.
      + exists (s' ∖ {[(va_tbl t').[k]]}). split_and!.
        * apply remove_refines; [done | lia | by apply HP].
        * intros e [He _]%elem_of_difference. by apply Hsub.
        * intros e He Hp. apply elem_of_difference. split; [by apply Hkeep |].
          intros ->%elem_of_singleton. congruence.
        * intros i Hi. simpl. rewrite aget_set. case_decide; [done |]. apply Hdone. lia.
      + exists s'. split_and!; [done .. |]. intros i Hi Hn.
        destruct (decide (i = k)) as [->|]; [done | apply Hdone; [lia | done]]. }
  replace (filter (fun e => P e = false) s) with s'; [done |]. apply set_eq. intros e.
  rewrite elem_of_filter. split.
  - intros He. split; [|by apply Hsub]. destruct (rf_on _ _ Hr' e He) as (i & Hi & Ei). rewrite <- Ei.
    apply Hdone; [rewrite va_max_val; lia |]. rewrite Ei. by apply (rf_ok _ _ Hr').
  - intros [Hp He]. by apply Hkeep.
Qed.

Lemma covers_refines t s h b l :
  refines t s -> 0 <= b -> b + l < 2 ^ 64 -> 0 <= l -> h <> 0 ->
  uvm_va_covers h b l t = true <->
  exists e, e ∈ s /\ v_handle_id e = h /\ v_base e <= b /\ b + l <= v_base e + v_length e.
Proof.
  intros [R1 R2 R3 R4 R5 R6] Hb Hl Hl0 Hh. unfold uvm_va_covers.
  assert (forall e, e ∈ s -> ent_covers h b l e = true <->
            v_handle_id e = h /\ v_base e <= b /\ b + l <= v_base e + v_length e) as Hc.
  { intros e (_ & Hok)%R4. unfold ent_covers, range_ok in *. rewrite !u64_small by lia.
    rewrite !andb_true_iff. lia. }
  destruct (scan _ _ _) as [i|] eqn:E.
  - split; [intros _ | done]. apply scan_Some in E as (Hi & Hs & _). rewrite va_max_val in Hi.
    assert ((va_tbl t).[i] ∈ s) as Hin.
    { apply R1; [lia |]. unfold ent_covers in Hs. nv_bool. lia. }
    exists (va_tbl t).[i]. split; [done |]. by apply Hc.
  - split; [done |]. intros (e & He & Hm). destruct (R2 e He) as (i & Hi & Ei).
    pose proof (proj1 (scan_None _ _ _) E i) as Hf. cbv beta in Hf. rewrite Ei in Hf.
    rewrite (proj2 (Hc e He) Hm) in Hf. rewrite va_max_val in Hf. discriminate Hf. lia.
Qed.

Lemma filter_same (P Q : va_ent -> Prop) `{!forall e, Decision (P e), !forall e, Decision (Q e)} (s : gset va_ent) :
  (forall e, e ∈ s -> P e <-> Q e) -> filter P s = filter Q s.
Proof. intros HPQ. apply set_eq. intros e. rewrite !elem_of_filter. specialize (HPQ e). tauto. Qed.

Lemma drop_refines t s h b l :
  refines t s -> h <> 0 -> range_ok b l ->
  refines (uvm_va_drop h b l t)
    (filter (fun e => ~ (v_handle_id e = h /\ b <= v_base e /\ v_base e + v_length e <= b + l)) s).
Proof.
  intros Hr Hh Hok. unfold uvm_va_drop. erewrite filter_same; [apply forget_refines; [done |] |].
  - unfold ent_inside. intros e He. nv_bool. lia.
  - intros e (_ & Hoe)%(rf_ok _ _ Hr). unfold ent_inside, range_ok in *. rewrite !u64_small by lia. lia.
Qed.

Lemma purge_refines t s h :
  refines t s -> refines (nvkvm_uvm_va_purge_handle h t) (filter (fun e => v_handle_id e <> h) s).
Proof.
  intros Hr. unfold nvkvm_uvm_va_purge_handle. destruct (h =? 0) eqn:E; nv_bool.
  - replace (filter (fun e => v_handle_id e <> h) s) with s; [done |]. apply set_eq. intros e.
    rewrite elem_of_filter. split; [|by intros []]. intros He. split; [|done]. subst.
    by apply (rf_ok _ _ Hr).
  - erewrite filter_same; [apply forget_refines; [done |] |]; intros e He; simpl in *; lia.
Qed.

(** C38. [va_table_refines]: the ownership table implements a finite set of (handle, base,
    length) ranges.  For a positive handle id and a range that [uvm_va_sane] accepts: a
    cover test succeeds exactly when the range lies inside one recorded range of the
    same handle; recording adds the range, and fails, changing nothing, only when there is no
    room, which [uvm_va_have_room] reports exactly when all 16384 entries are used;
    dropping removes exactly the ranges of the handle inside the given one, purging
    exactly those of the handle. *)
Theorem va_table_refines (t : va_table) (s : gset va_ent) (h b l : Z) :
  refines t s -> 0 < h -> 0 <= b < 2 ^ 64 -> 0 <= l < 2 ^ 64 -> uvm_va_sane b l = true ->
  (uvm_va_covers h b l t = true <->
   exists e, e ∈ s /\ v_handle_id e = h /\ v_base e <= b /\ b + l <= v_base e + v_length e) /\
  (uvm_va_have_room t = true <-> Z.of_nat (size s) < 16384) /\
  match uvm_va_add h b l t with
  | (t', true) => refines t' ({[Ent h b l]} ∪ s)
  | (t', false) => t' = t /\ uvm_va_have_room t = false
  end /\
  refines (uvm_va_drop h b l t)
    (filter (fun e => ~ (v_handle_id e = h /\ b <= v_base e /\ v_base e + v_length e <= b + l)) s) /\
  refines (nvkvm_uvm_va_purge_handle h t) (filter (fun e => v_handle_id e <> h) s).
Proof.
  intros Hr Hh Hb Hl Hsane. apply va_sane_spec in Hsane as Hok; [|done ..].
  assert (uvm_va_have_room t = true <-> Z.of_nat (size s) < 16384) as Hroom.
  { unfold uvm_va_have_room, NVKVM_UVM_VA_MAX. rewrite (rf_used _ _ Hr). lia. }
  split_and!.
  - unfold range_ok in Hok. apply covers_refines; (done || lia).
  - done.
  - pose proof (add_refines t s h b l Hr ltac:(lia) Hok) as Ha.
    destruct (uvm_va_add h b l t) as [t' []]; [done |]. destruct Ha as (-> & Hs & _).
    split; [done |]. apply not_true_iff_false. rewrite Hroom. lia.
  - apply drop_refines; (done || lia).
  - by apply purge_refines.
Qed.

Lemma va_table_refines_witness :
  uvm_va_covers 7 0x200001000 0x1000 (fst (uvm_va_add 7 0x200000000 0x4000 va_init)) = true.
Proof.
  assert (uvm_va_sane 0x200000000 0x4000 = true) as Hs by reflexivity.
  pose proof (va_table_refines va_init ∅ 7 0x200000000 0x4000 refines_init ltac:(lia) ltac:(lia) ltac:(lia) Hs)
    as (_ & _ & Ha & _).
  assert (snd (uvm_va_add 7 0x200000000 0x4000 va_init) = true) as Hb by (vm_compute; reflexivity).
  destruct (uvm_va_add 7 0x200000000 0x4000 va_init) as [t b]. simpl in *. subst b.
  apply (va_table_refines t _ 7 0x200001000 0x1000 Ha); [lia .. | reflexivity |].
  exists (Ent 7 0x200000000 0x4000). split; [set_solver |]. simpl. lia.
Defined.

End UvmVa.
