(* ===== verification/Allowlists.v ===== *)
(** * Default-deny allowlists ([src/qemu/nvkvm_*_allowlist.h])

    The commands a guest may send to the host driver, as the tables and [switch]
    statements of the source list them, with the tests of
    [src/qemu/nvkvm_isolate_handlers.c] that read them. *)

From S2P Require Import Prelude.
Local Open Scope Z_scope.

Module Allow.

Definition nvkvm_ctrl_allowlist : list Z :=
  [ 0x00000101; 0x00000102; 0x00000127; 0x0000012b; 0x00000136; 0x0000013a; 0x000001f0;
    0x00000201; 0x00000202; 0x00000204; 0x00000205; 0x00000214; 0x00000215; 0x00000216;
    0x0000021b; 0x00000275; 0x00000279; 0x0000027b; 0x00000288; 0x00000289; 0x00000290;
    0x00000a04; 0x00000d01; 0x00000d04; 0x00410110; 0x00800201; 0x00800280; 0x00800288;
    0x00800289; 0x0080028b; 0x0080028e; 0x00800292; 0x00800294; 0x00801109; 0x00801307;
    0x00801402; 0x0080170d; 0x00801713; 0x00801806; 0x0080180d; 0x00801909; 0x00de0001;
    0x00f80103; 0x00fd0101; 0x00fd0102; 0x00fd0104; 0x00fd0105; 0x20800102; 0x20800110;
    0x20800111; 0x20800119; 0x2080012f; 0x20800131; 0x20800133; 0x2080013f; 0x20800142;
    0x20800145; 0x20800146; 0x2080014a; 0x2080014b; 0x20800156; 0x20800157; 0x2080016c;
    0x20800170; 0x2080018b; 0x2080018d; 0x2080018e; 0x20800195; 0x208001a3; 0x20800301;
    0x20800403; 0x20800406; 0x20800407; 0x20800513; 0x20800802; 0x2080110b; 0x20801201;
    0x20801210; 0x20801218; 0x2080121b; 0x20801227; 0x2080122a; 0x2080122b; 0x20801230;
    0x20801303; 0x20801357; 0x20801358; 0x20801701; 0x20801702; 0x20801801; 0x20801802;
    0x20801803; 0x20801823; 0x2080182a; 0x2080182b; 0x2080200a; 0x20802068; 0x20802209;
    0x2080220c; 0x20802210; 0x20802a03; 0x20802a0a; 0x20803001; 0x20803002; 0x20803125;
    0x20803601; 0x20803801; 0x20808159; 0x20808162; 0x2080852e; 0x2080852f; 0x2080a612;
    0x2080a618; 0x20810108; 0x208f1105; 0x503c0102; 0x503c0104; 0x503c0105; 0x83de0309;
    0x83de030c; 0x83de0310; 0x906f0101; 0x906f0102; 0x90e60102; 0xa06c0101; 0xa06c0103;
    0xa06c0105; 0xa06f0103; 0xc36f0108; 0xc56f010b; 0xcb330101; 0xcb330104; 0xcb33010b;
    0xcb33010c; 0x00000301; 0x00003d05; 0x00003d06; 0x00730101; 0x00801102; 0x00801104;
    0x00801301; 0x00801401; 0x00801701; 0x00801707; 0x00801b01; 0x00801c02; 0x00da0002;
    0x00da0006; 0x20800123; 0x20800147; 0x20801206; 0x20801208; 0x20801301; 0x20801315;
    0x20801320; 0x20801352; 0x20802a02; 0x20803d07; 0x2080a0d1; 0x20810107; 0x90960101;
    0x90960106; 0x90960107; 0xa06f0104; 0xc36f010a; 0xc36f0101 ].

Definition nvkvm_fe_nr_allowlist : list Z :=
  [ 0x27; 0x29; 0x2a; 0x2b; 0x34; 0x35; 0x41; 0x4a; 0x4e; 0x4f; 0x54; 0x57;
    0x58; 0x5e; 0xc8; 0xc9; 0xce; 0xcf; 0xd2; 0xd4; 0xd6; 0xd7; 0xda ].

Definition nvkvm_alloc_class_allowlist : list Z :=
  [ 0x00000000; 0x00000001; 0x00000002; 0x00000005; 0x0000003e; 0x00000040; 0x00000041;
    0x00000070; 0x00000073; 0x00000079; 0x00000080; 0x000000da; 0x000000de; 0x000000e0;
    0x000000f1; 0x000000f8; 0x000000fb; 0x000000fd; 0x000000fe; 0x00002080; 0x00002081;
    0x0000208f; 0x0000503b; 0x0000503c; 0x000050a0; 0x000083de; 0x0000902d; 0x00009067;
    0x00009072; 0x00009096; 0x000090cc; 0x000090e6; 0x000090e7; 0x000090f1; 0x0000a06c;
    0x0000a0bc; 0x0000a140; 0x0000b2cc; 0x0000b8b0; 0x0000b8d1; 0x0000b8fa; 0x0000c361;
    0x0000c461; 0x0000c46f; 0x0000c4b0; 0x0000c4b7; 0x0000c4d1; 0x0000c56f; 0x0000c597;
    0x0000c5b5; 0x0000c5c0; 0x0000c661; 0x0000c697; 0x0000c6b0; 0x0000c6b5; 0x0000c6c0;
    0x0000c6fa; 0x0000c761; 0x0000c797; 0x0000c7b0; 0x0000c7b5; 0x0000c7b7; 0x0000c7c0;
    0x0000c7fa; 0x0000c86f; 0x0000c8b5; 0x0000c96f; 0x0000c997; 0x0000c9b0; 0x0000c9b5;
    0x0000c9b7; 0x0000c9c0; 0x0000c9d1; 0x0000c9fa; 0x0000ca6f; 0x0000cab5; 0x0000cb33;
    0x0000cb97; 0x0000cba2; 0x0000cbc0; 0x0000cd40; 0x0000cd97; 0x0000cdb0; 0x0000cdc0;
    0x0000cdd1; 0x0000cdfa; 0x0000ce97; 0x0000cec0; 0x0000cfb7 ].

(** [for (i = 0; i < N; i++) if (list[i] == x) return true; return false;] *)
Fixpoint listed (x : Z) (l : list Z) : bool :=
  match l with [] => false | y :: l' => if y =? x then true else listed x l' end.

Definition nvkvm_ctrl_cmd_allowed (cmd : Z) : bool :=
  if negb (Z.land cmd 0x8000 =? 0) then true
  else if Z.land (Z.shiftr cmd 16) 0xffff =? 0x2081 then true
  else listed cmd nvkvm_ctrl_allowlist.

Definition nvkvm_fe_nr_allowed (nr : Z) : bool := listed nr nvkvm_fe_nr_allowlist.

Definition nvkvm_alloc_class_allowed (cls : Z) : bool := listed cls nvkvm_alloc_class_allowlist.

Definition NVKVM_DRM_COMMAND_BASE : Z := 0x40.

Definition nvkvm_drm_nr_allowed (nr : Z) : bool :=
  listed nr [0x00; 0x09; NVKVM_DRM_COMMAND_BASE + 0x03; NVKVM_DRM_COMMAND_BASE + 0x04;
             NVKVM_DRM_COMMAND_BASE + 0x05; NVKVM_DRM_COMMAND_BASE + 0x06;
             NVKVM_DRM_COMMAND_BASE + 0x08; NVKVM_DRM_COMMAND_BASE + 0x0b;
             NVKVM_DRM_COMMAND_BASE + 0x09; NVKVM_DRM_COMMAND_BASE + 0x0f;
             NVKVM_DRM_COMMAND_BASE + 0x14; NVKVM_DRM_COMMAND_BASE + 0x15;
             NVKVM_DRM_COMMAND_BASE + 0x16; NVKVM_DRM_COMMAND_BASE + 0x17].

Definition nvkvm_nvkms_cmd_allowed (cmd_type : Z) : bool :=
  listed cmd_type [0; 1; 17; 18; 60; 61; 62].

(** Fields of an ioctl number. *)
Definition ioc_nr (cmd : Z) : Z := Z.land cmd 0xff.
Definition ioc_type (cmd : Z) : Z := Z.land (Z.shiftr cmd 8) 0xff.

Definition NVKVM_NVKMS_IOCTL_CMD : Z := 0xC0106D00.

Definition NV_ESC_RM_ALLOC_MEMORY : Z := 0x27.
Definition NV_ESC_RM_FREE : Z := 0x29.
Definition NV_ESC_RM_CONTROL : Z := 0x2a.
Definition NV_ESC_RM_ALLOC : Z := 0x2b.
Definition NV_ESC_RM_DUP_OBJECT : Z := 0x34.

(** ['F'] and ['d']. *)
Definition type_F : Z := 70.
Definition type_d : Z := 100.

Lemma listed_spec x l : listed x l = true <-> x ∈ l.
Proof.
  induction l as [|y l IH]; simpl; [rewrite elem_of_nil; done |].
  rewrite elem_of_cons. destruct (Z.eqb_spec y x); [subst; tauto |]. rewrite IH. naive_solver.
Qed.

End Allow.
