(* ===== verification/IoctlGate.v ===== *)
(** * The ioctl gate ([nvkvm_req_ioctl_on_isolate] of
      [src/qemu/nvkvm_isolate_handlers.c])

    Every GPU ioctl of the guest passes through this handler.  UVM commands run
    in the device process against a table of owned address ranges; all other
    commands are checked against the allowlists and against the set of RM
    clients of this VM, and then sent to the isolate.  The result of the handler
    holds the response, the buffers copied back to the guest, the new state and
    the list of calls made on the host driver and on the isolate. *)

From S2P Require Import Prelude Bytes HandleTable UvmVa Allowlists Abi.
Local Open Scope Z_scope.
Local Open Scope nv_scope.

Module Gate.
Import HTab UvmVa Allow.

Record request := Req {
  isolate_id : Z;
  handle_id : Z;
  cmd : Z;
  param_size : Z;
  aux_size : Z;
  flags : Z
}.

Record response := Resp { retval : Z; status : Z; nvstatus : Z; fault_addr : Z }.

(** The part of the device state the handler uses; [clients] is
    [client_allow\[0 .. client_allow_n)]. *)
Record device := Dev {
  handles : handle_table;
  va : va_table;
  clients : list Z;
  graphics : bool;
  abi : option Abi.abi_profile
}.

Definition NVKVM_CLIENT_ALLOWLIST_MAX : Z := 8192.

(** A request to an isolate, and what comes back. *)
Record iso_req := IsoReq {
  q_isolate : Z;
  q_handle : Z;
  q_cmd : Z;
  q_param : option bytes;
  q_param_size : Z;
  q_aux : option bytes;
  q_aux_size : Z;
  q_flags : Z
}.

Record reply := Reply {
  rp_ret : Z;
  rp_nvstatus : Z;
  rp_fault : Z;
  rp_param : option bytes;
  rp_aux : option bytes
}.

(** Calls that leave the device process. *)
Inductive call :=
| UvmCall (fd cmd : Z) (buf : bytes) (size : Z)
| IsoCall (q : iso_req).

Record outcome := Out {
  o_dev : device;
  o_resp : response;
  o_param : option bytes;
  o_aux : option bytes;
  o_calls : list call
}.

(** The response of a refusal: [retval = -e], [status = 0]. *)
Definition deny (e nvst : Z) : response := Resp (u64 (- e)) 0 nvst 0.

(** ** The set of RM clients *)

Definition nvkvm_client_allow_add (hc : Z) (l : list Z) : list Z :=
  if (hc =? 0) || (hc =? 2 ^ 32 - 1) then l
  else if listed hc l then l
  else if Z.of_nat (length l) <? NVKVM_CLIENT_ALLOWLIST_MAX then l ++ [hc]
  else l.

Definition nvkvm_client_allow_has (hc : Z) (l : list Z) : bool := listed hc l.

(** [memcpy(dst, src, n)]. *)
Definition copy_bytes (dst src : bytes) (n : Z) : bytes := write_bytes dst 0 (read_bytes src 0 n).

Definition with_va (t : va_table) (nv : device) : device :=
  Dev (handles nv) t (clients nv) (graphics nv) (abi nv).

Definition with_clients (l : list Z) (nv : device) : device :=
  Dev (handles nv) (va nv) l (graphics nv) (abi nv).

(** ** UVM commands *)

Definition NVKVM_UVM_BOUNCE_MIN : Z := 16384.

(** The floor of the parameter size: two commands take it from the profile. *)
Definition uvm_min_size (nv : device) (cmd : Z) (d : uvm_desc) : Z :=
  let prof := match abi nv with Some p => p | None => Abi.nvkvm_abi_by_id Abi.NVKVM_ABI_570 end in
  if cmd =? 33 then Abi.uvm_map_ext_size prof
  else if cmd =? 68 then Abi.uvm_sem_pool_size prof
  else d_min_size d.

(** The check of the address range: a refusal, or the range to account for
    ([None] when there is none). *)
Definition uvm_va_gate (nv : device) (req : request) (d : uvm_desc) (param : option bytes)
  : response + option (Z * Z) :=
  if negb (d_va_off d =? 0xffff) && negb (bool_decide (d_va_mode d = NVKVM_UVM_VA_NONE)) then
    match param with
    | None => inl (deny EINVAL 0x1f)
    | Some p =>
        if param_size req <? d_va_off d + 16 then inl (deny EINVAL 0x1f)
        else
          let va_base := get64 p (d_va_off d) in
          let va_len := get64 p (d_va_off d + 8) in
          if negb (va_base =? 0) || negb (va_len =? 0) then
            if negb (uvm_va_sane va_base va_len) then inl (deny EINVAL 0x1e)
            else if bool_decide (d_va_mode d = NVKVM_UVM_VA_CREATE) && negb (uvm_va_have_room (va nv))
            then inl (deny ENOMEM 0x1a)
            else if (bool_decide (d_va_mode d = NVKVM_UVM_VA_USE) ||
                     bool_decide (d_va_mode d = NVKVM_UVM_VA_FREE)) &&
                    negb (uvm_va_covers (handle_id req) va_base va_len (va nv))
            then inl (deny EINVAL 0x1e)
            else inr (Some (va_base, va_len))
          else inr None
    end
  else inr None.

(** One embedded descriptor field: a handle id becomes the host descriptor; the
    replaced value is kept with its offset. *)
Definition fd_swap (nv : device) (req : request) (off : Z) (param : option bytes)
  : option bytes * list (Z * Z) :=
  match param with
  | None => (param, [])
  | Some p =>
      if param_size req <? off + 4 then (param, [])
      else
        let hid := get32 p off in
        if (hid =? 0) || (hid =? 2 ^ 32 - 1) then (param, [])
        else match nvkvm_handle_get hid (handles nv) with
             | None => (param, [])
             | Some hh => if hd_fd hh <? 0 then (param, [])
                          else (Some (put32 p off (u32 (hd_fd hh))), [(off, hid)])
             end
  end.

(** [for (k = 0; k < 2 && fd_off\[k\] != 0xffff; k++)]. *)
Definition fd_swaps (nv : device) (req : request) (d : uvm_desc) (param : option bytes)
  : option bytes * list (Z * Z) :=
  let '(o0, o1) := d_fd_off d in
  if o0 =? 0xffff then (param, [])
  else
    let '(p1, s1) := fd_swap nv req o0 param in
    if o1 =? 0xffff then (p1, s1)
    else let '(p2, s2) := fd_swap nv req o1 p1 in (p2, s1 ++ s2).

(** The buffer the driver works on: zeroed, at least 16 KiB, with the guest's
    bytes copied in and the semaphore address of UVM_MIGRATE cleared. *)
Definition bounce_size (req : request) : Z := Z.max (param_size req) NVKVM_UVM_BOUNCE_MIN.

Definition bounce_buffer (req : request) (param : option bytes) : bytes :=
  let b := match param with
           | Some p => if param_size req =? 0 then ∅ else copy_bytes ∅ p (param_size req)
           | None => ∅
           end in
  if (cmd req =? 51) && (52 <=? bounce_size req) then write_bytes b 40 (repeat 0 12) else b.

(** Where the driver's own struct holds the status of a range command. *)
Definition rmstatus_off (cmd : Z) : option Z :=
  if cmd =? 27 then Some 48
  else if cmd =? 34 then Some 16
  else if cmd =? 65 then Some 36
  else if cmd =? 68 then Some 9240
  else if cmd =? 73 then Some 16
  else None.

Definition va_rmstatus (req : request) (checked : option (Z * Z)) (bounce : bytes) : Z :=
  match checked with
  | None => 2 ^ 32 - 1
  | Some _ =>
      match rmstatus_off (cmd req) with
      | Some so => if so + 4 <=? bounce_size req then get32 bounce so else 2 ^ 32 - 1
      | None => 2 ^ 32 - 1
      end
  end.

(** The ownership table after the driver's verdict. *)
Definition va_account (req : request) (d : uvm_desc) (checked : option (Z * Z)) (r rmst : Z)
    (t : va_table) : va_table :=
  let t1 :=
    match checked with
    | Some (base, len) =>
        if (r =? 0) && (rmst =? 0) then
          match d_va_mode d with
          | NVKVM_UVM_VA_CREATE => fst (uvm_va_add (handle_id req) base len t)
          | NVKVM_UVM_VA_FREE => uvm_va_drop (handle_id req) base len t
          | _ => t
          end
        else t
    | None => t
    end in
  if (cmd req =? 0x30000002) && (r =? 0) then nvkvm_uvm_va_purge_handle (handle_id req) t1 else t1.

(** The parameters copied back: the driver's bytes with the descriptor fields
    restored. *)
Definition copy_back (req : request) (bounce : bytes) (saved : list (Z * Z)) (param : option bytes)
  : option bytes :=
  match param with
  | None => None
  | Some p =>
      let p1 := if param_size req =? 0 then p else copy_bytes p bounce (param_size req) in
      Some (fold_left (fun q '(off, hid) => put32 q off hid) saved p1)
  end.

Definition last_word (req : request) (param : option bytes) : Z :=
  match param with
  | Some p => if 4 <=? param_size req then get32 p (param_size req - 4) else 0
  | None => 0
  end.

Section gate.
(** The UVM driver: (descriptor, command, buffer) to (return value, errno,
    buffer after). *)
Context (uvm_ioctl : Z -> Z -> bytes -> Z * Z * bytes).
(** [fcntl(fd, F_DUPFD_CLOEXEC)]. *)
Context (dup : Z -> Z).
(** [nvkvm_isolate_ioctl], [nvkvm_isolate_host_pid] and
    [nvkvm_admin_get_pid_mem]. *)
Context (isolate_ioctl : iso_req -> reply) (host_pid : Z -> Z) (pid_mem : Z -> Z -> Z * bool).

(** The part of the UVM branch after the checks. *)
Definition uvm_run (nv : device) (req : request) (d : uvm_desc) (checked : option (Z * Z))
    (param aux : option bytes) : outcome :=
  let nv := if cmd req =? 0x30000001
            then with_va (nvkvm_uvm_va_purge_handle (handle_id req) (va nv)) nv else nv in
  let '(param1, saved) := fd_swaps nv req d param in
  let '(tfd, _) := nvkvm_handle_acquire_fd dup (handle_id req) (handles nv) in
  if tfd <? 0 then Out nv (deny EBADF 0x1f) param1 aux []
  else
    let buf := bounce_buffer req param1 in
    let '(r, errno, buf') := uvm_ioctl tfd (cmd req) buf in
    let rmst := va_rmstatus req checked buf' in
    let param2 := copy_back req buf' saved param1 in
    let nv' := with_va (va_account req d checked r rmst (va nv)) nv in
    Out nv' (Resp (if r <? 0 then u64 (- errno) else 0) 0 (last_word req param2) 0) param2 aux
      [UvmCall tfd (cmd req) buf (bounce_size req)].

Definition uvm_branch (nv : device) (req : request) (param aux : option bytes) : outcome :=
  let refuse r := Out nv r param aux [] in
  match nvkvm_uvm_lookup (cmd req) with
  | None => refuse (deny EPERM 0x57)
  | Some d =>
      let min_size := uvm_min_size nv (cmd req) d in
      if (param_size req <? min_size) || ((0 <? min_size) && bool_decide (param = None))
      then refuse (deny EINVAL 0x1f)
      else match uvm_va_gate nv req d param with
           | inl r => refuse r
           | inr checked => uvm_run nv req d checked param aux
           end
  end.

(** ** Checks on all other commands

    Each returns the refusal, or [None] to go on. *)

Definition is_F (req : request) : bool := ioc_type (cmd req) =? type_F.
Definition nr (req : request) : Z := ioc_nr (cmd req).

(** [param_buf && req->param_size >= n]. *)
Definition has_param (req : request) (param : option bytes) (n : Z) : option bytes :=
  match param with Some p => if n <=? param_size req then Some p else None | None => None end.

Definition gate_type (nv : device) (req : request) (param : option bytes) : option response :=
  if negb (graphics nv) && ((ioc_type (cmd req) =? type_d) || (cmd req =? NVKVM_NVKMS_IOCTL_CMD))
  then Some (deny EPERM 0x56)
  else if ioc_type (cmd req) =? type_d then
    if nvkvm_drm_nr_allowed (nr req) then None else Some (deny EACCES 0x56)
  else if cmd req =? NVKVM_NVKMS_IOCTL_CMD then
    let nvkms_cmd := match has_param req param 4 with Some p => get32 p 0 | None => 2 ^ 32 - 1 end in
    if nvkvm_nvkms_cmd_allowed nvkms_cmd then None else Some (deny EACCES 0x56)
  else if is_F req then None else Some (deny EPERM 0x56).

Definition gate_frontend (req : request) (param : option bytes) : option response :=
  if is_F req then
    if negb (nvkvm_fe_nr_allowed (nr req)) then Some (deny EACCES 0x56)
    else if (nr req =? 0x4a) &&
            negb (match has_param req param 12 with Some p => get32 p 8 =? 2 | None => false end)
    then Some (deny EACCES 0x56)
    else if nr req =? NV_ESC_RM_ALLOC then
      match has_param req param 16 with
      | Some p => if nvkvm_alloc_class_allowed (get32 p 12) then None else Some (deny EACCES 0x56)
      | None => None
      end
    else None
  else None.

Definition gate_ctrl (req : request) (param : option bytes) : option response :=
  if is_F req && (nr req =? NV_ESC_RM_CONTROL) then
    match has_param req param 12 with
    | Some p =>
        if negb (nvkvm_ctrl_cmd_allowed (get32 p 8)) || (2 ^ 20 <? aux_size req)
        then Some (deny EACCES 0x56) else None
    | None => None
    end
  else None.

Definition gate_dup (nv : device) (req : request) (param : option bytes) : option response :=
  if is_F req && (nr req =? NV_ESC_RM_DUP_OBJECT) then
    match has_param req param 16 with
    | Some p =>
        let h_client_src := get32 p 12 in
        if negb (h_client_src =? 0) && negb (h_client_src =? 2 ^ 32 - 1) &&
           negb (nvkvm_client_allow_has h_client_src (clients nv))
        then Some (deny EACCES 0x1f) else None
    | None => None
    end
  else None.

(** The commands whose parameters start with an RM client. *)
Definition hclient_at_0 (n : Z) : bool :=
  (n =? NV_ESC_RM_ALLOC) || (n =? NV_ESC_RM_ALLOC_MEMORY) || (n =? NV_ESC_RM_CONTROL) ||
  (n =? NV_ESC_RM_FREE) || (n =? NV_ESC_RM_DUP_OBJECT) || (n =? 0x35) || (n =? 0x4e) ||
  (n =? 0x4f) || (n =? 0x57) || (n =? 0x58) || (n =? 0x4a).

Definition root_class (c : Z) : bool := (c =? 0) || (c =? 0x41).

Definition is_root_alloc (req : request) (p : bytes) : bool :=
  (nr req =? NV_ESC_RM_ALLOC) && (16 <=? param_size req) &&
  (((get32 p 8 =? get32 p 0) && root_class (get32 p 12)) ||
   ((get32 p 0 =? 0) && root_class (get32 p 12))).

Definition gate_hclient (nv : device) (req : request) (param : option bytes) : option response :=
  match has_param req param 4 with
  | Some p =>
      if is_F req && (0 <? Z.of_nat (length (clients nv))) && hclient_at_0 (nr req) then
        let hc := get32 p 0 in
        if negb (is_root_alloc req p) && negb (hc =? 0) && negb (hc =? 2 ^ 32 - 1) &&
           negb (nvkvm_client_allow_has hc (clients nv))
        then Some (deny EACCES 0x1f) else None
      else None
  | None => None
  end.

(** The first refusal. *)
Fixpoint first_deny (l : list (option response)) : option response :=
  match l with
  | [] => None
  | Some r :: _ => Some r
  | None :: l' => first_deny l'
  end.

Definition rm_gates (nv : device) (req : request) (param : option bytes) : option response :=
  first_deny [gate_type nv req param; gate_frontend req param; gate_ctrl req param;
              gate_dup nv req param; gate_hclient nv req param].

(** ** GET_PID_INFO *)

Definition NVKVM_PIDINFO_STRIDE : Z := 72.

Definition pid_off (i : Z) : Z := u32 (8 + u32 (i * NVKVM_PIDINFO_STRIDE)).

(** The loop over the entries: each pid field becomes the host pid of the isolate
    the guest tagged, or 0; the list holds the isolate of each entry, 0 to
    skip. *)
Fixpoint pid_loop (n : nat) (i : Z) (size : Z) (aux : bytes) : bytes * list Z :=
  match n with
  | O => (aux, [])
  | S n' =>
      let off := pid_off i in
      if size <? off + NVKVM_PIDINFO_STRIDE then (aux, [])
      else
        let v := get32 aux off in
        let iso := Z.land v 0x7fffffff in
        let known := negb (Z.land v 0x80000000 =? 0) && (0 <? host_pid iso) in
        let '(aux', isos) :=
          pid_loop n' (i + 1) size (put32 aux off (if known then u32 (host_pid iso) else 0)) in
        (aux', (if known then iso else 0) :: isos)
  end.

(** [None] when the request is not GET_PID_INFO. *)
Definition pid_prepare (req : request) (param aux : option bytes) : option (bytes * list Z) :=
  if is_F req && (nr req =? NV_ESC_RM_CONTROL) && (8 + NVKVM_PIDINFO_STRIDE <=? aux_size req) then
    match has_param req param 12, aux with
    | Some p, Some a =>
        if get32 p 8 =? 0x2080018e
        then Some (pid_loop (Z.to_nat (Z.min (get32 a 0) 200)) 0 (aux_size req) a)
        else None
    | _, _ => None
    end
  else None.

Fixpoint pid_fixup (i : Z) (isos : list Z) (aux : bytes) : bytes :=
  match isos with
  | [] => aux
  | iso :: isos' =>
      let off := pid_off i in
      let tgid := host_pid iso in
      let aux' :=
        if (iso =? 0) || (tgid <=? 0) then aux
        else let '(sum, any) := pid_mem tgid (get32 aux (off + 4)) in
             put64 (put32 aux (off + 8) (if any then 0 else 0xffff)) (off + 16) sum in
      pid_fixup (i + 1) isos' aux'
  end.

(** ** After the isolate answered *)

Definition record_clients (req : request) (rp : reply) (l : list Z) : list Z :=
  if (rp_ret rp =? 0) && (rp_nvstatus rp =? 0) && is_F req then
    match has_param req (rp_param rp) 4 with
    | Some p =>
        let n := nr req in
        if (n =? NV_ESC_RM_ALLOC) || (n =? NV_ESC_RM_ALLOC_MEMORY) || (n =? NV_ESC_RM_CONTROL) ||
           (n =? NV_ESC_RM_FREE) || (n =? NV_ESC_RM_DUP_OBJECT) || (n =? 0x35)
        then
          let l1 := nvkvm_client_allow_add (get32 p 0) l in
          if (n =? NV_ESC_RM_ALLOC) && (16 <=? param_size req) && root_class (get32 p 12)
          then nvkvm_client_allow_add (get32 p 8) l1 else l1
        else l
    | None => l
    end
  else l.

(** The share structure: client, object, target, access mask, type (all),
    action, padding, status. *)
Definition share_params (hClient hObjNew : Z) : bytes :=
  put32 (put8 (put8 (put16 (put32 (put32 (put32 (put32 ∅ 0 hClient) 4 hObjNew) 8 0) 12 1) 16 1) 18 0) 19 0) 20 0.

Definition share_request (req : request) (rp : reply) : option iso_req :=
  if (rp_ret rp =? 0) && (rp_nvstatus rp =? 0) && is_F req &&
     ((nr req =? NV_ESC_RM_ALLOC) || (nr req =? NV_ESC_RM_ALLOC_MEMORY)) then
    match has_param req (rp_param rp) 16 with
    | Some p =>
        let hClient := get32 p 0 in
        let hObjNew := get32 p 8 in
        let hClass := if nr req =? NV_ESC_RM_ALLOC then get32 p 12 else 0x40 in
        let is_client_obj := (hObjNew =? hClient) && (hClass =? 0) in
        let needs_share := negb is_client_obj && negb (hClass =? 0) in
        if needs_share && negb (hClient =? 0) && negb (hObjNew =? 0)
        then Some (IsoReq (isolate_id req) (handle_id req) 0xc0184635
                     (Some (share_params hClient hObjNew)) 24 None 0 0)
        else None
    | None => None
    end
  else None.

Definition rm_forward (nv : device) (req : request) (param aux : option bytes) : outcome :=
  let pids := pid_prepare req param aux in
  let aux1 := match pids with Some (a, _) => Some a | None => aux end in
  let q := IsoReq (isolate_id req) (handle_id req) (cmd req) param (param_size req) aux1
             (aux_size req) (flags req) in
  let rp := isolate_ioctl q in
  let ret := rp_ret rp in
  let resp := Resp (u64 ret)
                (if (ret =? - EFAULT) && negb (rp_fault rp =? 0) then EFAULT else 0)
                (rp_nvstatus rp) (rp_fault rp) in
  let aux2 := match pids, rp_aux rp with
              | Some (_, isos), Some a => if ret =? 0 then Some (pid_fixup 0 isos a) else Some a
              | _, a => a
              end in
  let nv' := with_clients (record_clients req rp (clients nv)) nv in
  let share := match share_request req rp with Some s => [IsoCall s] | None => [] end in
  Out nv' resp (rp_param rp) aux2 (IsoCall q :: share).

Definition nvkvm_req_ioctl_on_isolate (nv : device) (req : request) (param aux : option bytes) : outcome :=
  let rm := match rm_gates nv req param with
            | Some r => Out nv r param aux []
            | None => rm_forward nv req param aux
            end in
  match nvkvm_handle_get (handle_id req) (handles nv) with
  | Some h => if (hd_dev_id h =? NVKVM_DEV_UVM) && (0 <=? hd_fd h)
              then uvm_branch nv req param aux else rm
  | None => rm
  end.

End gate.

(** ** Buffers *)

Lemma get8_copy d s n i :
  0 <= n -> get8 (copy_bytes d s n) i = if decide (0 <= i < n) then get8 s i else get8 d i.
Proof.
  intros Hn. unfold copy_bytes. case_decide.
  - replace i with (0 + Z.of_nat (Z.to_nat i)) at 1 by lia.
    apply get8_write_in; [apply octets_read |]. rewrite lookup_read by lia. do 2 f_equal. lia.
  - apply get8_write_ne. rewrite length_read_bytes. lia.
Qed.

Lemma get8_empty i : get8 ∅ i = 0.
Proof. unfold get8. by rewrite aget_empty. Qed.

(** The part of the guest's parameters the driver sees unchanged. *)
Definition kept (req : request) : Z := if cmd req =? 51 then Z.min 40 (param_size req) else param_size req.

Lemma migrate_write b i :
  get8 (write_bytes b 40 (repeat 0 12)) i = if decide (40 <= i < 52) then 0 else get8 b i.
Proof.
  case_decide.
  - replace i with (40 + Z.of_nat (Z.to_nat (i - 40))) by lia. apply get8_write_in.
    + repeat constructor; lia.
    + change (repeat 0 12) with (replicate 12 0). apply lookup_replicate. split; [done | lia].
  - apply get8_write_ne. simpl. lia.
Qed.

Lemma bounce_agree req p :
  0 <= param_size req -> agree (bounce_buffer req (Some p)) p 0 (kept req).
Proof.
  intros Hn i Hi. unfold bounce_buffer, kept, bounce_size, NVKVM_UVM_BOUNCE_MIN in *.
  rewrite (proj2 (Z.leb_le 52 _)) by lia. rewrite andb_true_r.
  destruct (param_size req =? 0) eqn:E0; nv_bool; [destruct (cmd req =? 51); lia |].
  destruct (cmd req =? 51); [rewrite migrate_write; rewrite decide_False by lia |];
    rewrite get8_copy by lia; rewrite decide_True by lia; done.
Qed.

Lemma bounce_zero req param i :
  0 <= param_size req -> 0 <= i -> param_size req <= i \/ cmd req = 51 /\ 40 <= i < 52 ->
  get8 (bounce_buffer req param) i = 0.
Proof.
  intros Hn Hi0 Hi. unfold bounce_buffer, bounce_size, NVKVM_UVM_BOUNCE_MIN in *.
  rewrite (proj2 (Z.leb_le 52 _)) by lia. rewrite andb_true_r.
  set (b := match param with Some _ => _ | None => _ end).
  assert (param_size req <= i -> get8 b i = 0) as Hb.
  { intros. unfold b. destruct param; [|apply get8_empty]. destruct (param_size req =? 0); [apply get8_empty |].
    rewrite get8_copy by lia. rewrite decide_False by lia. apply get8_empty. }
  destruct (cmd req =? 51) eqn:E; nv_bool; [rewrite migrate_write; case_decide; [done |] |];
    apply Hb; lia.
Qed.

(** ** The UVM schema *)

Definition row_ok (d : uvm_desc) : bool :=
  bool_decide (d_va_mode d = NVKVM_UVM_VA_NONE) ||
  ((0 <=? d_va_off d) && (d_va_off d <? 0xffff) && bool_decide (d_fd_off d = nofd) &&
   (negb (d_cmd d =? 51) || (d_va_off d + 16 <=? 40)) && negb (d_cmd d =? 0x30000001)).

Lemma schema_rows : forallb row_ok nvkvm_uvm_schema = true.
Proof. reflexivity. Qed.

Lemma uvm_lookup_row c d :
  nvkvm_uvm_lookup c = Some d -> d_cmd d = c /\ row_ok d = true.
Proof.
  unfold nvkvm_uvm_lookup. pose proof schema_rows as Hs. revert Hs.
  generalize nvkvm_uvm_schema. intros l. induction l as [|x l IH]; simpl; [done |].
  intros (Hx & Hl)%andb_true_iff. destruct (d_cmd x =? c) eqn:E; [|by apply IH].
  intros [= ->]. nv_bool. done.
Qed.

(** What the rows with an address range have in common. *)
Lemma range_row c d :
  nvkvm_uvm_lookup c = Some d -> d_va_mode d <> NVKVM_UVM_VA_NONE ->
  0 <= d_va_off d < 0xffff /\ d_fd_off d = nofd /\ (c = 51 -> d_va_off d + 16 <= 40) /\ c <> 0x30000001.
Proof.
  intros (<- & Hrow)%uvm_lookup_row Hm. unfold row_ok in Hrow.
  rewrite bool_decide_eq_false_2 in Hrow by done. cbn [orb] in Hrow.
  repeat rewrite andb_true_iff in Hrow. rewrite bool_decide_eq_true, orb_true_iff in Hrow.
  destruct Hrow as [[[[? ?] ?] ?] ?]. split_and!; (done || lia).
Qed.

(** ** What reaches the UVM driver *)

Section uvm.
Context (uvm_ioctl : Z -> Z -> bytes -> Z * Z * bytes) (dup : Z -> Z).
Context (isolate_ioctl : iso_req -> reply) (host_pid : Z -> Z) (pid_mem : Z -> Z -> Z * bool).

Abbreviation handler := (nvkvm_req_ioctl_on_isolate uvm_ioctl dup isolate_ioctl host_pid pid_mem).

(** A request either leaves the ownership table and the UVM driver alone, or
    runs in the UVM branch, past its checks. *)
Lemma uvm_cases nv req param aux :
  va (o_dev (handler nv req param aux)) = va nv /\
  (forall fd c buf size, UvmCall fd c buf size ∉ o_calls (handler nv req param aux)) \/
  exists d checked,
    0 <> handle_id req /\ nvkvm_uvm_lookup (cmd req) = Some d /\
    uvm_va_gate nv req d param = inr checked /\
    handler nv req param aux = uvm_run uvm_ioctl dup nv req d checked param aux.
Proof.
  assert (forall r, va (o_dev (Out nv r param aux [])) = va nv /\
    forall fd c buf size, UvmCall fd c buf size ∉ o_calls (Out nv r param aux [])) as Hrefuse.
  { intros r. split; [done |]. intros. apply not_elem_of_nil. }
  unfold nvkvm_req_ioctl_on_isolate.
  assert (let o := match rm_gates nv req param with
                   | Some r => Out nv r param aux []
                   | None => rm_forward isolate_ioctl host_pid pid_mem nv req param aux
                   end in
          va (o_dev o) = va nv /\ forall fd c buf size, UvmCall fd c buf size ∉ o_calls o) as Hrm.
  { cbv zeta. destruct (rm_gates _ _ _); [apply Hrefuse |]. unfold rm_forward. cbn [o_calls o_dev].
    split; [done |]. intros fd c buf size [?|Hs]%elem_of_cons; [done |].
    destruct (share_request _ _); set_solver. }
  destruct (nvkvm_handle_get _ _) as [h|] eqn:Eh; [|by left].
  assert (0 <> handle_id req).
  { intros E. unfold nvkvm_handle_get, bad_id in Eh. by rewrite <- E in Eh. }
  destruct ((hd_dev_id h =? NVKVM_DEV_UVM) && (0 <=? hd_fd h)); [|by left].
  unfold uvm_branch. destruct (nvkvm_uvm_lookup _) as [d|]; [|left; apply Hrefuse].
  destruct (_ || _); [left; apply Hrefuse |].
  destruct (uvm_va_gate _ _ _ _) as [r|checked] eqn:Eg; [left; apply Hrefuse |].
  right. by exists d, checked.
Qed.

(** The call made by [uvm_run]. *)
Lemma uvm_run_call nv req d checked param aux fd c buf size :
  UvmCall fd c buf size ∈ o_calls (uvm_run uvm_ioctl dup nv req d checked param aux) ->
  c = cmd req /\ size = bounce_size req /\ buf = bounce_buffer req (fst (fd_swaps nv req d param)).
Proof.
  unfold uvm_run. set (nv1 := if cmd req =? _ then _ else _).
  assert (fd_swaps nv1 req d param = fd_swaps nv req d param) as ->.
  { unfold nv1. by destruct (cmd req =? _). }
  destruct (fd_swaps _ _ _ _) as [p1 saved]. destruct (nvkvm_handle_acquire_fd _ _ _) as [tfd ?].
  destruct (tfd <? 0); [intros ?%not_elem_of_nil; done |].
  destruct (uvm_ioctl _ _ _) as [[r errno] buf']. cbn [o_calls fst].
  by intros [= -> -> -> ->]%list_elem_of_singleton.
Qed.

(** A range command passes the gate only with the pair inside the parameters,
    and the driver sees that pair. *)
Lemma va_gate_pair nv req d param checked :
  0 <= param_size req -> nvkvm_uvm_lookup (cmd req) = Some d -> d_va_mode d <> NVKVM_UVM_VA_NONE ->
  uvm_va_gate nv req d param = inr checked ->
  let buf := bounce_buffer req (fst (fd_swaps nv req d param)) in
  let base := get64 buf (d_va_off d) in
  let len := get64 buf (d_va_off d + 8) in
  (checked = None /\ base = 0 /\ len = 0 \/ checked = Some (base, len) /\ uvm_va_sane base len = true) /\
  (base <> 0 \/ len <> 0 -> d_va_mode d = NVKVM_UVM_VA_USE \/ d_va_mode d = NVKVM_UVM_VA_FREE ->
   uvm_va_covers (handle_id req) base len (va nv) = true).
Proof.
  intros Hn Hd Hm Hg. apply range_row in Hd as (Hoff & Hfd & H51 & _); [|done].
  unfold uvm_va_gate in Hg. rewrite (proj2 (Z.eqb_neq (d_va_off d) 0xffff)) in Hg by lia.
  rewrite (bool_decide_eq_false_2 (d_va_mode d = NVKVM_UVM_VA_NONE)) in Hg by done. simpl in Hg.
  destruct param as [p|]; [|done]. destruct (param_size req <? d_va_off d + 16) eqn:El; [done |].
  unfold fd_swaps. rewrite Hfd. unfold nofd, NOFF. rewrite Z.eqb_refl. cbv zeta. cbn [fst].
  assert (agree (bounce_buffer req (Some p)) p 0 (d_va_off d + 16)) as Ha.
  { eapply agree_sub; [by apply bounce_agree | lia |]. unfold kept.
    nv_bool. destruct (cmd req =? 51) eqn:E51; lia. }
  rewrite !(agree_get64 _ _ _ _ _ Ha) by lia.
  destruct (negb (get64 p (d_va_off d) =? 0) || _) eqn:Enz.
  - destruct (uvm_va_sane _ _) eqn:Es; [|done]. simpl in Hg.
    destruct (bool_decide _ && negb (uvm_va_have_room _)); [done |].
    destruct (uvm_va_covers _ _ _ _) eqn:Ecv.
    + rewrite andb_false_r in Hg. simplify_eq. split; [by right | done].
    + rewrite andb_true_r in Hg. destruct (_ || _) eqn:Emode in Hg; [done |]. simplify_eq.
      split; [by right |]. intros _ Hmode.
      apply orb_false_iff in Emode as [Em1%bool_decide_eq_false Em2%bool_decide_eq_false]. by destruct Hmode.
  - simplify_eq. nv_bool. split; [left; split_and!; (done || lia) | intros; lia].
Qed.

(** C4. [uvm_driver_calls]: whatever the guest sends, a command that reaches the UVM
    driver is in the schema; it runs on a zeroed buffer of at least 16 KiB that
    holds nothing past the guest's bytes; the semaphore address of UVM_MIGRATE is
    zero; and when the command uses or frees an address range, the range the
    driver sees is absent (0, 0) or lies inside one range recorded for this
    handle. *)
Theorem uvm_driver_calls nv req param aux s fd c buf size :
  refines (va nv) s -> 0 <= param_size req ->
  UvmCall fd c buf size ∈ o_calls (nvkvm_req_ioctl_on_isolate uvm_ioctl dup isolate_ioctl host_pid pid_mem nv req param aux) ->
  exists d, nvkvm_uvm_lookup c = Some d /\ c = cmd req /\
    16384 <= size /\ param_size req <= size /\
    (forall i, param_size req <= i -> get8 buf i = 0) /\
    (c = 51 -> forall i, 40 <= i < 52 -> get8 buf i = 0) /\
    (d_va_mode d = NVKVM_UVM_VA_USE \/ d_va_mode d = NVKVM_UVM_VA_FREE ->
     let base := get64 buf (d_va_off d) in
     let len := get64 buf (d_va_off d + 8) in
     base = 0 /\ len = 0 \/
     exists e, e ∈ s /\ v_handle_id e = handle_id req /\
       v_base e <= base /\ base + len <= v_base e + v_length e).
Proof.
  intros Hr Hn Hin. destruct (uvm_cases nv req param aux) as [[_ Hno]|(d & checked & Hh & Hd & Hg & Ho)];
    [by apply Hno in Hin |]. rewrite Ho in Hin.
  apply uvm_run_call in Hin as (-> & -> & ->). exists d.
  unfold bounce_size, NVKVM_UVM_BOUNCE_MIN. split_and!; [done | done | lia | lia | | |].
  - intros i Hi. apply bounce_zero; lia.
  - intros Hc i Hi. apply bounce_zero; lia.
  - intros Hmode. assert (d_va_mode d <> NVKVM_UVM_VA_NONE) as Hm by (by destruct Hmode as [-> | ->]).
    destruct (va_gate_pair nv req d param checked Hn Hd Hm Hg) as [Hpair Hcov].
    cbv zeta in *. set (base := get64 _ (d_va_off d)) in *. set (len := get64 _ (d_va_off d + 8)) in *.
    destruct (decide (base = 0 /\ len = 0)) as [|Hnz]; [by left | right].
    assert (uvm_va_covers (handle_id req) base len (va nv) = true) as Hc by (apply Hcov; [lia | done]).
    destruct Hpair as [?|[_ Hs]]; [lia |].
    apply va_sane_spec in Hs as Hok; [|apply get64_range ..]. unfold range_ok in Hok.
    apply (covers_refines (va nv) s) in Hc; (done || lia).
Qed.

Lemma checked_range nv req d param checked :
  0 <= param_size req -> nvkvm_uvm_lookup (cmd req) = Some d ->
  uvm_va_gate nv req d param = inr checked ->
  let buf := bounce_buffer req (fst (fd_swaps nv req d param)) in
  forall b l, checked = Some (b, l) ->
    range_ok b l /\ b = get64 buf (d_va_off d) /\ l = get64 buf (d_va_off d + 8).
Proof.
  intros Hn Hd Hg buf b l ->. destruct (decide (d_va_mode d = NVKVM_UVM_VA_NONE)) as [E|Hm].
  { unfold uvm_va_gate in Hg. rewrite bool_decide_eq_true_2, andb_false_r in Hg by done. done. }
  destruct (va_gate_pair nv req d param _ Hn Hd Hm Hg) as [[[? _]|[[= -> ->] Hs]] _]; [done |].
  split; [apply va_sane_spec; [apply get64_range .. | done] | done].
Qed.

(** The ownership table after one account step. *)
Lemma va_account_refines req d checked r rmst t s :
  refines t s -> handle_id req <> 0 ->
  (forall b l, checked = Some (b, l) -> range_ok b l) ->
  exists s', refines (va_account req d checked r rmst t) s' /\
    (forall e, e ∈ s -> v_handle_id e <> handle_id req -> e ∈ s') /\
    (forall e, e ∈ s' -> e ∈ s \/
       exists b l, checked = Some (b, l) /\ e = Ent (handle_id req) b l /\
         d_va_mode d = NVKVM_UVM_VA_CREATE /\ r = 0 /\ rmst = 0) /\
    (cmd req = 0x30000002 -> r = 0 -> forall e, e ∈ s' -> v_handle_id e <> handle_id req).
Proof.
  intros Hr Hh Hok. unfold va_account.
  set (t1 := match checked with Some _ => _ | None => _ end).
  assert (exists s1, refines t1 s1 /\ (forall e, e ∈ s -> v_handle_id e <> handle_id req -> e ∈ s1) /\
    (forall e, e ∈ s1 -> e ∈ s \/ exists b l, checked = Some (b, l) /\ e = Ent (handle_id req) b l /\
       d_va_mode d = NVKVM_UVM_VA_CREATE /\ r = 0 /\ rmst = 0)) as (s1 & Hr1 & Hkeep & Hnew).
  { unfold t1. destruct checked as [[b l]|]; [|by exists s; auto].
    destruct ((r =? 0) && (rmst =? 0)) eqn:Ev; [|by exists s; auto]. nv_bool.
    destruct (d_va_mode d) eqn:Em; [by exists s; auto | | by exists s; auto |].
    - pose proof (add_refines t s (handle_id req) b l Hr Hh (Hok _ _ eq_refl)) as Ha.
      destruct (uvm_va_add _ _ _ _) as [t' []]; cbn [fst].
      + exists ({[Ent (handle_id req) b l]} ∪ s). split_and!; [done | set_solver |].
        intros e [->%elem_of_singleton|]%elem_of_union; [right | by left]. by exists b, l.
      + destruct Ha as (-> & _). exists s. auto.
    - eexists. split; [by apply drop_refines; [.. | apply Hok] |]. split.
      + intros e He Hne. apply elem_of_filter. split; [by intros [] | done].
      + intros e [_ He]%elem_of_filter. by left. }
  destruct ((cmd req =? 0x30000002) && (r =? 0)) eqn:Ed; nv_bool.
  - eexists. split; [by apply purge_refines |]. split_and!.
    + intros e He Hne. apply elem_of_filter. auto.
    + intros e [_ He]%elem_of_filter. auto.
    + intros _ _ e [Hne _]%elem_of_filter. done.
  - exists s1. split_and!; [done .. |]. intros. nv_bool.
    rewrite (proj2 (Z.eqb_eq _ _)), (proj2 (Z.eqb_eq _ _)) in Ed by done. done.
Qed.


(** One descriptor field, when the command has one and the parameters hold it. *)
Lemma fd_swaps_single nv req d p off :
  d_fd_off d = (off, NOFF) -> off <> 0xffff -> off + 4 <= param_size req ->
  get32 p off <> 0 -> get32 p off <> 2 ^ 32 - 1 ->
  fd_swaps nv req d (Some p) =
    match nvkvm_handle_get (get32 p off) (handles nv) with
    | Some h => if hd_fd h <? 0 then (Some p, []) else (Some (put32 p off (u32 (hd_fd h))), [(off, get32 p off)])
    | None => (Some p, [])
    end.
Proof.
  intros Hd Ho Hs H0 H1. unfold fd_swaps, fd_swap. rewrite Hd.
  rewrite (proj2 (Z.eqb_neq off _)) by lia. rewrite (proj2 (Z.ltb_ge _ _)) by lia.
  rewrite (proj2 (Z.eqb_neq (get32 p off) 0)), (proj2 (Z.eqb_neq (get32 p off) (2 ^ 32 - 1))) by done.
  unfold NOFF. rewrite Z.eqb_refl. cbn [orb]. destruct (nvkvm_handle_get _ _); [|done]. by destruct (_ <? 0).
Qed.

Lemma bounce_get32 req p off :
  0 <= off -> off + 4 <= param_size req -> cmd req <> 51 ->
  get32 (bounce_buffer req (Some p)) off = get32 p off.
Proof.
  intros Ho Hs Hc. apply (agree_get32 _ _ 0 (kept req)); [apply bounce_agree; lia | lia |].
  unfold kept. rewrite (proj2 (Z.eqb_neq _ 51)) by done. lia.
Qed.

(** [uvm_fd_field]: for a command with an embedded descriptor field naming a live
    handle, the driver sees the host descriptor and the guest gets its own
    value back.  Two cases are different: when the target handle cannot be
    duplicated the handler returns early and the response carries the host
    descriptor number; and an id that names no live handle is passed to the
    driver unchanged, as a descriptor number of the device process. *)
Theorem uvm_fd_field nv req d checked p aux off tfd dev :
  nvkvm_uvm_lookup (cmd req) = Some d -> d_fd_off d = (off, NOFF) -> off <> NOFF ->
  0 <= off -> off + 4 <= param_size req -> get32 p off <> 0 -> get32 p off <> 2 ^ 32 - 1 ->
  nvkvm_handle_acquire_fd dup (handle_id req) (handles nv) = (tfd, dev) ->
  let o := uvm_run uvm_ioctl dup nv req d checked (Some p) aux in
  match nvkvm_handle_get (get32 p off) (handles nv) with
  | Some h =>
      0 <= hd_fd h < 2 ^ 31 ->
      if tfd <? 0 then exists p', o_param o = Some p' /\ get32 p' off = hd_fd h
      else exists p' buf, o_calls o = [UvmCall tfd (cmd req) buf (bounce_size req)] /\
             get32 buf off = hd_fd h /\ o_param o = Some p' /\ get32 p' off = get32 p off
  | None => 0 <= tfd ->
      exists buf, o_calls o = [UvmCall tfd (cmd req) buf (bounce_size req)] /\ get32 buf off = get32 p off
  end.
Proof.
  intros Hd Hfd Hno Ho Hs H0 H1 Ha o.
  assert (cmd req <> 51) as H51.
  { intros E. rewrite E in Hd. change (Some (Desc 51 48 nofd 0 NVKVM_UVM_VA_USE) = Some d) in Hd.
    injection Hd as <-. injection Hfd as <-. done. }
  unfold o, uvm_run. set (nv1 := if cmd req =? 0x30000001 then _ else _).
  assert (handles nv1 = handles nv) as Hh1 by (unfold nv1; by destruct (cmd req =? _)).
  rewrite (fd_swaps_single nv1 req d p off) by done. rewrite Hh1, Ha.
  destruct (nvkvm_handle_get (get32 p off) (handles nv)) as [h|].
  - intros Hf. rewrite (proj2 (Z.ltb_ge (hd_fd h) 0)) by lia. destruct (tfd <? 0); cbn [o_param o_calls].
    + eexists. split; [done |]. rewrite get32_put32. rewrite !u32_small by (rewrite ?u32_small; lia). done.
    + destruct (uvm_ioctl _ _ _) as [[r errno] buf']. cbn [o_param o_calls copy_back fold_left].
      eexists _, _. split_and!; [done | | done |].
      * rewrite bounce_get32 by lia. rewrite get32_put32. rewrite !u32_small by (rewrite ?u32_small; lia). done.
      * rewrite get32_put32. apply u32_small, get32_range.
  - intros Ht. rewrite (proj2 (Z.ltb_ge tfd 0)) by lia. destruct (uvm_ioctl _ _ _) as [[r errno] buf'].
    cbn [o_calls]. eexists. split; [done |]. by apply bounce_get32.
Qed.

End uvm.

(** ** What reaches an isolate *)

Section rm.
Context (uvm_ioctl : Z -> Z -> bytes -> Z * Z * bytes) (dup : Z -> Z).
Context (isolate_ioctl : iso_req -> reply) (host_pid : Z -> Z) (pid_mem : Z -> Z -> Z * bool).

Abbreviation handler := (nvkvm_req_ioctl_on_isolate uvm_ioctl dup isolate_ioctl host_pid pid_mem).

Lemma uvm_branch_calls nv req param aux q rest :
  o_calls (uvm_branch uvm_ioctl dup nv req param aux) <> IsoCall q :: rest.
Proof.
  unfold uvm_branch. destruct (nvkvm_uvm_lookup _); [|done]. destruct (_ || _); [done |].
  destruct (uvm_va_gate _ _ _ _); [done |]. unfold uvm_run.
  destruct (fd_swaps _ _ _ _). destruct (nvkvm_handle_acquire_fd _ _ _). destruct (_ <? 0); [done |].
  by destruct (uvm_ioctl _ _ _) as [[] ?].
Qed.

(** A call on an isolate comes from the forwarding part, past all checks. *)
Lemma iso_call_inv nv req param aux q rest :
  o_calls (handler nv req param aux) = IsoCall q :: rest ->
  rm_gates nv req param = None /\
  handler nv req param aux = rm_forward isolate_ioctl host_pid pid_mem nv req param aux.
Proof.
  unfold nvkvm_req_ioctl_on_isolate.
  assert (o_calls (match rm_gates nv req param with
                   | Some r => Out nv r param aux []
                   | None => rm_forward isolate_ioctl host_pid pid_mem nv req param aux
                   end) = IsoCall q :: rest ->
    rm_gates nv req param = None /\
    match rm_gates nv req param with
    | Some r => Out nv r param aux []
    | None => rm_forward isolate_ioctl host_pid pid_mem nv req param aux
    end = rm_forward isolate_ioctl host_pid pid_mem nv req param aux) as Hrm by (by destruct (rm_gates _ _ _)).
  destruct (nvkvm_handle_get _ _) as [h|]; [|done].
  destruct (_ && _); [|done]. intros Hc. by apply uvm_branch_calls in Hc.
Qed.

Lemma first_deny_None l : first_deny l = None -> Forall (fun r => r = None) l.
Proof. induction l as [|[r|] l IH]; simpl; [constructor | done |]. intros. constructor; auto. Qed.

(** The checks, one lemma per gate. *)
Lemma gate_type_None nv req param :
  gate_type nv req param = None ->
  is_F req = true \/
  graphics nv = true /\ ioc_type (cmd req) = type_d /\ nvkvm_drm_nr_allowed (nr req) = true \/
  graphics nv = true /\ cmd req = NVKVM_NVKMS_IOCTL_CMD /\
    exists p, param = Some p /\ 4 <= param_size req /\ nvkvm_nvkms_cmd_allowed (get32 p 0) = true.
Proof.
  unfold gate_type. destruct (graphics nv); simpl.
  - destruct (ioc_type (cmd req) =? type_d) eqn:E1; nv_bool.
    { destruct (nvkvm_drm_nr_allowed _); [|done]. auto. }
    destruct (cmd req =? NVKVM_NVKMS_IOCTL_CMD) eqn:E2; nv_bool.
    { unfold has_param. destruct param as [p|]; [|done]. destruct (4 <=? param_size req) eqn:E4; [|done].
      destruct (nvkvm_nvkms_cmd_allowed _) eqn:E5; [|done]. nv_bool. eauto 10. }
    destruct (is_F req); [auto | done].
  - destruct (ioc_type (cmd req) =? type_d) eqn:E1; [done |].
    destruct (cmd req =? NVKVM_NVKMS_IOCTL_CMD) eqn:E2; [done |]. simpl. destruct (is_F req); [auto | done].
Qed.

Lemma gate_frontend_None req param :
  gate_frontend req param = None -> is_F req = true ->
  nvkvm_fe_nr_allowed (nr req) = true /\
  (nr req = 0x4a -> exists p, param = Some p /\ 12 <= param_size req /\ get32 p 8 = 2) /\
  (nr req = NV_ESC_RM_ALLOC -> forall p, param = Some p -> 16 <= param_size req ->
   nvkvm_alloc_class_allowed (get32 p 12) = true).
Proof.
  unfold gate_frontend. intros Hg HF. rewrite HF in Hg.
  destruct (nvkvm_fe_nr_allowed _); [|done]. simpl in Hg. split; [done |].
  destruct (_ && negb _) eqn:E4 in Hg; [done |]. apply andb_false_iff in E4. split.
  - intros E. rewrite E in E4. destruct E4 as [?|E4%negb_false_iff]; [done |].
    unfold has_param in E4. destruct param as [p|]; [|done]. destruct (12 <=? _) eqn:?; [|done]. nv_bool. eauto.
  - intros E p -> Hs. rewrite (proj2 (Z.eqb_eq _ _)) in Hg by done. unfold has_param in Hg.
    rewrite (proj2 (Z.leb_le _ _)) in Hg by done. by destruct (nvkvm_alloc_class_allowed _).
Qed.

Lemma gate_ctrl_None req param p :
  gate_ctrl req param = None -> is_F req = true -> nr req = NV_ESC_RM_CONTROL ->
  param = Some p -> 12 <= param_size req ->
  nvkvm_ctrl_cmd_allowed (get32 p 8) = true /\ aux_size req <= 2 ^ 20.
Proof.
  unfold gate_ctrl, has_param. intros Hg HF Hn -> Hs. rewrite HF, Hn, Z.eqb_refl in Hg.
  rewrite (proj2 (Z.leb_le _ _)) in Hg by done. simpl in Hg.
  destruct (_ || _) eqn:E in Hg; [done |]. nv_bool. done.
Qed.

Definition known_client (nv : device) (hc : Z) : Prop :=
  hc = 0 \/ hc = 2 ^ 32 - 1 \/ hc ∈ clients nv.

Lemma known_client_test nv hc :
  negb (hc =? 0) && negb (hc =? 2 ^ 32 - 1) && negb (nvkvm_client_allow_has hc (clients nv)) = false ->
  known_client nv hc.
Proof.
  unfold known_client, nvkvm_client_allow_has. intros H.
  destruct (listed hc (clients nv)) eqn:E; [apply listed_spec in E; auto |].
  rewrite andb_true_r in H. lia.
Qed.

Lemma gate_dup_None nv req param p :
  gate_dup nv req param = None -> is_F req = true -> nr req = NV_ESC_RM_DUP_OBJECT ->
  param = Some p -> 16 <= param_size req -> known_client nv (get32 p 12).
Proof.
  unfold gate_dup, has_param. intros Hg HF Hn -> Hs. rewrite HF, Hn, Z.eqb_refl in Hg.
  rewrite (proj2 (Z.leb_le _ _)) in Hg by done. rewrite !andb_true_l in Hg.
  apply known_client_test. by destruct (_ && _) eqn:E in Hg.
Qed.

Lemma gate_hclient_None nv req param p :
  gate_hclient nv req param = None -> is_F req = true -> hclient_at_0 (nr req) = true ->
  clients nv <> [] -> param = Some p -> 4 <= param_size req ->
  known_client nv (get32 p 0) \/ is_root_alloc req p = true.
Proof.
  unfold gate_hclient, has_param. intros Hg HF Hh Hc -> Hs.
  rewrite (proj2 (Z.leb_le _ _)), HF, Hh in Hg by done.
  destruct (clients nv) as [|c l] eqn:Ec; [done |]. cbn [length] in Hg.
  rewrite (proj2 (Z.ltb_lt _ _)) in Hg by lia. rewrite !andb_true_l in Hg.
  destruct (is_root_alloc req p); [by right | left]. cbn [negb] in Hg. rewrite andb_true_l in Hg.
  apply known_client_test. rewrite Ec. by destruct (_ && _) eqn:E in Hg.
Qed.

(** What the checks admit, written out. *)
Record admitted (nv : device) (req : request) (param : option bytes) : Prop := {
  ad_type : is_F req = true /\ nvkvm_fe_nr_allowed (nr req) = true \/
    graphics nv = true /\ ioc_type (cmd req) = type_d /\ nvkvm_drm_nr_allowed (nr req) = true \/
    graphics nv = true /\ cmd req = NVKVM_NVKMS_IOCTL_CMD /\
      exists p, param = Some p /\ 4 <= param_size req /\ nvkvm_nvkms_cmd_allowed (get32 p 0) = true;
  ad_heap : is_F req = true -> nr req = 0x4a -> exists p, param = Some p /\ 12 <= param_size req /\ get32 p 8 = 2;
  ad_class : forall p, is_F req = true -> nr req = NV_ESC_RM_ALLOC -> param = Some p -> 16 <= param_size req ->
    nvkvm_alloc_class_allowed (get32 p 12) = true;
  ad_ctrl : forall p, is_F req = true -> nr req = NV_ESC_RM_CONTROL -> param = Some p -> 12 <= param_size req ->
    nvkvm_ctrl_cmd_allowed (get32 p 8) = true /\ aux_size req <= 2 ^ 20;
  ad_dup : forall p, is_F req = true -> nr req = NV_ESC_RM_DUP_OBJECT -> param = Some p -> 16 <= param_size req ->
    get32 p 12 = 0 \/ get32 p 12 = 2 ^ 32 - 1 \/ get32 p 12 ∈ clients nv;
  ad_client : forall p, is_F req = true -> hclient_at_0 (nr req) = true -> clients nv <> [] ->
    param = Some p -> 4 <= param_size req ->
    get32 p 0 = 0 \/ get32 p 0 = 2 ^ 32 - 1 \/ get32 p 0 ∈ clients nv \/ is_root_alloc req p = true
}.

Lemma known_client_false nv hc :
  known_client nv hc ->
  negb (hc =? 0) && negb (hc =? 2 ^ 32 - 1) && negb (nvkvm_client_allow_has hc (clients nv)) = false.
Proof.
  intros [->|[->|H]]; [done | done |]. unfold nvkvm_client_allow_has.
  by rewrite (proj2 (listed_spec _ _) H), andb_false_r.
Qed.

Lemma has_param_inv req param n p : has_param req param n = Some p -> param = Some p /\ n <= param_size req.
Proof. unfold has_param. destruct param; [|done]. destruct (n <=? _) eqn:E; [|done]. nv_bool. by intros [= ->]. Qed.

(** Each check passes what is admitted. *)
Lemma gate_type_F nv req param : is_F req = true -> gate_type nv req param = None.
Proof.
  intros HF. unfold gate_type. rewrite HF. unfold is_F in HF. apply Z.eqb_eq in HF.
  rewrite (proj2 (Z.eqb_neq (ioc_type (cmd req)) type_d)) by (rewrite HF; done).
  rewrite (proj2 (Z.eqb_neq (cmd req) NVKVM_NVKMS_IOCTL_CMD)).
  - by destruct (graphics nv).
  - intros E. rewrite E in HF. discriminate HF.
Qed.

Lemma gate_type_admits nv req param : admitted nv req param -> gate_type nv req param = None.
Proof.
  intros H. destruct (ad_type _ _ _ H) as [[HF _]|[(Hg & Ht & Hn)|(Hg & Hc & p & -> & Hs & Hn)]].
  - by apply gate_type_F.
  - unfold gate_type. rewrite Hg, Ht, Hn. done.
  - unfold gate_type. rewrite Hg, Hc. unfold has_param. rewrite (proj2 (Z.leb_le _ _) Hs), Hn. done.
Qed.

Lemma gate_frontend_admits nv req param : admitted nv req param -> gate_frontend req param = None.
Proof.
  intros H. unfold gate_frontend. destruct (is_F req) eqn:HF; [|done].
  assert (nvkvm_fe_nr_allowed (nr req) = true) as ->.
  { unfold is_F in HF. apply Z.eqb_eq in HF.
    destruct (ad_type _ _ _ H) as [[_ ?]|[(_ & E & _)|(_ & E & _)]]; [done | |]; rewrite E in HF; discriminate HF. }
  cbn [negb]. destruct (nr req =? 0x4a) eqn:E4; nv_bool.
  - destruct (ad_heap _ _ _ H HF E4) as (p & -> & Hs & Hp). unfold has_param.
    rewrite (proj2 (Z.leb_le _ _) Hs), Hp, E4. done.
  - cbn [andb]. destruct (nr req =? NV_ESC_RM_ALLOC) eqn:E5; [|done]. nv_bool.
    destruct (has_param req param 16) as [p|] eqn:E; [|done]. apply has_param_inv in E as [-> Hs].
    by rewrite (ad_class _ _ _ H p).
Qed.

Lemma rm_gates_admits nv req param : admitted nv req param -> rm_gates nv req param = None.
Proof.
  intros H. unfold rm_gates. rewrite (gate_type_admits _ _ _ H), (gate_frontend_admits _ _ _ H).
  assert (gate_ctrl req param = None) as ->.
  { unfold gate_ctrl. destruct (_ && _) eqn:E; [|done]. nv_bool. destruct (has_param _ _ _) as [p|] eqn:Ep; [|done].
    apply has_param_inv in Ep as [-> Hs]. destruct (ad_ctrl _ _ _ H p) as [-> Ha]; try done.
    by rewrite (proj2 (Z.ltb_ge _ _) Ha). }
  assert (gate_dup nv req param = None) as ->.
  { unfold gate_dup. destruct (_ && _) eqn:E; [|done]. nv_bool. destruct (has_param _ _ _) as [p|] eqn:Ep; [|done].
    apply has_param_inv in Ep as [-> Hs]. rewrite known_client_false; [done |]. by apply (ad_dup _ _ _ H p). }
  unfold gate_hclient. destruct (has_param req param 4) as [p|] eqn:Ep; [|done]. apply has_param_inv in Ep as [-> Hs].
  destruct (is_F req && _ && _) eqn:E; [|done]. nv_bool. destruct (is_root_alloc req p) eqn:Er; [done |].
  cbn [negb]. rewrite andb_true_l, known_client_false; [done |].
  destruct (ad_client _ _ _ H p) as [?|[?|[?|?]]]; unfold known_client; try done; auto; [|congruence].
  intros E0. rewrite E0 in *. cbn in *. lia.
Qed.

Lemma rm_gates_exact nv req param : rm_gates nv req param = None <-> admitted nv req param.
Proof.
  split; [|apply rm_gates_admits].
  intros Hg. apply first_deny_None in Hg. repeat (apply Forall_cons in Hg as [? Hg]). split.
  - destruct (gate_type_None nv req param) as [HF|[?|?]]; [done | | auto ..]. left. split; [done |].
    destruct (gate_frontend_None req param) as [Hnr _]; [assumption .. | exact Hnr].
  - intros HF. destruct (gate_frontend_None req param) as (_ & H4a & _); done.
  - intros p HF Hn Hp Hs. destruct (gate_frontend_None req param) as (_ & _ & Hal); [done .. |]. by apply Hal.
  - intros. by apply (gate_ctrl_None req param p).
  - intros. by apply (gate_dup_None nv req param p).
  - intros p ? ? ? ? ?. destruct (gate_hclient_None nv req param p) as [[?|[?|?]]|?]; auto.
Qed.

(** The handle is an open descriptor of the UVM device. *)
Definition to_uvm (nv : device) (req : request) : Prop :=
  exists h, nvkvm_handle_get (handle_id req) (handles nv) = Some h /\ hd_dev_id h = NVKVM_DEV_UVM /\ 0 <= hd_fd h.

Lemma handler_rm nv req param aux :
  ~ to_uvm nv req -> rm_gates nv req param = None ->
  handler nv req param aux = rm_forward isolate_ioctl host_pid pid_mem nv req param aux.
Proof.
  intros Hu Hg. unfold nvkvm_req_ioctl_on_isolate. rewrite Hg.
  destruct (nvkvm_handle_get _ _) as [h|] eqn:E; [|done]. destruct (_ && _) eqn:Eu; [|done].
  nv_bool. destruct Hu. by exists h.
Qed.

Lemma iso_call_not_uvm nv req param aux q rest :
  o_calls (handler nv req param aux) = IsoCall q :: rest -> ~ to_uvm nv req.
Proof.
  intros Hc (h & Hh & Hd & Hf). unfold nvkvm_req_ioctl_on_isolate in Hc.
  rewrite Hh, Hd, (proj2 (Z.leb_le _ _) Hf) in Hc. by apply uvm_branch_calls in Hc.
Qed.


(** ** The set of clients *)

Definition clients_ok (l : list Z) : Prop :=
  NoDup l /\ Z.of_nat (length l) <= NVKVM_CLIENT_ALLOWLIST_MAX /\
  Forall (fun c => c <> 0 /\ c <> 2 ^ 32 - 1) l.

Lemma client_add_spec c l :
  clients_ok l ->
  clients_ok (nvkvm_client_allow_add c l) /\ l `prefix_of` nvkvm_client_allow_add c l /\
  forall x, x ∈ nvkvm_client_allow_add c l -> x ∈ l \/ x = c.
Proof.
  intros Hok. assert (clients_ok l /\ l `prefix_of` l /\ forall x, x ∈ l -> x ∈ l \/ x = c) as Hsame by auto.
  destruct Hok as (Hd & Hlen & Hf). unfold nvkvm_client_allow_add.
  destruct ((c =? 0) || (c =? 2 ^ 32 - 1)) eqn:E0; [done |].
  destruct (listed c l) eqn:El; [done |].
  destruct (_ <? _) eqn:En; [|done]. nv_bool. split; [unfold clients_ok |]; split_and!.
  - apply NoDup_app. split_and!; [done | | apply NoDup_singleton].
    intros x Hx ->%list_elem_of_singleton. apply listed_spec in Hx. congruence.
  - rewrite length_app. simpl. lia.
  - apply Forall_app. split; [done |]. by repeat constructor.
  - by apply prefix_app_r.
  - intros x [?|?%list_elem_of_singleton]%elem_of_app; auto.
Qed.

(** Only a forwarded request touches the set of clients. *)
Lemma clients_cases nv req param aux :
  clients (o_dev (handler nv req param aux)) = clients nv \/
  rm_gates nv req param = None /\
  handler nv req param aux = rm_forward isolate_ioctl host_pid pid_mem nv req param aux.
Proof.
  unfold nvkvm_req_ioctl_on_isolate.
  assert (clients (o_dev (uvm_branch uvm_ioctl dup nv req param aux)) = clients nv) as Hu.
  { unfold uvm_branch. destruct (nvkvm_uvm_lookup _); [|done]. destruct (_ || _); [done |].
    destruct (uvm_va_gate _ _ _ _); [done |]. unfold uvm_run.
    destruct (cmd req =? 0x30000001); destruct (fd_swaps _ _ _ _), (nvkvm_handle_acquire_fd _ _ _);
      destruct (_ <? 0); try done; by destruct (uvm_ioctl _ _ _) as [[] ?]. }
  destruct (nvkvm_handle_get _ _) as [h|]; [destruct (_ && _); [by left |] |];
    (destruct (rm_gates _ _ _); [by left | by right]).
Qed.

(** [client_set_grows]: the set of clients of the VM never holds duplicates, the
    null handle or the all-ones handle, never exceeds 8192 entries and never
    shrinks; and a client enters it only through a request that was forwarded
    and that the driver completed successfully, as the client the answer starts
    with or as the new object of a root-client allocation. *)
Theorem client_set_grows nv req param aux :
  clients_ok (clients nv) ->
  let o := handler nv req param aux in
  clients_ok (clients (o_dev o)) /\ clients nv `prefix_of` clients (o_dev o) /\
  forall c, c ∈ clients (o_dev o) -> c ∈ clients nv \/
    exists q rest p, o_calls o = IsoCall q :: rest /\ is_F req = true /\
      rp_ret (isolate_ioctl q) = 0 /\ rp_nvstatus (isolate_ioctl q) = 0 /\
      rp_param (isolate_ioctl q) = Some p /\
      (c = get32 p 0 \/ c = get32 p 8 /\ nr req = NV_ESC_RM_ALLOC /\ root_class (get32 p 12) = true).
Proof.
  intros Hok o. destruct (clients_cases nv req param aux) as [E|[_ E]]; fold o in E.
  { rewrite E. auto. }
  rewrite E. unfold rm_forward. cbn [o_dev o_calls clients with_clients].
  set (q := IsoReq _ _ _ _ _ _ _ _). unfold record_clients.
  destruct (_ && is_F req) eqn:Es; [|by auto]. nv_bool. unfold has_param.
  destruct (rp_param (isolate_ioctl q)) as [p|] eqn:Ep; [|by auto].
  destruct (4 <=? param_size req); [|by auto]. destruct (_ || (nr req =? 0x35)); [|by auto].
  destruct (client_add_spec (get32 p 0) (clients nv) Hok) as (Hok1 & Hp1 & Hn1).
  destruct ((nr req =? NV_ESC_RM_ALLOC) && _ && _) eqn:Ea.
  - nv_bool. destruct (client_add_spec (get32 p 8) _ Hok1) as (Hok2 & Hp2 & Hn2).
    split_and!; [done | by etrans |]. intros c [[?|?]%Hn1|?]%Hn2; [by left | right .. ];
      eexists q, _, p; split_and!; auto.
  - split_and!; [done | done |]. intros c [?|?]%Hn1; [by left | right]. eexists q, _, p; split_and!; auto.
Qed.

(** ** GET_PID_INFO *)

Lemma pid_off_val i : 0 <= i <= 200 -> pid_off i = 8 + 72 * i.
Proof. intros. unfold pid_off, NVKVM_PIDINFO_STRIDE. rewrite !u32_small; rewrite ?u32_small; lia. Qed.

(** What a pid field [v] of the guest may become. *)
Definition checked_pid (v pid : Z) : Prop :=
  pid = 0 \/
  Z.land v 0x80000000 <> 0 /\ 0 < host_pid (Z.land v 0x7fffffff) /\ pid = u32 (host_pid (Z.land v 0x7fffffff)).

Record pid_spec (i n size : Z) (aux aux' : bytes) (m : Z) : Prop := {
  ps_le : 0 <= m <= n;
  ps_stop : m < n -> size < 8 + 72 * (i + m) + 72;
  ps_in : forall k, i <= k < i + m -> 8 + 72 * k + 72 <= size /\
          checked_pid (get32 aux (8 + 72 * k)) (get32 aux' (8 + 72 * k));
  ps_frame : forall j, (forall k, i <= k < i + m -> ~ (8 + 72 * k <= j < 8 + 72 * k + 4)) ->
             get8 aux' j = get8 aux j
}.

Lemma pid_loop_spec n i size aux :
  0 <= i -> i + Z.of_nat n <= 200 ->
  let '(aux', isos) := pid_loop host_pid n i size aux in
  pid_spec i (Z.of_nat n) size aux aux' (Z.of_nat (length isos)).
Proof.
  revert i aux. induction n as [|n IH]; intros i aux Hi Hn; cbn [pid_loop].
  { split; cbn [length]; try lia; try done. }
  rewrite pid_off_val by lia. unfold NVKVM_PIDINFO_STRIDE.
  destruct (size <? 8 + 72 * i + 72) eqn:Es; nv_bool.
  { split; cbn [length]; try lia; try done. }
  set (v := get32 aux (8 + 72 * i)). set (known := negb _ && _).
  set (pid := if known then u32 (host_pid (Z.land v 0x7fffffff)) else 0).
  specialize (IH (i + 1) (put32 aux (8 + 72 * i) pid) ltac:(lia) ltac:(lia)).
  destruct (pid_loop _ _ _ _ _) as [aux' isos]. destruct IH as [P1 P2 P3 P4]. split; cbn [length].
  - lia.
  - intros. pose proof (P2 ltac:(lia)). lia.
  - intros k Hk. destruct (decide (k = i)) as [->|].
    + split; [lia |]. rewrite (agree_get32 aux' (put32 aux (8 + 72 * i) pid) (8 + 72 * i) (8 + 72 * i + 4)).
      * rewrite get32_put32. unfold checked_pid, pid. fold v. destruct known eqn:Ek; [right | by left].
        unfold known in Ek. nv_bool. split_and!; [done | done |]. apply u32_small, u32_range.
      * intros j Hj. apply P4. intros k ?. lia.
      * lia.
      * lia.
    + destruct (P3 k ltac:(lia)) as [Hs Hp]. split; [done |]. by rewrite get32_put32_ne in Hp by lia.
  - intros j Hj. rewrite P4 by (intros; apply Hj; lia). apply get8_put32_ne. apply Hj. lia.
Qed.

(** The number of entries the driver may read from the request. *)
Definition pid_count (a : bytes) : Z := Z.min (get32 a 0) 200.

Lemma pid_prepare_spec req p a :
  is_F req = true -> nr req = NV_ESC_RM_CONTROL -> 12 <= param_size req -> get32 p 8 = 0x2080018e ->
  80 <= aux_size req ->
  exists a' isos, pid_prepare host_pid req (Some p) (Some a) = Some (a', isos) /\
    pid_spec 0 (pid_count a) (aux_size req) a a' (Z.of_nat (length isos)).
Proof.
  intros HF Hn Hp Hc Ha. unfold pid_prepare, has_param, NVKVM_PIDINFO_STRIDE.
  rewrite HF, Hn, Z.eqb_refl, (proj2 (Z.leb_le _ _)), (proj2 (Z.leb_le _ _)), Hc by lia.
  cbn [andb]. rewrite Z.eqb_refl. fold (pid_count a).
  assert (0 <= pid_count a <= 200) by (unfold pid_count; pose proof (get32_range a 0); lia).
  pose proof (pid_loop_spec (Z.to_nat (pid_count a)) 0 (aux_size req) a ltac:(lia) ltac:(lia)) as Hs.
  destruct (pid_loop _ _ _ _ _) as [a' isos]. rewrite Z2Nat.id in Hs by lia. by eexists _, _.
Qed.

(** [pid_info_checked]: in a forwarded GET_PID_INFO request every entry that fits
    into the data carries 0 or the host pid of an isolate of this VM the guest
    named, and nothing else of the data changes.  An entry of which only the
    first bytes fit keeps the pid of the guest, and so does every entry when the
    data is shorter than one entry. *)
Theorem pid_info_checked nv req p a q rest :
  is_F req = true -> nr req = NV_ESC_RM_CONTROL -> 12 <= param_size req -> get32 p 8 = 0x2080018e ->
  o_calls (handler nv req (Some p) (Some a)) = IsoCall q :: rest ->
  (80 <= aux_size req -> exists a', q_aux q = Some a' /\
     (forall k, 0 <= k < pid_count a -> 8 + 72 * k + 72 <= aux_size req ->
        checked_pid (get32 a (8 + 72 * k)) (get32 a' (8 + 72 * k))) /\
     (forall k, 0 <= k < pid_count a -> aux_size req < 8 + 72 * k + 72 ->
        get32 a' (8 + 72 * k) = get32 a (8 + 72 * k)) /\
     (forall j, (forall k, 0 <= k < 200 -> ~ (8 + 72 * k <= j < 8 + 72 * k + 4)) ->
        get8 a' j = get8 a j)) /\
  (aux_size req < 80 -> q_aux q = Some a).
Proof.
  intros HF Hn Hp Hc Hcall. destruct (iso_call_inv _ _ _ _ _ _ Hcall) as [_ Ho]. rewrite Ho in Hcall.
  unfold rm_forward in Hcall. cbn [o_calls] in Hcall. injection Hcall as <- _. cbn [q_aux]. split.
  - intros Ha. destruct (pid_prepare_spec req p a HF Hn Hp Hc Ha) as (a' & isos & -> & [P1 P2 P3 P4]).
    assert (pid_count a <= 200) by (unfold pid_count; lia).
    set (m := Z.of_nat (length isos)) in *. exists a'. split; [done |]. split_and!.
    + intros k Hk Hfit. apply P3. destruct (decide (m < pid_count a)) as [Hm|]; [|lia].
      pose proof (P2 Hm). lia.
    + intros k Hk Hfit. apply (agree_get32 _ _ (8 + 72 * k) (8 + 72 * k + 4)); [|lia ..].
      intros j Hj. apply P4. intros k' Hk' Hj'. destruct (P3 k' ltac:(lia)). lia.
    + intros j Hj. apply P4. intros k Hk. apply Hj. lia.
  - intros Ha. unfold pid_prepare, NVKVM_PIDINFO_STRIDE. rewrite (proj2 (Z.leb_gt _ (aux_size req))) by lia.
    by rewrite andb_false_r.
Qed.

Lemma gate_hclient_open nv req p :
  known_client nv (get32 p 0) \/ clients nv = [] -> gate_hclient nv req (Some p) = None.
Proof.
  intros Hk. unfold gate_hclient, has_param. destruct (4 <=? _); [|done].
  destruct (clients nv) as [|c l] eqn:Ec; [by rewrite andb_false_r |].
  destruct (is_F req && _ && _); [|done]. destruct Hk as [[E|[E|E]]|]; [| | |done].
  - by rewrite E, andb_false_r.
  - by rewrite E, andb_false_r.
  - rewrite Ec in E. unfold nvkvm_client_allow_has. rewrite (proj2 (listed_spec _ _) E).
    by rewrite andb_false_r.
Qed.

(** The gates on an RM command that is no heap control, allocation or
    duplication. *)
Lemma rm_gates_open nv req p :
  is_F req = true -> known_client nv (get32 p 0) \/ clients nv = [] ->
  nr req = NV_ESC_RM_CONTROL /\ param_size req < 12 \/ nr req = NV_ESC_RM_ALLOC /\ param_size req < 16 \/
  nr req = NV_ESC_RM_FREE ->
  rm_gates nv req (Some p) = None.
Proof.
  intros HF Hk Hn. unfold rm_gates. rewrite gate_type_F, gate_hclient_open by done.
  unfold gate_frontend, gate_ctrl, gate_dup, has_param. rewrite HF.
  destruct Hn as [[-> Hs]|[[-> Hs]| ->]]; [| |done];
    rewrite (proj2 (Z.leb_gt _ (param_size req)) Hs); done.
Qed.

(** [gate_fail_open]: two checks do not apply to short parameters: a control
    request with fewer than 12 bytes and an allocation with fewer than 16 are
    forwarded without a test of the control code or of the class.  And as long
    as the VM has no client, a request naming any client is forwarded, and
    becomes the VM's own client when the driver accepts it. *)
Theorem gate_fail_open nv req p aux :
  (forall h, nvkvm_handle_get (handle_id req) (handles nv) = Some h -> hd_dev_id h <> NVKVM_DEV_UVM) ->
  is_F req = true -> known_client nv (get32 p 0) \/ clients nv = [] ->
  let o := handler nv req (Some p) aux in
  (nr req = NV_ESC_RM_CONTROL /\ param_size req < 12 \/ nr req = NV_ESC_RM_ALLOC /\ param_size req < 16 ->
   exists q rest, o_calls o = IsoCall q :: rest /\ q_param q = Some p) /\
  (nr req = NV_ESC_RM_FREE -> 4 <= param_size req -> clients nv = [] ->
   get32 p 0 <> 0 -> get32 p 0 <> 2 ^ 32 - 1 ->
   exists q rest, o_calls o = IsoCall q :: rest /\ q_param q = Some p /\
     (rp_ret (isolate_ioctl q) = 0 -> rp_nvstatus (isolate_ioctl q) = 0 ->
      rp_param (isolate_ioctl q) = Some p -> clients (o_dev o) = [get32 p 0])).
Proof.
  intros Huvm HF Hk o.
  assert (rm_gates nv req (Some p) = None -> o = rm_forward isolate_ioctl host_pid pid_mem nv req (Some p) aux) as Hfwd.
  { intros Hg. unfold o, nvkvm_req_ioctl_on_isolate. rewrite Hg.
    destruct (nvkvm_handle_get _ _) as [h|]; [|done].
    by rewrite (proj2 (Z.eqb_neq _ _) (Huvm h eq_refl)). }
  split.
  - intros Hn. rewrite Hfwd by (apply rm_gates_open; tauto). unfold rm_forward. cbn [o_calls]. by eexists _, _.
  - intros Hn Hs Hc H0 H1. rewrite Hfwd by (apply rm_gates_open; tauto).
    unfold rm_forward. cbn [o_calls o_dev clients with_clients]. eexists _, _. split; [done |]. split; [done |].
    intros Hret Hst Hp. unfold record_clients, has_param.
    rewrite Hret, Hst, HF, Hp, Hn, Hc, (proj2 (Z.leb_le _ _) Hs).
    cbn -[get32 nvkvm_client_allow_add]. unfold nvkvm_client_allow_add.
    by rewrite (proj2 (Z.eqb_neq _ _) H0), (proj2 (Z.eqb_neq _ _) H1).
Qed.

End rm.

(** ** A concrete device *)

(** A driver and an isolate that accept everything, and one known isolate. *)
Definition ex_uvm (fd c : Z) (buf : bytes) : Z * Z * bytes := (0, 0, buf).
Definition ex_dup (fd : Z) : Z := 50.
Definition ex_iso (q : iso_req) : reply := Reply 0 0 0 (q_param q) (q_aux q).
Definition ex_host_pid (i : Z) : Z := if i =? 3 then 4242 else 0.
Definition ex_pid_mem (tgid index : Z) : Z * bool := (4096, true).

(** Handle 1 is a UVM descriptor, handle 2 a control descriptor. *)
Definition ex_handles : handle_table :=
  fst (nvkvm_handle_attach_fd 2 10 (fst (nvkvm_handle_alloc_pending 7 NVKVM_DEV_CTL
    (fst (nvkvm_handle_attach_fd 1 9 (fst (nvkvm_handle_alloc_pending 7 NVKVM_DEV_UVM
      nvkvm_handle_table_init))))))).

Definition ex_va : va_table := fst (uvm_va_add 1 0x200000000 0x4000 va_init).
Definition ex_dev : device := Dev ex_handles ex_va [] true None.

Definition ex_range : bytes := put64 (put64 ∅ 0 0x200001000) 8 0x1000.
Definition ex_validate : request := Req 3 1 72 24 0 0.

Lemma ex_va_refines : refines ex_va ({[Ent 1 0x200000000 0x4000]} ∪ ∅).
Proof.
  assert (range_ok 0x200000000 0x4000) as Hok by (unfold range_ok; split_and!; (reflexivity || lia)).
  pose proof (add_refines va_init ∅ 1 0x200000000 0x4000 refines_init ltac:(lia) Hok) as H.
  assert (snd (uvm_va_add 1 0x200000000 0x4000 va_init) = true) as Hs by (vm_compute; reflexivity).
  unfold ex_va. destruct (uvm_va_add 1 0x200000000 0x4000 va_init) as [t b]. simpl in *. by subst b.
Qed.

Abbreviation ex_handler := (nvkvm_req_ioctl_on_isolate ex_uvm ex_dup ex_iso ex_host_pid ex_pid_mem).

Lemma uvm_driver_calls_witness :
  exists e, e ∈ ({[Ent 1 0x200000000 0x4000]} ∪ ∅ : gset va_ent) /\ v_base e <= 0x200001000.
Proof.
  assert (UvmCall 50 72 (bounce_buffer ex_validate (Some ex_range)) 16384 ∈
          o_calls (ex_handler ex_dev ex_validate (Some ex_range) None)) as Hin.
  { assert (o_calls (ex_handler ex_dev ex_validate (Some ex_range) None) =
      [UvmCall 50 72 (bounce_buffer ex_validate (Some ex_range)) 16384]) as -> by (vm_compute; reflexivity).
    by apply list_elem_of_singleton. }
  destruct (uvm_driver_calls ex_uvm ex_dup ex_iso ex_host_pid ex_pid_mem ex_dev ex_validate (Some ex_range) None
    _ 50 72 _ 16384 ex_va_refines ltac:(simpl; lia) Hin) as (d & Hd & _ & _ & _ & _ & _ & Hr).
  injection Hd as <-.
  destruct (Hr (or_introl eq_refl)) as [[H0 _]|(e & He & _ & Hb & _)].
  - exfalso. vm_compute in H0. discriminate H0.
  - exists e. split; [exact He |]. etrans; [exact Hb |]. vm_compute. discriminate.
Defined.

(** Creating a range on an empty table. *)
Definition ex_create : request := Req 3 1 73 24 0 0.
Definition ex_dev0 : device := Dev ex_handles va_init [] true None.


Definition ex_mm_init : request := Req 3 1 75 8 0 0.
Definition ex_fd_param : bytes := put32 ∅ 0 2.

Lemma uvm_fd_field_witness :
  (exists p', o_param (uvm_run ex_uvm (fun _ => -1) ex_dev ex_mm_init (Desc 75 8 (0, NOFF) NOFF NVKVM_UVM_VA_NONE)
    None (Some ex_fd_param) None) = Some p' /\ get32 p' 0 = 10).
Proof.
  assert (nvkvm_handle_get (get32 ex_fd_param 0) (handles ex_dev) = Some (Hnd 2 1 10 7 0 0 false true)) as Hh
    by (vm_compute; reflexivity).
  assert (get32 ex_fd_param 0 = 2) as Hp by (vm_compute; reflexivity).
  assert (nvkvm_handle_acquire_fd (fun _ => -1) 1 (handles ex_dev) = (-1, Some 1)) as Ha by (vm_compute; reflexivity).
  pose proof (uvm_fd_field ex_uvm (fun _ => -1) ex_dev ex_mm_init (Desc 75 8 (0, NOFF) NOFF NVKVM_UVM_VA_NONE)
    None ex_fd_param None 0 (-1) (Some 1) eq_refl eq_refl ltac:(discriminate) ltac:(lia) ltac:(simpl; lia)
    ltac:(rewrite Hp; lia) ltac:(rewrite Hp; lia) Ha) as H.
  rewrite Hh in H. apply H. simpl. lia.
Defined.

(** Allocating a client. *)
Definition ex_alloc : request := Req 3 2 0xc030462b 48 0 0.
Definition ex_alloc_param : bytes := put32 (put32 ∅ 8 0xc1d00007) 12 0x41.


Lemma client_set_grows_witness :
  clients_ok (clients (o_dev (ex_handler ex_dev ex_alloc (Some ex_alloc_param) None))).
Proof.
  apply (client_set_grows ex_uvm ex_dup ex_iso ex_host_pid ex_pid_mem ex_dev ex_alloc (Some ex_alloc_param) None).
  split; [constructor |]. split; [vm_compute; discriminate | constructor].
Defined.

(** A GET_PID_INFO request for isolate 3. *)
Definition ex_pid_req : request := Req 3 2 0xc020462a 32 160 0.
Definition ex_pid_param : bytes := put32 ∅ 8 0x2080018e.
Definition ex_pid_aux : bytes := put32 (put32 ∅ 0 1) 8 0x80000003.

Lemma pid_info_checked_witness :
  exists a', checked_pid ex_host_pid 0x80000003 (get32 a' 8).
Proof.
  pose (q := IsoReq 3 2 0xc020462a (Some ex_pid_param) 32 (Some (put32 ex_pid_aux 8 4242)) 160 0).
  assert (o_calls (ex_handler ex_dev ex_pid_req (Some ex_pid_param) (Some ex_pid_aux)) = [IsoCall q]) as Hc
    by (vm_compute; reflexivity).
  destruct (pid_info_checked ex_uvm ex_dup ex_iso ex_host_pid ex_pid_mem ex_dev ex_pid_req ex_pid_param ex_pid_aux
    q [] eq_refl eq_refl ltac:(simpl; lia) eq_refl Hc) as [H _].
  destruct H as (a' & _ & Hp & _); [simpl; lia |]. exists a'.
  apply (Hp 0); [vm_compute; split; [discriminate | reflexivity] | simpl; lia].
Defined.

Definition ex_free : request := Req 3 2 0xc0104629 16 0 0.
Definition ex_foreign : bytes := put32 ∅ 0 0xc1d00001.

Lemma gate_fail_open_witness :
  clients (o_dev (ex_handler ex_dev ex_free (Some ex_foreign) None)) = [0xc1d00001].
Proof.
  destruct (gate_fail_open ex_uvm ex_dup ex_iso ex_host_pid ex_pid_mem ex_dev ex_free ex_foreign None) as [_ H].
  - intros h Hh. vm_compute in Hh. injection Hh as <-. discriminate.
  - reflexivity.
  - right. reflexivity.
  - destruct H as (q & rest & Hc & Hp & H); [reflexivity | simpl; lia | reflexivity | vm_compute; discriminate .. |].
    apply H; [reflexivity .. | exact Hp].
Defined.

End Gate.
