(* ===== verification/GpaAlloc.v ===== *)
(** * What the GPA window promises to the mapping handlers

    The handlers that map GPU memory into the guest need one thing of the
    window: extents it hands out stay theirs, disjoint from all others, until
    they give them back.  [GpaAllocator] states that promise; the sparse window
    of [nvkvm_mmap_host.c] is an instance. *)

From S2P Require Import Prelude Extents KvmSlots GpaWindow.
Local Open Scope Z_scope.

(** [gpa_owns w l]: the extents of [l], as guest addresses, are handed out. *)
Class GpaAllocator (W : Type) := {
  gpa_alloc : Z -> W -> W * Z;
  gpa_free : Z -> Z -> W -> W;
  gpa_to_va : Z -> Z -> W -> Z;
  slot_release : Z -> W -> W;
  gpa_limit : W -> Z;
  gpa_owns : W -> list extent -> Prop;
  gpa_perm : forall w l l', gpa_owns w l -> l ≡ₚ l' -> gpa_owns w l';
  gpa_range : forall w l, gpa_owns w l -> 0 <= gpa_limit w <= 2 ^ 61 /\ gpa_limit w mod 4096 = 0;
  gpa_alloc_ok : forall w l size w' gpa,
    gpa_owns w l -> 0 < size <= 2 ^ 61 -> gpa_alloc size w = (w', gpa) ->
    gpa_limit w' = gpa_limit w /\
    (gpa = 0 /\ gpa_owns w' l \/ 0 < gpa /\ gpa_owns w' (Ext gpa (Sparse.page_round size) :: l));
  gpa_free_ok : forall w l gpa size,
    gpa_owns w (Ext gpa (Sparse.page_round size) :: l) ->
    gpa_limit (gpa_free gpa size w) = gpa_limit w /\ gpa_owns (gpa_free gpa size w) l;
  gpa_to_va_ok : forall w l gpa size,
    gpa_owns w (Ext gpa (Sparse.page_round size) :: l) -> 0 < size <= 2 ^ 61 -> size mod 4096 = 0 ->
    0 < gpa_to_va gpa size w < 2 ^ 64 - 1;
  gpa_disjoint : forall w e l e', gpa_owns w (e :: l) -> e' ∈ l -> disj e e'
}.

(** The order of the extents does not matter. *)
#[export] Instance gpa_owns_proper {W} `{GpaAllocator W} (w : W) : Proper ((≡ₚ) ==> iff) (gpa_owns w).
Proof. intros l l' HP. split; intros Ho; [by apply (gpa_perm w l) | by apply (gpa_perm w l')]. Qed.

(** ** The sparse window *)

Section sparse.
Import Sparse.
Context (kvm_vm_fd : Z) (kvm_set_region : Slots.kvm_mem_region -> option Z) (bar : option Z).
Hypothesis vm_fd_set : 0 <= kvm_vm_fd.
Hypothesis bar_fine : bar_ok bar.

Definition sparse_alloc (size : Z) (w : sparse_win * Slots.slot_pool) : (sparse_win * Slots.slot_pool) * Z :=
  nvkvm_sparse_gpa_alloc kvm_vm_fd kvm_set_region bar size (fst w) (snd w).

Definition shift (base : Z) (e : extent) : extent := Ext (base + e_off e) (e_len e).

(** The host buffer of the window lies below [2^63]. *)
Definition sparse_owns (w : sparse_win * Slots.slot_pool) (l : list extent) : Prop :=
  exists offs leak slots, l = shift (sparse_gpa_base (fst w)) <$> offs /\
    win_ok (fst w) offs leak /\ Slots.pool_inv (snd w) slots /\
    0 < sparse_vmm_va (fst w) < 2 ^ 63 /\ 0 <= sparse_size (fst w) <= 2 ^ 61.

Lemma sparse_owns_perm w l l' : sparse_owns w l -> l ≡ₚ l' -> sparse_owns w l'.
Proof.
  intros (offs & leak & slots & -> & Hok & Hp & Hva & Hsz) HP.
  symmetry in HP. apply Permutation_map_inv in HP as (offs' & -> & HP).
  exists offs', leak, slots. split_and!; try (done || lia). destruct Hok as [(Hpr & -> & ->)|Hi].
  - apply Permutation_nil_l in HP. subst offs'. by left.
  - right. destruct Hi as [W1 W2 W3 W4 W5 W6 W7]. split; try done; setoid_rewrite <- HP; done.
Qed.

Lemma alloc_pool_inv size s p s' p' gpa slots :
  Slots.pool_inv p slots -> nvkvm_sparse_gpa_alloc kvm_vm_fd kvm_set_region bar size s p = (s', p', gpa) ->
  (exists slots', Slots.pool_inv p' slots') /\ sparse_vmm_va s' = sparse_vmm_va s /\
  sparse_size s' = sparse_size s.
Proof.
  intros Hp. unfold nvkvm_sparse_gpa_alloc, nvkvm_sparse_ensure.
  assert (forall sz t t' o, sparse_carve sz t = (t', o) ->
            sparse_vmm_va t' = sparse_vmm_va t /\ sparse_size t' = sparse_size t) as Hc.
  { intros sz t t' o. unfold sparse_carve. repeat case_match; intros; simplify_eq/=; done. }
  destruct (sparse_vmm_va s =? 0); [intros [= <- <- _]; naive_solver |].
  destruct (0 <=? sparse_kvm_slot s).
  { destruct (_ =? 0); [intros [= <- <- _]; naive_solver |].
    destruct (sparse_carve _ _) as [t [o|]] eqn:E; intros [= <- <- _]; apply Hc in E; naive_solver. }
  destruct (_ && _); [intros [= <- <- _]; naive_solver |].
  destruct (Slots.kvm_add_memory_region _ _ _ _ _ _ _) as [p1 [slot|e]] eqn:Ek.
  - destruct (Slots.kvm_add_memory_region_inv _ _ _ _ _ _ _ _ _ _ Hp Ek) as [(? & ? & ?)|(_ & _ & Hp1)]; [lia |].
    destruct (_ =? 0); [intros [= <- <- _]; naive_solver |].
    destruct (sparse_carve _ _) as [t [o|]] eqn:E; intros [= <- <- _]; apply Hc in E; naive_solver.
  - intros [= <- <- _]. split; [|done].
    pose proof (Slots.kvm_add_memory_region_inv _ _ _ _ _ _ _ _ _ _ Hp Ek) as H. simpl in H. by exists slots.
Qed.

(** The base of the window changes only while nothing is handed out. *)
Lemma alloc_base size s p s' p' gpa offs leak slots :
  win_ok s offs leak -> Slots.pool_inv p slots -> 0 < size <= 2 ^ 61 ->
  nvkvm_sparse_gpa_alloc kvm_vm_fd kvm_set_region bar size s p = (s', p', gpa) ->
  offs = [] \/ sparse_gpa_base s' = sparse_gpa_base s.
Proof.
  intros [(_ & -> & _)|Hi] _ _; [by left |]. intros Ha. right. revert Ha.
  unfold nvkvm_sparse_gpa_alloc, nvkvm_sparse_ensure. destruct (wi_ptr _ _ _ Hi) as (_ & _ & Hsl).
  rewrite (proj2 (Z.leb_le _ _) Hsl). unfold sparse_carve. repeat case_match; intros; simplify_eq/=; done.
Qed.

Lemma sparse_alloc_owns w l size w' gpa :
  sparse_owns w l -> 0 < size <= 2 ^ 61 -> sparse_alloc size w = (w', gpa) ->
  sparse_size (fst w') = sparse_size (fst w) /\
  (gpa = 0 /\ sparse_owns w' l \/ 0 < gpa /\ sparse_owns w' (Ext gpa (page_round size) :: l)).
Proof.
  intros (offs & leak & slots & -> & Hok & Hp & Hva & Hsz) Hs Ha. destruct w as [s p], w' as [s' p']. simpl in *.
  unfold sparse_alloc in Ha. simpl in Ha.
  destruct (alloc_pool_inv _ _ _ _ _ _ _ Hp Ha) as ((slots' & Hp') & Hva' & Hsz'). split; [done |].
  pose proof (alloc_base _ _ _ _ _ _ _ _ _ Hok Hp Hs Ha) as Hbase.
  destruct (sparse_alloc_ok _ _ vm_fd_set _ _ _ _ _ _ _ _ _ _ Hok Hp bar_fine Hs Ha) as [[-> Hok']|[Hn Hi]].
  - left. split; [done |]. exists offs, leak, slots'. simpl. rewrite Hva', Hsz'. split_and!; try done; try lia.
    apply list_fmap_ext. intros i e He. destruct Hbase as [->| ->]; done.
  - right.
    pose proof (wi_base _ _ _ Hi) as Hb. pose proof (wi_good _ _ _ Hi) as Hg. rewrite !Forall_app, Forall_cons in Hg.
    destruct Hg as (_ & (Hg & _) & _). unfold good in Hg. simpl in Hg. split; [lia |].
    exists (Ext (gpa - sparse_gpa_base s') (page_round size) :: offs), leak, slots'. simpl. rewrite Hva', Hsz'.
    split_and!; try done; try lia; [|by right]. f_equal.
    + unfold shift. simpl. f_equal. lia.
    + apply list_fmap_ext. intros i e He. destruct Hbase as [->| ->]; done.
Qed.

Lemma sparse_free_owns w l gpa size :
  sparse_owns w (Ext gpa (page_round size) :: l) ->
  let w' := (nvkvm_sparse_gpa_free gpa size (fst w), snd w) in
  sparse_size (fst w') = sparse_size (fst w) /\ sparse_owns w' l.
Proof.
  intros (offs & leak & slots & Hl & Hok & Hp & Hva & Hsz). destruct w as [s p]. simpl in *.
  destruct offs as [|[off len] offs]; [done |]. simpl in Hl. injection Hl as Eg El ->.
  destruct Hok as [(_ & ? & _)|Hi]; [done |]. simpl in *. subst gpa. rewrite <- El in *.
  destruct (sparse_free_inv s offs leak off size Hi) as (leak' & Hi' & _).
  assert (sparse_size (nvkvm_sparse_gpa_free (sparse_gpa_base s + off) size s) = sparse_size s /\
    sparse_vmm_va (nvkvm_sparse_gpa_free (sparse_gpa_base s + off) size s) = sparse_vmm_va s /\
    sparse_gpa_base (nvkvm_sparse_gpa_free (sparse_gpa_base s + off) size s) = sparse_gpa_base s) as (E1 & E2 & E3).
  { unfold nvkvm_sparse_gpa_free. repeat case_match; done. }
  split; [done |]. exists offs, leak', slots. simpl. rewrite E1, E2, E3. split_and!; try done; [by right | lia ..].
Qed.

Lemma sparse_va_owns w l gpa size :
  sparse_owns w (Ext gpa (page_round size) :: l) -> 0 < size <= 2 ^ 61 -> size mod 4096 = 0 ->
  0 < nvkvm_gpa_to_vmm_va gpa size (fst w) < 2 ^ 64 - 1.
Proof.
  intros (offs & leak & slots & Hl & Hok & Hp & Hva & Hsz) Hs Hm. destruct w as [s p]. simpl in *.
  destruct offs as [|[off len] offs]; [done |]. simpl in Hl. injection Hl as -> El _.
  destruct Hok as [(_ & ? & _)|Hi]; [done |]. simpl in *.
  unfold page_round in El. rewrite page_round_id in El by lia. subst len.
  pose proof (wi_good _ _ _ Hi) as Hg. rewrite !Forall_app, Forall_cons in Hg.
  destruct Hg as (_ & (Hg & _) & _). unfold good, e_end in Hg. simpl in Hg.
  pose proof (wi_cur _ _ _ Hi). unfold nvkvm_gpa_to_vmm_va. rewrite (proj2 (Z.eqb_neq _ _)) by lia.
  rewrite (proj2 (Z.ltb_ge _ _)) by lia.
  replace (sparse_gpa_base s + off - sparse_gpa_base s) with off by lia. rewrite u64_small by lia.
  rewrite (proj2 (Z.leb_gt _ _)), (proj2 (Z.ltb_ge _ _)) by lia. simpl. lia.
Qed.

Lemma sparse_disj_owns w e l e' : sparse_owns w (e :: l) -> e' ∈ l -> disj e e'.
Proof.
  intros (offs & leak & slots & Hl & Hok & Hp & Hva & Hsz) He'. destruct w as [s p]. simpl in *.
  destruct offs as [|o offs]; [done |]. simpl in Hl. injection Hl as -> ->.
  apply list_elem_of_fmap in He' as (o' & -> & Ho').
  destruct Hok as [(_ & ? & _)|Hi]; [done |].
  assert (disj o o') as Hd.
  { apply (cover_disj o [] offs); [|done]. simpl. intros x. pose proof (wi_tile _ _ _ Hi x) as Ht. revert Ht. cov_norm.
    pose proof (cover_nonneg (sparse_free s) x). pose proof (cover_nonneg leak x).
    pose proof (cov1_range (Ext 0 (sparse_cur s)) x). lia. }
  intros x Hx%inside_spec. apply not_true_iff_false. intros Hx'%inside_spec.
  unfold shift, e_end in *. simpl in *. specialize (Hd (x - sparse_gpa_base s)).
  rewrite !inside_spec, <- not_true_iff_false, inside_spec in Hd. unfold e_end in Hd. apply Hd; lia.
Qed.

Lemma sparse_limit_owns w l : sparse_owns w l -> 0 <= sparse_size (fst w) <= 2 ^ 61 /\ sparse_size (fst w) mod 4096 = 0.
Proof.
  intros (offs & leak & slots & _ & Hok & _ & _ & Hsz). split; [done |].
  destruct Hok as [((-> & _) & _)|Hi]; [done | apply (wi_size _ _ _ Hi)].
Qed.

#[export] Instance SparseAllocator : GpaAllocator (sparse_win * Slots.slot_pool) := {|
  gpa_alloc := sparse_alloc;
  gpa_free gpa size w := (nvkvm_sparse_gpa_free gpa size (fst w), snd w);
  gpa_to_va gpa size w := nvkvm_gpa_to_vmm_va gpa size (fst w);
  slot_release slot w := (fst w, Slots.nvkvm_kvm_slot_release slot (snd w));
  gpa_limit w := sparse_size (fst w);
  gpa_owns := sparse_owns;
  gpa_perm := sparse_owns_perm;
  gpa_range := sparse_limit_owns;
  gpa_alloc_ok := sparse_alloc_owns;
  gpa_free_ok w l gpa size := sparse_free_owns w l gpa size;
  gpa_to_va_ok := sparse_va_owns;
  gpa_disjoint := sparse_disj_owns
|}.

End sparse.
