(* ===== verification/IsoMmap.v ===== *)
(** * Mappings of GPU memory into the guest
      ([src/qemu/nvkvm_isolate_handlers.c]: the token table, MMAP_ON_ISOLATE,
      MUNMAP_ON_ISOLATE, the reclaim on isolate death and REALIZE_UVM_MAPPING)

    A mapping takes an extent of the GPA window and an entry of the token table;
    the guest later names it by the token.  The window is any [GpaAllocator].
    What the handlers ask of the host and of the isolate is the list of
    [effect]s; the outcomes of those calls are arguments. *)

From S2P Require Import Prelude Extents KvmSlots GpaWindow GpaAlloc HandleTable.
Local Open Scope Z_scope.
Local Open Scope nv_scope.

Module IsoMmap.
Import HTab.

Definition NVKVM_ISO_MMAP_MAX : Z := 8192.
Definition NVKVM_IN_WINDOW_SLOT : Z := -2.
Definition MAP_FAILED : Z := 2 ^ 64 - 1.

Record entry := Entry {
  m_used : bool;
  m_stub_mirrored : bool;
  m_isolate_id : Z;
  m_gva : Z;
  m_qva : Z;
  m_len : Z;
  m_kvm_slot : Z;
  m_gpa : Z
}.

#[export] Instance Zeroed_entry : Zeroed entry := Entry false false 0 0 0 0 0 0.

Inductive effect :=
| MapDevice (va len prot fd off : Z)
| MapAnon (va len : Z)
| Munmap (va len : Z)
| KvmDelete (slot : Z)
| IsolateMmap (isolate_id handle_id gva len off prot flags : Z)
| IsolateMunmap (isolate_id gva len : Z).

(** [iso_mmap_tbl] and [iso_mmap_seq]. *)
Record tokens := Toks { tk_tbl : gmap Z entry; tk_seq : Z }.

Definition tokens_init : tokens := Toks ∅ 1.

Definition max_tokens : nat := Z.to_nat (NVKVM_ISO_MMAP_MAX - 1).
Arguments max_tokens : simpl never.

(** [iso_mmap_seq = (iso_mmap_seq % (NVKVM_ISO_MMAP_MAX - 1)) + 1]. *)
Definition next_token (s : Z) : Z := s mod (NVKVM_ISO_MMAP_MAX - 1) + 1.

Fixpoint token_loop (n : nat) (e : entry) (t : tokens) : tokens * Z :=
  match n with
  | O => (t, 0)
  | S n' =>
      let tok := tk_seq t in
      let t1 := Toks (tk_tbl t) (next_token tok) in
      if negb (m_used (tk_tbl t).[tok])
      then (Toks ((tk_tbl t).[tok <- e]) (next_token tok), tok)
      else token_loop n' e t1
  end.

Definition iso_mmap_alloc (isolate_id gva qva len kvm_slot gpa : Z) (stub_mirrored : bool) (t : tokens)
  : tokens * Z :=
  token_loop max_tokens (Entry true stub_mirrored isolate_id gva qva len kvm_slot gpa) t.

Definition unused (e : entry) : entry :=
  Entry false (m_stub_mirrored e) (m_isolate_id e) (m_gva e) (m_qva e) (m_len e) (m_kvm_slot e) (m_gpa e).

Definition iso_mmap_free (token : Z) (t : tokens) : tokens * option entry :=
  if (token =? 0) || (NVKVM_ISO_MMAP_MAX <=? token) then (t, None)
  else
    let e := (tk_tbl t).[token] in
    if negb (m_used e) then (t, None)
    else (Toks ((tk_tbl t).[token <- unused e]) (tk_seq t), Some e).

Section handlers.
Context {W : Type} `{GpaAllocator W} (kvm_vm_fd : Z).

Record maps := Maps { mp_tokens : tokens; mp_win : W }.

(** Giving the host side of a mapping back: in the window the anonymous backing
    is restored, elsewhere the memslot and the mapping are removed. *)
Definition release_backing (e : entry) (w : W) : W * list effect :=
  if m_kvm_slot e =? NVKVM_IN_WINDOW_SLOT
  then (w, if m_qva e =? 0 then [] else [MapAnon (m_qva e) (m_len e)])
  else
    let '(w1, eff) := if (0 <=? m_kvm_slot e) && (0 <=? kvm_vm_fd)
                      then (slot_release (m_kvm_slot e) w, [KvmDelete (m_kvm_slot e)]) else (w, []) in
    (w1, eff ++ if m_qva e =? 0 then [] else [Munmap (m_qva e) (m_len e)]).

(** Backing and extent of a detached entry. *)
Definition release_entry (e : entry) (w : W) : W * list effect :=
  let '(w1, eff) := release_backing e w in
  (if m_gpa e =? 0 then w1 else gpa_free (m_gpa e) (m_len e) w1, eff).

Record mmap_req := MmapReq {
  r_isolate_id : Z;
  r_handle_id : Z;
  r_gva : Z;
  r_offset : Z;
  r_length : Z;
  r_prot : Z;
  r_map_flags : Z
}.

Record mmap_resp := MmapResp { s_gpa_base : Z; s_length : Z; s_mmap_token : Z; s_status : Z }.

Definition mmap_fail (e : Z) : mmap_resp := MmapResp 0 0 0 e.

(** [PROT_READ | PROT_WRITE]. *)
Definition PROT_RW : Z := 3.

(** Placing the mapping in the window: the extent, its host address, and the
    device mapping for all handles but UVM ones.  [host_mmap] is the errno of the
    device [mmap], if it fails. *)
Definition place (host_mmap : option Z) (h : handle) (req : mmap_req) (prot len : Z) (w : W)
  : W * list effect * res (Z * Z) :=
  let '(w1, gpa) := gpa_alloc len w in
  let target := if gpa =? 0 then 0 else gpa_to_va gpa len w1 in
  if target =? 0 then (w1, [], Err ENOMEM)
  else if negb (hd_dev_id h =? NVKVM_DEV_UVM) then
    let dev := MapDevice target len prot (hd_fd h) (r_offset req) in
    match host_mmap with
    | Some e => (w1, [dev; MapAnon target len], Err e)
    | None => (w1, [dev], Ok (gpa, target))
    end
  else (w1, [], Ok (gpa, target)).

(** [iso_ret]: what the isolate answers to the mirror request. *)
Definition nvkvm_req_mmap_on_isolate (host_mmap : option Z) (iso_ret : Z) (handles : handle_table)
    (req : mmap_req) (st : maps) : maps * list effect * mmap_resp :=
  match nvkvm_handle_get (r_handle_id req) handles with
  | None => (st, [], mmap_fail EBADF)
  | Some h =>
      if hd_fd h <? 0 then (st, [], mmap_fail EBADF)
      else if (r_length req =? 0) || (gpa_limit (mp_win st) <? r_length req) then (st, [], mmap_fail EINVAL)
      else
        let len := mask_down (u64 (r_length req + 4095)) 4096 in
        let prot := Z.land (r_prot req) PROT_RW in
        if (len =? 0) || (gpa_limit (mp_win st) <? len) then (st, [], mmap_fail EINVAL)
        else
          match place host_mmap h req prot len (mp_win st) with
          | (w1, eff, Err e) => (Maps (mp_tokens st) w1, eff, mmap_fail e)
          | (w1, eff, Ok (gpa, qva)) =>
              let mirror := negb (hd_dev_id h =? NVKVM_DEV_UVM) in
              let eff1 := eff ++ if mirror
                then [IsolateMmap (r_isolate_id req) (r_handle_id req) (r_gva req) len (r_offset req) prot
                        (r_map_flags req)] else [] in
              let ret := if mirror then iso_ret else 0 in
              if ret <? 0
              then (Maps (mp_tokens st) w1, eff1 ++ [MapAnon qva len], mmap_fail (- ret))
              else
                match iso_mmap_alloc (r_isolate_id req) (r_gva req) qva len NVKVM_IN_WINDOW_SLOT gpa mirror
                        (mp_tokens st) with
                | (t1, token) =>
                    if token =? 0 then
                      let undo := if mirror then [IsolateMunmap (r_isolate_id req) (r_gva req) len] else [] in
                      (Maps t1 (if gpa =? 0 then w1 else gpa_free gpa len w1),
                       eff1 ++ undo ++ (if (qva =? MAP_FAILED) || (qva =? 0) then [] else [MapAnon qva len]),
                       mmap_fail ENOMEM)
                    else (Maps t1 w1, eff1, MmapResp gpa len token 0)
                end
          end
  end.

Definition nvkvm_req_munmap_on_isolate (token : Z) (st : maps) : maps * list effect * Z :=
  match iso_mmap_free token (mp_tokens st) with
  | (_, None) => (st, [], ENOENT)
  | (t1, Some e) =>
      let iso := if m_stub_mirrored e then [IsolateMunmap (m_isolate_id e) (m_gva e) (m_len e)] else [] in
      let '(w1, eff) := release_entry e (mp_win st) in
      (Maps t1 w1, iso ++ eff, 0)
  end.

(** One iteration of the reclaim loop; the count is [reaped]. *)
Definition reap_one (isolate_id i : Z) (s : maps * list effect * Z) : maps * list effect * Z :=
  let '(st, eff, n) := s in
  let e := (tk_tbl (mp_tokens st)).[i] in
  if negb (m_used e) || negb (m_isolate_id e =? isolate_id) then s
  else
    let '(w1, eff1) := release_entry e (mp_win st) in
    (Maps (Toks ((tk_tbl (mp_tokens st)).[i <- unused e]) (tk_seq (mp_tokens st))) w1, eff ++ eff1, n + 1).

Definition nvkvm_iso_mmap_reap_isolate (isolate_id : Z) (st : maps) : maps * list effect * Z :=
  sweep (reap_one isolate_id) 1 max_tokens (st, [], 0).

(** ** REALIZE_UVM_MAPPING *)

Record realize_req := RealizeReq {
  z_isolate_id : Z;
  z_mode : Z;
  z_gva : Z;
  z_length : Z;
  z_prot : Z;
  z_map_flags : Z;
  z_intent_size : Z
}.

(** The fields of the snapshot and of the semaphore-pool intent the handler
    looks at. *)
Record snapshot := Snap { n_gpus : Z; n_va_spaces : Z; n_range_groups : Z }.
Record intent := Intent { i_base : Z; i_length : Z }.

Record realize_resp := RealizeResp {
  y_gpa_base : Z;
  y_length : Z;
  y_token : Z;
  y_rm_status : Z;
  y_status : Z
}.

(** The answer of the stub: return value, mapped address, token and status. *)
Record stub_answer := Answer { a_ret : Z; a_host_va : Z; a_token : Z; a_rm_status : Z }.

Definition realize_fail (status rm_status : Z) : realize_resp := RealizeResp 0 0 0 rm_status status.

(** [(uint32_t)-e]. *)
Definition neg32 (e : Z) : Z := u32 (- e).

Definition NVKVM_UVM_REALIZE_MODE_SEM_POOL : Z := 1.
Definition SEM_POOL_SIZE : Z := 9248.

Definition realize_valid (req : realize_req) (snap : option snapshot) (it : option intent) : res unit :=
  match snap, it with
  | Some sn, Some i =>
      if (z_intent_size req =? 0) || (65536 <? z_intent_size req) then Err EINVAL
      else if (16 <? n_gpus sn) || (16 <? n_va_spaces sn) || (16 <? n_range_groups sn) then Err EINVAL
      else if z_mode req =? NVKVM_UVM_REALIZE_MODE_SEM_POOL then
        if negb (z_intent_size req =? SEM_POOL_SIZE) then Err EINVAL
        else if negb (i_length i =? z_length req) || negb (i_base i =? z_gva req) then Err EINVAL
        else if (z_length req =? 0) || (2 ^ 40 <? z_length req) || negb (Z.land (z_length req) 4095 =? 0)
        then Err EINVAL else Ok tt
      else Err ENOTSUP
  | _, _ => Err EINVAL
  end.

(** [MAP_SHARED] is 1 and [MAP_PRIVATE] 2. *)
Definition realize_prot (req : realize_req) : Z :=
  let p := Z.land (z_prot req) PROT_RW in if p =? 0 then PROT_RW else p.
Definition realize_flags (req : realize_req) : Z :=
  let f := Z.land (z_map_flags req) 3 in if f =? 0 then Z.lor f 1 else f.

(** [stub prot flags len]: what the stub answers. *)
Definition nvkvm_req_realize_uvm_mapping (stub : Z -> Z -> Z -> stub_answer) (req : realize_req)
    (snap : option snapshot) (it : option intent) (st : maps) : maps * realize_resp :=
  match realize_valid req snap it with
  | Err e => (st, realize_fail (neg32 e) 0)
  | Ok _ =>
      let len := z_length req in
      let '(w1, gpa) := gpa_alloc len (mp_win st) in
      if gpa =? 0 then (Maps (mp_tokens st) w1, realize_fail (neg32 ENOMEM) 0)
      else
        let a := stub (realize_prot req) (realize_flags req) len in
        if (a_ret a <? 0) || (a_host_va a =? 0)
        then (Maps (mp_tokens st) (gpa_free gpa len w1), realize_fail (neg32 (a_ret a)) (a_rm_status a))
        else if negb (a_rm_status a =? 0)
        then (Maps (mp_tokens st) (gpa_free gpa len w1), realize_fail (neg32 EIO) (a_rm_status a))
        else
          let '(t1, _) := iso_mmap_alloc (z_isolate_id req) gpa 0 len NVKVM_IN_WINDOW_SLOT gpa false
                            (mp_tokens st) in
          (Maps t1 w1, RealizeResp gpa len (a_token a) 0 0)
  end.

End handlers.

(** ** The token table *)

Lemma max_tokens_val : Z.of_nat max_tokens = 8191.
Proof. unfold max_tokens, NVKVM_ISO_MMAP_MAX. lia. Qed.

#[local] Opaque max_tokens.

(** The [j]-th token tried from [s]. *)
Definition nth_token (s j : Z) : Z := (s - 1 + j) mod 8191 + 1.

Lemma next_token_nth s j : nth_token (next_token s) j = nth_token s (j + 1).
Proof.
  unfold next_token, nth_token, NVKVM_ISO_MMAP_MAX. f_equal.
  change (8192 - 1) with 8191. replace (s mod 8191 + 1 - 1 + j) with (s mod 8191 + j) by lia.
  rewrite Zplus_mod_idemp_l. f_equal. lia.
Qed.

Lemma nth_token_0 s : 1 <= s <= 8191 -> nth_token s 0 = s.
Proof. intros. unfold nth_token. rewrite Z.add_0_r, Z.mod_small by lia. lia. Qed.

Lemma next_token_range s : 1 <= next_token s <= 8191.
Proof.
  unfold next_token, NVKVM_ISO_MMAP_MAX. change (8192 - 1) with 8191.
  pose proof (Z.mod_pos_bound s 8191). lia.
Qed.

Lemma token_loop_spec n e t t' tok :
  1 <= tk_seq t <= 8191 -> token_loop n e t = (t', tok) ->
  1 <= tk_seq t' <= 8191 /\
  (tok = 0 /\ tk_tbl t' = tk_tbl t /\
     (forall j, 0 <= j < Z.of_nat n -> m_used (tk_tbl t).[nth_token (tk_seq t) j] = true) \/
   1 <= tok <= 8191 /\ m_used (tk_tbl t).[tok] = false /\ tk_tbl t' = (tk_tbl t).[tok <- e]).
Proof.
  revert t. induction n as [|n IH]; intros t Hs; cbn [token_loop].
  { intros [= <- <-]. split; [done |]. left. split_and!; [done .. |]. intros; lia. }
  destruct (m_used (tk_tbl t).[tk_seq t]) eqn:Eu; cbn [negb].
  - intros Hl. apply IH in Hl; [|apply next_token_range]. cbn [tk_tbl tk_seq] in Hl.
    destruct Hl as [Hs' [(-> & Ht & Hj)|Hr]]; split; [done | left | done | by right].
    split_and!; [done .. |]. intros j Hj'. destruct (decide (j = 0)) as [->|]; [by rewrite nth_token_0 |].
    replace j with (j - 1 + 1) by lia. rewrite <- next_token_nth. apply Hj. lia.
  - intros [= <- <-]. split; [apply next_token_range |]. right. done.
Qed.

Lemma iso_mmap_alloc_spec iso gva qva len slot gpa mir t t' tok :
  1 <= tk_seq t <= 8191 -> iso_mmap_alloc iso gva qva len slot gpa mir t = (t', tok) ->
  1 <= tk_seq t' <= 8191 /\
  (tok = 0 /\ tk_tbl t' = tk_tbl t /\ (forall k, 1 <= k <= 8191 -> m_used (tk_tbl t).[k] = true) \/
   1 <= tok <= 8191 /\ m_used (tk_tbl t).[tok] = false /\
     tk_tbl t' = (tk_tbl t).[tok <- Entry true mir iso gva qva len slot gpa]).
Proof.
  intros Hs Hl. apply token_loop_spec in Hl as [Hs' [(-> & Ht & Hj)|Hr]]; [|split; [done | by right] | done].
  split; [done |]. left. split_and!; [done .. |]. intros k Hk.
  replace k with (nth_token (tk_seq t) ((k - tk_seq t) mod 8191)).
  - apply Hj. rewrite max_tokens_val. pose proof (Z.mod_pos_bound (k - tk_seq t) 8191). lia.
  - unfold nth_token. rewrite Zplus_mod_idemp_r. replace (tk_seq t - 1 + (k - tk_seq t)) with (k - 1) by lia.
    rewrite Z.mod_small by lia. lia.
Qed.

(** *** The extents of the entries in use *)

Definition used_map (tbl : gmap Z entry) : gmap Z entry := filter (fun p => m_used (snd p) = true) tbl.
Definition ext_of (e : entry) : extent := Ext (m_gpa e) (Sparse.page_round (m_len e)).
Definition extents (tbl : gmap Z entry) : list extent := (fun p => ext_of (snd p)) <$> map_to_list (used_map tbl).

Lemma used_map_lookup tbl k e : used_map tbl !! k = Some e <-> tbl.[k] = e /\ m_used e = true.
Proof.
  unfold used_map, aget. rewrite map_lookup_filter_Some. destruct (tbl !! k) as [e'|]; simpl.
  - split; [intros [[= ->] ?]; done | intros [-> ?]; done].
  - split; [by intros [? _] |]. intros [<- Hu]. discriminate Hu.
Qed.

Lemma used_map_None tbl k : used_map tbl !! k = None <-> m_used tbl.[k] = false.
Proof.
  rewrite eq_None_not_Some. unfold is_Some. setoid_rewrite used_map_lookup. split.
  - intros Hn. apply not_true_iff_false. intros Hu. apply Hn. by exists tbl.[k].
  - intros Hu (e & <- & Hu'). congruence.
Qed.

Lemma extents_insert tbl k e :
  m_used tbl.[k] = false -> m_used e = true -> extents (tbl.[k <- e]) ≡ₚ ext_of e :: extents tbl.
Proof.
  intros Hk He. unfold extents. assert (used_map (tbl.[k <- e]) = <[k := e]> (used_map tbl)) as ->.
  { unfold used_map. by rewrite map_filter_insert_True. }
  by rewrite (map_to_list_insert _ _ _ (proj2 (used_map_None tbl k) Hk)).
Qed.

Lemma extents_remove tbl k e :
  tbl.[k] = e -> m_used e = true -> extents tbl ≡ₚ ext_of e :: extents (tbl.[k <- unused e]).
Proof.
  intros Hk He. unfold extents. assert (used_map (tbl.[k <- unused e]) = delete k (used_map tbl)) as ->.
  { unfold used_map. rewrite map_filter_insert_False by done. apply map_filter_delete. }
  by rewrite <- (map_to_list_delete (used_map tbl) k e) by (by apply used_map_lookup).
Qed.

(** ** Runs *)

Section runs.
Context {W : Type} `{GpaAllocator W} (kvm_vm_fd : Z).

(** No token is free. *)
Definition table_full (t : tokens) : bool :=
  match scan (fun k => negb (m_used (tk_tbl t).[k])) 1 max_tokens with None => true | Some _ => false end.

Lemma table_full_spec t : (forall k, 1 <= k <= 8191 -> m_used (tk_tbl t).[k] = true) -> table_full t = true.
Proof.
  intros Hf. unfold table_full. rewrite (proj2 (scan_None _ _ _)); [done |].
  intros k Hk. rewrite max_tokens_val in Hk. rewrite Hf by lia. done.
Qed.

(** The second component counts the requests that may have lost an extent: the
    mappings the host or the isolate refused, and the realized mappings that found
    the token table full. *)
Inductive reach : maps -> Z -> Prop :=
| r_init w : gpa_owns w [] -> reach (Maps tokens_init w) 0
| r_mmap st n host_mmap iso_ret handles req st' eff resp :
    reach st n -> 0 <= r_length req ->
    nvkvm_req_mmap_on_isolate host_mmap iso_ret handles req st = (st', eff, resp) ->
    reach st' (if bool_decide (host_mmap = None) && (0 <=? iso_ret) then n else n + 1)
| r_munmap st n token st' eff status :
    reach st n -> 0 <= token ->
    nvkvm_req_munmap_on_isolate kvm_vm_fd token st = (st', eff, status) -> reach st' n
| r_reap st n iso st' eff k :
    reach st n -> nvkvm_iso_mmap_reap_isolate kvm_vm_fd iso st = (st', eff, k) -> reach st' n
| r_realize st n stub req snap it st' resp :
    reach st n -> 0 <= z_length req ->
    nvkvm_req_realize_uvm_mapping stub req snap it st = (st', resp) ->
    reach st' (if table_full (mp_tokens st) then n + 1 else n).

Record maps_inv (st : maps) (leaked : list extent) : Prop := {
  mi_seq : 1 <= tk_seq (mp_tokens st) <= 8191;
  mi_entry : forall k, m_used (tk_tbl (mp_tokens st)).[k] = true ->
    1 <= k <= 8191 /\ m_kvm_slot (tk_tbl (mp_tokens st)).[k] = NVKVM_IN_WINDOW_SLOT /\
    0 < m_gpa (tk_tbl (mp_tokens st)).[k];
  mi_owns : gpa_owns (mp_win st) (extents (tk_tbl (mp_tokens st)) ++ leaked)
}.

(** Recording an extent the window just handed out. *)
Lemma record_inv iso gva qva len gpa mir st w1 t1 tok leaked :
  maps_inv st leaked -> 0 < gpa ->
  gpa_owns w1 (Ext gpa (Sparse.page_round len) :: extents (tk_tbl (mp_tokens st)) ++ leaked) ->
  iso_mmap_alloc iso gva qva len NVKVM_IN_WINDOW_SLOT gpa mir (mp_tokens st) = (t1, tok) ->
  (tok = 0 /\ tk_tbl t1 = tk_tbl (mp_tokens st) /\ 1 <= tk_seq t1 <= 8191 /\
   (forall k, 1 <= k <= 8191 -> m_used (tk_tbl (mp_tokens st)).[k] = true)) \/
  (1 <= tok <= 8191 /\ m_used (tk_tbl (mp_tokens st)).[tok] = false /\
   tk_tbl t1 = (tk_tbl (mp_tokens st)).[tok <- Entry true mir iso gva qva len NVKVM_IN_WINDOW_SLOT gpa] /\
   maps_inv (Maps t1 w1) leaked).
Proof.
  intros [Hs He Ho] Hg Hw Ha. apply iso_mmap_alloc_spec in Ha as [Hs' [(-> & Ht & Hf)|(Hr & Hu & Ht)]]; [| |done].
  - left. done.
  - right. split_and!; try done; try lia. split; cbn [mp_tokens mp_win]; [done | |].
    + intros k. rewrite Ht, aget_set. case_decide; subst; simpl; [done | apply He].
    + rewrite Ht. eapply gpa_perm; [apply Hw |]. by rewrite extents_insert.
Qed.

(** Detaching an entry and giving its extent back. *)
Lemma detach_inv k e st leaked w1 eff :
  maps_inv st leaked -> (tk_tbl (mp_tokens st)).[k] = e -> m_used e = true ->
  release_entry kvm_vm_fd e (mp_win st) = (w1, eff) ->
  maps_inv (Maps (Toks ((tk_tbl (mp_tokens st)).[k <- unused e]) (tk_seq (mp_tokens st))) w1) leaked /\
  gpa_limit w1 = gpa_limit (mp_win st).
Proof.
  intros [Hs He Ho] Hk Hu Hr. destruct (He k) as (Hk1 & Hsl & Hg); [by rewrite Hk |]. rewrite Hk in Hsl, Hg.
  unfold release_entry, release_backing in Hr. rewrite Hsl, Z.eqb_refl in Hr.
  rewrite (proj2 (Z.eqb_neq _ _)) in Hr by lia. injection Hr as <- _.
  assert (gpa_owns (mp_win st) (ext_of e :: extents ((tk_tbl (mp_tokens st)).[k <- unused e]) ++ leaked)) as Hw.
  { eapply gpa_perm; [apply Ho |]. by rewrite (extents_remove _ _ _ Hk Hu). }
  apply gpa_free_ok in Hw as [Hl Hw]. split; [|done].
  split; cbn [mp_tokens mp_win tk_tbl tk_seq]; [done | | done].
  intros j. rewrite aget_set. case_decide; [done | apply He].
Qed.

Lemma place_spec host_mmap h req prot len w l w1 eff r :
  gpa_owns w l -> 0 < len <= 2 ^ 61 -> len mod 4096 = 0 ->
  place host_mmap h req prot len w = (w1, eff, r) ->
  match r with
  | Err e => exists lost, gpa_owns w1 (lost ++ l) /\
      Z.of_nat (length lost) <= if bool_decide (host_mmap = None) then 0 else 1
  | Ok (gpa, qva) => 0 < gpa /\ qva <> 0 /\ gpa_owns w1 (Ext gpa (Sparse.page_round len) :: l)
  end.
Proof.
  intros Ho Hl Hm. unfold place. destruct (gpa_alloc len w) as [w2 gpa] eqn:Ea.
  destruct (gpa_alloc_ok _ _ _ _ _ Ho Hl Ea) as [_ [[-> Ho']|[Hg Ho']]]; simpl.
  { intros [= <- _ <-]. exists []. split; [done |]. simpl. by case_bool_decide. }
  rewrite (proj2 (Z.eqb_neq gpa 0)) by lia. pose proof (gpa_to_va_ok _ _ _ _ Ho' Hl Hm) as Hva.
  rewrite (proj2 (Z.eqb_neq _ 0)) by lia. destruct (hd_dev_id h =? NVKVM_DEV_UVM); simpl.
  { intros [= <- _ <-]. split_and!; (done || lia). }
  destruct host_mmap as [e|]; intros [= <- _ <-]; [|split_and!; (done || lia)].
  exists [Ext gpa (Sparse.page_round len)]. done.
Qed.

Lemma mmap_inv st leaked host_mmap iso_ret handles req st' eff resp :
  maps_inv st leaked -> 0 <= r_length req ->
  nvkvm_req_mmap_on_isolate host_mmap iso_ret handles req st = (st', eff, resp) ->
  exists lost, maps_inv st' (lost ++ leaked) /\
    Z.of_nat (length lost) <= if bool_decide (host_mmap = None) && (0 <=? iso_ret) then 0 else 1.
Proof.
  intros Hi Hlen. pose proof Hi as [Hs He Ho]. pose proof (gpa_range _ _ Ho) as [Hlim Hlm].
  assert (forall x, exists lost, maps_inv st (lost ++ leaked) /\
    Z.of_nat (length lost) <= if x : bool then 0 else 1) as Hsame.
  { intros []; by exists []. }
  unfold nvkvm_req_mmap_on_isolate. destruct (nvkvm_handle_get _ _) as [h|]; [|by intros [= <- _ _]].
  destruct (hd_fd h <? 0); [by intros [= <- _ _] |].
  destruct ((r_length req =? 0) || _) eqn:El; [by intros [= <- _ _] |]. nv_bool.
  assert (Sparse.page_round (r_length req) = mask_down (u64 (r_length req + 4095)) 4096) as <- by done.
  destruct (Sparse.page_round_ge (r_length req)) as [Hge Hm]; [lia |].
  assert (Sparse.page_round (r_length req) <= gpa_limit (mp_win st)) as Hle
    by (apply Sparse.page_round_le; lia).
  set (len := Sparse.page_round (r_length req)) in *.
  rewrite (proj2 (Z.eqb_neq len 0)), (proj2 (Z.ltb_ge _ len)) by lia. simpl.
  destruct (place _ _ _ _ _ _) as [[w1 eff1] [[gpa qva]|e]] eqn:Ep;
    (eapply place_spec in Ep; [|done | lia | done]).
  - destruct Ep as (Hg & Hq & Hw). destruct ((if negb _ then iso_ret else 0) <? 0) eqn:Er.
    + intros [= <- _ _]. exists [Ext gpa (Sparse.page_round len)]. split.
      * split; cbn [mp_tokens mp_win]; [done .. |]. eapply gpa_perm; [apply Hw |]. solve_Permutation.
      * destruct (negb _); [|done]. rewrite (proj2 (Z.leb_gt 0 iso_ret)) by lia. by rewrite andb_false_r.
    + destruct (iso_mmap_alloc _ _ _ _ _ _ _ _) as [t1 tok] eqn:Ea.
      destruct (record_inv _ _ _ _ _ _ _ _ _ _ _ Hi Hg Hw Ea) as [(-> & Ht & Hs' & _)|(Ht & _ & _ & Hi')]; simpl.
      * intros [= <- _ _]. rewrite (proj2 (Z.eqb_neq gpa 0)) by lia. exists []. split; [|destruct (_ && _); simpl; lia].
        apply gpa_free_ok in Hw as [_ Hw]. split; cbn [mp_tokens mp_win]; [done | by rewrite Ht | by rewrite Ht].
      * rewrite (proj2 (Z.eqb_neq tok 0)) by lia. intros [= <- _ _]. exists []. split; [done | destruct (_ && _); simpl; lia].
  - destruct Ep as (lost & Hw & Hn). intros [= <- _ _]. exists lost. split.
    + split; cbn [mp_tokens mp_win]; [done .. |]. eapply gpa_perm; [apply Hw |]. solve_Permutation.
    + by destruct (bool_decide _), (0 <=? iso_ret); simpl; lia.
Qed.

Lemma munmap_inv st leaked token st' eff status :
  maps_inv st leaked -> nvkvm_req_munmap_on_isolate kvm_vm_fd token st = (st', eff, status) ->
  maps_inv st' leaked.
Proof.
  intros Hi. unfold nvkvm_req_munmap_on_isolate, iso_mmap_free.
  destruct (_ || _); [by intros [= <- _ _] |]. destruct (m_used _) eqn:Eu; simpl; [|by intros [= <- _ _]].
  destruct (release_entry _ _ _) as [w1 eff1] eqn:Er. intros [= <- _ _].
  by eapply (detach_inv token) in Er as [? _].
Qed.

(** The entries the reclaim of [iso] releases. *)
Definition doomed (iso : Z) (e : entry) : bool := m_used e && (m_isolate_id e =? iso).

Definition reaped_upto (iso : Z) (tbl0 : gmap Z entry) (k : Z) (tbl : gmap Z entry) : Prop :=
  forall j, tbl.[j] = if (1 <=? j) && (j <? k) && doomed iso tbl0.[j] then unused tbl0.[j] else tbl0.[j].

Lemma reap_spec st leaked iso st' eff n :
  maps_inv st leaked -> nvkvm_iso_mmap_reap_isolate kvm_vm_fd iso st = (st', eff, n) ->
  maps_inv st' leaked /\ reaped_upto iso (tk_tbl (mp_tokens st)) 8192 (tk_tbl (mp_tokens st')) /\
  n = tally (fun k => doomed iso (tk_tbl (mp_tokens st)).[k]) 1 max_tokens.
Proof.
  intros Hi Hr. unfold nvkvm_iso_mmap_reap_isolate in Hr.
  set (tbl0 := tk_tbl (mp_tokens st)) in *.
  pose (I := fun k (s : maps * list effect * Z) =>
    maps_inv (fst (fst s)) leaked /\ reaped_upto iso tbl0 k (tk_tbl (mp_tokens (fst (fst s)))) /\
    snd s + tally (fun j => doomed iso tbl0.[j]) k (Z.to_nat (8192 - k)) =
    tally (fun j => doomed iso tbl0.[j]) 1 max_tokens).
  assert (I (1 + Z.of_nat max_tokens) (st', eff, n)) as (Hi' & Hu & Hn).
  { rewrite <- Hr. apply (sweep_ind I).
    - split_and!; cbn [fst snd]; [done | | ].
      + intros j. rewrite (proj2 (andb_false_iff (1 <=? j) (j <? 1))) by lia. done.
      + by rewrite Z.add_0_l.
    - intros k [[t ef] m] Hk (HI & HR & HT). rewrite max_tokens_val in Hk. cbn [fst snd] in *. unfold reap_one.
      assert ((tk_tbl (mp_tokens t)).[k] = tbl0.[k]) as Hk0.
      { rewrite HR. rewrite (proj2 (Z.ltb_ge k k)) by lia. by rewrite andb_false_r. }
      replace (Z.to_nat (8192 - k)) with (S (Z.to_nat (8192 - (k + 1)))) in HT by lia. cbn [tally] in HT.
      assert (negb (m_used (tk_tbl (mp_tokens t)).[k]) || negb (m_isolate_id (tk_tbl (mp_tokens t)).[k] =? iso)
              = negb (doomed iso tbl0.[k])) as -> by (rewrite Hk0; unfold doomed; by rewrite negb_andb).
      assert (forall x, (1 <=? x) && (x <? k + 1) = (1 <=? x) && (x <? k) || (x =? k)) as Hx by (intros; lia).
      destruct (doomed iso tbl0.[k]) eqn:Ed; cbn [negb].
      + destruct (release_entry _ _ _) as [w1 eff1] eqn:Er. split_and!; cbn [fst snd mp_tokens tk_tbl].
        * eapply (detach_inv k) in Er as [? _]; [done .. |]. rewrite Hk0. unfold doomed in Ed. by nv_bool.
        * intros j. rewrite aget_set. rewrite Hx. case_decide as E; [subst j; by rewrite Z.eqb_refl, orb_true_r, Ed, Hk0 |].
          rewrite (proj2 (Z.eqb_neq j k)) by done. rewrite orb_false_r. apply HR.
        * lia.
      + split_and!; cbn [fst snd]; [done | | lia]. intros j. rewrite HR, Hx.
        destruct (decide (j = k)) as [->|]; [by rewrite Ed, !andb_false_r |].
        rewrite (proj2 (Z.eqb_neq j k)) by done. by rewrite orb_false_r. }
  rewrite max_tokens_val in *. cbn [fst snd] in *. split_and!; [done | done |].
  change (Z.to_nat (8192 - (1 + 8191))) with 0%nat in Hn. cbn [tally] in Hn. lia.
Qed.

Lemma realize_inv st leaked stub req snap it st' resp :
  maps_inv st leaked -> 0 <= z_length req ->
  nvkvm_req_realize_uvm_mapping stub req snap it st = (st', resp) ->
  exists lost, maps_inv st' (lost ++ leaked) /\
    Z.of_nat (length lost) <=
      if table_full (mp_tokens st) then 1 else 0.
Proof.
  intros Hi Hlen. pose proof Hi as [Hs He Ho]. unfold nvkvm_req_realize_uvm_mapping.
  assert (forall x, exists lost, maps_inv st (lost ++ leaked) /\
    Z.of_nat (length lost) <= if x : bool then 1 else 0) as Hsame.
  { intros []; by exists []. }
  destruct (realize_valid req snap it) as [[]|e] eqn:Ev; [|intros [= <- _]; apply Hsame].
  assert (0 < z_length req <= 2 ^ 61) as Hl.
  { unfold realize_valid in Ev. repeat case_match; simplify_eq; nv_bool; lia. }
  destruct (gpa_alloc _ _) as [w1 gpa] eqn:Ea.
  destruct (gpa_alloc_ok _ _ _ _ _ Ho Hl Ea) as [_ [[-> Ho']|[Hg Ho']]]; simpl.
  { intros [= <- _]. exists []. split; [done |]. case_match; simpl; lia. }
  rewrite (proj2 (Z.eqb_neq gpa 0)) by lia.
  pose proof (gpa_free_ok _ _ _ _ Ho') as [_ Hfree].
  destruct (_ || _); [intros [= <- _]; exists []; split; [done | case_match; simpl; lia] |].
  destruct (negb _); [intros [= <- _]; exists []; split; [done | case_match; simpl; lia] |].
  destruct (iso_mmap_alloc _ _ _ _ _ _ _ _) as [t1 tok] eqn:Et. intros [= <- _].
  destruct (record_inv _ _ _ _ _ _ _ _ _ _ _ Hi Hg Ho' Et) as [(-> & Ht & Hs' & Hf)|(_ & _ & _ & Hi')].
  - exists [Ext gpa (Sparse.page_round (z_length req))]. split.
    + split; cbn [mp_tokens mp_win]; [done | by rewrite Ht |]. rewrite Ht.
      eapply gpa_perm; [apply Ho' |]. solve_Permutation.
    + by rewrite table_full_spec.
  - exists []. split; [done |]. case_match; simpl; lia.
Qed.

Lemma mmap_reach_inv st n : reach st n -> exists leaked, maps_inv st leaked /\ Z.of_nat (length leaked) <= n.
Proof.
  induction 1 as [w Hw|st n hm ir hs req st' eff resp _ (lk & Hi & Hn) Hl Hm|st n tok st' eff status _ (lk & Hi & Hn) _ Hm
    |st n iso st' eff k _ (lk & Hi & Hn) Hm|st n stub req snap it st' resp _ (lk & Hi & Hn) Hl Hm].
  - exists []. split; [|done]. split; cbn; [lia | by intros k; rewrite aget_empty | done].
  - destruct (mmap_inv _ _ _ _ _ _ _ _ _ Hi Hl Hm) as (lost & Hi' & Hlost). exists (lost ++ lk). split; [done |].
    rewrite length_app. destruct (_ && _); lia.
  - exists lk. split; [by eapply munmap_inv | done].
  - exists lk. split; [by eapply reap_spec | done].
  - destruct (realize_inv _ _ _ _ _ _ _ _ Hi Hl Hm) as (lost & Hi' & Hlost). exists (lost ++ lk). split; [done |].
    rewrite length_app. case_match; lia.
Qed.

Lemma extents_elem tbl k : m_used tbl.[k] = true -> ext_of tbl.[k] ∈ extents tbl.
Proof.
  intros Hu. apply list_elem_of_fmap. exists (k, tbl.[k]). split; [done |].
  by apply elem_of_map_to_list, used_map_lookup.
Qed.

Lemma maps_disjoint st leaked i j :
  maps_inv st leaked -> i <> j ->
  m_used (tk_tbl (mp_tokens st)).[i] = true -> m_used (tk_tbl (mp_tokens st)).[j] = true ->
  disj (ext_of (tk_tbl (mp_tokens st)).[i]) (ext_of (tk_tbl (mp_tokens st)).[j]).
Proof.
  intros [Hs He Ho] Hij Hi Hj.
  assert (gpa_owns (mp_win st) (ext_of (tk_tbl (mp_tokens st)).[i] ::
    extents ((tk_tbl (mp_tokens st)).[i <- unused (tk_tbl (mp_tokens st)).[i]]) ++ leaked)) as Hw.
  { eapply gpa_perm; [apply Ho |]. by rewrite (extents_remove _ _ _ eq_refl Hi). }
  apply (gpa_disjoint _ _ _ _ Hw). apply elem_of_app. left.
  rewrite <- (aget_set_ne (tk_tbl (mp_tokens st)) i j (unused (tk_tbl (mp_tokens st)).[i])) by done.
  apply extents_elem. by rewrite aget_set_ne.
Qed.

(** C2. [mapping_exclusive]: in every run of mapping, unmapping, realizing and
    reclaiming, against any window that keeps its promise, the GPA extents of two
    different mappings never overlap; every mapping has a token from 1 to 8191;
    and the extents held in the window are those of the mappings, plus at most
    one for every mapping the host or the isolate refused and for every realized
    mapping without a free token. *)
Theorem mapping_exclusive st n :
  reach st n ->
  let tbl := tk_tbl (mp_tokens st) in
  (forall i j, i <> j -> m_used tbl.[i] = true -> m_used tbl.[j] = true ->
     disj (ext_of tbl.[i]) (ext_of tbl.[j])) /\
  (forall i, m_used tbl.[i] = true -> 1 <= i <= 8191) /\
  exists leaked, Z.of_nat (length leaked) <= n /\ gpa_owns (mp_win st) (extents tbl ++ leaked).
Proof.
  intros (leaked & Hi & Hn)%mmap_reach_inv. cbv zeta. split_and!; [| | exists leaked; split; [done | apply Hi]].
  - intros i j. by apply (maps_disjoint _ leaked).
  - intros i Hu. by apply Hi.
Qed.

(** What unmapping may do to the host. *)
Definition soft (f : effect) : Prop :=
  match f with MapAnon _ _ | IsolateMunmap _ _ _ => True | _ => False end.

(** [munmap_once]: unmapping a live token succeeds, releases that entry alone,
    never punches a hole into the window and never touches a memslot; the token is
    then refused until it is issued again, so an extent is never freed twice. *)
Theorem munmap_once st n token :
  reach st n ->
  let tbl := tk_tbl (mp_tokens st) in
  let '(st', eff, status) := nvkvm_req_munmap_on_isolate kvm_vm_fd token st in
  let tbl' := tk_tbl (mp_tokens st') in
  if m_used tbl.[token] then
    status = 0 /\ m_used tbl'.[token] = false /\ (forall k, k <> token -> tbl'.[k] = tbl.[k]) /\
    Forall soft eff /\ nvkvm_req_munmap_on_isolate kvm_vm_fd token st' = (st', [], ENOENT)
  else status = ENOENT /\ st' = st /\ eff = [].
Proof.
  intros (leaked & [Hs He Ho] & Hn)%mmap_reach_inv. cbv zeta. unfold nvkvm_req_munmap_on_isolate, iso_mmap_free.
  unfold NVKVM_ISO_MMAP_MAX. destruct (m_used _) eqn:Eu.
  - destruct (He token Eu) as (Hr & Hsl & Hg). rewrite (proj2 (orb_false_iff _ _)) by lia. cbn [negb].
    unfold release_entry, release_backing. rewrite Hsl, Z.eqb_refl. cbn [mp_tokens tk_tbl tk_seq].
    rewrite aget_set_eq. split_and!; [done | done | intros; by apply aget_set_ne | | done].
    apply Forall_app. split; [by case_match; repeat constructor | by case_match; repeat constructor].
  - destruct (_ || _); done.
Qed.

(** [reap_exact]: reclaiming a dead isolate releases exactly its mappings,
    leaving those of every other isolate as they are, and reports their number. *)
Theorem reap_exact st n iso :
  reach st n ->
  let tbl := tk_tbl (mp_tokens st) in
  let '(st', eff, k) := nvkvm_iso_mmap_reap_isolate kvm_vm_fd iso st in
  let tbl' := tk_tbl (mp_tokens st') in
  (forall i, m_used tbl'.[i] = true -> m_isolate_id tbl'.[i] <> iso) /\
  (forall i, m_isolate_id tbl.[i] <> iso -> tbl'.[i] = tbl.[i]) /\
  k = tally (fun i => m_used tbl.[i] && (m_isolate_id tbl.[i] =? iso)) 1 max_tokens.
Proof.
  intros (leaked & Hi & Hn)%mmap_reach_inv. cbv zeta.
  destruct (nvkvm_iso_mmap_reap_isolate kvm_vm_fd iso st) as [[st' eff] k] eqn:Er.
  destruct (reap_spec _ _ _ _ _ _ Hi Er) as (_ & Hu & Hk). split_and!; [| | done].
  - intros i. rewrite Hu. destruct (_ && _) eqn:E; [done |]. intros Hui Hiso.
    destruct (mi_entry _ _ Hi i Hui) as (Hr & _). unfold doomed in E.
    rewrite Hui, (proj2 (Z.eqb_eq _ _) Hiso), (proj2 (Z.leb_le 1 i)), (proj2 (Z.ltb_lt i 8192)) in E by lia. done.
  - intros i Hiso. rewrite Hu. unfold doomed. rewrite (proj2 (Z.eqb_neq _ _) Hiso). by rewrite !andb_false_r.
Qed.

(** [realize_answer]: a realized mapping is reported only with an extent of its
    own length; every refused one gives its extent back.  But a stub that
    reports success without an address makes the response a success (status 0)
    with no mapping behind it. *)
Theorem realize_answer st n stub req snap it :
  reach st n -> 0 <= z_length req ->
  let '(st', resp) := nvkvm_req_realize_uvm_mapping stub req snap it st in
  let a := stub (realize_prot req) (realize_flags req) (z_length req) in
  (y_gpa_base resp <> 0 -> y_status resp = 0 /\ y_length resp = z_length req /\
     (i_base <$> it) = Some (z_gva req) /\ (i_length <$> it) = Some (z_length req) /\
     a_host_va a <> 0 /\ a_rm_status a = 0) /\
  (y_gpa_base resp = 0 -> tk_tbl (mp_tokens st') = tk_tbl (mp_tokens st)) /\
  (realize_valid req snap it = Ok tt -> snd (gpa_alloc (z_length req) (mp_win st)) <> 0 ->
     a_ret a = 0 -> a_host_va a = 0 -> y_status resp = 0 /\ y_gpa_base resp = 0).
Proof.
  intros (leaked & Hi & _)%mmap_reach_inv Hlen. pose proof (mi_owns _ _ Hi) as Ho.
  unfold nvkvm_req_realize_uvm_mapping. destruct (realize_valid req snap it) as [[]|e] eqn:Ev; [|done].
  assert (0 < z_length req <= 2 ^ 61 /\ (i_base <$> it) = Some (z_gva req) /\ (i_length <$> it) = Some (z_length req))
    as (Hl & Hb & Hil).
  { unfold realize_valid in Ev. repeat case_match; simplify_eq; nv_bool; simpl; split_and!; (lia || congruence). }
  destruct (gpa_alloc _ _) as [w1 gpa] eqn:Ea. cbn [snd].
  destruct (gpa_alloc_ok _ _ _ _ _ Ho Hl Ea) as [_ [[-> _]|[Hg _]]]; [done |].
  rewrite (proj2 (Z.eqb_neq gpa 0)) by lia. set (a := stub _ _ _).
  destruct (_ || _) eqn:E1; [|destruct (negb _) eqn:E2].
  - cbn [y_gpa_base y_status realize_fail mp_tokens]. split_and!; [done | done |].
    intros _ _ -> _. done.
  - cbn [y_gpa_base realize_fail mp_tokens]. nv_bool. split_and!; [done | done |]. intros _ _ _ ?. lia.
  - nv_bool. destruct (iso_mmap_alloc _ _ _ _ _ _ _ _) as [t1 tok]. cbn [y_gpa_base y_status y_length].
    split_and!; [done | lia | intros; lia].
Qed.

End runs.

(** ** A concrete run *)

Definition ex_kvm : Slots.kvm_mem_region -> option Z := fun _ => None.

#[local] Instance ex_allocator : GpaAllocator (Sparse.sparse_win * Slots.slot_pool) :=
  SparseAllocator 3 ex_kvm None ltac:(lia) I.

Definition ex_win : Sparse.sparse_win * Slots.slot_pool :=
  (Sparse.Sparse 0 Sparse.NVKVM_SPARSE_GPA_SIZE 0x7f0000000000 0 (-1) true [], Slots.slot_pool_init).

Definition ex_handles : handle_table :=
  fst (nvkvm_handle_attach_fd 1 9 (fst (nvkvm_handle_alloc_pending 7 NVKVM_DEV_CTL nvkvm_handle_table_init))).

Definition ex_start : maps := Maps tokens_init ex_win.
Definition ex_big : mmap_req := MmapReq 3 1 0x7f1000000000 0 Sparse.NVKVM_SPARSE_GPA_SIZE 3 1.
Definition ex_small : mmap_req := MmapReq 3 1 0x7f1000000000 0 4096 3 1.

(** [refused_mmap_exhausts]: one request for the whole window that the isolate
    refuses leaves no mapping behind, and still every later request fails: the
    extent is not returned on that path. *)
Theorem refused_mmap_exhausts :
  let '(st1, _, resp1) := nvkvm_req_mmap_on_isolate None (- ENOMEM) ex_handles ex_big ex_start in
  let '(_, _, resp2) := nvkvm_req_mmap_on_isolate None 0 ex_handles ex_small st1 in
  s_status resp1 = ENOMEM /\ tk_tbl (mp_tokens st1) = ∅ /\ s_status resp2 = ENOMEM /\
  s_status (snd (nvkvm_req_mmap_on_isolate None 0 ex_handles ex_small ex_start)) = 0.
Proof. vm_compute. split_and!; reflexivity. Qed.

Lemma ex_owns : gpa_owns ex_win [].
Proof.
  exists [], [], []. split_and!; [done | | apply Slots.pool_init_inv | done | done | vm_compute; discriminate ..].
  left. done.
Qed.

Definition ex_mapped : maps := fst (fst (nvkvm_req_mmap_on_isolate None 0 ex_handles ex_small ex_start)).

Lemma ex_reach : reach 3 ex_mapped 0.
Proof.
  assert (reach 3 ex_start 0) as H0 by (apply r_init, ex_owns). unfold ex_mapped.
  destruct (nvkvm_req_mmap_on_isolate None 0 ex_handles ex_small ex_start) as [[st eff] resp] eqn:E.
  apply (r_mmap 3 ex_start 0 None 0 ex_handles ex_small st eff resp H0 ltac:(simpl; lia) E).
Qed.

Lemma mapping_exclusive_witness : exists leaked, gpa_owns (mp_win ex_mapped) (extents (tk_tbl (mp_tokens ex_mapped)) ++ leaked).
Proof. destruct (mapping_exclusive 3 ex_mapped 0 ex_reach) as (_ & _ & l & _ & H). exists l. exact H. Defined.

Lemma munmap_once_witness : snd (nvkvm_req_munmap_on_isolate 3 1 ex_mapped) = 0.
Proof.
  pose proof (munmap_once 3 ex_mapped 0 1 ex_reach) as H.
  assert (m_used (tk_tbl (mp_tokens ex_mapped)).[1] = true) as Hu by (vm_compute; reflexivity).
  cbv zeta in H. rewrite Hu in H.
  destruct (nvkvm_req_munmap_on_isolate 3 1 ex_mapped) as [[st' eff] status]. apply H.
Defined.

Lemma reap_exact_witness : snd (nvkvm_iso_mmap_reap_isolate 3 3 ex_mapped) = 1.
Proof.
  pose proof (reap_exact 3 ex_mapped 0 3 ex_reach) as H.
  destruct (nvkvm_iso_mmap_reap_isolate 3 3 ex_mapped) as [[st' eff] k]. destruct H as (_ & _ & ->).
  vm_compute. reflexivity.
Defined.

Definition ex_realize : realize_req := RealizeReq 3 1 0x200000000 0x1000 3 1 9248.

Lemma realize_answer_witness :
  y_status (snd (nvkvm_req_realize_uvm_mapping (fun _ _ _ => Answer 0 0 0 0) ex_realize (Some (Snap 1 1 0))
    (Some (Intent 0x200000000 0x1000)) ex_mapped)) = 0.
Proof.
  pose proof (realize_answer 3 ex_mapped 0 (fun _ _ _ => Answer 0 0 0 0) ex_realize (Some (Snap 1 1 0))
    (Some (Intent 0x200000000 0x1000)) ex_reach ltac:(simpl; lia)) as H.
  destruct (nvkvm_req_realize_uvm_mapping _ _ _ _ ex_mapped) as [st' resp]. destruct H as (_ & _ & H).
  apply H; [reflexivity | vm_compute; discriminate | reflexivity | reflexivity].
Defined.

End IsoMmap.
