(* ===== verification/Sessions.v ===== *)
(** * Sessions, isolates and their handles
    ([src/qemu/nvkvm_isolate_handlers.c], [src/qemu/nvkvm_isolate.c],
    [src/qemu/virtio_nvgpu.c])

    The requests that create and kill isolates, open, share and close handles,
    over the whole state they touch: the handle table, the isolate table, the
    session list, the ranges owned in UVM, and the mappings.  The requests run
    one after the other on the transmit queue's thread.  Processes, sockets and
    the answers of the stub are parameters. *)

From S2P Require Import Prelude Extents HandleTable GpaAlloc UvmVa Ring IsoMmap.
Local Open Scope Z_scope.
Local Open Scope nv_scope.

Module Sessions.
Import HTab UvmVa IsoMmap.

Definition NVKVM_ISOLATE_MAX : Z := 4096.
Definition NVKVM_RING_DEFAULT_BYTES : Z := 65536.
Definition NVKVM_RING_PROBE_MASK : Z := 0x5a5a5a5a5a5a5a5a.
Definition NVKVM_DEV_DRM_RD (n : Z) : Z := 32 + n.
Definition NVKVM_DEV_MODESET : Z := 48.

(** ** The isolate table *)

Record isolate := Iso {
  o_id : Z;
  o_session_id : Z;
  o_pid : Z;
  o_alive : bool;
  o_in_use : bool;
  o_next_txn_id : Z;
  o_ring_memfd : Z;
  o_ring_qva : Z;
  o_ring_region_size : Z;
  o_ring_bytes : Z;
  o_ring_gpa : Z;
  o_ring_ready : bool
}.

#[export] Instance Zeroed_isolate : Zeroed isolate := Iso 0 0 0 false false 0 0 0 0 0 0 false.

Record iso_table := ITb { it_isolates : gmap Z isolate; it_next_id : Z }.

Definition nvkvm_isolate_table_init : iso_table := ITb ∅ 1.

Definition put_iso (i : Z) (o : isolate) (t : iso_table) : iso_table :=
  ITb ((it_isolates t).[i <- o]) (it_next_id t).

(** [next_id++] with its wrap. *)
Definition bump_iso (n : Z) : Z := let n' := u32 (n + 1) in if NVKVM_ISOLATE_MAX <=? n' then 1 else n'.

(** A slot as [alloc_isolate_slot] leaves it; session and pid are kept. *)
Definition claim (id : Z) (o : isolate) : isolate :=
  Iso id (o_session_id o) (o_pid o) false true 1 (-1) 0 0 0 0 false.

Fixpoint alloc_isolate_loop (fuel : nat) (t : iso_table) : iso_table * option Z :=
  match fuel with
  | O => (t, None)
  | S fuel' =>
      let id := it_next_id t in
      let t1 := ITb (it_isolates t) (bump_iso id) in
      if id =? 0 then alloc_isolate_loop fuel' t1
      else
        let o := (it_isolates t).[id mod NVKVM_ISOLATE_MAX] in
        if negb (o_in_use o) then (put_iso (id mod NVKVM_ISOLATE_MAX) (claim id o) t1, Some id)
        else alloc_isolate_loop fuel' t1
  end.

Definition iso_attempts : nat := Z.to_nat NVKVM_ISOLATE_MAX.
Arguments iso_attempts : simpl never.
#[local] Opaque iso_attempts max_attempts max_tokens.

Definition alloc_isolate_slot (t : iso_table) : iso_table * option Z := alloc_isolate_loop iso_attempts t.

Definition bad_isolate (id : Z) : bool := (id =? 0) || (NVKVM_ISOLATE_MAX <=? id).

(** The isolate an id names, when its slot is taken by that id. *)
Definition iso_entry (id : Z) (t : iso_table) : option isolate :=
  if bad_isolate id then None
  else
    let o := (it_isolates t).[id mod NVKVM_ISOLATE_MAX] in
    if o_in_use o && (o_id o =? id) then Some o else None.

(** The [valid] test of the commands sent to an isolate. *)
Definition iso_valid (id : Z) (t : iso_table) : bool :=
  match iso_entry id t with Some o => o_alive o | None => false end.

Definition nvkvm_isolate_host_pid (t : iso_table) (isolate_id : Z) : Z :=
  match iso_entry isolate_id t with Some o => if o_alive o then o_pid o else 0 | None => 0 end.

Definition set_session (sid : Z) (o : isolate) : isolate :=
  Iso (o_id o) sid (o_pid o) (o_alive o) (o_in_use o) (o_next_txn_id o) (o_ring_memfd o) (o_ring_qva o)
    (o_ring_region_size o) (o_ring_bytes o) (o_ring_gpa o) (o_ring_ready o).

Definition set_life (pid : Z) (alive in_use : bool) (o : isolate) : isolate :=
  Iso (o_id o) (o_session_id o) pid alive in_use (o_next_txn_id o) (o_ring_memfd o) (o_ring_qva o)
    (o_ring_region_size o) (o_ring_bytes o) (o_ring_gpa o) (o_ring_ready o).

Definition set_txn (n : Z) (o : isolate) : isolate :=
  Iso (o_id o) (o_session_id o) (o_pid o) (o_alive o) (o_in_use o) n (o_ring_memfd o) (o_ring_qva o)
    (o_ring_region_size o) (o_ring_bytes o) (o_ring_gpa o) (o_ring_ready o).

Definition set_ring (memfd qva region bytes gpa : Z) (ready : bool) (o : isolate) : isolate :=
  Iso (o_id o) (o_session_id o) (o_pid o) (o_alive o) (o_in_use o) (o_next_txn_id o) memfd qva
    region bytes gpa ready.

Section requests.
Context {W : Type} `{GpaAllocator W} (kvm_vm_fd : Z).

(** ** The command ring of an isolate *)

(** What the host and the stub answer during ring setup: [memfd_create],
    [ftruncate], whether the window mapping succeeds, the private mapping, the
    SETUP_RING command, and the probe read back on both sides. *)
Record ring_env := REnv {
  e_memfd : res Z;
  e_ftruncate : option Z;
  e_map_window : bool;
  e_map_private : res Z;
  e_sync : Z;
  e_echoed : Z;
  e_back : Z
}.

Definition ring_region : Z := mask_down (u64 (Ring.nvkvm_ring_region_size NVKVM_RING_DEFAULT_BYTES + 4095)) 4096.

Definition ring_probe (isolate_id : Z) : Z := Z.lor 0x6e766b766d000000 isolate_id.

Definition ring_qva_unmap (ring_gpa qva region : Z) (w : W) : W * list effect :=
  if (qva =? MAP_FAILED) || (qva =? 0) then (w, [])
  else if negb (ring_gpa =? 0) then (gpa_free ring_gpa region w, [MapAnon qva region])
  else (w, [Munmap qva region]).

(** Where the ring goes: the extent (0 when the mapping is private) and the host
    address. *)
Definition ring_place (env : ring_env) (mfd : Z) (w : W) : W * list effect * res (Z * Z) :=
  let '(w1, gpa) := gpa_alloc ring_region w in
  let target := if gpa =? 0 then 0 else gpa_to_va gpa ring_region w1 in
  let private w2 eff :=
    match e_map_private env with
    | Err e => (w2, eff, Err e)
    | Ok qva => (w2, eff, Ok (0, qva))
    end in
  if target =? 0 then private w1 []
  else
    let dev := MapDevice target ring_region PROT_RW mfd 0 in
    if e_map_window env then (w1, [dev], Ok (gpa, target))
    else private (gpa_free gpa ring_region w1) [dev; MapAnon target ring_region].

Definition nvkvm_isolate_ring_setup (env : ring_env) (isolate_id : Z) (t : iso_table) (w : W)
  : iso_table * W * list effect * res unit :=
  match iso_entry isolate_id t with
  | None => (t, w, [], Err (if bad_isolate isolate_id then ENOENT else EINVAL))
  | Some o =>
      if negb (o_alive o && (o_ring_memfd o <? 0)) then (t, w, [], Err EINVAL)
      else
        match e_memfd env with
        | Err e => (t, w, [], Err e)
        | Ok mfd =>
            match e_ftruncate env with
            | Some e => (t, w, [], Err e)
            | None =>
                match ring_place env mfd w with
                | (w1, eff, Err e) => (t, w1, eff, Err e)
                | (w1, eff, Ok (gpa, qva)) =>
                    let undo e := let '(w2, eff2) := ring_qva_unmap gpa qva ring_region w1 in
                                  (t, w2, eff ++ eff2, Err e) in
                    if negb (e_sync env =? 0) then undo (- e_sync env)
                    else if negb (e_echoed env =? ring_probe isolate_id) ||
                            negb (e_back env =? Z.lxor (ring_probe isolate_id) NVKVM_RING_PROBE_MASK)
                    then undo EPROTO
                    else (put_iso (isolate_id mod NVKVM_ISOLATE_MAX)
                            (set_ring mfd qva ring_region NVKVM_RING_DEFAULT_BYTES gpa true o) t,
                          w1, eff, Ok tt)
                end
            end
        end
  end.

(** ** Creating and killing an isolate *)

(** How spawning the stub ends: it fails before the process is recorded, the
    reader thread cannot be started, or it runs. *)
Inductive spawn := SpawnFail (e : Z) | ThreadFail (pid e : Z) | Spawned (pid : Z).

(** [socketpair]: its errno, if it fails; [ring]: the answers during ring setup,
    or [None] when NVKVM_RING_DISABLE is set. *)
Definition nvkvm_isolate_create (socketpair : option Z) (sp : spawn) (ring : option ring_env)
    (session_id : Z) (t : iso_table) (w : W) : iso_table * W * list effect * res Z :=
  match socketpair with
  | Some e => (t, w, [], Err e)
  | None =>
      match alloc_isolate_slot t with
      | (t1, None) => (t1, w, [], Err EMFILE)
      | (t1, Some id) =>
          let k := id mod NVKVM_ISOLATE_MAX in
          let o := set_session session_id (it_isolates t1).[k] in
          match sp with
          | SpawnFail e => (put_iso k (set_life (o_pid o) (o_alive o) false o) t1, w, [], Err e)
          | ThreadFail pid e => (put_iso k (set_life pid true false o) t1, w, [], Err e)
          | Spawned pid =>
              let t2 := put_iso k (set_life pid true true o) t1 in
              match ring with
              | None => (t2, w, [], Ok id)
              | Some env =>
                  let '(t3, w3, eff, _) := nvkvm_isolate_ring_setup env id t2 w in (t3, w3, eff, Ok id)
              end
          end
      end
  end.

(** The slot after the kill. *)
Definition killed (o : isolate) : isolate :=
  Iso (o_id o) (o_session_id o) 0 false false (o_next_txn_id o) (-1) 0 (o_ring_region_size o)
    (o_ring_bytes o) 0 false.

Definition nvkvm_isolate_kill (isolate_id : Z) (t : iso_table) (w : W)
  : iso_table * W * list effect * res unit :=
  match iso_entry isolate_id t with
  | None => (t, w, [], Err ENOENT)
  | Some o =>
      let '(w1, eff) :=
        if negb (o_ring_qva o =? 0) && negb (o_ring_qva o =? MAP_FAILED) && negb (o_ring_region_size o =? 0)
        then ring_qva_unmap (o_ring_gpa o) (o_ring_qva o) (o_ring_region_size o) w else (w, []) in
      (put_iso (isolate_id mod NVKVM_ISOLATE_MAX) (killed o) t, w1, eff, Ok tt)
  end.

(** The reader thread's exit when the stub is gone. *)
Definition reader_exit (isolate_id : Z) (t : iso_table) : iso_table :=
  match iso_entry isolate_id t with
  | None => t
  | Some o => put_iso (isolate_id mod NVKVM_ISOLATE_MAX) (set_life (o_pid o) false (o_in_use o) o) t
  end.

(** ** Handles in isolates *)

(** [sync]: the answer to RECEIVE_FD. *)
Definition nvkvm_isolate_send_handle (sync : Z) (isolate_id handle_id : Z) (t : iso_table) (ht : handle_table)
  : handle_table * Z :=
  if negb (iso_valid isolate_id t) then (ht, - ENOENT)
  else
    match nvkvm_handle_get handle_id ht with
    | Some h =>
        if 0 <=? hd_fd h
        then (if sync =? 0 then fst (nvkvm_handle_ref_isolate handle_id ht) else ht, sync)
        else (ht, - EBADF)
    | None => (ht, - EBADF)
    end.

Definition nvkvm_isolate_close_handle (sync : Z) (isolate_id handle_id : Z) (t : iso_table) (ht : handle_table)
  : handle_table * Z :=
  if negb (iso_valid isolate_id t) then (ht, - ENOENT)
  else (if sync =? 0 then fst (nvkvm_handle_unref_isolate handle_id ht) else ht, sync).

(** [answer]: the error and the descriptor the stub sends back for the handle id, the
    device id and the flags it is sent.  The transaction
    counter of the slot advances whether or not the isolate is valid. *)
Definition nvkvm_isolate_open_device (answer : Z -> Z -> Z -> Z * Z) (isolate_id handle_id dev_id flags : Z) (t : iso_table)
  : iso_table * list Z * Z * Z :=
  if bad_isolate isolate_id then (t, [], - ENOENT, -1)
  else
    let k := isolate_id mod NVKVM_ISOLATE_MAX in
    let o := (it_isolates t).[k] in
    let n := u32 (o_next_txn_id o + 1) in
    let t1 := put_iso k (set_txn (if n =? 0 then 1 else n) o) t in
    if negb (iso_valid isolate_id t) then (t1, [], - ENOENT, -1)
    else
      let '(err, fd) := answer handle_id dev_id flags in
      if negb (err =? 0) then (t1, if 0 <=? fd then [fd] else [], err, -1)
      else if fd <? 0 then (t1, [], - EPROTO, -1)
      else (t1, [], 0, fd).

(** ** Sessions *)

Record session := Ses { s_id : Z; isolate_ids : list Z; s_fds : list Z }.

(** The device: everything the requests share. *)
Record dev := Dev {
  d_handles : handle_table;
  d_isolates : iso_table;
  d_sessions : list session;
  d_va : va_table;
  d_maps : maps (W := W);
  d_graphics : bool
}.

Definition with_handles (ht : handle_table) (d : dev) : dev :=
  Dev ht (d_isolates d) (d_sessions d) (d_va d) (d_maps d) (d_graphics d).
Definition with_sessions (l : list session) (d : dev) : dev :=
  Dev (d_handles d) (d_isolates d) l (d_va d) (d_maps d) (d_graphics d).
Definition with_isolates (t : iso_table) (w : W) (d : dev) : dev :=
  Dev (d_handles d) t (d_sessions d) (d_va d) (Maps (mp_tokens (d_maps d)) w) (d_graphics d).
Definition with_maps (m : maps) (d : dev) : dev :=
  Dev (d_handles d) (d_isolates d) (d_sessions d) (d_va d) m (d_graphics d).
Definition purge_va (handle_id : Z) (d : dev) : dev :=
  Dev (d_handles d) (d_isolates d) (d_sessions d) (nvkvm_uvm_va_purge_handle handle_id (d_va d)) (d_maps d)
    (d_graphics d).

Fixpoint nvkvm_session_find (sid : Z) (l : list session) : option session :=
  match l with
  | [] => None
  | s :: l' => if s_id s =? sid then Some s else nvkvm_session_find sid l'
  end.

Definition nvkvm_session_create (sid : Z) (l : list session) : list session := l ++ [Ses sid [] []].

(** TAILQ_REMOVE of the session; ids are unique, so the first with its id is it. *)
Fixpoint unlink (sid : Z) (l : list session) : list session :=
  match l with
  | [] => []
  | s :: l' => if s_id s =? sid then l' else s :: unlink sid l'
  end.

(** The descriptors closed are those of its handles and its legacy list. *)
Definition nvkvm_session_destroy (s : session) (d : dev) : dev * list Z :=
  let r := nvkvm_handle_close_session (s_id s) (d_handles d) in
  (with_handles (fst r) (with_sessions (unlink (s_id s) (d_sessions d)) d),
   snd r ++ List.filter (Z.leb 0) (s_fds s)).

Definition session_first_isolate (sid : Z) (l : list session) : Z :=
  match nvkvm_session_find sid l with Some s => default 0 (head (isolate_ids s)) | None => 0 end.

Definition session_has_isolate (sid isolate_id : Z) (l : list session) : bool :=
  match nvkvm_session_find sid l with
  | Some s => bool_decide (isolate_id ∈ isolate_ids s)
  | None => false
  end.

(** ** The requests *)

(** [(uint32_t)-ret] for a negative [ret]. *)
Definition status_of (ret : Z) : Z := if ret <? 0 then u32 (- ret) else 0.
Definition status_res {A} (r : res A) : Z := match r with Ok _ => 0 | Err e => u32 e end.

Record open_req := OpenReq { p_session_id : Z; p_dev_id : Z; p_flags : Z }.

(** What the host and the isolate answer to an open: the host by path and flags, the
    isolate by handle id, device id and flags. *)
Record open_env := OEnv {
  v_open : dev_path -> Z -> res Z;
  v_eventfd : res Z;
  v_send : Z;
  v_device : Z -> Z -> Z -> Z * Z
}.

Definition graphics_only (dev_id : Z) : bool :=
  (s32 dev_id =? NVKVM_DEV_MODESET) ||
  ((NVKVM_DEV_DRM_RD 0 <=? s32 dev_id) && (s32 dev_id <? NVKVM_DEV_DRM_RD 16)).

(** Device, closed descriptors, handle id, status. *)
Definition nvkvm_req_open_nvidia_handle (env : open_env) (req : open_req) (d : dev)
  : dev * list Z * Z * Z :=
  let dev_id := s32 (p_dev_id req) in
  let sid := p_session_id req in
  if negb (d_graphics d) && graphics_only (p_dev_id req) then (d, [], 0, EPERM)
  else if dev_id =? NVKVM_DEV_UVM then
    match nvkvm_handle_open_nvidia (v_open env) (v_eventfd env) sid dev_id (s32 (p_flags req)) (d_handles d) with
    | (ht, Err e, cl) => (with_handles ht d, cl, 0, u32 e)
    | (ht, Ok id, cl) =>
        let iso := session_first_isolate sid (d_sessions d) in
        let ht1 := if iso =? 0 then ht
                   else fst (nvkvm_isolate_send_handle (v_send env) iso id (d_isolates d) ht) in
        (with_handles ht1 d, cl, id, 0)
    end
  else
    let iso := session_first_isolate sid (d_sessions d) in
    if iso =? 0 then (d, [], 0, ENOENT)
    else
      match nvkvm_handle_alloc_pending sid dev_id (d_handles d) with
      | (ht, Err e) => (with_handles ht d, [], 0, u32 e)
      | (ht, Ok id) =>
          let '(t1, cl, ret, fd) := nvkvm_isolate_open_device (v_device env) iso id (p_dev_id req) (p_flags req) (d_isolates d) in
          let d1 := with_isolates t1 (mp_win (d_maps d)) (with_handles ht d) in
          if ret <? 0 then (with_handles (nvkvm_handle_abort_open id ht) d1, cl, 0, u32 (- ret))
          else
            match nvkvm_handle_attach_fd id fd ht with
            | (ht1, Err e) => (with_handles (nvkvm_handle_abort_open id ht1) d1, cl ++ [fd], 0, u32 e)
            | (ht1, Ok _) => (with_handles (fst (nvkvm_handle_ref_isolate id ht1)) d1, cl, id, 0)
            end
      end.

Definition nvkvm_req_open_memory_handle (memfd : res Z) (ftruncate : option Z) (sid size : Z) (d : dev)
  : dev * list Z * Z * Z :=
  match nvkvm_handle_open_memory memfd ftruncate sid size (d_handles d) with
  | (ht, Err e, cl) => (with_handles ht d, cl, 0, u32 e)
  | (ht, Ok id, cl) => (with_handles ht d, cl, id, 0)
  end.

Definition nvkvm_req_close_handle (handle_id : Z) (d : dev) : dev * list Z * Z :=
  let d1 := purge_va handle_id d in
  let '(ht, r, cl) := nvkvm_handle_close handle_id (d_handles d1) in
  (with_handles ht d1, cl, status_res r).

(** Recording a new isolate in its session. *)
Definition add_isolate (isolate_id : Z) (s : session) : session :=
  if Z.of_nat (length (isolate_ids s)) <? 256
  then Ses (s_id s) (isolate_ids s ++ [isolate_id]) (s_fds s) else s.

Fixpoint update_session (sid : Z) (f : session -> session) (l : list session) : list session :=
  match l with
  | [] => []
  | s :: l' => if s_id s =? sid then f s :: l' else s :: update_session sid f l'
  end.

Definition nvkvm_req_create_isolate (socketpair : option Z) (sp : spawn) (ring : option ring_env) (sid : Z)
    (d : dev) : dev * list effect * Z * Z :=
  match nvkvm_isolate_create socketpair sp ring sid (d_isolates d) (mp_win (d_maps d)) with
  | (t1, w1, eff, Err e) => (with_isolates t1 w1 d, eff, 0, u32 e)
  | (t1, w1, eff, Ok id) =>
      let l := match nvkvm_session_find sid (d_sessions d) with
               | Some _ => d_sessions d
               | None => nvkvm_session_create sid (d_sessions d)
               end in
      (with_sessions (update_session sid (add_isolate id) l) (with_isolates t1 w1 d), eff, id, 0)
  end.

Definition without (isolate_id : Z) (s : session) : session :=
  Ses (s_id s) (filter (fun i => i <> isolate_id) (isolate_ids s)) (s_fds s).

(** The loop over the sessions: every one without the killed isolate, and those
    (16 at most) that became empty. *)
Fixpoint prune (isolate_id n_destroy : Z) (l : list session) : list session * list session :=
  match l with
  | [] => ([], [])
  | s :: l' =>
      let s' := without isolate_id s in
      let became_empty := bool_decide (isolate_ids s' = []) && negb (bool_decide (isolate_ids s = [])) in
      if became_empty && (n_destroy <? 16)
      then let '(l1, dl) := prune isolate_id (n_destroy + 1) l' in (s' :: l1, s' :: dl)
      else let '(l1, dl) := prune isolate_id n_destroy l' in (s' :: l1, dl)
  end.

Fixpoint destroy_all (dl : list session) (d : dev) : dev * list Z :=
  match dl with
  | [] => (d, [])
  | s :: dl' =>
      let '(d1, cl) := nvkvm_session_destroy s d in
      let '(d2, cl') := destroy_all dl' d1 in (d2, cl ++ cl')
  end.

Definition nvkvm_req_kill_isolate (isolate_id : Z) (d : dev) : dev * list effect * list Z * Z :=
  let '(t1, w1, eff, r) := nvkvm_isolate_kill isolate_id (d_isolates d) (mp_win (d_maps d)) in
  let d1 := with_isolates t1 w1 d in
  let '(m1, eff1, _) := nvkvm_iso_mmap_reap_isolate kvm_vm_fd isolate_id (d_maps d1) in
  let '(l, dl) := prune isolate_id 0 (d_sessions d1) in
  let '(d2, cl) := destroy_all dl (with_sessions l (with_maps m1 d1)) in
  (d2, eff ++ eff1, cl, status_res r).

Definition nvkvm_req_copy_handle_to_isolate (sync isolate_id handle_id : Z) (d : dev) : dev * Z :=
  let '(ht, ret) := nvkvm_isolate_send_handle sync isolate_id handle_id (d_isolates d) (d_handles d) in
  (with_handles ht d, status_of ret).

Definition nvkvm_req_close_handle_on_isolate (sync isolate_id handle_id : Z) (d : dev) : dev * Z :=
  let d1 := purge_va handle_id d in
  let '(ht, ret) := nvkvm_isolate_close_handle sync isolate_id handle_id (d_isolates d1) (d_handles d1) in
  (with_handles ht d1, status_of ret).

(** Ring address, region, response offset, ring bytes and status. *)
Definition nvkvm_isolate_ring_info (isolate_id : Z) (t : iso_table) : res (Z * Z * Z * Z) :=
  match iso_entry isolate_id t with
  | Some o =>
      if o_alive o && o_ring_ready o && negb (o_ring_gpa o =? 0)
      then Ok (o_ring_gpa o, u32 (o_ring_region_size o), u32 (Ring.nvkvm_ring_resp_off (o_ring_bytes o)),
               o_ring_bytes o)
      else Err ENODEV
  | None => Err (if bad_isolate isolate_id then ENOENT else ENODEV)
  end.

Definition nvkvm_req_setup_ring (sid : Z) (d : dev) : res (Z * Z * Z * Z) :=
  let iso := session_first_isolate sid (d_sessions d) in
  if iso =? 0 then Err ENODEV
  else
    match nvkvm_isolate_ring_info iso (d_isolates d) with
    | Err e => Err e
    | Ok (gpa, region, off, bytes) => if gpa =? 0 then Err ENODEV else Ok (gpa, region, off, bytes)
    end.

End requests.

Arguments dev : clear implicits.

End Sessions.
