(* ===== verification/SessionRuns.v ===== *)
(** * Runs of the session and handle requests

    The invariant of the device state that the requests of [Sessions] share, and
    what it gives: who owns an isolate, what the death of an isolate reclaims,
    and what opening a handle leaves behind. *)

From S2P Require Import Prelude Extents KvmSlots GpaWindow HandleTable GpaAlloc UvmVa Ring IsoMmap Sessions.
Local Open Scope Z_scope.
Local Open Scope nv_scope.

Module SessionRuns.
Import HTab UvmVa IsoMmap Sessions.

(** ** The isolate table *)

Lemma iso_attempts_val : Z.of_nat iso_attempts = 4096.
Proof. unfold iso_attempts, NVKVM_ISOLATE_MAX. lia. Qed.

#[export] Instance session_eq_dec : EqDecision session.
Proof. solve_decision. Qed.

#[local] Opaque iso_attempts max_attempts max_tokens nvkvm_handle_close_session.

Lemma mod_iso id : 1 <= id <= 4095 -> id mod NVKVM_ISOLATE_MAX = id.
Proof. intros. unfold NVKVM_ISOLATE_MAX. apply Z.mod_small. lia. Qed.

Lemma bump_iso_range n : 1 <= n <= 4095 -> 1 <= bump_iso n <= 4095.
Proof. intros Hn. unfold bump_iso, NVKVM_ISOLATE_MAX. rewrite u32_small by lia. nv_case; lia. Qed.

Lemma alloc_isolate_loop_spec fuel t :
  1 <= it_next_id t <= 4095 ->
  let '(t', r) := alloc_isolate_loop fuel t in
  1 <= it_next_id t' <= 4095 /\
  match r with
  | Some id => 1 <= id <= 4095 /\ o_in_use (it_isolates t).[id] = false /\
      it_isolates t' = (it_isolates t).[id <- claim id (it_isolates t).[id]]
  | None => it_isolates t' = it_isolates t
  end.
Proof.
  revert t. induction fuel as [|fuel IH]; intros t Hn; [done |]. simpl.
  rewrite (proj2 (Z.eqb_neq _ 0)), mod_iso by lia. pose proof (bump_iso_range _ Hn) as Hb.
  destruct (o_in_use _) eqn:E; simpl; [apply (IH (ITb (it_isolates t) _)); done | done].
Qed.

Lemma iso_entry_iff id t o :
  0 <= id ->
  iso_entry id t = Some o <->
  1 <= id <= 4095 /\ o = (it_isolates t).[id] /\ o_in_use o = true /\ o_id o = id.
Proof.
  intros H0. unfold iso_entry, bad_isolate, NVKVM_ISOLATE_MAX.
  destruct ((id =? 0) || _) eqn:E; nv_bool; [split; [done | lia] |].
  rewrite Z.mod_small by lia. destruct (o_in_use _) eqn:Eu; simpl.
  - destruct (o_id _ =? id) eqn:Ei; nv_bool; split; try (intros [= <-]; split_and!; (done || lia)); try done.
    + by intros (_ & -> & _).
    + by intros (_ & -> & _ & ?).
  - split; [done |]. intros (_ & -> & ? & _). congruence.
Qed.

(** ** The extents the rings hold *)

Definition ring_ext (o : isolate) : list extent :=
  if o_ring_gpa o =? 0 then [] else [Ext (o_ring_gpa o) (Sparse.page_round (o_ring_region_size o))].

Definition ring_extents (tbl : gmap Z isolate) : list extent :=
  flat_map (fun p => ring_ext (snd p)) (map_to_list tbl).

Lemma ring_extents_split tbl k : ring_extents tbl ≡ₚ ring_ext tbl.[k] ++ ring_extents (delete k tbl).
Proof.
  unfold ring_extents, aget. destruct (tbl !! k) as [o|] eqn:E; simpl.
  - by rewrite <- (map_to_list_delete tbl k o E).
  - by rewrite delete_id.
Qed.

Lemma ring_extents_set tbl k o : ring_extents (tbl.[k <- o]) ≡ₚ ring_ext o ++ ring_extents (delete k tbl).
Proof. by rewrite (ring_extents_split _ k), aget_set_eq, delete_insert_eq. Qed.

(** A change of an isolate that keeps its ring. *)
Lemma ring_extents_same tbl k o :
  ring_ext o = ring_ext tbl.[k] -> ring_extents (tbl.[k <- o]) ≡ₚ ring_extents tbl.
Proof. intros E. by rewrite ring_extents_set, E, <- ring_extents_split. Qed.

Lemma ring_extents_elem tbl k e : e ∈ ring_ext tbl.[k] -> e ∈ ring_extents tbl.
Proof. intros He. rewrite (ring_extents_split tbl k). set_solver. Qed.

Lemma ring_region_val : ring_region = 135168.
Proof. reflexivity. Qed.

(** What holds of slot [k]. *)
Record iso_ok (k : Z) (o : isolate) : Prop := {
  io_used : o_in_use o = true -> 1 <= k <= 4095 /\ o_id o = k;
  io_ring : o_ring_gpa o <> 0 -> o_in_use o = true /\ 0 < o_ring_gpa o /\
            o_ring_region_size o = ring_region /\ 0 < o_ring_qva o < MAP_FAILED
}.

Lemma iso_ok_empty k : iso_ok k zeroed.
Proof. by split. Qed.

Section runs.
Context {W : Type} `{GpaAllocator W} (kvm_vm_fd : Z).

(** The isolate table and the window, with [l] handed out to others. *)
Record isos_inv (t : iso_table) (w : W) (l : list extent) : Prop := {
  ii_next : 1 <= it_next_id t <= 4095;
  ii_ok : forall k, iso_ok k (it_isolates t).[k];
  ii_owns : gpa_owns w (ring_extents (it_isolates t) ++ l)
}.

Definition ext_at (gpa : Z) : list extent := if gpa =? 0 then [] else [Ext gpa (Sparse.page_round ring_region)].

Lemma ring_unmap_owns gpa qva w l w' eff :
  gpa_owns w (ext_at gpa ++ l) -> (gpa <> 0 -> 0 < qva < MAP_FAILED) ->
  ring_qva_unmap gpa qva ring_region w = (w', eff) -> gpa_owns w' l.
Proof.
  unfold ring_qva_unmap, ext_at. intros Ho Hq. destruct (gpa =? 0) eqn:Eg; nv_bool; simpl in *.
  - destruct (_ || _); by intros [= <- _].
  - rewrite (proj2 (orb_false_iff _ _)) by lia. intros [= <- _]. by apply gpa_free_ok in Ho as [_ ?].
Qed.

Lemma ring_place_spec env mfd w l w' eff r :
  gpa_owns w l -> ring_place env mfd w = (w', eff, r) ->
  match r with
  | Err _ => gpa_owns w' l
  | Ok (gpa, qva) => gpa_owns w' (ext_at gpa ++ l) /\ (gpa <> 0 -> 0 < gpa /\ 0 < qva < MAP_FAILED)
  end.
Proof.
  intros Ho. unfold ring_place. destruct (gpa_alloc ring_region w) as [w1 gpa] eqn:Ea.
  assert (0 < ring_region <= 2 ^ 61) as Hl by (rewrite ring_region_val; lia).
  destruct (gpa_alloc_ok _ _ _ _ _ Ho Hl Ea) as [_ [[-> Ho']|[Hg Ho']]]; simpl.
  { destruct (e_map_private env); by intros [= <- _ <-]. }
  rewrite (proj2 (Z.eqb_neq gpa 0)) by lia.
  pose proof (gpa_to_va_ok _ _ _ _ Ho' Hl eq_refl) as Hva. rewrite (proj2 (Z.eqb_neq _ 0)) by lia.
  destruct (e_map_window env).
  - intros [= <- _ <-]. unfold ext_at, MAP_FAILED. rewrite (proj2 (Z.eqb_neq gpa 0)) by lia. split; [done | lia].
  - apply gpa_free_ok in Ho' as [_ Ho']. destruct (e_map_private env); by intros [= <- _ <-].
Qed.

Lemma ring_setup_inv env id t w l t' w' eff r :
  isos_inv t w l -> 0 <= id -> o_ring_gpa (it_isolates t).[id] = 0 ->
  nvkvm_isolate_ring_setup env id t w = (t', w', eff, r) ->
  isos_inv t' w' l /\ (forall k, k <> id -> (it_isolates t').[k] = (it_isolates t).[k]) /\
  o_in_use (it_isolates t').[id] = o_in_use (it_isolates t).[id] /\
  o_session_id (it_isolates t').[id] = o_session_id (it_isolates t).[id].
Proof.
  intros [In Ik Io] H0 Hg. unfold nvkvm_isolate_ring_setup.
  destruct (iso_entry id t) as [o|] eqn:Ee; [|by intros [= <- <- _ _]].
  apply iso_entry_iff in Ee as (Hr & -> & Hu & Hid); [|done].
  destruct (negb _); [by intros [= <- <- _ _] |].
  destruct (e_memfd env) as [mfd|]; [|by intros [= <- <- _ _]].
  destruct (e_ftruncate env); [by intros [= <- <- _ _] |].
  destruct (ring_place env mfd w) as [[w1 eff1] [[gpa qva]|e]] eqn:Ep;
    (eapply ring_place_spec in Ep; [|exact Io]); [|by intros [= <- <- _ _]].
  destruct Ep as [Hw Hq].
  assert (forall e eff2 w2, ring_qva_unmap gpa qva ring_region w1 = (w2, eff2) ->
    (t, w2, eff1 ++ eff2, Err e) = (t', w', eff, r) -> isos_inv t' w' l /\ t' = t) as Hundo.
  { intros e eff2 w2 E2 [= <- <- _ _]. eapply ring_unmap_owns in E2; [|exact Hw | naive_solver]. split; [by split | done]. }
  destruct (ring_qva_unmap gpa qva ring_region w1) as [w2 eff2] eqn:Eu.
  destruct (negb (e_sync env =? 0)); [intros E; by destruct (Hundo _ _ _ eq_refl E) as [? ->] |].
  destruct (_ || _); [intros E; by destruct (Hundo _ _ _ eq_refl E) as [? ->] |].
  intros [= <- <- _ _]. rewrite mod_iso by done. unfold put_iso. cbn [it_isolates].
  split_and!; [| intros; by apply aget_set_ne | by rewrite aget_set_eq ..].
  split; cbn [it_isolates it_next_id]; [done | |].
  - intros k. rewrite aget_set. case_decide as E; [subst k | apply Ik]. split; simpl; [done |].
    intros Hn. destruct (Hq Hn). done.
  - rewrite ring_extents_set. rewrite (ring_extents_split _ id) in Hw. revert Hw.
    unfold ring_ext, ext_at. cbn [set_ring o_ring_gpa o_ring_region_size]. rewrite Hg. simpl. by rewrite app_assoc.
Qed.

(** Replacing a slot without touching its ring. *)
Lemma isos_put t w l k o next :
  isos_inv t w l -> 1 <= next <= 4095 -> iso_ok k o -> ring_ext o = ring_ext (it_isolates t).[k] ->
  isos_inv (ITb ((it_isolates t).[k <- o]) next) w l.
Proof.
  intros [In Ik Io] Hn Ho He. split; cbn [it_isolates it_next_id]; [done | |].
  - intros j. rewrite aget_set. case_decide; subst; [done | apply Ik].
  - by rewrite (ring_extents_same _ _ _ He).
Qed.

(** A claimed slot: no ring, and the slot is free before. *)
Lemma claimed_ok t w l id :
  isos_inv t w l -> 1 <= id <= 4095 -> o_in_use (it_isolates t).[id] = false ->
  ring_ext (it_isolates t).[id] = [] /\ forall sid pid alive in_use,
    iso_ok id (set_life pid alive in_use (set_session sid (claim id (it_isolates t).[id]))).
Proof.
  intros [_ Ik _] Hr Hu. split; [|intros; by split].
  unfold ring_ext. destruct (o_ring_gpa _ =? 0) eqn:E; [done |]. nv_bool.
  destruct (io_ring _ _ (Ik id) E). congruence.
Qed.

Lemma create_inv socketpair sp ring sid t w l t' w' eff r :
  isos_inv t w l -> nvkvm_isolate_create socketpair sp ring sid t w = (t', w', eff, r) ->
  isos_inv t' w' l /\
  match r with
  | Ok id => 1 <= id <= 4095 /\ o_in_use (it_isolates t).[id] = false /\
      o_in_use (it_isolates t').[id] = true /\ o_session_id (it_isolates t').[id] = sid /\
      forall k, k <> id -> (it_isolates t').[k] = (it_isolates t).[k]
  | Err _ => forall k, o_in_use (it_isolates t).[k] = true -> (it_isolates t').[k] = (it_isolates t).[k]
  end.
Proof.
  intros Hi. unfold nvkvm_isolate_create. destruct socketpair; [by intros [= <- <- _ <-] |].
  pose proof (alloc_isolate_loop_spec iso_attempts t (ii_next _ _ _ Hi)) as Ha.
  unfold alloc_isolate_slot. destruct (alloc_isolate_loop iso_attempts t) as [t1 [id|]]; destruct Ha as [Hn Ha].
  2: { intros [= <- <- _ <-]. split; [|by rewrite Ha]. destruct Hi. by split; rewrite ?Ha. }
  destruct Ha as (Hr & Hu & Ha). rewrite mod_iso by done. destruct (claimed_ok _ _ _ _ Hi Hr Hu) as [He Hok].
  rewrite Ha, aget_set_eq. unfold put_iso. rewrite !Ha.
  assert (forall pid alive in_use, isos_inv (ITb ((it_isolates t).[id <- set_life pid alive in_use
    (set_session sid (claim id (it_isolates t).[id]))]) (it_next_id t1)) w l) as Hput.
  { intros. apply isos_put; [done | done | apply Hok | by rewrite He]. }
  destruct sp as [e|pid e|pid]; rewrite insert_insert_eq.
  - intros [= <- <- _ <-]. split; [apply Hput |]. intros k Hk. cbn. rewrite aget_set_ne; congruence.
  - intros [= <- <- _ <-]. split; [apply Hput |]. intros k Hk. cbn. rewrite aget_set_ne; congruence.
  - destruct ring as [env|].
    + destruct (nvkvm_isolate_ring_setup _ _ _ _) as [[[t3 w3] eff3] r3] eqn:Er.
      apply (ring_setup_inv _ _ _ _ l) in Er as (Hi3 & Hk & E1 & E2); [| apply Hput | lia | by cbn; rewrite aget_set_eq].
      intros [= <- <- _ <-]. cbn in Hk, E1, E2. rewrite aget_set_eq in E1, E2.
      split_and!; try done; try lia. intros k Hne. rewrite Hk, aget_set_ne by done. done.
    + intros [= <- <- _ <-]. split; [apply Hput |]. cbn. rewrite aget_set_eq.
      split_and!; try done; try lia. intros k Hne. by rewrite aget_set_ne.
Qed.

Lemma kill_inv id t w l t' w' eff r :
  isos_inv t w l -> 0 <= id -> nvkvm_isolate_kill id t w = (t', w', eff, r) ->
  isos_inv t' w' l /\ o_in_use (it_isolates t').[id] = false /\
  (forall k, k <> id -> (it_isolates t').[k] = (it_isolates t).[k]) /\
  r = if o_in_use (it_isolates t).[id] then Ok tt else Err ENOENT.
Proof.
  intros Hi H0. pose proof Hi as [In Ik Io]. unfold nvkvm_isolate_kill.
  destruct (iso_entry id t) as [o|] eqn:Ee.
  2: { intros [= <- <- _ <-]. destruct (o_in_use (it_isolates t).[id]) eqn:Eu; [|done].
       destruct (io_used _ _ (Ik id) Eu).
       by rewrite (proj2 (iso_entry_iff id t (it_isolates t).[id] H0)) in Ee. }
  apply iso_entry_iff in Ee as (Hr & -> & Hu & Hid); [|done]. rewrite Hu, mod_iso by done.
  set (o := (it_isolates t).[id]) in *.
  destruct (if _ && _ && _ then _ else _) as [w1 eff1] eqn:Ew. intros [= <- <- _ <-].
  unfold put_iso. cbn [it_isolates]. split_and!; [| by rewrite aget_set_eq | intros; by apply aget_set_ne | done].
  split; cbn [it_isolates it_next_id]; [done | |].
  - intros k. rewrite aget_set. case_decide as E; [by split | apply Ik].
  - rewrite ring_extents_set. change (ring_ext (killed o)) with (@nil extent). simpl.
    rewrite (ring_extents_split _ id), <- app_assoc in Io. fold o in Io. unfold ring_ext in Io.
    destruct (o_ring_gpa o =? 0) eqn:Eg; nv_bool; simpl in *.
    + destruct (_ && _ && _); [|by injection Ew as <- _]. unfold ring_qva_unmap in Ew. rewrite Eg in Ew. simpl in Ew.
      destruct (_ || _); by injection Ew as <- _.
    + destruct (io_ring _ _ (Ik id) Eg) as (_ & Hg & Hs & Hq). fold o in Hg, Hs, Hq. rewrite Hs in *.
      rewrite (proj2 (Z.eqb_neq _ 0)), (proj2 (Z.eqb_neq _ MAP_FAILED)) in Ew by lia.
      apply (ring_unmap_owns _ _ _ (ring_extents (delete id (it_isolates t)) ++ l)) in Ew; [done | | done].
      unfold ext_at. by rewrite (proj2 (Z.eqb_neq _ 0)).
Qed.

(** ** The session list *)

Record ses_ok (tbl : gmap Z isolate) (s : session) : Prop := {
  so_some : isolate_ids s <> [];
  so_len : Z.of_nat (length (isolate_ids s)) <= 256;
  so_nodup : NoDup (isolate_ids s);
  so_live : forall i, i ∈ isolate_ids s -> o_in_use tbl.[i] = true /\ o_session_id tbl.[i] = s_id s;
  so_fds : s_fds s = []
}.

Record sess_inv (tbl : gmap Z isolate) (l : list session) : Prop := {
  si_ids : NoDup (s_id <$> l);
  si_ok : Forall (ses_ok tbl) l
}.

(** Sessions depend on the isolates they list only. *)
Lemma ses_ok_ext tbl tbl' s :
  ses_ok tbl s -> (forall i, i ∈ isolate_ids s -> o_in_use tbl'.[i] = o_in_use tbl.[i] /\
                                                  o_session_id tbl'.[i] = o_session_id tbl.[i]) ->
  ses_ok tbl' s.
Proof. intros [] He. split; try done. intros i Hi. destruct (He i Hi) as [-> ->]. auto. Qed.

Lemma sess_inv_ext tbl tbl' l :
  sess_inv tbl l -> (forall i, o_in_use tbl.[i] = true -> o_in_use tbl'.[i] = true /\
                                                  o_session_id tbl'.[i] = o_session_id tbl.[i]) ->
  sess_inv tbl' l.
Proof.
  intros [Hn Ho] He. split; [done |]. eapply Forall_impl; [exact Ho |]. intros s Hs.
  apply (ses_ok_ext tbl); [done |]. intros i Hi. destruct (so_live _ _ Hs i Hi) as [Hu _].
  destruct (He i Hu). by rewrite Hu.
Qed.

Lemma find_split sid l :
  match nvkvm_session_find sid l with
  | Some s => exists l1 l2, l = l1 ++ s :: l2 /\ s_id s = sid /\ (forall s', s' ∈ l1 -> s_id s' <> sid) /\
                forall f, update_session sid f l = l1 ++ f s :: l2
  | None => forall s, s ∈ l -> s_id s <> sid
  end.
Proof.
  induction l as [|s l IH]; simpl; [set_solver |]. destruct (s_id s =? sid) eqn:E; nv_bool.
  - exists [], l. set_solver.
  - destruct (nvkvm_session_find sid l) as [s'|].
    + destruct IH as (l1 & l2 & -> & Hs & Hl & Hu). exists (s :: l1), l2. split_and!; try done; [set_solver |].
      intros f. simpl. by rewrite Hu.
    + set_solver.
Qed.

Lemma add_isolate_ok tbl s id :
  ses_ok tbl s -> o_in_use tbl.[id] = true -> o_session_id tbl.[id] = s_id s -> id ∉ isolate_ids s ->
  ses_ok tbl (add_isolate id s) /\ s_id (add_isolate id s) = s_id s.
Proof.
  intros [] Hu Hs Hn. unfold add_isolate. destruct (_ <? 256) eqn:E; [|done]. nv_bool. split; [|done].
  split; cbn [isolate_ids s_id s_fds]; [by destruct (isolate_ids s) | rewrite length_app; simpl; lia | | | done].
  - apply NoDup_app. split_and!; [done | set_solver | apply NoDup_singleton].
  - intros i [Hi|Hi%list_elem_of_singleton]%elem_of_app; [auto | by subst].
Qed.

(** A new isolate joins its session, found or created. *)
Lemma create_sess_inv tbl tbl' l sid id :
  sess_inv tbl l -> o_in_use tbl.[id] = false -> o_in_use tbl'.[id] = true -> o_session_id tbl'.[id] = sid ->
  (forall k, k <> id -> tbl'.[k] = tbl.[k]) ->
  sess_inv tbl' (update_session sid (add_isolate id)
    (match nvkvm_session_find sid l with Some _ => l | None => nvkvm_session_create sid l end)).
Proof.
  intros Hi Hf Hu Hs Hk.
  assert (sess_inv tbl' l) as Hi'.
  { apply (sess_inv_ext tbl); [done |]. intros i Hui. rewrite Hk by congruence. done. }
  assert (forall s, s ∈ l -> id ∉ isolate_ids s) as Hnew.
  { intros s Hsl Hid. destruct (so_live _ _ (proj1 (Forall_forall _ _) (si_ok _ _ Hi) s Hsl) id Hid). congruence. }
  destruct Hi' as [Hn Ho]. pose proof (find_split sid l) as Hfind.
  destruct (nvkvm_session_find sid l) as [s|].
  - destruct Hfind as (l1 & l2 & -> & Hsid & _ & ->).
    rewrite Forall_app, Forall_cons in Ho. destruct Ho as (O1 & O2 & O3).
    destruct (add_isolate_ok tbl' s id O2 Hu) as [Ha Hsa]; [congruence | apply Hnew; set_solver |].
    split; [by rewrite fmap_app, fmap_cons, Hsa, <- fmap_cons, <- fmap_app | by rewrite Forall_app, Forall_cons].
  - unfold nvkvm_session_create.
    assert (forall f, update_session sid f (l ++ [Ses sid [] []]) = l ++ [f (Ses sid [] [])]) as ->.
    { intros f. clear -Hfind. induction l as [|s l IH]; simpl; [by rewrite Z.eqb_refl |].
      rewrite (proj2 (Z.eqb_neq _ _)) by (apply Hfind; set_solver). f_equal. apply IH. set_solver. }
    unfold add_isolate. simpl. split.
    + rewrite fmap_app. simpl. apply NoDup_app. split_and!; [done | | apply NoDup_singleton].
      intros x (s & -> & Hsl)%list_elem_of_fmap Hx'%list_elem_of_singleton. by apply (Hfind s Hsl).
    + apply Forall_app. split; [done |]. apply Forall_singleton.
      split; cbn [isolate_ids s_id s_fds]; [done | simpl; lia | apply NoDup_singleton | | done].
      intros i ->%list_elem_of_singleton. done.
Qed.

(** ** The death of an isolate *)

Lemma without_other id s : id ∉ isolate_ids s -> without id s = s.
Proof.
  intros Hn. destruct s as [sid ids fds]. unfold without. simpl in *. f_equal.
  induction ids as [|i ids IH]; [done |]. rewrite filter_cons_True by set_solver. f_equal. apply IH. set_solver.
Qed.

Lemma prune_none id n l : (forall s, s ∈ l -> id ∉ isolate_ids s) -> prune id n l = (l, []).
Proof.
  revert n. induction l as [|s l IH]; intros n Hn; [done |]. cbn [prune].
  rewrite without_other by (apply Hn; set_solver). rewrite andb_negb_r, andb_false_l. rewrite IH by set_solver. done.
Qed.

Lemma prune_one id l1 s l2 :
  id ∈ isolate_ids s -> (forall s', s' ∈ l1 ++ l2 -> id ∉ isolate_ids s') ->
  prune id 0 (l1 ++ s :: l2) =
  (l1 ++ without id s :: l2, if bool_decide (isolate_ids (without id s) = []) then [without id s] else []).
Proof.
  intros Hin. induction l1 as [|s1 l1 IH]; intros Hn; cbn [app prune].
  - rewrite !prune_none by done. rewrite (bool_decide_eq_false_2 (isolate_ids s = [])) by (intros E; rewrite E in Hin; by apply not_elem_of_nil in Hin).
    by destruct (bool_decide _).
  - rewrite (without_other id s1) by (apply Hn; set_solver). rewrite andb_negb_r, andb_false_l.
    rewrite IH by set_solver. done.
Qed.

Lemma owner_unique tbl l1 s l2 id :
  sess_inv tbl (l1 ++ s :: l2) -> id ∈ isolate_ids s -> forall s', s' ∈ l1 ++ l2 -> id ∉ isolate_ids s'.
Proof.
  intros [Hn Ho] Hin s' Hs' Hin'. rewrite Forall_forall in Ho.
  assert (s_id s' = s_id s) as E.
  { destruct (so_live _ _ (Ho s ltac:(set_solver)) id Hin) as [_ <-].
    by destruct (so_live _ _ (Ho s' ltac:(set_solver)) id Hin') as [_ <-]. }
  rewrite fmap_app, fmap_cons, <- Permutation_middle in Hn. apply NoDup_cons in Hn as [Hx _]. apply Hx.
  rewrite <- fmap_app, <- E. by apply list_elem_of_fmap_2.
Qed.

Lemma unlink_mid s' l1 s l2 :
  s_id s' = s_id s -> NoDup (s_id <$> l1 ++ s :: l2) -> unlink (s_id s') (l1 ++ s' :: l2) = l1 ++ l2.
Proof.
  intros E Hn. rewrite E. induction l1 as [|s1 l1 IH]; simpl in *; [by rewrite E, Z.eqb_refl |].
  apply NoDup_cons in Hn as [H1 Hn]. rewrite (proj2 (Z.eqb_neq _ _)); [by rewrite IH |].
  intros E'. apply H1. rewrite E', fmap_app. set_solver.
Qed.

(** What the pruning loop and the destruction of emptied sessions do: the killed
    isolate is in one session at most, so at most one session goes. *)
Lemma kill_sessions tbl id (d : dev W) l dl d' cl :
  sess_inv tbl (d_sessions d) -> prune id 0 (d_sessions d) = (l, dl) ->
  destroy_all dl (with_sessions l d) = (d', cl) ->
  d_isolates d' = d_isolates d /\ d_maps d' = d_maps d /\
  ((forall s, s ∈ d_sessions d -> id ∉ isolate_ids s) /\ d_sessions d' = d_sessions d /\
     d_handles d' = d_handles d \/
   exists l1 s l2, d_sessions d = l1 ++ s :: l2 /\ id ∈ isolate_ids s /\
     (forall s', s' ∈ l1 ++ l2 -> id ∉ isolate_ids s') /\
     (isolate_ids (without id s) <> [] /\ d_sessions d' = l1 ++ without id s :: l2 /\ d_handles d' = d_handles d \/
      isolate_ids (without id s) = [] /\ d_sessions d' = l1 ++ l2 /\
      d_handles d' = fst (nvkvm_handle_close_session (s_id s) (d_handles d)))).
Proof.
  intros Hi Hp Hd.
  destruct (decide (Exists (fun s => id ∈ isolate_ids s) (d_sessions d))) as [He|He].
  - apply Exists_exists in He as (s & Hs & Hin). apply list_elem_of_split in Hs as (l1 & l2 & El).
    rewrite El in *. pose proof (owner_unique _ _ _ _ _ Hi Hin) as Hu. rewrite prune_one in Hp by done.
    injection Hp as <- <-. case_bool_decide as Ee; cbn [destroy_all] in Hd.
    + unfold nvkvm_session_destroy in Hd. apply pair_eq in Hd as [<- _]. split_and!; [done .. |]. right. exists l1, s, l2. split_and!; try done. right.
      split_and!; [exact Ee | | reflexivity]. cbn [d_sessions with_handles with_sessions].
      apply (unlink_mid _ _ s); [done | apply Hi].
    + injection Hd as <- _. split_and!; [done .. |]. right. exists l1, s, l2. split_and!; try done. by left.
  - assert (forall s, s ∈ d_sessions d -> id ∉ isolate_ids s) as Hn.
    { intros s Hs Hin. apply He, Exists_exists. eauto. }
    rewrite prune_none in Hp by done. injection Hp as <- <-. cbn in Hd. injection Hd as <- _.
    split_and!; [done .. |]. by left.
Qed.

Lemma without_ok tbl tbl' id s :
  ses_ok tbl s -> isolate_ids (without id s) <> [] -> (forall k, k <> id -> tbl'.[k] = tbl.[k]) ->
  ses_ok tbl' (without id s).
Proof.
  intros [] Hne Hk. split; cbn [without isolate_ids s_id s_fds]; [done | | by apply NoDup_filter | | done].
  - pose proof (length_filter (fun i => i <> id) (isolate_ids s)). lia.
  - intros i (Hi & Hin)%list_elem_of_filter. rewrite Hk by done. auto.
Qed.

(** ** Runs of the device *)

(** The host returns only descriptors no handle holds. *)
Definition unheld (ht : handle_table) (fd : Z) : Prop :=
  forall i, 1 <= i <= 65535 -> 0 <= fd -> hd_fd (tb_handles ht).[i] <> fd.

Definition unheld_res (ht : handle_table) (r : res Z) : Prop :=
  match r with Ok fd => 0 <= fd /\ unheld ht fd | Err _ => True end.

Definition set_va (va : va_table) (d : dev W) : dev W :=
  Dev (d_handles d) (d_isolates d) (d_sessions d) va (d_maps d) (d_graphics d).

(** The second component bounds the extents lost, as in [IsoMmap].  The ioctl
    handler changes the owned UVM ranges only. *)
Inductive dreach : dev W -> Z -> Prop :=
| dr_init w graphics :
    gpa_owns w [] ->
    dreach (Dev nvkvm_handle_table_init nvkvm_isolate_table_init [] va_init (Maps tokens_init w) graphics) 0
| dr_open d n env req d' cl id status :
    dreach d n -> unheld_res (d_handles d) (open_dev (v_open env) (v_eventfd env) (s32 (p_dev_id req)) (s32 (p_flags req))) ->
    (forall h, unheld (d_handles d) (snd (v_device env h (p_dev_id req) (p_flags req)))) ->
    nvkvm_req_open_nvidia_handle env req d = (d', cl, id, status) -> dreach d' n
| dr_memory d n memfd ft sid size d' cl id status :
    dreach d n -> unheld_res (d_handles d) memfd ->
    nvkvm_req_open_memory_handle memfd ft sid size d = (d', cl, id, status) -> dreach d' n
| dr_close d n id d' cl status :
    dreach d n -> 0 <= id -> nvkvm_req_close_handle id d = (d', cl, status) -> dreach d' n
| dr_create d n socketpair sp ring sid d' eff id status :
    dreach d n -> nvkvm_req_create_isolate socketpair sp ring sid d = (d', eff, id, status) -> dreach d' n
| dr_kill d n id d' eff cl status :
    dreach d n -> 0 <= id -> nvkvm_req_kill_isolate kvm_vm_fd id d = (d', eff, cl, status) -> dreach d' n
| dr_copy d n sync iso id d' status :
    dreach d n -> 0 <= id -> nvkvm_req_copy_handle_to_isolate sync iso id d = (d', status) -> dreach d' n
| dr_close_on d n sync iso id d' status :
    dreach d n -> 0 <= id -> nvkvm_req_close_handle_on_isolate sync iso id d = (d', status) -> dreach d' n
| dr_stub_gone d n iso :
    dreach d n -> 0 <= iso -> dreach (with_isolates (reader_exit iso (d_isolates d)) (mp_win (d_maps d)) d) n
| dr_mmap d n host_mmap iso_ret req m eff resp :
    dreach d n -> 0 <= r_length req ->
    nvkvm_req_mmap_on_isolate host_mmap iso_ret (d_handles d) req (d_maps d) = (m, eff, resp) ->
    dreach (with_maps m d) (if bool_decide (host_mmap = None) && (0 <=? iso_ret) then n else n + 1)
| dr_munmap d n token m eff status :
    dreach d n -> nvkvm_req_munmap_on_isolate kvm_vm_fd token (d_maps d) = (m, eff, status) ->
    dreach (with_maps m d) n
| dr_realize d n stub req snap it m resp :
    dreach d n -> 0 <= z_length req ->
    nvkvm_req_realize_uvm_mapping stub req snap it (d_maps d) = (m, resp) ->
    dreach (with_maps m d) (if table_full (mp_tokens (d_maps d)) then n + 1 else n)
| dr_ioctl d n va : dreach d n -> dreach (set_va va d) n
(** Commands to a stub that only take a transaction id of its slot. *)
| dr_command d n k txn :
    dreach d n ->
    dreach (with_isolates (put_iso k (set_txn txn (it_isolates (d_isolates d)).[k]) (d_isolates d)) (mp_win (d_maps d)) d) n.

Record dev_inv (d : dev W) (leaked : list extent) : Prop := {
  di_tab : exists o, treach (d_handles d) o;
  di_next : 1 <= it_next_id (d_isolates d) <= 4095;
  di_iso : forall k, iso_ok k (it_isolates (d_isolates d)).[k];
  di_maps : maps_inv (d_maps d) (ring_extents (it_isolates (d_isolates d)) ++ leaked);
  di_ses : sess_inv (it_isolates (d_isolates d)) (d_sessions d)
}.

Abbreviation mapped d := (extents (tk_tbl (mp_tokens (d_maps d)))).

(** The view of the isolate lemmas. *)
Lemma dev_isos d leaked :
  dev_inv d leaked -> isos_inv (d_isolates d) (mp_win (d_maps d)) (mapped d ++ leaked).
Proof.
  intros [_ Hn Hk [_ _ Ho] _]. split; [done .. |]. eapply gpa_perm; [exact Ho |]. solve_Permutation.
Qed.

Lemma isos_dev d leaked t w :
  dev_inv d leaked -> isos_inv t w (mapped d ++ leaked) ->
  sess_inv (it_isolates t) (d_sessions d) -> dev_inv (with_isolates t w d) leaked.
Proof.
  intros [Ht _ _ [Hs He _] _] [Hn Hk Ho] Hse. split; cbn; try done.
  split; cbn [mp_tokens mp_win]; [done .. |]. eapply gpa_perm; [exact Ho |]. solve_Permutation.
Qed.

Lemma handles_dev d leaked ht o : dev_inv d leaked -> treach ht o -> dev_inv (with_handles ht d) leaked.
Proof. intros [] Ht. split; cbn; try done. by exists o. Qed.

Lemma purge_dev d leaked id : dev_inv d leaked -> dev_inv (purge_va id d) leaked.
Proof. intros []. by split. Qed.

Lemma maps_dev d leaked lost m :
  dev_inv d leaked -> maps_inv m (lost ++ ring_extents (it_isolates (d_isolates d)) ++ leaked) ->
  dev_inv (with_maps m d) (lost ++ leaked).
Proof.
  intros [] [Hs He Ho]. split; cbn; try done. split; [done .. |]. eapply gpa_perm; [exact Ho |]. solve_Permutation.
Qed.

Lemma unheld_own ht o fd : treach ht o -> unheld ht fd -> fd ∉ o.
Proof. intros Hi%treach_inv Hu Hin. destruct (tv_all _ _ Hi fd Hin) as (i & Hr & Hf & Hp). by apply (Hu i). Qed.

Lemma unheld_fresh ht o r : treach ht o -> unheld_res ht r -> fresh r o.
Proof. intros Ht. destruct r; [|done]. intros [? ?]. split; [done | by eapply unheld_own]. Qed.

Lemma install_spec ht o type fd sid dev ht' r cl :
  treach ht o -> install type fd sid dev ht = (ht', r, cl) ->
  match r with
  | Ok id => 1 <= id <= 65535 /\ hd_in_use (tb_handles ht).[id] = false /\ cl = [] /\
      tb_handles ht' = (tb_handles ht).[id <- Hnd id type fd sid dev 0 false true]
  | Err e => e = EMFILE /\ tb_handles ht' = tb_handles ht /\ cl = if 0 <=? fd then [fd] else []
  end.
Proof.
  intros Hi%treach_inv. unfold install. pose proof (alloc_slot_spec ht (tv_next _ _ Hi)) as Ha.
  destruct (alloc_slot ht) as [t1 [id|]]; intros [= <- <- <-]; [|by destruct Ha].
  destruct Ha as (A1 & A2 & A3 & _). unfold put. cbn. by rewrite A3, insert_insert_eq.
Qed.

Lemma pending_spec ht o sid dev ht' r :
  treach ht o -> nvkvm_handle_alloc_pending sid dev ht = (ht', r) ->
  match r with
  | Ok id => 1 <= id <= 65535 /\ hd_in_use (tb_handles ht).[id] = false /\
      tb_handles ht' = (tb_handles ht).[id <- Hnd id NVKVM_HANDLE_TYPE_NVIDIA (-1) sid dev 0 false true]
  | Err e => e = EMFILE /\ tb_handles ht' = tb_handles ht
  end.
Proof.
  intros Hi. unfold nvkvm_handle_alloc_pending. destruct (install _ _ _ _ _) as [[t1 r1] cl] eqn:E.
  intros [= <- <-]. apply (install_spec _ o) in E; [|done]. destruct r1; naive_solver.
Qed.

Lemma send_handle_reach sync iso id t ht o :
  treach ht o -> 0 <= id -> treach (fst (nvkvm_isolate_send_handle sync iso id t ht)) o.
Proof.
  intros Ht H0. unfold nvkvm_isolate_send_handle. repeat case_match; try done. by apply tr_ref.
Qed.

(** The commands that advance the transaction counter or mark the stub dead. *)
Lemma isos_touch t w l k o :
  isos_inv t w l -> o_in_use o = o_in_use (it_isolates t).[k] -> o_id o = o_id (it_isolates t).[k] ->
  o_ring_gpa o = o_ring_gpa (it_isolates t).[k] -> o_ring_qva o = o_ring_qva (it_isolates t).[k] ->
  o_ring_region_size o = o_ring_region_size (it_isolates t).[k] ->
  isos_inv (put_iso k o t) w l.
Proof.
  intros Hi E1 E2 E3 E4 E5. apply isos_put; [done | apply Hi | | unfold ring_ext; by rewrite E3, E5].
  destruct (ii_ok _ _ _ Hi k) as [I1 I2]. split; rewrite ?E1, ?E2, ?E3, ?E4, ?E5; done.
Qed.

Lemma sess_touch tbl k o l :
  sess_inv tbl l -> o_in_use o = o_in_use tbl.[k] -> o_session_id o = o_session_id tbl.[k] ->
  sess_inv (tbl.[k <- o]) l.
Proof.
  intros Hi E1 E2. apply (sess_inv_ext tbl); [done |]. intros i Hu. rewrite aget_set.
  case_decide; [subst k; by rewrite E1, E2 | done].
Qed.

Lemma touch_dev d leaked k o :
  dev_inv d leaked -> o_in_use o = o_in_use (it_isolates (d_isolates d)).[k] ->
  o_id o = o_id (it_isolates (d_isolates d)).[k] ->
  o_ring_gpa o = o_ring_gpa (it_isolates (d_isolates d)).[k] ->
  o_ring_qva o = o_ring_qva (it_isolates (d_isolates d)).[k] ->
  o_ring_region_size o = o_ring_region_size (it_isolates (d_isolates d)).[k] ->
  o_session_id o = o_session_id (it_isolates (d_isolates d)).[k] ->
  dev_inv (with_isolates (put_iso k o (d_isolates d)) (mp_win (d_maps d)) d) leaked.
Proof.
  intros Hi E1 E2 E3 E4 E5 E6. apply isos_dev; [done | by apply isos_touch, E5; [apply dev_isos | ..] |].
  apply sess_touch; [apply Hi | done | done].
Qed.

Lemma open_device_dev d leaked answer iso h dv fl t' cl ret fd :
  dev_inv d leaked -> nvkvm_isolate_open_device answer iso h dv fl (d_isolates d) = (t', cl, ret, fd) ->
  dev_inv (with_isolates t' (mp_win (d_maps d)) d) leaked /\
  (ret < 0 \/ 0 <= ret) /\ (fd < 0 \/ fd = snd (answer h dv fl) /\ 0 <= fd /\ cl = [] /\ ret = 0).
Proof.
  intros Hi. unfold nvkvm_isolate_open_device.
  assert (dev_inv (with_isolates (d_isolates d) (mp_win (d_maps d)) d) leaked) as Hsame
    by (apply isos_dev; [done | by apply dev_isos | apply Hi]).
  destruct (bad_isolate iso); [intros [= <- <- <- <-]; split; [done | lia] |].
  assert (forall n, dev_inv (with_isolates (put_iso (iso mod NVKVM_ISOLATE_MAX)
    (set_txn n (it_isolates (d_isolates d)).[iso mod NVKVM_ISOLATE_MAX]) (d_isolates d)) (mp_win (d_maps d)) d) leaked)
    as Ht by (intros; by apply touch_dev).
  destruct (negb (iso_valid _ _)); [intros [= <- <- <- <-]; split; [apply Ht | lia] |].
  destruct (answer h dv fl) as [err f]. destruct (negb _); [intros [= <- <- <- <-]; split; [apply Ht | lia] |].
  destruct (f <? 0) eqn:Ef; nv_bool; intros [= <- <- <- <-]; (split; [apply Ht |]); simpl; lia || (split; [lia | right; done]).
Qed.

(** ** Opening a handle *)

Lemma get_same i t t' :
  0 <= i ->
  (tb_handles t').[i] = (tb_handles t).[i] \/
  hd_in_use (tb_handles t').[i] = false /\ hd_in_use (tb_handles t).[i] = false ->
  nvkvm_handle_get i t' = nvkvm_handle_get i t.
Proof.
  intros H0 Hx. unfold nvkvm_handle_get, live_entry. destruct (bad_id i) eqn:Eb; [done |].
  unfold bad_id, NVKVM_HANDLE_MAX in Eb. nv_bool. rewrite !mod_id by lia.
  destruct Hx as [->|[-> ->]]; done.
Qed.

(** A live handle with one entry replaced. *)
Lemma get_put t id h :
  1 <= id <= 65535 -> hd_in_use h = true -> hd_id h = id ->
  nvkvm_handle_get id (put id h t) = Some h /\
  forall i, 0 <= i -> i <> id -> nvkvm_handle_get i (put id h t) = nvkvm_handle_get i t.
Proof.
  intros Hr Hu Hid. split.
  - apply get_iff; [lia |]. unfold put. cbn. by rewrite aget_set_eq.
  - intros i H0 Hne. apply get_same; [done |]. left. unfold put. cbn. by rewrite aget_set_ne.
Qed.

(** A pending slot given up again is as if it had never been taken. *)
Lemma abort_pending ht ht1 id h :
  1 <= id <= 65535 -> hd_in_use (tb_handles ht).[id] = false -> hd_in_use h = true -> hd_id h = id -> hd_fd h < 0 ->
  tb_handles ht1 = (tb_handles ht).[id <- h] ->
  forall i, 0 <= i -> nvkvm_handle_get i (nvkvm_handle_abort_open id ht1) = nvkvm_handle_get i ht.
Proof.
  intros Hr Hf Hu Hid Hfd Ht i H0.
  assert (nvkvm_handle_get id ht1 = Some h) as Hg by (apply get_iff; [lia | by rewrite Ht, aget_set_eq]).
  unfold nvkvm_handle_abort_open. unfold nvkvm_handle_get in Hg. destruct (bad_id id); [done |]. rewrite Hg.
  rewrite (proj2 (Z.ltb_lt _ _) Hfd), mod_id by done. apply get_same; [done |]. unfold put. cbn. rewrite Ht, insert_insert_eq, aget_set.
  case_decide; [right; by subst | by left].
Qed.

(** The handle after a successful open. *)
Definition opened (id fd sid dev refs : Z) : handle :=
  Hnd id NVKVM_HANDLE_TYPE_NVIDIA fd sid dev refs false true.

Definition open_ok (d d' : dev W) (req : open_req) (id fd refs : Z) : Prop :=
  nvkvm_handle_get id (d_handles d) = None /\
  nvkvm_handle_get id (d_handles d') = Some (opened id fd (p_session_id req) (s32 (p_dev_id req)) refs) /\
  forall i, 0 <= i -> i <> id -> nvkvm_handle_get i (d_handles d') = nvkvm_handle_get i (d_handles d).

Lemma free_get t id : 0 <= id -> hd_in_use (tb_handles t).[id] = false -> nvkvm_handle_get id t = None.
Proof.
  intros H0 Hf. destruct (nvkvm_handle_get id t) as [h|] eqn:E; [|done].
  apply get_iff in E as (_ & -> & Hu & _); [congruence | done].
Qed.

(** Taking a reference on a handle just installed. *)
Lemma ref_opened t id h :
  1 <= id <= 65535 -> hd_in_use h = true -> hd_id h = id -> (tb_handles t).[id] = h ->
  nvkvm_handle_get id (fst (nvkvm_handle_ref_isolate id t)) = Some (set_refs (u32 (hd_isolate_refcount h + 1)) h) /\
  forall i, 0 <= i -> i <> id -> nvkvm_handle_get i (fst (nvkvm_handle_ref_isolate id t)) = nvkvm_handle_get i t.
Proof.
  intros Hr Hu Hid Ht. assert (nvkvm_handle_get id t = Some h) as Hg by (apply get_iff; [lia | by rewrite Ht]).
  unfold nvkvm_handle_ref_isolate. rewrite Hg. cbn [fst]. rewrite mod_id by done. by apply get_put.
Qed.

(** What an open leaves: a refused one no handle and no descriptor, a granted one
    exactly one new handle. *)
Definition open_outcome (d d' : dev W) (req : open_req) (cl : list Z) (id status : Z) (fd : res Z) : Prop :=
  id = 0 /\ (forall i, 0 <= i -> nvkvm_handle_get i (d_handles d') = nvkvm_handle_get i (d_handles d)) /\
    (forall f, fd = Ok f -> f ∈ cl) \/
  status = 0 /\ 1 <= id <= 65535 /\ cl = [] /\
    exists f refs, fd = Ok f /\ 0 <= f /\ 0 <= refs <= 1 /\
      (s32 (p_dev_id req) <> NVKVM_DEV_UVM -> refs = 1) /\ open_ok d d' req id f refs.

Lemma send_opened sync iso id t ht h :
  1 <= id <= 65535 -> hd_in_use h = true -> hd_id h = id -> hd_isolate_refcount h = 0 -> (tb_handles ht).[id] = h ->
  let ht' := fst (nvkvm_isolate_send_handle sync iso id t ht) in
  exists refs, 0 <= refs <= 1 /\ nvkvm_handle_get id ht' = Some (set_refs refs h) /\
    forall i, 0 <= i -> i <> id -> nvkvm_handle_get i ht' = nvkvm_handle_get i ht.
Proof.
  intros Hr Hu Hid Hrc Ht. cbv zeta.
  assert (nvkvm_handle_get id ht = Some h) as Hg by (apply get_iff; [lia | by rewrite Ht]).
  assert (set_refs 0 h = h) as H0 by (destruct h; simpl in *; by subst).
  unfold nvkvm_isolate_send_handle. destruct (negb _); cbn [fst]; [exists 0; rewrite H0; split_and!; done |].
  rewrite Hg. destruct (0 <=? hd_fd h); cbn [fst]; [|exists 0; rewrite H0; split_and!; done].
  destruct (sync =? 0); [|exists 0; rewrite H0; split_and!; done].
  exists 1. destruct (ref_opened ht id h Hr Hu Hid Ht) as [E1 E2]. rewrite Hrc in E1. split_and!; try done.
Qed.

Lemma open_uvm_spec d leaked env req d' cl id status :
  dev_inv d leaked -> unheld_res (d_handles d) (open_dev (v_open env) (v_eventfd env) (s32 (p_dev_id req)) (s32 (p_flags req))) ->
  s32 (p_dev_id req) = NVKVM_DEV_UVM ->
  nvkvm_req_open_nvidia_handle env req d = (d', cl, id, status) ->
  dev_inv d' leaked /\
  open_outcome d d' req cl id status (open_dev (v_open env) (v_eventfd env) (s32 (p_dev_id req)) (s32 (p_flags req))).
Proof.
  intros Hi Hf Hd. destruct (di_tab _ _ Hi) as [o Ho]. pose proof (unheld_fresh _ _ _ Ho Hf) as Hfr.
  unfold nvkvm_req_open_nvidia_handle, graphics_only. unfold open_outcome. rewrite Hd in *. simpl. rewrite andb_false_r.
  destruct (nvkvm_handle_open_nvidia _ _ _ _ _ _) as [[ht r] cl1] eqn:En.
  pose proof (tr_open _ _ _ _ _ _ _ _ _ _ Ho Hfr En) as Ht. unfold nvkvm_handle_open_nvidia in En.
  destruct (open_dev _ _ _ _) as [fd|e].
  - apply (install_spec _ o) in En; [|done]. destruct r as [nid|e].
    + destruct En as (Hr & Hu & -> & Htb). destruct Hf as [Hf0 Hf].
      set (iso := session_first_isolate _ _). intros [= <- <- <- <-]. split.
      { eapply handles_dev; [done |]. destruct (iso =? 0); [exact Ht | apply send_handle_reach; [exact Ht | lia]]. }
      right. split_and!; try done; try lia.
      destruct (send_opened (v_send env) iso nid (d_isolates d) ht (opened nid fd (p_session_id req) NVKVM_DEV_UVM 0) Hr
        eq_refl eq_refl eq_refl) as (refs & Hrf & G1 & G2); [by rewrite Htb, aget_set_eq |].
      assert (forall i, 0 <= i -> i <> nid -> nvkvm_handle_get i ht = nvkvm_handle_get i (d_handles d)) as Hoth.
      { intros i Hi0 Hne. apply get_same; [done |]. left. by rewrite Htb, aget_set_ne. }
      pose proof (free_get (d_handles d) nid ltac:(lia) Hu) as Hfree.
      destruct (iso =? 0).
      * exists fd, 0. unfold open_ok. rewrite Hd. split_and!; try done.
        apply get_iff; [lia |]. cbn. by rewrite Htb, aget_set_eq.
      * exists fd, refs. unfold open_ok. rewrite Hd. split_and!; try done; try lia.
        intros i Hi0 Hne. cbn. rewrite G2 by done. by apply Hoth.
    + destruct En as (-> & Htb & ->). intros [= <- <- <- <-]. split; [by eapply handles_dev |]. left. split_and!; [done | |].
      * intros i Hi0. apply get_same; [done |]. left. cbn. by rewrite Htb.
      * intros f [= <-]. destruct Hf as [Hf0 _]. rewrite (proj2 (Z.leb_le _ _) Hf0). set_solver.
  - injection En as <- <- <-. intros [= <- <- <- <-]. split; [by eapply handles_dev | by left].
Qed.

(** The descriptor that arrives for an open, from the host or from the isolate. *)
Definition received (env : open_env) (req : open_req) (d : dev W) : res Z :=
  let dev_id := s32 (p_dev_id req) in
  let iso := session_first_isolate (p_session_id req) (d_sessions d) in
  if negb (d_graphics d) && graphics_only (p_dev_id req) then Err EPERM
  else if dev_id =? NVKVM_DEV_UVM then open_dev (v_open env) (v_eventfd env) dev_id (s32 (p_flags req))
  else match nvkvm_handle_alloc_pending (p_session_id req) dev_id (d_handles d) with
       | (_, Err e) => Err e
       | (_, Ok id) => let fd := snd (v_device env id (p_dev_id req) (p_flags req)) in
                       if iso_valid iso (d_isolates d) && (0 <=? fd) then Ok fd else Err ENODEV
       end.

Lemma open_device_fd answer iso h dv fl t t' cl ret fd :
  nvkvm_isolate_open_device answer iso h dv fl t = (t', cl, ret, fd) ->
  let a := snd (answer h dv fl) in
  (iso_valid iso t = true -> 0 <= a -> a ∈ cl \/ fd = a /\ cl = [] /\ ret = 0) /\
  (ret <> 0 -> fd = -1) /\ (0 <= fd -> fd = a /\ cl = [] /\ iso_valid iso t = true) /\ (ret = 0 -> 0 <= fd).
Proof.
  cbv zeta. unfold nvkvm_isolate_open_device. destruct (bad_isolate iso) eqn:Eb.
  { intros [= <- <- <- <-]. split_and!; [|done | lia | done]. unfold iso_valid, iso_entry. by rewrite Eb. }
  destruct (iso_valid iso t); simpl; [|intros [= <- <- <- <-]; split_and!; (done || lia)].
  destruct (answer h dv fl) as [err f]. destruct (err =? 0) eqn:Ee; simpl; nv_bool.
  - destruct (f <? 0) eqn:Ef; nv_bool; intros [= <- <- <- <-]; simpl; split_and!; try done; try lia. by right.
  - intros [= <- <- <- <-]. simpl. split_and!; try done; try lia. intros _ H0.
    rewrite (proj2 (Z.leb_le _ _) H0). left. set_solver.
Qed.

(** Attaching a descriptor to a pending handle fails only without one. *)
Lemma attach_pending ht id h fd ht' r :
  1 <= id <= 65535 -> (tb_handles ht).[id] = h -> hd_in_use h = true -> hd_id h = id -> hd_fd h < 0 ->
  nvkvm_handle_attach_fd id fd ht = (ht', r) ->
  if 0 <=? fd then r = Ok tt /\ tb_handles ht' = (tb_handles ht).[id <- set_fd fd h] else ht' = ht /\ r = Err EINVAL.
Proof.
  intros Hr Ht Hu Hid Hfd. unfold nvkvm_handle_attach_fd.
  assert (bad_id id = false) as -> by (unfold bad_id, NVKVM_HANDLE_MAX; lia). simpl.
  destruct (0 <=? fd) eqn:E; nv_bool; [rewrite (proj2 (Z.ltb_ge _ _)) by lia | rewrite (proj2 (Z.ltb_lt _ _)) by lia; by intros [= <- <-]].
  assert (live_entry id ht = Some h) as ->.
  { unfold live_entry. by rewrite mod_id, Ht, Hu, Hid, Z.eqb_refl by done. }
  rewrite (proj2 (Z.leb_gt _ _) Hfd), mod_id by done. by intros [= <- <-].
Qed.

Lemma open_iso_spec d leaked env req d' cl id status :
  dev_inv d leaked -> (forall h, unheld (d_handles d) (snd (v_device env h (p_dev_id req) (p_flags req)))) ->
  s32 (p_dev_id req) <> NVKVM_DEV_UVM ->
  nvkvm_req_open_nvidia_handle env req d = (d', cl, id, status) ->
  dev_inv d' leaked /\ open_outcome d d' req cl id status (received env req d).
Proof.
  intros Hi Hf Hd. destruct (di_tab _ _ Hi) as [o Ho].
  unfold nvkvm_req_open_nvidia_handle, received. destruct (negb _ && _); [intros [= <- <- <- <-]; split; [done | by left] |].
  rewrite (proj2 (Z.eqb_neq _ _) Hd). set (iso := session_first_isolate _ _).
  destruct (nvkvm_handle_alloc_pending _ _ _) as [ht r] eqn:Ep. pose proof (tr_pending _ _ _ _ _ _ Ho Ep) as Ht.
  apply (pending_spec _ o) in Ep; [|done]. destruct (iso =? 0) eqn:E0.
  { nv_bool. rewrite E0. intros [= <- <- <- <-]. split; [done |]. left. by destruct r. }
  destruct r as [nid|e]; [|intros [= <- <- <- <-]; split; [by eapply handles_dev |]; left; split_and!; try done].
  2: { intros i Hi0. apply get_same; [done |]. left. cbn. by destruct Ep as [_ ->]. }
  destruct Ep as (Hr & Hu & Htb). set (h := Hnd nid NVKVM_HANDLE_TYPE_NVIDIA (-1) _ _ 0 false true) in Htb.
  cbv zeta. destruct (nvkvm_isolate_open_device _ _ _ _ _ _) as [[[t1 cl1] ret] fd] eqn:Eo.
  destruct (open_device_dev _ _ _ _ _ _ _ _ _ _ _ Hi Eo) as [Hi1 _].
  apply open_device_fd in Eo as (F1 & F2 & F3 & F4). specialize (Hf nid).
  set (fd0 := snd (v_device env nid (p_dev_id req) (p_flags req))) in *.
  set (d1 := with_isolates t1 (mp_win (d_maps d)) (with_handles ht d)).
  assert (forall ht2 o2, treach ht2 o2 -> dev_inv (with_handles ht2 d1) leaked) as Hd1
    by (intros ht2 o2 H2; destruct Hi1; split; try done; by exists o2).
  pose proof (abort_pending (d_handles d) ht nid h Hr Hu eq_refl eq_refl eq_refl Htb) as Hab.
  assert (forall cl2, fd < 0 -> forall f, (if iso_valid iso (d_isolates d) && (0 <=? fd0) then Ok fd0 else Err ENODEV) = Ok f ->
    f ∈ cl1 ++ cl2) as Hcl.
  { intros cl2 Hneg f. destruct (_ && _) eqn:E; [|done]. intros [= <-]. nv_bool. destruct F1; [done | done | set_solver | lia]. }
  destruct (ret <? 0) eqn:Er; nv_bool.
  { intros [= <- <- <- <-]. split; [eapply Hd1, tr_abort; [exact Ht | lia] |]. left. split_and!; [done | done |].
    intros f Hff. rewrite <- (app_nil_r cl1). apply Hcl; [|done]. rewrite F2; lia. }
  destruct (nvkvm_handle_attach_fd nid fd ht) as [ht1 ra] eqn:Ea.
  pose proof Ea as Hat. apply (attach_pending ht nid h) in Ea; [|done | by rewrite Htb, aget_set_eq | done | done | done].
  destruct (0 <=? fd) eqn:Efd; nv_bool.
  - destruct Ea as [-> Ea]. destruct (F3 Efd) as (Hfd & -> & Hv). intros [= <- <- <- <-].
    assert (fd ∉ o) as Hno by (eapply unheld_own; [exact Ho | by rewrite Hfd]).
    split; [eapply Hd1, tr_ref; [eapply (tr_attach ht o nid); [exact Ht | lia | exact Hno | exact Hat] | lia] |].
    right. split_and!; try done; try lia. exists fd, 1. rewrite Hv, <- Hfd, (proj2 (Z.leb_le _ _) Efd).
    split_and!; try done; try lia.
    destruct (ref_opened ht1 nid (set_fd fd h) Hr eq_refl eq_refl) as [G1 G2]; [by rewrite Ea, aget_set_eq |].
    split_and!; [by apply free_get; [lia |] | exact G1 |].
    intros i Hi0 Hne. cbn [d_handles with_handles]. rewrite G2 by done. apply get_same; [done |]. left. by rewrite Ea, Htb, !aget_set_ne.
  - destruct Ea as [-> ->]. intros [= <- <- <- <-]. split; [eapply Hd1, tr_abort; [exact Ht | lia] |].
    left. split_and!; [done | done |]. by apply Hcl.
Qed.

(** ** The invariant of runs *)

Lemma create_dev d leaked socketpair sp ring sid d' eff id status :
  dev_inv d leaked -> nvkvm_req_create_isolate socketpair sp ring sid d = (d', eff, id, status) ->
  dev_inv d' leaked.
Proof.
  intros Hi. unfold nvkvm_req_create_isolate.
  destruct (nvkvm_isolate_create _ _ _ _ _ _) as [[[t1 w1] eff1] r] eqn:Ec.
  destruct (create_inv _ _ _ _ _ _ _ _ _ _ _ (dev_isos _ _ Hi) Ec) as [Hi1 Hr]. pose proof (di_ses _ _ Hi) as Hs.
  destruct r as [nid|e]; intros [= <- _ _ _].
  - destruct Hr as (_ & Hu & Hu1 & Hsid & Hk).
    pose proof (create_sess_inv _ _ _ _ _ Hs Hu Hu1 Hsid Hk) as Hs1.
    destruct Hi as [Ht _ _ [Hq He _] _], Hi1 as [Hn1 Hk1 Ho1]. split; cbn; try done.
    split; cbn [mp_tokens mp_win]; [done .. |]. eapply gpa_perm; [exact Ho1 |]. solve_Permutation.
  - apply isos_dev; [done .. |]. apply (sess_inv_ext _ _ _ Hs). intros i Hu. by rewrite (Hr i Hu).
Qed.

(** Sessions and handles after a kill. *)
Lemma kill_sess_ok tbl tbl' id (d : dev W) l dl d' cl :
  sess_inv tbl (d_sessions d) -> (forall k, k <> id -> tbl'.[k] = tbl.[k]) ->
  prune id 0 (d_sessions d) = (l, dl) -> destroy_all dl (with_sessions l d) = (d', cl) ->
  sess_inv tbl' (d_sessions d').
Proof.
  intros Hs Hk Ep Ed. destruct (kill_sessions _ _ _ _ _ _ _ Hs Ep Ed) as (_ & _ & Hcase).
  assert (forall s, ses_ok tbl s -> id ∉ isolate_ids s -> ses_ok tbl' s) as Hkeep.
  { intros s Hok Hn. apply (ses_ok_ext _ _ _ Hok). intros i Hin. rewrite Hk; [done |]. intros ->. done. }
  destruct Hs as [Hn Hok]. rewrite Forall_forall in Hok.
  destruct Hcase as [(Hno & -> & _)|(l1 & s & l2 & El & Hin & Hoth & Hcase)].
  { split; [done |]. apply Forall_forall. auto. }
  rewrite El in Hn, Hok. rewrite fmap_app, fmap_cons in Hn.
  destruct Hcase as [(Hne & -> & _)|(He & -> & _)].
  - split; [by rewrite fmap_app, fmap_cons |].
    rewrite Forall_app, Forall_cons, !Forall_forall. split_and!; [set_solver | | set_solver].
    apply (without_ok tbl); [apply Hok; set_solver | done | done].
  - rewrite <- Permutation_middle in Hn. apply NoDup_cons in Hn as [_ Hn].
    split; [by rewrite fmap_app | apply Forall_forall; set_solver].
Qed.

Lemma kill_handles_reach tbl id (d : dev W) l dl d' cl :
  sess_inv tbl (d_sessions d) -> (exists o, treach (d_handles d) o) ->
  prune id 0 (d_sessions d) = (l, dl) -> destroy_all dl (with_sessions l d) = (d', cl) ->
  exists o, treach (d_handles d') o.
Proof.
  intros Hs [o Ho] Ep Ed. destruct (kill_sessions _ _ _ _ _ _ _ Hs Ep Ed) as (_ & _ & [(_ & _ & ->)|(l1 & s & l2 & _ & _ & _ & Hcase)]); [by exists o |].
  destruct Hcase as [(_ & _ & ->)|(_ & _ & ->)]; [by exists o |].
  destruct (nvkvm_handle_close_session (s_id s) (d_handles d)) as [ht cl3] eqn:Ec. eexists. eapply tr_close_session; [exact Ho | exact Ec].
Qed.

(** The whole of a kill. *)
Lemma kill_dev d leaked id d' eff cl status :
  dev_inv d leaked -> 0 <= id -> nvkvm_req_kill_isolate kvm_vm_fd id d = (d', eff, cl, status) ->
  dev_inv d' leaked /\
  (status = if o_in_use (it_isolates (d_isolates d)).[id] then 0 else ENOENT) /\
  o_in_use (it_isolates (d_isolates d')).[id] = false /\
  (forall k, k <> id -> (it_isolates (d_isolates d')).[k] = (it_isolates (d_isolates d)).[k]) /\
  reaped_upto id (tk_tbl (mp_tokens (d_maps d))) 8192 (tk_tbl (mp_tokens (d_maps d'))) /\
  exists d1 l dl, d_sessions d1 = d_sessions d /\ d_handles d1 = d_handles d /\
    prune id 0 (d_sessions d1) = (l, dl) /\ destroy_all dl (with_sessions l d1) = (d', cl).
Proof.
  intros Hi H0. unfold nvkvm_req_kill_isolate.
  destruct (nvkvm_isolate_kill _ _ _) as [[[t1 w1] eff1] r] eqn:Ek.
  destruct (kill_inv _ _ _ _ _ _ _ _ (dev_isos _ _ Hi) H0 Ek) as ([In Ik Io] & Hu & Hk & Hr).
  assert (maps_inv (d_maps (with_isolates t1 w1 d)) (ring_extents (it_isolates t1) ++ leaked)) as Hm.
  { destruct Hi as [_ _ _ [Hq He _] _]. split; cbn [mp_tokens mp_win d_maps with_isolates]; [done .. |].
    eapply gpa_perm; [exact Io |]. solve_Permutation. }
  destruct (nvkvm_iso_mmap_reap_isolate _ _ _) as [[m1 eff2] k2] eqn:Er.
  apply (reap_spec kvm_vm_fd _ _ id _ _ _ Hm) in Er as (Hm1 & Hreap & _). cbn [with_isolates d_maps mp_tokens] in Hreap.
  destruct (prune id 0 (d_sessions (with_isolates t1 w1 d))) as [l dl] eqn:Ep.
  set (d1 := with_maps m1 (with_isolates t1 w1 d)).
  destruct (destroy_all dl (with_sessions l d1)) as [d2 cl2] eqn:Ed. intros [= <- _ <- <-].
  destruct (kill_sessions _ _ d1 _ _ _ _ (di_ses _ _ Hi) Ep Ed) as (E1 & E2 & _). rewrite E1, E2.
  pose proof (kill_sess_ok _ (it_isolates t1) _ d1 _ _ _ _ (di_ses _ _ Hi) Hk Ep Ed) as Hs2.
  pose proof (kill_handles_reach _ _ d1 _ _ _ _ (di_ses _ _ Hi) (di_tab _ _ Hi) Ep Ed) as Ht2.
  split_and!; [split; by rewrite ?E1, ?E2 | | exact Hu | exact Hk | exact Hreap | by exists d1, l, dl].
  rewrite Hr. by destruct (o_in_use (it_isolates (d_isolates d)).[id]).
Qed.

Lemma stub_gone_dev d leaked iso :
  dev_inv d leaked -> 0 <= iso ->
  dev_inv (with_isolates (reader_exit iso (d_isolates d)) (mp_win (d_maps d)) d) leaked.
Proof.
  intros Hi H0. unfold reader_exit. destruct (iso_entry iso (d_isolates d)) as [o|] eqn:E.
  - apply iso_entry_iff in E as (Hr & -> & _); [|done]. rewrite mod_iso by done. by apply touch_dev.
  - apply isos_dev; [done | by apply dev_isos | apply Hi].
Qed.

Lemma dreach_inv d n : dreach d n -> exists leaked, dev_inv d leaked /\ Z.of_nat (length leaked) <= n.
Proof.
  induction 1 as [w g Hw|d n env req d' cl id status _ (lk & Hi & Hn) Hf1 Hf2 Hq
    |d n memfd ft sid size d' cl id status _ (lk & Hi & Hn) Hf Hq|d n id d' cl status _ (lk & Hi & Hn) H0 Hq
    |d n so sp ring sid d' eff id status _ (lk & Hi & Hn) Hq|d n id d' eff cl status _ (lk & Hi & Hn) H0 Hq
    |d n sync iso id d' status _ (lk & Hi & Hn) H0 Hq|d n sync iso id d' status _ (lk & Hi & Hn) H0 Hq
    |d n iso _ (lk & Hi & Hn) H0|d n hm ir req m eff resp _ (lk & Hi & Hn) Hl Hq|d n tok m eff status _ (lk & Hi & Hn) Hq
    |d n stub req snap it m resp _ (lk & Hi & Hn) Hl Hq|d n va _ (lk & Hi & Hn)
    |d n k txn _ (lk & Hi & Hn)].
  - exists []. split; [|done]. split; cbn; try lia; [by exists ∅; constructor | intros k; rewrite aget_empty; apply iso_ok_empty | |].
    + split; cbn; [lia | by intros k; rewrite aget_empty | done].
    + split; [constructor | done].
  - exists lk. split; [|done]. destruct (decide (s32 (p_dev_id req) = NVKVM_DEV_UVM)) as [E|E].
    + by eapply open_uvm_spec.
    + by eapply open_iso_spec.
  - exists lk. split; [|done]. destruct (di_tab _ _ Hi) as [o Ho]. unfold nvkvm_req_open_memory_handle in Hq.
    destruct (nvkvm_handle_open_memory _ _ _ _ _) as [[ht r] cl1] eqn:E.
    pose proof (tr_memory _ _ _ _ _ _ _ _ _ Ho (unheld_fresh _ _ _ Ho Hf) E) as Ht.
    destruct r; injection Hq as <- _ _ _; by eapply handles_dev.
  - exists lk. split; [|done]. destruct (di_tab _ _ Hi) as [o Ho]. unfold nvkvm_req_close_handle in Hq.
    destruct (nvkvm_handle_close _ _) as [[ht r] cl1] eqn:E. injection Hq as <- _ _.
    eapply handles_dev; [by apply purge_dev | by eapply tr_close].
  - exists lk. split; [by eapply create_dev | done].
  - exists lk. split; [by eapply kill_dev | done].
  - exists lk. split; [|done]. destruct (di_tab _ _ Hi) as [o Ho]. unfold nvkvm_req_copy_handle_to_isolate in Hq.
    pose proof (send_handle_reach sync iso id (d_isolates d) _ _ Ho H0) as Ht.
    destruct (nvkvm_isolate_send_handle _ _ _ _ _) as [ht ret]. injection Hq as <- _. by eapply handles_dev.
  - exists lk. split; [|done]. destruct (di_tab _ _ Hi) as [o Ho].
    unfold nvkvm_req_close_handle_on_isolate, nvkvm_isolate_close_handle in Hq. cbn [d_handles d_isolates purge_va] in Hq.
    destruct (negb _); injection Hq as <- _; (eapply handles_dev; [by apply purge_dev |]); [exact Ho |].
    case_match; [by apply tr_unref | exact Ho].
  - exists lk. split; [by apply stub_gone_dev | done].
  - destruct (mmap_inv _ _ _ _ _ _ _ _ _ (di_maps _ _ Hi) Hl Hq) as (lost & Hm & Hlost). exists (lost ++ lk).
    split; [by apply maps_dev |]. rewrite length_app. destruct (_ && _); lia.
  - exists lk. split; [|done]. apply (maps_dev d lk []); [done |]. eapply munmap_inv; [apply Hi | exact Hq].
  - destruct (realize_inv _ _ _ _ _ _ _ _ (di_maps _ _ Hi) Hl Hq) as (lost & Hm & Hlost). exists (lost ++ lk).
    split; [by apply maps_dev |]. rewrite length_app. case_match; lia.
  - exists lk. split; [|done]. destruct Hi. by split.
  - exists lk. split; [by apply touch_dev | done].
Qed.

Lemma tables_sound d n :
  dreach d n ->
  let tbl := it_isolates (d_isolates d) in
  let maps := tk_tbl (mp_tokens (d_maps d)) in
  NoDup (s_id <$> d_sessions d) /\
  (forall s, s ∈ d_sessions d -> (1 <= length (isolate_ids s) <= 256)%nat /\ NoDup (isolate_ids s) /\
     forall i, i ∈ isolate_ids s -> 1 <= i <= 4095 /\ o_in_use tbl.[i] = true /\ o_session_id tbl.[i] = s_id s) /\
  (forall i j e, i <> j -> e ∈ ring_ext tbl.[i] -> forall e', e' ∈ ring_ext tbl.[j] -> disj e e') /\
  (forall i k e, e ∈ ring_ext tbl.[i] -> m_used maps.[k] = true -> disj e (ext_of maps.[k])).
Proof.
  intros (leaked & Hi & _)%dreach_inv. cbv zeta. destruct (di_ses _ _ Hi) as [Hn Ho]. rewrite Forall_forall in Ho.
  assert (forall i e, e ∈ ring_ext (it_isolates (d_isolates d)).[i] -> exists rest,
    gpa_owns (mp_win (d_maps d)) (e :: rest) /\
    (forall k, m_used (tk_tbl (mp_tokens (d_maps d))).[k] = true -> ext_of (tk_tbl (mp_tokens (d_maps d))).[k] ∈ rest) /\
    forall j e', i <> j -> e' ∈ ring_ext (it_isolates (d_isolates d)).[j] -> e' ∈ rest) as Hring.
  { intros i e He. pose proof (ii_owns _ _ _ (dev_isos _ _ Hi)) as Hw. rewrite (ring_extents_split _ i) in Hw.
    unfold ring_ext in He. unfold ring_ext at 1 in Hw. destruct (_ =? 0); [set_solver |].
    apply list_elem_of_singleton in He as ->. simpl in Hw. eexists. split; [exact Hw |]. split.
    - intros k Hk. apply extents_elem in Hk. rewrite !elem_of_app. by right; left.
    - intros j e' Hne He'. apply elem_of_app. left. apply (ring_extents_elem _ j).
      unfold aget in *. by rewrite lookup_delete_ne. }
  split_and!; [done | | |].
  - intros s Hs. destruct (Ho s Hs) as [S1 S2 S3 S4 _]. split_and!; [by destruct (isolate_ids s); simpl; [|lia] | lia | done |].
    intros i Hin. destruct (S4 i Hin) as [Hu Hsid]. destruct (io_used _ _ (di_iso _ _ Hi i) Hu). done.
  - intros i j e Hne He e' He'. destruct (Hring i e He) as (rest & Hw & _ & Hr). eapply gpa_disjoint; eauto.
  - intros i k e He Hk. destruct (Hring i e He) as (rest & Hw & Hr & _). eapply gpa_disjoint; eauto.
Qed.

(** [session_table_sound]: in every run of the requests, session ids are unique;
    every session has between 1 and 256 isolates, all different, all live in
    the isolate table and created for it, so no isolate is in two sessions; and
    the command rings of the isolates never overlap each other or a mapping. *)
Theorem session_table_sound d n :
  dreach d n ->
  let tbl := it_isolates (d_isolates d) in
  let maps := tk_tbl (mp_tokens (d_maps d)) in
  NoDup (s_id <$> d_sessions d) /\
  (forall s, s ∈ d_sessions d -> (1 <= length (isolate_ids s) <= 256)%nat /\ NoDup (isolate_ids s) /\
     forall i, i ∈ isolate_ids s -> 1 <= i <= 4095 /\ o_in_use tbl.[i] = true /\ o_session_id tbl.[i] = s_id s) /\
  (forall i j e, i <> j -> e ∈ ring_ext tbl.[i] -> forall e', e' ∈ ring_ext tbl.[j] -> disj e e') /\
  (forall i k e, e ∈ ring_ext tbl.[i] -> m_used maps.[k] = true -> disj e (ext_of maps.[k])).
Proof. apply tables_sound. Qed.

Lemma kept_sessions id l1 s l2 (s' : session) :
  (forall s0, s0 ∈ l1 ++ l2 -> (id ∉ isolate_ids s0) /\ isolate_ids s0 <> []) ->
  (exists s0, s0 ∈ l1 ++ s :: l2 /\ s' = without id s0 /\ isolate_ids s' <> []) <->
  s' ∈ l1 ++ l2 \/ s' = without id s /\ isolate_ids (without id s) <> [].
Proof.
  intros Hoth. split.
  - intros (s0 & Hin & -> & Hne). rewrite elem_of_app, elem_of_cons in Hin.
    destruct (decide (s0 = s)) as [->|]; [by right |]. assert (s0 ∈ l1 ++ l2) as Hs0 by set_solver.
    left. rewrite without_other; [done | by apply Hoth].
  - intros [Hin|[-> Hne]].
    + exists s'. destruct (Hoth s' Hin). rewrite without_other by done. set_solver.
    + exists s. set_solver.
Qed.

Lemma kill_sessions_kept tbl id (d : dev W) l dl d' cl :
  sess_inv tbl (d_sessions d) -> prune id 0 (d_sessions d) = (l, dl) ->
  destroy_all dl (with_sessions l d) = (d', cl) ->
  forall s', s' ∈ d_sessions d' <-> exists s, s ∈ d_sessions d /\ s' = without id s /\ isolate_ids s' <> [].
Proof.
  intros Hs Ep Ed s'. destruct (kill_sessions _ _ _ _ _ _ _ Hs Ep Ed) as (_ & _ & Hcase).
  pose proof (proj1 (Forall_forall _ _) (si_ok _ _ Hs)) as Hok.
  destruct Hcase as [(Hno & -> & _)|(l1 & s & l2 & El & Hin & Hoth & Hcase)].
  - split.
    + intros Hin. exists s'. rewrite without_other by auto. split_and!; try done. by apply (so_some _ _ (Hok s' Hin)).
    + intros (s & Hin & -> & _). by rewrite without_other by auto.
  - rewrite El in Hok |- *. rewrite kept_sessions.
    2: { intros s0 Hs0. split; [by apply Hoth |]. eapply so_some, Hok.
         rewrite elem_of_app in Hs0. rewrite elem_of_app, elem_of_cons. tauto. }
    destruct Hcase as [(Hne & -> & _)|(He & -> & _)]; rewrite !elem_of_app, ?elem_of_cons; tauto.
Qed.

Lemma last_isolate id s :
  NoDup (isolate_ids s) -> id ∈ isolate_ids s -> isolate_ids (without id s) = [] <-> isolate_ids s = [id].
Proof.
  intros Hn Hin. cbn. split; [|intros ->; by rewrite filter_cons_False by auto].
  intros He. assert (forall i, i ∈ isolate_ids s -> i = id) as Hall.
  { intros i Hi. destruct (decide (i = id)) as [|Hne]; [done |]. exfalso.
    apply (not_elem_of_nil i). rewrite <- He. by apply list_elem_of_filter. }
  destruct (isolate_ids s) as [|a [|b rest]]; [by apply not_elem_of_nil in Hin | f_equal; apply Hall; set_solver |].
  apply NoDup_cons in Hn as [Ha _]. exfalso. apply Ha. rewrite (Hall a), (Hall b) by set_solver. set_solver.
Qed.

Lemma kill_handles tbl id (d : dev W) o l dl d' cl :
  sess_inv tbl (d_sessions d) -> tab_inv (d_handles d) o -> prune id 0 (d_sessions d) = (l, dl) ->
  destroy_all dl (with_sessions l d) = (d', cl) ->
  forall h hd, 0 <= h -> nvkvm_handle_get h (d_handles d') = Some hd <->
    nvkvm_handle_get h (d_handles d) = Some hd /\
    forall s, s ∈ d_sessions d -> isolate_ids s = [id] -> hd_session_id hd <> s_id s.
Proof.
  intros Hs Ht Ep Ed h hd H0. destruct (kill_sessions _ _ _ _ _ _ _ Hs Ep Ed) as (_ & _ & Hcase).
  assert (forall s, isolate_ids s = [id] -> id ∈ isolate_ids s) as Hlist
    by (intros s ->; by apply list_elem_of_singleton).
  destruct Hcase as [(Hno & _ & ->)|(l1 & s & l2 & El & Hin & Hoth & Hcase)].
  { split; [|tauto]. intros Hg. split; [done |]. intros s Hsin Hid. exfalso. apply (Hno s Hsin). auto. }
  assert (forall s0, s0 ∈ d_sessions d -> isolate_ids s0 = [id] -> s0 = s) as Huniq.
  { intros s0 Hs0 Hid. rewrite El in Hs0. destruct (decide (s0 = s)) as [|Hne]; [done |]. exfalso.
    rewrite elem_of_app, elem_of_cons in Hs0. apply (Hoth s0); [|by apply Hlist]. rewrite elem_of_app.
    destruct Hs0 as [?|[?|?]]; [by left | done | by right]. }
  assert (s ∈ d_sessions d) as Hsin by (rewrite El, elem_of_app, elem_of_cons; tauto).
  pose proof (so_nodup _ _ (proj1 (Forall_forall _ _) (si_ok _ _ Hs) s Hsin)) as Hnd.
  pose proof (last_isolate id s Hnd Hin) as Hlast.
  destruct Hcase as [(Hne & _ & ->)|(He & _ & ->)].
  - split; [|tauto]. intros Hg. split; [done |]. intros s0 Hs0 Hid. exfalso. apply Hne, Hlast.
    by rewrite <- (Huniq s0).
  - pose proof (close_session_spec (d_handles d) o (s_id s) Ht) as Hc.
    destruct (nvkvm_handle_close_session _ _) as [ht cl3]. destruct Hc as [Hc _]. cbn [fst]. rewrite Hc by done.
    split; intros [Hg Hx]; (split; [done |]); [intros s0 Hs0 Hid; by rewrite (Huniq s0) | apply Hx; [done | by apply Hlast]].
Qed.

(** [session_kill_exact]: killing a live isolate frees its slot and its mappings
    and touches no other isolate; exactly the sessions that listed other
    isolates remain, without the killed one.  A session it was the last isolate
    of is destroyed (the limit of 16 is never in the way): no handle of the
    session survives, and every handle of another session is unchanged. *)
Theorem session_kill_exact d n id :
  dreach d n -> o_in_use (it_isolates (d_isolates d)).[id] = true ->
  let '(d', eff, cl, status) := nvkvm_req_kill_isolate kvm_vm_fd id d in
  status = 0 /\
  o_in_use (it_isolates (d_isolates d')).[id] = false /\
  (forall k, k <> id -> (it_isolates (d_isolates d')).[k] = (it_isolates (d_isolates d)).[k]) /\
  (forall i, let e' := (tk_tbl (mp_tokens (d_maps d'))).[i] in m_used e' = true -> m_isolate_id e' <> id) /\
  (forall s', s' ∈ d_sessions d' <->
     exists s, s ∈ d_sessions d /\ s' = without id s /\ isolate_ids s' <> []) /\
  (forall h hd, 0 <= h ->
     nvkvm_handle_get h (d_handles d') = Some hd <->
     nvkvm_handle_get h (d_handles d) = Some hd /\
     forall s, s ∈ d_sessions d -> isolate_ids s = [id] -> hd_session_id hd <> s_id s).
Proof.
  intros (leaked & Hi & _)%dreach_inv Hu. destruct (io_used _ _ (di_iso _ _ Hi id) Hu) as [Hr _].
  destruct (nvkvm_req_kill_isolate kvm_vm_fd id d) as [[[d' eff] cl] status] eqn:Ek.
  apply (kill_dev d leaked) in Ek as (Hi' & Hst & Hu' & Hk & Hreap & d1 & l & dl & Es & Eh & Ep & Ed); [|done | lia].
  rewrite Hu in Hst. split_and!; [done .. | | | ].
  { intros i e' Hue Hiso. destruct (mi_entry _ _ (di_maps _ _ Hi') i Hue) as (Hir & _). subst e'. revert Hue Hiso.
    rewrite (Hreap i). destruct (_ && _) eqn:E; [done |]. intros Hue Hiso. unfold doomed in E.
    rewrite Hue, (proj2 (Z.eqb_eq _ _) Hiso), (proj2 (Z.leb_le 1 i)), (proj2 (Z.ltb_lt i 8192)) in E by lia. done. }
  all: pose proof (di_ses _ _ Hi) as Hs; rewrite <- Es in Hs |- *; rewrite <- ?Eh.
  - by eapply kill_sessions_kept.
  - destruct (di_tab _ _ Hi) as [o Ho%treach_inv]. rewrite <- Eh in Ho. by eapply kill_handles.
Qed.

(** [open_handle_outcome]: a refused open leaves every handle as it was, and the
    descriptor that arrived for it, if any, is closed; a granted one leaves
    exactly one new handle, under a free id, with that descriptor, the session
    and the device of the request, and one isolate reference (at most one for a
    UVM handle). *)
Theorem open_handle_outcome d n env req :
  dreach d n -> unheld_res (d_handles d) (open_dev (v_open env) (v_eventfd env) (s32 (p_dev_id req)) (s32 (p_flags req))) ->
  (forall h, unheld (d_handles d) (snd (v_device env h (p_dev_id req) (p_flags req)))) ->
  let '(d', cl, id, status) := nvkvm_req_open_nvidia_handle env req d in
  id = 0 /\ (forall i, 0 <= i -> nvkvm_handle_get i (d_handles d') = nvkvm_handle_get i (d_handles d)) /\
    (forall fd, received env req d = Ok fd -> fd ∈ cl) \/
  status = 0 /\ 1 <= id <= 65535 /\ cl = [] /\
    exists fd refs, received env req d = Ok fd /\ 0 <= fd /\ 0 <= refs <= 1 /\
      (s32 (p_dev_id req) <> NVKVM_DEV_UVM -> refs = 1) /\
      nvkvm_handle_get id (d_handles d) = None /\
      nvkvm_handle_get id (d_handles d') = Some (opened id fd (p_session_id req) (s32 (p_dev_id req)) refs) /\
      forall i, 0 <= i -> i <> id -> nvkvm_handle_get i (d_handles d') = nvkvm_handle_get i (d_handles d).
Proof.
  intros (leaked & Hi & _)%dreach_inv Hf1 Hf2.
  destruct (nvkvm_req_open_nvidia_handle env req d) as [[[d' cl] id] status] eqn:Eq.
  destruct (decide (s32 (p_dev_id req) = NVKVM_DEV_UVM)) as [E|E].
  - assert (received env req d = open_dev (v_open env) (v_eventfd env) (s32 (p_dev_id req)) (s32 (p_flags req))) as ->.
    { unfold received, graphics_only. rewrite E. simpl. by rewrite andb_false_r. }
    by eapply open_uvm_spec.
  - by eapply open_iso_spec.
Qed.

End runs.

(** ** A concrete run: sessions 7 and 8 with isolates 1 and 2; session 7 opens the
    control device and shares the handle with isolate 2 *)

#[local] Existing Instance IsoMmap.ex_allocator.

Abbreviation xdev := (dev (Sparse.sparse_win * Slots.slot_pool)).

Definition ex_dev0 : xdev :=
  Dev nvkvm_handle_table_init nvkvm_isolate_table_init [] va_init (Maps tokens_init IsoMmap.ex_win) true.

Definition ex_ring : ring_env :=
  REnv (Ok 20) None true (Err ENOMEM) 0 (ring_probe 1) (Z.lxor (ring_probe 1) NVKVM_RING_PROBE_MASK).
Definition ex_env : open_env := OEnv (fun _ _ => Ok 30) (Ok 31) 0 (fun _ _ _ => (0, 32)).
Definition ex_open : open_req := OpenReq 7 NVKVM_DEV_CTL 2.

Definition ex_dev1 : xdev := fst (fst (fst (nvkvm_req_create_isolate None (Spawned 100) (Some ex_ring) 7 ex_dev0))).
Definition ex_dev2 : xdev := fst (fst (fst (nvkvm_req_create_isolate None (Spawned 101) None 8 ex_dev1))).
Definition ex_dev3 : xdev := fst (fst (fst (nvkvm_req_open_nvidia_handle ex_env ex_open ex_dev2))).
Definition ex_dev4 : xdev := fst (nvkvm_req_copy_handle_to_isolate 0 2 1 ex_dev3).

(** [killed_isolate_keeps_refs]: a handle shared with an isolate that is then
    killed can never be closed: the dead isolate's reference is not dropped, it
    can no longer be given back, and the close stays refused although the only
    living isolate has returned the handle. *)
Theorem killed_isolate_keeps_refs :
  let d5 := fst (fst (fst (nvkvm_req_kill_isolate 3 2 ex_dev4))) in
  let d6 := fst (nvkvm_req_close_handle_on_isolate 0 1 1 d5) in
  snd (nvkvm_req_close_handle_on_isolate 0 2 1 d6) = ENOENT /\
  snd (nvkvm_req_close_handle 1 d6) = EBUSY /\
  (hd_isolate_refcount <$> nvkvm_handle_get 1 (d_handles d6)) = Some 1 /\
  map s_id (d_sessions d6) = [7].
Proof. vm_compute. split_and!; reflexivity. Qed.

Lemma ex_dreach1 : dreach 3 ex_dev1 0.
Proof.
  assert (dreach 3 ex_dev0 0) as H0 by (apply dr_init, IsoMmap.ex_owns). unfold ex_dev1.
  destruct (nvkvm_req_create_isolate None (Spawned 100) (Some ex_ring) 7 ex_dev0) as [[[d eff] id] st] eqn:E.
  by eapply dr_create.
Qed.

Lemma ex_dreach2 : dreach 3 ex_dev2 0.
Proof.
  pose proof ex_dreach1 as H1. unfold ex_dev2.
  destruct (nvkvm_req_create_isolate None (Spawned 101) None 8 ex_dev1) as [[[d eff] id] st] eqn:E.
  by eapply dr_create.
Qed.

Lemma ex_unheld fd : unheld (d_handles ex_dev2) fd.
Proof.
  assert (tb_handles (d_handles ex_dev2) = ∅) as E by (vm_compute; reflexivity).
  intros i _ H0. rewrite E, aget_empty. simpl. lia.
Qed.

Lemma session_table_sound_witness : NoDup (s_id <$> d_sessions ex_dev2).
Proof. apply (session_table_sound 3 ex_dev2 0 ex_dreach2). Defined.

Lemma session_kill_exact_witness : snd (nvkvm_req_kill_isolate 3 1 ex_dev2) = 0.
Proof.
  assert (o_in_use (it_isolates (d_isolates ex_dev2)).[1] = true) as Hu by (vm_compute; reflexivity).
  pose proof (session_kill_exact 3 ex_dev2 0 1 ex_dreach2 Hu) as H.
  destruct (nvkvm_req_kill_isolate 3 1 ex_dev2) as [[[d' eff] cl] status]. apply H.
Defined.

Lemma open_handle_outcome_witness :
  exists fd refs, received ex_env ex_open ex_dev2 = Ok fd /\ 0 <= refs <= 1 /\
    nvkvm_handle_get 1 (d_handles ex_dev3) = Some (opened 1 fd 7 NVKVM_DEV_CTL refs).
Proof.
  assert (unheld_res (d_handles ex_dev2) (open_dev (v_open ex_env) (v_eventfd ex_env) (s32 (p_dev_id ex_open)) (s32 (p_flags ex_open)))) as Hf0
    by (change (0 <= 30 /\ unheld (d_handles ex_dev2) 30); split; [lia | apply ex_unheld]).
  pose proof (open_handle_outcome 3 ex_dev2 0 ex_env ex_open ex_dreach2 Hf0 (fun _ => ex_unheld 32)) as H.
  assert (snd (fst (nvkvm_req_open_nvidia_handle ex_env ex_open ex_dev2)) = 1) as Hid by (vm_compute; reflexivity).
  unfold ex_dev3. destruct (nvkvm_req_open_nvidia_handle ex_env ex_open ex_dev2) as [[[d' cl] id] status].
  cbn [fst snd] in *. destruct H as [[H0 _]|(_ & _ & _ & fd & refs & Hf & _ & Hr & _ & _ & Hg & _)]; [exfalso; lia |].
  exists fd, refs. split; [exact Hf |]. split; [exact Hr |]. rewrite <- Hid. exact Hg.
Defined.

End SessionRuns.
