(* ===== verification/Seccomp.v ===== *)
(** * The stub's system call filter ([apply_seccomp] of [src/stub/nvkvm_stub.c])

    The filter is a classic BPF program; its four instruction forms, the macros
    that build it and the evaluation of a program on one system call are
    definitions.  Jumps only go forward, so evaluation is structural: a jump
    skips instructions of the rest of the program. *)

From S2P Require Import Prelude.
Local Open Scope Z_scope.

Module Seccomp.

(** ** Classic BPF *)

(** [BPF_LD|BPF_W|BPF_ABS], [BPF_ALU|BPF_AND|BPF_K], [BPF_JMP|BPF_JEQ|BPF_K] and
    [BPF_RET|BPF_K]. *)
Inductive insn :=
| LdAbs (k : Z)
| AndK (k : Z)
| JeqK (k : Z) (jt jf : nat)
| RetK (k : Z).

(** [struct seccomp_data]. *)
Record seccomp_data := SData {
  sd_nr : Z;
  sd_arch : Z;
  sd_ip : Z;
  sd_args : list Z
}.

Definition off_nr : Z := 0.
Definition off_arch : Z := 4.
Definition off_args (i : Z) : Z := 16 + 8 * i.

(** The 32-bit word at an offset of the structure (little endian). *)
Definition word (d : seccomp_data) (off : Z) : Z :=
  if off =? off_nr then u32 (sd_nr d)
  else if off =? off_arch then u32 (sd_arch d)
  else
    let v := if off <? 16 then sd_ip d
             else default 0 (sd_args d !! Z.to_nat ((off - 16) / 8)) in
    u32 (if off mod 8 =? 0 then v else Z.shiftr v 32).

(** [skip] instructions are left out first; [None] is running off the end. *)
Fixpoint bpf_run (d : seccomp_data) (p : list insn) (skip : nat) (a : Z) : option Z :=
  match p with
  | [] => None
  | i :: p' =>
      match skip with
      | S k => bpf_run d p' k a
      | O =>
          match i with
          | LdAbs k => bpf_run d p' 0 (word d k)
          | AndK k => bpf_run d p' 0 (Z.land a k)
          | JeqK k jt jf => bpf_run d p' (if a =? k then jt else jf) a
          | RetK k => Some k
          end
      end
  end.

(** What a loader checks: every jump lands inside the program and the last
    instruction returns. *)
Fixpoint bpf_check (p : list insn) : bool :=
  match p with
  | [] => false
  | [RetK _] => true
  | JeqK _ jt jf :: p' => (jt <? length p')%nat && (jf <? length p')%nat && bpf_check p'
  | _ :: p' => bpf_check p'
  end.

(** ** The program *)

Definition AUDIT_ARCH_X86_64 : Z := 0xc000003e.
Definition SECCOMP_RET_KILL_PROCESS : Z := 0x80000000.
Definition SECCOMP_RET_ERRNO : Z := 0x50000.
Definition SECCOMP_RET_ALLOW : Z := 0x7fff0000.
Definition PROT_EXEC : Z := 4.

Definition NR_read : Z := 0.
Definition NR_write : Z := 1.
Definition NR_close : Z := 3.
Definition NR_mmap : Z := 9.
Definition NR_mprotect : Z := 10.
Definition NR_munmap : Z := 11.
Definition NR_rt_sigaction : Z := 13.
Definition NR_rt_sigreturn : Z := 15.
Definition NR_ioctl : Z := 16.
Definition NR_sendmsg : Z := 46.
Definition NR_recvmsg : Z := 47.
Definition NR_exit : Z := 60.
Definition NR_gettid : Z := 186.
Definition NR_futex : Z := 202.
Definition NR_exit_group : Z := 231.
Definition NR_tgkill : Z := 234.
Definition NR_openat : Z := 257.
Definition NR_ppoll : Z := 271.
Definition NR_eventfd2 : Z := 290.
Definition NR_clone3 : Z := 435.

Definition ALLOW_IF (nr : Z) : list insn := [JeqK nr 0 1; RetK SECCOMP_RET_ALLOW].

Definition ALLOW_IF_NO_EXEC (nr : Z) : list insn :=
  [JeqK nr 0 5; LdAbs (off_args 2); AndK PROT_EXEC; JeqK PROT_EXEC 0 1;
   RetK (Z.lor SECCOMP_RET_ERRNO EPERM); RetK SECCOMP_RET_ALLOW].

Definition arch_check : list insn :=
  [LdAbs off_arch; JeqK AUDIT_ARCH_X86_64 1 0; RetK SECCOMP_RET_KILL_PROCESS; LdAbs off_nr].

Definition allowed_first : list Z := [NR_read; NR_write; NR_recvmsg; NR_sendmsg; NR_ioctl].

Definition no_exec : list Z := [NR_mmap; NR_mprotect].

Definition allowed_last : list Z :=
  [NR_munmap; NR_ppoll; NR_close; NR_exit; NR_exit_group; NR_rt_sigaction; NR_rt_sigreturn;
   NR_futex; NR_clone3; NR_openat; NR_eventfd2; NR_gettid; NR_tgkill].

Definition filter : list insn :=
  arch_check ++ (allowed_first ≫= ALLOW_IF) ++ (no_exec ≫= ALLOW_IF_NO_EXEC) ++
  (allowed_last ≫= ALLOW_IF) ++ [RetK (Z.lor SECCOMP_RET_ERRNO EPERM)].

Definition filter_capacity : nat := 96.

(** The system calls of the wrappers the stub uses once the filter is on. *)
Definition stub_calls : list Z :=
  [NR_exit_group; NR_read; NR_write; NR_recvmsg; NR_sendmsg; NR_ppoll; NR_openat; NR_close;
   NR_eventfd2; NR_ioctl; NR_munmap; NR_gettid; NR_tgkill; NR_futex; NR_rt_sigreturn; NR_exit].

(** ** What it means

    The reference: a test of the system call and of the protection argument,
    without instructions. *)
Definition verdict (d : seccomp_data) : Z :=
  let nr := u32 (sd_nr d) in
  let prot := u32 (default 0 (sd_args d !! 2%nat)) in
  if negb (u32 (sd_arch d) =? AUDIT_ARCH_X86_64) then SECCOMP_RET_KILL_PROCESS
  else if bool_decide (nr ∈ allowed_first ++ allowed_last) then SECCOMP_RET_ALLOW
  else if bool_decide (nr ∈ no_exec) && negb (Z.testbit prot 2) then SECCOMP_RET_ALLOW
  else Z.lor SECCOMP_RET_ERRNO EPERM.

(** ** Lemmas *)

Lemma check_tail i j p : bpf_check (i :: j :: p) = true -> bpf_check (j :: p) = true.
Proof. destruct i; cbn [bpf_check]; intros; nv_bool; done. Qed.

Lemma check_total d p skip a :
  bpf_check p = true -> (skip < length p)%nat -> exists v, bpf_run d p skip a = Some v.
Proof.
  revert skip a. induction p as [|i p IH]; intros skip a Hc Hs; [simpl in Hs; lia |].
  assert (p = [] \/ bpf_check p = true) as [->|Ht].
  { destruct p as [|j p]; [by left | right]. by eapply check_tail. }
  - destruct i, skip; simpl in *; nv_bool; try lia; try done; by eexists.
  - destruct skip as [|k]; [|apply IH; simpl in Hs; [done | lia]].
    assert (0 < length p)%nat by (destruct p; [done | simpl; lia]).
    destruct i as [k|k|k jt jf|k]; cbn [bpf_run]; [by apply IH .. | | by eexists].
    cbn [bpf_check] in Hc. nv_bool. apply IH; [done |]. destruct (a =? k); by apply Nat.ltb_lt.
Qed.

Lemma run_allow_if d nr p a :
  bpf_run d (ALLOW_IF nr ++ p) 0 a = if a =? nr then Some SECCOMP_RET_ALLOW else bpf_run d p 0 a.
Proof. simpl. by destruct (a =? nr). Qed.

Lemma run_allow_list d l p a :
  bpf_run d ((l ≫= ALLOW_IF) ++ p) 0 a =
  if bool_decide (a ∈ l) then Some SECCOMP_RET_ALLOW else bpf_run d p 0 a.
Proof.
  induction l as [|x l IH]; [done |].
  rewrite bind_cons, <- app_assoc, run_allow_if, IH. destruct (a =? x) eqn:E; nv_bool.
  - by rewrite bool_decide_true by (subst; left).
  - apply (f_equal (fun b : bool => if b then _ else _)), bool_decide_ext.
    rewrite elem_of_cons. intuition.
Qed.

Lemma land_exec x : (Z.land x PROT_EXEC =? PROT_EXEC) = Z.testbit x 2.
Proof.
  change PROT_EXEC with (2 ^ 2). destruct (Z.testbit x 2) eqn:E.
  - apply Z.eqb_eq. apply Z.bits_inj'. intros i Hi. rewrite Z.land_spec, Z.pow2_bits_eqb by lia.
    destruct (Z.eqb_spec 2 i) as [<-|]; [by rewrite E | by rewrite andb_false_r].
  - apply Z.eqb_neq. intros H. apply (f_equal (fun z => Z.testbit z 2)) in H.
    rewrite Z.land_spec, E in H. done.
Qed.

Lemma run_no_exec d nr p a :
  bpf_run d (ALLOW_IF_NO_EXEC nr ++ p) 0 a =
  if a =? nr then Some (if Z.testbit (word d (off_args 2)) 2
                        then Z.lor SECCOMP_RET_ERRNO EPERM else SECCOMP_RET_ALLOW)
  else bpf_run d p 0 a.
Proof.
  unfold ALLOW_IF_NO_EXEC. destruct (a =? nr) eqn:E.
  - cbn [app bpf_run]. rewrite E. cbn [bpf_run]. rewrite land_exec. by destruct (Z.testbit _ _).
  - cbn [app bpf_run]. by rewrite E.
Qed.

(** ** Theorems *)

(** C39. [filter_exact]: on every system call the filter returns the verdict of the plain
    test (wrong architecture: kill; the listed calls: allow; [mmap] and [mprotect]:
    allow without [PROT_EXEC]; everything else: EPERM); the program fits its array; and
    on the right architecture the calls in [stub_calls] are allowed whatever their
    arguments, and [mmap] with readable and writable protection. *)
Theorem filter_exact (d : seccomp_data) :
  bpf_run d filter 0 0 = Some (verdict d) /\
  (length filter <= filter_capacity)%nat /\
  (u32 (sd_arch d) = AUDIT_ARCH_X86_64 ->
   (u32 (sd_nr d) ∈ stub_calls -> verdict d = SECCOMP_RET_ALLOW) /\
   (u32 (sd_nr d) = NR_mmap -> sd_args d !! 2%nat = Some 3 -> verdict d = SECCOMP_RET_ALLOW)).
Proof.
  split_and!.
  - unfold filter, arch_check, verdict. cbn [app bpf_run]. change (word d off_arch) with (u32 (sd_arch d)).
    destruct (u32 (sd_arch d) =? AUDIT_ARCH_X86_64); cbn [negb]; [|done].
    cbn [bpf_run]. change (word d off_nr) with (u32 (sd_nr d)). set (nr := u32 (sd_nr d)).
    rewrite run_allow_list. unfold no_exec at 1. rewrite !bind_cons. cbn [mbind list_bind].
    rewrite app_nil_r, <- app_assoc, !run_no_exec, run_allow_list.
    change (word d (off_args 2)) with (u32 (default 0 (sd_args d !! 2%nat))).
    destruct (decide (nr ∈ allowed_first)); [rewrite !bool_decide_true by set_solver; done |].
    rewrite (bool_decide_false (nr ∈ allowed_first)) by done.
    destruct (nr =? NR_mmap) eqn:E1; nv_bool;
      [rewrite E1; change (bool_decide (NR_mmap ∈ allowed_first ++ allowed_last)) with false;
       change (bool_decide (NR_mmap ∈ no_exec)) with true; by destruct (Z.testbit _ _) |].
    destruct (nr =? NR_mprotect) eqn:E2; nv_bool;
      [rewrite E2; change (bool_decide (NR_mprotect ∈ allowed_first ++ allowed_last)) with false;
       change (bool_decide (NR_mprotect ∈ no_exec)) with true; by destruct (Z.testbit _ _) |].
    rewrite (bool_decide_false (nr ∈ no_exec)) by (unfold no_exec; set_solver).
    cbn [andb]. rewrite (bool_decide_ext (nr ∈ allowed_first ++ allowed_last) (nr ∈ allowed_last)) by set_solver.
    by destruct (bool_decide _).
  - vm_compute. lia.
  - intros Ha. unfold verdict. rewrite Ha, Z.eqb_refl. cbn [negb]. split.
    + intros Hn. rewrite bool_decide_true; [done |].
      revert Hn. generalize (u32 (sd_nr d)). apply Forall_forall.
      unfold stub_calls. repeat constructor; apply (bool_decide_unpack _); vm_compute; exact I.
    + intros -> ->. done.
Qed.

(** [bpf_checked_returns]: a program that passes the check returns a verdict on
    every system call and from every reachable position, and the stub's filter
    passes it. *)
Theorem bpf_checked_returns (d : seccomp_data) :
  bpf_check filter = true /\
  forall p skip a, bpf_check p = true -> (skip < length p)%nat -> exists v, bpf_run d p skip a = Some v.
Proof. split; [reflexivity |]. intros. by apply check_total. Qed.

End Seccomp.
