(* ===== verification/StubHandles.v ===== *)
(** * The stub's descriptors ([src/stub/nvkvm_stub.c])

    The stub process of an isolate holds the GPU descriptors: a table from
    handle ids to local descriptors, two UVM descriptors it opened itself, and
    the set of descriptors it polls for the guest.  Operations return the new
    state, the descriptors they close and the responses they send. *)

From stdpp Require Import strings pretty.
From S2P Require Import Prelude Extents.
Local Open Scope Z_scope.

Module StubH.

Definition MAX_HANDLES : Z := 65536.
Definition NVKVM_POLL_MAX : Z := 256.

(** Responses on the socket; an optional descriptor travels as SCM_RIGHTS. *)
Inductive resp :=
| RespOk
| RespError (err : Z)
| RespOpenDevice (txn_id retval : Z) (fd : option Z)
| RespPresentExport (txn_id retval : Z) (fd : option Z)
| RespXisoImport (txn_id retval gem_handle : Z)
| RespMmap (retval : Z)
| RespPollEvent (handle_id revents : Z).

(** [handle_fds] after [handle_table_init] is the empty map: an absent entry is
    [-1].  [polls] holds [(poll_fds\[i\], poll_handles\[i\])] for [i < poll_n]. *)
Record fds := Fds {
  handle_fds : gmap Z Z;
  polls : list (Z * Z);
  uvm_local_fds : list Z;
  uvm_local_next_idx : nat
}.

Definition handle_table_init : gmap Z Z := ∅.

Definition fd_of (t : gmap Z Z) (id : Z) : Z := default (-1) (t !! id).

Definition handle_lookup (id : Z) (s : fds) : Z :=
  if MAX_HANDLES <=? id then -1 else fd_of (handle_fds s) id.

Definition with_table (t : gmap Z Z) (s : fds) : fds :=
  Fds t (polls s) (uvm_local_fds s) (uvm_local_next_idx s).

Definition with_polls (l : list (Z * Z)) (s : fds) : fds :=
  Fds (handle_fds s) l (uvm_local_fds s) (uvm_local_next_idx s).

Definition handle_store (id fd : Z) (s : fds) : fds :=
  if id <? MAX_HANDLES then with_table (<[id := fd]> (handle_fds s)) s else s.

(** ** The poll set *)

Definition poll_index (handle_id : Z) (l : list (Z * Z)) : option nat :=
  fst <$> list_find (fun e => snd e = handle_id) l.

Definition poll_arm (handle_id : Z) (s : fds) : fds :=
  let fd := handle_lookup handle_id s in
  if fd <? 0 then s
  else
    match poll_index handle_id (polls s) with
    | Some _ => s
    | None => if Z.of_nat (length (polls s)) <? NVKVM_POLL_MAX
              then with_polls (polls s ++ [(fd, handle_id)]) s else s
    end.

Definition disarm (handle_id : Z) (l : list (Z * Z)) : list (Z * Z) :=
  match poll_index handle_id l with
  | Some i => swap_remove i l
  | None => l
  end.

Definition poll_disarm (handle_id : Z) (s : fds) : fds := with_polls (disarm handle_id (polls s)) s.

Definition closes (fd : Z) : list Z := if 0 <=? fd then [fd] else [].

Definition handle_remove (id : Z) (s : fds) : fds * list Z :=
  if id <? MAX_HANDLES then
    let s1 := poll_disarm id s in
    (with_table (<[id := -1]> (handle_fds s1)) s1, closes (fd_of (handle_fds s1) id))
  else (s, []).

(** One round of the reader loop over the polled descriptors: [revents] is what
    [ppoll] reports.  The descriptors come from a snapshot of the set, the handle
    from the current set. *)
Fixpoint relay_loop (revents : Z -> Z) (snapshot : list Z) (l : list (Z * Z))
  : list (Z * Z) * list resp :=
  match snapshot with
  | [] => (l, [])
  | fd :: snapshot' =>
      if revents fd =? 0 then relay_loop revents snapshot' l
      else
        let h := default 0 (snd <$> (snd <$> list_find (fun e => fst e = fd) l)) in
        if h =? 0 then relay_loop revents snapshot' l
        else
          let '(l', evs) := relay_loop revents snapshot' (disarm h l) in
          (l', RespPollEvent h (u16 (revents fd)) :: evs)
  end.

Definition poll_relay (revents : Z -> Z) (s : fds) : fds * list resp :=
  let snapshot := take (Z.to_nat NVKVM_POLL_MAX) (fst <$> polls s) in
  let '(l, evs) := relay_loop revents snapshot (polls s) in (with_polls l s, evs).

(** ** Commands that move descriptors *)

(** Closing the holder of an id that is stored again. *)
Definition replace (id fd : Z) (s : fds) : fds * list Z :=
  (handle_store id fd s,
   if (id <? MAX_HANDLES) then closes (fd_of (handle_fds s) id) else []).

(** The UVM descriptor that takes the place of the one received. *)
Definition uvm_take (s : fds) : fds * option Z :=
  match uvm_local_fds s !! uvm_local_next_idx s with
  | Some fd => (Fds (handle_fds s) (polls s) (uvm_local_fds s) (S (uvm_local_next_idx s)), Some fd)
  | None => (s, None)
  end.

(** RECEIVE_FD; [scm] is the descriptor of the ancillary data, if there is one,
    and [dev_id] the device of a message of full length. *)
Definition receive_fd (handle_id : Z) (dev_id : option Z) (scm : option Z) (s : fds) : fds * list Z * list resp :=
  match scm with
  | None => (s, [], [RespError EINVAL])
  | Some fd =>
      let '(s1, local) := if bool_decide (dev_id = Some 1) then uvm_take s else (s, None) in
      let '(fd1, c1) := match local with
                        | Some l => if 0 <=? l then (l, [fd]) else (fd, [])
                        | None => (fd, [])
                        end in
      let '(s2, c2) := replace handle_id fd1 s1 in
      (s2, c1 ++ c2, [RespOk])
  end.

(** *** Device names *)

Definition digit (n : Z) : string := String (Ascii.ascii_of_nat (Z.to_nat (48 + n))) EmptyString.

Definition dev_id_to_path (dev_id buflen : Z) : option string :=
  if dev_id =? 0 then if buflen <? 10 then None else Some "nvidiactl"%string
  else if (16 <=? dev_id) && (dev_id <? 16 + 16) then
    let n := dev_id - 16 in
    if buflen <? 9 then None
    else if n <? 10 then Some ("nvidia" +:+ digit n)%string
    else Some ("nvidia" +:+ digit (n / 10) +:+ digit (n mod 10))%string
  else if dev_id =? 48 then if buflen <? 15 then None else Some "nvidia-modeset"%string
  else if (32 <=? dev_id) && (dev_id <? 32 + 16) then
    let minor := 128 + (dev_id - 32) in
    if buflen <? 15 then None
    else Some ("dri/renderD" +:+ digit (minor / 100) +:+ digit ((minor / 10) mod 10) +:+ digit (minor mod 10))%string
  else None.

(** A name relative to the directory handed over by QEMU, or an absolute path
    built in a buffer of 40 bytes. *)
Inductive open_at := AtDirfd (name : string) | AtRoot (path : string).

#[export] Instance open_at_eq_dec : EqDecision open_at.
Proof. solve_decision. Defined.

Definition stub_open_path (dev_dirfd : bool) (name : string) : open_at :=
  if dev_dirfd then AtDirfd name
  else AtRoot (String.substring 0 39 ("/dev/" +:+ name)%string).

Section host.
(** Opening a node and creating an event descriptor: the descriptor or [-errno];
    whether the response could be sent. *)
Context (dev_dirfd : bool) (host_open : open_at -> Z -> Z) (host_eventfd : Z) (send_ok : bool).

Definition O_CLOEXEC : Z := 0x80000.

Definition open_fd (dev_id flags : Z) : Z :=
  if dev_id =? 0xFF then host_eventfd
  else if dev_id =? 1 then - EINVAL
  else match dev_id_to_path dev_id 24 with
       | None => - EINVAL
       | Some path => host_open (stub_open_path dev_dirfd path) (Z.lor flags O_CLOEXEC)
       end.

Definition handle_open_device (txn_id handle_id dev_id flags : Z) (s : fds) : fds * list Z * list resp :=
  let fd := open_fd dev_id flags in
  if fd <? 0 then (s, [], [RespOpenDevice txn_id fd None])
  else
    let '(s1, c1) := replace handle_id fd s in
    if send_ok then (s1, c1, [RespOpenDevice txn_id 0 (Some fd)])
    else let '(s2, c2) := handle_remove handle_id s1 in (s2, c1 ++ c2, []).

Definition handle_close_fd (handle_id : Z) (s : fds) : fds * list Z * list resp :=
  let '(s1, c) := handle_remove handle_id s in (s1, c, [RespOk]).

(** ** Sharing buffers between isolates

    The driver's PRIME calls: the return value and the descriptor or the buffer
    handle it wrote. *)
Context (prime_export : Z -> Z -> Z * Z) (prime_import : Z -> Z -> Z * Z).

Definition handle_present_export (txn_id handle_id gem_handle : Z) (s : fds) : list Z * list resp :=
  let rfd := handle_lookup handle_id s in
  if rfd <? 0 then ([], [RespPresentExport txn_id (- EBADF) None])
  else
    let '(r, fd) := prime_export rfd gem_handle in
    if (r <? 0) || (fd <? 0)
    then ([], [RespPresentExport txn_id (if r <? 0 then r else - EINVAL) None])
    else ([fd], [RespPresentExport txn_id 0 (Some fd)]).

Definition handle_xiso_import (txn_id handle_id : Z) (scm : option Z) (s : fds) : list Z * list resp :=
  match scm with
  | None => ([], [RespXisoImport txn_id (- EINVAL) 0])
  | Some dbuf =>
      if dbuf <? 0 then ([], [RespXisoImport txn_id (- EINVAL) 0])
      else
        let rfd := handle_lookup handle_id s in
        if rfd <? 0 then ([dbuf], [RespXisoImport txn_id (- EBADF) 0])
        else
          let '(r, gem) := prime_import rfd dbuf in
          ([dbuf], [if r <? 0 then RespXisoImport txn_id r 0 else RespXisoImport txn_id 0 gem])
  end.
End host.

(** ** Runs

    [o] is the set of descriptors the stub holds.  The host hands out unused
    descriptors; QEMU uses ids between 1 and 65535.  The flag says that no armed
    id was stored over. *)
Definition armed (h : Z) (s : fds) : bool := bool_decide (h ∈ (snd <$> polls s)).

Definition gained (fd : Z) (o : gset Z) : gset Z := if decide (0 <= fd) then {[ fd ]} ∪ o else o.

Inductive sreach : fds -> gset Z -> bool -> Prop :=
| sr_init L : NoDup (filter (Z.le 0) L) -> sreach (Fds handle_table_init [] L 0) (list_to_set (filter (Z.le 0) L)) true
| sr_receive s o b h dev fd s' c r :
    sreach s o b -> 1 <= h < MAX_HANDLES -> 0 <= fd -> fd ∉ o ->
    receive_fd h dev (Some fd) s = (s', c, r) ->
    sreach s' (gained fd o ∖ list_to_set c) (b && negb (armed h s))
| sr_open s o b dirfd host evfd sent txn h dev flags s' c r :
    sreach s o b -> 1 <= h < MAX_HANDLES -> open_fd dirfd host evfd dev flags ∉ o ->
    handle_open_device dirfd host evfd sent txn h dev flags s = (s', c, r) ->
    sreach s' (gained (open_fd dirfd host evfd dev flags) o ∖ list_to_set c) (b && negb (armed h s))
| sr_close s o b h s' c r :
    sreach s o b -> 0 <= h -> handle_close_fd h s = (s', c, r) -> sreach s' (o ∖ list_to_set c) b
| sr_arm s o b h : sreach s o b -> 1 <= h -> sreach (poll_arm h s) o b
| sr_disarm s o b h : sreach s o b -> sreach (poll_disarm h s) o b
| sr_relay s o b revents : sreach s o b -> sreach (fst (poll_relay revents s)) o b.

Definition spare (s : fds) : list Z := filter (Z.le 0) (drop (uvm_local_next_idx s) (uvm_local_fds s)).

(** The table: who owns what. *)
Record own_inv (s : fds) (o : gset Z) : Prop := {
  oi_range : forall id fd, handle_fds s !! id = Some fd -> 0 <= fd -> 1 <= id < MAX_HANDLES;
  oi_own : forall id fd, handle_fds s !! id = Some fd -> 0 <= fd -> fd ∈ o /\ fd ∉ spare s;
  oi_inj : forall i j fd, handle_fds s !! i = Some fd -> handle_fds s !! j = Some fd -> 0 <= fd -> i = j;
  oi_spare : NoDup (spare s);
  oi_pool : forall fd, fd ∈ spare s -> fd ∈ o;
  oi_all : forall fd, fd ∈ o -> 0 <= fd /\ (fd ∈ spare s \/ exists id, handle_fds s !! id = Some fd)
}.

(** The poll set. *)
Record poll_inv (s : fds) (b : bool) : Prop := {
  pi_nodup : NoDup (snd <$> polls s);
  pi_len : Z.of_nat (length (polls s)) <= NVKVM_POLL_MAX;
  pi_pos : Forall (fun e => 0 <= fst e /\ 1 <= snd e < MAX_HANDLES) (polls s);
  pi_exact : b = true -> Forall (fun e => handle_fds s !! snd e = Some (fst e)) (polls s)
}.

Lemma fd_of_Some t id fd : 0 <= fd -> fd_of t id = fd <-> t !! id = Some fd.
Proof. intros. unfold fd_of. destruct (t !! id); simpl; split; intros; simplify_eq; try done; lia. Qed.

Lemma list_to_set_closes (x : Z) : (list_to_set (closes x) : gset Z) = if decide (0 <= x) then {[ x ]} else ∅.
Proof.
  unfold closes. destruct (0 <=? x) eqn:E; nv_bool; [rewrite decide_True by done | rewrite decide_False by lia];
    apply leibniz_equiv; set_solver.
Qed.

(** Storing [fd] under [id], or nothing when it is negative, and closing the
    descriptor that was there. *)
Lemma store_own s o id fd :
  own_inv s o -> (0 <= fd -> 1 <= id < MAX_HANDLES /\ fd ∉ o) ->
  own_inv (with_table (<[id := fd]> (handle_fds s)) s)
    (gained fd (o ∖ list_to_set (closes (fd_of (handle_fds s) id)))).
Proof.
  intros [R O J N P A] Hf. rewrite list_to_set_closes. set (old := fd_of (handle_fds s) id).
  assert (forall j g, handle_fds s !! j = Some g -> 0 <= g -> j <> id -> g <> old) as Hne.
  { intros j g Hj Hg Hji ->. apply Hji. apply (J j id old Hj); [|done].
    by apply fd_of_Some. }
  assert (forall g, g ∈ spare s -> g <> old) as Hsp.
  { intros g Hg ->. assert (0 <= old) by (apply list_elem_of_filter in Hg; tauto).
    destruct (O id old) as [_ []]; [by apply fd_of_Some | done | done]. }
  unfold gained. split; unfold with_table; cbn [handle_fds].
  - intros j g. rewrite lookup_insert. case_decide; [intros [= ->] ?; subst; by apply Hf | by apply R].
  - intros j g. rewrite lookup_insert. case_decide as Ej; intros Hj Hg.
    + injection Hj as ->. rewrite decide_True by done. split; [set_solver |].
      intros Hin. by apply (proj2 (Hf Hg)), P.
    + destruct (O j g Hj Hg) as [H1 H2]. split; [|done].
      specialize (Hne j g Hj Hg (not_eq_sym Ej)). repeat case_decide; set_solver.
  - intros i j g. rewrite !lookup_insert. repeat case_decide; intros Hi Hj Hg; simplify_eq; try done.
    + destruct (O j g Hj Hg). by destruct (Hf Hg).
    + destruct (O i g Hi Hg). by destruct (Hf Hg).
    + by apply (J i j g).
  - done.
  - intros g Hg. specialize (Hsp g Hg). specialize (P g Hg). repeat case_decide; set_solver.
  - intros g Hg.
    assert (g = fd /\ 0 <= fd \/ g ∈ o /\ g <> old) as [[-> H0]|[Ho Hgo]].
    { repeat case_decide; try set_solver. all: assert (g ∈ o) as Hin by set_solver; right; split; [done |];
        pose proof (proj1 (A g Hin)); lia. }
    + split; [done |]. right. exists id. by rewrite lookup_insert_eq.
    + destruct (A g Ho) as [H0 [?|[j Hj]]]; split; [done | by left | done |]. right. exists j.
      rewrite lookup_insert_ne; [done |]. intros <-. apply Hgo. symmetry. by apply fd_of_Some.
Qed.

Lemma own_ext s s' o o' :
  own_inv s o -> handle_fds s' = handle_fds s -> spare s' = spare s -> o ≡ o' -> own_inv s' o'.
Proof. intros [R O J N P A] Ht Hs <-%leibniz_equiv. split; rewrite ?Ht, ?Hs; done. Qed.

Lemma remove_own s o id s' c : own_inv s o -> handle_remove id s = (s', c) -> own_inv s' (o ∖ list_to_set c).
Proof.
  intros Hi. unfold handle_remove. destruct (id <? MAX_HANDLES); intros [= <- <-];
    [|by apply (own_ext s _ o); [| | | set_solver]].
  apply (own_ext (with_table (<[id := -1]> (handle_fds s)) s) _
           (gained (-1) (o ∖ list_to_set (closes (fd_of (handle_fds s) id))))); [|done ..].
  by apply store_own; [| lia].
Qed.

(** A descriptor taken from the pool belongs to nobody. *)
Lemma take_own s o s1 l :
  own_inv s o -> uvm_take s = (s1, Some l) ->
  handle_fds s1 = handle_fds s /\ own_inv s1 (o ∖ list_to_set (closes l)) /\
  (0 <= l -> l ∈ o /\ forall id, handle_fds s !! id <> Some l).
Proof.
  intros [R O J N P A]. unfold uvm_take.
  destruct (uvm_local_fds s !! uvm_local_next_idx s) as [x|] eqn:E; [|done]. intros [= <- ->].
  rewrite list_to_set_closes.
  set (s1 := Fds _ _ _ _).
  assert (spare s = (if decide (0 <= l) then [l] else []) ++ spare s1) as Hsp.
  { unfold spare, s1. cbn [uvm_local_next_idx uvm_local_fds]. rewrite (drop_S _ _ _ E), filter_cons.
    by destruct (decide (0 <= l)). }
  rewrite Hsp in N, P. setoid_rewrite Hsp in O. setoid_rewrite Hsp in A.
  split; [done |]. destruct (decide (0 <= l)) as [Hl|Hl].
  - apply NoDup_cons in N as [N1 N2]. split.
    + split; cbn [handle_fds s1]; [done | | done | done | |].
      * intros id fd Hid Hf. destruct (O id fd Hid Hf). set_solver.
      * intros fd Hf. pose proof (P fd). set_solver.
      * intros fd [Hf Hne]%elem_of_difference. destruct (A fd Hf) as [? [Hin|?]]; [|auto].
        split; [done |]. left. set_solver.
    + intros _. split; [apply P; set_solver |]. intros id Hid. destruct (O id l Hid Hl) as [_ []]. set_solver.
  - split; [|done]. apply (own_ext s _ o); [by split; rewrite ?Hsp | done | by rewrite Hsp | set_solver].
Qed.

Lemma take_none s s1 : uvm_take s = (s1, None) -> s1 = s.
Proof. unfold uvm_take. destruct (_ !! _); by intros [= <-]. Qed.

Lemma replace_own s o id fd s' c :
  own_inv s o -> 1 <= id < MAX_HANDLES -> (0 <= fd -> fd ∉ o) -> replace id fd s = (s', c) ->
  c = closes (fd_of (handle_fds s) id) /\ own_inv s' (gained fd (o ∖ list_to_set c)).
Proof.
  intros Hi Hid Hf. unfold replace, handle_store. rewrite (proj2 (Z.ltb_lt _ _)) by lia. intros [= <- <-].
  split; [done |]. apply store_own; auto.
Qed.

Lemma gained_close fd (o C : gset Z) : fd ∉ o -> C ⊆ o -> {[ fd ]} ∪ (o ∖ C) ≡ ({[ fd ]} ∪ o) ∖ C.
Proof. set_solver. Qed.

Lemma swapped_close fd l (o C : gset Z) :
  fd ∉ o -> l ∈ o -> l ∉ C -> C ⊆ o -> {[ l ]} ∪ (o ∖ {[ l ]} ∖ C) ≡ ({[ fd ]} ∪ o) ∖ ({[ fd ]} ∪ C).
Proof. intros ???? x. destruct (decide (x = l)) as [->|]; set_solver. Qed.

(** The descriptor stored over was owned. *)
Lemma closes_owned s o id : own_inv s o ->
  (list_to_set (closes (fd_of (handle_fds s) id)) : gset Z) ⊆ o /\
  forall x, x ∈ (list_to_set (closes (fd_of (handle_fds s) id)) : gset Z) -> handle_fds s !! id = Some x.
Proof.
  intros Hi. cut (forall x, x ∈ (list_to_set (closes (fd_of (handle_fds s) id)) : gset Z) -> x ∈ o /\ handle_fds s !! id = Some x).
  { intros Hx. split; [intros x Hin | intros x Hin]; by apply Hx in Hin as []. }
  intros x. rewrite list_to_set_closes. case_decide; [|set_solver]. intros ->%elem_of_singleton.
  assert (handle_fds s !! id = Some (fd_of (handle_fds s) id)) as E by (by apply fd_of_Some).
  split; [|done]. by apply (oi_own _ _ Hi id).
Qed.

Lemma receive_own s o h dev fd s' c r :
  own_inv s o -> 1 <= h < MAX_HANDLES -> 0 <= fd -> fd ∉ o -> receive_fd h dev (Some fd) s = (s', c, r) ->
  own_inv s' (gained fd o ∖ list_to_set c).
Proof.
  intros Hi Hh Hf Ho. unfold receive_fd. destruct (closes_owned s o h Hi) as [Hsub Hown].
  assert (forall s1 s2 c2, own_inv s1 o -> handle_fds s1 = handle_fds s -> replace h fd s1 = (s2, c2) ->
          own_inv s2 (gained fd o ∖ list_to_set c2)) as Hplain.
  { intros s1 s2 c2 Hi1 Et Hr. destruct (replace_own s1 o h fd s2 c2 Hi1 Hh ltac:(done) Hr) as [-> Hr2].
    eapply own_ext; [exact Hr2 | done | done |]. unfold gained. rewrite !decide_True by done. rewrite Et. by apply gained_close. }
  destruct (bool_decide (dev = Some 1)).
  2:{ destruct (replace h fd s) as [s2 c2] eqn:Er. intros [= <- <- <-]. by eapply Hplain. }
  destruct (uvm_take s) as [s1 [l|]] eqn:Ht.
  2:{ apply take_none in Ht as ->. destruct (replace h fd s) as [s2 c2] eqn:Er. intros [= <- <- <-]. by eapply Hplain. }
  destruct (take_own s o s1 l Hi Ht) as (Et & Hi1 & Hl). rewrite list_to_set_closes in Hi1.
  destruct (0 <=? l) eqn:E0; nv_bool.
  - rewrite decide_True in Hi1 by done. destruct (Hl E0) as [Hlo Hlt].
    destruct (replace h l s1) as [s2 c2] eqn:Er. intros [= <- <- <-].
    destruct (replace_own s1 _ h l s2 c2 Hi1 Hh ltac:(set_solver) Er) as [-> Hr2].
    eapply own_ext; [exact Hr2 | done | done |]. unfold gained. rewrite !decide_True by done.
    rewrite Et. cbn [app list_to_set]. apply swapped_close; try done. intros Hin. by apply (Hlt h), Hown.
  - rewrite decide_False in Hi1 by lia. destruct (replace h fd s1) as [s2 c2] eqn:Er. intros [= <- <- <-].
    eapply Hplain; [|exact Et | exact Er]. eapply own_ext; [exact Hi1 | done | done | set_solver].
Qed.

Lemma open_own s o dirfd host evfd sent txn h dev flags s' c r :
  own_inv s o -> 1 <= h < MAX_HANDLES -> open_fd dirfd host evfd dev flags ∉ o ->
  handle_open_device dirfd host evfd sent txn h dev flags s = (s', c, r) ->
  own_inv s' (gained (open_fd dirfd host evfd dev flags) o ∖ list_to_set c).
Proof.
  intros Hi Hh. unfold handle_open_device. generalize (open_fd dirfd host evfd dev flags) as fd. intros fd Ho.
  destruct (fd <? 0) eqn:E; nv_bool.
  - intros [= <- <- <-]. unfold gained. rewrite decide_False by lia. eapply own_ext; [done .. | set_solver].
  - destruct (replace h fd s) as [s1 c1] eqn:Er. destruct (replace_own s o h fd s1 c1 Hi Hh ltac:(done) Er) as [-> Hr].
    destruct (closes_owned s o h Hi) as [Hsub _].
    unfold gained in *. rewrite (decide_True (P := 0 <= fd)) in Hr |- * by done.
    assert (own_inv s1 (({[ fd ]} ∪ o) ∖ list_to_set (closes (fd_of (handle_fds s) h)))) as Hr'.
    { eapply own_ext; [exact Hr | done | done |]. by apply gained_close. }
    destruct sent; [by intros [= <- <- <-] |].
    destruct (handle_remove h s1) as [s2 c2] eqn:Em. intros [= <- <- <-].
    eapply own_ext; [by eapply remove_own | done | done |]. rewrite list_to_set_app. set_solver.
Qed.

(** *** The poll set *)

Lemma disarm_cases h l :
  (exists e, snd e = h /\ l ≡ₚ e :: disarm h l) \/ ((h ∉ (snd <$> l)) /\ disarm h l = l).
Proof.
  unfold disarm, poll_index. destruct (list_find _ l) as [[i e]|] eqn:E; simpl.
  - left. apply list_find_Some in E as (Hi & He & _). exists e. split; [done |]. by apply swap_remove_perm.
  - right. split; [|done]. apply list_find_None in E.
    intros (e & -> & He)%list_elem_of_fmap. by apply (proj1 (Forall_forall _ _) E e He).
Qed.

Lemma disarm_perm h l : exists k, l ≡ₚ disarm h l ++ k.
Proof.
  destruct (disarm_cases h l) as [(e & _ & H)|(_ & ->)]; [|exists []; by rewrite app_nil_r].
  exists [e]. rewrite H at 1. by rewrite Permutation_app_comm.
Qed.

Lemma disarm_gone h l : NoDup (snd <$> l) -> h ∉ (snd <$> disarm h l).
Proof.
  intros Hn. destruct (disarm_cases h l) as [(e & <- & H)|(Hh & ->)]; [|done].
  rewrite H in Hn. simpl in Hn. by apply NoDup_cons in Hn as [].
Qed.

Lemma poll_sub s b l k : poll_inv s b -> polls s ≡ₚ l ++ k -> poll_inv (with_polls l s) b.
Proof.
  intros [N L P E] Hp. split; unfold with_polls; cbn [polls handle_fds].
  - rewrite Hp, fmap_app in N. by apply NoDup_app in N as [].
  - rewrite Hp, length_app in L. lia.
  - rewrite Hp in P. by apply Forall_app in P as [].
  - intros Hb. specialize (E Hb). rewrite Hp in E. by apply Forall_app in E as [].
Qed.

Lemma disarm_inv s b h : poll_inv s b -> poll_inv (poll_disarm h s) b.
Proof. intros Hi. destruct (disarm_perm h (polls s)) as [k Hk]. by eapply poll_sub. Qed.

Lemma arm_inv s b h : poll_inv s b -> 1 <= h -> poll_inv (poll_arm h s) b.
Proof.
  intros Hi Hh. unfold poll_arm, handle_lookup. destruct (MAX_HANDLES <=? h) eqn:Eh; nv_bool; [done |].
  destruct (fd_of (handle_fds s) h <? 0) eqn:Ef; nv_bool; [done |]. unfold poll_index.
  destruct (list_find _ (polls s)) as [[i e]|] eqn:El; [done |]. simpl.
  destruct (_ <? NVKVM_POLL_MAX) eqn:En; nv_bool; [|done]. apply list_find_None in El.
  destruct Hi as [N L P E]. split; unfold with_polls; cbn [polls handle_fds].
  - rewrite fmap_app, NoDup_app. split; [done |]. split; [|repeat constructor; set_solver].
    intros x (e & -> & He)%list_elem_of_fmap. simpl. rewrite list_elem_of_singleton.
    by apply (proj1 (Forall_forall _ _) El).
  - rewrite length_app. simpl. lia.
  - apply Forall_app. split; [done |]. repeat constructor; simpl; lia.
  - intros Hb. apply Forall_app. split; [by apply E |]. repeat constructor. simpl. by apply fd_of_Some.
Qed.

(** Changing the table at an id that is not armed, or forgetting exactness. *)
Lemma table_poll s b h fd t :
  poll_inv s b -> t = <[h := fd]> (handle_fds s) -> poll_inv (with_table t s) (b && negb (armed h s)).
Proof.
  intros [N L P E] ->. split; unfold with_table; cbn [polls handle_fds]; [done .. |].
  intros [Hb Ha]%andb_true_iff. apply negb_true_iff, bool_decide_eq_false in Ha. specialize (E Hb).
  apply Forall_forall. intros e He. rewrite lookup_insert_ne; [by apply (proj1 (Forall_forall _ _) E) |].
  intros ->. apply Ha, list_elem_of_fmap. eauto.
Qed.

Lemma remove_poll s b h s' c : poll_inv s b -> handle_remove h s = (s', c) -> poll_inv s' b.
Proof.
  intros Hi. unfold handle_remove. destruct (h <? MAX_HANDLES); intros [= <- <-]; [|done].
  pose proof (table_poll (poll_disarm h s) b h (-1) _ (disarm_inv s b h Hi) eq_refl) as Ht.
  unfold armed in Ht. rewrite bool_decide_false in Ht by (apply disarm_gone, (pi_nodup _ _ Hi)).
  by rewrite andb_true_r in Ht.
Qed.

Lemma poll_pool s b n : poll_inv s b -> poll_inv (Fds (handle_fds s) (polls s) (uvm_local_fds s) n) b.
Proof. intros [N L P E]. by split. Qed.

Lemma replace_poll s b h fd s' c :
  poll_inv s b -> h < MAX_HANDLES -> replace h fd s = (s', c) -> poll_inv s' (b && negb (armed h s)).
Proof.
  intros Hi Hh. unfold replace, handle_store. rewrite (proj2 (Z.ltb_lt _ _)) by done. intros [= <- <-].
  by eapply table_poll.
Qed.

Lemma receive_poll s b h dev scm s' c r :
  poll_inv s b -> h < MAX_HANDLES -> receive_fd h dev scm s = (s', c, r) -> poll_inv s' (b && negb (armed h s)).
Proof.
  intros Hi Hh. unfold receive_fd. destruct scm as [fd|]; [|intros [= <- <- <-]; destruct Hi as [N L P E]; split; try done; intros [? _]%andb_true_iff; auto].
  destruct (if bool_decide (dev = Some 1) then uvm_take s else (s, None)) as [s1 local] eqn:El.
  assert (poll_inv s1 b /\ polls s1 = polls s) as [Hi1 Hp].
  { destruct (bool_decide _); [|by injection El as <- <-]. unfold uvm_take in El.
    destruct (_ !! _); injection El as <- <-; [|done]. split; [by apply poll_pool | done]. }
  destruct (match local with Some l => _ | None => _ end) as [fd1 c1].
  destruct (replace h fd1 s1) as [s2 c2] eqn:Er. intros [= <- <- <-].
  replace (armed h s) with (armed h s1) by (unfold armed; by rewrite Hp). by eapply replace_poll.
Qed.

Lemma open_poll s b dirfd host evfd sent txn h dev flags s' c r :
  poll_inv s b -> h < MAX_HANDLES -> handle_open_device dirfd host evfd sent txn h dev flags s = (s', c, r) ->
  poll_inv s' (b && negb (armed h s)).
Proof.
  intros Hi Hh. unfold handle_open_device. destruct (_ <? 0).
  - intros [= <- <- <-]. destruct Hi as [N L P E]. split; try done. intros [? _]%andb_true_iff; auto.
  - destruct (replace _ _ _) as [s1 c1] eqn:Er. pose proof (replace_poll _ _ _ _ _ _ Hi Hh Er) as H1.
    destruct sent; [by intros [= <- <- <-] |].
    destruct (handle_remove h s1) as [s2 c2] eqn:Em. intros [= <- <- <-]. by eapply remove_poll.
Qed.

Lemma relay_perm revents sn l l' evs : relay_loop revents sn l = (l', evs) -> exists k, l ≡ₚ l' ++ k.
Proof.
  revert l l' evs. induction sn as [|fd sn IH]; intros l l' evs; cbn [relay_loop].
  - intros [= <- <-]. exists []. by rewrite app_nil_r.
  - destruct (revents fd =? 0); [apply IH |]. destruct (_ =? 0); [apply IH |].
    destruct (relay_loop _ sn (disarm _ l)) as [l1 e1] eqn:E. intros [= <- <-].
    apply IH in E as [k Hk]. destruct (disarm_perm (default 0 (snd <$> (snd <$> list_find (fun e => fst e = fd) l))) l) as [k2 H2].
    exists (k ++ k2). rewrite H2, Hk. by rewrite app_assoc.
Qed.

Lemma relay_inv s b revents : poll_inv s b -> poll_inv (fst (poll_relay revents s)) b.
Proof.
  intros Hi. unfold poll_relay. destruct (relay_loop _ _ _) as [l evs] eqn:E. apply relay_perm in E as [k Hk].
  by eapply poll_sub.
Qed.

Lemma sreach_inv s o b : sreach s o b -> own_inv s o /\ poll_inv s b.
Proof.
  induction 1 as [L HL|s o b h dev fd s' c r _ [IH1 IH2] Hh Hf Ho Hr|s o b dirfd host evfd sent txn h dev flags s' c r _ [IH1 IH2] Hh Ho Hr
    |s o b h s' c r _ [IH1 IH2] Hh Hr|s o b h _ [IH1 IH2] Hh|s o b h _ [IH1 IH2]|s o b revents _ [IH1 IH2]].
  - split.
    + split; unfold spare, handle_table_init; cbn; try (intros *; rewrite lookup_empty; done); [done | set_solver |].
      intros fd Hf. rewrite elem_of_list_to_set in Hf. split; [by apply list_elem_of_filter in Hf as [] | by left].
    + by split; cbn; [constructor | | constructor | constructor].
  - split; [by eapply receive_own | eapply receive_poll; [done | lia | done]].
  - split; [by eapply open_own | eapply open_poll; [done | lia | done]].
  - unfold handle_close_fd in Hr. destruct (handle_remove h s) as [s1 c1] eqn:E. injection Hr as <- <- <-.
    split; [by eapply remove_own | by eapply remove_poll].
  - split; [|by apply arm_inv]. unfold poll_arm. repeat case_match; by apply (own_ext s s o) || by apply (own_ext s _ o).
  - split; [by apply (own_ext s _ o) | by apply disarm_inv].
  - split; [|by apply relay_inv]. apply (own_ext s _ o); try done; unfold poll_relay; destruct (relay_loop _ _ _); done.
Qed.

(** [stub_fd_ownership]: in every run against a host that hands out unused
    descriptors, two handle ids of the stub never share a descriptor, a stored
    descriptor is open, and every open descriptor is stored or is one of the
    stub's own unused UVM descriptors: replacing, closing and failed answers
    neither leak nor close twice. *)
Theorem stub_fd_ownership (s : fds) (o : gset Z) (b : bool) :
  sreach s o b ->
  (forall i j, 0 <= handle_lookup i s -> handle_lookup i s = handle_lookup j s -> i = j) /\
  (forall fd, fd ∈ o <-> fd ∈ spare s \/ 0 <= fd /\ exists i, handle_lookup i s = fd).
Proof.
  intros [Hi _]%sreach_inv. unfold handle_lookup. split.
  - intros i j. destruct (MAX_HANDLES <=? i) eqn:E1; nv_bool; [lia |]. intros H0 He.
    destruct (MAX_HANDLES <=? j) eqn:E2; nv_bool; [lia |].
    apply (oi_inj _ _ Hi i j (fd_of (handle_fds s) i)); [by apply fd_of_Some | by apply fd_of_Some | done].
  - intros fd. split.
    + intros [H0 [Hs|[id Hid]]]%(oi_all _ _ Hi); [by left |]. right. split; [done |]. exists id.
      pose proof (oi_range _ _ Hi id fd Hid H0). rewrite (proj2 (Z.leb_gt _ _)) by lia. by apply fd_of_Some.
    + intros [Hs|(H0 & i & Hl)]; [by apply (oi_pool _ _ Hi) |].
      destruct (MAX_HANDLES <=? i); [lia |]. apply fd_of_Some in Hl; [|done]. by apply (oi_own _ _ Hi i).
Qed.

(** Distinct elements with distinct keys: the search by key finds the element. *)
Lemma find_key {A} (f : A -> Z) l e :
  NoDup (f <$> l) -> e ∈ l -> exists i, list_find (fun x => f x = f e) l = Some (i, e).
Proof.
  intros Hn He. destruct (list_find_elem_of (fun x => f x = f e) l e He eq_refl) as [[i x] Hx].
  exists i. rewrite Hx. apply list_find_Some in Hx as (Hi & Hf & _).
  apply list_elem_of_lookup in He as [j Hj]. f_equal. f_equal.
  assert (i = j) as ->; [|congruence].
  apply (NoDup_lookup _ _ _ (f e) Hn); rewrite list_lookup_fmap; [by rewrite Hi, <- Hf | by rewrite Hj].
Qed.

Lemma relay_spec revents sn l l' evs :
  NoDup (fst <$> l) -> NoDup (snd <$> l) -> Forall (fun e => 1 <= snd e) l ->
  NoDup sn -> (forall e, e ∈ sn -> e ∈ l) -> relay_loop revents (fst <$> sn) l = (l', evs) ->
  evs = (fun e => RespPollEvent (snd e) (u16 (revents (fst e)))) <$> filter (fun e => revents (fst e) ≠ 0) sn /\
  l ≡ₚ l' ++ filter (fun e => revents (fst e) ≠ 0) sn.
Proof.
  revert l l' evs. induction sn as [|e sn IH]; intros l l' evs Nf Ns Hp Nn Hin; cbn [relay_loop fmap list_fmap].
  - intros [= <- <-]. by rewrite app_nil_r.
  - apply NoDup_cons in Nn as [Hne Nn].
    destruct (revents (fst e) =? 0) eqn:E; nv_bool.
    + intros Hr. rewrite filter_cons_False by (by intros []). apply IH; auto. intros; apply Hin; by right.
    + assert (e ∈ l) as He by (apply Hin; left).
      destruct (find_key fst l e Nf He) as [i Hi]. rewrite Hi. cbn [fmap option_fmap option_map from_option snd id].
      pose proof (proj1 (Forall_forall _ _) Hp e He) as Hpos. simpl in Hpos.
      rewrite (proj2 (Z.eqb_neq (snd e) 0)) by lia.
      assert (l ≡ₚ e :: disarm (snd e) l) as Hd.
      { destruct (disarm_cases (snd e) l) as [(x & Hx & Hd)|[Hno _]];
          [|destruct Hno; apply list_elem_of_fmap; eauto].
        assert (x = e) as ->; [|done]. destruct (find_key snd l e Ns He) as [k1 H1].
        destruct (find_key snd l x Ns ltac:(rewrite Hd; left)) as [k2 H2]. rewrite Hx in H2. congruence. }
      rewrite Hd in Nf, Ns, Hp. cbn [fmap list_fmap] in Nf, Ns.
      apply NoDup_cons in Nf as [_ Nf]. apply NoDup_cons in Ns as [_ Ns]. apply Forall_cons in Hp as [_ Hp].
      destruct (relay_loop _ _ (disarm _ l)) as [l1 e1] eqn:Er. intros [= <- <-].
      destruct (IH _ _ _ Nf Ns Hp Nn ltac:(intros x Hx; pose proof (Hin x ltac:(by right)) as Hxl; rewrite Hd in Hxl;
        apply elem_of_cons in Hxl as [->|]; done) Er) as [-> Hl].
      rewrite filter_cons_True by done. cbn [fmap list_fmap]. split; [done |].
      rewrite Hd at 1. rewrite Hl at 1. by rewrite Permutation_middle.
Qed.

(** [poll_relay_exact]: as long as no armed id was stored over, one round of the
    reader loop sends, in order, one event for each armed handle whose own
    descriptor is ready and no other, and exactly those handles are disarmed. *)
Theorem poll_relay_exact (s : fds) (o : gset Z) (revents : Z -> Z) :
  sreach s o true ->
  let ready := filter (fun e => revents (fst e) ≠ 0) (polls s) in
  (forall e, e ∈ polls s -> handle_lookup (snd e) s = fst e) /\
  snd (poll_relay revents s) = (fun e => RespPollEvent (snd e) (u16 (revents (fst e)))) <$> ready /\
  polls s ≡ₚ polls (fst (poll_relay revents s)) ++ ready.
Proof.
  intros [Hi [N L P E]]%sreach_inv. cbv zeta. specialize (E eq_refl).
  assert (forall e, e ∈ polls s -> handle_fds s !! snd e = Some (fst e) /\ 0 <= fst e /\ 1 <= snd e < MAX_HANDLES) as Hpe.
  { intros e He. split; [by apply (proj1 (Forall_forall _ _) E) | by apply (proj1 (Forall_forall _ _) P)]. }
  split.
  { intros e He. destruct (Hpe e He) as (H1 & H2 & H3). unfold handle_lookup.
    rewrite (proj2 (Z.leb_gt _ _)) by lia. by apply fd_of_Some. }
  assert (NoDup (fst <$> polls s)) as Nf.
  { apply NoDup_fmap_2_strong; [|by eapply NoDup_fmap_1].
    intros [f1 h1] [f2 h2] H1 H2 Hf. simpl in Hf. subst f2.
    destruct (Hpe _ H1) as (T1 & P1 & _), (Hpe _ H2) as (T2 & _). f_equal. by apply (oi_inj _ _ Hi _ _ f1). }
  unfold poll_relay. rewrite <- fmap_take, take_ge by (unfold NVKVM_POLL_MAX in *; lia).
  destruct (relay_loop _ _ _) as [l evs] eqn:Er. cbn [fst snd with_polls polls].
  apply (relay_spec revents (polls s) (polls s)); try done.
  - apply Forall_forall. intros e He. pose proof (Hpe e He). lia.
  - by eapply NoDup_fmap_1.
Qed.

(** [poll_stale_handle]: storing a new descriptor under an armed id leaves the
    closed descriptor in the poll set; when its number is reused for another
    handle, that handle's readiness is reported as an event of the first one. *)
Theorem poll_stale_handle :
  let s0 := Fds handle_table_init [] [] 0 in
  let s1 := poll_arm 5 (fst (fst (receive_fd 5 None (Some 9) s0))) in
  let '(s2, closed, _) := receive_fd 5 None (Some 11) s1 in
  let s3 := fst (fst (receive_fd 7 None (Some 9) s2)) in
  closed = [9] /\ handle_lookup 5 s3 = 11 /\ handle_lookup 7 s3 = 9 /\
  snd (poll_relay (fun fd => if fd =? 9 then 1 else 0) s3) = [RespPollEvent 5 1].
Proof. vm_compute. repeat split; reflexivity. Qed.

(** [dev_path_exact]: the names the stub opens are those of the device numbers:
    [nvidia<n>] for GPU ids, [dri/renderD<128 + n>] for render nodes, in decimal;
    different ids give different names, and the fallback buffer holds every
    absolute path in full. *)
Theorem dev_path_exact :
  (forall n, 0 <= n < 16 -> dev_id_to_path (16 + n) 24 = Some ("nvidia" +:+ pretty n)%string) /\
  (forall n, 0 <= n < 16 -> dev_id_to_path (32 + n) 24 = Some ("dri/renderD" +:+ pretty (128 + n))%string) /\
  (forall i j p, dev_id_to_path i 24 = Some p -> dev_id_to_path j 24 = Some p -> i = j) /\
  (forall i p, dev_id_to_path i 24 = Some p -> stub_open_path false p = AtRoot ("/dev/" +:+ p)%string).
Proof.
  assert (forall i p, dev_id_to_path i 24 = Some p -> i ∈ seqZ 0 49) as Hran.
  { intros i p. unfold dev_id_to_path. intros H. apply elem_of_seqZ. nv_cases; lia. }
  split_and!.
  - intros n Hn. assert (n ∈ seqZ 0 16) as Hin by (apply elem_of_seqZ; lia). clear Hn. revert n Hin.
    apply Forall_forall, (bool_decide_unpack _). vm_compute. exact I.
  - intros n Hn. assert (n ∈ seqZ 0 16) as Hin by (apply elem_of_seqZ; lia). clear Hn. revert n Hin.
    apply Forall_forall, (bool_decide_unpack _). vm_compute. exact I.
  - intros i j p Hp Hq. pose proof (Hran _ _ Hp) as Ri. pose proof (Hran _ _ Hq) as Rj.
    assert (Forall (fun i => Forall (fun j => dev_id_to_path i 24 = None \/ dev_id_to_path i 24 ≠ dev_id_to_path j 24 \/ i = j)
      (seqZ 0 49)) (seqZ 0 49)) as Hall.
    { apply (bool_decide_unpack _). vm_compute. exact I. }
    pose proof (proj1 (Forall_forall _ _) (proj1 (Forall_forall _ _) Hall i Ri) j Rj) as Hij. simpl in Hij.
    destruct Hij as [H|[H|H]]; congruence.
  - intros i p Hp. pose proof (Hran _ _ Hp) as Ri.
    assert (Forall (fun i => stub_open_path false (default EmptyString (dev_id_to_path i 24)) =
      AtRoot ("/dev/" +:+ default EmptyString (dev_id_to_path i 24))%string) (seqZ 0 49)) as Hall.
    { apply (bool_decide_unpack _). vm_compute. exact I. }
    pose proof (proj1 (Forall_forall _ _) Hall i Ri) as H. simpl in H. by rewrite Hp in H.
Qed.

(** *** Examples *)

Definition ex_s0 : fds := Fds handle_table_init [] [3; 4] 0.
Definition ex_s1 : fds := fst (fst (receive_fd 5 (Some 1) (Some 9) ex_s0)).
Definition ex_o : gset Z := gained 9 (list_to_set (filter (Z.le 0) [3; 4])) ∖ list_to_set [9].

Lemma ex_sreach : sreach (poll_arm 5 ex_s1) ex_o true.
Proof.
  apply sr_arm; [|lia]. unfold ex_o.
  refine (sr_receive ex_s0 _ true 5 (Some 1) 9 ex_s1 [9] [RespOk] (sr_init [3; 4] _) _ _ _ _);
    [apply (bool_decide_unpack _); vm_compute; exact I | unfold MAX_HANDLES; lia | lia | | reflexivity].
  apply (bool_decide_unpack _). vm_compute. exact I.
Qed.

Lemma stub_fd_ownership_witness : 4 ∈ ex_o /\ 3 ∈ ex_o.
Proof.
  destruct (stub_fd_ownership _ _ _ ex_sreach) as [_ H]. split; apply H.
  - left. vm_compute. left.
  - right. split; [lia |]. exists 5. reflexivity.
Defined.

Lemma poll_relay_exact_witness : snd (poll_relay (fun _ => 1) (poll_arm 5 ex_s1)) = [RespPollEvent 5 1].
Proof. exact (proj1 (proj2 (poll_relay_exact _ _ (fun _ => 1) ex_sreach))). Defined.

End StubH.
