(* ===== verification/StubIoctl.v ===== *)
(** * Forwarding one ioctl in the stub ([worker_thread] of [src/stub/nvkvm_stub.c])

    A worker takes a job, points the pointer fields of the parameters at the
    stub's own copies of the guest's buffers, replaces handle ids by local
    descriptors, calls the driver, undoes the replacements and answers.  The
    driver is an argument: it maps a call to its return value and to the two
    buffers after it. *)

From S2P Require Import Prelude Bytes Allowlists Abi StubHandles.
Local Open Scope Z_scope.
Local Open Scope nv_scope.

Module StubIoctl.
Import Allow.

(** [struct ioctl_job]; the buffers are the private copies received from the
    socket, zero after the received bytes. *)
Record ioctl_job := Job {
  txn_id : Z;
  handle_id : Z;
  cmd : Z;
  abi_profile : Z;
  param : bytes;
  param_size : Z;
  aux : bytes;
  aux_size : Z
}.

Definition job_type (j : ioctl_job) : Z := ioc_type (cmd j).
Definition job_nr (j : ioctl_job) : Z := ioc_nr (cmd j).

Definition NVKVM_NVKMS_PARAMS_SIZE : Z := 16.
Definition NVKVM_NVKMS_ADDR_OFF : Z := 8.
Definition NVKVM_NVKMS_CMD_REGISTER_SURFACE : Z := 17.
Definition NVKVM_NVKMS_REGSURF_USEFD_OFF : Z := 4.
Definition NVKVM_NVKMS_REGSURF_PLANE0_OFF : Z := 16.
Definition NVKVM_NVKMS_REGSURF_PLANE_STRIDE : Z := 32.
Definition NVKVM_NVKMS_MAX_PLANES : Z := 3.

(** Element size of the list a control writes through, 0 if it has none. *)
Definition nvkvm_ctrl_list_entry_size (c : Z) : Z :=
  if listed c [0x00410110; 0x00801104; 0x20800802; 0x20801201; 0x20801301; 0x20801802] then 8
  else if listed c [0x20800123; 0x00800201] then 4
  else if listed c [0x00801102; 0x00801301; 0x00801401; 0x00801701; 0x00801b01; 0x00801c02] then 1
  else 0.

(** [aux_clear_ptr]: clears what the buffer holds of the eight bytes. *)
Definition aux_clear_ptr (a : bytes) (size off : Z) : bytes :=
  if (size =? 0) || (size <=? off) then a
  else write_bytes a off (replicate (Z.to_nat (Z.min 8 (size - off))) 0).

(** ** The parameters' own pointer *)

Definition ptr_off (j : ioctl_job) : option Z :=
  if ((cmd j =? NVKVM_NVKMS_IOCTL_CMD) && (NVKVM_NVKMS_PARAMS_SIZE <=? param_size j)) ||
     ((job_type j =? type_d) && ((job_nr j =? 0x54) || (job_nr j =? 0x49)) && (16 <=? param_size j))
  then Some NVKVM_NVKMS_ADDR_OFF
  else if (job_type j =? type_F) && ((job_nr j =? 0x2a) || (job_nr j =? 0x2b)) && (24 <=? param_size j)
  then Some 16
  else if (0 <? aux_size j) && (24 <=? param_size j) then Some 16
  else None.

Section worker.
(** [handle_lookup] on the current table, and the address of the aux buffer. *)
Context (lookup : Z -> Z) (aux_va : Z).

Definition wire_ptr (j : ioctl_job) (p : bytes) : bytes :=
  match ptr_off j with
  | Some off => put64 p off (if 0 <? aux_size j then aux_va else 0)
  | None => p
  end.

(** ** Descriptors inside the aux buffer *)

(** The local descriptor of an id, if it is positive and known. *)
Definition local_fd (hid : Z) : option Z :=
  if 0 <? hid then (if 0 <=? lookup hid then Some (lookup hid) else None) else None.

(** One plane of REGISTER_SURFACE; the list is [regsurf_off], [regsurf_hid]. *)
Definition regsurf_plane (i : Z) (s : bytes * list (Z * Z)) : bytes * list (Z * Z) :=
  let '(a, saved) := s in
  let off := NVKVM_NVKMS_REGSURF_PLANE0_OFF + i * NVKVM_NVKMS_REGSURF_PLANE_STRIDE in
  let hid := s32 (get32 a off) in
  match local_fd hid with
  | Some fd => (put32 a off fd, saved ++ [(off, hid)])
  | None => s
  end.

Definition regsurf (j : ioctl_job) (p a : bytes) : bytes * list (Z * Z) :=
  if (cmd j =? NVKVM_NVKMS_IOCTL_CMD) && (4 <=? param_size j) &&
     (NVKVM_NVKMS_REGSURF_PLANE0_OFF + NVKVM_NVKMS_MAX_PLANES * NVKVM_NVKMS_REGSURF_PLANE_STRIDE <=? aux_size j)
  then if (get32 p 0 =? NVKVM_NVKMS_CMD_REGISTER_SURFACE) && negb (get8 a NVKVM_NVKMS_REGSURF_USEFD_OFF =? 0)
       then sweep regsurf_plane 0 (Z.to_nat NVKVM_NVKMS_MAX_PLANES) (a, [])
       else (a, [])
  else (a, []).

Definition drm_export (j : ioctl_job) (a : bytes) : bytes * option Z :=
  if (job_type j =? type_d) && (job_nr j =? 0x49) && (4 <=? aux_size j) then
    let hid := s32 (get32 a 0) in
    match local_fd hid with
    | Some fd => (put32 a 0 fd, Some hid)
    | None => (a, None)
    end
  else (a, None).

(** ** Controls with pointers or descriptors in their own parameters

    What has to be undone after the call: the marks of the list pointers, of the
    version strings, and the exported or imported descriptor. *)
Record inner_saved := Inner {
  info_list_size : Z;
  info_list_base : Z;
  str_sz : Z;
  export_fd : option (Z * Z)
}.

Definition no_inner : inner_saved := Inner 0 0 0 None.

(** The InfoList family. *)
Definition wire_list (j : ioctl_job) (inner_cmd : Z) (s : bytes * inner_saved) : bytes * inner_saved :=
  let '(a, v) := s in
  let list_esz := nvkvm_ctrl_list_entry_size inner_cmd in
  if negb (list_esz =? 0) && (4 <=? aux_size j) then
    let ls := get32 a 0 in
    let base := u32 (aux_size j - ls * list_esz) in
    if (0 <? ls) && (ls * list_esz <? aux_size j) && (16 <=? base)
    then (put64 a 8 (aux_va + base), Inner ls base (str_sz v) (export_fd v))
    else (aux_clear_ptr a (aux_size j) 8, v)
  else s.

(** EXPORT_OBJECT_TO_FD and IMPORT_OBJECT_FROM_FD. *)
Definition wire_object_fd (j : ioctl_job) (inner_cmd c off need : Z) (s : bytes * inner_saved)
  : bytes * inner_saved :=
  let '(a, v) := s in
  if (inner_cmd =? c) && (need <=? aux_size j) then
    let hid := s32 (get32 a off) in
    match local_fd hid with
    | Some fd => (put32 a off fd, Inner (info_list_size v) (info_list_base v) (str_sz v) (Some (off, hid)))
    | None => s
    end
  else s.

(** FIFO_GET_CHANNELLIST. *)
Definition wire_channels (j : ioctl_job) (inner_cmd : Z) (s : bytes * inner_saved) : bytes * inner_saved :=
  let '(a, v) := s in
  if inner_cmd =? 0x0080170d then
    let nc := if 4 <=? aux_size j then get32 a 0 else 0 in
    if (0 <? nc) && (nc <=? 4096) && (24 + nc * 8 <=? aux_size j)
    then (put64 (put64 a 8 (aux_va + 24)) 16 (aux_va + 24 + nc * 4),
          Inner nc 0xFFFFFFFF (str_sz v) (export_fd v))
    else (aux_clear_ptr (aux_clear_ptr a (aux_size j) 8) (aux_size j) 16, v)
  else s.

(** GET_BUILD_VERSION. *)
Definition wire_build (j : ioctl_job) (inner_cmd : Z) (s : bytes * inner_saved) : bytes * inner_saved :=
  let '(a, v) := s in
  if inner_cmd =? 0x00000101 then
    let sz := if 4 <=? aux_size j then get32 a 0 else 0 in
    if (0 <? sz) && (sz <=? 512) && (40 + sz * 3 <=? aux_size j)
    then (put64 (put64 (put64 a 8 (aux_va + 40)) 16 (aux_va + 40 + sz)) 24 (aux_va + 40 + 2 * sz),
          Inner (info_list_size v) (info_list_base v) sz (export_fd v))
    else (aux_clear_ptr (aux_clear_ptr (aux_clear_ptr a (aux_size j) 8) (aux_size j) 16) (aux_size j) 24, v)
  else s.

Definition inner (j : ioctl_job) (p a : bytes) : bytes * inner_saved :=
  if (Z.land (cmd j) 0xff =? 0x2a) && (0 <? aux_size j) && (12 <=? param_size j) then
    let inner_cmd := get32 p 8 in
    wire_build j inner_cmd
      (wire_channels j inner_cmd
        (wire_object_fd j inner_cmd 0x3d06 0 4
          (wire_object_fd j inner_cmd 0x3d05 16 20
            (wire_list j inner_cmd (a, no_inner)))))
  else (a, no_inner).

(** ** Descriptors inside the parameters *)

Definition uvm_fd_off (j : ioctl_job) : option Z :=
  if 4 <=? param_size j then
    if cmd j =? 75 then Some 0
    else if cmd j =? 25 then Some 16
    else if cmd j =? 27 then Some 16
    else if cmd j =? 33 then Some (Abi.uvm_map_ext_fd_off (Abi.nvkvm_abi_by_id (abi_profile j)))
    else None
  else None.

(** The field to restore: its offset and the id. *)
Definition uvm_fd (j : ioctl_job) (p : bytes) : res (bytes * option (Z * Z)) :=
  match uvm_fd_off j with
  | Some off =>
      if off + 4 <=? param_size j then
        let hid := s32 (get32 p off) in
        match local_fd hid with
        | Some fd => Ok (put32 p off fd, Some (off, hid))
        | None => Err EBADF
        end
      else Ok (p, None)
  | None => Ok (p, None)
  end.

Definition fe_fd_off (j : ioctl_job) : option Z :=
  if job_type j =? type_F then
    let n := job_nr j in
    if n =? 0x4e then Some 48
    else if n =? 0x27 then Some 48
    else if (n =? 0xce) || (n =? 0xcf) then Some 8
    else if n =? 0xc9 then Some 0
    else None
  else None.

(** NV_ESC_RM_IDLE_CHANNELS: the channel arrays are cleared. *)
Definition idle_channels (j : ioctl_job) (p : bytes) : bytes :=
  if (job_type j =? type_F) && (job_nr j =? 0x41) && (40 <=? param_size j)
  then write_bytes p 12 (replicate 28 0) else p.

Definition fe_fd (j : ioctl_job) (p : bytes) : res (bytes * option (Z * Z)) :=
  match fe_fd_off j with
  | Some off =>
      if off + 4 <=? param_size j then
        let hid := s32 (get32 p off) in
        if 0 <? hid then
          match local_fd hid with
          | Some fd => Ok (put32 p off fd, Some (off, hid))
          | None => Err EBADF
          end
        else Ok (p, Some (off, hid))
      else Ok (p, None)
  | None => Ok (p, None)
  end.

(** RM_ALLOC of an event: [Data] of the allocation parameters is a handle id. *)
Definition event_fd (j : ioctl_job) (p a : bytes) : res (bytes * option Z) :=
  if (job_type j =? type_F) && (job_nr j =? 0x2b) && (24 <=? aux_size j) && (32 <? param_size j) then
    let h_class := get32 p 12 in
    if (h_class =? 0x79) || (h_class =? 0x05) then
      let hid := s32 (get64 a 16) in
      if 0 <? hid then
        match local_fd hid with
        | Some fd => Ok (put64 a 16 (u32 fd), Some hid)
        | None => Err EBADF
        end
      else Ok (a, None)
    else Ok (a, None)
  else Ok (a, None).

(** ** The job *)

(** The buffers as the driver sees them, and what has to be undone. *)
Record prepared := Prep {
  pr_param : bytes;
  pr_aux : bytes;
  pr_regsurf : list (Z * Z);
  pr_drm : option Z;
  pr_inner : inner_saved;
  pr_uvm : option (Z * Z);
  pr_fe : option (Z * Z);
  pr_event : option Z
}.

Definition prepare (j : ioctl_job) : res prepared :=
  let p := wire_ptr j (param j) in
  let '(a, rs) := regsurf j p (aux j) in
  let '(a, drm) := drm_export j a in
  let '(a, inn) := inner j p a in
  match uvm_fd j p with
  | Err e => Err e
  | Ok (p, uvm) =>
      match fe_fd j (idle_channels j p) with
      | Err e => Err e
      | Ok (p, fe) =>
          match event_fd j p a with
          | Err e => Err e
          | Ok (a, ev) => Ok (Prep p a rs drm inn uvm fe ev)
          end
      end
  end.

Definition restore32 (f : option (Z * Z)) (b : bytes) : bytes :=
  match f with Some (off, hid) => put32 b off (u32 hid) | None => b end.

(** After the call: the parameters. *)
Definition finish_param (j : ioctl_job) (pr : prepared) (p : bytes) : bytes :=
  let p := restore32 (pr_fe pr) (restore32 (pr_uvm pr) p) in
  if (0 <? aux_size j) &&
     (((cmd j =? NVKVM_NVKMS_IOCTL_CMD) && (NVKVM_NVKMS_PARAMS_SIZE <=? param_size j)) ||
      ((job_type j =? type_d) && (job_nr j =? 0x54) && (16 <=? param_size j)))
  then put64 p NVKVM_NVKMS_ADDR_OFF 0
  else if (0 <? aux_size j) && (24 <=? param_size j) then put64 p 16 0
  else p.

(** After the call: the aux buffer. *)
Definition finish_aux (pr : prepared) (a : bytes) : bytes :=
  let v := pr_inner pr in
  let a := match pr_event pr with Some hid => put64 a 16 (u32 hid) | None => a end in
  let a := if 0 <? str_sz v then put64 (put64 (put64 a 8 0) 16 0) 24 0 else a in
  let a := if 0 <? info_list_size v
           then (let a1 := put64 a 8 0 in if info_list_base v =? 0xFFFFFFFF then put64 a1 16 0 else a1)
           else a in
  let a := restore32 (export_fd v) a in
  let a := match pr_drm pr with Some hid => put32 a 0 (u32 hid) | None => a end in
  fold_left (fun a e => put32 a (fst e) (u32 (snd e))) (pr_regsurf pr) a.

(** The offset of the status word of a frontend structure. *)
Definition fe_status_off (j : ioctl_job) : option Z :=
  let n := job_nr j in
  let sz := param_size j in
  if n =? 0x27 then Some 40
  else if n =? 0x29 then Some 12
  else if n =? 0x2a then Some 28
  else if n =? 0x2b then Some (if sz =? 48 then 40 else 28)
  else if n =? 0x34 then Some 24
  else if n =? 0x35 then Some 20
  else if n =? 0x4a then Some 20
  else if n =? 0x4e then Some 40
  else if n =? 0x4f then Some 24
  else if n =? 0x57 then Some (Abi.nvos46_status_off (Abi.nvkvm_abi_by_id (abi_profile j)))
  else if n =? 0x58 then Some 40
  else if sz =? 48 then Some 40
  else if 32 <=? sz then Some 28
  else if sz =? 16 then Some 12
  else None.

Definition nvstatus (j : ioctl_job) (p : bytes) : Z :=
  if job_type j =? type_F then
    match fe_status_off j with
    | Some off => if off + 4 <=? param_size j then get32 p off else 0
    | None => 0
    end
  else if 4 <=? param_size j then get32 p (param_size j - 4) else 0.

(** [struct isolate_resp_ioctl] with the two blobs behind it; the fault address is
    always 0, because a fault in the stub ends the process. *)
Record ioctl_resp := IResp {
  r_txn_id : Z;
  r_retval : Z;
  r_nvstatus : Z;
  r_param : list Z;
  r_aux : list Z
}.

Definition fail_resp (j : ioctl_job) (e : Z) : ioctl_resp := IResp (txn_id j) (- e) 0 [] [].

(** A call on the driver. *)
Record drv_call := DCall { c_fd : Z; c_cmd : Z; c_param : bytes; c_aux : bytes }.

Context (driver : drv_call -> Z * bytes * bytes).

Definition worker_job (j : ioctl_job) : list drv_call * ioctl_resp :=
  let fd := lookup (handle_id j) in
  if fd <? 0 then ([], fail_resp j EBADF)
  else
    match prepare j with
    | Err e => ([], fail_resp j e)
    | Ok pr =>
        let c := DCall fd (cmd j) (pr_param pr) (pr_aux pr) in
        let '(ret, p, a) := driver c in
        let p := finish_param j pr p in
        let a := finish_aux pr a in
        ([c], IResp (txn_id j) (if ret <? 0 then ret else s32 ret) (nvstatus j p)
                (read_bytes p 0 (param_size j)) (read_bytes a 0 (aux_size j)))
    end.
End worker.

End StubIoctl.
