(* ===== verification/StubMarshal.v ===== *)
(** * What the driver and the guest see of a forwarded ioctl

    Theorems on [StubIoctl]: the addresses and descriptors that reach the
    driver, and the values that go back to the guest, for every driver. *)

From S2P Require Import Prelude Bytes Allowlists Abi StubHandles StubIoctl.
Local Open Scope Z_scope.
Local Open Scope nv_scope.

Module StubMarshal.
Import Allow StubIoctl.

(** Where the structure a command selects has its user pointer. *)
Definition layout_ptr (j : ioctl_job) : option Z :=
  if (cmd j =? NVKVM_NVKMS_IOCTL_CMD) || ((job_type j =? type_d) && ((job_nr j =? 0x54) || (job_nr j =? 0x49)))
  then Some 8
  else if (job_type j =? type_F) && ((job_nr j =? 0x2a) || (job_nr j =? 0x2b)) then Some 16
  else None.

(** The controls whose parameters hold pointers, with the offset of each pointer
    and the number of bytes behind it per unit of the count at offset 0.  The table
    is written out here and not computed by the stub's functions, so that a code
    or an offset the stub leaves out shows. *)
Definition pointer_table : list (Z * list (Z * Z)) :=
  [(0x00410110, [(8, 8)]); (0x00801104, [(8, 8)]); (0x20800802, [(8, 8)]);
   (0x20801201, [(8, 8)]); (0x20801301, [(8, 8)]); (0x20801802, [(8, 8)]);
   (0x20800123, [(8, 4)]); (0x00800201, [(8, 4)]);
   (0x00801102, [(8, 1)]); (0x00801301, [(8, 1)]); (0x00801401, [(8, 1)]);
   (0x00801701, [(8, 1)]); (0x00801b01, [(8, 1)]); (0x00801c02, [(8, 1)]);
   (0x0080170d, [(8, 4); (16, 4)]);
   (0x00000101, [(8, 1); (16, 1); (24, 1)])].

Definition pointers_in (t : list (Z * list (Z * Z))) (c : Z) : list (Z * Z) :=
  concat (map (fun e => if c =? fst e then snd e else []) t).

(** The pointers of a control with the given count: offset and number of bytes. *)
Definition inner_ptrs (c count : Z) : list (Z * Z) :=
  map (fun e => (fst e, count * snd e)) (pointers_in pointer_table c).

(** The stub's own table selects the same fields. *)
Lemma inner_ptrs_eq c count :
  inner_ptrs c count =
  (let esz := nvkvm_ctrl_list_entry_size c in
   if negb (esz =? 0) then [(8, count * esz)]
   else if c =? 0x0080170d then [(8, count * 4); (16, count * 4)]
   else if c =? 0x00000101 then [(8, count * 1); (16, count * 1); (24, count * 1)]
   else []).
Proof.
  unfold inner_ptrs, pointers_in, pointer_table, nvkvm_ctrl_list_entry_size, listed. cbn [map fst snd].
  repeat match goal with |- context [?k =? c] => rewrite (Z.eqb_sym k c) end.
  repeat match goal with |- context [c =? ?k] =>
    destruct (Z.eqb_spec c k) as [->|]; [reflexivity |] end.
  reflexivity.
Qed.

Definition is_control (j : ioctl_job) : bool := (job_type j =? type_F) && (job_nr j =? 0x2a).

(** ** Clearing *)

Lemma get8_clear a size off i :
  0 <= size -> 0 <= off ->
  get8 (aux_clear_ptr a size off) i = if decide (off <= i < Z.min (off + 8) size) then 0 else get8 a i.
Proof.
  intros Hs Ho. unfold aux_clear_ptr.
  destruct ((size =? 0) || (size <=? off)) eqn:E.
  - rewrite decide_False; [done |]. apply orb_true_iff in E as [E|E]; nv_bool; lia.
  - nv_bool. rewrite get8_zeros. repeat case_decide; try done; lia.
Qed.

Lemma get64_clear a size off : 0 <= off -> off + 8 <= size -> get64 (aux_clear_ptr a size off) off = 0.
Proof. intros. apply zero64. intros i Hi. rewrite get8_clear by lia. by rewrite decide_True by lia. Qed.

Lemma get64_clear_ne a size off o :
  0 <= size -> 0 <= off -> o + 8 <= off \/ off + 8 <= o -> get64 (aux_clear_ptr a size off) o = get64 a o.
Proof.
  intros Hs Ho Hd. apply (agree_get64 _ _ o (o + 8)); [|lia | lia].
  intros i Hi. rewrite get8_clear by lia. by rewrite decide_False by lia.
Qed.

Lemma get32_clear_ne a size off o :
  0 <= size -> 0 <= off -> o + 4 <= off -> get32 (aux_clear_ptr a size off) o = get32 a o.
Proof.
  intros Hs Ho Hd. apply (agree_get32 _ _ o (o + 4)); [|lia | lia].
  intros i Hi. rewrite get8_clear by lia. by rewrite decide_False by lia.
Qed.

(** ** Which steps touch which commands *)

(** Reads an equation on the command off the guards. *)
Ltac cmd_split :=
  repeat (progress nv_bool ||
          match goal with H : (_ || _)%bool = true |- _ => apply orb_true_iff in H; destruct H end).

Lemma uvm_off_cmd j off : uvm_fd_off j = Some off -> cmd j = 75 \/ cmd j = 25 \/ cmd j = 27 \/ cmd j = 33.
Proof. unfold uvm_fd_off. intros H. nv_cases; auto. Qed.

Lemma layout_type j off :
  layout_ptr j = Some off ->
  off = 8 /\ cmd j = NVKVM_NVKMS_IOCTL_CMD \/
  off = 8 /\ job_type j = type_d /\ (job_nr j = 0x54 \/ job_nr j = 0x49) \/
  off = 16 /\ job_type j = type_F /\ (job_nr j = 0x2a \/ job_nr j = 0x2b).
Proof.
  unfold layout_ptr. intros H. destruct (_ || _) eqn:E1 in H; [|destruct (_ && _) eqn:E2 in H; [|done]].
  - injection H as <-. cmd_split; auto 6.
  - injection H as <-. cmd_split; auto 6.
Qed.

Lemma layout_no_fd j off p :
  layout_ptr j = Some off -> uvm_fd_off j = None /\ fe_fd_off j = None /\ idle_channels j p = p.
Proof.
  intros Hl. apply layout_type in Hl.
  assert (job_type j = ioc_type (cmd j) /\ job_nr j = ioc_nr (cmd j)) as [Et En] by done.
  split_and!.
  - destruct (uvm_fd_off j) as [o|] eqn:E; [|done]. exfalso. apply uvm_off_cmd in E.
    destruct Hl as [(_ & H)|[(_ & H & _)|(_ & H & _)]];
      destruct E as [E|[E|[E|E]]]; rewrite ?Et, E in H; vm_compute in H; discriminate.
  - unfold fe_fd_off. destruct Hl as [(_ & H)|[(_ & -> & _)|(_ & -> & H)]]; [| done |].
    + rewrite Et, H. done.
    + destruct H as [-> | ->]; done.
  - unfold idle_channels. destruct Hl as [(_ & H)|[(_ & -> & _)|(_ & -> & H)]]; [| done |].
    + rewrite Et, H. done.
    + destruct H as [-> | ->]; done.
Qed.

Section worker.
Context (lookup : Z -> Z) (aux_va : Z).

Lemma prepare_layout j off pr :
  layout_ptr j = Some off -> prepare lookup aux_va j = Ok pr -> pr_param pr = wire_ptr aux_va j (param j).
Proof.
  intros Hl. destruct (layout_no_fd j off (wire_ptr aux_va j (param j)) Hl) as (Hu & Hf & Hi).
  unfold prepare, uvm_fd, fe_fd. rewrite Hu, Hf, Hi.
  destruct (regsurf _ _ _ _) as [a1 rs], (drm_export _ _ _) as [a2 drm], (inner _ _ _ _ _) as [a3 inn].
  destruct (event_fd _ _ _ _) as [[a4 ev]|]; by intros [= <-].
Qed.

Lemma control_facts j :
  is_control j = true ->
  layout_ptr j = Some 16 /\ cmd j <> NVKVM_NVKMS_IOCTL_CMD /\ job_type j = type_F /\ job_nr j = 0x2a /\
  Z.land (cmd j) 0xff = 0x2a.
Proof.
  unfold is_control. intros H. nv_bool.
  assert (cmd j <> NVKVM_NVKMS_IOCTL_CMD) as Hn.
  { intros E. unfold job_nr in *. rewrite E in *. discriminate. }
  split_and!; try done. unfold layout_ptr. rewrite (proj2 (Z.eqb_neq _ _) Hn), H, H0. done.
Qed.

(** A control keeps everything but its pointer and its inner parameters. *)
Lemma prepare_control_eq j :
  is_control j = true ->
  prepare lookup aux_va j =
  Ok (Prep (wire_ptr aux_va j (param j)) (fst (inner lookup aux_va j (wire_ptr aux_va j (param j)) (aux j)))
        [] None (snd (inner lookup aux_va j (wire_ptr aux_va j (param j)) (aux j))) None None None).
Proof.
  intros (Hl & Hn & Ht & Hr & _)%control_facts.
  destruct (layout_no_fd j 16 (wire_ptr aux_va j (param j)) Hl) as (Hu & Hf & Hi).
  unfold prepare, uvm_fd, fe_fd, regsurf, drm_export, event_fd. rewrite Hu, Hf, Hi, (proj2 (Z.eqb_neq _ _) Hn), Ht, Hr.
  change (0x2a =? 0x2b) with false. change (type_F =? type_d) with false. rewrite ?andb_false_r. cbn [andb].
  by destruct (inner _ _ _ _ _) as [a v].
Qed.

Lemma prepare_control j pr :
  is_control j = true -> prepare lookup aux_va j = Ok pr ->
  pr = Prep (wire_ptr aux_va j (param j)) (fst (inner lookup aux_va j (wire_ptr aux_va j (param j)) (aux j)))
         [] None (snd (inner lookup aux_va j (wire_ptr aux_va j (param j)) (aux j))) None None None.
Proof. intros Hc. rewrite prepare_control_eq by done. by intros [= <-]. Qed.

Lemma get32_wire_low j o : o + 4 <= 8 \/ (layout_ptr j = Some 16 /\ o + 4 <= 16) ->
  get32 (wire_ptr aux_va j (param j)) o = get32 (param j) o.
Proof.
  intros Ho. unfold wire_ptr. destruct (ptr_off j) as [off|] eqn:E; [|done].
  apply get32_put64_ne. left. unfold ptr_off in E. destruct (_ || _) eqn:E1 in E; [|nv_cases; lia].
  injection E as <-. destruct Ho as [Ho|[Hl Ho]]; [unfold NVKVM_NVKMS_ADDR_OFF; lia | exfalso].
  apply layout_type in Hl as [(? & _)|[(? & _)|(_ & Ht & Hr)]]; [done | done |].
  apply orb_true_iff in E1 as [E1|E1]; nv_bool.
  - unfold job_type in Ht. rewrite H in Ht. discriminate.
  - rewrite Ht in H. discriminate.
Qed.

(** *** The inner parameters of a control *)

Lemma inner_control j p a :
  is_control j = true -> 12 <= param_size j -> 0 < aux_size j ->
  inner lookup aux_va j p a =
  wire_build aux_va j (get32 p 8) (wire_channels aux_va j (get32 p 8)
    (wire_object_fd lookup j (get32 p 8) 0x3d06 0 4 (wire_object_fd lookup j (get32 p 8) 0x3d05 16 20
      (wire_list aux_va j (get32 p 8) (a, no_inner))))).
Proof.
  intros (_ & _ & _ & _ & Hc)%control_facts Hp Ha. unfold inner. rewrite Hc.
  by rewrite (proj2 (Z.ltb_lt _ _)), (proj2 (Z.leb_le _ _)) by done.
Qed.

(** A control of the list family is none of the others. *)
Lemma list_only c : nvkvm_ctrl_list_entry_size c <> 0 ->
  c <> 0x3d05 /\ c <> 0x3d06 /\ c <> 0x0080170d /\ c <> 0x00000101.
Proof. intros H. split_and!; intros ->; by apply H. Qed.

Lemma wire_build_skip j c s : c <> 0x101 -> wire_build aux_va j c s = s.
Proof. intros H. unfold wire_build. destruct s. by rewrite (proj2 (Z.eqb_neq _ _) H). Qed.

Lemma wire_channels_skip j c s : c <> 0x0080170d -> wire_channels aux_va j c s = s.
Proof. intros H. unfold wire_channels. destruct s. by rewrite (proj2 (Z.eqb_neq _ _) H). Qed.

Lemma wire_object_skip j c k off need s : c <> k -> wire_object_fd lookup j c k off need s = s.
Proof. intros H. unfold wire_object_fd. destruct s. by rewrite (proj2 (Z.eqb_neq _ _) H). Qed.

Lemma wire_list_skip j c s : nvkvm_ctrl_list_entry_size c = 0 -> wire_list aux_va j c s = s.
Proof. intros H. unfold wire_list. destruct s. by rewrite H. Qed.

(** An address in the aux buffer with the bytes behind it, or no address. *)
Definition confined (size v len : Z) : Prop := v = 0 \/ aux_va <= v /\ v + len <= aux_va + size.

Lemma wire_list_confined j c a v0 :
  0 <= aux_va -> aux_va + aux_size j < 2 ^ 64 -> nvkvm_ctrl_list_entry_size c <> 0 -> 16 <= aux_size j < 2 ^ 32 ->
  let a' := fst (wire_list aux_va j c (a, v0)) in
  confined (aux_size j) (get64 a' 8) (get32 a' 0 * nvkvm_ctrl_list_entry_size c).
Proof.
  intros Ha Hb He Hs. cbv zeta. unfold wire_list.
  rewrite (proj2 (Z.eqb_neq _ _) He), (proj2 (Z.leb_le 4 _)) by lia. cbn [negb andb].
  assert (0 < nvkvm_ctrl_list_entry_size c) as Hpos by (unfold nvkvm_ctrl_list_entry_size in *; nv_cases; lia).
  set (e := nvkvm_ctrl_list_entry_size c) in *. pose proof (get32_range a 0) as Hg.
  destruct (_ && _) eqn:E; cbn [fst].
  - nv_bool. rewrite u32_small in * by nia. rewrite get64_put64, get32_put64_ne by lia. right.
    rewrite u64_small by nia. nia.
  - left. apply get64_clear; lia.
Qed.

Lemma wire_channels_confined j a v0 off :
  0 <= aux_va -> aux_va + aux_size j < 2 ^ 64 -> off = 8 \/ off = 16 -> off + 8 <= aux_size j ->
  let a' := fst (wire_channels aux_va j 0x0080170d (a, v0)) in
  confined (aux_size j) (get64 a' off) (get32 a' 0 * 4).
Proof.
  intros Ha Hb Ho Hs. cbv zeta. unfold wire_channels. cbn [Z.eqb Pos.eqb].
  rewrite (proj2 (Z.leb_le 4 _)) by lia. destruct (_ && _) eqn:E; cbn [fst].
  - nv_bool. right. rewrite !get32_put64_ne by lia.
    destruct Ho as [-> | ->]; [rewrite get64_put64_ne, get64_put64 by lia | rewrite get64_put64];
      rewrite u64_small by lia; lia.
  - left. destruct Ho as [-> | ->]; [rewrite get64_clear_ne by lia |]; apply get64_clear; lia.
Qed.

Lemma wire_build_confined j a v0 off :
  0 <= aux_va -> aux_va + aux_size j < 2 ^ 64 -> off = 8 \/ off = 16 \/ off = 24 -> off + 8 <= aux_size j ->
  let a' := fst (wire_build aux_va j 0x101 (a, v0)) in
  confined (aux_size j) (get64 a' off) (get32 a' 0).
Proof.
  intros Ha Hb Ho Hs. cbv zeta. unfold wire_build. cbn [Z.eqb Pos.eqb].
  rewrite (proj2 (Z.leb_le 4 _)) by lia. destruct (_ && _) eqn:E; cbn [fst].
  - nv_bool. right. rewrite !get32_put64_ne by lia.
    destruct Ho as [-> | [-> | ->]];
      [rewrite !get64_put64_ne, get64_put64 by lia | rewrite get64_put64_ne, get64_put64 by lia | rewrite get64_put64];
      rewrite u64_small by lia; lia.
  - left. destruct Ho as [-> | [-> | ->]]; [rewrite !get64_clear_ne by lia | rewrite get64_clear_ne by lia |];
      apply get64_clear; lia.
Qed.

Lemma inner_confined j p a off len :
  0 <= aux_va -> aux_va + aux_size j < 2 ^ 64 -> is_control j = true -> 12 <= param_size j -> 0 < aux_size j < 2 ^ 32 ->
  (off, len) ∈ inner_ptrs (get32 p 8) (get32 (fst (inner lookup aux_va j p a)) 0) -> off + 8 <= aux_size j ->
  confined (aux_size j) (get64 (fst (inner lookup aux_va j p a)) off) len.
Proof.
  intros Ha Hb Hc Hp Hs. rewrite inner_control by (done || lia). set (c := get32 p 8).
  rewrite inner_ptrs_eq; cbv zeta. destruct (nvkvm_ctrl_list_entry_size c =? 0) eqn:Ee; cbn [negb]; nv_bool.
  - rewrite wire_list_skip by done.
    destruct (c =? 0x0080170d) eqn:E1; nv_bool; [|destruct (c =? 0x101) eqn:E2; nv_bool; [|intros []%not_elem_of_nil]].
    + rewrite E1. rewrite wire_build_skip, !wire_object_skip by done. intros Hin Ho.
      assert (off = 8 \/ off = 16) as Hoff by set_solver.
      pose proof (wire_channels_confined j a no_inner off Ha Hb Hoff Ho) as Hw. cbv zeta in Hw.
      replace len with (get32 (fst (wire_channels aux_va j 0x0080170d (a, no_inner))) 0 * 4) by set_solver. done.
    + rewrite E2. rewrite wire_channels_skip, !wire_object_skip by done. intros Hin Ho.
      assert (off = 8 \/ off = 16 \/ off = 24) as Hoff by set_solver.
      pose proof (wire_build_confined j a no_inner off Ha Hb Hoff Ho) as Hw. cbv zeta in Hw.
      replace len with (get32 (fst (wire_build aux_va j 0x101 (a, no_inner))) 0) by set_solver by lia. done.
  - destruct (list_only c Ee) as (? & ? & ? & ?).
    rewrite wire_build_skip, wire_channels_skip, !wire_object_skip by done.
    intros [= -> ->]%list_elem_of_singleton Ho. apply wire_list_confined; try done; lia.
Qed.

(** The descriptor field of a control, if it has one. *)
Definition fd_bytes (c i : Z) : Prop := c = 0x3d05 /\ 16 <= i < 20 \/ c = 0x3d06 /\ 0 <= i < 4.

Lemma wire_object_other j c k off need a i :
  ~ (c = k /\ off <= i < off + 4) -> get8 (fst (wire_object_fd lookup j c k off need (a, no_inner))) i = get8 a i.
Proof.
  intros Hi. unfold wire_object_fd. destruct ((c =? k) && _) eqn:E; [|done]. nv_bool.
  destruct (local_fd lookup _); [|done]. cbn [fst]. apply get8_put32_ne. lia.
Qed.

(** A control that is not in the table keeps its parameters. *)
Lemma inner_untouched j p a i :
  is_control j = true -> pointers_in pointer_table (get32 p 8) = [] -> ~ fd_bytes (get32 p 8) i ->
  get8 (fst (inner lookup aux_va j p a)) i = get8 a i.
Proof.
  intros Hc Ht Hi. destruct (control_facts j Hc) as (_ & _ & _ & _ & Hcc). unfold inner. rewrite Hcc.
  destruct (_ && _) eqn:E; [|done]. set (c := get32 p 8) in *. unfold fd_bytes in Hi.
  assert (inner_ptrs c 0 = []) as Hn by (unfold inner_ptrs; by rewrite Ht).
  rewrite inner_ptrs_eq in Hn. cbv zeta in Hn. destruct (nvkvm_ctrl_list_entry_size c =? 0) eqn:E0 in Hn; [|done].
  cbn [negb] in Hn. destruct (c =? 0x0080170d) eqn:E1 in Hn; [done |]. destruct (c =? 0x101) eqn:E2 in Hn; [done |].
  nv_bool. rewrite wire_build_skip, wire_channels_skip, wire_list_skip by done.
  destruct (decide (c = 0x3d06)) as [E6|].
  - rewrite (wire_object_skip j c 0x3d05) by lia. apply wire_object_other. tauto.
  - rewrite (wire_object_skip j c 0x3d06) by done. apply wire_object_other. lia.
Qed.

(** What [prepare] leaves in the pointer fields. *)
Lemma pointers_confined (j : ioctl_job) (pr : prepared) :
  0 <= aux_va -> aux_va + aux_size j < 2 ^ 64 -> 0 <= aux_size j < 2 ^ 32 ->
  prepare lookup aux_va j = Ok pr ->
  (forall off, layout_ptr j = Some off -> off + 8 <= param_size j ->
     get64 (pr_param pr) off = if 0 <? aux_size j then aux_va else 0) /\
  (is_control j = true -> 12 <= param_size j -> 0 < aux_size j ->
   forall off len, (off, len) ∈ inner_ptrs (get32 (pr_param pr) 8) (get32 (pr_aux pr) 0) ->
     off + 8 <= aux_size j -> confined (aux_size j) (get64 (pr_aux pr) off) len) /\
  (is_control j = true -> pointers_in pointer_table (get32 (pr_param pr) 8) = [] ->
   forall i, ~ fd_bytes (get32 (pr_param pr) 8) i -> get8 (pr_aux pr) i = get8 (aux j) i).
Proof.
  intros Ha Hb Hs Hpr. split_and!.
  - intros off Hl Ho. rewrite (prepare_layout j off pr Hl Hpr). unfold wire_ptr.
    assert (ptr_off j = Some off) as ->.
    { unfold ptr_off, NVKVM_NVKMS_PARAMS_SIZE.
      destruct (layout_type j off Hl) as [(-> & ->)|[(-> & -> & Hn)|(-> & Ht & Hn)]].
      - by rewrite (proj2 (Z.leb_le 16 _)) by lia.
      - rewrite (proj2 (Z.leb_le 16 _)) by lia. destruct Hn as [-> | ->]; by rewrite ?orb_true_r.
      - assert ((cmd j =? NVKVM_NVKMS_IOCTL_CMD) = false) as ->.
        { apply Z.eqb_neq. intros E. unfold job_type in Ht. rewrite E in Ht. discriminate. }
        rewrite Ht, (proj2 (Z.leb_le 24 _)) by lia. destruct Hn as [-> | ->]; done. }
    rewrite get64_put64. destruct (0 <? aux_size j); [apply u64_small; lia | done].
  - intros Hc Hp H0 off len. rewrite (prepare_control j pr Hc Hpr). cbn [pr_param pr_aux]. intros Hin Ho.
    eapply inner_confined; try done; lia.
  - intros Hc. rewrite (prepare_control j pr Hc Hpr). cbn [pr_param pr_aux]. intros. by apply inner_untouched.
Qed.

(** C7. [driver_pointers_confined]: whatever the guest sends, the user pointer of
    RM_CONTROL, RM_ALLOC, the NVKMS wrapper and the two DRM calls holds the stub's
    own buffer, or 0 without one, when the driver reads it, provided the declared
    parameters contain the whole field.  Of the pointers inside the parameters of a
    control, exactly those of the sixteen controls of [pointer_table] are covered:
    each one the buffer contains is 0 or lies in that buffer together with all the
    bytes the count tells the driver to access.  Every other control reaches the
    driver with its parameters unchanged byte for byte (the descriptor of 0x3d05
    and 0x3d06 apart), so a pointer that such a control has inside its parameters
    is the guest's.  Pointers of other commands are not part of the claim. *)
Theorem driver_pointers_confined (j : ioctl_job) (pr : prepared) :
  0 <= aux_va -> aux_va + aux_size j < 2 ^ 64 -> 0 <= aux_size j < 2 ^ 32 ->
  prepare lookup aux_va j = Ok pr ->
  (forall off, layout_ptr j = Some off -> off + 8 <= param_size j ->
     get64 (pr_param pr) off = if 0 <? aux_size j then aux_va else 0) /\
  (is_control j = true -> 12 <= param_size j -> 0 < aux_size j ->
   forall off len, (off, len) ∈ inner_ptrs (get32 (pr_param pr) 8) (get32 (pr_aux pr) 0) ->
     off + 8 <= aux_size j -> confined (aux_size j) (get64 (pr_aux pr) off) len) /\
  (is_control j = true -> pointers_in pointer_table (get32 (pr_param pr) 8) = [] ->
   forall i, ~ fd_bytes (get32 (pr_param pr) 8) i -> get8 (pr_aux pr) i = get8 (aux j) i).
Proof. apply pointers_confined. Qed.

(** *** Descriptors in the parameters *)

Lemma fe_type j off : fe_fd_off j = Some off ->
  job_type j = type_F /\ uvm_fd_off j = None /\ (forall p, idle_channels j p = p) /\ (off = 48 \/ off = 8 \/ off = 0) /\
  layout_ptr j = None.
Proof.
  unfold fe_fd_off. destruct (job_type j =? type_F) eqn:Et; [|done]. nv_bool. intros H.
  assert (job_nr j ∈ [0x4e; 0x27; 0xce; 0xcf; 0xc9] /\ (off = 48 \/ off = 8 \/ off = 0)) as [Hn Ho].
  { revert H. repeat (case_match; nv_bool; [intros [= <-]; cmd_split; set_solver |]). done. }
  assert (cmd j <> NVKVM_NVKMS_IOCTL_CMD) as Hk.
  { intros E. unfold job_type in Et. rewrite E in Et. discriminate. }
  split_and!; try done.
  - destruct (uvm_fd_off j) eqn:E; [|done]. apply uvm_off_cmd in E. unfold job_type in Et.
    destruct E as [E|[E|[E|E]]]; rewrite E in Et; discriminate.
  - intros p. unfold idle_channels. rewrite (proj2 (Z.eqb_neq (job_nr j) 0x41)); [by rewrite andb_false_r |].
    intros E. rewrite E in Hn. set_solver.
  - unfold layout_ptr. rewrite (proj2 (Z.eqb_neq _ _) Hk), Et. cbn [orb andb].
    rewrite (proj2 (Z.eqb_neq (job_nr j) 0x2a)), (proj2 (Z.eqb_neq (job_nr j) 0x2b)); [done | |];
      intros E; rewrite E in Hn; set_solver.
Qed.

Lemma layout_none_ptr j off : layout_ptr j = None -> ptr_off j = Some off -> off = 16.
Proof.
  unfold layout_ptr, ptr_off. destruct (_ || _) eqn:E1; [done |]. intros _.
  apply orb_false_iff in E1 as [-> E1]. cbn [andb orb].
  destruct ((job_type j =? type_d) && _ && _) eqn:E2; [|intros H; nv_cases; done].
  nv_bool. rewrite H, H1 in E1. done.
Qed.

(** The frontend descriptor field: what the driver finds and what comes back. *)
Lemma prepare_fe j off pr :
  fe_fd_off j = Some off -> off + 4 <= param_size j -> prepare lookup aux_va j = Ok pr ->
  let hid := s32 (get32 (param j) off) in
  pr_uvm pr = None /\ pr_fe pr = Some (off, hid) /\
  (hid <= 0 /\ get32 (pr_param pr) off = get32 (param j) off \/
   0 < hid /\ 0 <= lookup hid /\ get32 (pr_param pr) off = u32 (lookup hid)).
Proof.
  intros Hf Ho. destruct (fe_type j off Hf) as (Ht & Hu & Hi & Hoff & Hl). cbv zeta.
  assert (get32 (wire_ptr aux_va j (param j)) off = get32 (param j) off) as Hg.
  { unfold wire_ptr. destruct (ptr_off j) as [o|] eqn:E; [|done]. apply (layout_none_ptr j o Hl) in E as ->.
    apply get32_put64_ne. lia. }
  unfold prepare, uvm_fd, fe_fd. rewrite Hu, Hi, Hf, (proj2 (Z.leb_le _ _)) by done. rewrite Hg.
  destruct (regsurf _ _ _ _) as [a1 rs], (drm_export _ _ _) as [a2 drm], (inner _ _ _ _ _) as [a3 inn].
  set (hid := s32 (get32 (param j) off)).
  destruct (0 <? hid) eqn:E0; nv_bool.
  - unfold local_fd. rewrite (proj2 (Z.ltb_lt 0 hid)) by lia.
    destruct (0 <=? lookup hid) eqn:E1; nv_bool; [|done]. destruct (event_fd _ _ _ _) as [[a4 ev]|]; [|done].
    intros [= <-]. cbn. split_and!; try done. right. by rewrite get32_put32.
  - destruct (event_fd _ _ _ _) as [[a4 ev]|]; [|done]. intros [= <-]. cbn. split_and!; try done. by left.
Qed.

(** *** The way back *)

(** Where the buffers of a command hold descriptors. *)
Definition aux_fd_fields (j : ioctl_job) : list Z :=
  if cmd j =? NVKVM_NVKMS_IOCTL_CMD
  then (if get32 (param j) 0 =? NVKVM_NVKMS_CMD_REGISTER_SURFACE then [16; 48; 80] else [])
  else if (job_type j =? type_d) && (job_nr j =? 0x49) then [0]
  else if is_control j then
    (if get32 (param j) 8 =? 0x3d05 then [16] else if get32 (param j) 8 =? 0x3d06 then [0] else [])
  else if (job_type j =? type_F) && (job_nr j =? 0x2b) then [16]
  else [].

Lemma finish_ptr j pr p off :
  ptr_off j = Some off -> 0 < aux_size j -> ~ (job_type j = type_d /\ job_nr j = 0x49) ->
  get64 (finish_param j pr p) off = 0.
Proof.
  intros Hp Ha Hd. unfold finish_param. rewrite (proj2 (Z.ltb_lt _ _) Ha). cbn [andb].
  unfold ptr_off in Hp. destruct (_ || _) eqn:E1 in Hp.
  - injection Hp as <-.
    replace (_ || _) with true; [by rewrite get64_put64 |].
    symmetry. apply orb_true_iff in E1 as [-> | E1]; [done |]. apply orb_true_iff. right. nv_bool.
    rewrite H, (proj2 (Z.leb_le _ _) H0). apply orb_true_iff in H1 as [->|H1]; [done |]. nv_bool. tauto.
  - apply orb_false_iff in E1 as [E1 E2]. rewrite E1. cbn [orb].
    replace ((job_type j =? type_d) && (job_nr j =? 84) && (16 <=? param_size j)) with false.
    2:{ symmetry. destruct (job_type j =? type_d), (job_nr j =? 84), (16 <=? param_size j); done. }
    assert (off = 16 /\ 24 <= param_size j) as [-> Hs] by (nv_cases; auto).
    rewrite (proj2 (Z.leb_le _ _) Hs). by rewrite get64_put64.
Qed.

Lemma finish_fe j pr p off :
  fe_fd_off j = Some off -> pr_fe pr = Some (off, s32 (get32 (param j) off)) -> 
  get32 (finish_param j pr p) off = get32 (param j) off.
Proof.
  intros Hf Hp. destruct (fe_type j off Hf) as (Ht & _ & _ & Ho & Hl). unfold finish_param. rewrite Hp. cbn [restore32].
  assert (cmd j <> NVKVM_NVKMS_IOCTL_CMD) as Hk.
  { intros E. unfold job_type in Ht. rewrite E in Ht. discriminate. }
  rewrite (proj2 (Z.eqb_neq _ _) Hk), Ht. change (type_F =? type_d) with false. cbn [andb orb]. rewrite andb_false_r.
  rewrite u32_s32. pose proof (get32_range (param j) off) as Hr.
  destruct (_ && _); [rewrite get32_put64_ne by lia |]; rewrite get32_put32, !u32_small by (rewrite ?u32_small; lia); done.
Qed.

Lemma u32_s32_get a o : u32 (u32 (s32 (get32 a o))) = get32 a o.
Proof. rewrite u32_s32. pose proof (get32_range a o). by rewrite !u32_small by (rewrite ?u32_small; lia). Qed.

(** One descriptor field of the aux buffer: replaced and remembered, or left. *)
Lemma object_fd_cases j c k off need a v :
  let s := wire_object_fd lookup j c k off need (a, v) in
  s = (a, v) \/
  s = (put32 a off (lookup (s32 (get32 a off))),
       Inner (info_list_size v) (info_list_base v) (str_sz v) (Some (off, s32 (get32 a off)))).
Proof.
  cbv zeta. unfold wire_object_fd, local_fd. destruct (_ && _); [|by left].
  destruct (0 <? _); [|by left]. destruct (0 <=? _); [by right | by left].
Qed.

(** The exported or imported descriptor of a control is put back. *)
Lemma finish_object j c k off need a b :
  let s := wire_object_fd lookup j c k off need (a, no_inner) in
  get32 (fst s) off <> get32 a off ->
  get32 (finish_aux (Prep ∅ (fst s) [] None (snd s) None None None) b) off = get32 a off.
Proof.
  cbv zeta. destruct (object_fd_cases j c k off need a no_inner) as [-> | ->]; cbn [fst snd]; [done |]. intros _.
  unfold finish_aux. cbn. by rewrite get32_put32, u32_s32_get.
Qed.

Lemma finish_aux_param pr p' b :
  finish_aux (Prep p' (pr_aux pr) (pr_regsurf pr) (pr_drm pr) (pr_inner pr) (pr_uvm pr) (pr_fe pr) (pr_event pr)) b = finish_aux pr b.
Proof. done. Qed.

Lemma control_inner_small j p a :
  is_control j = true -> ~ (12 <= param_size j /\ 0 < aux_size j) -> inner lookup aux_va j p a = (a, no_inner).
Proof.
  intros Hc Hn. unfold inner. destruct (_ && _) eqn:E; [|done]. nv_bool. lia.
Qed.

Lemma restore_control j pr b off :
  is_control j = true -> prepare lookup aux_va j = Ok pr ->
  get32 (param j) 8 = 0x3d05 /\ off = 16 \/ get32 (param j) 8 = 0x3d06 /\ off = 0 ->
  get32 (pr_aux pr) off <> get32 (aux j) off -> get32 (finish_aux pr b) off = get32 (aux j) off.
Proof.
  intros Hc Hp Hi. rewrite (prepare_control j pr Hc Hp). cbn [pr_aux].
  destruct (decide (12 <= param_size j /\ 0 < aux_size j)) as [[H1 H2]|Hn];
    [|by rewrite control_inner_small by done].
  destruct (control_facts j Hc) as (Hl & _).
  rewrite inner_control by done. rewrite get32_wire_low by (right; split; [done | lia]).
  destruct Hi as [[-> ->]|[-> ->]].
  - rewrite wire_build_skip, wire_channels_skip, (wire_object_skip j 0x3d05 0x3d06), wire_list_skip by done.
    apply (finish_object j 0x3d05 0x3d05 16 20).
  - rewrite wire_build_skip, wire_channels_skip by done.
    rewrite (wire_object_skip j 0x3d06 0x3d05), wire_list_skip by done.
    apply (finish_object j 0x3d06 0x3d06 0 4).
Qed.

(** The three other commands with descriptors in the aux buffer. *)

Lemma inner_other j p a : job_nr j <> 0x2a -> inner lookup aux_va j p a = (a, no_inner).
Proof. intros H. unfold inner. unfold job_nr, ioc_nr in H. by rewrite (proj2 (Z.eqb_neq _ _) H). Qed.

Lemma event_other j p a : job_nr j <> 0x2b \/ job_type j <> type_F -> event_fd lookup j p a = Ok (a, None).
Proof.
  intros H. unfold event_fd.
  destruct H as [H|H]; rewrite (proj2 (Z.eqb_neq _ _) H); by rewrite ?andb_false_r.
Qed.

Lemma drm_other j a : job_type j <> type_d -> drm_export lookup j a = (a, None).
Proof. intros H. unfold drm_export. by rewrite (proj2 (Z.eqb_neq _ _) H). Qed.

Lemma regsurf_other j p a : cmd j <> NVKVM_NVKMS_IOCTL_CMD -> regsurf lookup j p a = (a, []).
Proof. intros H. unfold regsurf. by rewrite (proj2 (Z.eqb_neq _ _) H). Qed.

Lemma prepare_steps j pr :
  prepare lookup aux_va j = Ok pr ->
  exists p2 p3, let p := wire_ptr aux_va j (param j) in
  let '(a1, rs) := regsurf lookup j p (aux j) in
  let '(a2, drm) := drm_export lookup j a1 in
  let '(a3, inn) := inner lookup aux_va j p a2 in
  uvm_fd lookup j p = Ok (p2, pr_uvm pr) /\ fe_fd lookup j (idle_channels j p2) = Ok (p3, pr_fe pr) /\
  event_fd lookup j p3 a3 = Ok (pr_aux pr, pr_event pr) /\ pr_param pr = p3 /\
  pr_regsurf pr = rs /\ pr_drm pr = drm /\ pr_inner pr = inn.
Proof.
  unfold prepare. destruct (regsurf _ _ _ _) as [a1 rs], (drm_export _ _ _) as [a2 drm], (inner _ _ _ _ _) as [a3 inn].
  destruct (uvm_fd _ _ _) as [[p2 uvm]|]; [|done]. destruct (fe_fd _ _ _) as [[p3 fe]|] eqn:E2; [|done].
  destruct (event_fd _ _ _ _) as [[a4 ev]|] eqn:E3; [|done]. intros [= <-]. exists p2, p3. done.
Qed.

Lemma restore_drm j pr b :
  job_type j = type_d -> job_nr j = 0x49 -> prepare lookup aux_va j = Ok pr ->
  get32 (pr_aux pr) 0 <> get32 (aux j) 0 -> get32 (finish_aux pr b) 0 = get32 (aux j) 0.
Proof.
  intros Ht Hn Hp. apply prepare_steps in Hp as (p2 & p3 & Hp). cbv zeta in Hp.
  rewrite regsurf_other in Hp by (intros E; unfold job_type in Ht; rewrite E in Ht; discriminate).
  destruct (drm_export _ _ _) as [a2 drm] eqn:Ed. rewrite inner_other, event_other in Hp by (rewrite ?Hn; auto).
  destruct Hp as (_ & _ & [= Ha Hev] & _ & Hr & Hd & Hi). rewrite <- Ha.
  unfold drm_export, local_fd in Ed. unfold finish_aux. rewrite <- Hev, Hr, Hd, Hi. cbn.
  destruct (_ && _) in Ed; [|by injection Ed as <- <-]. destruct (0 <? _) in Ed; [|by injection Ed as <- <-].
  destruct (0 <=? _) in Ed; [|by injection Ed as <- <-]. injection Ed as <- <-. intros _. by rewrite get32_put32, u32_s32_get.
Qed.

Lemma restore_event j pr b :
  job_type j = type_F -> job_nr j = 0x2b -> prepare lookup aux_va j = Ok pr ->
  get32 (pr_aux pr) 16 <> get32 (aux j) 16 -> get32 (finish_aux pr b) 16 = get32 (aux j) 16.
Proof.
  intros Ht Hn Hp. apply prepare_steps in Hp as (p2 & p3 & Hp). cbv zeta in Hp.
  rewrite regsurf_other in Hp by (intros E; unfold job_type in Ht; rewrite E in Ht; discriminate).
  rewrite drm_other, inner_other in Hp by (rewrite ?Ht, ?Hn; done).
  destruct Hp as (_ & _ & Hev & _ & Hr & Hd & Hi). intros Hne. unfold finish_aux. rewrite Hr, Hd, Hi.
  revert Hne. unfold event_fd, local_fd in Hev. destruct (_ && _) in Hev; [|by injection Hev as <- <-].
  destruct (_ || _) in Hev; [|by injection Hev as <- <-]. destruct (0 <? _) eqn:E0 in Hev; [|by injection Hev as <- <-].
  destruct (0 <=? _) in Hev; [|done]. injection Hev as <- <-. intros _. cbn. rewrite get32_put64_low.
  rewrite <- (s32_u32 (get64 _ _)), u32_get64. apply u32_s32_get.
Qed.

(** The planes of a surface. *)
Lemma plane_step i a saved :
  let off := 16 + i * 32 in
  regsurf_plane lookup i (a, saved) = (a, saved) \/
  regsurf_plane lookup i (a, saved) = (put32 a off (lookup (s32 (get32 a off))), saved ++ [(off, s32 (get32 a off))]).
Proof.
  cbv zeta. unfold regsurf_plane, local_fd, NVKVM_NVKMS_REGSURF_PLANE0_OFF, NVKVM_NVKMS_REGSURF_PLANE_STRIDE.
  destruct (0 <? _); [|by left]. destruct (0 <=? _); [by right | by left].
Qed.

Lemma planes_restore a b off a' rs :
  off ∈ [16; 48; 80] -> sweep (regsurf_plane lookup) 0 3 (a, []) = (a', rs) ->
  get32 a' off <> get32 a off ->
  get32 (fold_left (fun x e => put32 x (fst e) (u32 (snd e))) rs b) off = get32 a off.
Proof.
  intros Ho Hs Hne. cbn [sweep] in Hs. change (0 + 1) with 1 in Hs. change (1 + 1) with 2 in Hs.
  destruct (plane_step 0 a []) as [E0|E0]; rewrite E0 in Hs; clear E0;
  match type of Hs with context [regsurf_plane _ 1 (?x, ?y)] =>
    destruct (plane_step 1 x y) as [E1|E1]; rewrite E1 in Hs; clear E1 end;
  match type of Hs with context [regsurf_plane _ 2 (?x, ?y)] =>
    destruct (plane_step 2 x y) as [E2|E2]; rewrite E2 in Hs; clear E2 end;
  injection Hs as <- <-; cbn [app fold_left fst snd] in *;
  repeat (change (16 + 0 * 32) with 16 in *; change (16 + 1 * 32) with 48 in *; change (16 + 2 * 32) with 80 in * );
  repeat rewrite elem_of_cons in Ho; destruct Ho as [-> | [-> | [-> | []%not_elem_of_nil]]];
  repeat first [rewrite get32_put32 in * | rewrite get32_put32_ne in * by lia];
  rewrite ?u32_s32_get; done.
Qed.

Lemma restore_regsurf j pr b off :
  cmd j = NVKVM_NVKMS_IOCTL_CMD -> off ∈ [16; 48; 80] -> prepare lookup aux_va j = Ok pr ->
  get32 (pr_aux pr) off <> get32 (aux j) off -> get32 (finish_aux pr b) off = get32 (aux j) off.
Proof.
  intros Hc Ho Hp. assert (job_type j = 0x6d /\ job_nr j = 0) as [Ht Hn].
  { unfold job_type, job_nr. rewrite Hc. done. }
  apply prepare_steps in Hp as (p2 & p3 & Hp). cbv zeta in Hp.
  destruct (regsurf _ _ _ _) as [a1 rs] eqn:Er.
  rewrite drm_other, inner_other, event_other in Hp by (rewrite ?Ht, ?Hn; auto; done).
  destruct Hp as (_ & _ & [= Ha Hev] & _ & Hr & Hd & Hi). rewrite <- Ha. intros Hne. unfold finish_aux.
  rewrite <- Hev, Hr, Hd, Hi. cbn -[fold_left]. unfold regsurf in Er.
  destruct (_ && _) in Er; [|by injection Er as <- <-]. destruct (_ && _) in Er; [|by injection Er as <- <-].
  by eapply planes_restore.
Qed.

(** The pointers inside a control's parameters are cleared again. *)
Lemma hide_inner j pr b n off len :
  is_control j = true -> prepare lookup aux_va j = Ok pr ->
  (off, len) ∈ inner_ptrs (get32 (param j) 8) n -> off + 8 <= aux_size j ->
  12 <= param_size j -> get64 (pr_aux pr) off <> 0 -> get64 (finish_aux pr b) off = 0.
Proof.
  intros Hc Hp Hin Ho Hs. rewrite (prepare_control j pr Hc Hp). cbn [pr_aux].
  assert (8 <= off) as H8.
  { revert Hin. rewrite inner_ptrs_eq. cbv zeta. nv_cases; set_solver by lia. }
  destruct (control_facts j Hc) as (Hl & _). rewrite inner_control by (done || lia).
  rewrite get32_wire_low by (right; split; [done | lia]). revert Hin. set (c := get32 (param j) 8).
  rewrite inner_ptrs_eq; cbv zeta. destruct (nvkvm_ctrl_list_entry_size c =? 0) eqn:Ee; cbn [negb]; nv_bool.
  - rewrite wire_list_skip by done.
    destruct (c =? 0x0080170d) eqn:E1; nv_bool; [|destruct (c =? 0x101) eqn:E2; nv_bool; [|intros []%not_elem_of_nil]].
    + rewrite E1. rewrite wire_build_skip, !wire_object_skip by done. intros Hin.
      assert (off = 8 \/ off = 16) as Hoff by set_solver. unfold wire_channels. cbn [Z.eqb Pos.eqb].
      destruct (_ && _) eqn:E; cbn [fst snd].
      * intros _. nv_bool. unfold finish_aux. cbn -[Z.ltb]. change (0 <? 0) with false.
        rewrite (proj2 (Z.ltb_lt _ _)) by done.
        destruct Hoff as [-> | ->]; [rewrite get64_put64_ne, get64_put64 by lia | rewrite get64_put64]; done.
      * intros []. destruct Hoff as [-> | ->]; [rewrite get64_clear_ne by lia |]; apply get64_clear; lia.
    + rewrite E2. rewrite wire_channels_skip, !wire_object_skip by done. intros Hin.
      assert (off = 8 \/ off = 16 \/ off = 24) as Hoff by set_solver. unfold wire_build. cbn [Z.eqb Pos.eqb].
      destruct (_ && _) eqn:E; cbn [fst snd].
      * intros _. nv_bool. unfold finish_aux. cbn -[Z.ltb]. change (0 <? 0) with false. cbn [restore32].
        rewrite (proj2 (Z.ltb_lt _ _)) by done.
        destruct Hoff as [-> | [-> | ->]];
          [rewrite !get64_put64_ne, get64_put64 by lia | rewrite get64_put64_ne, get64_put64 by lia | rewrite get64_put64]; done.
      * intros []. destruct Hoff as [-> | [-> | ->]]; [rewrite !get64_clear_ne by lia | rewrite get64_clear_ne by lia |];
          apply get64_clear; lia.
  - destruct (list_only c Ee) as (? & ? & ? & ?).
    rewrite wire_build_skip, wire_channels_skip, !wire_object_skip by done.
    intros [= -> _]%list_elem_of_singleton. unfold wire_list.
    rewrite (proj2 (Z.eqb_neq _ _) Ee), (proj2 (Z.leb_le 4 _)) by lia. cbn [negb andb].
    destruct (_ && _) eqn:E; cbn [fst snd]; [|intros []; apply get64_clear; lia].
    intros _. nv_bool. unfold finish_aux. cbn -[Z.ltb Z.eqb]. change (0 <? 0) with false.
    rewrite (proj2 (Z.ltb_lt 0 _)) by done. destruct (_ =? 0xFFFFFFFF); [rewrite get64_put64_ne by lia |]; by rewrite get64_put64.
Qed.

Context (driver : drv_call -> Z * bytes * bytes).

(** [response_hides_stub]: for every driver, a job that reached it is answered
    with parameters and aux buffer in which the user pointer is cleared (except
    for DRM call 0x49), a wired pointer inside a control's parameters is cleared,
    and every descriptor field carries the guest's own handle id again. *)
Theorem response_hides_stub (j : ioctl_job) (c : drv_call) (r : ioctl_resp) :
  worker_job lookup aux_va driver j = ([c], r) ->
  exists p a, r_param r = read_bytes p 0 (param_size j) /\ r_aux r = read_bytes a 0 (aux_size j) /\
    (forall off, ptr_off j = Some off -> 0 < aux_size j -> ~ (job_type j = type_d /\ job_nr j = 0x49) ->
       get64 p off = 0) /\
    (is_control j = true -> 12 <= param_size j ->
     forall n off len, (off, len) ∈ inner_ptrs (get32 (param j) 8) n -> off + 8 <= aux_size j ->
       get64 (c_aux c) off <> 0 -> get64 a off = 0) /\
    (forall off, fe_fd_off j = Some off -> off + 4 <= param_size j -> get32 p off = get32 (param j) off) /\
    (forall off, off ∈ aux_fd_fields j -> get32 (c_aux c) off <> get32 (aux j) off ->
       get32 a off = get32 (aux j) off).
Proof.
  unfold worker_job. destruct (_ <? 0); [done |]. destruct (prepare lookup aux_va j) as [pr|] eqn:Ep; [|done].
  destruct (driver _) as [[ret p0] a0]. intros [= <- <-].
  exists (finish_param j pr p0), (finish_aux pr a0). cbn [r_param r_aux c_aux]. split_and!; [done | done | | | |].
  - intros. by apply finish_ptr.
  - intros Hc Hs n off len Hin Ho Hne. by eapply hide_inner.
  - intros off Hf Ho. destruct (prepare_fe j off pr Hf Ho Ep) as (_ & Hfe & _). by apply finish_fe.
  - intros off. unfold aux_fd_fields. destruct (cmd j =? NVKVM_NVKMS_IOCTL_CMD) eqn:E1; nv_bool.
    { destruct (_ =? _); [|by intros []%not_elem_of_nil]. intros Hin. by apply restore_regsurf. }
    destruct ((job_type j =? type_d) && (job_nr j =? 0x49)) eqn:E2.
    { nv_bool. intros ->%list_elem_of_singleton. by apply restore_drm. }
    destruct (is_control j) eqn:E3.
    { destruct (_ =? 0x3d05) eqn:E4; nv_bool; [intros ->%list_elem_of_singleton; apply restore_control; auto |].
      destruct (_ =? 0x3d06) eqn:E5; nv_bool; [intros ->%list_elem_of_singleton; apply restore_control; auto |].
      by intros []%not_elem_of_nil. }
    destruct ((job_type j =? type_F) && (job_nr j =? 0x2b)) eqn:E6; [|by intros []%not_elem_of_nil]. nv_bool.
    intros ->%list_elem_of_singleton. by apply restore_event.
Qed.

(** [frontend_fd_resolved]: the descriptor field of a frontend call holds, when
    the driver reads it, a descriptor of the stub's table or the guest's own
    value of 0 or below; a positive id that is not in the table is refused with
    EBADF and the driver is not called. *)
Theorem frontend_fd_resolved (j : ioctl_job) (off : Z) :
  fe_fd_off j = Some off -> off + 4 <= param_size j -> 0 <= lookup (handle_id j) ->
  let hid := s32 (get32 (param j) off) in
  (forall c r, worker_job lookup aux_va driver j = ([c], r) ->
     hid <= 0 /\ get32 (c_param c) off = get32 (param j) off \/
     0 <= lookup hid /\ get32 (c_param c) off = u32 (lookup hid)) /\
  (0 < hid -> lookup hid < 0 -> worker_job lookup aux_va driver j = ([], fail_resp j EBADF)).
Proof.
  intros Hf Ho Hh. cbv zeta. split.
  - intros c r. unfold worker_job. rewrite (proj2 (Z.ltb_ge _ _)) by done.
    destruct (prepare lookup aux_va j) as [pr|] eqn:Ep; [|done]. destruct (driver _) as [[ret p0] a0].
    intros [= <- _]. cbn [c_param]. destruct (prepare_fe j off pr Hf Ho Ep) as (_ & _ & [?|?]); [left | right]; tauto.
  - intros H0 Hl. unfold worker_job. rewrite (proj2 (Z.ltb_ge _ _)) by done.
    destruct (fe_type j off Hf) as (Ht & Hu & Hi & Hoff & Hlay).
    assert (get32 (wire_ptr aux_va j (param j)) off = get32 (param j) off) as Hg.
    { unfold wire_ptr. destruct (ptr_off j) as [o|] eqn:E; [|done]. apply (layout_none_ptr j o Hlay) in E as ->.
      apply get32_put64_ne. lia. }
    unfold prepare, uvm_fd, fe_fd, local_fd. rewrite Hu, Hi, Hf, (proj2 (Z.leb_le _ _)) by done. rewrite Hg.
    destruct (regsurf _ _ _ _) as [a1 rs], (drm_export _ _ _) as [a2 drm], (inner _ _ _ _ _) as [a3 inn].
    rewrite (proj2 (Z.ltb_lt _ _) H0), (proj2 (Z.leb_gt _ _)) by done. done.
Qed.

(** [short_param_unchecked]: RM_CONTROL parameters declared shorter than 24 bytes
    skip the pointer rewrite, so the bytes the guest put at offset 16 reach the
    driver in its pointer field. *)
Theorem short_param_unchecked (j : ioctl_job) :
  is_control j = true -> param_size j < 24 -> aux_size j <= 0 -> 0 <= lookup (handle_id j) ->
  exists r, worker_job lookup aux_va driver j =
    ([DCall (lookup (handle_id j)) (cmd j) (param j) (aux j)], r).
Proof.
  intros Hc Hs Ha Hh. destruct (control_facts j Hc) as (_ & Hn & Ht & _).
  assert (wire_ptr aux_va j (param j) = param j) as Hw.
  { unfold wire_ptr, ptr_off. rewrite (proj2 (Z.eqb_neq _ _) Hn), Ht, (proj2 (Z.leb_gt 24 _)) by done.
    by rewrite !andb_false_r. }
  unfold worker_job. rewrite (proj2 (Z.ltb_ge _ _)), prepare_control_eq, Hw by done.
  rewrite control_inner_small by (done || lia). cbn [fst snd pr_param pr_aux].
  destruct (driver _) as [[ret p] a]. by eexists.
Qed.

(** [object_fd_unresolved]: an exported or imported object whose handle id is not
    in the stub's table is not refused: the driver is called with the guest's
    number as the descriptor. *)
Theorem object_fd_unresolved (j : ioctl_job) :
  is_control j = true -> 12 <= param_size j -> 20 <= aux_size j -> 0 <= lookup (handle_id j) ->
  get32 (param j) 8 = 0x3d05 /\ lookup (s32 (get32 (aux j) 16)) < 0 \/
  get32 (param j) 8 = 0x3d06 /\ lookup (s32 (get32 (aux j) 0)) < 0 ->
  exists c r, worker_job lookup aux_va driver j = ([c], r) /\ c_aux c = aux j.
Proof.
  intros Hc Hs Ha Hh Hi. destruct (control_facts j Hc) as (Hl & _).
  assert (inner lookup aux_va j (wire_ptr aux_va j (param j)) (aux j) = (aux j, no_inner)) as Hin.
  { rewrite inner_control by (done || lia). rewrite get32_wire_low by (right; split; [done | lia]).
    destruct Hi as [[-> Hx]|[-> Hx]].
    - rewrite wire_build_skip, wire_channels_skip, (wire_object_skip j 0x3d05 0x3d06), wire_list_skip by done.
      unfold wire_object_fd, local_fd. rewrite (proj2 (Z.leb_gt _ _) Hx). by repeat case_match.
    - rewrite wire_build_skip, wire_channels_skip by done.
      rewrite (wire_object_skip j 0x3d06 0x3d05), wire_list_skip by done.
      unfold wire_object_fd, local_fd. rewrite (proj2 (Z.leb_gt _ _) Hx). by repeat case_match. }
  unfold worker_job. rewrite (proj2 (Z.ltb_ge _ _)), prepare_control_eq, Hin by done.
  destruct (driver _) as [[ret p] a]. eexists _, _. split; [done |]. done.
Qed.

End worker.

(** [drm_export_leaks_address]: the answer to DRM call 0x49 carries the address of
    the stub's buffer at offset 8 when the driver leaves that field alone. *)
Theorem drm_export_leaks_address (lookup : Z -> Z) (aux_va : Z) (j : ioctl_job) :
  job_type j = type_d -> job_nr j = 0x49 -> 16 <= param_size j -> 0 < aux_size j ->
  0 <= lookup (handle_id j) -> 0 <= aux_va < 2 ^ 64 ->
  exists c r p, worker_job lookup aux_va (fun c => (0, c_param c, c_aux c)) j = ([c], r) /\
    r_param r = read_bytes p 0 (param_size j) /\ get64 p 8 = aux_va.
Proof.
  intros Ht Hn Hs Ha Hh Hv.
  assert (layout_ptr j = Some 8) as Hl.
  { unfold layout_ptr. rewrite Ht, Hn. change (type_d =? type_d) with true. by rewrite orb_true_r. }
  assert (cmd j <> NVKVM_NVKMS_IOCTL_CMD) as Hk.
  { intros E. unfold job_type in Ht. rewrite E in Ht. discriminate. }
  destruct (layout_no_fd j 8 (wire_ptr aux_va j (param j)) Hl) as (Hu & Hf & Hi).
  unfold worker_job. rewrite (proj2 (Z.ltb_ge _ _)) by done.
  unfold prepare. rewrite regsurf_other by done. destruct (drm_export _ _ _) as [a2 drm].
  rewrite inner_other by (by rewrite Hn). unfold uvm_fd, fe_fd.
  rewrite Hu, Hi, Hf, event_other by (rewrite Hn; auto). cbn [c_param c_aux].
  eexists _, _, _. split; [reflexivity |]. split; [reflexivity |]. cbn [pr_param].
  unfold finish_param. cbn [restore32 pr_fe pr_uvm].
  rewrite (proj2 (Z.eqb_neq _ _) Hk), Ht, Hn. change (0x49 =? 0x54) with false. rewrite !andb_false_r. cbn [andb orb].
  assert (get64 (wire_ptr aux_va j (param j)) 8 = aux_va) as Hg.
  { unfold wire_ptr, ptr_off. rewrite Ht, Hn, (proj2 (Z.leb_le 16 _) Hs), (proj2 (Z.ltb_lt 0 _) Ha).
    cbn -[get64]. rewrite orb_true_r. unfold NVKVM_NVKMS_ADDR_OFF. rewrite get64_put64. by apply u64_small. }
  rewrite (proj2 (Z.ltb_lt _ _) Ha). destruct (24 <=? _); cbn [andb]; [rewrite get64_put64_ne by lia |]; done.
Qed.

(** ** Examples *)

Definition ex_lookup (id : Z) : Z := if id =? 1 then 7 else if id =? 2 then 9 else -1.

(** GR_GET_INFO with one entry behind a 16-byte header. *)
Definition ex_ctrl : ioctl_job :=
  Job 1 1 0xc020462a 0 (put32 ∅ 8 0x20801201) 32 (put64 (put32 ∅ 0 1) 8 0xdead) 24.

Definition ex_prep : prepared :=
  match prepare ex_lookup 0x7000 ex_ctrl with Ok pr => pr | Err _ => Prep ∅ ∅ [] None no_inner None None None end.

Lemma driver_pointers_confined_witness :
  get64 (pr_param ex_prep) 16 = 0x7000 /\ confined 0x7000 24 (get64 (pr_aux ex_prep) 8) 8.
Proof.
  destruct (driver_pointers_confined ex_lookup 0x7000 ex_ctrl ex_prep) as (H1 & H2 & _);
    [vm_compute; discriminate | reflexivity | split; [vm_compute; discriminate | reflexivity] | vm_compute; reflexivity |].
  split.
  - apply (H1 16); [reflexivity | vm_compute; discriminate].
  - apply (H2 eq_refl); [vm_compute; discriminate | reflexivity | vm_compute; left | vm_compute; discriminate].
Defined.

Definition ex_driver (c : drv_call) : Z * bytes * bytes := (0, c_param c, c_aux c).

Definition ex_call (j : ioctl_job) : drv_call :=
  default (DCall 0 0 ∅ ∅) (head (fst (worker_job ex_lookup 0x7000 ex_driver j))).
Definition ex_resp (j : ioctl_job) : ioctl_resp := snd (worker_job ex_lookup 0x7000 ex_driver j).

Lemma response_hides_stub_witness :
  exists p, r_param (ex_resp ex_ctrl) = read_bytes p 0 32 /\ get64 p 16 = 0.
Proof.
  assert (worker_job ex_lookup 0x7000 ex_driver ex_ctrl = ([ex_call ex_ctrl], ex_resp ex_ctrl)) as E
    by (vm_compute; reflexivity).
  destruct (response_hides_stub ex_lookup 0x7000 ex_driver ex_ctrl _ _ E) as (p & a & Hp & _ & H & _).
  exists p. split; [exact Hp |]. apply H; [reflexivity | reflexivity |].
  vm_compute. intros []. discriminate.
Defined.

Definition ex_map : ioctl_job := Job 2 1 0xc038464e 0 (put32 ∅ 48 2) 56 ∅ 0.

Lemma frontend_fd_resolved_witness :
  get32 (c_param (ex_call ex_map)) 48 = 9.
Proof.
  assert (worker_job ex_lookup 0x7000 ex_driver ex_map = ([ex_call ex_map], ex_resp ex_map)) as E
    by (vm_compute; reflexivity).
  destruct (frontend_fd_resolved ex_lookup 0x7000 ex_driver ex_map 48) as [H _]; [reflexivity | vm_compute; discriminate .. |].
  destruct (H _ _ E) as [[Hb _]|[_ ->]]; [vm_compute in Hb; by destruct Hb | reflexivity].
Defined.

Definition ex_short : ioctl_job := Job 3 1 0xc020462a 0 (put64 (put32 ∅ 8 0x20800102) 16 0x7fffdeadbeef) 23 ∅ 0.

Lemma short_param_unchecked_witness :
  exists c r, worker_job ex_lookup 0 ex_driver ex_short = ([c], r) /\ get64 (c_param c) 16 = 0x7fffdeadbeef.
Proof.
  destruct (short_param_unchecked ex_lookup 0 ex_driver ex_short) as [r Hr]; [reflexivity | reflexivity | vm_compute; discriminate .. |].
  exists (DCall 7 0xc020462a (param ex_short) ∅), r. split; [exact Hr | reflexivity].
Defined.

Definition ex_unknown : ioctl_job := Job 4 1 0xc020462a 0 (put32 ∅ 8 0x3d05) 32 (put32 ∅ 16 3) 24.

Lemma object_fd_unresolved_witness :
  exists c r, worker_job ex_lookup 0x7000 ex_driver ex_unknown = ([c], r) /\ get32 (c_aux c) 16 = 3.
Proof.
  destruct (object_fd_unresolved ex_lookup 0x7000 ex_driver ex_unknown) as (c & r & Hw & Hc);
    [reflexivity | vm_compute; discriminate .. | left; split; reflexivity |].
  exists c, r. split; [exact Hw |]. by rewrite Hc.
Defined.

Definition ex_drm : ioctl_job := Job 5 1 0xc0106449 0 ∅ 16 (put32 ∅ 0 2) 4.

Lemma drm_export_leaks_address_witness :
  exists c r p, worker_job ex_lookup 0x7f0000001000 ex_driver ex_drm = ([c], r) /\
    r_param r = read_bytes p 0 16 /\ get64 p 8 = 0x7f0000001000.
Proof.
  apply (drm_export_leaks_address ex_lookup 0x7f0000001000 ex_drm);
    [reflexivity | reflexivity | vm_compute; discriminate | reflexivity | vm_compute; discriminate |].
  split; [vm_compute; discriminate | reflexivity].
Defined.

End StubMarshal.
