(* ===== verification/StubRing.v ===== *)
(** * The command-buffer fast path of the stub ([src/stub/nvkvm_stub.c],
      [src/common/nvkvm_ring_ioctl.h])

    Flat controls can reach the stub through the shared ring instead of the
    socket.  The consumer loop takes records off the request ring, runs them and
    writes the answers to the response ring; between records it serves the
    socket, and it returns when the ring stays empty.  What the guest does to
    the shared memory meanwhile is an argument of the loop. *)

From S2P Require Import Prelude Bytes Ring Allowlists Abi StubHandles StubIoctl StubMarshal.
Local Open Scope Z_scope.
Local Open Scope nv_scope.

Module StubRing.
Import Allow StubIoctl.

Definition NVKVM_RING_MAX_PARAM : Z := 256.
Definition NVKVM_RING_MAX_AUX : Z := 4096.
Definition NVKVM_RING_RESP_PUNT : Z := 1.
Definition NVKVM_RING_IDLE_DEFAULT : Z := 2000.
Definition NVKVM_RING_IDLE_MAX : Z := 1000000.
Definition NVKVM_RING_RESP_FULL_SPIN : Z := 100000.

(** [struct nvkvm_ring_ioctl_req] and [struct nvkvm_ring_ioctl_resp]. *)
Record ring_ioctl_req := RReq {
  q_txn_id : Z;
  q_handle_id : Z;
  q_cmd : Z;
  q_param_size : Z;
  q_aux_size : Z;
  q_abi_profile : Z
}.

Record ring_ioctl_resp := RResp {
  s_txn_id : Z;
  s_retval : Z;
  s_nvstatus : Z;
  s_flags : Z;
  s_param : list Z;
  s_aux : list Z
}.

Definition sizeof_req : Z := 24.
Definition sizeof_resp : Z := 24.

(** The header of a payload at offset [pay] of the data region. *)
Definition decode_req (d : bytes) (pay : Z) : ring_ioctl_req :=
  RReq (get32 d pay) (get32 d (pay + 4)) (get32 d (pay + 8)) (get32 d (pay + 12)) (get32 d (pay + 16))
    (get32 d (pay + 20)).

(** The payload of a response. *)
Definition encode_resp (r : ring_ioctl_resp) : list Z :=
  let hdr := put32 (put32 (put32 (put32 (put32 (put32 ∅ 0 (s_txn_id r)) 4 (u32 (s_retval r))) 8 (s_nvstatus r))
               12 (Z.of_nat (length (s_param r)))) 16 (Z.of_nat (length (s_aux r)))) 20 (s_flags r) in
  read_bytes hdr 0 sizeof_resp ++ s_param r ++ s_aux r.

Definition ring_ctrl_must_punt (c : Z) (param : bytes) (param_size aux_size : Z) : bool :=
  if negb (ioc_type c =? type_F) || negb (ioc_nr c =? 0x2a) || (param_size <? 32) then true
  else if aux_size =? 0 then false
  else if (NVKVM_RING_MAX_AUX <? aux_size) || (NVKVM_RING_MAX_PARAM <? param_size) then true
  else
    let inner := get32 param 8 in
    if negb (nvkvm_ctrl_list_entry_size inner =? 0) then true
    else if inner =? 0x00000101 then true
    else if inner =? 0x00003d05 then true
    else inner =? 0x0080170d.

(** ** Answers *)

(** The bounded wait for room: [heads i] is the consumer's counter at the [i]-th
    attempt. *)
Fixpoint resp_reserve (n : nat) (i : Z) (heads : Z -> Z) (r : Ring.ring) (cap payload : Z)
  : option (Ring.ring * Z * Z) :=
  match n with
  | O => None
  | S n' =>
      match Ring.nvkvm_ring_reserve (Ring.set_head r (heads i)) cap payload with
      | Some x => Some x
      | None => resp_reserve n' (i + 1) heads r cap payload
      end
  end.

(** [None]: the process ends with status 141. *)
Definition ring_write_resp (heads : Z -> Z) (cap : Z) (resp : ring_ioctl_resp) (r : Ring.ring) : option Ring.ring :=
  let payload := u32 (sizeof_resp + Z.of_nat (length (s_param resp)) + Z.of_nat (length (s_aux resp))) in
  match resp_reserve (Z.to_nat (NVKVM_RING_RESP_FULL_SPIN + 1)) 0 heads r cap payload with
  | None => None
  | Some (r1, pay, total) =>
      Some (Ring.nvkvm_ring_commit (Ring.set_data r1 (write_bytes (Ring.r_data r1) pay (encode_resp resp))) total)
  end.

(** ** One record *)

Section exec.
Context (lookup : Z -> Z) (aux_va : Z) (driver : drv_call -> Z * bytes * bytes).
(** What the two scratch arrays on the stack hold before they are filled. *)
Context (stack_param stack_aux : bytes).

Definition punt (txn retval : Z) : ring_ioctl_resp := RResp txn retval 0 NVKVM_RING_RESP_PUNT [] [].

(** No response for a record that is too short for a header. *)
Definition ring_exec_one (d : bytes) (pay len : Z) : list drv_call * option ring_ioctl_resp :=
  if len <? sizeof_req then ([], None)
  else
    let rq := decode_req d pay in
    if (NVKVM_RING_MAX_PARAM <? q_param_size rq) || (NVKVM_RING_MAX_AUX <? q_aux_size rq) ||
       (len <? sizeof_req + q_param_size rq + q_aux_size rq)
    then ([], Some (punt (q_txn_id rq) (- EINVAL)))
    else
      let param := write_bytes stack_param 0 (read_bytes d (pay + sizeof_req) (q_param_size rq)) in
      let aux := write_bytes stack_aux 0 (read_bytes d (pay + sizeof_req + q_param_size rq) (q_aux_size rq)) in
      if ring_ctrl_must_punt (q_cmd rq) param (q_param_size rq) (q_aux_size rq)
      then ([], Some (punt (q_txn_id rq) 0))
      else
        let fd := lookup (q_handle_id rq) in
        if fd <? 0 then ([], Some (RResp (q_txn_id rq) (- EBADF) 0 0 [] []))
        else
          let param := put64 param 16 (if q_aux_size rq =? 0 then 0 else aux_va) in
          let c := DCall fd (q_cmd rq) param aux in
          let '(ret, p, a) := driver c in
          let p := if q_aux_size rq =? 0 then p else put64 p 16 0 in
          ([c], Some (RResp (q_txn_id rq) (if ret <? 0 then ret else s32 ret) (get32 p 28) 0
                        (read_bytes p 0 (q_param_size rq)) (read_bytes a 0 (q_aux_size rq)))).
End exec.

(** ** The consumer loop *)

Section loop.
(** The rest of the stub's state; running a record and serving the socket change
    it or end the process with a status. *)
Context {S : Type} (exec : bytes -> Z -> Z -> S -> S + Z) (poll_socket : S -> S + Z).
(** What the guest does to the ring before the first and the second look of an
    iteration, and before the look at the exit. *)
Context (guest : nat -> Z -> Ring.ring -> Ring.ring).

Inductive loop_out :=
| L_return (head : Z) (r : Ring.ring) (s : S)
| L_exit (code : Z)
| L_fuel.

Definition idle_budget (idle_us : Z) : Z :=
  Z.min (if idle_us =? 0 then NVKVM_RING_IDLE_DEFAULT else idle_us) NVKVM_RING_IDLE_MAX.

Fixpoint consumer_loop (fuel : nat) (cap budget idle : Z) (r : Ring.ring) (s : S) : loop_out :=
  match fuel with
  | O => L_fuel
  | Datatypes.S n =>
      match Ring.nvkvm_ring_peek (guest n 0 r) cap with
      | (r1, Ring.Peek_ok pay len total) =>
          match exec (Ring.r_data r1) pay len s with
          | inl s1 => consumer_loop n cap budget 0 (Ring.nvkvm_ring_pop r1 total) s1
          | inr code => L_exit code
          end
      | (_, Ring.Peek_bad) => L_exit 140
      | (_, Ring.Peek_fuel) => L_fuel
      | (r1, Ring.Peek_empty) =>
          match poll_socket s with
          | inr code => L_exit code
          | inl s1 =>
              let r2 := guest n 1 r1 in
              if Ring.nvkvm_ring_has_work r2 then consumer_loop n cap budget 0 r2 s1
              else if budget <=? idle + 1 then
                let r3 := guest n 2 r2 in
                if Ring.nvkvm_ring_has_work r3 then consumer_loop n cap budget 0 r3 s1
                else L_return (Ring.r_head r3) r3 s1
              else consumer_loop n cap budget (idle + 1) r2 s1
          end
      end
  end.

Definition ring_consumer_loop (fuel : nat) (mapped : bool) (cap idle_us : Z) (r : Ring.ring) (s : S) : loop_out :=
  if mapped then consumer_loop fuel cap (idle_budget idle_us) 0 r s else L_return 0 r s.
End loop.

Arguments L_return {_} _ _ _.
Arguments L_exit {_} _.
Arguments L_fuel {_}.

(** ** The loop on a well-formed ring *)

Section drain.
Context (N k : Z) (HN : N = 2 ^ k) (Hk : 6 <= k <= 31).

(** A peek takes the first record, or reaches the tail. *)
Lemma peek_loop_next fuel r h t q :
  Ring.r_head r = u64 h -> Ring.r_tail r = u64 t -> h <= t <= h + N -> Ring.recs N (Ring.r_data r) h t q ->
  t - h < 8 * Z.of_nat fuel ->
  exists r1 h1 o, Ring.peek_loop fuel r N = (r1, o) /\ r1 = Ring.set_head r (u64 h1) /\ h <= h1 <= t /\
  match q with
  | [] => o = Ring.Peek_empty /\ h1 = t
  | b :: q' => exists pay len total, o = Ring.Peek_ok pay len total /\ read_bytes (Ring.r_data r) pay len = b /\
      0 <= total /\ h1 + total <= t /\ Ring.recs N (Ring.r_data r) (h1 + total) t q'
  end.
Proof.
  revert r h. induction fuel as [|fuel IH]; intros r h Hh Ht Hht Hr Hf; [simpl in *; lia |].
  destruct (Ring.peek_iter_spec N k HN Hk r h t q Hh Ht Hht Hr) as [Hp _]. cbn [Ring.peek_loop].
  assert (r = Ring.set_head r (u64 h)) as Hrr by (destruct r; cbn in *; by subst).
  destruct Hp as [-> ->|len Hg Hr'|len q' Hg Hr' ->].
  - exists r, t, Ring.Peek_empty. split_and!; try done; lia.
  - assert (h + len <= t) by (by eapply Ring.recs_le). destruct Hg as (_ & _ & Hl & _).
    destruct (IH (Ring.set_head r (u64 (h + len))) (h + len)) as (r1 & h1 & o & H1 & -> & H3 & H4); try done; try lia.
    exists (Ring.set_head r (u64 h1)), h1, o. split_and!; try done; lia.
  - assert (h + len <= t) by (by eapply Ring.recs_le). destruct Hg as (_ & _ & Hl & _).
    exists r, h. eexists. split; [reflexivity |]. split; [done |]. split; [lia |].
    eexists _, _, _. split; [reflexivity |]. split; [done |]. split_and!; [lia | lia | done].
Qed.

Lemma peek_next r h t q :
  Ring.r_head r = u64 h -> Ring.r_tail r = u64 t -> h <= t <= h + N -> Ring.recs N (Ring.r_data r) h t q ->
  exists r1 h1 o, Ring.nvkvm_ring_peek r N = (r1, o) /\ r1 = Ring.set_head r (u64 h1) /\ h <= h1 <= t /\
  match q with
  | [] => o = Ring.Peek_empty /\ h1 = t
  | b :: q' => exists pay len total, o = Ring.Peek_ok pay len total /\ read_bytes (Ring.r_data r) pay len = b /\
      0 <= total /\ h1 + total <= t /\ Ring.recs N (Ring.r_data r) (h1 + total) t q'
  end.
Proof.
  intros. unfold Ring.nvkvm_ring_peek. rewrite (Ring.N_size_ok N k) by done. cbn [negb].
  eapply peek_loop_next; try done. pose proof (Ring.N_bounds N k HN Hk).
  pose proof (Z.div_mod N 8). pose proof (Z.mod_pos_bound N 8). lia.
Qed.

Context {S : Type} (run : bytes -> Z -> Z -> S -> S).

Let exec (d : bytes) (pay len : Z) (s : S) : S + Z := inl (run d pay len s).
Let quiet (n : nat) (i : Z) (r : Ring.ring) : Ring.ring := r.

(** On an empty ring the loop counts up to its budget and returns. *)
Lemma loop_idles budget m : forall fuel idle r s t,
  Ring.r_head r = u64 t -> Ring.r_tail r = u64 t ->
  0 <= idle -> budget <= idle + Z.of_nat m -> (m <= fuel)%nat -> (0 < fuel)%nat ->
  consumer_loop exec inl quiet fuel N budget idle r s = L_return (u64 t) r s.
Proof.
  induction m as [|m IH]; intros fuel idle r s t Hh Ht Hi Hb Hf H0; (destruct fuel as [|fuel]; [lia |]);
    cbn [consumer_loop]; change (quiet fuel 0 r) with r.
  all: destruct (peek_next r t t [] Hh Ht ltac:(pose proof (Ring.N_bounds N k HN Hk); lia) (Ring.recs_nil _ _ _))
         as (r1 & h1 & o & -> & -> & Hh1 & -> & ->).
  all: assert (Ring.set_head r (u64 t) = r) as -> by (destruct r; cbn in *; by subst).
  all: change (quiet fuel 1 r) with r; change (quiet fuel 2 r) with r.
  all: unfold Ring.nvkvm_ring_has_work; rewrite Hh, Ht, Z.eqb_refl; cbn [negb].
  - by rewrite (proj2 (Z.leb_le budget _)) by lia.
  - destruct (budget <=? idle + 1) eqn:E; nv_bool; [done |]. destruct m as [|m]; [lia |].
    apply IH; try done; lia.
Qed.

Lemma loop_drains budget q : forall fuel idle r s h t,
  Ring.r_head r = u64 h -> Ring.r_tail r = u64 t -> h <= t <= h + N -> Ring.recs N (Ring.r_data r) h t q ->
  0 <= idle -> (length q + Z.to_nat (Z.max 1 budget) <= fuel)%nat ->
  exists locs, (fun p => read_bytes (Ring.r_data r) (fst p) (snd p)) <$> locs = q /\
    consumer_loop exec inl quiet fuel N budget idle r s =
    L_return (u64 t) (Ring.set_head r (u64 t)) (fold_left (fun s p => run (Ring.r_data r) (fst p) (snd p) s) locs s).
Proof.
  induction q as [|b q IH]; intros fuel idle r s h t Hh Ht Hht Hr Hi Hf.
  - exists []. split; [done |]. simpl in Hf. destruct fuel as [|fuel]; [lia |].
    destruct (peek_next r h t [] Hh Ht Hht Hr) as (r1 & h1 & o & Hp & -> & Hh1 & -> & ->).
    set (r1 := Ring.set_head r (u64 t)) in *.
    transitivity (consumer_loop exec inl quiet (Datatypes.S fuel) N budget idle r1 s).
    + cbn [consumer_loop]. change (quiet fuel 0 r) with r. change (quiet fuel 0 r1) with r1. rewrite Hp.
      destruct (peek_next r1 t t [] eq_refl Ht ltac:(lia) (Ring.recs_nil _ _ _)) as (r2 & h2 & o & -> & -> & Hh2 & -> & ->).
      done.
    + cbn [fold_left]. apply (loop_idles budget (Datatypes.S fuel)); try done; lia.
  - simpl in Hf. destruct fuel as [|fuel]; [lia |]. cbn [consumer_loop]. change (quiet fuel 0 r) with r.
    destruct (peek_next r h t (b :: q) Hh Ht Hht Hr)
      as (r1 & h1 & o & -> & -> & Hh1 & pay & len & total & -> & Hb & Hn & Hle & Hr').
    cbn [exec]. set (r2 := Ring.nvkvm_ring_pop _ total).
    assert (Ring.r_head r2 = u64 (h1 + total)) as E2 by (apply Ring.u64_add).
    destruct (IH fuel 0 r2 (run (Ring.r_data r) pay len s) (h1 + total) t E2 Ht ltac:(lia) Hr' ltac:(lia) ltac:(lia))
      as (locs & Hl & Heq).
    exists ((pay, len) :: locs). split; [cbn [fmap list_fmap fst snd]; by rewrite Hb, <- Hl |].
    cbn [Ring.r_data Ring.set_head]. rewrite Heq. done.
Qed.

(** [ring_loop_drains]: from any state the two ends of the ring can reach, when
    the guest sends nothing more and no command waits on the socket, the consumer
    loop returns within (pending records + idle budget) iterations; by then it
    has run every record committed and not yet taken, once and in order, and the
    request ring is empty. *)
Theorem ring_loop_drains (y : Ring.sys) (s : S) (idle_us : Z) (fuel : nat) :
  Ring.reach N y -> Ring.y_cons y = Ring.C_idle -> 0 <= idle_us ->
  (length (Ring.y_sent y) + Z.to_nat (idle_budget idle_us) <= fuel)%nat ->
  let d := Ring.r_data (Ring.y_ring y) in
  exists locs r',
    ring_consumer_loop (fun d pay len s => inl (run d pay len s)) inl (fun _ _ r => r) fuel true N idle_us (Ring.y_ring y) s =
      L_return (Ring.r_tail (Ring.y_ring y)) r' (fold_left (fun s p => run d (fst p) (snd p) s) locs s) /\
    Ring.nvkvm_ring_has_work r' = false /\
    Forall2 (fun msg p => Ring.carries msg (read_bytes d (fst p) (snd p)))
      (drop (length (Ring.y_rcvd y)) (Ring.y_sent y)) locs.
Proof.
  intros Hy _ Hid Hf. cbv zeta.
  apply (Ring.reach_inv N k HN Hk) in Hy as (h & t & q & I1 & I2 & I3 & _ & _ & I6 & I7 & _).
  pose proof (Forall2_length _ _ _ I7) as Hlen. rewrite length_app in Hlen.
  assert (1 <= idle_budget idle_us) as Hb.
  { unfold idle_budget, NVKVM_RING_IDLE_DEFAULT, NVKVM_RING_IDLE_MAX. case_match; nv_bool; lia. }
  destruct (loop_drains (idle_budget idle_us) q fuel 0 (Ring.y_ring y) s h t I1 I2 I3 I6 ltac:(lia)
    ltac:(rewrite Z.max_r by lia; lia)) as (locs & Hl & Heq).
  exists locs, (Ring.set_head (Ring.y_ring y) (u64 t)). split_and!.
  - unfold ring_consumer_loop. rewrite I2. exact Heq.
  - unfold Ring.nvkvm_ring_has_work. cbn. by rewrite I2, Z.eqb_refl.
  - apply (Forall2_drop _ _ _ (length (Ring.y_rcvd y))) in I7. rewrite drop_app_length, <- Hl in I7.
    rewrite Forall2_fmap_r in I7. exact I7.
Qed.

End drain.

(** [ring_loop_exit_edge]: whatever the guest writes and whatever the loop did, it
    returns the head of a ring it has just seen empty, never with a record left
    that was visible at the last look. *)
Theorem ring_loop_exit_edge {S} (exec : bytes -> Z -> Z -> S -> S + Z) (poll : S -> S + Z)
    (guest : nat -> Z -> Ring.ring -> Ring.ring) (fuel : nat) (cap idle_us : Z) (r : Ring.ring) (s : S)
    (head : Z) (r' : Ring.ring) (s' : S) :
  ring_consumer_loop exec poll guest fuel true cap idle_us r s = L_return head r' s' ->
  head = Ring.r_head r' /\ Ring.nvkvm_ring_has_work r' = false.
Proof.
  unfold ring_consumer_loop. generalize (idle_budget idle_us) as budget, 0 as idle. intros budget idle. revert idle r s.
  induction fuel as [|fuel IH]; intros idle r s; cbn [consumer_loop]; [done |].
  destruct (Ring.nvkvm_ring_peek _ _) as [r1 []]; try done.
  - destruct (poll s) as [s1|]; [|done]. destruct (Ring.nvkvm_ring_has_work (guest fuel 1 r1)); [apply IH |].
    destruct (budget <=? idle + 1); [|apply IH].
    destruct (Ring.nvkvm_ring_has_work (guest fuel 2 _)) eqn:E; [apply IH |]. by intros [= <- <- <-].
  - destruct (exec _ _ _ _); [apply IH | done].
Qed.

(** ** The two paths of a control *)

(** The job the socket path would make of the same record. *)
Definition job_of (d : bytes) (pay : Z) : ioctl_job :=
  let rq := decode_req d pay in
  Job (q_txn_id rq) (q_handle_id rq) (q_cmd rq) (q_abi_profile rq)
    (write_bytes ∅ 0 (read_bytes d (pay + sizeof_req) (q_param_size rq))) (q_param_size rq)
    (write_bytes ∅ 0 (read_bytes d (pay + sizeof_req + q_param_size rq) (q_aux_size rq))) (q_aux_size rq).

(** The driver looks only at the declared bytes of the two buffers. *)
Definition driver_local (driver : drv_call -> Z * bytes * bytes) (np na : Z) : Prop :=
  forall c c', c_fd c = c_fd c' -> c_cmd c = c_cmd c' ->
    agree (c_param c) (c_param c') 0 np -> agree (c_aux c) (c_aux c') 0 na ->
    fst (fst (driver c)) = fst (fst (driver c')) /\
    agree (snd (fst (driver c))) (snd (fst (driver c'))) 0 np /\ agree (snd (driver c)) (snd (driver c')) 0 na.

Lemma must_punt_false c param n m :
  ring_ctrl_must_punt c param n m = false ->
  ioc_type c = type_F /\ ioc_nr c = 0x2a /\ 32 <= n /\
  (m = 0 \/ nvkvm_ctrl_list_entry_size (get32 param 8) = 0 /\ get32 param 8 <> 0x101 /\ get32 param 8 <> 0x3d05 /\
            get32 param 8 <> 0x0080170d).
Proof.
  unfold ring_ctrl_must_punt. destruct (_ || _) eqn:E1; [done |].
  apply orb_false_iff in E1 as [E1 E3]. apply orb_false_iff in E1 as [E1 E2]. nv_bool.
  destruct (m =? 0) eqn:E4; nv_bool; [by intros; split_and!; auto |]. destruct (_ || _); [done |].
  repeat (case_match; nv_bool; try done). intros. nv_bool. split_and!; try done. right. done.
Qed.

(** The inner parameters of a control that stays on the ring are left alone. *)
Lemma inner_flat lookup aux_va j p :
  StubMarshal.is_control j = true -> 32 <= param_size j -> 0 <= aux_size j ->
  aux_size j = 0 \/ nvkvm_ctrl_list_entry_size (get32 p 8) = 0 /\ get32 p 8 <> 0x101 /\ get32 p 8 <> 0x3d05 /\
            get32 p 8 <> 0x0080170d /\ get32 p 8 <> 0x3d06 ->
  inner lookup aux_va j p (aux j) = (aux j, no_inner).
Proof.
  intros Hc Hp Ha [H0|(H1 & H2 & H3 & H4 & H5)].
  - apply StubMarshal.control_inner_small; [done | lia].
  - destruct (decide (0 < aux_size j)); [|apply StubMarshal.control_inner_small; [done | lia]].
    rewrite StubMarshal.inner_control by (done || lia).
    by rewrite StubMarshal.wire_build_skip, StubMarshal.wire_channels_skip, !StubMarshal.wire_object_skip,
      StubMarshal.wire_list_skip by done.
Qed.

Lemma finish_flat j p0 a0 p :
  StubMarshal.is_control j = true -> 32 <= param_size j -> 0 <= aux_size j ->
  let pr := Prep p0 a0 [] None no_inner None None None in
  finish_param j pr p = (if aux_size j =? 0 then p else put64 p 16 0) /\
  (forall a, finish_aux pr a = a) /\
  forall q, nvstatus j q = get32 q 28.
Proof.
  intros (_ & Hn & Ht & Hr & _)%StubMarshal.control_facts Hp Ha. cbv zeta. split_and!.
  - unfold finish_param. cbn [restore32 pr_fe pr_uvm].
    rewrite (proj2 (Z.eqb_neq _ _) Hn), Ht, (proj2 (Z.leb_le 24 _)) by lia.
    change (type_F =? type_d) with false. cbn [andb orb]. rewrite andb_false_r, andb_true_r.
    destruct (aux_size j =? 0) eqn:E; nv_bool; [rewrite (proj2 (Z.ltb_ge _ _)) by lia | rewrite (proj2 (Z.ltb_lt _ _)) by lia]; done.
  - done.
  - intros q. unfold nvstatus, fe_status_off. rewrite Ht, Hr. cbn. by rewrite (proj2 (Z.leb_le 32 _)) by lia.
Qed.

Lemma wire_flat aux_va j p :
  StubMarshal.is_control j = true -> 32 <= param_size j -> 0 <= aux_size j ->
  wire_ptr aux_va j p = put64 p 16 (if aux_size j =? 0 then 0 else aux_va).
Proof.
  intros (_ & Hn & Ht & Hr & _)%StubMarshal.control_facts Hp Ha. unfold wire_ptr, ptr_off.
  rewrite (proj2 (Z.eqb_neq _ _) Hn), Ht, Hr, (proj2 (Z.leb_le 24 _)) by lia. cbn -[put64].
  destruct (aux_size j =? 0) eqn:E; nv_bool; [rewrite (proj2 (Z.ltb_ge _ _)) by lia | rewrite (proj2 (Z.ltb_lt _ _)) by lia]; done.
Qed.

(** [ring_path_equiv]: a record the fast path runs gives the same descriptor, the
    same command, the same buffers for the driver and the same answer as the
    socket path makes of it, unless it imports an object from a descriptor. *)
Theorem ring_path_equiv (lookup : Z -> Z) (aux_va : Z) (driver : drv_call -> Z * bytes * bytes)
    (stack_param stack_aux : bytes) (d : bytes) (pay len : Z) :
  let rq := decode_req d pay in
  let j := job_of d pay in
  sizeof_req + q_param_size rq + q_aux_size rq <= len ->
  q_param_size rq <= NVKVM_RING_MAX_PARAM -> q_aux_size rq <= NVKVM_RING_MAX_AUX ->
  ring_ctrl_must_punt (q_cmd rq) (param j) (q_param_size rq) (q_aux_size rq) = false ->
  get32 (param j) 8 <> 0x3d06 ->
  driver_local driver (q_param_size rq) (q_aux_size rq) ->
  let '(calls, r) := ring_exec_one lookup aux_va driver stack_param stack_aux d pay len in
  let '(calls', r') := worker_job lookup aux_va driver j in
  Forall2 (fun c c' => c_fd c = c_fd c' /\ c_cmd c = c_cmd c' /\
     agree (c_param c) (c_param c') 0 (q_param_size rq) /\ agree (c_aux c) (c_aux c') 0 (q_aux_size rq)) calls calls' /\
  r = Some (RResp (r_txn_id r') (r_retval r') (r_nvstatus r') 0 (r_param r') (r_aux r')).
Proof.
  cbv zeta. set (rq := decode_req d pay). set (j := job_of d pay). intros Hlen Hmp Hma Hpunt Hni Hloc.
  pose proof (get32_range d (pay + 12)) as Rp. pose proof (get32_range d (pay + 16)) as Ra.
  change (get32 d (pay + 12)) with (q_param_size rq) in Rp. change (get32 d (pay + 16)) with (q_aux_size rq) in Ra.
  set (pl := read_bytes d (pay + sizeof_req) (q_param_size rq)).
  set (al := read_bytes d (pay + sizeof_req + q_param_size rq) (q_aux_size rq)).
  assert (agree (write_bytes stack_param 0 pl) (param j) 0 (q_param_size rq)) as Ap.
  { replace (q_param_size rq) with (0 + Z.of_nat (length pl)) by (unfold pl; rewrite length_read_bytes; lia).
    apply agree_write_in, octets_read. }
  assert (agree (write_bytes stack_aux 0 al) (aux j) 0 (q_aux_size rq)) as Aa.
  { replace (q_aux_size rq) with (0 + Z.of_nat (length al)) by (unfold al; rewrite length_read_bytes; lia).
    apply agree_write_in, octets_read. }
  destruct (must_punt_false _ _ _ _ Hpunt) as (Ht & Hr & H32 & Hin).
  assert (ring_ctrl_must_punt (q_cmd rq) (write_bytes stack_param 0 pl) (q_param_size rq) (q_aux_size rq) = false) as Hp2.
  { revert Hpunt. unfold ring_ctrl_must_punt. rewrite (agree_get32 _ _ _ _ 8 Ap) by lia. done. }
  assert (StubMarshal.is_control j = true) as Hc.
  { unfold StubMarshal.is_control, job_type, job_nr. change (cmd j) with (q_cmd rq). by rewrite Ht, Hr. }
  assert (forall p, get32 p 8 = get32 (param j) 8 -> inner lookup aux_va j p (aux j) = (aux j, no_inner)) as Hi.
  { intros p Ep. apply inner_flat; [done | done | apply Ra |]. rewrite Ep. destruct Hin as [?|?]; [by left | right; tauto]. }
  unfold ring_exec_one. rewrite (proj2 (Z.ltb_ge len _)) by (unfold sizeof_req in *; lia). fold rq. fold pl. fold al.
  rewrite (proj2 (Z.ltb_ge NVKVM_RING_MAX_PARAM _)), (proj2 (Z.ltb_ge NVKVM_RING_MAX_AUX _)), (proj2 (Z.ltb_ge len _)) by lia.
  cbn [orb]. rewrite Hp2. unfold worker_job. change (handle_id j) with (q_handle_id rq).
  destruct (lookup (q_handle_id rq) <? 0); [split; [constructor | done] |].
  rewrite StubMarshal.prepare_control_eq, Hi by (done || (apply StubMarshal.get32_wire_low; right; split; [apply (StubMarshal.control_facts j Hc) | lia])).
  cbn [fst snd pr_param pr_aux]. rewrite wire_flat by (done || apply Ra).
  change (aux_size j) with (q_aux_size rq). change (cmd j) with (q_cmd rq).
  set (v := if q_aux_size rq =? 0 then 0 else aux_va).
  pose proof (agree_put64_both _ _ 16 v _ _ Ap) as Ap'.
  set (c1 := DCall _ _ (put64 (write_bytes _ _ _) _ _) _). set (c2 := DCall _ _ (put64 (param j) _ _) _).
  destruct (Hloc c1 c2 eq_refl eq_refl Ap' Aa) as (Er & Ep & Ea).
  destruct (driver c1) as [[ret p] a], (driver c2) as [[ret' p'] a']. cbn [fst snd] in Er, Ep, Ea. subst ret'.
  destruct (finish_flat j (put64 (param j) 16 v) (aux j) p' Hc H32 (proj1 Ra)) as (-> & -> & ->).
  change (aux_size j) with (q_aux_size rq). change (param_size j) with (q_param_size rq).
  split; [repeat constructor; done |]. cbn [r_txn_id r_retval r_nvstatus r_param r_aux].
  assert (agree (if q_aux_size rq =? 0 then p else put64 p 16 0) (if q_aux_size rq =? 0 then p' else put64 p' 16 0) 0 (q_param_size rq)) as Ef.
  { destruct (q_aux_size rq =? 0); [done | by apply agree_put64_both]. }
  rewrite (agree_get32 _ _ _ _ 28 Ef), (agree_read _ _ _ _ 0 (q_param_size rq) Ef), (agree_read _ _ _ _ 0 (q_aux_size rq) Ea) by lia.
  done.
Qed.

(** [ring_import_raw_fd]: a record that imports an object from a descriptor
    (control 0x3d06) is not handed to the slow path: the driver is called with
    the guest's handle id as the descriptor, where the socket path passes the
    stub's descriptor for that id. *)
Theorem ring_import_raw_fd (lookup : Z -> Z) (aux_va : Z) (driver : drv_call -> Z * bytes * bytes)
    (stack_param stack_aux : bytes) (d : bytes) (pay len : Z) :
  let rq := decode_req d pay in
  let j := job_of d pay in
  let hid := get32 (aux j) 0 in
  sizeof_req + q_param_size rq + q_aux_size rq <= len ->
  32 <= q_param_size rq <= NVKVM_RING_MAX_PARAM -> 4 <= q_aux_size rq <= NVKVM_RING_MAX_AUX ->
  ioc_type (q_cmd rq) = type_F -> ioc_nr (q_cmd rq) = 0x2a -> get32 (param j) 8 = 0x3d06 ->
  0 <= lookup (q_handle_id rq) -> 0 < hid < 2 ^ 31 -> 0 <= lookup hid ->
  exists c c', fst (ring_exec_one lookup aux_va driver stack_param stack_aux d pay len) = [c] /\
    fst (worker_job lookup aux_va driver j) = [c'] /\
    get32 (c_aux c) 0 = hid /\ get32 (c_aux c') 0 = u32 (lookup hid).
Proof.
  cbv zeta. set (rq := decode_req d pay). set (j := job_of d pay). intros Hlen Hmp Hma Ht Hr Hin Hh Hid Hl.
  set (pl := read_bytes d (pay + sizeof_req) (q_param_size rq)).
  set (al := read_bytes d (pay + sizeof_req + q_param_size rq) (q_aux_size rq)).
  assert (agree (write_bytes stack_param 0 pl) (param j) 0 (q_param_size rq)) as Ap.
  { replace (q_param_size rq) with (0 + Z.of_nat (length pl)) by (unfold pl; rewrite length_read_bytes; lia).
    apply agree_write_in, octets_read. }
  assert (agree (write_bytes stack_aux 0 al) (aux j) 0 (q_aux_size rq)) as Aa.
  { replace (q_aux_size rq) with (0 + Z.of_nat (length al)) by (unfold al; rewrite length_read_bytes; lia).
    apply agree_write_in, octets_read. }
  assert (StubMarshal.is_control j = true) as Hc.
  { unfold StubMarshal.is_control, job_type, job_nr. change (cmd j) with (q_cmd rq). by rewrite Ht, Hr. }
  assert (ring_ctrl_must_punt (q_cmd rq) (write_bytes stack_param 0 pl) (q_param_size rq) (q_aux_size rq) = false) as Hp2.
  { unfold ring_ctrl_must_punt. rewrite (agree_get32 _ _ _ _ 8 Ap), Hin, Ht, Hr by lia.
    by rewrite (proj2 (Z.ltb_ge _ 32)), (proj2 (Z.eqb_neq _ 0)), (proj2 (Z.ltb_ge NVKVM_RING_MAX_PARAM _)),
      (proj2 (Z.ltb_ge NVKVM_RING_MAX_AUX _)) by lia. }
  unfold ring_exec_one. rewrite (proj2 (Z.ltb_ge len _)) by (unfold sizeof_req in *; lia). fold rq. fold pl. fold al.
  rewrite (proj2 (Z.ltb_ge NVKVM_RING_MAX_PARAM _)), (proj2 (Z.ltb_ge NVKVM_RING_MAX_AUX _)), (proj2 (Z.ltb_ge len _)) by lia.
  cbn [orb]. rewrite Hp2.
  unfold worker_job. change (handle_id j) with (q_handle_id rq).
  rewrite !(proj2 (Z.ltb_ge (lookup (q_handle_id rq)) 0)) by done.
  rewrite StubMarshal.prepare_control_eq by done.
  destruct (driver _) as [[ret p] a], (driver _) as [[ret' p'] a']. eexists _, _. cbn [fst snd pr_aux c_aux].
  split; [reflexivity |]. split; [reflexivity |]. cbn [c_aux].
  split; [by rewrite (agree_get32 _ _ _ _ 0 Aa) by lia |].
  assert (param_size j = q_param_size rq /\ aux_size j = q_aux_size rq) as [Ejp Eja] by done.
  rewrite StubMarshal.inner_control by (done || lia).
  rewrite StubMarshal.get32_wire_low by (right; split; [apply (StubMarshal.control_facts j Hc) | lia]). rewrite Hin.
  rewrite StubMarshal.wire_build_skip, StubMarshal.wire_channels_skip, (StubMarshal.wire_object_skip lookup j 0x3d06 0x3d05),
    StubMarshal.wire_list_skip by done.
  unfold wire_object_fd, local_fd. change (aux_size j) with (q_aux_size rq). rewrite (proj2 (Z.leb_le 4 _)) by lia.
  assert (s32 (get32 (aux j) 0) = get32 (aux j) 0) as ->.
  { unfold s32. rewrite u32_small by lia. by rewrite (proj2 (Z.ltb_lt _ _)) by lia. }
  rewrite (proj2 (Z.ltb_lt 0 _)), (proj2 (Z.leb_le 0 _)) by lia. cbn [Z.eqb Pos.eqb andb fst]. by rewrite get32_put32.
Qed.

(** ** The response ring *)

Lemma resp_reserve_Some n i h r cap payload x :
  resp_reserve n i (fun _ => h) r cap payload = Some x ->
  Ring.nvkvm_ring_reserve (Ring.set_head r h) cap payload = Some x.
Proof.
  revert i. induction n as [|n IH]; intros i; cbn [resp_reserve]; [done |].
  destruct (Ring.nvkvm_ring_reserve _ _ _) eqn:E; [done |]. intros H. by apply IH in H.
Qed.

Lemma octets_encode r : octets (s_param r) -> octets (s_aux r) -> octets (encode_resp r).
Proof. intros. unfold encode_resp. apply Forall_app. split; [apply octets_read |]. by apply Forall_app. Qed.

Lemma length_encode r :
  Z.of_nat (length (encode_resp r)) = sizeof_resp + Z.of_nat (length (s_param r)) + Z.of_nat (length (s_aux r)).
Proof. unfold encode_resp. rewrite !length_app, length_read_bytes. unfold sizeof_resp. lia. Qed.

(** [ring_resp_refines]: writing an answer is a reservation, a copy and a commit
    of exactly the encoded answer on the ring protocol, so the guest receives the
    answers in the order in which they were written. *)
Theorem ring_resp_refines (N k : Z) (y : Ring.sys) (resp : ring_ioctl_resp) (r' : Ring.ring) :
  N = 2 ^ k -> 6 <= k <= 31 -> Ring.reach N y -> Ring.y_prod y = Ring.P_idle ->
  octets (s_param resp) -> octets (s_aux resp) -> Z.of_nat (length (encode_resp resp)) < 2 ^ 32 ->
  ring_write_resp (fun _ => Ring.r_head (Ring.y_ring y)) N resp (Ring.y_ring y) = Some r' ->
  Ring.reach N (Ring.Sys r' Ring.P_idle (Ring.y_cons y) (Ring.y_sent y ++ [encode_resp resp]) (Ring.y_rcvd y)).
Proof.
  intros HN Hk Hy Hp Ho1 Ho2 Hlen. unfold ring_write_resp. rewrite <- length_encode, u32_small by lia.
  generalize (Z.to_nat (NVKVM_RING_RESP_FULL_SPIN + 1)) as spins. intros spins.
  destruct (resp_reserve _ _ _ _ _ _) as [[[r1 pay] total]|] eqn:E; [|discriminate]. intros Hr'. apply (inj Some) in Hr' as <-.
  apply resp_reserve_Some in E. destruct y as [r p c sent rcvd]. cbn in *. subst p.
  assert (Ring.set_head r (Ring.r_head r) = r) as Hr by (by destruct r). rewrite Hr in E.
  eapply Ring.reach_step; [|apply (Ring.st_commit N (Ring.set_data r1 (write_bytes (Ring.r_data r1) pay (encode_resp resp))) c sent rcvd pay)].
  eapply Ring.reach_step; [|apply Ring.st_write].
  eapply Ring.reach_step; [exact Hy |]. apply Ring.st_reserve; [by apply octets_encode | done | done].
Qed.

(** ** Examples *)

Lemma ring_loop_drains_witness :
  exists locs r', ring_consumer_loop (fun d pay len s => inl (s ++ [read_bytes d pay len])) inl (fun _ _ r => r)
     2001 true 64 2000 Ring.ex_ring3 [] =
    L_return 16 r' (fold_left (fun s p => s ++ [read_bytes (Ring.r_data Ring.ex_ring3) (fst p) (snd p)]) locs []).
Proof.
  destruct (ring_loop_drains 64 6 eq_refl ltac:(lia) (fun d pay len s => s ++ [read_bytes d pay len])
    _ [] 2000 2001 Ring.ex_ring_reach eq_refl ltac:(lia) ltac:(vm_compute; lia)) as (locs & r' & H & _).
  exists locs, r'. exact H.
Defined.

Lemma ring_loop_exit_edge_witness : 0 = Ring.r_head (Ring.Shm 64 0 0 ∅).
Proof.
  exact (proj1 (ring_loop_exit_edge (fun _ _ _ (s : unit) => inl s) inl (fun _ _ r => r) 1 64 1
    (Ring.Shm 64 0 0 ∅) tt 0 (Ring.Shm 64 0 0 ∅) tt ltac:(vm_compute; reflexivity))).
Defined.

(** A record: handle 1, RM_CONTROL, 32 bytes of parameters for the given control
    and 4 bytes of inner parameters. *)
Definition ex_record (inner_cmd word : Z) : bytes :=
  put32 (put32 (put32 (put32 (put32 (put32 (put32 ∅ 8 7) 12 1) 16 0xc020462a) 20 32) 24 4) 40 inner_cmd) 64 word.

Lemma ring_path_equiv_witness :
  snd (ring_exec_one StubMarshal.ex_lookup 0x7000 StubMarshal.ex_driver ∅ ∅ (ex_record 0x20800102 5) 8 60) =
  Some (RResp 7 0 0 0 (r_param (snd (worker_job StubMarshal.ex_lookup 0x7000 StubMarshal.ex_driver (job_of (ex_record 0x20800102 5) 8))))
          [5; 0; 0; 0]).
Proof.
  pose proof (ring_path_equiv StubMarshal.ex_lookup 0x7000 StubMarshal.ex_driver ∅ ∅ (ex_record 0x20800102 5) 8 60
    ltac:(vm_compute; discriminate) ltac:(vm_compute; discriminate) ltac:(vm_compute; discriminate)
    ltac:(vm_compute; reflexivity) ltac:(vm_compute; discriminate) ltac:(by intros c c' ???)) as H.
  destruct (ring_exec_one _ _ _ _ _ _ _ _) as [cs r]. 
  assert (r_txn_id (snd (worker_job StubMarshal.ex_lookup 0x7000 StubMarshal.ex_driver (job_of (ex_record 0x20800102 5) 8))) = 7 /\
    r_retval (snd (worker_job StubMarshal.ex_lookup 0x7000 StubMarshal.ex_driver (job_of (ex_record 0x20800102 5) 8))) = 0 /\
    r_nvstatus (snd (worker_job StubMarshal.ex_lookup 0x7000 StubMarshal.ex_driver (job_of (ex_record 0x20800102 5) 8))) = 0 /\
    r_aux (snd (worker_job StubMarshal.ex_lookup 0x7000 StubMarshal.ex_driver (job_of (ex_record 0x20800102 5) 8))) = [5; 0; 0; 0])
    as (E1 & E2 & E3 & E4) by (vm_compute; repeat split; reflexivity).
  destruct (worker_job _ _ _ _) as [cs' r']. cbn [snd] in *. destruct H as [_ ->]. by rewrite E1, E2, E3, E4.
Defined.

Lemma ring_import_raw_fd_witness :
  exists c c', fst (ring_exec_one StubMarshal.ex_lookup 0x7000 StubMarshal.ex_driver ∅ ∅ (ex_record 0x3d06 2) 8 60) = [c] /\
    fst (worker_job StubMarshal.ex_lookup 0x7000 StubMarshal.ex_driver (job_of (ex_record 0x3d06 2) 8)) = [c'] /\
    get32 (c_aux c) 0 = 2 /\ get32 (c_aux c') 0 = 9.
Proof.
  apply (ring_import_raw_fd StubMarshal.ex_lookup 0x7000 StubMarshal.ex_driver ∅ ∅ (ex_record 0x3d06 2) 8 60);
    try (vm_compute; discriminate); try (vm_compute; reflexivity); split; vm_compute; (discriminate || reflexivity).
Defined.

Lemma ring_resp_refines_witness :
  exists r', Ring.reach 64 (Ring.Sys r' Ring.P_idle Ring.C_idle [[1; 2; 3]; encode_resp (punt 7 0)] []).
Proof.
  destruct (ring_write_resp (fun _ => 0) 64 (punt 7 0) Ring.ex_ring3) as [r'|] eqn:E; [|vm_compute in E; discriminate].
  exists r'. exact (ring_resp_refines 64 6 _ (punt 7 0) r' eq_refl ltac:(lia) Ring.ex_ring_reach eq_refl
    ltac:(constructor) ltac:(constructor) ltac:(vm_compute; reflexivity) E).
Defined.

End StubRing.
