(* ===== verification/FsSync.v ===== *)
(** * The stub's locks ([src/stub/stub_freestanding.h])

    The futex mutex and the generation-counter condition variable of the stub, at
    the granularity of their atomic operations: every atomic access and every
    futex call of a thread is one step, and the threads interleave freely. *)

From S2P Require Import Prelude.
Local Open Scope Z_scope.

Module FsSync.

(** Threads are positions of a list; [hits P l] counts those in a state with
    [P]. *)
Section count.
Context {A : Type} (P : A -> bool).

Fixpoint hits (l : list A) : Z :=
  match l with [] => 0 | x :: l' => (if P x then 1 else 0) + hits l' end.

Lemma hits_nonneg l : 0 <= hits l.
Proof. induction l as [|x l IH]; cbn; [lia |]. destruct (P x); lia. Qed.

Lemma hits_insert l i x y :
  l !! i = Some x -> hits (<[i := y]> l) = hits l - (if P x then 1 else 0) + (if P y then 1 else 0).
Proof.
  revert i. induction l as [|z l IH]; intros i Hi; [done |]. destruct i as [|i].
  - injection Hi as ->. cbn. lia.
  - change (<[S i := y]> (z :: l)) with (z :: <[i := y]> l). cbn [hits]. rewrite (IH i Hi). lia.
Qed.

Lemma hits_pos l : 0 < hits l <-> exists i x, l !! i = Some x /\ P x = true.
Proof.
  split.
  - induction l as [|x l IH]; cbn; [lia |]. destruct (P x) eqn:E; [exists 0%nat, x; auto |].
    intros H. destruct IH as (i & y & Hi & Hy); [lia |]. by exists (S i), y.
  - intros (i & x & Hi & Hx). revert i Hi. induction l as [|y l IH]; intros i Hi; [done |].
    pose proof (hits_nonneg l). destruct i as [|i]; cbn in *; [injection Hi as ->; rewrite Hx; lia |].
    specialize (IH i Hi). destruct (P y); lia.
Qed.

Lemma hits_at l i x : l !! i = Some x -> (if P x then 1 else 0) <= hits l.
Proof.
  intros Hi. destruct (P x) eqn:E; [|apply hits_nonneg]. assert (0 < hits l) by (apply hits_pos; eauto). lia.
Qed.
End count.

(** ** The mutex *)

(** Where a thread is in [fs_mutex_lock] and [fs_mutex_unlock]. *)
Inductive mpc :=
| M_idle            (* outside *)
| M_cas             (* read 0, about to compare and exchange *)
| M_xchg            (* about to exchange with 2 *)
| M_wait            (* about to call FUTEX_WAIT(2) *)
| M_sleep           (* blocked in the futex call *)
| M_crit            (* holds the mutex *)
| M_wake.           (* unlocked, about to call FUTEX_WAKE(1) *)

Definition in_crit (p : mpc) : bool := match p with M_crit => true | _ => false end.
Definition asleep (p : mpc) : bool := match p with M_sleep => true | _ => false end.
(** About to try again, or about to wake somebody. *)
Definition pending (p : mpc) : bool := match p with M_xchg | M_wake => true | _ => false end.

(** [v] is the futex word: 0 unlocked, 1 locked, 2 locked with waiters. *)
Record mstate := MS { m_v : Z; m_pcs : list mpc }.

(** The step of thread [i]; [M_wake] also moves the thread it wakes. *)
Inductive mstep : mstate -> mstate -> Prop :=
| ms_load v l i : l !! i = Some M_idle ->
    mstep (MS v l) (MS v (<[i := if v =? 0 then M_cas else M_xchg]> l))
| ms_cas v l i : l !! i = Some M_cas ->
    mstep (MS v l) (MS (if v =? 0 then 1 else v) (<[i := if v =? 0 then M_crit else M_xchg]> l))
| ms_xchg v l i : l !! i = Some M_xchg ->
    mstep (MS v l) (MS 2 (<[i := if v =? 0 then M_crit else M_wait]> l))
| ms_wait v l i : l !! i = Some M_wait ->
    mstep (MS v l) (MS v (<[i := if v =? 2 then M_sleep else M_xchg]> l))
| ms_spurious v l i : l !! i = Some M_sleep ->
    mstep (MS v l) (MS v (<[i := M_xchg]> l))
| ms_unlock v l i : l !! i = Some M_crit ->
    mstep (MS v l) (MS 0 (<[i := if v =? 2 then M_wake else M_idle]> l))
| ms_wake v l i j : l !! i = Some M_wake -> l !! j = Some M_sleep ->
    mstep (MS v l) (MS v (<[j := M_xchg]> (<[i := M_idle]> l)))
| ms_wake_none v l i : l !! i = Some M_wake -> hits asleep l = 0 ->
    mstep (MS v l) (MS v (<[i := M_idle]> l)).

Inductive mreach (n : nat) : mstate -> Prop :=
| mr_init : mreach n (MS 0 (replicate n M_idle))
| mr_step s s' : mreach n s -> mstep s s' -> mreach n s'.

Record minv (s : mstate) : Prop := {
  mi_word : m_v s = 0 \/ m_v s = 1 \/ m_v s = 2;
  mi_crit : hits in_crit (m_pcs s) = if m_v s =? 0 then 0 else 1;
  mi_wake : 0 < hits asleep (m_pcs s) -> m_v s = 2 \/ 0 < hits pending (m_pcs s)
}.

Lemma hits_replicate {A} (P : A -> bool) n x : P x = false -> hits P (replicate n x) = 0.
Proof. intros H. induction n; cbn; [done |]. rewrite H. lia. Qed.

Lemma minv_step s s' : minv s -> mstep s s' -> minv s'.
Proof.
  intros [W C K] Hs.
  destruct Hs as [v l i Hi|v l i Hi|v l i Hi|v l i Hi|v l i Hi|v l i Hi|v l i j Hi Hj|v l i Hi Hn]; cbn [m_v m_pcs] in *;
  try (split; cbn [m_v m_pcs]; rewrite ?(hits_insert _ l i _ _ Hi); cbn [in_crit asleep pending];
       pose proof (hits_at in_crit l i _ Hi); pose proof (hits_at asleep l i _ Hi); pose proof (hits_at pending l i _ Hi);
       destruct (v =? 0) eqn:E0; try destruct (v =? 2) eqn:E2; nv_bool; cbn in *;
       try rewrite (proj2 (Z.eqb_neq v 0)) by done; lia).
  - (* the woken thread *)
    assert (i <> j) as Hij by (intros ->; congruence).
    assert (<[i := M_idle]> l !! j = Some M_sleep) as Hj' by (by rewrite list_lookup_insert_ne).
    split; cbn [m_v m_pcs]; rewrite ?(hits_insert _ _ j _ _ Hj'), ?(hits_insert _ l i _ _ Hi); cbn [in_crit asleep pending].
    + done.
    + rewrite C. lia.
    + intros _. right. assert (0 < hits pending l) by (apply hits_pos; eauto). lia.
Qed.

Lemma mreach_inv n s : mreach n s -> minv s.
Proof.
  induction 1 as [|s s' _ IH Hs]; [|by eapply minv_step].
  split; cbn [m_v m_pcs]; rewrite ?hits_replicate by done; [auto | done | lia].
Qed.

(** C40. [mutex_correct]: for any number of threads and any interleaving of the
    atomic operations, at most one thread is between lock and unlock; and when
    the mutex is free while threads sleep on it, some thread is about to retry
    the lock or about to wake one of them: no wake-up is lost. *)
Theorem mutex_correct (n : nat) (s : mstate) :
  mreach n s ->
  (forall i j, m_pcs s !! i = Some M_crit -> m_pcs s !! j = Some M_crit -> i = j) /\
  (forall i, m_v s = 0 -> m_pcs s !! i = Some M_sleep ->
     exists j p, m_pcs s !! j = Some p /\ (p = M_xchg \/ p = M_wake)).
Proof.
  intros [W C K]%mreach_inv. split.
  - intros i j Hi Hj. destruct (decide (i = j)); [done | exfalso].
    pose proof (hits_insert in_crit (m_pcs s) i _ M_idle Hi) as H1.
    assert (<[i := M_idle]> (m_pcs s) !! j = Some M_crit) as Hj' by (by rewrite list_lookup_insert_ne).
    assert (0 < hits in_crit (<[i := M_idle]> (m_pcs s))) by (apply hits_pos; eauto).
    cbn in H1. destruct (m_v s =? 0); lia.
  - intros i Hv Hi. destruct K as [K|K]; [apply hits_pos; eauto | lia |].
    apply hits_pos in K as (j & p & Hj & Hp). exists j, p. split; [done |]. destruct p; (discriminate || auto).
Qed.

Lemma mutex_correct_witness :
  exists j p, [M_wake; M_sleep] !! j = Some p /\ (p = M_xchg \/ p = M_wake).
Proof.
  refine (proj2 (mutex_correct 2 (MS 0 [M_wake; M_sleep]) _) 1%nat eq_refl eq_refl).
  eapply mr_step; [|apply (ms_unlock 2 [M_crit; M_sleep] 0); reflexivity].
  eapply mr_step; [|apply (ms_wait 2 [M_crit; M_wait] 1); reflexivity].
  eapply mr_step; [|apply (ms_xchg 1 [M_crit; M_xchg] 1); reflexivity].
  eapply mr_step; [|apply (ms_load 1 [M_crit; M_idle] 1); reflexivity].
  eapply mr_step; [|apply (ms_cas 0 [M_cas; M_idle] 0); reflexivity].
  eapply mr_step; [apply mr_init |]. apply (ms_load 0 [M_idle; M_idle] 0). reflexivity.
Defined.

End FsSync.
