(* ===== verification/StubJobs.v ===== *)
(** * The stub's worker pool ([src/stub/nvkvm_stub.c])

    Ioctl jobs wait in a table of 64 slots for the 16 workers.  Enqueueing and
    scanning happen under the queue mutex and are single steps; sampling the
    generation of the condition variable, blocking on it and being woken are
    separate steps, so that a wake-up can fall between them. *)

From S2P Require Import Prelude Bytes FsSync StubHandles StubIoctl.
Local Open Scope Z_scope.

Module StubJobs.
Import FsSync StubIoctl.

Definition MAX_INFLIGHT : nat := 64.

(** [job_queue]: [None] is a slot that is not [valid]. *)
Abbreviation queue := (list (option ioctl_job)).

Definition job_queue_init : queue := replicate MAX_INFLIGHT None.

(** The new table, or the response of a refused job. *)
Definition enqueue_job (j : ioctl_job) (q : queue) : queue * option ioctl_resp :=
  match list_find (fun s => s = None) q with
  | Some (i, _) => (<[i := Some j]> q, None)
  | None => (q, Some (fail_resp j ENOMEM))
  end.

(** The scan of [dequeue_job]. *)
Fixpoint first_valid (i : nat) (q : queue) : option (nat * ioctl_job) :=
  match q with
  | [] => None
  | Some j :: _ => Some (i, j)
  | None :: q' => first_valid (S i) q'
  end.

Definition dequeue_scan (q : queue) : option (ioctl_job * queue) :=
  match first_valid 0 q with
  | Some (i, j) => Some (j, <[i := None]> q)
  | None => None
  end.

(** Where a worker is: about to lock and scan; past the scan of an empty table,
    with the generation it sampled; blocked; running a job; gone. *)
Inductive wpc :=
| W_loop
| W_sampled (gen : Z)
| W_sleep
| W_run (j : ioctl_job)
| W_done.

(** [s_signal]: a job was stored and the wake-up call is still to come.  The three
    lists record the jobs accepted, finished and refused. *)
Record jstate := JS {
  s_queue : queue;
  s_gen : Z;
  s_signal : bool;
  s_exiting : bool;
  s_workers : list wpc;
  s_accepted : list ioctl_job;
  s_finished : list ioctl_job;
  s_refused : list (ioctl_job * ioctl_resp)
}.

Definition with_workers (s : jstate) (w : list wpc) : jstate :=
  JS (s_queue s) (s_gen s) (s_signal s) (s_exiting s) w (s_accepted s) (s_finished s) (s_refused s).

Definition w_asleep (p : wpc) : bool := match p with W_sleep => true | _ => false end.

(** The generation counter is a [uint32_t]. *)
Inductive jstep : jstate -> jstate -> Prop :=
| js_put s j q' :
    s_signal s = false -> enqueue_job j (s_queue s) = (q', None) ->
    jstep s (JS q' (s_gen s + 1) true (s_exiting s) (s_workers s) (s_accepted s ++ [j]) (s_finished s) (s_refused s))
| js_refuse s j q' r :
    s_signal s = false -> enqueue_job j (s_queue s) = (q', Some r) ->
    jstep s (JS q' (s_gen s) false (s_exiting s) (s_workers s) (s_accepted s) (s_finished s) (s_refused s ++ [(j, r)]))
| js_wake s i :
    s_signal s = true -> s_workers s !! i = Some W_sleep ->
    jstep s (JS (s_queue s) (s_gen s) false (s_exiting s) (<[i := W_loop]> (s_workers s)) (s_accepted s) (s_finished s) (s_refused s))
| js_wake_none s :
    s_signal s = true -> hits w_asleep (s_workers s) = 0 ->
    jstep s (JS (s_queue s) (s_gen s) false (s_exiting s) (s_workers s) (s_accepted s) (s_finished s) (s_refused s))
| js_take s i j q' :
    s_exiting s = false -> s_workers s !! i = Some W_loop -> dequeue_scan (s_queue s) = Some (j, q') ->
    jstep s (JS q' (s_gen s) (s_signal s) false (<[i := W_run j]> (s_workers s)) (s_accepted s) (s_finished s) (s_refused s))
| js_sample s i :
    s_exiting s = false -> s_workers s !! i = Some W_loop -> dequeue_scan (s_queue s) = None ->
    jstep s (with_workers s (<[i := W_sampled (s_gen s)]> (s_workers s)))
| js_block s i g :
    s_workers s !! i = Some (W_sampled g) ->
    jstep s (with_workers s (<[i := if u32 g =? u32 (s_gen s) then W_sleep else W_loop]> (s_workers s)))
| js_spurious s i :
    s_workers s !! i = Some W_sleep -> jstep s (with_workers s (<[i := W_loop]> (s_workers s)))
| js_finish s i j :
    s_workers s !! i = Some (W_run j) ->
    jstep s (JS (s_queue s) (s_gen s) (s_signal s) (s_exiting s) (<[i := W_loop]> (s_workers s)) (s_accepted s)
               (s_finished s ++ [j]) (s_refused s))
| js_leave s i :
    s_exiting s = true -> s_workers s !! i = Some W_loop ->
    jstep s (with_workers s (<[i := W_done]> (s_workers s)))
| js_stop s :
    s_signal s = false ->
    jstep s (JS (s_queue s) (s_gen s + 1) false true
               ((fun p => match p with W_sleep => W_loop | _ => p end) <$> s_workers s)
               (s_accepted s) (s_finished s) (s_refused s)).

Definition j_init (n : nat) : jstate := JS job_queue_init 0 false false (replicate n W_loop) [] [] [].

Inductive jreach (n : nat) : jstate -> Prop :=
| jr_init : jreach n (j_init n)
| jr_step s s' : jreach n s -> jstep s s' -> jreach n s'.

(** ** Interrupting a job *)

(** [worker_inflight_txn] of slots 1 to 16 and the thread ids: the thread that
    gets the signal. *)
Fixpoint interrupt_loop (target : Z) (slots : list (Z * Z)) : option Z :=
  match slots with
  | [] => None
  | (txn, tid) :: slots' =>
      if txn =? target then (if 0 <? tid then Some tid else None) else interrupt_loop target slots'
  end.

Definition interrupt_txn (target : Z) (slots : list (Z * Z)) : option Z :=
  if target =? 0 then None else interrupt_loop target slots.

(** ** The table *)

Definition queued (q : queue) : list ioctl_job := omap id q.

Definition running (l : list wpc) : list ioctl_job :=
  omap (fun p => match p with W_run j => Some j | _ => None end) l.

Lemma omap_insert {A B} (f : A -> option B) (l : list A) i x y :
  l !! i = Some x -> exists l1 l2, omap f l = l1 ++ option_list (f x) ++ l2 /\ omap f (<[i := y]> l) = l1 ++ option_list (f y) ++ l2.
Proof.
  intros Hi. exists (omap f (take i l)), (omap f (drop (S i) l)).
  assert (forall z, omap f (take i l ++ z :: drop (S i) l) = omap f (take i l) ++ option_list (f z) ++ omap f (drop (S i) l)) as H.
  { intros z. rewrite omap_app. f_equal. cbn. by destruct (f z). }
  split; [rewrite <- H; by rewrite take_drop_middle |]. rewrite insert_take_drop by (by eapply lookup_lt_Some). apply H.
Qed.

Lemma enqueue_spec j q q' r :
  enqueue_job j q = (q', r) ->
  length q' = length q /\
  match r with
  | None => queued q' ≡ₚ j :: queued q
  | Some r => q' = q /\ r = fail_resp j ENOMEM /\ length (queued q) = length q
  end.
Proof.
  unfold enqueue_job. destruct (list_find _ q) as [[i x]|] eqn:E; intros [= <- <-].
  - apply list_find_Some in E as (Hi & -> & _). split; [by rewrite length_insert |].
    destruct (omap_insert id q i None (Some j) Hi) as (l1 & l2 & E1 & E2). unfold queued. rewrite E1, E2. cbn.
    by rewrite Permutation_middle.
  - split_and!; try done. apply list_find_None in E. induction q as [|[x|] q IH]; [done | |].
    + apply Forall_cons in E as [_ E]. cbn. f_equal. by apply IH.
    + apply Forall_cons in E as [[] _]. done.
Qed.

Lemma first_valid_spec i q :
  match first_valid i q with
  | Some (k, j) => (i <= k)%nat /\ q !! (k - i)%nat = Some (Some j)
  | None => queued q = []
  end.
Proof.
  revert i. induction q as [|[j|] q IH]; intros i; cbn; [done | |].
  - split; [lia |]. by rewrite Nat.sub_diag.
  - specialize (IH (S i)). destruct (first_valid (S i) q) as [[k j]|]; [|done].
    destruct IH as [Hk Hq]. split; [lia |]. by replace (k - i)%nat with (S (k - S i)) by lia.
Qed.

Lemma dequeue_spec q :
  match dequeue_scan q with
  | Some (j, q') => length q' = length q /\ queued q ≡ₚ j :: queued q'
  | None => queued q = []
  end.
Proof.
  unfold dequeue_scan. pose proof (first_valid_spec 0 q) as H. destruct (first_valid 0 q) as [[i j]|]; [|done].
  destruct H as [_ H]. rewrite Nat.sub_0_r in H. split; [by rewrite length_insert |].
  destruct (omap_insert id q i (Some j) None H) as (l1 & l2 & E1 & E2). unfold queued. rewrite E1, E2. cbn.
  by rewrite Permutation_middle.
Qed.

Lemma running_insert l i x y :
  l !! i = Some x ->
  option_list (match y with W_run j => Some j | _ => None end) ++ running l ≡ₚ
  option_list (match x with W_run j => Some j | _ => None end) ++ running (<[i := y]> l).
Proof.
  intros Hi. destruct (omap_insert (fun p => match p with W_run j => Some j | _ => None end) l i x y Hi) as (l1 & l2 & E1 & E2).
  unfold running. rewrite E1, E2. rewrite !app_assoc. apply Permutation_app_tail.
  rewrite (Permutation_app_comm _ l1), <- (Permutation_app_comm l1), <- !app_assoc. apply Permutation_app_head.
  apply Permutation_app_comm.
Qed.

#[local] Arguments queued : simpl never.
#[local] Arguments running : simpl never.

(** ** Invariants *)

(** Not asleep, and not about to fall asleep. *)
Definition awake (gen : Z) (p : wpc) : Prop :=
  match p with
  | W_loop | W_run _ => True
  | W_sampled g => g <> gen
  | W_sleep | W_done => False
  end.

Record jinv (n : nat) (s : jstate) : Prop := {
  ji_len : length (s_queue s) = MAX_INFLIGHT /\ length (s_workers s) = n;
  ji_all : s_accepted s ≡ₚ queued (s_queue s) ++ running (s_workers s) ++ s_finished s;
  ji_ref : Forall (fun p => snd p = fail_resp (fst p) ENOMEM) (s_refused s);
  ji_gen : forall i g, s_workers s !! i = Some (W_sampled g) -> 0 <= g <= s_gen s;
  ji_now : forall i, s_workers s !! i = Some (W_sampled (s_gen s)) -> queued (s_queue s) = [];
  ji_done : s_exiting s = false -> forall i, s_workers s !! i <> Some W_done;
  ji_awake : s_exiting s = false -> queued (s_queue s) <> [] ->
    s_signal s = true \/ exists i p, s_workers s !! i = Some p /\ awake (s_gen s) p
}.

(** Moving one worker to a state that is awake, or while nothing is queued. *)
Lemma move_inv n s i x y q' acc' fin' sg :
  jinv n s -> s_workers s !! i = Some x -> y <> W_done \/ s_exiting s = true ->
  length q' = MAX_INFLIGHT -> acc' ≡ₚ queued q' ++ running (<[i := y]> (s_workers s)) ++ fin' ->
  (forall g, y = W_sampled g -> 0 <= g <= s_gen s /\ queued q' = []) ->
  (queued q' = [] \/ awake (s_gen s) y /\ forall e, e ∈ queued q' -> e ∈ queued (s_queue s)) ->
  jinv n (JS q' (s_gen s) sg (s_exiting s) (<[i := y]> (s_workers s)) acc' fin' (s_refused s)).
Proof.
  intros [[L1 L2] A R G Nw D K] Hi Hy Hq Ha Hg Hk.
  assert (i < length (s_workers s))%nat as Hlt by (by eapply lookup_lt_Some).
  split; cbn; try done.
  - by rewrite length_insert.
  - intros k g [(_ & E & _)|[_ Hk']]%list_lookup_insert_Some; [by apply Hg | by eapply G].
  - intros k [(_ & E & _)|[_ Hk']]%list_lookup_insert_Some; [by apply (Hg (s_gen s)) |].
    destruct Hk as [?|[_ Hsub]]; [done |]. specialize (Nw k Hk'). destruct (queued q') as [|e l]; [done |].
    specialize (Hsub e ltac:(left)). rewrite Nw in Hsub. by apply not_elem_of_nil in Hsub.
  - intros He k [(_ & E & _)|[_ Hk']]%list_lookup_insert_Some; [destruct Hy; congruence | by eapply D].
  - intros He Hne. right. destruct Hk as [?|[Haw _]]; [done |]. exists i, y.
    split; [by rewrite list_lookup_insert_eq | done].
Qed.

Lemma running_fmap_wake l :
  running ((fun p => match p with W_sleep => W_loop | _ => p end) <$> l) = running l.
Proof. unfold running. induction l as [|[] l IH]; cbn; rewrite ?IH; done. Qed.

Lemma queued_sub q j q' : queued q ≡ₚ j :: queued q' -> forall e, e ∈ queued q' -> e ∈ queued q.
Proof. intros H e He. rewrite H. by right. Qed.

Lemma jstep_gen s s' : jstep s s' -> s_gen s <= s_gen s'.
Proof. destruct 1; cbn; lia. Qed.

Lemma run_same n s i x y (fin' : list ioctl_job) :
  jinv n s -> s_workers s !! i = Some x ->
  option_list (match y with W_run j => Some j | _ => None end) ++ fin' ≡ₚ
  option_list (match x with W_run j => Some j | _ => None end) ++ s_finished s ->
  s_accepted s ≡ₚ queued (s_queue s) ++ running (<[i := y]> (s_workers s)) ++ fin' \/
  (exists j, y = W_run j).
Proof.
  intros Hi Hx Hf. destruct y as [| g | | j |]; [left | left | left | right; by eexists | left];
  rewrite (ji_all _ _ Hi); apply Permutation_app_head; cbn in Hf; rewrite Hf;
  pose proof (running_insert (s_workers s) i x) as Hr;
  match goal with |- context [<[i := ?y]> _] => specialize (Hr y Hx) end; cbn in Hr; rewrite Hr;
  rewrite !app_assoc; apply Permutation_app_tail, Permutation_app_comm.
Qed.

Lemma jstep_inv n s s' : (0 < n)%nat -> jinv n s -> 0 <= s_gen s -> s_gen s' < 2 ^ 32 -> jstep s s' -> jinv n s'.
Proof.
  intros Hn Hi H0 Hb Hs.
  destruct Hs as [s j q' Hsg He|s j q' r Hsg He|s i Hsg Hw|s Hsg Hw|s i j q' Hex Hw Hd|s i Hex Hw Hd|s i g Hw|s i Hw
                 |s i j Hw|s i Hex Hw|s Hsg]; cbn [s_gen with_workers] in Hb.
  - destruct (enqueue_spec j _ _ _ He) as [El Hq]. destruct Hi as [[L1 L2] A R G Nw D K]. split; cbn; try done.
    + split; [congruence | done].
    + rewrite A, Hq. cbn. by rewrite <- Permutation_cons_append.
    + intros i g Hg. specialize (G i g Hg). lia.
    + intros i Hg. specialize (G i _ Hg). lia.
    + auto.
  - destruct (enqueue_spec j _ _ _ He) as (El & -> & -> & Hful). destruct Hi as [[L1 L2] A R G Nw D K]. split; cbn; try done.
    + apply Forall_app. split; [done |]. by repeat constructor.
    + intros Hx Hne. destruct (K Hx Hne) as [?|?]; [congruence | by right].
  - assert (Hrun := run_same n s i _ W_loop (s_finished s) Hi Hw ltac:(done)). destruct Hrun as [Hrun|[]]; [|done].
    apply (move_inv n s i W_sleep W_loop); try done; [left; done | apply Hi | right; split; [exact I | done]].
  - destruct Hi as [[L1 L2] A R G Nw D K]. split; cbn; try done. intros Hx Hne. right.
    destruct (s_workers s !! 0%nat) as [p|] eqn:E; [|apply lookup_ge_None in E; lia].
    exists 0%nat, p. split; [done |]. destruct p; cbn; try done.
    + intros ->. by apply Hne, (Nw 0%nat).
    + assert (0 < hits w_asleep (s_workers s)) by (apply hits_pos; eauto). lia.
    + by apply (D Hx 0%nat).
  - pose proof (dequeue_spec (s_queue s)) as Hq. rewrite Hd in Hq. destruct Hq as [El Hq].
    rewrite <- Hex. apply (move_inv n s i W_loop (W_run j)); try done; [by left | rewrite El; apply Hi | |].
    + rewrite (ji_all _ _ Hi), Hq. pose proof (running_insert (s_workers s) i W_loop (W_run j) Hw) as Hr. cbn in Hr.
      rewrite <- Hr. cbn. by rewrite Permutation_middle.
    + right. split; [exact I | by eapply queued_sub].
  - pose proof (dequeue_spec (s_queue s)) as Hq. rewrite Hd in Hq.
    assert (Hrun := run_same n s i _ (W_sampled (s_gen s)) (s_finished s) Hi Hw ltac:(done)). destruct Hrun as [Hrun|[]]; [|done].
    apply (move_inv n s i W_loop); try done; [by left | apply Hi | | by left].
    intros g [= <-]. split; [lia | done].
  - pose proof (ji_gen _ _ Hi i g Hw) as Hg. rewrite !u32_small by lia. destruct (g =? s_gen s) eqn:E; nv_bool.
    + subst g. pose proof (ji_now _ _ Hi i Hw) as Hq.
      assert (Hrun := run_same n s i _ W_sleep (s_finished s) Hi Hw ltac:(done)). destruct Hrun as [Hrun|[]]; [|done].
      apply (move_inv n s i (W_sampled (s_gen s))); try done; [by left | apply Hi | by left].
    + assert (Hrun := run_same n s i _ W_loop (s_finished s) Hi Hw ltac:(done)). destruct Hrun as [Hrun|[]]; [|done].
      apply (move_inv n s i (W_sampled g)); try done; [by left | apply Hi | right; split; [exact I | done]].
  - assert (Hrun := run_same n s i _ W_loop (s_finished s) Hi Hw ltac:(done)). destruct Hrun as [Hrun|[]]; [|done].
    apply (move_inv n s i W_sleep); try done; [by left | apply Hi | right; split; [exact I | done]].
  - assert (Hrun := run_same n s i _ W_loop (s_finished s ++ [j]) Hi Hw ltac:(cbn; by rewrite Permutation_app_comm)).
    destruct Hrun as [Hrun|[]]; [|done].
    apply (move_inv n s i (W_run j)); try done; [by left | apply Hi | right; split; [exact I | done]].
  - assert (Hrun := run_same n s i _ W_done (s_finished s) Hi Hw ltac:(done)). destruct Hrun as [Hrun|[]]; [|done].
    destruct Hi as [[L1 L2] A R G Nw D K]. split; cbn; try done; try congruence.
    + by rewrite length_insert.
    + intros k g [(_ & E & _)|[_ Hk]]%list_lookup_insert_Some; [done | by eapply G].
    + intros k [(_ & E & _)|[_ Hk]]%list_lookup_insert_Some; [done | by eapply Nw].
  - destruct Hi as [[L1 L2] A R G Nw D K]. split; cbn; try done.
    + by rewrite length_fmap.
    + by rewrite running_fmap_wake.
    + intros i g. rewrite list_lookup_fmap. destruct (s_workers s !! i) as [[]|] eqn:E; cbn; try done.
      intros [= ->]. specialize (G i g E). lia.
    + intros i. rewrite list_lookup_fmap. destruct (s_workers s !! i) as [[]|] eqn:E; cbn; try done.
      intros [= ->]. specialize (G i _ E). lia.
Qed.

Lemma jreach_inv n s : (0 < n)%nat -> jreach n s -> s_gen s < 2 ^ 32 -> jinv n s /\ 0 <= s_gen s.
Proof.
  intros Hn. induction 1 as [|s s' _ IH Hs]; intros Hb.
  - split; [|done]. unfold j_init. split; cbn; try done.
    + split; [done | apply length_replicate].
    + unfold running. clear. induction n as [|m IHm]; [done |]. apply IHm.
    + intros i g Hg. by apply lookup_replicate in Hg as [? _].
    + intros _ i Hg. by apply lookup_replicate in Hg as [? _].
  - pose proof (jstep_gen s s' Hs). destruct IH as [Hi H0]; [lia |]. split; [by eapply jstep_inv | lia].
Qed.

(** [jobs_conserved]: in every interleaving of the reader and any number of
    workers (with fewer than 2^32 signals), every accepted job is in exactly one
    place - waiting, running on one worker, or finished once - and every job that
    was not accepted was answered with ENOMEM. *)
Theorem jobs_conserved (n : nat) (s : jstate) :
  (0 < n)%nat -> jreach n s -> s_gen s < 2 ^ 32 ->
  s_accepted s ≡ₚ queued (s_queue s) ++ running (s_workers s) ++ s_finished s /\
  (length (queued (s_queue s)) <= MAX_INFLIGHT)%nat /\
  Forall (fun p => snd p = fail_resp (fst p) ENOMEM) (s_refused s).
Proof.
  intros Hn Hr Hb. destruct (jreach_inv n s Hn Hr Hb) as [[[L1 L2] A R G Nw D K] _]. split_and!; try done.
  rewrite <- L1. clear. unfold queued. induction (s_queue s) as [|[j|] q IH]; cbn in *; lia.
Qed.

Inductive jsteps : jstate -> jstate -> Prop :=
| jss_refl s : jsteps s s
| jss_step s s1 s2 : jstep s s1 -> jsteps s1 s2 -> jsteps s s2.

(** A worker that is awake can take a waiting job. *)
Lemma awake_takes n s i p :
  jinv n s -> 0 <= s_gen s < 2 ^ 32 -> s_exiting s = false -> queued (s_queue s) <> [] ->
  s_workers s !! i = Some p -> awake (s_gen s) p ->
  exists s' j, jsteps s s' /\ s_workers s' !! i = Some (W_run j) /\ j ∈ queued (s_queue s).
Proof.
  intros Hi Hg Hex Hq Hw Ha. pose proof (dequeue_spec (s_queue s)) as Hd.
  destruct (dequeue_scan (s_queue s)) as [[j q']|] eqn:E; [|done]. destruct Hd as [_ Hd].
  assert (j ∈ queued (s_queue s)) as Hj by (rewrite Hd; left).
  assert (i < length (s_workers s))%nat as Hlt by (by eapply lookup_lt_Some).
  assert (forall fin, exists s', jsteps (JS (s_queue s) (s_gen s) (s_signal s) false (<[i := W_loop]> (s_workers s)) (s_accepted s) fin (s_refused s)) s' /\
    s_workers s' !! i = Some (W_run j)) as Hloop.
  { intros fin. eexists. split; [eapply jss_step; [|apply jss_refl]; eapply (js_take _ i j q'); cbn; try done; by rewrite list_lookup_insert_eq |].
    cbn. rewrite list_lookup_insert_eq by (by rewrite length_insert). done. }
  destruct s as [q gen sg ex ws acc fin ref]. cbn in *. subst ex.
  destruct p as [|g| |j'|]; cbn in Ha; try done.
  - eexists _, j. split; [eapply jss_step; [|apply jss_refl]; eapply (js_take _ i j q'); done |].
    cbn. by rewrite list_lookup_insert_eq.
  - destruct (Hloop fin) as (s' & Hs & Hw'). exists s', j. split_and!; try done.
    eapply jss_step; [apply (js_block (JS q gen sg false ws acc fin ref) i g Hw) |]. cbn.
    pose proof (ji_gen _ _ Hi i g Hw) as Hgg. cbn in Hgg. rewrite !u32_small by lia.
    rewrite (proj2 (Z.eqb_neq _ _) Ha). exact Hs.
  - destruct (Hloop (fin ++ [j'])) as (s' & Hs & Hw'). exists s', j. split_and!; try done.
    eapply jss_step; [apply (js_finish (JS q gen sg false ws acc fin ref) i j' Hw) |]. exact Hs.
Qed.

(** [jobs_not_stuck]: while a job waits, the wake-up call was made and the stub is
    not shutting down, the pool cannot be asleep: some worker is running a job,
    scanning, or about to return from its wait, and in at most two of its own
    steps it takes a waiting job. *)
Theorem jobs_not_stuck (n : nat) (s : jstate) :
  (0 < n)%nat -> jreach n s -> s_gen s < 2 ^ 32 -> s_exiting s = false -> s_signal s = false ->
  queued (s_queue s) <> [] ->
  exists i p, s_workers s !! i = Some p /\ awake (s_gen s) p /\
    exists s' j, jsteps s s' /\ s_workers s' !! i = Some (W_run j) /\ j ∈ queued (s_queue s).
Proof.
  intros Hn Hr Hb Hex Hsg Hq. destruct (jreach_inv n s Hn Hr Hb) as [Hi H0].
  destruct (ji_awake _ _ Hi Hex Hq) as [?|(i & p & Hw & Ha)]; [congruence |].
  exists i, p. split_and!; try done. by eapply awake_takes.
Qed.

(** [interrupt_exact]: an interrupt for a transaction signals the thread of a
    worker whose current transaction it is, and nobody when no worker runs it;
    the idle mark 0 is never a target. *)
Theorem interrupt_exact (target : Z) (slots : list (Z * Z)) :
  match interrupt_txn target slots with
  | Some tid => target <> 0 /\ (target, tid) ∈ slots
  | None => target = 0 \/ (forall tid, 0 < tid -> (target, tid) ∈ slots -> NoDup (fst <$> slots) -> False)
  end.
Proof.
  unfold interrupt_txn. destruct (target =? 0) eqn:E; nv_bool; [by left |].
  induction slots as [|[txn tid] slots IH]; cbn [interrupt_loop].
  - right. intros tid _ H _. by apply not_elem_of_nil in H.
  - destruct (txn =? target) eqn:Et; nv_bool.
    + subst txn. destruct (0 <? tid) eqn:E0; nv_bool; [split; [done | left] |].
      right. intros t Ht [[= ->]|Hin]%elem_of_cons Hnd; [lia |]. cbn in Hnd. apply NoDup_cons in Hnd as [Hni _].
      apply Hni, list_elem_of_fmap. by exists (target, t).
    + destruct (interrupt_loop target slots) as [t|].
      * destruct IH as [? ?]. split; [done | by right].
      * right. destruct IH as [?|IH]; [done |]. intros t Ht [[= -> _]|Hin]%elem_of_cons Hnd; [done |].
        cbn in Hnd. apply NoDup_cons in Hnd as [_ Hnd]. by eapply IH.
Qed.

(** ** Examples *)

Definition ex_job : ioctl_job := Job 1 1 0 0 ∅ 0 ∅ 0.
Definition ex_js1 : jstate := JS (<[0%nat := Some ex_job]> job_queue_init) 1 true false [W_loop; W_loop] [ex_job] [] [].
Definition ex_js2 : jstate := JS (<[0%nat := Some ex_job]> job_queue_init) 1 false false [W_loop; W_loop] [ex_job] [] [].

Lemma ex_jreach : jreach 2 ex_js2.
Proof.
  eapply jr_step; [eapply jr_step; [apply jr_init |] |].
  - apply (js_put (j_init 2) ex_job (<[0%nat := Some ex_job]> job_queue_init) eq_refl). reflexivity.
  - apply (js_wake_none ex_js1 eq_refl). reflexivity.
Qed.

Lemma jobs_conserved_witness : [ex_job] ≡ₚ queued (s_queue ex_js2) ++ running (s_workers ex_js2) ++ [].
Proof. exact (proj1 (jobs_conserved 2 ex_js2 ltac:(lia) ex_jreach ltac:(reflexivity))). Defined.

Lemma jobs_not_stuck_witness : exists i p, s_workers ex_js2 !! i = Some p /\ awake 1 p.
Proof.
  destruct (jobs_not_stuck 2 ex_js2 ltac:(lia) ex_jreach ltac:(reflexivity) eq_refl eq_refl ltac:(discriminate))
    as (i & p & H1 & H2 & _).
  exists i, p. split; [exact H1 | exact H2].
Defined.

End StubJobs.
