(* ===== verification/IsoPending.v ===== *)
(** * Ioctl transactions between QEMU and a stub ([src/qemu/nvkvm_isolate.c])

    [nvkvm_isolate_ioctl] keeps a record of each call on the caller's stack, links
    it into the isolate's list and sleeps; the reader thread finds the record by
    the transaction id of a response, fills the caller's buffers and wakes it.
    Sections under [iso->lock] are single steps; the stub may answer anything. *)

From S2P Require Import Prelude.
Local Open Scope Z_scope.

Module IsoPending.

Definition ECONNRESET : Z := 104.

(** [struct nvkvm_pending_ioctl], and the result of the caller's sends.  A buffer
    is [None] for a null pointer. *)
Record frame := Frame {
  f_txn : Z;
  f_done : bool;
  f_param : option (list Z);
  f_param_cap : Z;
  f_aux : option (list Z);
  f_aux_cap : Z;
  f_error : Z;
  f_retval : Z;
  f_nvstatus : Z;
  f_fault : Z;
  f_sr : Z
}.

(** [struct isolate_resp_ioctl]. *)
Record rhdr := RHdr {
  h_txn : Z;
  h_param_size : Z;
  h_aux_size : Z;
  h_retval : Z;
  h_nvstatus : Z;
  h_fault : Z
}.

Inductive outcome :=
| O_err (e : Z)
| O_ok (retval nvstatus fault : Z).

(** Where the reader thread is; [p] is the record it took off the list. *)
Inductive rpc :=
| R_recv
| R_param (h : rhdr) (p : option nat)
| R_aux (h : rhdr) (p : option nat)
| R_finish (h : rhdr) (p : option nat)
| R_exit (p : option nat)
| R_gone (p : option nat).

(** Callers are numbered; [frames] holds the records of the callers that have not
    returned.  [ub] is set when a record that is gone is accessed; [issued]
    counts the transaction ids, [delivered] the responses handed over. *)
Record pstate := PS {
  alive : bool;
  next_txn : Z;
  issued : Z;
  plist : list nat;
  frames : gmap nat frame;
  reader : rpc;
  ub : bool;
  outcomes : gmap nat (Z * outcome);
  delivered : list (nat * rhdr)
}.

Definition p_init : pstate := PS true 1 0 [] ∅ R_recv false ∅ [].

Definition set_reader (r : rpc) (s : pstate) : pstate :=
  PS (alive s) (next_txn s) (issued s) (plist s) (frames s) r (ub s) (outcomes s) (delivered s).

(** ** The caller *)

Definition bump_txn (t : Z) : Z := let t' := u32 (t + 1) in if t' =? 0 then 1 else t'.

Definition take_txn (s : pstate) : pstate :=
  PS (alive s) (bump_txn (next_txn s)) (issued s + 1) (plist s) (frames s) (reader s) (ub s) (outcomes s) (delivered s).

(** Up to the wait; [sr] is what sending the command gives. *)
Definition ioctl_begin (c : nat) (param aux : list Z) (sr : Z) (s : pstate) : pstate :=
  if alive s then
    let f := Frame (next_txn s) false (Some param) (Z.of_nat (length param)) (Some aux) (Z.of_nat (length aux)) 0 0 0 0 sr in
    let s1 := take_txn s in
    PS (alive s1) (next_txn s1) (issued s1) (c :: plist s1) (<[c := f]> (frames s1)) (reader s1) (ub s1)
       (outcomes s1) (delivered s1)
  else PS (alive s) (next_txn s) (issued s) (plist s) (frames s) (reader s) (ub s)
         (<[c := (0, O_err (- ENOENT))]> (outcomes s)) (delivered s).

Definition result_of (f : frame) : outcome :=
  if (f_sr f <? 0) && (f_error f =? 0) then O_err (f_sr f)
  else if negb (f_error f =? 0) then O_err (f_error f)
  else O_ok (f_retval f) (f_nvstatus f) (f_fault f).

Definition unlink_frame (c : nat) (l : list nat) : list nat :=
  match list_find (fun x => x = c) l with
  | Some (i, _) => delete i l
  | None => l
  end.

(** After the wait: unlink the record if it is still in the list, and return. *)
Definition ioctl_end (c : nat) (f : frame) (s : pstate) : pstate :=
  PS (alive s) (next_txn s) (issued s) (unlink_frame c (plist s)) (delete c (frames s)) (reader s) (ub s)
     (<[c := (f_txn f, result_of f)]> (outcomes s)) (delivered s).

(** ** The reader *)

(** An access to the record of [c]. *)
Definition touch (c : nat) (g : frame -> frame) (s : pstate) : pstate :=
  match frames s !! c with
  | Some f => PS (alive s) (next_txn s) (issued s) (plist s) (<[c := g f]> (frames s)) (reader s) (ub s)
                (outcomes s) (delivered s)
  | None => PS (alive s) (next_txn s) (issued s) (plist s) (frames s) (reader s) true (outcomes s) (delivered s)
  end.

Definition txn_is (s : pstate) (txn : Z) (c : nat) : Prop :=
  from_option (fun f => f_txn f = txn) False (frames s !! c).

#[export] Instance txn_is_dec s txn c : Decision (txn_is s txn c).
Proof. unfold txn_is. destruct (frames s !! c); cbn; apply _. Defined.

(** The walk over the list reads every record up to the one found. *)
Definition walk_ok (s : pstate) : bool := forallb (fun c => bool_decide (is_Some (frames s !! c))) (plist s).

Definition reader_header (h : rhdr) (s : pstate) : pstate :=
  let p := list_find (txn_is s (h_txn h)) (plist s) in
  let l := match p with Some (i, _) => delete i (plist s) | None => plist s end in
  PS (alive s) (next_txn s) (issued s) l (frames s) (R_param h (snd <$> p)) (ub s || negb (walk_ok s))
     (outcomes s) (delivered s).

(** One message received into a buffer of [cap] bytes. *)
Definition recv_into (cap : Z) (m old : list Z) : list Z :=
  let got := take (Z.to_nat cap) m in got ++ drop (length got) old.

Definition set_param (b : option (list Z)) (f : frame) : frame :=
  Frame (f_txn f) (f_done f) b (f_param_cap f) (f_aux f) (f_aux_cap f) (f_error f) (f_retval f) (f_nvstatus f) (f_fault f) (f_sr f).

Definition set_aux (b : option (list Z)) (f : frame) : frame :=
  Frame (f_txn f) (f_done f) (f_param f) (f_param_cap f) b (f_aux_cap f) (f_error f) (f_retval f) (f_nvstatus f) (f_fault f) (f_sr f).

(** The blob that follows a header: [m] is the message, [None] when the socket is
    closed.  It goes to the buffer, or is drained and the pointer cleared. *)
Definition reader_param (m : option (list Z)) (h : rhdr) (p : option nat) (s : pstate) : pstate :=
  if h_param_size h =? 0 then set_reader (R_aux h p) s
  else
    match p with
    | None => set_reader (R_aux h p) s
    | Some c =>
        match frames s !! c with
        | None => touch c id s
        | Some f =>
            match f_param f with
            | Some b =>
                if h_param_size h <=? u32 (f_param_cap f) then
                  match m with
                  | Some m => set_reader (R_aux h p) (touch c (set_param (Some (recv_into (f_param_cap f) m b))) s)
                  | None => set_reader (R_exit p) s
                  end
                else set_reader (R_aux h p) (touch c (set_param None) s)
            | None => set_reader (R_aux h p) (touch c (set_param None) s)
            end
        end
    end.

Definition reader_aux (m : option (list Z)) (h : rhdr) (p : option nat) (s : pstate) : pstate :=
  if h_aux_size h =? 0 then set_reader (R_finish h p) s
  else
    match p with
    | None => set_reader (R_finish h p) s
    | Some c =>
        match frames s !! c with
        | None => touch c id s
        | Some f =>
            match f_aux f with
            | Some b =>
                if h_aux_size h <=? u32 (f_aux_cap f) then
                  match m with
                  | Some m => set_reader (R_finish h p) (touch c (set_aux (Some (recv_into (f_aux_cap f) m b))) s)
                  | None => set_reader (R_exit p) s
                  end
                else set_reader (R_finish h p) (touch c (set_aux None) s)
            | None => set_reader (R_finish h p) (touch c (set_aux None) s)
            end
        end
    end.

Definition complete (h : rhdr) (f : frame) : frame :=
  Frame (f_txn f) true (f_param f) (f_param_cap f) (f_aux f) (f_aux_cap f) 0 (h_retval h) (h_nvstatus h) (h_fault h) (f_sr f).

Definition log_delivery (c : nat) (h : rhdr) (s : pstate) : pstate :=
  PS (alive s) (next_txn s) (issued s) (plist s) (frames s) (reader s) (ub s) (outcomes s) ((c, h) :: delivered s).

Definition reader_finish (h : rhdr) (p : option nat) (s : pstate) : pstate :=
  set_reader R_recv (match p with Some c => log_delivery c h (touch c (complete h) s) | None => s end).

Definition fail_frame (f : frame) : frame :=
  Frame (f_txn f) true (f_param f) (f_param_cap f) (f_aux f) (f_aux_cap f) (- ECONNRESET) (f_retval f) (f_nvstatus f) (f_fault f) (f_sr f).

(** The code after [reader_exit:]: wake every caller in the list. *)
Definition reader_exit_all (p : option nat) (s : pstate) : pstate :=
  let s1 := foldr (fun c => touch c fail_frame) s (plist s) in
  PS false (next_txn s1) (issued s1) [] (frames s1) (R_gone p) (ub s1) (outcomes s1) (delivered s1).

(** ** Runs *)

Inductive pstep : pstate -> pstate -> Prop :=
| ps_call s c param aux sr :
    frames s !! c = None -> outcomes s !! c = None -> pstep s (ioctl_begin c param aux sr s)
| ps_return s c f :
    frames s !! c = Some f -> f_done f = true -> pstep s (ioctl_end c f s)
| ps_other s : pstep s (take_txn s)
| ps_kill s :
    pstep s (PS false (next_txn s) (issued s) (plist s) (frames s) (reader s) (ub s) (outcomes s) (delivered s))
| ps_header s h : reader s = R_recv -> pstep s (reader_header h s)
| ps_eof s : reader s = R_recv -> pstep s (set_reader (R_exit None) s)
| ps_param s m h p : reader s = R_param h p -> pstep s (reader_param m h p s)
| ps_aux s m h p : reader s = R_aux h p -> pstep s (reader_aux m h p s)
| ps_finish s h p : reader s = R_finish h p -> pstep s (reader_finish h p s)
| ps_exit s p : reader s = R_exit p -> pstep s (reader_exit_all p s).

Inductive preach : pstate -> Prop :=
| pr_init : preach p_init
| pr_step s s' : preach s -> pstep s s' -> preach s'.

Inductive psteps : pstate -> pstate -> Prop :=
| pss_refl s : psteps s s
| pss_step s1 s2 s3 : pstep s1 s2 -> psteps s2 s3 -> psteps s1 s3.

(** ** Invariants *)

Definition claimed (r : rpc) : option nat :=
  match r with
  | R_recv => None
  | R_param _ p | R_aux _ p | R_finish _ p | R_exit p | R_gone p => p
  end.

(** The transaction id of the response in hand. *)
Definition in_hand (r : rpc) : option Z :=
  match r with R_param h _ | R_aux h _ | R_finish h _ => Some (h_txn h) | _ => None end.

Definition waiting (s : pstate) (c : nat) : Prop := exists f, frames s !! c = Some f /\ f_done f = false.

Record pinv (s : pstate) : Prop := {
  pi_ub : ub s = false;
  pi_list : forall c, c ∈ plist s -> waiting s c;
  pi_nodup : NoDup (plist s);
  pi_claim : forall c, claimed (reader s) = Some c -> (c ∉ plist s) /\ waiting s c;
  pi_wait : forall c, waiting s c -> (c ∈ plist s) \/ claimed (reader s) = Some c;
  pi_gone : forall p, reader s = R_gone p -> alive s = false /\ plist s = []
}.

(** An update of the claimed record that leaves it waiting. *)
Lemma waiting_touch c g s x :
  (forall f, f_done (g f) = f_done f) -> (waiting (touch c g s) x <-> waiting s x).
Proof.
  intros Hg. unfold waiting, touch. destruct (frames s !! c) as [f|] eqn:E; [|done]. cbn [frames].
  destruct (decide (x = c)) as [->|].
  - rewrite lookup_insert_eq, E. split; intros (f' & [= <-] & Hd); eexists; (split; [done |]); congruence.
  - by rewrite lookup_insert_ne by done.
Qed.

Lemma touch_ub c g s : waiting s c -> ub (touch c g s) = ub s.
Proof. intros (f & Hf & _). unfold touch. by rewrite Hf. Qed.

Lemma touch_rest c g s : plist (touch c g s) = plist s /\ alive (touch c g s) = alive s /\ reader (touch c g s) = reader s.
Proof. unfold touch. by destruct (frames s !! c). Qed.

(** The reader moves on, with the same record in hand. *)
Lemma pinv_move s s' :
  pinv s -> ub s' = false -> plist s' = plist s -> (forall c, waiting s' c <-> waiting s c) ->
  claimed (reader s') = claimed (reader s) ->
  (forall p, reader s' = R_gone p -> alive s' = false /\ plist s' = []) -> pinv s'.
Proof.
  intros [U L N C W G] Hu Hl Hw Hc Hg. split; try done; rewrite ?Hl, ?Hc; intros; rewrite ?Hw in *; eauto.
Qed.

Lemma walk_waiting s : (forall c, c ∈ plist s -> waiting s c) -> walk_ok s = true.
Proof.
  intros H. apply forallb_forall. intros c Hc%list_elem_of_In%H. destruct Hc as (f & Hf & _).
  by rewrite bool_decide_true by eauto.
Qed.

Lemma NoDup_delete_split {A} (l : list A) i x :
  NoDup l -> l !! i = Some x ->
  NoDup (delete i l) /\ (x ∉ delete i l) /\ (forall y, (y ∈ l) <-> (y = x \/ y ∈ delete i l)).
Proof.
  intros Hn Hi. pose proof (delete_Permutation l i x Hi) as Hp. rewrite Hp in Hn. apply NoDup_cons in Hn as [H1 H2].
  split_and!; [done | done |]. intros y. rewrite Hp at 1. apply elem_of_cons.
Qed.

Lemma touch_all_frames g l s :
  NoDup l -> (forall c, c ∈ l -> waiting s c) ->
  let s' := foldr (fun c => touch c g) s l in
  ub s' = ub s /\
  forall x, frames s' !! x = if decide (x ∈ l) then g <$> (frames s !! x) else frames s !! x.
Proof.
  intros Hn. induction Hn as [|c l Hc Hn IH]; intros Hw s'; [done |].
  destruct IH as [IU IF]; [intros; apply Hw; set_solver |]. subst s'. cbn [foldr].
  destruct (Hw c) as (f & Hf & Hd); [set_solver |].
  set (s1 := foldr (fun c => touch c g) s l) in *.
  assert (frames s1 !! c = Some f) as H1 by (by rewrite IF, decide_False).
  unfold touch. rewrite H1. cbn [ub frames]. split; [done |].
  intros x. destruct (decide (x = c)) as [->|Hx].
  - rewrite lookup_insert_eq, decide_True by set_solver. by rewrite Hf.
  - rewrite lookup_insert_ne, IF by done. by do 2 destruct (decide _); try set_solver.
Qed.

Lemma pinv_call s c param aux sr :
  pinv s -> frames s !! c = None -> pinv (ioctl_begin c param aux sr s).
Proof.
  intros [U L N C W G] Hc. unfold ioctl_begin. destruct (alive s) eqn:Ea; [|by split].
  assert (forall x, waiting s x -> x <> c) as Hne by (intros x (f & Hf & _) ->; congruence).
  assert (forall x, waiting s x <-> (x <> c /\ exists f, <[c := Frame (next_txn s) false (Some param) (Z.of_nat (length param))
    (Some aux) (Z.of_nat (length aux)) 0 0 0 0 sr]> (frames s) !! x = Some f /\ f_done f = false)) as Hw.
  { intros x. split.
    - intros Hx. split; [by apply Hne |]. destruct Hx as (f & Hf & Hd). exists f. rewrite lookup_insert_ne; [done |].
      intros <-. congruence.
    - intros (Hx & f & Hf & Hd). exists f. by rewrite lookup_insert_ne in Hf by done. }
  split; cbn [ub plist reader alive take_txn].
  - done.
  - intros x [->|Hx]%elem_of_cons; [|by apply Hw, L]. eexists. cbn. by rewrite lookup_insert_eq.
  - apply NoDup_cons. split; [|done]. intros Hin%L%Hne. done.
  - intros x Hx. destruct (C x Hx) as [H1 H2]. split; [|by apply Hw].
    apply not_elem_of_cons. split; [by apply Hne | done].
  - intros x Hx. destruct (decide (x = c)) as [->|]; [left; set_solver |].
    destruct (W x) as [|]; [by apply Hw | left; set_solver | by right].
  - intros p Hp. destruct (G p Hp). congruence.
Qed.

Lemma pinv_return s c f : pinv s -> frames s !! c = Some f -> f_done f = true -> pinv (ioctl_end c f s).
Proof.
  intros [U L N C W G] Hf Hd. unfold ioctl_end.
  assert (~ waiting s c) as Hnw by (intros (f' & Hf' & Hd'); congruence).
  assert (unlink_frame c (plist s) = plist s) as ->.
  { unfold unlink_frame. destruct (list_find _ _) as [[i x]|] eqn:E; [|done].
    apply list_find_Some in E as (Hi & -> & _). exfalso. apply Hnw, L. by eapply list_elem_of_lookup_2. }
  assert (forall x, (exists f', delete c (frames s) !! x = Some f' /\ f_done f' = false) <-> waiting s x) as Hw.
  { intros x. destruct (decide (x = c)) as [->|]; [|by rewrite lookup_delete_ne by done].
    rewrite lookup_delete_eq. split; [by intros (? & ? & _) | done]. }
  split; cbn [ub plist reader alive]; [done | intros; by apply Hw, L | done | | | done].
  - intros x Hx. destruct (C x Hx). split; [done | by apply Hw].
  - intros x Hx. by apply W, Hw.
Qed.

Lemma pinv_header s h : pinv s -> reader s = R_recv -> pinv (reader_header h s).
Proof.
  intros [U L N C W G] Hr. unfold reader_header. rewrite (walk_waiting s L), U.
  rewrite Hr in W. cbn in W.
  destruct (list_find _ _) as [[i c]|] eqn:E; cbn [snd fmap option_fmap option_map].
  - apply list_find_Some in E as (Hi & _ & _).
    destruct (NoDup_delete_split _ _ _ N Hi) as (N1 & N2 & N3).
    split; cbn [ub plist reader alive claimed]; try done.
    + intros x Hx. apply L, N3. auto.
    + intros x [= <-]. split; [done |]. apply L, N3. auto.
    + intros x [Hx|]%W; [|done]. apply N3 in Hx as [->|]; auto.
  - split; cbn [ub plist reader alive claimed]; try done.
Qed.

Definition gone (r : rpc) : Prop := match r with R_gone _ => True | _ => False end.

Lemma pinv_reader s r : pinv s -> claimed r = claimed (reader s) -> ~ gone r -> pinv (set_reader r s).
Proof. intros I Hc Hg. apply (pinv_move s); try done; [apply I |]. intros p Hp. cbn in Hp. by subst r. Qed.

Lemma pinv_touch s r c g :
  pinv s -> claimed (reader s) = Some c -> claimed r = Some c -> ~ gone r ->
  (forall f, f_done (g f) = f_done f) -> pinv (set_reader r (touch c g s)).
Proof.
  intros I Hs Hc Hr Hg. destruct (pi_claim s I c Hs) as [_ Hw]. apply (pinv_move s); try done; cbn.
  - rewrite touch_ub by done. apply I.
  - apply touch_rest.
  - intros x. apply (waiting_touch c g s x Hg).
  - by rewrite Hc, Hs.
  - intros p ->. done.
Qed.

Ltac reader_move Hp := first [eapply pinv_touch; [| exact Hp | ..] | apply pinv_reader]; cbn; rewrite ?Hp; tauto.

Lemma pinv_param s m h p : pinv s -> reader s = R_param h p -> pinv (reader_param m h p s).
Proof.
  intros I Hr. assert (claimed (reader s) = p) as Hp by (by rewrite Hr). unfold reader_param.
  destruct p as [c|]; [|case_match; reader_move Hp].
  destruct (pi_claim s I c Hp) as [_ (f & Hf & _)]. rewrite Hf.
  repeat case_match; reader_move Hp.
Qed.

Lemma pinv_aux s m h p : pinv s -> reader s = R_aux h p -> pinv (reader_aux m h p s).
Proof.
  intros I Hr. assert (claimed (reader s) = p) as Hp by (by rewrite Hr). unfold reader_aux.
  destruct p as [c|]; [|case_match; reader_move Hp].
  destruct (pi_claim s I c Hp) as [_ (f & Hf & _)]. rewrite Hf.
  repeat case_match; reader_move Hp.
Qed.

Lemma pinv_finish s h p : pinv s -> reader s = R_finish h p -> pinv (reader_finish h p s).
Proof.
  intros I Hr. unfold reader_finish. destruct p as [c|]; [|apply pinv_reader; cbn; rewrite ?Hr; tauto].
  pose proof I as [U L N C W G]. rewrite Hr in *. cbn [claimed] in *.
  destruct (C c eq_refl) as [Hc (f & Hf & Hd)]. unfold touch. rewrite Hf.
  split; cbn [ub plist reader alive frames set_reader log_delivery claimed]; try done.
  - intros x Hx. destruct (L x Hx) as (f' & Hf' & Hd'). exists f'. cbn. rewrite lookup_insert_ne; [done |]. by intros <-.
  - intros x (f' & Hf' & Hd'). cbn in Hf'. left. destruct (decide (x = c)) as [->|].
    { rewrite lookup_insert_eq in Hf'. injection Hf' as <-. done. }
    rewrite lookup_insert_ne in Hf' by done. destruct (W x) as [|[= ->]]; [by exists f' | done | done].
Qed.

Lemma pinv_exit s p : pinv s -> reader s = R_exit p -> pinv (reader_exit_all p s).
Proof.
  intros [U L N C W G] Hr. rewrite Hr in *. cbn [claimed] in *.
  destruct (touch_all_frames fail_frame (plist s) s N L) as [HU HF].
  assert (forall x, waiting (reader_exit_all p s) x <-> ((x ∉ plist s) /\ waiting s x)) as Hw.
  { intros x. unfold waiting, reader_exit_all. cbn [frames]. rewrite HF. destruct (decide _) as [Hx|Hx]; [|naive_solver].
    split; [|by intros []]. intros (f & Hf & Hd). apply fmap_Some in Hf as (f' & _ & ->). done. }
  split; try done.
  - cbn. by rewrite HU.
  - intros x Hx. cbn in Hx. by apply elem_of_nil in Hx.
  - by apply NoDup_nil.
  - intros x Hx. destruct (C x Hx). split; [apply not_elem_of_nil | by apply Hw].
  - intros x [H1 H2]%Hw. right. cbn. by destruct (W x H2).
Qed.

Lemma pinv_step s s' : pinv s -> pstep s s' -> pinv s'.
Proof.
  intros I Hs. destruct Hs; eauto using pinv_call, pinv_return, pinv_header, pinv_param, pinv_aux, pinv_finish, pinv_exit.
  - apply (pinv_move s); try done; apply I.
  - destruct I as [U L N C W G]. split; try done. intros p Hp. destruct (G p Hp). done.
  - apply pinv_reader; [done | | cbn; tauto]. cbn. by destruct (reader s).
Qed.

Lemma preach_inv s : preach s -> pinv s.
Proof.
  induction 1 as [|s s' _ IH Hs]; [|by eapply pinv_step]. split; try done.
  - intros c Hc. by apply elem_of_nil in Hc.
  - by apply NoDup_nil.
  - intros c (f & Hf & _). cbn in Hf. by rewrite lookup_empty in Hf.
Qed.

(** *** Results

    What a record and a returned call owe to the responses delivered. *)

Definition answers (h : rhdr) (txn retval nvstatus fault : Z) : Prop :=
  h_txn h = txn /\ h_retval h = retval /\ h_nvstatus h = nvstatus /\ h_fault h = fault.

Record pres (s : pstate) : Prop := {
  px_hand : forall c f t, claimed (reader s) = Some c -> in_hand (reader s) = Some t -> frames s !! c = Some f -> f_txn f = t;
  px_buf : forall c f, frames s !! c = Some f ->
    from_option (fun b => Z.of_nat (length b) = f_param_cap f) True (f_param f) /\
    from_option (fun b => Z.of_nat (length b) = f_aux_cap f) True (f_aux f);
  px_done : forall c f, frames s !! c = Some f ->
    (f_error f = 0 \/ f_error f = - ECONNRESET) /\
    (f_done f = true -> f_error f = 0 ->
     exists h, (c, h) ∈ delivered s /\ answers h (f_txn f) (f_retval f) (f_nvstatus f) (f_fault f));
  px_out : forall c t r n fl, outcomes s !! c = Some (t, O_ok r n fl) ->
    exists h, (c, h) ∈ delivered s /\ answers h t r n fl;
  px_apart : forall c f, frames s !! c = Some f -> outcomes s !! c = None;
  px_log : NoDup (delivered s).*1;
  px_logged : forall c h, (c, h) ∈ delivered s -> ~ waiting s c /\ (is_Some (frames s !! c) \/ is_Some (outcomes s !! c))
}.

Lemma length_recv_into cap m old :
  Z.of_nat (length old) = cap -> Z.of_nat (length (recv_into cap m old)) = cap.
Proof. intros <-. unfold recv_into. rewrite length_app, length_drop, length_take. lia. Qed.

(** The record in the reader's hand gets a new buffer. *)
Lemma pres_touch s r c g f :
  pres s -> frames s !! c = Some f -> (forall c', claimed r = Some c' -> claimed (reader s) = Some c') ->
  (forall t, in_hand r = Some t -> in_hand (reader s) = Some t) ->
  f_txn (g f) = f_txn f -> f_done (g f) = f_done f -> f_error (g f) = f_error f -> f_retval (g f) = f_retval f ->
  f_nvstatus (g f) = f_nvstatus f -> f_fault (g f) = f_fault f ->
  from_option (fun b => Z.of_nat (length b) = f_param_cap (g f)) True (f_param (g f)) ->
  from_option (fun b => Z.of_nat (length b) = f_aux_cap (g f)) True (f_aux (g f)) ->
  pres (set_reader r (touch c g s)).
Proof.
  intros [A B D O P L Q] Hf Hc Hh E1 E2 E3 E4 E5 E6 E7 E8. unfold touch. rewrite Hf.
  split; cbn [set_reader reader frames outcomes delivered].
  - intros x fx t Hx Ht Hfx. destruct (decide (x = c)) as [->|].
    + rewrite lookup_insert_eq in Hfx. injection Hfx as <-. rewrite E1. eauto.
    + rewrite lookup_insert_ne in Hfx by done. eauto.
  - intros x fx Hfx. destruct (decide (x = c)) as [->|]; [|rewrite lookup_insert_ne in Hfx by done; eauto].
    rewrite lookup_insert_eq in Hfx. by injection Hfx as <-.
  - intros x fx Hfx. destruct (decide (x = c)) as [->|]; [|rewrite lookup_insert_ne in Hfx by done; eauto].
    rewrite lookup_insert_eq in Hfx. injection Hfx as <-. rewrite E1, E2, E3, E4, E5, E6. eauto.
  - done.
  - intros x fx Hfx. destruct (decide (x = c)) as [->|]; [eauto | rewrite lookup_insert_ne in Hfx by done; eauto].
  - done.
  - intros x h Hx. destruct (Q x h Hx) as [Q1 Q2]. split.
    + intros (fx & Hfx & Hd). cbn in Hfx. apply Q1. destruct (decide (x = c)) as [->|].
      * rewrite lookup_insert_eq in Hfx. injection Hfx as <-. exists f. by rewrite E2 in Hd.
      * rewrite lookup_insert_ne in Hfx by done. by exists fx.
    + destruct (decide (x = c)) as [->|]; [left; rewrite lookup_insert_eq; eauto | by rewrite lookup_insert_ne by done].
Qed.

Lemma pres_reader s r :
  pres s -> (forall c', claimed r = Some c' -> claimed (reader s) = Some c') ->
  (forall t, in_hand r = Some t -> in_hand (reader s) = Some t) -> pres (set_reader r s).
Proof. intros [A B D O P L Q] Hc Hh. split; try done. cbn. eauto. Qed.

Lemma pres_param s m h p : pinv s -> pres s -> reader s = R_param h p -> pres (reader_param m h p s).
Proof.
  intros I X Hr. unfold reader_param. destruct p as [c|]; [|case_match; by apply pres_reader; rewrite ?Hr].
  destruct (pi_claim s I c) as [_ (f & Hf & _)]; [by rewrite Hr |]. rewrite Hf.
  generalize (px_buf s X c f Hf).
  repeat case_match; intros [B1 B2]; (eapply pres_touch || apply pres_reader); rewrite ?Hr; cbn in *;
    solve [done | eauto using length_recv_into].
Qed.

Lemma pres_aux s m h p : pinv s -> pres s -> reader s = R_aux h p -> pres (reader_aux m h p s).
Proof.
  intros I X Hr. unfold reader_aux. destruct p as [c|]; [|case_match; by apply pres_reader; rewrite ?Hr].
  destruct (pi_claim s I c) as [_ (f & Hf & _)]; [by rewrite Hr |]. rewrite Hf.
  generalize (px_buf s X c f Hf).
  repeat case_match; intros [B1 B2]; (eapply pres_touch || apply pres_reader); rewrite ?Hr; cbn in *;
    solve [done | eauto using length_recv_into].
Qed.

Lemma pres_call s c param aux sr :
  pinv s -> pres s -> frames s !! c = None -> outcomes s !! c = None -> pres (ioctl_begin c param aux sr s).
Proof.
  intros I [A B D O P L Q] Hf Ho.
  assert (forall x h, (x, h) ∈ delivered s -> x <> c) as Hlog.
  { intros x h Hx ->. destruct (Q c h Hx) as [_ [[? ?]|[? ?]]]; congruence. }
  unfold ioctl_begin. destruct (alive s); split; cbn [reader frames outcomes delivered take_txn]; try done.
  - intros x fx t Hx Ht Hfx. destruct (pi_claim s I x Hx) as [_ (f & Hf' & _)].
    rewrite lookup_insert_ne in Hfx by congruence. eauto.
  - intros x fx Hfx. destruct (decide (x = c)) as [->|]; [|rewrite lookup_insert_ne in Hfx by done; eauto].
    rewrite lookup_insert_eq in Hfx. by injection Hfx as <-.
  - intros x fx Hfx. destruct (decide (x = c)) as [->|]; [|rewrite lookup_insert_ne in Hfx by done; eauto].
    rewrite lookup_insert_eq in Hfx. injection Hfx as <-. split; [by left | done].
  - intros x fx Hfx. destruct (decide (x = c)) as [->|]; [done |]. rewrite lookup_insert_ne in Hfx by done. eauto.
  - intros x h Hx. pose proof (Hlog x h Hx). destruct (Q x h Hx) as [Q1 Q2]. unfold waiting. cbn [frames].
    by rewrite lookup_insert_ne by done.
  - intros x t r n fl Hx. destruct (decide (x = c)) as [->|]; [by rewrite lookup_insert_eq in Hx |].
    rewrite lookup_insert_ne in Hx by done. eauto.
  - intros x fx Hfx. rewrite lookup_insert_ne by congruence. eauto.
  - intros x h Hx. destruct (Q x h Hx) as [Q1 Q2]. split; [done |].
    by rewrite lookup_insert_ne by (intros <-; by eapply Hlog).
Qed.

Lemma pres_return s c f :
  pinv s -> pres s -> frames s !! c = Some f -> f_done f = true -> pres (ioctl_end c f s).
Proof.
  intros I [A B D O P L Q] Hf Hd.
  assert (forall x fx, delete c (frames s) !! x = Some fx -> x <> c /\ frames s !! x = Some fx) as Hdel.
  { intros x fx Hx. destruct (decide (x = c)) as [->|]; [by rewrite lookup_delete_eq in Hx |].
    by rewrite lookup_delete_ne in Hx by done. }
  unfold ioctl_end. split; cbn [reader frames outcomes delivered]; try done.
  - intros x fx t Hx Ht [_ Hfx]%Hdel. eauto.
  - intros x fx [_ Hfx]%Hdel. eauto.
  - intros x fx [_ Hfx]%Hdel. eauto.
  - intros x t r n fl Hx. destruct (decide (x = c)) as [->|]; [|rewrite lookup_insert_ne in Hx by done; eauto].
    rewrite lookup_insert_eq in Hx. injection Hx as <- Hx. destruct (D c f Hf) as [_ D2]. unfold result_of in Hx.
    destruct ((f_sr f <? 0) && (f_error f =? 0)); [done |]. destruct (f_error f =? 0) eqn:E; [|done]. nv_bool.
    injection Hx as <- <- <-. by apply D2.
  - intros x fx [Hx Hfx]%Hdel. rewrite lookup_insert_ne by done. eauto.
  - intros x h Hx. destruct (Q x h Hx) as [Q1 Q2]. split.
    + intros (fx & [_ Hfx]%Hdel & Hdx). apply Q1. by exists fx.
    + destruct (decide (x = c)) as [->|]; [right; rewrite lookup_insert_eq; eauto |].
      by rewrite lookup_insert_ne, lookup_delete_ne by done.
Qed.

Lemma pres_header s h : pres s -> reader s = R_recv -> pres (reader_header h s).
Proof.
  intros [A B D O P L Q] Hr. split; try done. cbn [reader_header reader claimed in_hand frames].
  intros c f t Hc [= <-] Hf. apply fmap_Some in Hc as ([i x] & Hi & ->).
  apply list_find_Some in Hi as (_ & Ht & _). unfold txn_is in Ht. cbn in Hf. by rewrite Hf in Ht.
Qed.

Lemma pres_finish s h p : pinv s -> pres s -> reader s = R_finish h p -> pres (reader_finish h p s).
Proof.
  intros I X Hr. unfold reader_finish. destruct p as [c|]; [|by apply pres_reader]. destruct X as [A B D O P L Q].
  destruct (pi_claim s I c) as [_ Hw]; [by rewrite Hr |]. pose proof Hw as (f & Hf & Hd).
  assert (f_txn f = h_txn h) as Ht by (apply (A c); by rewrite ?Hr). unfold touch. rewrite Hf.
  assert (forall (x : nat) (y : rhdr), (x, y) ∈ delivered s -> (x, y) ∈ ((c, h) :: delivered s)) as Hin.
  { intros. apply elem_of_cons. by right. }
  split; cbn [set_reader log_delivery reader frames outcomes delivered]; try done.
  - intros x fx Hfx. destruct (decide (x = c)) as [->|]; [|rewrite lookup_insert_ne in Hfx by done; eauto].
    rewrite lookup_insert_eq in Hfx. injection Hfx as <-. apply (B c f Hf).
  - intros x fx Hfx. destruct (decide (x = c)) as [->|].
    + rewrite lookup_insert_eq in Hfx. injection Hfx as <-. split; [by left |]. intros _ _. exists h. split; [|done].
      apply elem_of_cons. by left.
    + rewrite lookup_insert_ne in Hfx by done. destruct (D x fx Hfx) as [D1 D2]. split; [done |]. intros H1 H2.
      destruct (D2 H1 H2) as (h' & ? & ?). eauto.
  - intros x t r n fl Hx. destruct (O x t r n fl Hx) as (h' & ? & ?). eauto.
  - intros x fx Hfx. destruct (decide (x = c)) as [->|]; [eauto | rewrite lookup_insert_ne in Hfx by done; eauto].
  - cbn. apply NoDup_cons. split; [|done]. intros ([x y] & -> & Hx)%list_elem_of_fmap. by apply Q in Hx as [Hx _].
  - intros x y [[= -> ->]|Hx]%elem_of_cons.
    + split; [|left; rewrite lookup_insert_eq; eauto]. intros (fx & Hfx & Hdx). cbn in Hfx.
      rewrite lookup_insert_eq in Hfx. by injection Hfx as <-.
    + destruct (Q x y Hx) as [Q1 Q2]. assert (x <> c) by (by intros ->). unfold waiting. cbn.
      by rewrite lookup_insert_ne by done.
Qed.

Lemma pres_exit s p : pinv s -> pres s -> reader s = R_exit p -> pres (reader_exit_all p s).
Proof.
  intros I [A B D O P L Q] Hr.
  destruct (touch_all_frames fail_frame (plist s) s (pi_nodup s I) (pi_list s I)) as [_ HF].
  assert (forall l, outcomes (foldr (fun c => touch c fail_frame) s l) = outcomes s /\
                    delivered (foldr (fun c => touch c fail_frame) s l) = delivered s) as HO.
  { induction l as [|c l IH]; [done |]. cbn. unfold touch at 1 3. by case_match. }
  destruct (HO (plist s)) as [HO1 HO2].
  assert (forall x fx, frames (reader_exit_all p s) !! x = Some fx -> exists f, frames s !! x = Some f /\ (fx = f \/ fx = fail_frame f)) as HX.
  { intros x fx Hx. cbn in Hx. rewrite HF in Hx. destruct (decide _); [|eauto].
    apply fmap_Some in Hx as (f & ? & ->). eauto. }
  split; try done; cbn [reader_exit_all outcomes delivered]; rewrite ?HO1, ?HO2; try done.
  - intros x fx (f & Hf & [->| ->])%HX; apply (B x f Hf).
  - intros x fx (f & Hf & [->| ->])%HX; [by apply D |]. split; [by right |]. done.
  - intros x fx (f & Hf & _)%HX. eauto.
  - intros x h Hx. destruct (Q x h Hx) as [Q1 Q2]. split.
    + intros (fx & Hfx & Hd). apply HX in Hfx as (f & Hf & [->| ->]); [|done]. apply Q1. by exists f.
    + destruct Q2 as [[f Hf]|]; [left | by right]. cbn. rewrite HF, Hf. case_match; eauto.
Qed.

Lemma preach_res s : preach s -> pinv s /\ pres s.
Proof.
  induction 1 as [|s s' Hr [I X] Hs].
  - split; [apply preach_inv, pr_init |]. split; cbn; try done.
    + by apply NoDup_nil.
    + intros c h Hc. by apply elem_of_nil in Hc.
  - split; [by eapply pinv_step |].
    destruct Hs; eauto using pres_call, pres_return, pres_header, pres_param, pres_aux, pres_finish, pres_exit.
    + destruct X. by split.
    + destruct X. by split.
    + by apply pres_reader.
Qed.

(** *** Transaction ids *)

Record ptxn (s : pstate) : Prop := {
  pt_issued : 0 <= issued s;
  pt_next : issued s < 2 ^ 32 - 1 -> next_txn s = issued s + 1;
  pt_range : forall c f, frames s !! c = Some f -> issued s <= 2 ^ 32 - 1 -> 1 <= f_txn f <= issued s;
  pt_inj : forall c1 c2 f1 f2, frames s !! c1 = Some f1 -> frames s !! c2 = Some f2 ->
    issued s <= 2 ^ 32 - 1 -> f_txn f1 = f_txn f2 -> c1 = c2
}.

(** The records of [s'] are records of [s], with the same ids. *)
Definition inherits (s s' : pstate) : Prop :=
  forall c f', frames s' !! c = Some f' -> exists f, frames s !! c = Some f /\ f_txn f = f_txn f'.

Lemma inherits_refl s r : inherits s (set_reader r s).
Proof. intros c f Hf. by exists f. Qed.

Lemma inherits_touch s c g : (forall f, f_txn (g f) = f_txn f) -> inherits s (touch c g s).
Proof.
  intros Hg x f' Hx. unfold touch in Hx. destruct (frames s !! c) as [f|] eqn:E; [|by exists f'].
  cbn in Hx. destruct (decide (x = c)) as [->|]; [|rewrite lookup_insert_ne in Hx by done; by exists f'].
  rewrite lookup_insert_eq in Hx. injection Hx as <-. by exists f.
Qed.

Lemma touch_txn c g s : issued (touch c g s) = issued s /\ next_txn (touch c g s) = next_txn s.
Proof. unfold touch. by destruct (frames s !! c). Qed.

Lemma ptxn_keep s s' :
  ptxn s -> issued s' = issued s -> next_txn s' = next_txn s -> inherits s s' -> ptxn s'.
Proof.
  intros [A B C D] E1 E2 H. split; rewrite ?E1, ?E2; try done.
  - intros c f' Hf. destruct (H c f' Hf) as (f & Hf' & <-). eauto.
  - intros c1 c2 f1 f2 H1 H2. destruct (H _ _ H1) as (g1 & ? & <-), (H _ _ H2) as (g2 & ? & <-). eauto.
Qed.

Lemma bump_small t : 1 <= t < 2 ^ 32 - 1 -> bump_txn t = t + 1.
Proof. intros. unfold bump_txn. rewrite u32_small by lia. case_match; nv_bool; lia. Qed.

Lemma ptxn_take s : ptxn s -> ptxn (take_txn s).
Proof.
  intros [A B C D]. split; cbn [take_txn issued next_txn frames].
  - lia.
  - intros H. rewrite B by lia. rewrite bump_small by lia. lia.
  - intros c f Hf H. specialize (C c f Hf). lia.
  - intros c1 c2 f1 f2 H1 H2 H. apply (D c1 c2 f1 f2 H1 H2). lia.
Qed.

Lemma ptxn_call s c param aux sr : ptxn s -> frames s !! c = None -> ptxn (ioctl_begin c param aux sr s).
Proof.
  intros I Hc. unfold ioctl_begin. destruct (alive s); [|destruct I; by split].
  pose proof (ptxn_take s I) as [A B C D]. destruct I as [A0 B0 C0 D0]. cbn [take_txn issued next_txn frames] in *.
  split; cbn [take_txn issued next_txn frames]; try done.
  - intros x f Hf H. destruct (decide (x = c)) as [->|]; [|rewrite lookup_insert_ne in Hf by done; eauto].
    rewrite lookup_insert_eq in Hf. injection Hf as <-. cbn. rewrite B0 by lia. lia.
  - intros x y f1 f2 H1 H2 H E.
    destruct (decide (x = c)) as [->|], (decide (y = c)) as [->|]; [done | | |].
    + rewrite lookup_insert_eq in H1. rewrite lookup_insert_ne in H2 by done. injection H1 as <-. cbn in E.
      specialize (C0 y f2 H2). rewrite B0 in E by lia. lia.
    + rewrite lookup_insert_eq in H2. rewrite lookup_insert_ne in H1 by done. injection H2 as <-. cbn in E.
      specialize (C0 x f1 H1). rewrite B0 in E by lia. lia.
    + rewrite lookup_insert_ne in H1, H2 by done. eauto.
Qed.

Lemma ptxn_blob s r c g : ptxn s -> (forall f, f_txn (g f) = f_txn f) -> ptxn (set_reader r (touch c g s)).
Proof.
  intros I Hg. apply (ptxn_keep s); try done; [apply touch_txn | apply touch_txn |].
  intros x f Hx. by apply (inherits_touch s c g Hg).
Qed.

Lemma ptxn_reader s r : ptxn s -> ptxn (set_reader r s).
Proof. intros I. apply (ptxn_keep s); try done. apply inherits_refl. Qed.

Lemma ptxn_step s s' : pinv s -> ptxn s -> pstep s s' -> ptxn s'.
Proof.
  intros I T Hs. destruct Hs; eauto using ptxn_call, ptxn_take, ptxn_reader.
  - apply (ptxn_keep s); try done. intros x f' Hx. cbn in Hx. exists f'. split; [|done].
    by eapply lookup_delete_Some in Hx as [_ ?].
  - destruct T. by split.
  - apply (ptxn_keep s); try done. intros x f' Hx. by exists f'.
  - unfold reader_param. repeat case_match; auto using ptxn_reader, ptxn_blob.
    apply (ptxn_keep s); [done | apply touch_txn | apply touch_txn | by apply inherits_touch].
  - unfold reader_aux. repeat case_match; auto using ptxn_reader, ptxn_blob.
    apply (ptxn_keep s); [done | apply touch_txn | apply touch_txn | by apply inherits_touch].
  - unfold reader_finish. destruct p; [|by apply ptxn_reader].
    destruct (ptxn_blob s R_recv n (complete h) T) as [A B C D]; [done |]. by split.
  - destruct (touch_all_frames fail_frame (plist s) s (pi_nodup s I) (pi_list s I)) as [_ HF].
    assert (forall l, issued (foldr (fun c => touch c fail_frame) s l) = issued s /\
                      next_txn (foldr (fun c => touch c fail_frame) s l) = next_txn s) as HO.
    { induction l as [|c l [IH1 IH2]]; [done |]. cbn. destruct (touch_txn c fail_frame (foldr (fun c => touch c fail_frame) s l)).
      split; congruence. }
    apply (ptxn_keep s); [done | apply HO | apply HO |].
    intros x f' Hx. cbn in Hx. rewrite HF in Hx. destruct (decide _); [|by exists f'].
    apply fmap_Some in Hx as (f & ? & ->). by exists f.
Qed.

Lemma preach_txn s : preach s -> ptxn s.
Proof.
  induction 1 as [|s s' Hr IH Hs]; [by split |]. eapply ptxn_step; [|done..]. by apply preach_inv.
Qed.

(** ** Properties *)

(** C35. [pending_calls_sound]: whatever the stub sends, in whatever order and how often,
    the reader only touches records of calls that have not returned, and a caller's
    buffers keep the lengths it gave; a call that succeeds returns the fields of a
    response that was delivered to it and carried its own transaction id, and no call
    is given more than one response.  While fewer than [2^32] ids have been used, the
    ids of concurrent calls differ. *)
Theorem pending_calls_sound (s : pstate) :
  preach s ->
  ub s = false /\
  (forall c f b, frames s !! c = Some f ->
     (f_param f = Some b -> Z.of_nat (length b) = f_param_cap f) /\
     (f_aux f = Some b -> Z.of_nat (length b) = f_aux_cap f)) /\
  (forall c t r n fl, outcomes s !! c = Some (t, O_ok r n fl) ->
     exists h, (c, h) ∈ delivered s /\ answers h t r n fl) /\
  NoDup (delivered s).*1 /\
  (issued s < 2 ^ 32 -> forall c1 c2 f1 f2,
     frames s !! c1 = Some f1 -> frames s !! c2 = Some f2 -> f_txn f1 = f_txn f2 -> c1 = c2).
Proof.
  intros Hs. destruct (preach_res s Hs) as [I X]. split_and!; [apply I | | apply X | apply X |].
  - intros c f b Hf. destruct (px_buf s X c f Hf) as [B1 B2]. split; intros E; [by rewrite E in B1 | by rewrite E in B2].
  - intros Hi c1 c2 f1 f2 H1 H2. apply (pt_inj s (preach_txn s Hs) c1 c2 f1 f2 H1 H2). lia.
Qed.

(** [pending_all_woken]: once the reader thread has ended, every call that has not
    returned can return, except one whose record the reader held in its hand
    when the socket closed; new calls are refused at once. *)
Theorem pending_all_woken (s : pstate) (p : option nat) (c : nat) :
  preach s -> reader s = R_gone p -> p <> Some c ->
  (forall f, frames s !! c = Some f ->
     exists s' t o, pstep s s' /\ outcomes s' !! c = Some (t, o) /\ frames s' !! c = None) /\
  (frames s !! c = None -> outcomes s !! c = None -> forall param aux sr,
     outcomes (ioctl_begin c param aux sr s) !! c = Some (0, O_err (- ENOENT))).
Proof.
  intros Hs Hr Hp. pose proof (preach_inv s Hs) as I. destruct (pi_gone s I p Hr) as [Ha Hl]. split.
  - intros f Hf. destruct (f_done f) eqn:Hd.
    + exists (ioctl_end c f s), (f_txn f), (result_of f). split_and!; [by apply ps_return | |]; cbn.
      * by rewrite lookup_insert_eq.
      * by rewrite lookup_delete_eq.
    + exfalso. destruct (pi_wait s I c) as [Hin|Hin]; [by exists f | |].
      * rewrite Hl in Hin. by apply elem_of_nil in Hin.
      * rewrite Hr in Hin. done.
  - intros _ _ param aux sr. unfold ioctl_begin. rewrite Ha. cbn. by rewrite lookup_insert_eq.
Qed.

Lemma gone_stays s s' c :
  pstep s s' -> reader s = R_gone (Some c) -> waiting s c -> outcomes s !! c = None ->
  reader s' = R_gone (Some c) /\ waiting s' c /\ outcomes s' !! c = None.
Proof.
  intros Hs Hr Hw Ho. pose proof Hw as (f & Hf & Hd). destruct Hs as [s x param aux sr Hx1 Hx2|s x fx Hx1 Hx2|s|s|s|s|s|s|s|s];
    try congruence; try done.
  - unfold ioctl_begin. assert (x <> c) by congruence. destruct (alive s); cbn.
    + split_and!; [done | | done]. exists f. cbn. by rewrite lookup_insert_ne.
    + split_and!; [done | done |]. by rewrite lookup_insert_ne.
  - assert (x <> c) by congruence. cbn. split_and!; [done | |].
    + exists f. cbn. by rewrite lookup_delete_ne.
    + by rewrite lookup_insert_ne.
Qed.

Lemma gone_forever s s' c :
  psteps s s' -> reader s = R_gone (Some c) -> waiting s c -> outcomes s !! c = None ->
  waiting s' c /\ outcomes s' !! c = None.
Proof.
  induction 1 as [s|s1 s2 s3 H1 _ IH]; intros Hr Hw Ho; [done |].
  destruct (gone_stays s1 s2 c H1 Hr Hw Ho) as (? & ? & ?). by apply IH.
Qed.

(** [claimed_caller_stranded]: when the socket closes between a response's header
    and its parameter blob, the reader has already taken the caller's record
    off the list and its exit path wakes the list only: that caller waits
    forever, whatever happens afterwards. *)
Theorem claimed_caller_stranded (s s' : pstate) (h : rhdr) (c : nat) (f : frame) (b : list Z) :
  preach s -> reader s = R_param h (Some c) -> frames s !! c = Some f -> f_param f = Some b ->
  0 < h_param_size h <= u32 (f_param_cap f) ->
  psteps (reader_exit_all (Some c) (reader_param None h (Some c) s)) s' ->
  f_done f = false /\ waiting s' c /\ outcomes s' !! c = None.
Proof.
  intros Hs Hr Hf Hb Hsz Hp. destruct (preach_res s Hs) as [I X].
  destruct (pi_claim s I c) as [Hc (f' & Hf' & Hd)]; [by rewrite Hr |]. assert (f' = f) as -> by congruence.
  split; [done |]. revert Hp.
  assert (reader_param None h (Some c) s = set_reader (R_exit (Some c)) s) as ->.
  { unfold reader_param. rewrite (proj2 (Z.eqb_neq _ _)), Hf, Hb, (proj2 (Z.leb_le _ _)) by lia. done. }
  set (s1 := set_reader (R_exit (Some c)) s).
  assert (preach s1) as Hs1.
  { eapply pr_step; [exact Hs |]. assert (s1 = reader_param None h (Some c) s) as ->; [|by apply ps_param].
    unfold reader_param. rewrite (proj2 (Z.eqb_neq _ _)), Hf, Hb, (proj2 (Z.leb_le _ _)) by lia. done. }
  destruct (preach_res s1 Hs1) as [I1 X1].
  pose proof (pinv_exit s1 (Some c) I1 eq_refl) as I2. pose proof (pres_exit s1 (Some c) I1 X1 eq_refl) as X2.
  destruct (pi_claim _ I2 c eq_refl) as [_ Hw]. pose proof Hw as (f2 & Hf2 & _). intros Hp.
  apply (gone_forever _ _ _ Hp eq_refl Hw). by apply (px_apart _ X2 c f2).
Qed.

(** *** Examples *)

Definition ex_h : rhdr := RHdr 1 2 0 0 0 0.
Definition ex_s1 : pstate := ioctl_begin 0 [7; 8] [] 0 p_init.
Definition ex_s2 : pstate := reader_header ex_h ex_s1.
Definition ex_s3 : pstate := reader_finish ex_h (Some 0%nat) (reader_aux None ex_h (Some 0%nat) (reader_param (Some [1; 2; 3]) ex_h (Some 0%nat) ex_s2)).

Lemma ex_pending2 : preach ex_s2.
Proof.
  eapply pr_step; [|apply ps_header; reflexivity]. eapply pr_step; [apply pr_init |].
  apply ps_call; reflexivity.
Defined.

Lemma pending_calls_sound_witness : ub ex_s3 = false /\ NoDup (delivered ex_s3).*1.
Proof.
  assert (preach ex_s3) as H.
  { eapply pr_step; [|apply ps_finish; reflexivity]. eapply pr_step; [|apply ps_aux; reflexivity].
    eapply pr_step; [apply ex_pending2 |]. apply ps_param. reflexivity. }
  destruct (pending_calls_sound ex_s3 H) as (H1 & _ & _ & H2 & _). split; [exact H1 | exact H2].
Defined.

Definition ex_s4 : pstate := reader_exit_all None (set_reader (R_exit None) ex_s1).

Lemma pending_all_woken_witness :
  exists s' t o, pstep ex_s4 s' /\ outcomes s' !! 0%nat = Some (t, o) /\ frames s' !! 0%nat = None.
Proof.
  assert (preach ex_s4) as H.
  { eapply pr_step; [|apply ps_exit; reflexivity]. eapply pr_step; [|apply ps_eof; reflexivity].
    eapply pr_step; [apply pr_init |]. apply ps_call; reflexivity. }
  refine (proj1 (pending_all_woken ex_s4 None 0 H _ _) _ _); [reflexivity | discriminate |].
  vm_compute. reflexivity.
Defined.

Lemma claimed_caller_stranded_witness :
  let s' := reader_exit_all (Some 0%nat) (reader_param None ex_h (Some 0%nat) ex_s2) in
  waiting s' 0 /\ outcomes s' !! 0%nat = None.
Proof.
  refine (proj2 (claimed_caller_stranded ex_s2 _ ex_h 0
    (Frame 1 false (Some [7; 8]) 2 (Some []) 0 0 0 0 0 0) [7; 8] ex_pending2 _ _ _ _ (pss_refl _)));
    [reflexivity | vm_compute; reflexivity | reflexivity |].
  vm_compute. split; [reflexivity | discriminate].
Defined.

End IsoPending.
