(* ===== verification/IsoSync.v ===== *)
(** * Synchronous commands to a stub ([src/qemu/nvkvm_isolate.c])

    Commands other than ioctls share one answer slot per isolate: the caller
    resets it, sends, and sleeps on a condition variable until the reader thread
    has stored an answer.  The wait releases [sync_lock], so another caller can
    enter.  Sections under [sync_lock] are single steps. *)

From S2P Require Import Prelude IsoPending.
Local Open Scope Z_scope.

Module IsoSync.
Import IsoPending.

(** Answers of the stub that end in the slot; the descriptor of an open travels
    with it. *)
Inductive sresp :=
| SR_ok
| SR_error (err : Z)
| SR_mmap (retval : Z)
| SR_realize (retval rm_status host_va len token : Z)
| SR_ring (error probe : Z)
| SR_loop (error head : Z)
| SR_open (retval : Z) (fd : option Z).

(** The [sync_*] fields of an isolate. *)
Record slot := Slot {
  sy_done : bool;
  sy_error : Z;
  sy_mmap : Z;
  sy_open_fd : Z;
  sy_probe : Z;
  sy_head : Z;
  sy_realize : Z * Z * Z * Z     (* host VA, length, token, RM status *)
}.

Definition slot0 : slot := Slot false 0 0 (-1) 0 0 (0, 0, 0, 0).

(** [reader_signal_sync], [reader_signal_sync_open] and the arms of the reader that
    store into the slot; the descriptors closed. *)
Definition reader_signal (r : sresp) (s : slot) : slot * list Z :=
  let sync err mm := (Slot true err mm (sy_open_fd s) (sy_probe s) (sy_head s) (sy_realize s), []) in
  match r with
  | SR_ok => sync 0 0
  | SR_error err => sync (- err) 0
  | SR_mmap retval => sync 0 retval
  | SR_realize retval rm va len tok =>
      (Slot true retval (sy_mmap s) (sy_open_fd s) (sy_probe s) (sy_head s) (va, len, tok, rm), [])
  | SR_ring error probe => (Slot true error (sy_mmap s) (sy_open_fd s) probe (sy_head s) (sy_realize s), [])
  | SR_loop error head => (Slot true error (sy_mmap s) (sy_open_fd s) (sy_probe s) head (sy_realize s), [])
  | SR_open retval fd =>
      let orphan := match fd with Some fd => negb (retval =? 0) && (0 <=? fd) | None => false end in
      (Slot true retval (sy_mmap s) (if orphan then -1 else default (-1) fd) (sy_probe s) (sy_head s) (sy_realize s),
       if orphan then option_list fd else [])
  end.

(** The commands that wait on the slot. *)
Inductive scmd :=
| SC_plain                     (* sync_send_recv, sync_sendmsg_recv *)
| SC_mmap
| SC_open
| SC_realize
| SC_ring
| SC_loop.

(** What a caller clears before it sends. *)
Definition reset (c : scmd) (s : slot) : slot :=
  match c with
  | SC_plain | SC_ring => Slot false 0 (sy_mmap s) (sy_open_fd s) (sy_probe s) (sy_head s) (sy_realize s)
  | SC_mmap => Slot false 0 0 (sy_open_fd s) (sy_probe s) (sy_head s) (sy_realize s)
  | SC_open => Slot false 0 (sy_mmap s) (-1) (sy_probe s) (sy_head s) (sy_realize s)
  | SC_realize => Slot false 0 (sy_mmap s) (sy_open_fd s) (sy_probe s) (sy_head s) (0, 0, 0, 0)
  | SC_loop => Slot false 0 (sy_mmap s) (sy_open_fd s) (sy_probe s) 0 (sy_realize s)
  end.

(** What it returns when it finds [sync_done] set: the return value and the data it
    hands on; for an open also the descriptors it closes. *)
Inductive sout :=
| SO_ret (v : Z)
| SO_open (v fd : Z) (closed : list Z)
| SO_realize (v : Z) (r : Z * Z * Z * Z)
| SO_ring (v probe : Z)
| SO_loop (v head : Z).

Definition collect (c : scmd) (s : slot) : sout :=
  match c with
  | SC_plain => SO_ret (sy_error s)
  | SC_mmap => SO_ret (if sy_error s =? 0 then sy_mmap s else sy_error s)
  | SC_open =>
      if negb (sy_error s =? 0) then SO_open (sy_error s) (-1) (if 0 <=? sy_open_fd s then [sy_open_fd s] else [])
      else if sy_open_fd s <? 0 then SO_open (- EPROTO) (-1) []
      else SO_open 0 (sy_open_fd s) []
  | SC_realize => SO_realize (sy_error s) (sy_realize s)
  | SC_ring => SO_ring (sy_error s) (sy_probe s)
  | SC_loop => SO_loop (sy_error s) (sy_head s)
  end.

(** The slot it leaves behind. *)
Definition leave (c : scmd) (s : slot) : slot :=
  match c with
  | SC_open => Slot (sy_done s) (sy_error s) (sy_mmap s) (-1) (sy_probe s) (sy_head s) (sy_realize s)
  | _ => s
  end.

(** ** Runs

    Callers are numbered.  [sent] holds the commands the stub has not answered,
    oldest first; [chan] the answers on their way.  The stub answers in order,
    except that it serves other commands while it runs the consumer loop. *)

Record sstate := SS {
  s_slot : slot;
  s_waiting : gmap nat scmd;
  s_sent : list (nat * scmd);
  s_chan : list (nat * sresp);
  s_out : gmap nat (scmd * sout);
  s_alive : bool
}.

Definition s_init : sstate := SS slot0 ∅ [] [] ∅ true.

(** A caller up to its wait, and from the wake-up on. *)
Definition sync_begin (i : nat) (c : scmd) (s : sstate) : sstate :=
  SS (reset c (s_slot s)) (<[i := c]> (s_waiting s)) (s_sent s ++ [(i, c)]) (s_chan s) (s_out s) true.

Definition sync_return (i : nat) (c : scmd) (o : sout) (s : sstate) : sstate :=
  SS (leave c (s_slot s)) (delete i (s_waiting s)) (s_sent s) (s_chan s) (<[i := (c, o)]> (s_out s)) (s_alive s).

Definition reader_store (r : sresp) (rest : list (nat * sresp)) (s : sstate) : sstate :=
  SS (fst (reader_signal r (s_slot s))) (s_waiting s) (s_sent s) rest (s_out s) (s_alive s).

Section run.
(** The stub's answer to each command; whether callers wait for each other. *)
Context (answer : nat -> sresp) (serial : bool).

Inductive sstep : sstate -> sstate -> Prop :=
| ss_send s i c :
    s_waiting s !! i = None -> s_out s !! i = None -> s_alive s = true -> (serial = true -> s_waiting s = ∅) ->
    sstep s (sync_begin i c s)
| ss_answer s pre i c post :
    s_sent s = pre ++ (i, c) :: post -> Forall (fun e => snd e = SC_loop) pre ->
    sstep s (SS (s_slot s) (s_waiting s) (pre ++ post) (s_chan s ++ [(i, answer i)]) (s_out s) (s_alive s))
| ss_deliver s i r rest :
    s_chan s = (i, r) :: rest -> sstep s (reader_store r rest s)
| ss_wake s i c :
    s_waiting s !! i = Some c -> sy_done (s_slot s) = true -> sstep s (sync_return i c (collect c (s_slot s)) s)
| ss_wake_loop s i :
    s_waiting s !! i = Some SC_loop -> sy_done (s_slot s) = false -> s_alive s = false ->
    sstep s (sync_return i SC_loop (SO_loop (- ENODEV) 0) s)
| ss_kill s :
    sstep s (SS (s_slot s) (s_waiting s) (s_sent s) (s_chan s) (s_out s) false)
| ss_dead s :
    sstep s (SS (fst (reader_signal (SR_error ECONNRESET) (s_slot s))) (s_waiting s) [] [] (s_out s) false).

Inductive sreachable : sstate -> Prop :=
| sr_init : sreachable s_init
| sr_step s s' : sreachable s -> sstep s s' -> sreachable s'.
End run.

(** ** What a caller is promised *)

(** The answers of an honest stub and what the caller makes of them. *)
Inductive expects : scmd -> sresp -> sout -> Prop :=
| ex_ok : expects SC_plain SR_ok (SO_ret 0)
| ex_error e : expects SC_plain (SR_error e) (SO_ret (- e))
| ex_mmap v : expects SC_mmap (SR_mmap v) (SO_ret v)
| ex_open fd : 0 <= fd -> expects SC_open (SR_open 0 (Some fd)) (SO_open 0 fd [])
| ex_open_err v : v <> 0 -> expects SC_open (SR_open v None) (SO_open v (-1) [])
| ex_realize v rm va len tok : expects SC_realize (SR_realize v rm va len tok) (SO_realize v (va, len, tok, rm))
| ex_ring e p : expects SC_ring (SR_ring e p) (SO_ring e p)
| ex_loop e h : expects SC_loop (SR_loop e h) (SO_loop e h).

(** The outcome of a command whose isolate went away. *)
Inductive lost : scmd -> sout -> Prop :=
| lo_ret c : c = SC_plain \/ c = SC_mmap -> lost c (SO_ret (- ECONNRESET))
| lo_open cl : lost SC_open (SO_open (- ECONNRESET) (-1) cl)
| lo_realize r : lost SC_realize (SO_realize (- ECONNRESET) r)
| lo_ring p : lost SC_ring (SO_ring (- ECONNRESET) p)
| lo_loop h : lost SC_loop (SO_loop (- ECONNRESET) h)
| lo_loop_gone : lost SC_loop (SO_loop (- ENODEV) 0).

Lemma collect_expects c r o s :
  expects c r o -> collect c (fst (reader_signal r (reset c s))) = o.
Proof.
  destruct 1 as [| | |fd Hfd|v Hv| | |]; cbn; try done.
  - by rewrite (proj2 (Z.ltb_ge _ _)).
  - by rewrite (proj2 (Z.eqb_neq _ _)).
Qed.

Lemma collect_lost c s : lost c (collect c (fst (reader_signal (SR_error ECONNRESET) s))).
Proof. destruct c; cbn; constructor; auto. Qed.

(** Where the one command of a serial run is. *)
Inductive phase (answer : nat -> sresp) : sstate -> Prop :=
| ph_idle sl out al : phase answer (SS sl ∅ [] [] out al)
| ph_sent s0 i c out al : phase answer (SS (reset c s0) {[i := c]} [(i, c)] [] out al)
| ph_answered s0 i c out al : phase answer (SS (reset c s0) {[i := c]} [] [(i, answer i)] out al)
| ph_done s0 i c out al : phase answer (SS (fst (reader_signal (answer i) (reset c s0))) {[i := c]} [] [] out al)
| ph_lost sl i c out : phase answer (SS (fst (reader_signal (SR_error ECONNRESET) sl)) {[i := c]} [] [] out false)
| ph_left sl sent chan out : phase answer (SS sl ∅ sent chan out false).

Section serial.
Context (answer : nat -> sresp).

Definition good (e : nat * (scmd * sout)) : Prop :=
  let '(i, (c, o)) := e in
  (exists s0, o = collect c (fst (reader_signal (answer i) (reset c s0)))) \/ lost c o.

Record sinv (s : sstate) : Prop := {
  sv_phase : phase answer s;
  sv_out : forall i c o, s_out s !! i = Some (c, o) -> good (i, (c, o))
}.

Lemma done_reset c s : sy_done (reset c s) = false.
Proof. by destruct c. Qed.

Lemma one_waiter (i j : nat) (c d : scmd) :
  ({[i := c]} : gmap nat scmd) !! j = Some d -> j = i /\ d = c /\ delete j ({[i := c]} : gmap nat scmd) = ∅.
Proof. intros [-> ->]%lookup_singleton_Some. by rewrite delete_singleton_eq. Qed.

Lemma phase_send s i c :
  phase answer s -> s_waiting s = ∅ -> s_alive s = true ->
  phase answer (SS (reset c (s_slot s)) {[i := c]} (s_sent s ++ [(i, c)]) (s_chan s) (s_out s) true).
Proof.
  intros P Hw Ha. destruct P; cbn in *; try done; try (by apply map_non_empty_singleton in Hw). constructor.
Qed.

Lemma phase_answer s pre i c post :
  phase answer s -> s_sent s = pre ++ (i, c) :: post ->
  phase answer (SS (s_slot s) (s_waiting s) (pre ++ post) (s_chan s ++ [(i, answer i)]) (s_out s) (s_alive s)).
Proof.
  intros P Hs. destruct P; cbn in *; try (by destruct pre); [|by constructor].
  destruct pre as [|x [|]]; cbn in Hs; [|discriminate..]. injection Hs as <- <- <-. constructor.
Qed.

Lemma phase_deliver s i r rest :
  phase answer s -> s_chan s = (i, r) :: rest ->
  phase answer (SS (fst (reader_signal r (s_slot s))) (s_waiting s) (s_sent s) rest (s_out s) (s_alive s)).
Proof. intros P Hs. destruct P; cbn in *; try done; [injection Hs as <- <- <-|]; constructor. Qed.

(** A caller that finds [sync_done] set. *)
Lemma phase_wake s i c out :
  phase answer s -> s_waiting s !! i = Some c -> sy_done (s_slot s) = true ->
  phase answer (SS (leave c (s_slot s)) (delete i (s_waiting s)) (s_sent s) (s_chan s) out (s_alive s)) /\
  good (i, (c, collect c (s_slot s))).
Proof.
  intros P Hw Hd. destruct P; cbn in *; rewrite ?done_reset in Hd; try done; try (by rewrite lookup_empty in Hw).
  - apply one_waiter in Hw as (-> & -> & ->). split; [constructor |]. left. by exists s0.
  - apply one_waiter in Hw as (-> & -> & ->). split; [constructor |]. right. apply collect_lost.
Qed.

Lemma phase_leave s i out :
  phase answer s -> s_waiting s !! i = Some SC_loop -> s_alive s = false ->
  phase answer (SS (s_slot s) (delete i (s_waiting s)) (s_sent s) (s_chan s) out (s_alive s)).
Proof.
  intros P Hw Ha. destruct P; cbn in *; subst; try (by rewrite lookup_empty in Hw);
    apply one_waiter in Hw as (-> & _ & ->); constructor.
Qed.

Lemma phase_dead s :
  phase answer s ->
  phase answer (SS (fst (reader_signal (SR_error ECONNRESET) (s_slot s))) (s_waiting s) [] [] (s_out s) false).
Proof. destruct 1; cbn; constructor. Qed.

Lemma sinv_step s s' : sinv s -> sstep answer true s s' -> sinv s'.
Proof.
  intros [P O] Hs. destruct Hs as [s i c H1 H2 H3 H4|s pre i c post H1 H2|s i r rest H1|s i c H1 H2|s i H1 H2 H3|s|s].
  - split; [|done]. unfold sync_begin. rewrite (H4 eq_refl), insert_empty. by apply phase_send; [| apply H4 |].
  - split; [|done]. by eapply phase_answer.
  - split; [|done]. by eapply phase_deliver.
  - destruct (phase_wake s i c (<[i := (c, collect c (s_slot s))]> (s_out s)) P H1 H2) as [P' G]. split; [done |].
    intros j d o. cbn. intros [(<- & [= <- <-])|[? ?]]%lookup_insert_Some; [done | by apply O].
  - split; [by apply phase_leave |]. intros j d o. cbn.
    intros [(<- & [= <- <-])|[? ?]]%lookup_insert_Some; [right; constructor | by apply O].
  - split; [|done]. destruct P; constructor.
  - split; [by apply phase_dead | done].
Qed.

Lemma sreachable_inv s : sreachable answer true s -> sinv s.
Proof.
  induction 1 as [|s s' _ IH Hs]; [|by eapply sinv_step]. split; [constructor |]. intros i c o Hi. cbn in Hi.
  by rewrite lookup_empty in Hi.
Qed.
End serial.

(** ** Properties *)

(** [sync_serial_exact]: if callers take turns and the stub answers each command
    with an answer of its kind, every caller gets what its own command was
    answered with, or the error of a lost connection. *)
Theorem sync_serial_exact (answer : nat -> sresp) (s : sstate) (i : nat) (c : scmd) (o o' : sout) :
  sreachable answer true s -> s_out s !! i = Some (c, o) -> expects c (answer i) o' -> o = o' \/ lost c o.
Proof.
  intros Hs Ho He. destruct (sv_out answer s (sreachable_inv answer s Hs) i c o Ho) as [(s0 & ->)|]; [left | by right].
  by apply collect_expects.
Qed.

(** [sync_answers_cross]: ENTER_LOOP waits on a pool thread while the main loop
    sends other commands, and both use the slot.  When the answer to the loop
    arrives after an MMAP was sent, the MMAP returns success before the stub
    has looked at it, whatever the stub will answer; and the MMAP's own answer
    then completes the next command, an OPEN_DEVICE, which fails although the
    stub opens the device. *)
Theorem sync_answers_cross (v head : Z) :
  let answer i := match i with 0%nat => SR_loop 0 head | 1%nat => SR_mmap v | _ => SR_open 0 (Some 9) end in
  exists s1 s2,
    sreachable answer false s1 /\ s_out s1 !! 1%nat = Some (SC_mmap, SO_ret 0) /\ s_sent s1 = [(1%nat, SC_mmap)] /\
    sreachable answer false s2 /\ s_out s2 !! 2%nat = Some (SC_open, SO_open (- EPROTO) (-1) []) /\ s_sent s2 = [(2%nat, SC_open)].
Proof.
  intros answer.
  set (s0 := sync_begin 0 SC_loop s_init).
  set (s1 := SS (s_slot s0) (s_waiting s0) [] [(0%nat, SR_loop 0 head)] ∅ true).
  set (s2 := sync_begin 1 SC_mmap s1).
  set (s3 := reader_store (SR_loop 0 head) [] s2).
  set (s4 := sync_return 1 SC_mmap (SO_ret 0) s3).
  set (s5 := SS (s_slot s4) (s_waiting s4) [] [(1%nat, SR_mmap v)] (s_out s4) true).
  set (s6 := sync_begin 2 SC_open s5).
  set (s7 := reader_store (SR_mmap v) [] s6).
  set (s8 := sync_return 2 SC_open (SO_open (- EPROTO) (-1) []) s7).
  assert (sreachable answer false s4) as R4.
  { eapply sr_step; [|apply (ss_wake answer false s3 1 SC_mmap); reflexivity].
    eapply sr_step; [|apply (ss_deliver answer false s2 0 (SR_loop 0 head) []); reflexivity].
    eapply sr_step; [|apply (ss_send answer false s1 1 SC_mmap); (reflexivity || discriminate)].
    eapply sr_step; [|apply (ss_answer answer false s0 [] 0 SC_loop []); [reflexivity | constructor]].
    eapply sr_step; [apply sr_init |]. apply (ss_send answer false s_init 0 SC_loop); (reflexivity || discriminate). }
  exists s4, s8. split_and!; [exact R4 | reflexivity | reflexivity | | reflexivity | reflexivity].
  eapply sr_step; [|apply (ss_wake answer false s7 2 SC_open); reflexivity].
  eapply sr_step; [|apply (ss_deliver answer false s6 1 (SR_mmap v) []); reflexivity].
  eapply sr_step; [|apply (ss_send answer false s5 2 SC_open); (reflexivity || discriminate)].
  eapply sr_step; [exact R4 |]. apply (ss_answer answer false s4 [] 1 SC_mmap []); [reflexivity | constructor].
Qed.

Lemma sync_serial_exact_witness : exists o, o = SO_ret (-12) \/ lost SC_mmap o.
Proof.
  set (answer (i : nat) := SR_mmap (-12)).
  set (s0 := sync_begin 1 SC_mmap s_init).
  set (s1 := SS (s_slot s0) (s_waiting s0) [] [(1%nat, SR_mmap (-12))] ∅ true).
  set (s2 := reader_store (SR_mmap (-12)) [] s1).
  set (s3 := sync_return 1 SC_mmap (SO_ret (-12)) s2).
  exists (SO_ret (-12)).
  refine (sync_serial_exact answer s3 1 SC_mmap (SO_ret (-12)) (SO_ret (-12)) _ _ (ex_mmap (-12))); [|reflexivity].
  eapply sr_step; [|apply (ss_wake answer true s2 1 SC_mmap); reflexivity].
  eapply sr_step; [|apply (ss_deliver answer true s1 1 (SR_mmap (-12)) []); reflexivity].
  eapply sr_step; [|apply (ss_answer answer true s0 [] 1 SC_mmap []); [reflexivity | constructor]].
  eapply sr_step; [apply sr_init |]. apply (ss_send answer true s_init 1 SC_mmap); reflexivity.
Defined.

End IsoSync.
