(* ===== verification/StubWire.v ===== *)
(** * The command stream of a stub ([src/stub/nvkvm_stub.c], [src/qemu/nvkvm_isolate.c])

    QEMU writes each command as one SEQPACKET message, an ioctl or a realize
    request followed by one message per blob; the stub's reader takes a message,
    decodes it by its type word and reads the blobs.  A message read into a
    smaller buffer loses its tail; one read into a larger buffer leaves the rest
    of the buffer as it was. *)

From S2P Require Import Prelude Bytes StubHandles StubIoctl.
Local Open Scope Z_scope.
Local Open Scope nv_scope.

Module StubWire.
Import StubIoctl.

(** A message and the descriptor attached to it. *)
Record wmsg := WMsg { w_bytes : list Z; w_fd : option Z }.

Definition ISOLATE_CMD_RECEIVE_FD : Z := 1.
Definition ISOLATE_CMD_CLOSE_FD : Z := 2.
Definition ISOLATE_CMD_IOCTL : Z := 3.
Definition ISOLATE_CMD_MMAP : Z := 4.
Definition ISOLATE_CMD_MUNMAP : Z := 5.
Definition ISOLATE_CMD_POLL : Z := 6.
Definition ISOLATE_CMD_UNPOLL : Z := 7.
Definition ISOLATE_CMD_EXIT : Z := 8.
Definition ISOLATE_CMD_OPEN_DEVICE : Z := 9.
Definition ISOLATE_CMD_REALIZE_UVM_FD : Z := 10.
Definition ISOLATE_CMD_INTERRUPT : Z := 11.
Definition ISOLATE_CMD_SETUP_RING : Z := 12.
Definition ISOLATE_CMD_ENTER_LOOP : Z := 13.
Definition ISOLATE_CMD_PRESENT_EXPORT : Z := 14.
Definition ISOLATE_CMD_XISO_IMPORT : Z := 15.

Definition MAX_PARAM_SIZE : Z := 256 * 1024.
(** [sizeof(union stub_cmd)]: the realize command is the largest. *)
Definition sizeof_union : Z := 56.
Definition sizeof_receive_fd : Z := 16.
Definition sizeof_setup_ring : Z := 24.
Definition sizeof_snapshot : Z := 920.

(** The fixed part of a realize command. *)
Record realize_cmd := RealizeCmd {
  rz_txn : Z;
  rz_mode : Z;
  rz_state_size : Z;
  rz_intent_size : Z;
  rz_prot : Z;
  rz_map_flags : Z;
  rz_length : Z;
  rz_host_va_hint : Z;
  rz_offset : Z
}.

(** The geometry of a ring command. *)
Record ring_cmd := RingCmd {
  rg_region_size : Z;
  rg_req_off : Z;
  rg_resp_off : Z;
  rg_ring_bytes : Z
}.

(** ** QEMU's side *)

(** A little-endian word of [n] bytes. *)
Definition le (n : nat) (v : Z) : list Z := (fun i => u8 (Z.shiftr v (8 * Z.of_nat i))) <$> seq 0 n.

Definition words (l : list Z) : list Z := l ≫= le 4.

(** The commands QEMU sends, with the values of the fields it fills. *)
Inductive isocmd :=
| I_receive_fd (handle_id dev_id fd : Z)
| I_close_fd (handle_id : Z)
| I_ioctl (txn handle_id cmd flags abi : Z) (param aux : list Z)
| I_mmap (handle_id gva len offset prot flags : Z)
| I_munmap (gva len : Z)
| I_poll (handle_id events : Z)
| I_unpoll (handle_id : Z)
| I_exit
| I_open (handle_id dev_id flags txn : Z)
| I_realize (mode prot flags len hint offset : Z) (state intent : list Z)
| I_interrupt (txn : Z)
| I_setup_ring (r : ring_cmd) (fd : Z)
| I_enter_loop (idle_us : Z)
| I_export (handle_id gem txn : Z)
| I_import (handle_id txn fd : Z).

Definition blob (b : list Z) : list wmsg := match b with [] => [] | _ => [WMsg b None] end.

Definition lenz (b : list Z) : Z := Z.of_nat (length b).

(** The messages of one command, written under [write_lock]. *)
Definition encode (c : isocmd) : list wmsg :=
  match c with
  | I_receive_fd h d fd => [WMsg (words [ISOLATE_CMD_RECEIVE_FD; h; d; 0]) (Some fd)]
  | I_close_fd h => [WMsg (words [ISOLATE_CMD_CLOSE_FD; h]) None]
  | I_ioctl t h c f a p x =>
      WMsg (words [ISOLATE_CMD_IOCTL; h; c; lenz p; lenz x; f; t; a]) None :: blob p ++ blob x
  | I_mmap h g l o p f =>
      [WMsg (words [ISOLATE_CMD_MMAP; h] ++ le 8 g ++ le 8 l ++ le 8 o ++ words [p; f]) None]
  | I_munmap g l => [WMsg (words [ISOLATE_CMD_MUNMAP; 0] ++ le 8 g ++ le 8 l) None]
  | I_poll h e => [WMsg (words [ISOLATE_CMD_POLL; h; e; 0]) None]
  | I_unpoll h => [WMsg (words [ISOLATE_CMD_UNPOLL; h]) None]
  | I_exit => [WMsg (words [ISOLATE_CMD_EXIT; 0]) None]
  | I_open h d f t => [WMsg (words [ISOLATE_CMD_OPEN_DEVICE; h; d; f; t; 0]) None]
  | I_realize m p f l hint o s i =>
      WMsg (words [ISOLATE_CMD_REALIZE_UVM_FD; 0; m; lenz s; lenz i; p; f; 0] ++ le 8 l ++ le 8 hint ++ le 8 o) None
      :: blob s ++ blob i
  | I_interrupt t => [WMsg (words [ISOLATE_CMD_INTERRUPT; t]) None]
  | I_setup_ring r fd =>
      [WMsg (words [ISOLATE_CMD_SETUP_RING; rg_region_size r; rg_req_off r; rg_resp_off r; rg_ring_bytes r; 0]) (Some fd)]
  | I_enter_loop i => [WMsg (words [ISOLATE_CMD_ENTER_LOOP; i]) None]
  | I_export h g t => [WMsg (words [ISOLATE_CMD_PRESENT_EXPORT; h; g; t]) None]
  | I_import h t fd => [WMsg (words [ISOLATE_CMD_XISO_IMPORT; h; t; 0]) (Some fd)]
  end.

(** ** The stub's side *)

(** What the dispatcher acts on. *)
Inductive dcmd :=
| D_receive_fd (handle_id : Z) (dev_id scm : option Z)
| D_close_fd (handle_id : Z)
| D_ioctl (j : ioctl_job)
| D_ioctl_refused (txn err : Z)
| D_mmap (handle_id gva len offset prot flags : Z)
| D_munmap (gva len : Z)
| D_poll (handle_id : Z)
| D_unpoll (handle_id : Z)
| D_open (txn handle_id dev_id flags : Z)
| D_realize (r : realize_cmd) (state intent : bytes)
| D_realize_refused (txn err : Z)
| D_interrupt (txn : Z)
| D_setup_ring (r : ring_cmd) (full : bool) (scm : option Z)
| D_enter_loop (idle_us : Z)
| D_export (txn handle_id gem : Z)
| D_import (txn handle_id : Z) (scm : option Z)
| D_exit.

(** Reading exactly [len] bytes, a message at a time; [None] when the peer is gone
    or sends an empty message. *)
Fixpoint recv_full (ms : list wmsg) (len : Z) : option (list Z) * list wmsg :=
  if len <=? 0 then (Some [], ms)
  else
    match ms with
    | [] => (None, [])
    | m :: ms' =>
        match take (Z.to_nat len) (w_bytes m) with
        | [] => (None, ms')
        | got => let '(r, ms'') := recv_full ms' (len - lenz got) in (app got <$> r, ms'')
        end
    end.

Section reader.
(** Whether an anonymous mapping of that many bytes can be made. *)
Context (alloc : Z -> bool).

Definition page_up (n : Z) : Z := mask_down (u64 (n + 4095)) 4096.

(** [blob_alloc]. *)
Definition blob_alloc (size : Z) : bool := negb (size =? 0) && alloc (page_up size).

(** The size of the parameter buffer: at least what the command word says, up to a
    page. *)
Definition param_alloc_size (cmd param_size : Z) : Z :=
  Z.max param_size (Z.min (Z.land (Z.shiftr cmd 16) 0x3fff) 4096).

Definition recv_blob (size want : Z) (ms : list wmsg) : option bytes * list wmsg :=
  if blob_alloc want then let '(r, ms') := recv_full ms size in (write_bytes ∅ 0 <$> r, ms') else (None, ms).

Definition handle_ioctl_cmd (u : bytes) (ms : list wmsg) : dcmd * list wmsg :=
  let handle_id := get32 u 4 in let cmd := get32 u 8 in
  let psize := get32 u 12 in let asize := get32 u 16 in
  let txn := get32 u 24 in let abi := get32 u 28 in
  if (MAX_PARAM_SIZE <? psize) || (MAX_PARAM_SIZE <? asize) then (D_ioctl_refused txn (- EINVAL), ms)
  else
    let '(p, ms1) := if 0 <? psize then recv_blob psize (param_alloc_size cmd psize) ms else (Some ∅, ms) in
    match p with
    | None => (D_ioctl_refused txn (- ENOMEM), ms1)
    | Some p =>
        let '(a, ms2) := if 0 <? asize then recv_blob asize asize ms1 else (Some ∅, ms1) in
        match a with
        | None => (D_ioctl_refused txn (- ENOMEM), ms2)
        | Some a => (D_ioctl (Job txn handle_id cmd abi p psize a asize), ms2)
        end
    end.

Definition STUB_MAX_REG_GPUS : Z := 16.
Definition STUB_MAX_VA_SPACES : Z := 16.
Definition STUB_MAX_RANGE_GROUPS : Z := 16.

Definition realize_of (u : bytes) : realize_cmd :=
  RealizeCmd (get32 u 4) (get32 u 8) (get32 u 12) (get32 u 16) (get32 u 20) (get32 u 24) (get64 u 32) (get64 u 40) (get64 u 48).

(** Steps 1 and 2 of [handle_realize_uvm_fd]: the snapshot and the intent. *)
Definition recv_realize (u : bytes) (ms : list wmsg) : dcmd * list wmsg :=
  let r := realize_of u in
  if negb (rz_state_size r =? sizeof_snapshot) then (D_realize_refused (rz_txn r) (- EINVAL), ms)
  else
    match recv_full ms sizeof_snapshot with
    | (None, ms1) => (D_realize_refused (rz_txn r) (- EIO), ms1)
    | (Some st, ms1) =>
        let state := write_bytes ∅ 0 st in
        if (STUB_MAX_REG_GPUS <? get32 state 8) || (STUB_MAX_VA_SPACES <? get32 state 12) ||
           (STUB_MAX_RANGE_GROUPS <? get32 state 16) then (D_realize_refused (rz_txn r) (- EINVAL), ms1)
        else if (rz_intent_size r =? 0) || (64 * 1024 <? rz_intent_size r)
        then (D_realize_refused (rz_txn r) (- EINVAL), ms1)
        else if negb (alloc (page_up (rz_intent_size r))) then (D_realize_refused (rz_txn r) (- ENOMEM), ms1)
        else
          match recv_full ms1 (rz_intent_size r) with
          | (None, ms2) => (D_realize_refused (rz_txn r) (- EIO), ms2)
          | (Some it, ms2) => (D_realize r state (write_bytes ∅ 0 it), ms2)
          end
    end.

(** The switch of [stub_dispatch_cmd], with what it reads from the socket; [n] is
    the length of the message. *)
Definition decode_cmd (u : bytes) (n : Z) (scm : option Z) (ms : list wmsg) : dcmd * list wmsg :=
  let type := get32 u 0 in
  if type =? ISOLATE_CMD_RECEIVE_FD then
    (D_receive_fd (get32 u 4) (if sizeof_receive_fd <=? n then Some (get32 u 8) else None) scm, ms)
  else if type =? ISOLATE_CMD_CLOSE_FD then (D_close_fd (get32 u 4), ms)
  else if type =? ISOLATE_CMD_IOCTL then handle_ioctl_cmd u ms
  else if type =? ISOLATE_CMD_MMAP then
    (D_mmap (get32 u 4) (get64 u 8) (get64 u 16) (get64 u 24) (get32 u 32) (get32 u 36), ms)
  else if type =? ISOLATE_CMD_MUNMAP then (D_munmap (get64 u 8) (get64 u 16), ms)
  else if type =? ISOLATE_CMD_POLL then (D_poll (get32 u 4), ms)
  else if type =? ISOLATE_CMD_UNPOLL then (D_unpoll (get32 u 4), ms)
  else if type =? ISOLATE_CMD_OPEN_DEVICE then (D_open (get32 u 16) (get32 u 4) (get32 u 8) (get32 u 12), ms)
  else if type =? ISOLATE_CMD_PRESENT_EXPORT then (D_export (get32 u 12) (get32 u 4) (get32 u 8), ms)
  else if type =? ISOLATE_CMD_XISO_IMPORT then (D_import (get32 u 8) (get32 u 4) scm, ms)
  else if type =? ISOLATE_CMD_REALIZE_UVM_FD then recv_realize u ms
  else if type =? ISOLATE_CMD_INTERRUPT then (D_interrupt (get32 u 4), ms)
  else if type =? ISOLATE_CMD_SETUP_RING then
    (D_setup_ring (RingCmd (get32 u 4) (get32 u 8) (get32 u 12) (get32 u 16)) (sizeof_setup_ring <=? n) scm, ms)
  else if type =? ISOLATE_CMD_ENTER_LOOP then (D_enter_loop (get32 u 4), ms)
  else (D_exit, ms).

(** One turn of the reader: [stale] is what the union on the stack held before.  An
    empty stream is a closed socket, a message below four bytes ends the loop. *)
Definition read_cmd (stale : bytes) (ms : list wmsg) : dcmd * list wmsg :=
  match ms with
  | [] => (D_exit, [])
  | m :: ms' =>
      let got := take (Z.to_nat sizeof_union) (w_bytes m) in
      if lenz got <? 4 then (D_exit, ms') else decode_cmd (write_bytes stale 0 got) (lenz got) (w_fd m) ms'
  end.

(** The commands the reader acts on until it ends; [stale i] for the [i]-th turn. *)
Fixpoint read_all (fuel : nat) (stale : nat -> bytes) (ms : list wmsg) : list dcmd :=
  match fuel with
  | O => []
  | S n =>
      match read_cmd (stale n) ms with
      | (D_exit, _) => [D_exit]
      | (d, ms') => d :: read_all n stale ms'
      end
  end.
End reader.

(** ** Decoding what was encoded *)

Lemma write_app d o a b : write_bytes d o (a ++ b) = write_bytes (write_bytes d o a) (o + lenz a) b.
Proof.
  unfold lenz. revert d o. induction a as [|x a IH]; intros d o; cbn [app write_bytes length].
  - f_equal. lia.
  - rewrite IH. f_equal. lia.
Qed.

Lemma put8_u8 d o v : put8 d o (u8 v) = put8 d o v.
Proof. unfold put8. by rewrite u8_idem. Qed.

Lemma write_le4 d o v : write_bytes d o (le 4 v) = put32 d o v.
Proof.
  unfold le. cbn [seq fmap list_fmap write_bytes Z.of_nat]. rewrite !put8_u8.
  unfold put32, put16. rewrite !Z.shiftr_shiftr by lia. cbn. by rewrite <- !Z.add_assoc.
Qed.

Lemma le_high v :
  (fun i => u8 (Z.shiftr v (8 * Z.of_nat i))) <$> seq 4 4 = le 4 (Z.shiftr v 32).
Proof.
  unfold le. change (seq 4 4) with (Nat.add 4 <$> seq 0 4). rewrite <- list_fmap_compose.
  apply list_fmap_ext. intros _ i _. cbn [compose]. rewrite Z.shiftr_shiftr by lia. do 2 f_equal. lia.
Qed.

Lemma write_le8 d o v : write_bytes d o (le 8 v) = put64 d o v.
Proof.
  change (le 8 v) with (le 4 v ++ ((fun i => u8 (Z.shiftr v (8 * Z.of_nat i))) <$> seq 4 4)).
  by rewrite write_app, le_high, !write_le4.
Qed.

Lemma get_field32 d a v b : get32 (write_bytes d 0 (a ++ le 4 v ++ b)) (lenz a) = u32 v.
Proof.
  rewrite !write_app, write_le4, Z.add_0_l. rewrite get32_write_ne by (left; unfold lenz; cbn; lia).
  apply get32_put32.
Qed.

Lemma get_field64 d a v b : get64 (write_bytes d 0 (a ++ le 8 v ++ b)) (lenz a) = u64 v.
Proof.
  rewrite !write_app, write_le8, Z.add_0_l. rewrite get64_write_ne by (left; unfold lenz; cbn; lia).
  apply get64_put64.
Qed.

Lemma length_le n v : length (le n v) = n.
Proof. unfold le. by rewrite length_fmap, length_seq. Qed.

Lemma length_words l : length (words l) = (4 * length l)%nat.
Proof. unfold words. induction l as [|x l IH]; [done |]. cbn [mbind list_bind]. rewrite length_app, length_le, IH. cbn. lia. Qed.

Lemma words_app l1 l2 : words (l1 ++ l2) = words l1 ++ words l2.
Proof. apply bind_app. Qed.

(** The [i]-th word of a message that starts with words. *)
Lemma get_word d l i v b :
  l !! i = Some v -> get32 (write_bytes d 0 (words l ++ b)) (4 * Z.of_nat i) = u32 v.
Proof.
  intros Hi. rewrite <- (take_drop_middle l i v Hi). rewrite words_app. change (words (v :: ?l')) with (le 4 v ++ words l').
  rewrite <- app_assoc, <- app_assoc.
  replace (4 * Z.of_nat i) with (lenz (words (take i l))); [apply get_field32 |].
  unfold lenz. rewrite length_words, length_take. apply lookup_lt_Some in Hi. lia.
Qed.
(** What the stub should act on for each command. *)
Definition decoded (c : isocmd) : dcmd :=
  match c with
  | I_receive_fd h d fd => D_receive_fd h (Some d) (Some fd)
  | I_close_fd h => D_close_fd h
  | I_ioctl t h c f a p x => D_ioctl (Job t h c a (write_bytes ∅ 0 p) (lenz p) (write_bytes ∅ 0 x) (lenz x))
  | I_mmap h g l o p f => D_mmap h g l o p f
  | I_munmap g l => D_munmap g l
  | I_poll h e => D_poll h
  | I_unpoll h => D_unpoll h
  | I_exit => D_exit
  | I_open h d f t => D_open t h d f
  | I_realize m p f l hint o s i =>
      D_realize (RealizeCmd 0 m (lenz s) (lenz i) p f l hint o) (write_bytes ∅ 0 s) (write_bytes ∅ 0 i)
  | I_interrupt t => D_interrupt t
  | I_setup_ring r fd => D_setup_ring r true (Some fd)
  | I_enter_loop i => D_enter_loop i
  | I_export h g t => D_export t h g
  | I_import h t fd => D_import t h (Some fd)
  end.

Definition w32 (v : Z) : Prop := 0 <= v < 2 ^ 32.
Definition w64 (v : Z) : Prop := 0 <= v < 2 ^ 64.

(** Fields of their width, blobs within the limits QEMU keeps. *)
Definition sane (c : isocmd) : Prop :=
  match c with
  | I_receive_fd h d _ => w32 h /\ w32 d
  | I_close_fd h | I_unpoll h | I_interrupt h | I_enter_loop h => w32 h
  | I_ioctl t h c f a p x =>
      w32 t /\ w32 h /\ w32 c /\ w32 f /\ w32 a /\ lenz p <= MAX_PARAM_SIZE /\ lenz x <= MAX_PARAM_SIZE
  | I_mmap h g l o p f => w32 h /\ w64 g /\ w64 l /\ w64 o /\ w32 p /\ w32 f
  | I_munmap g l => w64 g /\ w64 l
  | I_poll h e => w32 h /\ w32 e
  | I_exit => True
  | I_open h d f t => w32 h /\ w32 d /\ w32 f /\ w32 t
  | I_realize m p f l hint o s i =>
      (w32 m /\ w32 p /\ w32 f /\ w64 l /\ w64 hint /\ w64 o) /\ lenz s = sizeof_snapshot /\
      (let st := write_bytes ∅ 0 s in
       get32 st 8 <= STUB_MAX_REG_GPUS /\ get32 st 12 <= STUB_MAX_VA_SPACES /\ get32 st 16 <= STUB_MAX_RANGE_GROUPS) /\
      0 < lenz i <= 64 * 1024
  | I_setup_ring r _ => w32 (rg_region_size r) /\ w32 (rg_req_off r) /\ w32 (rg_resp_off r) /\ w32 (rg_ring_bytes r)
  | I_export h g t => w32 h /\ w32 g /\ w32 t
  | I_import h t _ => w32 h /\ w32 t
  end.

Lemma get_word_at d l b o v i :
  l !! i = Some v -> o = 4 * Z.of_nat i -> get32 (write_bytes d 0 (words l ++ b)) o = u32 v.
Proof. intros Hi ->. by apply get_word. Qed.

Lemma get_long_at d a v b o : lenz a = o -> get64 (write_bytes d 0 (a ++ le 8 v ++ b)) o = u64 v.
Proof. intros <-. apply get_field64. Qed.

Lemma get_int_at d a v b o : lenz a = o -> get32 (write_bytes d 0 (a ++ le 4 v ++ b)) o = u32 v.
Proof. intros <-. apply get_field32. Qed.

Ltac wire_types :=
  unfold ISOLATE_CMD_RECEIVE_FD, ISOLATE_CMD_CLOSE_FD, ISOLATE_CMD_IOCTL, ISOLATE_CMD_MMAP,
    ISOLATE_CMD_MUNMAP, ISOLATE_CMD_POLL, ISOLATE_CMD_UNPOLL, ISOLATE_CMD_EXIT,
    ISOLATE_CMD_OPEN_DEVICE, ISOLATE_CMD_REALIZE_UVM_FD, ISOLATE_CMD_INTERRUPT, ISOLATE_CMD_SETUP_RING,
    ISOLATE_CMD_ENTER_LOOP, ISOLATE_CMD_PRESENT_EXPORT, ISOLATE_CMD_XISO_IMPORT.

(** The words of a decoded message. *)
Ltac wire_words :=
  repeat match goal with
  | |- context [get32 (write_bytes ?d 0 (words ?l ++ ?b)) ?o] =>
      let i := eval vm_compute in (Z.to_nat (o / 4)) in
      rewrite (get_word_at d l b o _ i eq_refl eq_refl)
  end;
  rewrite ?u32_small by (wire_types; unfold w32 in *; lia).

(** A message no longer than the union is read whole. *)
Lemma read_cmd_whole alloc stale b fd ms :
  4 <= lenz b <= sizeof_union ->
  read_cmd alloc stale (WMsg b fd :: ms) = decode_cmd alloc (write_bytes stale 0 b) (lenz b) fd ms.
Proof.
  intros Hb. unfold read_cmd. cbn [w_bytes w_fd]. rewrite take_ge by (unfold lenz, sizeof_union in *; lia).
  by rewrite (proj2 (Z.ltb_ge _ _)) by lia.
Qed.

Lemma recv_nothing ms : recv_full ms 0 = (Some [], ms).
Proof. by destruct ms. Qed.

Lemma recv_blob_whole b ms : recv_full (blob b ++ ms) (lenz b) = (Some b, ms).
Proof.
  destruct b as [|x b]; [apply recv_nothing |]. unfold blob. cbn [app recv_full w_bytes].
  rewrite (proj2 (Z.leb_gt _ _)) by (unfold lenz; cbn; lia). unfold lenz. rewrite Nat2Z.id, firstn_all.
  rewrite Z.sub_diag, recv_nothing. cbn. by rewrite app_nil_r.
Qed.

Lemma lenz_app a b : lenz (a ++ b) = lenz a + lenz b.
Proof. unfold lenz. rewrite length_app. lia. Qed.

Lemma lenz_words l : lenz (words l) = 4 * lenz l.
Proof. unfold lenz. rewrite length_words. lia. Qed.

Lemma lenz_le n v : lenz (le n v) = Z.of_nat n.
Proof. unfold lenz. by rewrite length_le. Qed.

Ltac wire_len := rewrite ?lenz_app, ?lenz_words, ?lenz_le; unfold lenz, sizeof_union; cbn [length]; lia.

(** Start of every decoding proof: the message is read whole, its type selects the
    branch. *)
Ltac wire_start :=
  unfold encode; cbn [app]; rewrite read_cmd_whole by wire_len;
  try match goal with |- context [write_bytes _ 0 (words ?l)] => rewrite <- (app_nil_r (words l)) end;
  unfold decode_cmd; wire_words;
  wire_types; cbn [Z.eqb Pos.eqb].

(** The 64-bit fields that follow the leading words of a message. *)
Lemma get_longs d l a b c r o :
  4 * lenz l = o ->
  let u := write_bytes d 0 (words l ++ le 8 a ++ le 8 b ++ le 8 c ++ r) in
  get64 u o = u64 a /\ get64 u (o + 8) = u64 b /\ get64 u (o + 16) = u64 c.
Proof.
  intros Ho. cbv zeta. split_and!.
  - apply get_long_at. by rewrite lenz_words.
  - rewrite app_assoc. apply get_long_at. rewrite lenz_app, lenz_words, lenz_le. lia.
  - rewrite app_assoc, app_assoc. apply get_long_at. rewrite !lenz_app, lenz_words, !lenz_le. lia.
Qed.

Lemma mmap_framed alloc stale h g l o p f ms :
  sane (I_mmap h g l o p f) -> read_cmd alloc stale (encode (I_mmap h g l o p f) ++ ms) = (decoded (I_mmap h g l o p f), ms).
Proof.
  intros (H1 & H2 & H3 & H4 & H5 & H6). wire_start.
  destruct (get_longs stale [4; h] g l o (words [p; f]) 8 eq_refl) as (G1 & G2 & G3).
  change (8 + 8) with 16 in G2. change (8 + 16) with 24 in G3. rewrite G1, G2, G3.
  pose proof (get_int_at stale (words [4; h] ++ le 8 g ++ le 8 l ++ le 8 o) p (words [f]) 32 eq_refl) as G4.
  pose proof (get_int_at stale (words [4; h] ++ le 8 g ++ le 8 l ++ le 8 o ++ le 4 p) f [] 36 eq_refl) as G5.
  repeat rewrite <- app_assoc in G4. repeat rewrite <- app_assoc in G5.
  change (le 4 p ++ words [f]) with (words [p; f]) in G4. change (le 4 p ++ le 4 f ++ []) with (words [p; f]) in G5.
  rewrite G4, G5. unfold w64, w32 in *. by rewrite !u64_small, !u32_small.
Qed.

Lemma munmap_framed alloc stale g l ms :
  sane (I_munmap g l) -> read_cmd alloc stale (encode (I_munmap g l) ++ ms) = (decoded (I_munmap g l), ms).
Proof.
  intros (H1 & H2). wire_start.
  pose proof (get_long_at stale (words [5; 0]) g (le 8 l) 8 eq_refl) as G1.
  pose proof (get_long_at stale (words [5; 0] ++ le 8 g) l [] 16 eq_refl) as G2.
  rewrite app_nil_r, <- app_assoc in G2. rewrite G1, G2. unfold w64 in *. by rewrite !u64_small.
Qed.

(** Commands without blobs. *)
Definition flat (c : isocmd) : bool :=
  match c with I_ioctl _ _ _ _ _ _ _ | I_realize _ _ _ _ _ _ _ _ => false | _ => true end.

Lemma flat_framed alloc stale c ms :
  flat c = true -> sane c -> read_cmd alloc stale (encode c ++ ms) = (decoded c, ms).
Proof.
  intros Hfl Hc. destruct c as [h d fd|h| |h g l o p f|g l|h e|h| |h d f t| |t|r fd|i|h g t|h t fd]; try done; clear Hfl;
    try (by auto using mmap_framed, munmap_framed); cbn [sane] in Hc.
  - destruct Hc. by wire_start.
  - by wire_start.
  - destruct Hc. by wire_start.
  - by wire_start.
  - by wire_start.
  - destruct Hc as (? & ? & ? & ?). by wire_start.
  - by wire_start.
  - destruct Hc as (? & ? & ? & ?). wire_start. by destruct r.
  - by wire_start.
  - destruct Hc as (? & ? & ?). by wire_start.
  - destruct Hc. by wire_start.
Qed.

Lemma lenz_nonneg b : 0 <= lenz b.
Proof. unfold lenz. lia. Qed.

(** The header of an ioctl command leads to its handler, with the blobs ahead. *)
Lemma ioctl_header alloc stale t h c f a p x ms :
  sane (I_ioctl t h c f a p x) ->
  read_cmd alloc stale (encode (I_ioctl t h c f a p x) ++ ms) =
  let '(pb, ms1) := if 0 <? lenz p then recv_blob alloc (lenz p) (param_alloc_size c (lenz p)) (blob p ++ blob x ++ ms)
                    else (Some ∅, blob p ++ blob x ++ ms) in
  match pb with
  | None => (D_ioctl_refused t (- ENOMEM), ms1)
  | Some pb =>
      let '(xb, ms2) := if 0 <? lenz x then recv_blob alloc (lenz x) (lenz x) ms1 else (Some ∅, ms1) in
      match xb with
      | None => (D_ioctl_refused t (- ENOMEM), ms2)
      | Some xb => (D_ioctl (Job t h c a pb (lenz p) xb (lenz x)), ms2)
      end
  end.
Proof.
  intros (H1 & H2 & H3 & H4 & H5 & H6 & H7). pose proof (lenz_nonneg p). pose proof (lenz_nonneg x).
  assert (w32 (lenz p) /\ w32 (lenz x)) as [??] by (unfold w32, MAX_PARAM_SIZE in *; lia).
  wire_start. unfold handle_ioctl_cmd. wire_words.
  rewrite !(proj2 (Z.ltb_ge MAX_PARAM_SIZE _)) by lia. cbn [orb]. by rewrite <- app_assoc.
Qed.

Section framing.
Context (alloc : Z -> bool) (Halloc : forall n, alloc n = true).

(** A blob is received into a buffer of its own, also when it is empty. *)
Lemma blob_received b want ms :
  (0 < lenz b -> 0 < want) ->
  (if 0 <? lenz b then recv_blob alloc (lenz b) want (blob b ++ ms) else (Some ∅, blob b ++ ms)) =
  (Some (write_bytes ∅ 0 b), ms).
Proof.
  intros Hw. destruct (0 <? lenz b) eqn:E; nv_bool.
  - unfold recv_blob, blob_alloc. rewrite Halloc, (proj2 (Z.eqb_neq _ _)) by lia. cbn [negb andb].
    by rewrite recv_blob_whole.
  - destruct b as [|x b]; [done |]. unfold lenz in E. cbn in E. lia.
Qed.

Lemma ioctl_framed stale t h c f a p x ms :
  sane (I_ioctl t h c f a p x) ->
  read_cmd alloc stale (encode (I_ioctl t h c f a p x) ++ ms) = (decoded (I_ioctl t h c f a p x), ms).
Proof.
  intros Hs. pose proof (lenz_nonneg p). rewrite ioctl_header by done.
  rewrite blob_received by (unfold param_alloc_size; lia). by rewrite blob_received by lia.
Qed.

Lemma realize_framed stale m p f l hint o s i ms :
  sane (I_realize m p f l hint o s i) ->
  read_cmd alloc stale (encode (I_realize m p f l hint o s i) ++ ms) = (decoded (I_realize m p f l hint o s i), ms).
Proof.
  intros ((H1 & H2 & H3 & H4 & H5 & H6) & Hs & (C1 & C2 & C3) & Hi).
  assert (w32 (lenz s) /\ w32 (lenz i)) as [??] by (unfold w32, sizeof_snapshot in *; lia).
  wire_start. unfold recv_realize, realize_of. wire_words.
  match goal with |- context [write_bytes stale 0 (words ?l0 ++ _)] =>
    destruct (get_longs stale l0 l hint o [] 32 eq_refl) as (G1 & G2 & G3) end.
  rewrite app_nil_r in G1, G2, G3. change (32 + 8) with 40 in G2. change (32 + 16) with 48 in G3.
  rewrite G1, G2, G3.
  cbn [rz_state_size rz_intent_size rz_txn]. rewrite Hs, Z.eqb_refl. cbn [negb].
  rewrite <- app_assoc, <- Hs, recv_blob_whole.
  rewrite !(proj2 (Z.ltb_ge _ (get32 _ _))) by done. cbn [orb].
  rewrite (proj2 (Z.eqb_neq (lenz i) 0)), (proj2 (Z.ltb_ge _ (lenz i))) by lia. cbn [orb].
  rewrite Halloc. cbn [negb]. rewrite recv_blob_whole. cbn. unfold w64 in *. by rewrite !u64_small.
Qed.

(** What QEMU writes for a command is what the stub acts on, and the stream is left
    at the next command. *)
Lemma cmd_framed stale c ms : sane c -> read_cmd alloc stale (encode c ++ ms) = (decoded c, ms).
Proof.
  intros Hc. destruct (flat c) eqn:E; [by apply flat_framed |].
  destruct c; try done; auto using ioctl_framed, realize_framed.
Qed.

Lemma stream_framed stale cs fuel :
  Forall sane cs -> Forall (fun c => c <> I_exit) cs -> (length cs < fuel)%nat ->
  read_all alloc fuel stale (cs ≫= encode) = (decoded <$> cs) ++ [D_exit].
Proof.
  intros Hs Hx. revert fuel. induction Hs as [|c cs Hc _ IH]; intros [|fuel] Hf; try (cbn in Hf; lia); [done |].
  inversion Hx as [|? ? Hxc Hxs]; subst. cbn [mbind list_bind read_all]. change (mret ?x) with x.
  rewrite cmd_framed by done. cbn [fmap list_fmap app]. rewrite IH by (done || (cbn in Hf; lia)).
  by destruct c.
Qed.
End framing.

(** ** Properties *)

(** C33. [wire_framing]: for every sequence of commands QEMU sends within its limits, while
    the stub can map its buffers, the stub acts on exactly those commands with
    exactly those fields and blobs, in order, and then ends; message boundaries
    never shift, whatever the reader's buffer held before. *)
Theorem wire_framing (alloc : Z -> bool) (stale : nat -> bytes) (cs : list isocmd) (fuel : nat) :
  (forall n, alloc n = true) -> Forall sane cs -> Forall (fun c => c <> I_exit) cs -> (length cs < fuel)%nat ->
  read_all alloc fuel stale (cs ≫= encode) = (decoded <$> cs) ++ [D_exit].
Proof. intros Ha. by apply stream_framed. Qed.

(** [refused_ioctl_desyncs]: when the stub cannot map the parameter buffer it refuses the
    ioctl without reading the blobs that follow; a parameter blob with the
    bytes of a command, which the guest chooses, is then executed as that
    command. *)
Theorem refused_ioctl_desyncs (alloc : Z -> bool) (stale : nat -> bytes) (n : nat)
    (t h c f a : Z) (p x : list Z) (d : isocmd) (ms : list wmsg) :
  sane (I_ioctl t h c f a p x) -> 0 < lenz p -> alloc (page_up (param_alloc_size c (lenz p))) = false ->
  flat d = true -> sane d -> d <> I_exit -> encode d = [WMsg p None] ->
  read_all alloc (S (S n)) stale (encode (I_ioctl t h c f a p x) ++ ms) =
    D_ioctl_refused t (- ENOMEM) :: decoded d :: read_all alloc n stale (blob x ++ ms).
Proof.
  intros Hi Hp Ha Hf Hd Hx He. cbn [read_all]. rewrite ioctl_header, (proj2 (Z.ltb_lt _ _)) by done.
  unfold recv_blob, blob_alloc. rewrite Ha, andb_false_r. f_equal.
  replace (blob p) with (encode d) by (rewrite He; by destruct p).
  rewrite flat_framed by done. by destruct d.
Qed.

Definition ex_cmds : list isocmd :=
  [I_open 5 0 2 1; I_ioctl 2 5 0xc020462a 0 3 (words [1; 2; 3; 4; 5; 6; 7; 8]) [9; 9]; I_mmap 5 0x7f0000000000 4096 0 3 1;
   I_munmap 0x7f0000000000 4096].

Lemma wire_framing_witness :
  read_all (fun _ => true) 5 (fun _ => put32 ∅ 4 77) (ex_cmds ≫= encode) = (decoded <$> ex_cmds) ++ [D_exit].
Proof.
  apply wire_framing; [done | | | cbn; lia].
  - unfold ex_cmds. repeat apply Forall_cons_2; [..| apply Forall_nil_2]; unfold sane, w32, w64, MAX_PARAM_SIZE, lenz; cbn; lia.
  - unfold ex_cmds. repeat apply Forall_cons_2; [..| apply Forall_nil_2]; discriminate.
Defined.

Lemma refused_ioctl_desyncs_witness :
  read_all (fun _ => false) 2 (fun _ => ∅) (encode (I_ioctl 2 5 0xc020462a 0 3 (words [2; 1]) []) ++ []) =
    [D_ioctl_refused 2 (- ENOMEM); D_close_fd 1].
Proof.
  refine (refused_ioctl_desyncs (fun _ => false) (fun _ => ∅) 0 2 5 0xc020462a 0 3 (words [2; 1]) [] (I_close_fd 1) []
            _ _ eq_refl eq_refl _ _ eq_refl); try discriminate; try (vm_compute; reflexivity).
  - repeat split; vm_compute; discriminate.
  - split; [discriminate | reflexivity].
Defined.

End StubWire.
