(* ===== verification/StubMain.v ===== *)
(** * The stub's dispatcher ([src/stub/nvkvm_stub.c])

    What the reader thread does for each decoded command: mapping the command
    ring, rebuilding a UVM descriptor from the recorded state, mapping and
    unmapping, and the commands of the other components.  The system calls and
    the UVM driver are parameters. *)

From stdpp Require Import strings.
From S2P Require Import Prelude Bytes Ring StubHandles StubIoctl StubJobs IsoPending IsoSync StubWire.
Local Open Scope Z_scope.
Local Open Scope nv_scope.

Module StubMain.
Import StubIoctl StubWire.

Definition MAP_FIXED : Z := 0x10.
Definition O_RDWR : Z := 2.
Definition NVKVM_RING_PROBE_MASK : Z := 0x5a5a5a5a5a5a5a5a.

(** [g_ring_base], [g_ring_region_size], the offset of the response ring and
    [g_ring_bytes] of a mapped ring; the state of the reader thread. *)
Record ring_map := RingMap { g_ring_base : Z; g_ring_region_size : Z; g_resp_off : Z; g_ring_bytes : Z }.

Record stub := Stub {
  b_fds : StubH.fds;
  b_queue : list (option ioctl_job);
  b_ring : option ring_map;
  b_looping : bool
}.

(** What a command sends and does besides: responses, driver calls, mappings made
    and removed, descriptors closed. *)
Inductive out :=
| O_resp (r : StubH.resp)
| O_ioctl (r : ioctl_resp)
| O_ring (error probe : Z)
| O_loop (error head : Z)
| O_realize (txn retval rm_status host_va len token : Z)
| O_call (fd cmd : Z) (buf : bytes)
| O_map (addr len prot flags fd offset : Z)
| O_unmap (addr len : Z)
| O_close (fd : Z)
| O_interrupt (tid : Z).

(** ** SETUP_RING *)

Definition ring_geometry_ok (c : ring_cmd) : bool :=
  Ring.nvkvm_ring_size_ok (rg_ring_bytes c) && (rg_req_off c =? 0) &&
  (rg_resp_off c =? u32 (Ring.nvkvm_ring_resp_off (rg_ring_bytes c))) &&
  (u32 (Ring.nvkvm_ring_region_size (rg_ring_bytes c)) <=? rg_region_size c) &&
  (rg_region_size c <=? 2 ^ 24).

(** [map]: the address of the shared mapping, [None] for [MAP_FAILED]; [mem]: the
    shared pages.  The new mapping, the pages and the output. *)
Definition handle_setup_ring (map : option Z) (c : ring_cmd) (full : bool) (scm : option Z) (ring : option ring_map) (mem : bytes)
  : option ring_map * bytes * list out :=
  match scm with
  | None => (ring, mem, [O_ring (- EINVAL) 0])
  | Some fd =>
      if negb full || bool_decide (is_Some ring) then (ring, mem, [O_close fd; O_ring (- EINVAL) 0])
      else if negb (ring_geometry_ok c) then (ring, mem, [O_close fd; O_ring (- EINVAL) 0])
      else
        match map with
        | None => (ring, mem, [O_close fd; O_ring (- ENOMEM) 0])
        | Some base =>
            let v := get64 mem Ring.sizeof_ring in
            let mem' := put64 mem (rg_resp_off c + Ring.sizeof_ring) (Z.lxor v NVKVM_RING_PROBE_MASK) in
            (Some (RingMap base (rg_region_size c) (rg_resp_off c) (rg_ring_bytes c)), mem',
             [O_close fd; O_ring 0 v])
        end
  end.

(** ** REALIZE_UVM_FD *)

Definition STUB_UVM_INITIALIZE : Z := 0x30000001.
Definition STUB_UVM_REGISTER_GPU : Z := 37.
Definition STUB_UVM_REGISTER_GPU_VASPACE : Z := 25.
Definition STUB_UVM_CREATE_RANGE_GROUP : Z := 23.
Definition STUB_UVM_ALLOC_SEMAPHORE_POOL : Z := 68.

(** Offsets in [struct stub_state_snapshot]. *)
Definition snap_gpu (i : Z) : Z := 24 + 16 * i.
Definition snap_vas (i : Z) : Z := 280 + 32 * i.
Definition snap_group (i : Z) : Z := 792 + 8 * i.

(** The parameter blocks of the replayed calls. *)
Definition uvm_init_buf (st : bytes) : bytes := put64 ∅ 0 (get64 st 0).
Definition uvm_gpu_buf (st : bytes) (i : Z) : bytes :=
  put32 (write_bytes ∅ 0 (read_bytes st (snap_gpu i) 16)) 20 (-1).
Definition uvm_vas_buf (st : bytes) (i fd : Z) : bytes :=
  put32 (put32 (put32 (write_bytes ∅ 0 (read_bytes st (snap_vas i) 16)) 16 fd)
    20 (get32 st (snap_vas i + 20))) 24 (get32 st (snap_vas i + 24)).
Definition uvm_group_buf (st : bytes) (i : Z) : bytes := put64 ∅ 0 (get64 st (snap_group i)).

(** A failed step: [retval] and [rm_status] of the response. *)
Definition step_failure (r rm : Z) : option (Z * Z) :=
  if (r <? 0) || negb (rm =? 0) then Some (if rm =? 0 then s32 r else 0, rm) else None.

Section realize.
(** The UVM driver: return value and the parameter block afterwards; the handle
    table; mapping at an address: the address or [None]. *)
Context (uvm : Z -> Z -> bytes -> Z * bytes) (lookup : Z -> Z) (map : Z -> Z -> Z -> Z -> Z -> Z -> option Z).

(** The calls made and the failure they end with. *)
Definition uvm_step (fd cmd status_off : Z) (buf : bytes) : list out * option (Z * Z) :=
  let '(r, b) := uvm fd cmd buf in ([O_call fd cmd buf], step_failure r (get32 b status_off)).

Definition and_then (a : list out * option (Z * Z)) (b : list out * option (Z * Z)) : list out * option (Z * Z) :=
  match snd a with Some _ => a | None => (fst a ++ fst b, snd b) end.

Fixpoint replay (f : Z -> list out * option (Z * Z)) (i : Z) (n : nat) : list out * option (Z * Z) :=
  match n with
  | O => ([], None)
  | S n' => and_then (f i) (replay f (i + 1) n')
  end.

Definition vas_step (fd : Z) (st : bytes) (i : Z) : list out * option (Z * Z) :=
  let local_fd := lookup (get32 st (snap_vas i + 16)) in
  if local_fd <? 0 then ([], Some (- EBADF, 0))
  else uvm_step fd STUB_UVM_REGISTER_GPU_VASPACE 28 (uvm_vas_buf st i local_fd).

Definition intent_step (fd : Z) (c : realize_cmd) (intent : bytes) : list out * option (Z * Z) :=
  if rz_mode c =? 1 then
    let '(r, b) := uvm fd STUB_UVM_ALLOC_SEMAPHORE_POOL intent in
    let st := get32 b (rz_intent_size c - 4) in
    ([O_call fd STUB_UVM_ALLOC_SEMAPHORE_POOL intent],
     if r <? 0 then Some (s32 r, st) else if negb (st =? 0) then Some (0, st) else None)
  else ([], Some (- ENOTSUP, 0)).

(** Steps 4 to 8. *)
Definition replay_all (fd : Z) (c : realize_cmd) (st intent : bytes) : list out * option (Z * Z) :=
  and_then (uvm_step fd STUB_UVM_INITIALIZE 8 (uvm_init_buf st))
  (and_then (replay (fun i => uvm_step fd STUB_UVM_REGISTER_GPU 24 (uvm_gpu_buf st i)) 0 (Z.to_nat (get32 st 8)))
  (and_then (replay (vas_step fd st) 0 (Z.to_nat (get32 st 12)))
  (and_then (replay (fun i => uvm_step fd STUB_UVM_CREATE_RANGE_GROUP 8 (uvm_group_buf st i)) 0 (Z.to_nat (get32 st 16)))
  (intent_step fd c intent)))).

(** From the open on; [uvm_fd] is what opening /dev/nvidia-uvm gives. *)
Definition handle_realize_uvm_fd (uvm_fd : Z) (c : realize_cmd) (st intent : bytes) : list out :=
  if uvm_fd <? 0 then [O_realize (rz_txn c) uvm_fd 0 0 0 0]
  else
    let '(calls, fail) := replay_all uvm_fd c st intent in
    let refuse m retval rm :=
      calls ++ m ++ (if negb (retval =? 0) || negb (rm =? 0) then [O_close uvm_fd] else []) ++
      [O_realize (rz_txn c) retval rm 0 0 0] in
    match fail with
    | Some (retval, rm) => refuse [] retval rm
    | None =>
        let flags := if rz_host_va_hint c =? 0 then rz_map_flags c else Z.lor (rz_map_flags c) MAP_FIXED in
        let m := O_map (rz_host_va_hint c) (rz_length c) (rz_prot c) flags uvm_fd (rz_offset c) in
        match map (rz_host_va_hint c) (rz_length c) (rz_prot c) flags uvm_fd (rz_offset c) with
        | None => refuse [m] (- ENOMEM) 0
        | Some va => calls ++ [m; O_realize (rz_txn c) 0 0 va (rz_length c) va]
        end
    end.

(** ** MMAP and MUNMAP *)

Definition handle_mmap (handle_id gva len offset prot flags : Z) : list out :=
  let fd := lookup handle_id in
  if fd <? 0 then [O_resp (StubH.RespMmap (- EBADF))]
  else
    let flags := Z.lor flags MAP_FIXED in
    [O_map gva len prot flags fd offset;
     O_resp (StubH.RespMmap (match map gva len prot flags fd offset with None => - ENOMEM | Some _ => 0 end))].

Definition handle_munmap_cmd (gva len : Z) : list out := [O_unmap gva len; O_resp StubH.RespOk].
End realize.

(** ** The switch *)

Section dispatch.
Context (uvm : Z -> Z -> bytes -> Z * bytes) (map : Z -> Z -> Z -> Z -> Z -> Z -> option Z).
Context (dev_dirfd : bool) (host_open : StubH.open_at -> Z -> Z) (host_eventfd : Z).
Context (prime_export prime_import : Z -> Z -> Z * Z).
(** [(worker_inflight_txn\[i\], worker_tids\[i\])] for the workers; the head the consumer
    loop returns and the head at the moment; the mapping of the ring's memfd. *)
Context (workers : list (Z * Z)) (loop_head : Z -> Z) (cur_head : Z) (ring_va : option Z).

Definition with_fds (s : stub) (f : StubH.fds) : stub := Stub f (b_queue s) (b_ring s) (b_looping s).

(** State, shared pages, output, and whether the reader ends. *)
Definition stub_dispatch_cmd (d : dcmd) (s : stub) (mem : bytes) : stub * bytes * list out * bool :=
  let lookup id := StubH.handle_lookup id (b_fds s) in
  let moved r := let '(f, closed, resps) := r in
                 (with_fds s f, mem, (O_close <$> closed) ++ (O_resp <$> resps), false) in
  let stay o := (s, mem, o, false) in
  match d with
  | D_receive_fd h dev scm => moved (StubH.receive_fd h dev scm (b_fds s))
  | D_close_fd h => moved (StubH.handle_close_fd h (b_fds s))
  | D_ioctl j =>
      let '(q, r) := StubJobs.enqueue_job j (b_queue s) in
      (Stub (b_fds s) q (b_ring s) (b_looping s), mem, O_ioctl <$> option_list r, false)
  | D_ioctl_refused txn e => stay [O_ioctl (IResp txn e 0 [] [])]
  | D_mmap h g l o p f => stay (handle_mmap lookup map h g l o p f)
  | D_munmap g l => stay (handle_munmap_cmd g l)
  | D_poll h => (with_fds s (StubH.poll_arm h (b_fds s)), mem, [O_resp StubH.RespOk], false)
  | D_unpoll h => (with_fds s (StubH.poll_disarm h (b_fds s)), mem, [O_resp StubH.RespOk], false)
  | D_open txn h dev f => moved (StubH.handle_open_device dev_dirfd host_open host_eventfd true txn h dev f (b_fds s))
  | D_export txn h g => moved (b_fds s, fst (StubH.handle_present_export prime_export txn h g (b_fds s)),
                               snd (StubH.handle_present_export prime_export txn h g (b_fds s)))
  | D_import txn h scm => moved (b_fds s, fst (StubH.handle_xiso_import prime_import txn h scm (b_fds s)),
                                 snd (StubH.handle_xiso_import prime_import txn h scm (b_fds s)))
  | D_realize c st it =>
      let fd := host_open (StubH.stub_open_path dev_dirfd "nvidia-uvm") (Z.lor O_RDWR StubH.O_CLOEXEC) in
      stay (handle_realize_uvm_fd uvm lookup map fd c st it)
  | D_realize_refused txn e => stay [O_realize txn e 0 0 0 0]
  | D_interrupt txn => stay (O_interrupt <$> option_list (StubJobs.interrupt_txn txn workers))
  | D_setup_ring c full scm =>
      let '(r, mem', o) := handle_setup_ring ring_va c full scm (b_ring s) mem in
      (Stub (b_fds s) (b_queue s) r (b_looping s), mem', o, false)
  | D_enter_loop idle =>
      match b_ring s with
      | None => stay [O_loop (- ENODEV) 0]
      | Some _ => stay [O_loop 0 (if b_looping s then cur_head else loop_head idle)]
      end
  | D_exit => (s, mem, [], true)
  end.
End dispatch.

(** ** Answers *)

(** The answers that end in QEMU's shared slot, and the commands that wait there. *)
Definition to_sync (o : out) : option IsoSync.sresp :=
  match o with
  | O_resp StubH.RespOk => Some IsoSync.SR_ok
  | O_resp (StubH.RespError e) => Some (IsoSync.SR_error e)
  | O_resp (StubH.RespMmap v) => Some (IsoSync.SR_mmap v)
  | O_resp (StubH.RespOpenDevice _ v fd) => Some (IsoSync.SR_open v fd)
  | O_ring e p => Some (IsoSync.SR_ring e p)
  | O_loop e h => Some (IsoSync.SR_loop e h)
  | O_realize _ v rm va len tok => Some (IsoSync.SR_realize v rm va len tok)
  | _ => None
  end.

Definition waits (d : dcmd) : option IsoSync.scmd :=
  match d with
  | D_receive_fd _ _ _ | D_close_fd _ | D_munmap _ _ | D_poll _ | D_unpoll _ => Some IsoSync.SC_plain
  | D_mmap _ _ _ _ _ _ => Some IsoSync.SC_mmap
  | D_open _ _ _ _ => Some IsoSync.SC_open
  | D_realize _ _ _ | D_realize_refused _ _ => Some IsoSync.SC_realize
  | D_setup_ring _ _ _ => Some IsoSync.SC_ring
  | D_enter_loop _ => Some IsoSync.SC_loop
  | _ => None
  end.

Lemma sync_app l1 l2 : omap to_sync (l1 ++ l2) = omap to_sync l1 ++ omap to_sync l2.
Proof. apply omap_app. Qed.

Lemma sync_closes l : omap to_sync (O_close <$> l) = [].
Proof. by induction l. Qed.

Lemma sync_moved closed resps :
  omap to_sync ((O_close <$> closed) ++ (O_resp <$> resps)) = omap (fun r => to_sync (O_resp r)) resps.
Proof. rewrite sync_app, sync_closes. cbn. induction resps as [|r l IH]; [done |]. cbn. by rewrite IH. Qed.

(** The responses of the commands that move descriptors. *)
Lemma receive_answer h dev scm f :
  snd (StubH.receive_fd h dev scm f) = [match scm with None => StubH.RespError EINVAL | Some _ => StubH.RespOk end].
Proof.
  unfold StubH.receive_fd. destruct scm as [fd|]; [|done].
  destruct (if bool_decide _ then _ else _) as [s1 local]. destruct (match local with Some _ => _ | None => _ end) as [fd1 c1].
  by destruct (StubH.replace h fd1 s1).
Qed.

Lemma open_answer dirfd host_open host_eventfd txn h dev fl f :
  exists v fd, snd (StubH.handle_open_device dirfd host_open host_eventfd true txn h dev fl f) = [StubH.RespOpenDevice txn v fd] /\
    (v < 0 /\ fd = None \/ exists x, 0 <= x /\ v = 0 /\ fd = Some x).
Proof.
  unfold StubH.handle_open_device. destruct (_ <? 0) eqn:E; nv_bool.
  - eexists _, _. split; [done | auto].
  - destruct (StubH.replace h _ f). eexists _, _. split; [done |]. eauto.
Qed.

Lemma close_answer h f : snd (StubH.handle_close_fd h f) = [StubH.RespOk].
Proof. unfold StubH.handle_close_fd. by destruct (StubH.handle_remove h f). Qed.

Lemma export_answer prime txn h g f :
  omap (fun r => to_sync (O_resp r)) (snd (StubH.handle_present_export prime txn h g f)) = [].
Proof. unfold StubH.handle_present_export. repeat case_match; done. Qed.

Lemma import_answer prime txn h scm f :
  omap (fun r => to_sync (O_resp r)) (snd (StubH.handle_xiso_import prime txn h scm f)) = [].
Proof. unfold StubH.handle_xiso_import. repeat case_match; done. Qed.

Definition call_of (o : out) : option (Z * bytes) := match o with O_call _ cmd b => Some (cmd, b) | _ => None end.

Section answers.
Context (uvm : Z -> Z -> bytes -> Z * bytes) (lookup : Z -> Z) (map : Z -> Z -> Z -> Z -> Z -> Z -> option Z).

(** Driver calls are no answers. *)
Definition silent (a : list out * option (Z * Z)) : Prop := Forall (fun o => is_Some (call_of o)) (fst a).

Lemma silent_then a b : silent a -> silent b -> silent (and_then a b).
Proof. unfold silent, and_then. intros Ha Hb. destruct (snd a); [done |]. cbn. by apply Forall_app_2. Qed.

Lemma silent_step fd cmd off b : silent (uvm_step uvm fd cmd off b).
Proof. unfold silent, uvm_step. destruct (uvm fd cmd b). by repeat constructor. Qed.

Lemma silent_replay f i n : (forall j, silent (f j)) -> silent (replay f i n).
Proof. intros Hf. revert i. induction n as [|n IH]; intros i; [by constructor |]. apply silent_then; auto. Qed.

Lemma silent_vas fd st i : silent (vas_step uvm lookup fd st i).
Proof. unfold vas_step. case_match; [by constructor | apply silent_step]. Qed.

Lemma silent_intent fd c it : silent (intent_step uvm fd c it).
Proof. unfold silent, intent_step. case_match; [|by constructor]. destruct (uvm fd _ it). by repeat constructor. Qed.

Lemma silent_all fd c st it : silent (replay_all uvm lookup fd c st it).
Proof.
  unfold replay_all. repeat (apply silent_then);
    auto using silent_step, silent_replay, silent_vas, silent_intent.
Qed.

Lemma silent_sync a : silent a -> omap to_sync (fst a) = [].
Proof. unfold silent. induction 1 as [|o l [x Ho] _ IH]; [done |]. by destruct o. Qed.

Lemma realize_one_answer fd c st it :
  exists v rm va len tok, omap to_sync (handle_realize_uvm_fd uvm lookup map fd c st it) = [IsoSync.SR_realize v rm va len tok].
Proof.
  unfold handle_realize_uvm_fd. destruct (fd <? 0); [by eexists _, _, _, _, _ |].
  pose proof (silent_sync _ (silent_all fd c st it)) as Hs.
  destruct (replay_all uvm lookup fd c st it) as [calls [[v rm]|]]; cbn [fst] in Hs.
  - rewrite !sync_app, Hs. destruct (negb (v =? 0) || negb (rm =? 0)); by eexists _, _, _, _, _.
  - destruct (map _ _ _ _ _ _) as [va|].
    + rewrite sync_app, Hs. by eexists _, _, _, _, _.
    + rewrite !sync_app, Hs. by eexists _, _, _, _, _.
Qed.
End answers.

Section dispatch_answers.
Context (uvm : Z -> Z -> bytes -> Z * bytes) (map : Z -> Z -> Z -> Z -> Z -> Z -> option Z).
Context (dev_dirfd : bool) (host_open : StubH.open_at -> Z -> Z) (host_eventfd : Z).
Context (prime_export prime_import : Z -> Z -> Z * Z).
Context (workers : list (Z * Z)) (loop_head : Z -> Z) (cur_head : Z) (ring_va : option Z).

#[local] Abbreviation dispatch :=
  (stub_dispatch_cmd uvm map dev_dirfd host_open host_eventfd prime_export prime_import workers loop_head cur_head ring_va).

(** [dispatch_answers_once]: every command QEMU waits for in the shared slot is answered
    exactly once, whatever the state and whatever the system calls and the
    driver return, with an answer of the kind that command expects; the other
    commands put nothing into the slot. *)
Theorem dispatch_answers_once (d : dcmd) (s : stub) (mem : bytes) :
  let '(_, _, o, fin) := dispatch d s mem in
  match waits d with
  | Some k => fin = false /\ exists r res, omap to_sync o = [r] /\ IsoSync.expects k r res
  | None => omap to_sync o = []
  end.
Proof.
  destruct d as [h dev scm|h|j|t e|h g l o p f|g l|h|h|t h dev fl|c st it|t e|t|c full scm|i|t h g|t h scm|];
    cbn [stub_dispatch_cmd waits].
  - pose proof (receive_answer h dev scm (b_fds s)) as H.
    destruct (StubH.receive_fd _ _ _ _) as [[f' c'] r']. cbn in H. subst r'. rewrite sync_moved. split; [done |].
    destruct scm; eexists _, _; (split; [reflexivity | constructor]).
  - pose proof (close_answer h (b_fds s)) as H.
    destruct (StubH.handle_close_fd _ _) as [[f' c'] r']. cbn in H. subst r'. rewrite sync_moved. split; [done |].
    eexists _, _. split; [reflexivity | constructor].
  - destruct (StubJobs.enqueue_job j (b_queue s)) as [q [r|]]; done.
  - done.
  - split; [done |]. unfold handle_mmap. case_match; eexists _, _; (split; [reflexivity | constructor]).
  - split; [done |]. eexists _, _. split; [reflexivity | constructor].
  - split; [done |]. eexists _, _. split; [reflexivity | constructor].
  - split; [done |]. eexists _, _. split; [reflexivity | constructor].
  - destruct (open_answer dev_dirfd host_open host_eventfd t h dev fl (b_fds s)) as (v & fd & H & Hv).
    destruct (StubH.handle_open_device _ _ _ _ _ _ _ _ _) as [[f' c'] r']. cbn in H. subst r'. rewrite sync_moved.
    split; [done |]. destruct Hv as [(Hv & ->)|(x & Hx & -> & ->)]; eexists _, _; (split; [reflexivity | constructor; lia]).
  - split; [done |].
    match goal with |- context [handle_realize_uvm_fd ?u ?l ?m ?fd c st it] =>
      destruct (realize_one_answer u l m fd c st it) as (v & rm & va & len & tok & H) end.
    rewrite H. eexists _, _. split; [reflexivity | constructor].
  - split; [done |]. eexists _, _. split; [reflexivity | constructor].
  - by destruct (StubJobs.interrupt_txn t workers).
  - unfold handle_setup_ring. destruct scm as [fd|]; [destruct (negb full || _); [|destruct (negb _); [|destruct ring_va]] |];
      (split; [done |]); eexists _, _; (split; [reflexivity | constructor]).
  - destruct (b_ring s); (split; [done |]); eexists _, _; (split; [reflexivity | constructor]).
  - rewrite sync_moved. apply export_answer.
  - rewrite sync_moved. apply import_answer.
  - done.
Qed.
End dispatch_answers.

(** ** Replaying the recorded state *)

Section replays.
Context (uvm : Z -> Z -> bytes -> Z * bytes) (lookup : Z -> Z) (map : Z -> Z -> Z -> Z -> Z -> Z -> option Z).
(** A system call returns an errno or a non-negative value. *)
Context (Huvm : forall fd cmd b, -4096 < fst (uvm fd cmd b)).

(** The calls that rebuild a descriptor, in order. *)
Definition recorded (c : realize_cmd) (st intent : bytes) : list (Z * bytes) :=
  [(STUB_UVM_INITIALIZE, uvm_init_buf st)] ++
  ((fun i => (STUB_UVM_REGISTER_GPU, uvm_gpu_buf st i)) <$> seqZ 0 (get32 st 8)) ++
  ((fun i => (STUB_UVM_REGISTER_GPU_VASPACE, uvm_vas_buf st i (lookup (get32 st (snap_vas i + 16))))) <$> seqZ 0 (get32 st 12)) ++
  ((fun i => (STUB_UVM_CREATE_RANGE_GROUP, uvm_group_buf st i)) <$> seqZ 0 (get32 st 16)) ++
  [(STUB_UVM_ALLOC_SEMAPHORE_POOL, intent)].

(** A part of the replay does the calls [l] or, when one fails, a prefix of them. *)
Definition does (a : list out * option (Z * Z)) (l : list (Z * bytes)) : Prop :=
  match snd a with
  | None => omap call_of (fst a) = l
  | Some (v, rm) => omap call_of (fst a) `prefix_of` l /\ (v <> 0 \/ rm <> 0)
  end.

Lemma calls_app l1 l2 : omap call_of (l1 ++ l2) = omap call_of l1 ++ omap call_of l2.
Proof. apply omap_app. Qed.

Lemma does_then a b la lb : does a la -> does b lb -> does (and_then a b) (la ++ lb).
Proof.
  unfold does, and_then. intros Ha Hb. destruct (snd a) as [[v rm]|] eqn:E.
  - rewrite E. destruct Ha. split; [by apply prefix_app_r | done].
  - cbn. rewrite calls_app, Ha. destruct (snd b) as [[v rm]|]; [|by rewrite Hb].
    destruct Hb. split; [by apply prefix_app | done].
Qed.

Lemma s32_errno r : -4096 < r < 0 -> s32 r <> 0.
Proof. intros H. unfold s32, u32. rewrite <- (Z.mod_unique_pos r (2 ^ 32) (-1) (r + 2 ^ 32)) by lia. case_match; lia. Qed.

Lemma step_does fd cmd off b : does (uvm_step uvm fd cmd off b) [(cmd, b)].
Proof.
  unfold does, uvm_step. specialize (Huvm fd cmd b). destruct (uvm fd cmd b) as [r b']. cbn in *.
  unfold step_failure. destruct ((r <? 0) || negb (get32 b' off =? 0)) eqn:E; [|done]. split; [done |].
  destruct (get32 b' off =? 0) eqn:E0; nv_bool; [|by right]. left. apply s32_errno. cbn in E. rewrite orb_false_r in E. nv_bool. lia.
Qed.

Lemma replay_does f g i n :
  (forall j, does (f j) [g j]) -> does (replay f i n) (g <$> seqZ i (Z.of_nat n)).
Proof.
  intros Hf. revert i. induction n as [|n IH]; intros i; [done |].
  rewrite seqZ_cons by lia. replace (Z.succ i) with (i + 1) by lia. replace (Z.pred (Z.of_nat (S n))) with (Z.of_nat n) by lia.
  rewrite fmap_cons. apply (does_then _ _ [g i]); auto.
Qed.

Lemma vas_does fd st i :
  does (vas_step uvm lookup fd st i) [(STUB_UVM_REGISTER_GPU_VASPACE, uvm_vas_buf st i (lookup (get32 st (snap_vas i + 16))))].
Proof.
  unfold vas_step. case_match; [|apply step_does]. split; [apply prefix_nil |]. by left.
Qed.

Lemma intent_does fd c it : rz_mode c = 1 -> does (intent_step uvm fd c it) [(STUB_UVM_ALLOC_SEMAPHORE_POOL, it)].
Proof.
  intros Hm. unfold does, intent_step. rewrite Hm, Z.eqb_refl. specialize (Huvm fd STUB_UVM_ALLOC_SEMAPHORE_POOL it).
  destruct (uvm fd _ it) as [r b]. cbn in *. destruct (r <? 0) eqn:E; nv_bool.
  - split; [done |]. left. apply s32_errno. lia.
  - destruct (get32 b (rz_intent_size c - 4) =? 0) eqn:E0; cbn; [done |]. nv_bool. split; [done | by right].
Qed.

Lemma all_does fd c st it : rz_mode c = 1 -> does (replay_all uvm lookup fd c st it) (recorded c st it).
Proof.
  intros Hm. unfold replay_all, recorded. pose proof (get32_range st 8). pose proof (get32_range st 12). pose proof (get32_range st 16).
  repeat apply does_then; try apply step_does; try (by apply intent_does).
  - rewrite <- (Z2Nat.id (get32 st 8)) at 2 by lia. apply replay_does. intros. apply step_does.
  - rewrite <- (Z2Nat.id (get32 st 12)) at 2 by lia. apply replay_does. intros. apply vas_does.
  - rewrite <- (Z2Nat.id (get32 st 16)) at 2 by lia. apply replay_does. intros. apply step_does.
Qed.

(** [realize_replays]: a realize command opens one descriptor and makes the recorded
    calls on it, each once and in the recorded order, stopping at the first that
    fails.  It reports success only after all of them, by the status word the
    code reads, and the mapping succeeded, and then keeps the descriptor; on every failure it reports a
    non-zero value and closes the descriptor. *)
Theorem realize_replays (fd : Z) (c : realize_cmd) (st intent : bytes) :
  0 <= fd -> rz_mode c = 1 ->
  let o := handle_realize_uvm_fd uvm lookup map fd c st intent in
  (exists va, last o = Some (O_realize (rz_txn c) 0 0 va (rz_length c) va) /\
     omap call_of o = recorded c st intent /\ O_close fd ∉ o) \/
  (exists v rm, last o = Some (O_realize (rz_txn c) v rm 0 0 0) /\ (v <> 0 \/ rm <> 0) /\
     omap call_of o `prefix_of` recorded c st intent /\ O_close fd ∈ o).
Proof.
  intros Hfd Hm. cbv zeta. unfold handle_realize_uvm_fd. rewrite (proj2 (Z.ltb_ge _ _)) by done.
  pose proof (all_does fd c st intent Hm) as H. unfold does in H.
  assert (forall calls m v rm, v <> 0 \/ rm <> 0 -> omap call_of m = [] ->
    omap call_of calls `prefix_of` recorded c st intent ->
    let o := calls ++ m ++ (if negb (v =? 0) || negb (rm =? 0) then [O_close fd] else []) ++ [O_realize (rz_txn c) v rm 0 0 0] in
    last o = Some (O_realize (rz_txn c) v rm 0 0 0) /\ (v <> 0 \/ rm <> 0) /\
    omap call_of o `prefix_of` recorded c st intent /\ O_close fd ∈ o) as Hfail.
  { intros calls m v rm Hv Hmm Hp. cbv zeta.
    assert (negb (v =? 0) || negb (rm =? 0) = true) as -> by (destruct Hv; apply orb_true_iff; [left|right]; by apply negb_true_iff, Z.eqb_neq).
    split_and!; [|done | |].
    - rewrite !app_assoc. apply last_snoc.
    - rewrite !calls_app, Hmm. cbn. by rewrite app_nil_r.
    - rewrite !elem_of_app. set_solver. }
  destruct (replay_all uvm lookup fd c st intent) as [calls [[v rm]|]] eqn:E; cbn [fst snd] in H.
  - right. destruct H as [Hp Hv]. exists v, rm. by apply (Hfail calls []).
  - destruct (map _ _ _ _ _ _) as [va|].
    + left. exists va. split_and!.
      * change (?a ++ [?m; ?r]) with (a ++ [m] ++ [r]). rewrite app_assoc. apply last_snoc.
      * rewrite calls_app, H. cbn. by rewrite app_nil_r.
      * pose proof (silent_all uvm lookup fd c st intent) as Hs. unfold silent in Hs. rewrite E in Hs. cbn in Hs.
        rewrite not_elem_of_app. split; [|set_solver]. intros Hin. rewrite Forall_forall in Hs. by destruct (Hs _ Hin).
    + right. exists (- ENOMEM), 0. apply (Hfail calls [_]); [by left | done | by rewrite H].
Qed.

(** [rm_status] of [struct uvm_alloc_semaphore_pool_params] ([src/abi/uvm.h]). *)
Definition SEM_POOL_RM_STATUS : Z := 9240.

(** [realize_status_missed]: the semaphore-pool parameters end in the status at 9240 and
    four bytes of padding, but the stub reads the last four bytes: a pool the driver
    refused by its status, with clear padding, is mapped and reported as a success. *)
Theorem realize_status_missed (fd : Z) (c : realize_cmd) (st intent b : bytes) (va status : Z) :
  0 <= fd -> rz_mode c = 1 -> rz_intent_size c = 9248 ->
  get32 st 8 = 0 -> get32 st 12 = 0 -> get32 st 16 = 0 ->
  snd (uvm_step uvm fd STUB_UVM_INITIALIZE 8 (uvm_init_buf st)) = None ->
  uvm fd STUB_UVM_ALLOC_SEMAPHORE_POOL intent = (0, b) ->
  get32 b SEM_POOL_RM_STATUS = status -> status <> 0 -> get32 b (SEM_POOL_RM_STATUS + 4) = 0 ->
  (forall addr len prot flags off, map addr len prot flags fd off = Some va) ->
  last (handle_realize_uvm_fd uvm lookup map fd c st intent) = Some (O_realize (rz_txn c) 0 0 va (rz_length c) va).
Proof.
  intros Hfd Hm Hs H8 H12 H16 Hi Hp _ _ Hpad Hmap. unfold handle_realize_uvm_fd, replay_all.
  rewrite (proj2 (Z.ltb_ge _ _)) by done. rewrite H8, H12, H16. unfold and_then at 1. rewrite Hi. cbn [replay and_then snd fst app].
  unfold intent_step. rewrite Hm, Hp, Hs. cbn [Z.eqb Pos.eqb snd fst].
  change (9248 - 4) with (SEM_POOL_RM_STATUS + 4). rewrite Hpad. cbn [Z.ltb Z.compare Z.eqb negb]. rewrite Hmap.
  change (?a ++ [?m; ?r]) with (a ++ [m] ++ [r]). rewrite app_assoc. apply last_snoc.
Qed.
End replays.

Definition ex_snapshot : bytes := put32 (put32 (put32 (put32 ∅ 8 1) 12 1) 16 1) 296 5.
Definition ex_realize : realize_cmd := RealizeCmd 1 1 920 9248 3 1 4096 0x200000000 0.
Definition ex_uvm (fd cmd : Z) (b : bytes) : Z * bytes := (0, b).
Definition ex_map (addr len prot flags fd off : Z) : option Z := Some addr.

Lemma realize_replays_witness :
  exists v rm va len tok,
    last (handle_realize_uvm_fd ex_uvm (fun _ => 7) ex_map 5 ex_realize ex_snapshot ∅) = Some (O_realize 1 v rm va len tok).
Proof.
  destruct (realize_replays ex_uvm (fun _ => 7) ex_map (fun _ _ _ => eq_refl) 5 ex_realize ex_snapshot ∅)
    as [(va & H & _)|(v & rm & H & _)]; [discriminate | reflexivity | |]; eexists _, _, _, _, _; exact H.
Defined.

Definition ex_pool_uvm (fd cmd : Z) (b : bytes) : Z * bytes :=
  (0, if cmd =? STUB_UVM_ALLOC_SEMAPHORE_POOL then put32 b SEM_POOL_RM_STATUS 31 else b).

Lemma realize_status_missed_witness :
  last (handle_realize_uvm_fd ex_pool_uvm (fun _ => 7) (fun _ _ _ _ _ _ => Some 0x200000000) 5 ex_realize ∅ ∅) =
    Some (O_realize 1 0 0 0x200000000 4096 0x200000000).
Proof.
  exact (realize_status_missed ex_pool_uvm (fun _ => 7) (fun _ _ _ _ _ _ => Some 0x200000000)
    5 ex_realize ∅ ∅ (put32 ∅ SEM_POOL_RM_STATUS 31) 0x200000000 31 ltac:(lia) eq_refl eq_refl eq_refl eq_refl eq_refl
    eq_refl eq_refl eq_refl ltac:(discriminate) eq_refl (fun _ _ _ _ _ => eq_refl)).
Defined.

End StubMain.
