(* ===== verification/StubLink.v ===== *)
(** * From a guest request to the driver

    The components put together: the ioctl request of the device
    ([src/qemu/nvkvm_isolate_handlers.c]) with the command stream and the worker of
    the stub ([src/stub/nvkvm_stub.c]) as the isolate, and ring setup with the stub's
    handler as its answer. *)

From stdpp Require Import strings.
From S2P Require Import Prelude Extents Bytes Ring HandleTable UvmVa GpaAlloc Allowlists IoctlGate IsoMmap Sessions StubHandles StubIoctl StubMarshal StubWire StubMain.
Local Open Scope Z_scope.
Local Open Scope nv_scope.

Module StubLink.
Import StubIoctl StubMarshal StubWire StubMain.

(** ** An ioctl *)

Section ioctl.
Context (lookup : Z -> Z) (aux_va : Z) (driver : drv_call -> Z * bytes * bytes).
(** The transaction id and the ABI number QEMU puts into the command. *)
Context (txn abi_id : Z).

Definition blob_of (b : option bytes) (size : Z) : list Z := read_bytes (default ∅ b) 0 size.

(** The command [nvkvm_isolate_ioctl] sends. *)
Definition command_of (q : Gate.iso_req) : isocmd :=
  I_ioctl txn (Gate.q_handle q) (Gate.q_cmd q) (Gate.q_flags q) abi_id
    (blob_of (Gate.q_param q) (Gate.q_param_size q)) (blob_of (Gate.q_aux q) (Gate.q_aux_size q)).

(** The job the stub makes of it. *)
Definition job_of_request (q : Gate.iso_req) : ioctl_job :=
  let p := blob_of (Gate.q_param q) (Gate.q_param_size q) in
  let a := blob_of (Gate.q_aux q) (Gate.q_aux_size q) in
  Job txn (Gate.q_handle q) (Gate.q_cmd q) abi_id (write_bytes ∅ 0 p) (lenz p) (write_bytes ∅ 0 a) (lenz a).

Definition driver_calls (q : Gate.iso_req) : list drv_call := fst (worker_job lookup aux_va driver (job_of_request q)).

(** What [nvkvm_isolate_ioctl] returns: the blobs of the response overwrite the
    caller's buffers. *)
Definition stub_isolate (q : Gate.iso_req) : Gate.reply :=
  let r := snd (worker_job lookup aux_va driver (job_of_request q)) in
  let back b l := match b with Some d => Some (write_bytes d 0 l) | None => None end in
  Gate.Reply (r_retval r) (r_nvstatus r) 0 (back (Gate.q_param q) (r_param r)) (back (Gate.q_aux q) (r_aux r)).

Context (uvm_ioctl : Z -> Z -> bytes -> Z * Z * bytes) (dup : Z -> Z) (host_pid : Z -> Z) (pid_mem : Z -> Z -> Z * bool).

(** The device's handler with the stub behind it. *)
Definition guest_ioctl := Gate.nvkvm_req_ioctl_on_isolate uvm_ioctl dup stub_isolate host_pid pid_mem.

Lemma lenz_blob b size : 0 <= size -> lenz (blob_of b size) = size.
Proof. intros. unfold lenz, blob_of. rewrite length_read_bytes. lia. Qed.

(** The stub decodes what QEMU sends to exactly this job. *)
Lemma request_framed alloc stale q ms :
  (forall n, alloc n = true) -> sane (command_of q) ->
  read_cmd alloc stale (encode (command_of q) ++ ms) = (D_ioctl (job_of_request q), ms).
Proof. intros Ha Hs. by rewrite cmd_framed. Qed.

Lemma copied b size : 0 <= size -> agree (write_bytes ∅ 0 (read_bytes b 0 size)) b 0 size.
Proof.
  intros Hs i Hi. replace i with (0 + Z.of_nat (Z.to_nat i)) at 1 by lia.
  apply get8_write_in; [apply octets_read |]. rewrite lookup_read by lia. do 2 f_equal. lia.
Qed.

(** A control that is not the pid query reaches the isolate with its own data. *)
Lemma pid_prepare_other req p aux :
  get32 p 8 <> 0x2080018e -> Gate.pid_prepare host_pid req (Some p) aux = None.
Proof.
  intros Hc. unfold Gate.pid_prepare, Gate.has_param. destruct (_ && _); [|done].
  destruct (12 <=? _), aux; try done. by rewrite (proj2 (Z.eqb_neq _ _) Hc).
Qed.

Lemma wire_ptr_other j p i :
  layout_ptr j = Some 16 -> ~ (16 <= i < 24) -> get8 (wire_ptr aux_va j p) i = get8 p i.
Proof.
  intros Hl Hi. unfold wire_ptr. destruct (ptr_off j) as [o|] eqn:E; [|done]. apply get8_put64_ne.
  assert (o = 16) as -> ; [|done]. apply layout_type in Hl as [(? & _)|[(? & _)|(_ & Ht & Hr)]]; [done | done |].
  unfold ptr_off in E. rewrite Ht in E. change (Allow.type_F =? Allow.type_d) with false in E.
  destruct (cmd j =? Allow.NVKVM_NVKMS_IOCTL_CMD) eqn:Ec.
  { nv_bool. unfold job_type in Ht. rewrite Ec in Ht. discriminate. }
  cbn [andb orb] in E. nv_cases; congruence.
Qed.

(** C5. [guest_control_end_to_end]: take any guest request that is an RM_CONTROL with
    at least the 24 bytes of parameters up to the end of the pointer field.  Each
    call the stub makes on the driver for it has the request's command, the stub's
    descriptor for the guest's handle, a control code on the allowlist and, when
    the VM has a client, a client handle that is 0, 0xffffffff (two values the
    device lets pass) or one of the VM.  Every byte of the parameters is the
    guest's except the pointer field, which holds the stub's buffer or 0.  In the
    buffer, each pointer of the sixteen controls of [pointer_table] that the buffer
    contains is 0 or stays in it with the bytes behind it; every other control but
    the pid query 0x2080018e finds the guest's bytes there, the descriptor of
    0x3d05 and 0x3d06 apart. *)
Theorem guest_control_end_to_end nv req p aux q rest c :
  0 <= aux_va -> aux_va + Gate.aux_size req < 2 ^ 64 -> 0 <= Gate.aux_size req < 2 ^ 32 -> 24 <= Gate.param_size req ->
  Gate.is_F req = true -> Gate.nr req = Allow.NV_ESC_RM_CONTROL ->
  Gate.o_calls (guest_ioctl nv req (Some p) aux) = Gate.IsoCall q :: rest -> c ∈ driver_calls q ->
  Allow.nvkvm_ctrl_cmd_allowed (get32 p 8) = true /\
  (Gate.clients nv <> [] -> get32 p 0 = 0 \/ get32 p 0 = 2 ^ 32 - 1 \/ get32 p 0 ∈ Gate.clients nv) /\
  c_cmd c = Gate.cmd req /\ c_fd c = lookup (Gate.handle_id req) /\ 0 <= c_fd c /\
  (forall i, 0 <= i < Gate.param_size req -> ~ (16 <= i < 24) -> get8 (c_param c) i = get8 p i) /\
  get64 (c_param c) 16 = (if 0 <? Gate.aux_size req then aux_va else 0) /\
  (0 < Gate.aux_size req -> forall off len, (off, len) ∈ inner_ptrs (get32 p 8) (get32 (c_aux c) 0) ->
     off + 8 <= Gate.aux_size req -> confined aux_va (Gate.aux_size req) (get64 (c_aux c) off) len) /\
  (pointers_in pointer_table (get32 p 8) = [] -> get32 p 8 <> 0x2080018e ->
   forall i, 0 <= i < Gate.aux_size req -> ~ fd_bytes (get32 p 8) i -> get8 (c_aux c) i = get8 (default ∅ aux) i).
Proof.
  intros Ha Hb Hs Hp HF Hn Hc Hin. destruct (Gate.iso_call_inv _ _ _ _ _ _ _ _ _ _ _ Hc) as [Hg Ho].
  unfold guest_ioctl in Hc. rewrite Ho in Hc. unfold Gate.rm_forward in Hc. cbn [Gate.o_calls] in Hc. injection Hc as <- _.
  apply Gate.first_deny_None in Hg. repeat (apply Forall_cons in Hg as [? Hg]).
  revert Hin. unfold driver_calls.
  set (q := Gate.IsoReq _ _ _ _ _ _ _ _).
  set (j := job_of_request q).
  assert (param_size j = Gate.param_size req) as Ep by (cbn; by rewrite lenz_blob by lia).
  assert (aux_size j = Gate.aux_size req) as Ea by (cbn; by rewrite lenz_blob by lia).
  assert (is_control j = true) as Hj.
  { unfold is_control, job_type, job_nr. apply andb_true_iff. split; [exact HF |]. by apply Z.eqb_eq. }
  destruct (control_facts j Hj) as (Hl & _).
  unfold worker_job. destruct (lookup (handle_id j) <? 0) eqn:Efd; [intros []%not_elem_of_nil |]. nv_bool.
  destruct (prepare lookup aux_va j) as [pr|] eqn:Epr; [|intros []%not_elem_of_nil].
  destruct (driver _) as [[ret p'] a']. cbn [fst]. intros ->%list_elem_of_singleton. cbn [c_param c_aux c_cmd c_fd].
  destruct (pointers_confined lookup aux_va j pr Ha) as (P1 & P2 & P3); rewrite ?Ea; [done.. |].
  rewrite (prepare_control lookup aux_va j pr Hj Epr) in *. cbn [pr_param pr_aux] in *.
  assert (forall i, 0 <= i < Gate.param_size req -> ~ (16 <= i < 24) ->
    get8 (wire_ptr aux_va j (param j)) i = get8 p i) as Hbyte.
  { intros i Hi Hi16. rewrite wire_ptr_other by done. apply (copied p (Gate.param_size req)); lia. }
  assert (get32 (wire_ptr aux_va j (param j)) 8 = get32 p 8) as Hget.
  { apply (agree_get32 _ _ 8 12); [|lia | lia]. intros i Hi. apply Hbyte; lia. }
  rewrite Hget in *. split_and!; try done.
  - by apply (Gate.gate_ctrl_None req (Some p) p); try done; lia.
  - intros Hcl. destruct (Gate.gate_hclient_None nv req (Some p) p) as [|Hr]; try done; try lia.
    + by rewrite Hn.
    + unfold Gate.is_root_alloc in Hr. by rewrite Hn in Hr.
  - rewrite <- Ea. apply P1; [done |]. lia.
  - intros Hpos off len. rewrite Ea in P2. apply P2; try done; lia.
  - intros Ht Hpid i Hi Hfd. rewrite P3 by done. subst j q. cbn. rewrite pid_prepare_other by done.
    apply (copied (default ∅ aux) (Gate.aux_size req)); lia.
Qed.

(** [guest_pointer_reaches_driver]: an RM_CONTROL that declares 23 bytes of
    parameters passes the device's checks and the stub leaves its pointer field
    alone: for every 56-bit address the guest likes, the driver is called with
    that address as the place of the control's parameters. *)
Theorem guest_pointer_reaches_driver nv iso h hc code v :
  0 <= v < 2 ^ 56 -> 0 <= hc < 2 ^ 32 -> 0 <= code < 2 ^ 32 -> 0 <= lookup h ->
  (forall hd, HTab.nvkvm_handle_get h (Gate.handles nv) = Some hd -> HTab.hd_dev_id hd <> HTab.NVKVM_DEV_UVM) ->
  Allow.nvkvm_ctrl_cmd_allowed code = true -> Gate.nvkvm_client_allow_has hc (Gate.clients nv) = true ->
  exists req p q c,
    Gate.o_calls (guest_ioctl nv req (Some p) None) = [Gate.IsoCall q] /\ driver_calls q = [c] /\
    Gate.isolate_id req = iso /\ c_fd c = lookup h /\ get32 (c_param c) 8 = code /\ get64 (c_param c) 16 = v.
Proof.
  intros Hv Hhc Hcode Hfd Hh Hallow Hcl.
  set (p := put64 (put32 (put32 ∅ 0 hc) 8 code) 16 v).
  set (req := Gate.Req iso h 0xc020462a 23 0 0).
  assert (get32 p 0 = hc /\ get32 p 8 = code /\ get64 p 16 = v) as (P0 & P8 & P16).
  { unfold p. rewrite !get32_put64_ne, get64_put64, get32_put32, get32_put32_ne, get32_put32 by lia.
    by rewrite !u32_small, u64_small by lia. }
  set (q := Gate.IsoReq iso h 0xc020462a (Some p) 23 None 0 0).
  assert (agree (param (job_of_request q)) p 0 24) as Hagree.
  { change (param (job_of_request q)) with (write_bytes ∅ 0 (read_bytes p 0 23)).
    intros i Hi. destruct (decide (i < 23)) as [|Hge]; [apply (copied p 23); lia |].
    assert (i = 23) as -> by lia. rewrite get8_write_ne by (rewrite length_read_bytes; lia).
    change (get8 ∅ 23) with 0. assert (get8 p 23 = 0) as ->; [|done].
    pose proof (get8_range p 23). pose proof (get8_range p 22). pose proof (get16_range p 20). pose proof (get32_range p 16).
    unfold get64 in P16. change (16 + 4) with 20 in P16. unfold get32 in P16 at 2. change (20 + 2) with 22 in P16.
    unfold get16 in P16 at 2. change (22 + 1) with 23 in P16. lia. }
  set (j := job_of_request q).
  destruct (short_param_unchecked lookup aux_va driver j) as [r Hr]; [done | done | done | done |].
  exists req, p, q, (DCall (lookup h) 0xc020462a (param j) (aux j)). cbn [c_fd c_param].
  split_and!; [|unfold driver_calls; fold j; by rewrite Hr | done | done | |].
  - unfold guest_ioctl, Gate.nvkvm_req_ioctl_on_isolate. cbn [Gate.handle_id req].
    assert (forall a b, match HTab.nvkvm_handle_get h (Gate.handles nv) with
      | Some hd => if (HTab.hd_dev_id hd =? HTab.NVKVM_DEV_UVM) && (0 <=? HTab.hd_fd hd) then a else b
      | None => b end = b :> Gate.outcome) as ->.
    { intros a b. destruct (HTab.nvkvm_handle_get h _) as [hd|]; [|done].
      by rewrite (proj2 (Z.eqb_neq _ _) (Hh hd eq_refl)). }
    assert (Gate.rm_gates nv req (Some p) = None) as ->; cycle 1.
    { unfold Gate.rm_forward. change (Gate.pid_prepare host_pid req (Some p) None) with (@None (bytes * list Z)). cbn [Gate.o_calls].
      unfold Gate.share_request.
      change ((Gate.nr req =? Allow.NV_ESC_RM_ALLOC) || (Gate.nr req =? Allow.NV_ESC_RM_ALLOC_MEMORY)) with false.
      by rewrite andb_false_r. }
    unfold Gate.rm_gates.
    assert (Gate.gate_type nv req (Some p) = None) as ->.
    { unfold Gate.gate_type. change (Allow.ioc_type (Gate.cmd req) =? Allow.type_d) with false.
      change (Gate.cmd req =? Allow.NVKVM_NVKMS_IOCTL_CMD) with false. by rewrite andb_false_r. }
    change (Gate.gate_frontend req (Some p)) with (@None Gate.response).
    change (Gate.gate_dup nv req (Some p)) with (@None Gate.response).
    assert (Gate.gate_ctrl req (Some p) = None) as ->.
    { unfold Gate.gate_ctrl, Gate.has_param. change (Gate.is_F req && (Gate.nr req =? Allow.NV_ESC_RM_CONTROL)) with true.
      change (12 <=? Gate.param_size req) with true. cbv iota. by rewrite P8, Hallow. }
    assert (Gate.gate_hclient nv req (Some p) = None) as ->; [|done].
    unfold Gate.gate_hclient, Gate.has_param. change (4 <=? Gate.param_size req) with true. cbv iota.
    rewrite P0, Hcl, andb_false_r. by destruct (_ && _).
  - rewrite <- P8. apply (agree_get32 _ _ 0 24); [done | lia | lia].
  - rewrite <- P16. apply (agree_get64 _ _ 0 24); [done | lia | lia].
Qed.
End ioctl.

(** ** Ring setup *)

Section ring.
Context {W : Type} `{GpaAllocator W}.

Definition resp_off : Z := Ring.nvkvm_ring_resp_off Sessions.NVKVM_RING_DEFAULT_BYTES.

(** The control block of a ring, cleared, with its size. *)
Definition ring_control (off : Z) (mem : bytes) : bytes :=
  put64 (write_bytes mem off (replicate (Z.to_nat Ring.sizeof_ring) 0)) off Sessions.NVKVM_RING_DEFAULT_BYTES.

(** The pages and the command as QEMU prepares them. *)
Definition ring_pages (isolate_id : Z) (mem : bytes) : bytes :=
  let m := ring_control resp_off (ring_control 0 mem) in
  put64 (put64 m Ring.sizeof_ring (Sessions.ring_probe isolate_id)) (resp_off + Ring.sizeof_ring) 0.

Definition ring_command : ring_cmd :=
  RingCmd (u32 Sessions.ring_region) 0 (u32 resp_off) Sessions.NVKVM_RING_DEFAULT_BYTES.

(** The stub's state after the command, and what QEMU learns. *)
Definition stub_ring (va : option Z) (mfd isolate_id : Z) (mem : bytes) : option ring_map * bytes * list out :=
  handle_setup_ring va ring_command true (Some mfd) None (ring_pages isolate_id mem).

Definition stub_ring_env (va : option Z) (mfd isolate_id : Z) (map_window : bool) (map_private : res Z) (mem : bytes) : Sessions.ring_env :=
  let '(_, mem', o) := stub_ring va mfd isolate_id mem in
  let '(e, v) := match o with [_; O_ring e v] => (e, v) | _ => (- EPROTO, 0) end in
  Sessions.REnv (Ok mfd) None map_window map_private e v (get64 mem' (resp_off + Ring.sizeof_ring)).

Lemma probe_range id : 0 <= id < 2 ^ 64 -> 0 <= Sessions.ring_probe id < 2 ^ 64.
Proof.
  intros Hid. unfold Sessions.ring_probe. split; [apply Z.lor_nonneg; lia |].
  destruct (decide (Z.lor 0x6e766b766d000000 id = 0)) as [->|]; [lia |].
  apply Z.log2_lt_pow2; [pose proof (proj2 (Z.lor_nonneg 0x6e766b766d000000 id)); lia |].
  rewrite Z.log2_lor by lia. apply Z.max_lub_lt; [done |]. destruct (decide (id = 0)) as [->|]; [done |].
  apply Z.log2_lt_pow2; lia.
Qed.

Lemma lxor_range a b : 0 <= a < 2 ^ 64 -> 0 <= b < 2 ^ 64 -> 0 <= Z.lxor a b < 2 ^ 64.
Proof.
  intros Ha Hb. assert (0 <= Z.lxor a b) by (apply Z.lxor_nonneg; lia). split; [done |].
  destruct (decide (Z.lxor a b = 0)) as [->|]; [lia |]. apply Z.log2_lt_pow2; [lia |].
  pose proof (Z.log2_lxor a b ltac:(lia) ltac:(lia)).
  assert (forall x, 0 <= x < 2 ^ 64 -> Z.log2 x < 64) as Hl.
  { intros x Hx. destruct (decide (x = 0)) as [->|]; [done |]. apply Z.log2_lt_pow2; lia. }
  pose proof (Hl a Ha). pose proof (Hl b Hb). lia.
Qed.

Lemma stub_ring_ok base mfd id mem :
  0 <= id < 2 ^ 64 ->
  exists mem', stub_ring (Some base) mfd id mem =
    (Some (RingMap base Sessions.ring_region resp_off Sessions.NVKVM_RING_DEFAULT_BYTES), mem',
     [O_close mfd; O_ring 0 (Sessions.ring_probe id)]) /\
    get64 mem' (resp_off + Ring.sizeof_ring) = Z.lxor (Sessions.ring_probe id) NVKVM_RING_PROBE_MASK.
Proof.
  intros Hid. pose proof (probe_range id Hid) as Hp.
  assert (Ring.sizeof_ring = 256) as Hsz by done. assert (resp_off = 65792) as Hro by (by vm_compute).
  assert (get64 (ring_pages id mem) 256 = Sessions.ring_probe id) as Hprobe.
  { unfold ring_pages. rewrite Hsz, Hro, get64_put64_ne, get64_put64 by lia. by apply u64_small. }
  assert (ring_geometry_ok ring_command = true) as Hgeo by (by vm_compute).
  unfold stub_ring, handle_setup_ring. cbn [negb orb]. rewrite bool_decide_false by (by intros [? ?]).
  rewrite Hgeo. cbn [negb]. rewrite Hsz, Hprobe. eexists. split; [reflexivity |].
  change (rg_resp_off ring_command + 256) with 66048. rewrite Hro. change (65792 + 256) with 66048.
  rewrite get64_put64. apply u64_small, lxor_range; [lia | done].
Qed.

Lemma stub_ring_fails mfd id mem :
  stub_ring None mfd id mem = (None, ring_pages id mem, [O_close mfd; O_ring (- ENOMEM) 0]).
Proof.
  assert (ring_geometry_ok ring_command = true) as Hgeo by (by vm_compute).
  unfold stub_ring, handle_setup_ring. cbn [negb orb]. rewrite bool_decide_false by (by intros [? ?]).
  by rewrite Hgeo.
Qed.

Lemma ring_placed env mfd w priv :
  Sessions.e_map_private env = Ok priv -> exists w1 eff gpa qva, Sessions.ring_place env mfd w = (w1, eff, Ok (gpa, qva)).
Proof.
  intros Hp. unfold Sessions.ring_place. rewrite Hp. destruct (gpa_alloc _ w) as [w1 gpa]. repeat case_match; eauto.
Qed.

(** [ring_setup_agrees]: ring setup with the stub's handler as its answer.  If the stub
    can map the pages, its geometry checks accept what QEMU sends, both
    directions of the probe match and QEMU marks the ring ready; both sides then
    use the same ring size and offsets, inside the shared region.  If it cannot,
    QEMU reports the stub's error and leaves the isolate without a ring. *)
Theorem ring_setup_agrees (va : option Z) (mfd id : Z) (win : bool) (priv : Z) (mem : bytes)
    (t : Sessions.iso_table) (w : W) (o : Sessions.isolate) :
  Sessions.iso_entry id t = Some o -> 0 <= id -> Sessions.o_alive o = true -> Sessions.o_ring_memfd o < 0 ->
  let '(t', _, _, r) := Sessions.nvkvm_isolate_ring_setup (stub_ring_env va mfd id win (Ok priv) mem) id t w in
  match va with
  | Some base =>
      r = Ok tt /\
      (exists gpa qva, t' = Sessions.put_iso (id mod Sessions.NVKVM_ISOLATE_MAX)
         (Sessions.set_ring mfd qva Sessions.ring_region Sessions.NVKVM_RING_DEFAULT_BYTES gpa true o) t) /\
      fst (fst (stub_ring va mfd id mem)) =
        Some (RingMap base Sessions.ring_region resp_off Sessions.NVKVM_RING_DEFAULT_BYTES) /\
      resp_off + Ring.sizeof_ring + Sessions.NVKVM_RING_DEFAULT_BYTES <= Sessions.ring_region
  | None => r = Err ENOMEM /\ t' = t /\ fst (fst (stub_ring va mfd id mem)) = None
  end.
Proof.
  intros Ho Hid Ha Hm.
  assert (id < 2 ^ 64) as Hid' by (unfold Sessions.iso_entry, Sessions.bad_isolate, Sessions.NVKVM_ISOLATE_MAX in Ho; nv_cases; nv_bool; lia).
  unfold Sessions.nvkvm_isolate_ring_setup. rewrite Ho, Ha, (proj2 (Z.ltb_lt _ _) Hm). cbn [andb negb].
  destruct va as [base|].
  - destruct (stub_ring_ok base mfd id mem ltac:(lia)) as (mem' & Hr & Hb).
    unfold stub_ring_env. rewrite Hr, Hb. cbn [Sessions.e_memfd Sessions.e_ftruncate].
    match goal with |- context [Sessions.ring_place ?e _ _] => destruct (ring_placed e mfd w priv eq_refl) as (w1 & eff & gpa & qva & ->) end.
    cbn [Sessions.e_sync Sessions.e_echoed Sessions.e_back]. rewrite !Z.eqb_refl. cbn [negb orb].
    split_and!; [done | by exists gpa, qva | done | by vm_compute].
  - unfold stub_ring_env. rewrite stub_ring_fails. cbn [Sessions.e_memfd Sessions.e_ftruncate].
    match goal with |- context [Sessions.ring_place ?e _ _] => destruct (ring_placed e mfd w priv eq_refl) as (w1 & eff & gpa & qva & ->) end.
    cbn [Sessions.e_sync]. change (negb (- ENOMEM =? 0)) with true. cbv iota.
    destruct (Sessions.ring_qva_unmap _ _ _ _) as [w2 eff2]. done.
Qed.
End ring.

(** ** Examples *)

Definition ex_req : Gate.request := Gate.Req 3 2 0xc020462a 32 24 0.
Definition ex_p : bytes := put32 (put32 ∅ 0 0xc1d00007) 8 0x20801201.
Definition ex_a : bytes := put64 (put32 ∅ 0 1) 8 0xdead.
Definition ex_q : Gate.iso_req := Gate.IsoReq 3 2 0xc020462a (Some ex_p) 32 (Some ex_a) 24 0.
Definition ex_device : Gate.device := Gate.Dev Gate.ex_handles UvmVa.va_init [0xc1d00007] true None.
Definition ex_guest := guest_ioctl ex_lookup 0x7000 ex_driver 1 0 Gate.ex_uvm Gate.ex_dup Gate.ex_host_pid Gate.ex_pid_mem.
Definition ex_drv : drv_call :=
  default (DCall 0 0 ∅ ∅) (head (driver_calls ex_lookup 0x7000 ex_driver 1 0 ex_q)).

Lemma guest_control_end_to_end_witness :
  Allow.nvkvm_ctrl_cmd_allowed 0x20801201 = true /\ get64 (c_param ex_drv) 16 = 0x7000.
Proof.
  destruct (guest_control_end_to_end ex_lookup 0x7000 ex_driver 1 0 Gate.ex_uvm Gate.ex_dup Gate.ex_host_pid Gate.ex_pid_mem
    ex_device ex_req ex_p (Some ex_a) ex_q [] ex_drv) as (H1 & _ & _ & _ & _ & _ & H2 & _);
    [vm_compute; discriminate | reflexivity | split; [vm_compute; discriminate | reflexivity] | vm_compute; discriminate
    | reflexivity | reflexivity | vm_compute; reflexivity | vm_compute; left | split; [exact H1 | exact H2]].
Defined.

Lemma guest_pointer_reaches_driver_witness :
  exists req p q c,
    Gate.o_calls (ex_guest ex_device req (Some p) None) = [Gate.IsoCall q] /\
    driver_calls ex_lookup 0x7000 ex_driver 1 0 q = [c] /\ get64 (c_param c) 16 = 0x7fffdeadbeef.
Proof.
  destruct (guest_pointer_reaches_driver ex_lookup 0x7000 ex_driver 1 0 Gate.ex_uvm Gate.ex_dup Gate.ex_host_pid Gate.ex_pid_mem
    ex_device 3 2 0xc1d00007 0x20801201 0x7fffdeadbeef) as (req & p & q & c & H1 & H2 & _ & _ & _ & H3);
    [split; [vm_compute; discriminate | reflexivity].. | vm_compute; discriminate | | reflexivity | reflexivity |
     exists req, p, q, c; split; [exact H1 | split; [exact H2 | exact H3]]].
  intros hd Hhd. assert (HTab.nvkvm_handle_get 2 (Gate.handles ex_device) = Some hd) as H by exact Hhd.
  vm_compute in H. injection H as <-. vm_compute. discriminate.
Defined.

#[local] Existing Instance IsoMmap.ex_allocator.

Definition ex_iso : Sessions.isolate := Sessions.Iso 1 7 100 true true 1 (-1) 0 0 0 0 false.
Definition ex_table : Sessions.iso_table := Sessions.put_iso 1 ex_iso Sessions.nvkvm_isolate_table_init.

Lemma ring_setup_agrees_witness :
  snd (Sessions.nvkvm_isolate_ring_setup (stub_ring_env (Some 0x8000) 20 1 true (Ok 0x9000) ∅) 1 ex_table IsoMmap.ex_win) = Ok tt.
Proof.
  pose proof (ring_setup_agrees (Some 0x8000) 20 1 true 0x9000 ∅ ex_table IsoMmap.ex_win ex_iso eq_refl) as H.
  destruct (Sessions.nvkvm_isolate_ring_setup _ _ _ _) as [[[t' w'] eff] r].
  apply H; [vm_compute; discriminate | reflexivity | reflexivity].
Defined.
End StubLink.
