(* ===== verification/HostFiles.v ===== *)
(** * Host files for the guest ([src/qemu/nvkvm_isolate_handlers.c], READ_HOST_FILE)

    The guest names a file by a number and, for files of one GPU, by an index;
    the device builds the path from its own list of GPUs, which it reads from the
    host's directory once, and copies the file into a shared-memory slot. *)

From stdpp Require Import strings sorting.
From Stdlib Require Import Ascii OrdersEx.
From S2P Require Import Prelude Bytes.
Local Open Scope Z_scope.
Local Open Scope nv_scope.

Module HostFiles.

Definition NVKVM_MAX_HOST_GPUS : nat := 16.
Definition NVKVM_BDF_LEN : nat := 12.
Definition NVKVM_HFILE_MAX_SIZE : Z := 8192.

(** ** PCI addresses *)

Definition between (a c b : Ascii.ascii) : bool := Ascii.leb a c && Ascii.leb c b.

Definition hex_digit (c : Ascii.ascii) : bool :=
  between "0"%char c "9"%char || between "a"%char c "f"%char || between "A"%char c "F"%char.

Definition bdf_char (i : nat) (c : Ascii.ascii) : bool :=
  if (i =? 4)%nat || (i =? 7)%nat then Ascii.eqb c ":"%char
  else if (i =? 10)%nat then Ascii.eqb c "."%char
  else hex_digit c.

(** The loop over the characters from position [i]. *)
Fixpoint bdf_from (i : nat) (s : string) : bool :=
  match s with
  | EmptyString => true
  | String c s' => bdf_char i c && bdf_from (S i) s'
  end.

Definition nvkvm_bdf_valid (s : string) : bool :=
  (String.length s =? NVKVM_BDF_LEN)%nat && bdf_from 0 s.

(** ** Discovery *)

(** The [readdir] loop; [found] is [nvkvm_host_bdf\[0 .. count)]. *)
Fixpoint collect_gpus (names found : list string) : list string :=
  match names with
  | [] => found
  | n :: names' =>
      if (length found <? NVKVM_MAX_HOST_GPUS)%nat
      then collect_gpus names' (if nvkvm_bdf_valid n then found ++ [n] else found)
      else found
  end.

(** [strcmp(a, b) < 0]. *)
Definition before (a b : string) : bool := match String.compare a b with Lt => true | _ => false end.

(** The inner loop for one [i]: [x] is entry [i], the list the entries after it. *)
Fixpoint exchange (x : string) (l : list string) : string * list string :=
  match l with
  | [] => (x, [])
  | y :: l' =>
      if before y x then let '(m, r) := exchange y l' in (m, x :: r)
      else let '(m, r) := exchange x l' in (m, y :: r)
  end.

Fixpoint sort_gpus (n : nat) (l : list string) : list string :=
  match n, l with
  | S n', x :: l' => let '(m, r) := exchange x l' in m :: sort_gpus n' r
  | _, _ => l
  end.

(** [None]: the directory does not open. *)
Definition nvkvm_discover_host_gpus (dir : option (list string)) : list string :=
  match dir with
  | None => []
  | Some names => let l := collect_gpus names [] in sort_gpus (length l) l
  end.

(** ** Paths *)

Definition gpu_leaf (id : Z) : option string :=
  if id =? 4 then Some "numa_status"
  else if id =? 5 then Some "information"
  else if id =? 6 then Some "registry"
  else None.

Definition gpu_dir : string := "/proc/driver/nvidia/gpus/".

Definition fixed_path (id : Z) : option string :=
  if id =? 1 then Some "/proc/driver/nvidia/params"
  else if id =? 7 then Some "/proc/driver/nvidia/version"
  else if id =? 2 then Some "/sys/module/nvidia/initstate"
  else if id =? 3 then Some "/sys/module/nvidia_uvm/initstate"
  else None.

(** [cache]: the discovered list, [None] before the first discovery. *)
Definition nvkvm_hfile_path (dir : option (list string)) (buflen : nat) (id gpu_index : Z)
    (cache : option (list string)) : option (list string) * option string :=
  let fit p := if (String.length p <? buflen)%nat then Some p else None in
  match fixed_path id with
  | Some p => (cache, fit p)
  | None =>
      match gpu_leaf id with
      | None => (cache, None)
      | Some leaf =>
          let l := match cache with Some l => l | None => nvkvm_discover_host_gpus dir end in
          (Some l,
           if Z.of_nat (length l) <=? gpu_index then None
           else match l !! Z.to_nat gpu_index with
                | Some bdf => fit (gpu_dir +:+ bdf +:+ "/" +:+ leaf)
                | None => None
                end)
      end
  end.

(** ** The request *)

(** What one [read] gives. *)
Inductive read_out := Rd_intr | Rd_err (e : Z) | Rd_data (l : list Z).

(** [base]: the slot's offset in the shared region.  [None] as the status: the
    outcomes ended before the loop did. *)
Fixpoint read_loop (outs : list read_out) (base total max_len : Z) (shm : bytes) : bytes * Z * option Z :=
  if total <? max_len then
    match outs with
    | [] => (shm, total, None)
    | Rd_intr :: outs' => read_loop outs' base total max_len shm
    | Rd_err e :: _ => (shm, total, Some (u32 e))
    | Rd_data l :: outs' =>
        let l := take (Z.to_nat (max_len - total)) l in
        match l with
        | [] => (shm, total, Some 0)
        | _ => read_loop outs' base (u32 (total + Z.of_nat (length l))) max_len
                 (write_bytes shm (base + total) l)
        end
    end
  else (shm, total, Some 0).

Record hfile_req := HReq { hf_file_id : Z; hf_max_len : Z; hf_gpu_index : Z }.

(** Cache, shared memory, the path opened, status and [nbytes]. *)
Definition nvkvm_req_read_host_file (dir : option (list string)) (host_open : string -> option Z)
    (outs : list read_out) (slot : option Z) (req : hfile_req) (cache : option (list string)) (shm : bytes)
  : option (list string) * bytes * option string * option (Z * Z) :=
  match slot with
  | None => (cache, shm, None, Some (EINVAL, 0))
  | Some base =>
      if (hf_max_len req =? 0) || (NVKVM_HFILE_MAX_SIZE <? hf_max_len req)
      then (cache, shm, None, Some (EINVAL, 0))
      else
        match nvkvm_hfile_path dir 256 (hf_file_id req) (hf_gpu_index req) cache with
        | (cache', None) => (cache', shm, None, Some (EINVAL, 0))
        | (cache', Some p) =>
            match host_open p with
            | Some e => (cache', shm, Some p, Some (u32 e, 0))
            | None =>
                let '(shm', total, st) := read_loop outs base 0 (hf_max_len req) shm in
                (cache', shm', Some p, (fun s => (s, if s =? 0 then total else 0)) <$> st)
            end
        end
  end.

(** ** The list of GPUs *)

Definition sle (a b : string) : Prop := before b a = false.

#[export] Instance sle_antisymm : AntiSymm (=) sle.
Proof.
  intros a b. unfold sle, before. intros H1 H2. pose proof (String.compare_antisym a b) as E.
  destruct (String.compare a b) eqn:Eab, (String.compare b a); try discriminate; by apply String.compare_eq_iff.
Qed.

Lemma before_sle a b : before a b = true -> sle a b.
Proof.
  unfold sle, before. rewrite (String.compare_antisym a b). by destruct (String.compare b a).
Qed.

Lemma compare_ot a b : String_as_OT.compare a b = String.compare a b.
Proof. revert b. induction a as [|c a IH]; intros [|c' b]; by cbn; rewrite ?IH. Qed.

#[export] Instance sle_trans : Transitive sle.
Proof.
  intros a b c H1 H2. unfold sle, before in *. destruct (String.compare c a) eqn:E; [done | | done]. exfalso.
  destruct (String.compare b a) eqn:E1; [| done |].
  - apply String.compare_eq_iff in E1 as ->. by rewrite E in H2.
  - assert (String.compare a b = Lt) as Hab by (rewrite String.compare_antisym, E1; done).
    assert (String.compare c b = Lt) as Hcb; [|by rewrite Hcb in H2]. rewrite <- compare_ot in *.
    exact (StrictOrder_Transitive (R := String_as_OT.lt) c a b E Hab).
Qed.

Lemma sle_refl a : sle a a.
Proof.
  unfold sle, before. pose proof (String.compare_antisym a a). by destruct (String.compare a a).
Qed.

Lemma exchange_perm x l : (let '(m, r) := exchange x l in m :: r) ≡ₚ x :: l.
Proof.
  revert x. induction l as [|y l IH]; intros x; cbn; [done |]. destruct (before y x).
  - specialize (IH y). destruct (exchange y l) as [m r]. rewrite Permutation_swap. by rewrite IH.
  - specialize (IH x). destruct (exchange x l) as [m r]. rewrite Permutation_swap, IH. apply Permutation_swap.
Qed.

Lemma exchange_min x l : let '(m, r) := exchange x l in sle m x /\ Forall (sle m) r.
Proof.
  revert x. induction l as [|y l IH]; intros x; cbn; [by split; [apply sle_refl |] |]. destruct (before y x) eqn:E.
  - specialize (IH y). destruct (exchange y l) as [m r]. destruct IH as [H1 H2]. apply before_sle in E.
    assert (sle m x) by (by etrans). auto.
  - specialize (IH x). destruct (exchange x l) as [m r]. destruct IH as [H1 H2]. split; [done |].
    constructor; [by etrans |done].
Qed.

Lemma sort_gpus_perm n l : sort_gpus n l ≡ₚ l.
Proof.
  revert l. induction n as [|n IH]; intros [|x l]; cbn; try done.
  pose proof (exchange_perm x l) as H. destruct (exchange x l) as [m r]. by rewrite IH.
Qed.

Lemma sort_gpus_sorted n l : (length l <= n)%nat -> StronglySorted sle (sort_gpus n l).
Proof.
  revert l. induction n as [|n IH]; intros [|x l] Hl; cbn in *; [constructor | lia | constructor |].
  pose proof (exchange_perm x l) as H. pose proof (exchange_min x l) as Hm. destruct (exchange x l) as [m r].
  destruct Hm as [_ Hm]. apply Permutation_length in H. cbn in H. constructor; [apply IH; lia |].
  by rewrite sort_gpus_perm.
Qed.

Lemma collect_gpus_spec names found :
  (length found <= NVKVM_MAX_HOST_GPUS)%nat ->
  collect_gpus names found = take NVKVM_MAX_HOST_GPUS (found ++ List.filter nvkvm_bdf_valid names).
Proof.
  revert found. induction names as [|n names IH]; intros found Hf; cbn [collect_gpus List.filter].
  - rewrite app_nil_r, take_ge; done.
  - destruct (Nat.ltb_spec (length found) NVKVM_MAX_HOST_GPUS) as [H|H].
    + destruct (nvkvm_bdf_valid n).
      * rewrite IH by (rewrite length_app; cbn; lia). by rewrite <- app_assoc.
      * by rewrite IH.
    + by rewrite take_app_le, take_ge by lia.
Qed.

Lemma discover_perm names :
  nvkvm_discover_host_gpus (Some names) ≡ₚ take NVKVM_MAX_HOST_GPUS (List.filter nvkvm_bdf_valid names).
Proof. unfold nvkvm_discover_host_gpus. rewrite sort_gpus_perm. by rewrite collect_gpus_spec by (cbn; lia). Qed.

Lemma discover_sorted dir : StronglySorted sle (nvkvm_discover_host_gpus dir).
Proof. destruct dir; cbn; [by apply sort_gpus_sorted | constructor]. Qed.

Lemma discover_valid dir bdf :
  bdf ∈ nvkvm_discover_host_gpus dir -> nvkvm_bdf_valid bdf = true /\ exists names, dir = Some names /\ bdf ∈ names.
Proof.
  destruct dir as [names|]; [|by intros ?%elem_of_nil]. rewrite discover_perm. intros H.
  apply elem_of_take in H as (i & H & _). apply list_elem_of_lookup_2 in H.
  apply list_elem_of_In, filter_In in H as [H1 H2]. rewrite <- list_elem_of_In in H1. eauto.
Qed.

(** [hostfile_index_stable]: whatever order the directory is read in, the index a
    guest uses names the same GPU: at most sixteen valid entries give the same
    list, and the list is sorted without loss. *)
Theorem hostfile_index_stable (names names' : list string) :
  names ≡ₚ names' -> (length (List.filter nvkvm_bdf_valid names) <= NVKVM_MAX_HOST_GPUS)%nat ->
  nvkvm_discover_host_gpus (Some names) = nvkvm_discover_host_gpus (Some names') /\
  nvkvm_discover_host_gpus (Some names) ≡ₚ List.filter nvkvm_bdf_valid names.
Proof.
  intros Hp Hl. assert (List.filter nvkvm_bdf_valid names ≡ₚ List.filter nvkvm_bdf_valid names') as Hf.
  { clear Hl. induction Hp; cbn; repeat case_match; eauto using Permutation_refl, perm_skip, perm_swap, perm_trans. }
  pose proof (discover_perm names) as H1. pose proof (discover_perm names') as H2.
  rewrite take_ge in H1 by done. rewrite take_ge in H2 by (by rewrite <- Hf). split; [|done].
  apply (StronglySorted_unique sle); [apply discover_sorted .. |]. by rewrite H1, H2, Hf.
Qed.

(** ** Reading *)

(** The bytes the reads deliver up to the end of the file. *)
Fixpoint delivered (outs : list read_out) : list Z :=
  match outs with
  | [] => []
  | Rd_intr :: outs' => delivered outs'
  | Rd_err _ :: _ => []
  | Rd_data [] :: _ => []
  | Rd_data l :: outs' => l ++ delivered outs'
  end.

Definition ends (o : read_out) : Prop := match o with Rd_err _ => True | Rd_data l => l = [] | Rd_intr => False end.

Lemma read_loop_frame outs base total max_len shm i :
  0 <= total <= max_len -> max_len <= NVKVM_HFILE_MAX_SIZE -> ~ (base + total <= i < base + max_len) ->
  get8 (read_loop outs base total max_len shm).1.1 i = get8 shm i.
Proof.
  revert total shm. induction outs as [|[|e|l] outs IH]; intros total shm Ht Hm Hi; cbn;
    destruct (Z.ltb_spec total max_len); try done; [by apply IH |].
  destruct (take _ l) as [|b l'] eqn:E; [done |].
  pose proof (length_take l (Z.to_nat (max_len - total))) as Hl. rewrite E in Hl. unfold NVKVM_HFILE_MAX_SIZE in *.
  rewrite u32_small by lia. rewrite IH by lia. apply get8_write_ne. lia.
Qed.

Definition read_ok (o : read_out) : Prop :=
  match o with Rd_intr => True | Rd_err e => 0 < e < 2 ^ 32 | Rd_data l => octets l end.

Lemma read_loop_data outs base total max_len shm :
  0 <= total <= max_len -> max_len <= NVKVM_HFILE_MAX_SIZE -> Forall read_ok outs ->
  let '(shm', n, st) := read_loop outs base total max_len shm in
  total <= n <= max_len /\ read_bytes shm' (base + total) (n - total) = take (Z.to_nat (n - total)) (delivered outs) /\
  (st = Some 0 -> n - total = Z.min (max_len - total) (Z.of_nat (length (delivered outs)))).
Proof.
  revert total shm. induction outs as [|o outs IH]; intros total shm Ht Hm Ho; cbn [read_loop];
    destruct (Z.ltb_spec total max_len); try (rewrite Z.sub_diag; split_and!; [lia | lia | done | intros; cbn; lia]).
  apply Forall_cons in Ho as [Ho1 Ho]. destruct o as [|e|l]; cbn [delivered]; [by apply IH | |].
  { rewrite Z.sub_diag. cbn in Ho1. rewrite u32_small by lia. split_and!; try lia; [done |]. intros [= ->]. lia. }
  set (k := Z.to_nat (max_len - total)). destruct (take k l) as [|b c] eqn:E.
  { rewrite Z.sub_diag. destruct l; [|by destruct k eqn:Ek; [lia |]]. split_and!; try lia; [done |]. cbn. lia. }
  pose proof (length_take l k) as Hl. rewrite <- E in *. set (chunk := take k l) in *.
  assert (0 < Z.of_nat (length chunk) /\ octets chunk) as [Hc Hoc].
  { split; [rewrite E; cbn; lia |]. apply Forall_take. by cbn in Ho1. }
  unfold NVKVM_HFILE_MAX_SIZE in Hm. rewrite u32_small by lia.
  specialize (IH (total + Z.of_nat (length chunk)) (write_bytes shm (base + total) chunk) ltac:(lia) Hm Ho).
  pose proof (fun i => read_loop_frame outs base (total + Z.of_nat (length chunk)) max_len
    (write_bytes shm (base + total) chunk) i ltac:(lia) Hm) as Hfr.
  destruct (read_loop _ _ _ _ _) as [[shm' n] st]. cbn in Hfr. destruct IH as (Hn & Hd & Hs).
  assert (delivered (Rd_data l :: outs) = l ++ delivered outs) as Ed by (destruct l; [unfold chunk in Hc; rewrite take_nil in Hc; cbn in Hc; lia | done]).
  cbn in Ed. rewrite Ed, length_app. split_and!; [lia | lia | |].
  - replace (n - total) with (Z.of_nat (length chunk) + (n - (total + Z.of_nat (length chunk)))) at 1 by lia.
    rewrite read_bytes_app by lia. rewrite <- Z.add_assoc, Hd.
    rewrite (agree_read shm' (write_bytes shm (base + total) chunk) (base + total) (base + total + Z.of_nat (length chunk)))
      by (try lia; intros i Hi; apply Hfr; lia). rewrite read_write by done.
    destruct (decide (k <= length l)%nat).
    + replace n with max_len by lia. rewrite (take_app_le l) by lia.
      replace (Z.to_nat (max_len - (total + Z.of_nat (length chunk)))) with 0%nat by lia. by rewrite app_nil_r.
    + rewrite (take_app_ge l) by lia. unfold chunk. rewrite (take_ge l) by lia. do 2 f_equal. lia.
  - intros Hst. specialize (Hs Hst). lia.
Qed.

Lemma read_loop_ends outs base total max_len shm :
  Exists ends outs -> exists st, (read_loop outs base total max_len shm).2 = Some st.
Proof.
  revert total shm. induction outs as [|o outs IH]; intros total shm He; [by apply Exists_nil in He |].
  cbn. destruct (Z.ltb_spec total max_len); [|by eexists]. destruct o as [|e|l].
  - apply IH. apply Exists_cons in He as [He|He]; done.
  - by eexists.
  - apply Exists_cons in He as [He|He]; [cbn in He; subst l; rewrite take_nil; by eexists |].
    destruct (take _ l); [by eexists | by apply IH].
Qed.

Lemma hostfile_answers dir host_open outs slot req cache shm :
  Exists ends outs -> is_Some (nvkvm_req_read_host_file dir host_open outs slot req cache shm).2.
Proof.
  intros He. unfold nvkvm_req_read_host_file. destruct slot as [base|]; [|by eexists]. destruct (_ || _); [by eexists |].
  destruct (nvkvm_hfile_path _ _ _ _ _) as [c [p|]]; [|by eexists]. destruct (host_open p); [by eexists |].
  destruct (read_loop_ends outs base 0 (hf_max_len req) shm He) as [st Hst].
  destruct (read_loop _ _ _ _ _) as [[m t] st']. cbn in Hst. subst. by eexists.
Qed.

Lemma hostfile_frame dir host_open outs slot req cache shm i :
  0 <= hf_max_len req -> (forall base, slot = Some base -> ~ (base <= i < base + hf_max_len req)) ->
  get8 (nvkvm_req_read_host_file dir host_open outs slot req cache shm).1.1.2 i = get8 shm i.
Proof.
  intros Hl Hi. unfold nvkvm_req_read_host_file. destruct slot as [base|]; [|done]. destruct (_ || _) eqn:E; [done |]. nv_bool.
  destruct (nvkvm_hfile_path _ _ _ _ _) as [c [p|]]; [|done]. destruct (host_open p); [done |].
  pose proof (read_loop_frame outs base 0 (hf_max_len req) shm i ltac:(lia) ltac:(lia)) as Hf. rewrite Z.add_0_r in Hf.
  destruct (read_loop _ _ _ _ _) as [[m t] st]. apply Hf. by apply Hi.
Qed.

(** Paths a request may open. *)
Definition allowed_path (p : string) : Prop :=
  (exists id, fixed_path id = Some p) \/
  exists bdf leaf id, gpu_leaf id = Some leaf /\ nvkvm_bdf_valid bdf = true /\ p = gpu_dir +:+ bdf +:+ "/" +:+ leaf.

Definition cache_ok (cache : option (list string)) : Prop :=
  from_option (Forall (fun bdf => nvkvm_bdf_valid bdf = true)) True cache.

Lemma hfile_path_ok dir buflen id gpu cache :
  cache_ok cache ->
  let '(cache', p) := nvkvm_hfile_path dir buflen id gpu cache in
  cache_ok cache' /\ forall q, p = Some q -> allowed_path q /\ (String.length q < buflen)%nat.
Proof.
  intros Hc. unfold nvkvm_hfile_path. destruct (fixed_path id) as [p|] eqn:Ep.
  { split; [done |]. intros q. destruct (Nat.ltb_spec (String.length p) buflen); intros [= <-].
    split; [left; eauto | done]. }
  destruct (gpu_leaf id) as [leaf|] eqn:El; [|done].
  set (l := match cache with Some l => l | None => _ end).
  assert (Forall (fun bdf => nvkvm_bdf_valid bdf = true) l) as Hl.
  { unfold l. destruct cache; [done |]. apply Forall_forall. intros x Hx. by apply discover_valid in Hx as [? _]. }
  split; [done |]. intros q. case_match; [done |]. destruct (l !! Z.to_nat gpu) as [bdf|] eqn:Eb; [|done].
  destruct (Nat.ltb_spec (String.length (gpu_dir +:+ bdf +:+ "/" +:+ leaf)) buflen); intros [= <-].
  split; [|done]. right. exists bdf, leaf, id. split_and!; [done | | done].
  by eapply (proj1 (Forall_lookup _ _) Hl).
Qed.

(** [hostfile_confined]: whatever the guest asks for, the only files opened are the
    four fixed ones and the three leaves below the directory of a GPU whose name is
    a PCI address; only bytes of the slot, and at most [max_len] of them, change;
    the request returns when the reads end; and a success holds exactly the file's
    bytes, cut at [max_len]. *)
Theorem hostfile_confined dir host_open outs slot req cache shm :
  cache_ok cache -> Forall read_ok outs -> Exists ends outs -> (forall p e, host_open p = Some e -> 0 < e < 2 ^ 32) ->
  0 <= hf_max_len req ->
  let '(cache', shm', path, answer) := nvkvm_req_read_host_file dir host_open outs slot req cache shm in
  cache_ok cache' /\ (forall p, path = Some p -> allowed_path p) /\
  (forall i, (forall base, slot = Some base -> ~ (base <= i < base + hf_max_len req)) -> get8 shm' i = get8 shm i) /\
  exists status nbytes, answer = Some (status, nbytes) /\ 0 <= nbytes <= hf_max_len req /\
    (status = 0 -> exists base, slot = Some base /\ hf_max_len req <= NVKVM_HFILE_MAX_SIZE /\
       nbytes = Z.min (hf_max_len req) (Z.of_nat (length (delivered outs))) /\
       read_bytes shm' base nbytes = take (Z.to_nat nbytes) (delivered outs)).
Proof.
  intros Hc Ho He Hopen Hpos. unfold nvkvm_req_read_host_file.
  assert (forall c s q e, e <> 0 -> cache_ok c -> (forall p, q = Some p -> allowed_path p) -> s = shm ->
    cache_ok c /\ (forall p, q = Some p -> allowed_path p) /\
    (forall i, (forall base, slot = Some base -> ~ (base <= i < base + hf_max_len req)) -> get8 s i = get8 shm i) /\
    exists status nbytes, Some (e, 0) = Some (status, nbytes) /\ 0 <= nbytes <= hf_max_len req /\
    (status = 0 -> exists base, slot = Some base /\ hf_max_len req <= NVKVM_HFILE_MAX_SIZE /\
       nbytes = Z.min (hf_max_len req) (Z.of_nat (length (delivered outs))) /\
       read_bytes s base nbytes = take (Z.to_nat nbytes) (delivered outs))) as refuse.
  { intros c s q e Hne Hcc Hq ->. split_and!; try done. exists e, 0. split_and!; try lia; done. }
  destruct slot as [base|]; [|by apply refuse]. destruct (_ || _) eqn:Eb; [by apply refuse |]. nv_bool.
  pose proof (hfile_path_ok dir 256 (hf_file_id req) (hf_gpu_index req) cache Hc) as Hp.
  destruct (nvkvm_hfile_path _ _ _ _ _) as [cache' [p|]]; destruct Hp as [Hcc Hp]; [|by apply refuse].
  assert (forall q, Some p = Some q -> allowed_path q) as Hq by (intros q [= <-]; by apply Hp).
  destruct (host_open p) as [e|] eqn:Eo.
  { apply Hopen in Eo. rewrite u32_small by lia. apply refuse; [lia | done ..]. }
  pose proof (read_loop_ends outs base 0 (hf_max_len req) shm He) as [st Hst].
  pose proof (read_loop_data outs base 0 (hf_max_len req) shm ltac:(lia) ltac:(lia) Ho) as Hd.
  pose proof (fun i => read_loop_frame outs base 0 (hf_max_len req) shm i ltac:(lia) ltac:(lia)) as Hf.
  destruct (read_loop _ _ _ _ _) as [[shm' n] st']. cbn in Hst, Hf. subst st'. rewrite Z.add_0_r, Z.sub_0_r in Hd.
  destruct Hd as (Hn & Hd & Hs). split_and!; [done | done | |].
  - intros i Hi. apply Hf. specialize (Hi base eq_refl). lia.
  - exists st, (if st =? 0 then n else 0). split_and!; [done | case_match; lia | case_match; lia |].
    intros ->. exists base. cbn. split_and!; [done | lia | | done]. specialize (Hs eq_refl). lia.
Qed.

(** ** Examples *)

Definition ex_names : list string := ["."; ".."; "0000:65:00.0"; "0000:17:00.0"]%string.
Definition ex_outs : list read_out := [Rd_data [78; 85]; Rd_intr; Rd_data [77; 65]; Rd_data []].

Lemma hostfile_index_stable_witness :
  nvkvm_discover_host_gpus (Some ex_names) = ["0000:17:00.0"; "0000:65:00.0"]%string.
Proof.
  rewrite (proj1 (hostfile_index_stable ex_names (rev ex_names) ltac:(apply Permutation_rev) ltac:(vm_compute; lia))).
  reflexivity.
Defined.

Lemma hostfile_confined_witness :
  allowed_path "/proc/driver/nvidia/gpus/0000:65:00.0/numa_status"%string.
Proof.
  refine (proj1 (proj2 (hostfile_confined (Some ex_names) (fun _ => None) ex_outs (Some 65536) (HReq 4 4096 1) None ∅
    I _ _ _ _)) _ eq_refl).
  - repeat constructor; cbn; lia.
  - apply Exists_exists. exists (Rd_data []). split; [repeat constructor | done].
  - discriminate.
  - cbn. lia.
Defined.

End HostFiles.
