(* ===== verification/Requests.v ===== *)
(** * The remaining requests ([src/qemu/nvkvm_isolate_handlers.c])

    Enumeration of devices, presenting a frame, importing a buffer of another
    isolate, reading and writing memory handles, polling, interrupting, and driving
    the consumer loop.  The host's calls and the stub's answers are parameters; the
    results list the descriptors closed, those handed to the display, and the
    commands sent to stubs. *)

From S2P Require Import Prelude Extents Bytes KvmSlots GpaWindow HandleTable GpaAlloc UvmVa Ring IsoMmap Sessions SessionRuns.
Local Open Scope Z_scope.
Local Open Scope nv_scope.

Module Requests.
Import HTab UvmVa IsoMmap Sessions.

Definition NVKVM_DEV_GPU (n : Z) : Z := 16 + n.

(** What goes to a stub. *)
Inductive stub_cmd :=
| C_export (isolate_id handle_id gem : Z)
| C_import (isolate_id handle_id fd : Z)
| C_poll (isolate_id handle_id events : Z)
| C_unpoll (isolate_id handle_id : Z)
| C_interrupt (isolate_id target_txn : Z)
| C_enter_loop (isolate_id idle_us : Z).

(** What happens to memory handles. *)
Inductive mem_io := Pwrite (fd off : Z) (data : list Z) | Pread (fd off size : Z).

(** ** Devices *)

Definition nvkvm_req_list_nvidia_devices (access : dev_path -> bool) : list Z :=
  (if access Path_nvidiactl then [NVKVM_DEV_CTL] else []) ++
  (if access Path_nvidia_uvm then [NVKVM_DEV_UVM] else []) ++
  (NVKVM_DEV_GPU <$> List.filter (fun i => access (Path_nvidia i)) (seqZ 0 16)).

(** ** Commands to one isolate *)

(** Taking a transaction id of the slot an id falls into. *)
Definition take_slot_txn (isolate_id : Z) (t : iso_table) : iso_table :=
  let k := isolate_id mod NVKVM_ISOLATE_MAX in
  let o := (it_isolates t).[k] in
  let n := u32 (o_next_txn_id o + 1) in
  put_iso k (set_txn (if n =? 0 then 1 else n) o) t.

(** [answer]: the error and the descriptor the stub sends.  Table, commands, closed
    descriptors, return value and descriptor. *)
Definition nvkvm_isolate_present_export (answer : Z * Z) (isolate_id handle_id gem : Z) (t : iso_table)
  : iso_table * list stub_cmd * list Z * Z * Z :=
  if bad_isolate isolate_id then (t, [], [], - ENOENT, -1)
  else
    let t1 := take_slot_txn isolate_id t in
    if negb (iso_valid isolate_id t) then (t1, [], [], - ENOENT, -1)
    else
      let '(err, fd) := answer in
      let sent := [C_export isolate_id handle_id gem] in
      if negb (err =? 0) then (t1, sent, if 0 <=? fd then [fd] else [], err, -1)
      else if fd <? 0 then (t1, sent, [], - EPROTO, -1)
      else (t1, sent, [], 0, fd).

(** [answer]: the error and the GEM handle. *)
Definition nvkvm_isolate_xiso_import (answer : Z * Z) (isolate_id handle_id fd : Z) (t : iso_table)
  : iso_table * list stub_cmd * Z * Z :=
  if bad_isolate isolate_id then (t, [], - ENOENT, 0)
  else if fd <? 0 then (t, [], - EINVAL, 0)
  else
    let t1 := take_slot_txn isolate_id t in
    if negb (iso_valid isolate_id t) then (t1, [], - ENOENT, 0)
    else
      let '(err, gem) := answer in
      let sent := [C_import isolate_id handle_id fd] in
      if negb (err =? 0) then (t1, sent, err, 0)
      else if gem =? 0 then (t1, sent, - EPROTO, 0)
      else (t1, sent, 0, gem).

(** [sync]: the stub's answer. *)
Definition nvkvm_isolate_poll (sync isolate_id handle_id events : Z) (t : iso_table) : list stub_cmd * Z :=
  if iso_valid isolate_id t then ([C_poll isolate_id handle_id events], sync) else ([], - ENOENT).

Definition nvkvm_isolate_unpoll (sync isolate_id handle_id : Z) (t : iso_table) : list stub_cmd * Z :=
  if iso_valid isolate_id t then ([C_unpoll isolate_id handle_id], sync) else ([], - ENOENT).

(** [sock]: whether the socket is open, and what sending gives. *)
Definition nvkvm_isolate_interrupt (sock : option Z) (isolate_id target_txn : Z) (t : iso_table) : list stub_cmd * Z :=
  match sock with
  | Some sr =>
      if iso_valid isolate_id t then ([C_interrupt isolate_id target_txn], if sr <? 0 then sr else 0)
      else ([], - ENOENT)
  | None => ([], - ENOENT)
  end.

(** [answer]: the error and the head. *)
Definition nvkvm_isolate_enter_loop (sock : bool) (answer : Z * Z) (isolate_id idle_us : Z) (t : iso_table)
  : list stub_cmd * Z * Z :=
  if bad_isolate isolate_id then ([], - ENOENT, 0)
  else
    match iso_entry isolate_id t with
    | Some o =>
        if o_alive o && o_ring_ready o && sock
        then let '(err, head) := answer in ([C_enter_loop isolate_id idle_us], err, head)
        else ([], - ENODEV, 0)
    | None => ([], - ENODEV, 0)
    end.

Section requests.
Context {W : Type}.
Implicit Types d : dev W.

Definition is_render (dev_id : Z) : bool := (NVKVM_DEV_DRM_RD 0 <=? dev_id) && (dev_id <? NVKVM_DEV_DRM_RD 16).

Definition set_isolates (t : iso_table) d : dev W := with_isolates t (mp_win (d_maps d)) d.

(** ** PRESENT *)

(** What the request says of the frame. *)
Record frame := Frame { fr_width : Z; fr_height : Z; fr_pitch : Z; fr_format : Z; fr_modifier : Z }.

Record present_req := PresentReq {
  ps_isolate_id : Z;
  ps_handle_id : Z;
  ps_stub_handle : Z;
  ps_session_id : Z;
  ps_frame : frame
}.

(** [nvkvm_present_submit] and [nvkvm_present_capture] on a dma-buf. *)
Inductive shown := Submit (fd : Z) (f : frame) | Capture (fd : Z) (f : frame).

(** The descriptors the display keeps. *)
Definition taken (submit : bool) (l : list shown) : list Z :=
  if submit then l ≫= fun s => match s with Submit fd _ => [fd] | Capture _ _ => [] end else [].

(** [submit]: whether a display takes the frame; [capture]: the value of the
    function's frame counter when [NVKVM_PRESENT_CAPTURE] is set.  Device, commands,
    descriptors closed, what happens to the frame, status. *)
Definition nvkvm_req_present (answer : Z * Z) (submit : bool) (capture : option Z) (req : present_req) d
  : dev W * list stub_cmd * list Z * list shown * Z :=
  if negb (d_graphics d) then (d, [], [], [], EPERM)
  else
    match nvkvm_handle_get (ps_handle_id req) (d_handles d) with
    | None => (d, [], [], [], EINVAL)
    | Some h =>
        if negb (hd_session_id h =? ps_session_id req) || negb (is_render (hd_dev_id h)) then (d, [], [], [], EINVAL)
        else
          let iso := if ps_isolate_id req =? 0 then session_first_isolate (ps_session_id req) (d_sessions d)
                     else ps_isolate_id req in
          if iso =? 0 then (d, [], [], [], ENOENT)
          else
            let '(t1, sent, cl, r, fd) :=
              nvkvm_isolate_present_export answer iso (ps_handle_id req) (ps_stub_handle req) (d_isolates d) in
            let d1 := set_isolates t1 d in
            if (r <? 0) || (fd <? 0) then (d1, sent, cl, [], if r <? 0 then u32 (- r) else EIO)
            else if submit then (d1, sent, cl, [Submit fd (ps_frame req)], 0)
            else
              let cap := match capture with
                         | Some n => if n mod 30 =? 0 then [Capture fd (ps_frame req)] else []
                         | None => []
                         end in
              (d1, sent, cl ++ [fd], Submit fd (ps_frame req) :: cap, 0)
    end.

(** ** XISO_IMPORT *)

Record xiso_req := XisoReq {
  xi_owner_isolate : Z;
  xi_owner_handle : Z;
  xi_owner_gem : Z;
  xi_importer_isolate : Z;
  xi_importer_handle : Z
}.

(** Device, commands, descriptors closed, GEM handle, status. *)
Definition nvkvm_req_xiso_import (exported imported : Z * Z) (req : xiso_req) d
  : dev W * list stub_cmd * list Z * Z * Z :=
  if negb (d_graphics d) then (d, [], [], 0, EPERM)
  else if (xi_owner_isolate req =? 0) || (xi_importer_isolate req =? 0) then (d, [], [], 0, ENOENT)
  else
    match nvkvm_handle_get (xi_owner_handle req) (d_handles d), nvkvm_handle_get (xi_importer_handle req) (d_handles d) with
    | Some oh, Some ih =>
        if negb (is_render (hd_dev_id oh)) || negb (is_render (hd_dev_id ih)) then (d, [], [], 0, EINVAL)
        else if negb (session_has_isolate (hd_session_id oh) (xi_owner_isolate req) (d_sessions d)) ||
                negb (session_has_isolate (hd_session_id ih) (xi_importer_isolate req) (d_sessions d))
        then (d, [], [], 0, EPERM)
        else
          let '(t1, sent, cl, r, fd) :=
            nvkvm_isolate_present_export exported (xi_owner_isolate req) (xi_owner_handle req) (xi_owner_gem req)
              (d_isolates d) in
          if (r <? 0) || (fd <? 0) then (set_isolates t1 d, sent, cl, 0, if r <? 0 then u32 (- r) else EIO)
          else
            let '(t2, sent2, r2, gem) :=
              nvkvm_isolate_xiso_import imported (xi_importer_isolate req) (xi_importer_handle req) fd t1 in
            (set_isolates t2 d, sent ++ sent2, cl ++ [fd], if r2 <? 0 then 0 else gem, if r2 <? 0 then u32 (- r2) else 0)
    | _, _ => (d, [], [], 0, EINVAL)
    end.

(** ** Memory handles *)

Record mem_req := MemReq { mr_handle_id : Z; mr_offset : Z; mr_size : Z }.

(** The checks both directions share; the slot's offset and the descriptor. *)
Definition mem_check (slot : option Z) (req : mem_req) d : res (Z * Z) :=
  match slot with
  | None => Err EINVAL
  | Some base =>
      if mr_size req =? 0 then Err EINVAL
      else
        match nvkvm_handle_get (mr_handle_id req) (d_handles d) with
        | None => Err EBADF
        | Some h =>
            if hd_fd h <? 0 then Err EBADF
            else if negb (hd_type h =? NVKVM_HANDLE_TYPE_MEMORY) then Err EBADF
            else Ok (base, hd_fd h)
        end
  end.

Definition io_status (n : res Z) (size : Z) : Z :=
  match n with Err e => u32 e | Ok n => if u32 n =? size then 0 else EIO end.

Definition nvkvm_req_write_memory_handle (pwrite : Z -> Z -> list Z -> res Z) (slot : option Z) (req : mem_req)
    (shm : bytes) d : list mem_io * Z :=
  match mem_check slot req d with
  | Err e => ([], e)
  | Ok (base, fd) =>
      let data := read_bytes shm base (mr_size req) in
      ([Pwrite fd (mr_offset req) data], io_status (pwrite fd (mr_offset req) data) (mr_size req))
  end.

(** [pread]: the bytes read, at most as many as asked for. *)
Definition nvkvm_req_read_memory_handle (pread : Z -> Z -> Z -> res (list Z)) (slot : option Z) (req : mem_req)
    (shm : bytes) d : bytes * list mem_io * Z :=
  match mem_check slot req d with
  | Err e => (shm, [], e)
  | Ok (base, fd) =>
      let io := [Pread fd (mr_offset req) (mr_size req)] in
      match pread fd (mr_offset req) (mr_size req) with
      | Err e => (shm, io, u32 e)
      | Ok l =>
          let l := take (Z.to_nat (mr_size req)) l in
          (write_bytes shm base l, io, io_status (Ok (Z.of_nat (length l))) (mr_size req))
      end
  end.

(** ** The loop of the command ring *)

(** Commands, head, status. *)
Definition nvkvm_req_enter_loop (sock : bool) (answer : Z * Z) (sid idle_us : Z) d : list stub_cmd * Z * Z :=
  let iso := session_first_isolate sid (d_sessions d) in
  if iso =? 0 then ([], 0, ENODEV)
  else let '(sent, ret, head) := nvkvm_isolate_enter_loop sock answer iso idle_us (d_isolates d) in
       (sent, head, status_of ret).

End requests.

(** ** What the requests change *)

(** Equal but for transaction counters. *)
Definition but_txn (t t' : iso_table) : Prop :=
  it_next_id t' = it_next_id t /\
  forall k, exists n, (it_isolates t').[k] = set_txn n (it_isolates t).[k].

Lemma set_txn_same o : set_txn (o_next_txn_id o) o = o.
Proof. by destruct o. Qed.

Lemma but_txn_refl t : but_txn t t.
Proof. split; [done |]. intros k. exists (o_next_txn_id (it_isolates t).[k]). by rewrite set_txn_same. Qed.

Lemma but_txn_take i t t' : but_txn t t' -> but_txn t (take_slot_txn i t').
Proof.
  intros [H1 H2]. split; [done |]. intros k. unfold take_slot_txn, put_iso. cbn [it_isolates].
  destruct (decide (k = i mod NVKVM_ISOLATE_MAX)) as [->|Hk]; nv_arr; [|apply H2].
  destruct (H2 (i mod NVKVM_ISOLATE_MAX)) as [n ->]. by eexists.
Qed.

#[local] Hint Resolve but_txn_refl but_txn_take : core.

Definition descriptors (answer : Z * Z) : list Z := if 0 <=? snd answer then [snd answer] else [].

(** The export: what was sent, and where the descriptor is. *)
Lemma export_spec answer i h g t :
  let '(t', sent, cl, r, fd) := nvkvm_isolate_present_export answer i h g t in
  but_txn t t' /\
  (sent = [] /\ cl = [] /\ r = - ENOENT \/
   sent = [C_export i h g] /\ iso_valid i t = true /\
   ((r <> 0 /\ (r = fst answer \/ r = - EPROTO) /\ fd = -1 /\ cl = descriptors answer) \/ (r = 0 /\ fst answer = 0 /\ cl = [] /\ 0 <= fd /\ descriptors answer = [fd]))).
Proof.
  unfold nvkvm_isolate_present_export, descriptors. destruct answer as [err a]. cbn [fst snd].
  destruct (bad_isolate i); [split; [auto | by left] |].
  destruct (iso_valid i t); cbn [negb]; [|split; [auto | by left]].
  destruct (Z.eqb_spec err 0) as [->|He]; cbn [negb].
  - destruct (Z.ltb_spec a 0), (Z.leb_spec 0 a); try lia; split; auto; right; split_and!; auto.
    right. split_and!; auto.
  - destruct (Z.leb_spec 0 a); split; auto; right; split_and!; auto.
Qed.

Section sound.
Context {W : Type}.
Implicit Types d : dev W.

Definition same_device d d' : Prop :=
  d_handles d' = d_handles d /\ but_txn (d_isolates d) (d_isolates d') /\ d_sessions d' = d_sessions d /\
  d_va d' = d_va d /\ d_maps d' = d_maps d /\ d_graphics d' = d_graphics d.

Lemma same_device_refl d : same_device d d.
Proof. by split_and!. Qed.

Lemma same_device_isolates t d : but_txn (d_isolates d) t -> same_device d (set_isolates t d).
Proof. intros. split_and!; try done. by destruct d as [? ? ? ? []]. Qed.

#[local] Hint Resolve same_device_refl same_device_isolates : core.

(** [present_accounted]: a frame's dma-buf is closed by the device or handed to the
    display, exactly once, whatever the stub answers; the display and the capture get
    it with the width, height, pitch, format and modifier of the request; nothing is asked of a stub
    unless graphics is enabled and the handle is a render node of the session the
    request names; and the device keeps no trace of the request. *)
Theorem present_accounted (answer : Z * Z) (submit : bool) (capture : option Z) (req : present_req) d :
  - 2 ^ 31 <= fst answer < 2 ^ 31 ->
  let '(d', sent, closed, shows, status) := nvkvm_req_present answer submit capture req d in
  same_device d d' /\
  closed ++ taken submit shows = match sent with [] => [] | _ => descriptors answer end /\
  (shows <> [] -> status = 0) /\
  (forall s, s ∈ shows -> s = Submit (snd answer) (ps_frame req) \/ s = Capture (snd answer) (ps_frame req)) /\
  (status = 0 -> sent <> [] /\ fst answer = 0) /\
  (sent <> [] -> d_graphics d = true /\ exists h iso, sent = [C_export iso (ps_handle_id req) (ps_stub_handle req)] /\
     nvkvm_handle_get (ps_handle_id req) (d_handles d) = Some h /\ hd_session_id h = ps_session_id req /\
     is_render (hd_dev_id h) = true /\ iso_valid iso (d_isolates d) = true).
Proof.
  intros Hint. unfold nvkvm_req_present.
  assert (taken submit [] = []) as Tn by (by destruct submit).
  assert (forall s : shown, s ∈ [] -> s = Submit (snd answer) (ps_frame req) \/ s = Capture (snd answer) (ps_frame req)) as Hnil
    by (intros s []%not_elem_of_nil).
  destruct (d_graphics d); cbn [negb]; [|by split_and!; auto].
  destruct (nvkvm_handle_get _ _) as [h|] eqn:Eh; [|by split_and!; auto].
  destruct (_ || _) eqn:Ec; [by split_and!; auto |]. nv_bool.
  set (iso := if ps_isolate_id req =? 0 then _ else _). destruct (Z.eqb_spec iso 0); [by split_and!; auto |].
  pose proof (export_spec answer iso (ps_handle_id req) (ps_stub_handle req) (d_isolates d)) as He.
  destruct (nvkvm_isolate_present_export _ _ _ _ _) as [[[[t1 sent] cl] r] fd].
  destruct He as [Ht [(-> & -> & ->)|(-> & Hv & [(Hr & Hr' & -> & ->)|(-> & Ha & -> & Hf & Hd)])]].
  - by split_and!; auto.
  - assert ((r <? 0) = true -> u32 (- r) <> 0) as Hu.
    { intros Hl. nv_bool. destruct Hr' as [-> | ->]; [rewrite u32_small by lia; lia | done]. }
    rewrite orb_true_r, Tn, app_nil_r. split_and!; auto; [done | |].
    + destruct (Z.ltb_spec r 0); [|done]. intros Hst. by apply Hu in Hst.
    + split; [done |]. exists h, iso. by split_and!.
  - destruct (Z.ltb_spec fd 0); [lia |]. cbn [orb Z.ltb]. assert (same_device d (set_isolates t1 d)) by auto.
    assert (snd answer = fd) as -> by (unfold descriptors in Hd; repeat case_match; congruence).
    destruct submit; cbn [Z.compare app]; [|destruct capture as [n0|]; [destruct (n0 mod 30 =? 0) |]];
      cbn [taken mbind list_bind app]; rewrite ?Hd;
      (split; [done |]; split; [by rewrite ?Hd |]; split; [done |]; split; [set_solver |]; split; [done |];
       intros _; split; [done |]; exists h, iso; by split_and!).
Qed.

(** [xiso_broker_sound]: an import asks something of a stub only when graphics is
    enabled, both handles are render nodes, and each isolate belongs to the session
    that owns the handle named with it; the owner's stub is asked first, the
    importer's stub gets the very descriptor the owner exported; that descriptor is
    closed exactly once on every path; and a GEM handle is returned only if both
    stubs succeeded. *)
Theorem xiso_broker_sound (exported imported : Z * Z) (req : xiso_req) d :
  let '(d', sent, closed, gem, status) := nvkvm_req_xiso_import exported imported req d in
  same_device d d' /\
  closed = match sent with [] => [] | _ => descriptors exported end /\
  (gem <> 0 -> status = 0 /\ fst exported = 0 /\ imported = (0, gem)) /\
  (sent <> [] -> d_graphics d = true /\
     (sent = [C_export (xi_owner_isolate req) (xi_owner_handle req) (xi_owner_gem req)] \/
      sent = [C_export (xi_owner_isolate req) (xi_owner_handle req) (xi_owner_gem req);
              C_import (xi_importer_isolate req) (xi_importer_handle req) (snd exported)]) /\
     exists oh ih, nvkvm_handle_get (xi_owner_handle req) (d_handles d) = Some oh /\
       nvkvm_handle_get (xi_importer_handle req) (d_handles d) = Some ih /\
       is_render (hd_dev_id oh) = true /\ is_render (hd_dev_id ih) = true /\
       session_has_isolate (hd_session_id oh) (xi_owner_isolate req) (d_sessions d) = true /\
       session_has_isolate (hd_session_id ih) (xi_importer_isolate req) (d_sessions d) = true).
Proof.
  unfold nvkvm_req_xiso_import. destruct (d_graphics d); cbn [negb]; [|by split_and!; auto].
  destruct (_ || _) eqn:Ez; [by split_and!; auto |]. nv_bool.
  destruct (nvkvm_handle_get (xi_owner_handle req) _) as [oh|] eqn:Eo; [|by split_and!; auto].
  destruct (nvkvm_handle_get (xi_importer_handle req) _) as [ih|] eqn:Ei; [|by split_and!; auto].
  destruct (_ || _) eqn:Er; [by split_and!; auto |]. nv_bool.
  destruct (_ || _) eqn:Es; [by split_and!; auto |]. nv_bool.
  pose proof (export_spec exported (xi_owner_isolate req) (xi_owner_handle req) (xi_owner_gem req) (d_isolates d)) as He.
  destruct (nvkvm_isolate_present_export _ _ _ _ _) as [[[[t1 sent] cl] r] fd].
  assert (forall P : Prop, P -> P /\ exists oh0 ih0, Some oh = Some oh0 /\ Some ih = Some ih0 /\
    is_render (hd_dev_id oh0) = true /\ is_render (hd_dev_id ih0) = true /\
    session_has_isolate (hd_session_id oh0) (xi_owner_isolate req) (d_sessions d) = true /\
    session_has_isolate (hd_session_id ih0) (xi_importer_isolate req) (d_sessions d) = true) as Hchk
    by (intros P HP; split; [done |]; exists oh, ih; by split_and!).
  destruct He as [Ht [(-> & -> & ->)|(-> & Hv & [(Hr & Hr' & -> & ->)|(-> & Ha & -> & Hf & Hd)])]].
  - cbn. by split_and!; auto.
  - rewrite orb_true_r. split_and!; auto; done.
  - destruct (Z.ltb_spec fd 0); [lia |]. cbn [orb Z.ltb Z.compare]. rewrite <- Hd.
    assert (snd exported = fd) as Hfd by (unfold descriptors in Hd; destruct (0 <=? snd exported); [by injection Hd | done]). rewrite Hfd.
    unfold nvkvm_isolate_xiso_import. destruct (bad_isolate _); [split_and!; auto; done |].
    destruct (Z.ltb_spec fd 0); [lia |]. destruct (iso_valid (xi_importer_isolate req) t1); cbn [negb];
      [|split_and!; auto; done].
    destruct imported as [err g]. destruct (Z.eqb_spec err 0) as [->|]; cbn [negb].
    + destruct (Z.eqb_spec g 0) as [->|]; split_and!; auto; done.
    + split_and!; auto. by case_match.
Qed.

(** [present_foreign_isolate]: PRESENT, unlike the import, does not ask whether the
    isolate belongs to the session that owns the handle; the export reaches the stub
    of any living isolate, which looks the handle id up in its own table. *)
Theorem present_foreign_isolate (answer : Z * Z) (submit : bool) (capture : option Z) (f : frame) (i id gem : Z) (h : handle) d :
  d_graphics d = true -> nvkvm_handle_get id (d_handles d) = Some h -> is_render (hd_dev_id h) = true ->
  iso_valid i (d_isolates d) = true ->
  session_has_isolate (hd_session_id h) i (d_sessions d) = false ->
  (nvkvm_req_present answer submit capture (PresentReq i id gem (hd_session_id h) f) d).1.1.1.2 = [C_export i id gem].
Proof.
  intros Hg Hh Hr Hv _. unfold nvkvm_req_present. rewrite Hg. cbn [negb ps_handle_id ps_isolate_id ps_session_id ps_stub_handle].
  rewrite Hh, Hr, Z.eqb_refl. cbn [negb orb].
  assert (bad_isolate i = false) as Hb by (unfold iso_valid, iso_entry in Hv; by destruct (bad_isolate i)).
  assert (i <> 0) by (intros ->; done). destruct (Z.eqb_spec i 0); [done |]. destruct (Z.eqb_spec i 0); [done |].
  unfold nvkvm_isolate_present_export. rewrite Hb, Hv. cbn [negb]. destruct answer as [err fd].
  repeat case_match; simplify_eq; done.
Qed.

Lemma read_memory_frame pread slot req shm d i :
  0 <= mr_size req -> (forall base, slot = Some base -> ~ (base <= i < base + mr_size req)) ->
  get8 (nvkvm_req_read_memory_handle pread slot req shm d).1.1 i = get8 shm i.
Proof.
  intros Hs Hi. unfold nvkvm_req_read_memory_handle, mem_check. destruct slot as [base|]; [|done]. specialize (Hi base eq_refl).
  destruct (mr_size req =? 0); [done |]. destruct (nvkvm_handle_get _ _) as [h|]; [|done]. destruct (hd_fd h <? 0); [done |].
  destruct (negb _); [done |]. destruct (pread _ _ _) as [l|e]; [|done]. apply get8_write_ne. rewrite length_take. lia.
Qed.

(** [memory_io_sound]: memory requests reach the host only for a handle of memory type
    with a descriptor, with the slot's own bytes; a read changes bytes of the slot
    only, and a status of 0 means all of them were transferred. *)
Theorem memory_io_sound (pwrite : Z -> Z -> list Z -> res Z) (pread : Z -> Z -> Z -> res (list Z)) (slot : option Z)
    (req : mem_req) (shm : bytes) d :
  0 <= mr_size req < 2 ^ 32 -> (forall fd off l e, pwrite fd off l = Err e -> 0 < e < 2 ^ 32) ->
  (forall fd off n e, pread fd off n = Err e -> 0 < e < 2 ^ 32) ->
  let memory fd base := slot = Some base /\ exists h, nvkvm_handle_get (mr_handle_id req) (d_handles d) = Some h /\
    hd_type h = NVKVM_HANDLE_TYPE_MEMORY /\ hd_fd h = fd /\ 0 <= fd in
  (let '(io, status) := nvkvm_req_write_memory_handle pwrite slot req shm d in
   (forall c, c ∈ io -> exists fd base, memory fd base /\ c = Pwrite fd (mr_offset req) (read_bytes shm base (mr_size req))) /\
   (status = 0 -> exists fd base n, memory fd base /\ pwrite fd (mr_offset req) (read_bytes shm base (mr_size req)) = Ok n /\
      u32 n = mr_size req)) /\
  (let '(shm', io, status) := nvkvm_req_read_memory_handle pread slot req shm d in
   (forall c, c ∈ io -> exists fd base, memory fd base /\ c = Pread fd (mr_offset req) (mr_size req)) /\
   (forall i, (forall base, slot = Some base -> ~ (base <= i < base + mr_size req)) -> get8 shm' i = get8 shm i) /\
   (status = 0 -> exists fd base l, memory fd base /\ pread fd (mr_offset req) (mr_size req) = Ok l /\
      mr_size req <= Z.of_nat (length l) /\
      (octets l -> read_bytes shm' base (mr_size req) = take (Z.to_nat (mr_size req)) l))).
Proof.
  intros Hs Hw Hr memory. unfold nvkvm_req_write_memory_handle, nvkvm_req_read_memory_handle.
  assert (match mem_check slot req d with Err e => e <> 0 | Ok (base, fd) => memory fd base end) as Hm.
  { unfold mem_check, memory. destruct slot as [base|]; [|done]. destruct (mr_size req =? 0); [done |].
    destruct (nvkvm_handle_get _ _) as [h|]; [|done]. destruct (Z.ltb_spec (hd_fd h) 0); [done |].
    destruct (Z.eqb_spec (hd_type h) NVKVM_HANDLE_TYPE_MEMORY); [|done]. cbn. eauto 10. }
  destruct (mem_check slot req d) as [[base fd]|e]; [|split; split_and!; try done; intros c Hc; by apply elem_of_nil in Hc].
  split.
  - split; [intros c ->%list_elem_of_singleton; eauto |]. unfold io_status.
    destruct (pwrite _ _ _) as [n|e] eqn:Ep; [|apply Hw in Ep; rewrite u32_small by lia; lia].
    destruct (Z.eqb_spec (u32 n) (mr_size req)); [|done]. intros _. by exists fd, base, n.
  - destruct (pread _ _ _) as [l|e] eqn:Ep.
    + set (k := take _ l). assert (length k <= Z.to_nat (mr_size req))%nat by (unfold k; rewrite length_take; lia).
      split_and!; [intros c ->%list_elem_of_singleton; eauto | |].
      * intros i Hi. apply get8_write_ne. specialize (Hi base (proj1 Hm)). lia.
      * unfold io_status. rewrite u32_small by lia. destruct (Z.eqb_spec (Z.of_nat (length k)) (mr_size req)) as [E|]; [|done].
        intros _. exists fd, base, l. split_and!; [done | done | unfold k in E; rewrite length_take in E; lia |].
        intros Hl. pose proof (read_write shm base k (Forall_take _ _ _ Hl)) as Hrw. by rewrite E in Hrw.
    + apply Hr in Ep. rewrite u32_small by lia. split_and!; [intros c ->%list_elem_of_singleton; eauto | done | lia].
Qed.
End sound.

(** ** Examples: sessions 7 and 8, each with an isolate and a render handle *)

#[local] Existing Instance IsoMmap.ex_allocator.
Import SessionRuns.

Definition ex_render1 : xdev := fst (fst (fst (nvkvm_req_open_nvidia_handle ex_env (OpenReq 7 32 2) ex_dev2))).
Definition ex_render2 : xdev :=
  fst (fst (fst (nvkvm_req_open_nvidia_handle (OEnv (fun _ _ => Ok 40) (Ok 41) 0 (fun _ _ _ => (0, 42))) (OpenReq 8 32 2) ex_render1))).

Definition ex_memory : xdev := fst (fst (fst (nvkvm_req_open_memory_handle (Ok 60) None 7 4096 ex_dev0))).

Definition ex_frame : frame := Frame 1920 1080 7680 0x34325258 0x300000000606014.

Lemma present_accounted_witness :
  (nvkvm_req_present (0, 50) true None (PresentReq 1 1 9 7 ex_frame) ex_render2).1.1.1.2 = [C_export 1 1 9] /\
  let '(_, sent, closed, shows, _) := nvkvm_req_present (0, 50) true None (PresentReq 1 1 9 7 ex_frame) ex_render2 in
  closed ++ taken true shows = match sent with [] => [] | _ => [50] end.
Proof.
  split; [vm_compute; reflexivity |].
  pose proof (present_accounted (0, 50) true None (PresentReq 1 1 9 7 ex_frame) ex_render2 ltac:(cbn; lia)) as H.
  destruct (nvkvm_req_present _ _ _ _ _) as [[[[? ?] ?] ?] ?]. exact (proj1 (proj2 H)).
Defined.

Lemma memory_io_sound_witness :
  let pwrite (_ _ : Z) (l : list Z) := Ok (Z.of_nat (length l)) in
  snd (nvkvm_req_write_memory_handle pwrite (Some 65536) (MemReq 1 0 4) ∅ ex_memory) = 0 /\
  exists fd base n, u32 n = 4 /\ pwrite fd 0 (read_bytes ∅ base 4) = Ok n.
Proof.
  intros pwrite. assert (snd (nvkvm_req_write_memory_handle pwrite (Some 65536) (MemReq 1 0 4) ∅ ex_memory) = 0) as E
    by (vm_compute; reflexivity). split; [done |].
  pose proof (memory_io_sound pwrite (fun _ _ _ => Err 5) (Some 65536) (MemReq 1 0 4) ∅ ex_memory ltac:(cbn; lia)
    ltac:(discriminate) ltac:(intros ? ? ? e [= <-]; lia)) as [H _].
  destruct (nvkvm_req_write_memory_handle _ _ _ _ _) as [io st]. cbn in E. subst st.
  destruct H as [_ H]. destruct (H eq_refl) as (fd & base & n & _ & H1 & H2). by exists fd, base, n.
Defined.

Lemma present_foreign_isolate_witness :
  (nvkvm_req_present (0, 50) true None (PresentReq 2 1 9 7 ex_frame) ex_render2).1.1.1.2 = [C_export 2 1 9].
Proof.
  refine (present_foreign_isolate (0, 50) true None ex_frame 2 1 9 (Hnd 1 NVKVM_HANDLE_TYPE_NVIDIA 32 7 32 1 false true) ex_render2 _ _ _ _ _);
    vm_compute; reflexivity.
Defined.

End Requests.
