(* ===== verification/VirtioTx.v ===== *)
(** * The transmit queue of the device ([src/qemu/virtio_nvgpu.c])

    The guest posts a request as an element of the queue: a header, a request
    structure and room for the answer; larger data sits in slots of a shared memory
    region.  The handler takes the elements in order and answers most of them on
    the spot; ioctls and the consumer loop go to a pool of threads and are answered
    when they are done.  The guest may write the shared region at any time. *)

From stdpp Require Import strings.
From S2P Require Import Prelude Extents Bytes HandleTable GpaAlloc Abi UvmVa Ring IsoMmap Allowlists IoctlGate Sessions SessionRuns Requests HostFiles StubWire.
Local Open Scope Z_scope.
Local Open Scope nv_scope.

Module VirtioTx.
Import HTab UvmVa IsoMmap Sessions Requests HostFiles.

Definition NVKVM_SHM_NSLOTS : Z := 256.
Definition sizeof_hdr : Z := 8.

Definition NVKVM_REQ_LIST_NVIDIA_DEVICES : Z := 10.
Definition NVKVM_REQ_OPEN_NVIDIA_HANDLE : Z := 11.
Definition NVKVM_REQ_OPEN_MEMORY_HANDLE : Z := 12.
Definition NVKVM_REQ_CLOSE_HANDLE : Z := 13.
Definition NVKVM_REQ_CREATE_ISOLATE : Z := 14.
Definition NVKVM_REQ_KILL_ISOLATE : Z := 15.
Definition NVKVM_REQ_COPY_HANDLE_TO_ISOLATE : Z := 16.
Definition NVKVM_REQ_CLOSE_HANDLE_ON_ISOLATE : Z := 17.
Definition NVKVM_REQ_IOCTL_ON_ISOLATE : Z := 18.
Definition NVKVM_REQ_MMAP_ON_ISOLATE : Z := 19.
Definition NVKVM_REQ_MUNMAP_ON_ISOLATE : Z := 20.
Definition NVKVM_REQ_POLL_ON_ISOLATE : Z := 21.
Definition NVKVM_REQ_UNPOLL_ON_ISOLATE : Z := 22.
Definition NVKVM_REQ_WRITE_MEMORY_HANDLE : Z := 23.
Definition NVKVM_REQ_READ_MEMORY_HANDLE : Z := 24.
Definition NVKVM_REQ_REALIZE_UVM_MAPPING : Z := 25.
Definition NVKVM_REQ_READ_HOST_FILE : Z := 26.
Definition NVKVM_REQ_INTERRUPT : Z := 27.
Definition NVKVM_REQ_SETUP_RING : Z := 28.
Definition NVKVM_REQ_ENTER_LOOP : Z := 29.
Definition NVKVM_REQ_PRESENT : Z := 30.
Definition NVKVM_REQ_XISO_IMPORT : Z := 31.

(** ** Shared memory slots *)

Section slots.
Context (slot_size shm_size : Z).

Definition slot_valid (slot : Z) : bool := (1 <=? slot) && (slot <? NVKVM_SHM_NSLOTS).

(** The offset of the slot in the region. *)
Definition slot_ptr (slot : Z) : Z := slot * slot_size.

Definition slot_blob (slot size : Z) : option Z :=
  if negb (slot_valid slot) then None
  else if slot_size <? size then None
  else if shm_size <? u64 (u64 (slot * slot_size) + size) then None
  else Some (slot_ptr slot).
End slots.

(** ** The device *)

Section tx.
Context {W : Type} `{GpaAllocator W} (kvm_vm_fd slot_size shm_size : Z).

(** [t_files]: the cached list of GPUs of the host files; [t_shm]: the shared region. *)
Record vdev := VDev {
  t_dev : dev W;
  t_clients : list Z;
  t_abi : option Abi.abi_profile;
  t_files : option (list string);
  t_shm : bytes
}.

Definition set_dev (d : dev W) (v : vdev) : vdev := VDev d (t_clients v) (t_abi v) (t_files v) (t_shm v).
Definition set_shm (m : bytes) (v : vdev) : vdev := VDev (t_dev v) (t_clients v) (t_abi v) (t_files v) m.

(** What the host, the drivers and the stubs answer during one request. *)
Record host := Host {
  x_access : dev_path -> bool;
  x_open : open_env;
  x_memfd : res Z;
  x_ftruncate : option Z;
  x_socketpair : option Z;
  x_spawn : spawn;
  x_ring : option ring_env;
  x_sync : Z;
  x_sock : option Z;
  x_export : Z * Z;
  x_import : Z * Z;
  x_submit : bool;
  x_capture : option Z;
  x_mmap : option Z;
  x_mirror : Z;
  x_realize : Z -> Z -> Z -> stub_answer;
  x_pwrite : Z -> Z -> list Z -> res Z;
  x_pread : Z -> Z -> Z -> res (list Z);
  x_dir : option (list string);
  x_fopen : string -> option Z;
  x_reads : list read_out
}.

(** Answers: little-endian words; a 64-bit field is two words. *)
Definition w64 (v : Z) : list Z := [u32 v; Z.shiftr v 32].
Definition status_only (st : Z) : list Z := StubWire.words [st; 0].

Definition list_resp (l : list Z) : list Z :=
  StubWire.words ([Z.of_nat (length l); 0] ++ (l ≫= fun dev => [dev; 0; 0; 0])) ++ replicate (16 * (32 - length l)) 0.

Definition ring_resp (r : res (Z * Z * Z * Z)) : list Z :=
  match r with
  | Ok (gpa, region, off, bytes) => StubWire.words (w64 gpa ++ [region; 0; off; bytes; 0; 0])
  | Err e => StubWire.words (w64 0 ++ [0; 0; 0; 0; u32 e; 0])
  end.

Definition mmap_bytes (r : mmap_resp) : list Z := StubWire.words (w64 (s_gpa_base r) ++ w64 (s_length r) ++ [s_mmap_token r; s_status r]).

Definition realize_bytes (r : realize_resp) : list Z :=
  StubWire.words (w64 (y_gpa_base r) ++ w64 (y_length r) ++ w64 (y_token r) ++ [y_rm_status r; y_status r]).

(** A slot, where the request names data. *)
Definition blob_if (slot size : Z) : option Z := if 0 <? size then slot_blob slot_size shm_size slot size else None.

(** [rm_status] of the semaphore-pool parameters. *)
Definition SEM_POOL_STATUS : Z := 9240.

(** REALIZE_UVM_MAPPING: the handler validates the snapshot and the intent where they
    are, in the shared region, and clears the intent's status there. *)
Definition realize_request (q : bytes) : realize_req :=
  RealizeReq (get32 q 0) (get32 q 8) (get64 q 16) (get64 q 24) (get32 q 40) (get32 q 44) (get32 q 56).

Definition snapshot_at (m : bytes) (o : Z) : snapshot := Snap (get32 m (o + 8)) (get32 m (o + 12)) (get32 m (o + 16)).
Definition intent_at (m : bytes) (o : Z) : intent := Intent (get64 m o) (get64 m (o + 8)).

(** Whether the checks before the status is cleared pass: all but those of the length. *)
Definition clears_status (req : realize_req) (snap : option snapshot) (it : option intent) : bool :=
  match snap, it with
  | Some sn, Some i =>
      negb ((z_intent_size req =? 0) || (65536 <? z_intent_size req)) &&
      negb ((16 <? n_gpus sn) || (16 <? n_va_spaces sn) || (16 <? n_range_groups sn)) &&
      (z_mode req =? NVKVM_UVM_REALIZE_MODE_SEM_POOL) && (z_intent_size req =? SEM_POOL_SIZE) &&
      (i_length i =? z_length req) && (i_base i =? z_gva req)
  | _, _ => false
  end.

Definition tx_realize (env : host) (req : realize_req) (state_slot intent_slot : Z) (v : vdev) : vdev * realize_resp :=
  let sb := slot_blob slot_size shm_size state_slot slot_size in
  let ib := blob_if intent_slot (z_intent_size req) in
  let snap := snapshot_at (t_shm v) <$> sb in
  let it := intent_at (t_shm v) <$> ib in
  let shm' := match ib with
              | Some o => if clears_status req snap it then put32 (t_shm v) (o + SEM_POOL_STATUS) 0 else t_shm v
              | None => t_shm v
              end in
  let '(m, r) := nvkvm_req_realize_uvm_mapping (x_realize env) req snap it (d_maps (t_dev v)) in
  (set_shm shm' (set_dev (with_maps m (t_dev v)) v), r).

(** ** Requests answered on the spot *)

(** What a request does besides: descriptors closed, commands sent to stubs, frames
    shown or captured, effects on mappings and isolates, input and output on memory
    handles, the host file read. *)
Inductive act :=
| A_close (fd : Z)
| A_stub (c : stub_cmd)
| A_show (s : shown)
| A_map (e : effect)
| A_io (m : mem_io)
| A_file (path : string).

(** [None]: not such a request.  The answer is the structure after the header. *)
Definition tx_inline (env : host) (ty : Z) (q : bytes) (v : vdev) : option (vdev * list Z * list act) :=
  let d := t_dev v in
  if ty =? NVKVM_REQ_LIST_NVIDIA_DEVICES then
    Some (v, list_resp (nvkvm_req_list_nvidia_devices (x_access env)), [])
  else if ty =? NVKVM_REQ_OPEN_NVIDIA_HANDLE then
    let '(d', cl, id, st) := nvkvm_req_open_nvidia_handle (x_open env) (OpenReq (get32 q 8) (get32 q 0) (get32 q 4)) d in
    Some (set_dev d' v, StubWire.words [id; st], A_close <$> cl)
  else if ty =? NVKVM_REQ_PRESENT then
    let f := Frame (get32 q 12) (get32 q 16) (get32 q 20) (get32 q 24) (get64 q 32) in
    let req := PresentReq (get32 q 0) (get32 q 4) (get32 q 8) (get32 q 28) f in
    let '(d', sent, cl, shows, st) := nvkvm_req_present (x_export env) (x_submit env) (x_capture env) req d in
    Some (set_dev d' v, status_only st, (A_stub <$> sent) ++ (A_show <$> shows) ++ (A_close <$> cl))
  else if ty =? NVKVM_REQ_XISO_IMPORT then
    let req := XisoReq (get32 q 0) (get32 q 4) (get32 q 8) (get32 q 12) (get32 q 16) in
    let '(d', sent, cl, gem, st) := nvkvm_req_xiso_import (x_export env) (x_import env) req d in
    Some (set_dev d' v, StubWire.words [st; gem], (A_stub <$> sent) ++ (A_close <$> cl))
  else if ty =? NVKVM_REQ_OPEN_MEMORY_HANDLE then
    let '(d', cl, id, st) := nvkvm_req_open_memory_handle (x_memfd env) (x_ftruncate env) (get32 q 8) (get64 q 0) d in
    Some (set_dev d' v, StubWire.words [id; st], A_close <$> cl)
  else if ty =? NVKVM_REQ_CLOSE_HANDLE then
    let '(d', cl, st) := nvkvm_req_close_handle (get32 q 0) d in Some (set_dev d' v, status_only st, A_close <$> cl)
  else if ty =? NVKVM_REQ_CREATE_ISOLATE then
    let '(d', eff, id, st) := nvkvm_req_create_isolate (x_socketpair env) (x_spawn env) (x_ring env) (get32 q 0) d in
    Some (set_dev d' v, StubWire.words [id; st], A_map <$> eff)
  else if ty =? NVKVM_REQ_KILL_ISOLATE then
    let '(d', eff, cl, st) := nvkvm_req_kill_isolate kvm_vm_fd (get32 q 0) d in
    Some (set_dev d' v, status_only st, (A_map <$> eff) ++ (A_close <$> cl))
  else if ty =? NVKVM_REQ_INTERRUPT then
    let '(sent, r) := nvkvm_isolate_interrupt (x_sock env) (get32 q 0) (get32 q 4) (d_isolates d) in
    Some (v, status_only (status_of r), A_stub <$> sent)
  else if ty =? NVKVM_REQ_SETUP_RING then Some (v, ring_resp (nvkvm_req_setup_ring (get32 q 0) d), [])
  else if ty =? NVKVM_REQ_COPY_HANDLE_TO_ISOLATE then
    let '(d', st) := nvkvm_req_copy_handle_to_isolate (x_sync env) (get32 q 4) (get32 q 0) d in
    Some (set_dev d' v, status_only st, [])
  else if ty =? NVKVM_REQ_CLOSE_HANDLE_ON_ISOLATE then
    let '(d', st) := nvkvm_req_close_handle_on_isolate (x_sync env) (get32 q 4) (get32 q 0) d in
    Some (set_dev d' v, status_only st, [])
  else if ty =? NVKVM_REQ_POLL_ON_ISOLATE then
    let '(sent, r) := nvkvm_isolate_poll (x_sync env) (get32 q 0) (get32 q 4) (get32 q 8) (d_isolates d) in
    Some (v, status_only (status_of r), A_stub <$> sent)
  else if ty =? NVKVM_REQ_UNPOLL_ON_ISOLATE then
    let '(sent, r) := nvkvm_isolate_unpoll (x_sync env) (get32 q 0) (get32 q 4) (d_isolates d) in
    Some (v, status_only (status_of r), A_stub <$> sent)
  else if ty =? NVKVM_REQ_MMAP_ON_ISOLATE then
    let req := MmapReq (get32 q 0) (get32 q 4) (get64 q 8) (get64 q 16) (get64 q 24) (get32 q 32) (get32 q 36) in
    let '(m, eff, r) := nvkvm_req_mmap_on_isolate (x_mmap env) (x_mirror env) (d_handles d) req (d_maps d) in
    Some (set_dev (with_maps m d) v, mmap_bytes r, A_map <$> eff)
  else if ty =? NVKVM_REQ_MUNMAP_ON_ISOLATE then
    let '(m, eff, st) := nvkvm_req_munmap_on_isolate kvm_vm_fd (get32 q 4) (d_maps d) in
    Some (set_dev (with_maps m d) v, status_only st, A_map <$> eff)
  else if ty =? NVKVM_REQ_WRITE_MEMORY_HANDLE then
    let req := MemReq (get32 q 0) (get64 q 8) (get32 q 16) in
    let '(io, st) := nvkvm_req_write_memory_handle (x_pwrite env) (blob_if (get32 q 4) (mr_size req)) req (t_shm v) d in
    Some (v, status_only st, A_io <$> io)
  else if ty =? NVKVM_REQ_READ_MEMORY_HANDLE then
    let req := MemReq (get32 q 0) (get64 q 8) (get32 q 16) in
    let '(m, io, st) := nvkvm_req_read_memory_handle (x_pread env) (blob_if (get32 q 4) (mr_size req)) req (t_shm v) d in
    Some (set_shm m v, status_only st, A_io <$> io)
  else if ty =? NVKVM_REQ_READ_HOST_FILE then
    let req := HReq (get32 q 0) (get32 q 8) (get32 q 12) in
    let '(files, m, path, r) := nvkvm_req_read_host_file (x_dir env) (x_fopen env) (x_reads env)
                               (slot_blob slot_size shm_size (get32 q 4) (hf_max_len req)) req (t_files v) (t_shm v) in
    (fun r => (VDev d (t_clients v) (t_abi v) files m, StubWire.words [fst r; snd r], A_file <$> option_list path)) <$> r
  else if ty =? NVKVM_REQ_REALIZE_UVM_MAPPING then
    let '(v', r) := tx_realize env (realize_request q) (get32 q 48) (get32 q 52) v in Some (v', realize_bytes r, [])
  else None.

(** ** The pool *)

(** [k_param], [k_aux]: offsets in the shared region, [None] for [NULL]; the sizes in
    the request are 0 where the slot was refused. *)
Record work := Work { k_req : Gate.request; k_param : option Z; k_aux : option Z }.

Definition clamp (p : option Z) (size : Z) : Z := match p with Some _ => size | None => 0 end.

Definition ioctl_work (q : bytes) : work :=
  let p := blob_if (get32 q 16) (get32 q 12) in
  let a := blob_if (get32 q 24) (get32 q 20) in
  Work (Gate.Req (get32 q 0) (get32 q 4) (get32 q 8) (clamp p (get32 q 12)) (clamp a (get32 q 20)) (get32 q 36)) p a.

(** A private copy of a slot, and the copy back. *)
Definition copy_in (m : bytes) (p : option Z) (size : Z) : option bytes :=
  (fun o => write_bytes ∅ 0 (read_bytes m o size)) <$> p.

Definition copy_out (m : bytes) (p : option Z) (size : Z) (b : option bytes) : bytes :=
  match p, b with Some o, Some b => write_bytes m o (read_bytes b 0 size) | _, _ => m end.

Definition gate_device (v : vdev) : Gate.device :=
  Gate.Dev (d_handles (t_dev v)) (d_va (t_dev v)) (t_clients v) (d_graphics (t_dev v)) (t_abi v).

Definition ioctl_bytes (r : Gate.response) : list Z :=
  StubWire.words (w64 (Gate.retval r) ++ [Gate.status r; Gate.nvstatus r] ++ w64 (Gate.fault_addr r)).

Definition after_gate (g : Gate.device) (v : vdev) : vdev :=
  VDev (SessionRuns.set_va (Gate.va g) (t_dev v)) (Gate.clients g) (t_abi v) (t_files v) (t_shm v).

(** A work item: waiting, with its private copies, with the results still to be copied
    back, or finished. *)
Inductive item :=
| I_ioctl (w : work)
| I_copied (w : work) (p a : option bytes)
| I_ran (w : work) (p a : option bytes) (r : Gate.response)
| I_loop (sid idle_us : Z)
| I_answer (resp : list Z).

(** The queue: elements the guest has posted, those in the pool with their headers, and
    those given back with the length reported and the bytes written; what of these
    the element has room for is up to the guest, see [resp_buf] of [GuestCalls]. *)
Record queue := Queue {
  u_dev : vdev;
  u_avail : list (nat * list Z);
  u_pool : gmap nat (list Z * item);
  u_used : list (nat * (Z * list Z))
}.

Definition hdr_of (out : list Z) : list Z := take 8 out.
Definition type_of (out : list Z) : Z := get32 (write_bytes ∅ 0 out) 0.
(** The request structure: what the element holds after the header, zero beyond. *)
Definition req_of (out : list Z) : bytes := write_bytes ∅ 0 (drop 8 out).

Definition push (e : nat) (out resp : list Z) (u : queue) (v : vdev) (avail : list (nat * list Z)) : queue :=
  Queue v avail (u_pool u) (u_used u ++ [(e, (sizeof_hdr + Z.of_nat (length resp), hdr_of out ++ resp))]).

Definition refuse_elem (e : nat) (u : queue) (avail : list (nat * list Z)) : queue :=
  Queue (u_dev u) avail (u_pool u) (u_used u ++ [(e, (0, []))]).

Definition pool_add (e : nat) (out : list Z) (it : item) (u : queue) (avail : list (nat * list Z)) : queue :=
  Queue (u_dev u) avail (<[e := (hdr_of out, it)]> (u_pool u)) (u_used u).

(** One turn of the loop of [nvkvm_tx_handler]. *)
Definition tx_one (env : host) (e : nat) (out : list Z) (avail : list (nat * list Z)) (u : queue) : queue :=
  if Z.of_nat (length out) <? sizeof_hdr then refuse_elem e u avail
  else
    let q := req_of out in
    if type_of out =? NVKVM_REQ_ENTER_LOOP then pool_add e out (I_loop (get32 q 0) (get32 q 4)) u avail
    else if type_of out =? NVKVM_REQ_IOCTL_ON_ISOLATE then pool_add e out (I_ioctl (ioctl_work q)) u avail
    else
      match tx_inline env (type_of out) q (u_dev u) with
      | Some (v, resp, _) => push e out resp u v avail
      | None => refuse_elem e u avail
      end.

(** ** Steps *)

(** What the kernel promises: descriptors it returns are not held already, reads of a
    file come to an end, error numbers are positive. *)
Record env_ok (env : host) (d : dev W) : Prop := {
  eo_open : forall dev_id fl, SessionRuns.unheld_res (d_handles d) (open_dev (v_open (x_open env)) (v_eventfd (x_open env)) dev_id fl);
  eo_device : forall h dev_id fl, SessionRuns.unheld (d_handles d) (snd (v_device (x_open env) h dev_id fl));
  eo_memfd : SessionRuns.unheld_res (d_handles d) (x_memfd env);
  eo_reads : Forall read_ok (x_reads env) /\ Exists ends (x_reads env);
  eo_fopen : forall p e, x_fopen env p = Some e -> 0 < e < 2 ^ 32
}.

Definition set_item (e : nat) (h : list Z) (it : item) (v : vdev) (u : queue) : queue :=
  Queue v (u_avail u) (<[e := (h, it)]> (u_pool u)) (u_used u).

(** The elements the device has not given back, in the queue or in the pool. *)
Definition elements (u : queue) : list nat := (u_avail u).*1 ++ (map_to_list (u_pool u)).*1 ++ (u_used u).*1.

(** Steps of the device. *)
Inductive dstep : queue -> queue -> Prop :=
| ds_take env u e out avail :
    u_avail u = (e, out) :: avail -> env_ok env (t_dev (u_dev u)) -> dstep u (tx_one env e out avail u)
| ds_copy u e h w :
    u_pool u !! e = Some (h, I_ioctl w) ->
    dstep u (set_item e h (I_copied w (copy_in (t_shm (u_dev u)) (k_param w) (Gate.param_size (k_req w)))
                                      (copy_in (t_shm (u_dev u)) (k_aux w) (Gate.aux_size (k_req w)))) (u_dev u) u)
| ds_run uvm dup isolate pid pid_mem u e h w p a :
    u_pool u !! e = Some (h, I_copied w p a) ->
    let o := Gate.nvkvm_req_ioctl_on_isolate uvm dup isolate pid pid_mem (gate_device (u_dev u)) (k_req w) p a in
    dstep u (set_item e h (I_ran w (Gate.o_param o) (Gate.o_aux o) (Gate.o_resp o)) (after_gate (Gate.o_dev o) (u_dev u)) u)
| ds_back u e h w p a r :
    u_pool u !! e = Some (h, I_ran w p a r) ->
    let m := copy_out (t_shm (u_dev u)) (k_param w) (Gate.param_size (k_req w)) p in
    dstep u (set_item e h (I_answer (ioctl_bytes r))
               (set_shm (copy_out m (k_aux w) (Gate.aux_size (k_req w)) a) (u_dev u)) u)
| ds_loop sock answer u e h sid idle_us :
    u_pool u !! e = Some (h, I_loop sid idle_us) ->
    let r := nvkvm_req_enter_loop sock answer sid idle_us (t_dev (u_dev u)) in
    dstep u (set_item e h (I_answer (StubWire.words (w64 (snd (fst r)) ++ [snd r; 0]))) (u_dev u) u)
| ds_done u e h resp :
    u_pool u !! e = Some (h, I_answer resp) ->
    dstep u (Queue (u_dev u) (u_avail u) (delete e (u_pool u))
               (u_used u ++ [(e, (sizeof_hdr + Z.of_nat (length resp), h ++ resp))]))
| ds_stub_gone u iso :
    0 <= iso ->
    let d := t_dev (u_dev u) in
    dstep u (Queue (set_dev (with_isolates (reader_exit iso (d_isolates d)) (mp_win (d_maps d)) d) (u_dev u))
               (u_avail u) (u_pool u) (u_used u)).

(** Steps of the guest: it posts an element, or writes the shared region. *)
Inductive gstep : option (nat * list Z) -> queue -> queue -> Prop :=
| gs_post u e out :
    e ∉ elements u -> octets out ->
    gstep (Some (e, out)) u (Queue (u_dev u) (u_avail u ++ [(e, out)]) (u_pool u) (u_used u))
| gs_write u m : gstep None u (Queue (set_shm m (u_dev u)) (u_avail u) (u_pool u) (u_used u)).

Definition q_init (w : W) (graphics : bool) (abi : option Abi.abi_profile) (m : bytes) : queue :=
  Queue (VDev (Dev nvkvm_handle_table_init nvkvm_isolate_table_init [] va_init (Maps tokens_init w) graphics) [] abi None m)
    [] ∅ [].

(** Runs; the list holds what the guest has posted so far, in order. *)
Inductive qreach : list (nat * list Z) -> queue -> Prop :=
| qr_init w graphics abi m : gpa_owns w [] -> qreach [] (q_init w graphics abi m)
| qr_dev l u u' : qreach l u -> dstep u u' -> qreach l u'
| qr_guest l o u u' : qreach l u -> gstep o u u' -> qreach (l ++ option_list o) u'.

(** ** Every request is one of the known ones *)

#[local] Ltac next_request := match goal with |- (if ?c then _ else _) = _ -> _ => destruct c end.

Abbreviation dreach := (SessionRuns.dreach kvm_vm_fd).

Lemma take_dreach (d : dev W) n i :
  dreach d n -> dreach (set_isolates (take_slot_txn i (d_isolates d)) d) n.
Proof. intros Hd. by apply SessionRuns.dr_command. Qed.

Lemma set_isolates_same (d : dev W) : set_isolates (d_isolates d) d = d.
Proof. by destruct d as [? ? ? ? []]. Qed.

Lemma export_dreach answer i h g (d : dev W) n :
  dreach d n -> dreach (set_isolates (nvkvm_isolate_present_export answer i h g (d_isolates d)).1.1.1.1 d) n.
Proof.
  intros Hd. unfold nvkvm_isolate_present_export. destruct (bad_isolate i); [cbn [fst snd]; by rewrite set_isolates_same |].
  pose proof (take_dreach d n i Hd). by destruct (negb _), answer as [err fd]; cbn; repeat case_match.
Qed.

Lemma import_dreach answer i h fd (d : dev W) n :
  dreach d n -> dreach (set_isolates (nvkvm_isolate_xiso_import answer i h fd (d_isolates d)).1.1.1 d) n.
Proof.
  intros Hd. unfold nvkvm_isolate_xiso_import. destruct (bad_isolate i); [cbn [fst snd]; by rewrite set_isolates_same |].
  destruct (fd <? 0); [cbn [fst snd]; by rewrite set_isolates_same |].
  pose proof (take_dreach d n i Hd). by destruct (negb _), answer as [err g]; cbn; repeat case_match.
Qed.

Lemma present_dreach answer submit cap req (d : dev W) n :
  dreach d n -> dreach (nvkvm_req_present answer submit cap req d).1.1.1.1 n.
Proof.
  intros Hd. unfold nvkvm_req_present. destruct (negb _); [done |]. destruct (nvkvm_handle_get _ _); [|done].
  destruct (_ || _); [done |]. set (iso := if ps_isolate_id req =? 0 then _ else _). destruct (iso =? 0); [done |].
  pose proof (export_dreach answer iso (ps_handle_id req) (ps_stub_handle req) d n Hd) as He.
  destruct (nvkvm_isolate_present_export _ _ _ _ _) as [[[[t sent] cl] r] fd]. by repeat case_match.
Qed.

Lemma xiso_dreach ex im req (d : dev W) n :
  dreach d n -> dreach (nvkvm_req_xiso_import ex im req d).1.1.1.1 n.
Proof.
  intros Hd. unfold nvkvm_req_xiso_import. destruct (negb _); [done |]. destruct (_ || _); [done |].
  destruct (nvkvm_handle_get _ _); [|done]. destruct (nvkvm_handle_get _ _); [|done].
  destruct (_ || _); [done |]. destruct (_ || _); [done |].
  pose proof (export_dreach ex (xi_owner_isolate req) (xi_owner_handle req) (xi_owner_gem req) d n Hd) as He.
  destruct (nvkvm_isolate_present_export _ _ _ _ _) as [[[[t sent] cl] r] fd]. cbn in He. destruct (_ || _); [done |].
  pose proof (import_dreach im (xi_importer_isolate req) (xi_importer_handle req) fd _ n He) as Hi.
  change (d_isolates (set_isolates t d)) with t in Hi.
  destruct (nvkvm_isolate_xiso_import _ _ _ _ _) as [[[t2 sent2] r2] gem]. exact Hi.
Qed.

Lemma inline_dreach env ty q (v v' : vdev) resp acts n :
  env_ok env (t_dev v) -> dreach (t_dev v) n -> tx_inline env ty q v = Some (v', resp, acts) -> exists n', dreach (t_dev v') n'.
Proof.
  intros [Eo Ed Em Er Ef] Hd. unfold tx_inline. destruct v as [d cl abi files shm]. cbn [t_dev t_shm t_files t_clients t_abi set_dev] in *.
  assert (forall o, 0 <= get32 q o) as Hq by (intros o; pose proof (get32_range q o); lia).
  assert (forall o, 0 <= get64 q o) as Hq8 by (intros o; pose proof (get64_range q o); lia).
  next_request; [intros [= <- _ _]; by exists n |].
  next_request; [destruct (nvkvm_req_open_nvidia_handle _ _ _) as [[[d' c] id] st] eqn:E; intros [= <- _ _];
    exists n; eapply SessionRuns.dr_open; eauto |].
  next_request; [pose proof (present_dreach (x_export env) (x_submit env) (x_capture env) (PresentReq (get32 q 0) (get32 q 4)
    (get32 q 8) (get32 q 28) (Frame (get32 q 12) (get32 q 16) (get32 q 20) (get32 q 24) (get64 q 32))) d n Hd) as H';
    cbv zeta; destruct (nvkvm_req_present _ _ _ _ _) as [[[[d' s] c] tk] st]; intros [= <- _ _]; by exists n |].
  next_request; [pose proof (xiso_dreach (x_export env) (x_import env)
    (XisoReq (get32 q 0) (get32 q 4) (get32 q 8) (get32 q 12) (get32 q 16)) d n Hd) as H';
    destruct (nvkvm_req_xiso_import _ _ _ _) as [[[[d' s] c] g] st]; intros [= <- _ _]; by exists n |].
  next_request; [destruct (nvkvm_req_open_memory_handle _ _ _ _ _) as [[[d' c] id] st] eqn:E; intros [= <- _ _];
    exists n; eapply SessionRuns.dr_memory; eauto |].
  next_request; [destruct (nvkvm_req_close_handle _ _) as [[d' c] st] eqn:E; intros [= <- _ _];
    exists n; eapply SessionRuns.dr_close; eauto |].
  next_request; [destruct (nvkvm_req_create_isolate _ _ _ _ _) as [[[d' c] id] st] eqn:E; intros [= <- _ _];
    exists n; eapply SessionRuns.dr_create; eauto |].
  next_request; [destruct (nvkvm_req_kill_isolate _ _ _) as [[[d' c] id] st] eqn:E; intros [= <- _ _];
    exists n; eapply SessionRuns.dr_kill; eauto |].
  next_request; [destruct (nvkvm_isolate_interrupt _ _ _ _); intros [= <- _ _]; by exists n |].
  next_request; [intros [= <- _ _]; by exists n |].
  next_request; [destruct (nvkvm_req_copy_handle_to_isolate _ _ _ _) as [d' st] eqn:E; intros [= <- _ _];
    exists n; eapply SessionRuns.dr_copy; eauto |].
  next_request; [destruct (nvkvm_req_close_handle_on_isolate _ _ _ _) as [d' st] eqn:E; intros [= <- _ _];
    exists n; eapply SessionRuns.dr_close_on; eauto |].
  do 2 (next_request; [case_match; intros [= <- _ _]; by exists n |]).
  next_request; [destruct (nvkvm_req_mmap_on_isolate _ _ _ _ _) as [[m eff] r] eqn:E; intros [= <- _ _];
    eexists; eapply SessionRuns.dr_mmap; eauto; apply Hq8 |].
  next_request; [destruct (nvkvm_req_munmap_on_isolate _ _ _) as [[m eff] r] eqn:E; intros [= <- _ _];
    eexists; eapply SessionRuns.dr_munmap; eauto |].
  next_request; [case_match; intros [= <- _ _]; by exists n |].
  next_request; [destruct (nvkvm_req_read_memory_handle _ _ _ _ _) as [[m eff] r]; intros [= <- _ _]; by exists n |].
  next_request; [destruct (nvkvm_req_read_host_file _ _ _ _ _ _ _) as [[[f m] p] [r|]]; intros [= <- _ _]; by exists n |].
  next_request; [|done]. unfold tx_realize. cbn [t_dev t_shm].
  destruct (nvkvm_req_realize_uvm_mapping _ _ _ _ _) as [m r] eqn:E. intros [= <- _ _].
  eexists. eapply SessionRuns.dr_realize; [exact Hd | | exact E]. apply Hq8.
Qed.

Lemma tx_one_dev env e out avail u :
  t_dev (u_dev (tx_one env e out avail u)) = t_dev (u_dev u) \/
  exists v resp acts, tx_inline env (type_of out) (req_of out) (u_dev u) = Some (v, resp, acts) /\ u_dev (tx_one env e out avail u) = v.
Proof.
  unfold tx_one. destruct (_ <? _); [by left |]. destruct (_ =? _); [by left |]. destruct (_ =? _); [by left |].
  destruct (tx_inline _ _ _ _) as [[[v resp] acts]|]; [|by left]. right. by exists v, resp, acts.
Qed.

Lemma qreach_dreach l u : qreach l u -> exists n, dreach (t_dev (u_dev u)) n.
Proof.
  induction 1 as [w g abi m Hw|l u u' _ [n Hn] Hs|l o u u' _ [n Hn] Hs].
  - exists 0. by apply SessionRuns.dr_init.
  - destruct Hs as [env u e out avail Ha He|u e h w Hp|uvm dup iso pid pm u e h w p a Hp o|u e h w p a r Hp m
      |sock ans u e h sid idle Hp r|u e h resp Hp|u iso Hi d]; try by exists n.
    + destruct (tx_one_dev env e out avail u) as [->|(v & resp & acts & E & ->)]; [by exists n |]. by eapply inline_dreach.
    + exists n. by apply SessionRuns.dr_ioctl.
    + exists n. by apply SessionRuns.dr_stub_gone.
  - destruct Hs; by exists n.
Qed.

(** ** Elements *)

Definition pool_ids (u : queue) : list nat := (map_to_list (u_pool u)).*1.

Lemma pool_ids_insert e x (p : gmap nat (list Z * item)) :
  is_Some (p !! e) -> (map_to_list (<[e := x]> p)).*1 ≡ₚ (map_to_list p).*1.
Proof.
  intros [y Hy]. rewrite <- (insert_delete_id p e y Hy) at 2. rewrite <- insert_delete_eq.
  rewrite !map_to_list_insert by (by rewrite lookup_delete_eq). done.
Qed.

Lemma pool_ids_add e x (p : gmap nat (list Z * item)) :
  e ∉ (map_to_list p).*1 -> (map_to_list (<[e := x]> p)).*1 ≡ₚ e :: (map_to_list p).*1.
Proof.
  intros He. rewrite map_to_list_insert; [done |]. destruct (p !! e) as [y|] eqn:E; [|done].
  destruct He. apply elem_of_map_to_list in E. apply list_elem_of_fmap. by exists (e, y).
Qed.

Lemma pool_ids_delete e x (p : gmap nat (list Z * item)) :
  p !! e = Some x -> (map_to_list p).*1 ≡ₚ e :: (map_to_list (delete e p)).*1.
Proof.
  intros Hp. rewrite <- (insert_delete_id p e x Hp) at 1. rewrite map_to_list_insert by (by rewrite lookup_delete_eq). done.
Qed.

Lemma dstep_elements u u' : NoDup (elements u) -> dstep u u' -> elements u' ≡ₚ elements u.
Proof.
  intros Hnd Hs. unfold elements in *.
  destruct Hs as [env u e out avail Ha He|u e h w Hp|uvm dup iso pid pm u e h w p a Hp o|u e h w p a r Hp m
    |sock ans u e h sid idle Hp r|u e h resp Hp|u iso Hi d]; cbn [u_avail u_pool u_used set_item];
    try (rewrite pool_ids_insert by (by eexists); done); [| |done].
  - rewrite Ha in *. cbn [fmap list_fmap fst] in *. apply NoDup_cons in Hnd as [Hn _].
    assert (e ∉ (map_to_list (u_pool u)).*1) as Hnp by set_solver. unfold tx_one.
    assert (forall it, avail.*1 ++ (map_to_list (<[e := it]> (u_pool u))).*1 ++ (u_used u).*1
      ≡ₚ (e :: avail.*1) ++ (map_to_list (u_pool u)).*1 ++ (u_used u).*1) as Hadd
      by (intros it; rewrite pool_ids_add by done; cbn; by rewrite <- Permutation_middle).
    repeat case_match; cbn [u_avail u_pool u_used push refuse_elem pool_add]; try apply Hadd;
      rewrite fmap_app; cbn; rewrite !app_assoc; apply Permutation_sym, Permutation_cons_append.
  - rewrite fmap_app. cbn. rewrite (pool_ids_delete e _ _ Hp). f_equiv. cbn. rewrite app_assoc.
    apply Permutation_sym, Permutation_cons_append.
Qed.

(** ** Answers *)

(** The size of the answer's structure, by request type. *)
Definition resp_size (ty : Z) : option Z :=
  if ty =? NVKVM_REQ_LIST_NVIDIA_DEVICES then Some 520
  else if (ty =? NVKVM_REQ_SETUP_RING) || (ty =? NVKVM_REQ_REALIZE_UVM_MAPPING) then Some 32
  else if (ty =? NVKVM_REQ_IOCTL_ON_ISOLATE) || (ty =? NVKVM_REQ_MMAP_ON_ISOLATE) then Some 24
  else if ty =? NVKVM_REQ_ENTER_LOOP then Some 16
  else if (NVKVM_REQ_OPEN_NVIDIA_HANDLE <=? ty) && (ty <=? NVKVM_REQ_XISO_IMPORT) then Some 8
  else None.

Lemma list_devices_short access : (length (nvkvm_req_list_nvidia_devices access) <= 18)%nat.
Proof.
  unfold nvkvm_req_list_nvidia_devices. rewrite !length_app, length_fmap.
  assert (length (List.filter (fun i => access (Path_nvidia i)) (seqZ 0 16)) <= 16)%nat
    by (etransitivity; [apply List.filter_length_le | done]).
  destruct (access _), (access _); cbn; lia.
Qed.

Lemma list_resp_size l : (length l <= 32)%nat -> length (list_resp l) = 520%nat.
Proof.
  intros Hl. unfold list_resp. rewrite length_app, StubWire.length_words, length_replicate, length_app.
  assert (length (l ≫= fun dev : Z => [dev; 0; 0; 0]) = (4 * length l)%nat) as ->; [|cbn; lia].
  clear. induction l as [|x l IH]; [done |]. cbn in *. lia.
Qed.

#[local] Ltac sized := intros [= _ <- _]; unfold status_only, mmap_bytes, realize_bytes; by rewrite ?StubWire.length_words.

Lemma inline_size env ty q v v' resp acts :
  tx_inline env ty q v = Some (v', resp, acts) -> resp_size ty = Some (Z.of_nat (length resp)).
Proof.
  unfold tx_inline.
  repeat match goal with |- (if ty =? ?c then _ else _) = _ -> _ => destruct (Z.eqb_spec ty c) as [->|] end; [..|done].
  all: match goal with |- _ -> resp_size ?c = _ => let r := eval vm_compute in (resp_size c) in change (resp_size c) with r end.
  - intros [= _ <- _]. rewrite list_resp_size; [done |]. pose proof (list_devices_short (x_access env)). lia.
  - destruct (nvkvm_req_open_nvidia_handle _ _ _) as [[[d' c] id] st]. sized.
  - cbv zeta. destruct (nvkvm_req_present _ _ _ _ _) as [[[[d' s] c] tk] st]. sized.
  - destruct (nvkvm_req_xiso_import _ _ _ _) as [[[[d' s] c] g] st]. sized.
  - destruct (nvkvm_req_open_memory_handle _ _ _ _ _) as [[[d' c] id] st]. sized.
  - destruct (nvkvm_req_close_handle _ _) as [[d' c] st]. sized.
  - destruct (nvkvm_req_create_isolate _ _ _ _ _) as [[[d' c] id] st]. sized.
  - destruct (nvkvm_req_kill_isolate _ _ _) as [[[d' c] id] st]. sized.
  - destruct (nvkvm_isolate_interrupt _ _ _ _). sized.
  - unfold ring_resp. destruct (nvkvm_req_setup_ring _ _) as [[[[? ?] ?] ?]|]; sized.
  - destruct (nvkvm_req_copy_handle_to_isolate _ _ _ _). sized.
  - destruct (nvkvm_req_close_handle_on_isolate _ _ _ _). sized.
  - destruct (nvkvm_isolate_poll _ _ _ _ _). sized.
  - destruct (nvkvm_isolate_unpoll _ _ _ _). sized.
  - destruct (nvkvm_req_mmap_on_isolate _ _ _ _ _) as [[m eff] r]. sized.
  - destruct (nvkvm_req_munmap_on_isolate _ _ _) as [[m eff] r]. sized.
  - destruct (nvkvm_req_write_memory_handle _ _ _ _ _). sized.
  - destruct (nvkvm_req_read_memory_handle _ _ _ _ _) as [[m eff] r]. sized.
  - destruct (nvkvm_req_read_host_file _ _ _ _ _ _ _) as [[[f m] p] [r|]]; [sized | done].
  - unfold tx_realize. destruct (nvkvm_req_realize_uvm_mapping _ _ _ _ _) as [m r]. sized.
Qed.

Lemma inline_none env ty q v :
  env_ok env (t_dev v) -> tx_inline env ty q v = None ->
  resp_size ty = None \/ ty = NVKVM_REQ_ENTER_LOOP \/ ty = NVKVM_REQ_IOCTL_ON_ISOLATE.
Proof.
  intros He. unfold tx_inline.
  repeat match goal with |- (if ty =? ?c then _ else _) = _ -> _ => destruct (Z.eqb_spec ty c) as [->|] end.
  all: try (repeat match goal with |- context [let '(_, _) := ?f in _] => destruct f end; discriminate).
  - pose proof (hostfile_answers (x_dir env) (x_fopen env) (x_reads env)
      (slot_blob slot_size shm_size (get32 q 4) (hf_max_len (HReq (get32 q 0) (get32 q 8) (get32 q 12))))
      (HReq (get32 q 0) (get32 q 8) (get32 q 12)) (t_files v) (t_shm v) (proj2 (eo_reads _ _ He))) as [r Hr].
    destruct (nvkvm_req_read_host_file _ _ _ _ _ _ _) as [[[f m] p] a]. cbn in Hr. subst a. discriminate.
  - intros _. destruct (decide (ty = NVKVM_REQ_ENTER_LOOP)); [by right; left |].
    destruct (decide (ty = NVKVM_REQ_IOCTL_ON_ISOLATE)); [by right; right |]. left. unfold resp_size.
    repeat match goal with |- context [ty =? ?c] => destruct (Z.eqb_spec ty c); [done |] end. cbn [orb].
    destruct (_ && _) eqn:E; [|done]. exfalso. nv_bool.
    repeat match goal with H : ty <> ?c |- _ => unfold c in H end.
    unfold NVKVM_REQ_OPEN_NVIDIA_HANDLE, NVKVM_REQ_XISO_IMPORT in *. lia.
Qed.

(** ** The pool's items *)

Definition item_ok (out : list Z) (it : item) : Prop :=
  match it with
  | I_ioctl w | I_copied w _ _ | I_ran w _ _ _ => type_of out = NVKVM_REQ_IOCTL_ON_ISOLATE /\ w = ioctl_work (req_of out)
  | I_loop _ _ => type_of out = NVKVM_REQ_ENTER_LOOP
  | I_answer resp =>
      (type_of out = NVKVM_REQ_IOCTL_ON_ISOLATE \/ type_of out = NVKVM_REQ_ENTER_LOOP) /\
      resp_size (type_of out) = Some (Z.of_nat (length resp))
  end.

(** What a returned element holds. *)
Definition answer_ok (out : list Z) (len : Z) (bytes : list Z) : Prop :=
  (len = 0 /\ bytes = [] /\ (Z.of_nat (length out) < sizeof_hdr \/ resp_size (type_of out) = None)) \/
  (sizeof_hdr <= Z.of_nat (length out) /\ len = Z.of_nat (length bytes) /\ take 8 bytes = take 8 out /\
   resp_size (type_of out) = Some (len - sizeof_hdr)).

Lemma answer_ok_resp out resp :
  sizeof_hdr <= Z.of_nat (length out) -> resp_size (type_of out) = Some (Z.of_nat (length resp)) ->
  answer_ok out (sizeof_hdr + Z.of_nat (length resp)) (hdr_of out ++ resp).
Proof.
  intros Ho Hr. right. unfold hdr_of, sizeof_hdr in *.
  assert (length (take 8 out) = 8%nat) as H8 by (rewrite length_take; lia). split_and!; [done | | |].
  - rewrite length_app, H8. lia.
  - rewrite take_app_le by lia. rewrite take_take. by rewrite Nat.min_id.
  - rewrite Hr. f_equal. lia.
Qed.

Record qinv (l : list (nat * list Z)) (u : queue) : Prop := {
  qi_nodup : NoDup l.*1;
  qi_elems : elements u ≡ₚ l.*1;
  qi_order : exists k, u_avail u = drop k l;
  qi_pool : forall e h it, u_pool u !! e = Some (h, it) ->
    exists out, (e, out) ∈ l /\ sizeof_hdr <= Z.of_nat (length out) /\ h = hdr_of out /\ item_ok out it;
  qi_used : forall e len bytes, (e, (len, bytes)) ∈ u_used u -> exists out, (e, out) ∈ l /\ answer_ok out len bytes
}.

Lemma ioctl_bytes_size r : Z.of_nat (length (ioctl_bytes r)) = 24.
Proof. unfold ioctl_bytes. by rewrite StubWire.length_words. Qed.

Lemma qinv_item l u e h it it' v :
  qinv l u -> u_pool u !! e = Some (h, it) -> (forall out, item_ok out it -> item_ok out it') ->
  qinv l (set_item e h it' v u).
Proof.
  intros [N E O P U] Hp Hit. split; try done.
  - unfold elements. cbn [u_avail u_pool u_used set_item]. rewrite pool_ids_insert by (by eexists). exact E.
  - intros e1 h1 it1. cbn [u_pool set_item]. destruct (decide (e1 = e)) as [->|].
    + rewrite lookup_insert_eq. intros [= <- <-]. destruct (P e h it Hp) as (out & H1 & H2 & H3 & H4). eauto 10.
    + rewrite lookup_insert_ne by done. apply P.
Qed.

Lemma qinv_take env l u e out avail :
  qinv l u -> u_avail u = (e, out) :: avail -> env_ok env (t_dev (u_dev u)) -> qinv l (tx_one env e out avail u).
Proof.
  intros I Ha He. pose proof I as [N E [k O] P U].
  assert (avail = drop (S k) l) as Hk by (rewrite <- Nat.add_1_r, <- drop_drop, <- O, Ha; done).
  assert ((e, out) ∈ l) as Hin.
  { eapply elem_of_submseteq; [|apply (submseteq_drop l k)]. rewrite <- O, Ha. by left. }
  assert (elements (tx_one env e out avail u) ≡ₚ l.*1) as E'
    by (rewrite <- E; apply dstep_elements; [by rewrite E | by apply ds_take]).
  assert (forall len bytes, answer_ok out len bytes -> forall e1 len1 bytes1,
    (e1, (len1, bytes1)) ∈ u_used u ++ [(e, (len, bytes))] -> exists out1, (e1, out1) ∈ l /\ answer_ok out1 len1 bytes1) as Hu.
  { intros len bytes Hok e1 len1 bytes1 [H1|H1]%elem_of_app; [by apply U |].
    apply list_elem_of_singleton in H1. injection H1 as -> -> ->. eauto. }
  assert (forall it, sizeof_hdr <= Z.of_nat (length out) -> item_ok out it -> forall e1 h1 it1,
    <[e := (hdr_of out, it)]> (u_pool u) !! e1 = Some (h1, it1) ->
    exists out1, (e1, out1) ∈ l /\ sizeof_hdr <= Z.of_nat (length out1) /\ h1 = hdr_of out1 /\ item_ok out1 it1) as Hp.
  { intros it Hl Hok e1 h1 it1. destruct (decide (e1 = e)) as [->|]; [|rewrite lookup_insert_ne by done; apply P].
    rewrite lookup_insert_eq. intros [= <- <-]. eauto. }
  unfold tx_one in *. destruct (Z.ltb_spec (Z.of_nat (length out)) sizeof_hdr) as [Hl|Hl].
  { split; [done | done | by exists (S k) | exact P |]. apply Hu. left. auto. }
  destruct (Z.eqb_spec (type_of out) NVKVM_REQ_ENTER_LOOP) as [Ht|Ht].
  { split; [done | done | by exists (S k) | by apply Hp | exact U]. }
  destruct (Z.eqb_spec (type_of out) NVKVM_REQ_IOCTL_ON_ISOLATE) as [Ht'|Ht'].
  { split; [done | done | by exists (S k) | by apply Hp | exact U]. }
  destruct (tx_inline _ _ _ _) as [[[v resp] acts]|] eqn:Ei.
  - split; [done | done | by exists (S k) | exact P |]. apply Hu. apply answer_ok_resp; [done |]. by eapply inline_size.
  - split; [done | done | by exists (S k) | exact P |]. apply Hu. left.
    destruct (inline_none _ _ _ _ He Ei) as [Hn|[Hn|Hn]]; [by auto | done | done].
Qed.

Lemma qreach_inv l u : qreach l u -> qinv l u.
Proof.
  induction 1 as [w g abi m Hw|l u u' _ I Hs|l o u u' _ I Hs].
  - split; cbn; [constructor | done | by exists 0%nat | |]; [intros e h it; by rewrite lookup_empty | intros e len b H'; by apply elem_of_nil in H'].
  - destruct Hs as [env u e out avail Ha He|u e h w Hp|uvm dup iso pid pm u e h w p a Hp o|u e h w p a r Hp m
      |sock ans u e h sid idle Hp r|u e h resp Hp|u iso Hi d].
    + by apply qinv_take.
    + by eapply qinv_item.
    + by eapply qinv_item.
    + eapply qinv_item; [done | done |]. intros out [Ht _]. split; [by left |]. by rewrite ioctl_bytes_size, Ht.
    + eapply qinv_item; [done | done |]. intros out Ht. split; [by right |]. cbn in Ht. by rewrite Ht, StubWire.length_words.
    + destruct I as [N E O P U].
      assert (NoDup (elements u)) as Hn by (by rewrite E). pose proof (dstep_elements _ _ Hn (ds_done u e h resp Hp)) as E'. split; [done | by rewrite E' | done | |].
      * intros e1 h1 it1 H1. cbn [u_pool] in H1. apply lookup_delete_Some in H1 as [_ H1]. by apply P.
      * intros e1 len1 b1 [H1|H1]%elem_of_app; [by apply U |]. apply list_elem_of_singleton in H1. injection H1 as -> -> ->.
        destruct (P e h _ Hp) as (out & Hin & Hl & -> & _ & Hr). exists out. split; [done |]. by apply answer_ok_resp.
    + destruct I. by split.
  - destruct Hs as [u e out He Ho|u m].
    + destruct I as [N E [k O] P U]. unfold elements in *. cbn [option_list].
      assert (e ∉ l.*1) as Hn by (by rewrite <- E). split; cbn [u_avail u_pool u_used].
      * rewrite fmap_app. apply NoDup_app. split_and!; [done | set_solver | apply NoDup_singleton].
      * unfold elements. cbn [u_avail u_pool u_used]. rewrite !fmap_app, <- E. cbn. rewrite <- app_assoc.
        rewrite <- Permutation_middle, app_nil_r. cbn. apply Permutation_sym, Permutation_middle.
      * assert (k <= length l \/ length l < k)%nat as [Hk|Hk] by lia.
        -- exists k. rewrite drop_app_le by done. by rewrite <- O.
        -- exists (length l). rewrite drop_app_length. rewrite O, drop_ge by lia. done.
      * intros e1 h1 it1 H1. destruct (P _ _ _ H1) as (o & ? & ?). exists o. set_solver.
      * intros e1 l1 b1 H1. destruct (U _ _ _ H1) as (o & ? & ?). exists o. set_solver.
    + cbn [option_list]. rewrite app_nil_r. destruct I. by split.
Qed.

(** C8. [tx_exactly_once]: at every moment each posted element is in exactly one of the
    queue, the pool and the returned elements, so each is answered at most once and
    none is lost; elements are taken in the order posted; and a returned one carries
    the request's own header followed by an answer of the size its type has, or
    nothing when the header is short or the type unknown. *)
Theorem tx_exactly_once (l : list (nat * list Z)) (u : queue) :
  qreach l u ->
  NoDup l.*1 /\ (u_avail u).*1 ++ (map_to_list (u_pool u)).*1 ++ (u_used u).*1 ≡ₚ l.*1 /\
  (exists k, u_avail u = drop k l) /\
  (forall e len bytes, (e, (len, bytes)) ∈ u_used u -> exists out, (e, out) ∈ l /\ answer_ok out len bytes).
Proof. intros [N E O P U]%qreach_inv. by split_and!. Qed.

(** C6. [device_tables_sound]: whatever bytes the guest posts as requests, and however it
    rewrites the shared region meanwhile, at every moment the sessions have
    different ids, every isolate a session lists is live and was created for that
    session; the GPA ranges of two mappings, of two command rings, and of a ring and
    a mapping never overlap; and no two live handles have the same host
    descriptor.  (The host is assumed to return no descriptor that is in use, only
    positive error numbers, and an end to every file.) *)
Theorem device_tables_sound (l : list (nat * list Z)) (u : queue) :
  qreach l u ->
  let d := t_dev (u_dev u) in
  let tbl := it_isolates (d_isolates d) in
  let maps := tk_tbl (mp_tokens (d_maps d)) in
  NoDup (s_id <$> d_sessions d) /\
  (forall s i, s ∈ d_sessions d -> i ∈ isolate_ids s -> o_in_use tbl.[i] = true /\ o_session_id tbl.[i] = s_id s) /\
  (forall i j, i <> j -> m_used maps.[i] = true -> m_used maps.[j] = true -> disj (ext_of maps.[i]) (ext_of maps.[j])) /\
  (forall i j e e', i <> j -> e ∈ SessionRuns.ring_ext tbl.[i] -> e' ∈ SessionRuns.ring_ext tbl.[j] -> disj e e') /\
  (forall i k e, e ∈ SessionRuns.ring_ext tbl.[i] -> m_used maps.[k] = true -> disj e (ext_of maps.[k])) /\
  (forall id id' h h', 0 <= id -> 0 <= id' -> nvkvm_handle_get id (d_handles d) = Some h ->
     nvkvm_handle_get id' (d_handles d) = Some h' -> 0 <= hd_fd h -> hd_fd h' = hd_fd h -> id' = id).
Proof.
  intros [n Hd]%qreach_dreach. cbv zeta. destruct (SessionRuns.tables_sound _ _ _ Hd) as (H1 & H2 & H3 & H4).
  apply SessionRuns.dreach_inv in Hd as (leaked & Hi & _). split_and!; [done | | | eauto | done |].
  - intros s i Hs. by apply H2.
  - intros i j. apply (maps_disjoint _ _ _ _ (SessionRuns.di_maps _ _ Hi)).
  - destruct (SessionRuns.di_tab _ _ Hi) as [o Ht]. intros id id' h h' H0 H0' Hg Hg' Hf He.
    by eapply fd_unique.
Qed.

(** ** The device drains its queue *)

(** Steps an item may still take. *)
Definition steps_left (it : item) : nat :=
  match it with I_ioctl _ => 4 | I_copied _ _ _ => 3 | I_ran _ _ _ _ => 2 | I_loop _ _ => 2 | I_answer _ => 1 end.

Definition todo (u : queue) : nat :=
  5 * length (u_avail u) + sum_list_with (fun x => steps_left (snd (snd x))) (map_to_list (u_pool u)).

Abbreviation pool_steps m := (sum_list_with (fun x : nat * (list Z * item) => steps_left (snd (snd x))) (map_to_list m)).

Lemma pool_steps_insert (m : gmap nat (list Z * item)) e h it :
  m !! e = None -> pool_steps (<[e := (h, it)]> m) = (steps_left it + pool_steps m)%nat.
Proof. intros He. by rewrite (map_to_list_insert m e _ He). Qed.

Lemma pool_steps_delete (m : gmap nat (list Z * item)) e h it :
  m !! e = Some (h, it) -> pool_steps m = (steps_left it + pool_steps (delete e m))%nat.
Proof. intros He. rewrite <- (insert_delete_id m e _ He) at 1. rewrite pool_steps_insert; [done |]. apply lookup_delete_eq. Qed.

Lemma todo_set_item e h h' it it' v u :
  u_pool u !! e = Some (h, it) -> (steps_left it' < steps_left it)%nat -> (todo (set_item e h' it' v u) < todo u)%nat.
Proof.
  intros He Hl. unfold todo. cbn [u_avail u_pool set_item]. rewrite (pool_steps_delete _ _ _ _ He).
  rewrite <- insert_delete_eq, pool_steps_insert by apply lookup_delete_eq. lia.
Qed.

Lemma todo_take env e out avail u :
  u_avail u = (e, out) :: avail -> u_pool u !! e = None -> (todo (tx_one env e out avail u) < todo u)%nat.
Proof.
  intros Hv He. unfold todo, tx_one. rewrite Hv.
  repeat case_match; cbn [u_avail u_pool refuse_elem pool_add push length]; rewrite ?pool_steps_insert by done; cbn [steps_left]; lia.
Qed.

(** A kernel that refuses everything. *)
Definition refusing : host :=
  Host (fun _ => false) (OEnv (fun _ _ => Err 5) (Err 5) 0 (fun _ _ _ => (-5, -1))) (Err 5) None (Some 5) (SpawnFail 5) None (-5) (Some 5)
    (-5, -1) (-5, 0) false None (Some 5) (-5) (fun _ _ _ => Answer (-5) 0 0 0) (fun _ _ _ => Err 5) (fun _ _ _ => Err 5) None (fun _ => Some 5) [Rd_err 5].

Lemma refusing_ok d : env_ok refusing d.
Proof.
  split; cbn.
  - intros dev_id fl. unfold open_dev. repeat case_match; done.
  - intros _ _ _ i _ Hi. lia.
  - done.
  - split; [repeat constructor; cbn; lia | by left].
  - intros _ e [= <-]. lia.
Qed.

Lemma head_not_pooled l u e out avail : qinv l u -> u_avail u = (e, out) :: avail -> u_pool u !! e = None.
Proof.
  intros [N E O P U] Hv. destruct (u_pool u !! e) as [x|] eqn:Ex; [|done].
  assert (NoDup (elements u)) as Hn by (by rewrite E). unfold elements in Hn. rewrite Hv in Hn. apply NoDup_cons in Hn as [[] _].
  apply elem_of_app. right. apply elem_of_app. left. apply list_elem_of_fmap. exists (e, x). split; [done |]. by apply elem_of_map_to_list.
Qed.

Lemma item_step u e h it : u_pool u !! e = Some (h, it) -> exists u', dstep u u' /\ (todo u' < todo u)%nat.
Proof.
  intros Hp. destruct it; eexists; (split; [first
    [by eapply ds_copy | by eapply (ds_run Gate.ex_uvm Gate.ex_dup Gate.ex_iso Gate.ex_host_pid Gate.ex_pid_mem) | by eapply ds_back
    | by eapply (ds_loop true (0, 0)) | by eapply ds_done] |]).
  5: { unfold todo. cbn [u_avail u_pool]. rewrite (pool_steps_delete (u_pool u) _ _ _ Hp). cbn [steps_left]. lia. }
  all: eapply todo_set_item; [done | cbn; lia].
Qed.

(** [tx_drains]: every step of the device makes progress on the posted elements, unless
    it only notes that an isolate's stub has gone; as long as an element is not
    answered some step is possible, even when the kernel refuses every request; and
    when none is left to make progress on every posted element has been answered. *)
Theorem tx_drains (l : list (nat * list Z)) (u : queue) :
  qreach l u ->
  (forall u', dstep u u' -> (todo u' < todo u)%nat \/
     (u_avail u' = u_avail u /\ u_pool u' = u_pool u /\ u_used u' = u_used u)) /\
  ((0 < todo u)%nat -> exists u', dstep u u' /\ (todo u' < todo u)%nat) /\
  (todo u = 0%nat -> (u_used u).*1 ≡ₚ l.*1).
Proof.
  intros Hr%qreach_inv.
  assert (forall e out avail, u_avail u = (e, out) :: avail -> u_pool u !! e = None) as Hfree by (intros; by eapply head_not_pooled).
  split_and!.
  - intros u' Hs. destruct Hs; try (left; by (eapply todo_set_item; [done | cbn; lia])); [| |by right].
    + left. eauto using todo_take.
    + left. unfold todo. cbn [u_avail u_pool]. erewrite (pool_steps_delete (u_pool u)) by done. cbn [steps_left]. lia.
  - intros Ht. destruct (u_avail u) as [|[e out] avail] eqn:Ev.
    + destruct (map_to_list (u_pool u)) as [|[e [h it]] rest] eqn:Em; [unfold todo in Ht; rewrite Ev, Em in Ht; cbn in Ht; lia |].
      assert (u_pool u !! e = Some (h, it)) as Hp by (apply elem_of_map_to_list; rewrite Em; by left).
      by apply (item_step u e h it).
    + eexists. split; [by apply (ds_take refusing), refusing_ok | by eauto using todo_take].
  - intros Ht. rewrite <- (qi_elems _ _ Hr). unfold elements, todo in *. destruct (u_avail u); [|cbn in Ht; lia].
    destruct (map_to_list (u_pool u)) as [|[e [h []]] rest]; cbn in Ht; [done | lia ..].
Qed.

(** ** Shared memory *)

Hypothesis (Hslot : 0 < slot_size < 2 ^ 32) (Hshm : 0 <= shm_size < 2 ^ 63).

(** [size] bytes from [o] on lie in the slot and in the region. *)
Definition in_slot (slot o size : Z) : Prop :=
  1 <= slot < NVKVM_SHM_NSLOTS /\ o = slot * slot_size /\ size <= slot_size /\ o + size <= shm_size.

Lemma slot_blob_in slot size o : 0 <= size -> slot_blob slot_size shm_size slot size = Some o -> in_slot slot o size.
Proof.
  intros Hs. unfold slot_blob, slot_valid, slot_ptr, NVKVM_SHM_NSLOTS. destruct (_ && _) eqn:Ev; [|done]. cbn [negb]. nv_bool.
  destruct (Z.ltb_spec slot_size size); [done |]. rewrite (u64_small (slot * slot_size)), u64_small by nia.
  destruct (Z.ltb_spec shm_size (slot * slot_size + size)); [done |]. intros [= <-].
  unfold in_slot, NVKVM_SHM_NSLOTS. lia.
Qed.

Lemma blob_if_in slot size o : blob_if slot size = Some o -> in_slot slot o size.
Proof. unfold blob_if. destruct (Z.ltb_spec 0 size); [|done]. apply slot_blob_in. lia. Qed.

(** The slots a request may be answered in. *)
Definition names (out : list Z) (slot : Z) : Prop :=
  let q := req_of out in
  if type_of out =? NVKVM_REQ_IOCTL_ON_ISOLATE then slot = get32 q 16 \/ slot = get32 q 24
  else if type_of out =? NVKVM_REQ_REALIZE_UVM_MAPPING then slot = get32 q 52
  else if (type_of out =? NVKVM_REQ_READ_MEMORY_HANDLE) || (type_of out =? NVKVM_REQ_READ_HOST_FILE) then slot = get32 q 4
  else False.

Definition touched (out : list Z) (i : Z) : Prop :=
  exists slot, names out slot /\ 1 <= slot < NVKVM_SHM_NSLOTS /\ slot * slot_size <= i < (slot + 1) * slot_size /\ i < shm_size.

Lemma in_slot_touched out slot o size i :
  names out slot -> in_slot slot o size -> o <= i < o + size -> touched out i.
Proof. intros Hn (H1 & -> & H3 & H4) Hi. exists slot. split_and!; [done | lia ..]. Qed.

Lemma copy_out_frame m p size b i :
  (forall o, p = Some o -> ~ (o <= i < o + size)) -> get8 (copy_out m p size b) i = get8 m i.
Proof.
  intros Hp. unfold copy_out. destruct p as [o|]; [|done]. destruct b as [b|]; [|done]. specialize (Hp o eq_refl).
  apply get8_write_ne. rewrite length_read_bytes. lia.
Qed.

Lemma names_realize out :
  type_of out = NVKVM_REQ_REALIZE_UVM_MAPPING -> names out (get32 (req_of out) 52).
Proof. intros Ht. unfold names. by rewrite Ht. Qed.

Lemma names_read out :
  type_of out = NVKVM_REQ_READ_MEMORY_HANDLE \/ type_of out = NVKVM_REQ_READ_HOST_FILE -> names out (get32 (req_of out) 4).
Proof. intros [Ht|Ht]; unfold names; by rewrite Ht. Qed.

Lemma inline_same env ty q v v' resp acts :
  tx_inline env ty q v = Some (v', resp, acts) ->
  ty <> NVKVM_REQ_READ_MEMORY_HANDLE -> ty <> NVKVM_REQ_READ_HOST_FILE -> ty <> NVKVM_REQ_REALIZE_UVM_MAPPING ->
  t_shm v' = t_shm v.
Proof.
  intros Hi H1 H2 H3. revert Hi. unfold tx_inline.
  repeat match goal with |- (if ty =? ?c then _ else _) = _ -> _ => destruct (Z.eqb_spec ty c) end; try done.
  all: repeat match goal with |- context [let '(_, _) := ?f in _] => destruct f end; intros [= <- _ _]; done.
Qed.

Definition in_blob (p : option Z) (size i : Z) : Prop := match p with Some o => o <= i < o + size | None => False end.

#[local] Instance in_blob_dec p size i : Decision (in_blob p size i).
Proof. destruct p; cbn; apply _. Defined.

Lemma not_in_blob p size i : ~ in_blob p size i -> forall o, p = Some o -> ~ (o <= i < o + size).
Proof. by intros H1 o ->. Qed.

Lemma read_memory_changes env q v v' resp acts i :
  tx_inline env NVKVM_REQ_READ_MEMORY_HANDLE q v = Some (v', resp, acts) ->
  ~ in_blob (blob_if (get32 q 4) (get32 q 16)) (get32 q 16) i -> get8 (t_shm v') i = get8 (t_shm v) i.
Proof.
  intros E Hn. pose proof (get32_range q 16) as Hq.
  pose proof (read_memory_frame (x_pread env) (blob_if (get32 q 4) (get32 q 16)) (MemReq (get32 q 0) (get64 q 8) (get32 q 16))
                (t_shm v) (t_dev v) i ltac:(cbn [mr_size]; lia) (not_in_blob _ _ _ Hn)) as Hf.
  revert E Hf. cbn -[nvkvm_req_read_memory_handle blob_if get32 get64 get8 status_only].
  destruct (nvkvm_req_read_memory_handle _ _ _ _ _) as [[m o] st]. by intros [= <- _ _].
Qed.

Lemma host_file_changes env q v v' resp acts i :
  tx_inline env NVKVM_REQ_READ_HOST_FILE q v = Some (v', resp, acts) ->
  ~ in_blob (slot_blob slot_size shm_size (get32 q 4) (get32 q 8)) (get32 q 8) i -> get8 (t_shm v') i = get8 (t_shm v) i.
Proof.
  intros E Hn. pose proof (get32_range q 8) as Hq.
  pose proof (hostfile_frame (x_dir env) (x_fopen env) (x_reads env) (slot_blob slot_size shm_size (get32 q 4) (get32 q 8))
                (HReq (get32 q 0) (get32 q 8) (get32 q 12)) (t_files v) (t_shm v) i ltac:(cbn [hf_max_len]; lia) (not_in_blob _ _ _ Hn)) as Hf.
  revert E Hf. cbn -[nvkvm_req_read_host_file slot_blob get32 get64 get8 StubWire.words].
  destruct (nvkvm_req_read_host_file _ _ _ _ _ _ _) as [[[c m] o] [r|]]; [|done]. by intros [= <- _ _].
Qed.

Lemma clears_status_size req snap it : clears_status req snap it = true -> z_intent_size req = SEM_POOL_SIZE.
Proof. unfold clears_status. destruct snap; [|done]. destruct it; [|done]. intros H1. nv_bool. done. Qed.

Lemma realize_changes env req sslot islot v i :
  ~ in_blob (blob_if islot (z_intent_size req)) (z_intent_size req) i ->
  get8 (t_shm (fst (tx_realize env req sslot islot v))) i = get8 (t_shm v) i.
Proof.
  intros Hn. unfold tx_realize. destruct (nvkvm_req_realize_uvm_mapping _ _ _ _ _) as [m r]. cbn [fst t_shm set_shm].
  destruct (blob_if _ _) as [o|]; [|done]. destruct (clears_status _ _ _) eqn:E; [|done].
  apply clears_status_size in E. cbn [in_blob] in Hn. unfold SEM_POOL_SIZE in E. apply get8_put32_ne. unfold SEM_POOL_STATUS. lia.
Qed.

Lemma in_blob_touched out slot p size i :
  names out slot -> (forall o, p = Some o -> in_slot slot o size) -> in_blob p size i -> touched out i.
Proof. intros Hn Hp Hi. destruct p as [o|]; [|done]. eauto using in_slot_touched. Qed.

(** A request answered on the spot changes the region only in the slot it names. *)
Lemma inline_frame env out v v' resp acts i :
  type_of out <> NVKVM_REQ_IOCTL_ON_ISOLATE -> tx_inline env (type_of out) (req_of out) v = Some (v', resp, acts) ->
  get8 (t_shm v') i = get8 (t_shm v) i \/ touched out i.
Proof.
  intros Ht Hi.
  destruct (Z.eq_dec (type_of out) NVKVM_REQ_READ_MEMORY_HANDLE) as [E1|N1].
  { rewrite E1 in Hi. destruct (decide (in_blob (blob_if (get32 (req_of out) 4) (get32 (req_of out) 16)) (get32 (req_of out) 16) i)) as [Hb|Hn].
    - right. by eapply in_blob_touched; [apply names_read; left | apply blob_if_in | exact Hb].
    - left. by apply (read_memory_changes env _ _ _ _ _ _ Hi). }
  destruct (Z.eq_dec (type_of out) NVKVM_REQ_READ_HOST_FILE) as [E2|N2].
  { rewrite E2 in Hi. pose proof (get32_range (req_of out) 8) as Hq.
    destruct (decide (in_blob (slot_blob slot_size shm_size (get32 (req_of out) 4) (get32 (req_of out) 8)) (get32 (req_of out) 8) i)) as [Hb|Hn].
    - right. eapply in_blob_touched; [by apply names_read; right | | exact Hb]. intros o. apply slot_blob_in. lia.
    - left. by apply (host_file_changes env _ _ _ _ _ _ Hi). }
  destruct (Z.eq_dec (type_of out) NVKVM_REQ_REALIZE_UVM_MAPPING) as [E3|N3].
  { rewrite E3 in Hi. destruct (decide (in_blob (blob_if (get32 (req_of out) 52) (get32 (req_of out) 56)) (get32 (req_of out) 56) i)) as [Hb|Hn].
    - right. by eapply in_blob_touched; [apply names_realize | apply blob_if_in | exact Hb].
    - left. pose proof (realize_changes env (realize_request (req_of out)) (get32 (req_of out) 48) (get32 (req_of out) 52) v i Hn) as Hc.
      revert Hi Hc. cbn -[tx_realize realize_request get32 get8 realize_bytes]. destruct (tx_realize _ _ _ _ _) as [v1 r].
      by intros [= <- _ _]. }
  left. by rewrite (inline_same _ _ _ _ _ _ _ Hi N1 N2 N3).
Qed.
Lemma waiting_unanswered l u e :
  qinv l u -> e ∈ (u_avail u).*1 ++ (map_to_list (u_pool u)).*1 -> e ∉ (u_used u).*1.
Proof.
  intros [N E O P U] He. assert (NoDup (elements u)) as Hn by (by rewrite E). unfold elements in Hn.
  rewrite app_assoc in Hn. apply NoDup_app in Hn as (_ & Hn & _). by apply Hn.
Qed.

Lemma pool_waits u e x : u_pool u !! e = Some x -> e ∈ (u_avail u).*1 ++ (map_to_list (u_pool u)).*1.
Proof.
  intros He. apply elem_of_app. right. apply list_elem_of_fmap. exists (e, x). split; [done |]. by apply elem_of_map_to_list.
Qed.

(** The copies back of an ioctl stay in the two slots it names. *)
Lemma back_frame out m p a i :
  type_of out = NVKVM_REQ_IOCTL_ON_ISOLATE ->
  let w := ioctl_work (req_of out) in
  let m' := copy_out m (k_param w) (Gate.param_size (k_req w)) p in
  get8 (copy_out m' (k_aux w) (Gate.aux_size (k_req w)) a) i = get8 m i \/ touched out i.
Proof.
  intros Ht. unfold ioctl_work. cbn [k_param k_aux k_req Gate.param_size Gate.aux_size].
  assert (forall off, names out (get32 (req_of out) off) \/ (off <> 16 /\ off <> 24)) as Hm.
  { intros off. unfold names. rewrite Ht. cbn [Z.eqb Pos.eqb NVKVM_REQ_IOCTL_ON_ISOLATE].
    destruct (Z.eq_dec off 16) as [->|]; [by left; left |]. destruct (Z.eq_dec off 24) as [->|]; [by left; right | by right]. }
  destruct (Hm 16) as [M1|]; [|lia]. destruct (Hm 24) as [M2|]; [|lia].
  set (bp := blob_if _ (get32 (req_of out) 12)). set (ba := blob_if _ (get32 (req_of out) 20)).
  destruct (decide (in_blob bp (clamp bp (get32 (req_of out) 12)) i)) as [Hp|Hp].
  { right. eapply (in_blob_touched _ _ bp); [exact M1 | | exact Hp]. intros o Eo. rewrite Eo. by apply blob_if_in. }
  destruct (decide (in_blob ba (clamp ba (get32 (req_of out) 20)) i)) as [Ha|Ha].
  { right. eapply (in_blob_touched _ _ ba); [exact M2 | | exact Ha]. intros o Eo. rewrite Eo. by apply blob_if_in. }
  left. rewrite !copy_out_frame; [done | by apply not_in_blob ..].
Qed.

Lemma shm_confined (l : list (nat * list Z)) (u u' : queue) (i : Z) :
  qreach l u -> dstep u u' ->
  get8 (t_shm (u_dev u')) i = get8 (t_shm (u_dev u)) i \/
  exists e out, ((e, out) ∈ l) /\ (e ∉ (u_used u).*1) /\ touched out i.
Proof.
  intros Hr%qreach_inv Hs. destruct Hs as [env u e out avail Hv He | u e h w Hp | | u e h w p a r Hp m | | |]; try by left.
  - assert ((e, out) ∈ l) as Hl.
    { destruct (qi_order _ _ Hr) as [k Hk]. rewrite <- (take_drop k l), <- Hk, Hv. set_solver. }
    assert (e ∉ (u_used u).*1) as Hu by (apply (waiting_unanswered l u e Hr); rewrite Hv; cbn; set_solver).
    unfold tx_one. destruct (_ <? sizeof_hdr); [by left |]. destruct (_ =? NVKVM_REQ_ENTER_LOOP); [by left |].
    destruct (Z.eqb_spec (type_of out) NVKVM_REQ_IOCTL_ON_ISOLATE) as [|Ht]; [by left |].
    destruct (tx_inline _ _ _ _) as [[[v resp] acts]|] eqn:Ei; [|by left].
    destruct (inline_frame env out _ _ _ _ i Ht Ei); [by left | right; eauto].
  - destruct (qi_pool _ _ Hr _ _ _ Hp) as (out & Hl & _ & _ & Ht & ->).
    destruct (back_frame out (t_shm (u_dev u)) p a i Ht) as [Hb|Hb]; [by left |].
    right. exists e, out. split_and!; [done | by apply (waiting_unanswered l u e Hr), (pool_waits u e _ Hp) | done].
Qed.

(** C32. [tx_shm_confined]: a step of the device changes a byte of the shared region only if
    the byte lies in a slot, other than slot 0 and within the region, that a request
    posted and not yet answered names; with the slot numbers, sizes and requests the
    guest chose. *)
Theorem tx_shm_confined (l : list (nat * list Z)) (u u' : queue) (i : Z) :
  qreach l u -> dstep u u' ->
  get8 (t_shm (u_dev u')) i = get8 (t_shm (u_dev u)) i \/
  exists e out, ((e, out) ∈ l) /\ (e ∉ (u_used u).*1) /\ touched out i.
Proof. apply shm_confined. Qed.
End tx.

(** ** Examples: a guest that asks for isolate 5, which is not there, to be killed *)

#[local] Existing Instance IsoMmap.ex_allocator.

Definition ex_out : list Z := StubWire.words [NVKVM_REQ_KILL_ISOLATE; 77; 5; 0].
Definition ex_q0 := q_init IsoMmap.ex_win true None ∅.
Definition ex_q1 := Queue (u_dev ex_q0) [(0%nat, ex_out)] ∅ [].
Definition ex_q2 := tx_one 3 4096 (2 ^ 20) refusing 0 ex_out [] ex_q1.

Lemma ex_posted : qreach 3 4096 (2 ^ 20) [(0%nat, ex_out)] ex_q1.
Proof.
  apply (qr_guest _ _ _ [] (Some (0%nat, ex_out)) ex_q0); [apply qr_init, IsoMmap.ex_owns |].
  refine (gs_post _ 0 ex_out _ _); [apply not_elem_of_nil |]. by repeat (constructor; [vm_compute; split; [discriminate | reflexivity] |]).
Qed.

Lemma ex_taken : dstep 3 4096 (2 ^ 20) ex_q1 ex_q2.
Proof. by refine (ds_take _ _ _ refusing ex_q1 0 ex_out [] _ (refusing_ok _)). Qed.

Lemma ex_answered : qreach 3 4096 (2 ^ 20) [(0%nat, ex_out)] ex_q2.
Proof. apply (qr_dev _ _ _ _ ex_q1); [apply ex_posted | apply ex_taken]. Qed.

Lemma tx_exactly_once_witness :
  u_used ex_q2 = [(0%nat, (16, take 8 ex_out ++ StubWire.words [ENOENT; 0]))] /\
  exists out, ((0%nat, out) ∈ [(0%nat, ex_out)]) /\ answer_ok out 16 (take 8 ex_out ++ StubWire.words [ENOENT; 0]).
Proof.
  assert (u_used ex_q2 = [(0%nat, (16, take 8 ex_out ++ StubWire.words [ENOENT; 0]))]) as E by (vm_compute; reflexivity).
  split; [exact E |]. apply (proj2 (proj2 (proj2 (tx_exactly_once 3 4096 (2 ^ 20) _ _ ex_answered)))). rewrite E. by left.
Defined.

Lemma device_tables_sound_witness : NoDup (s_id <$> d_sessions (t_dev (u_dev ex_q2))).
Proof. apply (device_tables_sound 3 4096 (2 ^ 20) _ _ ex_answered). Defined.

Lemma tx_drains_witness : (0 < todo ex_q1)%nat /\ todo ex_q2 = 0%nat /\ (u_used ex_q2).*1 ≡ₚ [0%nat].
Proof.
  split; [cbn; lia |]. assert (todo ex_q2 = 0%nat) as E by (vm_compute; reflexivity). split; [exact E |].
  exact (proj2 (proj2 (tx_drains 3 4096 (2 ^ 20) _ _ ex_answered)) E).
Defined.

Lemma tx_shm_confined_witness :
  get8 (t_shm (u_dev ex_q2)) 4096 = get8 (t_shm (u_dev ex_q1)) 4096 \/
  exists e out, ((e, out) ∈ [(0%nat, ex_out)]) /\ (e ∉ (u_used ex_q1).*1) /\ touched 4096 (2 ^ 20) out 4096.
Proof. exact (tx_shm_confined 3 4096 (2 ^ 20) ltac:(lia) ltac:(lia) _ _ _ 4096 ex_posted ex_taken). Defined.

End VirtioTx.
