(* ===== verification/GuestCalls.v ===== *)
(** * The guest's requests ([src/guest/nvkvm_virtio.c])

    Each call of the guest driver's transport interface fills a request structure,
    posts it behind a header that holds the type and a transaction id, and decodes
    the answer by the type in the header that comes back.  The host side is
    [VirtioTx]; here the two are put together. *)

From stdpp Require Import strings.
From S2P Require Import Prelude Extents Bytes HandleTable GpaAlloc Abi UvmVa Ring IsoMmap Allowlists IoctlGate Sessions SessionRuns Requests HostFiles StubWire VirtioTx.
Local Open Scope Z_scope.
Local Open Scope nv_scope.

Module GuestCalls.
Import HTab UvmVa IsoMmap Sessions Requests HostFiles VirtioTx.

Definition POLLIN : Z := 1.
Definition NVKVM_RESP_BUF_SIZE : Z := 512.

(** One constructor per function of the interface, with its arguments. *)
Inductive request :=
| Q_open_nvidia_handle (dev_id flags session_id : Z)
| Q_create_isolate (session_id : Z)
| Q_poll_arm (isolate_id handle_id : Z) (arm : bool)
| Q_setup_ring (session_id : Z)
| Q_enter_loop (session_id idle_us : Z)
| Q_present (isolate_id handle_id stub_handle width height pitch format session_id modifier : Z)
| Q_xiso_import (owner_isolate owner_handle owner_stub importer_isolate importer_handle : Z)
| Q_copy_handle_to_isolate (handle_id isolate_id : Z)
| Q_close_handle_on_isolate (handle_id isolate_id : Z)
| Q_close_handle (handle_id : Z)
| Q_kill_isolate (isolate_id : Z)
| Q_interrupt_isolate (isolate_id target_txn : Z)
| Q_ioctl_on_isolate (isolate_id handle_id cmd param_size shm_slot aux_size shm_aux_slot vma_count vma_slot flags session_id : Z)
| Q_munmap_on_isolate (isolate_id mmap_token : Z)
| Q_open_memory_handle (session_id size : Z)
| Q_write_memory_handle (handle_id offset shm_slot size : Z)
| Q_read_memory_handle (handle_id offset shm_slot size : Z)
| Q_mmap_on_isolate (isolate_id handle_id gva offset length prot map_flags session_id : Z)
| Q_realize_uvm_mapping (isolate_id fd_handle_id mode session_id gva length offset_hint prot map_flags state_slot intent_slot intent_size : Z)
| Q_read_host_file (file_id shm_slot max_len : Z).

Definition req_type (r : request) : Z :=
  match r with
  | Q_open_nvidia_handle _ _ _ => NVKVM_REQ_OPEN_NVIDIA_HANDLE
  | Q_create_isolate _ => NVKVM_REQ_CREATE_ISOLATE
  | Q_poll_arm _ _ arm => if arm then NVKVM_REQ_POLL_ON_ISOLATE else NVKVM_REQ_UNPOLL_ON_ISOLATE
  | Q_setup_ring _ => NVKVM_REQ_SETUP_RING
  | Q_enter_loop _ _ => NVKVM_REQ_ENTER_LOOP
  | Q_present _ _ _ _ _ _ _ _ _ => NVKVM_REQ_PRESENT
  | Q_xiso_import _ _ _ _ _ => NVKVM_REQ_XISO_IMPORT
  | Q_copy_handle_to_isolate _ _ => NVKVM_REQ_COPY_HANDLE_TO_ISOLATE
  | Q_close_handle_on_isolate _ _ => NVKVM_REQ_CLOSE_HANDLE_ON_ISOLATE
  | Q_close_handle _ => NVKVM_REQ_CLOSE_HANDLE
  | Q_kill_isolate _ => NVKVM_REQ_KILL_ISOLATE
  | Q_interrupt_isolate _ _ => NVKVM_REQ_INTERRUPT
  | Q_ioctl_on_isolate _ _ _ _ _ _ _ _ _ _ _ => NVKVM_REQ_IOCTL_ON_ISOLATE
  | Q_munmap_on_isolate _ _ => NVKVM_REQ_MUNMAP_ON_ISOLATE
  | Q_open_memory_handle _ _ => NVKVM_REQ_OPEN_MEMORY_HANDLE
  | Q_write_memory_handle _ _ _ _ => NVKVM_REQ_WRITE_MEMORY_HANDLE
  | Q_read_memory_handle _ _ _ _ => NVKVM_REQ_READ_MEMORY_HANDLE
  | Q_mmap_on_isolate _ _ _ _ _ _ _ _ => NVKVM_REQ_MMAP_ON_ISOLATE
  | Q_realize_uvm_mapping _ _ _ _ _ _ _ _ _ _ _ _ => NVKVM_REQ_REALIZE_UVM_MAPPING
  | Q_read_host_file _ _ _ => NVKVM_REQ_READ_HOST_FILE
  end.

(** The request structures, as words. *)
Definition payload (r : request) : list Z :=
  match r with
  | Q_open_nvidia_handle dev_id flags sid => [dev_id; flags; sid; 0]
  | Q_create_isolate sid => [sid; 0]
  | Q_poll_arm iso h _ => [iso; h; POLLIN; 0]
  | Q_setup_ring sid => [sid; 0]
  | Q_enter_loop sid idle_us => [sid; idle_us]
  | Q_present iso h stub w ht pitch format sid modifier => [iso; h; stub; w; ht; pitch; format; sid] ++ w64 modifier
  | Q_xiso_import oi oh os ii ih => [oi; oh; os; ii; ih; 0]
  | Q_copy_handle_to_isolate h iso => [h; iso]
  | Q_close_handle_on_isolate h iso => [h; iso]
  | Q_close_handle h => [h; 0]
  | Q_kill_isolate iso => [iso; 0]
  | Q_interrupt_isolate iso t => [iso; t]
  | Q_ioctl_on_isolate iso h cmd psize slot asize aslot nvma vslot flags sid =>
      [iso; h; cmd; psize; slot; asize; aslot; nvma; vslot; flags; sid; 0]
  | Q_munmap_on_isolate iso token => [iso; token]
  | Q_open_memory_handle sid size => w64 size ++ [sid; 0]
  | Q_write_memory_handle h offset slot size => [h; slot] ++ w64 offset ++ [size; 0]
  | Q_read_memory_handle h offset slot size => [h; slot] ++ w64 offset ++ [size; 0]
  | Q_mmap_on_isolate iso h gva offset len prot flags sid =>
      [iso; h] ++ w64 gva ++ w64 offset ++ w64 len ++ [prot; flags; sid; 0]
  | Q_realize_uvm_mapping iso fd mode sid gva len hint prot flags sslot islot isize =>
      [iso; fd; mode; sid] ++ w64 gva ++ w64 len ++ w64 hint ++ [prot; flags; sslot; islot; isize; 0]
  | Q_read_host_file file slot max_len => [file; slot; max_len; 0]
  end.

Definition message (txn : Z) (r : request) : list Z := StubWire.words ([req_type r; txn] ++ payload r).

(** ** The answer *)

(** [f_status] is an int, [f_retval] and [f_fault_addr] have 64 bits. *)
Record inflight := Inflight {
  f_txn_id : Z;
  f_retval : Z;
  f_status : Z;
  f_fault_addr : Z;
  f_nvstatus : Z;
  f_isolate_id : Z
}.

Definition inflight_alloc_legacy (txn : Z) : inflight := Inflight txn 0 0 0 0 0.
Definition set_isolate (iso : Z) (f : inflight) : inflight :=
  Inflight (f_txn_id f) (f_retval f) (f_status f) (f_fault_addr f) (f_nvstatus f) iso.

Definition got (retval status nvstatus fault_addr : Z) (f : inflight) : inflight :=
  Inflight (f_txn_id f) retval (s32 status) fault_addr nvstatus (f_isolate_id f).

(** [b]: the response buffer. *)
Definition nvkvm_tx_done (b : bytes) (f : inflight) : inflight :=
  let ty := get32 b 0 in
  let status_at o := got (f_retval f) (get32 b o) (f_nvstatus f) (f_fault_addr f) f in
  if (ty =? NVKVM_REQ_OPEN_NVIDIA_HANDLE) || (ty =? NVKVM_REQ_OPEN_MEMORY_HANDLE) || (ty =? NVKVM_REQ_CREATE_ISOLATE) then
    got (get32 b 8) (get32 b 12) (f_nvstatus f) (f_fault_addr f) f
  else if (ty =? NVKVM_REQ_XISO_IMPORT) || (ty =? NVKVM_REQ_READ_HOST_FILE) then
    got (get32 b 12) (get32 b 8) (f_nvstatus f) (f_fault_addr f) f
  else if (ty =? NVKVM_REQ_CLOSE_HANDLE) || (ty =? NVKVM_REQ_KILL_ISOLATE) || (ty =? NVKVM_REQ_PRESENT) ||
          (ty =? NVKVM_REQ_COPY_HANDLE_TO_ISOLATE) || (ty =? NVKVM_REQ_CLOSE_HANDLE_ON_ISOLATE) ||
          (ty =? NVKVM_REQ_MUNMAP_ON_ISOLATE) || (ty =? NVKVM_REQ_WRITE_MEMORY_HANDLE) || (ty =? NVKVM_REQ_READ_MEMORY_HANDLE) then
    status_at 8
  else if ty =? NVKVM_REQ_SETUP_RING then got (get64 b 8) (get32 b 32) (get32 b 28) (f_fault_addr f) f
  else if ty =? NVKVM_REQ_ENTER_LOOP then got (get64 b 8) (get32 b 16) (f_nvstatus f) (f_fault_addr f) f
  else if ty =? NVKVM_REQ_IOCTL_ON_ISOLATE then got (get64 b 8) (get32 b 16) (get32 b 20) (get64 b 24) f
  else if ty =? NVKVM_REQ_MMAP_ON_ISOLATE then got (get64 b 8) (get32 b 28) (get32 b 24) (f_fault_addr f) f
  else if ty =? NVKVM_REQ_REALIZE_UVM_MAPPING then got (get64 b 8) (get32 b 36) (get32 b 32) (get64 b 24) f
  else got (f_retval f) EINVAL (f_nvstatus f) (f_fault_addr f) f.

(** What a call returns, and what it stores through its result pointers. *)
Definition ret_of (f : inflight) : Z := - f_status f.
Definition if_ok (f : inflight) (outs : list Z) : Z * list Z := if f_status f =? 0 then (0, outs) else (ret_of f, []).

Definition result (r : request) (f : inflight) : Z * list Z :=
  match r with
  | Q_open_nvidia_handle _ _ _ | Q_create_isolate _ | Q_open_memory_handle _ _ | Q_xiso_import _ _ _ _ _
  | Q_read_host_file _ _ _ => if_ok f [u32 (f_retval f)]
  | Q_enter_loop _ _ => if_ok f [f_retval f]
  | Q_setup_ring _ | Q_mmap_on_isolate _ _ _ _ _ _ _ _ => if_ok f [f_retval f; f_nvstatus f]
  | Q_realize_uvm_mapping _ _ _ _ _ _ _ _ _ _ _ _ =>
      if f_status f =? 0 then (0, [f_retval f; f_fault_addr f; f_nvstatus f]) else (ret_of f, [f_nvstatus f])
  | Q_ioctl_on_isolate _ _ _ _ _ _ _ _ _ _ _ =>
      (if (f_status f =? EFAULT) && negb (f_fault_addr f =? 0) then - EFAULT
       else if f_status f =? 0 then s64 (f_retval f) else ret_of f, [f_fault_addr f])
  | _ => if_ok f []
  end.

(** ** The round trip *)

Section link.
Context {W : Type} `{GpaAllocator W} (kvm_vm_fd slot_size shm_size : Z).

(** The buffer QEMU writes the answer into, zeroed before; a longer answer is cut. *)
Definition resp_buf (bs : list Z) : bytes := write_bytes ∅ 0 (take (Z.to_nat NVKVM_RESP_BUF_SIZE) bs).

(** A call whose request the device answers on the spot. *)
Definition round_trip (env : host) (txn : Z) (r : request) (v : vdev (W := W))
  : option (vdev (W := W) * (Z * list Z) * list act) :=
  let out := message txn r in
  (fun a => (fst (fst a), result r (nvkvm_tx_done (resp_buf (hdr_of out ++ snd (fst a))) (inflight_alloc_legacy txn)), snd a)) <$>
  tx_inline kvm_vm_fd slot_size shm_size env (type_of out) (req_of out) v.

(** The same call made directly: the handler on the call's own arguments, its status
    as a negative error number, its results at their width, and what it does
    besides. *)
Definition answer (st : Z) (outs : list Z) : Z * list Z := if s32 st =? 0 then (0, outs) else (- s32 st, []).

Definition direct (env : host) (r : request) (v : vdev (W := W)) : option (vdev (W := W) * (Z * list Z) * list act) :=
  let d := t_dev v in
  match r with
  | Q_open_nvidia_handle dev_id flags sid =>
      let '(d', cl, id, st) := nvkvm_req_open_nvidia_handle (x_open env) (OpenReq sid dev_id flags) d in
      Some (set_dev d' v, answer st [u32 id], A_close <$> cl)
  | Q_create_isolate sid =>
      let '(d', eff, id, st) := nvkvm_req_create_isolate (x_socketpair env) (x_spawn env) (x_ring env) sid d in
      Some (set_dev d' v, answer st [u32 id], A_map <$> eff)
  | Q_poll_arm iso h arm =>
      let '(sent, r) := if arm then nvkvm_isolate_poll (x_sync env) iso h POLLIN (d_isolates d)
                     else nvkvm_isolate_unpoll (x_sync env) iso h (d_isolates d) in
      Some (v, answer (status_of r) [], A_stub <$> sent)
  | Q_setup_ring sid =>
      Some (v, match nvkvm_req_setup_ring sid d with
               | Ok (gpa, _, _, ring_bytes) => (0, [u64 gpa; u32 ring_bytes])
               | Err e => answer e [0; 0]
               end, [])
  | Q_present iso h stub width height pitch format sid modifier =>
      let '(d', sent, cl, shows, st) := nvkvm_req_present (x_export env) (x_submit env) (x_capture env)
                                          (PresentReq iso h stub sid (Frame width height pitch format modifier)) d in
      Some (set_dev d' v, answer st [], (A_stub <$> sent) ++ (A_show <$> shows) ++ (A_close <$> cl))
  | Q_xiso_import oi oh os ii ih =>
      let '(d', sent, cl, gem, st) := nvkvm_req_xiso_import (x_export env) (x_import env) (XisoReq oi oh os ii ih) d in
      Some (set_dev d' v, answer st [u32 gem], (A_stub <$> sent) ++ (A_close <$> cl))
  | Q_copy_handle_to_isolate h iso =>
      let '(d', st) := nvkvm_req_copy_handle_to_isolate (x_sync env) iso h d in Some (set_dev d' v, answer st [], [])
  | Q_close_handle_on_isolate h iso =>
      let '(d', st) := nvkvm_req_close_handle_on_isolate (x_sync env) iso h d in Some (set_dev d' v, answer st [], [])
  | Q_close_handle h =>
      let '(d', cl, st) := nvkvm_req_close_handle h d in Some (set_dev d' v, answer st [], A_close <$> cl)
  | Q_kill_isolate iso =>
      let '(d', eff, cl, st) := nvkvm_req_kill_isolate kvm_vm_fd iso d in
      Some (set_dev d' v, answer st [], (A_map <$> eff) ++ (A_close <$> cl))
  | Q_interrupt_isolate iso t =>
      let '(sent, r) := nvkvm_isolate_interrupt (x_sock env) iso t (d_isolates d) in
      Some (v, answer (status_of r) [], A_stub <$> sent)
  | Q_munmap_on_isolate _ token =>
      let '(m, eff, st) := nvkvm_req_munmap_on_isolate kvm_vm_fd token (d_maps d) in
      Some (set_dev (with_maps m d) v, answer st [], A_map <$> eff)
  | Q_open_memory_handle sid size =>
      let '(d', cl, id, st) := nvkvm_req_open_memory_handle (x_memfd env) (x_ftruncate env) sid size d in
      Some (set_dev d' v, answer st [u32 id], A_close <$> cl)
  | Q_write_memory_handle h offset slot size =>
      let '(io, st) := nvkvm_req_write_memory_handle (x_pwrite env) (blob_if slot_size shm_size slot size) (MemReq h offset size) (t_shm v) d in
      Some (v, answer st [], A_io <$> io)
  | Q_read_memory_handle h offset slot size =>
      let '(m, io, st) := nvkvm_req_read_memory_handle (x_pread env) (blob_if slot_size shm_size slot size) (MemReq h offset size) (t_shm v) d in
      Some (set_shm m v, answer st [], A_io <$> io)
  | Q_mmap_on_isolate iso h gva offset len prot flags _ =>
      let '(m, eff, r) := nvkvm_req_mmap_on_isolate (x_mmap env) (x_mirror env) (d_handles d) (MmapReq iso h gva offset len prot flags) (d_maps d) in
      Some (set_dev (with_maps m d) v, answer (s_status r) [u64 (s_gpa_base r); u32 (s_mmap_token r)], A_map <$> eff)
  | Q_realize_uvm_mapping iso _ mode _ gva len _ prot flags sslot islot isize =>
      let '(v', r) := tx_realize slot_size shm_size env (RealizeReq iso mode gva len prot flags isize) sslot islot v in
      Some (v', if s32 (y_status r) =? 0 then (0, [u64 (y_gpa_base r); u64 (y_token r); u32 (y_rm_status r)])
                else (- s32 (y_status r), [u32 (y_rm_status r)]), [])
  | Q_read_host_file file slot max_len =>
      let '(files, m, path, r) := nvkvm_req_read_host_file (x_dir env) (x_fopen env) (x_reads env)
                                 (slot_blob slot_size shm_size slot max_len) (HReq file max_len 0) (t_files v) (t_shm v) in
      (fun r => (VDev d (t_clients v) (t_abi v) files m, answer (fst r) [u32 (snd r)], A_file <$> option_list path)) <$> r
  | Q_enter_loop _ _ | Q_ioctl_on_isolate _ _ _ _ _ _ _ _ _ _ _ => None
  end.

(** *** Messages *)

Definition fields_ok (r : request) : Prop := Forall (fun x => 0 <= x < 2 ^ 32) (payload r).

Lemma message_split txn r : message txn r = StubWire.words [req_type r; txn] ++ StubWire.words (payload r).
Proof. apply StubWire.words_app. Qed.

Lemma hdr_of_message txn r : hdr_of (message txn r) = StubWire.words [req_type r; txn].
Proof. by rewrite message_split. Qed.

Lemma type_of_message txn r : type_of (message txn r) = req_type r.
Proof.
  unfold type_of. rewrite message_split. etransitivity; [exact (StubWire.get_word ∅ [req_type r; txn] 0 _ (StubWire.words (payload r)) eq_refl) |].
  apply u32_small. destruct r as [| |? ? []| | | | | | | | | | | | | | | | |]; by vm_compute.
Qed.

Lemma req_of_message txn r : req_of (message txn r) = write_bytes ∅ 0 (StubWire.words (payload r)).
Proof. unfold req_of. by rewrite message_split. Qed.

Lemma req32 txn r i x : fields_ok r -> payload r !! i = Some x -> get32 (req_of (message txn r)) (4 * Z.of_nat i) = x.
Proof.
  intros Hf Hi. rewrite req_of_message, <- (app_nil_r (StubWire.words _)), (StubWire.get_word _ _ _ _ _ Hi).
  apply u32_small. apply (Forall_lookup_1 _ _ _ _ Hf Hi).
Qed.

Lemma w64_join x : 0 <= Z.shiftr x 32 < 2 ^ 32 -> u32 x + 2 ^ 32 * Z.shiftr x 32 = x.
Proof. rewrite Z.shiftr_div_pow2 by lia. unfold u32. pose proof (Z.div_mod x (2 ^ 32)). lia. Qed.

Lemma req64 txn r i x :
  fields_ok r -> payload r !! i = Some (u32 x) -> payload r !! S i = Some (Z.shiftr x 32) ->
  get64 (req_of (message txn r)) (4 * Z.of_nat i) = x.
Proof.
  intros Hf H1 H2. unfold get64. rewrite (req32 _ _ _ _ Hf H1).
  replace (4 * Z.of_nat i + 4) with (4 * Z.of_nat (S i)) by lia. rewrite (req32 _ _ _ _ Hf H2).
  apply w64_join. apply (Forall_lookup_1 _ _ _ _ Hf H2).
Qed.

(** *** Answers *)

Lemma resp32 ty txn ws i x :
  (length ws <= 120)%nat -> ([ty; txn] ++ ws) !! i = Some x ->
  get32 (resp_buf (StubWire.words [ty; txn] ++ StubWire.words ws)) (4 * Z.of_nat i) = u32 x.
Proof.
  intros Hl Hi. unfold resp_buf. rewrite <- StubWire.words_app, take_ge.
  - rewrite <- (app_nil_r (StubWire.words _)). by apply StubWire.get_word.
  - rewrite StubWire.length_words, length_app. unfold NVKVM_RESP_BUF_SIZE. cbn [length]. lia.
Qed.

Lemma resp64 ty txn ws i x :
  (length ws <= 120)%nat -> ([ty; txn] ++ ws) !! i = Some (u32 x) -> ([ty; txn] ++ ws) !! S i = Some (Z.shiftr x 32) ->
  get64 (resp_buf (StubWire.words [ty; txn] ++ StubWire.words ws)) (4 * Z.of_nat i) = u64 x.
Proof.
  intros Hl H1 H2. unfold get64. rewrite (resp32 _ _ _ _ _ Hl H1).
  replace (4 * Z.of_nat i + 4) with (4 * Z.of_nat (S i)) by lia. rewrite (resp32 _ _ _ _ _ Hl H2).
  symmetry. unfold u32 at 1 2. rewrite Z.mod_mod by lia. apply (split_low x 32 32); lia.
Qed.

(** Rewrites a field of the request, and a field of the answer. *)
#[local] Ltac fld q Hq i o := try (let Hx := fresh in assert (get32 q o = _) as Hx by exact (Hq i _ eq_refl); rewrite !Hx; clear Hx).
#[local] Ltac fld64 q Hq i o := try (let Hx := fresh in assert (get64 q o = _) as Hx by exact (Hq i _ eq_refl eq_refl); rewrite !Hx; clear Hx).

Lemma u32_u32 x : u32 (u32 x) = u32 x.
Proof. unfold u32. by rewrite Z.mod_mod by lia. Qed.

(** Decodes the answer. *)
#[local] Ltac decode :=
  match goal with |- context [resp_buf (StubWire.words [?ty; ?txn] ++ StubWire.words ?ws)] =>
    let Hb := fresh in let Hb8 := fresh in let b := fresh in
    pose proof (fun i x => resp32 ty txn ws i x ltac:(cbn; lia)) as Hb;
    pose proof (fun i x => resp64 ty txn ws i x ltac:(cbn; lia)) as Hb8;
    revert Hb Hb8; generalize (resp_buf (StubWire.words [ty; txn] ++ StubWire.words ws)); intros b Hb Hb8;
    unfold nvkvm_tx_done; fld b Hb 0%nat 0;
    match goal with |- context [u32 ty] => change (u32 ty) with ty end;
    cbn -[get32 get64 u32 u64 s32];
    fld b Hb 2%nat 8; fld b Hb 3%nat 12; fld b Hb 4%nat 16; fld b Hb 5%nat 20; fld b Hb 6%nat 24; fld b Hb 7%nat 28; fld b Hb 8%nat 32;
    fld b Hb 9%nat 36; fld64 b Hb8 2%nat 8; fld64 b Hb8 6%nat 24
  end; unfold result, if_ok, answer, ret_of, got; cbn [f_status f_retval f_nvstatus f_fault_addr]; rewrite ?s32_u32, ?u32_u32.

#[local] Ltac fields q Hq Hq8 :=
  fld q Hq 0%nat 0; fld q Hq 1%nat 4; fld q Hq 2%nat 8; fld q Hq 3%nat 12; fld q Hq 4%nat 16; fld q Hq 5%nat 20;
  fld q Hq 6%nat 24; fld q Hq 7%nat 28;
  fld q Hq 8%nat 32; fld q Hq 9%nat 36; fld q Hq 10%nat 40; fld q Hq 11%nat 44; fld q Hq 12%nat 48; fld q Hq 13%nat 52; fld q Hq 14%nat 56;
  fld64 q Hq8 0%nat 0; fld64 q Hq8 2%nat 8; fld64 q Hq8 4%nat 16; fld64 q Hq8 6%nat 24;
  fld64 q Hq8 8%nat 32.

#[local] Ltac branch := unfold tx_inline; cbn [Z.eqb Pos.eqb req_type
  NVKVM_REQ_OPEN_NVIDIA_HANDLE NVKVM_REQ_LIST_NVIDIA_DEVICES NVKVM_REQ_PRESENT NVKVM_REQ_XISO_IMPORT NVKVM_REQ_OPEN_MEMORY_HANDLE
  NVKVM_REQ_CLOSE_HANDLE NVKVM_REQ_CREATE_ISOLATE NVKVM_REQ_KILL_ISOLATE NVKVM_REQ_INTERRUPT NVKVM_REQ_SETUP_RING
  NVKVM_REQ_COPY_HANDLE_TO_ISOLATE NVKVM_REQ_CLOSE_HANDLE_ON_ISOLATE NVKVM_REQ_POLL_ON_ISOLATE NVKVM_REQ_UNPOLL_ON_ISOLATE
  NVKVM_REQ_MMAP_ON_ISOLATE NVKVM_REQ_MUNMAP_ON_ISOLATE NVKVM_REQ_WRITE_MEMORY_HANDLE NVKVM_REQ_READ_MEMORY_HANDLE
  NVKVM_REQ_READ_HOST_FILE NVKVM_REQ_REALIZE_UVM_MAPPING NVKVM_REQ_IOCTL_ON_ISOLATE NVKVM_REQ_ENTER_LOOP].

Lemma direct_ok env r (v : vdev (W := W)) txn :
  fields_ok r ->
  match r with Q_poll_arm _ _ _ | Q_interrupt_isolate _ _ => False | _ => True end ->
  round_trip env txn r v = direct env r v.
Proof.
  intros Hf Hr. unfold round_trip. rewrite hdr_of_message, type_of_message.
  pose proof (fun i x => req32 txn r i x Hf) as Hq. pose proof (fun i x => req64 txn r i x Hf) as Hq8.
  revert Hq Hq8. generalize (req_of (message txn r)). intros q Hq Hq8. destruct r; try done; cbn [req_type direct]; branch; fields q Hq Hq8.
  all: unfold status_only, mmap_bytes, realize_bytes, ring_resp, realize_request; fields q Hq Hq8.
  all: cbn [mr_size hf_max_len].
  3: { destruct (nvkvm_req_setup_ring _ _) as [[[[gpa region] off] rb]|e]; cbn [fmap option_fmap option_map fst snd]; by decode. }
  all: repeat match goal with |- context [let '(_, _) := ?f in _] => destruct f end; try done.
  all: repeat match goal with o : option (Z * Z) |- _ => destruct o as [[? ?]|]; [|done] end;
    cbn [fmap option_fmap option_map fst snd]; by decode.
Qed.

(** C29. [guest_call_transparent]: a call of the guest driver that the device answers on the
    spot, poll arming and interrupts excepted, has exactly the outcome of calling the
    host's handler directly with the call's own arguments: the same device state,
    the same result and results at the caller, and the same actions on the host
    (descriptors closed, commands to stubs, frames shown, mappings, input and output,
    file read).  So no argument the handler uses, a frame's dimensions and the open
    flags included, is lost, truncated or exchanged on the way, and neither is a
    field of the answer.  The arguments are assumed to fit the fields of the request. *)
Theorem guest_call_transparent (env : host) (r : request) (v : vdev (W := W)) (txn : Z) :
  fields_ok r ->
  match r with Q_poll_arm _ _ _ | Q_interrupt_isolate _ _ => False | _ => True end ->
  round_trip env txn r v = direct env r v.
Proof. apply direct_ok. Qed.

(** [guest_pool_transparent]: an ioctl reaches the pool with the call's own arguments and
    the two slots it names, and the caller gets the handler's return value, status and
    fault address back; a consumer loop reaches it with its session and idle time,
    and the caller gets the head back. *)
Theorem guest_pool_transparent (txn iso h cmd psize slot asize aslot nvma vslot flags sid idle : Z) (resp : Gate.response) (head st : Z) :
  let io := Q_ioctl_on_isolate iso h cmd psize slot asize aslot nvma vslot flags sid in
  let lp := Q_enter_loop sid idle in
  fields_ok io -> fields_ok lp ->
  (forall env e u avail, exists it,
     tx_one kvm_vm_fd slot_size shm_size env e (message txn io) avail u = pool_add e (message txn io) (I_ioctl it) u avail /\
     k_param it = blob_if slot_size shm_size slot psize /\ k_aux it = blob_if slot_size shm_size aslot asize /\
     k_req it = Gate.Req iso h cmd (clamp (k_param it) psize) (clamp (k_aux it) asize) flags) /\
  result io (nvkvm_tx_done (resp_buf (hdr_of (message txn io) ++ ioctl_bytes resp)) (inflight_alloc_legacy txn)) =
    (if (s32 (Gate.status resp) =? EFAULT) && negb (u64 (Gate.fault_addr resp) =? 0) then - EFAULT
     else if s32 (Gate.status resp) =? 0 then s64 (u64 (Gate.retval resp)) else - s32 (Gate.status resp), [u64 (Gate.fault_addr resp)]) /\
  (forall env e u avail, tx_one kvm_vm_fd slot_size shm_size env e (message txn lp) avail u =
     pool_add e (message txn lp) (I_loop sid idle) u avail) /\
  result lp (nvkvm_tx_done (resp_buf (hdr_of (message txn lp) ++ StubWire.words (w64 head ++ [st; 0]))) (inflight_alloc_legacy txn)) =
    answer st [u64 head].
Proof.
  intros io lp Hio Hlp.
  assert (forall r, (Z.of_nat (length (message txn r)) <? sizeof_hdr) = false) as Hlen.
  { intros r. apply Z.ltb_ge. unfold message. rewrite StubWire.length_words, length_app. unfold sizeof_hdr. cbn [length]. lia. }
  split_and!.
  - intros env e u avail. exists (ioctl_work slot_size shm_size (req_of (message txn io))). split.
    + unfold tx_one. by rewrite Hlen, type_of_message.
    + unfold ioctl_work. cbn [k_param k_aux k_req].
      pose proof (fun i x => req32 txn io i x Hio) as Hq. revert Hq. generalize (req_of (message txn io)). intros q Hq.
      fld q Hq 0%nat 0. fld q Hq 1%nat 4. fld q Hq 2%nat 8. fld q Hq 3%nat 12. fld q Hq 4%nat 16. fld q Hq 5%nat 20. fld q Hq 6%nat 24.
      by fld q Hq 9%nat 36.
  - rewrite hdr_of_message. unfold io. cbn [req_type]. unfold ioctl_bytes. by decode.
  - intros env e u avail. unfold tx_one. rewrite Hlen, type_of_message. unfold lp. cbn [req_type Z.eqb Pos.eqb NVKVM_REQ_ENTER_LOOP].
    pose proof (fun i x => req32 txn lp i x Hlp) as Hq. revert Hq. unfold lp. generalize (req_of (message txn (Q_enter_loop sid idle))).
    intros q Hq. fld q Hq 0%nat 0. by fld q Hq 1%nat 4.
  - rewrite hdr_of_message. unfold lp. cbn [req_type]. by decode.
Qed.

(** [poll_answers_dropped]: arming a poll and interrupting a call report [EINVAL] to the
    caller whatever the host answered: the completion handler has no case for them. *)
Theorem poll_answers_dropped (env : host) (v : vdev (W := W)) (txn iso h t : Z) (arm : bool) :
  fst <$> round_trip env txn (Q_poll_arm iso h arm) v = Some (v, (- EINVAL, [])) /\
  fst <$> round_trip env txn (Q_interrupt_isolate iso t) v = Some (v, (- EINVAL, [])).
Proof.
  split; unfold round_trip; rewrite hdr_of_message, type_of_message; [destruct arm |]; cbn [req_type]; branch;
    match goal with |- context [let '(_, _) := ?f in _] => destruct f end;
    cbn [fmap option_fmap option_map fst snd]; unfold status_only; by decode.
Qed.

(** [realize_refusal_positive]: a realisation that the host's validation refuses makes
    the guest's call return the error number itself, not its negative: the host
    stores a negative status and the guest negates it again. *)
Theorem realize_refusal_positive (env : host) (v : vdev (W := W)) (txn iso fd mode sid gva len hint prot flags sslot islot isize e : Z) :
  let r := Q_realize_uvm_mapping iso fd mode sid gva len hint prot flags sslot islot isize in
  fields_ok r ->
  realize_valid (RealizeReq iso mode gva len prot flags isize)
    (snapshot_at (t_shm v) <$> slot_blob slot_size shm_size sslot slot_size)
    (intent_at (t_shm v) <$> blob_if slot_size shm_size islot isize) = Err e ->
  exists v', round_trip env txn r v = Some (v', (e, [0]), []) /\ 0 < e.
Proof.
  intros r Hf He.
  assert (0 < e < 2 ^ 31) as Hr.
  { revert He. unfold realize_valid. repeat case_match; intros [= <-]; by vm_compute. }
  assert (s32 (neg32 e) = - e) as Hs.
  { unfold neg32. rewrite s32_u32. unfold s32, u32. replace (- e) with (2 ^ 32 - e + (-1) * 2 ^ 32) by lia.
    rewrite Z.mod_add, Z.mod_small by lia. destruct (Z.ltb_spec (2 ^ 32 - e) (2 ^ 31)); lia. }
  rewrite direct_ok by done. unfold direct, r, tx_realize, nvkvm_req_realize_uvm_mapping. cbn [z_intent_size].
  rewrite He. cbn [realize_fail y_status y_rm_status]. rewrite Hs.
  destruct (Z.eqb_spec (- e) 0); [lia |]. eexists. split; [by rewrite Z.opp_involutive | lia].
Qed.
End link.

(** ** Examples: a fresh device behind a kernel that refuses everything *)

#[local] Existing Instance IsoMmap.ex_allocator.

#[local] Ltac small := repeat (constructor; [split; [done | reflexivity] |]); constructor.

Lemma guest_call_transparent_witness :
  snd <$> (fst <$> round_trip 3 4096 (2 ^ 20) refusing 77 (Q_kill_isolate 5) (u_dev ex_q0)) = Some (- ENOENT, []).
Proof.
  rewrite (guest_call_transparent 3 4096 (2 ^ 20) refusing (Q_kill_isolate 5) (u_dev ex_q0) 77 ltac:(small) I).
  vm_compute. reflexivity.
Defined.

Lemma guest_pool_transparent_witness :
  result (Q_ioctl_on_isolate 1 2 72 24 1 0 0 0 0 0 7)
    (nvkvm_tx_done (resp_buf (hdr_of (message 9 (Q_ioctl_on_isolate 1 2 72 24 1 0 0 0 0 0 7)) ++ ioctl_bytes (Gate.Resp 0 EFAULT 0 4096)))
       (inflight_alloc_legacy 9)) = (- EFAULT, [4096]).
Proof.
  exact (proj1 (proj2 (guest_pool_transparent 3 4096 (2 ^ 20) 9 1 2 72 24 1 0 0 0 0 0 7 100 (Gate.Resp 0 EFAULT 0 4096) 0 0
    ltac:(small) ltac:(small)))).
Defined.

Lemma realize_refusal_positive_witness :
  exists v', round_trip 3 4096 (2 ^ 20) refusing 77 (Q_realize_uvm_mapping 1 2 1 7 0 4096 0 3 1 0 0 9248) (u_dev ex_q0) =
    Some (v', (EINVAL, [0]), []) /\ 0 < EINVAL.
Proof.
  refine (realize_refusal_positive 3 4096 (2 ^ 20) refusing (u_dev ex_q0) 77 1 2 1 7 0 4096 0 3 1 0 0 9248 EINVAL _ _); [small | reflexivity].
Defined.

End GuestCalls.
