(* ===== verification/GuestTransport.v ===== *)
(** * The guest's transport ([src/guest/nvkvm_virtio.c])

    Any number of guest tasks call the interface of [GuestCalls] at once.  Each takes
    a transaction id from a bitmap, slots of the shared region from another, posts
    an element whose cookie is its record, and sleeps until the completion handler
    wakes it; a signal makes it ask for its call to be interrupted.  The device at
    the other end of the queue is the one of [VirtioTx]. *)

From stdpp Require Import strings.
From S2P Require Import Prelude Extents Bytes HandleTable KvmSlots GpaWindow GpaAlloc Abi UvmVa Ring IsoMmap Allowlists IoctlGate Sessions SessionRuns Requests HostFiles StubWire VirtioTx GuestCalls.
Local Open Scope Z_scope.
Local Open Scope nv_scope.

Module GuestTransport.
Import IsoMmap HostFiles VirtioTx GuestCalls.

Definition NVKVM_MAX_INFLIGHT : Z := 4096.
Definition NVKVM_MAX_VMA_ENTRIES : Z := 1024.
Definition ERESTARTSYS : Z := 512.
Definition EBUSY : Z := 16.
Definition ENOSPC : Z := 28.

(** ** Bitmaps *)

Fixpoint next_zero (n : nat) (i : Z) (bm : gset Z) : option Z :=
  match n with
  | O => None
  | S n => if decide (i ∈ bm) then next_zero n (i + 1) bm else Some i
  end.

(** The slots from 1 on. *)
Definition nvkvm_slot_alloc (bm : gset Z) : option (Z * gset Z) :=
  (fun s => (s, {[s]} ∪ bm)) <$> next_zero 255 1 bm.

Definition nvkvm_slot_free (s : Z) (bm : gset Z) : gset Z := bm ∖ {[s]}.

(** One try of [nvkvm_txn_id_alloc]: the bit, and the id it stands for. *)
Definition txn_bit (seed tries : Z) : Z := u32 (seed + tries) mod NVKVM_MAX_INFLIGHT.

Definition txn_id (seed bit : Z) : Z :=
  let epoch := Z.land (seed / NVKVM_MAX_INFLIGHT) 0xFFFFF in
  Z.lor (u32 (Z.shiftl epoch 12)) (Z.land bit 0xFFF).

Definition nvkvm_txn_id_free (txn : Z) (bm : gset Z) : gset Z :=
  let bit := Z.land txn 0xFFF in if bit =? 0 then bm else bm ∖ {[bit]}.

(** ** Calls *)

(** Data for a slot of an ioctl: none, required, or sent when a slot is free. *)
Inductive inner := In_skip | In_must (data : list Z) | In_may (data : list Z).

(** [c_outer]: data for slots the caller of the interface takes around the call;
    [c_mk]: the request, from the slots taken, 0 where there is none; [c_back]: how
    much of each slot the caller may read back; [c_isolate]: not 0 when the wait can be
    interrupted; [c_noslot]: the error when no slot is free for the caller;
    [c_free_buf], [c_free_inf]: whether the function gives the transaction id
    back when it cannot allocate the message, or the record. *)
Record call := Call {
  c_outer : list (list Z);
  c_inner : list inner;
  c_mk : list Z -> request;
  c_back : list Z;
  c_isolate : Z;
  c_noslot : Z;
  c_free_buf : bool;
  c_free_inf : bool
}.

Definition nth0 (ss : list Z) (i : nat) : Z := default 0 (ss !! i).
Definition lenb (l : list Z) : Z := Z.of_nat (length l).
Definition must (data : list Z) : inner := match data with [] => In_skip | _ => In_must data end.

(** [simple_req], and the functions that fill their own message: the flags tell them
    apart. *)
Definition plain_call (r : request) (free_buf free_inf : bool) : call := Call [] [] (fun _ => r) [] 0 0 free_buf free_inf.

(** A VMA entry is 24 bytes; [vmas] is the encoded list, empty without a memory map. *)
Definition ioctl_call (iso h cmd : Z) (param aux : list Z) (vmas : list Z) (flags sid : Z) : call :=
  Call [] [must param; must aux; match vmas with [] => In_skip | _ => In_may vmas end]
    (fun ss => Q_ioctl_on_isolate iso h cmd (lenb param) (nth0 ss 0) (lenb aux) (nth0 ss 1)
                 (if nth0 ss 2 =? 0 then 0 else lenb vmas / 24) (nth0 ss 2) flags sid)
    [lenb param; lenb aux; 0] iso 0 false false.

(** [hostfile_show], [initstate_show]. *)
Definition hostfile_call (file : Z) : call :=
  Call [[]] [] (fun ss => Q_read_host_file file (nth0 ss 0) NVKVM_HFILE_MAX_SIZE) [NVKVM_HFILE_MAX_SIZE] 0 ENOMEM true true.

(** A page sent to a memory handle, and read from one. *)
Definition upload_call (h offset : Z) (data : list Z) : call :=
  Call [data] [] (fun ss => Q_write_memory_handle h offset (nth0 ss 0) (lenb data)) [0] 0 ENOSPC false false.
Definition writeback_call (h offset size : Z) : call :=
  Call [[]] [] (fun ss => Q_read_memory_handle h offset (nth0 ss 0) size) [size] 0 ENOSPC false false.

Definition realize_call (iso fd sid gva len prot flags : Z) (snap intent : list Z) : call :=
  Call [snap; intent] []
    (fun ss => Q_realize_uvm_mapping iso fd NVKVM_UVM_REALIZE_MODE_SEM_POOL sid gva len 0 prot flags (nth0 ss 0) (nth0 ss 1) (lenb intent))
    [0; 0] 0 ENOSPC true true.

(** ** Tasks *)

Record outcome := Out { o_ret : Z; o_outs : list Z; o_data : list (list Z) }.

Inductive pc :=
| P_outer (rest : list (list Z))
| P_seed
| P_txn (seed tries : Z)
| P_buf
| P_inf
| P_inner (rest : list inner)
| P_post
| P_wait (e : nat) (f : inflight) (completed : bool) (interrupt : option nat)
| P_free (o : outcome)
| P_end (o : outcome).

(** [k_txn]: 0 when the task holds no transaction id. *)
Record task := Task { k_call : call; k_pc : pc; k_slots : list Z; k_txn : Z }.

(** [g_cookie]: the task an element's record belongs to; [g_last]: how many returned
    elements have been taken; [g_dangling]: a completion wrote to a record whose
    owner was not waiting. *)
Record guest := Guest {
  g_seed : Z;
  g_txns : gset Z;
  g_slots : gset Z;
  g_tasks : gmap nat task;
  g_cookie : gmap nat nat;
  g_last : nat;
  g_dangling : bool
}.

Definition nvkvm_virtio_init : guest := Guest 0 ∅ {[0]} ∅ ∅ 0 false.

Definition set_pc (p : pc) (k : task) : task := Task (k_call k) p (k_slots k) (k_txn k).
Definition fail (e : Z) (k : task) : task := set_pc (P_free (Out (- e) [] [])) k.
Definition set_bitmaps (seed : Z) (txns slots : gset Z) (g : guest) : guest :=
  Guest seed txns slots (g_tasks g) (g_cookie g) (g_last g) (g_dangling g).
Definition set_task (t : nat) (k : task) (g : guest) : guest :=
  Guest (g_seed g) (g_txns g) (g_slots g) (<[t := k]> (g_tasks g)) (g_cookie g) (g_last g) (g_dangling g).

(** ** Exclusive holdings *)

(** What tasks hold is marked in the bitmap, and held once. *)
Definition excl (f : task -> list Z) (ts : gmap nat task) (bm : gset Z) : Prop :=
  (forall t k s, ts !! t = Some k -> s ∈ f k -> s ∈ bm) /\
  (forall t t' k k' s, ts !! t = Some k -> ts !! t' = Some k' -> s ∈ f k -> s ∈ f k' -> t = t') /\
  (forall t k, ts !! t = Some k -> NoDup (f k)).

#[local] Ltac lk Hx := let Hy := fresh in apply lookup_insert_Some in Hx as [[<- <-]|[? Hx]].

Lemma excl_empty f bm : excl f ∅ bm.
Proof. split; [|split]; intros * Hx; by rewrite lookup_empty in Hx. Qed.

Lemma excl_keep f ts bm t k k' :
  excl f ts bm -> ts !! t = Some k -> f k' `sublist_of` f k -> excl f (<[t := k']> ts) bm.
Proof.
  intros (E1 & E2 & E3) Hk Hs. pose proof (fun s Hx => elem_of_sublist _ _ s Hx Hs) as Hi. split_and!.
  - intros t1 k1 s H1 H2. lk H1; eauto.
  - intros t1 t2 k1 k2 s H1 H2 H3 H4. lk H1; lk H2; eauto.
  - intros t1 k1 H1. lk H1; eauto using sublist_NoDup.
Qed.

Lemma excl_new f ts bm t k : excl f ts bm -> f k = [] -> excl f (<[t := k]> ts) bm.
Proof.
  intros (E1 & E2 & E3) Hf. split_and!.
  - intros t1 k1 s H1 H2. lk H1; [|eauto]. rewrite Hf in H2. by apply elem_of_nil in H2.
  - intros t1 t2 k1 k2 s H1 H2 H3 H4. lk H1; [rewrite Hf in H3; by apply elem_of_nil in H3 |].
    lk H2; [rewrite Hf in H4; by apply elem_of_nil in H4 |]. eauto.
  - intros t1 k1 H1. lk H1; [rewrite Hf; constructor | eauto].
Qed.

Lemma excl_take f ts bm t k k' s :
  excl f ts bm -> ts !! t = Some k -> s ∉ bm -> f k' = f k ++ [s] -> excl f (<[t := k']> ts) ({[s]} ∪ bm).
Proof.
  intros (E1 & E2 & E3) Hk Hs Hf.
  assert (forall x, x ∈ f k' -> x ∈ f k \/ x = s) as Hi.
  { intros x. rewrite Hf. intros [?|?%list_elem_of_singleton]%elem_of_app; eauto. }
  assert (forall t1 k1, ts !! t1 = Some k1 -> s ∉ f k1) as Hn by (intros t1 k1 H1 H2; eauto).
  split_and!.
  - intros t1 k1 x H1 H2. lk H1; [apply Hi in H2 as [?| ->] |]; set_solver.
  - intros t1 t2 k1 k2 x H1 H2 H3 H4. lk H1; lk H2; try done.
    + apply Hi in H3 as [?| ->]; [eauto | by destruct (Hn _ _ H2)].
    + apply Hi in H4 as [?| ->]; [eauto | by destruct (Hn _ _ H1)].
    + eauto.
  - intros t1 k1 H1. lk H1; [|eauto]. rewrite Hf. apply NoDup_app. split_and!; [eauto | | apply NoDup_singleton].
    intros x Hx ->%list_elem_of_singleton. by apply (Hn t k).
Qed.

Lemma excl_give f ts bm t k k' s :
  excl f ts bm -> ts !! t = Some k -> f k = f k' ++ [s] -> excl f (<[t := k']> ts) (bm ∖ {[s]}).
Proof.
  intros (E1 & E2 & E3) Hk Hf.
  assert (s ∈ f k) as Hs by (rewrite Hf; set_solver).
  pose proof (E3 t k Hk) as Hn. rewrite Hf in Hn. apply NoDup_app in Hn as (Hn & Hd & _).
  assert (excl f (<[t := k']> ts) bm) as (F1 & F2 & F3).
  { apply (excl_keep _ _ _ t k); [by split_and! | done |]. rewrite Hf. by apply sublist_inserts_r. }
  split_and!; [|exact F2 | exact F3]. intros t1 k1 x H1 H2. apply elem_of_difference. split; [eauto |].
  intros ->%elem_of_singleton. lk H1; [apply (Hd s H2); set_solver |].
  by rewrite (E2 t t1 k k1 s) in *.
Qed.

Section transport.
Context {W : Type} `{GpaAllocator W} (kvm_vm_fd slot_size shm_size : Z).

(** A slot taken and filled, or what the task does without. *)
Definition take_slot (data : list Z) (p : pc) (otherwise : task) (k : task) (g : guest) (m : bytes) : task * guest * bytes :=
  match nvkvm_slot_alloc (g_slots g) with
  | Some (s, bm) => (Task (k_call k) p (k_slots k ++ [s]) (k_txn k), set_bitmaps (g_seed g) (g_txns g) bm g,
                     write_bytes m (s * slot_size) data)
  | None => (otherwise, g, m)
  end.

(** A failed allocation: the id is given back, or lost. *)
Definition drop_txn (free : bool) (k : task) (g : guest) : task * guest :=
  (Task (k_call k) (P_free (Out (- ENOMEM) [] [])) (k_slots k) 0,
   if free then set_bitmaps (g_seed g) (nvkvm_txn_id_free (k_txn k) (g_txns g)) (g_slots g) g else g).

Definition too_large (i : inner) : bool := match i with In_must d => slot_size <? lenb d | _ => false end.

(** The end of a call: the ioctl's slots, the transaction id, the caller's slots. *)
Definition pop_slot (o : outcome) (k : task) (g : guest) : task * guest :=
  match last (k_slots k) with
  | Some s => (Task (k_call k) (k_pc k) (take (length (k_slots k) - 1) (k_slots k)) (k_txn k),
               if s =? 0 then g else set_bitmaps (g_seed g) (g_txns g) (nvkvm_slot_free s (g_slots g)) g)
  | None => (set_pc (P_end o) k, g)
  end.

Definition release (o : outcome) (k : task) (g : guest) : task * guest :=
  if (length (c_outer (k_call k)) <? length (k_slots k))%nat || (k_txn k =? 0) then pop_slot o k g
  else (Task (k_call k) (k_pc k) (k_slots k) 0, set_bitmaps (g_seed g) (nvkvm_txn_id_free (k_txn k) (g_txns g)) (g_slots g) g).

(** The steps that touch neither the queue nor another task; [ok]: whether the
    allocation of the step succeeds. *)
Definition advance (ok : bool) (k : task) (g : guest) (m : bytes) : option (task * guest * bytes) :=
  match k_pc k with
  | P_outer (d :: rest) => Some (take_slot d (P_outer rest) (fail (c_noslot (k_call k)) k) k g m)
  | P_outer [] => Some (set_pc P_seed k, g, m)
  | P_seed => let seed := u32 (g_seed g + 1) in Some (set_pc (P_txn seed 0) k, set_bitmaps seed (g_txns g) (g_slots g) g, m)
  | P_txn seed tries =>
      if tries <? NVKVM_MAX_INFLIGHT then
        let bit := txn_bit seed tries in
        if (bit =? 0) || bool_decide (bit ∈ g_txns g) then Some (set_pc (P_txn seed (tries + 1)) k, g, m)
        else Some (Task (k_call k) P_buf (k_slots k) (txn_id seed bit), set_bitmaps (g_seed g) ({[bit]} ∪ g_txns g) (g_slots g) g, m)
      else Some (fail EBUSY k, g, m)
  | P_buf => Some (if ok then (set_pc P_inf k, g, m) else (drop_txn (c_free_buf (k_call k)) k g, m))
  | P_inf =>
      Some (if ok then
              (if existsb too_large (c_inner (k_call k)) then fail EINVAL k else set_pc (P_inner (c_inner (k_call k))) k, g, m)
            else (drop_txn (c_free_inf (k_call k)) k g, m))
  | P_inner (In_skip :: rest) => Some (Task (k_call k) (P_inner rest) (k_slots k ++ [0]) (k_txn k), g, m)
  | P_inner (In_must d :: rest) => Some (take_slot d (P_inner rest) (fail ENOSPC k) k g m)
  | P_inner (In_may d :: rest) =>
      Some (take_slot d (P_inner rest) (Task (k_call k) (P_inner rest) (k_slots k ++ [0]) (k_txn k)) k g m)
  | P_inner [] => Some (if ok then (set_pc P_post k, g, m) else (fail ENOMEM k, g, m))
  | P_free o => Some (release o k g, m)
  | P_post | P_wait _ _ _ _ | P_end _ => None
  end.

(** ** The guest and the device together *)

Abbreviation queue := (queue (W := W)).

Definition shm_of (u : queue) : bytes := t_shm (u_dev u).
Definition with_shm (m : bytes) (u : queue) : queue := Queue (set_shm m (u_dev u)) (u_avail u) (u_pool u) (u_used u).

Definition element_of (k : task) : list Z := message (k_txn k) (c_mk (k_call k) (k_slots k)).

(** What the call hands to its caller. *)
Definition finish (k : task) (f : inflight) (m : bytes) : outcome :=
  let r := result (c_mk (k_call k) (k_slots k)) f in
  Out (fst r) (snd r) (zip_with (fun s n => read_bytes m (s * slot_size) n) (k_slots k) (c_back (k_call k))).

(** Posting the element: its record becomes the cookie. *)
Definition post (t e : nat) (k : task) (g : guest) (u : queue) : guest * queue :=
  (Guest (g_seed g) (g_txns g) (g_slots g)
     (<[t := set_pc (P_wait e (set_isolate (c_isolate (k_call k)) (inflight_alloc_legacy (k_txn k))) false None) k]> (g_tasks g))
     (<[e := t]> (g_cookie g)) (g_last g) (g_dangling g),
   Queue (u_dev u) (u_avail u ++ [(e, element_of k)]) (u_pool u) (u_used u)).

(** [nvkvm_tx_done_callback] on the next returned element. *)
Definition tx_done_one (e : nat) (bs : list Z) (t : nat) (g : guest) : guest :=
  let g' tasks dangling := Guest (g_seed g) (g_txns g) (g_slots g) tasks (delete e (g_cookie g)) (S (g_last g)) dangling in
  match g_tasks g !! t with
  | Some (Task c (P_wait e' f false i) ss txn) =>
      if decide (e' = e) then g' (<[t := Task c (P_wait e (nvkvm_tx_done (resp_buf bs) f) true i) ss txn]> (g_tasks g)) (g_dangling g)
      else g' (g_tasks g) true
  | _ => g' (g_tasks g) true
  end.

(** The request to interrupt a call, made by the signalled task itself. *)
Definition interrupt_call (k : task) : call := plain_call (Q_interrupt_isolate (c_isolate (k_call k)) (k_txn k)) false false.

Definition ended (t : nat) (g : guest) : bool :=
  match g_tasks g !! t with Some (Task _ (P_end _) _ _) => true | _ => false end.

(** Calls the interface makes: the fields of the request have their width, and the slots
    it is answered in are its own.  The data its callers put into slots of their own
    fits, as they check; the list of VMAs of an ioctl is not checked, but has at most
    [NVKVM_MAX_VMA_ENTRIES]. *)
Record valid_call (c : call) : Prop := {
  vc_fields : forall ss, Forall (fun s => 0 <= s < NVKVM_SHM_NSLOTS) ss -> fields_ok (c_mk c ss);
  vc_names : forall ss txn s, Forall (fun s => 0 <= s < NVKVM_SHM_NSLOTS) ss -> names (message txn (c_mk c ss)) s -> s <> 0 -> s ∈ ss;
  vc_isolate : 0 <= c_isolate c < 2 ^ 32;
  vc_outer : Forall (fun d => lenb d <= slot_size) (c_outer c);
  vc_inner : Forall (fun i => match i with In_may d => lenb d <= 24 * NVKVM_MAX_VMA_ENTRIES | _ => True end) (c_inner c)
}.

Inductive actor := A_task (t : nat) | A_callback | A_device.

Inductive step : actor -> guest * queue -> guest * queue -> Prop :=
| st_start g u t c :
    g_tasks g !! t = None -> valid_call c ->
    step (A_task t) (g, u) (set_task t (Task c (P_outer (c_outer c)) [] 0) g, u)
| st_local g u t k ok k' g' m :
    g_tasks g !! t = Some k -> advance ok k g (shm_of u) = Some (k', g', m) ->
    step (A_task t) (g, u) (set_task t k' g', with_shm m u)
| st_post g u t k e :
    g_tasks g !! t = Some k -> k_pc k = P_post -> e ∉ elements u ->
    step (A_task t) (g, u) (post t e k g u)
| st_full g u t k err :
    g_tasks g !! t = Some k -> k_pc k = P_post -> 0 < err -> step (A_task t) (g, u) (set_task t (fail err k) g, u)
| st_callback g u e len bs t :
    u_used u !! g_last g = Some (e, (len, bs)) -> g_cookie g !! e = Some t ->
    step A_callback (g, u) (tx_done_one e bs t g, u)
| st_signal g u t k e f t' :
    g_tasks g !! t = Some k -> k_pc k = P_wait e f false None -> f_isolate_id f <> 0 -> g_tasks g !! t' = None ->
    step (A_task t) (g, u)
      (set_task t' (Task (interrupt_call k) (P_outer []) [] 0) (set_task t (set_pc (P_wait e f false (Some t')) k) g), u)
| st_wake g u t k e f i :
    g_tasks g !! t = Some k -> k_pc k = P_wait e f true i -> match i with Some t' => ended t' g = true | None => True end ->
    step (A_task t) (g, u)
      (set_task t (set_pc (P_free (match i with None => finish k f (shm_of u) | Some _ => Out (- ERESTARTSYS) [] [] end)) k) g, u)
| st_device g u u' : dstep kvm_vm_fd slot_size shm_size u u' -> step A_device (g, u) (g, u').

Inductive reach : guest * queue -> Prop :=
| re_init w graphics abi m : gpa_owns w [] -> reach (nvkvm_virtio_init, q_init w graphics abi m)
| re_step a x y : reach x -> step a x y -> reach y.

(** ** What a task holds *)

Definition held_txn (k : task) : list Z := if k_txn k =? 0 then [] else [Z.land (k_txn k) 0xFFF].
Definition held_slots (k : task) : list Z := filter (fun s => s <> 0) (k_slots k).

Lemma next_zero_spec n i bm s : next_zero n i bm = Some s -> i <= s < i + Z.of_nat n /\ s ∉ bm.
Proof.
  revert i. induction n as [|n IH]; intros i; [done |]. cbn [next_zero]. destruct (decide (i ∈ bm)).
  - intros [? ?]%IH. split; [lia | done].
  - intros [= <-]. split; [lia | done].
Qed.

Lemma slot_alloc_spec bm s bm' : nvkvm_slot_alloc bm = Some (s, bm') -> 1 <= s < NVKVM_SHM_NSLOTS /\ (s ∉ bm) /\ bm' = {[s]} ∪ bm.
Proof.
  unfold nvkvm_slot_alloc. destruct (next_zero 255 1 bm) as [x|] eqn:E; [|done]. intros [= <- <-].
  apply next_zero_spec in E. unfold NVKVM_SHM_NSLOTS. split_and!; [lia | lia | apply E | done].
Qed.

Lemma txn_id_spec seed bit :
  0 < bit < NVKVM_MAX_INFLIGHT -> 0 < txn_id seed bit < 2 ^ 32 /\ Z.land (txn_id seed bit) 0xFFF = bit.
Proof.
  unfold NVKVM_MAX_INFLIGHT. intros Hb. unfold txn_id, NVKVM_MAX_INFLIGHT. change 0xFFF with (2 ^ 12 - 1). change 0xFFFFF with (2 ^ 20 - 1).
  rewrite !land_pow2_minus_1 by lia. set (ep := (seed / 4096) mod 2 ^ 20). assert (0 <= ep < 2 ^ 20) by (apply Z.mod_pos_bound; lia).
  rewrite u32_small by (rewrite Z.shiftl_mul_pow2; lia). rewrite lor_shiftl_low by lia. rewrite (Z.mod_small bit) by lia.
  split; [lia |]. rewrite Z.add_comm, Z.mod_add by lia. apply Z.mod_small. lia.
Qed.

Definition txn_ok (x : Z) : Prop := 0 < x < 2 ^ 32 /\ Z.land x 0xFFF <> 0.
Definition fits (i : inner) : Prop := match i with In_must d => lenb d <= slot_size | In_may d => lenb d <= 24 * NVKVM_MAX_VMA_ENTRIES | In_skip => True end.

(** How much one copy into a slot can write. *)
Definition longest : Z := Z.max slot_size (24 * NVKVM_MAX_VMA_ENTRIES).

Record task_ok (k : task) : Prop := {
  to_call : valid_call (k_call k);
  to_slots : Forall (fun s => 0 <= s < NVKVM_SHM_NSLOTS) (k_slots k);
  to_txn : k_txn k = 0 \/ txn_ok (k_txn k);
  to_pc : match k_pc k with
          | P_outer rest => k_txn k = 0 /\ Forall (fun d => lenb d <= slot_size) rest
          | P_seed | P_txn _ _ => k_txn k = 0
          | P_buf | P_inf | P_post => k_txn k <> 0
          | P_inner rest => k_txn k <> 0 /\ Forall fits rest
          | P_wait _ f _ _ => k_txn k <> 0 /\ f_txn_id f = k_txn k
          | P_free _ | P_end _ => True
          end
}.

Definition waiting (k : task) : Prop := match k_pc k with P_wait _ _ _ _ => True | _ => False end.

(** What a local step leaves alone, and the one slot it may write. *)
Record local_ok (t : nat) (k k' : task) (g g' : guest) (m m' : bytes) : Prop := {
  lo_txns : excl held_txn (<[t := k']> (g_tasks g)) (g_txns g');
  lo_slots : excl held_slots (<[t := k']> (g_tasks g)) (g_slots g');
  lo_task : task_ok k';
  lo_wait : ~ waiting k';
  lo_same : g_tasks g' = g_tasks g /\ g_cookie g' = g_cookie g /\ g_last g' = g_last g /\ g_dangling g' = g_dangling g;
  lo_shm : m' = m \/ exists s d, (s ∉ g_slots g) /\ 1 <= s < NVKVM_SHM_NSLOTS /\ lenb d <= longest /\ m' = write_bytes m (s * slot_size) d
}.

Section local.
Context (t : nat) (k : task) (g : guest) (m : bytes).
Hypothesis (Hk : g_tasks g !! t = Some k) (Ht : excl held_txn (g_tasks g) (g_txns g))
  (Hs : excl held_slots (g_tasks g) (g_slots g)) (Hok : task_ok k).

(** A step that changes no bitmap. *)
Lemma local_keep k' :
  held_txn k' `sublist_of` held_txn k -> held_slots k' `sublist_of` held_slots k -> task_ok k' -> ~ waiting k' ->
  local_ok t k k' g g m m.
Proof. intros H1 H2 H3 H4. split; [by eapply excl_keep | by eapply excl_keep | done | done | done | by left]. Qed.

Lemma held_slots_app ss s c p x : s <> 0 -> held_slots (Task c p (ss ++ [s]) x) = held_slots (Task c p ss x) ++ [s].
Proof. intros Hz. unfold held_slots. cbn [k_slots]. by rewrite filter_app, (filter_cons_True _ s []) by done. Qed.

Lemma held_slots_app0 ss c p x : held_slots (Task c p (ss ++ [0]) x) = held_slots (Task c p ss x).
Proof. unfold held_slots. cbn [k_slots]. rewrite filter_app, (filter_cons_False _ 0 []) by lia. apply app_nil_r. Qed.

Lemma local_take d p k0 k' g' m' :
  lenb d <= longest -> task_ok (set_pc p k) -> ~ waiting (set_pc p k) -> local_ok t k k0 g g m m ->
  take_slot d p k0 k g m = (k', g', m') -> local_ok t k k' g g' m m'.
Proof.
  intros Hd Hp Hw H0. unfold take_slot. destruct (nvkvm_slot_alloc _) as [[s bm]|] eqn:E; [|by intros [= <- <- <-]].
  apply slot_alloc_spec in E as (Hr & Hn & ->). intros [= <- <- <-]. split.
  - eapply excl_keep; [done | done |]. reflexivity.
  - cbn [set_bitmaps g_slots]. eapply excl_take; [done | done | done |]. rewrite held_slots_app by lia. done.
  - destruct Hp as [P1 P2 P3 P4]. split; [done | | done | done]. cbn. apply Forall_app. split; [done |].
    constructor; [unfold NVKVM_SHM_NSLOTS in *; lia | done].
  - done.
  - done.
  - right. exists s, d. exact (conj Hn (conj Hr (conj Hd eq_refl))).
Qed.

Lemma held_txn_bit : txn_ok (k_txn k) -> held_txn k = [Z.land (k_txn k) 0xFFF].
Proof. intros [? ?]. unfold held_txn. by destruct (Z.eqb_spec (k_txn k) 0); [lia |]. Qed.

Lemma give_txn c p ss :
  let bm := nvkvm_txn_id_free (k_txn k) (g_txns g) in
  excl held_txn (<[t := Task c p ss 0]> (g_tasks g)) bm.
Proof.
  cbv zeta. unfold nvkvm_txn_id_free. destruct (to_txn _ Hok) as [Hz|Hz].
  - rewrite Hz. cbn. apply (excl_keep _ _ _ t k); [done | done |]. apply sublist_nil_l.
  - destruct (Z.eqb_spec (Z.land (k_txn k) 0xFFF) 0); [by destruct Hz |].
    eapply excl_give; [done | done |]. by rewrite held_txn_bit.
Qed.

Lemma local_drop free k' g' :
  drop_txn free k g = (k', g') -> local_ok t k k' g g' m m.
Proof.
  intros [= <- <-]. pose proof (give_txn (k_call k) (P_free (Out (- ENOMEM) [] [])) (k_slots k)) as Hg. destruct Hok as [C1 C2 C3 C4].
  assert (excl held_slots (<[t := Task (k_call k) (P_free (Out (- ENOMEM) [] [])) (k_slots k) 0]> (g_tasks g)) (g_slots g)) as Hsl
    by (eapply excl_keep; [done | done |]; reflexivity).
  destruct free; (split; [| exact Hsl | by split; [done | done | left | done] | by intros [] | done | by left]); [exact Hg |].
  apply (excl_keep _ _ _ t k); [done | done |]. apply sublist_nil_l.
Qed.

Lemma local_pop o k' g' :
  k_pc k = P_free o -> pop_slot o k g = (k', g') -> local_ok t k k' g g' m m.
Proof.
  intros Hp. unfold pop_slot. destruct Hok as [C1 C2 C3 C4]. destruct (last (k_slots k)) as [s|] eqn:El; intros [= <- <-].
  - apply last_Some in El as [ss El]. rewrite El, length_app. cbn [length].
    replace (length ss + 1 - 1)%nat with (length ss) by lia. rewrite take_app_length. rewrite El in C2. apply Forall_app in C2 as [C2 _].
    assert (task_ok (Task (k_call k) (k_pc k) ss (k_txn k))) as Hk' by (split; cbn; [done | done | done | by rewrite Hp]).
    assert (~ waiting (Task (k_call k) (k_pc k) ss (k_txn k))) as Hw by (unfold waiting; cbn; rewrite Hp; by intros []).
    destruct (Z.eqb_spec s 0) as [->|Hz].
    + apply local_keep; try done. unfold held_slots. rewrite El, filter_app. by apply sublist_inserts_r.
    + split; [| | done | done | done | by left]; cbn.
      * by apply (excl_keep _ _ _ t k).
      * eapply excl_give; [done | done |]. unfold held_slots. rewrite El, filter_app. cbn [k_slots]. by rewrite (filter_cons_True _ s []).
  - apply local_keep; [reflexivity | reflexivity | by split | by intros []].
Qed.

Lemma local_release o k' g' : k_pc k = P_free o -> release o k g = (k', g') -> local_ok t k k' g g' m m.
Proof.
  intros Hp. unfold release. destruct (_ || _) eqn:E; [by apply local_pop |]. intros [= <- <-]. destruct Hok as [C1 C2 C3 C4].
  split; [apply give_txn | | | unfold waiting; cbn; rewrite Hp; by intros [] | done | by left].
  - by apply (excl_keep _ _ _ t k).
  - split; cbn; [done | done | by left | by rewrite Hp].
Qed.

#[local] Ltac keep := apply local_keep; [reflexivity | reflexivity | | by intros []].

Lemma local_fail e : local_ok t k (fail e k) g g m m.
Proof. destruct Hok as [C1 C2 C3 C4]. keep. by split. Qed.

Lemma local_zero rest :
  k_txn k <> 0 -> Forall fits rest -> local_ok t k (Task (k_call k) (P_inner rest) (k_slots k ++ [0]) (k_txn k)) g g m m.
Proof.
  intros H1 H2. destruct Hok as [C1 C2 C3 C4]. apply local_keep; [reflexivity | by rewrite held_slots_app0 | | by intros []].
  split; [done | | done | done]. cbn. apply Forall_app. split; [done |]. by repeat constructor.
Qed.

Lemma inner_fits : existsb too_large (c_inner (k_call k)) = false -> Forall fits (c_inner (k_call k)).
Proof.
  intros He. pose proof (vc_inner _ (to_call _ Hok)) as Hv. rewrite Forall_forall in Hv. apply Forall_forall. intros i Hi.
  specialize (Hv i Hi). destruct i as [|d|d]; [done | | done]. cbn.
  destruct (Z.le_gt_cases (lenb d) slot_size) as [|Hgt]; [done | exfalso].
  assert (existsb too_large (c_inner (k_call k)) = true) as Hx; [|by rewrite Hx in He].
  apply existsb_exists. exists (In_must d). split; [by apply list_elem_of_In |]. apply Z.ltb_lt. lia.
Qed.

Lemma local_txn ok seed tries k' g' m' :
  k_txn k = 0 -> k_pc k = P_txn seed tries -> advance ok k g m = Some (k', g', m') -> local_ok t k k' g g' m m'.
Proof.
  intros Hz Hp. unfold advance. rewrite Hp. destruct (Z.ltb_spec tries NVKVM_MAX_INFLIGHT); [|intros [= <- <- <-]; apply local_fail].
  destruct (_ || _) eqn:E; intros [= <- <- <-]; destruct Hok as [C1 C2 C3 C4].
  - keep. split; cbn; [done | done | done | done].
  - nv_bool. apply bool_decide_eq_false in H2.
    assert (0 < txn_bit seed tries < NVKVM_MAX_INFLIGHT) as Hb.
    { pose proof (Z.mod_pos_bound (u32 (seed + tries)) NVKVM_MAX_INFLIGHT ltac:(done)) as Hm. unfold txn_bit in *. lia. }
    destruct (txn_id_spec seed _ Hb) as [Hr Hl].
    split; [| | | by intros [] | done | by left].
    + cbn. eapply excl_take; [done | done | done |]. unfold held_txn. cbn [k_txn]. rewrite Hz, Hl. cbn.
      by destruct (Z.eqb_spec (txn_id seed (txn_bit seed tries)) 0); [lia |].
    + by apply (excl_keep _ _ _ t k).
    + split; cbn; [done | done | right | lia]. split; [done |]. rewrite Hl. lia.
Qed.

Lemma local_advance ok k' g' m' : advance ok k g m = Some (k', g', m') -> local_ok t k k' g g' m m'.
Proof.
  pose proof (to_pc _ Hok) as C4. destruct (k_pc k) as [[|d rest]| |seed tries| | |[|[|d|d] rest]| |e f dn i|o|o] eqn:Ep;
    [ | | | by apply (local_txn ok seed tries) | ..].
  all: unfold advance; rewrite Ep; pose proof Hok as [C1 C2 C3 _].
  - intros [= <- <- <-]. keep. by split; try apply C4.
  - intros [= E]. destruct C4 as [Hz [Hd Hr]%Forall_cons]. revert E. apply local_take; [unfold longest; cbn [fits] in Hd; lia | split; [done | done | done | by split] | by intros [] | apply local_fail].
  - intros [= <- <- <-]. split; [by apply (excl_keep _ _ _ t k) | by apply (excl_keep _ _ _ t k) | by split | by intros [] | done | by left].
  - destruct ok; cbv iota; [intros [= <- <- <-]; keep; by split |].
    destruct (drop_txn _ _ _) as [k1 g1] eqn:Ed. intros [= <- <- <-]. by apply local_drop in Ed.
  - destruct ok; cbv iota.
    + destruct (existsb _ _) eqn:Ex; intros [= <- <- <-]; [apply local_fail |]. keep.
      split; [done | done | done |]. cbn. split; [done | by apply inner_fits].
    + destruct (drop_txn _ _ _) as [k1 g1] eqn:Ed. intros [= <- <- <-]. by apply local_drop in Ed.
  - destruct ok; cbv iota; intros [= <- <- <-]; [keep; by split; try apply C4 | apply local_fail].
  - intros [= <- <- <-]. destruct C4 as [Hz [Hd Hr]%Forall_cons]. by apply local_zero.
  - intros [= E]. destruct C4 as [Hz [Hd Hr]%Forall_cons]. revert E. apply local_take; [unfold longest; cbn [fits] in Hd; lia | split; [done | done | done | by split] | by intros [] | apply local_fail].
  - intros [= E]. destruct C4 as [Hz [Hd Hr]%Forall_cons]. revert E. apply local_take; [unfold longest; cbn [fits] in Hd; lia | split; [done | done | done | by split] | by intros [] | by apply local_zero].
  - done.
  - done.
  - destruct (release _ _ _) as [k1 g1] eqn:Er. intros [= <- <- <-]. by eapply local_release.
  - done.
Qed.
End local.

(** ** Elements and their owners *)

Record wait_inv (l : list (nat * list Z)) (ts : gmap nat task) (cookie : gmap nat nat) (seen : list nat) : Prop := {
  w_posted : forall t k e f d i, ts !! t = Some k -> k_pc k = P_wait e f d i -> (e, element_of k) ∈ l;
  w_cookie : forall e t, cookie !! e = Some t <-> exists k f i, ts !! t = Some k /\ k_pc k = P_wait e f false i;
  w_owned : forall e, e ∈ l.*1 -> (e ∈ seen) \/ is_Some (cookie !! e);
  w_seen : forall e, e ∈ seen -> (e ∈ l.*1) /\ cookie !! e = None
}.

(** A task that does not wait becomes one that does not wait. *)
Lemma wait_keep l ts cookie seen t k' :
  wait_inv l ts cookie seen -> match ts !! t with Some k => ~ waiting k | None => True end -> ~ waiting k' ->
  wait_inv l (<[t := k']> ts) cookie seen.
Proof.
  intros [P C O S] Hk Hk'. split; [| |done | done].
  - intros t1 k1 e f d i H1 H2. lk H1; [|eauto]. destruct Hk'. unfold waiting. by rewrite H2.
  - intros e t1. rewrite C. split; intros (k & f & i & H1 & H2); exists k, f, i; (split; [|done]).
    + rewrite lookup_insert_ne; [done |]. intros <-. rewrite H1 in Hk. destruct Hk. unfold waiting. by rewrite H2.
    + lk H1; [|done]. destruct Hk'. unfold waiting. by rewrite H2.
Qed.

(** A waiting task keeps waiting for the same element. *)
Lemma wait_same l ts cookie seen t k k' e f f' d i i' :
  wait_inv l ts cookie seen -> ts !! t = Some k -> k_pc k = P_wait e f d i ->
  k_pc k' = P_wait e f' d i' -> element_of k' = element_of k ->
  wait_inv l (<[t := k']> ts) cookie seen.
Proof.
  intros [P C O S] Hk Hp Hp' He. split; [| |done | done].
  - intros t1 k1 e1 f1 d1 i1 H1 H2. lk H1; [|eauto]. rewrite Hp' in H2. injection H2 as <- _ _ _. rewrite He. eauto.
  - intros e1 t1. rewrite C. split; intros (k1 & f1 & i1 & H1 & H2).
    + destruct (decide (t1 = t)) as [->|].
      * rewrite Hk in H1. injection H1 as <-. rewrite Hp in H2. injection H2 as <- _ -> _. exists k', f', i'. by rewrite lookup_insert_eq.
      * exists k1, f1, i1. by rewrite lookup_insert_ne.
    + lk H1; [|eauto]. rewrite Hp' in H2. injection H2 as <- _ -> _. eauto.
Qed.

(** A task whose answer has come stops waiting. *)
Lemma wait_gone l ts cookie seen t k k' e f i :
  wait_inv l ts cookie seen -> ts !! t = Some k -> k_pc k = P_wait e f true i -> ~ waiting k' ->
  wait_inv l (<[t := k']> ts) cookie seen.
Proof.
  intros [P C O S] Hk Hp Hk'. split; [| |done | done].
  - intros t1 k1 e1 f1 d1 i1 H1 H2. lk H1; [|eauto]. destruct Hk'. unfold waiting. by rewrite H2.
  - intros e1 t1. rewrite C. split; intros (k1 & f1 & i1 & H1 & H2); exists k1, f1, i1; (split; [|done]).
    + rewrite lookup_insert_ne; [done |]. intros <-. rewrite Hk in H1. injection H1 as <-. by rewrite Hp in H2.
    + lk H1; [|done]. destruct Hk'. unfold waiting. by rewrite H2.
Qed.

Lemma wait_done l ts cookie seen t k k' e f f' i i' :
  wait_inv l ts cookie seen -> ts !! t = Some k -> k_pc k = P_wait e f false i ->
  k_pc k' = P_wait e f' true i' -> element_of k' = element_of k ->
  wait_inv l (<[t := k']> ts) (delete e cookie) (seen ++ [e]).
Proof.
  intros [P C O S] Hk Hp Hp' He. assert (cookie !! e = Some t) as Hc by (apply C; eauto). split.
  - intros t1 k1 e1 f1 d1 i1 H1 H2. lk H1; [|eauto]. rewrite Hp' in H2. injection H2 as <- _ _ _. rewrite He. eauto.
  - intros e1 t1. rewrite lookup_delete_Some, C. split.
    + intros [Hne (k1 & f1 & i1 & H1 & H2)]. exists k1, f1, i1. split; [|done]. rewrite lookup_insert_ne; [done |]. intros <-.
      rewrite Hk in H1. injection H1 as <-. rewrite Hp in H2. by injection H2 as <-.
    + intros (k1 & f1 & i1 & H1 & H2). lk H1; [by rewrite Hp' in H2 |]. split; [|eauto]. intros <-.
      assert (cookie !! e = Some t1) as Hc' by (apply C; eauto). congruence.
  - intros e1 [H1|H1]%O; [left; set_solver |]. destruct (decide (e1 = e)) as [->|]; [left; set_solver |].
    right. by rewrite lookup_delete_ne.
  - intros e1 [[H1 H2]%S| ->%list_elem_of_singleton]%elem_of_app.
    + split; [done |]. destruct (decide (e1 = e)) as [->|]; [apply lookup_delete_eq | by rewrite lookup_delete_ne].
    + split; [|apply lookup_delete_eq]. apply list_elem_of_fmap. exists (e, element_of k). split; [done |]. eauto.
Qed.

Lemma wait_post l ts cookie seen t k k' e f i :
  wait_inv l ts cookie seen -> ts !! t = Some k -> ~ waiting k -> e ∉ l.*1 ->
  k_pc k' = P_wait e f false i ->
  wait_inv (l ++ [(e, element_of k')]) (<[t := k']> ts) (<[e := t]> cookie) seen.
Proof.
  intros [P C O S] Hk Hw He Hp.
  assert (forall t1 k1 f1 d1 i1, ts !! t1 = Some k1 -> k_pc k1 = P_wait e f1 d1 i1 -> False) as Hno.
  { intros t1 k1 f1 d1 i1 H1 H2. apply He, list_elem_of_fmap. exists (e, element_of k1). split; [done |]. eauto. }
  split.
  - intros t1 k1 e1 f1 d1 i1 H1 H2. lk H1; [rewrite Hp in H2; injection H2 as <- _ _ _; set_solver |].
    apply elem_of_app. left. eauto.
  - intros e1 t1. rewrite lookup_insert_Some, C. split.
    + intros [[<- <-]|[Hne (k1 & f1 & i1 & H1 & H2)]]; [exists k', f, i; by rewrite lookup_insert_eq |].
      exists k1, f1, i1. split; [|done]. rewrite lookup_insert_ne; [done |]. intros <-. rewrite Hk in H1. injection H1 as <-.
      destruct Hw. unfold waiting. by rewrite H2.
    + intros (k1 & f1 & i1 & H1 & H2). lk H1; [rewrite Hp in H2; injection H2 as <- _ _; by left |]. right. split; [|eauto].
      intros <-. eauto.
  - intros e1. rewrite fmap_app. intros [H1|H1]%elem_of_app.
    + destruct (O _ H1) as [|Hc]; [by left | right]. apply lookup_insert_is_Some'. by right.
    + right. apply list_elem_of_singleton in H1 as ->. cbn. rewrite lookup_insert_eq. done.
  - intros e1 H1. destruct (S _ H1) as [H2 H3]. split; [rewrite fmap_app; set_solver |].
    rewrite lookup_insert_ne; [done |]. intros <-. done.
Qed.

(** ** The invariant of the two together *)

Record inv (l : list (nat * list Z)) (g : guest) (u : queue) : Prop := {
  v_q : qreach kvm_vm_fd slot_size shm_size l u;
  v_txns : excl held_txn (g_tasks g) (g_txns g);
  v_slots : excl held_slots (g_tasks g) (g_slots g);
  v_tasks : forall t k, g_tasks g !! t = Some k -> task_ok k;
  v_wait : wait_inv l (g_tasks g) (g_cookie g) (take (g_last g) (u_used u)).*1;
  v_last : (g_last g <= length (u_used u))%nat;
  v_dangling : g_dangling g = false
}.

Lemma qreach_shm l u m : qreach kvm_vm_fd slot_size shm_size l u -> qreach kvm_vm_fd slot_size shm_size l (with_shm m u).
Proof. intros Hq. pose proof (qr_guest _ _ _ _ _ _ _ Hq (gs_write u m)) as Hr. cbn in Hr. by rewrite app_nil_r in Hr. Qed.

Lemma dstep_used u u' : dstep kvm_vm_fd slot_size shm_size u u' -> exists x, u_used u' = u_used u ++ x.
Proof.
  intros Hs. destruct Hs; cbn [u_used set_item]; try (by exists []; rewrite app_nil_r); [|by eexists].
  unfold tx_one. repeat case_match; cbn [u_used push refuse_elem pool_add]; try (by eexists); by exists []; rewrite app_nil_r.
Qed.

Lemma octets_words l : octets (StubWire.words l).
Proof.
  unfold StubWire.words. induction l as [|x l IH]; [constructor |]. cbn [mbind list_bind]. apply Forall_app. split; [|exact IH].
  apply Forall_fmap, Forall_forall. intros i _. cbn. apply Z.mod_pos_bound. lia.
Qed.

Lemma inv_tasks t k (ts : gmap nat task) : (forall t k, ts !! t = Some k -> task_ok k) -> task_ok k -> forall t' k', <[t := k]> ts !! t' = Some k' -> task_ok k'.
Proof. intros H1 H2 t' k' H3. lk H3; eauto. Qed.

(** A task that does not wait changes to another such task, no bitmap changes. *)
Lemma inv_quiet l g u t k' :
  inv l g u -> match g_tasks g !! t with Some k => held_txn k' `sublist_of` held_txn k /\ held_slots k' `sublist_of` held_slots k
               | None => held_txn k' = [] /\ held_slots k' = [] end ->
  task_ok k' -> wait_inv l (<[t := k']> (g_tasks g)) (g_cookie g) (take (g_last g) (u_used u)).*1 ->
  inv l (set_task t k' g) u.
Proof.
  intros [Q T S K Wt L D] Hh Hk Hw. split; cbn; try done.
  - destruct (g_tasks g !! t) as [k|] eqn:E; destruct Hh; [by apply (excl_keep _ _ _ t k) | by apply excl_new].
  - destruct (g_tasks g !! t) as [k|] eqn:E; destruct Hh; [by apply (excl_keep _ _ _ t k) | by apply excl_new].
  - by apply inv_tasks.
Qed.

Lemma wait_pc_txn k e f d i : task_ok k -> k_pc k = P_wait e f d i -> k_txn k <> 0 /\ f_txn_id f = k_txn k.
Proof. intros Hk Hp. pose proof (to_pc _ Hk) as Hc. by rewrite Hp in Hc. Qed.

Lemma done_txn b f : f_txn_id (nvkvm_tx_done b f) = f_txn_id f.
Proof. unfold nvkvm_tx_done. by repeat case_match. Qed.

Lemma inv_callback l g u e len bs t :
  inv l g u -> u_used u !! g_last g = Some (e, (len, bs)) -> g_cookie g !! e = Some t -> inv l (tx_done_one e bs t g) u.
Proof.
  intros [Q T S K Wt L D] Hu Hc. apply (w_cookie _ _ _ _ Wt) in Hc as (k & f & i & Hk & Hp).
  pose proof (wait_pc_txn _ _ _ _ _ (K _ _ Hk) Hp) as [Hz Hf].
  unfold tx_done_one. rewrite Hk. destruct k as [c p ss x]. cbn in Hp, Hz, Hf. subst p. rewrite decide_True by done.
  split; cbn [g_tasks g_txns g_slots g_cookie g_last g_dangling]; try done.
  - by apply (excl_keep _ _ _ t _ _ T Hk).
  - by apply (excl_keep _ _ _ t _ _ S Hk).
  - apply inv_tasks; [done |]. destruct (K _ _ Hk) as [C1 C2 C3 C4]. split; try done. cbn. by rewrite done_txn.
  - rewrite (take_S_r _ _ _ Hu), fmap_app. cbn. by eapply wait_done.
  - apply lookup_lt_Some in Hu. lia.
Qed.

(** Requests the device does not answer in a slot. *)
Definition slotless (r : request) : bool :=
  negb ((req_type r =? NVKVM_REQ_IOCTL_ON_ISOLATE) || (req_type r =? NVKVM_REQ_REALIZE_UVM_MAPPING) ||
        (req_type r =? NVKVM_REQ_READ_MEMORY_HANDLE) || (req_type r =? NVKVM_REQ_READ_HOST_FILE)).

Lemma names_slotless txn r s : slotless r = true -> ~ names (message txn r) s.
Proof.
  unfold slotless, names. rewrite type_of_message. intros Hn.
  destruct (req_type r =? NVKVM_REQ_IOCTL_ON_ISOLATE); [done |]. destruct (req_type r =? NVKVM_REQ_REALIZE_UVM_MAPPING); [done |].
  destruct (req_type r =? NVKVM_REQ_READ_MEMORY_HANDLE); [done |]. destruct (req_type r =? NVKVM_REQ_READ_HOST_FILE); [done |]. by intros [].
Qed.

Lemma plain_valid r b1 b2 : fields_ok r -> slotless r = true -> valid_call (plain_call r b1 b2).
Proof.
  intros Hf Hs. split; try done.
  intros ss txn s _ Hn. by destruct (names_slotless txn r s Hs).
Qed.

Lemma interrupt_valid k : task_ok k -> k_txn k <> 0 -> valid_call (interrupt_call k).
Proof.
  intros Hk Hz. apply plain_valid; [|done]. destruct (to_txn _ Hk) as [|[? _]]; [done |]. pose proof (vc_isolate _ (to_call _ Hk)).
  repeat (constructor; [lia |]). constructor.
Qed.

Lemma not_waiting_local k g m ok x : advance ok k g m = Some x -> ~ waiting k.
Proof. unfold waiting, advance. intros Ha Hw. by destruct (k_pc k). Qed.

Lemma inv_post l g u t k e :
  inv l g u -> g_tasks g !! t = Some k -> k_pc k = P_post -> e ∉ elements u ->
  exists l', inv l' (post t e k g u).1 (post t e k g u).2.
Proof.
  intros [Q T S K Wt L D] Hk Hp He. exists (l ++ [(e, element_of k)]).
  pose proof (K _ _ Hk) as [C1 C2 C3 C4]. rewrite Hp in C4.
  split; cbn [post fst snd g_tasks g_txns g_slots g_cookie g_last g_dangling u_used]; try done.
  - apply (qr_guest _ _ _ _ (Some (e, element_of k)) u); [done |]. apply gs_post; [done | apply octets_words].
  - by apply (excl_keep _ _ _ t k).
  - by apply (excl_keep _ _ _ t k).
  - apply inv_tasks; [done |]. by split.
  - set (k' := set_pc (P_wait _ _ _ _) k). change (element_of k) with (element_of k').
    eapply (wait_post _ _ _ _ t k k'); [done | done | unfold waiting; rewrite Hp; by intros [] | | reflexivity].
    intros Hx. apply He. by rewrite (qi_elems _ _ _ _ (qreach_inv _ _ _ _ _ Q)).
Qed.

Lemma inv_step l a x y : inv l x.1 x.2 -> step a x y -> exists l', inv l' y.1 y.2.
Proof.
  intros I Hs. destruct Hs as [g u t c Hn Hc|g u t k ok k' g' m Hk Ha|g u t k e Hk Hp He|g u t k err Hk Hp Herr|g u e len bs t Hu Hc
    |g u t k e f t' Hk Hp Hf Hn|g u t k e f i Hk Hp Hi|g u u' Hd]; cbn [fst snd] in *; pose proof I as [Q T S K Wt L D].
  - exists l. apply inv_quiet; [done | by rewrite Hn | |].
    + split; [done | constructor | by left | split; [done | apply Hc]].
    + apply wait_keep; [done | by rewrite Hn | by intros []].
  - exists l. pose proof (local_advance t k g _ Hk T S (K _ _ Hk) _ _ _ _ Ha) as [O1 O2 O3 O4 (O5 & O6 & O7 & O8) O9].
    split; cbn; rewrite ?O5, ?O6, ?O7, ?O8; try done.
    + by apply qreach_shm.
    + by apply inv_tasks.
    + apply wait_keep; [done | | done]. rewrite Hk. by eapply not_waiting_local.
  - by apply (inv_post l).
  - exists l. destruct (K _ _ Hk) as [C1 C2 C3 C4]. apply inv_quiet; [done | by rewrite Hk | by split |].
    apply wait_keep; [done | rewrite Hk; unfold waiting; rewrite Hp; by intros [] | by intros []].
  - exists l. by eapply inv_callback.
  - exists l. destruct (wait_pc_txn _ _ _ _ _ (K _ _ Hk) Hp) as [Hz Hft]. pose proof (K _ _ Hk) as [C1 C2 C3 C4].
    assert (t <> t') as Hne by congruence.
    assert (inv l (set_task t (set_pc (P_wait e f false (Some t')) k) g) u) as I1.
    { apply inv_quiet; [done | by rewrite Hk | by split | by eapply wait_same]. }
    pose proof (v_wait _ _ _ I1) as W1.
    apply inv_quiet; [done | cbn; by rewrite lookup_insert_ne, Hn | |].
    + split; [by apply interrupt_valid | constructor | by left | by split].
    + apply wait_keep; [done | cbn; by rewrite lookup_insert_ne, Hn | by intros []].
  - exists l. pose proof (K _ _ Hk) as [C1 C2 C3 C4]. apply inv_quiet; [done | by rewrite Hk | by split |].
    apply (wait_gone _ _ _ _ t k _ e f i); [done | done | done | by intros []].
  - exists l. destruct (dstep_used _ _ Hd) as [x Hx]. split; try done.
    + by apply (qr_dev _ _ _ _ u).
    + rewrite Hx, take_app_le by done. done.
    + rewrite Hx, length_app. lia.
Qed.

Lemma transport_inv x : reach x -> exists l, inv l x.1 x.2.
Proof.
  induction 1 as [w gr abi m Hw|a x y _ [l IH] Hs]; [|by eapply inv_step].
  exists []. split; cbn; [by apply qr_init | apply excl_empty | apply excl_empty | done | | lia | done].
  split.
  - intros t k e f d i. by rewrite lookup_empty.
  - intros e t. rewrite lookup_empty. split; [done |]. intros (k & f & i & Hk & _). by rewrite lookup_empty in Hk.
  - by intros e Hx%elem_of_nil.
  - by intros e Hx%elem_of_nil.
Qed.

(** ** What holds of every run *)

Lemma known_type r : is_Some (resp_size (req_type r)).
Proof. destruct r as [| |? ? []| | | | | | | | | | | | | | | | |]; by eexists. Qed.

Lemma same_element (l : list (nat * list Z)) e a b : NoDup l.*1 -> (e, a) ∈ l -> (e, b) ∈ l -> a = b.
Proof.
  induction l as [|[e1 x] l IH]; cbn; [by intros _ Hx%elem_of_nil |]. intros [Hn Hd]%NoDup_cons Ha Hb.
  assert (forall y, (e1, y) ∈ l -> False) as Hno by (intros y Hy; apply Hn, list_elem_of_fmap; by exists (e1, y)).
  apply elem_of_cons in Ha as [Ha|Ha]; apply elem_of_cons in Hb as [Hb|Hb]; [congruence | | |by apply IH]; simplify_eq;
    by exfalso; eapply Hno.
Qed.

(** The answer to a task's element begins with the header the task sent. *)
Lemma answer_header l g u t k e f d i len bs :
  inv l g u -> g_tasks g !! t = Some k -> k_pc k = P_wait e f d i -> (e, (len, bs)) ∈ u_used u ->
  get32 (resp_buf bs) 0 = req_type (c_mk (k_call k) (k_slots k)) /\ get32 (resp_buf bs) 4 = k_txn k.
Proof.
  intros [Q T S K Wt L D] Hk Hp Hu. pose proof (qreach_inv _ _ _ _ _ Q) as [N _ _ _ U].
  destruct (U _ _ _ Hu) as (out & Hl & Ha). pose proof (w_posted _ _ _ _ Wt _ _ _ _ _ _ Hk Hp) as Hl'.
  rewrite (same_element _ _ _ _ N Hl Hl') in Ha. clear Hl Hl' Hu out. unfold element_of in Ha. set (r := c_mk _ _) in *.
  assert (length (message (k_txn k) r) >= 8)%nat as H8.
  { unfold message. rewrite StubWire.length_words, length_app. cbn [length]. lia. }
  destruct (wait_pc_txn _ _ _ _ _ (K _ _ Hk) Hp) as [Hz _]. destruct (to_txn _ (K _ _ Hk)) as [|[Hr _]]; [done |].
  destruct Ha as [(_ & _ & [Hs|Hs])|(_ & Hlen & Ht & _)].
  - unfold sizeof_hdr in Hs. lia.
  - rewrite type_of_message in Hs. destruct (known_type r) as [? Hx]. by rewrite Hx in Hs.
  - change (take 8 (message (k_txn k) r)) with (hdr_of (message (k_txn k) r)) in Ht. rewrite hdr_of_message in Ht.
    assert (resp_buf bs = write_bytes ∅ 0 (StubWire.words [req_type r; k_txn k] ++ drop 8 (take 512 bs))) as ->.
    { unfold resp_buf. rewrite <- Ht. change (Z.to_nat NVKVM_RESP_BUF_SIZE) with 512%nat.
      replace (take 8 bs) with (take 8 (take 512 bs)) by (by rewrite take_take). by rewrite take_drop. }
    split.
    + etransitivity; [exact (StubWire.get_word ∅ [req_type r; k_txn k] 0 _ _ eq_refl) |]. apply u32_small.
      destruct r as [| |? ? []| | | | | | | | | | | | | | | | |]; by vm_compute.
    + etransitivity; [exact (StubWire.get_word ∅ [req_type r; k_txn k] 1 _ _ eq_refl) |]. apply u32_small. lia.
Qed.

Lemma outstanding_owner l g u e :
  inv l g u -> e ∈ (u_avail u).*1 ++ (map_to_list (u_pool u)).*1 ++ (drop (g_last g) (u_used u)).*1 ->
  exists t k f i, g_cookie g !! e = Some t /\ g_tasks g !! t = Some k /\ k_pc k = P_wait e f false i.
Proof.
  intros [Q T S K Wt L D] He. pose proof (qreach_inv _ _ _ _ _ Q) as [N E _ _ _].
  assert (NoDup (elements u)) as Hn by (by rewrite E). unfold elements in Hn, E.
  assert (e ∈ l.*1) as Hl.
  { rewrite <- E, <- (take_drop (g_last g) (u_used u)), fmap_app. set_solver. }
  destruct (w_owned _ _ _ _ Wt e Hl) as [Hs|[t Ht]].
  - exfalso. rewrite <- (take_drop (g_last g) (u_used u)), fmap_app in Hn. apply NoDup_app in Hn as (_ & H1 & Hn).
    apply NoDup_app in Hn as (_ & H2 & Hn). apply NoDup_app in Hn as (_ & H3 & _). set_solver.
  - destruct (proj1 (w_cookie _ _ _ _ Wt e t) Ht) as (k & f & i & H1 & H2). by exists t, k, f, i.
Qed.

(** C28. [guest_transport_sound]: however the tasks, the signals and the device interleave,
    no completion ever writes to the record of a task that is not waiting for it;
    two calls in progress never share a slot of the shared region or a transaction
    id; every element the device still has, or has returned and the guest has not
    taken, belongs to a task that sleeps on it, so neither buffer is freed early;
    and the answer a task is woken with carries the type and the id it sent. *)
Theorem guest_transport_sound (g : guest) (u : queue) :
  reach (g, u) ->
  g_dangling g = false /\
  (forall t t' k k', g_tasks g !! t = Some k -> g_tasks g !! t' = Some k' -> t <> t' ->
     (forall s, s ∈ k_slots k -> s ∈ k_slots k' -> s = 0) /\ (k_txn k = k_txn k' -> k_txn k = 0)) /\
  (forall e, e ∈ (u_avail u).*1 ++ (map_to_list (u_pool u)).*1 ++ (drop (g_last g) (u_used u)).*1 ->
     exists t k f i, g_cookie g !! e = Some t /\ g_tasks g !! t = Some k /\ k_pc k = P_wait e f false i) /\
  (forall t k e f d i len bs, g_tasks g !! t = Some k -> k_pc k = P_wait e f d i -> (e, (len, bs)) ∈ u_used u ->
     get32 (resp_buf bs) 0 = req_type (c_mk (k_call k) (k_slots k)) /\ get32 (resp_buf bs) 4 = k_txn k).
Proof.
  intros [l I]%transport_inv. cbn [fst snd] in I. split; [apply I |]. split; [|split; [by intros; eapply outstanding_owner | by intros; eapply answer_header]].
  intros t t' k k' Hk Hk' Hne. split.
  - intros s Hs Hs'. destruct (Z.eq_dec s 0); [done | exfalso]. apply Hne.
    apply (proj1 (proj2 (v_slots _ _ _ I)) t t' k k' s); [done | done | by apply list_elem_of_filter | by apply list_elem_of_filter].
  - intros Heq. destruct (Z.eq_dec (k_txn k) 0) as [|Hz]; [done | exfalso]. apply Hne.
    apply (proj1 (proj2 (v_txns _ _ _ I)) t t' k k' (Z.land (k_txn k) 0xFFF)); [done | done | |]; unfold held_txn; rewrite <- ?Heq;
      (destruct (Z.eqb_spec (k_txn k) 0); [done | by apply list_elem_of_singleton]).
Qed.

Lemma excl_slot l g u t t' k k' s :
  inv l g u -> g_tasks g !! t = Some k -> g_tasks g !! t' = Some k' -> s <> 0 -> s ∈ k_slots k -> s ∈ k_slots k' -> t = t'.
Proof.
  intros I Hk Hk' Hz Hs Hs'. apply (proj1 (proj2 (v_slots _ _ _ I)) t t' k k' s); try done; by apply list_elem_of_filter.
Qed.

Lemma local_confined l g u t t' k k1 k' s i ok g' m :
  inv l g u -> 24 * NVKVM_MAX_VMA_ENTRIES <= slot_size -> g_tasks g !! t = Some k -> g_tasks g !! t' = Some k1 -> s ∈ k_slots k -> s <> 0 ->
  s * slot_size <= i < (s + 1) * slot_size -> advance ok k1 g (shm_of u) = Some (k', g', m) ->
  get8 m i = get8 (shm_of u) i.
Proof.
  intros I Hsz Hk Hk1 Hs Hz Hi Ha. pose proof I as [Q T S K Wt L D].
  destruct (lo_shm _ _ _ _ _ _ _ (local_advance t' k1 g _ Hk1 T S (K _ _ Hk1) _ _ _ _ Ha)) as [->|(s' & d & Hn & Hr & Hd & ->)]; [done |].
  assert (s' <> s) as Hne.
  { intros ->. apply Hn. apply (proj1 S t k s Hk). by apply list_elem_of_filter. }
  apply get8_write_ne. unfold longest, NVKVM_MAX_VMA_ENTRIES, lenb in *. rewrite Z.max_l in Hd by lia. assert (s' < s \/ s < s') as [|] by lia; nia.
Qed.

Lemma device_confined l g u u' t k s i :
  0 < slot_size < 2 ^ 32 -> 0 <= shm_size < 2 ^ 63 ->
  inv l g u -> dstep kvm_vm_fd slot_size shm_size u u' -> g_tasks g !! t = Some k -> s ∈ k_slots k -> s <> 0 ->
  s * slot_size <= i < (s + 1) * slot_size ->
  get8 (shm_of u') i = get8 (shm_of u) i \/ exists e f j, k_pc k = P_wait e f false j /\ e ∉ (u_used u).*1.
Proof.
  intros Hs1 Hs2 I Hd Hk Hs Hz Hi. pose proof I as [Q T S K Wt L D].
  destruct (shm_confined kvm_vm_fd slot_size shm_size Hs1 Hs2 l u u' i Q Hd) as [|(e & out & Hl & Hu & slot & Hn & Hr & Hin & _)]; [by left | right].
  assert (slot = s) as -> by nia.
  destruct (outstanding_owner l g u e I) as (t1 & k1 & f & j & _ & Hk1 & Hp).
  { pose proof (qreach_inv _ _ _ _ _ Q) as [N E _ _ _]. assert (e ∈ elements u) as He by (rewrite E; apply list_elem_of_fmap; by exists (e, out)).
    unfold elements in He. set_solver. }
  pose proof (qi_nodup _ _ _ _ (qreach_inv _ _ _ _ _ Q)) as N.
  rewrite (same_element _ _ _ _ N Hl (w_posted _ _ _ _ Wt _ _ _ _ _ _ Hk1 Hp)) in Hn.
  assert (s ∈ k_slots k1) as Hs1'.
  { apply (vc_names _ (to_call _ (K _ _ Hk1)) _ (k_txn k1)); [apply (to_slots _ (K _ _ Hk1)) | exact Hn | done]. }
  pose proof (excl_slot _ _ _ _ _ _ _ _ I Hk Hk1 Hz Hs Hs1') as <-. rewrite Hk in Hk1. injection Hk1 as <-. eauto.
Qed.

(** C31. [slot_isolation]: if a slot has room for the longest list of VMAs, 1024 entries of
    24 bytes, then in every reachable state a byte of a slot that a call holds is changed only by
    that call's own copy into it, or by the device while it has that call's own request
    in hand: not by another task, another call's request or a completion.  The size is
    the host's choice, 64 KiB by default; the guest accepts any power of two from 4096
    on, and with less than 24 KiB the copy of the list, which is not checked, can run
    into the next slot, see [vma_list_overruns]. *)
Theorem slot_isolation (a : actor) (g g' : guest) (u u' : queue) (t : nat) (k : task) (s i : Z) :
  24 * NVKVM_MAX_VMA_ENTRIES <= slot_size < 2 ^ 32 -> 0 <= shm_size < 2 ^ 63 ->
  reach (g, u) -> step a (g, u) (g', u') ->
  g_tasks g !! t = Some k -> s ∈ k_slots k -> s <> 0 -> s * slot_size <= i < (s + 1) * slot_size ->
  get8 (shm_of u') i = get8 (shm_of u) i \/ a = A_task t \/
  (a = A_device /\ exists e f j, k_pc k = P_wait e f false j /\ e ∉ (u_used u).*1).
Proof.
  intros Hs1 Hs2 [l I]%transport_inv Hst Hk Hs Hz Hi. cbn [fst snd] in I.
  remember (g, u) as x eqn:Ex. remember (g', u') as y eqn:Ey.
  destruct Hst as [g0 u0 t0 c _ _|g0 u0 t0 k0 ok k1 g1 m Hk0 Ha|g0 u0 t0 k0 e _ _ _|g0 u0 t0 k0 err _ _ _|g0 u0 e len bs t0 _ _
    |g0 u0 t0 k0 e f t1 _ _ _ _|g0 u0 t0 k0 e f j _ _ _|g0 u0 u1 Hd]; injection Ex as -> ->; injection Ey as <- <-; try by left.
  - left. change (shm_of (with_shm m u)) with m. apply (local_confined l g u t t0 k k0 k1 s i ok g1); try done. lia.
  - destruct (device_confined l g u u1 t k s i ltac:(unfold NVKVM_MAX_VMA_ENTRIES in *; lia) Hs2 I Hd Hk Hs Hz Hi); [by left | by right; right].
Qed.

(** A list of VMAs that is longer than a slot goes on in the next one, whoever has it. *)
Lemma vma_list_overruns ok k g m d rest s bm x :
  0 <= slot_size -> k_pc k = P_inner (In_may d :: rest) -> nvkvm_slot_alloc (g_slots g) = Some (s, bm) -> octets d -> d !! Z.to_nat slot_size = Some x ->
  exists k' g' m', advance ok k g m = Some (k', g', m') /\ get8 m' ((s + 1) * slot_size) = x.
Proof.
  intros Hz Hp Ha Hd Hx. unfold advance. rewrite Hp. unfold take_slot. rewrite Ha. eexists _, _, _. split; [reflexivity |].
  replace ((s + 1) * slot_size) with (s * slot_size + Z.of_nat (Z.to_nat slot_size)) by lia. by apply get8_write_in.
Qed.

(** ** The calls of the driver *)

Lemma nth0_range ss i : Forall (fun s => 0 <= s < NVKVM_SHM_NSLOTS) ss -> 0 <= nth0 ss i < 2 ^ 32.
Proof.
  intros Hs. unfold nth0. destruct (ss !! i) as [s|] eqn:E; cbn; [|lia]. pose proof (Forall_lookup_1 _ _ _ _ Hs E) as Hr.
  unfold NVKVM_SHM_NSLOTS in Hr. cbn in Hr. lia.
Qed.

Lemma nth0_in ss i : nth0 ss i <> 0 -> nth0 ss i ∈ ss.
Proof. unfold nth0. destruct (ss !! i) as [s|] eqn:E; cbn; [|done]. intros _. by apply list_elem_of_lookup_2 in E. Qed.

#[local] Ltac words := unfold fields_ok; cbn [payload app w64];
  repeat (constructor; [first [lia | by apply nth0_range | apply Z.mod_pos_bound; lia] |]); constructor.

Lemma shiftr_range x : 0 <= x < 2 ^ 64 -> 0 <= Z.shiftr x 32 < 2 ^ 32.
Proof. intros Hx. rewrite Z.shiftr_div_pow2 by lia. split; [apply Z.div_pos; lia | apply Z.div_lt_upper_bound; lia]. Qed.

Lemma ioctl_valid iso h cmd param aux vmas flags sid :
  0 <= iso < 2 ^ 32 -> 0 <= h < 2 ^ 32 -> 0 <= cmd < 2 ^ 32 -> 0 <= flags < 2 ^ 32 -> 0 <= sid < 2 ^ 32 ->
  lenb param < 2 ^ 32 -> lenb aux < 2 ^ 32 -> lenb vmas <= 24 * NVKVM_MAX_VMA_ENTRIES ->
  valid_call (ioctl_call iso h cmd param aux vmas flags sid).
Proof.
  intros H1 H2 H3 H4 H5 H6 H7 H8. unfold NVKVM_MAX_VMA_ENTRIES in H8. assert (forall l, 0 <= lenb l) as Hp by (intros; unfold lenb; lia).
  pose proof (Hp param). pose proof (Hp aux). pose proof (Hp vmas).
  assert (0 <= lenb vmas / 24 < 2 ^ 32) as Hv by (split; [apply Z.div_pos; lia | apply Z.div_lt_upper_bound; lia]).
  assert (forall ss, Forall (fun s => 0 <= s < NVKVM_SHM_NSLOTS) ss -> fields_ok (c_mk (ioctl_call iso h cmd param aux vmas flags sid) ss)) as Hf.
  { intros ss Hs. cbn [ioctl_call c_mk]. destruct (nth0 ss 2 =? 0); words. }
  split; [exact Hf | | done | constructor |].
  - intros ss txn s Hs Hn Hz. specialize (Hf ss Hs). revert Hn. unfold names. rewrite type_of_message.
    change (req_type (c_mk (ioctl_call iso h cmd param aux vmas flags sid) ss) =? NVKVM_REQ_IOCTL_ON_ISOLATE) with true. cbv iota.
    set (q := req_of _). assert (get32 q 16 = nth0 ss 0) as E1 by exact (req32 txn _ 4 _ Hf eq_refl).
    assert (get32 q 24 = nth0 ss 1) as E2 by exact (req32 txn _ 6 _ Hf eq_refl). rewrite E1, E2. intros [-> | ->]; by apply nth0_in.
  - cbn. destruct param, aux, vmas; by repeat constructor.
Qed.

Lemma slot_call_valid (c : call) (mk : Z -> request) :
  c_mk c = (fun ss => mk (nth0 ss 0)) -> c_isolate c = 0 -> Forall (fun d => lenb d <= slot_size) (c_outer c) -> c_inner c = [] ->
  (forall s, 0 <= s < 2 ^ 32 -> fields_ok (mk s)) ->
  (forall s txn x, 0 <= s < 2 ^ 32 -> names (message txn (mk s)) x -> x = s) -> valid_call c.
Proof.
  intros E1 E2 H1 E3 Hf Hn. split; rewrite ?E1, ?E2, ?E3; try done.
  - intros ss Hs. apply Hf. by apply nth0_range.
  - intros ss txn s Hs Hx Hz. apply Hn in Hx as ->; [by apply nth0_in | by apply nth0_range].
Qed.

#[local] Ltac one_slot Hf := intros s txn x Hs Hn; specialize (Hf s Hs); revert Hn; unfold names; rewrite type_of_message; cbn -[get32 req_of message];
  intros Hn; rewrite Hn; exact (req32 txn _ 1 _ Hf eq_refl).

Lemma hostfile_valid file : 0 <= file < 2 ^ 32 -> 0 <= slot_size -> valid_call (hostfile_call file).
Proof.
  intros H1 H2. assert (forall s, 0 <= s < 2 ^ 32 -> fields_ok (Q_read_host_file file s NVKVM_HFILE_MAX_SIZE)) as Hf
    by (intros s Hs; unfold NVKVM_HFILE_MAX_SIZE; words).
  apply (slot_call_valid _ (fun s => Q_read_host_file file s NVKVM_HFILE_MAX_SIZE)); [reflexivity | reflexivity | by repeat constructor | reflexivity | exact Hf |]. one_slot Hf.
Qed.

Lemma writeback_valid h offset size :
  0 <= h < 2 ^ 32 -> 0 <= offset < 2 ^ 64 -> 0 <= size < 2 ^ 32 -> 0 <= slot_size -> valid_call (writeback_call h offset size).
Proof.
  intros H1 H2 H3 H4. pose proof (shiftr_range _ H2).
  assert (forall s, 0 <= s < 2 ^ 32 -> fields_ok (Q_read_memory_handle h offset s size)) as Hf by (intros s Hs; words).
  apply (slot_call_valid _ (fun s => Q_read_memory_handle h offset s size)); [reflexivity | reflexivity | by repeat constructor | reflexivity | exact Hf |]. one_slot Hf.
Qed.

Lemma upload_valid h offset data :
  0 <= h < 2 ^ 32 -> 0 <= offset < 2 ^ 64 -> lenb data < 2 ^ 32 -> lenb data <= slot_size -> valid_call (upload_call h offset data).
Proof.
  intros H1 H2 H3 H4. pose proof (shiftr_range _ H2). assert (0 <= lenb data) by (unfold lenb; lia).
  assert (forall s, 0 <= s < 2 ^ 32 -> fields_ok (Q_write_memory_handle h offset s (lenb data))) as Hf by (intros s Hs; words).
  apply (slot_call_valid _ (fun s => Q_write_memory_handle h offset s (lenb data))); [reflexivity | reflexivity | by repeat constructor | reflexivity | exact Hf |].
  intros s txn x Hs Hn. by apply names_slotless in Hn.
Qed.

Lemma realize_call_valid iso fd sid gva len prot flags snap intent :
  0 <= iso < 2 ^ 32 -> 0 <= fd < 2 ^ 32 -> 0 <= sid < 2 ^ 32 -> 0 <= gva < 2 ^ 64 -> 0 <= len < 2 ^ 64 ->
  0 <= prot < 2 ^ 32 -> 0 <= flags < 2 ^ 32 -> lenb snap <= slot_size -> lenb intent <= slot_size -> lenb intent < 2 ^ 32 ->
  valid_call (realize_call iso fd sid gva len prot flags snap intent).
Proof.
  intros H1 H2 H3 H4 H5 H6 H7 H8 H9 H10. pose proof (shiftr_range _ H4). pose proof (shiftr_range _ H5).
  assert (0 <= lenb intent) by (unfold lenb; lia). pose proof (shiftr_range 0 ltac:(lia)).
  assert (forall ss, Forall (fun s => 0 <= s < NVKVM_SHM_NSLOTS) ss -> fields_ok (c_mk (realize_call iso fd sid gva len prot flags snap intent) ss)) as Hf.
  { intros ss Hs. cbn [realize_call c_mk]. unfold NVKVM_UVM_REALIZE_MODE_SEM_POOL. words. }
  split; [exact Hf | | done | by repeat constructor | constructor].
  intros ss txn s Hs Hn Hz. specialize (Hf ss Hs). revert Hn. unfold names. rewrite type_of_message.
  change (req_type (c_mk (realize_call iso fd sid gva len prot flags snap intent) ss)) with NVKVM_REQ_REALIZE_UVM_MAPPING.
  cbn [Z.eqb Pos.eqb NVKVM_REQ_IOCTL_ON_ISOLATE NVKVM_REQ_REALIZE_UVM_MAPPING].
  set (q := req_of _). assert (get32 q 52 = nth0 ss 1) as E1 by exact (req32 txn _ 13 _ Hf eq_refl).
  rewrite E1. intros ->. by apply nth0_in.
Qed.

(** ** Lost transaction ids *)

(** A call whose message cannot be allocated. *)
Definition failed_call : call := plain_call (Q_close_handle 1) false false.
Definition failed_task (x : outcome) : task := Task failed_call (P_end x) [] 0.

Definition lost (n : nat) (g : guest) : Prop :=
  g_seed g = Z.of_nat n /\ (forall b, b ∈ g_txns g <-> 0 < b <= Z.of_nat n) /\ (forall t, (n <= t)%nat -> g_tasks g !! t = None) /\
  (forall t k, g_tasks g !! t = Some k -> exists o, k_pc k = P_end o).

Lemma shm_same (u : queue) : with_shm (shm_of u) u = u.
Proof. by destruct u as [[]]. Qed.

Lemma local_reach g u t k ok k' g' :
  reach (set_task t k g, u) -> advance ok k (set_task t k g) (shm_of u) = Some (k', set_task t k g', shm_of u) -> reach (set_task t k' g', u).
Proof.
  intros Hr Ha. eapply re_step in Hr; [|apply (st_local _ _ t k ok k' _ _ (lookup_insert_eq _ _ _) Ha)].
  rewrite shm_same in Hr. unfold set_task in Hr. cbn in Hr. by rewrite insert_insert_eq in Hr.
Qed.

Lemma lose_one n g u :
  (n < 4095)%nat -> reach (g, u) -> lost n g -> exists g', reach (g', u) /\ lost (S n) g'.
Proof.
  intros Hn Hr (H1 & H2 & H3 & H4). set (t := n). set (bit := Z.of_nat (S n)).
  assert (reach (set_task t (Task failed_call (P_outer []) [] 0) g, u)) as R1.
  { eapply re_step; [exact Hr |]. apply (st_start g u t failed_call); [by apply H3 |]. by apply plain_valid; [repeat constructor |]. }
  eapply (local_reach _ _ _ _ true (Task failed_call P_seed [] 0) g) in R1; [|done].
  set (g1 := set_bitmaps bit (g_txns g) (g_slots g) g).
  eapply (local_reach _ _ _ _ true (Task failed_call (P_txn bit 0) [] 0) g1) in R1.
  2: { cbn. rewrite H1, u32_small by lia. replace (Z.of_nat n + 1) with bit by lia. done. }
  set (g2 := set_bitmaps bit ({[bit]} ∪ g_txns g) (g_slots g) g).
  assert (txn_bit bit 0 = bit) as Hb.
  { unfold txn_bit, NVKVM_MAX_INFLIGHT. rewrite Z.add_0_r, u32_small, Z.mod_small by lia. done. }
  eapply (local_reach _ _ _ _ true (Task failed_call P_buf [] (txn_id bit bit)) g2) in R1.
  2: { unfold advance. cbn [k_pc k_call k_slots]. change (0 <? NVKVM_MAX_INFLIGHT) with true. cbv iota. rewrite Hb.
       destruct (Z.eqb_spec bit 0); [lia |]. rewrite bool_decide_eq_false_2; [done |]. cbn. rewrite H2. lia. }
  eapply (local_reach _ _ _ _ false (Task failed_call (P_free (Out (- ENOMEM) [] [])) [] 0) g2) in R1; [|done].
  eapply (local_reach _ _ _ _ true (failed_task (Out (- ENOMEM) [] [])) g2) in R1; [|done].
  eexists. split; [exact R1 |]. split_and!.
  - done.
  - intros b. cbn. rewrite elem_of_union, elem_of_singleton, H2. lia.
  - intros t1 Ht. cbn. rewrite lookup_insert_ne by lia. apply H3. lia.
  - intros t1 k1 Hk. cbn in Hk. lk Hk; [by eexists | eauto].
Qed.

(** [txn_ids_leak]: calls that fail to allocate their message keep their transaction
    id, so there are runs after which no call is in progress and yet no id is free:
    from then on the search of every later call passes over every bit and fails. *)
Theorem txn_ids_leak (w : W) (graphics : bool) (abi : option Abi.abi_profile) (m : bytes) :
  gpa_owns w [] ->
  exists g, reach (g, q_init w graphics abi m) /\ (forall t k, g_tasks g !! t = Some k -> exists o, k_pc k = P_end o) /\
    forall k seed tries ok b, k_pc k = P_txn seed tries ->
      advance ok k g b = Some (if tries <? NVKVM_MAX_INFLIGHT then set_pc (P_txn seed (tries + 1)) k else fail EBUSY k, g, b).
Proof.
  intros Hw. set (u := q_init w graphics abi m).
  assert (forall n, (n <= 4095)%nat -> exists g, reach (g, u) /\ lost n g) as Hall.
  { induction n as [|n IH]; intros Hn.
    - exists nvkvm_virtio_init. split; [by apply re_init |]. split_and!; [done | set_solver by lia | done |].
      intros t k Hk. cbn in Hk. by rewrite lookup_empty in Hk.
    - destruct IH as (g & Hr & Hl); [lia |]. by apply (lose_one n g u); [lia | |]. }
  destruct (Hall 4095%nat) as (g & Hr & _ & Hb & _ & He); [lia |]. exists g. split_and!; [done | done |].
  intros k seed tries ok b Hp. unfold advance. rewrite Hp. destruct (tries <? NVKVM_MAX_INFLIGHT); [|done].
  pose proof (Z.mod_pos_bound (u32 (seed + tries)) NVKVM_MAX_INFLIGHT ltac:(done)) as Hm. unfold txn_bit, NVKVM_MAX_INFLIGHT in *.
  destruct (Z.eqb_spec (u32 (seed + tries) mod 4096) 0); [done |]. rewrite bool_decide_eq_true_2; [done |]. apply Hb. lia.
Qed.
End transport.

(** ** A host file read *)

#[local] Existing Instance IsoMmap.ex_allocator.
Abbreviation ex_state := (guest * VirtioTx.queue (W := Sparse.sparse_win * Slots.slot_pool))%type.

Definition ex_local (t : nat) (x : ex_state) : ex_state :=
  match g_tasks (fst x) !! t with
  | Some k => match advance 65536 true k (fst x) (shm_of (snd x)) with
              | Some (k', g', m) => (set_task t k' g', with_shm m (snd x))
              | None => x
              end
  | None => x
  end.

Lemma ex_locals n t x : reach 3 65536 (2 ^ 24) x -> reach 3 65536 (2 ^ 24) (Nat.iter n (ex_local t) x).
Proof.
  intros Hr. induction n as [|n IH]; [exact Hr |]. change (reach 3 65536 (2 ^ 24) (ex_local t (Nat.iter n (ex_local t) x))).
  destruct (Nat.iter n (ex_local t) x) as [g u]. unfold ex_local. cbn [fst snd]. destruct (g_tasks g !! t) as [k|] eqn:Hk; [|done].
  destruct (advance 65536 true k g (shm_of u)) as [[[k' g'] m]|] eqn:Ha; [|done].
  eapply re_step; [exact IH |]. by apply (st_local _ _ _ _ _ t k true).
Qed.

Definition ex_start : ex_state :=
  (set_task 0 (Task (hostfile_call 0) (P_outer [[]]) [] 0) nvkvm_virtio_init, q_init IsoMmap.ex_win true None ∅).
Definition ex_ready := Nat.iter 7 (ex_local 0) ex_start.
Definition ex_task : task := default (Task (hostfile_call 0) P_post [] 0) (g_tasks (fst ex_ready) !! 0%nat).
Definition ex_posted_x := post 0 0 ex_task (fst ex_ready) (snd ex_ready).
Definition ex_served := tx_one 3 65536 (2 ^ 24) refusing 0 (element_of ex_task) [] (snd ex_posted_x).

Lemma ex_reach_posted : reach 3 65536 (2 ^ 24) ex_posted_x.
Proof.
  assert (reach 3 65536 (2 ^ 24) ex_ready) as Hr.
  { apply ex_locals. eapply re_step; [apply (re_init _ _ _ IsoMmap.ex_win true None ∅), IsoMmap.ex_owns |].
    apply (st_start _ _ _ nvkvm_virtio_init _ 0 (hostfile_call 0)); [done |]. apply hostfile_valid; lia. }
  unfold ex_posted_x. assert (g_tasks (fst ex_ready) !! 0%nat = Some ex_task) as Hk by (vm_compute; reflexivity).
  assert (k_pc ex_task = P_post) as Hp by (vm_compute; reflexivity).
  assert (elements (snd ex_ready) = []) as He by (vm_compute; reflexivity).
  destruct ex_ready as [g u]. eapply re_step; [exact Hr |]. apply st_post; [exact Hk | exact Hp |].
  cbn [snd] in *. rewrite He. apply not_elem_of_nil.
Qed.

Lemma ex_device_step : step 3 65536 (2 ^ 24) A_device ex_posted_x (fst ex_posted_x, ex_served).
Proof.
  rewrite (surjective_pairing ex_posted_x) at 1. apply st_device.
  refine (ds_take _ _ _ refusing (snd ex_posted_x) 0 (element_of ex_task) [] _ (refusing_ok _)). vm_compute; reflexivity.
Qed.

Definition ex_answer : list Z := default [] (snd ∘ snd <$> u_used ex_served !! 0%nat).
Definition ex_woken := tx_done_one 0 ex_answer 0 (fst ex_posted_x).

Lemma ex_reach_woken : reach 3 65536 (2 ^ 24) (ex_woken, ex_served).
Proof.
  eapply re_step; [eapply re_step; [apply ex_reach_posted | apply ex_device_step] |].
  eapply st_callback; [|vm_compute; reflexivity]. vm_compute; reflexivity.
Qed.

Definition ex_woken_task : task := default ex_task (g_tasks ex_woken !! 0%nat).

Lemma guest_transport_sound_witness :
  length (u_used ex_served) = 1%nat /\ g_dangling ex_woken = false /\
  get32 (resp_buf ex_answer) 0 = req_type (c_mk (k_call ex_woken_task) (k_slots ex_woken_task)) /\
  get32 (resp_buf ex_answer) 4 = k_txn ex_woken_task /\ k_txn ex_woken_task = 1.
Proof.
  split; [vm_compute; reflexivity |].
  destruct (guest_transport_sound 3 65536 (2 ^ 24) _ _ ex_reach_woken) as (Hd & _ & _ & Ha). split; [exact Hd |].
  apply and_assoc. split; [|vm_compute; reflexivity].
  eapply (Ha 0%nat ex_woken_task 0%nat); [vm_compute; reflexivity | vm_compute; reflexivity | vm_compute; by left].
Defined.

Definition ex_posted_task : task := default ex_task (g_tasks (fst ex_posted_x) !! 0%nat).

Lemma slot_isolation_witness :
  k_slots ex_task = [1] /\
  (get8 (shm_of ex_served) 65536 = get8 (shm_of (snd ex_posted_x)) 65536 \/ A_device = A_task 0 \/
   (A_device = A_device /\ exists e f j,
      k_pc ex_posted_task = P_wait e f false j /\ e ∉ (u_used (snd ex_posted_x)).*1)).
Proof.
  split; [vm_compute; reflexivity |].
  eapply (slot_isolation 3 65536 (2 ^ 24) A_device (fst ex_posted_x) (fst ex_posted_x) (snd ex_posted_x) ex_served 0 ex_posted_task 1 65536);
    [unfold NVKVM_MAX_VMA_ENTRIES; lia | lia | | | vm_compute; reflexivity | vm_compute; by left | done | lia].
  - rewrite <- surjective_pairing. apply ex_reach_posted.
  - rewrite <- surjective_pairing. apply ex_device_step.
Defined.

Lemma txn_ids_leak_witness :
  exists g, reach 3 65536 (2 ^ 24) (g, q_init IsoMmap.ex_win true None ∅) /\
    (forall t k, g_tasks g !! t = Some k -> exists o, k_pc k = P_end o) /\
    forall k seed tries ok b, k_pc k = P_txn seed tries ->
      advance 65536 ok k g b = Some (if tries <? NVKVM_MAX_INFLIGHT then set_pc (P_txn seed (tries + 1)) k else fail EBUSY k, g, b).
Proof. exact (txn_ids_leak 3 65536 (2 ^ 24) IsoMmap.ex_win true None ∅ IsoMmap.ex_owns). Defined.

End GuestTransport.
