(* ===== verification/GuestRing.v ===== *)
(** * The guest's side of the command ring ([src/guest/nvkvm_main.c])

    A guest thread that issues a flat control puts it on the request ring, wakes
    the pump that keeps the isolate serving the ring, and reads the response ring
    until its own answer appears.  The rings are those of [Ring], the isolate runs
    records as in [StubRing]; here the three are put together, with calls that
    give up and leave answers behind. *)

From S2P Require Import Prelude Bytes Ring Allowlists Abi StubHandles StubIoctl StubMarshal StubRing.
Local Open Scope Z_scope.
Local Open Scope nv_scope.

Module GuestRing.
Import Allow StubIoctl StubRing.

Definition sizeof_nvos54 : Z := 32.
Definition lenb (l : list Z) : Z := Z.of_nat (length l).

(** ** One call *)

Record rcall := RCall { rc_handle : Z; rc_cmd : Z; rc_param : list Z; rc_aux : list Z }.

(** Which calls [nvkvm_session_ring_try] puts on the ring. *)
Definition ring_eligible (c : rcall) : bool :=
  (ioc_nr (rc_cmd c) =? NV_ESC_RM_CONTROL) && (lenb (rc_param c) =? sizeof_nvos54) &&
  (lenb (rc_param c) <=? NVKVM_RING_MAX_PARAM) && (lenb (rc_aux c) <=? NVKVM_RING_MAX_AUX).

(** [++s->ring_txn_next], once more past zero. *)
Definition next_txn (n : Z) : Z := let x := u32 (n + 1) in if x =? 0 then u32 (x + 1) else x.

Definition encode_req (txn : Z) (c : rcall) : list Z :=
  let hdr := put32 (put32 (put32 (put32 (put32 (put32 ∅ 0 txn) 4 (rc_handle c)) 8 (rc_cmd c))
               12 (lenb (rc_param c))) 16 (lenb (rc_aux c))) 20 0 in
  read_bytes hdr 0 sizeof_req ++ rc_param c ++ rc_aux c.

Inductive routcome :=
| O_done (ret nvstatus : Z) (param aux : list Z)
| O_punt
| O_eio.

(** [memcpy] of the first bytes of a buffer. *)
Definition overwrite (new buf : list Z) : list Z := new ++ drop (length new) buf.

(** A record of the response ring, for the call that waits for [txn]; [None]: it is
    dropped and the search goes on. *)
Definition take_answer (d : bytes) (pay len txn : Z) (c : rcall) : option routcome :=
  if len <? sizeof_resp then None
  else if negb (get32 d pay =? txn) then None
  else if negb (Z.land (get32 d (pay + 20)) NVKVM_RING_RESP_PUNT =? 0) then Some O_punt
  else
    let psize := get32 d (pay + 12) in
    let asize := get32 d (pay + 16) in
    let ret := s32 (get32 d (pay + 4)) in
    Some (O_done (if ret <? 0 then ret else 0) (get32 d (pay + 8))
      (if negb (psize =? 0) && (psize <=? lenb (rc_param c)) && (sizeof_resp + psize <=? len)
       then overwrite (read_bytes d (pay + sizeof_resp) psize) (rc_param c) else rc_param c)
      (if negb (asize =? 0) && (asize <=? lenb (rc_aux c)) && (sizeof_resp + psize + asize <=? len)
       then overwrite (read_bytes d (pay + sizeof_resp + psize) asize) (rc_aux c) else rc_aux c)).

(** What the call gives when the isolate runs it without rings between. *)
Definition exec_call (lookup : Z -> Z) (aux_va : Z) (driver : drv_call -> Z * bytes * bytes) (sp sa : bytes) (txn : Z) (c : rcall)
  : list drv_call * ring_ioctl_resp :=
  let param := write_bytes sp 0 (rc_param c) in
  let aux := write_bytes sa 0 (rc_aux c) in
  if ring_ctrl_must_punt (rc_cmd c) param (lenb (rc_param c)) (lenb (rc_aux c)) then ([], punt txn 0)
  else
    let fd := lookup (rc_handle c) in
    if fd <? 0 then ([], RResp txn (- EBADF) 0 0 [] [])
    else
      let no_aux := lenb (rc_aux c) =? 0 in
      let call := DCall fd (rc_cmd c) (put64 param 16 (if no_aux then 0 else aux_va)) aux in
      let '(ret, p, a) := driver call in
      let p := if no_aux then p else put64 p 16 0 in
      ([call], RResp txn (if ret <? 0 then ret else s32 ret) (get32 p 28) 0 (read_bytes p 0 (lenb (rc_param c))) (read_bytes a 0 (lenb (rc_aux c)))).

Definition outcome_of (c : rcall) (r : ring_ioctl_resp) : routcome :=
  if negb (s_flags r =? 0) then O_punt
  else
    let ret := s32 (s_retval r) in
    O_done (if ret <? 0 then ret else 0) (s_nvstatus r) (overwrite (s_param r) (rc_param c)) (overwrite (s_aux r) (rc_aux c)).

(** ** Messages *)

Lemma read_app_inv d o n a b :
  0 <= n -> read_bytes d o n = a ++ b -> read_bytes d o (lenb a) = a /\ read_bytes d (o + lenb a) (n - lenb a) = b /\ lenb a <= n.
Proof.
  intros Hn He. assert (lenb a <= n) as Hl.
  { pose proof (f_equal length He) as Hx. rewrite length_read_bytes, length_app in Hx. unfold lenb. lia. }
  assert (0 <= lenb a) by (unfold lenb; lia).
  replace n with (lenb a + (n - lenb a)) in He by lia. rewrite read_bytes_app in He by lia.
  apply app_inj_1 in He as [H1 H2]; [done |]. rewrite length_read_bytes. unfold lenb. lia.
Qed.

Lemma read_get32 d o h m k : read_bytes d o m = read_bytes h 0 m -> 0 <= k -> k + 4 <= m -> get32 d (o + k) = get32 h k.
Proof.
  intros He Hk Hm. assert (forall i, 0 <= i < m -> get8 d (o + i) = get8 h i) as Hg.
  { intros i Hi. pose proof (f_equal (fun l => l !! Z.to_nat i) He) as Hx. cbn in Hx.
    rewrite !lookup_read, !Z2Nat.id, Z.add_0_l in Hx by lia. by injection Hx. }
  unfold get32, get16. replace (o + k + 2 + 1) with (o + (k + 2 + 1)) by lia. replace (o + k + 2) with (o + (k + 2)) by lia.
  replace (o + k + 1) with (o + (k + 1)) by lia. by rewrite !Hg by lia.
Qed.

(** The fields of a header of six words at the front of a record. *)
Lemma header_fields a b c e f g (m : bytes) d o len rest :
  m = put32 (put32 (put32 (put32 (put32 (put32 ∅ 0 a) 4 b) 8 c) 12 e) 16 f) 20 g ->
  0 <= len -> read_bytes d o len = read_bytes m 0 24 ++ rest ->
  get32 d o = u32 a /\ get32 d (o + 4) = u32 b /\ get32 d (o + 8) = u32 c /\ get32 d (o + 12) = u32 e /\
  get32 d (o + 16) = u32 f /\ get32 d (o + 20) = u32 g /\ read_bytes d (o + 24) (len - 24) = rest /\ 24 <= len.
Proof.
  intros -> Hlen He. apply read_app_inv in He as (H1 & H2 & H3); [|done].
  assert (forall m' : bytes, lenb (read_bytes m' 0 24) = 24) as Hl by (intros m'; unfold lenb; rewrite length_read_bytes; lia).
  rewrite Hl in H1, H2, H3. pose proof (read_get32 d o _ 24 0 H1 ltac:(lia) ltac:(lia)) as H0. rewrite Z.add_0_r in H0.
  rewrite H0, !(read_get32 d o _ 24 _ H1) by lia.
  split_and!; repeat (rewrite get32_put32 || rewrite get32_put32_ne by lia); done.
Qed.

Definition rcall_ok (c : rcall) : Prop :=
  ring_eligible c = true /\ 0 <= rc_handle c < 2 ^ 32 /\ 0 <= rc_cmd c < 2 ^ 32 /\ octets (rc_param c) /\ octets (rc_aux c).

Lemma length_encode_req txn c : lenb (encode_req txn c) = 24 + lenb (rc_param c) + lenb (rc_aux c).
Proof. unfold lenb, encode_req. rewrite !length_app, length_read_bytes. unfold sizeof_req. lia. Qed.

Lemma eligible_sizes c : ring_eligible c = true -> lenb (rc_param c) = 32 /\ 0 <= lenb (rc_aux c) <= 4096.
Proof.
  unfold ring_eligible, sizeof_nvos54, NVKVM_RING_MAX_AUX. intros. nv_bool. split; [done |]. split; [unfold lenb; lia | done].
Qed.

(** Running the record of a call is running the call. *)
Lemma exec_one_call lookup aux_va driver sp sa txn c d pay len :
  rcall_ok c -> 0 <= txn < 2 ^ 32 -> 0 <= len -> Ring.carries (encode_req txn c) (read_bytes d pay len) ->
  ring_exec_one lookup aux_va driver sp sa d pay len =
  (fst (exec_call lookup aux_va driver sp sa txn c), Some (snd (exec_call lookup aux_va driver sp sa txn c))).
Proof.
  intros (He & Hh & Hc & Hp & Ha) Htx Hlen (pad & Hbuf & _). apply eligible_sizes in He as [Hps Has].
  unfold encode_req in Hbuf. rewrite <- app_assoc in Hbuf. eapply header_fields in Hbuf; [|reflexivity | done].
  destruct Hbuf as (F0 & F1 & F2 & F3 & F4 & F5 & Hrest & Hl). rewrite <- app_assoc in Hrest.
  apply read_app_inv in Hrest as (R1 & R2 & R3); [|lia]. apply read_app_inv in R2 as (R4 & R5 & R6); [|lia].
  unfold ring_exec_one, decode_req, exec_call. cbn [q_txn_id q_handle_id q_cmd q_param_size q_aux_size q_abi_profile].
  unfold sizeof_req, NVKVM_RING_MAX_PARAM, NVKVM_RING_MAX_AUX.
  rewrite F0, F1, F2, F3, F4, !u32_small by lia. rewrite R1, R4, Hps.
  rewrite (proj2 (Z.ltb_ge len 24)), (proj2 (Z.ltb_ge 256 32)), (proj2 (Z.ltb_ge 4096 _)), (proj2 (Z.ltb_ge len _)) by lia.
  cbn [orb]. destruct (ring_ctrl_must_punt _ _ _ _); [done |]. destruct (lookup (rc_handle c) <? 0); [done |].
  destruct (driver _) as [[ret p] a]. done.
Qed.

Lemma overwrite_nil l : overwrite [] l = l.
Proof. done. Qed.

(** The answers the isolate writes. *)
Definition resp_ok (c : rcall) (r : ring_ioctl_resp) : Prop :=
  0 <= s_txn_id r < 2 ^ 32 /\ 0 <= s_nvstatus r < 2 ^ 32 /\ (s_flags r = 0 \/ s_flags r = 1) /\
  lenb (s_param r) <= lenb (rc_param c) /\ lenb (s_aux r) <= lenb (rc_aux c) /\ octets (s_param r) /\ octets (s_aux r).

Lemma exec_call_ok lookup aux_va driver sp sa txn c :
  0 <= txn < 2 ^ 32 -> let e := exec_call lookup aux_va driver sp sa txn c in
  resp_ok c (snd e) /\ s_txn_id (snd e) = txn /\ (length (fst e) <= 1)%nat /\ (s_flags (snd e) <> 0 -> fst e = []).
Proof.
  intros Ht. cbn zeta. unfold exec_call, resp_ok. assert (forall l, 0 <= lenb l) as Hl by (intros l; unfold lenb; lia).
  assert (octets []) as Ho by constructor.
  destruct (ring_ctrl_must_punt _ _ _ _); [|destruct (lookup (rc_handle c) <? 0); [|destruct (driver _) as [[ret p] a]]];
    cbn [fst snd s_txn_id s_nvstatus s_flags s_param s_aux punt].
  - unfold NVKVM_RING_RESP_PUNT. split_and!; cbn; auto; lia.
  - split_and!; cbn; auto; lia.
  - split_and!; auto using octets_read; try apply get32_range; try lia; unfold lenb; rewrite ?length_read_bytes; cbn; lia.
Qed.

(** A call takes the answer with its id, and no other. *)
Lemma take_answer_resp c0 c r txn d pay len :
  resp_ok c0 r -> ring_eligible c0 = true -> (s_txn_id r = txn -> c0 = c) -> 0 <= len -> Ring.carries (encode_resp r) (read_bytes d pay len) ->
  take_answer d pay len txn c = if s_txn_id r =? txn then Some (outcome_of c r) else None.
Proof.
  intros (H1 & H2 & H3 & H4 & H5 & H6 & H7) He Hc Hlen (pad & Hbuf & _). apply eligible_sizes in He as [Hps Has].
  unfold encode_resp in Hbuf. rewrite <- app_assoc in Hbuf. eapply header_fields in Hbuf; [|reflexivity | done].
  destruct Hbuf as (F0 & F1 & F2 & F3 & F4 & F5 & Hrest & Hl). rewrite <- app_assoc in Hrest.
  apply read_app_inv in Hrest as (R1 & R2 & R3); [|lia]. apply read_app_inv in R2 as (R4 & R5 & R6); [|lia].
  fold (lenb (s_param r)) in F3. fold (lenb (s_aux r)) in F4. assert (0 <= lenb (s_param r) /\ 0 <= lenb (s_aux r)) by (unfold lenb; lia).
  rewrite u32_small in F0, F2, F3, F4 by lia. unfold take_answer, sizeof_resp, outcome_of.
  rewrite F0, F1, F2, F3, F4, F5, R1, R4. rewrite (proj2 (Z.ltb_ge len 24)) by lia.
  destruct (Z.eqb_spec (s_txn_id r) txn) as [Ht|]; [|done]. rewrite <- (Hc Ht). cbn [negb].
  assert (Z.land (u32 (s_flags r)) NVKVM_RING_RESP_PUNT = s_flags r) as ->.
  { destruct H3 as [-> | ->]; reflexivity. }
  destruct (negb (s_flags r =? 0)); [done |]. rewrite !s32_u32. f_equal. f_equal.
  - destruct (Z.eqb_spec (lenb (s_param r)) 0) as [E|]; cbn [negb andb].
    + destruct (s_param r); [done | unfold lenb in E; cbn in E; lia].
    + by rewrite (proj2 (Z.leb_le _ _)), (proj2 (Z.leb_le _ _)) by lia.
  - destruct (Z.eqb_spec (lenb (s_aux r)) 0) as [E|]; cbn [negb andb].
    + destruct (s_aux r); [done | unfold lenb in E; cbn in E; lia].
    + by rewrite (proj2 (Z.leb_le _ _)), (proj2 (Z.leb_le _ _)) by lia.
Qed.

(** ** The ring protocol, step by step *)

Definition rs_reserve (N : Z) (msg : list Z) (y : Ring.sys) : option Ring.sys :=
  match Ring.y_prod y with
  | Ring.P_idle =>
      match Ring.nvkvm_ring_reserve (Ring.y_ring y) N (lenb msg) with
      | Some (r', pay, total) => Some (Ring.Sys r' (Ring.P_reserved pay total msg) (Ring.y_cons y) (Ring.y_sent y) (Ring.y_rcvd y))
      | None => None
      end
  | _ => None
  end.

Definition rs_write (y : Ring.sys) : option Ring.sys :=
  match Ring.y_prod y with
  | Ring.P_reserved pay total msg =>
      let r := Ring.y_ring y in
      Some (Ring.Sys (Ring.set_data r (write_bytes (Ring.r_data r) pay msg)) (Ring.P_written pay total msg) (Ring.y_cons y) (Ring.y_sent y) (Ring.y_rcvd y))
  | _ => None
  end.

Definition rs_commit (y : Ring.sys) : option Ring.sys :=
  match Ring.y_prod y with
  | Ring.P_written pay total msg =>
      Some (Ring.Sys (Ring.nvkvm_ring_commit (Ring.y_ring y) total) Ring.P_idle (Ring.y_cons y) (Ring.y_sent y ++ [msg]) (Ring.y_rcvd y))
  | _ => None
  end.

(** One look of the consumer: past padding, or at a record. *)
Definition rs_look (N : Z) (y : Ring.sys) : option Ring.sys :=
  match Ring.y_cons y, snd (Ring.peek_iter (Ring.y_ring y) N) with
  | Ring.C_idle, Ring.PSkip head => Some (Ring.Sys (Ring.set_head (Ring.y_ring y) head) (Ring.y_prod y) Ring.C_idle (Ring.y_sent y) (Ring.y_rcvd y))
  | Ring.C_idle, Ring.PData pay len total => Some (Ring.Sys (Ring.y_ring y) (Ring.y_prod y) (Ring.C_got pay len total) (Ring.y_sent y) (Ring.y_rcvd y))
  | _, _ => None
  end.

Definition rs_pop (y : Ring.sys) : option Ring.sys :=
  match Ring.y_cons y with
  | Ring.C_got pay len total =>
      let r := Ring.y_ring y in
      Some (Ring.Sys (Ring.nvkvm_ring_pop r total) (Ring.y_prod y) Ring.C_idle (Ring.y_sent y) (Ring.y_rcvd y ++ [read_bytes (Ring.r_data r) pay len]))
  | _ => None
  end.

(** ** Guest, pump and isolate together *)

(** The thread that holds the ring lock. *)
Inductive gpc :=
| G_free
| G_fill (txn : Z) (c : rcall)
| G_wake (txn : Z) (c : rcall)
| G_wait (txn : Z) (c : rcall).

(** [nvkvm_pump_fn]: at the condition of its wait, asleep, at the inner loop, inside
    ENTER_LOOP, after an error. *)
Inductive ppc := U_eval | U_asleep | U_inner | U_loop | U_pause.

#[export] Instance ppc_eq_dec : EqDecision ppc.
Proof. solve_decision. Defined.

(** The isolate, while ENTER_LOOP runs: between records, with an answer to write,
    writing it, with a record to take off; [S_dead]: it ended itself. *)
Inductive spc :=
| S_free
| S_answer (r : ring_ioctl_resp)
| S_writing
| S_pop
| S_dead.

(** [v_calls]: the calls put on the ring, in order; [v_log]: what the isolate ran for
    each; [v_done]: the calls that returned, by their number, with their outcome. *)
Record rsys := RSys {
  v_req : Ring.sys;
  v_resp : Ring.sys;
  v_next : Z;
  v_guest : gpc;
  v_pump : ppc;
  v_stub : spc;
  v_calls : list (Z * rcall);
  v_log : list (list drv_call * option ring_ioctl_resp);
  v_done : list (nat * routcome)
}.

Section system.
Context (N k : Z) (HN : N = 2 ^ k) (Hk : 6 <= k <= 31).

Inductive rlabel := L_guest | L_pump | L_stub | L_timeout | L_fault.

Inductive rstep : rlabel -> rsys -> rsys -> Prop :=
| gs_start q p n u s calls log done c q' :
    rcall_ok c -> rs_reserve N (encode_req (next_txn n) c) q = Some q' ->
    rstep L_guest (RSys q p n G_free u s calls log done) (RSys q' p (next_txn n) (G_fill (next_txn n) c) u s calls log done)
| gs_write q p n u s calls log done txn c q' :
    rs_write q = Some q' ->
    rstep L_guest (RSys q p n (G_fill txn c) u s calls log done) (RSys q' p n (G_fill txn c) u s calls log done)
| gs_commit q p n u s calls log done txn c q' :
    rs_commit q = Some q' ->
    rstep L_guest (RSys q p n (G_fill txn c) u s calls log done) (RSys q' p n (G_wake txn c) u s (calls ++ [(txn, c)]) log done)
| gs_wake q p n u s calls log done txn c :
    rstep L_guest (RSys q p n (G_wake txn c) u s calls log done)
      (RSys q p n (G_wait txn c) (match u with U_asleep => U_eval | _ => u end) s calls log done)
| gs_look q p n u s calls log done txn c p' :
    rs_look N p = Some p' ->
    rstep L_guest (RSys q p n (G_wait txn c) u s calls log done) (RSys q p' n (G_wait txn c) u s calls log done)
| gs_take q p n u s calls log done txn c p' pay len total :
    Ring.y_cons p = Ring.C_got pay len total -> rs_pop p = Some p' ->
    rstep L_guest (RSys q p n (G_wait txn c) u s calls log done)
      (match take_answer (Ring.r_data (Ring.y_ring p)) pay len txn c with
       | Some o => RSys q p' n G_free u s calls log (done ++ [((length calls - 1)%nat, o)])
       | None => RSys q p' n (G_wait txn c) u s calls log done
       end)
| gs_timeout q p n u s calls log done txn c :
    Ring.y_cons p = Ring.C_idle -> snd (Ring.peek_iter (Ring.y_ring p) N) = Ring.PEmpty \/ snd (Ring.peek_iter (Ring.y_ring p) N) = Ring.PBad ->
    rstep L_timeout (RSys q p n (G_wait txn c) u s calls log done)
      (RSys q p n G_free u s calls log (done ++ [((length calls - 1)%nat, O_eio)]))
| ps_eval q p n g s calls log done :
    rstep L_pump (RSys q p n g U_eval s calls log done)
      (RSys q p n g (if Ring.nvkvm_ring_has_work (Ring.y_ring q) then U_inner else U_asleep) s calls log done)
| ps_inner q p n g s calls log done :
    rstep L_pump (RSys q p n g U_inner s calls log done)
      (RSys q p n g (if Ring.nvkvm_ring_has_work (Ring.y_ring q) then match s with S_dead => U_pause | _ => U_loop end else U_eval) s calls log done)
| ps_fail q p n g s calls log done :
    Ring.nvkvm_ring_has_work (Ring.y_ring q) = true ->
    rstep L_fault (RSys q p n g U_inner s calls log done) (RSys q p n g U_pause s calls log done)
| ps_pause q p n g s calls log done :
    rstep L_pump (RSys q p n g U_pause s calls log done) (RSys q p n g U_eval s calls log done)
| ss_look q p n g calls log done q' :
    rs_look N q = Some q' ->
    rstep L_stub (RSys q p n g U_loop S_free calls log done) (RSys q' p n g U_loop S_free calls log done)
| ss_exec q p n g calls log done pay len total lookup aux_va driver sp sa ds r :
    Ring.y_cons q = Ring.C_got pay len total ->
    ring_exec_one lookup aux_va driver sp sa (Ring.r_data (Ring.y_ring q)) pay len = (ds, r) ->
    rstep L_stub (RSys q p n g U_loop S_free calls log done)
      (RSys q p n g U_loop (match r with Some r => S_answer r | None => S_pop end) calls (log ++ [(ds, r)]) done)
| ss_reserve q p n g calls log done r p' :
    rs_reserve N (encode_resp r) p = Some p' ->
    rstep L_stub (RSys q p n g U_loop (S_answer r) calls log done) (RSys q p' n g U_loop S_writing calls log done)
| ss_die q p n g calls log done r :
    rs_reserve N (encode_resp r) p = None ->
    rstep L_fault (RSys q p n g U_loop (S_answer r) calls log done) (RSys q p n g U_pause S_dead calls log done)
| ss_write q p n g calls log done p' :
    rs_write p = Some p' ->
    rstep L_stub (RSys q p n g U_loop S_writing calls log done) (RSys q p' n g U_loop S_writing calls log done)
| ss_commit q p n g calls log done p' :
    rs_commit p = Some p' ->
    rstep L_stub (RSys q p n g U_loop S_writing calls log done) (RSys q p' n g U_loop S_pop calls log done)
| ss_pop q p n g calls log done q' :
    rs_pop q = Some q' ->
    rstep L_stub (RSys q p n g U_loop S_pop calls log done) (RSys q' p n g U_loop S_free calls log done)
| ss_return q p n g calls log done :
    Ring.y_cons q = Ring.C_idle -> Ring.nvkvm_ring_has_work (Ring.y_ring q) = false ->
    rstep L_stub (RSys q p n g U_loop S_free calls log done) (RSys q p n g U_inner S_free calls log done).

Definition rsys_init : rsys := RSys (Ring.sys_init N) (Ring.sys_init N) 0 G_free U_eval S_free [] [] [].

Inductive rreach : rsys -> Prop :=
| rr_init : rreach rsys_init
| rr_step l x y : rreach x -> rstep l x y -> rreach y.

(** ** The rings *)

Lemma recs_length d a b q : Ring.recs N d a b q -> 8 * Z.of_nat (length q) <= b - a.
Proof.
  induction 1 as [a|a len b q (_ & _ & ? & _) _ IH|a len b q (_ & _ & ? & _) _ IH]; cbn [length]; lia.
Qed.

(** How much a ring can hold. *)
Lemma ring_outstanding y : Ring.reach N y -> Z.of_nat (length (Ring.y_sent y)) <= Z.of_nat (length (Ring.y_rcvd y)) + 2 ^ 28.
Proof.
  intros (h & t & q & _ & _ & I3 & _ & _ & I6 & I7 & _)%(Ring.reach_inv N k HN Hk).
  apply recs_length in I6. apply Forall2_length in I7. rewrite length_app in I7. pose proof (Ring.N_bounds N k HN Hk). lia.
Qed.

(** The record the consumer looks at is the next message. *)
Lemma ring_record y pay len total :
  Ring.reach N y -> Ring.y_cons y = Ring.C_got pay len total ->
  exists msg, Ring.y_sent y !! length (Ring.y_rcvd y) = Some msg /\ Ring.carries msg (read_bytes (Ring.r_data (Ring.y_ring y)) pay len) /\ 0 <= len.
Proof.
  intros (h & t & q & _ & _ & _ & _ & _ & _ & I7 & _ & I9)%(Ring.reach_inv N k HN Hk) Hc. rewrite Hc in I9. cbn in I9.
  destruct I9 as (-> & -> & (_ & _ & Hg & _) & q' & -> & _). pose proof (Forall2_lookup_r _ _ _ (length (Ring.y_rcvd y)) _ I7 ltac:(by rewrite list_lookup_middle)) as (msg & H1 & H2).
  exists msg. split_and!; [done | done | lia].
Qed.

Lemma ring_idle y :
  Ring.reach N y -> Ring.y_cons y = Ring.C_idle ->
  match snd (Ring.peek_iter (Ring.y_ring y) N) with
  | Ring.PBad => False
  | Ring.PEmpty => length (Ring.y_rcvd y) = length (Ring.y_sent y) /\ Ring.nvkvm_ring_has_work (Ring.y_ring y) = false
  | Ring.PSkip _ | Ring.PData _ _ _ => is_Some (rs_look N y)
  end.
Proof.
  intros (h & t & q & I1 & I2 & I3 & _ & _ & I6 & I7 & _)%(Ring.reach_inv N k HN Hk) Hc. unfold rs_look. rewrite Hc.
  destruct (Ring.peek_iter_spec N k HN Hk _ h t q I1 I2 I3 I6) as [Hp _].
  destruct Hp as [-> -> | |]; [|by eexists ..]. rewrite app_nil_r in I7. split; [by apply Forall2_length in I7 |].
  unfold Ring.nvkvm_ring_has_work. rewrite I1, I2. by rewrite Z.eqb_refl.
Qed.

(** An empty ring with no work has delivered everything. *)
Lemma ring_drained y :
  Ring.reach N y -> Ring.y_cons y = Ring.C_idle -> Ring.nvkvm_ring_has_work (Ring.y_ring y) = false ->
  length (Ring.y_rcvd y) = length (Ring.y_sent y).
Proof.
  intros Hy Hc Hw. pose proof (ring_idle y Hy Hc) as Hi. apply (Ring.reach_inv N k HN Hk) in Hy as (h & t & q & I1 & I2 & I3 & _ & _ & I6 & I7 & _).
  unfold Ring.nvkvm_ring_has_work in Hw. rewrite I1, I2 in Hw. apply negb_false_iff, Z.eqb_eq in Hw.
  pose proof (Ring.N_bounds N k HN Hk). pose proof (Ring.u64_sub_small h t ltac:(lia)) as Hs. rewrite Hw, Z.sub_diag in Hs.
  change (u64 0) with 0 in Hs. assert (h = t) as -> by lia. apply recs_length in I6. destruct q; [|cbn in I6; lia].
  rewrite app_nil_r in I7. by apply Forall2_length in I7.
Qed.

Lemma rs_reserve_step msg y y' : octets msg -> lenb msg < 2 ^ 32 -> rs_reserve N msg y = Some y' -> Ring.step N y y'.
Proof.
  intros Ho Hl. unfold rs_reserve. destruct y as [r p c sent rcvd]. cbn. destruct p; [|done ..].
  destruct (Ring.nvkvm_ring_reserve r N (lenb msg)) as [[[r' pay] total]|] eqn:E; [|done]. intros [= <-]. by apply Ring.st_reserve.
Qed.

Lemma rs_write_step y y' : rs_write y = Some y' -> Ring.step N y y'.
Proof. destruct y as [r p c sent rcvd]. unfold rs_write. cbn. destruct p; [done | |done]. intros [= <-]. apply Ring.st_write. Qed.

Lemma rs_commit_step y y' : rs_commit y = Some y' -> Ring.step N y y'.
Proof. destruct y as [r p c sent rcvd]. unfold rs_commit. cbn. destruct p; [done | done |]. intros [= <-]. apply Ring.st_commit. Qed.

Lemma rs_look_step y y' : rs_look N y = Some y' -> Ring.step N y y'.
Proof.
  destruct y as [r p c sent rcvd]. unfold rs_look. cbn. destruct c; [|done].
  destruct (snd (Ring.peek_iter r N)) eqn:E; [done | done | |]; intros [= <-]; [by apply Ring.st_skip | by apply Ring.st_peek].
Qed.

Lemma rs_pop_step y y' : rs_pop y = Some y' -> Ring.step N y y'.
Proof. destruct y as [r p c sent rcvd]. unfold rs_pop. cbn. destruct c; [done |]. intros [= <-]. apply Ring.st_pop. Qed.

(** ** Transaction ids *)

(** The id of the [i]-th call, and the counter after [n] calls. *)
Definition txn_at (i : nat) : Z := Z.of_nat i mod (2 ^ 32 - 1) + 1.
Definition last_txn (n : nat) : Z := match n with O => 0 | S m => txn_at m end.

Lemma txn_at_range i : 0 < txn_at i < 2 ^ 32.
Proof. unfold txn_at. pose proof (Z.mod_pos_bound (Z.of_nat i) (2 ^ 32 - 1) ltac:(lia)). lia. Qed.

Lemma next_txn_last n : next_txn (last_txn n) = txn_at n.
Proof.
  destruct n as [|m]; [done |]. cbn [last_txn]. pose proof (txn_at_range m) as Hr. unfold next_txn, txn_at in *.
  rewrite Nat2Z.inj_succ. set (x := Z.of_nat m) in *. pose proof (Z.mod_pos_bound x (2 ^ 32 - 1) ltac:(lia)) as Hm.
  destruct (Z.eq_dec (x mod (2 ^ 32 - 1)) (2 ^ 32 - 2)) as [E|E].
  - rewrite E. change (u32 (2 ^ 32 - 2 + 1 + 1)) with 0. cbn [Z.eqb]. change (u32 (0 + 1)) with 1.
    rewrite <- Z.add_1_r, <- Zplus_mod_idemp_l, E. reflexivity.
  - rewrite u32_small by lia. destruct (Z.eqb_spec (x mod (2 ^ 32 - 1) + 1 + 1) 0); [lia |].
    rewrite <- Z.add_1_r, <- Zplus_mod_idemp_l, (Z.mod_small (_ + 1)) by lia. done.
Qed.

(** Ids of calls that are close are different. *)
Lemma txn_at_inj i j : txn_at i = txn_at j -> (i <= j)%nat -> Z.of_nat j < Z.of_nat i + (2 ^ 32 - 1) -> i = j.
Proof.
  unfold txn_at. intros E Hij Hd. assert (Z.of_nat i mod (2 ^ 32 - 1) = Z.of_nat j mod (2 ^ 32 - 1)) as Hm by lia.
  pose proof (Z.div_mod (Z.of_nat i) (2 ^ 32 - 1) ltac:(lia)). pose proof (Z.div_mod (Z.of_nat j) (2 ^ 32 - 1) ltac:(lia)). nia.
Qed.

(** ** The invariant *)

(** What the isolate ran for a call. *)
Definition served (txn : Z) (c : rcall) (e : list drv_call * option ring_ioctl_resp) : Prop :=
  exists lookup aux_va driver sp sa,
    e = (fst (exec_call lookup aux_va driver sp sa txn c), Some (snd (exec_call lookup aux_va driver sp sa txn c))).

Definition answer_of (e : list drv_call * option ring_ioctl_resp) : list Z := encode_resp (default (punt 0 0) (snd e)).

(** The answers written so far, and the isolate's place in the record it works on. *)
Definition stub_inv (q p : Ring.sys) (u : ppc) (s : spc) (log : list (list drv_call * option ring_ioctl_resp)) : Prop :=
  match s with
  | S_free => length log = length (Ring.y_rcvd q) /\ Ring.y_sent p = answer_of <$> log /\ Ring.y_prod p = Ring.P_idle /\
              (Ring.y_cons q <> Ring.C_idle -> u = U_loop)
  | S_pop => length log = S (length (Ring.y_rcvd q)) /\ Ring.y_sent p = answer_of <$> log /\ Ring.y_prod p = Ring.P_idle /\
             (exists pay len total, Ring.y_cons q = Ring.C_got pay len total) /\ u = U_loop
  | S_answer r =>
      exists log0 ds, log = log0 ++ [(ds, Some r)] /\ length log0 = length (Ring.y_rcvd q) /\ Ring.y_sent p = answer_of <$> log0 /\
        Ring.y_prod p = Ring.P_idle /\ (exists pay len total, Ring.y_cons q = Ring.C_got pay len total) /\ u = U_loop
  | S_writing =>
      exists log0 ds r pay total, log = log0 ++ [(ds, Some r)] /\ length log0 = length (Ring.y_rcvd q) /\ Ring.y_sent p = answer_of <$> log0 /\
        (Ring.y_prod p = Ring.P_reserved pay total (encode_resp r) \/ Ring.y_prod p = Ring.P_written pay total (encode_resp r)) /\
        (exists pay len total, Ring.y_cons q = Ring.C_got pay len total) /\ u = U_loop
  | S_dead =>
      exists log0 e, log = log0 ++ [e] /\ length log0 = length (Ring.y_rcvd q) /\ Ring.y_sent p = answer_of <$> log0 /\
        (u = U_pause \/ u = U_eval \/ u = U_inner \/ u = U_asleep)
  end.

Definition guest_inv (q p : Ring.sys) (g : gpc) (calls : list (Z * rcall)) (done : list (nat * routcome)) : Prop :=
  match g with
  | G_free => Ring.y_prod q = Ring.P_idle /\ forall n, n ∈ done.*1 -> (n < length calls)%nat
  | G_fill txn c =>
      rcall_ok c /\ txn = txn_at (length calls) /\ (forall n, n ∈ done.*1 -> (n < length calls)%nat) /\
      exists pay total, Ring.y_prod q = Ring.P_reserved pay total (encode_req txn c) \/ Ring.y_prod q = Ring.P_written pay total (encode_req txn c)
  | G_wake txn c | G_wait txn c =>
      Ring.y_prod q = Ring.P_idle /\ exists n, length calls = S n /\ calls !! n = Some (txn, c) /\
        (forall m, m ∈ done.*1 -> (m < n)%nat) /\ (length (Ring.y_rcvd p) <= n)%nat
  end.

Definition counter_of (g : gpc) (calls : list (Z * rcall)) : nat := match g with G_fill _ _ => S (length calls) | _ => length calls end.

Record rinv (x : rsys) : Prop := {
  ri_req : Ring.reach N (v_req x);
  ri_resp : Ring.reach N (v_resp x);
  ri_sent : Ring.y_sent (v_req x) = (fun t => encode_req (fst t) (snd t)) <$> v_calls x;
  ri_calls : forall i t, v_calls x !! i = Some t -> rcall_ok (snd t) /\ fst t = txn_at i;
  ri_next : v_next x = last_txn (counter_of (v_guest x) (v_calls x));
  ri_log : forall i e, v_log x !! i = Some e -> exists t, v_calls x !! i = Some t /\ served (fst t) (snd t) e;
  ri_stub : stub_inv (v_req x) (v_resp x) (v_pump x) (v_stub x) (v_log x);
  ri_guest : guest_inv (v_req x) (v_resp x) (v_guest x) (v_calls x) (v_done x);
  ri_done : NoDup (v_done x).*1 /\ forall n o, (n, o) ∈ v_done x ->
              o = O_eio \/ exists t ds r, v_calls x !! n = Some t /\ v_log x !! n = Some (ds, Some r) /\ o = outcome_of (snd t) r;
  ri_wake : v_pump x = U_asleep -> Ring.nvkvm_ring_has_work (Ring.y_ring (v_req x)) = false \/ exists txn c, v_guest x = G_wake txn c
}.

Lemma rinv_init : rinv rsys_init.
Proof.
  split; cbn; try done; try apply Ring.reach_init.
  - split; [done |]. by intros n ?%elem_of_nil.
  - split; [constructor |]. by intros n o ?%elem_of_nil.
Qed.

Lemma octets_encode_req txn c : rcall_ok c -> octets (encode_req txn c) /\ lenb (encode_req txn c) < 2 ^ 32.
Proof.
  intros (He & _ & _ & Hp & Ha). apply eligible_sizes in He. rewrite length_encode_req. split; [|lia].
  unfold encode_req, octets. rewrite !Forall_app. split_and!; [apply octets_read | done | done].
Qed.

Lemma octets_answer txn c e r : rcall_ok c -> 0 <= txn < 2 ^ 32 -> served txn c e -> snd e = Some r -> octets (encode_resp r) /\ lenb (encode_resp r) <= 4152.
Proof.
  intros (He & _) Ht (lk & va & dr & sp & sa & ->) [= <-]. apply eligible_sizes in He.
  destruct (exec_call_ok lk va dr sp sa txn c Ht) as ((_ & _ & _ & H1 & H2 & H3 & H4) & _). cbn zeta in *.
  split; [by apply octets_encode |]. unfold lenb at 1. rewrite length_encode. unfold sizeof_resp. unfold lenb in *. lia.
Qed.

(** ** Frames *)

Lemma rs_reserve_frame msg y y' :
  Ring.reach N y -> lenb msg < 2 ^ 32 -> rs_reserve N msg y = Some y' ->
  (exists pay total, Ring.y_prod y' = Ring.P_reserved pay total msg) /\ Ring.y_cons y' = Ring.y_cons y /\ Ring.y_sent y' = Ring.y_sent y /\
  Ring.y_rcvd y' = Ring.y_rcvd y /\ Ring.nvkvm_ring_has_work (Ring.y_ring y') = Ring.nvkvm_ring_has_work (Ring.y_ring y).
Proof.
  intros (h & t & q & I1 & I2 & I3 & _ & I5 & _)%(Ring.reach_inv N k HN Hk) Hl. unfold rs_reserve. destruct (Ring.y_prod y); [|done ..].
  destruct (Ring.nvkvm_ring_reserve (Ring.y_ring y) N (lenb msg)) as [[[r' pay] total]|] eqn:E; [|done]. intros [= <-]. cbn.
  apply (Ring.reserve_spec N k HN Hk _ h t) in E as [-> _]; [|done .. | unfold lenb in *; lia]. split_and!; eauto.
Qed.

Lemma rs_write_frame y y' :
  rs_write y = Some y' ->
  (exists pay total msg, Ring.y_prod y = Ring.P_reserved pay total msg /\ Ring.y_prod y' = Ring.P_written pay total msg) /\
  Ring.y_cons y' = Ring.y_cons y /\ Ring.y_sent y' = Ring.y_sent y /\
  Ring.y_rcvd y' = Ring.y_rcvd y /\ Ring.nvkvm_ring_has_work (Ring.y_ring y') = Ring.nvkvm_ring_has_work (Ring.y_ring y).
Proof. unfold rs_write. destruct (Ring.y_prod y); [done | | done]. intros [= <-]. cbn. split_and!; eauto 6. Qed.

Lemma rs_commit_frame y y' :
  rs_commit y = Some y' ->
  (exists pay total msg, Ring.y_prod y = Ring.P_written pay total msg /\ Ring.y_sent y' = Ring.y_sent y ++ [msg]) /\
  Ring.y_prod y' = Ring.P_idle /\ Ring.y_cons y' = Ring.y_cons y /\ Ring.y_rcvd y' = Ring.y_rcvd y.
Proof. unfold rs_commit. destruct (Ring.y_prod y); [done | done |]. intros [= <-]. cbn. split_and!; eauto 6. Qed.

Lemma rs_look_frame y y' :
  rs_look N y = Some y' ->
  Ring.y_cons y = Ring.C_idle /\ Ring.y_prod y' = Ring.y_prod y /\ Ring.y_sent y' = Ring.y_sent y /\ Ring.y_rcvd y' = Ring.y_rcvd y.
Proof.
  unfold rs_look. destruct (Ring.y_cons y); [|done]. destruct (snd (Ring.peek_iter _ _)); [done | done | |]; intros [= <-]; done.
Qed.

Lemma rs_pop_frame y y' :
  rs_pop y = Some y' ->
  (exists pay len total b, Ring.y_cons y = Ring.C_got pay len total /\ Ring.y_rcvd y' = Ring.y_rcvd y ++ [b]) /\
  Ring.y_cons y' = Ring.C_idle /\ Ring.y_prod y' = Ring.y_prod y /\ Ring.y_sent y' = Ring.y_sent y.
Proof. unfold rs_pop. destruct (Ring.y_cons y); [done |]. intros [= <-]. cbn. split_and!; eauto 6. Qed.

Lemma stub_frame q q' p p' u s log :
  Ring.y_rcvd q' = Ring.y_rcvd q -> Ring.y_cons q' = Ring.y_cons q -> Ring.y_sent p' = Ring.y_sent p -> Ring.y_prod p' = Ring.y_prod p ->
  stub_inv q p u s log -> stub_inv q' p' u s log.
Proof. intros E1 E2 E3 E4. unfold stub_inv. by rewrite E1, E2, E3, E4. Qed.

Lemma guest_frame q q' p p' g calls done :
  Ring.y_prod q' = Ring.y_prod q -> Ring.y_rcvd p' = Ring.y_rcvd p -> guest_inv q p g calls done -> guest_inv q' p' g calls done.
Proof. intros E1 E2. unfold guest_inv. by rewrite E1, E2. Qed.

Lemma ring_rcvd_sent y : Ring.reach N y -> (length (Ring.y_rcvd y) <= length (Ring.y_sent y))%nat.
Proof.
  intros (h & t & q & _ & _ & _ & _ & _ & _ & I7 & _)%(Ring.reach_inv N k HN Hk). apply Forall2_length in I7. rewrite length_app in I7. lia.
Qed.

Lemma counts {q p u s log} {calls : list (Z * rcall)} :
  Ring.reach N p -> (forall i e, log !! i = Some e -> exists t, calls !! i = Some t /\ served (fst t) (snd t) e) -> stub_inv q p u s log ->
  (length (Ring.y_rcvd p) <= length (Ring.y_sent p) <= length log)%nat /\ (length log <= S (length (Ring.y_sent p)))%nat /\
  (length (Ring.y_rcvd q) <= length log <= length calls)%nat.
Proof.
  intros Hp Hl Hs. apply ring_rcvd_sent in Hp. assert (length log <= length calls)%nat.
  { destruct (decide (length log <= length calls)%nat) as [|Hn]; [done |]. destruct (lookup_lt_is_Some_2 log (length calls) ltac:(lia)) as [e He].
    apply Hl in He as (t & Ht%lookup_lt_Some & _). lia. }
  destruct s; cbn in Hs; [destruct Hs as (H1 & H2 & _) | destruct Hs as (log0 & ds & -> & H1 & H2 & _) | destruct Hs as (log0 & ds & r & pay & total & -> & H1 & H2 & _)
    | destruct Hs as (H1 & H2 & _) | destruct Hs as (log0 & e & -> & H1 & H2 & _)];
    apply (f_equal length) in H2; rewrite length_fmap in H2; rewrite ?length_app in *; cbn in *; lia.
Qed.

(** ** Preservation *)

Lemma guest_fill_inv q p n u s calls log done c q' :
  rcall_ok c -> rs_reserve N (encode_req (next_txn n) c) q = Some q' ->
  rinv (RSys q p n G_free u s calls log done) -> rinv (RSys q' p (next_txn n) (G_fill (next_txn n) c) u s calls log done).
Proof.
  intros Hc He [I1 I2 I3 I4 I5 I6 I7 I8 I9 I10]. cbn in *. destruct (octets_encode_req (next_txn n) c Hc) as [Ho Hl].
  destruct (rs_reserve_frame _ _ _ I1 Hl He) as ((pay & total & F1) & F2 & F3 & F4 & F5).
  assert (next_txn n = txn_at (length calls)) as Hn by (rewrite I5; apply next_txn_last).
  split; cbn; try done.
  - eapply Ring.reach_step; [exact I1 |]. by eapply rs_reserve_step.
  - by rewrite F3.
  - by apply (stub_frame q q' p p).
  - destruct I8 as [_ I8]. split_and!; eauto.
  - rewrite F5. intros Hu. destruct (I10 Hu) as [|(? & ? & ?)]; [by left | done].
Qed.

Lemma guest_write_inv q p n u s calls log done txn c q' :
  rs_write q = Some q' ->
  rinv (RSys q p n (G_fill txn c) u s calls log done) -> rinv (RSys q' p n (G_fill txn c) u s calls log done).
Proof.
  intros He [I1 I2 I3 I4 I5 I6 I7 I8 I9 I10]. cbn in *.
  destruct (rs_write_frame _ _ He) as ((pay & total & msg & F0 & F1) & F2 & F3 & F4 & F5).
  split; cbn; try done.
  - eapply Ring.reach_step; [exact I1 |]. by eapply rs_write_step.
  - by rewrite F3.
  - by apply (stub_frame q q' p p).
  - destruct I8 as (H1 & H2 & H3 & pay' & total' & H4). split_and!; try done. exists pay, total. right. rewrite F1.
    rewrite F0 in H4. by destruct H4 as [[= <- <- ->]|].
  - rewrite F5. intros Hu. destruct (I10 Hu) as [|(? & ? & ?)]; [by left | done].
Qed.

Lemma guest_commit_inv q p n u s calls log done txn c q' :
  rs_commit q = Some q' ->
  rinv (RSys q p n (G_fill txn c) u s calls log done) -> rinv (RSys q' p n (G_wake txn c) u s (calls ++ [(txn, c)]) log done).
Proof.
  intros He [I1 I2 I3 I4 I5 I6 I7 I8 I9 I10]. cbn in *.
  destruct (rs_commit_frame _ _ He) as ((pay & total & msg & F0 & F1) & F2 & F3 & F4).
  destruct I8 as (H1 & H2 & H3 & pay' & total' & H4). rewrite F0 in H4. destruct H4 as [|[= <- <- ->]]; [done |].
  assert (forall i t, calls !! i = Some t -> (calls ++ [(txn, c)]) !! i = Some t) as Hm by (intros i t Hi; by apply lookup_app_l_Some).
  split; cbn; try done.
  - eapply Ring.reach_step; [exact I1 |]. by eapply rs_commit_step.
  - by rewrite F1, I3, fmap_app.
  - intros i t [Hi|[Hi Hx]]%lookup_app_Some; [eauto |]. destruct (i - length calls)%nat eqn:Ei; [|done]. injection Hx as <-. cbn.
    split; [done |]. rewrite H2. f_equal. lia.
  - rewrite length_app. cbn. rewrite Nat.add_1_r. done.
  - intros i e Hi. destruct (I6 i e Hi) as (t & Ht & Hs). eauto.
  - by apply (stub_frame q q' p p).
  - split; [done |]. exists (length calls). rewrite length_app. cbn. split_and!; [lia | by apply list_lookup_middle | done |].
    pose proof (counts I2 I6 I7). lia.
  - destruct I9 as [I9 I9']. split; [done |]. intros m o Hmo. destruct (I9' m o Hmo) as [|(t & ds & r & A1 & A2 & A3)]; [by left |].
    right. exists t, ds, r. eauto.
  - intros _. right. eauto.
Qed.

Lemma stub_pump q p u u' s log :
  stub_inv q p u s log -> u <> U_loop -> u' <> U_loop -> stub_inv q p u' s log.
Proof.
  intros Hs H1 H2. destruct s; cbn in *.
  - destruct Hs as (? & ? & ? & H3). split_and!; try done. intros Hc. by apply H3 in Hc.
  - destruct Hs as (? & ? & ? & ? & ? & ? & ? & ?). done.
  - destruct Hs as (? & ? & ? & ? & ? & ? & ? & ? & ? & ? & ?). done.
  - destruct Hs as (? & ? & ? & ? & ?). done.
  - destruct Hs as (log0 & e & ? & ? & ? & ?). exists log0, e. split_and!; try done. destruct u'; auto; done.
Qed.

Lemma guest_wake_inv q p n u s calls log done txn c :
  rinv (RSys q p n (G_wake txn c) u s calls log done) ->
  rinv (RSys q p n (G_wait txn c) (match u with U_asleep => U_eval | _ => u end) s calls log done).
Proof.
  intros [I1 I2 I3 I4 I5 I6 I7 I8 I9 I10]. cbn in *. split; cbn; try done.
  - destruct u; try done. by apply (stub_pump q p U_asleep).
  - intros Hu. by destruct u.
Qed.

Lemma guest_look_inv q p n u s calls log done txn c p' :
  rs_look N p = Some p' -> rinv (RSys q p n (G_wait txn c) u s calls log done) -> rinv (RSys q p' n (G_wait txn c) u s calls log done).
Proof.
  intros He [I1 I2 I3 I4 I5 I6 I7 I8 I9 I10]. cbn in *. destruct (rs_look_frame _ _ He) as (_ & F2 & F3 & F4). split; cbn; try done.
  - eapply Ring.reach_step; [exact I2 |]. by eapply rs_look_step.
  - by apply (stub_frame q q p p').
  - rewrite F4. exact I8.
Qed.

Lemma answers_prefix {q p u s log} : stub_inv q p u s log -> exists l, log = take (length (Ring.y_sent p)) log ++ l /\ Ring.y_sent p = answer_of <$> take (length (Ring.y_sent p)) log.
Proof.
  intros Hs. assert (exists l0 l, log = l0 ++ l /\ Ring.y_sent p = answer_of <$> l0) as (l0 & l & -> & E).
  { destruct s; cbn in Hs; [destruct Hs as (H1 & H2 & _) | destruct Hs as (log0 & ds & -> & H1 & H2 & _)
      | destruct Hs as (log0 & ds & r & pay & total & -> & H1 & H2 & _) | destruct Hs as (H1 & H2 & _) | destruct Hs as (log0 & e & -> & H1 & H2 & _)];
      (eexists; eexists; split; [|exact H2]; try reflexivity; by rewrite app_nil_r). }
  exists l. rewrite E, length_fmap, take_app_length. done.
Qed.

(** The record a waiting call looks at: the answer to a call, and its own exactly when
    the ids agree. *)
Lemma answer_next q p n u s calls log done txn c pay len total :
  rinv (RSys q p n (G_wait txn c) u s calls log done) -> Ring.y_cons p = Ring.C_got pay len total ->
  let j := length (Ring.y_rcvd p) in
  exists ds r, log !! j = Some (ds, Some r) /\
    take_answer (Ring.r_data (Ring.y_ring p)) pay len txn c = if decide (S j = length calls) then Some (outcome_of c r) else None.
Proof.
  intros [I1 I2 I3 I4 I5 I6 I7 I8 I9 I10] Hc j. cbn in *. destruct I8 as (_ & m & Hm & Hlast & _ & Hj).
  destruct (ring_record p pay len total I2 Hc) as (msg & Hmsg & Hcar & Hlen).
  destruct (answers_prefix I7) as (l & Hl & Hsent). rewrite Hsent in Hmsg. apply list_lookup_fmap_Some in Hmsg as (e & -> & He).
  apply lookup_take_Some in He as [He Hlt]. destruct (I6 _ _ He) as ([t0 c0] & Ht & Hse). cbn [fst snd] in Hse.
  destruct (I4 _ _ Ht) as [Hok Htx]. cbn [fst snd] in *. pose proof (txn_at_range j) as Hr. fold j in Htx, Ht, He.
  destruct Hse as (lk & va & dr & sp & sa & ->). destruct (exec_call_ok lk va dr sp sa t0 c0 ltac:(lia)) as (Hro & Hst & _ & _). cbn zeta in *.
  eexists _, _. split; [exact He |]. cbn in Hcar. destruct (I4 _ _ Hlast) as [_ Htm]. cbn [fst] in Htm.
  assert (t0 = txn <-> S j = length calls) as Hiff.
  { split; [|intros Hx; assert (j = m) as Hjm by lia; rewrite Hjm in Ht; congruence].
    intros ->. rewrite Hm. f_equal. apply txn_at_inj; [congruence | lia |].
    pose proof (ring_outstanding q I1). pose proof (ring_outstanding p I2). pose proof (counts I2 I6 I7).
    apply (f_equal length) in I3. rewrite length_fmap in I3. unfold j. lia. }
  rewrite (take_answer_resp c0 c (snd (exec_call lk va dr sp sa t0 c0)) txn); [|exact Hro | apply Hok | | done | exact Hcar].
  - rewrite Hst. destruct (Z.eqb_spec t0 txn) as [E|E]; destruct (decide (S j = length calls)); [|tauto .. | done]. 
    assert (j = m) as Hjm by lia. rewrite Hjm in Ht. congruence.
  - rewrite Hst. intros Hx. apply Hiff in Hx. assert (j = m) as Hjm by lia. rewrite Hjm in Ht. congruence.
Qed.

Lemma done_add n o calls (done : list (nat * routcome)) :
  (forall m, m ∈ done.*1 -> (m < n)%nat) -> length calls = S n -> NoDup done.*1 ->
  NoDup (done ++ [(n, o)]).*1 /\ forall m, m ∈ (done ++ [(n, o)]).*1 -> (m < length (A := Z * rcall) calls)%nat.
Proof.
  intros Hd Hc Hn. rewrite fmap_app. split.
  - apply NoDup_app. split_and!; [done | | apply NoDup_singleton]. intros m Hm ->%list_elem_of_singleton. specialize (Hd _ Hm). cbn in Hd. lia.
  - intros m [Hm|Hm]%elem_of_app; [specialize (Hd _ Hm); lia |]. apply list_elem_of_singleton in Hm as ->. cbn. lia.
Qed.

Lemma guest_take_inv q p n u s calls log done txn c p' pay len total :
  Ring.y_cons p = Ring.C_got pay len total -> rs_pop p = Some p' ->
  rinv (RSys q p n (G_wait txn c) u s calls log done) ->
  rinv (match take_answer (Ring.r_data (Ring.y_ring p)) pay len txn c with
        | Some o => RSys q p' n G_free u s calls log (done ++ [((length calls - 1)%nat, o)])
        | None => RSys q p' n (G_wait txn c) u s calls log done
        end).
Proof.
  intros Hc Hp I. destruct (answer_next _ _ _ _ _ _ _ _ _ _ _ _ _ I Hc) as (ds & r & Hlog & ->).
  destruct I as [I1 I2 I3 I4 I5 I6 I7 I8 I9 I10]. cbn in *. destruct I8 as (H1 & m & H2 & H3 & H4 & H5). destruct I9 as [I9 I9'].
  destruct (rs_pop_frame _ _ Hp) as ((pay' & len' & total' & b & _ & F1) & F2 & F3 & F4).
  assert (Ring.reach N p') as I2' by (eapply Ring.reach_step; [exact I2 |]; by eapply rs_pop_step).
  assert (stub_inv q p' u s log) as I7' by (by apply (stub_frame q q p p')).
  rewrite H2. replace (S m - 1)%nat with m by lia.
  destruct (decide (S (length (Ring.y_rcvd p)) = S m)) as [E|E].
  - destruct (done_add m (outcome_of c r) calls done H4 H2 I9) as [D1 D2]. split; cbn; try done.
    + split; [done |]. intros m0 o [Hm|Hm]%elem_of_app; [by apply I9' |]. apply list_elem_of_singleton in Hm. injection Hm as -> ->. right.
      exists (txn, c), ds, r. injection E as E. rewrite E in Hlog. done.
    + intros Hu. destruct (I10 Hu) as [|(? & ? & ?)]; [by left | done].
  - split; cbn; try done. split; [done |]. exists m. split_and!; try done. rewrite F1, length_app. cbn. lia.
Qed.

Lemma guest_timeout_inv q p n u s calls log done txn c :
  rinv (RSys q p n (G_wait txn c) u s calls log done) -> rinv (RSys q p n G_free u s calls log (done ++ [((length calls - 1)%nat, O_eio)])).
Proof.
  intros [I1 I2 I3 I4 I5 I6 I7 I8 I9 I10]. cbn in *. destruct I8 as (H1 & m & H2 & H3 & H4 & H5). destruct I9 as [I9 I9'].
  replace (length calls - 1)%nat with m by lia. destruct (done_add m O_eio calls done H4 H2 I9) as [D1 D2]. split; cbn; try done.
  - split; [done |]. intros m0 o [Hm|Hm]%elem_of_app; [by apply I9' |]. apply list_elem_of_singleton in Hm. injection Hm as -> ->. by left.
  - intros Hu. destruct (I10 Hu) as [|(? & ? & ?)]; [by left | done].
Qed.

Lemma pump_inv q p n g u u' s calls log done :
  rinv (RSys q p n g u s calls log done) -> stub_inv q p u' s log ->
  (u' = U_asleep -> Ring.nvkvm_ring_has_work (Ring.y_ring q) = false) -> rinv (RSys q p n g u' s calls log done).
Proof. intros [I1 I2 I3 I4 I5 I6 I7 I8 I9 I10] Hs Hu. cbn in *. split; cbn; try done. left. auto. Qed.

Lemma stub_look_inv q p n g calls log done q' :
  rs_look N q = Some q' -> rinv (RSys q p n g U_loop S_free calls log done) -> rinv (RSys q' p n g U_loop S_free calls log done).
Proof.
  intros He [I1 I2 I3 I4 I5 I6 I7 I8 I9 I10]. cbn in *. destruct (rs_look_frame _ _ He) as (_ & F2 & F3 & F4). split; cbn; try done.
  - eapply Ring.reach_step; [exact I1 |]. by eapply rs_look_step.
  - by rewrite F3.
  - rewrite F4. destruct I7 as (? & ? & ? & _). done.
  - by apply (guest_frame q q' p p).
Qed.

Lemma stub_exec_inv q p n g calls log done pay len total lookup aux_va driver sp sa ds r :
  Ring.y_cons q = Ring.C_got pay len total ->
  ring_exec_one lookup aux_va driver sp sa (Ring.r_data (Ring.y_ring q)) pay len = (ds, r) ->
  rinv (RSys q p n g U_loop S_free calls log done) ->
  rinv (RSys q p n g U_loop (match r with Some r => S_answer r | None => S_pop end) calls (log ++ [(ds, r)]) done).
Proof.
  intros Hc He [I1 I2 I3 I4 I5 I6 I7 I8 I9 I10]. cbn in *. destruct I7 as (H1 & H2 & H3 & _).
  destruct (ring_record q pay len total I1 Hc) as (msg & Hmsg & Hcar & Hlen). rewrite I3 in Hmsg.
  apply list_lookup_fmap_Some in Hmsg as ([txn c] & -> & Ht). cbn [fst snd] in Hcar. destruct (I4 _ _ Ht) as [Hok Htx]. cbn [fst snd] in *.
  pose proof (txn_at_range (length (Ring.y_rcvd q))).
  rewrite (exec_one_call lookup aux_va driver sp sa txn c) in He by (done || lia). injection He as <- <-.
  assert (forall i e, log !! i = Some e -> (log ++ [((exec_call lookup aux_va driver sp sa txn c).1, Some (exec_call lookup aux_va driver sp sa txn c).2)]) !! i = Some e) as Hm
    by (intros i e Hi; by apply lookup_app_l_Some).
  split; cbn; try done.
  - intros i e [Hi|[Hi Hx]]%lookup_app_Some; [by apply I6 |]. destruct (i - length log)%nat eqn:Ei; [|done]. injection Hx as <-.
    assert (i = length (Ring.y_rcvd q)) as -> by lia. exists (txn, c). split; [done |]. by exists lookup, aux_va, driver, sp, sa.
  - eexists log, _. split_and!; eauto.
  - destruct I9 as [I9 I9']. split; [done |]. intros m o Hmo. destruct (I9' m o Hmo) as [|(t & ds & r & A1 & A2 & A3)]; [by left |].
    right. exists t, ds, r. eauto.
Qed.

(** A step of the isolate that touches only the response ring. *)
Lemma stub_resp_inv q p p' n g s s' calls log done :
  Ring.step N p p' -> Ring.y_rcvd p' = Ring.y_rcvd p -> stub_inv q p' U_loop s' log ->
  rinv (RSys q p n g U_loop s calls log done) -> rinv (RSys q p' n g U_loop s' calls log done).
Proof.
  intros Hs Hr Hi [I1 I2 I3 I4 I5 I6 I7 I8 I9 I10]. cbn in *. split; cbn; try done.
  - by eapply Ring.reach_step.
  - by apply (guest_frame q q p p').
Qed.

Lemma log_answer {calls : list (Z * rcall)} {log} log0 ds r :
  (forall i t, calls !! i = Some t -> rcall_ok (snd t) /\ fst t = txn_at i) ->
  (forall i e, log !! i = Some e -> exists t, calls !! i = Some t /\ served (fst t) (snd t) e) ->
  log = log0 ++ [(ds, Some r)] -> octets (encode_resp r) /\ lenb (encode_resp r) <= 4152.
Proof.
  intros Hc Hl ->. destruct (Hl (length log0) (ds, Some r)) as (t & Ht & Hs); [by apply list_lookup_middle |].
  destruct (Hc _ _ Ht) as [Hok Htx]. pose proof (txn_at_range (length log0)). apply (octets_answer (fst t) (snd t) (ds, Some r)); try done. lia.
Qed.

Lemma stub_reserve_inv q p n g calls log done r p' :
  rs_reserve N (encode_resp r) p = Some p' ->
  rinv (RSys q p n g U_loop (S_answer r) calls log done) -> rinv (RSys q p' n g U_loop S_writing calls log done).
Proof.
  intros He I. pose proof I as [I1 I2 I3 I4 I5 I6 I7 I8 I9 I10]. cbn in *. destruct I7 as (log0 & ds & H1 & H2 & H3 & H4 & H5 & H6).
  destruct (log_answer log0 ds r I4 I6 H1) as [Ho Hl]. assert (lenb (encode_resp r) < 2 ^ 32) as Hl' by lia.
  destruct (rs_reserve_frame _ _ _ I2 Hl' He) as ((pay & total & F1) & F2 & F3 & F4 & F5).
  apply (stub_resp_inv q p p' n g (S_answer r)); [by eapply rs_reserve_step | done | | done].
  exists log0, ds, r, pay, total. rewrite F3. split_and!; auto.
Qed.

Lemma stub_write_inv q p n g calls log done p' :
  rs_write p = Some p' ->
  rinv (RSys q p n g U_loop S_writing calls log done) -> rinv (RSys q p' n g U_loop S_writing calls log done).
Proof.
  intros He I. pose proof I as [I1 I2 I3 I4 I5 I6 I7 I8 I9 I10]. cbn in *.
  destruct I7 as (log0 & ds & r & pay & total & H1 & H2 & H3 & H4 & H5 & H6).
  destruct (rs_write_frame _ _ He) as ((pay' & total' & msg & F0 & F1) & F2 & F3 & F4 & F5).
  apply (stub_resp_inv q p p' n g S_writing); [by eapply rs_write_step | done | | done].
  rewrite F0 in H4. destruct H4 as [[= <- <- ->]|]; [|done]. exists log0, ds, r, pay', total'. rewrite F3. split_and!; auto.
Qed.

Lemma stub_commit_inv q p n g calls log done p' :
  rs_commit p = Some p' ->
  rinv (RSys q p n g U_loop S_writing calls log done) -> rinv (RSys q p' n g U_loop S_pop calls log done).
Proof.
  intros He I. pose proof I as [I1 I2 I3 I4 I5 I6 I7 I8 I9 I10]. cbn in *.
  destruct I7 as (log0 & ds & r & pay & total & H1 & H2 & H3 & H4 & H5 & H6).
  destruct (rs_commit_frame _ _ He) as ((pay' & total' & msg & F0 & F1) & F2 & F3 & F4).
  apply (stub_resp_inv q p p' n g S_writing); [by eapply rs_commit_step | done | | done].
  rewrite F0 in H4. destruct H4 as [|[= <- <- ->]]; [done |]. rewrite H1. split_and!; try done.
  - rewrite length_app. cbn. lia.
  - by rewrite F1, H3, fmap_app.
Qed.

Lemma stub_pop_inv q p n g calls log done q' :
  rs_pop q = Some q' -> rinv (RSys q p n g U_loop S_pop calls log done) -> rinv (RSys q' p n g U_loop S_free calls log done).
Proof.
  intros He [I1 I2 I3 I4 I5 I6 I7 I8 I9 I10]. cbn in *. destruct I7 as (H1 & H2 & H3 & _).
  destruct (rs_pop_frame _ _ He) as ((pay' & len' & total' & b & _ & F1) & F2 & F3 & F4). split; cbn; try done.
  - eapply Ring.reach_step; [exact I1 |]. by eapply rs_pop_step.
  - by rewrite F4.
  - split_and!; [|done | done | done]. rewrite F1, length_app. cbn. lia.
  - by apply (guest_frame q q' p p).
Qed.

Lemma rinv_step l x y : rstep l x y -> rinv x -> rinv y.
Proof.
  destruct 1 as [| | | | | | | | q p n g s calls log done | | | | | | | | | |].
  - by apply guest_fill_inv.
  - by apply guest_write_inv.
  - by apply guest_commit_inv.
  - by apply guest_wake_inv.
  - by apply guest_look_inv.
  - by eapply guest_take_inv.
  - by apply guest_timeout_inv.
  - intros I. apply (pump_inv _ _ _ _ U_eval); [done | |].
    + apply (stub_pump _ _ U_eval); [apply I | done | by destruct (Ring.nvkvm_ring_has_work _)].
    + by destruct (Ring.nvkvm_ring_has_work _).
  - intros I. apply (pump_inv _ _ _ _ U_inner); [done | |].
    + pose proof (ri_stub _ I) as Hs. cbn in Hs. destruct (Ring.nvkvm_ring_has_work _); [|by apply (stub_pump _ _ U_inner)].
      destruct s; cbn in Hs |- *; try by apply (stub_pump _ _ U_inner) in Hs.
      * destruct Hs as (? & ? & ? & _). done.
      * destruct Hs as (? & ? & ? & ? & ? & ? & ? & ?). done.
      * destruct Hs as (? & ? & ? & ? & ? & ? & ? & ? & ? & ? & ?). done.
      * destruct Hs as (? & ? & ? & ? & ?). done.
      * destruct Hs as (log0 & e & ? & ? & ? & _). exists log0, e. auto.
    + destruct (Ring.nvkvm_ring_has_work _); [by destruct s | done].
  - intros I. apply (pump_inv _ _ _ _ U_inner); [done | | done]. apply (stub_pump _ _ U_inner); [apply I | done | done].
  - intros I. apply (pump_inv _ _ _ _ U_pause); [done | | done]. apply (stub_pump _ _ U_pause); [apply I | done | done].
  - by apply stub_look_inv.
  - by eapply stub_exec_inv.
  - by apply stub_reserve_inv.
  - intros I. pose proof (ri_stub _ I) as (log0 & ds & H1 & H2 & H3 & _). destruct I as [I1 I2 I3 I4 I5 I6 I7 I8 I9 I10]. cbn in *.
    split; cbn; try done. exists log0. eauto 8.
  - by apply stub_write_inv.
  - by apply stub_commit_inv.
  - by apply stub_pop_inv.
  - intros I. apply (pump_inv _ _ _ _ U_loop); [done | | done]. pose proof (ri_stub _ I) as (H1 & H2 & H3 & _). split_and!; try done.
Qed.

Lemma rreach_inv x : rreach x -> rinv x.
Proof. induction 1; [apply rinv_init | by eapply rinv_step]. Qed.

(** C9. [ring_call_exactly_once]: the isolate runs the calls put on the ring in order, each
    at most once; a call that returns an answer returns that of its own run, even
    when earlier calls gave up and their answers are still on the ring; and a call
    told to take the other path has not been run. *)
Theorem ring_call_exactly_once (x : rsys) :
  rreach x ->
  (length (v_log x) <= length (v_calls x))%nat /\ NoDup (v_done x).*1 /\
  (forall n e, v_log x !! n = Some e -> exists txn c, v_calls x !! n = Some (txn, c) /\ served txn c e /\ (length (fst e) <= 1)%nat) /\
  (forall n o, (n, o) ∈ v_done x -> exists txn c, v_calls x !! n = Some (txn, c) /\
     (o = O_eio \/ exists e r, v_log x !! n = Some (e, Some r) /\ o = outcome_of c r /\ (o = O_punt -> e = []))).
Proof.
  intros [I1 I2 I3 I4 I5 I6 I7 I8 I9 I10]%rreach_inv. pose proof (counts I2 I6 I7) as (_ & _ & _ & Hl).
  assert (forall n e, v_log x !! n = Some e -> exists t, v_calls x !! n = Some t /\ served (fst t) (snd t) e /\
            exists r, snd e = Some r /\ (length (fst e) <= 1)%nat /\ (s_flags r <> 0 -> fst e = [])) as Hs.
  { intros n e (t & Ht & Hs)%I6. exists t. split_and!; [done | done |]. destruct (I4 _ _ Ht) as [_ Htx]. pose proof (txn_at_range n).
    destruct Hs as (lk & va & dr & sp & sa & ->). destruct (exec_call_ok lk va dr sp sa (fst t) (snd t) ltac:(lia)) as (_ & _ & H1 & H2). eauto. }
  split_and!; [done | apply I9 | |].
  - intros n e ([txn c] & Ht & Hse & r & _ & H1 & _)%Hs. exists txn, c. done.
  - intros n o Hno. assert (is_Some (v_calls x !! n)) as [[txn c] Ht].
    { apply lookup_lt_is_Some. assert (n ∈ (v_done x).*1) as Hin by (apply list_elem_of_fmap; by exists (n, o)).
      destruct (v_guest x); cbn in I8; [by apply I8 | by apply I8 | |]; destruct I8 as (_ & m & H1 & _ & H2 & _); specialize (H2 _ Hin); lia. }
    exists txn, c. split; [done |]. destruct (proj2 I9 n o Hno) as [|(t & ds & r & A1 & A2 & ->)]; [by left |]. right.
    rewrite Ht in A1. injection A1 as <-. exists ds, r. split_and!; [done | done |]. destruct (Hs _ _ A2) as (_ & _ & _ & r' & [= <-] & _ & Hf).
    unfold outcome_of. intros Ho. apply Hf. intros E. by rewrite E in Ho.
Qed.

(** ** Completion *)

Definition bytes_in (y : Ring.sys) : Z := u64 (Ring.r_tail (Ring.y_ring y) - Ring.r_head (Ring.y_ring y)).
Definition load (y : Ring.sys) : Z := 2 * bytes_in y + match Ring.y_cons y with Ring.C_idle => 1 | _ => 0 end.

Lemma bytes_inv y h t : Ring.r_head (Ring.y_ring y) = u64 h -> Ring.r_tail (Ring.y_ring y) = u64 t -> h <= t <= h + N -> bytes_in y = t - h.
Proof. intros H1 H2 H3. unfold bytes_in. rewrite H1, H2. apply Ring.u64_sub_small. pose proof (Ring.N_bounds N k HN Hk). lia. Qed.

Lemma load_range y : Ring.reach N y -> 0 <= load y <= 2 * N + 1.
Proof.
  intros (h & t & q & I1 & I2 & I3 & _)%(Ring.reach_inv N k HN Hk). unfold load. rewrite (bytes_inv y h t I1 I2 I3). destruct (Ring.y_cons y); lia.
Qed.

Lemma look_load y y' : Ring.reach N y -> rs_look N y = Some y' -> load y' < load y.
Proof.
  intros (h & t & q & I1 & I2 & I3 & _ & _ & I6 & _)%(Ring.reach_inv N k HN Hk). unfold rs_look, load.
  destruct (Ring.peek_iter_spec N k HN Hk _ h t q I1 I2 I3 I6) as [Hp _]. destruct (Ring.y_cons y) eqn:Ec; [|done].
  destruct Hp as [| len Hg Hr | len q' Hg Hr Hq]; [done | |]; intros [= <-]; cbn [Ring.y_cons].
  - rewrite (bytes_inv y h t I1 I2 I3). apply (Ring.recs_le N k Hk) in Hr. destruct Hg as (_ & _ & ? & _).
    rewrite (bytes_inv (Ring.Sys _ _ _ _ _) (h + len) t); cbn; [lia | done | done | lia].
  - unfold bytes_in. cbn. lia.
Qed.

Lemma pop_load y y' : Ring.reach N y -> rs_pop y = Some y' -> load y' + 14 < load y.
Proof.
  intros (h & t & q & I1 & I2 & I3 & _ & _ & I6 & _ & _ & I9)%(Ring.reach_inv N k HN Hk). unfold rs_pop, load.
  destruct (Ring.y_cons y) as [|pay len total] eqn:Ec; [done |]. intros [= <-]. cbn [Ring.y_cons].
  cbn in I9. destruct I9 as (-> & -> & (_ & _ & Hg & _) & q' & -> & Hr). apply (Ring.recs_le N k Hk) in Hr. rewrite (bytes_inv y h t I1 I2 I3).
  rewrite (bytes_inv (Ring.Sys _ _ _ _ _) (h + total) t); cbn; [lia | by rewrite I1, Ring.u64_add | done | lia].
Qed.

Lemma load_same y y' : Ring.r_head (Ring.y_ring y') = Ring.r_head (Ring.y_ring y) -> Ring.r_tail (Ring.y_ring y') = Ring.r_tail (Ring.y_ring y) ->
  Ring.y_cons y' = Ring.y_cons y -> load y' = load y.
Proof. intros E1 E2 E3. unfold load, bytes_in. by rewrite E1, E2, E3. Qed.

(** An empty ring of some size takes any answer. *)
Lemma reserve_empty y msg :
  2 ^ 14 <= N -> Ring.reach N y -> Ring.y_prod y = Ring.P_idle -> snd (Ring.peek_iter (Ring.y_ring y) N) = Ring.PEmpty -> lenb msg < 2 ^ 13 - 15 ->
  is_Some (rs_reserve N msg y).
Proof.
  intros HN2 (h & t & q & I1 & I2 & I3 & _ & I5 & I6 & _)%(Ring.reach_inv N k HN Hk) Hp He Hl.
  destruct (Ring.peek_iter_spec N k HN Hk _ h t q I1 I2 I3 I6) as [Hpk _]. rewrite He in Hpk. inversion Hpk; subst t.
  unfold rs_reserve. rewrite Hp. assert (is_Some (Ring.nvkvm_ring_reserve (Ring.y_ring y) N (lenb msg))) as [[[r' pay] total] ->]; [|by eexists].
  unfold Ring.nvkvm_ring_reserve. rewrite (Ring.N_size_ok N k HN Hk), I1, I2, (Ring.off_mod N k HN Hk), Ring.u64_sub_small by lia.
  cbn [negb]. cbv zeta. assert (0 <= lenb msg) by (unfold lenb; lia). pose proof (Ring.N_bounds N k HN Hk). pose proof (Ring.mod_N_range N k HN Hk h).
  destruct (Ring.roundup_spec (u32 (Ring.sizeof_rec + lenb msg))) as [R1 _]; [rewrite u32_small; unfold Ring.sizeof_rec; lia |].
  revert R1. rewrite (u32_small (Ring.sizeof_rec + lenb msg)) by (unfold Ring.sizeof_rec; lia). generalize (Ring.nvkvm_ring_roundup (Ring.sizeof_rec + lenb msg)).
  unfold Ring.sizeof_rec. intros rec R1. rewrite Z.sub_diag, (u64_small (N - 0)), (u64_small (N - h mod N)) by lia.
  rewrite (proj2 (Z.ltb_ge N rec)), (proj2 (Z.ltb_ge N (lenb msg))) by lia. cbn [orb]. destruct (Z.leb_spec rec (N - h mod N)).
  - rewrite (proj2 (Z.ltb_ge (N - 0) rec)) by lia. by eexists.
  - rewrite u64_small, (proj2 (Z.ltb_ge _ _)) by lia. by eexists.
Qed.

Definition stub_stage (s : spc) (p : Ring.sys) : Z :=
  match s, Ring.y_prod p with
  | S_free, _ => 6
  | S_answer _, _ => 5
  | S_writing, Ring.P_reserved _ _ _ => 4
  | S_writing, _ => 3
  | S_pop, _ => 2
  | S_dead, _ => 0
  end.

Definition pump_stage (u : ppc) : Z := match u with U_asleep => 0 | U_pause => 3 | U_eval => 2 | U_inner => 1 | U_loop => 0 end.

Definition host_work (x : rsys) : Z := 16 * load (v_req x) + stub_stage (v_stub x) (v_resp x) + pump_stage (v_pump x).

(** What is left to do before a waiting call has its answer. *)
Definition work_left (x : rsys) : Z := host_work x * (4 * N + 8) + load (v_resp x).

Lemma work_less x y : Ring.reach N (v_resp x) -> Ring.reach N (v_resp y) -> host_work y < host_work x -> work_left y < work_left x.
Proof.
  intros H1%load_range H2%load_range Hw. unfold work_left. pose proof (Ring.N_bounds N k HN Hk). nia.
Qed.

Lemma work_nonneg x : rinv x -> 0 <= work_left x.
Proof.
  intros [I1 I2 _ _ _ _ _ _ _ _]. unfold work_left, host_work. pose proof (load_range _ I1). pose proof (load_range _ I2). pose proof (Ring.N_bounds N k HN Hk).
  assert (0 <= stub_stage (v_stub x) (v_resp x)) by (unfold stub_stage; destruct (v_stub x), (Ring.y_prod (v_resp x)); lia).
  assert (0 <= pump_stage (v_pump x)) by (destruct (v_pump x); cbn; lia). nia.
Qed.

Definition helpful (l : rlabel) : Prop := l = L_guest \/ l = L_pump \/ l = L_stub.

(** One step towards the answer. *)
Definition advances (txn : Z) (c : rcall) (x : rsys) : Prop :=
  exists l y, helpful l /\ rstep l x y /\ v_calls y = v_calls x /\
    ((exists r, v_guest y = G_free /\ ((length (v_calls x) - 1)%nat, outcome_of c r) ∈ v_done y) \/
     (v_guest y = G_wait txn c /\ v_stub y <> S_dead /\ work_left y < work_left x)).

(** The isolate's part: the response ring is empty, so the answer is still to be made. *)
Lemma stub_advances q p n s calls log done txn c :
  2 ^ 14 <= N -> rinv (RSys q p n (G_wait txn c) U_loop s calls log done) -> s <> S_dead -> Ring.y_cons p = Ring.C_idle ->
  snd (Ring.peek_iter (Ring.y_ring p) N) = Ring.PEmpty -> Ring.nvkvm_ring_has_work (Ring.y_ring q) = true \/ s <> S_free \/ Ring.y_cons q <> Ring.C_idle ->
  advances txn c (RSys q p n (G_wait txn c) U_loop s calls log done).
Proof.
  intros HN2 I Hd Hpc Hpe Hw. pose proof I as [I1 I2 I3 I4 I5 I6 I7 I8 I9 I10]. cbn in *.
  assert (forall y l, helpful l -> rstep l (RSys q p n (G_wait txn c) U_loop s calls log done) y -> v_calls y = calls -> v_guest y = G_wait txn c ->
            v_stub y <> S_dead -> host_work y < 16 * load q + stub_stage s p + 0 -> advances txn c (RSys q p n (G_wait txn c) U_loop s calls log done)) as Hgo.
  { intros y l Hl Hs Hc Hg Hsd Hlt. exists l, y. split_and!; try done. right. split_and!; try done.
    apply work_less; [done | | done]. by apply (rinv_step _ _ _ Hs). }
  destruct s as [|r| | |]; [| | | |done].
  - destruct (Ring.y_cons q) as [|pay len total] eqn:Ec.
    + pose proof (ring_idle q I1 Ec) as Hi. destruct (snd (Ring.peek_iter (Ring.y_ring q) N)) eqn:Ek; [| done | |];
        [destruct Hi as [_ Hi]; rewrite Hi in Hw; by destruct Hw as [|[|]] | |];
        (destruct Hi as [q' Hq']; apply (Hgo _ L_stub ltac:(unfold helpful; auto) (ss_look q p n _ calls log done q' Hq')); try done;
         pose proof (look_load q q' I1 Hq'); unfold host_work; cbn; lia).
    + destruct (ring_exec_one (fun _ => 0) 0 (fun _ => (0, ∅, ∅)) ∅ ∅ (Ring.r_data (Ring.y_ring q)) pay len) as [ds r] eqn:Ee.
      apply (Hgo _ L_stub ltac:(unfold helpful; auto) (ss_exec q p n _ calls log done _ _ _ _ _ _ _ _ _ _ Ec Ee)); try done.
      * cbn. by destruct r.
      * unfold host_work, stub_stage. cbn. destruct r; lia.
  - destruct I7 as (log0 & ds & H1 & H2 & H3 & H4 & H5 & H6). destruct (log_answer log0 ds r I4 I6 H1) as [Ho Hl].
    destruct (reserve_empty p (encode_resp r) HN2 I2 H4 Hpe ltac:(lia)) as [p' Hp'].
    destruct (rs_reserve_frame (encode_resp r) p p' I2 ltac:(lia) Hp') as ((pay & total & F1) & _).
    apply (Hgo _ L_stub ltac:(unfold helpful; auto) (ss_reserve q p n _ calls log done r p' Hp')); try done.
    unfold host_work, stub_stage. cbn. rewrite F1. lia.
  - destruct I7 as (log0 & ds & r & pay & total & H1 & H2 & H3 & [H4|H4] & H5 & H6).
    + assert (is_Some (rs_write p)) as [p' Hp'] by (unfold rs_write; rewrite H4; by eexists).
      destruct (rs_write_frame _ _ Hp') as ((pay' & total' & msg & F0 & F1) & _).
      apply (Hgo _ L_stub ltac:(unfold helpful; auto) (ss_write q p n _ calls log done p' Hp')); try done.
      unfold host_work, stub_stage. cbn. rewrite F1, H4. lia.
    + assert (is_Some (rs_commit p)) as [p' Hp'] by (unfold rs_commit; rewrite H4; by eexists).
      apply (Hgo _ L_stub ltac:(unfold helpful; auto) (ss_commit q p n _ calls log done p' Hp')); try done.
      unfold host_work, stub_stage. cbn. rewrite H4. lia.
  - destruct I7 as (_ & _ & _ & (pay & len & total & Ec) & _). assert (is_Some (rs_pop q)) as [q' Hq'] by (unfold rs_pop; rewrite Ec; by eexists).
    apply (Hgo _ L_stub ltac:(unfold helpful; auto) (ss_pop q p n _ calls log done q' Hq')); try done.
    pose proof (pop_load q q' I1 Hq'). unfold host_work, stub_stage. cbn. lia.
Qed.

Lemma call_advances q p n u s calls log done txn c :
  2 ^ 14 <= N -> rinv (RSys q p n (G_wait txn c) u s calls log done) -> s <> S_dead ->
  advances txn c (RSys q p n (G_wait txn c) u s calls log done).
Proof.
  intros HN2 I Hd. pose proof I as [I1 I2 I3 I4 I5 I6 I7 I8 I9 I10]. cbn in I1, I2, I3, I4, I6, I7, I8, I10.
  destruct (Ring.y_cons p) as [|pay len total] eqn:Ec.
  - pose proof (ring_idle p I2 Ec) as Hi. destruct (snd (Ring.peek_iter (Ring.y_ring p) N)) eqn:Ek; [| done | |].
    2, 3: destruct Hi as [p' Hp']; exists L_guest, (RSys q p' n (G_wait txn c) u s calls log done);
      (split_and!; [by left | by apply gs_look | done |]; right; split_and!; [done | done |];
       pose proof (look_load p p' I2 Hp'); destruct (rs_look_frame _ _ Hp') as (_ & F & _); unfold work_left, host_work, stub_stage; cbn; rewrite F; lia).
    destruct Hi as [Hdr _].
    assert (Ring.nvkvm_ring_has_work (Ring.y_ring q) = true \/ s <> S_free \/ Ring.y_cons q <> Ring.C_idle) as Hw.
    { destruct (Ring.nvkvm_ring_has_work (Ring.y_ring q)) eqn:Ew; [by left | right].
      destruct s; [|by left ..]. right. intros Eq. pose proof (ring_drained q I1 Eq Ew) as Hq. destruct I7 as (H1 & H2 & _ & _).
      destruct I8 as (_ & m & H3 & _ & _ & H4). apply (f_equal length) in H2. rewrite length_fmap in H2. apply (f_equal length) in I3. rewrite length_fmap in I3. lia. }
    destruct (decide (u = U_loop)) as [->|Hu]; [by apply stub_advances |].
    assert (s = S_free /\ Ring.y_cons q = Ring.C_idle) as [-> Eq].
    { destruct s; cbn in I7; [|by destruct I7 as (? & ? & ? & ? & ? & ? & ? & ?) | by destruct I7 as (? & ? & ? & ? & ? & ? & ? & ? & ? & ? & ?)
        | by destruct I7 as (? & ? & ? & ? & ?) | done].
      split; [done |]. destruct I7 as (_ & _ & _ & H1). destruct (Ring.y_cons q); [done |]. by destruct Hu; apply H1. }
    destruct Hw as [Hw|[|]]; [| done | done].
    assert (forall u' y, y = RSys q p n (G_wait txn c) u' S_free calls log done -> rstep L_pump (RSys q p n (G_wait txn c) u S_free calls log done) y ->
              pump_stage u' < pump_stage u -> advances txn c (RSys q p n (G_wait txn c) u S_free calls log done)) as Hgo.
    { intros u' y -> Hs Hlt. exists L_pump, (RSys q p n (G_wait txn c) u' S_free calls log done). split_and!; [by right; left | done | done |].
      right. split_and!; [done | done |]. apply work_less; [done | done |]. unfold host_work. cbn in *. lia. }
    destruct u; [| | | done |].
    + eapply (Hgo U_inner); [| apply ps_eval |]; [by rewrite Hw | cbn; lia].
    + destruct (I10 eq_refl) as [E|(? & ? & ?)]; [congruence | done].
    + eapply (Hgo U_loop); [| apply ps_inner |]; [by rewrite Hw | cbn; lia].
    + eapply (Hgo U_eval); [| apply ps_pause |]; [done | cbn; lia].
  - assert (is_Some (rs_pop p)) as [p' Hp'] by (unfold rs_pop; rewrite Ec; by eexists).
    destruct (answer_next _ _ _ _ _ _ _ _ _ _ _ _ _ I Ec) as (ds & r & _ & Hta).
    pose proof (gs_take q p n u s calls log done txn c p' pay len total Ec Hp') as Hs. rewrite Hta in Hs.
    destruct (decide (S (length (Ring.y_rcvd p)) = length calls)); eexists L_guest, _; (split_and!; [by left | exact Hs | done |]).
    + left. exists r. split; [done |]. apply elem_of_app. right. by apply list_elem_of_singleton.
    + right. split_and!; [done | done |]. pose proof (pop_load p p' I2 Hp'). destruct (rs_pop_frame _ _ Hp') as (_ & _ & F & _).
      unfold work_left, host_work, stub_stage. cbn. rewrite F. lia.
Qed.

Inductive rrun : rsys -> rsys -> Prop :=
| rn_refl x : rrun x x
| rn_step l x y z : helpful l -> rstep l x y -> rrun y z -> rrun x z.

(** C10. [ring_call_completes]: a call that waits is never stuck.  As long as the isolate
    lives there is a run of the guest, the pump and the isolate, with no further
    timeout or fault, at whose end the call has returned with its own answer: no
    wake-up of the pump is lost, and the isolate always finds room to answer. *)
Theorem ring_call_completes (x : rsys) (txn : Z) (c : rcall) :
  2 ^ 14 <= N -> rreach x -> v_guest x = G_wait txn c -> v_stub x <> S_dead ->
  exists y r, rrun x y /\ v_guest y = G_free /\ ((length (v_calls x) - 1)%nat, outcome_of c r) ∈ v_done y.
Proof.
  intros HN2 I%rreach_inv Hg Hd. remember (Z.to_nat (work_left x)) as m eqn:Em. revert x I Hg Hd Em.
  induction (lt_wf m) as [m _ IH]. intros [q p n g u s calls log done] I Hg Hd Em. cbn in Hg, Hd. subst g.
  destruct (call_advances q p n u s calls log done txn c HN2 I Hd) as (l & y & Hl & Hs & Hc & [(r & H1 & H2)|(H1 & H2 & H3)]).
  - exists y, r. split_and!; [by eapply rn_step; [| | apply rn_refl] | done | done].
  - pose proof (rinv_step _ _ _ Hs I) as I'. pose proof (work_nonneg _ I').
    destruct (IH (Z.to_nat (work_left y)) ltac:(lia) y I' H1 H2 eq_refl) as (z & r & A1 & A2 & A3).
    exists z, r. split_and!; [by eapply rn_step | done |]. by rewrite <- Hc.
Qed.

(** ** A scheduler *)

(** One run of the system: the guest moves when it can, then the pump, then the
    isolate, which runs the calls with the functions given. *)
Section schedule.
Context (lookup : Z -> Z) (aux_va : Z) (driver : drv_call -> Z * bytes * bytes).

Definition sched_stub (x : rsys) : option rsys :=
  let '(RSys q p n g u s calls log done) := x in
  match u, s with
  | U_loop, S_free =>
      match Ring.y_cons q with
      | Ring.C_got pay len _ =>
          let '(ds, r) := ring_exec_one lookup aux_va driver ∅ ∅ (Ring.r_data (Ring.y_ring q)) pay len in
          Some (RSys q p n g U_loop (match r with Some r => S_answer r | None => S_pop end) calls (log ++ [(ds, r)]) done)
      | Ring.C_idle => (fun q' => RSys q' p n g U_loop S_free calls log done) <$> rs_look N q
      end
  | U_loop, S_answer r => (fun p' => RSys q p' n g U_loop S_writing calls log done) <$> rs_reserve N (encode_resp r) p
  | U_loop, S_writing =>
      match rs_write p with
      | Some p' => Some (RSys q p' n g U_loop S_writing calls log done)
      | None => (fun p' => RSys q p' n g U_loop S_pop calls log done) <$> rs_commit p
      end
  | U_loop, S_pop => (fun q' => RSys q' p n g U_loop S_free calls log done) <$> rs_pop q
  | U_eval, _ => Some (RSys q p n g (if Ring.nvkvm_ring_has_work (Ring.y_ring q) then U_inner else U_asleep) s calls log done)
  | U_inner, _ => Some (RSys q p n g (if Ring.nvkvm_ring_has_work (Ring.y_ring q) then match s with S_dead => U_pause | _ => U_loop end else U_eval) s calls log done)
  | U_pause, _ => Some (RSys q p n g U_eval s calls log done)
  | _, _ => None
  end.

Definition sched (x : rsys) : option rsys :=
  let '(RSys q p n g u s calls log done) := x in
  match g with
  | G_free => None
  | G_fill txn c =>
      match rs_write q with
      | Some q' => Some (RSys q' p n g u s calls log done)
      | None => (fun q' => RSys q' p n (G_wake txn c) u s (calls ++ [(txn, c)]) log done) <$> rs_commit q
      end
  | G_wake txn c => Some (RSys q p n (G_wait txn c) (match u with U_asleep => U_eval | _ => u end) s calls log done)
  | G_wait txn c =>
      match Ring.y_cons p, rs_pop p, rs_look N p with
      | Ring.C_got pay len _, Some p', _ =>
          Some (match take_answer (Ring.r_data (Ring.y_ring p)) pay len txn c with
                | Some o => RSys q p' n G_free u s calls log (done ++ [((length calls - 1)%nat, o)])
                | None => RSys q p' n (G_wait txn c) u s calls log done
                end)
      | _, _, Some p' => Some (RSys q p' n g u s calls log done)
      | _, _, None => sched_stub x
      end
  end.

Lemma sched_stub_step x y : sched_stub x = Some y -> exists l, rstep l x y.
Proof.
  destruct x as [q p n g u s calls log done]. unfold sched_stub.
  destruct u.
  1: intros [= <-]; exists L_pump; apply ps_eval.
  1: by destruct s; intros [=].
  1: intros [= <-]; exists L_pump; apply ps_inner.
  2: intros [= <-]; exists L_pump; apply ps_pause.
  destruct s as [|r| | |].
  - destruct (Ring.y_cons q) as [|pay len total] eqn:Ec.
    + destruct (rs_look N q) eqn:E; [|done]. intros [= <-]. eexists. by constructor.
    + destruct (ring_exec_one _ _ _ _ _ _ _ _) as [ds r] eqn:E. intros [= <-]. eexists. by eapply ss_exec.
  - destruct (rs_reserve _ _ _) eqn:E; [|done]. intros [= <-]. eexists. by constructor.
  - destruct (rs_write p) eqn:E; [intros [= <-]; eexists; by constructor |]. destruct (rs_commit p) eqn:E'; [|done]. intros [= <-]. eexists. by apply ss_commit.
  - destruct (rs_pop q) eqn:E; [|done]. intros [= <-]. eexists. by constructor.
  - done.
Qed.

Lemma sched_step x y : sched x = Some y -> exists l, rstep l x y.
Proof.
  destruct x as [q p n g u s calls log done]. unfold sched. destruct g as [|txn c|txn c|txn c]; [done | | |].
  - destruct (rs_write q) eqn:E; [intros [= <-]; eexists; by constructor |]. destruct (rs_commit q) eqn:E'; [|done]. intros [= <-]. eexists. by apply gs_commit.
  - intros [= <-]. eexists. by constructor.
  - destruct (Ring.y_cons p) as [|pay len total] eqn:Ec.
    + destruct (rs_look N p) eqn:E; [intros [= <-]; eexists; by constructor | apply sched_stub_step].
    + destruct (rs_pop p) eqn:E; [intros [= <-]; eexists; by eapply gs_take |].
      destruct (rs_look N p) eqn:E'; [intros [= <-]; eexists; by constructor | apply sched_stub_step].
Qed.

(** At most [fuel] steps of the schedule. *)
Fixpoint sched_run (fuel : nat) (x : rsys) : rsys :=
  match fuel with O => x | S fuel => match sched x with Some y => sched_run fuel y | None => x end end.

Lemma sched_reach fuel x : rreach x -> rreach (sched_run fuel x).
Proof.
  revert x. induction fuel as [|fuel IH]; intros x Hr; cbn; [done |]. destruct (sched x) eqn:E; [|done].
  apply IH. destruct (sched_step _ _ E) as [l Hs]. by eapply rr_step.
Qed.
End schedule.
End system.

(** ** A call on a fresh ring *)

Definition ex_call : rcall := RCall 1 0xc020462a (replicate 32 0) [].
Definition ex_begin : rsys :=
  RSys (default (Ring.sys_init (2 ^ 14)) (rs_reserve (2 ^ 14) (encode_req 1 ex_call) (Ring.sys_init (2 ^ 14)))) (Ring.sys_init (2 ^ 14)) 1
    (G_fill 1 ex_call) U_eval S_free [] [] [].
Definition ex_driver (c : drv_call) : Z * bytes * bytes := (0, put32 (c_param c) 24 7, c_aux c).
Definition ex_waiting : rsys := sched_run (2 ^ 14) (fun _ => 5) 0 ex_driver 3 ex_begin.
Definition ex_finished : rsys := sched_run (2 ^ 14) (fun _ => 5) 0 ex_driver 40 ex_begin.

Lemma ex_begin_reach : rreach (2 ^ 14) ex_begin.
Proof.
  eapply (rr_step _ L_guest); [apply rr_init |]. apply (gs_start _ _ _ 0); [|vm_compute; reflexivity].
  split_and!; [vm_compute; reflexivity | cbn; lia | cbn; lia | cbn; lia | cbn; lia | |]; cbn; repeat constructor; lia.
Qed.

Lemma ring_call_exactly_once_witness :
  v_done ex_finished = [(0%nat, O_done 0 0 (replicate 24 0 ++ [7; 0; 0; 0; 0; 0; 0; 0]) [])] /\
  exists txn c, v_calls ex_finished !! 0%nat = Some (txn, c) /\
    (O_done 0 0 (replicate 24 0 ++ [7; 0; 0; 0; 0; 0; 0; 0]) [] = O_eio \/
     exists e r, v_log ex_finished !! 0%nat = Some (e, Some r) /\ O_done 0 0 (replicate 24 0 ++ [7; 0; 0; 0; 0; 0; 0; 0]) [] = outcome_of c r /\
       (O_done 0 0 (replicate 24 0 ++ [7; 0; 0; 0; 0; 0; 0; 0]) [] = O_punt -> e = [])).
Proof.
  assert (v_done ex_finished = [(0%nat, O_done 0 0 (replicate 24 0 ++ [7; 0; 0; 0; 0; 0; 0; 0]) [])]) as E by (vm_compute; reflexivity).
  split; [exact E |]. assert (rreach (2 ^ 14) ex_finished) as Hr by (apply sched_reach, ex_begin_reach).
  apply (proj2 (proj2 (proj2 (ring_call_exactly_once (2 ^ 14) 14 eq_refl ltac:(lia) ex_finished Hr)))). rewrite E. by left.
Defined.

Lemma ring_call_completes_witness :
  v_guest ex_waiting = G_wait 1 ex_call /\
  exists y r, rrun (2 ^ 14) ex_waiting y /\ v_guest y = G_free /\ ((length (v_calls ex_waiting) - 1)%nat, outcome_of ex_call r) ∈ v_done y.
Proof.
  assert (v_guest ex_waiting = G_wait 1 ex_call) as E by (vm_compute; reflexivity). split; [exact E |].
  apply (ring_call_completes (2 ^ 14) 14 eq_refl ltac:(lia) ex_waiting 1 ex_call); [lia | apply sched_reach, ex_begin_reach | exact E | vm_compute; discriminate].
Defined.

End GuestRing.
