(* ===== verification/Gmmu.v ===== *)
(** * GPU page tables of the emulated device ([src/qemu/nvkvm_gpu_emul.c])

    The emulated GPU finds the guest's buffers through the page tables the guest's
    driver builds: three levels of directories, a last directory whose entries point
    to a table of small and a table of big pages, and large pages at two levels.
    One walk resolves an address; one enumeration reports every mapped page and joins
    neighbouring pages to runs; the BAR2 aperture has a simpler walk of its own. *)

From S2P Require Import Prelude Bytes.
Local Open Scope Z_scope.
Local Open Scope nv_scope.

Module Gmmu.

(** ** Entries *)

Definition field (e lo w : Z) : Z := Z.land (Z.shiftr e lo) (2 ^ w - 1).
Definition bit0 (e : Z) : bool := negb (Z.land e 1 =? 0).

Definition NVKVM_VER2_ADDR_VID (e : Z) : Z := Z.shiftl (field e 8 25) 12.
Definition addr_sys (e : Z) : Z := Z.shiftl (field e 8 46) 12.

(** A directory entry: the next table and whether it lies in system memory. *)
Definition pde_next (e : Z) : option (Z * bool) :=
  let ap := field e 1 2 in
  if ap =? 1 then Some (NVKVM_VER2_ADDR_VID e, false)
  else if (ap =? 2) || (ap =? 3) then Some (addr_sys e, true)
  else None.

(** A page entry: the page. *)
Definition pte_page (e : Z) : option (Z * bool) :=
  let ap := field e 1 2 in
  if ap =? 0 then Some (NVKVM_VER2_ADDR_VID e, false)
  else if (ap =? 2) || (ap =? 3) then Some (addr_sys e, true)
  else None.

(** The two halves of an entry of the last directory. *)
Definition small_table (hi : Z) : option (Z * bool) :=
  let ap := field hi 1 2 in
  if ap =? 0 then None else Some (if ap =? 1 then (NVKVM_VER2_ADDR_VID hi, false) else (addr_sys hi, true)).
Definition big_table (lo : Z) : option (Z * bool) :=
  let ap := field lo 1 2 in
  if ap =? 0 then None else Some (if ap =? 1 then (Z.shiftl (field lo 4 29) 8, false) else (Z.shiftl (field lo 4 50) 8, true)).

(** The directories above the last, from the root: the lowest address bit they
    index and the number of index bits. *)
Definition dir_lo (depth : nat) : Z := match depth with O => 29 | S O => 38 | _ => 47 end.
Definition dir_bits (depth : nat) : Z := match depth with O => 9 | S O => 9 | _ => 2 end.

Section tables.
(** [nvkvm_pt_rd64]: an entry in video or system memory. *)
Context (rd : bool -> Z -> Z).

(** ** The walk *)

(** A page found for an address: [page + offset]. *)
Definition leaf (e va shift : Z) : option (Z * bool) :=
  (fun p => (fst p + Z.land va (2 ^ shift - 1), snd p)) <$> pte_page e.

(** The last directory and below. *)
Definition walk_pd0 (lo hi va : Z) : option (Z * bool) :=
  if bit0 lo then leaf lo va 21
  else
    let through t idx shift :=
      if fst t =? 0 then None
      else let pte := rd (snd t) (u64 (fst t + idx * 8)) in if bit0 pte then leaf pte va shift else None in
    match small_table hi, big_table lo with
    | Some t, _ => through t (field va 12 9) 12
    | None, Some t => through t (field va 16 5) 16
    | None, None => None
    end.

(** [depth] directories above the last; the one at depth 1 can hold a large page. *)
Fixpoint walk (depth : nat) (tbl : Z) (tsys : bool) (va : Z) : option (Z * bool) :=
  if tbl =? 0 then None
  else
    match depth with
    | O =>
        let idx0 := field va 21 8 in
        walk_pd0 (rd tsys (u64 (tbl + idx0 * 16))) (rd tsys (u64 (tbl + idx0 * 16 + 8))) va
    | S d =>
        let pde := rd tsys (u64 (tbl + field va (dir_lo d) (dir_bits d) * 8)) in
        if bit0 pde && (d =? 0)%nat then leaf pde va 29
        else match pde_next pde with
             | Some (nt, ns) => walk d nt ns va
             | None => None
             end
    end.

(** [None]: [NVKVM_GMMU_FAULT]. *)
Definition nvkvm_walk_pdb_root (pdb va : Z) (root_sys : bool) : option (Z * bool) := walk 3 pdb root_sys va.
Definition nvkvm_walk_pdb (pdb va : Z) : option (Z * bool) := nvkvm_walk_pdb_root pdb va false.

(** ** The enumeration *)

(** Directories here: the number of entries visited. *)
Definition dir_entries (depth : nat) : nat := match depth with O => 512 | S O => 512 | _ => 2 end.

(** What an enumeration does besides reporting pages: it reads entries, which
    [nvkvm_pt_rd64] notes for those in video memory, and visits tables of a level. *)
Inductive note : Type :=
| Touch (sys : bool) (addr : Z)
| Visit (sys : bool) (level tbl vabase : Z).

Section enum.
Context {A : Type} (add : Z -> Z -> bool -> Z -> A -> A) (jot : note -> A -> A).

(** The accumulator and the budget. *)
Definition for_budget (body : Z -> A * Z -> A * Z) : nat -> Z -> A * Z -> A * Z :=
  fix go n i st :=
    match n with
    | O => st
    | S n => if snd st <=? 0 then st else go n (i + 1) (body i st)
    end.

Definition nvkvm_m2_pt_enum_pte (pte va pgsz : Z) (a : A) : A :=
  if bit0 pte then match pte_page pte with Some (pg, sys) => add va pg sys pgsz a | None => a end else a.

(** A table of [n] page entries. *)
Definition enum_table (level : Z) (t : option (Z * bool)) (n : nat) (pdva shift : Z) (st : A * Z) : A * Z :=
  match t with
  | Some (tbl, sys) =>
      if tbl =? 0 then st
      else for_budget (fun j st =>
             let e := u64 (tbl + j * 8) in
             (nvkvm_m2_pt_enum_pte (rd sys e) (Z.lor pdva (Z.shiftl j shift)) (2 ^ shift) (jot (Touch sys e) (fst st)), snd st - 1))
           n 0 (jot (Visit sys level tbl pdva) (fst st), snd st)
  | None => st
  end.

Definition nvkvm_m2_pt_enum_pd0e (lo hi pdva : Z) (st : A * Z) : A * Z :=
  if bit0 lo then (nvkvm_m2_pt_enum_pte lo pdva (2 ^ 21) (fst st), snd st)
  else enum_table 5 (big_table lo) 32 pdva 16 (enum_table 4 (small_table hi) 512 pdva 12 st).

Fixpoint nvkvm_m2_pt_enum (depth : nat) (tbl : Z) (tsys : bool) (vabase : Z) (st : A * Z) : A * Z :=
  if (snd st <=? 0) || (tbl =? 0) then st
  else
    let st := (jot (Visit tsys (3 - Z.of_nat depth) tbl vabase) (fst st), snd st) in
    match depth with
    | O =>
        for_budget (fun i st =>
          let e := u64 (tbl + i * 16) in
          nvkvm_m2_pt_enum_pd0e (rd tsys e) (rd tsys (u64 (e + 8))) (Z.lor vabase (Z.shiftl i 21))
            (jot (Touch tsys (u64 (e + 8))) (jot (Touch tsys e) (fst st)), snd st - 1)) 256 0 st
    | S d =>
        for_budget (fun i st =>
          let e := u64 (tbl + i * 8) in
          let pde := rd tsys e in
          let st := (jot (Touch tsys e) (fst st), snd st) in
          if (d =? 0)%nat && bit0 pde then st
          else match pde_next pde with
               | Some (nt, ns) => nvkvm_m2_pt_enum d nt ns (Z.lor vabase (Z.shiftl i (dir_lo d))) st
               | None => st
               end) (dir_entries d) 0 st
    end.
End enum.

(** ** Enumerations that do the same *)

Section hom.
Context {A B : Type} (add : Z -> Z -> bool -> Z -> A -> A) (jot : note -> A -> A) (add' : Z -> Z -> bool -> Z -> B -> B) (jot' : note -> B -> B) (h : A -> B).
Hypothesis h_add : forall va pg sys sz a, h (add va pg sys sz a) = add' va pg sys sz (h a).
Hypothesis h_jot : forall e a, h (jot e a) = jot' e (h a).

Definition hmap (st : A * Z) : B * Z := (h (fst st), snd st).

Lemma for_hom b b' n : (forall i st, b' i (hmap st) = hmap (b i st)) -> forall i st, for_budget b' n i (hmap st) = hmap (for_budget b n i st).
Proof.
  intros Hb. induction n as [|m IH]; intros i st; cbn [for_budget]; [done |]. change (snd (hmap st)) with (snd st).
  destruct (snd st <=? 0); [done |]. by rewrite Hb, IH.
Qed.

Lemma pte_hom pte va sz a : nvkvm_m2_pt_enum_pte add' pte va sz (h a) = h (nvkvm_m2_pt_enum_pte add pte va sz a).
Proof. unfold nvkvm_m2_pt_enum_pte. destruct (bit0 pte); [|done]. by destruct (pte_page pte) as [[pg sys]|]; rewrite ?h_add. Qed.

Lemma table_hom lv t n pdva shift st : enum_table add' jot' lv t n pdva shift (hmap st) = hmap (enum_table add jot lv t n pdva shift st).
Proof.
  unfold enum_table. destruct t as [[tbl sys]|]; [|done]. destruct (tbl =? 0); [done |]. cbn [hmap fst snd]. rewrite <- h_jot.
  refine (for_hom _ _ n _ 0 (jot _ (fst st), snd st)). intros j s. unfold hmap. cbn [fst snd]. by rewrite <- h_jot, pte_hom.
Qed.

Lemma pd0e_hom lo hi pdva st : nvkvm_m2_pt_enum_pd0e add' jot' lo hi pdva (hmap st) = hmap (nvkvm_m2_pt_enum_pd0e add jot lo hi pdva st).
Proof.
  unfold nvkvm_m2_pt_enum_pd0e. destruct (bit0 lo); [|by rewrite !table_hom]. unfold hmap. cbn [fst snd]. by rewrite pte_hom.
Qed.

Lemma enum_hom depth : forall tbl tsys vabase st,
  nvkvm_m2_pt_enum add' jot' depth tbl tsys vabase (hmap st) = hmap (nvkvm_m2_pt_enum add jot depth tbl tsys vabase st).
Proof.
  induction depth as [|d IH]; intros tbl tsys vabase st; cbn [nvkvm_m2_pt_enum]; change (snd (hmap st)) with (snd st);
    (destruct ((snd st <=? 0) || (tbl =? 0)); [done |]); cbn [hmap fst]; rewrite <- h_jot.
  - refine (for_hom _ _ 256 _ 0 (jot _ (fst st), snd st)). intros i s. rewrite <- pd0e_hom. unfold hmap. cbn [fst snd]. by rewrite !h_jot.
  - refine (for_hom _ _ (dir_entries d) _ 0 (jot _ (fst st), snd st)). intros i s. cbn [hmap fst snd]. rewrite <- h_jot.
    destruct ((d =? 0)%nat && bit0 _); [done |]. destruct (pde_next _) as [[nt ns]|]; [|done]. apply (IH nt ns _ (jot _ (fst s), snd s)).
Qed.
End hom.

(** ** Address arithmetic *)

Lemma field_div e lo w : 0 <= lo -> 0 <= w -> field e lo w = (e / 2 ^ lo) mod 2 ^ w.
Proof. intros. unfold field. rewrite land_pow2_minus_1 by done. by rewrite Z.shiftr_div_pow2. Qed.

(** An aligned block of [2^w] parts of [2^lo] bytes: part [i]. *)
Lemma part_at base i lo w :
  0 <= lo -> 0 <= w -> base mod 2 ^ (lo + w) = 0 -> 0 <= i < 2 ^ w -> Z.lor base (Z.shiftl i lo) = base + i * 2 ^ lo.
Proof.
  intros Hl Hw Hb Hi. pose proof (Z.pow_pos_nonneg 2 lo ltac:(lia) Hl). pose proof (Z.pow_pos_nonneg 2 w ltac:(lia) Hw).
  pose proof (lor_shiftl_low (base / 2 ^ (lo + w)) (i * 2 ^ lo) (lo + w) ltac:(lia)) as E.
  rewrite Z.shiftl_mul_pow2 in E by lia. rewrite Z.mod_small in E by (rewrite Z.pow_add_r by done; nia).
  assert (base / 2 ^ (lo + w) * 2 ^ (lo + w) = base) as Hq.
  { pose proof (Z.div_mod base (2 ^ (lo + w)) ltac:(rewrite Z.pow_add_r by done; nia)). lia. }
  rewrite Hq in E. by rewrite Z.shiftl_mul_pow2 by done.
Qed.

Lemma field_part base i lo w va :
  0 <= lo -> 0 <= w -> base mod 2 ^ (lo + w) = 0 -> 0 <= i < 2 ^ w ->
  base + i * 2 ^ lo <= va < base + (i + 1) * 2 ^ lo -> field va lo w = i.
Proof.
  intros Hl Hw Hb Hi Hv. pose proof (Z.pow_pos_nonneg 2 lo ltac:(lia) Hl). pose proof (Z.pow_pos_nonneg 2 w ltac:(lia) Hw).
  rewrite field_div by done. rewrite Z.pow_add_r in Hb by done.
  pose proof (Z.div_mod base (2 ^ lo * 2 ^ w) ltac:(nia)) as Hd. rewrite Hb in Hd. set (q := base / (2 ^ lo * 2 ^ w)) in *.
  assert (va / 2 ^ lo = q * 2 ^ w + i) as ->.
  { symmetry. apply (Z.div_unique va (2 ^ lo) _ (va - (base + i * 2 ^ lo))); [left; lia | nia]. }
  rewrite Z.add_comm, Z.mod_add by lia. by apply Z.mod_small.
Qed.

Lemma part_align base i lo w : 0 <= lo -> 0 <= w -> base mod 2 ^ (lo + w) = 0 -> (base + i * 2 ^ lo) mod 2 ^ lo = 0.
Proof.
  intros Hl Hw Hb. pose proof (Z.pow_pos_nonneg 2 lo ltac:(lia) Hl). rewrite Z.mod_add by lia. rewrite Z.pow_add_r in Hb by done.
  pose proof (Z.pow_pos_nonneg 2 w ltac:(lia) Hw). pose proof (Z.div_mod base (2 ^ lo * 2 ^ w) ltac:(nia)) as Hd. rewrite Hb in Hd.
  replace base with (2 ^ w * (base / (2 ^ lo * 2 ^ w)) * 2 ^ lo) by nia. apply Z.mod_mul. lia.
Qed.

(** The part an address lies in. *)
Lemma part_of base va lo w :
  0 <= lo -> 0 <= w -> base mod 2 ^ (lo + w) = 0 -> base <= va < base + 2 ^ (lo + w) ->
  0 <= field va lo w < 2 ^ w /\ base + field va lo w * 2 ^ lo <= va < base + (field va lo w + 1) * 2 ^ lo.
Proof.
  intros Hl Hw Hb Hv. pose proof (Z.pow_pos_nonneg 2 lo ltac:(lia) Hl). rewrite Z.pow_add_r in Hv by done.
  set (i := (va - base) / 2 ^ lo). pose proof (Z.div_mod (va - base) (2 ^ lo) ltac:(lia)) as Hd. pose proof (Z.mod_pos_bound (va - base) (2 ^ lo) ltac:(lia)).
  fold i in Hd. assert (0 <= i < 2 ^ w) as Hi by nia. rewrite (field_part base i lo w va) by (done || nia). split; [done | nia].
Qed.

Lemma offset_at v va shift : 0 <= shift -> v mod 2 ^ shift = 0 -> v <= va < v + 2 ^ shift -> Z.land va (2 ^ shift - 1) = va - v.
Proof.
  intros Hs Hv Hr. rewrite land_pow2_minus_1 by done. pose proof (Z.pow_pos_nonneg 2 shift ltac:(lia) Hs).
  replace va with ((va - v) + v) at 1 by lia. rewrite <- Zplus_mod_idemp_r, Hv, Z.add_0_r. apply Z.mod_small. lia.
Qed.

(** ** Pages found *)

(** Address, page, whether in system memory, size. *)
Definition page : Type := Z * Z * bool * Z.
Definition collect (va pg : Z) (sys : bool) (pgsz : Z) (l : list page) : list page := l ++ [(va, pg, sys, pgsz)].

(** Nothing noted. *)
Definition quiet {B} (_ : note) (a : B) : B := a.

(** Without notes. *)
Lemma table_quiet {B} (add : Z -> Z -> bool -> Z -> B -> B) lv tbl sys n pdva shift st :
  enum_table add quiet lv (Some (tbl, sys)) n pdva shift st =
  if tbl =? 0 then st
  else for_budget (fun j st => (nvkvm_m2_pt_enum_pte add (rd sys (u64 (tbl + j * 8))) (Z.lor pdva (Z.shiftl j shift)) (2 ^ shift) (fst st), snd st - 1)) n 0 st.
Proof. by destruct st. Qed.

Lemma for_ext {B} (b b' : Z -> B * Z -> B * Z) n : (forall i st, b i st = b' i st) -> forall i st, for_budget b n i st = for_budget b' n i st.
Proof. intros Hb. induction n as [|m IH]; intros i st; cbn [for_budget]; [done |]. by rewrite Hb, IH. Qed.

Lemma enum_quiet {B} (add : Z -> Z -> bool -> Z -> B -> B) depth tbl tsys vabase st :
  nvkvm_m2_pt_enum add quiet depth tbl tsys vabase st =
  if (snd st <=? 0) || (tbl =? 0) then st
  else
    match depth with
    | O => for_budget (fun i st => nvkvm_m2_pt_enum_pd0e add quiet (rd tsys (u64 (tbl + i * 16))) (rd tsys (u64 (u64 (tbl + i * 16) + 8))) (Z.lor vabase (Z.shiftl i 21)) (fst st, snd st - 1)) 256 0 st
    | S d =>
        for_budget (fun i st =>
          if (d =? 0)%nat && bit0 (rd tsys (u64 (tbl + i * 8))) then st
          else match pde_next (rd tsys (u64 (tbl + i * 8))) with
               | Some (nt, ns) => nvkvm_m2_pt_enum add quiet d nt ns (Z.lor vabase (Z.shiftl i (dir_lo d))) st
               | None => st
               end) (dir_entries d) 0 st
    end.
Proof.
  destruct depth as [|d]; cbn [nvkvm_m2_pt_enum]; (destruct ((snd st <=? 0) || (tbl =? 0)); [done |]); destruct st as [l b]; [done |].
  apply for_ext. by intros i [l' b'].
Qed.

Definition maps (l : page) (va p : Z) (s : bool) : Prop :=
  let '(v, pg, sys, sz) := l in v <= va < v + sz /\ p = pg + (va - v) /\ s = sys.

Section loops.
Context {A : Type} (body : Z -> list A * Z -> list A * Z).

(** Nothing found is lost, and the budget only shrinks. *)
Definition grows (f : list A * Z -> list A * Z) : Prop := forall st, snd (f st) <= snd st /\ fst st ⊆ fst (f st).

Lemma for_grows n : (forall i, grows (body i)) -> forall i, grows (for_budget body n i).
Proof.
  intros Hb. induction n as [|m IH]; intros i st; cbn; [split; [lia | done] |]. destruct (snd st <=? 0); [split; [lia | done] |].
  destruct (IH (i + 1) (body i st)) as [H1 H2]. destruct (Hb i st) as [H3 H4]. split; [lia | set_solver].
Qed.

Lemma for_sound n (Q : Z -> A -> Prop) i0 :
  (forall i st x, i0 <= i < i0 + Z.of_nat n -> x ∈ fst (body i st) -> x ∈ fst st \/ Q i x) ->
  forall st x, x ∈ fst (for_budget body n i0 st) -> x ∈ fst st \/ exists i, i0 <= i < i0 + Z.of_nat n /\ Q i x.
Proof.
  revert i0. induction n as [|m IH]; intros i0 Hb st x; cbn; [by left |]. destruct (snd st <=? 0); [by left |].
  intros [H1|(i & H1 & H2)]%IH; [| |intros; apply Hb; [lia | done]].
  - destruct (Hb i0 st x ltac:(lia) H1); [by left | right; exists i0; split; [lia | done]].
  - right. exists i. split; [lia | done].
Qed.

Lemma for_complete n (P : A -> Prop) i0 i :
  (forall i, grows (body i)) -> (forall st, 0 < snd (body i st) -> exists x, x ∈ fst (body i st) /\ P x) ->
  i0 <= i < i0 + Z.of_nat n -> forall st, 0 < snd (for_budget body n i0 st) -> exists x, x ∈ fst (for_budget body n i0 st) /\ P x.
Proof.
  intros Hm Hx. revert i0. induction n as [|m IH]; intros i0 Hi st; [lia |]. cbn. destruct (Z.leb_spec (snd st) 0); [lia |]. intros Hs.
  destruct (Z.eq_dec i0 i) as [->|]; [|apply IH; [lia | done]].
  destruct (for_grows m Hm (i + 1) (body i st)) as [H1 H2]. destruct (Hx st ltac:(lia)) as (x & Hin & Hp). exists x. split; [by apply H2 | done].
Qed.
End loops.

Lemma grows_id {B} : grows (fun st : list B * Z => st).
Proof. intros st. split; [lia | done]. Qed.

Lemma pte_grows pte va sz l : l ⊆ nvkvm_m2_pt_enum_pte collect pte va sz l.
Proof. unfold nvkvm_m2_pt_enum_pte, collect. destruct (bit0 pte); [|done]. destruct (pte_page pte) as [[pg sys]|]; [set_solver | done]. Qed.

Lemma pte_sound pte va sz l x :
  x ∈ nvkvm_m2_pt_enum_pte collect pte va sz l -> x ∈ l \/ exists pg sys, bit0 pte = true /\ pte_page pte = Some (pg, sys) /\ x = (va, pg, sys, sz).
Proof.
  unfold nvkvm_m2_pt_enum_pte, collect. destruct (bit0 pte); [|by left]. destruct (pte_page pte) as [[pg sys]|]; [|by left].
  intros [H|H%list_elem_of_singleton]%elem_of_app; [by left | right; eauto].
Qed.

Lemma pte_complete pte va sz l pg sys :
  bit0 pte = true -> pte_page pte = Some (pg, sys) -> (va, pg, sys, sz) ∈ nvkvm_m2_pt_enum_pte collect pte va sz l.
Proof. intros H1 H2. unfold nvkvm_m2_pt_enum_pte, collect. rewrite H1, H2. set_solver. Qed.

Lemma table_grows lv t n pdva shift : grows (enum_table collect quiet lv t n pdva shift).
Proof.
  intros st. destruct t as [[tbl sys]|]; [|apply grows_id]. rewrite table_quiet. destruct (tbl =? 0); [apply grows_id |].
  apply for_grows. intros i s. cbn. split; [lia | apply pte_grows].
Qed.

Lemma pd0e_grows lo hi pdva : grows (nvkvm_m2_pt_enum_pd0e collect quiet lo hi pdva).
Proof.
  intros st. unfold nvkvm_m2_pt_enum_pd0e. destruct (bit0 lo); [cbn; split; [lia | apply pte_grows] |].
  destruct (table_grows 5 (big_table lo) 32 pdva 16 (enum_table collect quiet 4 (small_table hi) 512 pdva 12 st)) as [H1 H2].
  destruct (table_grows 4 (small_table hi) 512 pdva 12 st) as [H3 H4]. split; [lia | set_solver].
Qed.

Lemma enum_grows depth : forall tbl tsys vabase, grows (nvkvm_m2_pt_enum collect quiet depth tbl tsys vabase).
Proof.
  induction depth as [|d IH]; intros tbl tsys vabase st; rewrite enum_quiet; (destruct ((snd st <=? 0) || (tbl =? 0)); [apply grows_id |]).
  - apply for_grows. intros i s. destruct (pd0e_grows (rd tsys (u64 (tbl + i * 16))) (rd tsys (u64 (u64 (tbl + i * 16) + 8))) (Z.lor vabase (Z.shiftl i 21)) (fst s, snd s - 1)) as [H1 H2].
    cbn in *. split; [lia | done].
  - apply for_grows. intros i s. destruct ((d =? 0)%nat && bit0 _); [apply grows_id |].
    destruct (pde_next _) as [[nt ns]|]; [apply IH | apply grows_id].
Qed.

(** ** The last directory *)

(** The entry of the last directory an address goes through. *)
Fixpoint walk_entry (depth : nat) (tbl : Z) (tsys : bool) (va : Z) : option (Z * Z) :=
  if tbl =? 0 then None
  else
    match depth with
    | O => let idx0 := field va 21 8 in Some (rd tsys (u64 (tbl + idx0 * 16)), rd tsys (u64 (tbl + idx0 * 16 + 8)))
    | S d =>
        let pde := rd tsys (u64 (tbl + field va (dir_lo d) (dir_bits d) * 8)) in
        if bit0 pde && (d =? 0)%nat then None
        else match pde_next pde with
             | Some (nt, ns) => walk_entry d nt ns va
             | None => None
             end
    end.

Lemma walk_through depth : forall tbl tsys va lo hi, walk_entry depth tbl tsys va = Some (lo, hi) -> walk depth tbl tsys va = walk_pd0 lo hi va.
Proof.
  induction depth as [|d IH]; intros tbl tsys va lo hi; cbn [walk walk_entry]; (destruct (tbl =? 0); [done |]).
  - by intros [= <- <-].
  - destruct (bit0 _ && (d =? 0)%nat); [done |]. destruct (pde_next _) as [[nt ns]|]; [apply IH | done].
Qed.

(** A big page behind an entry that also has a table of small pages. *)
Definition shadowed (lo hi : Z) : bool := negb (bit0 lo) && match small_table hi, big_table lo with Some _, Some _ => true | _, _ => false end.

(** A page reported for the entry [lo], [hi] of the part at [pdva]. *)
Definition pd0_good (lo hi pdva : Z) (x : page) : Prop :=
  let '(v, pg, sys, sz) := x in
  pdva <= v /\ v + sz <= pdva + 2 ^ 21 /\ 0 < sz /\
  forall va, v <= va < v + sz -> walk_pd0 lo hi va = Some (pg + (va - v), sys) \/ (shadowed lo hi = true /\ sz = 2 ^ 16).

Lemma table_sound lv t n pdva shift w st x :
  0 <= shift -> 0 <= w -> Z.of_nat n = 2 ^ w -> pdva mod 2 ^ (shift + w) = 0 -> x ∈ fst (enum_table collect quiet lv t n pdva shift st) ->
  x ∈ fst st \/ exists tbl s j pg sys, t = Some (tbl, s) /\ tbl <> 0 /\ 0 <= j < 2 ^ w /\ bit0 (rd s (u64 (tbl + j * 8))) = true /\
    pte_page (rd s (u64 (tbl + j * 8))) = Some (pg, sys) /\ x = (pdva + j * 2 ^ shift, pg, sys, 2 ^ shift).
Proof.
  intros H1 H2 H3 H4. destruct t as [[tbl s]|]; [|by left]. rewrite table_quiet. destruct (Z.eqb_spec tbl 0); [by left |].
  intros [Hx|(j & Hj & Hq)]%(for_sound _ n (fun j x => exists pg sys, bit0 (rd s (u64 (tbl + j * 8))) = true /\
      pte_page (rd s (u64 (tbl + j * 8))) = Some (pg, sys) /\ x = (pdva + j * 2 ^ shift, pg, sys, 2 ^ shift))); [by left | |].
  - right. destruct Hq as (pg & sys & A1 & A2 & A3). exists tbl, s, j, pg, sys. split_and!; try done; lia.
  - intros i st' y Hi Hy. cbn in Hy. apply pte_sound in Hy as [Hy|(pg & sys & A1 & A2 & ->)]; [by left | right].
    exists pg, sys. split_and!; try done. rewrite (part_at pdva i shift w) by (done || lia). done.
Qed.

Lemma leaf_at e pg sys v va shift :
  0 <= shift -> v mod 2 ^ shift = 0 -> v <= va < v + 2 ^ shift -> pte_page e = Some (pg, sys) -> leaf e va shift = Some (pg + (va - v), sys).
Proof. intros H1 H2 H3 H4. unfold leaf. rewrite H4. cbn. by rewrite (offset_at v va shift). Qed.

Lemma pd0e_sound lo hi pdva st x :
  pdva mod 2 ^ 21 = 0 -> x ∈ fst (nvkvm_m2_pt_enum_pd0e collect quiet lo hi pdva st) -> x ∈ fst st \/ pd0_good lo hi pdva x.
Proof.
  intros Hp. unfold nvkvm_m2_pt_enum_pd0e. destruct (bit0 lo) eqn:Eb.
  - cbn [fst]. intros [Hx|(pg & sys & _ & A2 & ->)]%pte_sound; [by left | right]. split_and!; [lia | lia | lia |].
    intros va Hva. left. unfold walk_pd0. rewrite Eb. apply leaf_at; [lia | done | done | done].
  - intros [Hx|(tbl & s & j & pg & sys & Ht & Hz & Hj & A1 & A2 & ->)]%(table_sound _ _ _ _ _ 5); [| | lia | lia | lia | done].
    + apply (table_sound _ _ _ _ _ 9) in Hx as [Hx|(tbl & s & j & pg & sys & Ht & Hz & Hj & A1 & A2 & ->)]; [by left | | lia | lia | lia | done].
      right. split_and!; [lia | lia | lia |]. intros va Hva. left. unfold walk_pd0. rewrite Eb, Ht. cbn [fst snd].
      rewrite (proj2 (Z.eqb_neq tbl 0) Hz), (field_part pdva j 12 9 va), A1 by (done || lia).
      apply leaf_at; [lia | apply (part_align pdva j 12 9); [lia | lia | done] | done | done].
    + right. split_and!; [lia | lia | lia |]. intros va Hva. unfold walk_pd0, shadowed. rewrite Eb, Ht.
      destruct (small_table hi) as [t|]; [by right | left]. cbn [fst snd].
      rewrite (proj2 (Z.eqb_neq tbl 0) Hz), (field_part pdva j 16 5 va), A1 by (done || lia).
      apply leaf_at; [lia | apply (part_align pdva j 16 5); [lia | lia | done] | done | done].
Qed.

Lemma leaf_inv e va shift p s : leaf e va shift = Some (p, s) -> exists pg, pte_page e = Some (pg, s) /\ p = pg + Z.land va (2 ^ shift - 1).
Proof. unfold leaf. destruct (pte_page e) as [[pg sys]|]; [|done]. intros [= <- <-]. eauto. Qed.

(** The page of an address is found in its table. *)
Lemma table_complete lv tbl s n pdva shift w va p sys st :
  0 <= shift -> 0 <= w -> Z.of_nat n = 2 ^ w -> pdva mod 2 ^ (shift + w) = 0 -> pdva <= va < pdva + 2 ^ (shift + w) -> tbl <> 0 ->
  bit0 (rd s (u64 (tbl + field va shift w * 8))) = true -> leaf (rd s (u64 (tbl + field va shift w * 8))) va shift = Some (p, sys) ->
  0 < snd (enum_table collect quiet lv (Some (tbl, s)) n pdva shift st) -> exists x, x ∈ fst (enum_table collect quiet lv (Some (tbl, s)) n pdva shift st) /\ maps x va p sys.
Proof.
  intros H1 H2 H3 H4 H5 H6 Hb (pg & A1 & ->)%leaf_inv. rewrite table_quiet, (proj2 (Z.eqb_neq tbl 0) H6).
  destruct (part_of pdva va shift w H1 H2 H4 H5) as [P1 P2]. apply (for_complete _ n (fun x => maps x va _ sys) 0 (field va shift w)); [| | lia].
  - intros i s0. cbn. split; [lia | apply pte_grows].
  - intros s0 _. cbn [fst]. eexists. split; [by apply pte_complete |].
    rewrite (part_at pdva _ shift w) by done. cbn [maps]. pose proof (Z.pow_pos_nonneg 2 shift ltac:(lia) H1). split_and!; [lia | lia | | done].
    rewrite (offset_at (pdva + field va shift w * 2 ^ shift)); [done | done | by apply (part_align pdva _ shift w) | lia].
Qed.

Lemma pd0e_complete lo hi pdva va p s st :
  pdva mod 2 ^ 21 = 0 -> pdva <= va < pdva + 2 ^ 21 -> walk_pd0 lo hi va = Some (p, s) -> 0 < snd (nvkvm_m2_pt_enum_pd0e collect quiet lo hi pdva st) ->
  exists x, x ∈ fst (nvkvm_m2_pt_enum_pd0e collect quiet lo hi pdva st) /\ maps x va p s.
Proof.
  intros Hp Hv. unfold walk_pd0, nvkvm_m2_pt_enum_pd0e. destruct (bit0 lo) eqn:Eb.
  - intros (pg & A1 & ->)%leaf_inv _. cbn [fst]. eexists. split; [by apply pte_complete |]. cbn [maps].
    rewrite (offset_at pdva) by (done || lia). split_and!; [lia | lia | done | done].
  - destruct (small_table hi) as [[tbl sys]|] eqn:Es.
    + cbn [fst snd]. destruct (Z.eqb_spec tbl 0); [done |]. destruct (bit0 (rd sys _)) eqn:Ep; [|done]. intros Hl Hb.
      destruct (table_grows 5 (big_table lo) 32 pdva 16 (enum_table collect quiet 4 (Some (tbl, sys)) 512 pdva 12 st)) as [G1 G2].
      destruct (table_complete 4 tbl sys 512 pdva 12 9 va p s st) as (x & H1 & H2); try done; try lia. exists x. split; [by apply G2 | done].
    + destruct (big_table lo) as [[tbl sys]|] eqn:Eg; [|done]. cbn [fst snd]. destruct (Z.eqb_spec tbl 0); [done |].
      destruct (bit0 (rd sys _)) eqn:Ep; [|done]. intros Hl Hb. by apply (table_complete 5 tbl sys 32 pdva 16 5).
Qed.

(** ** All levels *)

(** The bits below a table of the given depth, and the alignment of its block. *)
Definition span (depth : nat) : Z := match depth with O => 29 | S O => 38 | S (S O) => 47 | _ => 48 end.
Definition align (depth : nat) : Z := match depth with O => 29 | S O => 38 | S (S O) => 47 | _ => 49 end.

Definition good (depth : nat) (tbl : Z) (tsys : bool) (x : page) : Prop :=
  let '(v, pg, sys, sz) := x in
  0 < sz /\ forall va, v <= va < v + sz -> exists lo hi, walk_entry depth tbl tsys va = Some (lo, hi) /\
    (walk depth tbl tsys va = Some (pg + (va - v), sys) \/ (shadowed lo hi = true /\ sz = 2 ^ 16)).

Definition within (base n : Z) (x : page) : Prop := let '(v, _, _, sz) := x in base <= v /\ v + sz <= base + n.

Lemma u64_next a : u64 (u64 a + 8) = u64 (a + 8).
Proof. unfold u64. by rewrite Zplus_mod_idemp_l. Qed.

(** The geometry of the directories. *)
Lemma dir_geometry d :
  (d <= 2)%nat -> align (S d) = dir_lo d + dir_bits d /\ align d = dir_lo d /\ span d = dir_lo d /\ 0 <= dir_lo d /\ 0 <= dir_bits d /\
  Z.of_nat (dir_entries d) <= 2 ^ dir_bits d /\ Z.of_nat (dir_entries d) * 2 ^ dir_lo d = 2 ^ span (S d).
Proof. intros Hd. do 3 (destruct d as [|d]; [by split_and! |]). lia. Qed.

Lemma enum_sound depth :
  (depth <= 3)%nat -> forall tbl tsys vabase st x, vabase mod 2 ^ align depth = 0 -> x ∈ fst (nvkvm_m2_pt_enum collect quiet depth tbl tsys vabase st) ->
  x ∈ fst st \/ (within vabase (2 ^ span depth) x /\ good depth tbl tsys x).
Proof.
  induction depth as [|d IH]; intros Hd tbl tsys vabase st x Ha; rewrite enum_quiet;
    (destruct ((snd st <=? 0) || (tbl =? 0)) eqn:Ez; [by left |]); apply orb_false_iff in Ez as [_ Ez].
  - change (align 0) with (21 + 8) in Ha. intros [Hx|(i & Hi & Hq)]%(for_sound _ _ (fun i => pd0_good (rd tsys (u64 (tbl + i * 16))) (rd tsys (u64 (tbl + i * 16 + 8))) (vabase + i * 2 ^ 21)));
      [by left | right |].
    + destruct x as [[[v pg] sys] sz]. destruct Hq as (B1 & B2 & B3 & Hw). split; [cbn; lia |]. split; [done |]. intros va Hva.
      cbn [walk_entry walk]. rewrite Ez, (field_part vabase i 21 8 va) by (done || lia). eexists _, _. split; [done | by apply Hw].
    + intros i s y Hi. rewrite (part_at vabase i 21 8), u64_next by (done || lia).
      intros Hy%pd0e_sound; [done |]. by apply (part_align vabase i 21 8).
  - destruct (dir_geometry d ltac:(lia)) as (G1 & G2 & G3 & G4 & G5 & G6 & G7). rewrite G1 in Ha.
    intros [Hx|(i & Hi & Hq)]%(for_sound _ _ (fun i x => within (vabase + i * 2 ^ dir_lo d) (2 ^ dir_lo d) x /\
      exists nt ns, (bit0 (rd tsys (u64 (tbl + i * 8))) && (d =? 0)%nat) = false /\ pde_next (rd tsys (u64 (tbl + i * 8))) = Some (nt, ns) /\ good d nt ns x));
      [by left | right |].
    + destruct x as [[[v pg] sys] sz]. destruct Hq as ((B1 & B2) & nt & ns & C1 & C2 & C3 & Hw).
      pose proof (Z.pow_pos_nonneg 2 (dir_lo d) ltac:(lia) G4). split; [unfold within; rewrite <- G7; nia |]. split; [done |]. intros va Hva.
      cbn [walk_entry walk]. rewrite Ez, (field_part vabase i (dir_lo d) (dir_bits d) va) by (done || lia). rewrite C1, C2. by apply Hw.
    + intros i s y Hi. rewrite (part_at vabase i (dir_lo d) (dir_bits d)) by (done || lia). rewrite andb_comm.
      destruct (bit0 _ && (d =? 0)%nat) eqn:Eb; [by left |]. destruct (pde_next _) as [[nt ns]|] eqn:En; [|by left].
      intros [Hy|[Hy Hg]]%IH; [by left | right | lia | rewrite G2; by apply (part_align vabase i _ (dir_bits d))].
      rewrite G3 in Hy. split; [done |]. by exists nt, ns.
Qed.

Lemma enum_complete depth :
  (depth <= 3)%nat -> forall tbl tsys vabase st va lo hi p s, vabase mod 2 ^ align depth = 0 -> vabase <= va < vabase + 2 ^ span depth ->
  walk_entry depth tbl tsys va = Some (lo, hi) -> walk_pd0 lo hi va = Some (p, s) ->
  0 < snd (nvkvm_m2_pt_enum collect quiet depth tbl tsys vabase st) ->
  exists x, x ∈ fst (nvkvm_m2_pt_enum collect quiet depth tbl tsys vabase st) /\ maps x va p s.
Proof.
  induction depth as [|d IH]; intros Hd tbl tsys vabase st va lo hi p s Ha Hv; rewrite enum_quiet; cbn [walk_entry];
    (destruct (tbl =? 0); [done |]); rewrite orb_false_r.
  - change (align 0) with (21 + 8) in Ha. intros [= <- <-] Hw. destruct (Z.leb_spec (snd st) 0); [lia |]. intros Hb.
    destruct (part_of vabase va 21 8 ltac:(lia) ltac:(lia) Ha Hv) as [P1 P2].
    eapply (for_complete _ 256 (fun x => maps x va p s) 0 (field va 21 8)); [| | lia | done].
    + intros i s0. destruct (pd0e_grows (rd tsys (u64 (tbl + i * 16))) (rd tsys (u64 (u64 (tbl + i * 16) + 8))) (Z.lor vabase (Z.shiftl i 21)) (fst s0, snd s0 - 1)) as [H1 H2].
      cbn [fst snd] in H1, H2. split; [lia | done].
    + intros s0 Hs. rewrite (part_at vabase _ 21 8), u64_next by (done || lia). rewrite (part_at vabase _ 21 8), u64_next in Hs by (done || lia).
      apply pd0e_complete; [by apply (part_align vabase _ 21 8) | lia | done | done].
  - destruct (dir_geometry d ltac:(lia)) as (G1 & G2 & G3 & G4 & G5 & G6 & G7). rewrite G1 in Ha. intros He Hw.
    destruct (Z.leb_spec (snd st) 0); [lia |]. intros Hb.
    assert (2 ^ span (S d) <= 2 ^ (dir_lo d + dir_bits d)) as Hle by (rewrite Z.pow_add_r by done; nia).
    destruct (part_of vabase va (dir_lo d) (dir_bits d) G4 G5 Ha ltac:(lia)) as [P1 P2]. pose proof (Z.pow_pos_nonneg 2 (dir_lo d) ltac:(lia) G4).
    eapply (for_complete _ (dir_entries d) (fun x => maps x va p s) 0 (field va (dir_lo d) (dir_bits d))); [| | nia | done].
    + clear He. intros i s0. destruct ((d =? 0)%nat && bit0 _); [apply grows_id |]. destruct (pde_next _) as [[nt ns]|]; [apply enum_grows | apply grows_id].
    + intros s0. rewrite (andb_comm (d =? 0)%nat). destruct (bit0 _ && (d =? 0)%nat); [done |].
      destruct (pde_next _) as [[nt ns]|]; [|done]. rewrite (part_at vabase _ (dir_lo d) (dir_bits d)) by done.
      apply IH with lo hi; [lia | rewrite G2; by apply (part_align vabase _ _ (dir_bits d)) | rewrite G3; lia | done | done].
Qed.

(** ** Runs *)

(** [struct nvkvm_leaf_acc]: the run being built, and the runs handed on. *)
Record leaf_acc := Acc { a_va0 : Z; a_gpa0 : Z; a_len : Z; a_sys : bool; a_out : list page }.

Definition acc_init : leaf_acc := Acc 0 0 0 false [].

Definition nvkvm_m2_leaf_flush (a : leaf_acc) : leaf_acc :=
  if a_len a =? 0 then a
  else Acc (a_va0 a) (a_gpa0 a) 0 (a_sys a) (a_out a ++ [(a_va0 a, a_gpa0 a, a_sys a, a_len a)]).

Definition nvkvm_m2_leaf_add (va gpa : Z) (sys : bool) (pgsz : Z) (a : leaf_acc) : leaf_acc :=
  if negb (a_len a =? 0) && Bool.eqb (a_sys a) sys && (va =? a_va0 a + a_len a) && (gpa =? a_gpa0 a + a_len a) then
    Acc (a_va0 a) (a_gpa0 a) (a_len a + pgsz) (a_sys a) (a_out a)
  else Acc va gpa pgsz sys (a_out (nvkvm_m2_leaf_flush a)).

Definition found (l : list page) (va p : Z) (s : bool) : Prop := exists x, x ∈ l /\ maps x va p s.

(** What the accumulator has seen. *)
Definition seen (a : leaf_acc) (va p : Z) (s : bool) : Prop := found (a_out (nvkvm_m2_leaf_flush a)) va p s.

Lemma found_snoc l x va p s : found (l ++ [x]) va p s <-> found l va p s \/ maps x va p s.
Proof.
  unfold found. split.
  - intros (y & [Hy|Hy%list_elem_of_singleton]%elem_of_app & Hm); [left; eauto | right; by subst].
  - intros [(y & Hy & Hm)|Hm]; [exists y | exists x]; (split; [apply elem_of_app | done]); [by left | right; by apply list_elem_of_singleton].
Qed.

Lemma leaf_add_seen a va0 gpa sys pgsz va p s :
  0 <= a_len a -> 0 < pgsz -> seen (nvkvm_m2_leaf_add va0 gpa sys pgsz a) va p s <-> seen a va p s \/ maps (va0, gpa, sys, pgsz) va p s.
Proof.
  intros Hl Hp. unfold nvkvm_m2_leaf_add, seen. destruct (negb _ && _ && _ && _) eqn:E.
  - apply andb_true_iff in E as [[[E1 E2]%andb_true_iff E3]%andb_true_iff E4]. apply negb_true_iff, Z.eqb_neq in E1.
    apply Bool.eqb_prop in E2. apply Z.eqb_eq in E3, E4. subst. unfold nvkvm_m2_leaf_flush. cbn [a_len a_va0 a_gpa0 a_sys a_out].
    rewrite (proj2 (Z.eqb_neq (a_len a + pgsz) 0)), (proj2 (Z.eqb_neq (a_len a) 0)) by lia. cbn [a_out]. rewrite !found_snoc. cbn [maps].
    split; [|intuition lia]. intros [|(H1 & H2 & H3)]; [by left; left |].
    destruct (decide (va < a_va0 a + a_len a)); [left; right; lia + (split_and!; [lia | lia | lia | done]) | right; split_and!; [lia | lia | lia | done]].
  - unfold nvkvm_m2_leaf_flush at 1. cbn [a_len a_va0 a_gpa0 a_sys a_out]. rewrite (proj2 (Z.eqb_neq pgsz 0)) by lia. cbn [a_out]. by rewrite found_snoc.
Qed.

Lemma leaf_add_len va gpa sys pgsz a : 0 <= a_len a -> 0 < pgsz -> 0 <= a_len (nvkvm_m2_leaf_add va gpa sys pgsz a).
Proof. intros. unfold nvkvm_m2_leaf_add. destruct (negb _ && _ && _ && _); cbn; lia. Qed.

(** Enumerating with runs is enumerating the pages and then joining them. *)
Definition join (l : list page) (a : leaf_acc) : leaf_acc :=
  fold_left (fun a '(va, pg, sys, sz) => nvkvm_m2_leaf_add va pg sys sz a) l a.

Lemma join_seen l : forall a, 0 <= a_len a -> Forall (fun '(_, _, _, sz) => 0 < sz) l ->
  forall va p s, seen (join l a) va p s <-> seen a va p s \/ found l va p s.
Proof.
  induction l as [|[[[v pg] sys] sz] l IH]; intros a Ha Hl va p s; cbn [join fold_left].
  - split; [by left |]. intros [|(x & Hx & _)]; [done | by apply elem_of_nil in Hx].
  - apply Forall_cons in Hl as [Hz Hl]. fold (join l (nvkvm_m2_leaf_add v pg sys sz a)). rewrite IH by (done || by apply leaf_add_len).
    rewrite leaf_add_seen by done. unfold found. setoid_rewrite elem_of_cons. split.
    + intros [[|]|(x & H1 & H2)]; [by left | right; eauto | right; eauto].
    + intros [|(x & [->|H1] & H2)]; [by left; left | by left; right | right; eauto].
Qed.

(** ** The budget *)

Definition counts {B} (f : list B * Z -> list B * Z) : Prop :=
  forall st, 0 <= snd st -> 0 <= snd (f st) /\ Z.of_nat (length (fst (f st))) + snd (f st) <= Z.of_nat (length (fst st)) + snd st.

Lemma for_counts {B} (body : Z -> list B * Z -> list B * Z) n :
  (forall i st, 0 < snd st -> 0 <= snd (body i st) /\ Z.of_nat (length (fst (body i st))) + snd (body i st) <= Z.of_nat (length (fst st)) + snd st) ->
  forall i, counts (for_budget body n i).
Proof.
  intros Hb. induction n as [|m IH]; intros i st Hs; cbn [for_budget]; [lia |]. destruct (Z.leb_spec (snd st) 0); [lia |].
  destruct (Hb i st H) as [H1 H2]. destruct (IH (i + 1) (body i st) H1) as [H3 H4]. lia.
Qed.

Lemma pte_counts pte va sz l : Z.of_nat (length (nvkvm_m2_pt_enum_pte collect pte va sz l)) <= Z.of_nat (length l) + 1.
Proof. unfold nvkvm_m2_pt_enum_pte, collect. destruct (bit0 pte); [|lia]. destruct (pte_page pte) as [[pg sys]|]; [rewrite length_app; cbn; lia | lia]. Qed.

Lemma table_counts lv t n pdva shift : counts (enum_table collect quiet lv t n pdva shift).
Proof.
  intros st Hs. destruct t as [[tbl sys]|]; [|cbn; lia]. rewrite table_quiet. destruct (tbl =? 0); [lia |]. apply for_counts; [|done].
  intros j s Hj. cbn [fst snd]. pose proof (pte_counts (rd sys (u64 (tbl + j * 8))) (Z.lor pdva (Z.shiftl j shift)) (2 ^ shift) (fst s)). lia.
Qed.

Lemma pd0e_counts lo hi pdva st : 0 < snd st ->
  let r := nvkvm_m2_pt_enum_pd0e collect quiet lo hi pdva (fst st, snd st - 1) in
  0 <= snd r /\ Z.of_nat (length (fst r)) + snd r <= Z.of_nat (length (fst st)) + snd st.
Proof.
  intros Hs r. subst r. unfold nvkvm_m2_pt_enum_pd0e. destruct (bit0 lo); cbn [fst snd].
  - pose proof (pte_counts lo pdva (2 ^ 21) (fst st)). lia.
  - destruct (table_counts 4 (small_table hi) 512 pdva 12 (fst st, snd st - 1)) as [H1 H2]; cbn [fst snd] in *; [lia |].
    destruct (table_counts 5 (big_table lo) 32 pdva 16 (enum_table collect quiet 4 (small_table hi) 512 pdva 12 (fst st, snd st - 1)) H1) as [H3 H4]. lia.
Qed.

Lemma enum_counts depth : forall tbl tsys vabase, counts (nvkvm_m2_pt_enum collect quiet depth tbl tsys vabase).
Proof.
  induction depth as [|d IH]; intros tbl tsys vabase st Hs; rewrite enum_quiet; (destruct ((snd st <=? 0) || (tbl =? 0)); [lia |]); (apply for_counts; [|done]).
  - intros i s Hi. by apply pd0e_counts.
  - intros i s Hi. destruct ((d =? 0)%nat && bit0 _); [lia |]. destruct (pde_next _) as [[nt ns]|]; [apply IH; lia | lia].
Qed.

Lemma join_length l : forall a, 0 <= a_len a -> Forall (fun '(_, _, _, sz) => 0 < sz) l ->
  (length (a_out (nvkvm_m2_leaf_flush (join l a))) <= length (a_out (nvkvm_m2_leaf_flush a)) + length l)%nat.
Proof.
  induction l as [|[[[v pg] sys] sz] l IH]; intros a Ha Hl; [cbn [join fold_left length]; lia |]. apply Forall_cons in Hl as [Hz Hl].
  change (join ((v, pg, sys, sz) :: l) a) with (join l (nvkvm_m2_leaf_add v pg sys sz a)).
  pose proof (IH _ (leaf_add_len v pg sys sz a Ha Hz) Hl) as H1. cbn [length].
  assert (length (a_out (nvkvm_m2_leaf_flush (nvkvm_m2_leaf_add v pg sys sz a))) <= S (length (a_out (nvkvm_m2_leaf_flush a))))%nat; [|lia].
  unfold nvkvm_m2_leaf_add. destruct (negb _ && _ && _ && _) eqn:E.
  - rewrite !andb_true_iff in E. destruct E as [[[E%negb_true_iff _] _] _]. unfold nvkvm_m2_leaf_flush. cbn [a_len]. rewrite E.
    destruct (a_len a + sz =? 0); cbn [a_out]; rewrite ?length_app; cbn; lia.
  - unfold nvkvm_m2_leaf_flush at 1. cbn [a_len a_out a_va0 a_gpa0 a_sys]. destruct (sz =? 0); cbn [a_out]; rewrite ?length_app; cbn; lia.
Qed.

Lemma enum_sizes pdb root_sys budget : Forall (fun '(_, _, _, sz) => 0 < sz) (fst (nvkvm_m2_pt_enum collect quiet 3 pdb root_sys 0 ([], budget))).
Proof.
  apply Forall_forall. intros x Hx. apply enum_sound in Hx as [Hx|[_ Hg]]; [by apply elem_of_nil in Hx | | lia | done].
  destruct x as [[[v pg] sys] sz]. apply Hg.
Qed.

(** The runs handed on by a whole enumeration. *)
Definition runs_of (pdb : Z) (root_sys : bool) (budget : Z) : list page :=
  a_out (nvkvm_m2_leaf_flush (fst (nvkvm_m2_pt_enum nvkvm_m2_leaf_add quiet 3 pdb root_sys 0 (acc_init, budget)))).
Definition budget_left (pdb : Z) (root_sys : bool) (budget : Z) : Z :=
  snd (nvkvm_m2_pt_enum nvkvm_m2_leaf_add quiet 3 pdb root_sys 0 (acc_init, budget)).

Lemma runs_join pdb root_sys budget :
  let r := nvkvm_m2_pt_enum collect quiet 3 pdb root_sys 0 ([], budget) in
  nvkvm_m2_pt_enum nvkvm_m2_leaf_add quiet 3 pdb root_sys 0 (acc_init, budget) = (join (fst r) acc_init, snd r).
Proof.
  refine (enum_hom collect quiet nvkvm_m2_leaf_add quiet (fun l => join l acc_init) _ _ 3 pdb root_sys 0 ([], budget)); [|done].
  intros va pg sys sz l. unfold collect, join. by rewrite fold_left_app.
Qed.

Lemma runs_found pdb root_sys budget :
  let r := nvkvm_m2_pt_enum collect quiet 3 pdb root_sys 0 ([], budget) in
  budget_left pdb root_sys budget = snd r /\ forall va p s, found (runs_of pdb root_sys budget) va p s <-> found (fst r) va p s.
Proof.
  cbn zeta. unfold runs_of, budget_left. rewrite runs_join. split; [done |]. intros va p s. cbn [fst].
  fold (seen (join (fst (nvkvm_m2_pt_enum collect quiet 3 pdb root_sys 0 ([], budget))) acc_init) va p s). rewrite join_seen by (done || apply enum_sizes).
  split; [|by right]. intros [(x & Hx & _)|]; [by apply elem_of_nil in Hx | done].
Qed.

Lemma runs_sound pdb root_sys budget va p s : found (runs_of pdb root_sys budget) va p s ->
  exists lo hi, walk_entry 3 pdb root_sys va = Some (lo, hi) /\ (nvkvm_walk_pdb_root pdb va root_sys = Some (p, s) \/ shadowed lo hi = true).
Proof.
  destruct (runs_found pdb root_sys budget) as [_ Hf]. intros (x & Hx & Hm)%Hf. apply enum_sound in Hx as [Hx|[_ Hg]]; [by apply elem_of_nil in Hx | | lia | done].
  destruct x as [[[v pg] sys] sz]. destruct Hm as (H1 & -> & ->). destruct Hg as [_ Hg]. destruct (Hg va H1) as (lo & hi & H2 & [H3|[H3 _]]); eauto.
Qed.

(** C11. [enum_runs_exact]: the runs an enumeration reports are exactly the mappings of the
    walk.  Whatever a run maps, the walk maps to the same place, but for big pages of
    an entry that also has a table of small pages; and if the budget was enough, every
    address of the lower half that the walk resolves below the last directory is in a
    run, at the same place. *)
Theorem enum_runs_exact (pdb : Z) (root_sys : bool) (budget : Z) :
  (forall va p s, found (runs_of pdb root_sys budget) va p s ->
     exists lo hi, walk_entry 3 pdb root_sys va = Some (lo, hi) /\ (nvkvm_walk_pdb_root pdb va root_sys = Some (p, s) \/ shadowed lo hi = true)) /\
  (0 < budget_left pdb root_sys budget -> forall va p s, 0 <= va < 2 ^ 48 -> walk_entry 3 pdb root_sys va <> None ->
     nvkvm_walk_pdb_root pdb va root_sys = Some (p, s) -> found (runs_of pdb root_sys budget) va p s).
Proof.
  split; [intros va p s; apply runs_sound |]. destruct (runs_found pdb root_sys budget) as [Hb Hf].
  rewrite Hb. intros Hp va p s Hv He Hw. apply Hf. destruct (walk_entry 3 pdb root_sys va) as [[lo hi]|] eqn:E; [|done].
  apply enum_complete with lo hi; [lia | done | done | done | | done]. by rewrite <- (walk_through 3 pdb root_sys va lo hi E).
Qed.

(** [enum_bounded]: an enumeration with a budget hands on at most that many runs, the
    rest of the budget is never negative, and no run leaves the lower half of the
    address space, whatever the tables hold. *)
Theorem enum_bounded (pdb : Z) (root_sys : bool) (budget : Z) :
  0 <= budget ->
  0 <= budget_left pdb root_sys budget /\ Z.of_nat (length (runs_of pdb root_sys budget)) + budget_left pdb root_sys budget <= budget /\
  forall va p s, found (runs_of pdb root_sys budget) va p s -> 0 <= va < 2 ^ 48.
Proof.
  intros Hn. destruct (runs_found pdb root_sys budget) as [Hb Hf]. rewrite Hb.
  destruct (enum_counts 3 pdb root_sys 0 ([], budget) Hn) as [H1 H2]. cbn [fst snd length] in H2. split_and!; [done | |].
  - pose proof (join_length _ acc_init ltac:(done) (enum_sizes pdb root_sys budget)) as H3. unfold runs_of. rewrite runs_join. cbn [fst].
    change (length (a_out (nvkvm_m2_leaf_flush acc_init))) with 0%nat in H3. unfold page in *. lia.
  - intros va p s (x & Hx & Hm)%Hf. apply enum_sound in Hx as [Hx|[Hw _]]; [by apply elem_of_nil in Hx | | lia | done].
    destruct x as [[[v pg] sys] sz]. cbn in Hw, Hm. change (2 ^ span 3) with (2 ^ 48) in Hw. lia.
Qed.

(** ** The BAR2 aperture *)

Definition NVKVM_RAMIN_PDB_LO_OFF : Z := 0x200.
Definition NVKVM_RAMIN_PDB_HI_OFF : Z := 0x204.

(** [rd32]: a word of video memory. *)
Definition bar2_root (rd32 : Z -> Z) (bar2_pdb bar2_inst_block : Z) : option Z :=
  if negb (bar2_pdb =? 0) then Some bar2_pdb
  else if negb (bar2_inst_block =? 0) then
    Some (Z.lor (Z.land (rd32 (u64 (bar2_inst_block + NVKVM_RAMIN_PDB_LO_OFF))) 0xFFFFF000)
            (u64 (Z.shiftl (rd32 (u64 (bar2_inst_block + NVKVM_RAMIN_PDB_HI_OFF))) 32)))
  else None.

Definition bar2_pd0 (lo hi va : Z) : option Z :=
  let small_tbl := Z.shiftl (field hi 8 25) 12 in
  let big_tbl := Z.shiftl (field lo 4 28) 8 in
  let through tbl idx shift :=
    let pte := rd false (u64 (tbl + idx * 8)) in
    if bit0 pte then Some (NVKVM_VER2_ADDR_VID pte + Z.land va (2 ^ shift - 1)) else None in
  if negb (small_tbl =? 0) then through small_tbl (field va 12 9) 12
  else if negb (big_tbl =? 0) then through big_tbl (field va 16 5) 16
  else None.

Fixpoint bar2_walk (depth : nat) (tbl va : Z) : option Z :=
  match depth with
  | O =>
      let idx0 := field va 21 8 in
      bar2_pd0 (rd false (u64 (tbl + idx0 * 16))) (rd false (u64 (tbl + idx0 * 16 + 8))) va
  | S d =>
      let tbl := NVKVM_VER2_ADDR_VID (rd false (u64 (tbl + field va (dir_lo d) (dir_bits d) * 8))) in
      if tbl =? 0 then None else bar2_walk d tbl va
  end.

Definition nvkvm_bar2_translate (rd32 : Z -> Z) (bar2_pdb bar2_inst_block va : Z) : option Z :=
  match bar2_root rd32 bar2_pdb bar2_inst_block with
  | Some tbl => bar2_walk 3 tbl va
  | None => None
  end.

(** Entries of tables that lie in video memory altogether: no large pages, every
    pointer marked as video memory or absent, and a big table below 64 GiB. *)
Definition vid_ptr (ap addr : Z) : bool := ((ap =? 1) && negb (addr =? 0)) || ((ap =? 0) && (addr =? 0)).
Definition vid_dual (lo hi va : Z) : bool :=
  negb (bit0 lo) && vid_ptr (field hi 1 2) (field hi 8 25) && vid_ptr (field lo 1 2) (field lo 4 29) && (field lo 4 29 <? 2 ^ 28) &&
  (let pte := if field hi 8 25 =? 0 then rd false (u64 (Z.shiftl (field lo 4 29) 8 + field va 16 5 * 8))
              else rd false (u64 (Z.shiftl (field hi 8 25) 12 + field va 12 9 * 8)) in
   negb (bit0 pte) || (field pte 1 2 =? 0)).

Fixpoint vid_path (depth : nat) (tbl va : Z) : bool :=
  match depth with
  | O =>
      let idx0 := field va 21 8 in
      vid_dual (rd false (u64 (tbl + idx0 * 16))) (rd false (u64 (tbl + idx0 * 16 + 8))) va
  | S d =>
      let pde := rd false (u64 (tbl + field va (dir_lo d) (dir_bits d) * 8)) in
      negb (bit0 pde) && vid_ptr (field pde 1 2) (field pde 8 25) && ((field pde 8 25 =? 0) || vid_path d (NVKVM_VER2_ADDR_VID pde) va)
  end.

Lemma shiftl_zero x n : 0 <= n -> (Z.shiftl x n =? 0) = (x =? 0).
Proof. intros Hn. rewrite Z.shiftl_mul_pow2 by done. pose proof (Z.pow_pos_nonneg 2 n ltac:(lia) Hn). destruct (Z.eqb_spec x 0), (Z.eqb_spec (x * 2 ^ n) 0); nia. Qed.

Lemma vid_ptr_cases ap addr : vid_ptr ap addr = true -> (ap = 1 /\ addr <> 0) \/ (ap = 0 /\ addr = 0).
Proof. unfold vid_ptr. intros [[H1 H2]%andb_true_iff|[H1 H2]%andb_true_iff]%orb_true_iff; nv_bool; auto. Qed.

Lemma field_low e lo w : 0 <= lo -> 0 <= w -> field e lo (w + 1) < 2 ^ w -> field e lo w = field e lo (w + 1).
Proof.
  intros Hl Hw. rewrite !field_div by lia. intros Hlt. rewrite <- (Z.mod_small ((e / 2 ^ lo) mod 2 ^ (w + 1)) (2 ^ w)).
  - symmetry. apply Z.mod_mod_divide. exists 2. rewrite Z.pow_add_r by lia. lia.
  - split; [|done]. apply Z.mod_pos_bound. apply Z.pow_pos_nonneg; lia.
Qed.

Lemma bar2_pd0_agrees lo hi va : vid_dual lo hi va = true -> walk_pd0 lo hi va = (fun p => (p, false)) <$> bar2_pd0 lo hi va.
Proof.
  unfold vid_dual. intros [[[[H1%negb_true_iff H2%vid_ptr_cases]%andb_true_iff H3%vid_ptr_cases]%andb_true_iff H4%Z.ltb_lt]%andb_true_iff H5]%andb_true_iff.
  unfold walk_pd0, bar2_pd0, small_table, big_table, NVKVM_VER2_ADDR_VID. rewrite H1, (field_low lo 4 28), !shiftl_zero by (done || lia).
  assert (forall pte shift, negb (bit0 pte) || (field pte 1 2 =? 0) = true ->
    (if bit0 pte then leaf pte va shift else None) = (fun p => (p, false)) <$> (if bit0 pte then Some (Z.shiftl (field pte 8 25) 12 + Z.land va (2 ^ shift - 1)) else None)) as Hl.
  { intros pte shift. destruct (bit0 pte); [|done]. cbn [negb orb]. intros E. unfold leaf, pte_page. by rewrite E. }
  destruct H2 as [[H2 H2']|[H2 H2']]; rewrite H2.
  - cbn [Z.eqb Pos.eqb]. rewrite (proj2 (Z.eqb_neq (field hi 8 25) 0) H2') in *. cbn [fst snd negb] in *. rewrite shiftl_zero by lia.
    rewrite (proj2 (Z.eqb_neq (field hi 8 25) 0) H2'). by apply Hl.
  - cbn [Z.eqb Pos.eqb]. rewrite H2' in *. cbn [Z.eqb negb] in *. destruct H3 as [[H3 H3']|[H3 H3']]; rewrite H3.
    + cbn [Z.eqb Pos.eqb fst snd]. change (28 + 1) with 29. rewrite (proj2 (Z.eqb_neq (field lo 4 29) 0) H3'), shiftl_zero, (proj2 (Z.eqb_neq (field lo 4 29) 0) H3') by lia.
      cbn [negb]. by apply Hl.
    + cbn [Z.eqb Pos.eqb]. change (28 + 1) with 29. rewrite H3'. done.
Qed.

Lemma bar2_walk_agrees depth : forall tbl va, tbl <> 0 -> vid_path depth tbl va = true -> walk depth tbl false va = (fun p => (p, false)) <$> bar2_walk depth tbl va.
Proof.
  induction depth as [|d IH]; intros tbl va Ht; cbn [walk bar2_walk vid_path]; rewrite (proj2 (Z.eqb_neq tbl 0) Ht).
  - apply bar2_pd0_agrees.
  - intros [[H1%negb_true_iff H2%vid_ptr_cases]%andb_true_iff H3]%andb_true_iff. rewrite H1. cbn [andb]. unfold pde_next, NVKVM_VER2_ADDR_VID in *.
    rewrite shiftl_zero by lia. destruct H2 as [[H2 H2']|[H2 H2']]; rewrite H2.
    + cbn [Z.eqb Pos.eqb]. rewrite (proj2 (Z.eqb_neq _ 0) H2') in *. cbn [orb] in H3. apply IH; [|done].
      intros E. apply H2'. apply Z.eqb_eq in E. rewrite shiftl_zero in E by lia. by apply Z.eqb_eq.
    + cbn [Z.eqb Pos.eqb orb]. by rewrite H2'.
Qed.

(** [bar2_agrees]: on tables that lie in video memory altogether the aperture's own walk
    gives what the general walk gives. *)
Theorem bar2_agrees (rd32 : Z -> Z) (bar2_pdb bar2_inst_block va tbl : Z) :
  bar2_root rd32 bar2_pdb bar2_inst_block = Some tbl -> tbl <> 0 -> vid_path 3 tbl va = true ->
  nvkvm_walk_pdb tbl va = (fun p => (p, false)) <$> nvkvm_bar2_translate rd32 bar2_pdb bar2_inst_block va.
Proof. intros Hr Ht Hv. unfold nvkvm_bar2_translate. rewrite Hr. by apply bar2_walk_agrees. Qed.

End tables.

(** ** Concrete tables *)

Definition ex_pde (a : Z) : Z := a / 2 ^ 4 + 2.
Definition ex_pte (a : Z) : Z := a / 2 ^ 4 + 1.

(** A root at 0x1000 whose first and third entries lead to the same tables.  The first
    entry of the last directory has small and big pages, the second big pages only. *)
Definition ex_rd (sys : bool) (a : Z) : Z :=
  if sys then 0
  else if (a =? 0x1000) || (a =? 0x1010) then ex_pde 0x2000
  else if a =? 0x2000 then ex_pde 0x3000
  else if a =? 0x3000 then ex_pde 0x4000
  else if a =? 0x4000 then ex_pde 0x6000
  else if a =? 0x4008 then ex_pde 0x5000
  else if a =? 0x4010 then ex_pde 0x6000
  else if a =? 0x5000 then ex_pte 0x100000
  else if a =? 0x5008 then ex_pte 0x101000
  else if a =? 0x6008 then ex_pte 0x210000
  else 0.

Lemma enum_bounded_witness :
  0 <= 300000 /\ Z.of_nat (length (runs_of ex_rd 0x1000 false 300000)) = 3 /\
  Z.of_nat (length (runs_of ex_rd 0x1000 false 300000)) + budget_left ex_rd 0x1000 false 300000 <= 300000.
Proof. split_and!; [lia | by vm_compute | exact (proj1 (proj2 (enum_bounded ex_rd 0x1000 false 300000 ltac:(lia))))]. Defined.

Lemma enum_runs_exact_witness : found (runs_of ex_rd 0x1000 false 300000) 0x1234 0x101234 false.
Proof. apply (proj2 (enum_runs_exact ex_rd 0x1000 false 300000)); [by vm_compute | lia | by vm_compute | by vm_compute]. Defined.

(** [enum_gaps]: where the enumeration and the walk part.  An entry of the last
    directory with both tables: the enumeration reports the big page of an address at
    which the walk faults.  An address with bit 48: the walk resolves it and the
    enumeration, its budget not spent, reports nothing for it. *)
Theorem enum_gaps :
  exists (rd : bool -> Z -> Z) (pdb budget : Z),
    0 < budget_left rd pdb false budget /\
    (exists va p s, found (runs_of rd pdb false budget) va p s /\ nvkvm_walk_pdb_root rd pdb va false = None) /\
    (exists va r, 2 ^ 48 <= va < 2 ^ 49 /\ nvkvm_walk_pdb_root rd pdb va false = Some r /\ forall p s, ~ found (runs_of rd pdb false budget) va p s).
Proof.
  exists ex_rd, 0x1000, 300000. assert (runs_of ex_rd 0x1000 false 300000 = [(0, 0x100000, false, 0x2000); (0x10000, 0x210000, false, 0x10000); (0x210000, 0x210000, false, 0x10000)]) as ->
    by (by vm_compute). split; [by vm_compute |]. split.
  - exists 0x10000, 0x210000, false. split; [|by vm_compute]. eexists. split; [right; left | split_and!; [lia | lia | done..]].
  - exists (2 ^ 48), (0x100000, false). split_and!; [lia | lia | by vm_compute |]. intros p s (x & Hx & Hm). rewrite !elem_of_cons, elem_of_nil in Hx.
    destruct Hx as [->|[->|[->|[]]]]; cbn in Hm; lia.
Qed.

Lemma bar2_agrees_witness :
  nvkvm_walk_pdb ex_rd 0x1000 0x1234 = Some (0x101234, false) /\
  nvkvm_walk_pdb ex_rd 0x1000 0x1234 = (fun p => (p, false)) <$> nvkvm_bar2_translate ex_rd (fun _ => 0) 0x1000 0 0x1234.
Proof. split; [by vm_compute | apply (bar2_agrees ex_rd (fun _ => 0) 0x1000 0 0x1234 0x1000); by vm_compute]. Defined.

(** The second entry's big table above 64 GiB. *)
Definition ex_far (sys : bool) (a : Z) : Z :=
  if sys then 0
  else if a =? 0x1000 then ex_pde 0x2000
  else if a =? 0x2000 then ex_pde 0x3000
  else if a =? 0x3000 then ex_pde 0x4000
  else if a =? 0x4000 then ex_pde (2 ^ 36 + 0x6000)
  else if a =? 2 ^ 36 + 0x6000 then ex_pte 0x200000
  else if a =? 0x6000 then ex_pte 0x700000
  else 0.

(** [bar2_truncates]: for a table of big pages above 64 GiB the aperture's walk drops the
    top bit of its address and takes the entry of another table. *)
Theorem bar2_truncates :
  exists (rd : bool -> Z -> Z) (pdb va p q : Z),
    nvkvm_walk_pdb rd pdb va = Some (p, false) /\ nvkvm_bar2_translate rd (fun _ => 0) pdb 0 va = Some q /\ p <> q.
Proof. exists ex_far, 0x1000, 0x1234, 0x201234, 0x701234. by vm_compute. Qed.

End Gmmu.
