(* ===== verification/ClientState.v ===== *)
(** * Per-client state of the emulated GPU ([src/qemu/nvkvm_gpu_emul.c])

    The emulated GPU keeps a table per kind of object it learns of from the guest's
    calls: channels, address-space roots, duplications of objects between clients,
    compute clients, processes.  This file has the operations that fill them from
    the calls, the predicates that decide which client owns an address space, and
    what a free of an object or of a whole client removes, at once or at the next
    start of the message queues.  All tables are arrays with a length; an entry is
    removed by moving the last one into its place. *)

From S2P Require Import Prelude Bytes.
Local Open Scope Z_scope.
Local Open Scope nv_scope.

Module ClientState.

(** ** Removal by moving the last entry *)

(** [t[i] = t[n - 1]; n--] *)
Definition swap_remove {A} (i : nat) (l : list A) : list A :=
  match l !! pred (length l) with
  | Some y => take (pred (length l)) (<[i := y]> l)
  | None => l
  end.

(** [for (i = 0; i < n; ) { if (hit(t[i])) { ...; t[i] = t[n - 1]; n--; continue; } i++; }],
    with what the body does on a hit besides. *)
Fixpoint drop_loop {A B} (hit : A -> bool) (f : A -> B -> B) (fuel i : nat) (l : list A) (b : B) : list A * B :=
  match fuel with
  | O => (l, b)
  | S n =>
      match l !! i with
      | Some x => if hit x then drop_loop hit f n i (swap_remove i l) (f x b) else drop_loop hit f n (S i) l b
      | None => (l, b)
      end
  end.

Definition drop_acc {A B} (hit : A -> bool) (f : A -> B -> B) (l : list A) (b : B) : list A * B := drop_loop hit f (length l) 0 l b.
Definition drop_where {A} (hit : A -> bool) (l : list A) : list A := fst (drop_acc hit (fun _ b => b) l ()).

Section swap.
Context {A : Type}.
Implicit Types (l : list A).

Lemma swap_remove_last l x : swap_remove (length l) (l ++ [x]) = l.
Proof.
  unfold swap_remove. rewrite length_app, Nat.add_comm. cbn [length Nat.add pred]. rewrite lookup_app_r, Nat.sub_diag by lia. cbn.
  rewrite take_insert_ge by lia. by rewrite take_app_length.
Qed.

Lemma swap_remove_mid l1 x l2 y : swap_remove (length l1) (l1 ++ x :: l2 ++ [y]) = l1 ++ y :: l2.
Proof.
  unfold swap_remove. assert (pred (length (l1 ++ x :: l2 ++ [y])) = length (l1 ++ x :: l2)) as ->.
  { rewrite !length_app. cbn. rewrite length_app. cbn. lia. }
  rewrite app_comm_cons, app_assoc, list_lookup_middle by done.
  rewrite <- app_assoc, insert_app_r_alt, Nat.sub_diag by lia. cbn. rewrite app_comm_cons, app_assoc.
  apply take_app_length'. rewrite !length_app. done.
Qed.

(** The tail of a table is a last entry behind the others. *)
Lemma swap_cases l i x : l !! i = Some x ->
  (exists l1, l = l1 ++ [x] /\ i = length l1 /\ swap_remove i l = l1) \/
  (exists l1 l2 y, l = l1 ++ x :: l2 ++ [y] /\ i = length l1 /\ swap_remove i l = l1 ++ y :: l2).
Proof.
  intros (l1 & l2 & -> & ->)%list_elem_of_split_length. destruct l2 as [|y l2 _] using rev_ind.
  - left. exists l1. split_and!; [done | done | apply swap_remove_last].
  - right. exists l1, l2, y. split_and!; [done | done | apply swap_remove_mid].
Qed.

Lemma swap_last_perm l i x : l !! i = Some x -> x :: swap_remove i l ≡ₚ l.
Proof.
  intros [(l1 & -> & -> & ->)|(l1 & l2 & y & -> & -> & ->)]%swap_cases.
  - by rewrite Permutation_cons_append.
  - rewrite <- (Permutation_cons_append l2 y), <- !Permutation_middle. done.
Qed.

Lemma swap_remove_length l i x : l !! i = Some x -> length l = S (length (swap_remove i l)).
Proof. intros H%swap_last_perm. symmetry. apply (Permutation_length H). Qed.

Lemma swap_remove_take l i x : l !! i = Some x -> take i (swap_remove i l) = take i l.
Proof.
  intros [(l1 & -> & -> & ->)|(l1 & l2 & y & -> & -> & ->)]%swap_cases; rewrite ?take_app_length; [|done].
  by rewrite firstn_all.
Qed.

Lemma swap_remove_lookup l i j x : l !! i = Some x -> (j < pred (length l))%nat ->
  swap_remove i l !! j = if decide (j = i) then l !! pred (length l) else l !! j.
Proof.
  intros Hi Hj. unfold swap_remove. destruct (l !! pred (length l)) as [y|] eqn:E; [|apply lookup_ge_None in E; lia].
  rewrite lookup_take_lt by done. case_decide as D; [subst j; apply list_lookup_insert_eq; lia | by apply list_lookup_insert_ne].
Qed.

Lemma filter_keep (P : A -> Prop) `{forall x, Decision (P x)} l : Forall P l -> filter P l = l.
Proof. induction 1 as [|x l Hx _ IH]; [done |]. by rewrite filter_cons_True, IH. Qed.

Lemma filter_lose (P : A -> Prop) `{forall x, Decision (P x)} l : Forall (fun x => ~ P x) l -> filter P l = [].
Proof. induction 1 as [|x l Hx _ IH]; [done |]. by rewrite filter_cons_False. Qed.

Context {B : Type} (hit : A -> bool) (f : A -> B -> B).

(** The loop keeps exactly the entries that are no hit, and runs its body once for
    each hit. *)
Lemma drop_loop_spec fuel : forall i l b, (length l <= i + fuel)%nat -> Forall (fun x => hit x = false) (take i l) ->
  exists hs, l ≡ₚ fst (drop_loop hit f fuel i l b) ++ hs /\ Forall (fun x => hit x = false) (fst (drop_loop hit f fuel i l b)) /\
    Forall (fun x => hit x = true) hs /\ snd (drop_loop hit f fuel i l b) = foldl (fun b x => f x b) b hs.
Proof.
  induction fuel as [|n IH]; intros i l b Hl Ht; cbn [drop_loop].
  { exists []. rewrite app_nil_r. rewrite take_ge in Ht by lia. split_and!; done. }
  destruct (l !! i) as [x|] eqn:E.
  - destruct (hit x) eqn:Ex.
    + destruct (IH i (swap_remove i l) (f x b)) as (hs & H1 & H2 & H3 & H4); [rewrite (swap_remove_length l i x E) in Hl; lia | by rewrite (swap_remove_take l i x E) |].
      exists (x :: hs). split_and!; [|done | by constructor | done]. etransitivity; [symmetry; apply (swap_last_perm l i x E) |]. rewrite <- Permutation_middle. by constructor.
    + apply IH; [lia |]. rewrite (take_S_r l i x E). apply Forall_app. split; [done | by constructor].
  - exists []. rewrite app_nil_r. apply lookup_ge_None in E. rewrite take_ge in Ht by lia. split_and!; done.
Qed.

Lemma drop_acc_spec l b : exists hs, fst (drop_acc hit f l b) ≡ₚ filter (fun x => hit x = false) l /\
  hs ≡ₚ filter (fun x => hit x = true) l /\ snd (drop_acc hit f l b) = foldl (fun b x => f x b) b hs.
Proof.
  destruct (drop_loop_spec (length l) 0 l b) as (hs & H1 & H2 & H3 & H4); [lia | done |]. exists hs. unfold drop_acc. split_and!; [| | done].
  - etransitivity; [|symmetry; apply (filter_Permutation _ _ _ H1)]. rewrite filter_app, (filter_keep _ _ H2), (filter_lose _ hs), app_nil_r; [done |].
    eapply Forall_impl; [apply H3 |]. intros x ->. done.
  - etransitivity; [|symmetry; apply (filter_Permutation _ _ _ H1)]. rewrite filter_app, (filter_keep _ _ H3), (filter_lose _ (fst _)); [done |].
    eapply Forall_impl; [apply H2 |]. intros x ->. done.
Qed.
End swap.

Lemma drop_where_spec {A} (hit : A -> bool) l : drop_where hit l ≡ₚ filter (fun x => hit x = false) l.
Proof. destruct (drop_acc_spec hit (fun _ b => b) l ()) as (hs & H & _). done. Qed.

Lemma elem_of_drop_where {A} (hit : A -> bool) l x : x ∈ drop_where hit l <-> x ∈ l /\ hit x = false.
Proof. rewrite drop_where_spec, list_elem_of_filter. tauto. Qed.

(** ** Tables *)

Record chan_entry := Chan { ch_client : Z; ch_hobject : Z; ch_gpfifo_va : Z }.
Record chanbuf := Chanbuf { cb_client : Z; cb_chan : Z; cb_fb_base : Z }.
Record fbback := Fbback { fb_base : Z; fb_size : Z; host_qva : Z }.
Record devvas := Devvas { dv_client : Z; dv_dev : Z; dv_vas : Z }.
Record cvas := Cvas { cv_client : Z; cv_tsg : Z; cv_hdev : Z; cv_fvas : Z; cv_fvirt : Z; cv_populated : bool }.
Record mapped_va := MappedVa { mv_client : Z; mv_va : Z; mv_gpa : Z; mv_hmem : Z; mv_reback : Z }.
Record dup_edge := Dup { dst_client : Z; dst_obj : Z; src_client : Z; src_obj : Z }.
Record tsg_sched := TsgSched { ts_client : Z; ts_tsg : Z }.
Record chan_vas := ChanVas { vas_hvas : Z; vas_client : Z; vas_pdb : Z; vas_root_sys : bool; vas_uvm : bool }.
Record tsgeng := TsgEng { te_tsg : Z; te_engine : Z; te_client : Z }.
Record subdev := SubDev { sd_client : Z; sd_subdev : Z }.
Record grmap := GrMap { gm_client : Z; gm_hvirt : Z; gm_hvas : Z; gm_hdev : Z }.
Record cmap := CMap { cm_g : Z; cm_h : Z }.
Record osevent := OsEvent { oe_hclient : Z; oe_hevent : Z; oe_notify_index : Z }.
Record cli_vas := CliVas { cl_client : Z; cl_pdb : Z; cl_root_sys : bool }.
Record nvkvm_va_map := VaMap { vm_client : Z; vm_va : Z; vm_phys : Z; vm_size : Z; vm_sys : bool }.
Record nvkvm_proc := Proc { pr_live : bool; pr_clients : list Z; pr_pdbs : list Z }.
Record m2_obj := Obj { ob_client : Z; ob_hMemory : Z }.
Record m2_gpga := Gpga { gp_base : Z; gp_size : Z; gp_obj_idx : Z; gp_off : Z }.

(** The tables that tell who owns what. *)
Record own := Own {
  o_vas : list chan_vas; o_dup : list dup_edge; o_gr : list Z; o_user : list Z; o_ce : list Z; o_cli : list cli_vas; o_proc : list nvkvm_proc; m2_gr_client : Z }.

(** The tables of objects. *)
Record tabs := Tabs {
  t_chans : list chan_entry; t_chanbuf : list chanbuf; t_fbback : list fbback; t_devvas : list devvas; t_cvas : list cvas;
  t_mapped : list mapped_va; t_sched : list tsg_sched; t_tsgeng : list tsgeng; t_subdev : list subdev; t_grmap : list grmap; t_cmap : list cmap;
  t_osevents : list osevent; t_va_map : list nvkvm_va_map; t_pend : list Z; t_objs : list m2_obj; t_gpga : list m2_gpga }.

(** ** Who owns an address space *)

Definition any {A} (p : A -> bool) (l : list A) : bool := existsb p l.

Definition nvkvm_m2_vas_client_match (o : own) (vclient vhobj client : Z) : bool :=
  if (client =? 0) || (vclient =? 0) then false
  else if vclient =? client then true
  else any (fun e => ((dst_client e =? vclient) && (dst_obj e =? vhobj) && (src_client e =? client))
                     || ((src_client e =? vclient) && (src_obj e =? vhobj) && (dst_client e =? client))) (o_dup o).

Definition nvkvm_m2_vas_dup_owner (o : own) (vclient vhobj : Z) : Z :=
  match List.find (fun e => (dst_client e =? vclient) && (dst_obj e =? vhobj)) (o_dup o) with
  | Some e => src_client e
  | None => 0
  end.

Definition nvkvm_m2_dup_src_client (o : own) (client : Z) : bool :=
  negb (client =? 0) && any (fun e => src_client e =? client) (o_dup o).

Definition nvkvm_m2_vas_foreign (o : own) (v : chan_vas) (client : Z) : bool :=
  if nvkvm_m2_vas_client_match o (vas_client v) (vas_hvas v) client then false
  else
    let owner := nvkvm_m2_vas_dup_owner o (vas_client v) (vas_hvas v) in
    if negb (owner =? 0) && negb (owner =? client) then true
    else negb (vas_client v =? client) && nvkvm_m2_dup_src_client o (vas_client v).

Definition listed (client : Z) (l : list Z) : bool := negb (client =? 0) && any (fun c => c =? client) l.
Definition nvkvm_m2_is_gr_client (o : own) (client : Z) : bool := listed client (o_gr o).
Definition nvkvm_m2_is_user_ce (o : own) (client : Z) : bool := listed client (o_ce o).
Definition nvkvm_m2_is_user_client (o : own) (client : Z) : bool := listed client (o_user o) || nvkvm_m2_is_gr_client o client.

Definition nvkvm_m2_multiproc (o : own) : bool := (1 <? Z.of_nat (length (o_gr o))) || (1 <? Z.of_nat (length (o_user o))).

(** One entry's answer, if it has one. *)
Definition gr_owner_of (o : own) (v : chan_vas) : option Z :=
  let cl := vas_client v in
  let own := nvkvm_m2_vas_dup_owner o cl (vas_hvas v) in
  if nvkvm_m2_is_gr_client o cl then Some cl
  else if negb (own =? 0) && nvkvm_m2_is_gr_client o own then Some own
  else if nvkvm_m2_multiproc o then
    if nvkvm_m2_is_user_client o cl then Some cl
    else if negb (own =? 0) && nvkvm_m2_is_user_client o own then Some own
    else None
  else None.

Fixpoint gr_owner_scan (o : own) (pdb : Z) (l : list chan_vas) : Z :=
  match l with
  | [] => 0
  | v :: l => if (pdb =? 0) || negb (vas_pdb v =? pdb) then gr_owner_scan o pdb l
              else match gr_owner_of o v with Some c => c | None => gr_owner_scan o pdb l end
  end.
Definition nvkvm_m2_pdb_gr_owner (o : own) (pdb : Z) : Z := gr_owner_scan o pdb (o_vas o).

Definition nvkvm_m2_pdb_is_compute (o : own) (pdb : Z) : bool :=
  if (pdb =? 0) || (m2_gr_client o =? 0) then false
  else any (fun v => (vas_pdb v =? pdb) &&
                     (vas_uvm v || (negb (vas_client v =? 0) && (nvkvm_m2_is_gr_client o (vas_client v) || nvkvm_m2_is_user_ce o (vas_client v))))) (o_vas o).

(** ** Processes *)

Definition NVKVM_MAX_PROCS : Z := 16.
Definition NVKVM_PROC_MAX_VAS : Z := 8.
Definition NVKVM_PROC_MAX_CLIENTS : Z := 8.

Definition room {A} (l : list A) (n : Z) : bool := Z.of_nat (length l) <? n.

(** The index of the first element a test holds of. *)
Fixpoint index_of {A} (p : A -> bool) (l : list A) : option nat :=
  match l with
  | [] => None
  | x :: l => if p x then Some 0%nat else S <$> index_of p l
  end.

Definition nvkvm_m2_proc_find_by_client (ps : list nvkvm_proc) (client : Z) : option nat :=
  if client =? 0 then None else index_of (fun p => pr_live p && any (fun c => c =? client) (pr_clients p)) ps.

Definition nvkvm_m2_proc_get (ps : list nvkvm_proc) (anchor : Z) : list nvkvm_proc * option nat :=
  match nvkvm_m2_proc_find_by_client ps anchor with
  | Some i => (ps, Some i)
  | None => if room ps NVKVM_MAX_PROCS then (ps ++ [Proc true [anchor] []], Some (length ps)) else (ps, None)
  end.

Definition nvkvm_m2_proc_add_client (ps : list nvkvm_proc) (pi : option nat) (client : Z) : list nvkvm_proc :=
  match pi with
  | Some i =>
      if client =? 0 then ps
      else match ps !! i with
           | Some p => if any (fun c => c =? client) (pr_clients p) || negb (room (pr_clients p) NVKVM_PROC_MAX_CLIENTS) then ps
                       else <[i := Proc (pr_live p) (pr_clients p ++ [client]) (pr_pdbs p)]> ps
           | None => ps
           end
  | None => ps
  end.

Definition nvkvm_m2_proc_add_pdb (ps : list nvkvm_proc) (owner_client pdb : Z) : list nvkvm_proc :=
  if pdb =? 0 then ps
  else match nvkvm_m2_proc_find_by_client ps owner_client with
       | Some i =>
           match ps !! i with
           | Some p => if any (fun d => d =? pdb) (pr_pdbs p) || negb (room (pr_pdbs p) NVKVM_PROC_MAX_VAS) then ps
                       else <[i := Proc (pr_live p) (pr_clients p) (pr_pdbs p ++ [pdb])]> ps
           | None => ps
           end
       | None => ps
       end.

Definition nvkvm_m2_proc_drop_client (ps : list nvkvm_proc) (client : Z) : list nvkvm_proc :=
  match nvkvm_m2_proc_find_by_client ps client with
  | Some i =>
      match ps !! i with
      | Some p =>
          if default 0 (pr_clients p !! 0%nat) =? client then <[i := Proc false [] []]> ps
          else match index_of (fun c => c =? client) (pr_clients p) with
               | Some k => <[i := Proc (pr_live p) (swap_remove k (pr_clients p)) (pr_pdbs p)]> ps
               | None => ps
               end
      | None => ps
      end
  | None => ps
  end.

(** ** What the guest's calls add *)

Definition nvkvm_m2_cli_vas_add (client pdb : Z) (root_sys : bool) (l : list cli_vas) : list cli_vas :=
  if (client =? 0) || (pdb =? 0) || any (fun e => (cl_client e =? client) && (cl_pdb e =? pdb)) l || negb (room l 64) then l
  else l ++ [CliVas client pdb root_sys].

(** A root is entered, with its owner's sticky root and its process. *)
Definition vas_enter (v : chan_vas) (o : own) : own :=
  let own14 := nvkvm_m2_vas_dup_owner o (vas_client v) (vas_hvas v) in
  let cli := nvkvm_m2_cli_vas_add (vas_client v) (vas_pdb v) (vas_root_sys v) (o_cli o) in
  Own (o_vas o ++ [v]) (o_dup o) (o_gr o) (o_user o) (o_ce o)
    (if own14 =? 0 then cli else nvkvm_m2_cli_vas_add own14 (vas_pdb v) (vas_root_sys v) cli)
    (nvkvm_m2_proc_add_pdb (o_proc o) (if own14 =? 0 then vas_client v else own14) (vas_pdb v)) (m2_gr_client o).

Definition snoop_reserved_pdes (fn : Z) (cmd : bytes) (o : own) : own :=
  if (fn =? 76) && (get32 cmd 88 =? 0x90f10106) && room (o_vas o) 64 then
    vas_enter (ChanVas (get32 cmd 84) (get32 cmd 80) (get64 cmd 160) false false) o
  else o.

Definition snoop_set_page_directory (fn : Z) (cmd : bytes) (o : own) : own :=
  if (fn =? 76) && (get32 cmd 88 =? 0x00801813) then
    let phys := get64 cmd 120 in
    let hvas := get32 cmd 136 in
    let rsys := negb (Z.land (get32 cmd 132) 3 =? 0) in
    let dup := any (fun v => (vas_hvas v =? hvas) && (vas_pdb v =? phys)) (o_vas o) in
    if negb dup && negb (phys =? 0) && room (o_vas o) 64 then vas_enter (ChanVas hvas (get32 cmd 80) phys rsys true) o else o
  else o.

Definition snoop_dup_object (fn : Z) (cmd : bytes) (o : own) : own :=
  if fn =? 21 then
    let e := Dup (get32 cmd 80) (get32 cmd 88) (get32 cmd 92) (get32 cmd 96) in
    if negb (dst_client e =? 0) && negb (dst_obj e =? 0) && negb (src_client e =? 0) && negb (src_obj e =? 0) then
      let seen := any (fun d => (dst_client d =? dst_client e) && (dst_obj d =? dst_obj e) && (src_client d =? src_client e) && (src_obj d =? src_obj e)) (o_dup o) in
      let dup := if negb seen && room (o_dup o) 64 then o_dup o ++ [e] else o_dup o in
      let user := if negb (nvkvm_m2_is_user_client o (src_client e)) && room (o_user o) 16 then o_user o ++ [src_client e] else o_user o in
      let '(ps, pi) := nvkvm_m2_proc_get (o_proc o) (src_client e) in
      Own (o_vas o) dup (o_gr o) user (o_ce o) (o_cli o) (nvkvm_m2_proc_add_client ps pi (dst_client e)) (m2_gr_client o)
    else o
  else o.

(** A compute object of [hClient] was made. *)
Definition gr_client_add (hClient : Z) (o : own) : own :=
  let gr := if negb (nvkvm_m2_is_gr_client o hClient) && room (o_gr o) 16 then o_gr o ++ [hClient] else o_gr o in
  Own (o_vas o) (o_dup o) gr (o_user o) (o_ce o) (o_cli o) (o_proc o) (if m2_gr_client o =? 0 then hClient else m2_gr_client o).

(** A client needed an address space of its own. *)
Definition user_ce_add (client : Z) (o : own) : own :=
  if negb (nvkvm_m2_is_gr_client o client) && negb (nvkvm_m2_multiproc o && nvkvm_m2_is_user_client o client) then
    let ce := if negb (any (fun c => c =? client) (o_ce o)) && room (o_ce o) 16 then o_ce o ++ [client] else o_ce o in
    Own (o_vas o) (o_dup o) (o_gr o) (o_user o) ce (o_cli o) (o_proc o) (m2_gr_client o)
  else o.

Definition NVKVM_MAX_MAPS : Z := 1024.

Fixpoint va_map_update (client va phys size : Z) (sys : bool) (l : list nvkvm_va_map) : option (list nvkvm_va_map) :=
  match l with
  | [] => None
  | m :: l => if (vm_client m =? client) && (vm_va m =? va) then Some (VaMap client va phys size sys :: l)
              else (fun l' => m :: l') <$> va_map_update client va phys size sys l
  end.

Definition nvkvm_record_va_map (client va phys size : Z) (sys : bool) (l : list nvkvm_va_map) : list nvkvm_va_map :=
  if (va =? 0) || (size =? 0) then l
  else match va_map_update client va phys size sys l with
       | Some l' => l'
       | None => if room l NVKVM_MAX_MAPS then l ++ [VaMap client va phys size sys] else l
       end.

(** [NV2080_CTRL_CMD_GPU_PROMOTE_CTX]: the count is clamped, absent entries skipped. *)
Definition nvkvm_snoop_promote_ctx (cmd : bytes) (l : list nvkvm_va_map) : list nvkvm_va_map :=
  let p := 120 in
  let client := get32 cmd (p + 12) in
  let ec := get32 cmd (p + 40) in
  let ec := if 64 <? ec then 64 else ec in
  sweep (fun i l =>
    let e := p + 48 + i * 32 in
    let phys := get64 cmd e in
    let va := get64 cmd (e + 8) in
    let sz := get64 cmd (e + 16) in
    if (va =? 0) || (sz =? 0) || negb (get8 cmd (e + 31) =? 0) then l
    else nvkvm_record_va_map client va phys sz (negb (Z.land (get32 cmd (e + 24)) 3 =? 0)) l) 0 (Z.to_nat ec) l.

(** ** Frees *)

Definition nvkvm_m2_osevent_drop (fClient fObj : Z) (l : list osevent) : list osevent :=
  drop_where (fun e => ((oe_hclient e =? fClient) && (oe_hevent e =? fObj)) || ((fClient =? fObj) && (oe_hclient e =? fObj))) l.

Section free.
Context (fClient fObj : Z).
Let root : bool := fClient =? fObj.

(** [root && client == fClient || client == fClient && obj == fObj] *)
Definition hit_by (client obj : Z) : bool := (root && (client =? fClient)) || ((client =? fClient) && (obj =? fObj)).

Definition dup_hit (e : dup_edge) : bool :=
  if root then (dst_client e =? fClient) || (src_client e =? fClient)
  else ((dst_client e =? fClient) && (dst_obj e =? fObj)) || ((src_client e =? fClient) && (src_obj e =? fObj)).

Definition sched_hit (e : tsg_sched) : bool :=
  if root then ts_client e =? fClient else (ts_client e =? fClient) && (ts_tsg e =? fObj).

(** Channels, and whether one with its ring in the compute aperture went. *)
Definition free_chans (l : list chan_entry) : list chan_entry * bool :=
  drop_acc (fun c => hit_by (ch_client c) (ch_hobject c)) (fun c b => if 0x200000000 <=? ch_gpfifo_va c then true else b) l false.

(** Channel buffers, each with its overlay of video memory. *)
Definition free_chanbufs (l : list chanbuf) (fb : list fbback) : list chanbuf * list fbback :=
  drop_acc (fun c => hit_by (cb_client c) (cb_chan c))
    (fun c fb => if cb_fb_base c =? 0 then fb else drop_where (fun e => fb_base e =? cb_fb_base c) fb) l fb.

(** Address spaces of a device, and their handles. *)
Definition free_devvas (l : list devvas) : list devvas * list Z :=
  drop_acc (fun d => hit_by (dv_client d) (dv_vas d)) (fun d hs => if room hs 32 then hs ++ [dv_vas d] else hs) l [].

(** Mappings in the compute aperture, and the host objects to free under [fdev]. *)
Definition flush_mapped (fdev : Z) (l : list mapped_va) : list mapped_va * list (Z * Z * Z) :=
  drop_acc (fun m => (mv_client m =? fClient) && (0x200000000 <=? mv_va m))
    (fun m fr => if negb (mv_hmem m =? 0) && negb (fdev =? 0) then fr ++ [(fClient, fdev, mv_hmem m)] else fr) l [].

Definition free_own (drop_hvas : list Z) (o : own) : own :=
  Own (drop_where (fun v => (vas_hvas v =? fObj) || any (fun h => vas_hvas v =? h) drop_hvas) (o_vas o))
    (drop_where dup_hit (o_dup o))
    (if root then drop_where (fun c => c =? fClient) (o_gr o) else o_gr o)
    (if root then drop_where (fun c => c =? fClient) (o_user o) else o_user o)
    (if root then drop_where (fun c => c =? fClient) (o_ce o) else o_ce o)
    (o_cli o) (if root then nvkvm_m2_proc_drop_client (o_proc o) fClient else o_proc o) (m2_gr_client o).

(** The free of an object or of a client, and the host objects freed for it. *)
Definition nvkvm_m2_ctx_free_drop (o : own) (t : tabs) : own * tabs * list (Z * Z * Z) :=
  let '(chans, freed_compute_chan) := free_chans (t_chans t) in
  let '(bufs, fb) := free_chanbufs (t_chanbuf t) (t_fbback t) in
  let '(dvs, drop_hvas) := free_devvas (t_devvas t) in
  let cvs := drop_where (fun c => cv_client c =? fClient) (t_cvas t) in
  let fdev := match List.find (fun d => dv_client d =? fClient) dvs with Some d => dv_dev d | None => 0 end in
  let '(mapped, frees) := if freed_compute_chan then flush_mapped fdev (t_mapped t) else (t_mapped t, []) in
  let only_root {A} (l l' : list A) := if root then l' else l in
  let pend := if root && room (t_pend t) 32 && negb (any (fun c => c =? fClient) (t_pend t)) then t_pend t ++ [fClient] else t_pend t in
  (free_own drop_hvas o,
   Tabs chans bufs fb dvs cvs mapped (drop_where sched_hit (t_sched t))
     (only_root (t_tsgeng t) (drop_where (fun e => te_client e =? fClient) (t_tsgeng t)))
     (only_root (t_subdev t) (drop_where (fun e => sd_client e =? fClient) (t_subdev t)))
     (only_root (t_grmap t) (drop_where (fun e => gm_client e =? fClient) (t_grmap t)))
     (only_root (t_cmap t) (drop_where (fun e => cm_g e =? fClient) (t_cmap t)))
     (t_osevents t) (t_va_map t) pend (t_objs t) (t_gpga t),
   frees).
End free.

(** ** Deferred removal *)

(** The objects of a client, with the ranges that refer to them. *)
Fixpoint reap_objs (cl : Z) (fuel : nat) (i : nat) (objs : list m2_obj) (gpga : list m2_gpga) : list m2_obj * list m2_gpga :=
  match fuel with
  | O => (objs, gpga)
  | S n =>
      match objs !! i with
      | Some ob =>
          if negb (ob_client ob =? cl) then reap_objs cl n (S i) objs gpga
          else
            let last := Z.of_nat (length objs) - 1 in
            let gpga := drop_where (fun g => gp_obj_idx g =? Z.of_nat i) gpga in
            let gpga := map (fun g => if gp_obj_idx g =? last then Gpga (gp_base g) (gp_size g) (Z.of_nat i) (gp_off g) else g) gpga in
            reap_objs cl n i (swap_remove i objs) gpga
      | None => (objs, gpga)
      end
  end.

Definition reap_client (cl : Z) (st : own * tabs) : own * tabs :=
  let '(o, t) := st in
  let '(objs, gpga) := reap_objs cl (length (t_objs t)) 0 (t_objs t) (t_gpga t) in
  (Own (o_vas o) (o_dup o) (o_gr o) (o_user o) (o_ce o) (drop_where (fun e => cl_client e =? cl) (o_cli o)) (o_proc o) (m2_gr_client o),
   Tabs (t_chans t) (t_chanbuf t) (t_fbback t) (t_devvas t) (t_cvas t) (t_mapped t) (t_sched t) (t_tsgeng t) (t_subdev t) (t_grmap t) (t_cmap t)
     (t_osevents t) (drop_where (fun m => vm_client m =? cl) (t_va_map t)) (t_pend t) objs gpga).

Definition nvkvm_m2_reap_dead (o : own) (t : tabs) : own * tabs :=
  let '(o, t) := fold_left (fun st cl => reap_client cl st) (t_pend t) (o, t) in
  (o, Tabs (t_chans t) (t_chanbuf t) (t_fbback t) (t_devvas t) (t_cvas t) (t_mapped t) (t_sched t) (t_tsgeng t) (t_subdev t) (t_grmap t) (t_cmap t)
        (t_osevents t) (t_va_map t) [] (t_objs t) (t_gpga t)).

(** ** What a free removes *)

(** Of an object of [client]: by its own free or by its client's. *)
Definition freed (c o client obj : Z) : Prop := client = c /\ (c = o \/ obj = o).
#[global] Instance freed_dec c o client obj : Decision (freed c o client obj).
Proof. unfold freed. apply _. Defined.

(** With its client only. *)
Definition gone (c o client : Z) : Prop := c = o /\ client = c.
#[global] Instance gone_dec c o client : Decision (gone c o client).
Proof. unfold gone. apply _. Defined.

Lemma drop_filter {A} (hit : A -> bool) (P : A -> Prop) `{forall x, Decision (P x)} l :
  (forall x, hit x = true <-> P x) -> drop_where hit l ≡ₚ filter (fun x => ~ P x) l.
Proof.
  intros E. rewrite drop_where_spec. rewrite (list_filter_iff _ (fun x => ~ P x)); [done |]. intros x. rewrite <- E. by destruct (hit x).
Qed.

Lemma drop_root {A} (c o : Z) (key : A -> Z) l :
  (if c =? o then drop_where (fun x => key x =? c) l else l) ≡ₚ filter (fun x => ~ gone c o (key x)) l.
Proof.
  destruct (Z.eqb_spec c o) as [E|E].
  - apply drop_filter. intros x. rewrite Z.eqb_eq. unfold gone. tauto.
  - rewrite filter_keep; [done |]. apply Forall_forall. intros x _ [H _]. done.
Qed.

Lemma hit_by_spec c o client obj : hit_by c o client obj = true <-> freed c o client obj.
Proof. unfold hit_by, freed. rewrite orb_true_iff, !andb_true_iff, !Z.eqb_eq. tauto. Qed.

Lemma drop_acc_fst {A B} (hit : A -> bool) (f : A -> B -> B) (P : A -> Prop) `{forall x, Decision (P x)} l b :
  (forall x, hit x = true <-> P x) -> fst (drop_acc hit f l b) ≡ₚ filter (fun x => ~ P x) l.
Proof.
  intros E. destruct (drop_acc_spec hit f l b) as (hs & -> & _). rewrite (list_filter_iff _ (fun x => ~ P x)); [done |]. intros x. rewrite <- E. by destruct (hit x).
Qed.

(** The overlays of the channel buffers that went. *)
Lemma chanbuf_overlays hs : forall fb e,
  e ∈ foldl (fun fb c => if cb_fb_base c =? 0 then fb else drop_where (fun e => fb_base e =? cb_fb_base c) fb) fb hs <->
  e ∈ fb /\ forall b, b ∈ hs -> cb_fb_base b <> 0 -> fb_base e <> cb_fb_base b.
Proof.
  induction hs as [|h hs IH]; intros fb e; cbn [foldl].
  - split; [|by intros []]. intros H. split; [done |]. intros b Hb. by apply elem_of_nil in Hb.
  - rewrite IH. setoid_rewrite elem_of_cons. destruct (Z.eqb_spec (cb_fb_base h) 0) as [E|E].
    + split; [intros [H1 H2]; split; [done |]; intros b [->|Hb] Hz; [done | by apply H2] | intros [H1 H2]; split; [done |]; auto].
    + rewrite elem_of_drop_where, Z.eqb_neq. split.
      * intros [[H1 H2] H3]. split; [done |]. intros b [->|Hb] Hz; [done | by apply H3].
      * intros [H1 H2]. split; [split; [done | by apply H2; [left |]] |]. auto.
Qed.

Lemma find_filter {A} (p : A -> bool) l : (forall x, x ∈ l -> p x = false) -> List.find p l = None.
Proof.
  induction l as [|x l IH]; intros H; cbn; [done |]. rewrite (H x) by (by left). apply IH. intros y Hy. apply H. by right.
Qed.

Lemma frees_none (c : Z) l : snd (flush_mapped c 0 l) = [].
Proof.
  unfold flush_mapped. destruct (drop_acc_spec (fun m => (mv_client m =? c) && (0x200000000 <=? mv_va m))
    (fun m fr => if negb (mv_hmem m =? 0) && negb (0 =? 0) then fr ++ [(c, 0, mv_hmem m)] else fr) l []) as (hs & _ & _ & ->).
  induction hs as [|h hs IH]; cbn [foldl]; [done |]. by rewrite andb_false_r.
Qed.

(** The state after a free. *)
Definition free_own_of (c o : Z) (ow : own) (t : tabs) : own := fst (fst (nvkvm_m2_ctx_free_drop c o ow t)).
Definition free_tabs_of (c o : Z) (ow : own) (t : tabs) : tabs := snd (fst (nvkvm_m2_ctx_free_drop c o ow t)).
Definition free_host_of (c o : Z) (ow : own) (t : tabs) : list (Z * Z * Z) := snd (nvkvm_m2_ctx_free_drop c o ow t).

Lemma free_fields_spec c o ow t :
  let t' := free_tabs_of c o ow t in let o' := free_own_of c o ow t in
  t_chans t' = fst (free_chans c o (t_chans t)) /\ t_chanbuf t' = fst (free_chanbufs c o (t_chanbuf t) (t_fbback t)) /\
  t_fbback t' = snd (free_chanbufs c o (t_chanbuf t) (t_fbback t)) /\ t_devvas t' = fst (free_devvas c o (t_devvas t)) /\
  t_cvas t' = drop_where (fun x => cv_client x =? c) (t_cvas t) /\ t_sched t' = drop_where (sched_hit c o) (t_sched t) /\
  t_tsgeng t' = (if c =? o then drop_where (fun x => te_client x =? c) (t_tsgeng t) else t_tsgeng t) /\
  t_subdev t' = (if c =? o then drop_where (fun x => sd_client x =? c) (t_subdev t) else t_subdev t) /\
  t_grmap t' = (if c =? o then drop_where (fun x => gm_client x =? c) (t_grmap t) else t_grmap t) /\
  t_cmap t' = (if c =? o then drop_where (fun x => cm_g x =? c) (t_cmap t) else t_cmap t) /\
  o' = free_own c o (snd (free_devvas c o (t_devvas t))) ow.
Proof.
  cbn zeta. unfold free_tabs_of, free_own_of, nvkvm_m2_ctx_free_drop. destruct (free_chans c o (t_chans t)) as [ch b],
    (free_chanbufs c o (t_chanbuf t) (t_fbback t)) as [bf fb], (free_devvas c o (t_devvas t)) as [dv hs].
  destruct b; [destruct (flush_mapped c _ (t_mapped t)) as [m fr] |]; by split_and!.
Qed.

Lemma free_untouched c o ow t :
  let t' := free_tabs_of c o ow t in
  t_osevents t' = t_osevents t /\ t_va_map t' = t_va_map t /\ t_objs t' = t_objs t /\ t_gpga t' = t_gpga t.
Proof.
  cbn zeta. unfold free_tabs_of, nvkvm_m2_ctx_free_drop. destruct (free_chans c o (t_chans t)) as [ch b],
    (free_chanbufs c o (t_chanbuf t) (t_fbback t)) as [bf fb], (free_devvas c o (t_devvas t)) as [dv hs].
  destruct b; [destruct (flush_mapped c _ (t_mapped t)) as [m fr] |]; by split_and!.
Qed.

(** The handles of the address spaces that went, as many as are remembered. *)
Lemma dropped_hvas c o l : exists hs, hs ≡ₚ filter (fun d => freed c o (dv_client d) (dv_vas d)) l /\ snd (free_devvas c o l) = take 32 (dv_vas <$> hs).
Proof.
  unfold free_devvas. destruct (drop_acc_spec (fun d => hit_by c o (dv_client d) (dv_vas d)) (fun d hs => if room hs 32 then hs ++ [dv_vas d] else hs) l []) as (hs & _ & Hh & ->).
  exists hs. split; [rewrite Hh, (list_filter_iff _ (fun d => freed c o (dv_client d) (dv_vas d))); [done |]; intros d; apply hit_by_spec |].
  assert (forall acc, (length acc <= 32)%nat -> foldl (fun b x => if room b 32 then b ++ [dv_vas x] else b) acc hs = acc ++ take (32 - length acc) (dv_vas <$> hs)) as H; [|apply (H []); cbn; lia].
  clear Hh. induction hs as [|d hs IH]; intros acc Ha; cbn [foldl fmap list_fmap]; [by rewrite take_nil, app_nil_r |].
  unfold room. destruct (Z.ltb_spec (Z.of_nat (length acc)) 32) as [Hr|Hr].
  - rewrite IH by (rewrite length_app; cbn; lia). rewrite length_app. cbn [length]. replace (32 - length acc)%nat with (S (32 - (length acc + 1))) by lia. cbn [take]. by rewrite <- app_assoc.
  - rewrite IH by done. by replace (32 - length acc)%nat with 0%nat by lia.
Qed.

(** A channel in the compute aperture went. *)
Definition compute_freed (c o : Z) (t : tabs) : Prop := Exists (fun x => freed c o (ch_client x) (ch_hobject x) /\ 0x200000000 <= ch_gpfifo_va x) (t_chans t).
#[global] Instance compute_freed_dec c o t : Decision (compute_freed c o t).
Proof. unfold compute_freed. apply _. Defined.

Lemma free_chans_flag c o t : snd (free_chans c o (t_chans t)) = bool_decide (compute_freed c o t).
Proof.
  unfold free_chans, compute_freed. destruct (drop_acc_spec (fun x => hit_by c o (ch_client x) (ch_hobject x)) (fun x b => if 0x200000000 <=? ch_gpfifo_va x then true else b) (t_chans t) false) as (hs & _ & Hh & ->).
  transitivity (bool_decide (Exists (fun x => 0x200000000 <= ch_gpfifo_va x) hs)).
  - assert (forall b, foldl (fun b x => if 0x200000000 <=? ch_gpfifo_va x then true else b) b hs = b || bool_decide (Exists (fun x => 0x200000000 <= ch_gpfifo_va x) hs)) as H; [|by rewrite H].
    clear Hh. induction hs as [|x hs IH]; intros b; cbn [foldl].
    { rewrite bool_decide_eq_false_2; [by rewrite orb_false_r | intros H; by apply Exists_nil in H]. }
    rewrite IH. rewrite (bool_decide_ext _ _ (Exists_cons _ x hs)), bool_decide_or. destruct (Z.leb_spec 0x200000000 (ch_gpfifo_va x)).
    + rewrite (bool_decide_eq_true_2 (0x200000000 <= ch_gpfifo_va x)) by done. by rewrite orb_true_r.
    + by rewrite (bool_decide_eq_false_2 (0x200000000 <= ch_gpfifo_va x)) by lia.
  - apply bool_decide_ext. rewrite !Exists_exists. setoid_rewrite Hh. setoid_rewrite list_elem_of_filter. setoid_rewrite hit_by_spec. naive_solver.
Qed.

Lemma free_mapped c o ow t :
  t_mapped (free_tabs_of c o ow t) ≡ₚ filter (fun m => ~ (compute_freed c o t /\ mv_client m = c /\ 0x200000000 <= mv_va m)) (t_mapped t).
Proof.
  pose proof (free_chans_flag c o t) as Hc. unfold free_tabs_of, nvkvm_m2_ctx_free_drop. destruct (free_chans c o (t_chans t)) as [ch b],
    (free_chanbufs c o (t_chanbuf t) (t_fbback t)) as [bf fb], (free_devvas c o (t_devvas t)) as [dv hs]. cbn [snd] in Hc. subst b. case_bool_decide as Hf.
  - destruct (flush_mapped c _ (t_mapped t)) as [m fr] eqn:E. cbn [fst snd t_mapped]. change m with (fst (m, fr)). rewrite <- E. unfold flush_mapped.
    apply drop_acc_fst. intros x. rewrite andb_true_iff, Z.eqb_eq, Z.leb_le. tauto.
  - cbn [fst snd t_mapped]. rewrite filter_keep; [done |]. apply Forall_forall. tauto.
Qed.

(** C26. [free_exact]: what a free of object [o] by client [c] (of the whole client if
    [c = o]) does to each table, up to order.  Out of the channels, channel buffers,
    device address spaces and schedules go those of that client with that object, or all
    of that client's if it is the client itself; out of the duplications those with
    such an end.  The host address spaces made for the client's groups all go, whichever object is
    freed.  The tables of engines, subdevices, GR maps and host clients and the lists of
    GR, user and CE clients lose the client's entries if it is the client that is freed
    and are unchanged otherwise.  An overlay of video memory goes if it has the base of
    a channel buffer that went.  The recorded mappings of the client in the compute
    aperture go if a channel there went.  Page directory roots go by handle alone,
    whoever's they are: those with handle [o] and with the handle of one of the first 32
    device address spaces that went.  OS events, recorded ranges, objects, their index,
    the clients' address spaces and the current graphics client stay.  The process
    registry, the list of clients to reap and the host's objects are not part of it. *)
Theorem free_exact (c o : Z) (ow : own) (t : tabs) :
  let t' := free_tabs_of c o ow t in let o' := free_own_of c o ow t in
  t_chans t' ≡ₚ filter (fun x => ~ freed c o (ch_client x) (ch_hobject x)) (t_chans t) /\
  t_chanbuf t' ≡ₚ filter (fun x => ~ freed c o (cb_client x) (cb_chan x)) (t_chanbuf t) /\
  t_devvas t' ≡ₚ filter (fun x => ~ freed c o (dv_client x) (dv_vas x)) (t_devvas t) /\
  t_sched t' ≡ₚ filter (fun x => ~ freed c o (ts_client x) (ts_tsg x)) (t_sched t) /\
  t_cvas t' ≡ₚ filter (fun x => ~ cv_client x = c) (t_cvas t) /\
  t_tsgeng t' ≡ₚ filter (fun x => ~ gone c o (te_client x)) (t_tsgeng t) /\ t_subdev t' ≡ₚ filter (fun x => ~ gone c o (sd_client x)) (t_subdev t) /\
  t_grmap t' ≡ₚ filter (fun x => ~ gone c o (gm_client x)) (t_grmap t) /\ t_cmap t' ≡ₚ filter (fun x => ~ gone c o (cm_g x)) (t_cmap t) /\
  o_gr o' ≡ₚ filter (fun x => ~ gone c o x) (o_gr ow) /\ o_user o' ≡ₚ filter (fun x => ~ gone c o x) (o_user ow) /\
  o_ce o' ≡ₚ filter (fun x => ~ gone c o x) (o_ce ow) /\
  o_dup o' ≡ₚ filter (fun e => ~ (freed c o (dst_client e) (dst_obj e) \/ freed c o (src_client e) (src_obj e))) (o_dup ow) /\
  (forall e, e ∈ t_fbback t' <-> e ∈ t_fbback t /\ forall b, b ∈ t_chanbuf t -> freed c o (cb_client b) (cb_chan b) -> cb_fb_base b <> 0 -> fb_base e <> cb_fb_base b) /\
  t_mapped t' ≡ₚ filter (fun m => ~ (compute_freed c o t /\ mv_client m = c /\ 0x200000000 <= mv_va m)) (t_mapped t) /\
  (exists hs, hs ≡ₚ filter (fun d => freed c o (dv_client d) (dv_vas d)) (t_devvas t) /\
     o_vas o' ≡ₚ filter (fun v => ~ (vas_hvas v = o \/ vas_hvas v ∈ take 32 (dv_vas <$> hs))) (o_vas ow)) /\
  t_osevents t' = t_osevents t /\ t_va_map t' = t_va_map t /\ t_objs t' = t_objs t /\ t_gpga t' = t_gpga t /\ o_cli o' = o_cli ow /\ m2_gr_client o' = m2_gr_client ow.
Proof.
  cbn zeta. destruct (free_untouched c o ow t) as (-> & -> & -> & ->). pose proof (free_mapped c o ow t) as Hm. destruct (dropped_hvas c o (t_devvas t)) as (hs & Hh & Es).
  destruct (free_fields_spec c o ow t) as (-> & -> & -> & -> & -> & -> & -> & -> & -> & -> & ->). unfold free_own. cbn [o_gr o_user o_ce o_dup o_vas o_cli m2_gr_client].
  split_and!; try done.
  1-3: apply drop_acc_fst; intros x; apply hit_by_spec.
  1: apply drop_filter; intros x; unfold sched_hit, freed; destruct (Z.eqb_spec c o); rewrite ?andb_true_iff, !Z.eqb_eq; tauto.
  1: apply drop_filter; intros x; apply Z.eqb_eq.
  1-4: apply drop_root.
  1-3: apply (drop_root c o (fun x => x)).
  1: apply drop_filter; intros e; unfold dup_hit, freed; destruct (Z.eqb_spec c o); rewrite !orb_true_iff, ?andb_true_iff, !Z.eqb_eq; tauto.
  - intros e. unfold free_chanbufs. destruct (drop_acc_spec (fun x => hit_by c o (cb_client x) (cb_chan x))
      (fun x fb => if cb_fb_base x =? 0 then fb else drop_where (fun e => fb_base e =? cb_fb_base x) fb) (t_chanbuf t) (t_fbback t)) as (bs & _ & Hb & ->).
    rewrite chanbuf_overlays. setoid_rewrite Hb. setoid_rewrite list_elem_of_filter. setoid_rewrite hit_by_spec. naive_solver.
  - exists hs. split; [done |]. rewrite Es. apply drop_filter. intros v. rewrite orb_true_iff, Z.eqb_eq. unfold any. rewrite existsb_exists. setoid_rewrite <- list_elem_of_In. setoid_rewrite Z.eqb_eq. naive_solver.
Qed.

(** ** A client that is gone owns nothing *)

Lemma any_true {A} (p : A -> bool) l : any p l = true <-> exists x, x ∈ l /\ p x = true.
Proof. unfold any. rewrite existsb_exists. setoid_rewrite list_elem_of_In. done. Qed.

Lemma any_false {A} (p : A -> bool) l : any p l = false <-> forall x, x ∈ l -> p x = false.
Proof.
  rewrite <- not_true_iff_false, any_true. split.
  - intros H x Hx. apply not_true_iff_false. intros Hp. apply H. eauto.
  - intros H (x & Hx & Hp). by rewrite (H x Hx) in Hp.
Qed.

Lemma client_listed c l : listed c l = true <-> c <> 0 /\ c ∈ l.
Proof.
  unfold listed. rewrite andb_true_iff, negb_true_iff, Z.eqb_neq, any_true. setoid_rewrite Z.eqb_eq. naive_solver.
Qed.

Lemma dup_owner_in o vc vh : nvkvm_m2_vas_dup_owner o vc vh <> 0 -> exists e, e ∈ o_dup o /\ dst_client e = vc /\ dst_obj e = vh /\ src_client e = nvkvm_m2_vas_dup_owner o vc vh.
Proof.
  unfold nvkvm_m2_vas_dup_owner. destruct (List.find _ _) as [e|] eqn:E; [|done]. intros _. apply find_some in E as [E1%list_elem_of_In E2].
  exists e. nv_bool. done.
Qed.

Lemma gr_owner_user o v c : gr_owner_of o v = Some c -> nvkvm_m2_is_user_client o c = true /\ (vas_client v = c \/ (c <> 0 /\ nvkvm_m2_vas_dup_owner o (vas_client v) (vas_hvas v) = c)).
Proof.
  unfold gr_owner_of. set (d := nvkvm_m2_vas_dup_owner _ _ _). intros H.
  repeat match type of H with context [if ?b then _ else _] => destruct b eqn:? end; simplify_eq; nv_bool; (split; [try done; apply orb_true_iff; by right | auto]).
Qed.

Lemma gr_owner_scan_user o pdb l : gr_owner_scan o pdb l <> 0 ->
  pdb <> 0 /\ nvkvm_m2_is_user_client o (gr_owner_scan o pdb l) = true /\
  exists v, v ∈ l /\ vas_pdb v = pdb /\ (vas_client v = gr_owner_scan o pdb l \/ nvkvm_m2_vas_dup_owner o (vas_client v) (vas_hvas v) = gr_owner_scan o pdb l).
Proof.
  induction l as [|v l IH]; cbn [gr_owner_scan]; [done |]. destruct ((pdb =? 0) || negb (vas_pdb v =? pdb)) eqn:E.
  - intros (H1 & H2 & w & H3 & H4)%IH. split_and!; [done | done |]. exists w. split; [by right | done].
  - nv_bool. destruct (gr_owner_of o v) as [c|] eqn:Eo.
    + intros Hc. apply gr_owner_user in Eo as [H1 H2]. split_and!; [done | done |]. exists v. split; [by left |]. naive_solver.
    + intros (H1 & H2 & w & H3 & H4)%IH. split_and!; [done | done |]. exists w. split; [by right | done].
Qed.

(** [root_free_disowns]: after the free of a client no predicate names it as the owner of
    anything, so a later client with the same handle starts afresh; and the host's
    objects are left to the host's own free of the client. *)
Theorem root_free_disowns (c : Z) (ow : own) (t : tabs) :
  c <> 0 ->
  let o' := free_own_of c c ow t in
  nvkvm_m2_is_gr_client o' c = false /\ nvkvm_m2_is_user_client o' c = false /\ nvkvm_m2_is_user_ce o' c = false /\ nvkvm_m2_dup_src_client o' c = false /\
  (forall vc vh, nvkvm_m2_vas_dup_owner o' vc vh <> c) /\ (forall pdb, nvkvm_m2_pdb_gr_owner o' pdb <> c) /\
  (forall vc vh, nvkvm_m2_vas_client_match o' vc vh c = true -> vc = c) /\ free_host_of c c ow t = [].
Proof.
  intros Hc. cbn zeta. destruct (free_fields_spec c c ow t) as (_ & _ & _ & _ & _ & _ & _ & _ & _ & _ & ->). set (o' := free_own c c _ ow).
  assert (forall l, listed c (if c =? c then drop_where (fun x => x =? c) l else l) = false) as Hl.
  { intros l. apply not_true_iff_false. rewrite client_listed, Z.eqb_refl, elem_of_drop_where, Z.eqb_neq. tauto. }
  assert (forall e, e ∈ o_dup o' -> dst_client e <> c /\ src_client e <> c) as He.
  { intros e. unfold o', free_own. cbn [o_dup]. rewrite elem_of_drop_where. unfold dup_hit. rewrite Z.eqb_refl. intros [_ H]. nv_bool. done. }
  assert (nvkvm_m2_is_user_client o' c = false) as Hu by (unfold nvkvm_m2_is_user_client, nvkvm_m2_is_gr_client; cbn [o' free_own o_user o_gr]; by rewrite !Hl).
  split_and!; [apply Hl | done | apply Hl | | | | |].
  - unfold nvkvm_m2_dup_src_client. apply andb_false_iff. right. apply any_false. intros e Hin. apply Z.eqb_neq. by apply He.
  - intros vc vh E. destruct (dup_owner_in o' vc vh) as (e & H1 & _ & _ & H2); [congruence |]. destruct (He e H1). congruence.
  - intros pdb E. unfold nvkvm_m2_pdb_gr_owner in E. destruct (gr_owner_scan_user o' pdb (o_vas o')) as (_ & H & _); congruence.
  - intros vc vh. unfold nvkvm_m2_vas_client_match. destruct (_ || _); [done |]. destruct (Z.eqb_spec vc c); [done |].
    intros (e & Hin & H)%any_true. destruct (He e Hin). apply orb_true_iff in H as [H|H]; nv_bool; done.
  - unfold free_host_of, nvkvm_m2_ctx_free_drop. destruct (free_chans c c (t_chans t)) as [ch b], (free_chanbufs c c (t_chanbuf t) (t_fbback t)) as [bf fb].
    destruct (free_devvas c c (t_devvas t)) as [dv hs] eqn:E. destruct b; [|done]. rewrite (find_filter _ dv).
    + pose proof (frees_none c (t_mapped t)) as H. destruct (flush_mapped c 0 (t_mapped t)) as [m fr]. done.
    + assert (dv = fst (free_devvas c c (t_devvas t))) as -> by (by rewrite E). unfold free_devvas. intros d.
      rewrite (drop_acc_fst _ _ (fun d => freed c c (dv_client d) (dv_vas d))) by (intros; apply hit_by_spec). rewrite list_elem_of_filter.
      intros [H _]. apply Z.eqb_neq. intros Hd. apply H. unfold freed. auto.
Qed.

(** ** Deferred removal keeps references *)

(** What each range refers to. *)
Definition refers (objs : list m2_obj) (g : m2_gpga) : Z * Z * Z * option m2_obj :=
  (gp_base g, gp_size g, gp_off g, if gp_obj_idx g <? 0 then None else objs !! Z.to_nat (gp_obj_idx g)).
Definition refs_ok (objs : list m2_obj) (gpga : list m2_gpga) : Prop := Forall (fun g => gp_obj_idx g < Z.of_nat (length objs)) gpga.
Definition alive (cl : Z) (r : Z * Z * Z * option m2_obj) : Prop := match snd r with Some ob => ob_client ob <> cl | None => True end.
#[global] Instance alive_dec cl r : Decision (alive cl r).
Proof. unfold alive. destruct (snd r); apply _. Defined.

Definition repoint (last i : Z) (g : m2_gpga) : m2_gpga := if gp_obj_idx g =? last then Gpga (gp_base g) (gp_size g) i (gp_off g) else g.

(** One object goes. *)
Lemma reap_step objs i ob g :
  objs !! i = Some ob -> gp_obj_idx g < Z.of_nat (length objs) -> gp_obj_idx g <> Z.of_nat i ->
  refers (swap_remove i objs) (repoint (Z.of_nat (length objs) - 1) (Z.of_nat i) g) = refers objs g /\
  gp_obj_idx (repoint (Z.of_nat (length objs) - 1) (Z.of_nat i) g) < Z.of_nat (length (swap_remove i objs)).
Proof.
  intros Hi Hg Hne. pose proof (swap_remove_length objs i ob Hi) as Hl. pose proof (lookup_lt_Some _ _ _ Hi). unfold repoint, refers.
  destruct (Z.eqb_spec (gp_obj_idx g) (Z.of_nat (length objs) - 1)) as [E|E]; cbn [gp_base gp_size gp_off gp_obj_idx].
  - split; [|lia]. rewrite (proj2 (Z.ltb_ge (Z.of_nat i) 0)), (proj2 (Z.ltb_ge (gp_obj_idx g) 0)) by lia.
    rewrite Nat2Z.id, (swap_remove_lookup objs i i ob), decide_True by (done || lia). by replace (Z.to_nat (gp_obj_idx g)) with (pred (length objs)) by lia.
  - split; [|lia]. destruct (Z.ltb_spec (gp_obj_idx g) 0); [done |]. rewrite (swap_remove_lookup objs i _ ob), decide_False by (done || lia). done.
Qed.

Lemma filter_filter_same {A} (P Q : A -> Prop) `{forall x, Decision (P x)} `{forall x, Decision (Q x)} (l : list A) :
  (forall x, x ∈ l -> P x -> Q x) -> filter P (filter Q l) = filter P l.
Proof.
  induction l as [|x l IH]; intros E; [done |]. assert (filter P (filter Q l) = filter P l) as IH' by (apply IH; intros; apply E; [by right | done]).
  destruct (decide (Q x)) as [q|q].
  - rewrite (filter_cons_True Q) by done. destruct (decide (P x)); [rewrite !(filter_cons_True P) by done | rewrite !(filter_cons_False P) by done]; by rewrite IH'.
  - rewrite (filter_cons_False Q), (filter_cons_False P) by (done || (intros p; apply q, E; [by left | done])). done.
Qed.

Lemma filter_map {A B} (f : A -> B) (P : B -> Prop) `{forall x, Decision (P x)} (l : list A) : filter P (map f l) = map f (filter (fun x => P (f x)) l).
Proof.
  induction l as [|x l IH]; [done |]. cbn [map]. destruct (decide (P (f x))).
  - rewrite !filter_cons_True by done. cbn [map]. by rewrite IH.
  - by rewrite !filter_cons_False by done.
Qed.

Lemma reap_objs_spec cl fuel : forall i objs gpga, (length objs <= i + fuel)%nat -> Forall (fun ob => ob_client ob <> cl) (take i objs) -> refs_ok objs gpga ->
  let r := reap_objs cl fuel i objs gpga in
  fst r ≡ₚ filter (fun ob => ob_client ob <> cl) objs /\ refs_ok (fst r) (snd r) /\
  map (refers (fst r)) (snd r) ≡ₚ filter (alive cl) (map (refers objs) gpga).
Proof.
  cbn zeta. assert (forall (objs : list m2_obj) gpga, Forall (fun ob => ob_client ob <> cl) objs -> refs_ok objs gpga ->
    objs ≡ₚ filter (fun ob => ob_client ob <> cl) objs /\ refs_ok objs gpga /\ map (refers objs) gpga ≡ₚ filter (alive cl) (map (refers objs) gpga)) as Hend.
  { intros objs gpga Ha Hr. rewrite (filter_keep (fun ob => ob_client ob <> cl) _ Ha). split_and!; [done | done |]. rewrite filter_keep; [done |].
    apply Forall_map. eapply Forall_impl; [apply Hr |]. intros g _. unfold refers, alive. cbn [snd]. destruct (_ <? 0); [done |].
    destruct (objs !! _) as [ob|] eqn:E; [|done]. by apply (Forall_lookup_1 _ _ _ _ Ha E). }
  induction fuel as [|n IH]; intros i objs gpga Hl Ht Hr; cbn [reap_objs].
  { rewrite take_ge in Ht by lia. by apply Hend. }
  destruct (objs !! i) as [ob|] eqn:E.
  2:{ apply lookup_ge_None in E. rewrite take_ge in Ht by lia. by apply Hend. }
  destruct (Z.eqb_spec (ob_client ob) cl) as [Ec|Ec]; cbn [negb].
  - set (g1 := drop_where (fun g => gp_obj_idx g =? Z.of_nat i) gpga). fold (repoint (Z.of_nat (length objs) - 1) (Z.of_nat i)).
    change (map (fun g => if _ =? _ then _ else g) g1) with (map (repoint (Z.of_nat (length objs) - 1) (Z.of_nat i)) g1).
    assert (Forall (fun g => gp_obj_idx g < Z.of_nat (length objs) /\ gp_obj_idx g <> Z.of_nat i) g1) as Hg.
    { apply Forall_forall. intros g [H1 H2%Z.eqb_neq]%elem_of_drop_where. split; [by apply (proj1 (Forall_forall _ _) Hr) | done]. }
    destruct (IH i (swap_remove i objs) (map (repoint (Z.of_nat (length objs) - 1) (Z.of_nat i)) g1)) as (H1 & H2 & H3).
    + rewrite (swap_remove_length objs i ob E) in Hl. lia.
    + by rewrite (swap_remove_take objs i ob E).
    + apply Forall_map. eapply Forall_impl; [apply Hg |]. intros g [A1 A2]. by apply (reap_step objs i ob g).
    + split_and!; [| done |].
      * rewrite H1. rewrite <- (filter_Permutation _ _ _ (swap_last_perm objs i ob E)). by rewrite filter_cons_False by (intros F; by apply F).
      * rewrite H3. rewrite map_map. rewrite (map_ext_Forall _ (refers objs)); [|eapply Forall_impl; [apply Hg |]; intros g [A1 A2]; by apply (reap_step objs i ob g)].
        unfold g1. rewrite (drop_where_spec (fun g => gp_obj_idx g =? Z.of_nat i)). rewrite !filter_map. apply Permutation_map.
        rewrite filter_filter_same; [done |]. intros g _ Ha. cbn in Ha. apply Z.eqb_neq. intros Hi. unfold alive, refers in Ha. cbn [snd] in Ha.
        rewrite Hi, (proj2 (Z.ltb_ge (Z.of_nat i) 0)), Nat2Z.id, E in Ha by lia. done.
  - apply IH; [lia | | done]. rewrite (take_S_r objs i ob E). apply Forall_app. split; [done | by constructor].
Qed.

(** Not of one of the clients in [dead]. *)
Definition survives (dead : list Z) (r : Z * Z * Z * option m2_obj) : Prop := match snd r with Some ob => ob_client ob ∉ dead | None => True end.
#[global] Instance survives_dec dead r : Decision (survives dead r).
Proof. unfold survives. destruct (snd r); apply _. Defined.

Definition reaped (dead : list Z) (o : own) (t : tabs) (o' : own) (t' : tabs) : Prop :=
  t_objs t' ≡ₚ filter (fun ob => ob_client ob ∉ dead) (t_objs t) /\ refs_ok (t_objs t') (t_gpga t') /\
  map (refers (t_objs t')) (t_gpga t') ≡ₚ filter (survives dead) (map (refers (t_objs t)) (t_gpga t)) /\
  o_cli o' ≡ₚ filter (fun e => cl_client e ∉ dead) (o_cli o) /\ t_va_map t' ≡ₚ filter (fun m => vm_client m ∉ dead) (t_va_map t).

Lemma filter_more {A} (P Q R : A -> Prop) `{forall x, Decision (P x)} `{forall x, Decision (Q x)} `{forall x, Decision (R x)} (l l1 l2 : list A) :
  l1 ≡ₚ filter P l -> l2 ≡ₚ filter Q l1 -> (forall x, R x <-> Q x /\ P x) -> l2 ≡ₚ filter R l.
Proof. intros -> -> E. rewrite list_filter_filter. by rewrite (list_filter_iff _ R l) by (intros x; rewrite E; tauto). Qed.

Lemma drop_single {A} (key : A -> Z) cl l : drop_where (fun x => key x =? cl) l ≡ₚ filter (fun x => key x ∉ [cl]) l.
Proof.
  rewrite drop_where_spec. rewrite (list_filter_iff _ (fun x => key x ∉ [cl])); [done |]. intros x. rewrite list_elem_of_singleton. apply Z.eqb_neq.
Qed.

Lemma reap_client_spec cl o t : refs_ok (t_objs t) (t_gpga t) -> reaped [cl] o t (fst (reap_client cl (o, t))) (snd (reap_client cl (o, t))).
Proof.
  intros Hr. unfold reap_client, reaped. destruct (reap_objs_spec cl (length (t_objs t)) 0 (t_objs t) (t_gpga t)) as (H1 & H2 & H3); [lia | done | done |].
  destruct (reap_objs cl _ 0 _ _) as [objs gpga]. cbn [fst snd t_objs t_gpga o_cli t_va_map] in *. split_and!; [| done | | |].
  - rewrite H1. by rewrite (list_filter_iff _ (fun ob => ob_client ob ∉ [cl])) by (intros x; by rewrite list_elem_of_singleton).
  - rewrite H3. rewrite (list_filter_iff _ (survives [cl])); [done |]. intros [r [ob|]]; unfold alive, survives; cbn [snd]; [by rewrite list_elem_of_singleton | done].
  - apply drop_single.
  - apply drop_single.
Qed.

Lemma reap_fold dead : forall o t, refs_ok (t_objs t) (t_gpga t) ->
  let st := fold_left (fun st cl => reap_client cl st) dead (o, t) in reaped dead o t (fst st) (snd st).
Proof.
  induction dead as [|cl dead IH]; intros o t Hr; cbn [fold_left].
  - unfold reaped. cbn [fst snd]. assert (forall A (f : A -> Z) (l : list A), filter (fun x => f x ∉ []) l = l) as Hn.
    { intros A f l. apply filter_keep, Forall_forall. intros x _ H. by apply elem_of_nil in H. }
    rewrite !Hn. split_and!; try done. rewrite filter_keep; [done |]. apply Forall_forall. intros [r [ob|]] _; unfold survives; cbn [snd]; [apply not_elem_of_nil | done].
  - pose proof (reap_client_spec cl o t Hr) as (A1 & A2 & A3 & A4 & A5). destruct (reap_client cl (o, t)) as [o1 t1]. cbn [fst snd] in *.
    destruct (IH o1 t1 A2) as (B1 & B2 & B3 & B4 & B5). unfold reaped. split_and!; [| done | | |].
    + eapply filter_more; [apply A1 | apply B1 |]. intros x. cbn. rewrite elem_of_cons, list_elem_of_singleton. tauto.
    + eapply filter_more; [apply A3 | apply B3 |]. intros [r [ob|]]; unfold survives; cbn [snd]; [rewrite elem_of_cons, list_elem_of_singleton; tauto | tauto].
    + eapply filter_more; [apply A4 | apply B4 |]. intros x. cbn. rewrite elem_of_cons, list_elem_of_singleton. tauto.
    + eapply filter_more; [apply A5 | apply B5 |]. intros x. cbn. rewrite elem_of_cons, list_elem_of_singleton. tauto.
Qed.

(** C18. [reap_keeps_references]: the deferred removal takes exactly the objects, sticky roots
    and mappings of the clients waiting for it; every range whose object stays refers
    to the same object after the objects have moved, and every other range goes. *)
Theorem reap_keeps_references (o : own) (t : tabs) :
  refs_ok (t_objs t) (t_gpga t) ->
  reaped (t_pend t) o t (fst (nvkvm_m2_reap_dead o t)) (snd (nvkvm_m2_reap_dead o t)) /\ t_pend (snd (nvkvm_m2_reap_dead o t)) = [].
Proof.
  intros Hr. pose proof (reap_fold (t_pend t) o t Hr) as H. cbn zeta in H. unfold nvkvm_m2_reap_dead. destruct (fold_left _ _ _) as [o1 t1].
  cbn [fst snd] in *. split; [|done]. apply H.
Qed.

(** ** Ownership *)

(** [owner_exclusive]: an address space that has an owner among the clients that handed
    objects on is foreign to every other client, unless an observed duplication or its
    capture ties that client to it; so a sweep for one process skips another's. *)
Theorem owner_exclusive (o : own) (pdb client : Z) :
  nvkvm_m2_pdb_gr_owner o pdb <> 0 -> nvkvm_m2_dup_src_client o (nvkvm_m2_pdb_gr_owner o pdb) = true -> client <> nvkvm_m2_pdb_gr_owner o pdb ->
  exists v, v ∈ o_vas o /\ vas_pdb v = pdb /\
    (nvkvm_m2_vas_foreign o v client = true \/
     (vas_client v = client \/ exists e, e ∈ o_dup o /\ ((dst_client e = vas_client v /\ dst_obj e = vas_hvas v /\ src_client e = client) \/
                                                         (src_client e = vas_client v /\ src_obj e = vas_hvas v /\ dst_client e = client)))).
Proof.
  unfold nvkvm_m2_pdb_gr_owner. set (w := gr_owner_scan o pdb (o_vas o)). intros Hw Hs Hc.
  destruct (gr_owner_scan_user o pdb (o_vas o) Hw) as (_ & _ & v & Hv & Hp & Ho). fold w in Ho. exists v. split_and!; [done | done |].
  unfold nvkvm_m2_vas_foreign. destruct (nvkvm_m2_vas_client_match o _ _ client) eqn:Em.
  - right. unfold nvkvm_m2_vas_client_match in Em. destruct (_ || _); [done |]. destruct (Z.eqb_spec (vas_client v) client); [by left | right].
    apply any_true in Em as (e & He & Em). exists e. split; [done |]. apply orb_true_iff in Em as [Em|Em]; nv_bool; auto.
  - left. destruct (negb _ && negb _) eqn:En; [done |]. destruct Ho as [Ho|Ho].
    + rewrite Ho, Hs, (proj2 (Z.eqb_neq w client)) by congruence. done.
    + rewrite Ho in En. rewrite (proj2 (Z.eqb_neq w 0) Hw), (proj2 (Z.eqb_neq w client)) in En by congruence. done.
Qed.

(** ** Two processes *)

(** Calls as the guest's driver puts them into the queue. *)
Definition call_dup (d_cli d_obj s_cli s_obj : Z) : bytes := put32 (put32 (put32 (put32 ∅ 80 d_cli) 88 d_obj) 92 s_cli) 96 s_obj.
Definition call_pdes (client hvas pdb : Z) : bytes := put64 (put32 (put32 (put32 ∅ 80 client) 84 hvas) 88 0x90f10106) 160 pdb.
Definition call_set_dir (client hvas pdb flags : Z) : bytes :=
  put32 (put32 (put64 (put32 (put32 ∅ 80 client) 88 0x801813) 120 pdb) 132 flags) 136 hvas.

Definition ex_A : Z := 0xc1d00010.
Definition ex_B : Z := 0xc1d00020.
Definition ex_uvm : Z := 0xc1d00003.

(** Both processes use the same handle for their address space; the shared client of the
    memory manager holds a duplicate of each. *)
Definition ex_own : own :=
  gr_client_add ex_B (gr_client_add ex_A
    (snoop_set_page_directory 76 (call_set_dir ex_uvm 0x11 0x5000 1)
    (snoop_set_page_directory 76 (call_set_dir ex_uvm 0x10 0x4000 1)
    (snoop_reserved_pdes 76 (call_pdes ex_B 0xcaf00005 0x3000)
    (snoop_reserved_pdes 76 (call_pdes ex_A 0xcaf00005 0x2000)
    (snoop_dup_object 21 (call_dup ex_uvm 0x11 ex_B 0xcaf00005)
    (snoop_dup_object 21 (call_dup ex_uvm 0x10 ex_A 0xcaf00005) (Own [] [] [] [] [] [] [] 0)))))))).

Definition ex_tabs : tabs :=
  Tabs [Chan ex_A 1 0x200200000; Chan ex_B 1 0x200200000] [Chanbuf ex_A 1 0x8000; Chanbuf ex_B 1 0x9000] [Fbback 0x8000 0x1000 1; Fbback 0x9000 0x1000 2]
    [Devvas ex_A 2 0xcaf00005; Devvas ex_B 2 0xcaf00005] [] [MappedVa ex_A 0x200200000 0x7000 9 0] [] [] [] [] [CMap ex_A 0xdead0001; CMap ex_B 0xdead0002]
    [] [] [ex_A] [Obj ex_A 1; Obj ex_B 2; Obj ex_A 3; Obj ex_B 4] [Gpga 0x10000 0x1000 0 0; Gpga 0x20000 0x1000 3 0; Gpga 0x30000 0x1000 1 0; Gpga 0x40000 0x1000 2 0; Gpga 0x50000 0x1000 (-1) 0].

Lemma root_free_disowns_witness :
  ex_A <> 0 /\ nvkvm_m2_pdb_gr_owner ex_own 0x4000 = ex_A /\ nvkvm_m2_pdb_gr_owner (free_own_of ex_A ex_A ex_own ex_tabs) 0x4000 <> ex_A.
Proof.
  split_and!; [done | by vm_compute |]. destruct (root_free_disowns ex_A ex_own ex_tabs) as (_ & _ & _ & _ & _ & H & _); [done | apply H].
Defined.

(** A channel of the first process in the compute aperture, and with it its mapping there. *)
Lemma free_exact_witness :
  let t' := free_tabs_of ex_A 1 ex_own ex_tabs in
  t_chans t' ≡ₚ [Chan ex_B 1 0x200200000] /\ t_mapped t' ≡ₚ [] /\ o_dup (free_own_of ex_A 1 ex_own ex_tabs) ≡ₚ o_dup ex_own.
Proof.
  destruct (free_exact ex_A 1 ex_own ex_tabs) as (H1 & _ & _ & _ & _ & _ & _ & _ & _ & _ & _ & _ & H2 & _ & H3 & _). cbn zeta.
  split_and!; [etransitivity; [exact H1 |] | etransitivity; [exact H3 |] | etransitivity; [exact H2 |]]; vm_compute; reflexivity.
Defined.

Lemma reap_keeps_references_witness :
  refs_ok (t_objs ex_tabs) (t_gpga ex_tabs) /\ t_gpga (snd (nvkvm_m2_reap_dead ex_own ex_tabs)) = [Gpga 0x50000 0x1000 (-1) 0; Gpga 0x20000 0x1000 0 0; Gpga 0x30000 0x1000 1 0] /\
  t_pend (snd (nvkvm_m2_reap_dead ex_own ex_tabs)) = [].
Proof.
  assert (refs_ok (t_objs ex_tabs) (t_gpga ex_tabs)) as Hr by (repeat constructor).
  split_and!; [done | by vm_compute | apply (reap_keeps_references ex_own ex_tabs Hr)].
Defined.

Lemma owner_exclusive_witness :
  nvkvm_m2_multiproc ex_own = true /\ exists v, v ∈ o_vas ex_own /\ vas_pdb v = 0x4000 /\
    (nvkvm_m2_vas_foreign ex_own v ex_B = true \/
     (vas_client v = ex_B \/ exists e, e ∈ o_dup ex_own /\ ((dst_client e = vas_client v /\ dst_obj e = vas_hvas v /\ src_client e = ex_B) \/
                                                            (src_client e = vas_client v /\ src_obj e = vas_hvas v /\ dst_client e = ex_B)))).
Proof. split; [by vm_compute | apply (owner_exclusive ex_own 0x4000 ex_B); by vm_compute]. Defined.

(** [free_drops_foreign_root]: the roots are dropped by the value of their handle alone.
    No root with the freed handle is left, whoever owns it, and with two processes that
    use the same handle the free by one takes the other's root out of the table. *)
Theorem free_drops_foreign_root :
  (forall c hv ow t v, v ∈ o_vas (free_own_of c hv ow t) -> vas_hvas v <> hv) /\
  exists ow t a b pdb, a <> b /\ nvkvm_m2_multiproc ow = true /\ nvkvm_m2_pdb_gr_owner ow pdb = b /\ b <> 0 /\
    nvkvm_m2_pdb_gr_owner (free_own_of a 0xcaf00005 ow t) pdb = 0.
Proof.
  split.
  - intros c hv ow t v. destruct (free_fields_spec c hv ow t) as (_ & _ & _ & _ & _ & _ & _ & _ & _ & _ & ->). unfold free_own. cbn [o_vas].
    rewrite elem_of_drop_where. intros [_ H]. nv_bool. done.
  - exists ex_own, ex_tabs, ex_A, ex_B, 0x3000. by vm_compute.
Qed.

End ClientState.
