(* ===== verification/PtTrack.v ===== *)
(** * Tracking of page-table pages ([src/qemu/nvkvm_gpu_emul.c])

    The emulated GPU mirrors the guest's mappings by sweeping its page tables.  A sweep
    notes every page of video memory it reads an entry from, in a hash set, and a later
    write to such a page asks for another sweep.  Tables of compute address spaces are
    kept with their level and base in a second table of the same kind; a copy-engine
    write to one of them latches it, and the next semaphore release decodes the latched
    pages. *)

From S2P Require Import Prelude Bytes Gmmu ClientState.
Local Open Scope Z_scope.
Local Open Scope nv_scope.

Module PtTrack.
Import Gmmu ClientState.

(** ** Open addressing *)

Definition page_base (addr : Z) : Z := mask_down addr 4096.

(** The first slot at which the probe stops. *)
Fixpoint find_slot (b : Z) (stop : Z -> bool) (n : nat) (h : Z) : option Z :=
  match n with
  | O => None
  | S n => if stop h then Some h else find_slot b stop n (Z.land (h + 1) (2 ^ b - 1))
  end.

Definition hash (b base : Z) : Z := Z.land (u32 (u64 (Z.shiftr base 12 * 2654435761))) (2 ^ b - 1).

Section probing.
Context (b : Z) (Hb : 0 < b).

Definition probe_at (h p : Z) : Z := (h + p) mod (2 ^ b).

Lemma N_pos : 0 < (2 ^ b).
Proof. apply Z.pow_pos_nonneg; lia. Qed.

Lemma probe_at_range h p : 0 <= probe_at h p < (2 ^ b).
Proof. apply Z.mod_pos_bound, N_pos. Qed.

Lemma hash_range base : 0 <= hash b base < (2 ^ b).
Proof. unfold hash. rewrite land_pow2_minus_1 by lia. apply Z.mod_pos_bound, N_pos. Qed.

Lemma probe_0 h : 0 <= h < (2 ^ b) -> probe_at h 0 = h.
Proof. intros. unfold probe_at. rewrite Z.add_0_r. by apply Z.mod_small. Qed.

Lemma probe_next h p : probe_at (Z.land (h + 1) ((2 ^ b) - 1)) p = probe_at h (p + 1).
Proof. unfold probe_at. rewrite land_pow2_minus_1 by lia. rewrite Zplus_mod_idemp_l. f_equal. lia. Qed.

Lemma find_slot_Some stop n : forall h j, 0 <= h < (2 ^ b) -> find_slot b stop n h = Some j ->
  stop j = true /\ exists p, 0 <= p < Z.of_nat n /\ j = probe_at h p /\ forall q, 0 <= q < p -> stop (probe_at h q) = false.
Proof.
  induction n as [|m IH]; intros h j Hh; cbn [find_slot]; [done |]. destruct (stop h) eqn:E.
  - intros [= <-]. split; [done |]. exists 0. split_and!; [lia | lia | by rewrite probe_0 | intros; lia].
  - assert (0 <= Z.land (h + 1) ((2 ^ b) - 1) < (2 ^ b)) as Hr by (rewrite land_pow2_minus_1 by lia; apply Z.mod_pos_bound, N_pos).
    intros (H1 & p & Hp & -> & Hq)%IH; [|done]. split; [done |]. exists (p + 1). split_and!; [lia | lia | apply probe_next |].
    intros q Hq'. destruct (Z.eq_dec q 0) as [->|]; [by rewrite probe_0 |]. replace q with (q - 1 + 1) by lia. rewrite <- probe_next. apply Hq. lia.
Qed.

Lemma find_slot_ex stop n : forall h p, 0 <= h < (2 ^ b) -> 0 <= p < Z.of_nat n -> stop (probe_at h p) = true -> exists j, find_slot b stop n h = Some j.
Proof.
  induction n as [|m IH]; intros h p Hh Hp Hs; [lia |]. cbn [find_slot]. destruct (stop h) eqn:E; [eauto |].
  destruct (Z.eq_dec p 0) as [->|]; [by rewrite probe_0, E in Hs |]. apply (IH _ (p - 1)); [|lia |].
  - rewrite land_pow2_minus_1 by lia. apply Z.mod_pos_bound, N_pos.
  - rewrite probe_next. by replace (p - 1 + 1) with p by lia.
Qed.

(** [k]: the page of each slot, 0 for a free one. *)
Definition member (k : Z -> Z) (x : Z) : Prop := exists i, 0 <= i < (2 ^ b) /\ k i = x.

(** Every page is where probing from its hash first meets it, past slots in use; [n]
    slots are in use and one is free. *)
Record oa_ok (k : Z -> Z) (n : Z) : Prop := {
  oa_placed : forall i, 0 <= i < (2 ^ b) -> k i <> 0 -> exists p, 0 <= p < (2 ^ b) /\ i = probe_at (hash b (k i)) p /\
    forall q, 0 <= q < p -> k (probe_at (hash b (k i)) q) <> 0 /\ k (probe_at (hash b (k i)) q) <> k i;
  oa_count : tally (fun i => negb (k i =? 0)) 0 (Z.to_nat (2 ^ b)) = n;
  oa_room : n < (2 ^ b) }.

Lemma oa_free k n : oa_ok k n -> exists i, 0 <= i < (2 ^ b) /\ k i = 0.
Proof.
  intros [_ Hc Hr]. pose proof N_pos. destruct (scan (fun i => k i =? 0) 0 (Z.to_nat (2 ^ b))) as [i|] eqn:E.
  - apply scan_Some in E as (E1 & E2%Z.eqb_eq & _). exists i. split; [lia | done].
  - exfalso. rewrite <- Hc in Hr. rewrite (tally_compl (fun i => k i =? 0)) in Hr. rewrite (proj2 (tally_zero (fun i => k i =? 0) 0 (Z.to_nat (2 ^ b)))) in Hr; [lia |].
    intros i Hi. by apply (proj1 (scan_None _ _ _) E).
Qed.

Lemma oa_lookup k n x : oa_ok k n -> x <> 0 ->
  exists j, find_slot b (fun h => (k h =? x) || (k h =? 0)) (Z.to_nat (2 ^ b)) (hash b x) = Some j /\ 0 <= j < (2 ^ b) /\
    (k j = x \/ (k j = 0 /\ ~ member k x)) /\
    exists p, 0 <= p < (2 ^ b) /\ j = probe_at (hash b x) p /\ forall q, 0 <= q < p -> k (probe_at (hash b x) q) <> 0 /\ k (probe_at (hash b x) q) <> x.
Proof.
  intros Hk Hx. destruct (oa_free k n Hk) as (e & He & Hz). pose proof N_pos. pose proof (hash_range x).
  destruct (find_slot_ex (fun h => (k h =? x) || (k h =? 0)) (Z.to_nat (2 ^ b)) (hash b x) ((e - hash b x) mod (2 ^ b))) as [j Hj]; [done | | |].
  - pose proof (Z.mod_pos_bound (e - hash b x) (2 ^ b)). lia.
  - replace (probe_at (hash b x) ((e - hash b x) mod (2 ^ b))) with e; [by rewrite Hz, orb_true_r |].
    unfold probe_at. rewrite Zplus_mod_idemp_r. replace (hash b x + (e - hash b x)) with e by lia. by rewrite Z.mod_small.
  - exists j. split; [done |]. apply find_slot_Some in Hj as (Hs & p & Hp & -> & Hq); [|done]. split; [apply probe_at_range |].
    assert (forall q, 0 <= q < p -> k (probe_at (hash b x) q) <> 0 /\ k (probe_at (hash b x) q) <> x) as Hq'.
    { intros q Hl. specialize (Hq q Hl). nv_bool. done. }
    split; [|exists p; split_and!; [lia | lia | done | done]]. apply orb_true_iff in Hs as [Hs|Hs]; apply Z.eqb_eq in Hs; [by left | right].
    split; [done |]. intros (i & Hi & <-). destruct (oa_placed k n Hk i Hi Hx) as (p' & Hp' & Ei & Hb').
    destruct (Z.lt_trichotomy p p') as [Hl|[Hl|Hl]].
    + by destruct (Hb' p ltac:(lia)).
    + subst p'. by rewrite <- Ei in Hs.
    + destruct (Hq' p' ltac:(lia)) as [_ Hn]. by rewrite <- Ei in Hn.
Qed.

Lemma oa_insert k n x j k' :
  oa_ok k n -> x <> 0 -> n + 1 < (2 ^ b) -> find_slot b (fun h => (k h =? x) || (k h =? 0)) (Z.to_nat (2 ^ b)) (hash b x) = Some j -> k j = 0 ->
  k' j = x -> (forall i, i <> j -> k' i = k i) -> oa_ok k' (n + 1) /\ forall y, y <> 0 -> member k' y <-> member k y \/ y = x.
Proof.
  intros Hk Hx Hn Hf Hz Hj Ho. destruct (oa_lookup k n x Hk Hx) as (j' & Hf' & Hr & Hm & p & Hp & Hs & Hq). rewrite Hf in Hf'. injection Hf' as <-.
  destruct Hm as [Hm|[_ Hm]]; [congruence |]. split.
  - split; [|rewrite <- (oa_count k n Hk) | done].
    + intros i Hi Hki. destruct (Z.eq_dec i j) as [->|Hne].
      * rewrite Hj. exists p. split_and!; [lia | lia | done |]. intros q Hl. rewrite Ho; [by apply Hq |]. intros E. destruct (Hq q Hl) as [H0 _]. by rewrite E in H0.
      * rewrite Ho in Hki |- * by done. destruct (oa_placed k n Hk i Hi Hki) as (p' & Hp' & Ei & Hb'). exists p'. split_and!; [lia | lia | done |].
        intros q Hl. rewrite Ho; [by apply Hb' |]. intros E. destruct (Hb' q Hl) as [H0 _]. by rewrite E in H0.
    + rewrite (tally_update (fun i => negb (k i =? 0)) (fun i => negb (k' i =? 0)) 0 _ j); [|lia |].
      * rewrite Hj, Hz. rewrite (proj2 (Z.eqb_neq x 0) Hx). cbn. lia.
      * intros i Hi Hne. by rewrite Ho.
  - intros y Hy. split.
    + intros (i & Hi & <-). destruct (Z.eq_dec i j) as [->|Hne]; [by right |]. left. exists i. rewrite Ho in * by done. done.
    + intros [(i & Hi & <-)| ->]; [|exists j; done]. exists i. split; [done |]. apply Ho. intros ->. done.
Qed.
End probing.
(** ** The set of swept pages *)

Definition NVKVM_GR_PT_SLOTS : Z := 8192.

Record gr_track := Gr { m2_gr_pt_set : gmap Z Z; m2_gr_pt_n : Z; m2_gr_pt_last : Z; m2_gr_pt_lo : Z; m2_gr_pt_hi : Z; m2_gr_vas_dirty : bool }.

Definition gr_find (g : gr_track) (base : Z) : option Z :=
  find_slot 13 (fun h => ((m2_gr_pt_set g).[h] =? base) || ((m2_gr_pt_set g).[h] =? 0)) (Z.to_nat NVKVM_GR_PT_SLOTS) (hash 13 base).

Definition nvkvm_m2_gr_pt_record (addr : Z) (g : gr_track) : gr_track :=
  let base := page_base addr in
  if (base =? 0) || (base =? m2_gr_pt_last g) then g
  else
    let g := Gr (m2_gr_pt_set g) (m2_gr_pt_n g) base (m2_gr_pt_lo g) (m2_gr_pt_hi g) (m2_gr_vas_dirty g) in
    if NVKVM_GR_PT_SLOTS * 3 / 4 <=? m2_gr_pt_n g then g
    else
      match gr_find g base with
      | Some h =>
          if (m2_gr_pt_set g).[h] =? base then g
          else Gr (m2_gr_pt_set g).[h <- base] (m2_gr_pt_n g + 1) base
                 (if base <? m2_gr_pt_lo g then base else m2_gr_pt_lo g) (if m2_gr_pt_hi g <? base then base else m2_gr_pt_hi g) (m2_gr_vas_dirty g)
      | None => g
      end.

Definition nvkvm_m2_gr_pt_contains (g : gr_track) (addr : Z) : bool :=
  match gr_find g (page_base addr) with
  | Some h => (m2_gr_pt_set g).[h] =? page_base addr
  | None => false
  end.

Definition nvkvm_m2_gr_pt_reset (g : gr_track) : gr_track :=
  Gr (if negb (m2_gr_pt_n g =? 0) then ∅ else m2_gr_pt_set g) 0 0 (2 ^ 64 - 1) 0 (m2_gr_vas_dirty g).

(** A write to video memory. *)
Definition gr_arm (addr : Z) (g : gr_track) : gr_track :=
  if negb (m2_gr_pt_n g =? 0) && negb (m2_gr_vas_dirty g) && (m2_gr_pt_lo g <=? addr) && (addr <=? u64 (m2_gr_pt_hi g + 0xfff)) && nvkvm_m2_gr_pt_contains g addr
  then Gr (m2_gr_pt_set g) (m2_gr_pt_n g) (m2_gr_pt_last g) (m2_gr_pt_lo g) (m2_gr_pt_hi g) true
  else g.

Definition tracked (g : gr_track) (x : Z) : Prop := member 13 (fun i => (m2_gr_pt_set g).[i]) x.

Record gr_ok (g : gr_track) : Prop := {
  gr_oa : oa_ok 13 (fun i => (m2_gr_pt_set g).[i]) (m2_gr_pt_n g);
  gr_cap : 0 <= m2_gr_pt_n g <= 6144;
  gr_lo : 4096 <= m2_gr_pt_lo g;
  gr_hi : m2_gr_pt_hi g <= 2 ^ 64 - 4096;
  gr_bounds : forall x, x <> 0 -> tracked g x -> m2_gr_pt_lo g <= x <= m2_gr_pt_hi g;
  gr_last : m2_gr_pt_last g = 0 \/ tracked g (m2_gr_pt_last g) \/ m2_gr_pt_n g = 6144 }.

Lemma page_base_spec a : 0 <= a < 2 ^ 64 -> page_base a = a - a mod 4096.
Proof. apply mask_down_4096. Qed.

Lemma page_base_range a : 0 <= a < 2 ^ 64 -> 0 <= page_base a <= 2 ^ 64 - 4096 /\ page_base a mod 4096 = 0.
Proof.
  intros Ha. rewrite page_base_spec by done. pose proof (Z.div_mod a 4096 ltac:(lia)). pose proof (Z.mod_pos_bound a 4096 ltac:(lia)).
  assert (0 <= a / 4096 < 2 ^ 52) by (split; [apply Z.div_pos; lia | apply Z.div_lt_upper_bound; lia]).
  replace (a - a mod 4096) with (a / 4096 * 4096) by lia. split; [lia | apply Z.mod_mul; lia].
Qed.

Lemma oa_empty b : 0 < b -> oa_ok b (fun i => (∅ : gmap Z Z).[i]) 0.
Proof.
  intros Hb. split; [intros i _ H; by rewrite aget_empty in H | | by apply N_pos]. apply tally_zero. intros i _. by rewrite aget_empty.
Qed.

(** A table with nothing in use is empty. *)
Lemma oa_none b k x : 0 < b -> oa_ok b k 0 -> x <> 0 -> ~ member b k x.
Proof.
  intros Hb [_ Hc _] Hx (i & Hi & <-). pose proof (N_pos b Hb). pose proof (proj1 (tally_zero _ _ _) Hc i ltac:(lia)) as Ht. cbn in Ht. nv_bool. done.
Qed.

Lemma gr_reset_ok g : oa_ok 13 (fun i => (m2_gr_pt_set g).[i]) (m2_gr_pt_n g) ->
  gr_ok (nvkvm_m2_gr_pt_reset g) /\ m2_gr_pt_n (nvkvm_m2_gr_pt_reset g) = 0 /\ forall x, x <> 0 -> ~ tracked (nvkvm_m2_gr_pt_reset g) x.
Proof.
  intros Hg. assert (oa_ok 13 (fun i => (m2_gr_pt_set (nvkvm_m2_gr_pt_reset g)).[i]) 0) as He.
  { unfold nvkvm_m2_gr_pt_reset. cbn [m2_gr_pt_set]. destruct (Z.eqb_spec (m2_gr_pt_n g) 0) as [E|]; cbn [negb]; [by rewrite E in Hg | by apply oa_empty]. }
  assert (forall x, x <> 0 -> ~ tracked (nvkvm_m2_gr_pt_reset g) x) as Hn by (intros x Hx; by apply (oa_none 13)).
  split; [|done]. split; [done | cbn; lia | cbn; lia | cbn; lia | intros x Hx Ht; by destruct (Hn x Hx) | by left].
Qed.

Lemma gr_ok_last g l d : gr_ok g -> l = 0 \/ tracked g l \/ m2_gr_pt_n g = 6144 ->
  gr_ok (Gr (m2_gr_pt_set g) (m2_gr_pt_n g) l (m2_gr_pt_lo g) (m2_gr_pt_hi g) d).
Proof. intros [Ho Hc Hl Hh Hbd _] Hla. by constructor. Qed.

(** Recording a page keeps the set and adds the page while there is room. *)
Lemma gr_record_ok a g : 0 <= a < 2 ^ 64 -> gr_ok g ->
  let g' := nvkvm_m2_gr_pt_record a g in
  gr_ok g' /\ m2_gr_pt_n g <= m2_gr_pt_n g' /\ m2_gr_vas_dirty g' = m2_gr_vas_dirty g /\
  (forall x, x <> 0 -> tracked g x -> tracked g' x) /\ (forall x, x <> 0 -> tracked g' x -> tracked g x \/ x = page_base a) /\
  (m2_gr_pt_n g' < 6144 -> page_base a <> 0 -> tracked g' (page_base a)).
Proof.
  intros Ha Hg. destruct (page_base_range a Ha) as [Hr Hm]. unfold nvkvm_m2_gr_pt_record. set (base := page_base a) in *. cbn zeta.
  destruct ((base =? 0) || (base =? m2_gr_pt_last g)) eqn:E1.
  { split_and!; [done | lia | done | auto | auto |]. intros Hn Hz. apply orb_true_iff in E1 as [E|E]; apply Z.eqb_eq in E; [done |].
    destruct (gr_last g Hg) as [H|[H|H]]; [congruence | by rewrite E | lia]. }
  nv_bool. cbn [m2_gr_pt_n m2_gr_pt_set m2_gr_pt_lo m2_gr_pt_hi m2_gr_vas_dirty]. change (NVKVM_GR_PT_SLOTS * 3 / 4) with 6144. pose proof Hg as [Ho Hc Hl Hh Hbd Hla].
  destruct (Z.leb_spec 6144 (m2_gr_pt_n g)) as [Hf|Hf].
  { split_and!; [apply gr_ok_last; [done | right; right; lia] | cbn; lia | done | auto | auto | cbn; lia]. }
  destruct (oa_lookup 13 ltac:(lia) _ _ base Ho H) as (j & Hj & Hjr & Hk & _). unfold gr_find. cbn [m2_gr_pt_set].
  change (Z.to_nat NVKVM_GR_PT_SLOTS) with (Z.to_nat (2 ^ 13)). rewrite Hj. destruct (Z.eqb_spec ((m2_gr_pt_set g).[j]) base) as [E|E].
  { assert (tracked g base) by (by exists j). split_and!; [apply gr_ok_last; auto | cbn; lia | done | auto | auto | done]. }
  destruct Hk as [Hk|[Hk Hn]]; [done |].
  destruct (oa_insert 13 ltac:(lia) _ _ base j (fun i => ((m2_gr_pt_set g).[j <- base]).[i]) Ho H) as [Ho' Hm']; [lia | done | done | apply aget_set_eq | |].
  { intros i Hi. by apply aget_set_ne. }
  assert (tracked (Gr (m2_gr_pt_set g).[j <- base] (m2_gr_pt_n g + 1) base (if base <? m2_gr_pt_lo g then base else m2_gr_pt_lo g) (if m2_gr_pt_hi g <? base then base else m2_gr_pt_hi g) (m2_gr_vas_dirty g)) base) as Ht by (apply Hm'; auto).
  split_and!; [|cbn; lia | done | | | done].
  - split; cbn [m2_gr_pt_set m2_gr_pt_n m2_gr_pt_lo m2_gr_pt_hi m2_gr_pt_last]; [done | lia | | | |by right; left].
    + destruct (Z.ltb_spec base (m2_gr_pt_lo g)); [|done]. pose proof (Z.div_mod base 4096 ltac:(lia)). nia.
    + destruct (m2_gr_pt_hi g <? base); lia.
    + intros x Hx [Hx'|Hx']%(Hm' x Hx); [specialize (Hbd x Hx Hx')|]; destruct (Z.ltb_spec base (m2_gr_pt_lo g)), (Z.ltb_spec (m2_gr_pt_hi g) base); lia.
  - intros x Hx Hx'. apply Hm'; auto.
  - intros x Hx Hx'. by apply Hm' in Hx'.
Qed.

Lemma gr_arm_spec a g : 0 <= a < 2 ^ 64 -> gr_ok g -> m2_gr_vas_dirty g = false ->
  m2_gr_vas_dirty (gr_arm a g) = true <-> page_base a <> 0 /\ tracked g (page_base a).
Proof.
  intros Ha Hg Hd. destruct (page_base_range a Ha) as [Hr Hm]. rewrite page_base_spec in Hr, Hm |- * by done. pose proof (Z.mod_pos_bound a 4096 ltac:(lia)).
  assert (u64 (m2_gr_pt_hi g + 0xfff) = m2_gr_pt_hi g + 0xfff \/ m2_gr_pt_hi g + 0xfff < 0) as Hu.
  { pose proof (gr_hi g Hg). destruct (decide (m2_gr_pt_hi g + 0xfff < 0)); [by right | left; apply u64_small; lia]. }
  unfold gr_arm. rewrite Hd, andb_true_r. unfold nvkvm_m2_gr_pt_contains, gr_find. rewrite page_base_spec by done. set (base := a - a mod 4096) in *.
  change (Z.to_nat NVKVM_GR_PT_SLOTS) with (Z.to_nat (2 ^ 13)). split.
  - destruct (negb _ && _ && _ && _) eqn:E; [|by rewrite Hd]. intros _. nv_bool.
    assert (base <> 0) as Hz by (pose proof (gr_lo g Hg); pose proof (Z.div_mod a 4096 ltac:(lia)); nia).
    split; [done |]. destruct (oa_lookup 13 ltac:(lia) _ _ base (gr_oa g Hg) Hz) as (j & Hj & Hjr & _). rewrite Hj in *. nv_bool. by exists j.
  - intros [Hz Ht]. destruct (gr_bounds g Hg base Hz Ht). destruct (oa_lookup 13 ltac:(lia) _ _ base (gr_oa g Hg) Hz) as (j & Hj & _ & [Hk|[_ Hn]] & _); [|done].
    rewrite Hj. rewrite Hk, Z.eqb_refl. rewrite (proj2 (Z.leb_le (m2_gr_pt_lo g) a)), (proj2 (Z.leb_le a (u64 (m2_gr_pt_hi g + 0xfff)))) by lia.
    assert (m2_gr_pt_n g <> 0) as Hn. { intros E. pose proof (gr_oa g Hg) as Ho. rewrite E in Ho. by apply (oa_none 13 _ base ltac:(lia)) in Ho. }
    by rewrite (proj2 (Z.eqb_neq _ _) Hn).
Qed.

(** ** What a walk reads *)

Section reads.
Context (rd : bool -> Z -> Z).

Definition foot_pd0 (lo hi va : Z) : list (bool * Z) :=
  if bit0 lo then []
  else
    let through t idx := if fst t =? 0 then [] else [(snd t, u64 (fst t + idx * 8))] in
    match small_table hi, big_table lo with
    | Some t, _ => through t (field va 12 9)
    | None, Some t => through t (field va 16 5)
    | None, None => []
    end.

(** The entries a walk looks at. *)
Fixpoint footprint (depth : nat) (tbl : Z) (tsys : bool) (va : Z) : list (bool * Z) :=
  if tbl =? 0 then []
  else
    match depth with
    | O =>
        let e := tbl + field va 21 8 * 16 in
        (tsys, u64 e) :: (tsys, u64 (e + 8)) :: foot_pd0 (rd tsys (u64 e)) (rd tsys (u64 (e + 8))) va
    | S d =>
        let e := u64 (tbl + field va (dir_lo d) (dir_bits d) * 8) in
        let pde := rd tsys e in
        (tsys, e) :: if bit0 pde && (d =? 0)%nat then [] else match pde_next pde with Some (nt, ns) => footprint d nt ns va | None => [] end
    end.
End reads.

Lemma walk_pd0_frame rd rd' lo hi va : (forall s a, (s, a) ∈ foot_pd0 lo hi va -> rd' s a = rd s a) -> walk_pd0 rd' lo hi va = walk_pd0 rd lo hi va.
Proof.
  unfold walk_pd0, foot_pd0. intros H. destruct (bit0 lo); [done |].
  destruct (small_table hi) as [[t s]|]; [|destruct (big_table lo) as [[t s]|]; [|done]]; cbn [fst snd] in *; (destruct (t =? 0); [done |]); by rewrite H by (by left).
Qed.

(** A walk depends on these entries only. *)
Lemma walk_frame rd rd' depth : forall tbl tsys va, (forall s a, (s, a) ∈ footprint rd depth tbl tsys va -> rd' s a = rd s a) ->
  walk rd' depth tbl tsys va = walk rd depth tbl tsys va.
Proof.
  induction depth as [|d IH]; intros tbl tsys va; cbn [footprint walk]; (destruct (tbl =? 0); [done |]); intros H.
  - rewrite !H by (set_solver). apply walk_pd0_frame. intros s a Ha. apply H. by right; right.
  - rewrite H by (by left). destruct (bit0 _ && _); [done |]. destruct (pde_next _) as [[nt ns]|]; [|done]. apply IH. intros s a Ha. apply H. by right.
Qed.

Lemma u64_aligned x : x mod 8 = 0 -> u64 x mod 8 = 0.
Proof. intros H. unfold u64. rewrite Z.mod_mod_divide; [done |]. exists (2 ^ 61). done. Qed.

Lemma shiftl_aligned x n : 3 <= n -> Z.shiftl x n mod 8 = 0.
Proof. intros Hn. rewrite Z.shiftl_mul_pow2 by lia. replace n with (n - 3 + 3) by lia. rewrite Z.pow_add_r by lia. apply Z.mod_divide; [lia |]. exists (x * 2 ^ (n - 3)). lia. Qed.

Lemma entry_aligned t k i : t mod 8 = 0 -> u64 (t + i * (8 * k)) mod 8 = 0.
Proof. intros Ht. apply u64_aligned. rewrite Z.add_mod, Ht by lia. replace (i * (8 * k)) with (i * k * 8) by lia. by rewrite Z.mod_mul. Qed.

Lemma pde_next_aligned e nt ns : pde_next e = Some (nt, ns) -> nt mod 8 = 0.
Proof. unfold pde_next, NVKVM_VER2_ADDR_VID, addr_sys. intros H. nv_cases; by apply shiftl_aligned. Qed.

Lemma foot_pd0_aligned lo hi va s a : (s, a) ∈ foot_pd0 lo hi va -> 0 <= a < 2 ^ 64 /\ a mod 8 = 0.
Proof.
  unfold foot_pd0. destruct (bit0 lo); [by intros ?%elem_of_nil |].
  assert (forall t, fst t mod 8 = 0 -> forall i, (s, a) ∈ (if fst t =? 0 then [] else [(snd t : bool, u64 (fst t + i * 8))]) -> 0 <= a < 2 ^ 64 /\ a mod 8 = 0) as Ht.
  { intros [t ts] Ht i. cbn [fst snd] in *. destruct (t =? 0); [by intros ?%elem_of_nil |]. intros [= -> ->]%list_elem_of_singleton. split; [apply u64_range | by apply (entry_aligned t 1)]. }
  destruct (small_table hi) as [t|] eqn:Es; [|destruct (big_table lo) as [t|] eqn:Eb; [|by intros ?%elem_of_nil]]; apply Ht.
  - unfold small_table, NVKVM_VER2_ADDR_VID, addr_sys in Es. nv_cases; by apply shiftl_aligned.
  - unfold big_table in Eb. nv_cases; by apply shiftl_aligned.
Qed.

Lemma footprint_aligned rd depth : forall tbl tsys va s a, tbl mod 8 = 0 -> (s, a) ∈ footprint rd depth tbl tsys va -> 0 <= a < 2 ^ 64 /\ a mod 8 = 0.
Proof.
  induction depth as [|d IH]; intros tbl tsys va s a Ht; cbn [footprint]; (destruct (tbl =? 0); [by intros ?%elem_of_nil |]).
  - intros [[= -> ->]|[[= -> ->]|H]%elem_of_cons]%elem_of_cons; [| |by eapply foot_pd0_aligned].
    + split; [apply u64_range | by apply (entry_aligned tbl 2)].
    + split; [apply u64_range |]. replace (tbl + field va 21 8 * 16 + 8) with (tbl + (field va 21 8 * 2 + 1) * (8 * 1)) by lia. by apply entry_aligned.
  - intros [[= -> ->]|H]%elem_of_cons; [split; [apply u64_range | by apply (entry_aligned tbl 1)] |].
    destruct (bit0 _ && _); [by apply elem_of_nil in H |]. destruct (pde_next _) as [[nt ns]|] eqn:E; [|by apply elem_of_nil in H].
    by eapply IH; [eapply pde_next_aligned |].
Qed.

(** ** What an enumeration reads *)

Definition tadd (va pg : Z) (sys : bool) (pgsz : Z) (l : list note) : list note := l.
Definition tjot (e : note) (l : list note) : list note := l ++ [e].

Lemma tjot_last e l : e ∈ tjot e l.
Proof. unfold tjot. set_solver. Qed.

Lemma tjot_in e x l : x ∈ l -> x ∈ tjot e l.
Proof. unfold tjot. set_solver. Qed.

Section trace.
Context (rd : bool -> Z -> Z).
Local Abbreviation ttable := (enum_table rd tadd tjot).
Local Abbreviation tenum := (nvkvm_m2_pt_enum rd tadd tjot).

Lemma tadd_pte pte va sz l : nvkvm_m2_pt_enum_pte tadd pte va sz l = l.
Proof. unfold nvkvm_m2_pt_enum_pte, tadd. destruct (bit0 pte); [|done]. by destruct (pte_page pte) as [[pg sys]|]. Qed.

Lemma ttable_grows lv t n pdva shift : grows (ttable lv t n pdva shift).
Proof.
  intros st. unfold enum_table. destruct t as [[tbl sys]|]; [|apply grows_id]. destruct (tbl =? 0); [apply grows_id |].
  match goal with |- context [for_budget ?b n 0 ?s0] => destruct (for_grows b n) with (i := 0) (st := s0) as [H1 H2] end.
  - intros i s. cbn [fst snd]. rewrite tadd_pte. unfold tjot. split; [lia | set_solver].
  - cbn [fst snd] in H1, H2. unfold tjot in H2. split; [lia | set_solver].
Qed.

Lemma tpd0e_grows lo hi pdva : grows (nvkvm_m2_pt_enum_pd0e rd tadd tjot lo hi pdva).
Proof.
  intros st. unfold nvkvm_m2_pt_enum_pd0e. destruct (bit0 lo); [cbn [fst snd]; rewrite tadd_pte; split; [lia | done] |].
  destruct (ttable_grows 5 (big_table lo) 32 pdva 16 (ttable 4 (small_table hi) 512 pdva 12 st)) as [H1 H2].
  destruct (ttable_grows 4 (small_table hi) 512 pdva 12 st) as [H3 H4]. split; [lia | set_solver].
Qed.

(** The loop bodies. *)
Definition pd0_body (tbl : Z) (tsys : bool) (vabase i : Z) (st : list note * Z) : list note * Z :=
  nvkvm_m2_pt_enum_pd0e rd tadd tjot (rd tsys (u64 (tbl + i * 16))) (rd tsys (u64 (u64 (tbl + i * 16) + 8))) (Z.lor vabase (Z.shiftl i 21))
    (tjot (Touch tsys (u64 (u64 (tbl + i * 16) + 8))) (tjot (Touch tsys (u64 (tbl + i * 16))) (fst st)), snd st - 1).
Definition dir_body (d : nat) (tbl : Z) (tsys : bool) (vabase i : Z) (st : list note * Z) : list note * Z :=
  let e := u64 (tbl + i * 8) in
  let st := (tjot (Touch tsys e) (fst st), snd st) in
  if (d =? 0)%nat && bit0 (rd tsys e) then st
  else match pde_next (rd tsys e) with Some (nt, ns) => tenum d nt ns (Z.lor vabase (Z.shiftl i (dir_lo d))) st | None => st end.

Lemma tjot_grows (l l' : list note) e n n' : n' <= n -> l ++ [e] ⊆ l' -> n' <= n /\ l ⊆ l'.
Proof. intros H1 H2. split; [done |]. set_solver. Qed.

Lemma pd0_body_grows tbl tsys vabase i : grows (pd0_body tbl tsys vabase i).
Proof.
  intros st. unfold pd0_body. set (a := u64 (tbl + i * 16)).
  destruct (tpd0e_grows (rd tsys a) (rd tsys (u64 (a + 8))) (Z.lor vabase (Z.shiftl i 21)) (tjot (Touch tsys (u64 (a + 8))) (tjot (Touch tsys a) (fst st)), snd st - 1)) as [H1 H2].
  cbn [fst snd] in H1, H2. unfold tjot in H2 at 1 2. split; [lia | set_solver].
Qed.

Lemma tenum_grows depth : forall tbl tsys vabase, grows (tenum depth tbl tsys vabase).
Proof.
  induction depth as [|d IH]; intros tbl tsys vabase st; cbn [nvkvm_m2_pt_enum]; (destruct ((snd st <=? 0) || (tbl =? 0)); [apply grows_id |]).
  - destruct (for_grows (pd0_body tbl tsys vabase) 256 (pd0_body_grows tbl tsys vabase) 0 (tjot (Visit tsys (3 - Z.of_nat 0) tbl vabase) (fst st), snd st)) as [H1 H2].
    by eapply tjot_grows.
  - destruct (for_grows (dir_body d tbl tsys vabase) (dir_entries d)) with (i := 0) (st := (tjot (Visit tsys (3 - Z.of_nat (S d)) tbl vabase) (fst st), snd st)) as [H1 H2].
    + intros i s. unfold dir_body. destruct ((d =? 0)%nat && bit0 _); [apply (tjot_grows _ _ (Touch tsys (u64 (tbl + i * 8)))); [cbn; lia | done] |].
      destruct (pde_next _) as [[nt ns]|]; [|apply (tjot_grows _ _ (Touch tsys (u64 (tbl + i * 8)))); [cbn; lia | done]].
      destruct (IH nt ns (Z.lor vabase (Z.shiftl i (dir_lo d))) (tjot (Touch tsys (u64 (tbl + i * 8))) (fst s), snd s)) as [H1 H2]. by eapply tjot_grows.
    + by eapply tjot_grows.
Qed.

Lemma ttable_touches lv tbl sys n pdva shift j st :
  tbl <> 0 -> 0 <= j < Z.of_nat n -> 0 < snd (ttable lv (Some (tbl, sys)) n pdva shift st) -> Touch sys (u64 (tbl + j * 8)) ∈ fst (ttable lv (Some (tbl, sys)) n pdva shift st).
Proof.
  intros Ht Hj. unfold enum_table. rewrite (proj2 (Z.eqb_neq tbl 0) Ht). intros Hb.
  match goal with |- context [for_budget ?b n 0 ?s0] => destruct (for_complete b n (fun x => x = Touch sys (u64 (tbl + j * 8))) 0 j) with (st := s0) as (x & Hx & ->) end; [| | lia | done | done].
  - intros i s. cbn [fst snd]. rewrite tadd_pte. unfold tjot. split; [lia | set_solver].
  - intros s _. cbn [fst]. rewrite tadd_pte. eexists. split; [|done]. unfold tjot. set_solver.
Qed.

Lemma tpd0e_touches lo hi pdva va s a st :
  (s, a) ∈ foot_pd0 lo hi va -> 0 < snd (nvkvm_m2_pt_enum_pd0e rd tadd tjot lo hi pdva st) -> Touch s a ∈ fst (nvkvm_m2_pt_enum_pd0e rd tadd tjot lo hi pdva st).
Proof.
  unfold foot_pd0, nvkvm_m2_pt_enum_pd0e. destruct (bit0 lo); [by intros ?%elem_of_nil |].
  assert (forall lo w, 0 <= lo -> 0 <= w -> 0 <= field va lo w < 2 ^ w) as Hf.
  { intros l w Hl Hw. rewrite field_div by done. apply Z.mod_pos_bound, Z.pow_pos_nonneg; lia. }
  destruct (small_table hi) as [[t ts]|] eqn:Es; [|destruct (big_table lo) as [[t ts]|] eqn:Eb; [|by intros ?%elem_of_nil]]; cbn [fst snd];
    (destruct (Z.eqb_spec t 0); [by intros ?%elem_of_nil |]); intros [= -> ->]%list_elem_of_singleton Hb.
  - destruct (ttable_grows 5 (big_table lo) 32 pdva 16 (ttable 4 (Some (t, ts)) 512 pdva 12 st)) as [G1 G2]. apply G2.
    pose proof (Hf 12 9 ltac:(lia) ltac:(lia)). apply ttable_touches; [done | lia | lia].
  - pose proof (Hf 16 5 ltac:(lia) ltac:(lia)). apply ttable_touches; [done | lia | done].
Qed.

(** A whole enumeration reads every entry a walk of its range reads. *)
Lemma tenum_touches depth :
  (depth <= 3)%nat -> forall tbl tsys vabase st va s a, vabase mod 2 ^ align depth = 0 -> vabase <= va < vabase + 2 ^ span depth ->
  (s, a) ∈ footprint rd depth tbl tsys va -> 0 < snd (tenum depth tbl tsys vabase st) -> Touch s a ∈ fst (tenum depth tbl tsys vabase st).
Proof.
  induction depth as [|d IH]; intros Hd tbl tsys vabase st va s a Ha Hv; cbn [nvkvm_m2_pt_enum footprint];
    (destruct (tbl =? 0); [by intros ?%elem_of_nil |]); rewrite orb_false_r; intros Hin; (destruct (Z.leb_spec (snd st) 0); [lia |]); intros Hb.
  - change (align 0) with (21 + 8) in Ha. destruct (part_of vabase va 21 8 ltac:(lia) ltac:(lia) Ha Hv) as [P1 P2].
    destruct (for_complete (pd0_body tbl tsys vabase) 256 (fun x => x = Touch s a) 0 (field va 21 8)) with (st := (tjot (Visit tsys (3 - Z.of_nat 0) tbl vabase) (fst st), snd st)) as (x & Hx & ->);
      [apply pd0_body_grows | | lia | done | done].
    intros s0 Hs. eexists. split; [|done]. unfold pd0_body in *. rewrite u64_next in *. set (e := tbl + field va 21 8 * 16) in *.
    apply elem_of_cons in Hin as [[= -> ->]|[[= -> ->]|Hin]%elem_of_cons]; [| |by eapply tpd0e_touches].
    all: destruct (tpd0e_grows (rd tsys (u64 e)) (rd tsys (u64 (e + 8))) (Z.lor vabase (Z.shiftl (field va 21 8) 21)) (tjot (Touch tsys (u64 (e + 8))) (tjot (Touch tsys (u64 e)) (fst s0)), snd s0 - 1)) as [_ H2].
    all: apply H2; cbn [fst]; auto using tjot_last, tjot_in.
  - destruct (dir_geometry d ltac:(lia)) as (G1 & G2 & G3 & G4 & G5 & G6 & G7). rewrite G1 in Ha.
    assert (2 ^ span (S d) <= 2 ^ (dir_lo d + dir_bits d)) as Hle by (rewrite Z.pow_add_r by done; nia).
    destruct (part_of vabase va (dir_lo d) (dir_bits d) G4 G5 Ha ltac:(lia)) as [P1 P2]. pose proof (Z.pow_pos_nonneg 2 (dir_lo d) ltac:(lia) G4).
    destruct (for_complete (dir_body d tbl tsys vabase) (dir_entries d) (fun x => x = Touch s a) 0 (field va (dir_lo d) (dir_bits d))) with (st := (tjot (Visit tsys (3 - Z.of_nat (S d)) tbl vabase) (fst st), snd st)) as (x & Hx & ->);
      [| | nia | done | done].
    + intros i s0. unfold dir_body. destruct ((d =? 0)%nat && bit0 _); [apply (tjot_grows _ _ (Touch tsys (u64 (tbl + i * 8)))); [cbn; lia | done] |].
      destruct (pde_next (rd tsys (u64 (tbl + i * 8)))) as [[nt ns]|]; [|apply (tjot_grows _ _ (Touch tsys (u64 (tbl + i * 8)))); [cbn; lia | done]].
      destruct (tenum_grows d nt ns (Z.lor vabase (Z.shiftl i (dir_lo d))) (tjot (Touch tsys (u64 (tbl + i * 8))) (fst s0), snd s0)) as [H1 H2]. by eapply tjot_grows.
    + intros s0 Hs. eexists. split; [|done]. unfold dir_body in *. set (e := u64 (tbl + field va (dir_lo d) (dir_bits d) * 8)) in *. rewrite (andb_comm (d =? 0)%nat) in *.
      apply elem_of_cons in Hin as [[= -> ->]|Hin].
      * destruct (bit0 _ && _); [apply tjot_last |]. destruct (pde_next (rd tsys e)) as [[nt ns]|]; [|apply tjot_last].
        destruct (tenum_grows d nt ns (Z.lor vabase (Z.shiftl (field va (dir_lo d) (dir_bits d)) (dir_lo d))) (tjot (Touch tsys e) (fst s0), snd s0)) as [_ H2].
        apply H2, tjot_last.
      * destruct (bit0 _ && _); [by apply elem_of_nil in Hin |]. destruct (pde_next (rd tsys e)) as [[nt ns]|]; [|by apply elem_of_nil in Hin].
        rewrite (part_at vabase _ (dir_lo d) (dir_bits d)) in * by done.
        apply IH with va; [lia | rewrite G2; by apply (part_align vabase _ _ (dir_bits d)) | rewrite G3; lia | done | done].
Qed.
End trace.

(** ** Tables of compute address spaces *)

Record cpt_ent := Ent { e_page : Z; e_pdb : Z; e_vabase : Z; e_level : Z; e_dirty : bool }.
#[global] Instance Zeroed_cpt_ent : Zeroed cpt_ent := Ent 0 0 0 0 false.

Record cpt_track := Cpt { m2_cpt : gmap Z cpt_ent; m2_cpt_n : Z; m2_cpt_lo : Z; m2_cpt_hi : Z; m2_cpt_dirty : list Z }.

Definition NVKVM_M2_CPT_SLOTS : Z := 4096.

Definition cpt_slot (c : cpt_track) (base : Z) : option Z :=
  find_slot 12 (fun h => (e_page (m2_cpt c).[h] =? base) || (e_page (m2_cpt c).[h] =? 0)) (Z.to_nat NVKVM_M2_CPT_SLOTS) (hash 12 base).

(** The entry at [h] is written; its latch stays. *)
Definition cpt_put (h base pdb level vabase n : Z) (c : cpt_track) : cpt_track :=
  Cpt (m2_cpt c).[h <- Ent base pdb vabase (u8 level) (e_dirty (m2_cpt c).[h])] n
    (if base <? m2_cpt_lo c then base else m2_cpt_lo c) (if m2_cpt_hi c <? base then base else m2_cpt_hi c) (m2_cpt_dirty c).

Definition nvkvm_m2_cpt_record (pdb tbl level vabase : Z) (c : cpt_track) : cpt_track :=
  let base := page_base tbl in
  if base =? 0 then c
  else
    match cpt_slot c base with
    | Some h =>
        if e_page (m2_cpt c).[h] =? 0 then
          if NVKVM_M2_CPT_SLOTS * 3 / 4 <=? m2_cpt_n c then c else cpt_put h base pdb level vabase (m2_cpt_n c + 1) c
        else cpt_put h base pdb level vabase (m2_cpt_n c) c
    | None => cpt_put (hash 12 base) base pdb level vabase (m2_cpt_n c) c
    end.

Definition nvkvm_m2_cpt_find (c : cpt_track) (addr : Z) : option Z :=
  match cpt_slot c (page_base addr) with
  | Some h => if e_page (m2_cpt c).[h] =? 0 then None else Some h
  | None => None
  end.

Definition cpt_reset (c : cpt_track) : cpt_track :=
  Cpt (if negb (m2_cpt_n c =? 0) then ∅ else m2_cpt c) 0 (2 ^ 64 - 1) 0 [].

(** ** The sweep *)

(** The accumulator of runs and both sets of pages. *)
Record sw := Sw { sw_acc : leaf_acc; sw_gr : gr_track; sw_cpt : cpt_track }.

Definition sweep_add (va pg : Z) (sys : bool) (pgsz : Z) (st : sw) : sw := Sw (nvkvm_m2_leaf_add va pg sys pgsz (sw_acc st)) (sw_gr st) (sw_cpt st).

(** [recording]: [m2_recording_gr_pt]; a [cpt_pdb] of 0 records no tables. *)
Definition sweep_jot (recording : bool) (cpt_pdb : Z) (e : note) (st : sw) : sw :=
  match e with
  | Touch false a => if recording then Sw (sw_acc st) (nvkvm_m2_gr_pt_record a (sw_gr st)) (sw_cpt st) else st
  | Visit false level tbl vabase => if cpt_pdb =? 0 then st else Sw (sw_acc st) (sw_gr st) (nvkvm_m2_cpt_record cpt_pdb tbl level vabase (sw_cpt st))
  | _ => st
  end.

(** The sets, and the runs handed on with the client they are backed for. *)
Record pt := Pt { p_gr : gr_track; p_cpt : cpt_track; p_out : list (Z * page) }.

Section sweeps.
Context (rd : bool -> Z -> Z) (o : own).

Definition skips (client : Z) (v : chan_vas) : bool := (vas_pdb v =? 0) || (nvkvm_m2_multiproc o && nvkvm_m2_vas_foreign o v client).
Definition cpt_pdb_of (pdb : Z) : Z := if nvkvm_m2_pdb_is_compute o pdb then pdb else 0.

Definition sweep_one (recording : bool) (client pdb : Z) (st : pt * Z) : pt * Z :=
  let r := nvkvm_m2_pt_enum rd sweep_add (sweep_jot recording (cpt_pdb_of pdb)) 3 pdb false 0 (Sw acc_init (p_gr (fst st)) (p_cpt (fst st)), snd st) in
  let runs := a_out (nvkvm_m2_leaf_flush (sw_acc (fst r))) in
  (Pt (sw_gr (fst r)) (sw_cpt (fst r)) (p_out (fst st) ++ map (fun x => (client, x)) runs), snd r).

Fixpoint sweep_vas (recording : bool) (client : Z) (vs : list chan_vas) (st : pt * Z) : pt * Z :=
  match vs with
  | [] => st
  | v :: vs => if snd st <=? 0 then st else sweep_vas recording client vs (if skips client v then st else sweep_one recording client (vas_pdb v) st)
  end.

(** The state and what is left of the budget; the walk was cut short if none is. *)
Definition nvkvm_m2_enum_gr_sysmem (recording : bool) (client : Z) (p : pt) : pt * Z := sweep_vas recording client (o_vas o) (p, 300000).

(** The sweep at a doorbell, for each of the clients, with the mark of the last walk. *)
Definition resweep (clients : list Z) (p : pt) : pt * bool :=
  let g := nvkvm_m2_gr_pt_reset (Gr (m2_gr_pt_set (p_gr p)) (m2_gr_pt_n (p_gr p)) (m2_gr_pt_last (p_gr p)) (m2_gr_pt_lo (p_gr p)) (m2_gr_pt_hi (p_gr p)) false) in
  fold_left (fun st c => let r := nvkvm_m2_enum_gr_sysmem true c (fst st) in (fst r, snd r <=? 0)) clients (Pt g (cpt_reset (p_cpt p)) (p_out p), false).

(** ** The latch and the release *)

Definition nvkvm_m2_cpt_lvl (lvl : Z) : Z * nat :=
  if lvl =? 0 then (47, 512%nat) else if lvl =? 1 then (38, 512%nat) else if lvl =? 2 then (29, 512%nat)
  else if lvl =? 3 then (21, 256%nat) else if lvl =? 4 then (12, 512%nat) else (16, 32%nat).

Definition nvkvm_m2_cpt_decode_page (jot : note -> sw -> sw) (tbl vabase lvl : Z) (st : sw * Z) : sw * Z :=
  let '(shft, nent) := nvkvm_m2_cpt_lvl lvl in
  for_budget (fun i st =>
    let va := Z.lor vabase (Z.shiftl i shft) in
    if lvl =? 3 then
      let e := u64 (tbl + i * 16) in
      nvkvm_m2_pt_enum_pd0e rd sweep_add jot (rd false e) (rd false (u64 (e + 8))) va (jot (Touch false (u64 (e + 8))) (jot (Touch false e) (fst st)), snd st - 1)
    else
      let e := u64 (tbl + i * 8) in
      let st := (jot (Touch false e) (fst st), snd st - 1) in
      if 4 <=? lvl then (nvkvm_m2_pt_enum_pte sweep_add (rd false e) va (if lvl =? 4 then 0x1000 else 0x10000) (fst st), snd st)
      else if (lvl =? 2) && bit0 (rd false e) then st
      else match pde_next (rd false e) with
           | Some (nt, ns) => nvkvm_m2_pt_enum rd sweep_add jot (Z.to_nat (2 - lvl)) nt ns va st
           | None => st
           end) nent 0 st.

(** The release in progress: the sets and the accumulator, the client and the budget,
    and the runs handed on. *)
Record rel := Rel { r_sw : sw; r_client : Z; r_budget : Z; r_out : list (Z * page) }.

(** The runs so far go out under the client they were collected for. *)
Definition rel_flush (r : rel) : rel :=
  let a := nvkvm_m2_leaf_flush (sw_acc (r_sw r)) in
  Rel (Sw (Acc (a_va0 a) (a_gpa0 a) (a_len a) (a_sys a) []) (sw_gr (r_sw r)) (sw_cpt (r_sw r))) (r_client r) (r_budget r)
    (r_out r ++ map (fun x => (r_client r, x)) (a_out a)).

Definition unlatch (ci : Z) (c : cpt_track) : cpt_track :=
  let e := (m2_cpt c).[ci] in
  Cpt (m2_cpt c).[ci <- Ent (e_page e) (e_pdb e) (e_vabase e) (e_level e) false] (m2_cpt_n c) (m2_cpt_lo c) (m2_cpt_hi c) (m2_cpt_dirty c).

(** The client the pages of an address space are backed for. *)
Definition backed_for (pdb : Z) : Z :=
  let own := nvkvm_m2_pdb_gr_owner o pdb in if own =? 0 then m2_gr_client o else own.

Definition release_one (ci : Z) (r : rel) : rel :=
  let c := unlatch ci (sw_cpt (r_sw r)) in
  let r := Rel (Sw (sw_acc (r_sw r)) (sw_gr (r_sw r)) c) (r_client r) (r_budget r) (r_out r) in
  let e := (m2_cpt c).[ci] in
  if negb (nvkvm_m2_pdb_is_compute o (e_pdb e)) then r
  else
    let own := backed_for (e_pdb e) in
    let r := if own =? r_client r then r else let r := rel_flush r in Rel (r_sw r) own (r_budget r) (r_out r) in
    let d := nvkvm_m2_cpt_decode_page (sweep_jot true (e_pdb e)) (e_page e) (e_vabase e) (e_level e) (r_sw r, r_budget r) in
    Rel (fst d) (r_client r) (snd d) (r_out r).

(** The state and what is left of the budget. *)
Definition nvkvm_m2_cpt_sync_at_release (p : pt) : pt * Z :=
  match m2_cpt_dirty (p_cpt p) with
  | [] => (p, 300000)
  | dirty =>
      let r := fold_left (fun r ci => release_one ci r) dirty (Rel (Sw acc_init (p_gr p) (p_cpt p)) (m2_gr_client o) 300000 (p_out p)) in
      let c := sw_cpt (r_sw r) in
      let r := rel_flush (Rel (Sw (sw_acc (r_sw r)) (sw_gr (r_sw r)) (Cpt (m2_cpt c) (m2_cpt_n c) (m2_cpt_lo c) (m2_cpt_hi c) [])) (r_client r) (r_budget r) (r_out r)) in
      (Pt (sw_gr (r_sw r)) (sw_cpt (r_sw r)) (r_out r), r_budget r)
  end.

Definition latch (ci : Z) (c : cpt_track) : cpt_track :=
  let e := (m2_cpt c).[ci] in
  Cpt (m2_cpt c).[ci <- Ent (e_page e) (e_pdb e) (e_vabase e) (e_level e) true] (m2_cpt_n c) (m2_cpt_lo c) (m2_cpt_hi c) (m2_cpt_dirty c ++ [ci]).

(** One page of a span; the list holds what each release on the way had left of its
    budget. *)
Definition hook_page (p : Z) (st : pt * list Z) : pt * list Z :=
  match nvkvm_m2_cpt_find (p_cpt (fst st)) p with
  | Some ci =>
      let e := (m2_cpt (p_cpt (fst st))).[ci] in
      if e_dirty e || negb (nvkvm_m2_pdb_is_compute o (e_pdb e)) then st
      else
        let st := if room (m2_cpt_dirty (p_cpt (fst st))) 256 then st
                  else let r := nvkvm_m2_cpt_sync_at_release (fst st) in (fst r, snd st ++ [snd r]) in
        (Pt (p_gr (fst st)) (latch ci (p_cpt (fst st))) (p_out (fst st)), snd st)
  | None => st
  end.

(** A copy-engine write of [len] bytes to [dst], and the budgets left meanwhile. *)
Definition nvkvm_m2_ce_fb_write_hook (m2exec : bool) (dst len : Z) (p : pt) : pt * list Z :=
  let p := Pt (gr_arm dst (p_gr p)) (p_cpt p) (p_out p) in
  let c := p_cpt p in
  if negb m2exec || (m2_gr_client o =? 0) || (m2_cpt_n c =? 0) || (len =? 0) then (p, [])
  else if (u64 (m2_cpt_hi c + 0xfff) <? dst) || (u64 (dst + len) <=? m2_cpt_lo c) then (p, [])
  else
    let base := page_base dst in
    sweep (fun k st => hook_page (base + k * 0x1000) st) 0 (Z.to_nat ((u64 (dst + len) - base + 0xfff) / 0x1000)) (p, []).
End sweeps.

(** ** A sweep tracks what it read *)

Definition note_ok (e : note) : Prop := match e with Touch _ a => 0 <= a < 2 ^ 64 | Visit _ _ _ _ => True end.

Section inv.
Context {A : Type} (rd : bool -> Z -> Z) (add : Z -> Z -> bool -> Z -> A -> A) (jot : note -> A -> A) (I : A -> Prop).
Hypothesis I_add : forall va pg sys sz a, I a -> I (add va pg sys sz a).
Hypothesis I_jot : forall e a, note_ok e -> I a -> I (jot e a).

Lemma for_inv (body : Z -> A * Z -> A * Z) n : (forall i st, I (fst st) -> I (fst (body i st))) -> forall i st, I (fst st) -> I (fst (for_budget body n i st)).
Proof. intros Hb. induction n as [|m IH]; intros i st Hs; cbn [for_budget]; [done |]. destruct (snd st <=? 0); [done |]. by apply IH, Hb. Qed.

Lemma pte_inv pte va sz a : I a -> I (nvkvm_m2_pt_enum_pte add pte va sz a).
Proof. intros Ha. unfold nvkvm_m2_pt_enum_pte. destruct (bit0 pte); [|done]. destruct (pte_page pte) as [[pg sys]|]; [by apply I_add | done]. Qed.

Lemma table_inv lv t n pdva shift st : I (fst st) -> I (fst (enum_table rd add jot lv t n pdva shift st)).
Proof.
  intros Hs. unfold enum_table. destruct t as [[tbl sys]|]; [|done]. destruct (tbl =? 0); [done |]. apply for_inv; [|by apply I_jot].
  intros j s Hj. cbn [fst]. apply pte_inv, I_jot; [apply u64_range | done].
Qed.

Lemma pd0e_inv lo hi pdva st : I (fst st) -> I (fst (nvkvm_m2_pt_enum_pd0e rd add jot lo hi pdva st)).
Proof. intros Hs. unfold nvkvm_m2_pt_enum_pd0e. destruct (bit0 lo); [by apply pte_inv | by apply table_inv, table_inv]. Qed.

Lemma enum_inv depth : forall tbl tsys vabase st, I (fst st) -> I (fst (nvkvm_m2_pt_enum rd add jot depth tbl tsys vabase st)).
Proof.
  induction depth as [|d IH]; intros tbl tsys vabase st Hs; cbn [nvkvm_m2_pt_enum]; (destruct (_ || _); [done |]); (apply for_inv; [|by apply I_jot]).
  - intros i s Hi. apply pd0e_inv. cbn [fst]. apply I_jot, I_jot; [apply u64_range | apply u64_range | done].
  - intros i s Hi. assert (I (jot (Touch tsys (u64 (tbl + i * 8))) (fst s))) as Hj by (apply I_jot; [apply u64_range | done]).
    destruct ((d =? 0)%nat && _); [done |]. destruct (pde_next _) as [[nt ns]|]; [by apply IH | done].
Qed.
End inv.

Definition gjot (e : note) (g : gr_track) : gr_track := match e with Touch false a => nvkvm_m2_gr_pt_record a g | _ => g end.

Lemma gjot_fold l : forall g, Forall note_ok l -> gr_ok g ->
  let g' := fold_left (fun g e => gjot e g) l g in
  gr_ok g' /\ m2_gr_pt_n g <= m2_gr_pt_n g' /\ m2_gr_vas_dirty g' = m2_gr_vas_dirty g /\ (forall x, x <> 0 -> tracked g x -> tracked g' x) /\
  (m2_gr_pt_n g' < 6144 -> forall a, Touch false a ∈ l -> page_base a <> 0 -> tracked g' (page_base a)).
Proof.
  induction l as [|e l IH]; intros g Hl Hg; cbn [fold_left].
  { split_and!; [done | lia | done | auto |]. intros _ a Ha. by apply elem_of_nil in Ha. }
  apply Forall_cons in Hl as [He Hl].
  assert (exists g1, gjot e g = g1 /\ gr_ok g1 /\ m2_gr_pt_n g <= m2_gr_pt_n g1 /\ m2_gr_vas_dirty g1 = m2_gr_vas_dirty g /\ (forall x, x <> 0 -> tracked g x -> tracked g1 x) /\
    (m2_gr_pt_n g1 < 6144 -> forall a, e = Touch false a -> page_base a <> 0 -> tracked g1 (page_base a))) as (g1 & -> & H1 & H2 & H3 & H4 & H5).
  { eexists. split; [done |]. destruct e as [[] a|]; cbn [gjot]; try (split_and!; [done | lia | done | auto | congruence]).
    destruct (gr_record_ok a g He Hg) as (A1 & A2 & A3 & A4 & _ & A6). split_and!; [done | done | done | done |]. intros Hn a' [= <-]. auto. }
  destruct (IH g1 Hl H1) as (B1 & B2 & B3 & B4 & B5). split_and!; [done | lia | congruence | auto |].
  intros Hn a [<-|Ha]%elem_of_cons Hz; [|auto]. apply B4; [done |]. apply H5; [lia | done | done].
Qed.

Lemma pair_eq {A B} (a a' : A) (b b' : B) : (a, b) = (a', b') -> a = a' /\ b = b'.
Proof. by intros [= -> ->]. Qed.

Section swept.
Context (rd : bool -> Z -> Z) (o : own).

Definition touched (pdb budget : Z) : list note * Z := nvkvm_m2_pt_enum rd tadd tjot 3 pdb false 0 ([], budget).

Lemma sweep_runs recording k a g c pdb budget :
  let r := nvkvm_m2_pt_enum rd sweep_add (sweep_jot recording k) 3 pdb false 0 (Sw a g c, budget) in
  nvkvm_m2_pt_enum rd nvkvm_m2_leaf_add quiet 3 pdb false 0 (a, budget) = (sw_acc (fst r), snd r).
Proof.
  refine (enum_hom rd sweep_add (sweep_jot recording k) nvkvm_m2_leaf_add quiet sw_acc _ _ 3 pdb false 0 (Sw a g c, budget)); [done |].
  intros [[] x|[] x y z] st; cbn [sweep_jot]; try done; [by destruct recording | by destruct (k =? 0)].
Qed.

Lemma sweep_gr_is k a g c pdb budget :
  let r := nvkvm_m2_pt_enum rd sweep_add (sweep_jot true k) 3 pdb false 0 (Sw a g c, budget) in
  sw_gr (fst r) = fold_left (fun g e => gjot e g) (fst (touched pdb budget)) g /\ snd r = snd (touched pdb budget).
Proof.
  pose proof (enum_hom rd sweep_add (sweep_jot true k) (fun _ _ _ _ g => g) gjot sw_gr) as H1.
  specialize (H1 ltac:(done)). assert (forall e st, sw_gr (sweep_jot true k e st) = gjot e (sw_gr st)) as Hj.
  { intros [[] x|[] x y z] st; cbn [sweep_jot gjot]; try done. by destruct (k =? 0). }
  specialize (H1 Hj 3%nat pdb false 0 (Sw a g c, budget)).
  pose proof (enum_hom rd tadd tjot (fun _ _ _ _ g => g) gjot (fun l => fold_left (fun g e => gjot e g) l g)) as H2.
  specialize (H2 ltac:(done)). assert (forall e l, fold_left (fun g e => gjot e g) (tjot e l) g = gjot e (fold_left (fun g e => gjot e g) l g)) as Hf.
  { intros e l. unfold tjot. by rewrite fold_left_app. }
  specialize (H2 Hf 3%nat pdb false 0 ([], budget)). unfold hmap in H1, H2. cbn [fst snd sw_gr fold_left] in H1, H2. rewrite H1 in H2. apply pair_eq in H2 as [H3 H4]. split; [exact H3 | exact H4].
Qed.

Lemma touched_ok pdb budget : Forall note_ok (fst (touched pdb budget)).
Proof. apply (enum_inv rd tadd tjot (Forall note_ok)); [done | | done]. intros e l He Hl. unfold tjot. apply Forall_app. split; [done | by constructor]. Qed.

(** The pages of all entries a walk from [pdb] looks at in video memory. *)
Definition covered (g : gr_track) (pdb : Z) : Prop :=
  forall va a, 0 <= va < 2 ^ 48 -> (false, a) ∈ footprint rd 3 pdb false va -> page_base a <> 0 -> tracked g (page_base a).

Lemma covered_mono g g' pdb : (forall x, x <> 0 -> tracked g x -> tracked g' x) -> covered g pdb -> covered g' pdb.
Proof. intros H Hc va a Hv Ha Hz. apply H; [done |]. by eapply Hc. Qed.

Lemma sweep_one_spec client pdb p budget : gr_ok (p_gr p) ->
  let r := sweep_one rd o true client pdb (p, budget) in
  gr_ok (p_gr (fst r)) /\ m2_gr_pt_n (p_gr p) <= m2_gr_pt_n (p_gr (fst r)) /\ m2_gr_vas_dirty (p_gr (fst r)) = m2_gr_vas_dirty (p_gr p) /\ snd r <= budget /\
  (forall x, x <> 0 -> tracked (p_gr p) x -> tracked (p_gr (fst r)) x) /\ (0 < snd r -> m2_gr_pt_n (p_gr (fst r)) < 6144 -> covered (p_gr (fst r)) pdb) /\
  p_out (fst r) = p_out p ++ map (fun x => (client, x)) (runs_of rd pdb false budget).
Proof.
  intros Hg. cbn zeta. unfold sweep_one. cbn [fst snd p_gr p_out].
  destruct (sweep_gr_is (cpt_pdb_of o pdb) acc_init (p_gr p) (p_cpt p) pdb budget) as [-> ->].
  destruct (gjot_fold (fst (touched pdb budget)) (p_gr p) (touched_ok pdb budget) Hg) as (A1 & A2 & A3 & A4 & A5). cbn zeta in *.
  split_and!; [done | done | done | | done | |].
  - apply (tenum_grows rd 3 pdb false 0 ([], budget)).
  - intros Hb Hn va a Hv Ha Hz. apply A5; [done | | done]. apply (tenum_touches rd 3) with va; [lia | done | done | done | done].
  - unfold runs_of. by rewrite (sweep_runs true (cpt_pdb_of o pdb) acc_init (p_gr p) (p_cpt p) pdb budget).
Qed.

Lemma sweep_vas_spec client vs : forall p budget, gr_ok (p_gr p) ->
  let r := sweep_vas rd o true client vs (p, budget) in
  gr_ok (p_gr (fst r)) /\ m2_gr_pt_n (p_gr p) <= m2_gr_pt_n (p_gr (fst r)) /\ m2_gr_vas_dirty (p_gr (fst r)) = m2_gr_vas_dirty (p_gr p) /\ snd r <= budget /\
  (forall x, x <> 0 -> tracked (p_gr p) x -> tracked (p_gr (fst r)) x) /\
  (0 < snd r -> m2_gr_pt_n (p_gr (fst r)) < 6144 -> forall v, v ∈ vs -> skips o client v = false -> covered (p_gr (fst r)) (vas_pdb v)).
Proof.
  induction vs as [|v vs IH]; intros p budget Hg; cbn [sweep_vas].
  { cbn [fst snd]. split_and!; [done | lia | done | lia | auto |]. intros _ _ v Hv. by apply elem_of_nil in Hv. }
  cbn [snd]. destruct (Z.leb_spec budget 0).
  { cbn [fst snd]. split_and!; [done | lia | done | lia | auto | lia]. }
  destruct (skips o client v) eqn:Es.
  - destruct (IH p budget Hg) as (A1 & A2 & A3 & A4 & A5 & A6). split_and!; try done. intros Hb Hn w [->|Hw]%elem_of_cons Hs; [congruence | by apply A6].
  - destruct (sweep_one_spec client (vas_pdb v) p budget Hg) as (B1 & B2 & B3 & B4 & B5 & B6 & _). destruct (sweep_one rd o true client (vas_pdb v) (p, budget)) as [p1 b1].
    cbn [fst snd] in *. destruct (IH p1 b1 B1) as (A1 & A2 & A3 & A4 & A5 & A6). split_and!; [done | lia | congruence | lia | auto |].
    intros Hb Hn w [->|Hw]%elem_of_cons Hs; [|by apply A6]. eapply covered_mono; [apply A5 |]. apply B6; lia.
Qed.

Lemma arm_keeps writes : forall g, m2_gr_vas_dirty (fold_left (fun g w => gr_arm w g) writes g) = false ->
  m2_gr_vas_dirty g = false /\ fold_left (fun g w => gr_arm w g) writes g = g /\ forall w, w ∈ writes -> m2_gr_vas_dirty (gr_arm w g) = false.
Proof.
  induction writes as [|w writes IH]; intros g; cbn [fold_left].
  { intros H. split_and!; [done | done |]. intros w Hw. by apply elem_of_nil in Hw. }
  intros (H1 & H2 & H3)%IH. assert (gr_arm w g = g) as E.
  { unfold gr_arm in *. destruct (_ && _); [done | done]. }
  rewrite E in *. split_and!; [done | done |]. intros w' [->|Hw]%elem_of_cons; [by rewrite E | auto].
Qed.

End swept.

(** ** Sweeps stay within the client's own address spaces *)

Lemma sweep_vas_out rd o client vs : forall p budget c x, gr_ok (p_gr p) -> (c, x) ∈ p_out (fst (sweep_vas rd o true client vs (p, budget))) ->
  (c, x) ∈ p_out p \/ (c = client /\ exists v b, v ∈ vs /\ skips o client v = false /\ x ∈ runs_of rd (vas_pdb v) false b).
Proof.
  induction vs as [|v vs IH]; intros p budget c x Hg; cbn [sweep_vas]; [by left |]. cbn [snd]. destruct (budget <=? 0); [by left |].
  destruct (skips o client v) eqn:Es.
  - intros [H|(H1 & w & b & H2 & H3)]%IH; [by left | right | done]. split; [done |]. exists w, b. split; [by right | done].
  - destruct (sweep_one_spec rd o client (vas_pdb v) p budget Hg) as (B1 & _ & _ & _ & _ & _ & B7). destruct (sweep_one rd o true client (vas_pdb v) (p, budget)) as [p1 b1].
    cbn [fst snd] in *. intros [H|(H1 & w & b & H2 & H3)]%IH; [| |done].
    + rewrite B7 in H. apply elem_of_app in H as [H|H]; [by left | right]. apply list_elem_of_fmap in H as (y & [= -> ->] & Hy). split; [done |].
      exists v, budget. split; [by left | done].
    + right. split; [done |]. exists w, b. split; [by right | done].
Qed.

(** [sweep_respects_owners]: whatever a sweep hands on is handed on for the client it runs
    for, and is mapped by the tables of an address space that, with several processes,
    is not another one's. *)
Theorem sweep_respects_owners (rd : bool -> Z -> Z) (o : own) (client : Z) (p : pt) (c : Z) (x : page) :
  gr_ok (p_gr p) -> (c, x) ∉ p_out p -> (c, x) ∈ p_out (fst (nvkvm_m2_enum_gr_sysmem rd o true client p)) ->
  c = client /\ exists v, v ∈ o_vas o /\ (nvkvm_m2_multiproc o = true -> nvkvm_m2_vas_foreign o v client = false) /\
    forall va q s, maps x va q s -> exists lo hi, walk_entry rd 3 (vas_pdb v) false va = Some (lo, hi) /\
      (nvkvm_walk_pdb_root rd (vas_pdb v) va false = Some (q, s) \/ shadowed lo hi = true).
Proof.
  intros Hg Hn [H|(H1 & v & b & H2 & H3 & H4)]%sweep_vas_out; [done | | done]. split; [done |]. exists v. split_and!; [done | |].
  - intros Hm. unfold skips in H3. rewrite Hm in H3. by apply orb_false_iff in H3 as [_ H3].
  - intros va q s Hx. apply (runs_sound rd (vas_pdb v) false b). by exists x.
Qed.

(** ** Latched pages are decoded *)

Definition cpt_pages (c : cpt_track) : Z -> Z := fun i => e_page (m2_cpt c).[i].

Record cpt_core (c : cpt_track) : Prop := {
  cc_oa : oa_ok 12 (cpt_pages c) (m2_cpt_n c);
  cc_cap : 0 <= m2_cpt_n c <= 3072;
  cc_bounds : forall i, 0 <= i < 4096 -> cpt_pages c i <> 0 -> m2_cpt_lo c <= cpt_pages c i <= m2_cpt_hi c;
  cc_hi : 0 <= m2_cpt_hi c <= 2 ^ 64 - 4096;
  cc_level : forall i, 0 <= e_level (m2_cpt c).[i] }.

(** The latches and the list agree. *)
Record cpt_ok (c : cpt_track) : Prop := {
  co_core : cpt_core c;
  co_list : forall i, i ∈ m2_cpt_dirty c <-> e_dirty (m2_cpt c).[i] = true;
  co_range : forall i, i ∈ m2_cpt_dirty c -> 0 <= i < 4096 /\ cpt_pages c i <> 0;
  co_nodup : NoDup (m2_cpt_dirty c);
  co_len : (length (m2_cpt_dirty c) <= 256)%nat }.

Lemma oa_ext b k k' n : (forall i, k' i = k i) -> oa_ok b k n -> oa_ok b k' n.
Proof.
  intros E [P C R]. split; [| |done].
  - intros i Hi. rewrite !E. intros Hne. destruct (P i Hi Hne) as (q & Q1 & Q2 & Q3). exists q. split_and!; [lia | lia | done |]. intros q' Hq. rewrite E. by apply Q3.
  - rewrite <- C. apply tally_ext. intros i _. by rewrite E.
Qed.

Lemma oa_unique b k n i j : 0 < b -> oa_ok b k n -> 0 <= i < 2 ^ b -> 0 <= j < 2 ^ b -> k i <> 0 -> k i = k j -> i = j.
Proof.
  intros Hb Hk Hi Hj Hz E. destruct (oa_placed b k n Hk i Hi Hz) as (p & Hp & Ei & Hp').
  destruct (oa_placed b k n Hk j Hj ltac:(congruence)) as (q & Hq & Ej & Hq'). rewrite <- E in Ej, Hq'.
  destruct (Z.lt_trichotomy p q) as [Hl|[->|Hl]]; [| congruence |].
  - destruct (Hq' p ltac:(lia)) as [_ H]. by rewrite <- Ei in H.
  - destruct (Hp' q ltac:(lia)) as [_ H]. rewrite <- Ej in H. congruence.
Qed.

Lemma cpt_slot_eq c base : cpt_slot c base = find_slot 12 (fun h => (cpt_pages c h =? base) || (cpt_pages c h =? 0)) (Z.to_nat (2 ^ 12)) (hash 12 base).
Proof. unfold cpt_slot. change NVKVM_M2_CPT_SLOTS with (2 ^ 12). done. Qed.

Lemma cpt_find_spec c a i : cpt_core c -> page_base a <> 0 -> nvkvm_m2_cpt_find c a = Some i <-> (0 <= i < 4096 /\ cpt_pages c i = page_base a).
Proof.
  intros Hc Hz. unfold nvkvm_m2_cpt_find. rewrite cpt_slot_eq.
  destruct (oa_lookup 12 ltac:(lia) (cpt_pages c) _ (page_base a) (cc_oa c Hc) Hz) as (j & Hj & Hr & Hk & _). rewrite Hj. split.
  - destruct (Z.eqb_spec (e_page (m2_cpt c).[j]) 0) as [E|E]; [done |]. intros [= <-]. split; [done |]. destruct Hk as [Hk|[Hk _]]; done.
  - intros [Hi Hp]. destruct Hk as [Hk|[_ Hk]]; [|exfalso; apply Hk; by exists i].
    assert (i = j) as <- by (apply (oa_unique 12 (cpt_pages c) (m2_cpt_n c)); [lia | apply Hc | done | done | congruence | congruence]).
    unfold cpt_pages in Hp. rewrite Hp. by rewrite (proj2 (Z.eqb_neq _ _) Hz).
Qed.

Lemma page_base_bounds a : 0 <= page_base a <= 2 ^ 64 - 4096.
Proof.
  assert (page_base a = page_base (a mod 2 ^ 64)) as ->; [|apply page_base_range, Z.mod_pos_bound; lia].
  unfold page_base, mask_down. rewrite <- Z.land_ones, <- Z.land_assoc by lia. done.
Qed.

Section latch.
Context (o : own).
Definition compute (c : cpt_track) (i : Z) : Prop := nvkvm_m2_pdb_is_compute o (e_pdb (m2_cpt c).[i]) = true.

(** What recording keeps. *)
Record cpt_rel (c c' : cpt_track) : Prop := {
  cr_core : cpt_core c';
  cr_dirty : m2_cpt_dirty c' = m2_cpt_dirty c;
  cr_flags : forall i, e_dirty (m2_cpt c').[i] = e_dirty (m2_cpt c).[i];
  cr_pages : forall i, cpt_pages c i <> 0 -> cpt_pages c' i = cpt_pages c i;
  cr_compute : forall i, compute c i -> compute c' i }.

Lemma cpt_rel_refl c : cpt_core c -> cpt_rel c c.
Proof. by constructor. Qed.

Lemma cpt_rel_trans c1 c2 c3 : cpt_rel c1 c2 -> cpt_rel c2 c3 -> cpt_rel c1 c3.
Proof.
  intros [A1 A2 A3 A4 A5] [B1 B2 B3 B4 B5]. split; [done | congruence | congruence | | auto].
  intros i Hi. rewrite B4; [by apply A4 |]. rewrite A4 by done. done.
Qed.

Lemma cpt_put_rel h base pdb level vabase n c :
  cpt_core c -> 0 <= h < 4096 -> base <> 0 -> 0 <= base <= 2 ^ 64 - 4096 -> nvkvm_m2_pdb_is_compute o pdb = true ->
  (cpt_pages c h = base /\ n = m2_cpt_n c) \/ (cpt_pages c h = 0 /\ n = m2_cpt_n c + 1 /\ m2_cpt_n c < 3072 /\ cpt_slot c base = Some h) ->
  cpt_rel c (cpt_put h base pdb level vabase n c).
Proof.
  intros [Ho Hcap Hb Hhi Hlv] Hh Hz Hr Hp Hcase.
  assert (forall i, cpt_pages (cpt_put h base pdb level vabase n c) i = if decide (h = i) then base else cpt_pages c i) as Hpg.
  { intros i. unfold cpt_pages, cpt_put. cbn [m2_cpt]. rewrite aget_set. by case_decide. }
  split; [split | done | | |].
  - destruct Hcase as [[H1 ->]|(H1 & -> & H3 & H4)]; cbn [cpt_put m2_cpt_n].
    + apply (oa_ext 12 (cpt_pages c)); [|done]. intros i. rewrite Hpg. case_decide; [by subst | done].
    + rewrite cpt_slot_eq in H4. refine (proj1 (oa_insert 12 ltac:(lia) (cpt_pages c) (m2_cpt_n c) base h _ Ho Hz _ H4 H1 _ _)); [lia | by rewrite Hpg, decide_True | intros i Hi; by rewrite Hpg, decide_False].
  - cbn. destruct Hcase as [[_ ->]|(_ & -> & ? & _)]; lia.
  - intros i Hi. rewrite Hpg. cbn [cpt_put m2_cpt_lo m2_cpt_hi]. case_decide as D; [|intros Hne; specialize (Hb i Hi Hne)]; destruct (Z.ltb_spec base (m2_cpt_lo c)), (Z.ltb_spec (m2_cpt_hi c) base); lia.
  - cbn. destruct (m2_cpt_hi c <? base); lia.
  - intros i. cbn [cpt_put m2_cpt]. rewrite aget_set. case_decide; [apply u8_range | apply Hlv].
  - intros i. unfold cpt_put. cbn [m2_cpt]. rewrite aget_set. case_decide; [by subst | done].
  - intros i Hi. rewrite Hpg. case_decide; [|done]. subst i. destruct Hcase as [[-> _]|[H0 _]]; done.
  - intros i Hi. unfold compute, cpt_put. cbn [m2_cpt]. rewrite aget_set. case_decide; [done | apply Hi].
Qed.

Lemma cpt_record_rel pdb tbl level vabase c : cpt_core c -> nvkvm_m2_pdb_is_compute o pdb = true ->
  cpt_rel c (nvkvm_m2_cpt_record pdb tbl level vabase c).
Proof.
  intros Hc Hp. unfold nvkvm_m2_cpt_record. pose proof (page_base_bounds tbl) as Hr. set (base := page_base tbl) in *. destruct (Z.eqb_spec base 0) as [|Hz]; [by apply cpt_rel_refl |].
  destruct (oa_lookup 12 ltac:(lia) (cpt_pages c) _ base (cc_oa c Hc) Hz) as (j & Hj & Hjr & Hk & _). rewrite <- cpt_slot_eq in Hj. rewrite Hj.
  fold (cpt_pages c j). destruct (Z.eqb_spec (cpt_pages c j) 0) as [E|E].
  - change (NVKVM_M2_CPT_SLOTS * 3 / 4) with 3072. destruct (Z.leb_spec 3072 (m2_cpt_n c)); [by apply cpt_rel_refl |]. apply cpt_put_rel; try done. right. done.
  - apply cpt_put_rel; try done. left. destruct Hk as [Hk|[Hk _]]; done.
Qed.

(** An enumeration or a decoding. *)
Lemma sweep_jot_rel k c0 : nvkvm_m2_pdb_is_compute o k = true -> forall e st, cpt_rel c0 (sw_cpt st) -> cpt_rel c0 (sw_cpt (sweep_jot true k e st)).
Proof.
  intros Hk [[] a|[] l t v] st H; cbn [sweep_jot]; try done. destruct (k =? 0); [done |]. cbn [sw_cpt].
  eapply cpt_rel_trans; [done |]. apply cpt_record_rel; [apply H | done].
Qed.

Lemma decode_rel rd k tbl vabase lvl c0 st : nvkvm_m2_pdb_is_compute o k = true -> cpt_rel c0 (sw_cpt (fst st)) ->
  cpt_rel c0 (sw_cpt (fst (nvkvm_m2_cpt_decode_page rd (sweep_jot true k) tbl vabase lvl st))).
Proof.
  intros Hk Hs. unfold nvkvm_m2_cpt_decode_page. destruct (nvkvm_m2_cpt_lvl lvl) as [shft nent].
  assert (forall va pg sys sz st, cpt_rel c0 (sw_cpt st) -> cpt_rel c0 (sw_cpt (sweep_add va pg sys sz st))) as Ha by done.
  assert (forall e st, note_ok e -> cpt_rel c0 (sw_cpt st) -> cpt_rel c0 (sw_cpt (sweep_jot true k e st))) as Hj by (intros; by apply sweep_jot_rel).
  apply (for_inv (fun st => cpt_rel c0 (sw_cpt st))); [|done]. intros i s Hi. cbn zeta. destruct (lvl =? 3).
  - apply (pd0e_inv rd sweep_add (sweep_jot true k) (fun st => cpt_rel c0 (sw_cpt st))); [done | done |]. by apply sweep_jot_rel, sweep_jot_rel.
  - destruct (4 <=? lvl); [apply (pte_inv sweep_add (fun st => cpt_rel c0 (sw_cpt st))); [done | by apply sweep_jot_rel] |].
    destruct ((lvl =? 2) && _); [by apply sweep_jot_rel |]. destruct (pde_next _) as [[nt ns]|]; [|by apply sweep_jot_rel].
    apply (enum_inv rd sweep_add (sweep_jot true k) (fun st => cpt_rel c0 (sw_cpt st))); [done | done | by apply sweep_jot_rel].
Qed.

(** A release, one latched page after the other. *)
Record rel_ok (c0 : cpt_track) (l : list Z) (r : rel) : Prop := {
  ro_core : cpt_core (sw_cpt (r_sw r));
  ro_dirty : m2_cpt_dirty (sw_cpt (r_sw r)) = m2_cpt_dirty c0;
  ro_flags : forall i, e_dirty (m2_cpt (sw_cpt (r_sw r))).[i] = e_dirty (m2_cpt c0).[i] && negb (bool_decide (i ∈ l));
  ro_pages : forall i, cpt_pages c0 i <> 0 -> cpt_pages (sw_cpt (r_sw r)) i = cpt_pages c0 i;
  ro_compute : forall i, compute c0 i -> compute (sw_cpt (r_sw r)) i }.

Lemma unlatch_core ci c : cpt_core c -> cpt_core (unlatch ci c).
Proof.
  intros [Ho Hc Hb Hh Hv]. assert (forall i, cpt_pages (unlatch ci c) i = cpt_pages c i) as E.
  { intros i. unfold cpt_pages, unlatch. cbn [m2_cpt]. rewrite aget_set. case_decide; [by subst | done]. }
  split; [by apply (oa_ext 12 (cpt_pages c)) | done | intros i; rewrite E; apply Hb | done |].
  intros i. unfold unlatch. cbn [m2_cpt]. rewrite aget_set. case_decide; apply Hv.
Qed.

Lemma unlatch_get ci c i : (m2_cpt (unlatch ci c)).[i] = let e := (m2_cpt c).[i] in Ent (e_page e) (e_pdb e) (e_vabase e) (e_level e) (if decide (ci = i) then false else e_dirty e).
Proof. unfold unlatch. cbn [m2_cpt]. rewrite aget_set. case_decide; [by subst | by destruct ((m2_cpt c).[i])]. Qed.

Lemma release_one_cpt rd ci r : cpt_core (sw_cpt (r_sw r)) ->
  cpt_rel (unlatch ci (sw_cpt (r_sw r))) (sw_cpt (r_sw (release_one rd o ci r))).
Proof.
  intros Hc. pose proof (unlatch_core ci _ Hc) as Hu. unfold release_one. set (c1 := unlatch ci (sw_cpt (r_sw r))) in *.
  destruct (nvkvm_m2_pdb_is_compute o (e_pdb (m2_cpt c1).[ci])) eqn:Ek; cbn [negb]; [|by apply cpt_rel_refl].
  set (own := backed_for o _). cbn [r_sw]. apply decode_rel; [done |]. destruct (own =? _); by apply cpt_rel_refl.
Qed.

Lemma release_fold rd c0 dirty : forall l r, rel_ok c0 l r -> rel_ok c0 (l ++ dirty) (fold_left (fun r ci => release_one rd o ci r) dirty r).
Proof.
  induction dirty as [|ci dirty IH]; intros l r Hr; cbn [fold_left]; [by rewrite app_nil_r |]. rewrite cons_middle, app_assoc. apply IH. clear IH.
  destruct Hr as [R1 R2 R3 R4 R5]. destruct (release_one_cpt rd ci r R1) as [S1 S2 S3 S4 S5]. split; [done | rewrite S2; exact R2 | | |].
  - intros i. rewrite S3, unlatch_get. cbn [e_dirty]. case_decide as D.
    + rewrite bool_decide_eq_true_2 by (apply elem_of_app; right; by apply list_elem_of_singleton). by rewrite andb_false_r.
    + rewrite R3. f_equal. f_equal. apply bool_decide_ext. rewrite elem_of_app, list_elem_of_singleton. split; [by left | by intros [|]].
  - intros i Hi. rewrite <- R4 by done. rewrite S4; [unfold cpt_pages; by rewrite unlatch_get |]. unfold cpt_pages. rewrite unlatch_get. cbn [e_page]. fold (cpt_pages (sw_cpt (r_sw r)) i). by rewrite R4.
  - intros i Hi. apply S5. unfold compute. rewrite unlatch_get. cbn [e_pdb]. by apply R5.
Qed.

(** A release leaves no latch. *)
Lemma sync_spec rd p : cpt_ok (p_cpt p) ->
  let r := nvkvm_m2_cpt_sync_at_release rd o p in
  cpt_ok (p_cpt (fst r)) /\ m2_cpt_dirty (p_cpt (fst r)) = [] /\ (forall i, cpt_pages (p_cpt p) i <> 0 -> cpt_pages (p_cpt (fst r)) i = cpt_pages (p_cpt p) i) /\
  (forall i, compute (p_cpt p) i -> compute (p_cpt (fst r)) i).
Proof.
  intros Hp. cbn zeta. unfold nvkvm_m2_cpt_sync_at_release. destruct (m2_cpt_dirty (p_cpt p)) as [|c0 l] eqn:Ed; [done |].
  rewrite <- Ed. destruct (release_fold rd (p_cpt p) (m2_cpt_dirty (p_cpt p)) [] (Rel (Sw acc_init (p_gr p) (p_cpt p)) (m2_gr_client o) 300000 (p_out p))) as [R1 R2 R3 R4 R5].
  { split; cbn [r_sw sw_cpt]; [apply Hp | done | | done | done]. intros i. rewrite bool_decide_eq_false_2 by (by apply not_elem_of_nil). by rewrite andb_true_r. }
  set (r := fold_left _ _ _) in *. cbn [fst snd rel_flush r_sw sw_cpt p_cpt m2_cpt m2_cpt_dirty app] in *. split_and!; [| done | done | done].
  assert (forall i, e_dirty (m2_cpt (sw_cpt (r_sw r))).[i] = false) as Hf.
  { intros i. rewrite R3. destruct (e_dirty _) eqn:E; [|done]. apply (co_list _ Hp) in E. by rewrite bool_decide_eq_true_2. }
  split; cbn [m2_cpt_dirty m2_cpt]; [destruct R1; by split | | | constructor | cbn; lia].
  - intros i. rewrite Hf. split; [intros H; by apply elem_of_nil in H | done].
  - intros i H. by apply elem_of_nil in H.
Qed.

(** Slots keep their pages and their owners' class. *)
Definition kept (c c' : cpt_track) : Prop :=
  (forall i, cpt_pages c i <> 0 -> cpt_pages c' i = cpt_pages c i) /\ (forall i, compute c i -> compute c' i).

Lemma latch_ok ci c : cpt_ok c -> 0 <= ci < 4096 -> cpt_pages c ci <> 0 -> e_dirty (m2_cpt c).[ci] = false -> (length (m2_cpt_dirty c) < 256)%nat ->
  cpt_ok (latch ci c) /\ kept c (latch ci c).
Proof.
  intros [[Ho Hcap Hb Hh Hv] H2 H3 H4 H5] Hi Hp Hd Hl.
  assert (forall i, (m2_cpt (latch ci c)).[i] = let e := (m2_cpt c).[i] in Ent (e_page e) (e_pdb e) (e_vabase e) (e_level e) (if decide (ci = i) then true else e_dirty e)) as E.
  { intros i. unfold latch. cbn [m2_cpt]. rewrite aget_set. case_decide; [by subst | by destruct ((m2_cpt c).[i])]. }
  assert (forall i, cpt_pages (latch ci c) i = cpt_pages c i) as Ep by (intros i; unfold cpt_pages; by rewrite E).
  split; [|split; [intros i _; apply Ep | intros i; unfold compute; by rewrite E]]. split; [split; [by apply (oa_ext 12 (cpt_pages c)) | done | intros i; rewrite Ep; apply Hb | done | intros i; rewrite E; apply Hv] | | | |].
  - intros i. rewrite E. cbn [latch m2_cpt_dirty e_dirty]. rewrite elem_of_app, list_elem_of_singleton, H2. case_decide as D; [subst; split; [done | by right] | split; [by intros [|] | by left]].
  - intros i. rewrite Ep. cbn [latch m2_cpt_dirty]. rewrite elem_of_app, list_elem_of_singleton. intros [H| ->]; [by apply H3 | done].
  - cbn [latch m2_cpt_dirty]. apply NoDup_app. split_and!; [done | | apply NoDup_singleton]. intros i Hin ->%list_elem_of_singleton. apply H2 in Hin. congruence.
  - cbn [latch m2_cpt_dirty]. rewrite length_app. cbn. lia.
Qed.

Lemma hook_page_spec rd x st : cpt_ok (p_cpt (fst st)) -> page_base x <> 0 ->
  let r := hook_page rd o x st in
  cpt_ok (p_cpt (fst r)) /\ kept (p_cpt (fst st)) (p_cpt (fst r)) /\
  (forall i, nvkvm_m2_cpt_find (p_cpt (fst st)) x = Some i -> compute (p_cpt (fst st)) i -> i ∈ m2_cpt_dirty (p_cpt (fst r))).
Proof.
  intros Hok Hx. cbn zeta. unfold hook_page. destruct (nvkvm_m2_cpt_find (p_cpt (fst st)) x) as [ci|] eqn:Ef.
  2:{ split_and!; [done | by split | done]. }
  apply cpt_find_spec in Ef as [Hci Hpg]; [|apply Hok | done]. destruct (e_dirty (m2_cpt (p_cpt (fst st))).[ci]) eqn:Ed; cbn [orb].
  { split_and!; [done | by split |]. intros i [= <-] _. by apply (co_list _ Hok). }
  destruct (nvkvm_m2_pdb_is_compute o _) eqn:Ek; cbn [negb].
  2:{ split_and!; [done | by split |]. intros i [= <-] H. unfold compute in H. congruence. }
  destruct (room (m2_cpt_dirty (p_cpt (fst st))) 256) eqn:Er.
  - apply Z.ltb_lt in Er. destruct (latch_ok ci (p_cpt (fst st)) Hok Hci ltac:(congruence) Ed ltac:(lia)) as [L1 L2]. cbn [fst snd p_cpt].
    split_and!; [done | done |]. intros i [= <-] _. cbn [latch m2_cpt_dirty]. rewrite elem_of_app. right. by apply list_elem_of_singleton.
  - destruct (sync_spec rd (fst st) Hok) as (S1 & S2 & S3 & S4). cbn zeta in *. set (r := nvkvm_m2_cpt_sync_at_release rd o (fst st)) in *.
    assert (cpt_pages (p_cpt (fst r)) ci = page_base x) as Hpg' by (rewrite S3; congruence).
    destruct (latch_ok ci (p_cpt (fst r)) S1 Hci ltac:(congruence)) as [L1 [L2 L3]]; [| rewrite S2; cbn; lia |].
    { apply not_true_iff_false. intros H%(co_list _ S1). rewrite S2 in H. by apply elem_of_nil in H. }
    cbn [fst snd p_cpt]. split_and!; [done | |].
    + split; [intros i Hi; rewrite L2, S3; [done | done | by rewrite S3] | auto].
    + intros i [= <-] _. cbn [latch m2_cpt_dirty]. apply elem_of_app. right. by apply list_elem_of_singleton.
Qed.

(** The pages of a span. *)
Definition hook_span (rd : bool -> Z -> Z) (base k : Z) (n : nat) (st : pt * list Z) : pt * list Z := sweep (fun k st => hook_page rd o (base + k * 0x1000) st) k n st.

Lemma sweep_S {T} (f : Z -> T -> T) k n st : sweep f k (S n) st = sweep f (k + 1) n (f k st).
Proof. done. Qed.

Lemma hook_span_S rd base k n st : hook_span rd base k (S n) st = hook_span rd base (k + 1) n (hook_page rd o (base + k * 0x1000) st).
Proof. unfold hook_span. rewrite sweep_S. reflexivity. Qed.

Lemma hook_enters rd dst len a i p : cpt_ok (p_cpt p) -> m2_gr_client o <> 0 -> 4096 <= dst -> dst + len < 2 ^ 64 -> dst <= a < dst + len ->
  0 <= i < 4096 -> cpt_pages (p_cpt p) i = page_base a ->
  nvkvm_m2_ce_fb_write_hook rd o true dst len p =
  hook_span rd (page_base dst) 0 (Z.to_nat ((dst + len - page_base dst + 0xfff) / 0x1000)) (Pt (gr_arm dst (p_gr p)) (p_cpt p) (p_out p), []).
Proof.
  intros Hok Hg Hd Hl Ha Hi Hp. pose proof (co_core _ Hok) as Hc. pose proof (page_base_spec a ltac:(lia)). pose proof (Z.mod_pos_bound a 4096 ltac:(lia)).
  assert (page_base a <> 0) as Hz by (pose proof (Z.div_mod a 4096 ltac:(lia)); lia).
  pose proof (cc_bounds _ Hc i Hi ltac:(congruence)) as Hbd. pose proof (cc_hi _ Hc). rewrite Hp in Hbd.
  assert (m2_cpt_n (p_cpt p) <> 0) as Hn.
  { intros E. pose proof (cc_oa _ Hc) as Ho. rewrite E in Ho. apply (oa_none 12 _ (page_base a) ltac:(lia) Ho Hz). by exists i. }
  unfold nvkvm_m2_ce_fb_write_hook. cbn [p_cpt negb orb]. rewrite (proj2 (Z.eqb_neq _ _) Hg), (proj2 (Z.eqb_neq _ _) Hn), (proj2 (Z.eqb_neq len 0)) by lia. cbn [orb].
  rewrite !u64_small by lia. rewrite (proj2 (Z.ltb_ge _ _)), (proj2 (Z.leb_gt _ _)) by lia. done.
Qed.
End latch.

(** ** Concrete sweeps *)

Definition gr_zero : gr_track := Gr ∅ 0 0 (2 ^ 64 - 1) 0 false.
Definition cpt_zero : cpt_track := Cpt ∅ 0 (2 ^ 64 - 1) 0 [].

Lemma gr_zero_ok : gr_ok gr_zero.
Proof. apply (gr_reset_ok gr_zero). apply oa_empty. lia. Qed.

Lemma cpt_zero_ok : cpt_ok cpt_zero.
Proof.
  assert (forall i, (m2_cpt cpt_zero).[i] = Ent 0 0 0 0 false) as E by (intros i; apply aget_empty).
  split; [split | | | constructor | cbn; lia].
  - apply (oa_ext 12 (fun i => (∅ : gmap Z Z).[i])); [|apply oa_empty; lia]. intros i. unfold cpt_pages. by rewrite E, aget_empty.
  - cbn. lia.
  - intros i _ H. unfold cpt_pages in H. by rewrite E in H.
  - cbn. lia.
  - intros i. rewrite E. cbn. lia.
  - intros i. rewrite E. split; [intros H; by apply elem_of_nil in H | done].
  - intros i H. by apply elem_of_nil in H.
Qed.

Lemma cpt_rel_ok o c c' : cpt_ok c -> cpt_rel o c c' -> cpt_ok c'.
Proof.
  intros [A1 A2 A3 A4 A5] [B1 B2 B3 B4 B5]. split; [done | | | by rewrite B2 | by rewrite B2].
  - intros i. rewrite B2, B3. apply A2.
  - intros i. rewrite B2. intros Hi. destruct (A3 i Hi) as [H1 H2]. split; [done |]. by rewrite B4.
Qed.

(** One address space, of the first process. *)
Definition ex_one : own := gr_client_add ex_A (snoop_reserved_pdes 76 (call_pdes ex_A 0xcaf00005 0x1000) (Own [] [] [] [] [] [] [] 0)).
Definition ex_vas : chan_vas := ChanVas 0xcaf00005 ex_A 0x1000 false false.

(** The first small page is unmapped by a write to the upper half of its entry. *)
Definition ex_edit (sys : bool) (a : Z) : Z := if negb sys && (a =? 0x5000) then 0 else ex_rd sys a.


Lemma sweep_respects_owners_witness :
  ex_A = ex_A /\ exists v, v ∈ o_vas ex_one /\ (nvkvm_m2_multiproc ex_one = true -> nvkvm_m2_vas_foreign ex_one v ex_A = false) /\
    forall va q s, maps (0, 0x100000, false, 0x2000) va q s -> exists lo hi, walk_entry ex_rd 3 (vas_pdb v) false va = Some (lo, hi) /\
      (nvkvm_walk_pdb_root ex_rd (vas_pdb v) va false = Some (q, s) \/ shadowed lo hi = true).
Proof.
  apply (sweep_respects_owners ex_rd ex_one ex_A (Pt gr_zero cpt_zero []) ex_A (0, 0x100000, false, 0x2000)).
  - apply gr_zero_ok.
  - intros H. by apply elem_of_nil in H.
  - assert (p_out (fst (nvkvm_m2_enum_gr_sysmem ex_rd ex_one true ex_A (Pt gr_zero cpt_zero []))) =
      [(ex_A, (0, 0x100000, false, 0x2000)); (ex_A, (0x10000, 0x210000, false, 0x10000)); (ex_A, (0x210000, 0x210000, false, 0x10000))]) as -> by (by vm_compute). left.
Defined.

(** The table of small pages of the example, tracked. *)
Definition ex_cpt : cpt_track := nvkvm_m2_cpt_record 0x1000 0x5000 4 0 cpt_zero.

(** ** Edits that are missed *)

(** The second directory lies in system memory. *)
Definition ex_sys (leaf : Z) (sys : bool) (a : Z) : Z :=
  if sys then (if a =? 0x2000 then ex_pde 0x3000 else 0)
  else if a =? 0x1000 then 0x2000 / 2 ^ 4 + 4
  else if a =? 0x3000 then ex_pde 0x4000
  else if a =? 0x4008 then ex_pde 0x5000
  else if a =? 0x5000 then leaf
  else 0.
Definition ex_sys_cut (sys : bool) (a : Z) : Z := if sys then 0 else ex_sys (ex_pte 0x100000) sys a.

(** [edits_missed]: two kinds of edit that do not ask for a sweep.  A table in system
    memory changes, with no write to video memory at all, and a page is unmapped.  A
    copy-engine write starts in the page before a tracked table and runs into it. *)
Theorem edits_missed :
  (exists rd rd' o client va q, let r := nvkvm_m2_enum_gr_sysmem rd o true client (Pt gr_zero cpt_zero []) in
    0 < snd r /\ m2_gr_vas_dirty (p_gr (fst r)) = false /\ (forall a, rd' false a = rd false a) /\
    nvkvm_walk_pdb rd 0x1000 va = Some q /\ nvkvm_walk_pdb rd' 0x1000 va = None) /\
  (exists rd o client dst len x, let r := nvkvm_m2_enum_gr_sysmem rd o true client (Pt gr_zero cpt_zero []) in
    0 < snd r /\ 4096 <= dst < x /\ x < dst + len /\ nvkvm_m2_gr_pt_contains (p_gr (fst r)) x = true /\
    m2_gr_vas_dirty (p_gr (fst (nvkvm_m2_ce_fb_write_hook rd o true dst len (fst r)))) = false).
Proof.
  split.
  - exists (ex_sys (ex_pte 0x100000)), ex_sys_cut, ex_one, ex_A, 0x123, (0x100123, false). split_and!; [by vm_compute | by vm_compute | done | by vm_compute | by vm_compute].
  - exists (fun s a => if negb s && (a =? 0x4008) then ex_pde 0x9000 else ex_rd s a), ex_one, ex_A, 0x8ff0, 0x20, 0x9000.
    split_and!; by vm_compute.
Qed.

(** The second entry's table of big pages lies within a page, behind other data. *)
Definition ex_big (sys : bool) (a : Z) : Z :=
  if sys then 0
  else if a =? 0x4010 then 0x6100 / 2 ^ 4 + 2
  else if a =? 0x6000 then ex_pte 0x900000
  else if a =? 0x6108 then ex_pte 0x210000
  else if (a =? 0x4000) || (a =? 0x4008) || (a =? 0x6008) then 0
  else ex_rd sys a.

(** [big_table_misread]: a table of big pages need not start its page, but is tracked by the
    page alone.  Decoding it reads from the start of the page, and reports a page for
    an address that the tables do not map. *)
Theorem big_table_misread :
  exists rd pdb tbl vabase va q, Visit false 5 tbl vabase ∈ fst (touched rd pdb 300000) /\
    (let c := nvkvm_m2_cpt_record pdb tbl 5 vabase cpt_zero in
     let e := (m2_cpt c).[hash 12 (page_base tbl)] in
     let d := nvkvm_m2_cpt_decode_page rd (fun _ st => st) (e_page e) (e_vabase e) (e_level e) (Sw acc_init gr_zero c, 300000) in
     found (a_out (nvkvm_m2_leaf_flush (sw_acc (fst d)))) va q false) /\
    nvkvm_walk_pdb rd pdb va = None.
Proof.
  exists ex_big, 0x1000, 0x6100, 0x200000, 0x200000, 0x900000. split_and!.
  - assert (existsb (fun e => match e with Visit false 5 0x6100 0x200000 => true | _ => false end) (fst (touched ex_big 0x1000 300000)) = true) as H by (by vm_compute).
    apply existsb_exists in H as (e & He%list_elem_of_In & Hm). destruct e as [|[] l t v]; [done | done |]. repeat (case_match; try done); by subst.
  - cbn zeta. exists (0x200000, 0x900000, false, 0x10000). split; [|by cbn; lia].
    apply list_elem_of_In. match goal with |- In ?x ?l => assert (l = [x]) as -> by (by vm_compute) end. by left.
  - by vm_compute.
Qed.

End PtTrack.
