(* ===== verification/PtRelease.v ===== *)
(** * The release of latched page tables ([src/qemu/nvkvm_gpu_emul.c])

    Theorems on the second half of [PtTrack]: what [nvkvm_m2_cpt_sync_at_release]
    hands on for the tables that copy-engine writes have latched. *)

From S2P Require Import Prelude Bytes Gmmu ClientState PtTrack.
Local Open Scope Z_scope.
Local Open Scope nv_scope.

Module PtRelease.
Import Gmmu ClientState PtTrack.

(** ** Pages of a table *)

(** A page that the table of small pages [e] maps. *)
Definition leaf_of (rd : bool -> Z -> Z) (e : cpt_ent) (va p : Z) (s : bool) : Prop :=
  exists j pg, 0 <= j < 512 /\ bit0 (rd false (u64 (e_page e + j * 8))) = true /\
    pte_page (rd false (u64 (e_page e + j * 8))) = Some (pg, s) /\
    maps (Z.lor (e_vabase e) (Z.shiftl j 12), pg, s, 0x1000) va p s.

Section backing.
Context (rd : bool -> Z -> Z).

(** ** Loops that end within the budget *)

(** If budget is left after [f], it keeps [P]. *)
Definition keeps (P : sw -> Prop) (f : sw * Z -> sw * Z) : Prop :=
  forall st, snd (f st) <= snd st /\ (0 < snd (f st) -> P (fst st) -> P (fst (f st))).

Lemma keeps_comp P f g : keeps P f -> keeps P g -> keeps P (fun st => g (f st)).
Proof. intros Hf Hg st. destruct (Hf st) as [H1 H2], (Hg (f st)) as [H3 H4]. split; [lia |]. intros H5 H6. apply H4, H2; [done | lia | done]. Qed.

Lemma for_keeps P body n : (forall i, keeps P (body i)) -> forall i, keeps P (for_budget body n i).
Proof.
  intros Hb. induction n as [|n IH]; intros i st; cbn [for_budget]; [split; [lia | done] |].
  destruct (snd st <=? 0); [split; [lia | done] |]. apply (keeps_comp P (body i) (for_budget body n (i + 1))); [apply Hb | apply IH].
Qed.

(** ** One table of small pages *)

Definition leaf_body (jot : note -> sw -> sw) (tbl vb : Z) (sys : bool) (shift j : Z) (st : sw * Z) : sw * Z :=
  let e := u64 (tbl + j * 8) in
  (nvkvm_m2_pt_enum_pte sweep_add (rd sys e) (Z.lor vb (Z.shiftl j shift)) (2 ^ shift) (jot (Touch sys e) (fst st)), snd st - 1).

(** What is seen stays seen, tables stay, and the run being built has a length. *)
Record more (a b : sw) : Prop := {
  m_len : 0 <= a_len (sw_acc b);
  m_seen : forall va p s, seen (sw_acc a) va p s -> seen (sw_acc b) va p s;
  m_cpt : sw_cpt b = sw_cpt a }.

Lemma more_refl a : 0 <= a_len (sw_acc a) -> more a a.
Proof. by split. Qed.

Lemma more_trans a b c : more a b -> more b c -> more a c.
Proof. intros [A1 A2 A3] [B1 B2 B3]. split; [done | auto | congruence]. Qed.

Lemma more_touch k sys e a : 0 <= a_len (sw_acc a) -> more a (sweep_jot true k (Touch sys e) a).
Proof. intros Ha. by destruct sys. Qed.

Lemma more_pte pte va sz a : 0 < sz -> 0 <= a_len (sw_acc a) -> more a (nvkvm_m2_pt_enum_pte sweep_add pte va sz a).
Proof.
  intros Hz Ha. unfold nvkvm_m2_pt_enum_pte. destruct (bit0 pte); [|by apply more_refl]. destruct (pte_page pte) as [[pg sys]|]; [|by apply more_refl].
  split; cbn [sweep_add sw_acc sw_cpt]; [by apply leaf_add_len | | done]. intros v p s Hs. apply leaf_add_seen; auto.
Qed.

Lemma pte_seen pte va sz a pg s v p : 0 < sz -> 0 <= a_len (sw_acc a) -> bit0 pte = true -> pte_page pte = Some (pg, s) ->
  maps (va, pg, s, sz) v p s -> seen (sw_acc (nvkvm_m2_pt_enum_pte sweep_add pte va sz a)) v p s.
Proof. intros Hz Ha Hb Hp Hm. unfold nvkvm_m2_pt_enum_pte. rewrite Hb, Hp. cbn [sweep_add sw_acc]. apply leaf_add_seen; auto. Qed.

Lemma leaf_budget k tbl vb sys shift n : forall i st, snd (for_budget (leaf_body (sweep_jot true k) tbl vb sys shift) n i st) <= snd st.
Proof.
  induction n as [|n IH]; intros i st; cbn [for_budget]; [lia |]. destruct (snd st <=? 0); [lia |].
  specialize (IH (i + 1) (leaf_body (sweep_jot true k) tbl vb sys shift i st)). cbn [leaf_body snd] in IH. lia.
Qed.

Lemma leaf_loop k tbl vb sys shift n : 0 <= shift -> forall i st, 0 <= a_len (sw_acc (fst st)) ->
  let r := for_budget (leaf_body (sweep_jot true k) tbl vb sys shift) n i st in
  more (fst st) (fst r) /\
  (0 < snd r -> forall j pg s v p, i <= j < i + Z.of_nat n -> bit0 (rd sys (u64 (tbl + j * 8))) = true ->
     pte_page (rd sys (u64 (tbl + j * 8))) = Some (pg, s) -> maps (Z.lor vb (Z.shiftl j shift), pg, s, 2 ^ shift) v p s -> seen (sw_acc (fst r)) v p s).
Proof.
  intros Hsh. pose proof (Z.pow_pos_nonneg 2 shift ltac:(lia) Hsh) as Hp. induction n as [|n IH]; intros i st Ha; cbn [for_budget].
  { split; [by apply more_refl | lia]. }
  destruct (Z.leb_spec (snd st) 0). { split; [by apply more_refl | lia]. }
  assert (more (fst st) (fst (leaf_body (sweep_jot true k) tbl vb sys shift i st))) as Hm.
  { unfold leaf_body. cbn [fst]. eapply more_trans; [by apply more_touch |]. apply more_pte; [done |]. by apply (more_touch k sys _ _ Ha). }
  destruct (IH (i + 1) (leaf_body (sweep_jot true k) tbl vb sys shift i st)) as (H2 & H3); [apply Hm |].
  split; [by eapply more_trans |]. intros Hb j pg s v p Hj H4 H5 H6.
  destruct (Z.eq_dec j i) as [->|]; [|apply (H3 Hb j pg); (done || lia)].
  apply (m_seen _ _ H2). unfold leaf_body. cbn [fst]. eapply pte_seen; [done | | done | done | done]. by apply (more_touch k sys _ _ Ha).
Qed.

(** ** Tables recorded on the way *)

(** Against the state [s0] at the start: nothing seen is lost, and an entry for small pages is as it was, or it
    was recorded for [k] and all its pages are seen. *)
Definition fresh_seen (k : Z) (s0 st : sw) : Prop :=
  0 <= a_len (sw_acc st) /\
  (forall va p s, seen (sw_acc s0) va p s -> seen (sw_acc st) va p s) /\
  forall i, let e := (m2_cpt (sw_cpt st)).[i] in let e0 := (m2_cpt (sw_cpt s0)).[i] in
    e_level e = 4 ->
    (e_page e = e_page e0 /\ e_pdb e = e_pdb e0 /\ e_vabase e = e_vabase e0 /\ e_level e = e_level e0) \/
    e_pdb e = k /\ forall va p s, leaf_of rd e va p s -> seen (sw_acc st) va p s.

Lemma fresh_more k s0 a b : more a b -> fresh_seen k s0 a -> fresh_seen k s0 b.
Proof.
  intros [M1 M2 M3] (_ & H0 & H). split_and!; [done | auto |]. intros i. rewrite M3. intros e e0 Hl. destruct (H i Hl) as [|[? ?]]; [by left | right; auto].
Qed.

(** Recording changes one entry at most. *)
Lemma record_entry pdb tbl lv vb c i :
  let c' := nvkvm_m2_cpt_record pdb tbl lv vb c in
  (m2_cpt c').[i] = (m2_cpt c).[i] \/
  e_page (m2_cpt c').[i] = page_base tbl /\ e_pdb (m2_cpt c').[i] = pdb /\ e_vabase (m2_cpt c').[i] = vb /\ e_level (m2_cpt c').[i] = u8 lv.
Proof.
  assert (forall h n, let c' := cpt_put h (page_base tbl) pdb lv vb n c in
    (m2_cpt c').[i] = (m2_cpt c).[i] \/
    e_page (m2_cpt c').[i] = page_base tbl /\ e_pdb (m2_cpt c').[i] = pdb /\ e_vabase (m2_cpt c').[i] = vb /\ e_level (m2_cpt c').[i] = u8 lv) as Hput.
  { intros h n. cbn [cpt_put m2_cpt]. rewrite aget_set. case_decide; [by right | by left]. }
  cbn zeta. unfold nvkvm_m2_cpt_record. repeat case_match; auto.
Qed.

Lemma fresh_visit k s0 sys lv tbl vb st : 0 <= lv < 256 -> lv <> 4 -> fresh_seen k s0 st -> fresh_seen k s0 (sweep_jot true k (Visit sys lv tbl vb) st).
Proof.
  intros Hr Hl (Ha & H0 & H). destruct sys; cbn [sweep_jot]; [done |]. destruct (k =? 0); [done |]. split_and!; [done | done |]. intros i. cbn [sw_cpt sw_acc].
  destruct (record_entry k tbl lv vb (sw_cpt st) i) as [E|(_ & _ & _ & E)]; [rewrite E; apply H |].
  cbn zeta. rewrite E. unfold u8. rewrite Z.mod_small by lia. lia.
Qed.

Lemma fresh_touch k s0 sys e st : fresh_seen k s0 st -> fresh_seen k s0 (sweep_jot true k (Touch sys e) st).
Proof. intros H. eapply fresh_more; [|exact H]. apply more_touch, H. Qed.

(** A table of small pages at the start of its page: recorded, and then read whole. *)
Lemma small_keeps k s0 t pdva : (forall tbl, t = Some (tbl, false) -> page_base tbl = tbl) ->
  keeps (fresh_seen k s0) (enum_table rd sweep_add (sweep_jot true k) 4 t 512 pdva 12).
Proof.
  intros Ht st. unfold enum_table. destruct t as [[tbl sys]|]; [|split; [lia | done]]. destruct (tbl =? 0); [split; [lia | done] |].
  set (st0 := (sweep_jot true k (Visit sys 4 tbl pdva) (fst st), snd st)).
  change (for_budget _ 512 0 _) with (for_budget (leaf_body (sweep_jot true k) tbl pdva sys 12) 512 0 st0).
  assert (0 <= a_len (sw_acc (fst st)) -> 0 <= a_len (sw_acc (fst st0))) as Hlen by (intros; subst st0; cbn [sweep_jot fst]; by destruct sys, (k =? 0)).
  split.
  { apply (leaf_budget k tbl pdva sys 12 512 0 st0). }
  intros Hb (Ha & H0 & H). destruct (leaf_loop k tbl pdva sys 12 512 ltac:(lia) 0 st0 (Hlen Ha)) as ([M1 M2 M3] & H3). specialize (H3 Hb).
  set (r := for_budget _ 512 0 st0) in *.
  assert (forall va p s, seen (sw_acc (fst st)) va p s -> seen (sw_acc (fst r)) va p s) as Hs.
  { intros va p s Hv. apply M2. subst st0. destruct sys; cbn [sweep_jot fst sw_acc]; [done |]. by destruct (k =? 0). }
  split_and!; [done | auto |]. intros i. rewrite M3.
  assert ((m2_cpt (sw_cpt (fst st0))).[i] = (m2_cpt (sw_cpt (fst st))).[i] \/
    sys = false /\ e_page (m2_cpt (sw_cpt (fst st0))).[i] = page_base tbl /\ e_pdb (m2_cpt (sw_cpt (fst st0))).[i] = k /\ e_vabase (m2_cpt (sw_cpt (fst st0))).[i] = pdva) as [E|(-> & E1 & E2 & E3)].
  { subst st0. destruct sys; cbn [sweep_jot fst sw_cpt]; [by left |]. destruct (k =? 0); [by left |]. cbn [sw_cpt].
    destruct (record_entry k tbl 4 pdva (sw_cpt (fst st)) i) as [?|(? & ? & ? & _)]; [by left | by right]. }
  - rewrite E. intros e e0 Hl. destruct (H i Hl) as [|[? ?]]; [by left | right; auto].
  - intros e e0 _. right. subst e. rewrite E2. split; [done |]. intros va p s (j & pg & Hj & H4 & H5 & H6). rewrite E1, E3, (Ht tbl eq_refl) in *.
    apply (H3 j pg); [lia | done | done | done].
Qed.

(** Any other table, and a whole enumeration. *)
Lemma big_keeps k s0 t n pdva : keeps (fresh_seen k s0) (enum_table rd sweep_add (sweep_jot true k) 5 t n pdva 16).
Proof.
  intros st. unfold enum_table. destruct t as [[tbl sys]|]; [|split; [lia | done]]. destruct (tbl =? 0); [split; [lia | done] |].
  match goal with |- context [for_budget ?b n 0 ?z0] => destruct (for_keeps (fresh_seen k s0) b n) with (i := 0) (st := z0) as [H1 H2] end.
  - intros i s. cbn [fst snd]. split; [lia |]. intros _ Hf. apply (fresh_touch k s0 sys (u64 (tbl + i * 8))) in Hf. eapply fresh_more; [|exact Hf]. apply more_pte; [done | apply Hf].
  - cbn [fst snd] in *. split; [done |]. intros Hb Hf. apply H2; [done |]. by apply fresh_visit.
Qed.

Lemma small_aligned hi tbl : small_table hi = Some (tbl, false) -> page_base tbl = tbl.
Proof.
  unfold small_table. destruct (_ =? 0); [done |]. destruct (_ =? 1); [|done]. intros [= <-]. unfold NVKVM_VER2_ADDR_VID.
  rewrite Z.shiftl_mul_pow2 by lia. assert (0 <= field hi 8 25 < 2 ^ 25) by (rewrite field_div by lia; apply Z.mod_pos_bound; lia).
  rewrite page_base_spec by lia. change 4096 with (2 ^ 12). rewrite Z.mod_mul by lia. lia.
Qed.

Lemma pd0e_keeps k s0 lo hi pdva : keeps (fresh_seen k s0) (nvkvm_m2_pt_enum_pd0e rd sweep_add (sweep_jot true k) lo hi pdva).
Proof.
  intros st. unfold nvkvm_m2_pt_enum_pd0e. destruct (bit0 lo).
  - cbn [fst snd]. split; [lia |]. intros _ Hf. eapply fresh_more; [|exact Hf]. apply more_pte; [done | apply Hf].
  - apply (keeps_comp (fresh_seen k s0) (enum_table rd sweep_add (sweep_jot true k) 4 (small_table hi) 512 pdva 12)); [|apply big_keeps].
    apply small_keeps. intros tbl. apply small_aligned.
Qed.

Lemma enum_keeps k s0 depth : (depth <= 3)%nat -> forall tbl tsys vabase, keeps (fresh_seen k s0) (nvkvm_m2_pt_enum rd sweep_add (sweep_jot true k) depth tbl tsys vabase).
Proof.
  induction depth as [|d IH]; intros Hd tbl tsys vabase st; cbn [nvkvm_m2_pt_enum]; (destruct ((snd st <=? 0) || (tbl =? 0)); [split; [lia | done] |]).
  - match goal with |- context [for_budget ?b 256 0 ?z0] => destruct (for_keeps (fresh_seen k s0) b 256) with (i := 0) (st := z0) as [H1 H2] end.
    + intros i s. set (e := u64 (tbl + i * 16)).
      destruct (pd0e_keeps k s0 (rd tsys e) (rd tsys (u64 (e + 8))) (Z.lor vabase (Z.shiftl i 21))
        (sweep_jot true k (Touch tsys (u64 (e + 8))) (sweep_jot true k (Touch tsys e) (fst s)), snd s - 1)) as [H1 H2].
      cbn [fst snd] in *. split; [lia |]. intros Hb Hf. apply H2; [done |]. by apply fresh_touch, fresh_touch.
    + cbn [fst snd] in *. split; [done |]. intros Hb Hf. apply H2; [done |]. apply fresh_visit; [lia | lia | done].
  - match goal with |- context [for_budget ?b _ 0 ?z0] => destruct (for_keeps (fresh_seen k s0) b (dir_entries d)) with (i := 0) (st := z0) as [H1 H2] end.
    + intros i s. cbn zeta. cbn [fst snd]. set (e := u64 (tbl + i * 8)).
      assert (keeps (fresh_seen k s0) (fun s => (sweep_jot true k (Touch tsys e) (fst s), snd s))) as Ht by (intros s'; cbn [fst snd]; split; [lia | intros _; apply fresh_touch]).
      destruct ((d =? 0)%nat && bit0 (rd tsys e)); [apply (Ht s) |]. destruct (pde_next (rd tsys e)) as [[nt ns]|]; [|apply (Ht s)].
      apply (keeps_comp (fresh_seen k s0) (fun s => (sweep_jot true k (Touch tsys e) (fst s), snd s))); [done |]. apply IH. lia.
    + cbn [fst snd] in *. split; [done |]. intros Hb Hf. apply H2; [done |]. apply fresh_visit; [lia | lia | done].
Qed.

(** ** One latched page *)

Lemma cpt_lvl_pos lvl : 0 <= fst (nvkvm_m2_cpt_lvl lvl).
Proof. unfold nvkvm_m2_cpt_lvl. repeat case_match; cbn; lia. Qed.

Lemma decode_keeps k s0 tbl vabase lvl : 0 <= lvl -> keeps (fresh_seen k s0) (nvkvm_m2_cpt_decode_page rd (sweep_jot true k) tbl vabase lvl).
Proof.
  intros Hl. unfold nvkvm_m2_cpt_decode_page. destruct (nvkvm_m2_cpt_lvl lvl) as [shft nent]. apply for_keeps. intros i st. cbn zeta. cbn [fst snd].
  set (va := Z.lor vabase (Z.shiftl i shft)). destruct (lvl =? 3).
  - set (e := u64 (tbl + i * 16)). set (st1 := (sweep_jot true k (Touch false (u64 (e + 8))) (sweep_jot true k (Touch false e) (fst st)), snd st - 1)).
    destruct (pd0e_keeps k s0 (rd false e) (rd false (u64 (e + 8))) va st1) as [H1 H2]. split; [cbn [st1 snd] in H1; subst st1; cbn [snd] in *; lia |].
    intros Hb Hf. apply H2; [done |]. by apply fresh_touch, fresh_touch.
  - set (e := u64 (tbl + i * 8)). assert (fresh_seen k s0 (fst st) -> fresh_seen k s0 (sweep_jot true k (Touch false e) (fst st))) as Ht by apply fresh_touch.
    destruct (Z.leb_spec 4 lvl).
    { cbn [fst snd]. split; [lia |]. intros _ Hf. apply Ht in Hf. eapply fresh_more; [|exact Hf]. apply more_pte; [by destruct (lvl =? 4) | apply Hf]. }
    destruct ((lvl =? 2) && bit0 (rd false e)); [cbn [fst snd]; split; [lia | auto] |]. destruct (pde_next (rd false e)) as [[nt ns]|]; [|cbn [fst snd]; split; [lia | auto]].
    destruct (enum_keeps k s0 (Z.to_nat (2 - lvl)) ltac:(lia) nt ns va (sweep_jot true k (Touch false e) (fst st), snd st - 1)) as [H1 H2]. cbn [fst snd] in *. split; [lia | auto].
Qed.

Lemma decode_leaf k tbl vabase st :
  nvkvm_m2_cpt_decode_page rd (sweep_jot true k) tbl vabase 4 st = for_budget (leaf_body (sweep_jot true k) tbl vabase false 12) 512 0 st.
Proof. unfold nvkvm_m2_cpt_decode_page, nvkvm_m2_cpt_lvl. cbn [Z.eqb Pos.eqb]. generalize 512%nat. intros n. reflexivity. Qed.

(** Decoding a table of small pages sees all of them. *)
Lemma decode_small k tbl vabase st :
  let d := nvkvm_m2_cpt_decode_page rd (sweep_jot true k) tbl vabase 4 st in
  0 <= a_len (sw_acc (fst st)) -> 0 < snd d ->
  sw_cpt (fst d) = sw_cpt (fst st) /\
  forall e va p s, e_page e = tbl -> e_vabase e = vabase -> leaf_of rd e va p s -> seen (sw_acc (fst d)) va p s.
Proof.
  cbn zeta. rewrite decode_leaf. intros Ha Hb.
  destruct (leaf_loop k tbl vabase false 12 512 ltac:(lia) 0 st Ha) as [[_ _ M] H]. split; [done |].
  intros e va p s <- <- (j & pg & Hj & H1 & H2 & H3). apply (H Hb j pg); [lia | done | done | done].
Qed.

(** ** What a release has handed on *)

Context (o : own).

Definition out_has (out : list (Z * page)) (c va p : Z) (s : bool) : Prop := exists x, (c, x) ∈ out /\ maps x va p s.

Definition have (r : rel) (c va p : Z) (s : bool) : Prop :=
  out_has (r_out r) c va p s \/ c = r_client r /\ seen (sw_acc (r_sw r)) va p s.

(** The pages of table [i] have gone out to the client they are backed for. *)
Definition backed (c : cpt_track) (P : Z -> Z -> Z -> bool -> Prop) (i : Z) : Prop :=
  let e := (m2_cpt c).[i] in e_level e = 4 -> nvkvm_m2_pdb_is_compute o (e_pdb e) = true ->
  forall va p s, leaf_of rd e va p s -> P (backed_for o (e_pdb e)) va p s.

Lemma out_has_app l l' c va p s : out_has (l ++ l') c va p s <-> out_has l c va p s \/ out_has l' c va p s.
Proof. unfold out_has. setoid_rewrite elem_of_app. naive_solver. Qed.

Lemma flush_has r c va p s : have r c va p s -> out_has (r_out (rel_flush r)) c va p s.
Proof.
  intros [H|[-> (x & H1 & H2)]]; cbn [rel_flush r_out]; apply out_has_app; [by left | right]. exists x. split; [|done]. apply list_elem_of_fmap. by exists x.
Qed.

Lemma flush_len a : 0 <= a_len a -> 0 <= a_len (nvkvm_m2_leaf_flush a).
Proof. unfold nvkvm_m2_leaf_flush. case_match; cbn; lia. Qed.

Lemma unlatch_backed ci c P i : backed c P i <-> backed (unlatch ci c) P i.
Proof. unfold backed, leaf_of. by rewrite unlatch_get. Qed.

Lemma release_one_backs ci r i : 0 <= a_len (sw_acc (r_sw r)) -> cpt_core (sw_cpt (r_sw r)) ->
  let r' := release_one rd o ci r in
  (0 < r_budget r' -> 0 <= a_len (sw_acc (r_sw r')) /\ (backed (sw_cpt (r_sw r)) (have r) i \/ i = ci -> backed (sw_cpt (r_sw r')) (have r') i)).
Proof.
  intros Ha Hc. cbn zeta. unfold release_one. set (c1 := unlatch ci (sw_cpt (r_sw r))). set (e := (m2_cpt c1).[ci]).
  destruct (nvkvm_m2_pdb_is_compute o (e_pdb e)) eqn:Ek; cbn [negb].
  2:{ cbn [r_budget r_sw sw_acc sw_cpt]. intros _. split; [done |]. intros [H| ->]; [|intros _ H; fold e in H; congruence].
      by apply (unlatch_backed ci) in H. }
  set (r0 := Rel (Sw (sw_acc (r_sw r)) (sw_gr (r_sw r)) c1) (r_client r) (r_budget r) (r_out r)).
  set (r1 := if backed_for o (e_pdb e) =? r_client r0 then r0 else _).
  assert (r_budget r1 = r_budget r /\ r_client r1 = backed_for o (e_pdb e) /\ sw_cpt (r_sw r1) = c1 /\ 0 <= a_len (sw_acc (r_sw r1)) /\ forall c va p s, have r c va p s -> have r1 c va p s) as (E1 & E2 & E3 & E4 & E5).
  { subst r1. destruct (Z.eqb_spec (backed_for o (e_pdb e)) (r_client r0)) as [E|E]; [done |].
    cbn [r_budget r_client r_sw rel_flush sw_cpt sw_acc a_len]. split_and!; [done | done | done | by apply flush_len |].
    intros c va p s H. left. by apply (flush_has r). }
  clearbody r1. set (d := nvkvm_m2_cpt_decode_page _ _ _ _ _ _). cbn [r_budget r_sw r_client r_out].
  pose proof (unlatch_core ci _ Hc) as Hu. fold c1 in Hu. pose proof (cc_level _ Hu ci) as Hlv. fold e in Hlv.
  destruct (decode_keeps (e_pdb e) (r_sw r1) (e_page e) (e_vabase e) (e_level e) Hlv (r_sw r1, r_budget r1)) as [_ K2]. fold d in K2. cbn [fst snd] in *.
  intros Hb. destruct (K2 Hb) as (F1 & F2 & F3); [by split_and!; [| |left] |]. split; [done |].
  intros Hi. unfold backed. cbn zeta. intros H4 Hk va p s Hp.
  assert (forall c, have r1 c va p s -> have (Rel (fst d) (r_client r1) (snd d) (r_out r1)) c va p s) as Hm by (intros c [H|[H1 H2]]; [by left | right; auto]).
  destruct (F3 i H4) as [(G1 & G2 & G3 & G4)|[G1 G2]]; [|right; cbn [r_client r_sw]; rewrite G1, E2; auto].
  rewrite E3 in *. rewrite G2 in *. assert (leaf_of rd (m2_cpt c1).[i] va p s) as Hp' by (unfold leaf_of in Hp; by rewrite G1, G3 in Hp).
  destruct Hi as [Hi| ->].
  - apply Hm, E5. apply (unlatch_backed ci) in Hi. fold c1 in Hi. apply Hi; [congruence | done | done].
  - right. split; [done |]. cbn [r_sw]. rewrite G4 in H4. fold e in H4. subst d. rewrite H4 in *.
    destruct (decode_small (e_pdb e) (e_page e) (e_vabase e) (r_sw r1, r_budget r1) E4 Hb) as [_ H]. by apply (H e).
Qed.

Lemma release_one_budget ci r : cpt_core (sw_cpt (r_sw r)) -> r_budget (release_one rd o ci r) <= r_budget r.
Proof.
  intros Hc. unfold release_one. set (c1 := unlatch ci (sw_cpt (r_sw r))). destruct (negb _); [done |]. pose proof (cc_level _ (unlatch_core ci _ Hc) ci) as Hlv. fold c1 in Hlv.
  cbn [r_budget]. match goal with |- snd (nvkvm_m2_cpt_decode_page _ (sweep_jot true ?k) ?t ?v ?l ?z) <= _ => destruct (decode_keeps k (fst z) t v l Hlv z) as [H _] end.
  etransitivity; [exact H |]. cbn [snd]. by destruct (_ =? _).
Qed.

Lemma fold_budget c0 l : forall l0 r, rel_ok o c0 l0 r -> r_budget (fold_left (fun r ci => release_one rd o ci r) l r) <= r_budget r.
Proof.
  induction l as [|ci l IH]; intros l0 r Hr; cbn [fold_left]; [lia |]. etransitivity; [|apply release_one_budget, Hr].
  apply (IH (l0 ++ [ci])). by apply (release_fold o rd c0 [ci]).
Qed.

Lemma fold_backs c0 i l : forall l0 r, rel_ok o c0 l0 r -> 0 <= a_len (sw_acc (r_sw r)) ->
  let r' := fold_left (fun r ci => release_one rd o ci r) l r in
  (0 < r_budget r' -> backed (sw_cpt (r_sw r)) (have r) i \/ i ∈ l -> backed (sw_cpt (r_sw r')) (have r') i).
Proof.
  induction l as [|ci l IH]; intros l0 r Hr Ha; cbn [fold_left]. { intros _ [H|H]; [done | by apply elem_of_nil in H]. }
  pose proof (release_one_backs ci r i Ha (ro_core _ _ _ _ Hr)) as H2. cbn zeta in *.
  assert (rel_ok o c0 (l0 ++ [ci]) (release_one rd o ci r)) as Hr' by (by apply (release_fold o rd c0 [ci])).
  pose proof (fold_budget c0 l _ _ Hr') as Hb. set (r1 := release_one rd o ci r) in *.
  intros Hp Hi. destruct (H2 ltac:(lia)) as [H3 H4]. apply (IH _ r1 Hr' H3 Hp). destruct Hi as [Hi|Hi]; [auto |]. apply elem_of_cons in Hi as [->|Hi]; auto.
Qed.

(** ** A release, and the writes before it *)

Definition pt_backed (p : pt) (i : Z) : Prop := backed (p_cpt p) (out_has (p_out p)) i.

Lemma sync_backs p i : cpt_ok (p_cpt p) -> 0 < snd (nvkvm_m2_cpt_sync_at_release rd o p) -> i ∈ m2_cpt_dirty (p_cpt p) \/ pt_backed p i ->
  pt_backed (fst (nvkvm_m2_cpt_sync_at_release rd o p)) i.
Proof.
  intros Hp. unfold nvkvm_m2_cpt_sync_at_release. destruct (m2_cpt_dirty (p_cpt p)) as [|c0 l] eqn:Ed; [intros _ [H|H]; [by apply elem_of_nil in H | done] |].
  rewrite <- Ed. set (r0 := Rel (Sw acc_init (p_gr p) (p_cpt p)) (m2_gr_client o) 300000 (p_out p)).
  assert (rel_ok o (p_cpt p) [] r0) as Hr.
  { split; cbn [r_sw sw_cpt]; [apply Hp | done | | done | done]. intros j. rewrite bool_decide_eq_false_2 by (by apply not_elem_of_nil). by rewrite andb_true_r. }
  pose proof (fold_backs (p_cpt p) i (m2_cpt_dirty (p_cpt p)) [] r0 Hr ltac:(cbn; lia)) as H. cbn zeta in H. set (r := fold_left _ _ _) in *.
  cbn [fst snd rel_flush r_budget]. intros Hb Hi. specialize (H Hb). unfold pt_backed, backed in *. cbn [p_cpt p_out r_sw sw_cpt m2_cpt r_out] in *.
  intros H4 Hk va q s Hl. apply (flush_has r). apply H; [|done | done | done].
  destruct Hi as [Hi|Hi]; [by right |]. left. intros G4 Gk va' q' s' Gl. left. by apply Hi.
Qed.

Lemma latch_backed ci c P i : backed c P i -> backed (latch ci c) P i.
Proof. unfold backed, leaf_of, latch. cbn [m2_cpt]. rewrite aget_set. case_decide; [by subst | done]. Qed.

Lemma hook_page_backs x st i : cpt_ok (p_cpt (fst st)) ->
  let r := hook_page rd o x st in
  Forall (fun b => 0 < b) (snd r) ->
  Forall (fun b => 0 < b) (snd st) /\
  (i ∈ m2_cpt_dirty (p_cpt (fst st)) \/ pt_backed (fst st) i -> i ∈ m2_cpt_dirty (p_cpt (fst r)) \/ pt_backed (fst r) i).
Proof.
  intros Hok. cbn zeta. unfold hook_page. destruct (nvkvm_m2_cpt_find (p_cpt (fst st)) x) as [ci|]; [|done]. destruct (_ || _); [done |].
  unfold pt_backed. destruct (room _ _).
  - cbn [fst snd p_cpt p_out latch m2_cpt_dirty]. intros Hf. split; [done |]. rewrite elem_of_app. intros [H|H]; [auto |]. right. by apply latch_backed.
  - cbn [fst snd p_cpt p_out latch m2_cpt_dirty]. intros [Hf [Hb _]%Forall_cons]%Forall_app. split; [done |]. intros H. right. apply latch_backed. exact (sync_backs (fst st) i Hok Hb H).
Qed.

Lemma span_backs base i n : forall k st, cpt_ok (p_cpt (fst st)) -> (forall j, k <= j < k + Z.of_nat n -> page_base (base + j * 0x1000) <> 0) ->
  let r := hook_span o rd base k n st in
  cpt_ok (p_cpt (fst r)) /\ kept o (p_cpt (fst st)) (p_cpt (fst r)) /\
  (compute o (p_cpt (fst st)) i -> Forall (fun b => 0 < b) (snd r) ->
   Forall (fun b => 0 < b) (snd st) /\
   ((i ∈ m2_cpt_dirty (p_cpt (fst st)) \/ pt_backed (fst st) i) \/
    (exists j, k <= j < k + Z.of_nat n /\ 0 <= i < 4096 /\ cpt_pages (p_cpt (fst st)) i = page_base (base + j * 0x1000)) ->
    i ∈ m2_cpt_dirty (p_cpt (fst r)) \/ pt_backed (fst r) i)).
Proof.
  induction n as [|n IH]; intros k st Hok Hz; cbn zeta; [change (hook_span o rd base k 0 st) with st | rewrite hook_span_S].
  { split_and!; [done | by split |]. intros _ Hf. split; [done |]. intros [H|(j & Hj & _)]; [done | lia]. }
  destruct (hook_page_spec o rd (base + k * 0x1000) st Hok ltac:(apply Hz; lia)) as (A1 & [A2 A2'] & A3). pose proof (hook_page_backs (base + k * 0x1000) st i Hok) as A4.
  cbn zeta in *. remember (hook_page rd o (base + k * 0x1000) st) as st1 eqn:E1. clear E1.
  destruct (IH (k + 1) st1 A1 ltac:(intros; apply Hz; lia)) as (B1 & [B2 B2'] & B3). cbn zeta in *. split_and!; [done | |].
  { split; [intros j Hj; rewrite B2, A2; [done | done | by rewrite A2] | auto]. }
  intros Hc Hf. destruct (B3 (A2' i Hc) Hf) as [F1 B4]. destruct (A4 F1) as [F0 A5]. split; [done |]. intros Hor. apply B4.
  destruct Hor as [H|(j & Hj & Hi & Hp)]; [auto |]. destruct (Z.eq_dec j k) as [->|].
  - left. left. apply A3; [|done]. apply cpt_find_spec; [apply Hok | apply Hz; lia | done].
  - right. exists j. split; [lia |]. split; [done |]. rewrite A2; [done |]. rewrite Hp. apply Hz. lia.
Qed.

End backing.

(** C17. [latched_leaves_backed]: take a copy-engine write of [len] bytes to [dst] with the
    executor on and a graphics client, not into the first page and not past the end of
    the address space, and one of whose bytes lies in the page of a tracked table of a
    compute address space; memory reads the same from then until the next semaphore
    release.  After the release no table is latched, and the slot is still that page's
    and of a compute address space.  If that release, and those forced meanwhile by a
    full list, each ended with budget left, and the slot now holds a table of small
    pages, then every page its 512 entries map has been handed on for backing, at its
    address, to the client that owns the slot's address space, or to the graphics client
    if no owner is on record.  Nothing is claimed for a release whose budget ran out,
    nor for directories and tables of big pages beyond the latch. *)
Theorem latched_leaves_backed (rd : bool -> Z -> Z) (o : own) (dst len a i : Z) (p : pt) :
  cpt_ok (p_cpt p) -> m2_gr_client o <> 0 -> 4096 <= dst -> dst + len < 2 ^ 64 -> dst <= a < dst + len ->
  nvkvm_m2_cpt_find (p_cpt p) a = Some i -> nvkvm_m2_pdb_is_compute o (e_pdb (m2_cpt (p_cpt p)).[i]) = true ->
  let h := nvkvm_m2_ce_fb_write_hook rd o true dst len p in
  let r := nvkvm_m2_cpt_sync_at_release rd o (fst h) in
  let e := (m2_cpt (p_cpt (fst r))).[i] in
  m2_cpt_dirty (p_cpt (fst r)) = [] /\ cpt_ok (p_cpt (fst r)) /\ e_page e = page_base a /\ nvkvm_m2_pdb_is_compute o (e_pdb e) = true /\
  (Forall (fun b => 0 < b) (snd h ++ [snd r]) -> e_level e = 4 ->
   forall j pg s va, 0 <= j < 512 -> bit0 (rd false (u64 (page_base a + j * 8))) = true -> pte_page (rd false (u64 (page_base a + j * 8))) = Some (pg, s) ->
     let v := Z.lor (e_vabase e) (Z.shiftl j 12) in v <= va < v + 0x1000 ->
     exists x, (backed_for o (e_pdb e), x) ∈ p_out (fst r) /\ maps x va (pg + (va - v)) s).
Proof.
  intros Hok Hg Hd Hl Ha Hf Hk. cbn zeta.
  pose proof (page_base_spec a ltac:(lia)) as Ea. pose proof (page_base_spec dst ltac:(lia)) as Ed.
  pose proof (Z.mod_pos_bound a 4096 ltac:(lia)). pose proof (Z.mod_pos_bound dst 4096 ltac:(lia)). pose proof (Z.div_mod a 4096 ltac:(lia)). pose proof (Z.div_mod dst 4096 ltac:(lia)).
  assert (forall j, 0 <= j -> page_base dst + j * 0x1000 < 2 ^ 64 -> page_base (page_base dst + j * 0x1000) = page_base dst + j * 0x1000) as Hb.
  { intros j Hj Hj'. rewrite page_base_spec by lia. replace (page_base dst + j * 0x1000) with ((dst / 4096 + j) * 4096) at 2 by lia. rewrite Z.mod_mul by lia. lia. }
  apply cpt_find_spec in Hf as [Hi Hp]; [| apply Hok | lia].
  rewrite (hook_enters o rd dst len a i p Hok Hg Hd Hl Ha Hi Hp). set (n := Z.to_nat _).
  assert (Z.of_nat n = (dst + len - page_base dst + 0xfff) / 0x1000) as En by (unfold n; rewrite Z2Nat.id; [done | apply Z.div_pos; lia]).
  pose proof (Z.div_mod (dst + len - page_base dst + 0xfff) 0x1000 ltac:(lia)). pose proof (Z.mod_pos_bound (dst + len - page_base dst + 0xfff) 0x1000 ltac:(lia)).
  destruct (span_backs rd o (page_base dst) i n 0 (Pt (gr_arm dst (p_gr p)) (p_cpt p) (p_out p), []) Hok) as (B1 & [B2 B2'] & B4).
  { intros j Hj. rewrite Hb; lia. }
  cbn [fst snd p_cpt] in *. set (h := hook_span o rd _ 0 n _) in *.
  destruct (sync_spec o rd (fst h) B1) as (S1 & S2 & S3 & S4). cbn zeta in *. assert (page_base a <> 0) by lia.
  assert (cpt_pages (p_cpt (fst h)) i = page_base a) as Hph by (rewrite B2; congruence).
  assert (e_page (m2_cpt (p_cpt (fst (nvkvm_m2_cpt_sync_at_release rd o (fst h))))).[i] = page_base a) as He by (change (cpt_pages (p_cpt (fst (nvkvm_m2_cpt_sync_at_release rd o (fst h)))) i = page_base a); rewrite S3; congruence).
  pose proof (S4 i (B2' i Hk)) as Hc. split_and!; [done | done | done | done |].
  intros [F1 [F2 _]%Forall_cons]%Forall_app Hlv j pg s va Hj G1 G2 G3. destruct (B4 Hk F1) as [_ B5].
  apply (sync_backs rd o (fst h) i B1 F2); [|done | done |].
  - apply B5. right. exists (a / 4096 - dst / 4096). assert (dst / 4096 <= a / 4096) by (apply Z.div_le_mono; lia).
    split; [lia |]. split; [done |]. rewrite Hp, Hb by lia. lia.
  - exists j, pg. rewrite He. split_and!; [lia | lia | done | done | ]. cbn [maps]. split_and!; [lia | lia | lia | done].
Qed.

Lemma latched_leaves_backed_witness :
  exists x, (ex_A, x) ∈ p_out (fst (nvkvm_m2_cpt_sync_at_release ex_rd ex_one (fst (nvkvm_m2_ce_fb_write_hook ex_rd ex_one true 0x4ff0 0x20 (Pt gr_zero ex_cpt []))))) /\
    maps x 0x123 0x100123 false.
Proof.
  destruct (latched_leaves_backed ex_rd ex_one 0x4ff0 0x20 0x5000 117 (Pt gr_zero ex_cpt [])) as (_ & _ & _ & _ & H).
  - apply (cpt_rel_ok ex_one cpt_zero); [apply cpt_zero_ok |]. apply cpt_record_rel; [apply cpt_zero_ok | by vm_compute].
  - by vm_compute.
  - lia.
  - lia.
  - lia.
  - by vm_compute.
  - by vm_compute.
  - specialize (H ltac:(repeat (constructor; [by vm_compute |]); constructor) ltac:(by vm_compute) 0 0x100000 false 0x123 ltac:(lia) ltac:(by vm_compute) ltac:(by vm_compute) ltac:(by vm_compute)).
    exact H.
Defined.
End PtRelease.
