(* ===== verification/FbMem.v ===== *)
(** * Video memory of the emulated GPU ([src/qemu/nvkvm_gpu_emul.c])

    An access of the guest to video memory is served from one of three places: a host
    mapping registered for a range of addresses ([m2_fbback]), the host object behind a
    range of guest physical GPU addresses ([m2_gpga], found by binary search in an index
    kept sorted), or a local page.  An object can be registered without a processor view;
    its first touch maps it and replays what the guest wrote to the local pages before. *)

From S2P Require Import Prelude Bytes Gmmu ClientState PtTrack.
Local Open Scope Z_scope.
Local Open Scope nv_scope.

Module FbMem.
Import Gmmu ClientState PtTrack.

(** ** The index over the ranges *)

Definition gbase (l : list m2_gpga) (g : Z) : Z := from_option gp_base 0 (l !! Z.to_nat g).
Definition gsize (l : list m2_gpga) (g : Z) : Z := from_option gp_size 0 (l !! Z.to_nat g).

(** [a >= base && a < base + size] on 64-bit values. *)
Definition in_span (a base size : Z) : bool := (base <=? a) && (a <? u64 (base + size)).

Record gpga_idx := Idx { m2_gpga_sorted : gmap Z Z; m2_gpga_sorted_n : Z; m2_gpga_idx_dirty : bool; m2_gpga_idx_audit : Z; m2_gpga_idx_mismatch : Z }.

(** The inner loop of the insertion sort, from [j = m - 1] down; the place for the key. *)
Fixpoint shift_up (l : list m2_gpga) (kb : Z) (m : nat) (a : gmap Z Z) : gmap Z Z * Z :=
  match m with
  | O => (a, 0)
  | S j => if kb <? gbase l a.[Z.of_nat j] then shift_up l kb j a.[Z.of_nat j + 1 <- a.[Z.of_nat j]] else (a, Z.of_nat j + 1)
  end.

Definition insert_key (l : list m2_gpga) (i : Z) (a : gmap Z Z) : gmap Z Z :=
  let key := a.[i] in
  let '(a, p) := shift_up l (gbase l key) (Z.to_nat i) a in
  a.[p <- key].

Definition nvkvm_m2_gpga_index_rebuild (l : list m2_gpga) (x : gpga_idx) : gpga_idx :=
  let n := Z.min (Z.of_nat (length l)) 2048 in
  let a := sweep (fun i a => a.[i <- u16 i]) 0 (Z.to_nat n) (m2_gpga_sorted x) in
  let a := sweep (insert_key l) 1 (Z.to_nat (n - 1)) a in
  Idx a n false (m2_gpga_idx_audit x) (m2_gpga_idx_mismatch x).

(** The search loop; [fuel] bounds the size of the window. *)
Fixpoint bsearch (l : list m2_gpga) (a : gmap Z Z) (addr : Z) (fuel : nat) (lo hi cand : Z) : Z :=
  match fuel with
  | O => cand
  | S f =>
      if hi <? lo then cand
      else
        let mid := Z.shiftr (lo + hi) 1 in
        let gi := a.[mid] in
        if gbase l gi <=? addr then bsearch l a addr f (mid + 1) hi gi else bsearch l a addr f lo (mid - 1) cand
  end.

(** The linear scan. *)
Definition gpga_scan (l : list m2_gpga) (addr : Z) : Z :=
  default (-1) (scan (fun i => in_span addr (gbase l i) (gsize l i)) 0 (length l)).

Definition nvkvm_m2_gpga_find (l : list m2_gpga) (addr : Z) (x : gpga_idx) : gpga_idx * Z :=
  let x := if m2_gpga_idx_dirty x || negb (m2_gpga_sorted_n x =? Z.of_nat (length l)) then nvkvm_m2_gpga_index_rebuild l x else x in
  let n := m2_gpga_sorted_n x in
  let cand := bsearch l (m2_gpga_sorted x) addr (Z.to_nat n) 0 (n - 1) (-1) in
  let cand := if (0 <=? cand) && (u64 (gbase l cand + gsize l cand) <=? addr) then -1 else cand in
  if m2_gpga_idx_audit x =? 0 then (x, cand)
  else
    let lin := gpga_scan l addr in
    let same := (lin <? 0) && (cand <? 0) || (0 <=? lin) && (0 <=? cand) && (gbase l lin =? gbase l cand) && (gsize l lin =? gsize l cand) in
    (Idx (m2_gpga_sorted x) n (m2_gpga_idx_dirty x) (m2_gpga_idx_audit x - 1) (if same then m2_gpga_idx_mismatch x else u64 (m2_gpga_idx_mismatch x + 1)),
     if same then cand else lin).

(** ** State *)

(** An object on the host: [go_promote] is 1 while the processor view is deferred, 2 when
    mapping it failed. *)
Record gpu_obj := GObj { go_qva : option Z; go_size : Z; go_client : Z; go_hmem : Z; go_gr_va : Z; go_promote : Z }.

Record emul := Emul {
  f_fbback : list fbback; f_gpga : list m2_gpga; f_objs : list gpu_obj; f_devvas : list devvas; f_idx : gpga_idx;
  f_pages : gmap Z bytes; f_host : bytes; f_gr : gr_track;
  f_in_walk : bool; f_semval : Z; f_sempage : Z; f_maph_next : Z; f_databuf_next : Z }.

Definition set_idx (x : gpga_idx) (e : emul) : emul :=
  Emul (f_fbback e) (f_gpga e) (f_objs e) (f_devvas e) x (f_pages e) (f_host e) (f_gr e) (f_in_walk e) (f_semval e) (f_sempage e) (f_maph_next e) (f_databuf_next e).
Definition set_objs (os : list gpu_obj) (e : emul) : emul :=
  Emul (f_fbback e) (f_gpga e) os (f_devvas e) (f_idx e) (f_pages e) (f_host e) (f_gr e) (f_in_walk e) (f_semval e) (f_sempage e) (f_maph_next e) (f_databuf_next e).
Definition set_mem (pg : gmap Z bytes) (h : bytes) (e : emul) : emul :=
  Emul (f_fbback e) (f_gpga e) (f_objs e) (f_devvas e) (f_idx e) pg h (f_gr e) (f_in_walk e) (f_semval e) (f_sempage e) (f_maph_next e) (f_databuf_next e).
Definition set_gr (g : gr_track) (e : emul) : emul :=
  Emul (f_fbback e) (f_gpga e) (f_objs e) (f_devvas e) (f_idx e) (f_pages e) (f_host e) g (f_in_walk e) (f_semval e) (f_sempage e) (f_maph_next e) (f_databuf_next e).
Definition set_next (maph databuf : Z) (e : emul) : emul :=
  Emul (f_fbback e) (f_gpga e) (f_objs e) (f_devvas e) (f_idx e) (f_pages e) (f_host e) (f_gr e) (f_in_walk e) (f_semval e) (f_sempage e) maph databuf.

(** The calls to the isolated process and the host's memory mapper, with any behaviour. *)
Record host_ops := Host {
  iso_ensure : bool;                              (* a connection is up *)
  rm_alloc : Z -> Z -> Z -> Z -> Z;               (* client, device, handle, size: the status *)
  open_device : Z -> bool;                        (* handle: the device was opened and its descriptor passed *)
  rm_map_memory : Z -> Z -> Z -> Z -> Z -> bool;  (* client, device, memory, size, handle *)
  host_mmap : Z -> Z -> option Z;                 (* handle, size: the address *)
  grmapper : Z -> Z;                              (* client: the mapper's handle, or 0 *)
  map_dma : Z -> Z -> Z -> Z -> Z -> Z -> Z * Z * Z }. (* client, device, mapper, memory, size, address: result, status, address *)

Section ops.
Context (h : host_ops).

(** ** Host objects *)

Definition dev_of (client : Z) (e : emul) : Z := from_option dv_dev 0 (List.find (fun d => dv_client d =? client) (f_devvas e)).

(** The handle the next mapping uses. *)
Definition next_maph (e : emul) : Z := if f_maph_next e <? 16 then 16 else f_maph_next e.

Definition nvkvm_m2_host_map_existing_vidmem (client dev hMem size : Z) (e : emul) : emul * option Z :=
  let maph := next_maph e in
  (set_next (u32 (maph + 1)) (f_databuf_next e) e,
   if negb (open_device h maph) then None
   else if negb (rm_map_memory h client dev hMem size maph) then None
   else host_mmap h maph size).

Definition nvkvm_m2_host_alloc_map_vidmem (client dev hMem size : Z) (e : emul) : emul * option Z :=
  if negb (iso_ensure h) then (e, None)
  else if negb (rm_alloc h client dev hMem size =? 0) then (e, None)
  else nvkvm_m2_host_map_existing_vidmem client dev hMem size e.

Definition nvkvm_m2_host_alloc_vidmem_gpu_only (client dev hMem size : Z) : bool :=
  if negb (iso_ensure h) then false else rm_alloc h client dev hMem size =? 0.

(** ** Local pages *)

Definition nvkvm_fb_page (pg : gmap Z bytes) (addr : Z) : option bytes := pg !! Z.shiftr addr 12.

(** [for (off = 0; off < len; off += 4096)]: the pages of [[src, src + len)] that exist,
    copied to the host mapping at [dst]. *)
Definition steps (len : Z) : nat := Z.to_nat ((len + 4095) / 4096).

Definition copy_page (pg : gmap Z bytes) (src dst k : Z) (m : bytes) : bytes :=
  match nvkvm_fb_page pg (u64 (src + 4096 * k)) with
  | Some gp => write_bytes m (dst + 4096 * k) (read_bytes gp 0 4096)
  | None => m
  end.

Definition copy_pages (pg : gmap Z bytes) (src dst len : Z) (m : bytes) : bytes := sweep (copy_page pg src dst) 0 (steps len) m.

Definition nvkvm_m2_promote_gpu_only (oi : Z) (e : emul) : emul * bool :=
  match (if oi <? 0 then None else f_objs e !! Z.to_nat oi) with
  | None => (e, false)
  | Some o =>
      if negb (go_promote o =? 1) || bool_decide (is_Some (go_qva o)) then (e, bool_decide (is_Some (go_qva o)))
      else
        let dev := dev_of (go_client o) e in
        let '(e, q) := if dev =? 0 then (e, None) else nvkvm_m2_host_map_existing_vidmem (go_client o) dev (go_hmem o) (go_size o) e in
        match q with
        | None => (set_objs (<[Z.to_nat oi := GObj None (go_size o) (go_client o) (go_hmem o) (go_gr_va o) 2]> (f_objs e)) e, false)
        | Some qva =>
            let m := foldl (fun m g => if gp_obj_idx g =? oi then copy_pages (f_pages e) (gp_base g) (qva + gp_off g) (gp_size g) m else m) (f_host e) (f_gpga e) in
            (set_objs (<[Z.to_nat oi := GObj (Some qva) (go_size o) (go_client o) (go_hmem o) (go_gr_va o) 0]> (f_objs e)) (set_mem (f_pages e) m e), true)
        end
  end.

(** ** Accesses *)

Definition fbback_hit (e : emul) (a : Z) : option fbback := List.find (fun b => in_span a (fb_base b) (fb_size b)) (f_fbback e).

Definition nvkvm_fb_host_overlay (a : Z) (e : emul) : emul * option Z :=
  match fbback_hit e a with
  | Some b => (e, Some (host_qva b + (a - fb_base b)))
  | None =>
      let '(x, i) := nvkvm_m2_gpga_find (f_gpga e) a (f_idx e) in
      let e := set_idx x e in
      match (if i <? 0 then None else f_gpga e !! Z.to_nat i) with
      | None => (e, None)
      | Some g =>
          let oi := gp_obj_idx g in
          match (if oi <? 0 then None else f_objs e !! Z.to_nat oi) with
          | None => (e, None)
          | Some o =>
              let e := if negb (bool_decide (is_Some (go_qva o))) && (go_promote o =? 1) && negb (f_in_walk e) then fst (nvkvm_m2_promote_gpu_only oi e) else e in
              (e, q ← f_objs e !! Z.to_nat oi ≫= go_qva; Some (q + gp_off g + (a - gp_base g)))
          end
      end
  end.

Definition overlay_if_any (a : Z) (e : emul) : emul * option Z :=
  match f_fbback e, f_gpga e with [], [] => (e, None) | _, _ => nvkvm_fb_host_overlay a e end.

Definition ld_le (size : Z) (d : bytes) (o : Z) : Z :=
  if size =? 1 then get8 d o else if size =? 2 then get16 d o else if size =? 4 then get32 d o else if size =? 8 then get64 d o else 0.
Definition st_le (size : Z) (d : bytes) (o v : Z) : bytes :=
  if size =? 1 then put8 d o v else if size =? 2 then put16 d o v else if size =? 4 then put32 d o v else if size =? 8 then put64 d o v else d.

Definition sentinel (e : emul) (a : Z) : bool := negb (f_semval e =? 0) && (mask_down a 4096 =? mask_down (f_sempage e) 4096).

Definition nvkvm_fb_read (a size : Z) (e : emul) : emul * Z :=
  if sentinel e a then (e, if 8 <=? size then f_semval e else Z.land (f_semval e) (Z.shiftl 1 (size * 8) - 1))
  else
    let '(e, hp) := overlay_if_any a e in
    (e, match hp with
        | Some p => ld_le size (f_host e) p
        | None => from_option (fun p => ld_le size p (Z.land a 0xfff)) 0 (nvkvm_fb_page (f_pages e) a)
        end).

Definition nvkvm_fb_write (a val size : Z) (e : emul) : emul :=
  let e := set_gr (gr_arm a (f_gr e)) e in
  let '(e, hp) := overlay_if_any a e in
  match hp with
  | Some p => set_mem (f_pages e) (st_le size (f_host e) p val) e
  | None => set_mem (<[Z.shiftr a 12 := st_le size (default ∅ (nvkvm_fb_page (f_pages e) a)) (Z.land a 0xfff) val]> (f_pages e)) (f_host e) e
  end.

(** Where an access would go, without touching anything: 1 a registered mapping, 2 an
    object, 0 a local page. *)
Definition nvkvm_dp_classify_fb (e : emul) (a : Z) : Z :=
  match fbback_hit e a with
  | Some _ => 1
  | None =>
      match List.find (fun g => in_span a (gp_base g) (gp_size g)) (f_gpga e) with
      | Some g => if (gp_obj_idx g <? 0) || (Z.of_nat (length (f_objs e)) <=? gp_obj_idx g) then 0 else 2
      | None => 0
      end
  end.

(** ** Registering an object *)

Definition nvkvm_m2_gpga_obj_ex (client va gpga size : Z) (gpu_only : bool) (e : emul) : emul * Z :=
  if (1024 <=? Z.of_nat (length (f_objs e))) || (2048 <=? Z.of_nat (length (f_gpga e))) then (e, -1)
  else
    let dev := dev_of client e in
    if (dev =? 0) || (size =? 0) then (e, -1)
    else
      let asize := mask_down (u64 (size + 0xffff)) 0x10000 in
      let tsize := mask_down (u64 (size + 0xfff)) 0x1000 in
      let hMem := Z.lor 0xda000000 (Z.land (f_databuf_next e) 0xffff) in
      let e := set_next (f_maph_next e) (u32 (f_databuf_next e + 1)) e in
      let gpu_only := gpu_only && negb (bool_decide (is_Some (scan (fun k => bool_decide (is_Some (nvkvm_fb_page (f_pages e) (u64 (gpga + 4096 * k))))) 0 (steps tsize)))) in
      let '(e, r) :=
        if gpu_only then (e, if nvkvm_m2_host_alloc_vidmem_gpu_only client dev hMem asize then Some None else None)
        else let '(e, q) := nvkvm_m2_host_alloc_map_vidmem client dev hMem asize e in (e, Some <$> q) in
      match r with
      | None => (e, -1)
      | Some qva =>
          let m := from_option (fun q => copy_pages (f_pages e) gpga q tsize (f_host e)) (f_host e) qva in
          let hVirt := grmapper h client in
          let '(mrc, mst, outva) := if negb (hVirt =? 0) then map_dma h client dev hVirt hMem asize va else (-1, 0xffff, 0) in
          let gpu_mapped := (mrc =? 0) && (mst =? 0) && (outva =? va) in
          let oi := Z.of_nat (length (f_objs e)) in
          let x := f_idx e in
          (Emul (f_fbback e) (f_gpga e ++ [Gpga gpga asize oi 0])
             (f_objs e ++ [GObj qva asize client hMem (if gpu_mapped then va else 0) (if gpu_only then 1 else 0)])
             (f_devvas e) (Idx (m2_gpga_sorted x) (m2_gpga_sorted_n x) true (m2_gpga_idx_audit x) (m2_gpga_idx_mismatch x))
             (f_pages e) m (f_gr e) (f_in_walk e) (f_semval e) (f_sempage e) (f_maph_next e) (f_databuf_next e), oi)
      end.

(** ** The window of the register space into video memory *)

Definition NVKVM_PRAMIN_BASE : Z := 0x700000.
Definition nvkvm_pramin_fb_addr (bar0_window off : Z) : Z := u64 (Z.shiftl (Z.land bar0_window 0xFFFFFF) 16 + u64 (off - NVKVM_PRAMIN_BASE)).
End ops.

(** ** The index finds what the scan finds *)

Section index.
Context (l : list m2_gpga).
Abbreviation n := (Z.of_nat (length l)).

(** The first [m] entries of the index ascend. *)
Definition ascending (a : gmap Z Z) (m : Z) : Prop := forall p q, 0 <= p -> p <= q -> q < m -> gbase l a.[p] <= gbase l a.[q].

(** The index lists every entry of the table. *)
Definition lists_all (a : gmap Z Z) : Prop := forall g, 0 <= g < n <-> exists k, 0 <= k < n /\ a.[k] = g.

Lemma shift_up_spec kb m : forall a a' p, shift_up l kb m a = (a', p) ->
  0 <= p <= Z.of_nat m /\
  (forall k, k < p \/ Z.of_nat m < k -> a'.[k] = a.[k]) /\
  (forall k, p <= k < Z.of_nat m -> a'.[k + 1] = a.[k] /\ kb < gbase l a.[k]) /\
  (0 < p -> gbase l a.[p - 1] <= kb).
Proof.
  induction m as [|m IH]; intros a a' p; cbn [shift_up]; [intros [= <- <-]; split_and!; [lia | lia | done | intros; lia | lia] |].
  destruct (Z.ltb_spec kb (gbase l a.[Z.of_nat m])) as [Hlt|Hle]; intros Heq.
  - apply IH in Heq as (Hp & Hout & Hin & Hb). split_and!; [lia | lia | | |].
    + intros k Hk. rewrite Hout by lia. apply aget_set_ne. lia.
    + intros k Hk. destruct (decide (k = Z.of_nat m)) as [->|].
      * rewrite Hout by lia. by rewrite aget_set_eq.
      * destruct (Hin k) as [-> H]; [lia |]. rewrite aget_set_ne in H |- * by lia. done.
    + intros H. specialize (Hb H). rewrite aget_set_ne in Hb by lia. done.
  - injection Heq as <- <-. split_and!; [lia | lia | done | intros; lia |]. intros _. by rewrite Z.add_simpl_r.
Qed.

Lemma insert_key_spec i a : 0 <= i < n -> ascending a i -> lists_all a -> ascending (insert_key l i a) (i + 1) /\ lists_all (insert_key l i a).
Proof.
  intros Hi Ha Hl. unfold insert_key. destruct (shift_up l (gbase l a.[i]) (Z.to_nat i) a) as [a' p] eqn:E.
  apply shift_up_spec in E as (Hp & Hout & Hin & Hb). rewrite Z2Nat.id in Hp, Hout, Hin by lia.
  assert (forall k, 0 <= k -> k < p -> (a'.[p <- a.[i]]).[k] = a.[k]) as Hlow by (intros; rewrite aget_set_ne by lia; apply Hout; lia).
  assert (forall k, p < k <= i -> (a'.[p <- a.[i]]).[k] = a.[k - 1]) as Hmid.
  { intros k Hk. rewrite aget_set_ne by lia. replace k with (k - 1 + 1) at 1 by lia. apply Hin. lia. }
  assert (forall k, i < k -> (a'.[p <- a.[i]]).[k] = a.[k]) as Hhigh by (intros; rewrite aget_set_ne by lia; apply Hout; lia).
  assert ((a'.[p <- a.[i]]).[p] = a.[i]) as Hat by apply aget_set_eq.
  assert (forall k, 0 <= k -> k < p -> gbase l a.[k] <= gbase l a.[i]) as Hbelow.
  { intros k ??. etrans; [apply (Ha k (p - 1)); lia | apply Hb; lia]. }
  assert (forall k, p <= k < i -> gbase l a.[i] <= gbase l a.[k]) as Habove by (intros k Hk; destruct (Hin k) as [_ ?]; lia).
  generalize dependent (a'.[p <- a.[i]]). intros b Hlow Hmid Hhigh Hat. split.
  - intros x y Hx Hxy Hy. destruct (Z.lt_trichotomy x p) as [Hxp|[->|Hxp]], (Z.lt_trichotomy y p) as [Hyp|[->|Hyp]]; try lia;
      rewrite ?Hat, ?(Hlow x), ?(Hlow y), ?(Hmid x), ?(Hmid y) by lia; try lia; first [apply Hbelow; lia | apply Habove; lia | apply Ha; lia].
  - intros g. rewrite (Hl g). split; intros (k & Hk & <-).
    + destruct (decide (k < p)); [exists k; rewrite Hlow by lia; split; [lia | done] |]. destruct (decide (k < i)).
      { exists (k + 1). rewrite Hmid by lia. rewrite Z.add_simpl_r. split; [lia | done]. }
      destruct (decide (k = i)) as [->|]; [exists p; split; [lia | done] |]. exists k. rewrite Hhigh by lia. split; [lia | done].
    + destruct (decide (k < p)); [exists k; rewrite Hlow by lia; split; [lia | done] |]. destruct (decide (k = p)) as [->|]; [exists i; split; [lia | done] |].
      destruct (decide (k <= i)); [exists (k - 1); rewrite Hmid by lia; split; [lia | done] |]. exists k. rewrite Hhigh by lia. split; [lia | done].
Qed.

(** What an index that is in use satisfies. *)
Definition sorted_ok (x : gpga_idx) : Prop := ascending (m2_gpga_sorted x) n /\ lists_all (m2_gpga_sorted x) /\ m2_gpga_sorted_n x = n.
Definition idx_ok (x : gpga_idx) : Prop := m2_gpga_idx_dirty x = false -> m2_gpga_sorted_n x = n -> sorted_ok x.

Lemma rebuild_sorted x : n <= 2048 -> sorted_ok (nvkvm_m2_gpga_index_rebuild l x).
Proof.
  intros Hn. unfold nvkvm_m2_gpga_index_rebuild. rewrite Z.min_l by lia.
  set (a0 := sweep _ 0 _ _).
  assert (forall k, 0 <= k < n -> a0.[k] = k) as H0.
  { intros k Hk. pose (I := fun i (a : gmap Z Z) => forall k, 0 <= k < i -> a.[k] = k).
    enough (I (0 + Z.of_nat (Z.to_nat n)) a0) as H by (apply H; lia).
    apply sweep_ind; [intros ??; lia |]. intros i a Hi HI j Hj. rewrite aget_set. case_decide as E; [by rewrite E, u16_small by lia | apply HI; lia]. }
  pose (J := fun i a => ascending a i /\ lists_all a).
  assert (J (1 + Z.of_nat (Z.to_nat (n - 1))) (sweep (insert_key l) 1 (Z.to_nat (n - 1)) a0)) as [H1 H2].
  { apply sweep_ind.
    - split; [intros p q ???; replace p with q by lia; done |]. intros g. split; [intros Hg; exists g; split; [done | by apply H0] |].
      intros (k & Hk & <-). by rewrite H0.
    - intros k a Hk [Ha Hl]. apply insert_key_spec; [lia | done | done]. }
  split_and!; [| done | done]. intros p q ???. apply H1; cbn in *; lia.
Qed.

Lemma bsearch_spec a addr : ascending a n -> forall fuel lo hi cand,
  0 <= lo -> lo <= hi + 1 -> hi < n -> hi - lo + 1 <= Z.of_nat fuel ->
  (forall k, 0 <= k -> k < lo -> gbase l a.[k] <= addr) -> (forall k, hi < k < n -> addr < gbase l a.[k]) -> cand = (if lo =? 0 then -1 else a.[lo - 1]) ->
  exists k, 0 <= k <= n /\ (forall j, 0 <= j -> j < k -> gbase l a.[j] <= addr) /\ (forall j, k <= j < n -> addr < gbase l a.[j]) /\
    bsearch l a addr fuel lo hi cand = if k =? 0 then -1 else a.[k - 1].
Proof.
  intros Ha. induction fuel as [|f IH]; intros lo hi cand Hlo Hlh Hhi Hf Hlow Hhigh Hc; cbn [bsearch]; [exists lo; split_and!; [lia | lia | done | intros; apply Hhigh; lia | done] |].
  destruct (Z.ltb_spec hi lo); [exists lo; split_and!; [lia | lia | done | intros; apply Hhigh; lia | done] |].
  rewrite Z.shiftr_div_pow2 by lia. change (2 ^ 1) with 2. assert (lo <= (lo + hi) / 2 <= hi) as Hm by (split; [apply Z.div_le_lower_bound | apply Z.div_le_upper_bound]; lia).
  generalize dependent ((lo + hi) / 2). intros mid Hm. destruct (Z.leb_spec (gbase l a.[mid]) addr) as [Hle|Hgt].
  - apply IH; [lia | lia | lia | lia | | done |].
    + intros k ??. etrans; [apply (Ha k mid); lia | done].
    + rewrite (proj2 (Z.eqb_neq _ _)) by lia. by rewrite Z.add_simpl_r.
  - apply IH; [lia | lia | lia | lia | done | | done]. intros k Hk. eapply Z.lt_le_trans; [done |]. apply Ha; lia.
Qed.

(** Ranges as the comment at the index has them. *)
Definition ranges_ok : Prop :=
  (forall i, 0 <= i < n -> 0 <= gbase l i /\ 0 < gsize l i /\ gbase l i + gsize l i < 2 ^ 64) /\
  (forall i j, 0 <= i < n -> 0 <= j < n -> i <> j -> gbase l i + gsize l i <= gbase l j \/ gbase l j + gsize l j <= gbase l i).

Lemma gpga_scan_is addr g : ranges_ok -> 0 <= g < n -> in_span addr (gbase l g) (gsize l g) = true -> gpga_scan l addr = g.
Proof.
  intros [Hr Hd] Hg Hi. unfold gpga_scan. destruct (scan _ 0 _) as [j|] eqn:E; cbn.
  - apply scan_Some in E as (Hj & Hin & _). unfold in_span in *. nv_bool. pose proof (Hr g Hg) as Rg. assert (0 <= j < n) as Hj' by lia. pose proof (Hr j Hj') as Rj.
    rewrite u64_small in * by lia. destruct (decide (j = g)) as [|Hne]; [done |]. destruct (Hd j g) as [?|?]; lia.
  - rewrite scan_None in E. rewrite E in Hi by lia. done.
Qed.

Lemma gpga_scan_none addr : (forall g, 0 <= g < n -> in_span addr (gbase l g) (gsize l g) = false) -> gpga_scan l addr = -1.
Proof. intros H. unfold gpga_scan. rewrite (proj2 (scan_None _ _ _)); [done |]. intros; apply H; lia. Qed.

Lemma candidate_exact x addr : ranges_ok -> sorted_ok x -> 0 <= addr ->
  let c := bsearch l (m2_gpga_sorted x) addr (Z.to_nat (m2_gpga_sorted_n x)) 0 (m2_gpga_sorted_n x - 1) (-1) in
  (if (0 <=? c) && (u64 (gbase l c + gsize l c) <=? addr) then -1 else c) = gpga_scan l addr.
Proof.
  intros Hr (Ha & Hl & ->) Haddr. cbn zeta.
  destruct (bsearch_spec _ addr Ha (Z.to_nat n) 0 (n - 1) (-1)) as (k & Hk & Hlow & Hhigh & ->); [lia | lia | lia | lia | intros; lia | intros; lia | done |].
  set (a := m2_gpga_sorted x) in *.
  assert (forall g, 0 <= g < n -> in_span addr (gbase l g) (gsize l g) = true -> 0 < k /\ g = a.[k - 1]) as Honly.
  { intros g Hg Hin. destruct (proj1 (Hl g) Hg) as (j & Hj & <-). unfold in_span in Hin. nv_bool. destruct (proj1 Hr _ Hg) as (H1 & H2 & H3). rewrite u64_small in * by lia.
    assert (j < k) by (destruct (Z.lt_ge_cases j k); [done | specialize (Hhigh j); lia]). split; [lia |].
    assert (0 <= a.[k - 1] < n) as Hg' by (apply Hl; exists (k - 1); split; [lia | done]). destruct (decide (a.[j] = a.[k - 1])) as [|Hne]; [done |]. exfalso.
    pose proof (Ha j (k - 1)). pose proof (Hlow (k - 1)). destruct (proj1 Hr _ Hg') as (? & ? & ?). destruct (proj2 Hr _ _ Hg Hg' Hne); lia. }
  destruct (Z.eqb_spec k 0) as [->|Hk0].
  - cbn [Z.leb Z.compare andb]. symmetry. apply gpga_scan_none. intros g Hg. destruct (in_span _ _ _) eqn:E; [| done]. apply Honly in E; [lia | done].
  - assert (0 <= a.[k - 1] < n) as Hg by (apply Hl; exists (k - 1); split; [lia | done]). rewrite (proj2 (Z.leb_le 0 a.[k - 1])) by lia. cbn [andb].
    destruct (proj1 Hr _ Hg) as (H1 & H2 & H3). pose proof (Hlow (k - 1)) as Hb. destruct (Z.leb_spec (u64 (gbase l a.[k - 1] + gsize l a.[k - 1])) addr) as [Hout|Hin].
    + symmetry. apply gpga_scan_none. intros g Hgn. destruct (in_span addr _ _) eqn:E; [| done]. destruct (Honly _ Hgn E) as [_ ->]. unfold in_span in E. nv_bool. lia.
    + symmetry. apply gpga_scan_is; [done | done |]. unfold in_span. rewrite (proj2 (Z.leb_le _ _)) by lia. by apply Z.ltb_lt.
Qed.

Lemma find_exact x addr : n <= 2048 -> ranges_ok -> idx_ok x -> 0 <= addr ->
  let r := nvkvm_m2_gpga_find l addr x in
  snd r = gpga_scan l addr /\ sorted_ok (fst r) /\ m2_gpga_idx_dirty (fst r) = false /\ m2_gpga_idx_mismatch (fst r) = m2_gpga_idx_mismatch x.
Proof.
  intros Hn Hr Hx Ha. cbn zeta. unfold nvkvm_m2_gpga_find.
  set (y := if m2_gpga_idx_dirty x || _ then _ else x).
  assert (sorted_ok y /\ m2_gpga_idx_dirty y = false /\ m2_gpga_idx_mismatch y = m2_gpga_idx_mismatch x) as (Hy & Hd & Hm).
  { subst y. destruct (m2_gpga_idx_dirty x) eqn:E; cbn [orb]; [by split; [apply rebuild_sorted |] |].
    destruct (Z.eqb_spec (m2_gpga_sorted_n x) n); cbn [negb]; [by split; [apply Hx |] | by split; [apply rebuild_sorted |]]. }
  pose proof (candidate_exact y addr Hr Hy Ha) as Hc. cbn zeta in Hc. rewrite Hc. destruct (m2_gpga_idx_audit y =? 0); [done |].
  replace (_ || _) with true; [done |]. symmetry. destruct (Z.ltb_spec (gpga_scan l addr) 0); [done |]. cbn [andb orb]. rewrite !Z.eqb_refl, (proj2 (Z.leb_le _ _)) by lia. done.
Qed.
End index.

(** ** Loads and stores, byte by byte *)

Definition access_size (size : Z) : Prop := size ∈ [1; 2; 4; 8].

(** The [n] bytes from [a], least significant first. *)
Fixpoint le_word (f : Z -> Z) (a : Z) (n : nat) : Z :=
  match n with
  | O => 0
  | S n' => f a + 2 ^ 8 * le_word f (a + 1) n'
  end.

(** Byte [k] of a value. *)
Definition byte_of (v k : Z) : Z := u8 (Z.shiftr v (8 * k)).

Lemma get8_put16 d o v x : get8 (put16 d o v) x = if decide (o <= x < o + 2) then byte_of v (x - o) else get8 d x.
Proof.
  unfold put16, byte_of. case_decide; [| rewrite !get8_put8_ne by lia; done]. destruct (decide (x = o)) as [->|].
  - rewrite get8_put8_ne, get8_put8 by lia. by rewrite Z.sub_diag.
  - replace x with (o + 1) by lia. rewrite get8_put8. do 2 f_equal. lia.
Qed.

Lemma get8_put_twice (put : bytes -> Z -> Z -> bytes) (w : Z) d o v x : 0 <= w ->
  (forall d o v x, get8 (put d o v) x = if decide (o <= x < o + w) then byte_of v (x - o) else get8 d x) ->
  get8 (put (put d o v) (o + w) (Z.shiftr v (8 * w))) x = if decide (o <= x < o + 2 * w) then byte_of v (x - o) else get8 d x.
Proof.
  intros Hw H. rewrite !H. repeat case_decide; try lia; try done. unfold byte_of. rewrite Z.shiftr_shiftr by lia. do 2 f_equal. lia.
Qed.

Lemma get8_put32 d o v x : get8 (put32 d o v) x = if decide (o <= x < o + 4) then byte_of v (x - o) else get8 d x.
Proof. apply (get8_put_twice put16 2); [lia | apply get8_put16]. Qed.

Lemma get8_put64 d o v x : get8 (put64 d o v) x = if decide (o <= x < o + 8) then byte_of v (x - o) else get8 d x.
Proof. apply (get8_put_twice put32 4); [lia | apply get8_put32]. Qed.

Lemma access_cases (P : Z -> Prop) size : access_size size -> P 1 -> P 2 -> P 4 -> P 8 -> P size.
Proof. unfold access_size. rewrite !elem_of_cons, elem_of_nil. intros [->|[->|[->|[->|[]]]]]; done. Qed.

Lemma get8_st_le size d o v x : access_size size -> get8 (st_le size d o v) x = if decide (o <= x < o + size) then byte_of v (x - o) else get8 d x.
Proof.
  intros H. revert size H. intros size H. apply (access_cases (fun size => get8 (st_le size d o v) x = if decide (o <= x < o + size) then byte_of v (x - o) else get8 d x) size H);
    unfold st_le; cbn [Z.eqb Pos.eqb]; [| apply get8_put16 | apply get8_put32 | apply get8_put64].
  case_decide; [| apply get8_put8_ne; lia]. replace x with o by lia. by rewrite get8_put8, Z.sub_diag.
Qed.

Lemma ld_le_word size d o : access_size size -> ld_le size d o = le_word (get8 d) o (Z.to_nat size).
Proof.
  intros H. apply (access_cases (fun size => ld_le size d o = le_word (get8 d) o (Z.to_nat size)) size H); unfold ld_le; cbn [Z.eqb Pos.eqb];
    [change (Z.to_nat 1) with 1%nat | change (Z.to_nat 2) with 2%nat | change (Z.to_nat 4) with 4%nat | change (Z.to_nat 8) with 8%nat];
    cbn [le_word]; unfold get64, get32, get16; rewrite <- ?Z.add_assoc; change (2 + 1) with 3; change (4 + 1) with 5; change (4 + 2) with 6; change (4 + 3) with 7; change (1 + 1) with 2; change (1 + 2) with 3; change (1 + 3) with 4; change (1 + 4) with 5; change (1 + 5) with 6; change (1 + 6) with 7; lia.
Qed.

Lemma word_ext f g a b n : (forall k, 0 <= k < Z.of_nat n -> f (a + k) = g (b + k)) -> le_word f a n = le_word g b n.
Proof.
  revert a b. induction n as [|n IH]; intros a b H; [done |]. cbn [le_word]. f_equal; [pose proof (H 0) as H0; rewrite !Z.add_0_r in H0; apply H0; lia |].
  f_equal. apply IH. intros k Hk. rewrite <- !Z.add_assoc. apply H. lia.
Qed.

Lemma word_bytes v a n : le_word (fun x => byte_of v (x - a)) a n = v mod 2 ^ (8 * Z.of_nat n).
Proof.
  revert v a. induction n as [|n IH]; intros v a; cbn [le_word]; [by rewrite Z.mod_1_r |].
  rewrite (word_ext _ (fun x => byte_of (Z.shiftr v 8) (x - a)) (a + 1) a).
  - rewrite IH, Z.sub_diag. unfold byte_of. replace (8 * Z.of_nat (S n)) with (8 + 8 * Z.of_nat n) by lia. rewrite (split_low v 8 (8 * Z.of_nat n)) by lia. done.
  - intros k Hk. unfold byte_of. rewrite Z.shiftr_shiftr by lia. do 2 f_equal. lia.
Qed.

(** ** Copying local pages *)

Lemma page_key a : Z.shiftr a 12 = a / 4096.
Proof. by rewrite Z.shiftr_div_pow2 by lia. Qed.

Lemma page_same pg a b : a / 4096 = b / 4096 -> nvkvm_fb_page pg a = nvkvm_fb_page pg b.
Proof. intros H. unfold nvkvm_fb_page. by rewrite !page_key, H. Qed.

Lemma div_page src k x : src mod 4096 = 0 -> 0 <= x < 4096 -> (src + 4096 * k + x) / 4096 = (src + 4096 * k) / 4096 /\ (src + 4096 * k + x) mod 4096 = x.
Proof.
  intros Hs Hx. pose proof (Z.div_mod src 4096 ltac:(lia)). replace (src + 4096 * k) with ((src / 4096 + k) * 4096) by lia.
  rewrite Z.div_add_l, Z.div_mul, (Z.add_comm (_ * _)), Z.mod_add, (Z.div_small x), (Z.mod_small x) by lia. lia.
Qed.

(** What a copy leaves at an address: the byte of the local page, if there is one. *)
Definition over_page (pg : gmap Z bytes) (a old : Z) : Z := from_option (fun p => get8 p (a mod 4096)) old (nvkvm_fb_page pg a).

Lemma get8_write_at d o l x b : octets l -> o <= x -> l !! Z.to_nat (x - o) = Some b -> get8 (write_bytes d o l) x = b.
Proof. intros Hl Hx Hb. rewrite <- (get8_write_in d o l (Z.to_nat (x - o)) b Hl Hb). f_equal. lia. Qed.

Lemma get8_copy_page pg src dst k m x : src mod 4096 = 0 -> 0 <= src + 4096 * k -> src + 4096 * k < 2 ^ 64 ->
  get8 (copy_page pg src dst k m) x =
  if decide (dst + 4096 * k <= x < dst + 4096 * k + 4096) then over_page pg (src + (x - dst)) (get8 m x) else get8 m x.
Proof.
  intros Hs H0 H1. unfold copy_page. rewrite u64_small by lia. case_decide as Hx.
  - destruct (div_page src k (x - dst - 4096 * k) Hs) as [Hd Hm]; [lia |]. replace (src + 4096 * k + (x - dst - 4096 * k)) with (src + (x - dst)) in Hd, Hm by lia.
    unfold over_page. rewrite (page_same _ _ _ Hd), Hm. clear Hd Hm Hs. destruct (nvkvm_fb_page pg (src + 4096 * k)) as [gp|]; [| done]. cbn [from_option].
    apply get8_write_at; [apply octets_read | lia |]. rewrite lookup_read by lia. f_equal. f_equal. lia.
  - destruct (nvkvm_fb_page pg _); [| done]. apply get8_write_ne. rewrite length_read_bytes. lia.
Qed.

Lemma get8_copy_pages pg src dst len m x : src mod 4096 = 0 -> len mod 4096 = 0 -> 0 <= src -> 0 <= len -> src + len < 2 ^ 64 ->
  get8 (copy_pages pg src dst len m) x = if decide (dst <= x < dst + len) then over_page pg (src + (x - dst)) (get8 m x) else get8 m x.
Proof.
  intros Hs Hl H0 H1 H2. apply Z.mod_divide in Hl as [q ->]; [| lia]. unfold copy_pages, steps.
  replace ((q * 4096 + 4095) / 4096) with q by (rewrite Z.div_add_l by lia; change (4095 / 4096) with 0; lia).
  pose (I := fun k m' => get8 m' x = if decide (dst <= x < dst + k * 4096) then over_page pg (src + (x - dst)) (get8 m x) else get8 m x).
  assert (I (0 + Z.of_nat (Z.to_nat q)) (sweep (copy_page pg src dst) 0 (Z.to_nat q) m)) as HI.
  - apply sweep_ind; [subst I; cbn beta; rewrite decide_False; [done | lia] |]. intros k t Hk HI. subst I; cbn beta in *.
    rewrite get8_copy_page, HI by lia. clear HI. repeat case_decide; try done; lia.
  - subst I; cbn beta in HI. rewrite HI. rewrite Z2Nat.id by lia. done.
Qed.

(** ** The memory the guest sees *)

Definition qva_of (e : emul) (oi : Z) : option Z := if oi <? 0 then None else f_objs e !! Z.to_nat oi ≫= go_qva.

(** Where the bytes of an address are in host memory, if they are. *)
Definition resolve (e : emul) (a : Z) : option Z :=
  match fbback_hit e a with
  | Some b => Some (host_qva b + (a - fb_base b))
  | None =>
      let i := gpga_scan (f_gpga e) a in
      if i <? 0 then None
      else g ← f_gpga e !! Z.to_nat i; q ← qva_of e (gp_obj_idx g); Some (q + gp_off g + (a - gp_base g))
  end.

(** The byte at an address of video memory. *)
Definition fbyte (e : emul) (a : Z) : Z :=
  match resolve e a with
  | Some p => get8 (f_host e) p
  | None => over_page (f_pages e) a 0
  end.

(** The host mappings, by their place in the two tables. *)
Record view := View { v_base : Z; v_size : Z; v_host : Z }.

Definition view_at (e : emul) (k : nat + nat) : option view :=
  match k with
  | inl i => (fun b => View (fb_base b) (fb_size b) (host_qva b)) <$> f_fbback e !! i
  | inr i => g ← f_gpga e !! i; q ← qva_of e (gp_obj_idx g); Some (View (gp_base g) (gp_size g) (q + gp_off g))
  end.

Definition apart (b1 s1 b2 s2 : Z) : Prop := b1 + s1 <= b2 \/ b2 + s2 <= b1.

(** Ranges are whole pages of the address space, those of objects do not overlap, an
    object is behind one range, and no two mappings share host memory. *)
Record wf (e : emul) : Prop := {
  w_n : Z.of_nat (length (f_gpga e)) <= 2048;
  w_ranges : ranges_ok (f_gpga e);
  w_idx : idx_ok (f_gpga e) (f_idx e);
  w_gpga : Forall (fun g => gp_base g mod 4096 = 0 /\ gp_size g mod 4096 = 0 /\ 0 <= gp_off g) (f_gpga e);
  w_fbback : Forall (fun b => 0 <= fb_base b /\ 0 <= fb_size b /\ fb_base b + fb_size b < 2 ^ 64 /\ fb_base b mod 4096 = 0 /\ fb_size b mod 4096 = 0) (f_fbback e);
  w_refs : Forall (fun g => gp_obj_idx g < Z.of_nat (length (f_objs e))) (f_gpga e);
  w_one : NoDup (gp_obj_idx <$> f_gpga e);
  w_fit : forall g o, g ∈ f_gpga e -> f_objs e !! Z.to_nat (gp_obj_idx g) = Some o -> 0 <= gp_obj_idx g -> gp_off g + gp_size g <= go_size o;
  w_views : forall k1 k2 v1 v2, view_at e k1 = Some v1 -> view_at e k2 = Some v2 -> k1 <> k2 -> apart (v_host v1) (v_size v1) (v_host v2) (v_size v2) }.

(** The next mapping of the host lies apart from those in use, as [mmap] documents. *)
Definition fresh_map (h : host_ops) (e : emul) : Prop :=
  forall size q k v, host_mmap h (next_maph e) size = Some q -> view_at e k = Some v -> apart q size (v_host v) (v_size v).

(** An address behind an object whose processor view is deferred. *)
Definition deferred (e : emul) (a : Z) : Prop :=
  exists g o, g ∈ f_gpga e /\ gp_base g <= a < gp_base g + gp_size g /\ 0 <= gp_obj_idx g /\ f_objs e !! Z.to_nat (gp_obj_idx g) = Some o /\ go_qva o = None /\ go_promote o = 1.

(** An address whose byte is the guest's: written to a local page, or mapped, or not
    behind a deferred object. *)
Definition settled (e : emul) (a : Z) : Prop := is_Some (nvkvm_fb_page (f_pages e) a) \/ is_Some (resolve e a) \/ ~ deferred e a.

Lemma scan_entry l a : ranges_ok l ->
  (gpga_scan l a = -1 /\ forall i g, l !! i = Some g -> ~ (gp_base g <= a < gp_base g + gp_size g)) \/
  (exists i g, gpga_scan l a = Z.of_nat i /\ l !! i = Some g /\ gp_base g <= a < gp_base g + gp_size g).
Proof.
  intros Hr. unfold gpga_scan. destruct (scan _ 0 _) as [j|] eqn:E; cbn [default from_option id].
  - right. apply scan_Some in E as (Hj & Hin & _). destruct (lookup_lt_is_Some_2 l (Z.to_nat j)) as [g Hg]; [lia |]. exists (Z.to_nat j), g.
    destruct (proj1 Hr j) as (H1 & H2 & H3); [lia |]. unfold in_span, gbase, gsize in *. rewrite Hg in *. cbn [from_option] in *. nv_bool. rewrite u64_small in * by lia.
    change (default (-1) (Some j)) with j; split_and!; [lia | done | lia | lia].
  - left. split; [done |]. intros i g Hg Hin. rewrite scan_None in E. pose proof (lookup_lt_Some _ _ _ Hg). specialize (E (Z.of_nat i)). destruct (proj1 Hr (Z.of_nat i)) as (H1 & H2 & H3); [lia |].
    unfold in_span, gbase, gsize in *. rewrite Nat2Z.id, Hg in *. cbn [from_option] in *. rewrite u64_small in E by lia. rewrite (proj2 (Z.leb_le _ _)), (proj2 (Z.ltb_lt _ _)) in E by lia.
    by specialize (E ltac:(lia)).
Qed.

Lemma scan_at l a i g : ranges_ok l -> l !! i = Some g -> gp_base g <= a < gp_base g + gp_size g -> gpga_scan l a = Z.of_nat i.
Proof.
  intros Hr Hg Hin. pose proof (lookup_lt_Some _ _ _ Hg). apply gpga_scan_is; [done | lia |]. destruct (proj1 Hr (Z.of_nat i)) as (H1 & H2 & H3); [lia |].
  unfold in_span, gbase, gsize in *. rewrite Nat2Z.id, Hg in *. cbn [from_option] in *. rewrite u64_small by lia. rewrite (proj2 (Z.leb_le _ _)), (proj2 (Z.ltb_lt _ _)) by lia. done.
Qed.

Lemma fbback_hit_Some e a b : wf e -> fbback_hit e a = Some b -> exists i, f_fbback e !! i = Some b /\ fb_base b <= a < fb_base b + fb_size b.
Proof.
  intros Hw H. apply List.find_some in H as [Hin H]. apply list_elem_of_In, list_elem_of_lookup in Hin as [i Hi]. exists i. split; [done |].
  pose proof (Forall_lookup_1 _ _ _ _ (w_fbback e Hw) Hi) as Hb. cbn in Hb. unfold in_span in H. nv_bool. rewrite u64_small in * by lia. done.
Qed.

(** A host address belongs to the mapping it was found through. *)
Lemma resolve_view e a p : wf e -> resolve e a = Some p ->
  exists k v, view_at e k = Some v /\ v_base v <= a < v_base v + v_size v /\ p = v_host v + (a - v_base v).
Proof.
  intros Hw. unfold resolve. destruct (fbback_hit e a) as [b|] eqn:Eb.
  - intros [= <-]. apply fbback_hit_Some in Eb as (i & Hi & Hin); [| done]. exists (inl i), (View (fb_base b) (fb_size b) (host_qva b)). cbn. by rewrite Hi.
  - destruct (scan_entry _ a (w_ranges e Hw)) as [[-> _]|(i & g & -> & Hg & Hin)]; cbn zeta; [done |]. rewrite (proj2 (Z.ltb_ge _ _)), Nat2Z.id, Hg by lia. cbn.
    destruct (qva_of e _) as [q|] eqn:Eq; [| done]. intros [= <-]. exists (inr i), (View (gp_base g) (gp_size g) (q + gp_off g)). cbn. rewrite Hg. cbn. by rewrite Eq.
Qed.

Lemma resolve_inj e a b p : wf e -> resolve e a = Some p -> resolve e b = Some p -> a = b.
Proof.
  intros Hw Ha Hb. apply resolve_view in Ha as (k1 & v1 & H1 & Hi1 & ->); [| done]. apply resolve_view in Hb as (k2 & v2 & H2 & Hi2 & E); [| done].
  destruct (decide (k1 = k2)) as [->|Hne]; [simplify_eq; lia |]. destruct (w_views e Hw _ _ _ _ H1 H2 Hne); lia.
Qed.

Lemma same_page_inside base size a b : base mod 4096 = 0 -> size mod 4096 = 0 -> a / 4096 = b / 4096 -> base <= a < base + size -> base <= b < base + size.
Proof.
  intros Hb Hs Hab Hin. pose proof (Z.div_mod base 4096 ltac:(lia)). pose proof (Z.div_mod size 4096 ltac:(lia)). pose proof (Z.div_mod a 4096 ltac:(lia)). pose proof (Z.div_mod b 4096 ltac:(lia)).
  pose proof (Z.mod_pos_bound a 4096 ltac:(lia)). pose proof (Z.mod_pos_bound b 4096 ltac:(lia)). lia.
Qed.

Lemma inside_page base size a b : 0 <= base -> 0 <= size -> base + size < 2 ^ 64 -> base mod 4096 = 0 -> size mod 4096 = 0 -> a / 4096 = b / 4096 -> in_span a base size = in_span b base size.
Proof.
  intros H0 H1 H2 Hb Hs Hab. unfold in_span. rewrite u64_small by lia. apply eq_true_iff_eq. rewrite !andb_true_iff, !Z.leb_le, !Z.ltb_lt.
  split; apply same_page_inside; done.
Qed.

Lemma find_ext_in {A} (p q : A -> bool) l : Forall (fun x => p x = q x) l -> List.find p l = List.find q l.
Proof. induction 1 as [|x l Hx _ IH]; [done |]. cbn. by rewrite Hx, IH. Qed.

(** The addresses of one page are resolved alike. *)
Lemma resolve_page e a b : wf e -> a / 4096 = b / 4096 -> resolve e b = (fun p => p + (b - a)) <$> resolve e a.
Proof.
  intros Hw Hab. unfold resolve. assert (fbback_hit e b = fbback_hit e a) as ->.
  { apply find_ext_in. eapply Forall_impl; [exact (w_fbback e Hw) |]. cbn. intros x (?&?&?&?&?). by apply inside_page. }
  destruct (fbback_hit e a) as [x|]; cbn; [f_equal; lia |]. assert (gpga_scan (f_gpga e) b = gpga_scan (f_gpga e) a) as ->.
  { unfold gpga_scan. f_equal. apply scan_ext. intros k Hk. destruct (proj1 (w_ranges e Hw) k) as (H1 & H2 & H3); [lia |]. destruct (lookup_lt_is_Some_2 (f_gpga e) (Z.to_nat k)) as [g Hg]; [lia |].
    pose proof (Forall_lookup_1 _ _ _ _ (w_gpga e Hw) Hg) as Ha. cbn in Ha. unfold gbase, gsize in *. rewrite Hg in *. cbn [from_option] in *. apply inside_page; try lia; try done. }
  destruct (_ <? 0); [done |]. destruct (f_gpga e !! _) as [g|]; cbn; [| done]. destruct (qva_of e _); cbn; [f_equal; lia | done].
Qed.

(** ** What serving an access changes *)

(** The tables and the local pages are as before, and so is every settled byte. *)
Record bytes_kept (e e' : emul) : Prop := {
  k_fbback : f_fbback e' = f_fbback e;
  k_gpga : f_gpga e' = f_gpga e;
  k_pages : f_pages e' = f_pages e;
  k_walk : f_in_walk e' = f_in_walk e;
  k_sem : f_semval e' = f_semval e /\ f_sempage e' = f_sempage e;
  k_bytes : forall b, settled e b -> fbyte e' b = fbyte e b;
  k_settled : forall b, settled e b -> settled e' b }.

Lemma kept_refl e : bytes_kept e e.
Proof. by constructor. Qed.

Lemma kept_trans e1 e2 e3 : bytes_kept e1 e2 -> bytes_kept e2 e3 -> bytes_kept e1 e3.
Proof.
  intros [A1 A2 A3 A4 [A5 A5'] A6 A7] [B1 B2 B3 B4 [B5 B5'] B6 B7]. constructor; try congruence; [split; congruence | |].
  - intros b Hb. rewrite B6, A6; auto.
  - auto.
Qed.

Lemma fbback_hit_ext e e' a : f_fbback e' = f_fbback e -> fbback_hit e' a = fbback_hit e a.
Proof. unfold fbback_hit. by intros ->. Qed.

Lemma resolve_ext e e' : f_fbback e' = f_fbback e -> f_gpga e' = f_gpga e -> (forall j, qva_of e' j = qva_of e j) -> forall a, resolve e' a = resolve e a.
Proof.
  intros Hb Hg Hq a. unfold resolve. rewrite (fbback_hit_ext _ _ a Hb), Hg. destruct (fbback_hit e a); [done |]. cbn zeta. destruct (_ <? 0); [done |].
  destruct (f_gpga e !! _) as [g|]; cbn; [| done]. by rewrite Hq.
Qed.

Lemma view_at_ext e e' : f_fbback e' = f_fbback e -> f_gpga e' = f_gpga e -> (forall j, qva_of e' j = qva_of e j) -> forall k, view_at e' k = view_at e k.
Proof.
  intros Hb Hg Hq [i|i]; cbn [view_at]; [by rewrite Hb |]. rewrite Hg. destruct (f_gpga e !! i) as [g|]; cbn; [| done]. by rewrite Hq.
Qed.

(** Objects keep their sizes, and a deferred one was so before. *)
Definition objs_step (os os' : list gpu_obj) : Prop :=
  length os' = length os /\ forall k o', os' !! k = Some o' -> exists o, os !! k = Some o /\ go_size o' = go_size o /\ (go_qva o' = None -> go_promote o' = 1 -> go_qva o = None /\ go_promote o = 1).

Lemma objs_step_refl os : objs_step os os.
Proof. split; [done |]. intros k o H. eauto. Qed.

Lemma objs_step_set os k o q p : os !! k = Some o -> (q <> None \/ p <> 1) -> objs_step os (<[k := GObj q (go_size o) (go_client o) (go_hmem o) (go_gr_va o) p]> os).
Proof.
  intros Ho Hq. split; [apply length_insert |]. intros j o' H. destruct (decide (j = k)) as [->|].
  - rewrite list_lookup_insert_eq in H by (by eapply lookup_lt_Some). injection H as <-. exists o. split_and!; [done | done |]. cbn. intros -> ->. destruct Hq; done.
  - rewrite list_lookup_insert_ne in H by done. eauto.
Qed.

Lemma deferred_step e e' a : f_gpga e' = f_gpga e -> objs_step (f_objs e) (f_objs e') -> deferred e' a -> deferred e a.
Proof.
  intros Hg [_ Hs] (g & o' & Hin & Ha & H0 & Ho & Hq & Hp). rewrite Hg in Hin. destruct (Hs _ _ Ho) as (o & Ho' & _ & H). destruct (H Hq Hp). exists g, o. done.
Qed.

Lemma wf_step e e' : wf e -> f_fbback e' = f_fbback e -> f_gpga e' = f_gpga e -> idx_ok (f_gpga e) (f_idx e') -> objs_step (f_objs e) (f_objs e') ->
  (forall k1 k2 v1 v2, view_at e' k1 = Some v1 -> view_at e' k2 = Some v2 -> k1 <> k2 -> apart (v_host v1) (v_size v1) (v_host v2) (v_size v2)) -> wf e'.
Proof.
  intros [] Hb Hg Hi [Hl Ho] Hv. constructor; rewrite ?Hb, ?Hg, ?Hl; try done.
  intros g o' Hin Hlk H0. destruct (Ho _ _ Hlk) as (o & Hl' & -> & _). eauto.
Qed.

(** A change that maps nothing. *)
Lemma quiet_step e e' : wf e -> f_fbback e' = f_fbback e -> f_gpga e' = f_gpga e -> f_pages e' = f_pages e -> f_host e' = f_host e -> f_in_walk e' = f_in_walk e ->
  f_semval e' = f_semval e /\ f_sempage e' = f_sempage e ->
  idx_ok (f_gpga e) (f_idx e') -> objs_step (f_objs e) (f_objs e') -> (forall j, qva_of e' j = qva_of e j) -> wf e' /\ bytes_kept e e'.
Proof.
  intros Hw Hb Hg Hp Hh Hi Hs Hx Ho Hq. pose proof (resolve_ext e e' Hb Hg Hq) as Hr. pose proof (view_at_ext e e' Hb Hg Hq) as Hv. split.
  - apply (wf_step e); try done. intros k1 k2 v1 v2. rewrite !Hv. apply (w_views e Hw).
  - constructor; try done; intros b.
    + intros _. unfold fbyte. by rewrite Hr, Hp, Hh.
    + unfold settled. rewrite Hr, Hp. intros [?|[?|Hd]]; [tauto | tauto |]. right; right. intros H. by apply Hd, (deferred_step e e').
Qed.

Lemma replay_one (f : m2_gpga -> bytes -> bytes) l g m : NoDup (gp_obj_idx <$> l) -> g ∈ l ->
  foldl (fun m x => if gp_obj_idx x =? gp_obj_idx g then f x m else m) m l = f g m.
Proof.
  assert (forall l m, gp_obj_idx g ∉ (gp_obj_idx <$> l) -> foldl (fun m x => if gp_obj_idx x =? gp_obj_idx g then f x m else m) m l = m) as Hnone.
  { clear. induction l as [|x l IH]; intros m Hn; [done |]. cbn in *. apply not_elem_of_cons in Hn as [Hx Hn]. rewrite (proj2 (Z.eqb_neq _ _)) by congruence. by apply IH. }
  revert m. induction l as [|x l IH]; intros m Hnd Hin; [by apply elem_of_nil in Hin |]. cbn in Hnd |- *. apply NoDup_cons in Hnd as [Hx Hnd]. apply elem_of_cons in Hin as [->|Hin].
  - rewrite Z.eqb_refl. by apply Hnone.
  - rewrite (proj2 (Z.eqb_neq _ _)); [by apply IH |]. intros E. apply Hx. rewrite E. by apply list_elem_of_fmap_2.
Qed.

(** A deferred object gets its mapping, with the local pages of its range copied in. *)
Section mapped.
Context (e e' : emul) (i : nat) (g : m2_gpga) (o : gpu_obj) (q : Z).
Context (Hw : wf e) (Hg : f_gpga e !! i = Some g) (H0 : 0 <= gp_obj_idx g) (Ho : f_objs e !! Z.to_nat (gp_obj_idx g) = Some o) (Hn : go_qva o = None) (Hp1 : go_promote o = 1).
Context (Ef : f_fbback e' = f_fbback e) (Eg : f_gpga e' = f_gpga e) (Ex : f_idx e' = f_idx e) (Ep : f_pages e' = f_pages e) (Ew : f_in_walk e' = f_in_walk e).
Context (Es : f_semval e' = f_semval e /\ f_sempage e' = f_sempage e).
Context (Eo : f_objs e' = <[Z.to_nat (gp_obj_idx g) := GObj (Some q) (go_size o) (go_client o) (go_hmem o) (go_gr_va o) 0]> (f_objs e)).
Context (Eh : f_host e' = copy_pages (f_pages e) (gp_base g) (q + gp_off g) (gp_size g) (f_host e)).
Context (Hfr : forall k v, view_at e k = Some v -> apart q (go_size o) (v_host v) (v_size v)).

Lemma mapped_qva j : qva_of e' j = if decide (j = gp_obj_idx g) then Some q else qva_of e j.
Proof.
  unfold qva_of. rewrite Eo. case_decide as E.
  - subst j. rewrite (proj2 (Z.ltb_ge _ _)) by lia. rewrite list_lookup_insert_eq by (by eapply lookup_lt_Some). done.
  - destruct (Z.ltb_spec j 0); [done |]. rewrite list_lookup_insert_ne by lia. done.
Qed.

Lemma mapped_entry j g' : f_gpga e !! j = Some g' -> gp_obj_idx g' = gp_obj_idx g -> j = i /\ g' = g.
Proof.
  intros Hj E. assert (j = i) as ->; [| split; [done | congruence]].
  apply (NoDup_lookup (gp_obj_idx <$> f_gpga e) _ _ (gp_obj_idx g)); [exact (w_one e Hw) | |]; rewrite list_lookup_fmap; [rewrite Hj | rewrite Hg]; cbn; congruence.
Qed.

Lemma mapped_view k v : view_at e' k = Some v -> view_at e k = Some v \/ (k = inr i /\ v = View (gp_base g) (gp_size g) (q + gp_off g)).
Proof.
  destruct k as [j|j]; cbn [view_at]; [rewrite Ef; by left |]. rewrite Eg. destruct (f_gpga e !! j) as [g'|] eqn:Ej; cbn; [| done]. rewrite mapped_qva. case_decide as E; [| by left].
  destruct (mapped_entry _ _ Ej E) as [-> ->]. cbn. intros [= <-]. by right.
Qed.

Lemma mapped_fit : 0 <= gp_off g /\ 0 < gp_size g /\ gp_off g + gp_size g <= go_size o /\ 0 <= gp_base g /\ gp_base g + gp_size g < 2 ^ 64 /\ gp_base g mod 4096 = 0 /\ gp_size g mod 4096 = 0.
Proof.
  pose proof (lookup_lt_Some _ _ _ Hg). destruct (proj1 (w_ranges e Hw) (Z.of_nat i)) as (H1 & H2 & H3); [lia |]. unfold gbase, gsize in *. rewrite Nat2Z.id, Hg in *. cbn [from_option] in *.
  destruct (Forall_lookup_1 _ _ _ _ (w_gpga e Hw) Hg) as (?&?&?). pose proof (w_fit e Hw g o (list_elem_of_lookup_2 _ _ _ Hg) Ho H0). split_and!; done.
Qed.

(** Mapped memory elsewhere is not touched by the copy. *)
Lemma mapped_other k v x : view_at e k = Some v -> v_host v <= x < v_host v + v_size v -> get8 (f_host e') x = get8 (f_host e) x.
Proof.
  intros Hv Hx. destruct mapped_fit as (?&?&?&?&?&?&?). rewrite Eh, get8_copy_pages by (done || lia). rewrite decide_False; [done |]. destruct (Hfr _ _ Hv); lia.
Qed.

Lemma mapped_keeps b p : resolve e b = Some p -> resolve e' b = Some p /\ get8 (f_host e') p = get8 (f_host e) p.
Proof.
  intros Hr. split.
  - revert Hr. unfold resolve. rewrite (fbback_hit_ext _ _ b Ef), Eg. destruct (fbback_hit e b); [done |]. cbn zeta. destruct (_ <? 0); [done |].
    destruct (f_gpga e !! Z.to_nat (gpga_scan (f_gpga e) b)) as [g'|]; cbn; [| done]. rewrite mapped_qva. case_decide as E; [| done]. rewrite E. unfold qva_of. rewrite Ho. cbn. rewrite Hn. by destruct (_ <? 0).
  - destruct (resolve_view _ _ _ Hw Hr) as (k & v & Hv & Hb & ->). apply (mapped_other k v); [done | lia].
Qed.

(** An address that was not mapped is one of the object's now, or still is not. *)
Lemma mapped_new b : resolve e b = None -> resolve e' b = None \/
  (gp_base g <= b < gp_base g + gp_size g /\ resolve e' b = Some (q + gp_off g + (b - gp_base g))).
Proof.
  unfold resolve. rewrite (fbback_hit_ext _ _ b Ef), Eg. destruct (fbback_hit e b); [done |]. cbn zeta.
  destruct (scan_entry _ b (w_ranges e Hw)) as [[-> _]|(j & g' & -> & Hj & Hin)]; [by left |]. rewrite (proj2 (Z.ltb_ge _ _)), Nat2Z.id, Hj by lia. cbn. rewrite mapped_qva.
  case_decide as E; [| by left]. destruct (mapped_entry _ _ Hj E) as [-> ->]. intros _. by right.
Qed.

Lemma mapped_step : wf e' /\ bytes_kept e e'.
Proof.
  assert (objs_step (f_objs e) (f_objs e')) as Hos by (rewrite Eo; apply objs_step_set; [done | by left]). split.
  - apply (wf_step e); try done; [rewrite Ex; apply (w_idx e Hw) |]. intros k1 k2 v1 v2 H1 H2 Hne. destruct mapped_fit as (?&?&?&?&?&?&?).
    destruct (mapped_view _ _ H1) as [V1|[-> ->]], (mapped_view _ _ H2) as [V2|[-> ->]]; [by apply (w_views e Hw k1 k2) | | | done]; cbn [v_host v_size].
    + destruct (Hfr _ _ V1); unfold apart; lia.
    + destruct (Hfr _ _ V2); unfold apart; lia.
  - constructor; try done; intros b Hb.
    + destruct (resolve e b) as [p|] eqn:Er; [destruct (mapped_keeps _ _ Er) as [Hr Hh]; unfold fbyte; by rewrite Hr, Er |].
      destruct (mapped_new _ Er) as [Hr|[Hin Hr]]; unfold fbyte; rewrite Hr, Er; [by rewrite Ep |].
      destruct mapped_fit as (?&?&?&?&?&?&?). rewrite Eh, get8_copy_pages by (done || lia). rewrite decide_True by lia. replace (gp_base g + _) with b by lia.
      destruct Hb as [[pg Hb]|[[? Hb]|Hb]]; [unfold over_page; by rewrite Hb | congruence |]. destruct Hb. exists g, o. split_and!; try done; [by eapply list_elem_of_lookup_2 | lia | lia].
    + unfold settled in *. rewrite Ep. destruct Hb as [?|[[p Hb]|Hb]]; [by left | right; left; destruct (mapped_keeps _ _ Hb) as [-> _]; done |].
      right; right. intros Hd. by apply Hb, (deferred_step e e').
Qed.
End mapped.

(** ** Accesses refine one array of bytes *)

Section access.
Context (h : host_ops).

Lemma and_snoc (A B C : Prop) : A /\ B -> C -> A /\ B /\ C.
Proof. tauto. Qed.

Lemma promote_step e i g o : wf e -> fresh_map h e -> f_gpga e !! i = Some g -> 0 <= gp_obj_idx g -> f_objs e !! Z.to_nat (gp_obj_idx g) = Some o -> go_qva o = None -> go_promote o = 1 ->
  let e' := fst (nvkvm_m2_promote_gpu_only h (gp_obj_idx g) e) in wf e' /\ bytes_kept e e' /\ f_gr e' = f_gr e.
Proof.
  intros Hw Hf Hg H0 Ho Hq Hp. cbn zeta. unfold nvkvm_m2_promote_gpu_only. rewrite (proj2 (Z.ltb_ge _ _)), Ho, Hq, Hp by lia. cbn [Z.eqb Pos.eqb negb orb].
  rewrite bool_decide_false by (intros [? [=]]). cbn [orb].
  assert (exists e1 r, (if dev_of (go_client o) e =? 0 then (e, None) else nvkvm_m2_host_map_existing_vidmem h (go_client o) (dev_of (go_client o) e) (go_hmem o) (go_size o) e) = (e1, r) /\
    e1 = set_next (f_maph_next e1) (f_databuf_next e) e /\ (r = None \/ exists q, r = Some q /\ host_mmap h (next_maph e) (go_size o) = Some q)) as (e1 & r & -> & -> & Hr).
  { destruct (_ =? 0); [exists e, None; split_and!; [done | by destruct e | by left] |]. unfold nvkvm_m2_host_map_existing_vidmem. eexists _, _. split_and!; [reflexivity | done |].
    destruct (negb _); [by left |]. destruct (negb _); [by left |]. destruct (host_mmap h _ (go_size o)) eqn:E; [right; eauto | by left]. }
  destruct Hr as [->|(q & -> & Hm)]; cbn [fst set_objs set_mem set_next f_objs f_gpga f_pages f_host].
  - apply and_snoc; [| done]. apply quiet_step; try done; [apply (w_idx e Hw) | apply objs_step_set; [done | by right] |].
    intros j. unfold qva_of. cbn [set_objs f_objs]. destruct (Z.ltb_spec j 0); [done |]. destruct (decide (Z.to_nat j = Z.to_nat (gp_obj_idx g))) as [->|]; [| by rewrite list_lookup_insert_ne].
    rewrite list_lookup_insert_eq, Ho by (by eapply lookup_lt_Some). cbn. done.
  - apply and_snoc; [| done]. apply (mapped_step e _ i g o q); try done.
    + cbn. apply (replay_one (fun x m => copy_pages (f_pages e) (gp_base x) (q + gp_off x) (gp_size x) m)); [apply (w_one e Hw) | by eapply list_elem_of_lookup_2].
    + intros k v Hv. by apply (Hf _ _ k).
Qed.

Lemma overlay_step a e : wf e -> fresh_map h e -> 0 <= a ->
  let r := nvkvm_fb_host_overlay h a e in wf (fst r) /\ bytes_kept e (fst r) /\ f_gr (fst r) = f_gr e /\ snd r = resolve (fst r) a.
Proof.
  intros Hw Hf Ha. cbn zeta. unfold nvkvm_fb_host_overlay. destruct (fbback_hit e a) as [b|] eqn:Eb.
  { cbn [fst snd]. split_and!; [done | apply kept_refl | done |]. unfold resolve. by rewrite Eb. }
  pose proof (find_exact (f_gpga e) (f_idx e) a (w_n e Hw) (w_ranges e Hw) (w_idx e Hw) Ha) as Hfind. cbn zeta in Hfind. destruct (nvkvm_m2_gpga_find (f_gpga e) a (f_idx e)) as [x j].
  cbn [fst snd] in Hfind. destruct Hfind as (-> & Hx & _ & _).
  destruct (quiet_step e (set_idx x e)) as [Hw1 Hk1]; try done; [intros _ _; exact Hx | apply objs_step_refl |]. set (e1 := set_idx x e) in *.
  assert (fresh_map h e1) as Hf1 by exact Hf. assert (f_gr e1 = f_gr e) as Hgr by done. assert (fbback_hit e1 a = None) as Eb1 by exact Eb. assert (f_gpga e = f_gpga e1) as Eg by done.
  rewrite Eg. clearbody e1. clear Hf Eb Hx Eg Hw.
  destruct (scan_entry _ a (w_ranges e1 Hw1)) as [[Es _]|(i & g & Es & Hg & Hin)].
  { rewrite Es. cbn [Z.ltb Z.compare fst snd]. split_and!; [done | done | done |]. unfold resolve. by rewrite Eb1, Es. }
  assert (forall e2, bytes_kept e1 e2 -> resolve e2 a = q ← qva_of e2 (gp_obj_idx g); Some (q + gp_off g + (a - gp_base g))) as Hres.
  { intros e2 Hk2. unfold resolve. rewrite (fbback_hit_ext _ _ a (k_fbback _ _ Hk2)), Eb1, (k_gpga _ _ Hk2), Es. cbn zeta. rewrite (proj2 (Z.ltb_ge _ _)), Nat2Z.id, Hg by lia. done. }
  rewrite Es, (proj2 (Z.ltb_ge _ _)), Nat2Z.id, Hg by lia. destruct (Z.ltb_spec (gp_obj_idx g) 0) as [Hneg|Hpos]; cbn [fst snd].
  { split_and!; [done | done | done |]. rewrite (Hres e1 (kept_refl e1)). unfold qva_of. by rewrite (proj2 (Z.ltb_lt _ _)). }
  destruct (f_objs e1 !! Z.to_nat (gp_obj_idx g)) as [o|] eqn:Eo; cbn [fst snd].
  - assert (forall e2, wf e2 /\ bytes_kept e1 e2 /\ f_gr e2 = f_gr e1 -> wf e2 /\ bytes_kept e e2 /\ f_gr e2 = f_gr e /\
      (q ← f_objs e2 !! Z.to_nat (gp_obj_idx g) ≫= go_qva; Some (q + gp_off g + (a - gp_base g))) = resolve e2 a) as Hfin.
    { intros e2 (H1 & H2 & H3). split_and!; [done | by eapply kept_trans | congruence |]. rewrite (Hres e2 H2). unfold qva_of. by rewrite (proj2 (Z.ltb_ge _ _)). }
    apply Hfin. destruct (negb _ && _ && _) eqn:Ec; [| split_and!; [done | apply kept_refl | done]]. nv_bool. apply (promote_step e1 i g o); try done.
    destruct (go_qva o); [| done]. by rewrite bool_decide_true in * by eauto.
  - split_and!; [done | done | done |]. rewrite (Hres e1 (kept_refl e1)). unfold qva_of. by rewrite (proj2 (Z.ltb_ge _ _)), Eo.
Qed.

Lemma overlay_if_any_step a e : wf e -> fresh_map h e -> 0 <= a ->
  let r := overlay_if_any h a e in wf (fst r) /\ bytes_kept e (fst r) /\ f_gr (fst r) = f_gr e /\ snd r = resolve (fst r) a.
Proof.
  intros Hw Hf Ha. unfold overlay_if_any. destruct (f_fbback e) eqn:Ef; [destruct (f_gpga e) eqn:Eg |]; [| by apply overlay_step | by apply overlay_step].
  cbn. split_and!; [done | apply kept_refl | done |]. unfold resolve, fbback_hit. by rewrite Ef, Eg.
Qed.

(** An access that stays in its page. *)
Definition in_page (a size : Z) : Prop := access_size size /\ 0 <= a /\ a mod 4096 + size <= 4096.

Lemma access_pos size : access_size size -> 0 < size.
Proof. intros H. apply (access_cases (fun s => 0 < s) size H); lia. Qed.

Lemma in_page_byte a size b : in_page a size -> a <= b < a + size -> a / 4096 = b / 4096 /\ b mod 4096 = a mod 4096 + (b - a).
Proof.
  intros (Hs & H0 & Hp) Hb. pose proof (Z.div_mod a 4096 ltac:(lia)) as E. pose proof (Z.mod_pos_bound a 4096 ltac:(lia)) as Hm.
  replace b with (a / 4096 * 4096 + (a mod 4096 + (b - a))) at 1 2 by lia. rewrite Z.div_add_l, (Z.div_small (_ + _)) by lia. split; [lia |].
  rewrite Z.add_comm, Z.mod_add by lia. apply Z.mod_small. lia.
Qed.

Lemma same_page_range a b size : in_page a size -> a / 4096 = b / 4096 -> (a mod 4096 <= b mod 4096 < a mod 4096 + size <-> a <= b < a + size) /\ b mod 4096 - a mod 4096 = b - a.
Proof. intros _ H. pose proof (Z.div_mod a 4096 ltac:(lia)). pose proof (Z.div_mod b 4096 ltac:(lia)). lia. Qed.

Lemma land_page a : Z.land a 0xfff = a mod 4096.
Proof. apply (land_pow2_minus_1 a 12). lia. Qed.

Lemma word_zero a n : le_word (fun _ => 0) a n = 0.
Proof. revert a. induction n as [|n IH]; intros a; cbn [le_word]; [done |]. rewrite IH. lia. Qed.

(** The value loaded is that of the bytes. *)
Lemma load_bytes e a size : wf e -> in_page a size ->
  match resolve e a with
  | Some p => ld_le size (f_host e) p
  | None => from_option (fun p => ld_le size p (Z.land a 0xfff)) 0 (nvkvm_fb_page (f_pages e) a)
  end = le_word (fbyte e) a (Z.to_nat size).
Proof.
  intros Hw Ha. assert (forall k, 0 <= k < Z.of_nat (Z.to_nat size) -> fbyte e (a + k) = match resolve e a with Some p => get8 (f_host e) (p + k)
    | None => from_option (fun p => get8 p (a mod 4096 + k)) 0 (nvkvm_fb_page (f_pages e) a) end) as Hb.
  { intros k Hk. pose proof (access_pos size (proj1 Ha)). destruct (in_page_byte a size (a + k) Ha) as [H1 H2]; [lia |]. unfold fbyte. rewrite (resolve_page e a (a + k) Hw H1).
    destruct (resolve e a) as [p|]; cbn; [f_equal; lia |]. unfold over_page. rewrite <- (page_same _ _ _ H1), H2. destruct (nvkvm_fb_page _ a); cbn; [f_equal; lia | done]. }
  destruct (resolve e a) as [p|]; [rewrite ld_le_word by apply Ha; apply word_ext; intros k Hk; by rewrite Hb |].
  rewrite land_page. destruct (nvkvm_fb_page (f_pages e) a) as [pg|]; cbn [from_option] in *; [rewrite ld_le_word by apply Ha; apply word_ext; intros k Hk; by rewrite Hb |].
  rewrite (word_ext _ (fun _ => 0) a a); [| done]. by rewrite word_zero.
Qed.
(** A change of memory alone. *)
Lemma set_mem_wf pg m e : wf e -> wf (set_mem pg m e).
Proof. intros Hw. apply (wf_step e); try done; [apply (w_idx e Hw) | apply objs_step_refl | apply (w_views e Hw)]. Qed.

Definition stored (e : emul) (a val size : Z) (hp : option Z) : emul :=
  match hp with
  | Some p => set_mem (f_pages e) (st_le size (f_host e) p val) e
  | None => set_mem (<[Z.shiftr a 12 := st_le size (default ∅ (nvkvm_fb_page (f_pages e) a)) (Z.land a 0xfff) val]> (f_pages e)) (f_host e) e
  end.

Lemma store_mapped e a val size p b : wf e -> in_page a size -> resolve e a = Some p ->
  fbyte (stored e a val size (Some p)) b = if decide (a <= b < a + size) then byte_of val (b - a) else fbyte e b.
Proof.
  intros Hw Ha Hp. unfold fbyte. change (resolve (stored e a val size (Some p)) b) with (resolve e b). cbn [stored set_mem f_host f_pages]. case_decide as Hb.
  - destruct (in_page_byte a size b Ha Hb) as [H1 _]. rewrite (resolve_page e a b Hw H1), Hp. cbn. rewrite get8_st_le by apply Ha. rewrite decide_True by lia. f_equal. lia.
  - destruct (resolve e b) as [p'|] eqn:Eb; [| done]. rewrite get8_st_le by apply Ha. rewrite decide_False; [done |]. intros Hin. apply Hb.
    enough (a + (p' - p) = b) by lia. apply (resolve_inj e _ _ p' Hw); [| done]. destruct (in_page_byte a size (a + (p' - p)) Ha) as [H1 _]; [lia |].
    rewrite (resolve_page e a _ Hw H1), Hp. cbn. f_equal. lia.
Qed.

Lemma store_local e a val size b : wf e -> in_page a size -> resolve e a = None ->
  fbyte (stored e a val size None) b = if decide (a <= b < a + size) then byte_of val (b - a) else fbyte e b.
Proof.
  intros Hw Ha Hp. unfold fbyte. change (resolve (stored e a val size None) b) with (resolve e b). cbn [stored set_mem f_host f_pages].
  destruct (decide (a / 4096 = b / 4096)) as [Hpg|Hpg].
  - rewrite (resolve_page e a b Hw Hpg), Hp. cbn. unfold over_page. rewrite <- !(page_same _ _ _ Hpg). unfold nvkvm_fb_page at 1. rewrite lookup_insert_eq. cbn [from_option].
    rewrite land_page, get8_st_le by apply Ha. destruct (same_page_range a b size Ha Hpg) as [Hiff ->]. destruct (decide (a <= b < a + size)) as [Hb|Hb].
    + rewrite decide_True by tauto. done.
    + rewrite decide_False by tauto. destruct (nvkvm_fb_page (f_pages e) a); [done |]. cbn. unfold get8. by rewrite aget_empty.
  - rewrite decide_False by (intros Hb; by destruct (in_page_byte a size b Ha Hb)). destruct (resolve e b); [done |]. unfold over_page, nvkvm_fb_page. rewrite lookup_insert_ne; [done |]. by rewrite !page_key.
Qed.

Lemma stored_settled e a val size b : wf e -> in_page a size -> settled e b \/ a <= b < a + size -> settled (stored e a val size (resolve e a)) b.
Proof.
  intros Hw Ha Hb. destruct (resolve e a) as [p|] eqn:Ea.
  - destruct Hb as [Hb|Hb]; [exact Hb |]. right; left. change (is_Some (resolve e b)). destruct (in_page_byte a size b Ha Hb) as [H1 _]. rewrite (resolve_page e a b Hw H1), Ea. by eexists.
  - unfold settled. change (resolve (stored e a val size None) b) with (resolve e b). change (deferred (stored e a val size None) b) with (deferred e b).
    destruct (decide (a / 4096 = b / 4096)) as [H1|H1]; cbn [stored set_mem f_pages]; unfold nvkvm_fb_page; rewrite !page_key.
    + left. rewrite H1, lookup_insert_eq. by eexists.
    + rewrite lookup_insert_ne by done. destruct Hb as [Hb|Hb]; [unfold settled, nvkvm_fb_page in Hb; by rewrite page_key in Hb |]. by destruct (in_page_byte a size b Ha Hb).
Qed.

Lemma read_step a size e : wf e -> fresh_map h e -> in_page a size ->
  let r := nvkvm_fb_read h a size e in
  wf (fst r) /\ bytes_kept e (fst r) /\ (sentinel e a = false -> snd r = le_word (fbyte (fst r)) a (Z.to_nat size)).
Proof.
  intros Hw Hf Ha. cbn zeta. unfold nvkvm_fb_read. destruct (sentinel e a); [by split_and!; [| apply kept_refl |] |].
  destruct (overlay_if_any_step a e Hw Hf) as (Hw' & Hk & _ & Hr); [apply Ha |]. destruct (overlay_if_any h a e) as [e' hp]. cbn [fst snd] in *. split_and!; [done | done |].
  intros _. rewrite Hr. by apply load_bytes.
Qed.

Lemma write_step a val size e : wf e -> fresh_map h e -> in_page a size ->
  let e' := nvkvm_fb_write h a val size e in
  wf e' /\ (forall b, settled e b \/ a <= b < a + size -> fbyte e' b = (if decide (a <= b < a + size) then byte_of val (b - a) else fbyte e b) /\ settled e' b) /\
  f_gr e' = gr_arm a (f_gr e) /\ f_semval e' = f_semval e /\ f_sempage e' = f_sempage e.
Proof.
  intros Hw Hf Ha. cbn zeta. unfold nvkvm_fb_write. set (e0 := set_gr _ e).
  assert (wf e0) as Hw0 by (apply (wf_step e); try done; [apply (w_idx e Hw) | apply objs_step_refl | apply (w_views e Hw)]).
  destruct (overlay_if_any_step a e0 Hw0) as (Hw1 & Hk & Hgr & Hr); [exact Hf | apply Ha |]. destruct (overlay_if_any h a e0) as [e1 hp]. cbn [fst snd] in *.
  change (match hp with Some p => _ | None => _ end) with (stored e1 a val size hp). subst hp.
  split_and!; [by destruct (resolve e1 a); apply set_mem_wf | | by destruct (resolve e1 a) | by destruct (resolve e1 a); apply (k_sem _ _ Hk) | by destruct (resolve e1 a); apply (k_sem _ _ Hk)].
  intros b Hb. split; [| apply stored_settled; [done | done |]; destruct Hb as [Hb|Hb]; [left; by apply (k_settled _ _ Hk) | by right]].
  assert (fbyte (stored e1 a val size (resolve e1 a)) b = if decide (a <= b < a + size) then byte_of val (b - a) else fbyte e1 b) as ->.
  { destruct (resolve e1 a) as [p|] eqn:Ea; [by apply store_mapped | by apply store_local]. }
  case_decide; [done |]. destruct Hb as [Hb|Hb]; [| done]. by apply (k_bytes _ _ Hk).
Qed.
End access.

(** ** Registering an object *)

Section register.
Context (h : host_ops).

Lemma round_up_spec v k : 0 <= k < 64 -> 0 <= v -> v + (2 ^ k - 1) < 2 ^ 64 ->
  let r := mask_down (u64 (v + (2 ^ k - 1))) (2 ^ k) in v <= r < v + 2 ^ k /\ exists q, r = q * 2 ^ k.
Proof.
  intros Hk Hv Hb. cbn zeta. assert (0 < 2 ^ k) by (apply Z.pow_pos_nonneg; lia). rewrite u64_small, mask_down_pow2 by lia.
  pose proof (Z.mod_pos_bound (v + (2 ^ k - 1)) (2 ^ k) ltac:(lia)). split; [lia |]. exists ((v + (2 ^ k - 1)) / 2 ^ k). pose proof (Z.div_mod (v + (2 ^ k - 1)) (2 ^ k) ltac:(lia)). lia.
Qed.

(** The state after an object is entered: [q] is its mapping, if it has one. *)
Section entered.
Context (e e' : emul) (gpga asize tsize : Z) (q : option Z) (o : gpu_obj).
Context (Hw : wf e) (Ha : gpga mod 4096 = 0) (H0 : 0 <= gpga) (H1 : 0 < tsize) (H2 : tsize <= asize) (H3 : gpga + asize < 2 ^ 64) (Hta : tsize mod 4096 = 0) (Haa : asize mod 4096 = 0).
Context (Hn : Z.of_nat (length (f_gpga e)) < 2048) (Hap : Forall (fun g => apart gpga asize (gp_base g) (gp_size g)) (f_gpga e)).
Context (Ef : f_fbback e' = f_fbback e) (Eg : f_gpga e' = f_gpga e ++ [Gpga gpga asize (Z.of_nat (length (f_objs e))) 0]) (Ep : f_pages e' = f_pages e).
Context (Eo : f_objs e' = f_objs e ++ [o]) (Oq : go_qva o = q) (Os : go_size o = asize) (Ex : m2_gpga_idx_dirty (f_idx e') = true).
Context (Eh : f_host e' = from_option (fun q => copy_pages (f_pages e) gpga q tsize (f_host e)) (f_host e) q).
Context (Hfr : forall k v p, q = Some p -> view_at e k = Some v -> apart p asize (v_host v) (v_size v)).

Lemma entered_qva j : j < Z.of_nat (length (f_objs e)) -> qva_of e' j = qva_of e j.
Proof. intros Hj. unfold qva_of. destruct (Z.ltb_spec j 0); [done |]. rewrite Eo, lookup_app_l by lia. done. Qed.

Lemma entered_qva_new : qva_of e' (Z.of_nat (length (f_objs e))) = q.
Proof. unfold qva_of. rewrite (proj2 (Z.ltb_ge _ _)), Eo, Nat2Z.id, list_lookup_middle by lia. done. Qed.

Lemma old_ref i g : f_gpga e !! i = Some g -> gp_obj_idx g < Z.of_nat (length (f_objs e)).
Proof. intros Hg. exact (Forall_lookup_1 _ _ _ _ (w_refs e Hw) Hg). Qed.

Lemma entered_ranges : ranges_ok (f_gpga e').
Proof.
  destruct (w_ranges e Hw) as [R1 R2]. rewrite Eg.
  set (l := f_gpga e) in *. set (g := Gpga _ _ _ _). assert (forall i, 0 <= i < Z.of_nat (length l) -> gbase (l ++ [g]) i = gbase l i /\ gsize (l ++ [g]) i = gsize l i) as Hold.
  { intros i Hi. unfold gbase, gsize. rewrite lookup_app_l by lia. done. }
  assert (gbase (l ++ [g]) (Z.of_nat (length l)) = gpga /\ gsize (l ++ [g]) (Z.of_nat (length l)) = asize) as [Hb Hs].
  { unfold gbase, gsize. rewrite Nat2Z.id, list_lookup_middle by done. done. }
  assert (forall i, 0 <= i < Z.of_nat (length l) -> apart gpga asize (gbase l i) (gsize l i)) as Hd.
  { intros i Hi. destruct (lookup_lt_is_Some_2 l (Z.to_nat i)) as [x Hx]; [lia |]. pose proof (Forall_lookup_1 _ _ _ _ Hap Hx). unfold gbase, gsize. by rewrite Hx. }
  unfold ranges_ok. rewrite length_app. cbn [length]. unfold apart in Hd. split.
  - intros i Hi. destruct (decide (i = Z.of_nat (length l))) as [->|]; [lia |]. destruct (Hold i) as [-> ->]; [lia |]. apply R1. lia.
  - intros i j Hi Hj Hne. destruct (decide (i = Z.of_nat (length l))) as [->|], (decide (j = Z.of_nat (length l))) as [->|]; [done | | |].
    + destruct (Hold j) as [-> ->]; [lia |]. specialize (Hd j). lia.
    + destruct (Hold i) as [-> ->]; [lia |]. specialize (Hd i). lia.
    + destruct (Hold i) as [-> ->]; [lia |]. destruct (Hold j) as [-> ->]; [lia |]. apply R2; lia.
Qed.

Lemma entered_view k v : view_at e' k = Some v -> view_at e k = Some v \/ (k = inr (length (f_gpga e)) /\ exists p, q = Some p /\ v = View gpga asize p).
Proof.
  destruct k as [j|j]; cbn [view_at]; [rewrite Ef; by left |]. rewrite Eg. destruct (decide (j < length (f_gpga e))%nat) as [Hj|Hj].
  - rewrite lookup_app_l by done. destruct (f_gpga e !! j) as [g|] eqn:E; cbn; [| done]. rewrite (entered_qva _ (old_ref _ _ E)). by left.
  - destruct (decide (j = length (f_gpga e))) as [->|]; [| rewrite lookup_ge_None_2 by (rewrite length_app; cbn; lia); done].
    rewrite list_lookup_middle by done. cbn [mbind option_bind gp_obj_idx gp_off gp_base gp_size]. rewrite entered_qva_new. destruct q as [p|]; cbn; [| done]. intros [= <-]. right. rewrite Z.add_0_r. eauto.
Qed.

Lemma entered_wf : wf e'.
Proof.
  constructor.
  - rewrite Eg, length_app. cbn. lia.
  - apply entered_ranges.
  - intros Hd. congruence.
  - rewrite Eg. apply Forall_app. split; [apply (w_gpga e Hw) |]. apply Forall_singleton. cbn. split_and!; [done | done | lia].
  - rewrite Ef. apply (w_fbback e Hw).
  - rewrite Eg, Eo, length_app. apply Forall_app. split; [| apply Forall_singleton; cbn; lia]. eapply Forall_impl; [exact (w_refs e Hw) |]. cbn. intros; lia.
  - rewrite Eg, fmap_app. apply NoDup_app. split_and!; [apply (w_one e Hw) | | apply NoDup_singleton].
    intros x (g & -> & Hg)%list_elem_of_fmap Hx%list_elem_of_singleton. apply list_elem_of_lookup in Hg as [i Hg]. apply old_ref in Hg. cbn in Hx. lia.
  - intros g o' Hin Ho' Hp. rewrite Eg in Hin. apply elem_of_app in Hin as [Hin|Hin%list_elem_of_singleton].
    + pose proof Hin as [i Hi]%list_elem_of_lookup. apply old_ref in Hi. rewrite Eo, lookup_app_l in Ho' by lia. by apply (w_fit e Hw g).
    + subst g. cbn [gp_obj_idx gp_off gp_size] in *. rewrite Eo, Nat2Z.id, list_lookup_middle in Ho' by done. injection Ho' as <-. lia.
  - intros k1 k2 v1 v2 V1 V2 Hne. destruct (entered_view _ _ V1) as [U1|(-> & p1 & E1 & ->)], (entered_view _ _ V2) as [U2|(-> & p2 & E2 & ->)]; [by apply (w_views e Hw k1 k2) | | | done]; cbn [v_host v_size].
    + destruct (Hfr _ _ _ E2 U1); unfold apart; lia.
    + destruct (Hfr _ _ _ E1 U2); unfold apart; lia.
Qed.

(** Addresses outside the new range are resolved as before. *)
Lemma entered_scan b : ~ (gpga <= b < gpga + asize) -> gpga_scan (f_gpga e') b = gpga_scan (f_gpga e) b.
Proof.
  intros Hb. destruct (scan_entry _ b (w_ranges e Hw)) as [[-> Hno]|(i & g & -> & Hg & Hin)].
  - destruct (scan_entry _ b entered_ranges) as [[-> _]|(i & g & _ & Hg & Hin)]; [done |]. exfalso. rewrite Eg in Hg. apply lookup_app_Some in Hg as [Hg|[_ Hg]]; [by apply (Hno i g) |].
    apply list_lookup_singleton_Some in Hg as [_ <-]. cbn in Hin. lia.
  - apply (scan_at _ b i g); [apply entered_ranges | rewrite Eg; by apply lookup_app_l_Some | done].
Qed.

Lemma entered_resolve b : ~ (gpga <= b < gpga + asize) \/ is_Some (fbback_hit e b) -> resolve e' b = resolve e b.
Proof.
  intros Hb. unfold resolve. rewrite (fbback_hit_ext _ _ b Ef). destruct (fbback_hit e b) as [x|] eqn:E; [done |]. destruct Hb as [Hb|[? [=]]]. rewrite (entered_scan b Hb). cbn zeta.
  destruct (scan_entry _ b (w_ranges e Hw)) as [[-> _]|(i & g & -> & Hg & Hin)]; [done |]. rewrite (proj2 (Z.ltb_ge _ _)), Nat2Z.id, Eg by lia. rewrite (lookup_app_l_Some _ _ _ _ Hg), Hg. cbn.
  by rewrite (entered_qva _ (old_ref _ _ Hg)).
Qed.

Lemma entered_in b : gpga <= b < gpga + asize -> fbback_hit e b = None -> resolve e b = None /\ resolve e' b = (fun p => p + (b - gpga)) <$> q.
Proof.
  intros Hb Hf. unfold resolve. rewrite (fbback_hit_ext _ _ b Ef), Hf. cbn zeta. split.
  - destruct (scan_entry _ b (w_ranges e Hw)) as [[-> _]|(i & g & _ & Hg & Hin)]; [done |]. pose proof (Forall_lookup_1 _ _ _ _ Hap Hg) as [?|?]; lia.
  - rewrite (scan_at _ b (length (f_gpga e)) (Gpga gpga asize (Z.of_nat (length (f_objs e))) 0)); [| apply entered_ranges | by rewrite Eg, list_lookup_middle | done].
    rewrite (proj2 (Z.ltb_ge _ _)), Nat2Z.id, Eg, list_lookup_middle by (done || lia). cbn [mbind option_bind gp_obj_idx gp_off gp_base]. rewrite entered_qva_new. destruct q as [p|]; cbn; [f_equal; lia | done].
Qed.

Lemma entered_host b p : resolve e b = Some p -> get8 (f_host e') p = get8 (f_host e) p.
Proof.
  intros Hr. destruct (resolve_view _ _ _ Hw Hr) as (k & v & Hv & Hb & ->). rewrite Eh. destruct q as [q'|] eqn:Eq; [| done]. cbn [from_option]. rewrite get8_copy_pages by (done || lia).
  rewrite decide_False; [done |]. destruct (Hfr _ _ _ eq_refl Hv); lia.
Qed.

Lemma entered_bytes b : ~ (gpga <= b < gpga + asize) \/ (b < gpga + tsize /\ is_Some (nvkvm_fb_page (f_pages e) b)) \/ q = None -> fbyte e' b = fbyte e b.
Proof.
  intros Hb. destruct (decide (gpga <= b < gpga + asize)) as [Hin|Hout]; [destruct (fbback_hit e b) as [x|] eqn:Ehit |].
  2: { destruct (entered_in b Hin Ehit) as [Hr Hr']. unfold fbyte. rewrite Hr, Hr'. destruct q as [p|]; cbn; [| by rewrite Ep].
       destruct Hb as [Hb|[[Hb [pg Hpg]]|[=]]]; [done |]. rewrite Eh. cbn [from_option]. rewrite get8_copy_pages by (done || lia). rewrite decide_True by lia.
       replace (gpga + (p + (b - gpga) - p)) with b by lia. unfold over_page. by rewrite Hpg. }
  all: assert (resolve e' b = resolve e b) as Hr by (apply entered_resolve; eauto).
  all: unfold fbyte; rewrite Hr, Ep; destruct (resolve e b) as [p|] eqn:E; [| done]; by apply (entered_host b).
Qed.

Lemma entered_backed b : q <> None -> gpga <= b < gpga + asize -> is_Some (resolve e' b).
Proof.
  intros Hq Hb. destruct (fbback_hit e b) as [x|] eqn:E; [rewrite entered_resolve by eauto; unfold resolve; rewrite E; by eexists |].
  destruct (entered_in b Hb E) as [_ ->]. destruct q; [by eexists | done].
Qed.
End entered.

(** What the calls to the host give: nothing, an object, or an object and its mapping. *)
Lemma obj_alloc_cases (go : bool) client dev hMem size databuf e :
  exists m r, (if go then (set_next (f_maph_next e) databuf e, if nvkvm_m2_host_alloc_vidmem_gpu_only h client dev hMem size then Some None else None)
     else let '(e, q) := nvkvm_m2_host_alloc_map_vidmem h client dev hMem size (set_next (f_maph_next e) databuf e) in (e, Some <$> q)) = (set_next m databuf e, r) /\
    (r = None \/ (go = true /\ r = Some None) \/ exists q, r = Some (Some q) /\ host_mmap h (next_maph e) size = Some q).
Proof.
  destruct go.
  - eexists _, _. split; [reflexivity |]. destruct (nvkvm_m2_host_alloc_vidmem_gpu_only _ _ _ _ _); [right; by left | by left].
  - unfold nvkvm_m2_host_alloc_map_vidmem. destruct (negb _); [eexists _, _; split; [reflexivity | by left] |]. destruct (negb _); [eexists _, _; split; [reflexivity | by left] |].
    unfold nvkvm_m2_host_map_existing_vidmem. change (next_maph (set_next (f_maph_next e) databuf e)) with (next_maph e). eexists _, _. split; [reflexivity |]. destruct (negb _); [by left |]. destruct (negb _); [by left |].
    destruct (host_mmap h _ size) as [q|] eqn:E; [right; right; eauto | by left].
Qed.

Lemma set_next_wf m d e : wf e -> wf (set_next m d e).
Proof. intros Hw. apply (wf_step e); try done; [apply (w_idx e Hw) | apply objs_step_refl | apply (w_views e Hw)]. Qed.
End register.

(** ** Probing an address *)

(** An address with host memory is reported as such, with the table that serves it. *)
Lemma classify_backed e a : wf e -> is_Some (resolve e a) -> nvkvm_dp_classify_fb e a = match fbback_hit e a with Some _ => 1 | None => 2 end.
Proof.
  intros Hw. unfold resolve, nvkvm_dp_classify_fb. destruct (fbback_hit e a); [done |]. cbn zeta.
  destruct (scan_entry _ a (w_ranges e Hw)) as [[-> _]|(i & g & E & Hg & Hin)]; [by intros [? [=]] |]. rewrite E, (proj2 (Z.ltb_ge _ _)), Nat2Z.id, Hg by lia. cbn.
  unfold qva_of. destruct (Z.ltb_spec (gp_obj_idx g) 0); [by intros [? [=]] |]. intros _.
  destruct (List.find _ (f_gpga e)) as [g'|] eqn:Ef.
  - apply List.find_some in Ef as [Hin' Hi]. apply list_elem_of_In, list_elem_of_lookup in Hin' as [j Hj]. pose proof (lookup_lt_Some _ _ _ Hj).
    assert (Z.of_nat i = Z.of_nat j) as Eij by (rewrite <- E; apply gpga_scan_is; [apply (w_ranges e Hw) | lia | unfold gbase, gsize; by rewrite Nat2Z.id, Hj]).
    apply Nat2Z.inj in Eij as <-. replace g' with g by congruence. pose proof (Forall_lookup_1 _ _ _ _ (w_refs e Hw) Hg) as Hr. cbn in Hr.
    rewrite (proj2 (Z.ltb_ge _ _)), (proj2 (Z.leb_gt _ _)) by lia. done.
  - exfalso. pose proof (lookup_lt_Some _ _ _ Hg). pose proof (List.find_none _ _ Ef g (proj1 (list_elem_of_In _ _) (list_elem_of_lookup_2 _ _ _ Hg))) as Hno. cbn beta in Hno.
    destruct (proj1 (w_ranges e Hw) (Z.of_nat i)) as (H1 & H2 & H3); [lia |]. unfold gbase, gsize in *. rewrite Nat2Z.id, Hg in *. cbn [from_option] in *. unfold in_span in Hno. rewrite u64_small in Hno by lia.
    rewrite (proj2 (Z.leb_le _ _)), (proj2 (Z.ltb_lt _ _)) in Hno by lia. done.
Qed.

(** The window shows consecutive addresses from a multiple of 64 KiB. *)
Lemma pramin_window w off : NVKVM_PRAMIN_BASE <= off < NVKVM_PRAMIN_BASE + 0x100000 ->
  nvkvm_pramin_fb_addr w off = (w mod 2 ^ 24) * 0x10000 + (off - NVKVM_PRAMIN_BASE).
Proof.
  intros Ho. unfold nvkvm_pramin_fb_addr. change 0xFFFFFF with (2 ^ 24 - 1). rewrite land_pow2_minus_1, Z.shiftl_mul_pow2 by lia.
  pose proof (Z.mod_pos_bound w (2 ^ 24) ltac:(lia)). rewrite (u64_small (off - _)) by lia. rewrite u64_small; [done |]. lia.
Qed.

(** ** Properties *)

(** Lookups one after another. *)
Fixpoint lookups (l : list m2_gpga) (addrs : list Z) (x : gpga_idx) : gpga_idx * list Z :=
  match addrs with
  | [] => (x, [])
  | a :: addrs' => let '(x, i) := nvkvm_m2_gpga_find l a x in let '(x, r) := lookups l addrs' x in (x, i :: r)
  end.

(** C13. [gpga_index_exact]: over ranges that do not overlap, the binary search answers every
    lookup as the linear scan does, whatever state the index was left in, and the audit
    counts no mismatch. *)
Theorem gpga_index_exact l addrs x : Z.of_nat (length l) <= 2048 -> ranges_ok l -> idx_ok l x -> Forall (fun a => 0 <= a) addrs ->
  let r := lookups l addrs x in
  snd r = map (gpga_scan l) addrs /\ idx_ok l (fst r) /\ m2_gpga_idx_mismatch (fst r) = m2_gpga_idx_mismatch x.
Proof.
  intros Hn Hr Hx Ha. cbn zeta. revert x Hx. induction Ha as [|a addrs Ha _ IH]; intros x Hx; [done |]. cbn [lookups map].
  pose proof (find_exact l x a Hn Hr Hx Ha) as Hf. cbn zeta in Hf. destruct (nvkvm_m2_gpga_find l a x) as [y i]. cbn [fst snd] in Hf. destruct Hf as (-> & Hs & _ & Hm).
  destruct (IH y) as (H1 & H2 & H3); [intros _ _; exact Hs |]. destruct (lookups l addrs y) as [z r]. cbn [fst snd] in *. split_and!; [by rewrite H1 | done | congruence].
Qed.

Inductive access := Rd (a size : Z) | Wr (a val size : Z).

Fixpoint run (h : host_ops) (l : list access) (e : emul) : emul * list Z :=
  match l with
  | [] => (e, [])
  | Rd a size :: l' => let '(e, v) := nvkvm_fb_read h a size e in let '(e, r) := run h l' e in (e, v :: r)
  | Wr a val size :: l' => run h l' (nvkvm_fb_write h a val size e)
  end.

(** The same accesses on one array of bytes. *)
Fixpoint flat_run (l : list access) (m : Z -> Z) : list Z :=
  match l with
  | [] => []
  | Rd a size :: l' => le_word m a (Z.to_nat size) :: flat_run l' m
  | Wr a val size :: l' => flat_run l' (fun b => if decide (a <= b < a + size) then byte_of val (b - a) else m b)
  end.

(** New mappings are apart from those in use at every point of the run. *)
Fixpoint fresh_along (h : host_ops) (l : list access) (e : emul) : Prop :=
  fresh_map h e /\
  match l with
  | [] => True
  | Rd a size :: l' => fresh_along h l' (fst (nvkvm_fb_read h a size e))
  | Wr a val size :: l' => fresh_along h l' (nvkvm_fb_write h a val size e)
  end.

(** Every access stays in its page; what is read was settled at the start or has been
    written since, and is not on the page of the injected value. *)
Fixpoint plain (e : emul) (known : Z -> Prop) (l : list access) : Prop :=
  match l with
  | [] => True
  | Rd a size :: l' => in_page a size /\ sentinel e a = false /\ (forall b, a <= b < a + size -> known b) /\ plain e known l'
  | Wr a _ size :: l' => in_page a size /\ plain e (fun b => known b \/ a <= b < a + size) l'
  end.

Lemma plain_sem e e' l : f_semval e' = f_semval e -> f_sempage e' = f_sempage e -> forall known, plain e known l -> plain e' known l.
Proof.
  intros Hv Hp. induction l as [|[a size|a v size] l IH]; intros known; cbn [plain]; [done | |]; [unfold sentinel; rewrite Hv, Hp | ]; intuition auto.
Qed.

Lemma accesses_flat h l : forall e m known, wf e -> fresh_along h l e -> plain e known l -> (forall b, known b -> settled e b /\ fbyte e b = m b) ->
  wf (fst (run h l e)) /\ snd (run h l e) = flat_run l m.
Proof.
  induction l as [|x l IH]; intros e m known Hw Hf Hp Hm; [done |]. destruct x as [a size|a val size]; cbn [run flat_run fresh_along plain] in *; destruct Hf as [Hf Hfl].
  - destruct Hp as (Ha & Hs & Hb & Hp). destruct (read_step h a size e Hw Hf Ha) as (Hw' & Hk & Hv). specialize (Hv Hs). destruct (nvkvm_fb_read h a size e) as [e' v]. cbn [fst snd] in *.
    assert (forall b, known b -> settled e' b /\ fbyte e' b = m b) as Hm' by (intros b Hkn; destruct (Hm b Hkn) as [H1 H2]; rewrite (k_bytes _ _ Hk b H1); split; [by apply (k_settled _ _ Hk) | done]).
    destruct (IH e' m known Hw' Hfl) as [H1 H2]; [by apply (plain_sem e); [apply (k_sem _ _ Hk) | apply (k_sem _ _ Hk) |] | done |].
    destruct (run h l e') as [e2 r]. cbn [fst snd] in *. split; [done |]. rewrite H2, Hv. f_equal. apply word_ext. intros k Hkr. apply Hm', Hb. pose proof (access_pos size (proj1 Ha)). lia.
  - destruct Hp as [Ha Hp]. destruct (write_step h a val size e Hw Hf Ha) as (Hw' & Hk & _ & Hs1 & Hs2).
    apply (IH _ _ (fun b => known b \/ a <= b < a + size)); [done | done | by apply (plain_sem e) |]. intros b Hkn.
    destruct (Hk b) as [-> H2]; [destruct Hkn as [Hkn|]; [left; by apply Hm | by right] |]. split; [done |]. case_decide; [done |]. destruct Hkn as [Hkn|]; [by apply Hm | done].
Qed.

(** C12. [video_memory_refines]: on a well-formed state ([wf]: ranges are whole pages, those of
    objects do not overlap, each object is behind one range and contains it, no two
    mappings share host memory), a sequence of reads and writes of 1, 2, 4 or 8 bytes
    returns what it would on one array of bytes, although bytes live in mapped host
    memory, in objects and in local pages, and although a touch moves an object's bytes
    from the pages to a new mapping on the way; and the state stays well formed.  It is
    assumed that no access crosses a 4 KiB page, that each byte read was written before
    in the sequence or, at its start, is in a local page, is mapped or is not behind an
    object whose mapping is deferred, that no read is on the page of the injected
    semaphore value, and that the host's new mappings lie apart from those in use.
    Overlapping registrations leave such states ([registration_loses_bytes]). *)
Theorem video_memory_refines h l e : wf e -> fresh_along h l e -> plain e (settled e) l ->
  wf (fst (run h l e)) /\ snd (run h l e) = flat_run l (fbyte e).
Proof. intros Hw Hf Hp. by apply (accesses_flat h l e (fbyte e) (settled e)). Qed.

(** C27. [register_keeps_bytes]: registering an object over a range that overlaps no other
    keeps every byte outside the range and every byte of the run the guest had written,
    keeps the tables well formed, and without the deferral gives every address of the
    range host memory; when it fails nothing the guest sees has changed. *)
Theorem register_keeps_bytes h client va gpga size go e :
  wf e -> fresh_map h e -> gpga mod 4096 = 0 -> 0 <= gpga -> 0 < size -> gpga + size + 0x10000 <= 2 ^ 64 ->
  let asize := mask_down (u64 (size + 0xffff)) 0x10000 in
  let tsize := mask_down (u64 (size + 0xfff)) 0x1000 in
  Forall (fun g => apart gpga asize (gp_base g) (gp_size g)) (f_gpga e) ->
  let r := nvkvm_m2_gpga_obj_ex h client va gpga size go e in
  wf (fst r) /\ f_pages (fst r) = f_pages e /\
  (snd r = -1 /\ (forall b, fbyte (fst r) b = fbyte e b) \/
   snd r = Z.of_nat (length (f_objs e)) /\
   (forall b, ~ (gpga <= b < gpga + asize) \/ (b < gpga + tsize /\ is_Some (nvkvm_fb_page (f_pages e) b)) -> fbyte (fst r) b = fbyte e b) /\
   (go = false -> forall b, gpga <= b < gpga + asize -> is_Some (resolve (fst r) b))).
Proof.
  intros Hw Hf Ha H0 Hs Hb asize tsize Hap. cbn zeta.
  destruct (round_up_spec size 16) as [Has [qa Hqa]]; [lia | lia | cbn; lia |]. destruct (round_up_spec size 12) as [Hts [qt Hqt]]; [lia | lia | cbn; lia |].
  change (mask_down (u64 (size + (2 ^ 16 - 1))) (2 ^ 16)) with asize in *. change (mask_down (u64 (size + (2 ^ 12 - 1))) (2 ^ 12)) with tsize in *.
  assert (forall m, wf (set_next m (u32 (f_databuf_next e + 1)) e) /\ forall b, fbyte (set_next m (u32 (f_databuf_next e + 1)) e) b = fbyte e b) as Hnext by (intros m; split; [by apply set_next_wf | done]).
  unfold nvkvm_m2_gpga_obj_ex. destruct ((_ <=? _) || (_ <=? _)) eqn:Efull; [by split_and!; [| | left] |]. nv_bool. destruct ((_ =? 0) || (size =? 0)); [by split_and!; [| | left] |].
  fold asize tsize. set (dev := dev_of client e). set (hMem := Z.lor _ _). set (go' := go && _).
  destruct (obj_alloc_cases h go' client dev hMem asize (u32 (f_databuf_next e + 1)) e) as (m & r & -> & Hr).
  destruct r as [q|]; [| cbn [fst snd]; split_and!; [apply Hnext | done | left; split; [done | apply Hnext]]]. destruct (if negb _ then _ else _) as [[mrc mst] outva]. cbn [fst snd].
  match goal with |- wf ?x /\ _ => set (e' := x) end.
  assert (forall k v p, q = Some p -> view_at e k = Some v -> apart p asize (v_host v) (v_size v)) as Hfr.
  { intros k v p -> Hv. destruct Hr as [[=]|[[_ [=]]|(p' & [= <-] & Hm)]]. by apply (Hf _ _ k). }
  assert (tsize <= asize /\ tsize mod 4096 = 0 /\ asize mod 4096 = 0) as (Hle & Htm & Ham).
  { change (2 ^ 16) with (16 * 4096) in *. change (2 ^ 12) with 4096 in *. rewrite Hqa, Hqt, Z.mul_assoc, !Z.mod_mul by lia. lia. }
  set (o := GObj q asize client hMem (if (mrc =? 0) && (mst =? 0) && (outva =? va) then va else 0) (if go' then 1 else 0)).
  split_and!; [apply (entered_wf e e' gpga asize tsize q o); (done || lia) | done | right; split_and!; [done | |]].
  - intros b Hb'. apply (entered_bytes e e' gpga asize tsize q o); first [done | lia | tauto].
  - intros Hgo b Hin. apply (entered_backed e e' gpga asize tsize q o); try done; try lia. destruct Hr as [[=]|[[Hg _]|(p & [= ->] & _)]]; [| done]. subst go go'. done.
Qed.

(** ** Examples *)

(** A host that grants everything and maps at addresses far apart. *)
Definition ex_host : host_ops :=
  Host true (fun _ _ _ _ => 0) (fun _ => true) (fun _ _ _ _ _ => true) (fun maph size => if size <=? 2 ^ 32 then Some (2 ^ 40 + maph * 2 ^ 33) else None)
    (fun _ => 0xd0) (fun _ _ _ _ _ va => (0, 0, va)).

Definition ex_idx (audit : Z) : gpga_idx := Idx ∅ 0 true audit 0.

(** A device without objects. *)
Definition ex_blank (audit : Z) : emul := Emul [] [] [] [Devvas 0xc1 0xd1 0] (ex_idx audit) ∅ ∅ gr_zero false 0 0 0 1.

(** A mapping, a deferred object, and a page the guest wrote before. *)
Definition ex_fb : emul :=
  Emul [Fbback 0x40000 0x1000 (2 ^ 39)] [Gpga 0x10000 0x10000 0 0] [GObj None 0x10000 0xc1 0xda000000 0 1] [Devvas 0xc1 0xd1 0] (ex_idx 1)
    {[0x10 := {[0 := 0xaa]}]} ∅ gr_zero false 0 0 0 1.

Definition ex_ranges : list m2_gpga := [Gpga 0x30000 0x10000 0 0; Gpga 0x10000 0x10000 1 0; Gpga 0x50000 0x1000 2 0].

Lemma ex_ranges_ok : ranges_ok ex_ranges.
Proof.
  assert (forall i, 0 <= i < Z.of_nat (length ex_ranges) -> i = 0 \/ i = 1 \/ i = 2) as Hi by (cbn; lia). split.
  - intros i H. destruct (Hi i H) as [->|[->| ->]]; vm_compute; done.
  - intros i j H1 H2 Hne. destruct (Hi i H1) as [->|[->| ->]], (Hi j H2) as [->|[->| ->]]; try done; first [left; vm_compute; done | right; vm_compute; done].
Qed.

Lemma gpga_index_exact_witness :
  ranges_ok ex_ranges /\ snd (lookups ex_ranges [0x1ffff; 0x20000; 0x30000; 0x50fff] (ex_idx 2)) = [1; -1; 0; 2] /\
  m2_gpga_idx_mismatch (fst (lookups ex_ranges [0x1ffff; 0x20000; 0x30000; 0x50fff] (ex_idx 2))) = 0.
Proof.
  destruct (gpga_index_exact ex_ranges [0x1ffff; 0x20000; 0x30000; 0x50fff] (ex_idx 2)) as (H1 & _ & H2); [cbn; lia | exact ex_ranges_ok | intros [=] | repeat constructor; lia |].
  split; [exact ex_ranges_ok |]. split; [exact H1 | exact H2].
Defined.

Lemma ex_fb_wf : wf ex_fb.
Proof.
  assert (forall i, 0 <= i < Z.of_nat (length (f_gpga ex_fb)) -> i = 0) as Hi by (cbn; lia). constructor.
  - cbn. lia.
  - split; [intros i H; rewrite (Hi i H); vm_compute; done |]. intros i j H1 H2 Hne. rewrite (Hi i H1), (Hi j H2) in Hne. done.
  - intros [=].
  - apply Forall_singleton. done.
  - apply Forall_singleton. done.
  - apply Forall_singleton. done.
  - apply NoDup_singleton.
  - intros g o Hg. apply list_elem_of_singleton in Hg as ->. cbn. intros [= <-]. cbn. lia.
  - intros [[|i]|[|i]] [[|j]|[|j]] v1 v2; cbn; done.
Qed.

(** What the freshness of the next mapping depends on. *)
Definition map_frame (e : emul) := (f_fbback e, f_gpga e, f_objs e, f_maph_next e).

Lemma fresh_frame h e e' : map_frame e' = map_frame e -> fresh_map h e -> fresh_map h e'.
Proof.
  intros [= Hb Hg Ho Hm] Hf size q k v. unfold next_maph. rewrite Hm, (view_at_ext e e'); [apply Hf | done | done |]. intros j. unfold qva_of. by rewrite Ho.
Qed.

(** The example after the first touch. *)
Definition ex_touched : emul :=
  Emul (f_fbback ex_fb) (f_gpga ex_fb) [GObj (Some (2 ^ 40 + 16 * 2 ^ 33)) 0x10000 0xc1 0xda000000 0 0] [] (ex_idx 0) ∅ ∅ gr_zero false 0 0 17 1.

Lemma ex_fb_fresh : fresh_map ex_host ex_fb.
Proof. intros size q [[|i]|[|i]] v; cbn -[Z.pow Z.leb]; try done. destruct (Z.leb_spec size (2 ^ 32)); [| done]. intros [= <-] [= <-]. right. cbn. lia. Qed.

Lemma ex_touched_fresh : fresh_map ex_host ex_touched.
Proof.
  intros size q [[|i]|[|i]] v; cbn -[Z.pow Z.leb]; try done; destruct (Z.leb_spec size (2 ^ 32)); try done; intros [= <-] [= <-]; right; cbn; lia.
Qed.

Definition ex_accesses : list access := [Rd 0x10000 1; Wr 0x10008 0x1122334455667788 8; Rd 0x10008 4].

Lemma ex_access_size : access_size 1 /\ access_size 4 /\ access_size 8.
Proof. unfold access_size. rewrite !elem_of_cons. tauto. Qed.

Lemma video_memory_refines_witness : wf ex_fb /\ snd (run ex_host ex_accesses ex_fb) = [0xaa; 0x55667788].
Proof.
  split; [exact ex_fb_wf |]. destruct (video_memory_refines ex_host ex_accesses ex_fb) as [_ ->]; [exact ex_fb_wf | | | vm_compute; reflexivity].
  - split; [exact ex_fb_fresh |]. repeat (split; [apply (fresh_frame _ ex_touched); [vm_compute; reflexivity | exact ex_touched_fresh] |]). exact I.
  - destruct ex_access_size as (A1 & A4 & A8). cbn [plain ex_accesses].
    assert (in_page 0x10000 1 /\ in_page 0x10008 8 /\ in_page 0x10008 4) as (P1 & P8 & P4) by (split; [| split]; (split; [done | split; vm_compute; done])).
    split; [exact P1 |]. split; [reflexivity |]. split; [| split; [exact P8 |]; split; [exact P4 |]; split; [reflexivity |]; split; [| exact I]].
    + intros b Hb. left. replace b with 0x10000 by lia. vm_compute. by eexists.
    + intros b Hb. right. lia.
Defined.

Definition ex_written : emul := nvkvm_fb_write ex_host 0x10000 0xaa 1 (ex_blank 0).

Lemma ex_written_eq : ex_written = Emul [] [] [] [Devvas 0xc1 0xd1 0] (ex_idx 0) {[0x10 := {[0 := 0xaa]}]} ∅ gr_zero false 0 0 0 1.
Proof. vm_compute. reflexivity. Qed.

Lemma no_tables_wf e : f_fbback e = [] -> f_gpga e = [] -> m2_gpga_idx_dirty (f_idx e) = true -> wf e /\ forall h, fresh_map h e.
Proof.
  intros Hb Hg Hd. assert (forall k v, view_at e k <> Some v) as Hv by (intros [i|i] v; cbn; rewrite ?Hb, ?Hg; done). split.
  - constructor; rewrite ?Hb, ?Hg; try done; [| congruence | apply NoDup_nil_2 | |]; [split; cbn; intros; lia | intros g o Hin; by apply elem_of_nil in Hin |].
    intros k1 k2 v1 v2 H. by destruct (Hv _ _ H).
  - intros h size q k v _ H. by destruct (Hv _ _ H).
Qed.

Lemma register_keeps_bytes_witness :
  let r := nvkvm_m2_gpga_obj_ex ex_host 0xc1 0x200000 0x10000 0x1000 false ex_written in
  snd r = 0 /\ fbyte (fst r) 0x10000 = 0xaa /\ is_Some (resolve (fst r) 0x1ffff).
Proof.
  cbn zeta. assert (snd (nvkvm_m2_gpga_obj_ex ex_host 0xc1 0x200000 0x10000 0x1000 false ex_written) = 0) as H0 by (vm_compute; reflexivity).
  destruct (no_tables_wf ex_written) as [Hw Hf]; [by rewrite ex_written_eq .. |].
  destruct (register_keeps_bytes ex_host 0xc1 0x200000 0x10000 0x1000 false ex_written) as (_ & _ & H); [exact Hw | apply Hf | reflexivity | lia | lia | lia | by rewrite ex_written_eq |].
  rewrite H0 in H. split; [exact H0 |]. destruct H as [[H _]|(_ & H1 & H2)]; [discriminate H |]. split.
  - rewrite H1; [by rewrite ex_written_eq |]. right. split; [vm_compute; reflexivity |]. rewrite ex_written_eq. vm_compute. by eexists.
  - apply H2; [reflexivity |]. split; vm_compute; done.
Defined.

(** [registration_loses_bytes]: registered ranges are rounded up to 64 KiB, but only the
    run's own pages are copied, so a byte written behind the run before is lost; runs of 4
    KiB next to each other overlap, so the index and the scan serve different objects and
    auditing changes what the guest reads; and registering a range a second time, for an
    alias of it, hides what was written through the first object. *)
Theorem registration_loses_bytes :
  let reg gpga size e := fst (nvkvm_m2_gpga_obj_ex ex_host 0xc1 0x200000 gpga size false e) in
  let rd a e := snd (nvkvm_fb_read ex_host a 4 e) in
  let wr a e := nvkvm_fb_write ex_host a 7 4 e in
  rd 0x15000 (wr 0x15000 (ex_blank 0)) = 7 /\ rd 0x15000 (reg 0x10000 0x1000 (wr 0x15000 (ex_blank 0))) = 0 /\
  rd 0x11000 (reg 0x11000 0x1000 (wr 0x11000 (reg 0x10000 0x1000 (ex_blank 0)))) = 0 /\
  rd 0x11000 (reg 0x11000 0x1000 (wr 0x11000 (reg 0x10000 0x1000 (ex_blank 100)))) = 7 /\
  rd 0x10000 (wr 0x10000 (reg 0x10000 0x10000 (ex_blank 100))) = 7 /\
  rd 0x10000 (reg 0x10000 0x10000 (wr 0x10000 (reg 0x10000 0x10000 (ex_blank 100)))) = 0 /\
  m2_gpga_idx_mismatch (f_idx (fst (nvkvm_fb_read ex_host 0x10000 4 (reg 0x10000 0x10000 (wr 0x10000 (reg 0x10000 0x10000 (ex_blank 100))))))) = 0.
Proof. vm_compute. split_and!; reflexivity. Qed.
End FbMem.
