(* ===== verification/Layout.v ===== *)
(** * Layout of the driver's structures ([src/abi/nvgpu.h], [src/abi/uvm.h])

    The guest module, the device and the stub exchange C structures by their
    bytes: the guest by [sizeof] and field names, the other two by offsets written
    as numbers.  Here are the structures as field lists and the layout an x86-64
    compiler gives them, the general facts about that layout, and the comparison of
    what the three programs take it to be. *)

From S2P Require Import Prelude Abi.
From stdpp Require Import strings.
Local Open Scope string_scope.
Local Open Scope list_scope.
Local Open Scope Z_scope.
#[local] Set Warnings "-register-all".

Module Layout.

(** A scalar of [n] bytes is aligned to [n]. *)
Inductive ctype :=
| Scalar (n : Z)
| Array (t : ctype) (n : Z)
| Struct (fs : list (string * ctype)).

Definition next_aligned (o a : Z) : Z := (o + a - 1) / a * a.

Fixpoint alignof (t : ctype) : Z :=
  match t with
  | Scalar n => n
  | Array t _ => alignof t
  | Struct fs => foldr (fun f a => Z.max (alignof (snd f)) a) 1 fs
  end.

Fixpoint sizeof (t : ctype) : Z :=
  match t with
  | Scalar n => n
  | Array t n => n * sizeof t
  | Struct fs =>
      next_aligned (foldl (fun o f => next_aligned o (alignof (snd f)) + sizeof (snd f)) 0 fs)
                   (foldr (fun f a => Z.max (alignof (snd f)) a) 1 fs)
  end.

(** The fields with their offsets, from [o] on. *)
Fixpoint fields_from (o : Z) (fs : list (string * ctype)) : list (string * (Z * ctype)) :=
  match fs with
  | [] => []
  | (s, t) :: fs' => let p := next_aligned o (alignof t) in (s, (p, t)) :: fields_from (p + sizeof t) fs'
  end.

Fixpoint find_field (s : string) (l : list (string * (Z * ctype))) : option (Z * ctype) :=
  match l with
  | [] => None
  | (s', x) :: l' => if String.eqb s s' then Some x else find_field s l'
  end.

Definition field_of (t : ctype) (s : string) : option (Z * ctype) :=
  match t with Struct fs => find_field s (fields_from 0 fs) | _ => None end.

(** [offsetof(t, s)]. *)
Definition offsetof (t : ctype) (s : string) : Z := match field_of t s with Some (o, _) => o | None => -1 end.

(** The bytes of every scalar inside, as offset and width, in the order declared. *)
Fixpoint scalars (o : Z) (t : ctype) : list (Z * Z) :=
  match t with
  | Scalar n => [(o, n)]
  | Array t n => concat ((fun i => scalars (o + i * sizeof t) t) <$> seqZ 0 n)
  | Struct fs =>
      (fix go (p : Z) (fs : list (string * ctype)) : list (Z * Z) :=
         match fs with
         | [] => []
         | f :: fs' => let q := next_aligned p (alignof (snd f)) in scalars (o + q) (snd f) ++ go (q + sizeof (snd f)) fs'
         end) 0 fs
  end.

(** Scalars of 1, 2, 4 or 8 bytes. *)
Fixpoint ctype_ok (t : ctype) : bool :=
  match t with
  | Scalar n => (n =? 1) || (n =? 2) || (n =? 4) || (n =? 8)
  | Array t n => (0 <=? n) && ctype_ok t
  | Struct fs => forallb (fun f => ctype_ok (snd f)) fs
  end.

Abbreviation u8_t := (Scalar 1).
Abbreviation u16_t := (Scalar 2).
Abbreviation u32_t := (Scalar 4).
Abbreviation s32_t := (Scalar 4).
Abbreviation u64_t := (Scalar 8).
Abbreviation nvhandle_t := (Scalar 4).
Abbreviation nvclassid_t := (Scalar 4).
Abbreviation nvp64_t := (Scalar 8).

(** ** The front end's structures *)

Definition nvb0b5_allocation_parameters : ctype :=
  Struct [ ("version", u32_t); ("engine_type", u32_t) ].

Definition nv_gr_allocation_parameters : ctype :=
  Struct [ ("version", u32_t); ("flags", u32_t); ("size", u32_t); ("caps", u32_t) ].

Definition nv83de_alloc_parameters : ctype :=
  Struct [ ("h_debugger_client_obsolete", nvhandle_t); ("h_app_client", nvhandle_t);
           ("h_class_3d_object", nvhandle_t) ].

Definition rs_access_mask : ctype :=
  Struct [ ("limbs", Array u32_t 1) ].

Definition nvos21_parameters : ctype :=
  Struct [ ("h_root", nvhandle_t); ("h_object_parent", nvhandle_t); ("h_object_new", nvhandle_t);
           ("h_class", nvclassid_t); ("p_alloc_parms", nvp64_t); ("status", u32_t); ("_pad", u32_t) ].

Definition nvos64_parameters : ctype :=
  Struct [ ("h_root", nvhandle_t); ("h_object_parent", nvhandle_t); ("h_object_new", nvhandle_t);
           ("h_class", nvclassid_t); ("p_alloc_parms", nvp64_t); ("p_rights_requested", nvp64_t);
           ("alloc_parms_size", u32_t); ("flags", u32_t); ("status", u32_t); ("reserved", u32_t) ].

Definition nvos00_parameters : ctype :=
  Struct [ ("h_root", nvhandle_t); ("h_object_parent", nvhandle_t); ("h_object_old", nvhandle_t);
           ("status", u32_t) ].

Definition nvos54_parameters : ctype :=
  Struct [ ("h_client", nvhandle_t); ("h_object", nvhandle_t); ("cmd", u32_t); ("flags", u32_t);
           ("params", nvp64_t); ("params_size", u32_t); ("status", u32_t) ].

Definition nvos55_parameters : ctype :=
  Struct [ ("h_client", nvhandle_t); ("h_parent", nvhandle_t); ("h_object", nvhandle_t);
           ("h_client_src", nvhandle_t); ("h_src_object", nvhandle_t); ("flags", u32_t); ("status", u32_t) ].

Definition nvos57_parameters : ctype :=
  Struct [ ("h_client", nvhandle_t); ("h_object", nvhandle_t); ("share_policy", u32_t); ("status", u32_t) ].

Definition nv_ioctl_nvos02_parameters_with_fd : ctype :=
  Struct [ ("h_root", nvhandle_t); ("h_object_parent", nvhandle_t); ("h_object_new", nvhandle_t);
           ("h_class", nvclassid_t); ("flags", u32_t); ("reserved", u32_t); ("p_memory", nvp64_t);
           ("limit", u64_t); ("status", u32_t); ("pad1", u32_t); ("fd", s32_t); ("pad0", u32_t) ].

Definition nv_ioctl_nvos33_parameters_with_fd : ctype :=
  Struct [ ("h_client", nvhandle_t); ("h_device", nvhandle_t); ("h_memory", nvhandle_t); ("reserved0", u32_t);
           ("offset", u64_t); ("length", u64_t); ("p_linear_address", nvp64_t); ("status", u32_t);
           ("flags", u32_t); ("fd", s32_t); ("reserved1", u32_t) ].

Definition nv_ioctl_nvos34_parameters : ctype :=
  Struct [ ("h_client", nvhandle_t); ("h_device", nvhandle_t); ("h_memory", nvhandle_t); ("reserved0", u32_t);
           ("p_linear_address", nvp64_t); ("status", u32_t); ("flags", u32_t) ].

Definition nvos56_parameters : ctype :=
  Struct [ ("h_client", nvhandle_t); ("h_device", nvhandle_t); ("h_memory", nvhandle_t); ("_pad0", u32_t);
           ("p_old_cpu_address", nvp64_t); ("p_new_cpu_address", nvp64_t); ("status", u32_t);
           ("_pad1", u32_t) ].

Definition nvos32_parameters : ctype :=
  Struct [ ("h_root", nvhandle_t); ("h_object_parent", nvhandle_t); ("function", u32_t);
           ("h_vaspace", nvhandle_t); ("ivc_heap_number", u32_t); ("status", u32_t); ("total", u64_t);
           ("free", u64_t); ("data", Array u8_t 144) ].

Definition nvos46_parameters : ctype :=
  Struct [ ("h_client", nvhandle_t); ("h_device", nvhandle_t); ("h_dma", nvhandle_t); ("h_memory", nvhandle_t);
           ("offset", u64_t); ("length", u64_t); ("flags", u32_t); ("pad0", u32_t); ("dma_offset", u64_t);
           ("status", u32_t); ("pad1", u32_t) ].

Definition nvos47_parameters : ctype :=
  Struct [ ("h_client", nvhandle_t); ("h_device", nvhandle_t); ("h_dma", nvhandle_t); ("h_memory", nvhandle_t);
           ("flags", u32_t); ("pad0", u32_t); ("dma_offset", u64_t); ("size", u64_t); ("status", u32_t);
           ("pad1", u32_t) ].

Definition nv_ioctl_idle_channels : ctype :=
  Struct [ ("h_client", nvhandle_t); ("h_device", nvhandle_t); ("h_channel", nvhandle_t);
           ("num_channels", u32_t); ("p_clients", nvp64_t); ("p_devices", nvp64_t); ("p_channels", nvp64_t);
           ("flags", u32_t); ("timeout", u32_t); ("status", u32_t); ("pad", u32_t) ].

Definition nv_pci_info : ctype :=
  Struct [ ("domain", u32_t); ("bus", u8_t); ("slot", u8_t); ("function", u8_t); ("reserved", u8_t);
           ("vendor_id", u16_t); ("device_id", u16_t) ].

Definition nv_ioctl_card_info : ctype :=
  Struct [ ("valid", u8_t); ("reserved", Array u8_t 3); ("pci_info", nv_pci_info); ("gpu_id", u32_t);
           ("interrupt_line", u16_t); ("reserved2", Array u8_t 2); ("reg_address", u64_t); ("reg_size", u64_t);
           ("fb_address", u64_t); ("fb_size", u64_t); ("minor_number", u32_t); ("dev_name", Array u8_t 14);
           ("reserved3", Array u8_t 2) ].

Definition nv_ioctl_rm_api_version : ctype :=
  Struct [ ("cmd", u32_t); ("reply", u32_t); ("version_string", Array u8_t 64) ].

Definition nv_ioctl_sys_params : ctype :=
  Struct [ ("memory_size", u64_t) ].

Definition nv_ioctl_alloc_os_event : ctype :=
  Struct [ ("h_client", nvhandle_t); ("h_device", nvhandle_t); ("fd", u32_t); ("status", u32_t) ].

Definition nv_ioctl_free_os_event : ctype :=
  Struct [ ("h_client", nvhandle_t); ("h_device", nvhandle_t); ("fd", u32_t); ("status", u32_t) ].

Definition nv_ioctl_register_fd : ctype :=
  Struct [ ("ctl_fd", s32_t) ].

Definition nv_ioctl_wait_open_complete : ctype :=
  Struct [ ("rc", s32_t); ("adapter_status", u32_t) ].

Definition nv_ioctl_numa_info : ctype :=
  Struct [ ("nid", s32_t); ("status", u32_t); ("memblock_size", u64_t); ("numa_mem_addr", u64_t);
           ("numa_mem_size", u64_t) ].

Definition nv_ioctl_export_to_dmabuf_fd : ctype :=
  Struct [ ("h_client", nvhandle_t); ("h_memory", nvhandle_t); ("size", u64_t); ("offset", u64_t);
           ("map_type", u32_t); ("fd", s32_t); ("b_allow_mmap", u32_t); ("status", u32_t) ].

Definition nv_ioctl_alloc_context_dma2 : ctype :=
  Struct [ ("h_client", nvhandle_t); ("h_parent", nvhandle_t); ("h_memory", nvhandle_t);
           ("h_class", nvclassid_t); ("flags", u32_t); ("attr", u32_t); ("va_space", u64_t);
           ("va_base", u64_t); ("limit", u64_t); ("h_dma", nvhandle_t); ("status", u32_t) ].

Definition nv0080_alloc_parameters : ctype :=
  Struct [ ("device_id", u32_t); ("h_client_share", nvhandle_t); ("h_target_client", nvhandle_t);
           ("h_target_device", nvhandle_t); ("flags", u32_t); ("_pad0", u32_t); ("va_space_size", u64_t);
           ("va_start_internal", u64_t); ("va_limit_internal", u64_t); ("va_mode", u32_t); ("_pad1", u32_t) ].

Definition nv2080_alloc_parameters : ctype :=
  Struct [ ("sub_device_id", u32_t) ].

Definition nv00de_alloc_parameters_v545 : ctype :=
  Struct [ ("polled_data_mask", u64_t) ].

Definition nv_vaspace_allocation_parameters : ctype :=
  Struct [ ("index", u32_t); ("flags", u32_t); ("va_size", u64_t); ("va_start_internal", u64_t);
           ("va_limit_internal", u64_t); ("big_page_size", u32_t); ("_pad0", u32_t); ("va_base", u64_t) ].

Definition nv_channel_group_allocation_parameters : ctype :=
  Struct [ ("h_object_error", nvhandle_t); ("h_object_ecc_error", nvhandle_t); ("h_va_space", nvhandle_t);
           ("engine_type", u32_t); ("b_is_calling_context_vgpu_plugin", u8_t); ("_pad0", Array u8_t 3) ].

Definition nv_ctxshare_allocation_parameters : ctype :=
  Struct [ ("h_va_space", nvhandle_t); ("flags", u32_t); ("subctx_id", u32_t) ].

Definition nv0005_alloc_parameters : ctype :=
  Struct [ ("h_parent_client", nvhandle_t); ("h_src_resource", nvhandle_t); ("h_class", nvclassid_t);
           ("notify_index", u32_t); ("data", u64_t) ].

Definition nv_memory_desc_params : ctype :=
  Struct [ ("base", u64_t); ("size", u64_t); ("address_space", u32_t); ("cache_attrib", u32_t) ].

Definition nv_channel_alloc_params_v570 : ctype :=
  Struct [ ("h_object_error", nvhandle_t); ("h_object_buffer", nvhandle_t); ("gpfifo_offset", u64_t);
           ("gpfifo_entries", u32_t); ("flags", u32_t); ("h_context_share", nvhandle_t);
           ("h_va_space", nvhandle_t); ("h_userd_memory", Array nvhandle_t 8); ("userd_offset", Array u64_t 8);
           ("engine_type", u32_t); ("cid", u32_t); ("sub_device_id", u32_t);
           ("h_object_ecc_error", nvhandle_t); ("instance_mem", nv_memory_desc_params);
           ("userd_mem", nv_memory_desc_params); ("ramfc_mem", nv_memory_desc_params);
           ("mthdbuf_mem", nv_memory_desc_params); ("h_phys_channel_group", nvhandle_t);
           ("internal_flags", u32_t); ("error_notifier_mem", nv_memory_desc_params);
           ("ecc_error_notifier_mem", nv_memory_desc_params); ("process_id", u32_t); ("sub_process_id", u32_t);
           ("encrypt_iv", Array u32_t 3); ("decrypt_iv", Array u32_t 3); ("hmac_nonce", Array u32_t 8);
           ("tpc_config_id", u32_t); ("_pad0", u32_t) ].

Definition nv_memory_virtual_allocation_params : ctype :=
  Struct [ ("offset", u64_t); ("limit", u64_t); ("h_vaspace", u32_t) ].

Definition nv_semaphore_surface_alloc_parameters : ctype :=
  Struct [ ("h_semaphore_mem", u32_t); ("h_max_submitted_mem", u32_t); ("flags", u64_t) ].

Definition nv_context_dma_allocation_params : ctype :=
  Struct [ ("h_subdevice", u32_t); ("flags", u32_t); ("h_memory", u32_t); ("pad", u32_t); ("offset", u64_t);
           ("limit", u64_t) ].

Definition nva0bc_alloc_parameters : ctype :=
  Struct [ ("codec_type", u32_t); ("h_resolution", u32_t); ("v_resolution", u32_t); ("version", u32_t);
           ("h_mem", u32_t) ].

Definition nv503c_alloc_parameters : ctype :=
  Struct [ ("flags", u32_t) ].

Definition nv_memory_allocation_params_v545 : ctype :=
  Struct [ ("owner", u32_t); ("type", u32_t); ("flags", u32_t); ("width", u32_t); ("height", u32_t);
           ("pitch", s32_t); ("attr", u32_t); ("attr2", u32_t); ("format", u32_t); ("compr_covg", u32_t);
           ("zcull_covg", u32_t); ("_pad0", u32_t); ("range_lo", u64_t); ("range_hi", u64_t); ("size", u64_t);
           ("alignment", u64_t); ("offset", u64_t); ("limit", u64_t); ("address", nvp64_t);
           ("ctag_offset", u32_t); ("h_va_space", nvhandle_t); ("internal_flags", u32_t); ("tag", u32_t);
           ("numa_node", s32_t); ("_pad1", u32_t) ].

Definition nv0000_ctrl_system_get_build_version_params : ctype :=
  Struct [ ("size_of_strings", u32_t); ("_pad0", u32_t); ("p_driver_version_buffer", nvp64_t);
           ("p_version_buffer", nvp64_t); ("p_title_buffer", nvp64_t); ("changelist_number", u32_t);
           ("official_changelist_number", u32_t) ].

Definition nv0080_ctrl_gpu_get_num_subdevices_params : ctype :=
  Struct [ ("num_sub_devices", u32_t) ].

Definition nv0080_ctrl_gpu_get_virtualization_mode_params : ctype :=
  Struct [ ("virtualization_mode", u32_t); ("b_is_grid_licensed", u32_t) ].

(** ** The structures of the UVM commands *)

Definition uvm_initialize_params : ctype :=
  Struct [ ("flags", u64_t); ("rm_status", u32_t); ("reserved", u32_t) ].

Definition uvm_deinitialize_params : ctype :=
  Struct [ ("rm_status", u32_t); ("reserved", u32_t) ].

Definition uvm_mm_initialize_params : ctype :=
  Struct [ ("uvm_fd", s32_t); ("rm_status", u32_t) ].

Definition uvm_uuid : ctype :=
  Struct [ ("uuid", Array u8_t 16) ].

Definition uvm_register_gpu_params : ctype :=
  Struct [ ("gpu_uuid", uvm_uuid); ("numa_enabled", u8_t); ("reserved0", Array u8_t 3);
           ("numa_node_id", s32_t); ("rm_status", u32_t); ("reserved1", u32_t) ].

Definition uvm_unregister_gpu_params : ctype :=
  Struct [ ("gpu_uuid", uvm_uuid); ("rm_status", u32_t); ("reserved", u32_t) ].

Definition uvm_register_gpu_vaspace_params : ctype :=
  Struct [ ("gpu_uuid", uvm_uuid); ("rm_ctrl_fd", nvhandle_t); ("h_client", nvhandle_t);
           ("h_va_space", nvhandle_t); ("rm_status", u32_t) ].

Definition uvm_unregister_gpu_vaspace_params : ctype :=
  Struct [ ("gpu_uuid", uvm_uuid); ("rm_status", u32_t) ].

Definition uvm_register_channel_params : ctype :=
  Struct [ ("gpu_uuid", uvm_uuid); ("rm_ctrl_fd", nvhandle_t); ("h_client", nvhandle_t);
           ("h_channel", nvhandle_t); ("rm_status", u32_t); ("base", u64_t); ("length", u64_t) ].

Definition uvm_unregister_channel_params : ctype :=
  Struct [ ("gpu_uuid", uvm_uuid); ("h_client", nvhandle_t); ("h_channel", nvhandle_t); ("rm_status", u32_t) ].

Definition uvm_create_range_group_params : ctype :=
  Struct [ ("range_group_id", u64_t); ("rm_status", u32_t); ("reserved", u32_t) ].

Definition uvm_destroy_range_group_params : ctype :=
  Struct [ ("range_group_id", u64_t); ("rm_status", u32_t); ("reserved", u32_t) ].

Definition uvm_set_range_group_params : ctype :=
  Struct [ ("range_group_id", u64_t); ("base", u64_t); ("length", u64_t); ("rm_status", u32_t);
           ("reserved", u32_t) ].

Definition uvm_gpu_mapping_attributes : ctype :=
  Struct [ ("gpu_uuid", uvm_uuid); ("gpu_mapping_type", u32_t); ("gpu_caching_type", u32_t);
           ("gpu_format_type", u32_t); ("gpu_element_bits", u32_t); ("gpu_compression_type", u32_t) ].

Definition uvm_map_external_allocation_params : ctype :=
  Struct [ ("base", u64_t); ("length", u64_t); ("offset", u64_t);
           ("per_gpu_attributes", Array uvm_gpu_mapping_attributes 256); ("gpu_attributes_count", u64_t);
           ("rm_ctrl_fd", s32_t); ("h_client", nvhandle_t); ("h_memory", nvhandle_t); ("rm_status", u32_t) ].

Definition uvm_free_params : ctype :=
  Struct [ ("base", u64_t); ("length", u64_t); ("rm_status", u32_t); ("reserved", u32_t) ].

Definition uvm_migrate_params : ctype :=
  Struct [ ("base", u64_t); ("length", u64_t); ("dst_gpu_uuid", uvm_uuid); ("migrate_flags", u32_t);
           ("user_space_cpp_fd", nvhandle_t); ("rm_status", u32_t); ("reserved", u32_t) ].

Definition uvm_set_preferred_location_params : ctype :=
  Struct [ ("requested_base", u64_t); ("length", u64_t); ("preferred_location_uuid", uvm_uuid);
           ("preferred_cpu_nid", s32_t); ("rm_status", u32_t) ].

Definition uvm_unset_preferred_location_params : ctype :=
  Struct [ ("base", u64_t); ("length", u64_t); ("rm_status", u32_t); ("reserved", u32_t) ].

Definition uvm_set_accessed_by_params : ctype :=
  Struct [ ("base", u64_t); ("length", u64_t); ("accessor_uuid", uvm_uuid); ("accessor_cpu_nid", s32_t);
           ("rm_status", u32_t) ].

Definition uvm_unset_accessed_by_params : ctype :=
  Struct [ ("base", u64_t); ("length", u64_t); ("accessor_uuid", uvm_uuid); ("accessor_cpu_nid", s32_t);
           ("rm_status", u32_t) ].

Definition uvm_enable_peer_access_params : ctype :=
  Struct [ ("gpu_uuid_1", uvm_uuid); ("gpu_uuid_2", uvm_uuid); ("rm_status", u32_t); ("reserved", u32_t) ].

Definition uvm_disable_peer_access_params : ctype :=
  Struct [ ("gpu_uuid_1", uvm_uuid); ("gpu_uuid_2", uvm_uuid); ("rm_status", u32_t); ("reserved", u32_t) ].

Definition uvm_create_external_range_params : ctype :=
  Struct [ ("base", u64_t); ("length", u64_t); ("rm_status", u32_t); ("reserved", u32_t) ].

Definition uvm_validate_va_range_params : ctype :=
  Struct [ ("base", u64_t); ("length", u64_t); ("rm_status", u32_t); ("reserved", u32_t) ].

Definition uvm_pageable_mem_access_params : ctype :=
  Struct [ ("pageable_access_supported", u8_t); ("reserved", Array u8_t 3); ("rm_status", u32_t) ].

Definition uvm_pageable_mem_access_on_gpu_params : ctype :=
  Struct [ ("gpu_uuid", Array u8_t 16); ("pageable_mem_access", u8_t); ("reserved", Array u8_t 3);
           ("rm_status", u32_t) ].

Definition uvm_alloc_semaphore_pool_params : ctype :=
  Struct [ ("base", u64_t); ("length", u64_t); ("per_gpu_attributes", Array uvm_gpu_mapping_attributes 256);
           ("gpu_attributes_count", u64_t); ("rm_status", u32_t); ("_pad0", u32_t) ].

(** ** What holds of every layout *)

Section ctype_induction.
Context (P : ctype -> Prop) (HS : forall n, P (Scalar n)) (HA : forall t n, P t -> P (Array t n))
  (HF : forall fs, Forall (fun f => P (snd f)) fs -> P (Struct fs)).

Fixpoint ctype_nested_ind (t : ctype) : P t :=
  match t with
  | Scalar n => HS n
  | Array t n => HA t n (ctype_nested_ind t)
  | Struct fs => HF fs ((fix go fs : Forall (fun f => P (snd f)) fs :=
      match fs with [] => Forall_nil_2 _ | f :: fs' => Forall_cons_2 _ _ _ (ctype_nested_ind (snd f)) (go fs') end) fs)
  end.
End ctype_induction.

(** The alignments there are; each divides the larger ones. *)
Definition an_alignment (a : Z) : Prop := a = 1 \/ a = 2 \/ a = 4 \/ a = 8.

Lemma alignment_divide a b : an_alignment a -> an_alignment b -> a <= b -> (a | b).
Proof.
  intros [->|[->|[->| ->]]] [->|[->|[->| ->]]] ?; try lia; first [by exists 1 | by exists 2 | by exists 4 | by exists 8].
Qed.

Lemma next_aligned_spec o a : 0 < a -> o <= next_aligned o a < o + a /\ (a | next_aligned o a).
Proof.
  intros Ha. unfold next_aligned. split; [|apply Z.divide_factor_r].
  pose proof (Z.div_mod (o + a - 1) a). pose proof (Z.mod_pos_bound (o + a - 1) a). lia.
Qed.

Lemma struct_align (fs : list (string * ctype)) :
  Forall (fun f => ctype_ok (snd f) = true -> an_alignment (alignof (snd f))) fs -> forallb (fun f => ctype_ok (snd f)) fs = true ->
  let a := foldr (fun f a => Z.max (alignof (snd f)) a) 1 fs in
  an_alignment a /\ Forall (fun f => (alignof (snd f) | a)) fs.
Proof.
  cbn zeta. induction 1 as [|f fs Hf Hfs IH]; intros H; [split; [by left | done] |].
  cbn in H. apply andb_prop in H as [H1 H2]. destruct (IH H2) as [Ha Hd]. specialize (Hf H1). cbn.
  assert (an_alignment (alignof f.2 `max` foldr (fun f a => Z.max (alignof (snd f)) a) 1 fs)) as Hm.
  { destruct (Z.max_spec (alignof f.2) (foldr (fun f a => Z.max (alignof (snd f)) a) 1 fs)) as [[_ ->]|[_ ->]]; done. }
  split; [done |]. constructor; [apply alignment_divide; [done | done | lia] |].
  eapply Forall_impl; [exact Hd |]. intros g Hg. cbn beta. etransitivity; [exact Hg |]. apply alignment_divide; [done | done | lia].
Qed.

Lemma alignof_ok t : ctype_ok t = true -> an_alignment (alignof t).
Proof.
  induction t as [n|t n IH|fs IH] using ctype_nested_ind; intros H.
  - cbn in *. unfold an_alignment. nv_bool. lia.
  - cbn in *. apply andb_prop in H as [_ H]. by apply IH.
  - apply (struct_align fs IH H).
Qed.

Lemma alignof_pos t : ctype_ok t = true -> 0 < alignof t.
Proof. intros H. destruct (alignof_ok t H) as [?|[?|[?|?]]]; lia. Qed.

Lemma fields_ok_aligned (fs : list (string * ctype)) :
  forallb (fun f => ctype_ok (snd f)) fs = true ->
  Forall (fun f => ctype_ok (snd f) = true -> an_alignment (alignof (snd f))) fs.
Proof. intros _. apply Forall_forall. intros f _. apply alignof_ok. Qed.

(** Where the fields end never goes down. *)
Lemma fields_end_mono (fs : list (string * ctype)) o :
  forallb (fun f => ctype_ok (snd f)) fs = true -> Forall (fun f => 0 <= sizeof (snd f)) fs ->
  o <= foldl (fun o f => next_aligned o (alignof (snd f)) + sizeof (snd f)) o fs.
Proof.
  revert o. induction fs as [|f fs IH]; intros o H Hs; cbn; [lia |]. cbn in H. apply andb_prop in H as [H1 H2].
  inversion_clear Hs as [|? ? Hf Hs']. specialize (IH (next_aligned o (alignof f.2) + sizeof f.2) H2 Hs').
  pose proof (next_aligned_spec o _ (alignof_pos _ H1)). lia.
Qed.

Lemma sizeof_ok t : ctype_ok t = true -> 0 <= sizeof t /\ (alignof t | sizeof t).
Proof.
  induction t as [n|t n IH|fs IH] using ctype_nested_ind; intros H.
  - cbn in *. nv_bool. split; [lia | done].
  - cbn in *. apply andb_prop in H as [Hn H]. apply Z.leb_le in Hn. destruct (IH H) as [H0 Hd].
    split; [lia | by apply Z.divide_mul_r].
  - destruct (struct_align fs (fields_ok_aligned fs H) H) as [Ha _]. cbn -[next_aligned].
    assert (Forall (fun f => 0 <= sizeof (snd f)) fs) as Hs.
    { cbn in H. apply Forall_forall. intros f Hin. rewrite Forall_forall in IH. apply IH; [done |].
      rewrite forallb_forall in H. apply H. by apply list_elem_of_In. }
    pose proof (fields_end_mono fs 0 H Hs).
    edestruct (next_aligned_spec (foldl (fun o f => next_aligned o (alignof (snd f)) + sizeof (snd f)) 0 fs)) as [Hr Hd];
      [|split; [|exact Hd]]; [destruct Ha as [?|[?|[?|?]]]; lia | lia].
Qed.

(** Scalars inside [lo, hi), each at a multiple of its width and behind the one before. *)
Fixpoint laid_out (lo hi : Z) (l : list (Z * Z)) : Prop :=
  match l with
  | [] => lo <= hi
  | (o, n) :: l' => lo <= o /\ 0 < n /\ (n | o) /\ laid_out (o + n) hi l'
  end.

Lemma laid_out_le lo lo' hi l : lo' <= lo -> laid_out lo hi l -> laid_out lo' hi l.
Proof. destruct l as [|[o n] l]; cbn; [lia |]. intros ? (?&?&?&?). repeat split; try done. lia. Qed.

Lemma laid_out_app lo mid hi l1 l2 : laid_out lo mid l1 -> laid_out mid hi l2 -> laid_out lo hi (l1 ++ l2).
Proof.
  revert lo. induction l1 as [|[o n] l1 IH]; cbn; intros lo H1 H2; [by apply (laid_out_le mid) |].
  destruct H1 as (?&?&?&?). repeat split; try done. by apply IH.
Qed.

Lemma laid_out_array f s o n :
  (forall i, 0 <= i < n -> laid_out (o + i * s) (o + (i + 1) * s) (f i)) -> 0 <= n ->
  laid_out o (o + n * s) (concat (f <$> seqZ 0 n)).
Proof.
  intros Hf Hn. revert Hf. pattern n. apply natlike_ind; [| |done]; clear n Hn; [intros _; change (o <= o + 0 * s); lia |].
  intros n Hn IH Hf. replace (Z.succ n) with (n + 1) by lia. rewrite seqZ_app, fmap_app, concat_app by lia.
  eapply laid_out_app; [apply IH; intros i Hi; apply Hf; lia |]. change (seqZ (0 + n) 1) with [0 + n]. cbn [fmap list_fmap concat].
  rewrite app_nil_r. replace (0 + n) with n by lia. apply Hf. lia.
Qed.

Lemma laid_out_fields o a (fs : list (string * ctype)) p :
  (a | o) -> forallb (fun f => ctype_ok (snd f)) fs = true -> Forall (fun f => (alignof (snd f) | a)) fs ->
  Forall (fun f => forall o, ctype_ok (snd f) = true -> (alignof (snd f) | o) -> laid_out o (o + sizeof (snd f)) (scalars o (snd f))) fs ->
  laid_out (o + p) (o + foldl (fun o f => next_aligned o (alignof (snd f)) + sizeof (snd f)) p fs)
    ((fix go (p : Z) (fs : list (string * ctype)) : list (Z * Z) :=
         match fs with
         | [] => []
         | f :: fs' => let q := next_aligned p (alignof (snd f)) in scalars (o + q) (snd f) ++ go (q + sizeof (snd f)) fs'
         end) p fs).
Proof.
  intros Ho. revert p. induction fs as [|f fs IH]; intros p H Hd Hl; [cbn; lia |].
  cbn in H. apply andb_prop in H as [H1 H2]. inversion_clear Hd as [|? ? Hd1 Hd2]. inversion_clear Hl as [|? ? Hl1 Hl2].
  destruct (next_aligned_spec p _ (alignof_pos _ H1)) as [Hq Hqd]. cbn [foldl]. cbv zeta.
  eapply laid_out_app; [apply (laid_out_le (o + next_aligned p (alignof f.2))); [lia |]; apply Hl1; [done |] |].
  - apply Z.divide_add_r; [by transitivity a |done].
  - rewrite <- Z.add_assoc. by apply IH.
Qed.

Lemma scalars_laid_out t o :
  ctype_ok t = true -> (alignof t | o) -> laid_out o (o + sizeof t) (scalars o t).
Proof.
  revert o. induction t as [n|t n IH|fs IH] using ctype_nested_ind; intros o H Ho.
  - cbn in *. nv_bool. repeat split; try done; lia.
  - cbn in *. apply andb_prop in H as [Hn H]. apply Z.leb_le in Hn. apply laid_out_array; [|done]. intros i Hi.
    replace (o + (i + 1) * sizeof t) with (o + i * sizeof t + sizeof t) by lia. apply IH; [done |].
    apply Z.divide_add_r; [done |]. apply Z.divide_mul_r. by apply sizeof_ok.
  - destruct (struct_align fs (fields_ok_aligned fs H) H) as [Ha Hd].
    pose proof (laid_out_fields o _ fs 0 Ho H Hd) as Hl. cbn -[next_aligned]. rewrite Z.add_0_r in Hl.
    rewrite <- (app_nil_r (_ 0 fs)). eapply laid_out_app; [apply Hl |].
    + eapply Forall_impl; [exact IH |]. intros f Hf o' H1 H2. by apply Hf.
    + cbn -[next_aligned]. pose proof (next_aligned_spec (foldl (fun o f => next_aligned o (alignof (snd f)) + sizeof (snd f)) 0 fs) (foldr (fun f a => Z.max (alignof (snd f)) a) 1 fs)).
      destruct Ha as [?|[?|[?|?]]]; lia.
Qed.

(** Every structure of the two headers. *)
Definition abi_structs : list ctype :=
  [nvb0b5_allocation_parameters; nv_gr_allocation_parameters; nv83de_alloc_parameters; rs_access_mask;
   nvos21_parameters; nvos64_parameters; nvos00_parameters; nvos54_parameters; nvos55_parameters;
   nvos57_parameters; nv_ioctl_nvos02_parameters_with_fd; nv_ioctl_nvos33_parameters_with_fd;
   nv_ioctl_nvos34_parameters; nvos56_parameters; nvos32_parameters; nvos46_parameters; nvos47_parameters;
   nv_ioctl_idle_channels; nv_pci_info; nv_ioctl_card_info; nv_ioctl_rm_api_version; nv_ioctl_sys_params;
   nv_ioctl_alloc_os_event; nv_ioctl_free_os_event; nv_ioctl_register_fd; nv_ioctl_wait_open_complete;
   nv_ioctl_numa_info; nv_ioctl_export_to_dmabuf_fd; nv_ioctl_alloc_context_dma2; nv0080_alloc_parameters;
   nv2080_alloc_parameters; nv00de_alloc_parameters_v545; nv_vaspace_allocation_parameters;
   nv_channel_group_allocation_parameters; nv_ctxshare_allocation_parameters; nv0005_alloc_parameters;
   nv_memory_desc_params; nv_channel_alloc_params_v570; nv_memory_virtual_allocation_params;
   nv_semaphore_surface_alloc_parameters; nv_context_dma_allocation_params; nva0bc_alloc_parameters;
   nv503c_alloc_parameters; nv_memory_allocation_params_v545; nv0000_ctrl_system_get_build_version_params;
   nv0080_ctrl_gpu_get_num_subdevices_params; nv0080_ctrl_gpu_get_virtualization_mode_params;
   uvm_initialize_params; uvm_deinitialize_params; uvm_mm_initialize_params; uvm_uuid;
   uvm_register_gpu_params; uvm_unregister_gpu_params; uvm_register_gpu_vaspace_params;
   uvm_unregister_gpu_vaspace_params; uvm_register_channel_params; uvm_unregister_channel_params;
   uvm_create_range_group_params; uvm_destroy_range_group_params; uvm_set_range_group_params;
   uvm_gpu_mapping_attributes; uvm_map_external_allocation_params; uvm_free_params; uvm_migrate_params;
   uvm_set_preferred_location_params; uvm_unset_preferred_location_params; uvm_set_accessed_by_params;
   uvm_unset_accessed_by_params; uvm_enable_peer_access_params; uvm_disable_peer_access_params;
   uvm_create_external_range_params; uvm_validate_va_range_params; uvm_pageable_mem_access_params;
   uvm_pageable_mem_access_on_gpu_params; uvm_alloc_semaphore_pool_params].

(** A structure is sound when its scalars lie inside it in the order declared, each on
    a multiple of its width and apart from the one before, and an array of it keeps
    every element aligned. *)
Definition sound_layout (t : ctype) : Prop := 0 < sizeof t /\ (alignof t | sizeof t) /\ laid_out 0 (sizeof t) (scalars 0 t).

(** The structures of the two headers are laid out so. *)
Lemma struct_layouts : Forall sound_layout abi_structs.
Proof.
  assert (forallb (fun t => ctype_ok t && (0 <? sizeof t)) abi_structs = true) as Hok by (vm_compute; reflexivity).
  apply Forall_forall. intros t Ht%list_elem_of_In. rewrite forallb_forall in Hok. specialize (Hok t Ht). nv_bool.
  split; [lia |]. split; [by apply sizeof_ok |]. apply (scalars_laid_out t 0); [done | apply Z.divide_0_r].
Qed.

(** Computes sizes and offsets, in the goal and in a hypothesis. *)
Ltac layout_eval :=
  repeat match goal with
  | |- context [offsetof ?t ?f] => let v := eval vm_compute in (offsetof t f) in change (offsetof t f) with v
  | |- context [sizeof ?t] => let v := eval vm_compute in (sizeof t) in change (sizeof t) with v
  end.

Ltac layout_eval_in H :=
  repeat match type of H with
  | context [offsetof ?t ?f] => let v := eval vm_compute in (offsetof t f) in change (offsetof t f) with v in H
  | context [sizeof ?t] => let v := eval vm_compute in (sizeof t) in change (sizeof t) with v in H
  end.

End Layout.
