(* ===== verification/Kmem.v ===== *)
(** * C code of the guest's kernel module: a monad with its rules

    Functions of the module allocate buffers, access them at computed offsets, copy
    from and to the memory of the calling process, and return early.  A buffer is
    reached through a pointer and has a length; an access outside it, or through a
    freed pointer, is a fault, and so is freeing twice.  The memory of the process
    belongs to all its threads: what a copy reads may differ at each moment, so the
    environment gives it as a function of a clock that every such step advances. *)

From S2P Require Import Prelude Bytes.
Local Open Scope Z_scope.
Local Open Scope nv_scope.

Module Kmem.

Record buf := Buf { b_len : Z; b_data : bytes }.

(** What decides the outcome of allocations and copies. *)
Record uenv := UEnv {
  e_alloc : nat -> bool;
  e_mem : nat -> Z -> Z;
  e_readable : nat -> Z -> Z -> bool;
  e_writable : nat -> Z -> Z -> bool
}.

Section kmem.
(** [X]: the state of the module, [V]: what the code does besides. *)
Context {X V : Type}.

Inductive event := EvWrite (addr : Z) (l : list Z) | EvDo (v : V).

Record kst := KSt {
  k_heap : gmap nat buf;
  k_next : nat;
  k_time : nat;
  k_log : list event;
  k_x : X
}.

Inductive outcome (A : Type) := Done (a : A) | Ret (r : Z) | Fault.
Arguments Done {A} a.
Arguments Ret {A} r.
Arguments Fault {A}.

Definition M (A : Type) : Type := kst -> outcome A * kst.

Definition mdone {A} (a : A) : M A := fun s => (Done a, s).
Definition mret {A} (r : Z) : M A := fun s => (Ret r, s).
Definition mfault {A} : M A := fun s => (Fault, s).
Definition mthen {A B} (m : M A) (k : A -> M B) : M B :=
  fun s => match m s with
           | (Done a, s') => k a s'
           | (Ret r, s') => (Ret r, s')
           | (Fault, s') => (Fault, s')
           end.

(** Calling a function: its [return] ends it and not the caller. *)
Definition mcall (m : M unit) : M Z :=
  fun s => match m s with
           | (Done _, s') => (Done 0, s')
           | (Ret r, s') => (Done r, s')
           | (Fault, s') => (Fault, s')
           end.

(** State, clock and log. *)
Definition getx : M X := fun s => (Done (k_x s), s).
Definition putx (x : X) : M unit := fun s => (Done tt, KSt (k_heap s) (k_next s) (k_time s) (k_log s) x).
Definition tick : M nat := fun s => (Done (k_time s), KSt (k_heap s) (k_next s) (S (k_time s)) (k_log s) (k_x s)).
Definition emit (e : event) : M unit := fun s => (Done tt, KSt (k_heap s) (k_next s) (k_time s) (k_log s ++ [e]) (k_x s)).

Definition set_heap (h : gmap nat buf) (s : kst) : kst := KSt h (k_next s) (k_time s) (k_log s) (k_x s).

Infix ">>>" := mthen (at level 61, left associativity).

(** ** Buffers *)

(** Access to [n] bytes at [o] of buffer [p]. *)
Definition at_buf (p : nat) (o n : Z) : M buf := fun s =>
  match k_heap s !! p with
  | Some b => if (0 <=? o) && (0 <=? n) && (o + n <=? b_len b) then (Done b, s) else (Fault, s)
  | None => (Fault, s)
  end.

Definition set_data (p : nat) (b : buf) (d : bytes) : M unit := fun s =>
  (Done tt, set_heap (<[p := Buf (b_len b) d]> (k_heap s)) s).

Definition ld8 (p : nat) (o : Z) : M Z := at_buf p o 1 >>> (fun b => mdone (get8 (b_data b) o)).
Definition ld32 (p : nat) (o : Z) : M Z := at_buf p o 4 >>> (fun b => mdone (get32 (b_data b) o)).
Definition ld64 (p : nat) (o : Z) : M Z := at_buf p o 8 >>> (fun b => mdone (get64 (b_data b) o)).
Definition st32 (p : nat) (o v : Z) : M unit := at_buf p o 4 >>> (fun b => set_data p b (put32 (b_data b) o v)).
Definition st64 (p : nat) (o v : Z) : M unit := at_buf p o 8 >>> (fun b => set_data p b (put64 (b_data b) o v)).

(** [memcpy] out of and into a buffer. *)
Definition rdbuf (p : nat) (o n : Z) : M (list Z) := at_buf p o n >>> (fun b => mdone (read_bytes (b_data b) o n)).
Definition wrbuf (p : nat) (o : Z) (l : list Z) : M unit :=
  at_buf p o (Z.of_nat (length l)) >>> (fun b => set_data p b (write_bytes (b_data b) o l)).

Definition kfree (p : option nat) : M unit := fun s =>
  match p with
  | None => (Done tt, s)
  | Some p => match k_heap s !! p with
              | Some _ => (Done tt, set_heap (delete p (k_heap s)) s)
              | None => (Fault, s)
              end
  end.

Section copies.
Context (E : uenv).

Definition kzalloc (n : Z) : M (option nat) :=
  tick >>> (fun t s =>
    if e_alloc E t
    then (Done (Some (k_next s)), KSt (<[k_next s := Buf n ∅]> (k_heap s)) (S (k_next s)) (k_time s) (k_log s) (k_x s))
    else (Done None, s)).

(** The bytes at [addr] at a moment. *)
Definition umem (t : nat) (addr n : Z) : list Z := (fun k => u8 (e_mem E t (addr + k))) <$> seqZ 0 n.

(** [copy_from_user], [true] when all was copied. *)
Definition read_user (addr n : Z) : M (option (list Z)) :=
  tick >>> (fun t => mdone (if e_readable E t addr n then Some (umem t addr n) else None)).

Definition copy_from_user (p : nat) (o addr n : Z) : M bool :=
  at_buf p o n >>> (fun _ => read_user addr n >>> (fun l =>
    match l with Some l => wrbuf p o l >>> (fun _ => mdone true) | None => mdone false end)).

Definition write_user (addr : Z) (l : list Z) : M bool :=
  tick >>> (fun t =>
    if e_writable E t addr (Z.of_nat (length l)) then emit (EvWrite addr l) >>> (fun _ => mdone true) else mdone false).

Definition copy_to_user (addr : Z) (p : nat) (o n : Z) : M bool := rdbuf p o n >>> write_user addr.

End copies.

(** [for (i = i0; n times; i++)], left by [false]. *)
Fixpoint mloop {A} (body : Z -> A -> M (bool * A)) (n : nat) (i : Z) (a : A) : M A :=
  match n with
  | O => mdone a
  | S n => body i a >>> (fun r => if fst r then mloop body n (i + 1) (snd r) else mdone (snd r))
  end.

(** ** What holds after a run

    [Q] where it runs on, [R] where it returns, [F] where it faults. *)
Definition wp {A} (m : M A) (Q : A -> kst -> Prop) (R : Z -> kst -> Prop) (F : kst -> Prop) (s : kst) : Prop :=
  match m s with (Done a, s') => Q a s' | (Ret r, s') => R r s' | (Fault, s') => F s' end.

Lemma wp_then {A B} (m : M A) (k : A -> M B) Q R F s :
  wp m (fun a s' => wp (k a) Q R F s') R F s -> wp (mthen m k) Q R F s.
Proof. unfold wp, mthen. by destruct (m s) as [[a|r|] s']. Qed.

Lemma wp_mono {A} (m : M A) (Q Q' : A -> kst -> Prop) (R R' : Z -> kst -> Prop) (F F' : kst -> Prop) s :
  wp m Q R F s -> (forall a s', Q a s' -> Q' a s') -> (forall r s', R r s' -> R' r s') -> (forall s', F s' -> F' s') ->
  wp m Q' R' F' s.
Proof. unfold wp. destruct (m s) as [[a|r|] s']; auto. Qed.

Lemma wp_and {A} (m : M A) (Q Q' : A -> kst -> Prop) (R R' : Z -> kst -> Prop) (F F' : kst -> Prop) s :
  wp m Q R F s -> wp m Q' R' F' s ->
  wp m (fun a s' => Q a s' /\ Q' a s') (fun r s' => R r s' /\ R' r s') (fun s' => F s' /\ F' s') s.
Proof. unfold wp. destruct (m s) as [[a|r|] s']; auto. Qed.

(** Where only the result of the rest matters. *)
Lemma wp_skip {A B} (m : M A) (k : A -> M B) (Q : B -> kst -> Prop) s :
  (forall a s', wp (k a) Q (fun _ _ => True) (fun _ => True) s') -> wp (mthen m k) Q (fun _ _ => True) (fun _ => True) s.
Proof. intros Hk. unfold wp, mthen in *. destruct (m s) as [[a|r|] s']; [apply Hk | done | done]. Qed.

Lemma wp_done {A} (a : A) (Q : A -> kst -> Prop) R F s : Q a s -> wp (mdone a) Q R F s.
Proof. done. Qed.

Lemma wp_ret {A} r (Q : A -> kst -> Prop) (R : Z -> kst -> Prop) F s : R r s -> wp (mret r) Q R F s.
Proof. done. Qed.

Lemma wp_call m (Q : Z -> kst -> Prop) R F s : wp m (fun _ => Q 0) Q F s -> wp (mcall m) Q R F s.
Proof. unfold wp, mcall. by destruct (m s) as [[a|r|] s']. Qed.

Lemma wp_loop {A} (I : Z -> A -> kst -> Prop) (body : Z -> A -> M (bool * A)) n i a (Q : A -> kst -> Prop) R F s :
  I i a s ->
  (forall j b s', i <= j < i + Z.of_nat n -> I j b s' ->
     wp (body j b) (fun r s'' => if fst r then I (j + 1) (snd r) s'' else Q (snd r) s'') R F s') ->
  (forall b s', I (i + Z.of_nat n) b s' -> Q b s') -> wp (mloop body n i a) Q R F s.
Proof.
  revert i a s. induction n as [|n IH]; intros i a s HI Hb HQ; cbn [mloop].
  - apply wp_done, HQ. by rewrite Z.add_0_r.
  - apply wp_then. eapply wp_mono; [apply (Hb i a s); [lia | done] | | done | done].
    intros [[] b] s' Hs; cbn [fst snd] in *; [|done]. apply IH; [done | |].
    + intros j c s'' Hj. apply Hb. lia.
    + intros c s'' Hc. apply HQ. by replace (i + Z.of_nat (S n)) with (i + 1 + Z.of_nat n) by lia.
Qed.

(** ** Buffers held

    The buffers [l] by pointer and length, on top of those there were. *)
Record live (h0 : gmap nat Z) (l : list (nat * Z)) (s : kst) : Prop := {
  l_shape : b_len <$> k_heap s = list_to_map l ∪ h0;
  l_nodup : NoDup l.*1;
  l_apart : forall p, p ∈ l.*1 -> h0 !! p = None;
  l_fresh : forall p, is_Some (k_heap s !! p) -> (p < k_next s)%nat
}.

Definition holds (s : kst) (p : nat) (n : Z) : Prop := b_len <$> k_heap s !! p = Some n.

Lemma live_holds h0 l s p n : live h0 l s -> (p, n) ∈ l -> holds s p n.
Proof.
  intros Hl Hp. unfold holds. rewrite <- lookup_fmap, (l_shape _ _ _ Hl).
  apply lookup_union_Some_l. apply elem_of_list_to_map_1; [apply (l_nodup _ _ _ Hl) | done].
Qed.

Lemma live_perm h0 l l' s : l ≡ₚ l' -> live h0 l s -> live h0 l' s.
Proof.
  intros Hp [H1 H2 H3 H4]. split; [|by rewrite <- Hp | intros p; rewrite <- Hp; apply H3 | done].
  rewrite H1. f_equal. by apply list_to_map_proper.
Qed.

Lemma live_same h0 l s s' :
  live h0 l s -> b_len <$> k_heap s' = b_len <$> k_heap s -> k_next s' = k_next s -> live h0 l s'.
Proof.
  intros [H1 H2 H3 H4] Hh Hn. split; [by rewrite Hh | done | done |]. rewrite Hn. intros p Hp. apply H4.
  rewrite <- (fmap_is_Some b_len), <- lookup_fmap, <- Hh, lookup_fmap. by apply fmap_is_Some.
Qed.

Lemma live_alloc h0 l s n d :
  live h0 l s ->
  live h0 ((k_next s, n) :: l) (KSt (<[k_next s := Buf n d]> (k_heap s)) (S (k_next s)) (k_time s) (k_log s) (k_x s)).
Proof.
  intros [H1 H2 H3 H4].
  assert (k_heap s !! k_next s = None) as Hn.
  { destruct (k_heap s !! k_next s) eqn:E; [|done]. pose proof (H4 (k_next s) ltac:(rewrite E; by eexists)). lia. }
  assert ((list_to_map l ∪ h0 : gmap nat Z) !! k_next s = None) as Hl.
  { rewrite <- H1, lookup_fmap, Hn. done. }
  apply lookup_union_None in Hl as [Hl1 Hl2]. split; cbn [k_heap k_next].
  - rewrite fmap_insert, H1. cbn [list_to_map foldr fst snd b_len]. apply insert_union_l.
  - cbn. apply NoDup_cons. split; [|done]. by apply not_elem_of_list_to_map.
  - intros p. cbn. rewrite elem_of_cons. intros [->|Hp]; [done | by apply H3].
  - intros p Hp. destruct (decide (p = k_next s)) as [->|]; [lia |].
    rewrite lookup_insert_ne in Hp by done. specialize (H4 p Hp). lia.
Qed.

Lemma live_free h0 l s p n :
  live h0 ((p, n) :: l) s -> is_Some (k_heap s !! p) /\ live h0 l (set_heap (delete p (k_heap s)) s).
Proof.
  intros Hl. pose proof (live_holds _ _ _ p n Hl ltac:(left)) as Hp. unfold holds in Hp.
  destruct Hl as [H1 H2 H3 H4]. cbn in H2, H3. apply NoDup_cons in H2 as [H2 H2'].
  split; [destruct (k_heap s !! p); [by eexists | done] |]. split; cbn [k_heap k_next set_heap].
  - rewrite fmap_delete, H1. cbn [list_to_map foldr fst snd]. rewrite delete_union, delete_insert_eq.
    rewrite (delete_id (list_to_map l)) by by apply not_elem_of_list_to_map.
    rewrite (delete_id h0); [done |]. apply H3. by left.
  - done.
  - intros q Hq. apply H3. by right.
  - intros q Hq. apply H4. destruct (decide (q = p)) as [->|]; [by rewrite lookup_delete_eq in Hq; destruct Hq |].
    by rewrite lookup_delete_ne in Hq.
Qed.

(** ** Rules *)

Lemma wp_getx (Q : X -> kst -> Prop) R F s : Q (k_x s) s -> wp getx Q R F s.
Proof. done. Qed.

Lemma wp_putx x (Q : unit -> kst -> Prop) R F s :
  Q tt (KSt (k_heap s) (k_next s) (k_time s) (k_log s) x) -> wp (putx x) Q R F s.
Proof. done. Qed.

Lemma wp_tick (Q : nat -> kst -> Prop) R F s :
  Q (k_time s) (KSt (k_heap s) (k_next s) (S (k_time s)) (k_log s) (k_x s)) -> wp tick Q R F s.
Proof. done. Qed.

Lemma wp_emit e (Q : unit -> kst -> Prop) R F s :
  Q tt (KSt (k_heap s) (k_next s) (k_time s) (k_log s ++ [e]) (k_x s)) -> wp (emit e) Q R F s.
Proof. done. Qed.

Lemma wp_at_buf p o n m (Q : buf -> kst -> Prop) R F s :
  holds s p m -> 0 <= o -> 0 <= n -> o + n <= m ->
  (forall b, k_heap s !! p = Some b -> b_len b = m -> Q b s) -> wp (at_buf p o n) Q R F s.
Proof.
  unfold holds, wp, at_buf. intros Hp Ho Hn Hm HQ. destruct (k_heap s !! p) as [b|] eqn:E; [|done].
  cbn in Hp. injection Hp as Hp.
  rewrite (proj2 (Z.leb_le 0 o) Ho), (proj2 (Z.leb_le 0 n) Hn), (proj2 (Z.leb_le (o + n) (b_len b))) by lia. by apply HQ.
Qed.

Lemma shape_store (s : kst) p b d : k_heap s !! p = Some b -> b_len <$> <[p := Buf (b_len b) d]> (k_heap s) = b_len <$> k_heap s.
Proof.
  intros Hp. apply map_eq. intros q. rewrite !lookup_fmap. destruct (decide (q = p)) as [->|].
  - by rewrite lookup_insert_eq, Hp.
  - by rewrite lookup_insert_ne.
Qed.

(** The rules for code that holds the buffers [l]. *)
Section rules.
Context (h0 : gmap nat Z) (l : list (nat * Z)) (s : kst).

Lemma live_log e : live h0 l s -> live h0 l (KSt (k_heap s) (k_next s) (k_time s) (k_log s ++ [e]) (k_x s)).
Proof. intros H. by apply (live_same _ _ _ _ H). Qed.

Lemma live_time : live h0 l s -> live h0 l (KSt (k_heap s) (k_next s) (S (k_time s)) (k_log s) (k_x s)).
Proof. intros H. by apply (live_same _ _ _ _ H). Qed.

Lemma live_x x : live h0 l s -> live h0 l (KSt (k_heap s) (k_next s) (k_time s) (k_log s) x).
Proof. intros H. by apply (live_same _ _ _ _ H). Qed.

Lemma live_store p b d : live h0 l s -> k_heap s !! p = Some b -> live h0 l (set_heap (<[p := Buf (b_len b) d]> (k_heap s)) s).
Proof. intros H Hp. apply (live_same _ _ _ _ H); [by apply shape_store | done]. Qed.

Section access.
Context (p : nat) (n o : Z) (R : Z -> kst -> Prop) (F : kst -> Prop).
Context (Hl : live h0 l s) (Hp : (p, n) ∈ l) (Ho : 0 <= o).

Lemma wp_ld8 (Q : Z -> kst -> Prop) : o + 1 <= n -> (forall v, 0 <= v < 2 ^ 8 -> Q v s) -> wp (ld8 p o) Q R F s.
Proof.
  intros Hn HQ. apply wp_then, (wp_at_buf _ _ _ n); [by eapply live_holds | lia | lia | lia |].
  intros b _ _. apply HQ, get8_range.
Qed.

Lemma wp_ld32 (Q : Z -> kst -> Prop) : o + 4 <= n -> (forall v, 0 <= v < 2 ^ 32 -> Q v s) -> wp (ld32 p o) Q R F s.
Proof.
  intros Hn HQ. apply wp_then, (wp_at_buf _ _ _ n); [by eapply live_holds | lia | lia | lia |].
  intros b _ _. apply HQ, get32_range.
Qed.

Lemma wp_ld64 (Q : Z -> kst -> Prop) : o + 8 <= n -> (forall v, 0 <= v < 2 ^ 64 -> Q v s) -> wp (ld64 p o) Q R F s.
Proof.
  intros Hn HQ. apply wp_then, (wp_at_buf _ _ _ n); [by eapply live_holds | lia | lia | lia |].
  intros b _ _. apply HQ, get64_range.
Qed.

Lemma wp_st32 v (Q : unit -> kst -> Prop) : o + 4 <= n -> (forall s', live h0 l s' -> Q tt s') -> wp (st32 p o v) Q R F s.
Proof.
  intros Hn HQ. apply wp_then, (wp_at_buf _ _ _ n); [by eapply live_holds | lia | lia | lia |].
  intros b Hb _. by apply HQ, live_store.
Qed.

Lemma wp_st64 v (Q : unit -> kst -> Prop) : o + 8 <= n -> (forall s', live h0 l s' -> Q tt s') -> wp (st64 p o v) Q R F s.
Proof.
  intros Hn HQ. apply wp_then, (wp_at_buf _ _ _ n); [by eapply live_holds | lia | lia | lia |].
  intros b Hb _. by apply HQ, live_store.
Qed.

Lemma wp_rdbuf m (Q : list Z -> kst -> Prop) :
  0 <= m -> o + m <= n -> (forall v, Z.of_nat (length v) = m -> Q v s) -> wp (rdbuf p o m) Q R F s.
Proof.
  intros Hm Hn HQ. apply wp_then, (wp_at_buf _ _ _ n); [by eapply live_holds | lia | lia | lia |].
  intros b _ _. apply HQ. rewrite length_read_bytes. lia.
Qed.

Lemma wp_wrbuf v (Q : unit -> kst -> Prop) :
  o + Z.of_nat (length v) <= n -> (forall s', live h0 l s' -> Q tt s') -> wp (wrbuf p o v) Q R F s.
Proof.
  intros Hn HQ. apply wp_then, (wp_at_buf _ _ _ n); [by eapply live_holds | lia | lia | lia |].
  intros b Hb _. by apply HQ, live_store.
Qed.
End access.

Lemma wp_kzalloc E n (Q : option nat -> kst -> Prop) R F :
  live h0 l s -> (forall s', live h0 l s' -> Q None s') -> (forall p s', live h0 ((p, n) :: l) s' -> Q (Some p) s') ->
  wp (kzalloc E n) Q R F s.
Proof.
  intros Hl HN HS. unfold kzalloc. apply wp_then, wp_tick. unfold wp. destruct (e_alloc E _).
  - apply HS. apply (live_alloc h0 l (KSt (k_heap s) (k_next s) (S (k_time s)) (k_log s) (k_x s)) n ∅). by apply live_time.
  - apply HN. by apply live_time.
Qed.

Lemma wp_kfree p n l' (Q : unit -> kst -> Prop) R F :
  live h0 l s -> l ≡ₚ (p, n) :: l' -> (forall s', live h0 l' s' -> Q tt s') -> wp (kfree (Some p)) Q R F s.
Proof.
  intros Hl Hp HQ. destruct (live_free h0 l' s p n) as [[b Hb] Hf]; [by apply (live_perm _ l) |].
  unfold wp, kfree. rewrite Hb. by apply HQ.
Qed.

Lemma wp_read_user E addr n (Q : option (list Z) -> kst -> Prop) R F :
  live h0 l s -> 0 <= n -> (forall s', live h0 l s' -> Q None s') ->
  (forall v s', Z.of_nat (length v) = n -> live h0 l s' -> Q (Some v) s') -> wp (read_user E addr n) Q R F s.
Proof.
  intros Hl Hn HN HS. unfold read_user. apply wp_then, wp_tick, wp_done. destruct (e_readable E _ _ _).
  - apply HS; [|by apply live_time]. unfold umem. rewrite length_fmap, length_seqZ. lia.
  - apply HN. by apply live_time.
Qed.

Lemma wp_write_user E addr v (Q : bool -> kst -> Prop) R F :
  live h0 l s -> (forall b s', live h0 l s' -> Q b s') -> wp (write_user E addr v) Q R F s.
Proof.
  intros Hl HQ. unfold write_user. apply wp_then, wp_tick. destruct (e_writable E _ _ _).
  - apply wp_then, wp_emit, wp_done, HQ. by apply (live_same _ _ _ _ Hl).
  - apply wp_done, HQ. by apply live_time.
Qed.
End rules.

Lemma wp_copy_from_user h0 l s E p m o addr n (Q : bool -> kst -> Prop) R F :
  live h0 l s -> (p, m) ∈ l -> 0 <= o -> 0 <= n -> o + n <= m -> (forall b s', live h0 l s' -> Q b s') ->
  wp (copy_from_user E p o addr n) Q R F s.
Proof.
  intros Hl Hp Ho Hn Hm HQ. unfold copy_from_user. apply wp_then, (wp_at_buf _ _ _ m); [by eapply live_holds | lia | lia | lia |].
  intros b _ _. apply wp_then, (wp_read_user h0 l); [done | done | |].
  - intros s' Hs. by apply wp_done, HQ.
  - intros v s' Hv Hs. apply wp_then. apply (wp_wrbuf h0 l s' p m); [done | done | done | lia |].
    intros s'' Hs''. by apply wp_done, HQ.
Qed.

Lemma wp_copy_to_user h0 l s E p m o addr n (Q : bool -> kst -> Prop) R F :
  live h0 l s -> (p, m) ∈ l -> 0 <= o -> 0 <= n -> o + n <= m -> (forall b s', live h0 l s' -> Q b s') ->
  wp (copy_to_user E addr p o n) Q R F s.
Proof.
  intros Hl Hp Ho Hn Hm HQ. unfold copy_to_user. apply wp_then, (wp_rdbuf h0 l s p m); [done | done | done | done | done |].
  intros v Hv. by apply (wp_write_user h0 l).
Qed.

End kmem.

Arguments Done {A} a.
Arguments Ret {A} r.
Arguments Fault {A}.
Arguments event : clear implicits.
Arguments kst : clear implicits.
Arguments M : clear implicits.

End Kmem.

Notation "'do' x <- m ;;; k" := (Kmem.mthen m (fun x => k)) (at level 62, x name, m at next level, right associativity) : nv_scope.
Notation "m ;;; k" := (Kmem.mthen m (fun _ => k)) (at level 62, right associativity) : nv_scope.
