(* ===== verification/GuestIoctl.v ===== *)
(** * Ioctls in the guest module
      ([src/guest/nvkvm_ioctl.c], [nvkvm_ioctl] of [src/guest/nvkvm_main.c])

    An ioctl on one of the module's device files: the size of its parameters, the
    copy of the buffers they point at, the replacement of descriptors by handle
    ids and of pointers by zero, the cache of validated ranges, the retries after a
    fault in the isolate, and the copies back to the caller.  Allocations, copies
    and other threads' writes to the caller's memory are those of [Kmem]; the file
    table, the transport and the migration of pages are arguments. *)

From S2P Require Import Prelude Bytes Abi Allowlists UvmVa HandleTable Sessions IsoMmap IoctlGate StubIoctl StubWire Layout Kmem.
From stdpp Require Import strings.
Local Open Scope string_scope.
Local Open Scope list_scope.
Local Open Scope Z_scope.
Local Open Scope nv_scope.

Module GuestIoctl.
Import Kmem Layout Allow.

(** ** Sizes *)

Definition ioc_size (cmd : Z) : Z := Z.land (Z.shiftr cmd 16) 0x3fff.

Definition NVKVM_SHM_SLOT_DEFAULT_SIZE : Z := 64 * 1024.
Definition NV_IOCTL_CARD_INFO_MAX_ENTRIES : Z := 32.

(** UVM commands, by the full command word. *)
Definition uvm_param_size (prof : Abi.abi_profile) (cmd : Z) : option Z :=
  if cmd =? 0x30000001 then Some (sizeof uvm_initialize_params)
  else if cmd =? 0x30000002 then Some (sizeof uvm_deinitialize_params)
  else if cmd =? 75 then Some (sizeof uvm_mm_initialize_params)
  else if cmd =? 37 then Some (sizeof uvm_register_gpu_params)
  else if cmd =? 38 then Some (sizeof uvm_unregister_gpu_params)
  else if cmd =? 25 then Some (sizeof uvm_register_gpu_vaspace_params)
  else if cmd =? 26 then Some (sizeof uvm_unregister_gpu_vaspace_params)
  else if cmd =? 27 then Some (sizeof uvm_register_channel_params)
  else if cmd =? 28 then Some (sizeof uvm_unregister_channel_params)
  else if cmd =? 23 then Some (sizeof uvm_create_range_group_params)
  else if cmd =? 24 then Some (sizeof uvm_destroy_range_group_params)
  else if cmd =? 31 then Some (sizeof uvm_set_range_group_params)
  else if cmd =? 33 then Some (Abi.uvm_map_ext_size prof)
  else if cmd =? 34 then Some (sizeof uvm_free_params)
  else if cmd =? 51 then Some (sizeof uvm_migrate_params)
  else if cmd =? 42 then Some (sizeof uvm_set_preferred_location_params)
  else if cmd =? 43 then Some (sizeof uvm_unset_preferred_location_params)
  else if cmd =? 46 then Some (sizeof uvm_set_accessed_by_params)
  else if cmd =? 47 then Some (sizeof uvm_unset_accessed_by_params)
  else if cmd =? 29 then Some (sizeof uvm_enable_peer_access_params)
  else if cmd =? 30 then Some (sizeof uvm_disable_peer_access_params)
  else if cmd =? 73 then Some (sizeof uvm_create_external_range_params)
  else if cmd =? 72 then Some (sizeof uvm_validate_va_range_params)
  else if cmd =? 39 then Some (sizeof uvm_pageable_mem_access_params)
  else if cmd =? 70 then Some (sizeof uvm_pageable_mem_access_on_gpu_params)
  else if cmd =? 68 then Some (Abi.uvm_sem_pool_size prof)
  else None.

(** Front-end commands, by their number. *)
Definition fe_param_size (prof : Abi.abi_profile) (cmd : Z) : option Z :=
  let nr := ioc_nr cmd in
  let sz := ioc_size cmd in
  if nr =? 0xc8 then
    (if (sz =? 0) || (sizeof nv_ioctl_card_info * NV_IOCTL_CARD_INFO_MAX_ENTRIES <? sz) then None else Some sz)
  else if nr =? 0xc9 then Some (sizeof nv_ioctl_register_fd)
  else if nr =? 0xce then Some (sizeof nv_ioctl_alloc_os_event)
  else if nr =? 0xcf then Some (sizeof nv_ioctl_free_os_event)
  else if nr =? 0xd2 then Some (sizeof nv_ioctl_rm_api_version)
  else if nr =? 0xd6 then Some (sizeof nv_ioctl_sys_params)
  else if nr =? 0xd7 then (if sz =? 0 then None else Some sz)
  else if nr =? 0xda then Some (sizeof nv_ioctl_wait_open_complete)
  else if nr =? 0xd4 then Some sz
  else if nr =? 0x27 then Some (sizeof nv_ioctl_nvos02_parameters_with_fd)
  else if nr =? 0x29 then Some (sizeof nvos00_parameters)
  else if nr =? 0x2a then Some (sizeof nvos54_parameters)
  else if nr =? 0x2b then
    (if (sz =? sizeof nvos21_parameters) || (sz =? sizeof nvos64_parameters) then Some sz else None)
  else if nr =? 0x34 then Some (sizeof nvos55_parameters)
  else if nr =? 0x35 then Some (sizeof nvos57_parameters)
  else if nr =? 0x4a then Some (sizeof nvos32_parameters)
  else if nr =? 0x4e then Some (sizeof nv_ioctl_nvos33_parameters_with_fd)
  else if nr =? 0x4f then Some (sizeof nv_ioctl_nvos34_parameters)
  else if nr =? 0x57 then Some (Abi.nvos46_size prof)
  else if nr =? 0x58 then Some (sizeof nvos47_parameters)
  else if nr =? 0x41 then Some (sizeof nv_ioctl_idle_channels)
  else if nr =? 0x54 then Some (sizeof nv_ioctl_alloc_context_dma2)
  else if nr =? 0x5e then Some (sizeof nvos56_parameters)
  else if nr =? 0x70 then Some (sizeof nv_ioctl_export_to_dmabuf_fd)
  else None.

Definition nvkvm_ioctl_param_size (prof : Abi.abi_profile) (cmd : Z) : option Z :=
  if cmd =? NVKVM_NVKMS_IOCTL_CMD then Some StubIoctl.NVKVM_NVKMS_PARAMS_SIZE
  else match uvm_param_size prof cmd with Some n => Some n | None => fe_param_size prof cmd end.

(** The size of a class's allocation parameters, 0 where there is none. *)
Definition class_params_size (prof : Abi.abi_profile) (h_class : Z) : Z :=
  if h_class =? 0x80 then sizeof nv0080_alloc_parameters
  else if h_class =? 0x2080 then sizeof nv2080_alloc_parameters
  else if h_class =? 0xDE then Abi.nv00de_alloc_size prof
  else if h_class =? 0x90F1 then Abi.vaspace_alloc_size prof
  else if h_class =? 0x70 then sizeof nv_memory_virtual_allocation_params
  else if h_class =? 0xda then sizeof nv_semaphore_surface_alloc_parameters
  else if h_class =? 0x2 then sizeof nv_context_dma_allocation_params
  else if h_class =? 0xa0bc then sizeof nva0bc_alloc_parameters
  else if h_class =? 0x503c then sizeof nv503c_alloc_parameters
  else if listed h_class [0x50A0; 0x40; 0x3E] then Abi.mem_alloc_size prof
  else if h_class =? 0xA06C then sizeof nv_channel_group_allocation_parameters
  else if h_class =? 0x9067 then sizeof nv_ctxshare_allocation_parameters
  else if listed h_class [0xC46F; 0xC56F; 0xC86F; 0xC96F; 0xCA6F] then Abi.chan_alloc_size prof
  else if listed h_class [0x79; 0x5] then sizeof nv0005_alloc_parameters
  else if h_class =? 0x9072 then 12
  else if h_class =? 0xfe then 24
  else if listed h_class [0xC3B5; 0xC5B5; 0xC6B5; 0xC7B5; 0xC8B5; 0xC9B5; 0xCAB5] then sizeof nvb0b5_allocation_parameters
  else if h_class =? 0x83DE then sizeof nv83de_alloc_parameters
  else if listed h_class [0xC3C0; 0xC4C0; 0xC5C0; 0xC6C0; 0xC7C0; 0xC9C0; 0xCBC0; 0xCDC0; 0xCEC0;
                          0xC397; 0xC597; 0xC697; 0xC797; 0xC997; 0xCB97] then sizeof nv_gr_allocation_parameters
  else 0.

(** ** State *)

(** One entry of [vcache]. *)
Record vent := VEnt { vc_base : Z; vc_len : Z; vc_status : Z; vc_valid : bool }.

#[export] Instance Zeroed_vent : Zeroed vent := VEnt 0 0 0 false.

Record vas_reg := VasReg { vr_uuid : list Z; vr_ctrl_handle : Z; vr_client : Z; vr_va_space : Z }.
Record uvm_intent := UIntent { ui_mode : Z; ui_base : Z; ui_length : Z; ui_params : list Z }.

(** [struct nvkvm_uvm_fd_state]. *)
Record uvm_fd_state := UvmFd {
  uf_initialized : bool;
  uf_init_flags : Z;
  uf_gpus : list (list Z);
  uf_vas : list vas_reg;
  uf_groups : list Z;
  uf_intents : list uvm_intent
}.

(** What an ioctl changes: the session's cache and the descriptor's UVM record. *)
Record gstate := GState { vcache : gmap Z vent; vcache_next : Z; uvm_rec : uvm_fd_state }.

Definition set_vcache (c : gmap Z vent) (n : Z) (g : gstate) : gstate := GState c n (uvm_rec g).
Definition set_uvm_rec (u : uvm_fd_state) (g : gstate) : gstate := GState (vcache g) (vcache_next g) u.

(** A file of the caller: whether the module made it, and the handle id of its
    context if it has one. *)
Record gfile := GFile { gf_ours : bool; gf_ctx : option Z }.

(** A session as the pid controls see it: the leader's number in the caller's
    namespace (0: not visible) if it has a leader, and its isolate. *)
Record pid_ent := PidEnt { pe_vnr : option Z; pe_isolate : Z }.

(** What leaves the module during an ioctl. *)
Inductive act :=
| A_forward (flags : Z) (param aux : list Z)
| A_ring (param aux : list Z)
| A_reply (ret fault : Z) (param : list Z)
| A_resolve (addr res : Z)
| A_writeback.

Record fwd := Fwd { fw_ret : Z; fw_fault : Z; fw_param : list Z; fw_aux : list Z }.

Record ienv := IEnv {
  i_user : uenv;
  i_fget : nat -> Z -> option gfile;
  i_pids : nat -> list pid_ent;
  i_migrate : nat -> Z -> Z -> Z;
  i_ring : nat -> list Z -> list Z -> option (Z * list Z * list Z);
  i_forward : nat -> Z -> list Z -> list Z -> fwd;
  i_resolve : nat -> Z -> Z
}.

(** The open file: [handle_id], [dev_id], whether it has a UVM record, and
    [session->isolate_id]. *)
Record gctx := GCtx { gc_handle : Z; gc_dev : Z; gc_uvm : bool; gc_isolate : Z }.

Abbreviation GM := (M gstate act).

Section ioctl.
Context (E : ienv) (prof : Abi.abi_profile) (ctx : gctx).

(** ** Descriptors *)

Definition guest_fd_to_handle_id (fd : Z) : GM Z :=
  do t <- tick ;;;
  mdone (match i_fget E t (u32 fd) with
         | None => - EBADF
         | Some f => if negb (gf_ours f) then - EBADF
                     else match gf_ctx f with
                          | None => - EBADF
                          | Some h => if h =? 0 then - EBADF else s32 h
                          end
         end).

(** A descriptor field that a test selects: replaced, or the call refused. *)
Definition swap_fd (p : nat) (off : Z) (pred : Z -> bool) : GM unit :=
  do v <- ld32 p off ;;;
  if pred (s32 v) then
    do hid <- guest_fd_to_handle_id (s32 v) ;;;
    if hid <? 0 then mret (- EBADF) else st32 p off (u32 hid)
  else mdone tt.

Definition given (v : Z) : bool := 0 <=? v.
Definition positive (v : Z) : bool := 0 <? v.

(** NV_ESC_ALLOC_OS_EVENT and NV_ESC_FREE_OS_EVENT. *)
Definition swap_event_fd (p : nat) (off : Z) : GM unit :=
  do v <- ld32 p off ;;;
  if negb (v =? 2 ^ 32 - 1) then
    do t <- tick ;;;
    match i_fget E t v with
    | None => mret (- EBADF)
    | Some f => if negb (gf_ours f) then mret (- EBADF)
                else st32 p off (match gf_ctx f with Some h => if h =? 0 then 2 ^ 32 - 1 else h | None => 2 ^ 32 - 1 end)
    end
  else mdone tt.

(** NV_ESC_RM_ALLOC_MEMORY: memory described by an address of the caller is first
    migrated, and its address kept. *)
Definition sanitize_alloc_memory (p : nat) : GM unit :=
  let T := nv_ioctl_nvos02_parameters_with_fd in
  swap_fd p (offsetof T "fd") positive ;;;
  do h_class <- ld32 p (offsetof T "h_class") ;;;
  do p_memory <- ld64 p (offsetof T "p_memory") ;;;
  do limit <- ld64 p (offsetof T "limit") ;;;
  if (h_class =? 0x71) && negb (p_memory =? 0) && (0 <? limit) then
    do t <- tick ;;;
    let r := i_migrate E t p_memory (u64 (limit + 1)) in
    if r =? 0 then mdone tt else mret r
  else st64 p (offsetof T "p_memory") 0.

Definition sanitize_frontend (nr : Z) (p : nat) (size : Z) : GM unit :=
  if nr =? 0x2b then
    if size =? sizeof nvos64_parameters then
      st64 p (offsetof nvos64_parameters "p_alloc_parms") 0 ;;;
      st64 p (offsetof nvos64_parameters "p_rights_requested") 0
    else if size =? sizeof nvos21_parameters then st64 p (offsetof nvos21_parameters "p_alloc_parms") 0
    else mdone tt
  else if nr =? 0x2a then st64 p (offsetof nvos54_parameters "params") 0
  else if nr =? 0x27 then sanitize_alloc_memory p
  else if nr =? 0x4e then
    st64 p (offsetof nv_ioctl_nvos33_parameters_with_fd "p_linear_address") 0 ;;;
    swap_fd p (offsetof nv_ioctl_nvos33_parameters_with_fd "fd") given
  else if nr =? 0x4f then st64 p (offsetof nv_ioctl_nvos34_parameters "p_linear_address") 0
  else if nr =? 0x5e then
    st64 p (offsetof nvos56_parameters "p_old_cpu_address") 0 ;;;
    st64 p (offsetof nvos56_parameters "p_new_cpu_address") 0
  else if nr =? 0x41 then
    st64 p (offsetof nv_ioctl_idle_channels "p_clients") 0 ;;;
    st64 p (offsetof nv_ioctl_idle_channels "p_devices") 0 ;;;
    st64 p (offsetof nv_ioctl_idle_channels "p_channels") 0 ;;;
    st32 p (offsetof nv_ioctl_idle_channels "num_channels") 0
  else if nr =? 0xc9 then swap_fd p (offsetof nv_ioctl_register_fd "ctl_fd") given
  else if nr =? 0xce then swap_event_fd p (offsetof nv_ioctl_alloc_os_event "fd")
  else if nr =? 0xcf then swap_event_fd p (offsetof nv_ioctl_free_os_event "fd")
  else mdone tt.

Definition sanitize_params (cmd : Z) (p : nat) (size : Z) : GM unit :=
  if cmd =? 75 then swap_fd p (offsetof uvm_mm_initialize_params "uvm_fd") given
  else if cmd =? 25 then swap_fd p (offsetof uvm_register_gpu_vaspace_params "rm_ctrl_fd") given
  else if cmd =? 27 then swap_fd p (offsetof uvm_register_channel_params "rm_ctrl_fd") given
  else if cmd =? 33 then
    let off := Abi.uvm_map_ext_fd_off prof in
    if Abi.uvm_map_ext_size prof <? off + 4 then mret (- EINVAL) else swap_fd p off given
  else if negb (ioc_type cmd =? type_F) then mdone tt
  else sanitize_frontend (ioc_nr cmd) p size.

Definition nvkvm_sanitize_ioctl_params (cmd : Z) (buf : option nat) (size : Z) : GM Z :=
  match buf with
  | None => mdone 0
  | Some p => if size =? 0 then mdone 0 else mcall (sanitize_params cmd p size)
  end.

(** ** Process lists *)

Definition NVKVM_NV2080_GET_PIDS : Z := 0x2080018d.
Definition NVKVM_GET_PIDS_MAX : Z := 950.
Definition NVKVM_NV2080_GET_PID_INFO : Z := 0x2080018e.
Definition NVKVM_PIDINFO_LIST_OFF : Z := 8.
Definition NVKVM_PIDINFO_MAX : Z := 200.

(** The leaders the caller sees, at most [NVKVM_GET_PIDS_MAX]. *)
Fixpoint visible_pids (n : Z) (l : list pid_ent) : list Z :=
  match l with
  | [] => []
  | e :: l' =>
      match pe_vnr e with
      | Some vnr => if NVKVM_GET_PIDS_MAX <=? n then visible_pids n l'
                    else if vnr =? 0 then visible_pids n l' else u32 vnr :: visible_pids (n + 1) l'
      | None => visible_pids n l'
      end
  end.

(** The answer to GET_PIDS, [true] when it was given here. *)
Definition nvkvm_synth_get_pids (p : nat) (param_size : Z) : GM bool :=
  if negb (param_size =? sizeof nvos54_parameters) then mdone false
  else
    do c <- ld32 p (offsetof nvos54_parameters "cmd") ;;;
    if negb (c =? NVKVM_NV2080_GET_PIDS) then mdone false
    else
      do up <- ld64 p (offsetof nvos54_parameters "params") ;;;
      do psize <- ld32 p (offsetof nvos54_parameters "params_size") ;;;
      if (up =? 0) || (psize <? 12) then mdone false
      else
        do gp <- kzalloc (i_user E) (12 + 4 * NVKVM_GET_PIDS_MAX) ;;;
        match gp with
        | None => mdone false
        | Some g =>
            do t <- tick ;;;
            let pids := visible_pids 0 (i_pids E t) in
            wrbuf g 12 (StubWire.words pids) ;;;
            st32 g 8 (Z.of_nat (length pids)) ;;;
            let outsz := Z.min (12 + 4 * Z.of_nat (length pids)) psize in
            do ok <- copy_to_user (i_user E) up g 0 outsz ;;;
            kfree (Some g) ;;;
            if negb ok then mdone false
            else st32 p (offsetof nvos54_parameters "status") 0 ;;; mdone true
        end.

(** The isolate of the first session whose leader has this number. *)
Fixpoint pid_isolate (pid : Z) (l : list pid_ent) : Z :=
  match l with
  | [] => 0
  | e :: l' =>
      match pe_vnr e with
      | Some vnr => if negb (pe_isolate e =? 0) && (u32 vnr =? pid) then pe_isolate e else pid_isolate pid l'
      | None => pid_isolate pid l'
      end
  end.

Definition pid_tag (iso : Z) : Z := if iso =? 0 then 0 else Z.lor 0x80000000 (Z.land iso 0x7fffffff).
Definition pid_at (i : Z) : Z := NVKVM_PIDINFO_LIST_OFF + i * Gate.NVKVM_PIDINFO_STRIDE.

(** The saved pids and how many there are. *)
Definition nvkvm_get_pid_info_tag (a : nat) (aux_size : Z) : GM (option nat * Z) :=
  if aux_size <? NVKVM_PIDINFO_LIST_OFF + 4 then mdone (None, 0)
  else
    do c <- ld32 a 0 ;;;
    let count := Z.min c NVKVM_PIDINFO_MAX in
    do save <- kzalloc (i_user E) (NVKVM_PIDINFO_MAX * 4) ;;;
    match save with
    | None => mdone (None, 0)
    | Some g =>
        do n <- mloop (fun i n =>
               if aux_size <? pid_at i + 4 then mdone (false, n)
               else
                 do pid <- ld32 a (pid_at i) ;;;
                 st32 g (4 * i) pid ;;;
                 do t <- tick ;;;
                 st32 a (pid_at i) (pid_tag (pid_isolate pid (i_pids E t))) ;;;
                 mdone (true, i + 1)) (Z.to_nat count) 0 0 ;;;
        mdone (Some g, n)
    end.

Definition nvkvm_get_pid_info_restore (a : nat) (aux_size : Z) (g : nat) (n : Z) : GM unit :=
  mloop (fun i (_ : unit) =>
    if aux_size <? pid_at i + 4 then mdone (false, tt)
    else do pid <- ld32 g (4 * i) ;;; st32 a (pid_at i) pid ;;; mdone (true, tt)) (Z.to_nat n) 0 tt.

(** ** The record of UVM commands

    A node that cannot be allocated is not recorded; the command is forwarded in
    any case. *)
Definition node_alloc : GM bool := do t <- tick ;;; mdone (e_alloc (i_user E) t).
Definition uvm_update (f : uvm_fd_state -> uvm_fd_state) : GM unit := do g <- getx ;;; putx (set_uvm_rec (f (uvm_rec g)) g).

Definition record_uvm (cmd : Z) (p : nat) (param_size : Z) : GM unit :=
  if (cmd =? 0x30000001) && (sizeof uvm_initialize_params <=? param_size) then
    do flags <- ld64 p (offsetof uvm_initialize_params "flags") ;;;
    uvm_update (fun u => UvmFd true flags (uf_gpus u) (uf_vas u) (uf_groups u) (uf_intents u))
  else if (cmd =? 37) && (sizeof uvm_register_gpu_params <=? param_size) then
    do ok <- node_alloc ;;;
    if ok then
      do uuid <- rdbuf p 0 16 ;;;
      uvm_update (fun u => UvmFd (uf_initialized u) (uf_init_flags u) (uf_gpus u ++ [uuid]) (uf_vas u) (uf_groups u) (uf_intents u))
    else mdone tt
  else if (cmd =? 25) && (sizeof uvm_register_gpu_vaspace_params <=? param_size) then
    do ok <- node_alloc ;;;
    if ok then
      do fd <- ld32 p (offsetof uvm_register_gpu_vaspace_params "rm_ctrl_fd") ;;;
      do hid <- (if 0 <=? s32 fd then guest_fd_to_handle_id (s32 fd) else mdone (-1)) ;;;
      do uuid <- rdbuf p 0 16 ;;;
      do cl <- ld32 p (offsetof uvm_register_gpu_vaspace_params "h_client") ;;;
      do va <- ld32 p (offsetof uvm_register_gpu_vaspace_params "h_va_space") ;;;
      uvm_update (fun u => UvmFd (uf_initialized u) (uf_init_flags u) (uf_gpus u)
                    (uf_vas u ++ [VasReg uuid (if 0 <=? hid then hid else 0) cl va]) (uf_groups u) (uf_intents u))
    else mdone tt
  else if (cmd =? 23) && (sizeof uvm_create_range_group_params <=? param_size) then
    do ok <- node_alloc ;;;
    if ok then
      do id <- ld64 p (offsetof uvm_create_range_group_params "range_group_id") ;;;
      uvm_update (fun u => UvmFd (uf_initialized u) (uf_init_flags u) (uf_gpus u) (uf_vas u) (uf_groups u ++ [id]) (uf_intents u))
    else mdone tt
  else if (cmd =? 68) && (sizeof uvm_alloc_semaphore_pool_params <=? param_size) then
    do ok <- node_alloc ;;;
    if ok then
      do base <- ld64 p (offsetof uvm_alloc_semaphore_pool_params "base") ;;;
      do len <- ld64 p (offsetof uvm_alloc_semaphore_pool_params "length") ;;;
      do params <- rdbuf p 0 (sizeof uvm_alloc_semaphore_pool_params) ;;;
      do dup <- node_alloc ;;;
      if dup then
        uvm_update (fun u => UvmFd (uf_initialized u) (uf_init_flags u) (uf_gpus u) (uf_vas u) (uf_groups u)
                      (uf_intents u ++ [UIntent IsoMmap.NVKVM_UVM_REALIZE_MODE_SEM_POOL base len params]))
      else mdone tt
    else mdone tt
  else mdone tt.

(** ** The caller's fields, kept to be put back

    The tests exclude each other but for the last two, which stand apart. *)
Inductive orig :=
| O_none
| O_modeset (addr : Z)
| O_nvos54 (params : Z)
| O_nvos64 (alloc rights size : Z)
| O_nvos21 (alloc : Z)
| O_uvm_mm (fd : Z)
| O_uvm_ctrl (fd : Z)
| O_ctl_fd (fd : Z)
| O_os_event (fd : Z)
| O_nvos02 (fd : Z)
| O_nvos33 (fd : Z).

Record saved := Saved { sv_orig : orig; sv_nvos56 : option (Z * Z); sv_nvos34 : option Z }.

Definition is_modeset (buf : option nat) (param_size : Z) : bool :=
  (gc_dev ctx =? Sessions.NVKVM_DEV_MODESET) && (StubIoctl.NVKVM_NVKMS_PARAMS_SIZE <=? param_size).

Definition save_orig (cmd : Z) (p : nat) (param_size : Z) : GM orig :=
  let nr := ioc_nr cmd in
  if is_modeset (Some p) param_size then
    do a <- ld64 p StubIoctl.NVKVM_NVKMS_ADDR_OFF ;;; mdone (O_modeset a)
  else if (nr =? 0x2a) && (param_size =? sizeof nvos54_parameters) then
    do v <- ld64 p (offsetof nvos54_parameters "params") ;;; mdone (O_nvos54 v)
  else if (nr =? 0x2b) && (param_size =? sizeof nvos64_parameters) then
    do a <- ld64 p (offsetof nvos64_parameters "p_alloc_parms") ;;;
    do r <- ld64 p (offsetof nvos64_parameters "p_rights_requested") ;;;
    do n <- ld32 p (offsetof nvos64_parameters "alloc_parms_size") ;;;
    mdone (O_nvos64 a r n)
  else if (nr =? 0x2b) && (param_size =? sizeof nvos21_parameters) then
    do a <- ld64 p (offsetof nvos21_parameters "p_alloc_parms") ;;; mdone (O_nvos21 a)
  else if (cmd =? 75) && (param_size =? sizeof uvm_mm_initialize_params) then
    do v <- ld32 p (offsetof uvm_mm_initialize_params "uvm_fd") ;;; mdone (O_uvm_mm v)
  else if (cmd =? 25) || (cmd =? 27) || (cmd =? 33) then
    if 20 <=? param_size then do v <- ld32 p 16 ;;; mdone (O_uvm_ctrl v) else mdone O_none
  else if (nr =? 0xc9) && (sizeof nv_ioctl_register_fd <=? param_size) then
    do v <- ld32 p (offsetof nv_ioctl_register_fd "ctl_fd") ;;; mdone (O_ctl_fd v)
  else if ((nr =? 0xce) || (nr =? 0xcf)) && (sizeof nv_ioctl_alloc_os_event <=? param_size) then
    do v <- ld32 p (offsetof nv_ioctl_alloc_os_event "fd") ;;; mdone (O_os_event v)
  else if (nr =? 0x27) && (sizeof nv_ioctl_nvos02_parameters_with_fd <=? param_size) then
    do v <- ld32 p (offsetof nv_ioctl_nvos02_parameters_with_fd "fd") ;;; mdone (O_nvos02 v)
  else if (nr =? 0x4e) && (sizeof nv_ioctl_nvos33_parameters_with_fd <=? param_size) then
    do v <- ld32 p (offsetof nv_ioctl_nvos33_parameters_with_fd "fd") ;;; mdone (O_nvos33 v)
  else mdone O_none.

Definition save_fields (cmd : Z) (buf : option nat) (param_size : Z) : GM saved :=
  match buf with
  | None => mdone (Saved O_none None None)
  | Some p =>
      do o <- save_orig cmd p param_size ;;;
      do o56 <- (if (ioc_nr cmd =? 0x5e) && (param_size =? sizeof nvos56_parameters) then
                do a <- ld64 p (offsetof nvos56_parameters "p_old_cpu_address") ;;;
                do b <- ld64 p (offsetof nvos56_parameters "p_new_cpu_address") ;;; mdone (Some (a, b))
              else mdone None) ;;;
      do o34 <- (if (ioc_nr cmd =? 0x4f) && (param_size =? sizeof nv_ioctl_nvos34_parameters) then
                do a <- ld64 p (offsetof nv_ioctl_nvos34_parameters "p_linear_address") ;;; mdone (Some a)
              else mdone None) ;;;
      mdone (Saved o o56 o34)
  end.

Definition restore_orig (o : orig) (p : nat) : GM unit :=
  match o with
  | O_none => mdone tt
  | O_modeset a => st64 p StubIoctl.NVKVM_NVKMS_ADDR_OFF a
  | O_nvos54 v => if v =? 0 then mdone tt else st64 p (offsetof nvos54_parameters "params") v
  | O_nvos64 a r n =>
      (if a =? 0 then mdone tt else st64 p (offsetof nvos64_parameters "p_alloc_parms") a) ;;;
      (if r =? 0 then mdone tt else st64 p (offsetof nvos64_parameters "p_rights_requested") r) ;;;
      st32 p (offsetof nvos64_parameters "alloc_parms_size") n
  | O_nvos21 a => if a =? 0 then mdone tt else st64 p (offsetof nvos21_parameters "p_alloc_parms") a
  | O_uvm_mm v => st32 p (offsetof uvm_mm_initialize_params "uvm_fd") v
  | O_uvm_ctrl v => st32 p 16 v
  | O_ctl_fd v => st32 p (offsetof nv_ioctl_register_fd "ctl_fd") v
  | O_os_event v => st32 p (offsetof nv_ioctl_alloc_os_event "fd") v
  | O_nvos02 v => st32 p (offsetof nv_ioctl_nvos02_parameters_with_fd "fd") v
  | O_nvos33 v => st32 p (offsetof nv_ioctl_nvos33_parameters_with_fd "fd") v
  end.

Definition restore_fields (v : saved) (p : nat) : GM unit :=
  match sv_orig v, sv_nvos56 v, sv_nvos34 v with
  | O_none, Some (a, b), _ =>
      st64 p (offsetof nvos56_parameters "p_old_cpu_address") a ;;;
      st64 p (offsetof nvos56_parameters "p_new_cpu_address") b ;;;
      st32 p (offsetof nvos56_parameters "status") 0
  | O_none, None, Some a =>
      st64 p (offsetof nv_ioctl_nvos34_parameters "p_linear_address") a ;;;
      st32 p (offsetof nv_ioctl_nvos34_parameters "status") 0
  | o, _, _ => restore_orig o p
  end.

(** ** The buffers behind the parameters *)

(** [aux_buf], [aux_size], [aux_uptr], and what the inner parameters had: the pids of
    GET_PID_INFO, the descriptors of the two object controls and of the planes. *)
Record staged := Staged {
  sg_aux : option nat;
  sg_size : Z;
  sg_uptr : Z;
  sg_gpi : option nat * Z;
  sg_export : option Z;
  sg_import : option Z;
  sg_planes : list (Z * Z)
}.

Definition unstaged (uptr : Z) : staged := Staged None 0 uptr (None, 0) None None [].

(** An early return, with the buffers freed before it. *)
Fixpoint free_return {A} (ps : list nat) (e : Z) : GM A :=
  match ps with [] => mret (- e) | p :: ps' => kfree (Some p) ;;; free_return ps' e end.

(** [kzalloc] and [copy_from_user] of a buffer of the caller. *)
Definition fetch (p : nat) (addr n : Z) : GM nat :=
  do a <- kzalloc (i_user E) n ;;;
  match a with
  | None => free_return [p] ENOMEM
  | Some a => do ok <- copy_from_user (i_user E) a 0 addr n ;;; if ok : bool then mdone a else free_return [a; p] EFAULT
  end.

(** A descriptor of the inner parameters, replaced where that is possible. *)
Definition try_swap_fd (a : nat) (off fd : Z) : GM unit :=
  do hid <- guest_fd_to_handle_id fd ;;;
  if 0 <=? hid then st32 a off (u32 hid) else mdone tt.

Definition plane_off (i : Z) : Z := StubIoctl.NVKVM_NVKMS_REGSURF_PLANE0_OFF + i * StubIoctl.NVKVM_NVKMS_REGSURF_PLANE_STRIDE.

Definition stage_planes (a : nat) : GM (list (Z * Z)) :=
  mloop (fun i l =>
    do gfd <- ld32 a (plane_off i) ;;;
    if s32 gfd <=? 0 then mdone (true, l)
    else try_swap_fd a (plane_off i) (s32 gfd) ;;; mdone (true, l ++ [(plane_off i, gfd)]))
    (Z.to_nat StubIoctl.NVKVM_NVKMS_MAX_PLANES) 0 [].

Definition stage_modeset (p : nat) : GM staged :=
  do inner_sz <- ld32 p 4 ;;;
  do inner_ptr <- ld64 p StubIoctl.NVKVM_NVKMS_ADDR_OFF ;;;
  if (0 <? inner_sz) && negb (inner_ptr =? 0) then
    if NVKVM_SHM_SLOT_DEFAULT_SIZE <? inner_sz then free_return [p] EINVAL
    else
      do a <- fetch p inner_ptr inner_sz ;;;
      st64 p StubIoctl.NVKVM_NVKMS_ADDR_OFF 0 ;;;
      do c <- ld32 p 0 ;;;
      do planes <- (if (c =? StubIoctl.NVKVM_NVKMS_CMD_REGISTER_SURFACE) && (plane_off StubIoctl.NVKVM_NVKMS_MAX_PLANES <=? inner_sz) then
                   do use <- ld8 a StubIoctl.NVKVM_NVKMS_REGSURF_USEFD_OFF ;;;
                   if negb (use =? 0) then stage_planes a else mdone []
                 else mdone []) ;;;
      mdone (Staged (Some a) inner_sz inner_ptr (None, 0) None None planes)
  else mdone (unstaged 0).

(** A larger buffer with the parameters at its start. *)
Definition extend (p a : nat) (psize ext : Z) : GM nat :=
  do e <- kzalloc (i_user E) ext ;;;
  match e with
  | None => free_return [a; p] ENOMEM
  | Some e => do l <- rdbuf a 0 psize ;;; wrbuf e 0 l ;;; mdone e
  end.

Definition NV0080_CTRL_CMD_FIFO_GET_CHANNELLIST : Z := 0x0080170d.
Definition NV0000_CTRL_CMD_SYSTEM_GET_BUILD_VERSION : Z := 0x101.

Definition stage_channels (p a : nat) (inner psize : Z) : GM (nat * Z) :=
  if (inner =? NV0080_CTRL_CMD_FIFO_GET_CHANNELLIST) && (24 <=? psize) then
    do num <- ld32 a 0 ;;;
    do p_handles <- ld64 a 8 ;;;
    do p_list <- ld64 a 16 ;;;
    if (0 <? num) && (num <=? 4096) && negb (p_handles =? 0) && negb (p_list =? 0) then
      let list_bytes := num * 4 in
      do e <- extend p a psize (psize + 2 * list_bytes) ;;;
      do ok1 <- copy_from_user (i_user E) e psize p_handles list_bytes ;;;
      do ok <- (if ok1 : bool then copy_from_user (i_user E) e (psize + list_bytes) p_list list_bytes else mdone false) ;;;
      if negb ok then free_return [e; a; p] EFAULT
      else st64 e 8 0 ;;; st64 e 16 0 ;;; kfree (Some a) ;;; mdone (e, psize + 2 * list_bytes)
    else mdone (a, psize)
  else mdone (a, psize).

Definition stage_list (p a : nat) (n inner psize : Z) : GM (nat * Z) :=
  let entry_size := StubIoctl.nvkvm_ctrl_list_entry_size inner in
  if negb (entry_size =? 0) && (16 <=? psize) then
    do list_size <- ld32 a 0 ;;;
    do list_ptr <- ld64 a 8 ;;;
    if (0 <? list_size) && (list_size <=? 65536) && negb (list_ptr =? 0) then
      let list_bytes := list_size * entry_size in
      do e <- extend p a psize (psize + list_bytes) ;;;
      do ok <- copy_from_user (i_user E) e psize list_ptr list_bytes ;;;
      if negb ok then free_return [e; a; p] EFAULT
      else st64 e 8 0 ;;; kfree (Some a) ;;; mdone (e, psize + list_bytes)
    else mdone (a, n)
  else mdone (a, n).

Definition BV := nv0000_ctrl_system_get_build_version_params.

Definition stage_strings (p a : nat) (n inner psize : Z) : GM (nat * Z) :=
  if (inner =? NV0000_CTRL_CMD_SYSTEM_GET_BUILD_VERSION) && (sizeof BV <=? psize) then
    do sz <- ld32 a (offsetof BV "size_of_strings") ;;;
    if (0 <? sz) && (sz <=? 512) then
      do e <- extend p a psize (psize + 3 * sz) ;;;
      st64 e (offsetof BV "p_driver_version_buffer") 0 ;;;
      st64 e (offsetof BV "p_version_buffer") 0 ;;;
      st64 e (offsetof BV "p_title_buffer") 0 ;;;
      kfree (Some a) ;;; mdone (e, psize + 3 * sz)
    else mdone (a, n)
  else mdone (a, n).

(** EXPORT_OBJECT_TO_FD and IMPORT_OBJECT_FROM_FD. *)
Definition stage_object_fd (a : nat) (n inner c off : Z) : GM (option Z) :=
  if (inner =? c) && (off + 4 <=? n) then
    do gfd <- ld32 a off ;;;
    (if 0 <=? s32 gfd then try_swap_fd a off (s32 gfd) else mdone tt) ;;;
    mdone (Some gfd)
  else mdone None.

Definition stage_control (p : nat) : GM staged :=
  do psize <- ld32 p (offsetof nvos54_parameters "params_size") ;;;
  do params <- ld64 p (offsetof nvos54_parameters "params") ;;;
  if (0 <? psize) && negb (params =? 0) then
    if NVKVM_SHM_SLOT_DEFAULT_SIZE <? psize then free_return [p] EINVAL
    else
      do a <- fetch p params psize ;;;
      do inner <- ld32 p (offsetof nvos54_parameters "cmd") ;;;
      do gpi <- (if inner =? NVKVM_NV2080_GET_PID_INFO then nvkvm_get_pid_info_tag a psize else mdone (None, 0)) ;;;
      do export <- stage_object_fd a psize inner 0x3d05 16 ;;;
      do import <- stage_object_fd a psize inner 0x3d06 0 ;;;
      do an <- stage_channels p a inner psize ;;;
      do an <- stage_list p (fst an) (snd an) inner psize ;;;
      do an <- stage_strings p (fst an) (snd an) inner psize ;;;
      (if (inner =? 0x202) && (24 <=? psize) then st64 (fst an) 16 0 else mdone tt) ;;;
      mdone (Staged (Some (fst an)) (snd an) params gpi export import [])
  else mdone (unstaged 0).

Definition stage_alloc21 (p : nat) : GM staged :=
  do parms <- ld64 p (offsetof nvos21_parameters "p_alloc_parms") ;;;
  if negb (parms =? 0) then
    do h_class <- ld32 p (offsetof nvos21_parameters "h_class") ;;;
    let ap_size := class_params_size prof h_class in
    if 0 <? ap_size then
      do a <- fetch p parms ap_size ;;; mdone (Staged (Some a) ap_size parms (None, 0) None None [])
    else mdone (unstaged parms)
  else mdone (unstaged 0).

(** The descriptor an event reports to. *)
Definition stage_event (a : nat) (h_class ap_size : Z) : GM unit :=
  if ((h_class =? 0x79) || (h_class =? 0x5)) && (sizeof nv0005_alloc_parameters <=? ap_size) then
    do data <- ld64 a (offsetof nv0005_alloc_parameters "data") ;;;
    if 0 <=? s32 data then
      do t <- tick ;;;
      let hid := match i_fget E t (u32 data) with
                 | Some f => if gf_ours f then default 0 (gf_ctx f) else 0
                 | None => 0
                 end in
      if 0 <? hid then st64 a (offsetof nv0005_alloc_parameters "data") hid else mdone tt
    else mdone tt
  else mdone tt.

Definition stage_alloc64 (p : nat) : GM staged :=
  do parms <- ld64 p (offsetof nvos64_parameters "p_alloc_parms") ;;;
  if negb (parms =? 0) then
    do size <- ld32 p (offsetof nvos64_parameters "alloc_parms_size") ;;;
    do h_class <- ld32 p (offsetof nvos64_parameters "h_class") ;;;
    let ap_size := if size =? 0 then class_params_size prof h_class else size in
    if NVKVM_SHM_SLOT_DEFAULT_SIZE <? ap_size then free_return [p] EINVAL
    else if 0 <? ap_size then
      do a <- fetch p parms ap_size ;;;
      st32 p (offsetof nvos64_parameters "alloc_parms_size") ap_size ;;;
      stage_event a h_class ap_size ;;;
      mdone (Staged (Some a) ap_size parms (None, 0) None None [])
    else mdone (unstaged parms)
  else mdone (unstaged 0).

Definition stage (cmd : Z) (buf : option nat) (param_size : Z) : GM staged :=
  match buf with
  | None => mdone (unstaged 0)
  | Some p =>
      if is_modeset buf param_size then stage_modeset p
      else if ioc_nr cmd =? 0x2a then stage_control p
      else if (ioc_nr cmd =? 0x2b) && (param_size =? sizeof nvos21_parameters) then stage_alloc21 p
      else if (ioc_nr cmd =? 0x2b) && (param_size =? sizeof nvos64_parameters) then stage_alloc64 p
      else mdone (unstaged 0)
  end.

(** ** The cache of validated ranges *)

Definition NVKVM_VCACHE_N : Z := 16.

Definition vc_match (c : gmap Z vent) (base len k : Z) : bool :=
  vc_valid c.[k] && (vc_base c.[k] =? base) && (vc_len c.[k] =? len).

Definition vc_lookup (base len : Z) (c : gmap Z vent) : option Z :=
  (fun k => vc_status c.[k]) <$> scan (vc_match c base len) 0 (Z.to_nat NVKVM_VCACHE_N).

Definition vc_insert (base len st : Z) (g : gstate) : gstate :=
  set_vcache ((vcache g).[vcache_next g mod NVKVM_VCACHE_N <- VEnt base len st true]) (u32 (vcache_next g + 1)) g.

Definition invalid (e : vent) : vent := VEnt (vc_base e) (vc_len e) (vc_status e) false.

Definition nvkvm_session_vcache_clear (g : gstate) : gstate :=
  set_vcache (sweep (fun k c => c.[k <- invalid c.[k]]) 0 (Z.to_nat NVKVM_VCACHE_N) (vcache g)) (vcache_next g) g.

(** ** Forwarding *)

(** [n] bytes, as a reply fills a buffer. *)
Definition fit (n : Z) (l : list Z) : list Z := take (Z.to_nat n) (l ++ replicate (Z.to_nat n) 0).

Definition rd_opt (p : option nat) (n : Z) : GM (list Z) := match p with Some p => rdbuf p 0 n | None => mdone [] end.
Definition wr_opt (p : option nat) (n : Z) (l : list Z) : GM unit := match p with Some p => wrbuf p 0 (fit n l) | None => mdone tt end.

Definition NVKVM_IOCTL_FL_RETRY_EFAULT : Z := 1.
Definition NVKVM_MAX_EFAULT_RETRIES : Z := 128.

(** One forwarded call; the flags and the result so far. *)
Definition forward_once (buf : option nat) (ps : Z) (aux : option nat) (n : Z) (st : Z * Z) : GM (bool * (Z * Z)) :=
  let flags := fst st in
  do pl <- rd_opt buf ps ;;;
  do al <- rd_opt aux n ;;;
  emit (EvDo (A_forward flags pl al)) ;;;
  do t <- tick ;;;
  let r := i_forward E t flags pl al in
  wr_opt buf ps (fw_param r) ;;;
  wr_opt aux n (fw_aux r) ;;;
  emit (EvDo (A_reply (fw_ret r) (fw_fault r) (fit ps (fw_param r)))) ;;;
  if negb (fw_ret r =? - EFAULT) || (fw_fault r =? 0) then mdone (false, (flags, fw_ret r))
  else
    let flags' := Z.lor flags NVKVM_IOCTL_FL_RETRY_EFAULT in
    do t <- tick ;;;
    let res := i_resolve E t (fw_fault r) in
    emit (EvDo (A_resolve (fw_fault r) res)) ;;;
    if negb (res =? 0) then mdone (false, (flags', - EFAULT))
    else mdone (true, (flags', fw_ret r)).

Definition forward_loop (buf : option nat) (ps : Z) (aux : option nat) (n : Z) : GM Z :=
  do st <- mloop (fun _ => forward_once buf ps aux n) (Z.to_nat NVKVM_MAX_EFAULT_RETRIES) 0 (0, 0) ;;;
  mdone (snd st).

(** The ring where it may be used, otherwise the queue. *)
Definition forward_call (buf : option nat) (ps : Z) (sg : staged) : GM Z :=
  let eligible := match fst (sg_gpi sg), sg_export sg, sg_import sg with None, None, None => true | _, _, _ => false end in
  if eligible then
    do pl <- rd_opt buf ps ;;;
    do al <- rd_opt (sg_aux sg) (sg_size sg) ;;;
    do t <- tick ;;;
    match i_ring E t pl al with
    | Some (r, pl', al') =>
        emit (EvDo (A_ring pl al)) ;;;
        wr_opt buf ps pl' ;;; wr_opt (sg_aux sg) (sg_size sg) al' ;;;
        emit (EvDo (A_reply r 0 (fit ps pl'))) ;;; mdone r
    | None => forward_loop buf ps (sg_aux sg) (sg_size sg)
    end
  else forward_loop buf ps (sg_aux sg) (sg_size sg).

Definition is_teardown (cmd : Z) : bool := listed cmd [66; 34; 26; 38; 24].

(** Serving VALIDATE_VA_RANGE from the cache, or forwarding. *)
Definition validate_or_forward (cmd : Z) (p : nat) (ps : Z) (sg : staged) : GM Z :=
  do vbase <- ld64 p 0 ;;;
  do vlen <- ld64 p 8 ;;;
  do g <- getx ;;;
  match vc_lookup vbase vlen (vcache g) with
  | Some st => st32 p 16 st ;;; mdone 0
  | None =>
      do r <- forward_call (Some p) ps sg ;;;
      (if r =? 0 then
         do vbase <- ld64 p 0 ;;; do vlen <- ld64 p 8 ;;; do st <- ld32 p 16 ;;;
         do g <- getx ;;; putx (vc_insert vbase vlen st g)
       else mdone tt) ;;;
      mdone r
  end.

(** After the call: the caller's own values in the inner parameters. *)
Definition restore_inner (sg : staged) : GM unit :=
  match sg_aux sg with
  | None => mdone tt
  | Some a =>
      (match fst (sg_gpi sg) with
       | Some g => nvkvm_get_pid_info_restore a (sg_size sg) g (snd (sg_gpi sg))
       | None => mdone tt
       end) ;;;
      (match sg_export sg with Some fd => if 20 <=? sg_size sg then st32 a 16 fd else mdone tt | None => mdone tt end) ;;;
      (match sg_import sg with Some fd => if 4 <=? sg_size sg then st32 a 0 fd else mdone tt | None => mdone tt end)
  end.

Definition forward (cmd : Z) (buf : option nat) (ps : Z) (sg : staged) : GM Z :=
  if negb (gc_handle ctx =? 0) && negb (gc_isolate ctx =? 0) then
    (if is_teardown cmd then do g <- getx ;;; putx (nvkvm_session_vcache_clear g) else mdone tt) ;;;
    do r <- (match buf with
          | Some p => if (cmd =? 72) && (20 <=? ps) then validate_or_forward cmd p ps sg else forward_call buf ps sg
          | None => forward_call buf ps sg
          end) ;;;
    emit (EvDo A_writeback) ;;;
    restore_inner sg ;;;
    mdone r
  else mdone (- EBADF).

(** ** The copies back *)

(** The transport did not fail. *)
Definition answered (r : Z) : bool := negb (r =? - ENOMEM) && negb (r =? - ENOSPC) && negb (r =? - EFAULT).

Definition bytes_of (l : list Z) : bytes := write_bytes ∅ 0 l.

Definition finish_copy (uptr : Z) (a : nat) (n r : Z) : GM Z :=
  do ok <- copy_to_user (i_user E) uptr a 0 n ;;; mdone (if ok : bool then r else - EFAULT).

Definition back_channels (a : nat) (n uptr psize r : Z) : GM Z :=
  do o <- read_user (i_user E) uptr 24 ;;;
  (match o with
   | Some l =>
       let num := get32 (bytes_of l) 0 in
       let p_handles := get64 (bytes_of l) 8 in
       let p_list := get64 (bytes_of l) 16 in
       if 0 <? num then
         let list_bytes := num * 4 in
         (if psize + 2 * list_bytes <=? n then
            (if negb (p_handles =? 0) then copy_to_user (i_user E) p_handles a psize list_bytes else mdone true) ;;;
            (if negb (p_list =? 0) then copy_to_user (i_user E) p_list a (psize + list_bytes) list_bytes else mdone true)
          else mdone true) ;;;
         st64 a 8 p_handles ;;; st64 a 16 p_list
       else mdone tt
   | None => mdone tt
   end) ;;;
  finish_copy uptr a psize r.

Definition back_list (a : nat) (n uptr psize entry_size r : Z) : GM Z :=
  do o <- read_user (i_user E) uptr 16 ;;;
  (match o with
   | Some l =>
       let list_size := get32 (bytes_of l) 0 in
       let list_ptr := get64 (bytes_of l) 8 in
       if (0 <? list_size) && negb (list_ptr =? 0) then
         let list_bytes := list_size * entry_size in
         (if psize + list_bytes <=? n then copy_to_user (i_user E) list_ptr a psize list_bytes else mdone true) ;;;
         st64 a 8 list_ptr
       else mdone tt
   | None => mdone tt
   end) ;;;
  finish_copy uptr a psize r.

(** One of the three strings. *)
Definition back_string (a : nat) (o sz dst : Z) : GM bool :=
  if negb (dst =? 0) then copy_to_user (i_user E) dst a o sz else mdone true.

(** The caller's pointers, in [b] as it has them. *)
Definition string_pointers (a : nat) (b : bytes) : GM unit :=
  st64 a (offsetof BV "p_driver_version_buffer") (get64 b (offsetof BV "p_driver_version_buffer")) ;;;
  st64 a (offsetof BV "p_version_buffer") (get64 b (offsetof BV "p_version_buffer")) ;;;
  st64 a (offsetof BV "p_title_buffer") (get64 b (offsetof BV "p_title_buffer")).

Definition back_strings (a : nat) (uptr psize r : Z) : GM Z :=
  do o <- read_user (i_user E) uptr (sizeof BV) ;;;
  (match o with
   | Some l =>
       let b := bytes_of l in
       let sz := get32 b (offsetof BV "size_of_strings") in
       (if (0 <? sz) && (sz <=? 512) then
          back_string a psize sz (get64 b (offsetof BV "p_driver_version_buffer")) ;;;
          back_string a (psize + sz) sz (get64 b (offsetof BV "p_version_buffer")) ;;;
          back_string a (psize + 2 * sz) sz (get64 b (offsetof BV "p_title_buffer"))
        else mdone true) ;;;
       string_pointers a b
   | None => mdone tt
   end) ;;;
  finish_copy uptr a psize r.

Fixpoint restore_planes (a : nat) (n : Z) (l : list (Z * Z)) : GM unit :=
  match l with
  | [] => mdone tt
  | (off, fd) :: l' => (if off + 4 <=? n then st32 a off fd else mdone tt) ;;; restore_planes a n l'
  end.

Definition back_aux (cmd : Z) (buf : option nat) (sg : staged) (a : nat) (r : Z) : GM Z :=
  let n := sg_size sg in
  let plain := restore_planes a n (sg_planes sg) ;;; finish_copy (sg_uptr sg) a n r in
  match buf with
  | Some p =>
      if ioc_nr cmd =? 0x2a then
        do inner <- ld32 p (offsetof nvos54_parameters "cmd") ;;;
        do psize <- ld32 p (offsetof nvos54_parameters "params_size") ;;;
        let entry_size := StubIoctl.nvkvm_ctrl_list_entry_size inner in
        if (inner =? NV0080_CTRL_CMD_FIFO_GET_CHANNELLIST) && (24 <=? psize) && (psize <? n) then
          back_channels a n (sg_uptr sg) psize r
        else if negb (entry_size =? 0) && (16 <=? psize) && (psize <? n) then
          back_list a n (sg_uptr sg) psize entry_size r
        else if (inner =? NV0000_CTRL_CMD_SYSTEM_GET_BUILD_VERSION) && (sizeof BV <=? psize) && (psize <? n) then
          back_strings a (sg_uptr sg) psize r
        else plain
      else plain
  | None => plain
  end.

(** ** The ioctl *)

(** The parameters, zero where there are none; [None]: no buffer. *)
Definition params_in (param_size uparams : Z) : GM (option nat) :=
  if 0 <? param_size then
    do p <- kzalloc (i_user E) param_size ;;;
    match p with
    | None => mret (- ENOMEM)
    | Some p =>
        if negb (uparams =? 0) then
          do ok <- copy_from_user (i_user E) p 0 uparams param_size ;;;
          if ok : bool then mdone (Some p) else free_return [p] EFAULT
        else mdone (Some p)
    end
  else mdone None.

Definition synthesize (cmd : Z) (buf : option nat) (ps uparams : Z) : GM unit :=
  match buf with
  | Some p =>
      if ioc_nr cmd =? 0x2a then
        do done <- nvkvm_synth_get_pids p ps ;;;
        if done : bool then
          do ok <- (if negb (uparams =? 0) then copy_to_user (i_user E) uparams p 0 ps else mdone true) ;;;
          kfree buf ;;; mret (if ok : bool then 0 else - EFAULT)
        else mdone tt
      else mdone tt
  | None => mdone tt
  end.

Definition give_back (cmd : Z) (buf : option nat) (ps uparams : Z) (sv : saved) (sg : staged) (r : Z) : GM Z :=
  (match buf with Some p => if answered r then restore_fields sv p else mdone tt | None => mdone tt end) ;;;
  do r <- (match buf with
        | Some p => if negb (uparams =? 0) && answered r then finish_copy uparams p ps r else mdone r
        | None => mdone r
        end) ;;;
  match sg_aux sg with
  | Some a => if negb (sg_uptr sg =? 0) && answered r then back_aux cmd buf sg a r else mdone r
  | None => mdone r
  end.

Definition ioctl_body (cmd uparams : Z) : GM unit :=
  match nvkvm_ioctl_param_size prof cmd with
  | None => mret (- ENOTTY)
  | Some ps =>
      if NVKVM_SHM_SLOT_DEFAULT_SIZE <? ps then mret (- EINVAL)
      else
        do buf <- params_in ps uparams ;;;
        synthesize cmd buf ps uparams ;;;
        (match buf with
         | Some p => if (gc_dev ctx =? HTab.NVKVM_DEV_UVM) && gc_uvm ctx then record_uvm cmd p ps else mdone tt
         | None => mdone tt
         end) ;;;
        do sv <- save_fields cmd buf ps ;;;
        do sg <- stage cmd buf ps ;;;
        do e <- nvkvm_sanitize_ioctl_params cmd buf ps ;;;
        if negb (e =? 0) then kfree (sg_aux sg) ;;; kfree buf ;;; mret e
        else
          do r <- forward cmd buf ps sg ;;;
          do r <- give_back cmd buf ps uparams sv sg r ;;;
          kfree (fst (sg_gpi sg)) ;;; kfree (sg_aux sg) ;;; kfree buf ;;;
          mret r
  end.

Definition nvkvm_ioctl (cmd uparams : Z) : GM Z := mcall (ioctl_body cmd uparams).

End ioctl.

(** ** Facts about the sizes *)

Definition profile_ok (P : Abi.abi_profile) : bool :=
  (0 <=? Abi.uvm_map_ext_fd_off P) && (Abi.uvm_map_ext_fd_off P + 4 <=? Abi.uvm_map_ext_size P) &&
  (20 <=? Abi.uvm_map_ext_size P) && (16 <=? Abi.uvm_sem_pool_size P) && (0 <=? Abi.chan_alloc_size P) &&
  (0 <=? Abi.vaspace_alloc_size P) && (0 <=? Abi.mem_alloc_size P) && (0 <=? Abi.nv00de_alloc_size P) && (56 <=? Abi.nvos46_size P).

Lemma profiles_ok P : P ∈ Abi.nvkvm_abi_profiles -> profile_ok P = true.
Proof.
  assert (forallb profile_ok Abi.nvkvm_abi_profiles = true) as H by by vm_compute.
  intros HP. rewrite forallb_forall in H. apply H. by apply list_elem_of_In.
Qed.

(** A front-end command is sized by its number. *)
Lemma uvm_size_type P cmd n : uvm_param_size P cmd = Some n -> ioc_type cmd <> type_F.
Proof.
  unfold uvm_param_size. intros H.
  repeat match type of H with (if ?c =? ?k then _ else _) = _ => destruct (Z.eqb_spec c k) as [->|]; [by vm_compute |] end. done.
Qed.

Lemma fe_size P cmd : ioc_type cmd = type_F -> nvkvm_ioctl_param_size P cmd = fe_param_size P cmd.
Proof.
  intros Ht. unfold nvkvm_ioctl_param_size. destruct (Z.eqb_spec cmd NVKVM_NVKMS_IOCTL_CMD) as [->|_]; [by vm_compute in Ht |].
  destruct (uvm_param_size P cmd) as [n|] eqn:E'; [|done]. by apply uvm_size_type in E'.
Qed.

(** The size behind a command number, where the type is right. *)
Ltac fe_size_of H nr :=
  unfold fe_param_size in H; cbv zeta in H; rewrite nr in H; cbn [Z.eqb Pos.eqb] in H; layout_eval_in H.

(** A command numbered as RM_CONTROL: that control, or the UVM command 42. *)
Lemma control_size prof cmd ps : ioc_nr cmd = 0x2a -> nvkvm_ioctl_param_size prof cmd = Some ps -> 32 <= ps.
Proof.
  intros Hn Hs. unfold nvkvm_ioctl_param_size in Hs.
  destruct (Z.eqb_spec cmd NVKVM_NVKMS_IOCTL_CMD) as [->|_]; [by vm_compute in Hn |].
  unfold uvm_param_size in Hs.
  repeat match type of Hs with match (if ?c =? ?k then _ else _) with _ => _ end = _ =>
    destruct (Z.eqb_spec c k) as [->|_]; [first [by vm_compute in Hn | by vm_compute in Hs; injection Hs as <-] |] end.
  fe_size_of Hs Hn. injection Hs as <-. lia.
Qed.

Lemma param_size_pos prof cmd ps : prof ∈ Abi.nvkvm_abi_profiles -> nvkvm_ioctl_param_size prof cmd = Some ps -> 0 <= ps.
Proof.
  intros Hprof. pose proof (profiles_ok prof Hprof) as Hok. unfold profile_ok in Hok. nv_bool. unfold nvkvm_ioctl_param_size. intros Hsz.
  destruct (cmd =? _); [injection Hsz as <-; by vm_compute |].
  assert (0 <= ioc_size cmd) by (apply Z.land_nonneg; right; lia).
  unfold uvm_param_size, fe_param_size in Hsz. cbv zeta in Hsz.
  repeat match type of Hsz with context [if ?c =? ?k then _ else _] => destruct (c =? k) end.
  all: try (layout_eval_in Hsz; injection Hsz as <-; lia).
  all: repeat case_match; simplify_eq; lia.
Qed.

End GuestIoctl.
