(* ===== verification/IoctlSafety.v ===== *)
(** * Memory safety of the guest's ioctl path

    Every path through [nvkvm_ioctl] of [GuestIoctl] keeps its accesses inside the
    buffers it allocated and frees each of them once, with one exception, which is
    shown to be the only one. *)

From S2P Require Import Prelude Bytes Abi Allowlists HandleTable Sessions IoctlGate StubIoctl StubWire Layout Kmem GuestIoctl.
From stdpp Require Import strings.
Local Open Scope string_scope.
Local Open Scope list_scope.
Local Open Scope Z_scope.
Local Open Scope nv_scope.

Module IoctlSafety.
Import Kmem Layout Allow GuestIoctl.

(** ** Memory safety

    No access is outside its buffer, and every return frees what was allocated. *)

Ltac held := first [eassumption | solve [repeat (apply elem_of_cons; first [left; reflexivity | right])]].

Ltac bound := layout_eval; lia.

Section safety.
Context (E : ienv) (prof : Abi.abi_profile) (ctx : gctx) (h0 : gmap nat Z) (F : kst gstate act -> Prop).

(** Code that runs with the buffers [l] ends with those its result tells, and
    returns with [lr]. *)
Definition spec {A} (l : list (nat * Z)) (m : GM A) (Q : A -> list (nat * Z) -> Prop) (lr : list (nat * Z)) : Prop :=
  forall s, live h0 l s -> wp m (fun a s' => exists l', Q a l' /\ live h0 l' s') (fun _ s' => live h0 lr s') F s.

(** Code that ends with the buffers it started with, and returns only if [ret]. *)
Definition keep {A} (ret : bool) (l : list (nat * Z)) (m : GM A) : Prop :=
  forall s, live h0 l s -> wp m (fun _ s' => live h0 l s') (fun _ s' => ret = true /\ live h0 l s') F s.

Lemma use_keep {A} ret l (m : GM A) (Q : A -> kst gstate act -> Prop) (R : Z -> kst gstate act -> Prop) s :
  keep ret l m -> live h0 l s -> (forall a s', live h0 l s' -> Q a s') -> (ret = true -> forall r s', live h0 l s' -> R r s') ->
  wp m Q R F s.
Proof.
  intros Hm Hl HQ HR. eapply wp_mono; [by apply Hm | by auto | | done]. intros r s' [Hr Hs]. by apply HR.
Qed.

Lemma keep_done {A} ret l (a : A) : keep ret l (mdone a).
Proof. intros s Hl. by apply wp_done. Qed.

Lemma keep_ret {A} l r : keep true l (mret r : GM A).
Proof. intros s Hl. by apply wp_ret. Qed.

Lemma keep_then {A B} ret l (m : GM A) (k : A -> GM B) : keep ret l m -> (forall a, keep ret l (k a)) -> keep ret l (mthen m k).
Proof.
  intros Hm Hk s Hl. apply wp_then. apply (use_keep ret l); [done | done | | done]. intros a s' Hs. by apply Hk.
Qed.

Lemma keep_tick ret l : keep ret l (tick : GM nat).
Proof. intros s Hl. apply wp_tick. by apply live_time. Qed.

Lemma keep_emit ret l e : keep ret l (emit e : GM unit).
Proof. intros s Hl. apply wp_emit. by apply live_log. Qed.

Lemma keep_getx ret l : keep ret l (getx : GM gstate).
Proof. intros s Hl. by apply wp_getx. Qed.

Lemma keep_putx ret l x : keep ret l (putx x : GM unit).
Proof. intros s Hl. apply wp_putx. by apply live_x. Qed.

Lemma keep_ld8 ret l p n o : (p, n) ∈ l -> 0 <= o -> o + 1 <= n -> keep ret l (ld8 p o : GM Z).
Proof. intros ??? s Hl. apply (wp_ld8 h0 l s p n); eauto. Qed.

Lemma keep_ld32 ret l p n o : (p, n) ∈ l -> 0 <= o -> o + 4 <= n -> keep ret l (ld32 p o : GM Z).
Proof. intros ??? s Hl. apply (wp_ld32 h0 l s p n); eauto. Qed.

Lemma keep_ld64 ret l p n o : (p, n) ∈ l -> 0 <= o -> o + 8 <= n -> keep ret l (ld64 p o : GM Z).
Proof. intros ??? s Hl. apply (wp_ld64 h0 l s p n); eauto. Qed.

Lemma keep_st32 ret l p n o v : (p, n) ∈ l -> 0 <= o -> o + 4 <= n -> keep ret l (st32 p o v : GM unit).
Proof. intros ??? s Hl. apply (wp_st32 h0 l s p n); eauto. Qed.

Lemma keep_st64 ret l p n o v : (p, n) ∈ l -> 0 <= o -> o + 8 <= n -> keep ret l (st64 p o v : GM unit).
Proof. intros ??? s Hl. apply (wp_st64 h0 l s p n); eauto. Qed.

Lemma keep_rdbuf ret l p n o m : (p, n) ∈ l -> 0 <= o -> 0 <= m -> o + m <= n -> keep ret l (rdbuf p o m : GM (list Z)).
Proof. intros ???? s Hl. apply (wp_rdbuf h0 l s p n); eauto. Qed.

Lemma keep_wrbuf ret l p n o v : (p, n) ∈ l -> 0 <= o -> o + Z.of_nat (length v) <= n -> keep ret l (wrbuf p o v : GM unit).
Proof. intros ??? s Hl. apply (wp_wrbuf h0 l s p n); eauto. Qed.

Lemma keep_copy_from ret l U p n o addr m :
  (p, n) ∈ l -> 0 <= o -> 0 <= m -> o + m <= n -> keep ret l (copy_from_user U p o addr m : GM bool).
Proof. intros ???? s Hl. apply (wp_copy_from_user h0 l s U p n); eauto. Qed.

Lemma keep_copy_to ret l U p n o addr m :
  (p, n) ∈ l -> 0 <= o -> 0 <= m -> o + m <= n -> keep ret l (copy_to_user U addr p o m : GM bool).
Proof. intros ???? s Hl. apply (wp_copy_to_user h0 l s U p n); eauto. Qed.

Lemma keep_read_user ret l U addr m : 0 <= m -> keep ret l (read_user U addr m : GM (option (list Z))).
Proof. intros ? s Hl. apply (wp_read_user h0 l s); eauto. Qed.

Lemma keep_call ret l m : keep true l m -> keep ret l (mcall m : GM Z).
Proof.
  intros Hm s Hl. apply wp_call. by apply (use_keep true l).
Qed.

Lemma keep_loop {A} ret l (body : Z -> A -> GM (bool * A)) n i a :
  (forall j b, i <= j < i + Z.of_nat n -> keep ret l (body j b)) -> keep ret l (mloop body n i a).
Proof.
  intros Hb s Hl. apply (wp_loop (fun _ _ => live h0 l)); [done | | done].
  intros j b s' Hj Hs. apply (use_keep ret l); [by apply Hb | done | | done]. intros [[] c] s'' Hs''; done.
Qed.

Lemma keep_handle_id ret l fd : keep ret l (guest_fd_to_handle_id E fd).
Proof. unfold guest_fd_to_handle_id. apply keep_then; [apply keep_tick | intros t; apply keep_done]. Qed.

(** Runs through code that keeps its buffers. *)
Ltac keep1 :=
  lazymatch goal with
  | |- keep _ _ (mdone _) => apply keep_done
  | |- keep _ _ (mret _) => apply keep_ret
  | |- keep _ _ tick => apply keep_tick
  | |- keep _ _ (emit _) => apply keep_emit
  | |- keep _ _ getx => apply keep_getx
  | |- keep _ _ (putx _) => apply keep_putx
  | |- keep _ _ (mthen _ _) => apply keep_then; [|intros ?]
  | |- keep _ _ (ld8 _ _) => eapply keep_ld8; [held | bound | bound]
  | |- keep _ _ (ld32 _ _) => eapply keep_ld32; [held | bound | bound]
  | |- keep _ _ (ld64 _ _) => eapply keep_ld64; [held | bound | bound]
  | |- keep _ _ (st32 _ _ _) => eapply keep_st32; [held | bound | bound]
  | |- keep _ _ (st64 _ _ _) => eapply keep_st64; [held | bound | bound]
  | |- keep _ _ (rdbuf _ _ _) => eapply keep_rdbuf; [held | bound | bound | bound]
  | |- keep _ _ (copy_from_user _ _ _ _ _) => eapply keep_copy_from; [held | bound | bound | bound]
  | |- keep _ _ (copy_to_user _ _ _ _ _) => eapply keep_copy_to; [held | bound | bound | bound]
  | |- keep _ _ (read_user _ _ _) => apply keep_read_user; bound
  | |- keep _ _ (mcall _) => apply keep_call
  | |- keep _ _ (guest_fd_to_handle_id _ _) => apply keep_handle_id
  | |- keep _ _ (if ?b then _ else _) => destruct b eqn:?; nv_bool
  | |- keep _ _ (match ?x with _ => _ end) => destruct x eqn:?
  end.
Ltac keeps := repeat keep1.


Lemma keep_swap_fd l p n off pred : (p, n) ∈ l -> 0 <= off -> off + 4 <= n -> keep true l (swap_fd E p off pred).
Proof. intros. unfold swap_fd. keeps. Qed.

Lemma keep_swap_event_fd l p n off : (p, n) ∈ l -> 0 <= off -> off + 4 <= n -> keep true l (swap_event_fd E p off).
Proof. intros. unfold swap_event_fd. keeps. Qed.


(** *** The sanitizer *)

Context (Hprof : prof ∈ Abi.nvkvm_abi_profiles).

Lemma keep_sanitize_frontend l cmd p ps :
  fe_param_size prof cmd = Some ps -> (p, ps) ∈ l -> keep true l (sanitize_frontend E (ioc_nr cmd) p ps).
Proof.
  intros Hs Hp. unfold sanitize_frontend. 
  destruct (Z.eqb_spec (ioc_nr cmd) 0x2b) as [Hn|_].
  { destruct (Z.eqb_spec ps (sizeof nvos64_parameters)) as [->|_]; [layout_eval_in Hp; keeps |].
    destruct (Z.eqb_spec ps (sizeof nvos21_parameters)) as [->|_]; [layout_eval_in Hp; keeps | keeps]. }
  repeat match goal with |- keep _ _ (if ioc_nr cmd =? ?k then _ else _) =>
    let Hn := fresh in destruct (Z.eqb_spec (ioc_nr cmd) k) as [Hn|_]; [fe_size_of Hs Hn; injection Hs as <- | ] end.
  all: unfold sanitize_alloc_memory; cbv zeta; keeps; try (eapply keep_swap_fd; [held | bound | bound]);
    try (eapply keep_swap_event_fd; [held | bound | bound]).
Qed.

Lemma keep_sanitize l cmd p ps :
  nvkvm_ioctl_param_size prof cmd = Some ps -> (p, ps) ∈ l -> keep true l (sanitize_params E prof cmd p ps).
Proof.
  intros Hs Hp. unfold sanitize_params. pose proof (profiles_ok prof Hprof) as Hok. unfold profile_ok in Hok. nv_bool.
  repeat match goal with |- keep _ _ (if cmd =? ?k then _ else _) => destruct (Z.eqb_spec cmd k) as [->|_] end.
  4: { change (Some (Abi.uvm_map_ext_size prof) = Some ps) in Hs. injection Hs as <-. cbv zeta.
       destruct (_ <? _); [keeps |]. eapply keep_swap_fd; [held | bound | bound]. }
  1-3: vm_compute in Hs; injection Hs as <-; eapply keep_swap_fd; [held | bound | bound].
  destruct (Z.eqb_spec (ioc_type cmd) type_F) as [Ht|]; cbn [negb]; [|keeps].
  apply keep_sanitize_frontend; [|done]. by rewrite <- fe_size.
Qed.

(** *** Staging *)

Lemma spec_fail {A} l e (Q : A -> list (nat * Z) -> Prop) : spec l (free_return l.*1 e) Q [].
Proof.
  induction l as [|[p n] l IH]; intros s Hl; [by apply wp_ret |]. apply wp_then.
  eapply (wp_kfree h0 _ s p n); [done | done |]. intros s' Hs. by apply IH.
Qed.

(** Sequencing where the buffers change. *)
Lemma spec_then {A B} l lr (m : GM A) (k : A -> GM B) (Q : A -> list (nat * Z) -> Prop) (Q' : B -> list (nat * Z) -> Prop) :
  spec l m Q lr -> (forall a l', Q a l' -> spec l' (k a) Q' lr) -> spec l (mthen m k) Q' lr.
Proof.
  intros Hm Hk s Hl. apply wp_then. eapply wp_mono; [by apply Hm | | done | done].
  intros a s' (l' & HQ & Hs). by apply (Hk a l').
Qed.

Lemma spec_keep {A B} l lr (m : GM A) (k : A -> GM B) (Q : B -> list (nat * Z) -> Prop) :
  keep false l m -> (forall a, spec l (k a) Q lr) -> spec l (mthen m k) Q lr.
Proof.
  intros Hm Hk s Hl. apply wp_then. apply (use_keep false l); [done | done | | done]. intros a s' Hs. by apply Hk.
Qed.

Lemma spec_done {A} l lr (a : A) (Q : A -> list (nat * Z) -> Prop) : Q a l -> spec l (mdone a) Q lr.
Proof. intros HQ s Hl. apply wp_done. eauto. Qed.

Lemma spec_perm {A} l l' lr (m : GM A) Q : l ≡ₚ l' -> spec l' m Q lr -> spec l m Q lr.
Proof. intros Hp Hm s Hl. apply Hm. by apply (live_perm _ l). Qed.

Lemma spec_weaken {A} l lr (m : GM A) (Q Q' : A -> list (nat * Z) -> Prop) :
  spec l m Q lr -> (forall a l', Q a l' -> Q' a l') -> spec l m Q' lr.
Proof.
  intros Hm HQ s Hl. eapply wp_mono; [by apply Hm | | done | done]. intros a s' (l' & H & Hs). eauto.
Qed.

Lemma spec_ld32 {B} l lr p n o (k : Z -> GM B) Q :
  (p, n) ∈ l -> 0 <= o -> o + 4 <= n -> (forall v, 0 <= v < 2 ^ 32 -> spec l (k v) Q lr) -> spec l (mthen (ld32 p o) k) Q lr.
Proof. intros ??? Hk s Hl. apply wp_then, (wp_ld32 h0 l s p n); [done | done | done | done |]. intros v Hv. by apply Hk. Qed.

Lemma spec_ld64 {B} l lr p n o (k : Z -> GM B) Q :
  (p, n) ∈ l -> 0 <= o -> o + 8 <= n -> (forall v, 0 <= v < 2 ^ 64 -> spec l (k v) Q lr) -> spec l (mthen (ld64 p o) k) Q lr.
Proof. intros ??? Hk s Hl. apply wp_then, (wp_ld64 h0 l s p n); [done | done | done | done |]. intros v Hv. by apply Hk. Qed.

Lemma spec_alloc {B} l lr U n (k : option nat -> GM B) Q :
  spec l (k None) Q lr -> (forall p, spec ((p, n) :: l) (k (Some p)) Q lr) -> spec l (mthen (kzalloc U n) k) Q lr.
Proof.
  intros HN HS s Hl. apply wp_then, (wp_kzalloc h0 l); [done | |].
  - intros s' Hs. by apply HN.
  - intros p s' Hs. by apply HS.
Qed.

Lemma spec_free {B} l l' lr p n (k : unit -> GM B) Q :
  l ≡ₚ (p, n) :: l' -> spec l' (k tt) Q lr -> spec l (mthen (kfree (Some p)) k) Q lr.
Proof. intros Hp Hk s Hl. apply wp_then. eapply (wp_kfree h0 l s p n l'); [done | done |]. intros s' Hs. by apply Hk. Qed.

Lemma spec_copied {B} l lr p n d (k : unit -> GM B) o Q :
  (p, n) ∈ l -> 0 <= o -> o + Z.of_nat (length d) <= n -> spec l (k tt) Q lr -> spec l (mthen (wrbuf p o d) k) Q lr.
Proof. intros ??? Hk s Hl. apply wp_then, (wp_wrbuf h0 l s p n); [done | done | done | done |]. intros s' Hs. by apply Hk. Qed.

Lemma spec_rdbuf {B} l lr p n o m (k : list Z -> GM B) Q :
  (p, n) ∈ l -> 0 <= o -> 0 <= m -> o + m <= n -> (forall v, Z.of_nat (length v) = m -> spec l (k v) Q lr) ->
  spec l (mthen (rdbuf p o m) k) Q lr.
Proof. intros ???? Hk s Hl. apply wp_then, (wp_rdbuf h0 l s p n); [done | done | done | done | done |]. intros v Hv. by apply Hk. Qed.

Ltac spec1 :=
  lazymatch goal with
  | |- spec _ (mthen (kzalloc _ _) _) _ _ => apply spec_alloc; [|intros ?]
  | |- spec _ (mthen (ld32 _ _) _) _ _ => eapply spec_ld32; [held | bound | bound | intros ? ?]
  | |- spec _ (mthen (ld64 _ _) _) _ _ => eapply spec_ld64; [held | bound | bound | intros ? ?]
  | |- spec _ (mthen (rdbuf _ _ _) _) _ _ => eapply spec_rdbuf; [held | bound | bound | bound | intros ? ?]
  | |- spec _ (mthen (wrbuf _ _ _) _) _ _ => eapply spec_copied; [held | bound | bound |]
  | |- spec _ (mthen (mdone _) _) _ _ => apply spec_keep; [apply keep_done | intros ?]
  | |- spec _ (mthen (st32 _ _ _) _) _ _ => apply spec_keep; [keep1 | intros ?]
  | |- spec _ (mthen (st64 _ _ _) _) _ _ => apply spec_keep; [keep1 | intros ?]
  | |- spec _ (mthen (copy_from_user _ _ _ _ _) _) _ _ => apply spec_keep; [keep1 | intros ?]
  | |- spec _ (if ?b then _ else _) _ _ => destruct b eqn:?; nv_bool
  | |- spec _ (mdone _) _ _ => apply spec_done
  end.
Ltac specs := repeat spec1.

Lemma spec_fetch p ps addr n : 0 <= n -> spec [(p, ps)] (fetch E p addr n) (fun a l' => l' = [(a, n); (p, ps)]) [].
Proof.
  intros Hn. unfold fetch. spec1; [exact (spec_fail _ _ _) |]. spec1. spec1; [by specs | exact (spec_fail _ _ _)].
Qed.

Lemma spec_extend p ps a n psize ext :
  0 <= psize <= n -> psize <= ext ->
  spec [(a, n); (p, ps)] (extend E p a psize ext) (fun e l' => l' = [(e, ext); (a, n); (p, ps)]) [].
Proof. intros Hn He. unfold extend. spec1; [exact (spec_fail _ _ _) |]. specs. done. Qed.

Definition grown (p : nat) (ps psize : Z) (an : nat * Z) (l : list (nat * Z)) : Prop := l = [an; (p, ps)] /\ psize <= snd an.

Lemma spec_stage_channels p ps a inner psize :
  0 <= psize -> spec [(a, psize); (p, ps)] (stage_channels E p a inner psize) (grown p ps psize) [].
Proof.
  intros Hp. unfold stage_channels. spec1; [|specs; done]. specs; [|done]. cbv zeta.
  eapply spec_then; [apply spec_extend; lia |]. cbn beta. intros e ? ->.
  spec1. apply spec_keep; [destruct a0; keeps |]. intros ok. spec1; [exact (spec_fail _ _ _) |]. specs.
  eapply spec_free; [apply Permutation_swap |]. specs. split; [done | cbn; lia].
Qed.

Lemma spec_stage_list p ps a n inner psize :
  0 <= psize <= n -> spec [(a, n); (p, ps)] (stage_list E p a n inner psize) (grown p ps psize) [].
Proof.
  intros Hp. unfold stage_list. cbv zeta. spec1; [|specs; split; [done | cbn; lia]]. specs; [|split; [done | cbn; lia]].
  assert (0 <= StubIoctl.nvkvm_ctrl_list_entry_size inner).
  { unfold StubIoctl.nvkvm_ctrl_list_entry_size. repeat case_match; lia. }
  eapply spec_then; [apply spec_extend; [lia | nia] |]. cbn beta. intros e ? ->.
  apply spec_keep; [eapply keep_copy_from; [held | lia | nia | lia] | intros ok].
  spec1; [exact (spec_fail _ _ _) |]. apply spec_keep; [eapply keep_st64; [held | lia | nia] | intros _].
  eapply spec_free; [apply Permutation_swap |]. specs. split; [done | cbn; nia].
Qed.

Lemma spec_stage_strings p ps a n inner psize :
  0 <= psize <= n -> spec [(a, n); (p, ps)] (stage_strings E p a n inner psize) (grown p ps psize) [].
Proof.
  intros Hp. unfold stage_strings, BV. layout_eval. spec1; [|specs; split; [done | cbn; lia]]. specs; [|split; [done | cbn; lia]].
  eapply spec_then; [apply spec_extend; lia |]. cbn beta. intros e ? ->. specs.
  eapply spec_free; [apply Permutation_swap |]. specs. split; [done | cbn; lia].
Qed.

Lemma keep_try_swap ret l a n off fd : (a, n) ∈ l -> 0 <= off -> off + 4 <= n -> keep ret l (try_swap_fd E a off fd).
Proof. intros. unfold try_swap_fd. keeps. Qed.

Lemma keep_object_fd ret l a n m inner c off : (a, m) ∈ l -> n <= m -> 0 <= off -> keep ret l (stage_object_fd E a n inner c off).
Proof.
  intros. unfold stage_object_fd. keeps. eapply keep_try_swap; [held | lia | lia].
Qed.

(** The pids: their buffer, and how many were saved. *)
Definition pid_bufs (r : option nat * Z) : list (nat * Z) := match fst r with Some g => [(g, 800)] | None => [] end.

Lemma spec_pid_tag l lr a n m :
  (a, m) ∈ l -> n <= m ->
  spec l (nvkvm_get_pid_info_tag E a n) (fun r l' => l' = pid_bufs r ++ l /\ 0 <= snd r <= NVKVM_PIDINFO_MAX) lr.
Proof.
  intros Ha Hn. unfold nvkvm_get_pid_info_tag, NVKVM_PIDINFO_LIST_OFF. spec1; [by specs |]. spec1. cbv zeta. spec1; [by specs |].
  intros s Hl. apply wp_then.
  apply (wp_loop (fun j k s' => 0 <= k <= j /\ live h0 ((p, NVKVM_PIDINFO_MAX * 4) :: l) s')).
  - split; [lia | done].
  - intros j k s' Hj [Hk Hs]. unfold NVKVM_PIDINFO_MAX in *. destruct (Z.ltb_spec n (pid_at j + 4)).
    + apply wp_done. cbn. eexists; split; [|done]. cbn. split; [done | lia].
    + assert (0 <= pid_at j) by (unfold pid_at, NVKVM_PIDINFO_LIST_OFF, Gate.NVKVM_PIDINFO_STRIDE; lia).
      assert ((a, m) ∈ (p, 200 * 4) :: l) as Ha' by by apply elem_of_cons; right.
      apply wp_then, (wp_ld32 h0 _ s' a m _ _ _ Hs Ha'); [lia | lia |]. intros pid _.
      apply wp_then, (wp_st32 h0 _ s' p (200 * 4) _ _ _ Hs); [held | lia | lia |]. intros s1 Hs1. apply wp_then, wp_tick, wp_then.
      apply (wp_st32 h0 _ _ a m _ _ _ (live_time _ _ _ Hs1)); [done | lia | lia |]. intros s2 Hs2. apply wp_done. split; [cbn; lia | done].
  - intros k s' [Hk Hs]. apply wp_done. eexists; split; [|done]. cbn. split; [done | unfold NVKVM_PIDINFO_MAX in *; lia].
Qed.

(** What staging leaves: the parameters, the buffer behind them, the saved pids. *)
Definition aux_bufs (sg : staged) : list (nat * Z) := match sg_aux sg with Some a => [(a, sg_size sg)] | None => [] end.
Definition bufs_of (buf : option nat) (ps : Z) : list (nat * Z) := match buf with Some p => [(p, ps)] | None => [] end.
Definition all_bufs (buf : option nat) (ps : Z) (sg : staged) : list (nat * Z) := pid_bufs (sg_gpi sg) ++ aux_bufs sg ++ bufs_of buf ps.

Record staged_ok (sg : staged) : Prop := {
  so_size : 0 <= sg_size sg;
  so_pids : 0 <= snd (sg_gpi sg) <= NVKVM_PIDINFO_MAX;
  so_planes : Forall (fun x => 0 <= fst x) (sg_planes sg)
}.

Definition staged_as (buf : option nat) (ps : Z) (sg : staged) (l : list (nat * Z)) : Prop := l = all_bufs buf ps sg /\ staged_ok sg.

Lemma unstaged_ok buf ps uptr : staged_as buf ps (unstaged uptr) (bufs_of buf ps).
Proof. split; [done |]. split; cbn; [lia | unfold NVKVM_PIDINFO_MAX; lia | constructor]. Qed.

Lemma plain_staged_ok p ps a n uptr ex im planes :
  0 <= n -> Forall (fun x => 0 <= fst x) planes ->
  staged_as (Some p) ps (Staged (Some a) n uptr (None, 0) ex im planes) [(a, n); (p, ps)].
Proof. intros. split; [done |]. split; cbn; [lia | unfold NVKVM_PIDINFO_MAX; lia | done]. Qed.

Lemma spec_stage_alloc21 p ps : 32 <= ps -> spec [(p, ps)] (stage_alloc21 E prof p) (staged_as (Some p) ps) [].
Proof.
  intros Hps. unfold stage_alloc21. spec1. spec1; [|specs; apply unstaged_ok]. spec1. cbv zeta. spec1; [|specs; apply unstaged_ok].
  eapply spec_then; [apply spec_fetch; lia |]. cbn beta. intros a ? ->. specs. apply plain_staged_ok; [lia | constructor].
Qed.

Lemma keep_stage_event l a n h_class ap_size : (a, n) ∈ l -> ap_size <= n -> keep false l (stage_event E a h_class ap_size).
Proof.
  intros. unfold stage_event.
  destruct (((h_class =? 121) || (h_class =? 5)) && (sizeof nv0005_alloc_parameters <=? ap_size)) eqn:Hc; [|keeps].
  layout_eval_in Hc. nv_bool. keeps.
Qed.

Lemma spec_stage_alloc64 p ps : 48 <= ps -> spec [(p, ps)] (stage_alloc64 E prof p) (staged_as (Some p) ps) [].
Proof.
  intros Hps. unfold stage_alloc64. spec1. spec1; [|specs; apply unstaged_ok]. spec1. spec1. cbv zeta.
  set (n := if v0 =? 0 then class_params_size prof v1 else v0).
  spec1; [exact (spec_fail _ _ _) |]. spec1; [|specs; apply unstaged_ok].
  eapply spec_then; [apply spec_fetch; lia |]. cbn beta. intros a ? ->. spec1.
  apply spec_keep; [eapply keep_stage_event; [held | done] | intros _]. specs. apply plain_staged_ok; [lia | constructor].
Qed.

Lemma spec_stage_planes l lr a n :
  (a, n) ∈ l -> plane_off 3 <= n ->
  spec l (stage_planes E a) (fun planes l' => l' = l /\ Forall (fun x => 0 <= fst x) planes) lr.
Proof.
  intros Ha Hn s Hl. unfold stage_planes. assert (plane_off 3 = 112) as E3 by done.
  apply (wp_loop (fun _ planes s' => Forall (fun x : Z * Z => 0 <= fst x) planes /\ live h0 l s')); [split; [constructor | done] | |].
  - intros j planes s' Hj [HF Hs]. change (0 <= j < 3) in Hj.
    assert (0 <= plane_off j /\ plane_off j + 4 <= n).
    { unfold plane_off, StubIoctl.NVKVM_NVKMS_REGSURF_PLANE0_OFF, StubIoctl.NVKVM_NVKMS_REGSURF_PLANE_STRIDE in *. lia. }
    apply wp_then, (wp_ld32 h0 l s' a n _ _ _ Hs Ha); [lia | lia |]. intros gfd _. destruct (s32 gfd <=? 0).
    + apply wp_done. by cbn.
    + apply wp_then. apply (use_keep false l); [eapply keep_try_swap; [done | lia | lia] | done | | done].
      intros _ s'' Hs''. apply wp_done. cbn. split; [|done]. apply Forall_app. split; [done | constructor; [cbn; lia | constructor]].
  - intros planes s' [HF Hs]. eauto.
Qed.

Lemma spec_stage_modeset p ps : 16 <= ps -> spec [(p, ps)] (stage_modeset E p) (staged_as (Some p) ps) [].
Proof.
  intros Hps. unfold stage_modeset, StubIoctl.NVKVM_NVKMS_ADDR_OFF, StubIoctl.NVKVM_NVKMS_REGSURF_USEFD_OFF.
  spec1. spec1. spec1; [|specs; apply unstaged_ok]. spec1; [exact (spec_fail _ _ _) |].
  eapply spec_then; [apply spec_fetch; lia |]. cbn beta. intros a ? ->. spec1. spec1.
  assert (plane_off 3 = 112) as E3 by done. unfold StubIoctl.NVKVM_NVKMS_MAX_PLANES.
  eapply (spec_then _ _ _ _ (fun planes l' => l' = [(a, v); (p, ps)] /\ Forall (fun x : Z * Z => 0 <= fst x) planes)).
  - spec1; [|by specs]. apply spec_keep; [eapply keep_ld8; [held | lia | lia] | intros use].
    spec1; [|by specs]. eapply spec_stage_planes; [held | lia].
  - intros planes ? [-> HF]. specs. apply plain_staged_ok; [lia | done].
Qed.

Lemma spec_bind_done {A B} l lr (a : A) (k : A -> GM B) Q : spec l (k a) Q lr -> spec l (mthen (mdone a) k) Q lr.
Proof. intros Hk s Hl. by apply Hk. Qed.

Lemma spec_stage_control p ps : 32 <= ps -> spec [(p, ps)] (stage_control E p) (staged_as (Some p) ps) [].
Proof.
  intros Hps. unfold stage_control. spec1. spec1. spec1; [|specs; apply unstaged_ok]. spec1; [exact (spec_fail _ _ _) |].
  eapply spec_then; [apply spec_fetch; lia |]. cbn beta. intros a ? ->. spec1.
  destruct (Z.eqb_spec v1 NVKVM_NV2080_GET_PID_INFO) as [->|_].
  - eapply spec_then; [eapply spec_pid_tag; [held | lia] |]. intros gpi ? [-> Hg].
    do 2 (apply spec_keep; [eapply keep_object_fd; [apply elem_of_app; right; held | lia | lia] | intros ?]).
    change (stage_channels E p a NVKVM_NV2080_GET_PID_INFO v) with (mdone (a, v) : GM (nat * Z)). apply spec_bind_done.
    change (stage_list E p (a, v).1 (a, v).2 NVKVM_NV2080_GET_PID_INFO v) with (mdone (a, v) : GM (nat * Z)). apply spec_bind_done.
    change (stage_strings E p (a, v).1 (a, v).2 NVKVM_NV2080_GET_PID_INFO v) with (mdone (a, v) : GM (nat * Z)). apply spec_bind_done.
    change ((NVKVM_NV2080_GET_PID_INFO =? 514) && (24 <=? v)) with false. apply spec_bind_done, spec_done. split; [done |].
    split; cbn; [lia | done | constructor].
  - apply spec_bind_done. do 2 (apply spec_keep; [eapply keep_object_fd; [held | lia | lia] | intros ?]).
    eapply spec_then; [apply spec_stage_channels; lia |]. intros [b1 n1] ? [-> Hn1]. cbn [fst snd] in *.
    eapply spec_then; [apply spec_stage_list; lia |]. intros [b2 n2] ? [-> Hn2]. cbn [fst snd] in *.
    eapply spec_then; [apply spec_stage_strings; lia |]. intros [b3 n3] ? [-> Hn3]. cbn [fst snd] in *.
    apply spec_keep; [keeps | intros _]. specs. apply plain_staged_ok; [lia | constructor].
Qed.

Lemma spec_stage cmd buf ps :
  nvkvm_ioctl_param_size prof cmd = Some ps -> spec (bufs_of buf ps) (stage E prof ctx cmd buf ps) (staged_as buf ps) [].
Proof.
  intros Hs. destruct buf as [p|]; cbn [bufs_of stage]; [|apply spec_done, (unstaged_ok None)].
  destruct (is_modeset _ _ _) eqn:Hm.
  { unfold is_modeset, StubIoctl.NVKVM_NVKMS_PARAMS_SIZE in Hm. nv_bool. apply spec_stage_modeset. lia. }
  destruct (Z.eqb_spec (ioc_nr cmd) 0x2a) as [Hn|_].
  { apply spec_stage_control. by apply (control_size prof cmd). }
  destruct ((ioc_nr cmd =? 0x2b) && (ps =? sizeof nvos21_parameters)) eqn:H21.
  { nv_bool. apply spec_stage_alloc21. match goal with H : ps = _ |- _ => rewrite H end. layout_eval. lia. }
  destruct ((ioc_nr cmd =? 0x2b) && (ps =? sizeof nvos64_parameters)) eqn:H64.
  { nv_bool. apply spec_stage_alloc64. match goal with H : ps = _ |- _ => rewrite H end. layout_eval. lia. }
  apply spec_done, (unstaged_ok (Some p)).
Qed.

(** *** The rest of the call *)

Lemma spec_copy_in ps uparams : spec [] (params_in E ps uparams) (fun buf l' => l' = bufs_of buf ps) [].
Proof.
  unfold params_in. spec1; [|by specs]. spec1; [intros s Hl; by apply wp_ret |].
  spec1; [|by specs]. spec1. spec1; [by specs | exact (spec_fail _ _ _)].
Qed.

Lemma visible_pids_length n l : 0 <= n <= NVKVM_GET_PIDS_MAX -> n + Z.of_nat (length (visible_pids n l)) <= NVKVM_GET_PIDS_MAX.
Proof.
  revert n. induction l as [|e l IH]; intros n Hn; cbn [visible_pids]; [cbn; lia |]. destruct (pe_vnr e) as [v|]; [|by apply IH].
  destruct (Z.leb_spec NVKVM_GET_PIDS_MAX n); [by apply IH |]. destruct (v =? 0); [by apply IH |].
  cbn [length]. specialize (IH (n + 1) ltac:(lia)). lia.
Qed.

Lemma spec_synth l lr p ps : (p, ps) ∈ l -> spec l (nvkvm_synth_get_pids E p ps) (fun _ l' => l' = l) lr.
Proof.
  intros Hp. unfold nvkvm_synth_get_pids. spec1; [by specs |]. assert (ps = 32) as -> by (layout_eval_in Heqb; done).
  spec1. spec1; [by specs |]. spec1. spec1. spec1; [by specs |]. nv_bool. spec1; [by specs |].
  assert ((p, 32) ∈ (p0, 12 + 4 * NVKVM_GET_PIDS_MAX) :: l) as Hp' by by apply elem_of_cons; right.
  apply spec_keep; [keep1 | intros t]. cbv zeta. pose proof (visible_pids_length 0 (i_pids E t)) as Hv.
  unfold NVKVM_GET_PIDS_MAX in *. eapply spec_copied; [held | lia | rewrite StubWire.length_words; lia |].
  apply spec_keep; [keep1 | intros _]. apply spec_keep; [keep1 | intros ok].
  eapply spec_free; [reflexivity |]. spec1; [by specs |]. spec1. by specs.
Qed.

Lemma spec_synthesize cmd buf ps uparams :
  0 <= ps -> spec (bufs_of buf ps) (synthesize E cmd buf ps uparams) (fun _ l' => l' = bufs_of buf ps) [].
Proof.
  intros Hps. destruct buf as [p|]; cbn [synthesize bufs_of]; [|by specs]. spec1; [|by specs].
  eapply spec_then; [eapply spec_synth; held |]. intros done ? ->. spec1; [|by specs].
  apply spec_keep; [keeps | intros ok]. eapply spec_free; [reflexivity |]. intros s Hl. by apply wp_ret.
Qed.

Lemma keep_uvm_update ret l f : keep ret l (uvm_update f).
Proof. unfold uvm_update. keeps. Qed.

Lemma keep_record_uvm l cmd p ps : (p, ps) ∈ l -> keep false l (record_uvm E cmd p ps).
Proof.
  intros Hp. unfold record_uvm, node_alloc.
  repeat match goal with |- keep _ _ (if (cmd =? ?k) && (?n <=? ps) then _ else _) =>
    let H := fresh in destruct ((cmd =? k) && (n <=? ps)) eqn:H; [layout_eval_in H; nv_bool; keeps; apply keep_uvm_update | clear H] end.
  keeps.
Qed.

(** The saved fields lie inside the parameters. *)
Definition orig_fits (o : orig) (ps : Z) : Prop :=
  match o with
  | O_none => True
  | O_modeset _ => 16 <= ps
  | O_nvos54 _ => 24 <= ps
  | O_nvos64 _ _ _ => 36 <= ps
  | O_nvos21 _ => 24 <= ps
  | O_uvm_mm _ | O_ctl_fd _ => 4 <= ps
  | O_uvm_ctrl _ => 20 <= ps
  | O_os_event _ => 12 <= ps
  | O_nvos02 _ | O_nvos33 _ => 52 <= ps
  end.

Definition saved_fits (v : saved) (ps : Z) : Prop :=
  orig_fits (sv_orig v) ps /\ (is_Some (sv_nvos56 v) -> 36 <= ps) /\ (is_Some (sv_nvos34 v) -> 28 <= ps).

Lemma spec_save_orig l lr cmd p ps :
  (p, ps) ∈ l -> spec l (save_orig ctx cmd p ps) (fun o l' => l' = l /\ orig_fits o ps) lr.
Proof.
  intros Hp. unfold save_orig, is_modeset, StubIoctl.NVKVM_NVKMS_PARAMS_SIZE, StubIoctl.NVKVM_NVKMS_ADDR_OFF. cbv zeta.
  repeat match goal with
  | |- spec _ (if (cmd =? _) || _ || _ then _ else _) _ _ => destruct ((cmd =? _) || _ || _)
  | |- spec _ (if ?b then _ else _) _ _ =>
      let H := fresh in destruct b eqn:H; [layout_eval_in H; nv_bool; specs; split; [done | cbn; lia] | clear H]
  end.
  all: specs; split; [done | cbn; lia].
Qed.

Lemma spec_save_fields cmd buf ps lr :
  spec (bufs_of buf ps) (save_fields ctx cmd buf ps) (fun v l' => l' = bufs_of buf ps /\ saved_fits v ps) lr.
Proof.
  destruct buf as [p|]; cbn [save_fields bufs_of]; [|specs; split; [done |]; repeat split; by intros []].
  eapply spec_then; [apply spec_save_orig; held |]. intros o ? [-> Ho].
  eapply (spec_then _ _ _ _ (fun v l' => l' = [(p, ps)] /\ (is_Some v -> 36 <= ps))).
  { match goal with |- spec _ (if ?b then _ else _) _ _ => destruct b eqn:H end; [layout_eval_in H; nv_bool; subst ps; by specs |].
    specs. split; [done | by intros []]. }
  intros o56 ? [-> H56].
  eapply (spec_then _ _ _ _ (fun v l' => l' = [(p, ps)] /\ (is_Some v -> 28 <= ps))).
  { match goal with |- spec _ (if ?b then _ else _) _ _ => destruct b eqn:H end; [layout_eval_in H; nv_bool; subst ps; by specs |].
    specs. split; [done | by intros []]. }
  intros o34 ? [-> H34]. specs. by repeat split.
Qed.

Lemma keep_restore_fields l v p ps : (p, ps) ∈ l -> saved_fits v ps -> keep false l (restore_fields v p).
Proof.
  intros Hp (Ho & H56 & H34). destruct v as [o o56 o34]. cbn [sv_orig sv_nvos56 sv_nvos34] in *. unfold restore_fields.
  cbn [sv_orig sv_nvos56 sv_nvos34]. destruct o; cbn [orig_fits restore_orig] in *; unfold StubIoctl.NVKVM_NVKMS_ADDR_OFF; try (keeps; fail).
  destruct o56 as [[a b]|]; [specialize (H56 ltac:(eauto)); keeps |]. destruct o34 as [a|]; [specialize (H34 ltac:(eauto)); keeps | keeps].
Qed.

Lemma length_fit n l : 0 <= n -> Z.of_nat (length (fit n l)) = n.
Proof. intros Hn. unfold fit. rewrite length_take, length_app, length_replicate. lia. Qed.

Definition within (l : list (nat * Z)) (p : option nat) (n : Z) : Prop := 0 <= n /\ match p with Some p => (p, n) ∈ l | None => True end.

Lemma keep_rd_opt ret l p n : within l p n -> keep ret l (rd_opt p n).
Proof. intros [Hn Hp]. destruct p as [p|]; cbn [rd_opt]; keeps. Qed.

Lemma keep_wr_opt ret l p n d : within l p n -> keep ret l (wr_opt p n d).
Proof.
  intros [Hn Hp]. destruct p as [p|]; cbn [wr_opt]; [|keeps]. eapply keep_wrbuf; [held | lia |]. rewrite length_fit; lia.
Qed.

Lemma keep_forward_loop l buf ps aux n : within l buf ps -> within l aux n -> keep false l (forward_loop E buf ps aux n).
Proof.
  intros Hb Ha. unfold forward_loop. apply keep_then; [|intros ?; keeps]. apply keep_loop. intros _ st _. unfold forward_once. cbv zeta.
  keeps; first [by apply keep_rd_opt | by apply keep_wr_opt].
Qed.

Lemma keep_forward_call l buf ps sg : within l buf ps -> within l (sg_aux sg) (sg_size sg) -> keep false l (forward_call E buf ps sg).
Proof.
  intros Hb Ha. unfold forward_call. cbv zeta. 
  keeps; first [by apply keep_rd_opt | by apply keep_wr_opt | by apply keep_forward_loop].
Qed.

Lemma keep_validate l cmd p ps sg :
  (p, ps) ∈ l -> 20 <= ps -> within l (sg_aux sg) (sg_size sg) -> keep false l (validate_or_forward E cmd p ps sg).
Proof.
  intros Hp Hps Ha. unfold validate_or_forward. keeps. apply keep_forward_call; [split; [lia | done] | done].
Qed.

Lemma keep_pid_restore l a n g k :
  (a, n) ∈ l -> (g, 800) ∈ l -> 0 <= k <= NVKVM_PIDINFO_MAX -> keep false l (nvkvm_get_pid_info_restore a n g k).
Proof.
  intros Ha Hg Hk. unfold nvkvm_get_pid_info_restore, NVKVM_PIDINFO_MAX in *. apply keep_loop. intros j _ Hj.
  assert (0 <= pid_at j) by (unfold pid_at, NVKVM_PIDINFO_LIST_OFF, Gate.NVKVM_PIDINFO_STRIDE; lia).
  destruct (Z.ltb_spec n (pid_at j + 4)); [keeps |].
  apply keep_then; [apply (keep_ld32 _ _ g 800); [done | lia | lia] | intros pid].
  apply keep_then; [apply (keep_st32 _ _ a n); [done | lia | lia] | intros _]. keeps.
Qed.

Lemma held_aux l buf ps sg : l = all_bufs buf ps sg -> 0 <= sg_size sg -> within l (sg_aux sg) (sg_size sg).
Proof.
  intros -> Hn. split; [done |]. unfold all_bufs, aux_bufs. destruct (sg_aux sg) as [a|]; [|done].
  apply elem_of_app. right. apply elem_of_app. left. held.
Qed.

Lemma held_buf l buf ps sg : l = all_bufs buf ps sg -> 0 <= ps -> within l buf ps.
Proof.
  intros -> Hn. split; [done |]. unfold all_bufs, bufs_of. destruct buf as [p|]; [|done].
  apply elem_of_app. right. apply elem_of_app. right. held.
Qed.

Lemma keep_restore_inner l buf ps sg : l = all_bufs buf ps sg -> staged_ok sg -> keep false l (restore_inner sg).
Proof.
  intros Hl [Hn Hg _]. unfold restore_inner. destruct (held_aux l buf ps sg Hl Hn) as [_ Ha]. destruct (sg_aux sg) as [a|] eqn:Ea; [|keeps].
  apply keep_then; [|intros _; keeps].
  destruct (sg_gpi sg) as [[g|] k] eqn:Eg; cbn [fst snd] in *; [|keeps]. apply keep_pid_restore; [done | | done].
  rewrite Hl. unfold all_bufs, pid_bufs. rewrite Eg. by left.
Qed.

Lemma keep_forward l cmd buf ps sg : l = all_bufs buf ps sg -> 0 <= ps -> staged_ok sg -> keep false l (forward E ctx cmd buf ps sg).
Proof.
  intros Hl Hps Hs. pose proof (held_buf l buf ps sg Hl Hps) as Hb. pose proof (held_aux l buf ps sg Hl (so_size _ Hs)) as Ha.
  unfold forward. destruct (_ && _); [|keeps]. apply keep_then; [keeps | intros _].
  apply keep_then; [|intros r; apply keep_then; [keeps | intros _]; apply keep_then; [by apply (keep_restore_inner l buf ps) | intros _; keeps]].
  destruct buf as [p|]; [|by apply keep_forward_call]. destruct ((cmd =? 72) && (20 <=? ps)) eqn:Hc; [|by apply keep_forward_call].
  nv_bool. apply keep_validate; [apply Hb | done | done].
Qed.

(** The copies back *)

Lemma keep_finish_copy l uptr a n m r : (a, m) ∈ l -> 0 <= n <= m -> keep false l (finish_copy E uptr a n r).
Proof. intros. unfold finish_copy. keeps. Qed.

Lemma keep_back_channels l a n uptr psize r : (a, n) ∈ l -> 24 <= psize < n -> keep false l (back_channels E a n uptr psize r).
Proof.
  intros Ha Hp. unfold back_channels. apply keep_then; [keeps | intros [d|]]; apply keep_then;
    try (intros ?; by apply (keep_finish_copy _ _ _ _ n); [done | lia]); [|keeps].
  cbv zeta. pose proof (get32_range (bytes_of d) 0). keeps.
Qed.

Lemma keep_back_list l a n uptr psize esz r : (a, n) ∈ l -> 0 <= esz -> 16 <= psize < n -> keep false l (back_list E a n uptr psize esz r).
Proof.
  intros Ha He Hp. unfold back_list. apply keep_then; [keeps | intros [d|]]; apply keep_then;
    try (intros ?; by apply (keep_finish_copy _ _ _ _ n); [done | lia]); [|keeps].
  cbv zeta. pose proof (get32_range (bytes_of d) 0). destruct (_ && _); [|keeps]. apply keep_then; [|intros _; keeps].
  destruct (Z.leb_spec (psize + get32 (bytes_of d) 0 * esz) n); [|keeps]. apply (keep_copy_to _ _ _ a n); [done | lia | nia | lia].
Qed.

Lemma keep_restore_planes l a n planes :
  (a, n) ∈ l -> Forall (fun x => 0 <= fst x) planes -> keep false l (restore_planes a n planes).
Proof.
  intros Ha HF. induction HF as [|[off fd] planes Ho HF IH]; cbn [restore_planes]; [keeps |]. cbn in Ho.
  apply keep_then; [keeps | done].
Qed.

(** The strings are read from behind the parameters, as many bytes as the caller
    says now; a copy that leaves the buffer faults with the memory as it was. *)
Lemma wp_copy_any l s a o n addr (Q : bool -> kst gstate act -> Prop) R :
  live h0 l s -> F s -> (forall b s', live h0 l s' -> k_heap s' = k_heap s -> Q b s') ->
  wp (copy_to_user (i_user E) addr a o n) Q R F s.
Proof.
  intros Hl HF HQ. unfold copy_to_user, rdbuf. apply wp_then, wp_then. unfold wp at 1, at_buf.
  destruct (k_heap s !! a) as [b|]; [|done]. destruct (_ && _); [|done]. apply wp_done. unfold write_user. apply wp_then, wp_tick.
  destruct (e_writable _ _ _ _).
  - apply wp_then, wp_emit, wp_done, HQ; [|done]. by apply (live_same _ _ _ _ Hl).
  - apply wp_done, HQ; [|done]. by apply live_time.
Qed.

Lemma wp_back_string l s a o sz dst (Q : bool -> kst gstate act -> Prop) R :
  live h0 l s -> F s -> (forall b s', live h0 l s' -> k_heap s' = k_heap s -> Q b s') -> wp (back_string E a o sz dst) Q R F s.
Proof. intros Hl HF HQ. unfold back_string. destruct (negb _); [by apply (wp_copy_any l) | apply wp_done; by apply HQ]. Qed.

Lemma wp_back_strings l s a n uptr psize r :
  live h0 l s -> (forall s', k_heap s' = k_heap s -> F s') -> (a, n) ∈ l -> 40 <= psize <= n ->
  wp (back_strings E a uptr psize r) (fun _ s' => live h0 l s') (fun _ _ => False) F s.
Proof.
  intros Hl HF Ha Hp. unfold back_strings. apply wp_then. unfold read_user, BV. apply wp_then, wp_tick, wp_done.
  assert (keep false l (finish_copy E uptr a psize r)) as Hfin by (by apply (keep_finish_copy _ _ _ _ n); [done | lia]).
  assert (forall s', live h0 l s' -> wp (finish_copy E uptr a psize r) (fun _ s' => live h0 l s') (fun _ _ => False) F s') as Hend.
  { intros s' Hs. by apply (use_keep false l). }
  pose proof (live_time _ _ _ Hl) as Ht. destruct (e_readable _ _ _ _); [|by apply Hend]. cbv zeta. apply wp_then, wp_then.
  set (b := bytes_of (umem (i_user E) (k_time s) uptr (sizeof nv0000_ctrl_system_get_build_version_params))).
  assert (forall s', live h0 l s' -> wp (string_pointers a b)
     (fun _ s' => wp (finish_copy E uptr a psize r) (fun _ s' => live h0 l s') (fun _ _ => False) F s') (fun _ _ => False) F s') as Hst.
  { intros s' Hs. apply (use_keep false l); [unfold string_pointers, BV; keeps | done | intros _; by apply Hend | done]. }
  destruct (_ && _); [|by apply wp_done, Hst].
  apply wp_then, (wp_back_string l); [done | by apply HF |]. intros _ s1 H1 E1. cbn in E1.
  apply wp_then, (wp_back_string l); [done | by apply HF |]. intros _ s2 H2 E2.
  apply (wp_back_string l); [done | apply HF; congruence |]. intros _ s3 H3 E3. by apply Hst.
Qed.

Definition is_build_version (s : kst gstate act) : Prop :=
  exists p b, k_heap s !! p = Some b /\ get32 (b_data b) (offsetof nvos54_parameters "cmd") = NV0000_CTRL_CMD_SYSTEM_GET_BUILD_VERSION.

Lemma keep_back_aux l cmd buf ps sg a r :
  (ioc_nr cmd = 0x2a -> forall s, is_build_version s -> F s) -> nvkvm_ioctl_param_size prof cmd = Some ps ->
  within l buf ps -> (a, sg_size sg) ∈ l -> staged_ok sg -> keep false l (back_aux E cmd buf sg a r).
Proof.
  intros HF Hps Hb Ha Hs. unfold back_aux. cbv zeta. pose proof (so_size _ Hs) as H0.
  assert (keep false l (mthen (restore_planes a (sg_size sg) (sg_planes sg)) (fun _ => finish_copy E (sg_uptr sg) a (sg_size sg) r))) as Hplain.
  { apply keep_then; [apply keep_restore_planes; [done | apply so_planes, Hs] | intros _; by apply (keep_finish_copy _ _ _ _ (sg_size sg))]. }
  destruct buf as [p|]; [|done]. destruct (Z.eqb_spec (ioc_nr cmd) 0x2a) as [Hn|]; [|done]. specialize (HF Hn).
  pose proof (control_size prof cmd ps Hn Hps) as H32. destruct Hb as [_ Hp]. intros s Hl. apply wp_then.
  apply wp_then, (wp_at_buf _ _ _ ps); [by eapply live_holds | bound | lia | bound |]. intros b Eb _. apply wp_done.
  apply wp_then, (wp_ld32 h0 l s p ps); [done | done | bound | bound |]. intros psize Hpz.
  set (inner := get32 _ _) in *. assert (0 <= StubIoctl.nvkvm_ctrl_list_entry_size inner) as Hesz.
  { unfold StubIoctl.nvkvm_ctrl_list_entry_size. repeat case_match; lia. }
  destruct ((inner =? NV0080_CTRL_CMD_FIFO_GET_CHANNELLIST) && (24 <=? psize) && (psize <? sg_size sg)) eqn:H1.
  { nv_bool. apply (use_keep false l); [apply keep_back_channels; [done | lia] | done | done | done]. }
  destruct (negb (StubIoctl.nvkvm_ctrl_list_entry_size inner =? 0) && (16 <=? psize) && (psize <? sg_size sg)) eqn:H2.
  { nv_bool. apply (use_keep false l); [apply keep_back_list; [done | done | lia] | done | done | done]. }
  destruct ((inner =? NV0000_CTRL_CMD_SYSTEM_GET_BUILD_VERSION) && (sizeof BV <=? psize) && (psize <? sg_size sg)) eqn:H3.
  { change (sizeof BV) with 40 in H3. nv_bool. eapply wp_mono; [eapply (wp_back_strings l s a (sg_size sg)); [done | | done | lia] | done | done | done].
    intros s' Es. apply HF. exists p, b. by rewrite Es. }
  apply (use_keep false l); done.
Qed.

Lemma keep_copy_back l cmd buf ps uparams sv sg r :
  (ioc_nr cmd = 0x2a -> forall s, is_build_version s -> F s) -> nvkvm_ioctl_param_size prof cmd = Some ps -> 0 <= ps ->
  l = all_bufs buf ps sg -> saved_fits sv ps -> staged_ok sg -> keep false l (give_back E cmd buf ps uparams sv sg r).
Proof.
  intros HF Hp Hps Hl Hsv Hs. pose proof (held_buf l buf ps sg Hl Hps) as Hb. pose proof (held_aux l buf ps sg Hl (so_size _ Hs)) as Ha.
  unfold give_back. apply keep_then.
  { destruct buf as [p|]; [|keeps]. destruct (answered r); [|keeps]. apply (keep_restore_fields _ _ _ ps); [apply Hb | done]. }
  intros _. apply keep_then.
  { destruct buf as [p|]; [|keeps]. destruct (_ && _); [|keeps]. apply (keep_finish_copy _ _ _ _ ps); [apply Hb | lia]. }
  intros r'. destruct (sg_aux sg) as [a|] eqn:Ea; [|keeps]. destruct (_ && _); [|keeps].
  apply (keep_back_aux l cmd buf ps); [done | done | done | apply Ha | done].
Qed.


(** Pids are saved for a control only, and a control is not refused. *)
Lemma stage_no_pids cmd buf ps s :
  ioc_nr cmd <> 0x2a -> wp (stage E prof ctx cmd buf ps) (fun sg _ => sg_gpi sg = (None, 0)) (fun _ _ => True) (fun _ => True) s.
Proof.
  intros Hn. unfold stage. rewrite (proj2 (Z.eqb_neq _ _) Hn). unfold stage_modeset, stage_alloc21, stage_alloc64, fetch. cbn [free_return].
  repeat first
    [ match goal with |- wp (if ?b then _ else _) _ _ _ _ => destruct b end
    | match goal with |- wp (match ?x with _ => _ end) _ _ _ _ => destruct x end
    | match goal with |- wp (mthen _ _) _ _ _ _ => apply wp_skip; intros ? ? end
    | match goal with |- wp (mdone _) _ _ _ _ => by apply wp_done end
    | match goal with |- wp (mret _) _ _ _ _ => by apply wp_ret end ].
Qed.

Lemma control_not_refused l cmd p ps s :
  ioc_nr cmd = 0x2a -> nvkvm_ioctl_param_size prof cmd = Some ps -> (p, ps) ∈ l -> live h0 l s ->
  wp (nvkvm_sanitize_ioctl_params E prof cmd (Some p) ps) (fun e _ => e = 0) (fun _ _ => True) (fun _ => True) s.
Proof.
  intros Hn Hps Hp Hl. unfold nvkvm_sanitize_ioctl_params. destruct (ps =? 0); [by apply wp_done |]. apply wp_call.
  unfold sanitize_params. repeat match goal with |- wp (if cmd =? ?k then _ else _) _ _ _ _ =>
    destruct (Z.eqb_spec cmd k) as [->|_]; [by vm_compute in Hn |] end.
  destruct (negb _); [by apply wp_done |]. unfold sanitize_frontend. rewrite Hn. cbn [Z.eqb Pos.eqb].
  apply (wp_st64 h0 l s p ps _ _ _ Hl Hp); [bound | | done].
  pose proof (control_size prof cmd ps Hn Hps). bound.
Qed.

Lemma spec_and {A} l lr (m : GM A) (Q : A -> list (nat * Z) -> Prop) (P : A -> Prop) :
  spec l m Q lr -> (forall s, live h0 l s -> wp m (fun a _ => P a) (fun _ _ => True) (fun _ => True) s) ->
  spec l m (fun a l' => Q a l' /\ P a) lr.
Proof.
  intros Hm HP s Hl. eapply wp_mono; [apply wp_and; [by apply Hm | by apply HP] | | by intros ? ? [] | by intros ? []].
  intros a s' [(l' & HQ & Hs) Ha]. eauto.
Qed.

Lemma spec_finish {A} l r (Q : A -> list (nat * Z) -> Prop) buf ps sg :
  l = all_bufs buf ps sg ->
  spec l (kfree (fst (sg_gpi sg)) ;;; kfree (sg_aux sg) ;;; kfree buf ;;; mret r) Q [].
Proof.
  intros ->. unfold all_bufs, pid_bufs, aux_bufs, bufs_of.
  assert (forall l, spec l (mret r : GM A) Q l) as Hret by (intros l s Hl; by apply wp_ret).
  destruct (sg_gpi sg) as [[g|] k], (sg_aux sg) as [a|], buf as [p|]; cbn [fst app];
    repeat first [eapply spec_free; [reflexivity |] | apply spec_keep; [apply keep_done | intros _] | apply Hret].
Qed.

Lemma spec_body cmd uparams :
  (ioc_nr cmd = 0x2a -> forall s, is_build_version s -> F s) -> spec [] (ioctl_body E prof ctx cmd uparams) (fun _ _ => False) [].
Proof.
  intros HF. unfold ioctl_body. destruct (nvkvm_ioctl_param_size prof cmd) as [ps|] eqn:Hsz; [|intros s Hl; by apply wp_ret].
  pose proof (param_size_pos prof cmd ps Hprof Hsz) as Hps. spec1; [intros s Hl; by apply wp_ret |].
  eapply spec_then; [apply spec_copy_in |]. intros buf ? ->.
  eapply spec_then; [by apply spec_synthesize |]. intros _ ? ->.
  apply spec_keep; [destruct buf as [p|]; [destruct (_ && _); [by apply keep_record_uvm; left | keeps] | keeps] | intros _].
  eapply spec_then; [apply spec_save_fields |]. intros sv ? [-> Hsv].
  eapply spec_then; [apply (spec_and _ _ _ (staged_as buf ps) (fun sg => ioc_nr cmd <> 0x2a -> sg_gpi sg = (None, 0))); [by apply spec_stage |]; intros s Hl |].
  { destruct (decide (ioc_nr cmd = 0x2a)) as [Hn|Hn].
    - unfold wp. destruct (stage _ _ _ _ _ _ s) as [[]]; done.
    - eapply wp_mono; [by apply stage_no_pids | done | done | done]. }
  intros sg ? [[-> Hs] Hg]. assert (within (all_bufs buf ps sg) buf ps) as Hb by (by apply (held_buf _ _ _ sg)).
  eapply spec_then; [apply (spec_and _ _ _ (fun _ l' => l' = all_bufs buf ps sg) (fun e => ioc_nr cmd = 0x2a -> e = 0)) |].
  { intros s Hl. apply (use_keep false (all_bufs buf ps sg)); [|done|eauto|done].
    unfold nvkvm_sanitize_ioctl_params. destruct buf as [p|]; [|keeps]. destruct (ps =? 0); [keeps |]. apply keep_call.
    apply keep_sanitize; [done | apply Hb]. }
  { intros s Hl. destruct (decide (ioc_nr cmd = 0x2a)) as [Hn|Hn].
    - destruct buf as [p|]; [|by apply wp_done]. eapply wp_mono; [by eapply (control_not_refused _ cmd p ps s Hn Hsz (proj2 Hb)) | done | done | done].
    - unfold wp. destruct (nvkvm_sanitize_ioctl_params _ _ _ _ _ s) as [[]]; done. }
  intros e ? [-> He]. spec1.
  - pose proof (spec_finish (A := unit) (all_bufs buf ps sg) e (fun _ _ => False) buf ps sg eq_refl) as Hf.
    destruct (decide (ioc_nr cmd = 0x2a)) as [Hn|Hn]; [by apply He in Hn |]. by rewrite (Hg Hn) in Hf.
  - apply spec_keep; [by apply keep_forward | intros r]. apply spec_keep; [by apply keep_copy_back | intros r']. by apply (spec_finish _ _ _ buf ps sg).
Qed.
End safety.

(** C14. [ioctl_memory_safe]: whatever the caller's memory holds and however it
    changes during the call, whatever the host answers and whichever allocations
    fail, an ioctl of the guest module accesses no byte outside its buffers, and on
    every return, error paths included, exactly the buffers that were there before
    are allocated: none leaks, none is freed twice.  The only exception is the
    control GET_BUILD_VERSION. *)
Theorem ioctl_memory_safe (E : ienv) (prof : Abi.abi_profile) (ctx : gctx) (cmd uparams : Z) (h0 : gmap nat Z) (s : kst gstate act) :
  prof ∈ Abi.nvkvm_abi_profiles -> live h0 [] s ->
  match nvkvm_ioctl E prof ctx cmd uparams s with
  | (Done _, s') => b_len <$> k_heap s' = h0
  | (Ret _, _) => False
  | (Fault, s') => ioc_nr cmd = 0x2a /\ is_build_version s'
  end.
Proof.
  intros Hp Hl.
  assert (wp (nvkvm_ioctl E prof ctx cmd uparams) (fun _ s' => live h0 [] s') (fun _ _ => False)
            (fun s' => ioc_nr cmd = 0x2a /\ is_build_version s') s) as H.
  { unfold nvkvm_ioctl. apply wp_call. eapply wp_mono; [apply (spec_body E prof ctx h0 (fun s' => ioc_nr cmd = 0x2a /\ is_build_version s')); [done | by auto | done] | | done | done].
    by intros a s' (? & [] & _). }
  unfold wp in H. destruct (nvkvm_ioctl _ _ _ _ _ s) as [[a|r|] s']; [|done|done]. pose proof (l_shape _ _ _ H) as Hs. cbn in Hs.
  by rewrite Hs, (left_id_L ∅ _).
Qed.

(** A caller whose memory changes under the call, and a host that answers at once. *)
Definition ex_word (a : Z) (l : list (Z * Z)) : Z :=
  fold_left (fun v e => if (fst e <=? a) && (a <? fst e + 4) then Z.shiftr (snd e) (8 * (a - fst e)) mod 256 else v) l 0.

(** GET_BUILD_VERSION: parameters at 0x1000, the inner ones at 0x2000; the length of
    the strings is 1 at first and 512 from the sixth step on. *)
Definition ex_strings (later : Z) (t : nat) (a : Z) : Z :=
  ex_word a [(0x1008, 0x101); (0x1010, 0x2000); (0x1018, 40); (0x2000, if (t <=? 5)%nat then 1 else later); (0x2008, 0x3000); (0x2010, 0x4000); (0x2018, 0x5000)].

Definition ex_env (mem : nat -> Z -> Z) : ienv :=
  IEnv (UEnv (fun _ => true) mem (fun _ _ _ => true) (fun _ _ _ => true)) (fun _ _ => None) (fun _ => []) (fun _ _ _ => 0) (fun _ _ _ => None)
    (fun _ _ p a => Fwd 0 0 p a) (fun _ _ => 0).

Definition ex_prof : Abi.abi_profile := Abi.nvkvm_abi_by_id Abi.NVKVM_ABI_570.
Definition ex_gctx : gctx := GCtx 7 0 false 3.
Definition ex_gstate : gstate := GState ∅ 0 (UvmFd false 0 [] [] [] []).
Definition ex_kst : kst gstate act := KSt ∅ 0 0 [] ex_gstate.
Definition RM_CONTROL_CMD : Z := 0xc020462a.

Lemma ex_live : live ∅ [] ex_kst.
Proof. split; [by apply map_eq | constructor | by intros ? ?%elem_of_nil | by intros p [? ?]]. Qed.

Lemma ioctl_memory_safe_witness :
  live ∅ [] ex_kst /\
  match nvkvm_ioctl (ex_env (ex_strings 1)) ex_prof ex_gctx RM_CONTROL_CMD 0x1000 ex_kst with
  | (Done _, s') => b_len <$> k_heap s' = ∅
  | (Ret _, _) => False
  | (Fault, s') => ioc_nr RM_CONTROL_CMD = 0x2a /\ is_build_version s'
  end.
Proof.
  split; [apply ex_live |]. apply (ioctl_memory_safe (ex_env (ex_strings 1)) ex_prof ex_gctx RM_CONTROL_CMD 0x1000 ∅ ex_kst); [|apply ex_live].
  vm_compute. repeat (apply elem_of_cons; first [left; reflexivity | right]).
Defined.

(** [version_strings_overread]: the exception is real.  The copy back of
    GET_BUILD_VERSION takes the length of the strings from the caller's memory a
    second time and does not compare it with the buffer: a thread that raises it
    meanwhile makes the kernel copy what lies behind the buffer to the caller.  With
    the memory left alone the same call returns 0. *)
Example version_strings_overread :
  fst (nvkvm_ioctl (ex_env (ex_strings 512)) ex_prof ex_gctx RM_CONTROL_CMD 0x1000 ex_kst) = Fault /\
  fst (nvkvm_ioctl (ex_env (ex_strings 1)) ex_prof ex_gctx RM_CONTROL_CMD 0x1000 ex_kst) = Done 0.
Proof. split; vm_compute; reflexivity. Qed.

End IoctlSafety.
