(* ===== verification/IoctlFields.v ===== *)
(** * Pointers and descriptors in the guest's ioctls

    What [nvkvm_ioctl] of [GuestIoctl] hands to the host: no address of the caller
    in a pointer field, and only descriptors of the module's own files, as handle
    ids.  What it gives back: the caller's own values in those fields.  And the
    cache of validated ranges. *)

From S2P Require Import Prelude Bytes Abi Allowlists UvmVa HandleTable Sessions IoctlGate StubIoctl StubWire Layout Kmem GuestIoctl IoctlSafety.
From stdpp Require Import strings.
Local Open Scope string_scope.
Local Open Scope list_scope.
Local Open Scope Z_scope.
Local Open Scope nv_scope.

Module IoctlFields.
Import Kmem Layout Allow GuestIoctl.

(** ** What is forwarded *)

(** The pointers of a front-end structure, apart from the memory's own address. *)
Definition pointer_fields (cmd ps : Z) : list Z :=
  if ioc_type cmd =? type_F then
    let nr := ioc_nr cmd in
    if nr =? 0x2b then
      (if ps =? sizeof nvos64_parameters then [offsetof nvos64_parameters "p_alloc_parms"; offsetof nvos64_parameters "p_rights_requested"]
       else [offsetof nvos21_parameters "p_alloc_parms"])
    else if nr =? 0x2a then [offsetof nvos54_parameters "params"]
    else if nr =? 0x4e then [offsetof nv_ioctl_nvos33_parameters_with_fd "p_linear_address"]
    else if nr =? 0x4f then [offsetof nv_ioctl_nvos34_parameters "p_linear_address"]
    else if nr =? 0x5e then [offsetof nvos56_parameters "p_old_cpu_address"; offsetof nvos56_parameters "p_new_cpu_address"]
    else if nr =? 0x41 then [offsetof nv_ioctl_idle_channels "p_clients"; offsetof nv_ioctl_idle_channels "p_devices"; offsetof nv_ioctl_idle_channels "p_channels"]
    else []
  else [].

(** The descriptor of a structure. *)
Definition fd_field (prof : Abi.abi_profile) (cmd : Z) : option Z :=
  if cmd =? 75 then Some (offsetof uvm_mm_initialize_params "uvm_fd")
  else if cmd =? 25 then Some (offsetof uvm_register_gpu_vaspace_params "rm_ctrl_fd")
  else if cmd =? 27 then Some (offsetof uvm_register_channel_params "rm_ctrl_fd")
  else if cmd =? 33 then Some (Abi.uvm_map_ext_fd_off prof)
  else if ioc_type cmd =? type_F then
    let nr := ioc_nr cmd in
    if nr =? 0x27 then Some (offsetof nv_ioctl_nvos02_parameters_with_fd "fd")
    else if nr =? 0x4e then Some (offsetof nv_ioctl_nvos33_parameters_with_fd "fd")
    else if nr =? 0xc9 then Some (offsetof nv_ioctl_register_fd "ctl_fd")
    else if nr =? 0xce then Some (offsetof nv_ioctl_alloc_os_event "fd")
    else if nr =? 0xcf then Some (offsetof nv_ioctl_free_os_event "fd")
    else None
  else None.

Section forwarded.
Context (E : ienv) (prof : Abi.abi_profile) (ctx : gctx) (cmd : Z).

(** A handle id of a file the module made and the caller had open. *)
Definition own_handle (v : Z) : Prop :=
  exists t fd f h, i_fget E t fd = Some f /\ gf_ours f = true /\ gf_ctx f = Some h /\ h <> 0 /\ v = u32 h.

(** No descriptor (zero or negative), or such a handle id. *)
Definition fd_forwarded (v : Z) : Prop := s32 v <= 0 \/ own_handle v.

(** The address of memory to be described to the driver: none, or for a descriptor of
    system memory one from which [limit + 1] bytes were migrated.  The greatest limit
    makes that length wrap to zero, and nothing is migrated then. *)
Definition memory_forwarded (d : bytes) : Prop :=
  let T := nv_ioctl_nvos02_parameters_with_fd in
  let addr := get64 d (offsetof T "p_memory") in
  let limit := get64 d (offsetof T "limit") in
  addr = 0 \/
  get32 d (offsetof T "h_class") = 0x71 /\ 0 < limit /\ (limit = 2 ^ 64 - 1 \/ exists t, i_migrate E t addr (limit + 1) = 0).

Record clean (ps : Z) (d : bytes) : Prop := {
  cl_pointers : Forall (fun o => get64 d o = 0) (pointer_fields cmd ps);
  cl_fd : forall o, fd_field prof cmd = Some o -> fd_forwarded (get32 d o);
  cl_memory : ioc_type cmd = type_F -> ioc_nr cmd = 0x27 -> memory_forwarded d
}.

(** The first time the parameters leave; later times they are the host's answer. *)
Definition ok_event (ev : event act) : Prop :=
  match ev with
  | EvDo (A_forward flags pl _) => flags = 0 -> clean (Z.of_nat (length pl)) (bytes_of pl)
  | EvDo (A_ring pl _) => clean (Z.of_nat (length pl)) (bytes_of pl)
  | _ => True
  end.

Definition log_ok (s : kst gstate act) : Prop := Forall ok_event (k_log s).

(** Code during which nothing else leaves. *)
Definition quiet {A} (m : GM A) : Prop := forall s, log_ok s -> wp m (fun _ => log_ok) (fun _ => log_ok) log_ok s.

Lemma quiet_done {A} (a : A) : quiet (mdone a).
Proof. by intros s Hs. Qed.

Lemma quiet_ret {A} r : quiet (mret r : GM A).
Proof. by intros s Hs. Qed.

Lemma quiet_then {A B} (m : GM A) (k : A -> GM B) : quiet m -> (forall a, quiet (k a)) -> quiet (mthen m k).
Proof.
  intros Hm Hk s Hs. apply wp_then. eapply wp_mono; [by apply Hm | | done | done]. intros a s' Hs'. by apply Hk.
Qed.

Lemma quiet_tick : quiet (tick : GM nat).
Proof. by intros s Hs. Qed.

Lemma quiet_getx : quiet (getx : GM gstate).
Proof. by intros s Hs. Qed.

Lemma quiet_putx x : quiet (putx x : GM unit).
Proof. by intros s Hs. Qed.

Lemma quiet_emit ev : ok_event ev -> quiet (emit ev : GM unit).
Proof. intros He s Hs. apply wp_emit. apply Forall_app. by repeat constructor. Qed.

Lemma quiet_at_buf p o n : quiet (at_buf p o n : GM buf).
Proof. intros s Hs. unfold wp, at_buf. destruct (k_heap s !! p) as [b|]; [|done]. by destruct (_ && _). Qed.

Lemma quiet_set_data p b d : quiet (set_data p b d : GM unit).
Proof. by intros s Hs. Qed.

Lemma quiet_kfree p : quiet (kfree p : GM unit).
Proof. intros s Hs. unfold wp, kfree. destruct p as [p|]; [|done]. by destruct (k_heap s !! p). Qed.

Lemma quiet_kzalloc U n : quiet (kzalloc U n : GM (option nat)).
Proof. intros s Hs. unfold kzalloc. apply wp_then, wp_tick. unfold wp. by destruct (e_alloc U _). Qed.

Lemma quiet_call m : quiet m -> quiet (mcall m : GM Z).
Proof. intros Hm s Hs. apply wp_call. eapply wp_mono; [by apply Hm | done | done | done]. Qed.

Lemma quiet_loop {A} (body : Z -> A -> GM (bool * A)) n i a : (forall j b, quiet (body j b)) -> quiet (mloop body n i a).
Proof.
  intros Hb s Hs. apply (wp_loop (fun _ _ => log_ok)); [done | | done].
  intros j b s' _ Hs'. eapply wp_mono; [by apply Hb | | done | done]. intros [[] c] s'' Hs''; done.
Qed.

Ltac quiet1 :=
  lazymatch goal with
  | |- quiet (mdone _) => apply quiet_done
  | |- quiet (mret _) => apply quiet_ret
  | |- quiet tick => apply quiet_tick
  | |- quiet getx => apply quiet_getx
  | |- quiet (putx _) => apply quiet_putx
  | |- quiet (emit (EvWrite _ _)) => by apply quiet_emit
  | |- quiet (mthen _ _) => apply quiet_then; [|intros ?]
  | |- quiet (at_buf _ _ _) => apply quiet_at_buf
  | |- quiet (set_data _ _ _) => apply quiet_set_data
  | |- quiet (kfree _) => apply quiet_kfree
  | |- quiet (kzalloc _ _) => apply quiet_kzalloc
  | |- quiet (mcall _) => apply quiet_call
  | |- quiet (mloop _ _ _ _) => apply quiet_loop; intros ? ?
  | |- quiet (if ?b then _ else _) => destruct b
  | |- quiet (match ?x with _ => _ end) => destruct x
  | |- quiet (ld8 _ _) => unfold ld8
  | |- quiet (ld32 _ _) => unfold ld32
  | |- quiet (ld64 _ _) => unfold ld64
  | |- quiet (st32 _ _ _) => unfold st32
  | |- quiet (st64 _ _ _) => unfold st64
  | |- quiet (rdbuf _ _ _) => unfold rdbuf
  | |- quiet (wrbuf _ _ _) => unfold wrbuf
  | |- quiet (read_user _ _ _) => unfold read_user
  | |- quiet (write_user _ _ _) => unfold write_user
  | |- quiet (copy_from_user _ _ _ _ _) => unfold copy_from_user
  | |- quiet (copy_to_user _ _ _ _ _) => unfold copy_to_user
  | |- quiet (guest_fd_to_handle_id _ _) => unfold guest_fd_to_handle_id
  | |- quiet (try_swap_fd _ _ _ _) => unfold try_swap_fd
  | |- quiet _ => progress cbv zeta
  end.
Ltac quiets := repeat quiet1.

Lemma quiet_give_up {A} ps e : quiet (free_return ps e : GM A).
Proof. induction ps as [|p ps IH]; cbn [free_return]; quiets. done. Qed.

Lemma quiet_fetch p addr n : quiet (fetch E p addr n).
Proof. unfold fetch. quiets; apply quiet_give_up. Qed.

Lemma quiet_extend p a psize ext : quiet (extend E p a psize ext).
Proof. unfold extend. quiets; apply quiet_give_up. Qed.

Lemma quiet_stage buf ps : quiet (stage E prof ctx cmd buf ps).
Proof.
  unfold stage, stage_modeset, stage_planes, stage_control, stage_alloc21, stage_alloc64, stage_event, stage_channels, stage_list, stage_strings,
    stage_object_fd, nvkvm_get_pid_info_tag.
  quiets; first [apply quiet_fetch | apply quiet_give_up | apply quiet_extend].
Qed.

Lemma quiet_before ps uparams :
  quiet (params_in E ps uparams) /\ (forall buf, quiet (synthesize E cmd buf ps uparams)) /\
  (forall p, quiet (record_uvm E cmd p ps)) /\ (forall buf, quiet (save_fields ctx cmd buf ps)).
Proof.
  split; [|split; [|split]].
  - unfold params_in. quiets; apply quiet_give_up.
  - intros buf. unfold synthesize, nvkvm_synth_get_pids. quiets.
  - intros p. unfold record_uvm, node_alloc, uvm_update. quiets.
  - intros buf. unfold save_fields, save_orig. quiets.
Qed.

Lemma quiet_after buf ps uparams sv sg r :
  quiet (restore_inner sg) /\ quiet (give_back E cmd buf ps uparams sv sg r).
Proof.
  split.
  - unfold restore_inner, nvkvm_get_pid_info_restore. quiets.
  - unfold give_back, restore_fields, restore_orig, back_aux, back_channels, back_list, back_strings, string_pointers, back_string, finish_copy.
    quiets; (induction (sg_planes sg) as [|[off fd] l IH]; cbn [restore_planes]; quiets; done).
Qed.

(** *** The sanitizer *)

Definition buf_is (s : kst gstate act) (p : nat) (d : bytes) : Prop := exists b, k_heap s !! p = Some b /\ b_data b = d.

Lemma at_ld32 p o (Q : Z -> kst gstate act -> Prop) R (F : kst gstate act -> Prop) s :
  F s -> (forall d, buf_is s p d -> Q (get32 d o) s) -> wp (ld32 p o) Q R F s.
Proof.
  intros HF HQ. apply wp_then. unfold wp at 1, at_buf. destruct (k_heap s !! p) as [b|] eqn:Eb; [|done].
  destruct (_ && _); [|done]. apply wp_done, HQ. by exists b.
Qed.

Lemma at_ld64 p o (Q : Z -> kst gstate act -> Prop) R (F : kst gstate act -> Prop) s :
  F s -> (forall d, buf_is s p d -> Q (get64 d o) s) -> wp (ld64 p o) Q R F s.
Proof.
  intros HF HQ. apply wp_then. unfold wp at 1, at_buf. destruct (k_heap s !! p) as [b|] eqn:Eb; [|done].
  destruct (_ && _); [|done]. apply wp_done, HQ. by exists b.
Qed.

Lemma at_st32 p o v (Q : unit -> kst gstate act -> Prop) R (F : kst gstate act -> Prop) s :
  F s -> (forall d s', buf_is s p d -> buf_is s' p (put32 d o v) -> k_log s' = k_log s -> Q tt s') -> wp (st32 p o v) Q R F s.
Proof.
  intros HF HQ. apply wp_then. unfold wp at 1, at_buf. destruct (k_heap s !! p) as [b|] eqn:Eb; [|done].
  destruct (_ && _); [|done]. apply (HQ (b_data b)); [by exists b | | done].
  eexists. cbn. rewrite lookup_insert_eq. by split.
Qed.

Lemma at_st64 p o v (Q : unit -> kst gstate act -> Prop) R (F : kst gstate act -> Prop) s :
  F s -> (forall d s', buf_is s p d -> buf_is s' p (put64 d o v) -> k_log s' = k_log s -> Q tt s') -> wp (st64 p o v) Q R F s.
Proof.
  intros HF HQ. apply wp_then. unfold wp at 1, at_buf. destruct (k_heap s !! p) as [b|] eqn:Eb; [|done].
  destruct (_ && _); [|done]. apply (HQ (b_data b)); [by exists b | | done].
  eexists. cbn. rewrite lookup_insert_eq. by split.
Qed.

Lemma buf_is_inj s p d d' : buf_is s p d -> buf_is s p d' -> d = d'.
Proof. intros (b & H1 & H2) (b' & H1' & H2'). congruence. Qed.

Lemma log_ok_same s s' : log_ok s -> k_log s' = k_log s -> log_ok s'.
Proof. unfold log_ok. by intros H ->. Qed.

(** [d'] differs from [d] in the four bytes at [off] only. *)
Definition only32 (off : Z) (d d' : bytes) : Prop := forall a b, b <= off \/ off + 4 <= a -> agree d' d a b.

Lemma only32_refl off d : only32 off d d.
Proof. intros a b _. apply agree_refl. Qed.

Lemma only32_put off d v : only32 off d (put32 d off v).
Proof. intros a b H. by apply agree_put32. Qed.

Definition swapped (s : kst gstate act) (p : nat) (off : Z) (s' : kst gstate act) : Prop :=
  log_ok s' /\ exists d d', buf_is s p d /\ buf_is s' p d' /\ fd_forwarded (get32 d' off) /\ only32 off d d'.

Lemma swap_fd_spec p off pred s :
  (forall v, pred v = false -> v <= 0) -> log_ok s ->
  wp (swap_fd E p off pred) (fun _ => swapped s p off) (fun r s' => log_ok s' /\ r <> 0) log_ok s.
Proof.
  intros Hpred Hs. unfold swap_fd. apply wp_then, at_ld32; [done |]. intros d Hd. destruct (pred _) eqn:Hp.
  - apply wp_then. unfold guest_fd_to_handle_id. apply wp_then, wp_tick, wp_done. destruct (_ <? 0) eqn:Hlt; [by apply wp_ret |].
    nv_bool. apply at_st32; [done |]. intros d1 s' Hd1 Hd' Hlog. cbn in Hlog. split; [by apply (log_ok_same s) |].
    exists d1, (put32 d1 off (u32 (match i_fget E (k_time s) (u32 (s32 (get32 d off))) with
      | None => - EBADF | Some f => if negb (gf_ours f) then - EBADF else match gf_ctx f with None => - EBADF | Some h => if h =? 0 then - EBADF else s32 h end end))).
    split; [done |]. split; [done |]. split; [|apply only32_put]. right.
    destruct (i_fget E (k_time s) _) as [f|] eqn:Ef; [|by vm_compute in Hlt]. destruct (gf_ours f) eqn:Eo; [|by vm_compute in Hlt]. cbn [negb] in *.
    destruct (gf_ctx f) as [h|] eqn:Eh; [|by vm_compute in Hlt]. destruct (Z.eqb_spec h 0); [by vm_compute in Hlt |].
    exists (k_time s), (u32 (s32 (get32 d off))), f, h. repeat split; try done.
    rewrite get32_put32. unfold u32 at 1 2. rewrite Z.mod_mod by lia. apply u32_s32.
  - apply wp_done. split; [done |]. exists d, d. split; [done |]. split; [done |]. split; [left; by apply Hpred | apply only32_refl].
Qed.

Lemma given_no v : given v = false -> v <= 0.
Proof. unfold given. intros. nv_bool. lia. Qed.

Lemma positive_no v : positive v = false -> v <= 0.
Proof. unfold positive. intros. nv_bool. lia. Qed.

Lemma swap_event_spec p off s :
  log_ok s -> wp (swap_event_fd E p off) (fun _ => swapped s p off) (fun r s' => log_ok s' /\ r <> 0) log_ok s.
Proof.
  intros Hs. unfold swap_event_fd. apply wp_then, at_ld32; [done |]. intros d Hd. destruct (negb _) eqn:Hp.
  - apply wp_then, wp_tick. destruct (i_fget E (k_time s) (get32 d off)) as [f|] eqn:Ef; [|by apply wp_ret].
    destruct (gf_ours f) eqn:Eo; cbn [negb]; [|by apply wp_ret]. apply at_st32; [done |]. intros d1 s' Hd1 Hd' Hlog. cbn in Hlog.
    split; [by apply (log_ok_same s) |]. eexists d1, _. split; [done |]. split; [done |]. split; [|apply only32_put]. rewrite get32_put32.
    destruct (gf_ctx f) as [h|] eqn:Eh; [|left; by vm_compute]. destruct (Z.eqb_spec h 0); [left; by vm_compute |].
    right. by exists (k_time s), (get32 d off), f, h.
  - nv_bool. apply wp_done. split; [done |]. exists d, d. split; [done |]. split; [done |]. split; [left; rewrite Hp; by vm_compute | apply only32_refl].
Qed.

Definition sanitized (p : nat) (ps : Z) (s' : kst gstate act) : Prop := log_ok s' /\ forall d, buf_is s' p d -> clean ps d.

(** A command with no pointer, and one descriptor. *)
Lemma sanitized_fd s p ps off s' :
  fd_field prof cmd = Some off -> pointer_fields cmd ps = [] -> (ioc_type cmd = type_F -> ioc_nr cmd <> 0x27) ->
  swapped s p off s' -> sanitized p ps s'.
Proof.
  intros Hf Hp Hn (Hl & d & d' & _ & Hd' & Hfd & _). split; [done |]. intros d2 Hd2. rewrite <- (buf_is_inj _ _ _ _ Hd' Hd2).
  split; [by rewrite Hp | intros o Ho; by simplify_eq | intros Ht Hnr; by apply Hn in Hnr].
Qed.

(** One with pointers only. *)
Lemma sanitized_pointers p ps s' d :
  fd_field prof cmd = None -> (ioc_type cmd = type_F -> ioc_nr cmd <> 0x27) -> log_ok s' -> buf_is s' p d ->
  Forall (fun o => get64 d o = 0) (pointer_fields cmd ps) -> sanitized p ps s'.
Proof.
  intros Hf Hn Hl Hd Hp. split; [done |]. intros d2 Hd2. rewrite <- (buf_is_inj _ _ _ _ Hd Hd2). split; [done | intros o Ho; congruence | intros Ht Hnr; by apply Hn in Hnr].
Qed.

Lemma sanitize_memory_spec p ps s :
  ioc_type cmd = type_F -> ioc_nr cmd = 0x27 -> fd_field prof cmd = Some 48 -> pointer_fields cmd ps = [] -> log_ok s ->
  wp (sanitize_alloc_memory E p) (fun _ => sanitized p ps) (fun r s' => log_ok s' /\ r <> 0) log_ok s.
Proof.
  intros Ht Hn Hf Hp Hs. unfold sanitize_alloc_memory. cbv zeta. layout_eval. apply wp_then.
  eapply wp_mono; [apply swap_fd_spec; [apply positive_no | done] | | done | done]. intros _ s1 (Hs1 & d & d1 & _ & Hd1 & Hfd & _).
  apply wp_then, at_ld32; [done |]. intros d2 Hd2. rewrite <- (buf_is_inj _ _ _ _ Hd1 Hd2). clear d2 Hd2.
  apply wp_then, at_ld64; [done |]. intros d2 Hd2. rewrite <- (buf_is_inj _ _ _ _ Hd1 Hd2). clear d2 Hd2.
  apply wp_then, at_ld64; [done |]. intros d2 Hd2. rewrite <- (buf_is_inj _ _ _ _ Hd1 Hd2). clear d2 Hd2.
  assert (forall d', fd_forwarded (get32 d' 48) -> memory_forwarded d' -> clean ps d') as Hclean.
  { intros d' H1 H2. split; [by rewrite Hp | intros o Ho; rewrite Hf in Ho; by simplify_eq | done]. }
  destruct (_ && _) eqn:Eh.
  - nv_bool. pose proof (get64_range d1 32) as Hlim.
    apply wp_then, wp_tick. destruct (Z.eqb_spec (i_migrate E (k_time s1) (get64 d1 24) (u64 (get64 d1 32 + 1))) 0) as [Hm|Hm]; [|by apply wp_ret].
    apply wp_done. split; [done |]. intros d2 Hd2. rewrite <- (buf_is_inj _ _ _ _ Hd1 Hd2). apply Hclean; [done |]. right. layout_eval. split_and!; [done | lia |].
    destruct (Z.eq_dec (get64 d1 32) (2 ^ 64 - 1)); [by left | right]. exists (k_time s1). by rewrite u64_small in Hm by lia.
  - apply at_st64; [done |]. intros d2 s2 Hd2 Hd' Hlog. rewrite <- (buf_is_inj _ _ _ _ Hd1 Hd2) in Hd'. clear d2 Hd2.
    split; [by apply (log_ok_same s1) |]. intros d2 Hd2. rewrite <- (buf_is_inj _ _ _ _ Hd' Hd2). apply Hclean; [by rewrite get32_put64_ne by lia |].
    left. layout_eval. by rewrite get64_put64.
Qed.

(** The offsets are inside the parameters. *)
Record fields_inside (ps : Z) : Prop := {
  fi_pointers : Forall (fun o => 0 <= o /\ o + 8 <= ps) (pointer_fields cmd ps);
  fi_fd : forall o, fd_field prof cmd = Some o -> 0 <= o /\ o + 4 <= ps;
  fi_memory : ioc_type cmd = type_F -> ioc_nr cmd = 0x27 -> ps = 56
}.

(** Cases on the command, with its size, for the front end. *)
Ltac nr_cases Hs :=
  repeat match goal with |- context [if ioc_nr cmd =? ?k then _ else _] =>
    let Hn := fresh "Hn" in destruct (Z.eqb_spec (ioc_nr cmd) k) as [Hn|Hn]; [fe_size_of Hs Hn |] end.

Lemma not_uvm : ioc_type cmd = type_F -> (cmd =? 75) = false /\ (cmd =? 25) = false /\ (cmd =? 27) = false /\ (cmd =? 33) = false.
Proof. intros Ht. repeat split; apply Z.eqb_neq; intros ->; by vm_compute in Ht. Qed.

Lemma inside ps : prof ∈ Abi.nvkvm_abi_profiles -> nvkvm_ioctl_param_size prof cmd = Some ps -> fields_inside ps.
Proof.
  intros Hprof Hs. pose proof (profiles_ok prof Hprof) as Hok. unfold profile_ok in Hok. nv_bool.
  destruct (Z.eqb_spec (ioc_type cmd) type_F) as [Ht|Ht].
  - rewrite (fe_size prof cmd Ht) in Hs. destruct (not_uvm Ht) as (U1 & U2 & U3 & U4).
    split; [unfold pointer_fields | intros o; unfold fd_field; rewrite U1, U2, U3, U4 | intros _ Hn; by fe_size_of Hs Hn; injection Hs as <-];
      rewrite Ht; cbn [Z.eqb Pos.eqb type_F]; cbv zeta; layout_eval.
    all: nr_cases Hs; try injection Hs as <-; try (intros Ho; simplify_eq; lia); try (by constructor).
    all: try (repeat (constructor; [lia |]); constructor).
    destruct (Z.eqb_spec (ioc_size cmd) 32) as [Hz|]; [|destruct (Z.eqb_spec (ioc_size cmd) 48) as [Hz|]; [|done]]; injection Hs as <-; rewrite Hz.
    all: cbn [Z.eqb Pos.eqb]; repeat (constructor; [lia |]); constructor.
  - split; [| |done].
    + unfold pointer_fields. rewrite (proj2 (Z.eqb_neq _ _) Ht). constructor.
    + intros o. unfold fd_field. rewrite (proj2 (Z.eqb_neq _ _) Ht).
      destruct (Z.eqb_spec cmd 75) as [->|]; [intros [= <-]; vm_compute in Hs; injection Hs as <-; layout_eval; lia |].
      destruct (Z.eqb_spec cmd 25) as [->|]; [intros [= <-]; vm_compute in Hs; injection Hs as <-; layout_eval; lia |].
      destruct (Z.eqb_spec cmd 27) as [->|]; [intros [= <-]; vm_compute in Hs; injection Hs as <-; layout_eval; lia |].
      destruct (Z.eqb_spec cmd 33) as [->|]; [|done].
      change (Some (Abi.uvm_map_ext_size prof) = Some ps) in Hs. injection Hs as <-. intros [= <-]. lia.
Qed.

Lemma clean_agree ps d d' : fields_inside ps -> agree d' d 0 ps -> clean ps d -> clean ps d'.
Proof.
  intros [F1 F2 F3] Ha [C1 C2 C3]. split.
  - rewrite Forall_forall in *. intros o Ho. destruct (F1 o Ho). rewrite (agree_get64 d' d 0 ps) by (done || lia). by apply C1.
  - intros o Ho. destruct (F2 o Ho). rewrite (agree_get32 d' d 0 ps) by (done || lia). by apply C2.
  - intros Ht Hn. pose proof (F3 Ht Hn) as ->. specialize (C3 Ht Hn). unfold memory_forwarded in *. cbv zeta in *. revert C3. layout_eval.
    rewrite (agree_get64 d' d 0 56 24), (agree_get64 d' d 0 56 32), (agree_get32 d' d 0 56) by (done || lia). done.
Qed.

Lemma bytes_of_read d n : agree (bytes_of (read_bytes d 0 n)) d 0 n.
Proof.
  intros i Hi. unfold bytes_of. replace i with (0 + Z.of_nat (Z.to_nat i)) at 1 by lia.
  apply get8_write_in; [apply octets_read |]. rewrite lookup_read by lia. do 2 f_equal. lia.
Qed.

Lemma sanitized_none p ps s :
  fd_field prof cmd = None -> pointer_fields cmd ps = [] -> (ioc_type cmd = type_F -> ioc_nr cmd <> 0x27) -> log_ok s -> sanitized p ps s.
Proof.
  intros Hf Hp Hn Hs. split; [done |]. intros d _. split; [by rewrite Hp | intros o Ho; congruence | intros Ht Hnr; by apply Hn in Hnr].
Qed.

(** Pointers cleared so far. *)
Definition zeros (s : kst gstate act) (p : nat) (L : list Z) : Prop := forall d, buf_is s p d -> Forall (fun o => get64 d o = 0) L.

Lemma zero_st64 L p o s (Q : unit -> kst gstate act -> Prop) R :
  log_ok s -> zeros s p L -> Forall (fun o' => o' + 8 <= o \/ o + 8 <= o') L ->
  (forall s', log_ok s' -> zeros s' p (o :: L) -> Q tt s') -> wp (st64 p o 0) Q R log_ok s.
Proof.
  intros Hs Hz Hd HQ. apply at_st64; [done |]. intros d s' H1 H2 El. apply HQ; [by apply (log_ok_same s) |].
  intros d' H'. rewrite <- (buf_is_inj _ _ _ _ H2 H'). constructor; [by rewrite get64_put64 |].
  specialize (Hz d H1). rewrite Forall_forall in *. intros o' Ho. rewrite get64_put64_ne; [by apply Hz | by apply Hd].
Qed.

Lemma no_zeros s p : zeros s p [].
Proof. intros d _. constructor. Qed.

Lemma sanitized_zeros p ps s L :
  fd_field prof cmd = None -> (ioc_type cmd = type_F -> ioc_nr cmd <> 0x27) -> log_ok s -> zeros s p L ->
  (forall o, o ∈ pointer_fields cmd ps -> o ∈ L) -> sanitized p ps s.
Proof.
  intros Hf Hn Hs Hz HL. split; [done |]. intros d Hd. split; [|intros o Ho; congruence | intros Ht Hnr; by apply Hn in Hnr].
  specialize (Hz d Hd). rewrite Forall_forall in *. intros o Ho. by apply Hz, HL.
Qed.

(** Steps of the next proof. *)
Ltac zero_first s1 L1 Z1 := apply (zero_st64 []); [done | apply no_zeros | constructor |]; intros s1 L1 Z1.
Ltac zero_next s1 L1 Z1 := eapply zero_st64; [done | eassumption | repeat (constructor; [lia |]); constructor |]; intros s1 L1 Z1.
Ltac zero_fin Hfd Hpf Hn := eapply sanitized_zeros; [exact (Hfd _ Hn) | rewrite Hn; done | done | eassumption |]; intros ?o ?Ho;
  rewrite (Hpf _ Hn) in Ho; cbn in Ho; repeat (rewrite elem_of_cons in *; rewrite ?elem_of_nil in Ho); tauto.

Lemma sanitize_frontend_spec p ps s :
  ioc_type cmd = type_F -> fe_param_size prof cmd = Some ps -> log_ok s ->
  wp (sanitize_frontend E (ioc_nr cmd) p ps) (fun _ => sanitized p ps) (fun r s' => log_ok s' /\ r <> 0) log_ok s.
Proof.
  intros Ht Hs Hl. destruct (not_uvm Ht) as (U1 & U2 & U3 & U4).
  assert (forall n, ioc_nr cmd = n -> fd_field prof cmd =
    (if n =? 39 then Some 48 else if n =? 78 then Some 48 else if n =? 201 then Some 0 else if n =? 206 then Some 8 else if n =? 207 then Some 8 else None)) as Hfd.
  { intros n <-. unfold fd_field. rewrite U1, U2, U3, U4, Ht. by layout_eval. }
  assert (forall n, ioc_nr cmd = n -> pointer_fields cmd ps =
    (if n =? 43 then (if ps =? 48 then [16; 24] else [16]) else if n =? 42 then [16] else if n =? 78 then [32] else if n =? 79 then [16]
     else if n =? 94 then [16; 24] else if n =? 65 then [16; 24; 32] else [])) as Hpf.
  { intros n <-. unfold pointer_fields. rewrite Ht. by layout_eval. }
  unfold sanitize_frontend. layout_eval.
  destruct (Z.eqb_spec (ioc_nr cmd) 43) as [Hn|N1].
  { destruct (Z.eqb_spec ps 48) as [->|Hps]; [apply wp_then; zero_first s1 L1 Z1; zero_next s2 L2 Z2; zero_fin Hfd Hpf Hn |].
    assert (ps = 32) as ->.
    { fe_size_of Hs Hn. destruct (Z.eqb_spec (ioc_size cmd) 32) as [Hz|]; [by injection Hs as <-; rewrite Hz |].
      destruct (Z.eqb_spec (ioc_size cmd) 48) as [Hz|]; [injection Hs as <-; lia | done]. }
    cbn [Z.eqb Pos.eqb]. zero_first s1 L1 Z1. zero_fin Hfd Hpf Hn. }
  destruct (Z.eqb_spec (ioc_nr cmd) 42) as [Hn|N2]; [zero_first s1 L1 Z1; zero_fin Hfd Hpf Hn |].
  destruct (Z.eqb_spec (ioc_nr cmd) 39) as [Hn|N3]; [by apply sanitize_memory_spec; [| |exact (Hfd _ Hn) | exact (Hpf _ Hn) |] |].
  destruct (Z.eqb_spec (ioc_nr cmd) 78) as [Hn|N4].
  { apply wp_then. zero_first s1 L1 Z1. eapply wp_mono; [apply swap_fd_spec; [apply given_no | done] | | done | done].
    intros _ s' (Hs2 & d2 & d3 & H2 & H3 & Hf & Ho). split; [done |]. intros d4 H4. rewrite <- (buf_is_inj _ _ _ _ H3 H4).
    split; [rewrite (Hpf _ Hn) | intros o E'; rewrite (Hfd _ Hn) in E'; cbn in E'; by injection E' as <- | by rewrite Hn].
    constructor; [|constructor]. rewrite (agree_get64 d3 d2 32 40) by (done || lia || (apply Ho; lia)). by apply Z1, Forall_inv in H2. }
  destruct (Z.eqb_spec (ioc_nr cmd) 79) as [Hn|N5]; [zero_first s1 L1 Z1; zero_fin Hfd Hpf Hn |].
  destruct (Z.eqb_spec (ioc_nr cmd) 94) as [Hn|N6]; [apply wp_then; zero_first s1 L1 Z1; zero_next s2 L2 Z2; zero_fin Hfd Hpf Hn |].
  destruct (Z.eqb_spec (ioc_nr cmd) 65) as [Hn|N7].
  { apply wp_then; zero_first s1 L1 Z1. apply wp_then; zero_next s2 L2 Z2. apply wp_then; zero_next s3 L3 Z3. apply at_st32; [done |]. intros d3 s4 H3 H3' E3.
    eapply (sanitized_pointers _ _ _ (put32 d3 12 0)); [exact (Hfd _ Hn) | rewrite Hn; done | by apply (log_ok_same s3) | exact H3' |].
    rewrite (Hpf _ Hn). pose proof (Z3 d3 H3) as Hz.
    rewrite Forall_forall in *. intros o Ho. rewrite get64_put32_ne; [apply Hz; set_solver | set_solver by lia]. }
  destruct (Z.eqb_spec (ioc_nr cmd) 201) as [Hn|N8].
  { eapply wp_mono; [apply swap_fd_spec; [apply given_no | done] | | done | done]. intros ? s'.
    apply sanitized_fd; [exact (Hfd _ Hn) | exact (Hpf _ Hn) | by rewrite Hn]. }
  destruct (Z.eqb_spec (ioc_nr cmd) 206) as [Hn|N9].
  { eapply wp_mono; [by apply swap_event_spec | | done | done]. intros ? s'.
    apply sanitized_fd; [exact (Hfd _ Hn) | exact (Hpf _ Hn) | by rewrite Hn]. }
  destruct (Z.eqb_spec (ioc_nr cmd) 207) as [Hn|N10].
  { eapply wp_mono; [by apply swap_event_spec | | done | done]. intros ? s'.
    apply sanitized_fd; [exact (Hfd _ Hn) | exact (Hpf _ Hn) | by rewrite Hn]. }
  apply wp_done, sanitized_none; [| | done | done]; [rewrite (Hfd _ eq_refl) | rewrite (Hpf _ eq_refl)];
    repeat match goal with |- context [if ioc_nr cmd =? ?k then _ else _] => rewrite (proj2 (Z.eqb_neq (ioc_nr cmd) k)) by done end; done.
Qed.

Lemma sanitize_spec p ps s :
  nvkvm_ioctl_param_size prof cmd = Some ps -> log_ok s ->
  wp (sanitize_params E prof cmd p ps) (fun _ => sanitized p ps) (fun r s' => log_ok s' /\ r <> 0) log_ok s.
Proof.
  intros Hs Hl. unfold sanitize_params. destruct (Z.eqb_spec (ioc_type cmd) type_F) as [Ht|Ht].
  { destruct (not_uvm Ht) as (-> & -> & -> & ->). cbn [negb]. apply sanitize_frontend_spec; [done | by rewrite <- fe_size | done]. }
  assert (pointer_fields cmd ps = []) as Hp by (unfold pointer_fields; by rewrite (proj2 (Z.eqb_neq _ _) Ht)).
  assert (forall off, fd_field prof cmd = Some off ->
    wp (swap_fd E p off given) (fun _ => sanitized p ps) (fun r s' => log_ok s' /\ r <> 0) log_ok s) as Hsw.
  { intros off Hf. eapply wp_mono; [apply swap_fd_spec; [apply given_no | done] | | done | done]. intros ? s'. by apply sanitized_fd. }
  unfold fd_field in Hsw. cbn [negb].
  destruct (cmd =? 75) eqn:C1; [by apply Hsw |]. destruct (cmd =? 25) eqn:C2; [by apply Hsw |]. destruct (cmd =? 27) eqn:C3; [by apply Hsw |].
  destruct (cmd =? 33) eqn:C4; [cbv zeta; destruct (_ <? _); [by apply wp_ret | by apply Hsw] |].
  apply wp_done, sanitized_none; [|done|done|done]. unfold fd_field. by rewrite C1, C2, C3, C4, (proj2 (Z.eqb_neq _ _) Ht).
Qed.

(** *** Forwarding *)

Context (Hprof : prof ∈ Abi.nvkvm_abi_profiles).

Definition ready (buf : option nat) (ps : Z) (s : kst gstate act) : Prop :=
  match buf with Some p => forall d, buf_is s p d -> clean ps d | None => True end.

Lemma get64_empty o : get64 (∅ : bytes) o = 0.
Proof. apply zero64. intros i _. done. Qed.

Lemma clean_empty ps : clean ps ∅.
Proof.
  split.
  - apply Forall_forall. intros o _. apply get64_empty.
  - intros o _. left. pose proof (get64_empty o) as H. unfold get64 in H. pose proof (get32_range ∅ o). pose proof (get32_range ∅ (o + 4)).
    replace (get32 ∅ o) with 0 by lia. by vm_compute.
  - intros _ _. left. apply get64_empty.
Qed.

Lemma rd_opt_clean buf ps s :
  nvkvm_ioctl_param_size prof cmd = Some ps -> ready buf ps s -> log_ok s ->
  wp (rd_opt buf ps) (fun pl s' => s' = s /\ clean (Z.of_nat (length pl)) (bytes_of pl)) (fun _ _ => False) log_ok s.
Proof.
  intros Hs Hr Hl. destruct buf as [p|]; cbn [rd_opt]; [|apply wp_done; split; [done | apply clean_empty]].
  apply wp_then. unfold wp at 1, at_buf. destruct (k_heap s !! p) as [b|] eqn:Eb; [|done]. destruct (_ && _); [|done].
  apply wp_done. split; [done |]. rewrite length_read_bytes, Z2Nat.id by by apply (param_size_pos prof cmd).
  apply (clean_agree ps (b_data b)); [by apply inside | apply bytes_of_read | apply Hr; by exists b].
Qed.

Lemma quiet_rd_opt p n : quiet (rd_opt p n).
Proof. unfold rd_opt. quiets. Qed.

Lemma quiet_wr_opt p n l : quiet (wr_opt p n l).
Proof. unfold wr_opt. quiets. Qed.

Lemma use_quiet {A B} (m : GM A) (k : A -> GM B) (Q : B -> kst gstate act -> Prop) s :
  quiet m -> log_ok s -> (forall a s', log_ok s' -> wp (k a) Q (fun _ => log_ok) log_ok s') -> wp (mthen m k) Q (fun _ => log_ok) log_ok s.
Proof. intros Hm Hs Hk. apply wp_then. eapply wp_mono; [by apply Hm | | done | done]. intros a s' Hs'. by apply Hk. Qed.

Lemma forward_once_spec buf ps aux n st s :
  nvkvm_ioctl_param_size prof cmd = Some ps -> (fst st = 0 -> ready buf ps s) -> log_ok s ->
  wp (forward_once E buf ps aux n st) (fun r s' => log_ok s' /\ (fst r = true -> fst (snd r) <> 0)) (fun _ => log_ok) log_ok s.
Proof.
  intros Hs Hr Hl. unfold forward_once. cbv zeta. apply wp_then.
  assert (wp (rd_opt buf ps) (fun pl s' => s' = s /\ (fst st = 0 -> clean (Z.of_nat (length pl)) (bytes_of pl))) (fun _ => log_ok) log_ok s) as Hrd.
  { destruct (decide (fst st = 0)) as [H0|H0].
    - eapply wp_mono; [by apply rd_opt_clean; [| apply Hr |] | | done | done]. intros pl s' [-> Hc]. done.
    - unfold rd_opt. destruct buf as [p|]; [|by apply wp_done]. apply wp_then. unfold wp at 1, at_buf.
      destruct (k_heap s !! p) as [b|]; [|done]. destruct (_ && _); [by apply wp_done | done]. }
  eapply wp_mono; [exact Hrd | | done | done]. intros pl s' [-> Hc].
  apply use_quiet; [apply quiet_rd_opt | done |]. intros al s1 H1.
  apply use_quiet; [by apply quiet_emit | done |]. intros _ s2 H2. apply wp_then, wp_tick.
  set (r := i_forward _ _ _ _ _). apply use_quiet; [apply quiet_wr_opt | done |]. intros _ s3 H3.
  apply use_quiet; [apply quiet_wr_opt | done |]. intros _ s4 H4. apply use_quiet; [by apply quiet_emit | done |]. intros _ s5 H5.
  destruct (_ || _); [by apply wp_done |]. apply wp_then, wp_tick. apply use_quiet; [by apply quiet_emit | done |]. intros _ s6 H6.
  destruct (negb _); apply wp_done; [done |]. split; [done |]. intros _. cbn. intros H. apply Z.lor_eq_0_iff in H as [_ H]. done.
Qed.

Lemma forward_call_spec buf ps sg s :
  nvkvm_ioctl_param_size prof cmd = Some ps -> ready buf ps s -> log_ok s ->
  wp (forward_call E buf ps sg) (fun _ => log_ok) (fun _ => log_ok) log_ok s.
Proof.
  intros Hs Hr Hl.
  assert (forall s', ready buf ps s' -> log_ok s' ->
    wp (forward_loop E buf ps (sg_aux sg) (sg_size sg)) (fun _ => log_ok) (fun _ => log_ok) log_ok s') as Hloop.
  { intros s' Hr' Hl'. unfold forward_loop. apply wp_then.
    apply (wp_loop (fun _ st s'' => log_ok s'' /\ (fst st = 0 -> ready buf ps s''))); [done | | by intros st s'' [? _]; apply wp_done].
    intros j st s'' _ [H1 H2]. eapply wp_mono; [by apply forward_once_spec | | done | done].
    intros [[] st'] s3 [H3 H4]; cbn [fst snd] in *; [split; [done |]; intros H; by apply H4 in H | by apply wp_done]. }
  unfold forward_call. cbv zeta. match goal with |- wp (if ?b then _ else _) _ _ _ _ => destruct b end; [|by apply Hloop]. apply wp_then.
  eapply wp_mono; [by apply rd_opt_clean | | done | done]. intros pl s' [-> Hc]. apply wp_then.
  assert (wp (rd_opt (sg_aux sg) (sg_size sg)) (fun _ s' => s' = s) (fun _ => log_ok) log_ok s) as Hrd.
  { unfold rd_opt. destruct (sg_aux sg) as [a|]; [|by apply wp_done]. apply wp_then. unfold wp at 1, at_buf.
    destruct (k_heap s !! a) as [b|]; [|done]. destruct (_ && _); [by apply wp_done | done]. }
  eapply wp_mono; [exact Hrd | | done | done]. intros al s' ->. apply wp_then, wp_tick.
  destruct (i_ring _ _ _ _) as [[[r pl'] al']|]; [|by apply Hloop].
  apply use_quiet; [by apply quiet_emit | done |]. intros _ s2 H2. apply use_quiet; [apply quiet_wr_opt | done |]. intros _ s3 H3.
  apply use_quiet; [apply quiet_wr_opt | done |]. intros _ s4 H4. apply use_quiet; [by apply quiet_emit | done |]. intros _ s5 H5. by apply wp_done.
Qed.

Lemma forward_spec buf ps sg s :
  nvkvm_ioctl_param_size prof cmd = Some ps -> ready buf ps s -> log_ok s ->
  wp (forward E ctx cmd buf ps sg) (fun _ => log_ok) (fun _ => log_ok) log_ok s.
Proof.
  intros Hs Hr Hl. unfold forward. destruct (_ && _); [|by apply wp_done]. apply wp_then.
  assert (forall g, ready buf ps (KSt (k_heap s) (k_next s) (k_time s) (k_log s) g) /\ log_ok (KSt (k_heap s) (k_next s) (k_time s) (k_log s) g)) as Hg by done.
  assert (forall s', ready buf ps s' -> log_ok s' -> wp (mthen (match buf with
      | Some p => if (cmd =? 72) && (20 <=? ps) then validate_or_forward E cmd p ps sg else forward_call E buf ps sg
      | None => forward_call E buf ps sg end)
     (fun r => mthen (emit (EvDo A_writeback)) (fun _ => mthen (restore_inner sg) (fun _ => mdone r)))) (fun _ => log_ok) (fun _ => log_ok) log_ok s') as Hrest.
  { intros s' Hr' Hl'. apply wp_then. eapply (wp_mono _ (fun _ => log_ok) _ (fun _ => log_ok) _ log_ok); [| | done | done].
    - destruct buf as [p|]; [|by apply forward_call_spec]. destruct (_ && _); [|by apply forward_call_spec].
      unfold validate_or_forward. apply wp_then, at_ld64; [done |]. intros d1 _. apply wp_then, at_ld64; [done |]. intros d2 _.
      apply wp_then, wp_getx. destruct (vc_lookup _ _ _).
      { apply use_quiet; [quiets | done |]. intros _ s1 H1. by apply wp_done. }
      apply wp_then. eapply wp_mono; [by apply forward_call_spec | | done | done]. intros r s1 H1.
      apply use_quiet; [quiets | done |]. intros _ s2 H2. by apply wp_done.
    - intros r s1 H1. apply use_quiet; [by apply quiet_emit | done |]. intros _ s2 H2.
      apply use_quiet; [apply (quiet_after None 0 0 (Saved O_none None None) sg 0) | done |]. intros _ s3 H3. by apply wp_done. }
  destruct (is_teardown cmd); [apply wp_then, wp_getx, wp_putx; by apply Hrest; apply Hg | by apply wp_done, Hrest].
Qed.

Lemma body_spec uparams s : log_ok s -> wp (ioctl_body E prof ctx cmd uparams) (fun _ => log_ok) (fun _ => log_ok) log_ok s.
Proof.
  intros Hl. unfold ioctl_body. destruct (nvkvm_ioctl_param_size prof cmd) as [ps|] eqn:Hs; [|by apply wp_ret].
  destruct (_ <? _); [by apply wp_ret |]. destruct (quiet_before ps uparams) as (Q1 & Q2 & Q3 & Q4).
  apply use_quiet; [done | done |]. intros buf s1 H1. apply use_quiet; [apply Q2 | done |]. intros _ s2 H2.
  apply use_quiet; [destruct buf; [destruct (_ && _); [apply Q3 | apply quiet_done] | apply quiet_done] | done |]. intros _ s3 H3.
  apply use_quiet; [apply Q4 | done |]. intros sv s4 H4. apply use_quiet; [apply quiet_stage | done |]. intros sg s5 H5.
  apply wp_then.
  assert (wp (nvkvm_sanitize_ioctl_params E prof cmd buf ps) (fun e s' => log_ok s' /\ (e = 0 -> ready buf ps s')) (fun _ => log_ok) log_ok s5) as Hsan.
  { unfold nvkvm_sanitize_ioctl_params. destruct buf as [p|]; [|by apply wp_done]. destruct (Z.eqb_spec ps 0) as [->|].
    - apply wp_done. split; [done |]. intros _ d _. apply (clean_agree 0 ∅); [by apply inside | intros i Hi; lia | apply clean_empty].
    - apply wp_call. eapply wp_mono; [by apply sanitize_spec | | | done]; [by intros ? s' [? ?] | intros r s' [? ?]; done]. }
  eapply wp_mono; [exact Hsan | | done | done]. intros e s6 [H6 Hr]. destruct (Z.eqb_spec e 0) as [->|]; cbn [negb].
  - apply wp_then. eapply wp_mono; [by apply forward_spec; [| apply Hr |] | | done | done]. intros r s7 H7.
    apply use_quiet; [apply quiet_after | done |]. intros r' s8 H8.
    apply use_quiet; [apply quiet_kfree | done |]. intros _ s9 H9. apply use_quiet; [apply quiet_kfree | done |]. intros _ s10 H10.
    apply use_quiet; [apply quiet_kfree | done |]. intros _ s11 H11. by apply wp_ret.
  - apply use_quiet; [apply quiet_kfree | done |]. intros _ s7 H7. apply use_quiet; [apply quiet_kfree | done |]. intros _ s8 H8. by apply wp_ret.
Qed.

End forwarded.

(** C15. [forwarded_clean]: about the parameter structure that an ioctl first sends to the
    host, by the queue or by the ring.  The pointer fields of the front-end commands
    listed in [pointer_fields] are zero.  The address in an RM_ALLOC_MEMORY is zero, or
    the class is that of a descriptor of system memory and the call that migrates the
    [limit + 1] bytes there returned success, except for the greatest limit, where that
    length wraps to zero and nothing is migrated.  The descriptor field of a command in
    [fd_field] holds zero, a negative value, or the handle id of one of the module's own
    files that the caller had open.  Not covered: the buffer behind the parameters,
    which is sent as the caller filled it, the modeset structure and its address, the
    addresses that are UVM arguments, and what a retry sends back. *)
Theorem forwarded_clean (E : ienv) (prof : Abi.abi_profile) (ctx : gctx) (cmd uparams : Z) (s : kst gstate act) :
  prof ∈ Abi.nvkvm_abi_profiles -> k_log s = [] -> Forall (ok_event E prof cmd) (k_log (snd (nvkvm_ioctl E prof ctx cmd uparams s))).
Proof.
  intros Hp Hl. assert (log_ok E prof cmd s) as H0 by (unfold log_ok; rewrite Hl; constructor).
  pose proof (wp_call _ _ (fun _ => log_ok E prof cmd) _ s (body_spec E prof ctx cmd Hp uparams s H0)) as H.
  unfold wp in H. unfold nvkvm_ioctl. by destruct (mcall _ s) as [[]].
Qed.

(** ** What is given back *)

(** The pointers put back: the mapping calls return their own, and the arrays of
    IDLE_CHANNELS are dropped. *)
Definition returned_pointers (cmd ps : Z) : list Z :=
  if listed (ioc_nr cmd) [0x2a; 0x2b; 0x4f; 0x5e] then pointer_fields cmd ps else [].

(** The other words written: the size of an allocation in its longer form as it was
    given, and success as the status of the two calls that take a mapping's address. *)
Definition returned_words (cmd ps : Z) (d0 : bytes) : list (Z * Z) :=
  if ioc_type cmd =? type_F then
    if (ioc_nr cmd =? 0x2b) && (ps =? 48) then [(32, get32 d0 32)]
    else if ioc_nr cmd =? 0x4f then [(24, 0)]
    else if ioc_nr cmd =? 0x5e then [(32, 0)]
    else []
  else [].

(** The bytes the restoring may write. *)
Definition restored_range (prof : Abi.abi_profile) (cmd ps : Z) (d0 : bytes) (i : Z) : Prop :=
  (exists o, o ∈ returned_pointers cmd ps /\ o <= i < o + 8) \/ (exists o, fd_field prof cmd = Some o /\ o <= i < o + 4) \/
  (exists w, w ∈ returned_words cmd ps d0 /\ fst w <= i < fst w + 4).

Lemma returned_nil cmd ps d0 : returned_pointers cmd ps = [] -> returned_words cmd ps d0 = [].
Proof.
  unfold returned_pointers, returned_words, pointer_fields. cbn [listed]. rewrite !(Z.eqb_sym _ (ioc_nr cmd)). destruct (ioc_type cmd =? type_F); [|done].
  destruct (Z.eqb_spec (ioc_nr cmd) 0x2b) as [->|]; [cbn; by case_match |].
  destruct (Z.eqb_spec (ioc_nr cmd) 0x4f) as [->|]; [done |]. by destruct (Z.eqb_spec (ioc_nr cmd) 0x5e) as [->|].
Qed.

Section restore.
Context (s : kst gstate act) (p : nat) (n : Z) (d : bytes) (Hp : k_heap s !! p = Some (Buf n d)).

Definition stored (d' : bytes) : kst gstate act := set_heap (<[p := Buf n d']> (k_heap s)) s.

Lemma run_ld32 o : 0 <= o -> o + 4 <= n -> ld32 p o s = (Done (get32 d o), s).
Proof.
  intros H1 H2. unfold ld32, mthen, at_buf. rewrite Hp. cbn [b_len b_data].
  by rewrite (proj2 (Z.leb_le 0 o)), (proj2 (Z.leb_le (o + 4) n)) by lia.
Qed.

Lemma run_ld64 o : 0 <= o -> o + 8 <= n -> ld64 p o s = (Done (get64 d o), s).
Proof.
  intros H1 H2. unfold ld64, mthen, at_buf. rewrite Hp. cbn [b_len b_data].
  by rewrite (proj2 (Z.leb_le 0 o)), (proj2 (Z.leb_le (o + 8) n)) by lia.
Qed.

Lemma run_st32 o v : 0 <= o -> o + 4 <= n -> st32 p o v s = (Done tt, stored (put32 d o v)).
Proof.
  intros H1 H2. unfold st32, mthen, at_buf. rewrite Hp. cbn [b_len b_data].
  by rewrite (proj2 (Z.leb_le 0 o)), (proj2 (Z.leb_le (o + 4) n)) by lia.
Qed.

Lemma run_st64 o v : 0 <= o -> o + 8 <= n -> st64 p o v s = (Done tt, stored (put64 d o v)).
Proof.
  intros H1 H2. unfold st64, mthen, at_buf. rewrite Hp. cbn [b_len b_data].
  by rewrite (proj2 (Z.leb_le 0 o)), (proj2 (Z.leb_le (o + 8) n)) by lia.
Qed.

Lemma stored_at d' : k_heap (stored d') !! p = Some (Buf n d').
Proof. apply lookup_insert_eq. Qed.
End restore.

Definition restores (prof : Abi.abi_profile) (cmd ps : Z) (d0 d1 d' : bytes) : Prop :=
  Forall (fun o => get64 d0 o <> 0 -> get64 d' o = get64 d0 o) (returned_pointers cmd ps) /\
  (forall o, fd_field prof cmd = Some o -> cmd <> 33 -> get32 d' o = get32 d0 o) /\
  Forall (fun w => get32 d' (fst w) = snd w) (returned_words cmd ps d0) /\
  (forall i, ~ restored_range prof cmd ps d0 i -> cmd <> 33 -> get8 d' i = get8 d1 i).

Definition gives (m : GM unit) (s1 : kst gstate act) (p : nat) (ps : Z) (P : bytes -> Prop) : Prop :=
  exists s', m s1 = (Done tt, s') /\ exists d', k_heap s' !! p = Some (Buf ps d') /\ P d'.

Lemma gives_store32 s1 p ps d1 o v (P : bytes -> Prop) :
  k_heap s1 !! p = Some (Buf ps d1) -> 0 <= o -> o + 4 <= ps -> P (put32 d1 o v) -> gives (st32 p o v) s1 p ps P.
Proof. intros H ?? HP. eexists. split; [by apply run_st32 |]. eexists. split; [by apply stored_at | done]. Qed.

Lemma gives_store64 s1 p ps d1 o v (P : bytes -> Prop) :
  k_heap s1 !! p = Some (Buf ps d1) -> 0 <= o -> o + 8 <= ps -> P (put64 d1 o v) -> gives (st64 p o v) s1 p ps P.
Proof. intros H ?? HP. eexists. split; [by apply run_st64 |]. eexists. split; [by apply stored_at | done]. Qed.

Lemma gives_done s1 p ps d1 (P : bytes -> Prop) : k_heap s1 !! p = Some (Buf ps d1) -> P d1 -> gives (mdone tt) s1 p ps P.
Proof. intros H HP. eexists. split; [done |]. eauto. Qed.

Lemma gives_then m k s1 p ps (P Q : bytes -> Prop) :
  gives m s1 p ps P -> (forall s' d', k_heap s' !! p = Some (Buf ps d') -> P d' -> gives (k tt) s' p ps Q) -> gives (mthen m k) s1 p ps Q.
Proof.
  intros (s' & Em & d' & Ed & HP) Hk. destruct (Hk s' d' Ed HP) as (s'' & Ek & Hd). exists s''. split; [|done].
  unfold mthen. by rewrite Em.
Qed.

(** A pointer that was not null. *)
Lemma gives_pointer s1 p ps d1 o v :
  k_heap s1 !! p = Some (Buf ps d1) -> 0 <= o -> o + 8 <= ps -> 0 <= v < 2 ^ 64 ->
  gives (if v =? 0 then mdone tt else st64 p o v) s1 p ps
    (fun d' => (v <> 0 -> get64 d' o = v) /\ forall a b, b <= o \/ o + 8 <= a -> agree d' d1 a b).
Proof.
  intros H ?? Hv. destruct (Z.eqb_spec v 0) as [->|Hn].
  - eapply gives_done; [done |]. split; [done |]. intros a b _. apply agree_refl.
  - eapply gives_store64; [done | done | done |]. split; [intros _; rewrite get64_put64; by apply u64_small |]. intros a b Hab. by apply agree_put64.
Qed.

Ltac runs H := repeat (unfold mthen at 1; first [rewrite (run_ld64 _ _ _ _ H) by lia | rewrite (run_ld32 _ _ _ _ H) by lia]).

Lemma gives_mono m s1 p ps (P Q : bytes -> Prop) : gives m s1 p ps P -> (forall d', P d' -> Q d') -> gives m s1 p ps Q.
Proof. intros (s' & Em & d' & Ed & HP) Hk. exists s'. eauto. Qed.

Lemma not_modeset ctx p ps : gc_dev ctx <> Sessions.NVKVM_DEV_MODESET -> is_modeset ctx (Some p) ps = false.
Proof. intros Hdev. unfold is_modeset. by rewrite (proj2 (Z.eqb_neq _ _) Hdev). Qed.

(** Saving and restoring, for one command. *)
Definition kept_across (prof : Abi.abi_profile) (ctx : gctx) (cmd ps : Z) (p : nat) (d0 d1 : bytes) (s0 s1 : kst gstate act) : Prop :=
  exists sv, save_fields ctx cmd (Some p) ps s0 = (Done sv, s0) /\ gives (restore_fields sv p) s1 p ps (restores prof cmd ps d0 d1).

(** Nothing kept, nothing written. *)
Lemma across_none prof ctx cmd ps p d0 d1 s0 s1 :
  k_heap s1 !! p = Some (Buf ps d1) -> save_fields ctx cmd (Some p) ps s0 = (Done (Saved O_none None None), s0) ->
  fd_field prof cmd = None -> returned_pointers cmd ps = [] -> kept_across prof ctx cmd ps p d0 d1 s0 s1.
Proof.
  intros H1 Hsv Hf Hr. eexists. split; [exact Hsv |]. eapply gives_done; [done |].
  split_and!; [by rewrite Hr | intros o Ho; congruence | by rewrite (returned_nil _ _ _ Hr) | done].
Qed.

(** One descriptor. *)
Lemma restores_fd prof cmd ps d0 d1 o :
  fd_field prof cmd = Some o -> returned_pointers cmd ps = [] -> restores prof cmd ps d0 d1 (put32 d1 o (get32 d0 o)).
Proof.
  intros Hf Hr. split_and!; [by rewrite Hr | | by rewrite (returned_nil _ _ _ Hr) |].
  - intros o' Ho' _. assert (o' = o) as -> by congruence. rewrite get32_put32. apply u32_small, get32_range.
  - intros i Hi _. apply get8_put32_ne. intros Ho. apply Hi. right. left. by exists o.
Qed.

Lemma across_fd prof ctx cmd ps p d0 d1 s0 s1 sv o :
  k_heap s1 !! p = Some (Buf ps d1) -> save_fields ctx cmd (Some p) ps s0 = (Done sv, s0) ->
  restore_fields sv p = st32 p o (get32 d0 o) -> 0 <= o -> o + 4 <= ps ->
  fd_field prof cmd = Some o -> returned_pointers cmd ps = [] -> kept_across prof ctx cmd ps p d0 d1 s0 s1.
Proof.
  intros H1 Hsv Hre ?? Hf Hr. eexists. split; [exact Hsv |]. rewrite Hre. eapply gives_store32; [done | done | done |]. by apply restores_fd.
Qed.

(** What is kept, for a known command or command number. *)
Ltac save_eval Hm :=
  unfold save_fields, save_orig; rewrite Hm; layout_eval;
  repeat match goal with |- context [ioc_nr ?c] => let v := eval vm_compute in (ioc_nr c) in change (ioc_nr c) with v end;
  cbn [Z.eqb Pos.eqb andb orb Z.leb Z.compare Pos.compare Pos.compare_cont].

Lemma across_uvm prof ctx cmd ps p d0 d1 s0 s1 :
  prof ∈ Abi.nvkvm_abi_profiles -> gc_dev ctx <> Sessions.NVKVM_DEV_MODESET ->
  k_heap s0 !! p = Some (Buf ps d0) -> k_heap s1 !! p = Some (Buf ps d1) ->
  uvm_param_size prof cmd = Some ps -> kept_across prof ctx cmd ps p d0 d1 s0 s1.
Proof.
  intros Hprof Hdev H0 H1 Hs. pose proof (profiles_ok prof Hprof) as Hok. unfold profile_ok in Hok. nv_bool.
  assert (returned_pointers cmd ps = []) as Hr.
  { pose proof (uvm_size_type _ _ _ Hs) as Ht. unfold returned_pointers, pointer_fields. rewrite (proj2 (Z.eqb_neq _ _) Ht). by case_match. }
  pose proof (not_modeset ctx p ps Hdev) as Hm. unfold uvm_param_size in Hs.
  repeat match type of Hs with (if cmd =? ?k then _ else _) = _ => destruct (Z.eqb_spec cmd k) as [->|_] end; [.. | done].
  all: try (layout_eval_in Hs; injection Hs as <-; apply across_none; [done | by unfold save_fields, save_orig; rewrite Hm | done | done]).
  all: layout_eval_in Hs; injection Hs as <-.
  - apply (across_fd _ _ _ _ _ _ _ _ _ (Saved (O_uvm_mm (get32 d0 0)) None None) 0); [done | | by try lia ..].
    save_eval Hm. unfold mthen. by rewrite (run_ld32 s0 p _ d0 H0 0) by lia.
  - apply (across_fd _ _ _ _ _ _ _ _ _ (Saved (O_uvm_ctrl (get32 d0 16)) None None) 16); [done | | by try lia ..].
    save_eval Hm. unfold mthen. by rewrite (run_ld32 s0 p _ d0 H0 16) by lia.
  - apply (across_fd _ _ _ _ _ _ _ _ _ (Saved (O_uvm_ctrl (get32 d0 16)) None None) 16); [done | | by try lia ..].
    save_eval Hm. unfold mthen. by rewrite (run_ld32 s0 p _ d0 H0 16) by lia.
  - exists (Saved (O_uvm_ctrl (get32 d0 16)) None None). split.
    + save_eval Hm. rewrite (proj2 (Z.leb_le 20 _)) by lia. unfold mthen. by rewrite (run_ld32 s0 p _ d0 H0 16) by lia.
    + eapply gives_store32; [done | lia | lia |]. split; [by rewrite Hr | done].
Qed.

(** A front-end command is none of the UVM commands. *)
Lemma frontend_uvm cmd : ioc_type cmd = type_F -> (cmd =? 75) = false /\ (cmd =? 25) = false /\ (cmd =? 27) = false /\ (cmd =? 33) = false.
Proof. intros Ht. repeat split; apply Z.eqb_neq; intros ->; by vm_compute in Ht. Qed.

(** What is kept of a front-end command, by its number. *)
Ltac save_frontend Ht Hn Hm :=
  let H1 := fresh in let H2 := fresh in let H3 := fresh in let H4 := fresh in
  destruct (frontend_uvm _ Ht) as (H1 & H2 & H3 & H4);
  unfold save_fields, save_orig, fd_field, returned_pointers, returned_words, pointer_fields; rewrite ?Hm, ?H1, ?H2, ?H3, ?H4, ?Ht, ?Hn, ?Z.eqb_refl; layout_eval;
  cbn [Z.eqb Pos.eqb andb orb Z.leb Z.compare Pos.compare Pos.compare_cont].

Ltac one_fd H0 sv o Ht Hn Hm :=
  apply (across_fd _ _ _ _ _ _ _ _ _ (Saved sv None None) o); [done | | done | lia | lia |..];
  save_frontend Ht Hn Hm; [unfold mthen; by rewrite (run_ld32 _ _ _ _ H0 o) by lia | done | done].

(** One descriptor of a front-end command. *)
Lemma across_frontend_fd prof ctx cmd ps p d0 d1 s0 s1 :
  gc_dev ctx <> Sessions.NVKVM_DEV_MODESET ->
  k_heap s0 !! p = Some (Buf ps d0) -> k_heap s1 !! p = Some (Buf ps d1) ->
  ioc_type cmd = type_F -> fe_param_size prof cmd = Some ps ->
  ioc_nr cmd = 0x27 \/ ioc_nr cmd = 0x4e \/ ioc_nr cmd = 0xc9 \/ ioc_nr cmd = 0xce \/ ioc_nr cmd = 0xcf ->
  kept_across prof ctx cmd ps p d0 d1 s0 s1.
Proof.
  intros Hdev H0 H1 Ht Hs Hl. pose proof (not_modeset ctx p ps Hdev) as Hm.
  destruct Hl as [Hn|[Hn|[Hn|[Hn|Hn]]]]; fe_size_of Hs Hn; injection Hs as <-.
  - one_fd H0 (O_nvos02 (get32 d0 48)) 48 Ht Hn Hm.
  - one_fd H0 (O_nvos33 (get32 d0 48)) 48 Ht Hn Hm.
  - one_fd H0 (O_ctl_fd (get32 d0 0)) 0 Ht Hn Hm.
  - one_fd H0 (O_os_event (get32 d0 8)) 8 Ht Hn Hm.
  - one_fd H0 (O_os_event (get32 d0 8)) 8 Ht Hn Hm.
Qed.

(** [d'] is [d1] outside the ranges. *)
Definition outside (l : list (Z * Z)) (d' d1 : bytes) : Prop := forall i, Forall (fun r => i < fst r \/ fst r + snd r <= i) l -> get8 d' i = get8 d1 i.

Lemma agree_outside o n d' d1 : (forall a b, b <= o \/ o + n <= a -> agree d' d1 a b) -> outside [(o, n)] d' d1.
Proof. intros Ha i Hi. inversion_clear Hi as [|?? Hr _]. cbn [fst snd] in Hr. apply (Ha i (i + 1)); lia. Qed.

Lemma outside_app l1 l2 d1 d2 d3 : outside l2 d3 d2 -> outside l1 d2 d1 -> outside (l1 ++ l2) d3 d1.
Proof. intros H2 H1 i [Ha Hb]%Forall_app. by rewrite (H2 i Hb), (H1 i Ha). Qed.

(** The parts of [restores], for a command with pointers and no descriptor. *)
Lemma restores_pointers prof cmd ps d0 d1 d' :
  fd_field prof cmd = None ->
  Forall (fun o => get64 d0 o <> 0 -> get64 d' o = get64 d0 o) (returned_pointers cmd ps) ->
  Forall (fun w => get32 d' (fst w) = snd w) (returned_words cmd ps d0) ->
  outside (((fun o => (o, 8)) <$> returned_pointers cmd ps) ++ ((fun w => (fst w, 4)) <$> returned_words cmd ps d0)) d' d1 -> restores prof cmd ps d0 d1 d'.
Proof.
  intros Hf Hv Hw Ho. split_and!; [done | intros o Ho'; congruence | done |].
  intros i Hi _. apply Ho, Forall_app. unfold restored_range in Hi. split; apply Forall_fmap, Forall_forall; intros o Hin; cbn.
  - destruct (decide (o <= i < o + 8)); [|lia]. exfalso. apply Hi. left. eauto.
  - destruct (decide (fst o <= i < fst o + 4)); [|lia]. exfalso. apply Hi. right. right. eauto.
Qed.

(** One control: its parameter pointer. *)
Lemma across_control prof ctx cmd ps p d0 d1 s0 s1 :
  gc_dev ctx <> Sessions.NVKVM_DEV_MODESET ->
  k_heap s0 !! p = Some (Buf ps d0) -> k_heap s1 !! p = Some (Buf ps d1) ->
  ioc_type cmd = type_F -> fe_param_size prof cmd = Some ps -> ioc_nr cmd = 0x2a ->
  kept_across prof ctx cmd ps p d0 d1 s0 s1.
Proof.
  intros Hdev H0 H1 Ht Hs Hn. pose proof (not_modeset ctx p ps Hdev) as Hm. fe_size_of Hs Hn. injection Hs as <-.
  exists (Saved (O_nvos54 (get64 d0 16)) None None). split.
  { save_frontend Ht Hn Hm. unfold mthen. by rewrite (run_ld64 _ _ _ _ H0 16) by lia. }
  eapply gives_mono; [apply (gives_pointer s1 p 32 d1 16); [done | lia | lia | apply get64_range] |].
  intros d' [Hv Ha]. apply restores_pointers; save_frontend Ht Hn Hm; [done | | done |].
  - by apply Forall_singleton.
  - by apply agree_outside.
Qed.

(** An allocation in its longer form: both pointers, and the size as it was given. *)
Lemma across_alloc64 prof ctx cmd ps p d0 d1 s0 s1 :
  gc_dev ctx <> Sessions.NVKVM_DEV_MODESET ->
  k_heap s0 !! p = Some (Buf ps d0) -> k_heap s1 !! p = Some (Buf ps d1) ->
  ioc_type cmd = type_F -> ps = 48 -> ioc_nr cmd = 0x2b ->
  kept_across prof ctx cmd ps p d0 d1 s0 s1.
Proof.
  intros Hdev H0 H1 Ht -> Hn. pose proof (not_modeset ctx p 48 Hdev) as Hm.
  exists (Saved (O_nvos64 (get64 d0 16) (get64 d0 24) (get32 d0 32)) None None). split.
  { save_frontend Ht Hn Hm. unfold mthen. rewrite (run_ld64 _ _ _ _ H0 16), (run_ld64 _ _ _ _ H0 24), (run_ld32 _ _ _ _ H0 32) by lia. done. }
  eapply gives_then; [apply (gives_pointer s1 p 48 d1 16); [done | lia | lia | apply get64_range] |].
  intros s2 d2 H2 [Hv2 Ha2].
  eapply gives_then; [apply (gives_pointer s2 p 48 d2 24); [done | lia | lia | apply get64_range] |].
  intros s3 d3 H3 [Hv3 Ha3]. eapply gives_store32; [done | by vm_compute | by vm_compute |].
  apply restores_pointers; save_frontend Ht Hn Hm; [done | | apply Forall_singleton; cbn; rewrite get32_put32; apply u32_small; first [apply get32_range | lia] |].
  - repeat constructor; intros Hz; rewrite get64_put32_ne by lia; [|by apply Hv3].
    rewrite <- (Hv2 Hz). apply (agree_get64 _ _ 16 24); [apply Ha3 | |]; lia.
  - apply (outside_app [(16, 8); (24, 8)] [(32, 4)] _ d3); [apply agree_outside; intros; by apply agree_put32 |].
    by apply (outside_app [(16, 8)] [(24, 8)] _ d2); apply agree_outside.
Qed.

(** Its shorter form. *)
Lemma across_alloc21 prof ctx cmd ps p d0 d1 s0 s1 :
  gc_dev ctx <> Sessions.NVKVM_DEV_MODESET ->
  k_heap s0 !! p = Some (Buf ps d0) -> k_heap s1 !! p = Some (Buf ps d1) ->
  ioc_type cmd = type_F -> ps = 32 -> ioc_nr cmd = 0x2b ->
  kept_across prof ctx cmd ps p d0 d1 s0 s1.
Proof.
  intros Hdev H0 H1 Ht -> Hn. pose proof (not_modeset ctx p 32 Hdev) as Hm.
  exists (Saved (O_nvos21 (get64 d0 16)) None None). split.
  { save_frontend Ht Hn Hm. unfold mthen. by rewrite (run_ld64 _ _ _ _ H0 16) by lia. }
  eapply gives_mono; [apply (gives_pointer s1 p 32 d1 16); [done | lia | lia | apply get64_range] |].
  intros d' [Hv Ha]. apply restores_pointers; save_frontend Ht Hn Hm; [done | | done |].
  - by apply Forall_singleton.
  - by apply agree_outside.
Qed.

(** An unmapping, and a mapping moved: the addresses, and success. *)
Lemma across_unmap prof ctx cmd ps p d0 d1 s0 s1 :
  gc_dev ctx <> Sessions.NVKVM_DEV_MODESET ->
  k_heap s0 !! p = Some (Buf ps d0) -> k_heap s1 !! p = Some (Buf ps d1) ->
  ioc_type cmd = type_F -> fe_param_size prof cmd = Some ps -> ioc_nr cmd = 0x4f ->
  kept_across prof ctx cmd ps p d0 d1 s0 s1.
Proof.
  intros Hdev H0 H1 Ht Hs Hn. pose proof (not_modeset ctx p ps Hdev) as Hm. fe_size_of Hs Hn. injection Hs as <-.
  exists (Saved O_none None (Some (get64 d0 16))). split.
  { save_frontend Ht Hn Hm. unfold mthen. cbn -[ld64]. by rewrite (run_ld64 _ _ _ _ H0 16) by lia. }
  eapply gives_then; [apply (gives_store64 s1 p 32 d1 16 _ (fun d => d = put64 d1 16 (get64 d0 16))); [done | lia | lia | done] |].
  intros s2 ? H2 ->. eapply gives_store32; [done | by vm_compute | by vm_compute |].
  apply restores_pointers; save_frontend Ht Hn Hm; [done | | apply Forall_singleton; cbn; rewrite get32_put32; apply u32_small; first [apply get32_range | lia] |].
  - apply Forall_singleton. intros _. rewrite get64_put32_ne, get64_put64 by lia. apply u64_small, get64_range.
  - apply (outside_app [(16, 8)] [(24, 4)] _ (put64 d1 16 (get64 d0 16))); apply agree_outside; intros; [by apply agree_put32 | by apply agree_put64].
Qed.
Lemma across_remap prof ctx cmd ps p d0 d1 s0 s1 :
  gc_dev ctx <> Sessions.NVKVM_DEV_MODESET ->
  k_heap s0 !! p = Some (Buf ps d0) -> k_heap s1 !! p = Some (Buf ps d1) ->
  ioc_type cmd = type_F -> fe_param_size prof cmd = Some ps -> ioc_nr cmd = 0x5e ->
  kept_across prof ctx cmd ps p d0 d1 s0 s1.
Proof.
  intros Hdev H0 H1 Ht Hs Hn. pose proof (not_modeset ctx p ps Hdev) as Hm. fe_size_of Hs Hn. injection Hs as <-.
  exists (Saved O_none (Some (get64 d0 16, get64 d0 24)) None). split.
  { save_frontend Ht Hn Hm. unfold mthen. cbn -[ld64]. by rewrite (run_ld64 _ _ _ _ H0 16), (run_ld64 _ _ _ _ H0 24) by lia. }
  set (d2 := put64 d1 16 (get64 d0 16)).
  eapply gives_then; [apply (gives_store64 s1 p 40 d1 16 _ (fun d => d = d2)); [done | lia | lia | done] |].
  intros s2 ? H2 ->. set (d3 := put64 d2 24 (get64 d0 24)).
  eapply gives_then; [apply (gives_store64 s2 p 40 d2 24 _ (fun d => d = d3)); [done | lia | lia | done] |].
  intros s3 ? H3 ->. eapply gives_store32; [done | by vm_compute | by vm_compute |].
  apply restores_pointers; save_frontend Ht Hn Hm; [done | | apply Forall_singleton; cbn; rewrite get32_put32; apply u32_small; first [apply get32_range | lia] |].
  - repeat constructor; intros _; rewrite get64_put32_ne by lia; unfold d3, d2.
    + rewrite get64_put64_ne, get64_put64 by lia. apply u64_small, get64_range.
    + rewrite get64_put64 by lia. apply u64_small, get64_range.
  - apply (outside_app [(16, 8); (24, 8)] [(32, 4)] _ d3); [apply agree_outside; intros; by apply agree_put32 |].
    by apply (outside_app [(16, 8)] [(24, 8)] _ d2); apply agree_outside; intros; apply agree_put64.
Qed.

(** The commands with neither. *)
Lemma across_plain prof ctx cmd ps p d0 d1 s0 s1 :
  gc_dev ctx <> Sessions.NVKVM_DEV_MODESET -> k_heap s1 !! p = Some (Buf ps d1) -> ioc_type cmd = type_F ->
  Forall (fun k => ioc_nr cmd <> k) [0x2a; 0x2b; 0x4f; 0x5e; 0x27; 0x4e; 0xc9; 0xce; 0xcf] ->
  kept_across prof ctx cmd ps p d0 d1 s0 s1.
Proof.
  intros Hdev H1 Ht Hl. pose proof (not_modeset ctx p ps Hdev) as Hm. rewrite !Forall_cons in Hl. destruct_and!.
  destruct (frontend_uvm _ Ht) as (H75 & H25 & H27 & H33).
  apply across_none; [done |..]; unfold save_fields, save_orig, fd_field, returned_pointers; cbn [listed].
  all: by rewrite ?Hm, ?H75, ?H25, ?H27, ?H33, ?(proj2 (Z.eqb_neq (ioc_nr cmd) _)), ?(proj2 (Z.eqb_neq _ (ioc_nr cmd))) by done; try case_match.
Qed.

Lemma across_frontend prof ctx cmd ps p d0 d1 s0 s1 :
  gc_dev ctx <> Sessions.NVKVM_DEV_MODESET ->
  k_heap s0 !! p = Some (Buf ps d0) -> k_heap s1 !! p = Some (Buf ps d1) ->
  ioc_type cmd = type_F -> fe_param_size prof cmd = Some ps -> kept_across prof ctx cmd ps p d0 d1 s0 s1.
Proof.
  intros Hdev H0 H1 Ht Hs.
  destruct (decide (ioc_nr cmd = 0x2a)); [by apply across_control |].
  destruct (decide (ioc_nr cmd = 0x2b)) as [Hn|].
  { fe_size_of Hs Hn. destruct (Z.eqb_spec (ioc_size cmd) 32); [|destruct (Z.eqb_spec (ioc_size cmd) 48); [|done]]; injection Hs as ?.
    - apply across_alloc21; try done; congruence.
    - apply across_alloc64; try done; congruence. }
  destruct (decide (ioc_nr cmd = 0x4f)); [by apply across_unmap |].
  destruct (decide (ioc_nr cmd = 0x5e)); [by apply across_remap |].
  destruct (decide (ioc_nr cmd = 0x27 \/ ioc_nr cmd = 0x4e \/ ioc_nr cmd = 0xc9 \/ ioc_nr cmd = 0xce \/ ioc_nr cmd = 0xcf)); [by apply across_frontend_fd |].
  apply across_plain; try done. rewrite !Forall_cons, Forall_nil. tauto.
Qed.

(** C23. [caller_fields_restored]: on a device other than the modeset one, for a front-end
    command or one of the UVM commands with a size, and whatever the reply [d1] has,
    the step that follows the call (which [nvkvm_ioctl] skips when it returns ENOMEM,
    ENOSPC or EFAULT) writes exactly this.  The pointers of RM_CONTROL, RM_ALLOC,
    RM_UNMAP_MEMORY and RM_UPDATE_DEVICE_MAPPING_INFO that the caller gave and that are
    not null are the caller's again.  The descriptor field of each command in [fd_field]
    is the caller's.  An RM_ALLOC of 48 bytes has the size field the caller gave, and
    the status of the two mapping calls is overwritten with success.  Every other byte
    is the reply's; so the pointers of RM_MAP_MEMORY are the host's and the arrays of
    IDLE_CHANNELS are not put back.  For UVM_MAP_EXTERNAL_ALLOCATION (33) nothing is
    claimed, see [map_external_leaks_handle]. *)
Theorem caller_fields_restored prof ctx cmd ps p d0 d1 s0 s1 :
  prof ∈ Abi.nvkvm_abi_profiles -> gc_dev ctx <> Sessions.NVKVM_DEV_MODESET ->
  ioc_type cmd = type_F \/ is_Some (uvm_param_size prof cmd) ->
  nvkvm_ioctl_param_size prof cmd = Some ps ->
  k_heap s0 !! p = Some (Buf ps d0) -> k_heap s1 !! p = Some (Buf ps d1) ->
  exists sv s2 d2,
    save_fields ctx cmd (Some p) ps s0 = (Done sv, s0) /\ restore_fields sv p s1 = (Done tt, s2) /\
    k_heap s2 !! p = Some (Buf ps d2) /\ restores prof cmd ps d0 d1 d2.
Proof.
  intros Hprof Hdev Hcmd Hs H0 H1.
  assert (kept_across prof ctx cmd ps p d0 d1 s0 s1) as (sv & Hsv & s2 & Hre & d2 & Hd & HR); [|by exists sv, s2, d2].
  destruct Hcmd as [Ht|[n Hu]].
  - apply across_frontend; try done. by rewrite <- fe_size.
  - apply across_uvm; try done. unfold nvkvm_ioctl_param_size in Hs. rewrite Hu in Hs.
    destruct (Z.eqb_spec cmd NVKVM_NVKMS_IOCTL_CMD) as [->|_]; [by vm_compute in Hu |]. congruence.
Qed.

(** ** Examples *)

Import IoctlSafety.

Definition ex_control : gmap nat buf := {[ 0%nat := Buf 32 (put64 ∅ 16 0x7f0000001000) ]}.

Lemma caller_fields_restored_witness :
  nvkvm_ioctl_param_size ex_prof RM_CONTROL_CMD = Some 32 /\
  exists sv s2 d2,
    save_fields ex_gctx RM_CONTROL_CMD (Some 0%nat) 32 (set_heap ex_control ex_kst) = (Done sv, set_heap ex_control ex_kst) /\
    restore_fields sv 0 (set_heap {[ 0%nat := Buf 32 ∅ ]} ex_kst) = (Done tt, s2) /\
    k_heap s2 !! 0%nat = Some (Buf 32 d2) /\
    restores ex_prof RM_CONTROL_CMD 32 (put64 ∅ 16 0x7f0000001000) ∅ d2.
Proof.
  split; [vm_compute; reflexivity |]. apply (caller_fields_restored ex_prof ex_gctx RM_CONTROL_CMD 32 0).
  - vm_compute. repeat (apply elem_of_cons; first [left; reflexivity | right]).
  - discriminate.
  - left. reflexivity.
  - vm_compute. reflexivity.
  - reflexivity.
  - reflexivity.
Defined.

Lemma forwarded_clean_witness :
  k_log ex_kst = [] /\
  Forall (ok_event (ex_env (ex_strings 1)) ex_prof RM_CONTROL_CMD)
    (k_log (snd (nvkvm_ioctl (ex_env (ex_strings 1)) ex_prof ex_gctx RM_CONTROL_CMD 0x1000 ex_kst))).
Proof.
  split; [reflexivity |]. apply forwarded_clean; [|reflexivity].
  vm_compute. repeat (apply elem_of_cons; first [left; reflexivity | right]).
Defined.

(** ** Two commands that go wrong *)

(** MAP_EXTERNAL_ALLOCATION: the word kept and put back is at 16, in the mapping's
    offset, and not the descriptor: the caller gets the handle id that the module put
    into it. *)
Lemma map_external_leaks_handle prof ctx ps p d0 d1 s0 s1 :
  prof ∈ Abi.nvkvm_abi_profiles -> gc_dev ctx <> Sessions.NVKVM_DEV_MODESET -> nvkvm_ioctl_param_size prof 33 = Some ps ->
  k_heap s0 !! p = Some (Buf ps d0) -> k_heap s1 !! p = Some (Buf ps d1) ->
  exists sv, save_fields ctx 33 (Some p) ps s0 = (Done sv, s0) /\
    gives (restore_fields sv p) s1 p ps (fun d2 => get32 d2 (Abi.uvm_map_ext_fd_off prof) = get32 d1 (Abi.uvm_map_ext_fd_off prof) /\
                                                  get32 d2 16 = get32 d0 16).
Proof.
  intros Hprof Hdev Hs H0 H1. pose proof (profiles_ok prof Hprof) as Hok. unfold profile_ok in Hok. nv_bool.
  assert (20 <= Abi.uvm_map_ext_fd_off prof).
  { assert (forallb (fun P => 20 <=? Abi.uvm_map_ext_fd_off P) Abi.nvkvm_abi_profiles = true) as Hall by by vm_compute.
    rewrite forallb_forall in Hall. apply Z.leb_le, Hall. by apply list_elem_of_In. }
  unfold nvkvm_ioctl_param_size, uvm_param_size in Hs. cbn in Hs. injection Hs as <-.
  pose proof (not_modeset ctx p (Abi.uvm_map_ext_size prof) Hdev) as Hm.
  exists (Saved (O_uvm_ctrl (get32 d0 16)) None None). split.
  - save_eval Hm. rewrite (proj2 (Z.leb_le 20 _)) by lia. unfold mthen. by rewrite (run_ld32 s0 p _ d0 H0 16) by lia.
  - eapply gives_store32; [done | lia | lia |]. split; [by rewrite get32_put32_ne by lia |].
    rewrite get32_put32. apply u32_small, get32_range.
Qed.

(** UVM_SET_PREFERRED_LOCATION has the number of RM_CONTROL: the processor's UUID is
    read as a pointer and a size, and a GPU's is refused before anything is sent. *)
Definition ex_preferred (t : nat) (a : Z) : Z :=
  ex_word a [(0x1000, 0x200000); (0x1008, 0x10000); (0x1010, 0xd34dbeef); (0x1014, 0x8badf00d); (0x1018, 0xcafef00d); (0x101c, 0x12345678)].

Lemma preferred_location_refused :
  let '(r, s) := nvkvm_ioctl (ex_env ex_preferred) ex_prof (GCtx 7 HTab.NVKVM_DEV_UVM true 3) 42 0x1000 ex_kst in
  r = Done (- EINVAL) /\ k_log s = [].
Proof. by vm_compute. Qed.
End IoctlFields.
