(* ===== verification/IoctlCalls.v ===== *)
(** * Forwarding calls, and answering them from the cache

    Two parts of [nvkvm_ioctl] of [GuestIoctl] by themselves: the loop that
    forwards a call again after each fault it could resolve, and the cache that
    answers VALIDATE_VA_RANGE, first as one thread after the other uses it and then
    with the steps of several threads interleaved. *)

From S2P Require Import Prelude Bytes Layout Kmem GuestIoctl IoctlSafety IoctlFields.
Local Open Scope Z_scope.
Local Open Scope nv_scope.

Module IoctlCalls.
Import Kmem Layout GuestIoctl.

(** ** The forwarding loop *)

(** A buffer that holds [n] bytes, where there is one. *)
Definition has (s : kst gstate act) (p : option nat) (n : Z) : Prop :=
  match p with Some p => exists b, k_heap s !! p = Some b /\ 0 <= n <= b_len b | None => True end.

(** The flags of the calls made, what each returned and the address of its fault, and
    the faults that were to be resolved, with the outcome. *)
Definition sent (l : list (event act)) : list Z := omap (fun e => match e with EvDo (A_forward f _ _) => Some f | _ => None end) l.
Definition replied (l : list (event act)) : list (Z * Z) := omap (fun e => match e with EvDo (A_reply r f _) => Some (r, f) | _ => None end) l.
Definition resolved (l : list (event act)) : list (Z * Z) := omap (fun e => match e with EvDo (A_resolve a r) => Some (a, r) | _ => None end) l.

(** [s'] has the buffers of [s] and [l] more in the log. *)
Definition after (s s' : kst gstate act) (l : list (event act)) : Prop :=
  (forall p n, has s p n -> has s' p n) /\ k_log s' = k_log s ++ l.

Lemma after_refl s : after s s [].
Proof. split; [done |]. by rewrite app_nil_r. Qed.

Lemma after_trans s1 s2 s3 l1 l2 : after s1 s2 l1 -> after s2 s3 l2 -> after s1 s3 (l1 ++ l2).
Proof. intros [H1 E1] [H2 E2]. split; [auto |]. by rewrite E2, E1, app_assoc. Qed.

(** [m] runs on with [a], leaving [s'] and logging [l]. *)
Definition runs {A} (m : GM A) (s : kst gstate act) (a : A) (s' : kst gstate act) (l : list (event act)) : Prop :=
  m s = (Done a, s') /\ after s s' l.

Lemma runs_then {A B} (m : GM A) (k : A -> GM B) s a s1 l1 b s2 l2 :
  runs m s a s1 l1 -> runs (k a) s1 b s2 l2 -> runs (mthen m k) s b s2 (l1 ++ l2).
Proof. intros [Em H1] [Ek H2]. split; [unfold mthen; by rewrite Em | by eapply after_trans]. Qed.

Lemma runs_log {A} (m : GM A) s a s' l l' : runs m s a s' l -> l = l' -> runs m s a s' l'.
Proof. by intros ? <-. Qed.

Lemma runs_done {A} (a : A) s : runs (mdone a) s a s [].
Proof. split; [done | apply after_refl]. Qed.

Lemma runs_emit e s : runs (emit e) s tt (snd (emit e s)) [e].
Proof. by split. Qed.

Lemma runs_tick s : runs tick s (k_time s) (snd (tick s)) [].
Proof. split; [done |]. split; [done |]. by rewrite app_nil_r. Qed.

Lemma runs_rd p n s : has s p n -> exists l, runs (rd_opt p n) s l s [].
Proof.
  destruct p as [p|]; [|intros _; exists []; apply runs_done]. intros (b & Hb & Hn). exists (read_bytes (b_data b) 0 n).
  split; [|apply after_refl]. unfold rd_opt, rdbuf, mthen, at_buf. rewrite Hb.
  by rewrite (proj2 (Z.leb_le 0 0)), (proj2 (Z.leb_le 0 n)), (proj2 (Z.leb_le (0 + n) (b_len b))) by lia.
Qed.

Lemma fit_length n l : 0 <= n -> Z.of_nat (length (fit n l)) = n.
Proof. intros Hn. unfold fit. rewrite length_take, length_app, length_replicate. lia. Qed.

Lemma runs_wr p n l s : has s p n -> exists s', runs (wr_opt p n l) s tt s' [].
Proof.
  destruct p as [p|]; [|intros _; exists s; apply runs_done].
  intros (b & Hb & Hn). unfold runs, wr_opt, wrbuf, mthen, at_buf. rewrite Hb, fit_length by lia.
  rewrite (proj2 (Z.leb_le 0 0)), (proj2 (Z.leb_le 0 n)), (proj2 (Z.leb_le (0 + n) (b_len b))) by lia.
  eexists. split; [done |]. split; [|by cbn; rewrite app_nil_r]. intros [q|] m; [|done]. intros (b' & Hb' & Hm). unfold has. cbn.
  destruct (decide (q = p)) as [->|]; [rewrite lookup_insert, decide_True by done | rewrite lookup_insert_ne by done; eauto].
  simplify_eq. by eexists.
Qed.

(** One call: what it does and how it goes on. *)
Lemma forward_once_runs E buf ps aux n flags r0 s :
  has s buf ps -> has s aux n ->
  exists pl al pl' r fault s' tail again flags',
    runs (forward_once E buf ps aux n (flags, r0)) s (again, (flags', r)) s' ([EvDo (A_forward flags pl al); EvDo (A_reply r fault pl')] ++ tail) /\
    (tail = [] /\ again = false /\ (r <> - EFAULT \/ fault = 0) \/
     exists e, tail = [EvDo (A_resolve fault e)] /\ fault <> 0 /\ r = - EFAULT /\ flags' = Z.lor flags 1 /\ again = (e =? 0)).
Proof.
  intros Hb Ha. destruct (runs_rd buf ps s Hb) as [pl Hpl]. destruct (runs_rd aux n s Ha) as [al Hal].
  set (s1 := snd (emit (EvDo (A_forward flags pl al)) s)). set (s2 := snd (tick s1)). set (f := i_forward E (k_time s1) flags pl al).
  assert (has s2 buf ps /\ has s2 aux n) as [Hb2 Ha2] by done.
  destruct (runs_wr buf ps (fw_param f) s2 Hb2) as (s3 & H3). pose proof (proj1 (proj2 H3) _ _ Ha2) as Ha3.
  destruct (runs_wr aux n (fw_aux f) s3 Ha3) as (s4 & H4).
  set (ev := EvDo (A_reply (fw_ret f) (fw_fault f) (fit ps (fw_param f)))). set (s5 := snd (emit ev s4)).
  assert (forall (again : bool) flags' r s' tail,
    runs (if negb (fw_ret f =? - EFAULT) || (fw_fault f =? 0) then mdone (false, (flags, fw_ret f))
          else do t <- tick ;;;
               emit (EvDo (A_resolve (fw_fault f) (i_resolve E t (fw_fault f)))) ;;;
               if negb (i_resolve E t (fw_fault f) =? 0) then mdone (false, (Z.lor flags 1, - EFAULT))
               else mdone (true, (Z.lor flags 1, fw_ret f))) s5 (again, (flags', r)) s' tail ->
    runs (forward_once E buf ps aux n (flags, r0)) s (again, (flags', r)) s' ([EvDo (A_forward flags pl al); ev] ++ tail)) as Hpre.
  { intros again flags' r s' tail Hrest. unfold forward_once. cbn [fst].
    eapply runs_log.
    - eapply runs_then; [exact Hpl |]. eapply runs_then; [exact Hal |]. eapply runs_then; [apply runs_emit |].
      eapply runs_then; [apply runs_tick |]. eapply runs_then; [exact H3 |]. eapply runs_then; [exact H4 |].
      eapply runs_then; [apply runs_emit | exact Hrest].
    - done. }
  destruct (negb (fw_ret f =? - EFAULT) || (fw_fault f =? 0)) eqn:Ed.
  { exists pl, al, (fit ps (fw_param f)), (fw_ret f), (fw_fault f), s5, [], false, flags. split; [apply Hpre, runs_done | left].
    split_and!; [done | done |]. apply orb_true_iff in Ed as [Ed|Ed]; nv_bool; auto. }
  nv_bool. set (e := i_resolve E (k_time s5) (fw_fault f)).
  exists pl, al, (fit ps (fw_param f)), (fw_ret f), (fw_fault f), (snd (emit (EvDo (A_resolve (fw_fault f) e)) (snd (tick s5)))), [EvDo (A_resolve (fw_fault f) e)],
    (e =? 0), (Z.lor flags 1).
  split; [|right; exists e; split_and!; (done || lia)]. apply Hpre. eapply runs_log.
  - eapply runs_then; [apply runs_tick |]. fold e. eapply runs_then; [apply runs_emit |].
    destruct (e =? 0); [apply runs_done |]. replace (- EFAULT) with (fw_ret f) by lia. apply runs_done.
  - done.
Qed.

(** A call that faulted, with its effect on what the log says. *)
Lemma call_log flags pl al r pl' fault e tail (l := ([EvDo (A_forward flags pl al); EvDo (A_reply r fault pl')] ++ [EvDo (A_resolve fault e)]) ++ tail) :
  sent l = flags :: sent tail /\ replied l = (r, fault) :: replied tail /\ resolved l = (fault, e) :: resolved tail.
Proof. done. Qed.

(** How a series of at most [max] calls ends: after faults at [faults], all resolved,
    one reply that is no fault with an address, or a fault that was not resolved or
    that was one too many. *)
Definition ended (max : nat) (faults : list Z) (r : Z) (l : list (event act)) : Prop :=
  Forall (fun a => a <> 0) faults /\ (length faults < max)%nat /\
  exists fault last, replied l = map (fun a => (- EFAULT, a)) faults ++ [(r, fault)] /\ resolved l = map (fun a => (a, 0)) faults ++ last /\
    (last = [] /\ (r <> - EFAULT \/ fault = 0) \/
     exists e, last = [(fault, e)] /\ r = - EFAULT /\ fault <> 0 /\ (e <> 0 \/ S (length faults) = max)).

(** From the [k]-th last call on. *)
Lemma forward_loop_from E buf ps aux n k i flags r0 s :
  has s buf ps -> has s aux n ->
  exists st s' tail faults, runs (mloop (fun _ => forward_once E buf ps aux n) (S k) i (flags, r0)) s st s' tail /\
    (Z.lor flags 1 = 1 -> sent tail = flags :: replicate (length faults) 1) /\ ended (S k) faults (snd st) tail.
Proof.
  revert i flags r0 s. induction k as [|k IH]; intros i flags r0 s Hb Ha.
  all: destruct (forward_once_runs E buf ps aux n flags r0 s Hb Ha) as (pl & al & pl' & r & fault & s1 & tail & again & flags' & H1 & Ht).
  - exists (flags', r), s1. eexists. exists []. split.
    { eapply (runs_then _ _ _ _ _ _ _ _ []); [exact H1 |]. destruct again; apply runs_done. }
    rewrite app_nil_r. split; [by destruct Ht as [[-> _]|(e & -> & _)] |]. split; [constructor |]. split; [cbn; lia |].
    destruct Ht as [(-> & -> & Hr)|(e & -> & Hf & -> & -> & ->)]; exists fault; eexists; (split; [reflexivity |]); (split; [reflexivity |]); [by left | right].
    exists e. split_and!; (done || by right).
  - destruct again.
    + destruct Ht as [(_ & ? & _)|(e & -> & Hf & -> & -> & He%eq_sym%Z.eqb_eq)]; [done |]. subst e.
      destruct (IH (i + 1) (Z.lor flags 1) (- EFAULT) s1) as (st & s2 & tail & faults & H2 & Hsent & Hnz & Hlen & fl & last & Hrep & Hres & Hl);
        [by apply (proj2 H1).. |].
      exists st, s2. eexists. exists (fault :: faults). split; [eapply runs_then; [exact H1 | exact H2] |].
      destruct (call_log flags pl al (- EFAULT) pl' fault 0 tail) as (-> & Er & Es). split.
      { intros Hfl. rewrite Hfl in Hsent. by rewrite Hsent. }
      split; [by constructor |]. split; [cbn [length]; lia |]. exists fl, last. rewrite Er, Es, Hrep, Hres. split_and!; [done | done |].
      destruct Hl as [Hl|(e & -> & Hr & Hz & He)]; [by left | right]. exists e. split_and!; [done | done | done |]. cbn [length]. destruct He; [by left | right; lia].
    + exists (flags', r), s1. eexists. exists []. split; [eapply (runs_then _ _ _ _ _ _ _ _ []); [exact H1 | apply runs_done] |].
      rewrite app_nil_r. split; [by destruct Ht as [[-> _]|(e & -> & _)] |]. split; [constructor |]. split; [cbn; lia |].
      destruct Ht as [(-> & _ & Hr)|(e & -> & Hf & -> & -> & He%eq_sym%Z.eqb_neq)]; exists fault; eexists; (split; [reflexivity |]); (split; [reflexivity |]); [by left | right].
      exists e. split_and!; (done || by left).
Qed.

(** C30. [forwarding_ends]: if the two buffers hold the lengths passed, the loop that forwards
    a call by the queue comes back, whatever the host answers.  It makes at least one call
    and at most 128.  Only the first is sent without the retry flag.  Every call but the
    last came back with EFAULT and an address, and the resolution of that fault returned
    success.  The result is what the last call returned; and that was no EFAULT with an
    address, or it was one whose resolution failed, or it was the 128th. *)
Theorem forwarding_ends E buf ps aux n s :
  has s buf ps -> has s aux n ->
  exists r s' tail faults, forward_loop E buf ps aux n s = (Done r, s') /\ k_log s' = k_log s ++ tail /\
    sent tail = 0 :: replicate (length faults) NVKVM_IOCTL_FL_RETRY_EFAULT /\ ended 128 faults r tail.
Proof.
  intros Hb Ha. destruct (forward_loop_from E buf ps aux n 127 0 0 0 s Hb Ha) as (st & s' & tail & faults & [Hr [_ Hl]] & Hsent & He).
  exists (snd st), s', tail, faults. split; [unfold forward_loop, mthen; change (Z.to_nat NVKVM_MAX_EFAULT_RETRIES) with 128%nat; by rewrite Hr |].
  split; [done |]. split; [by apply Hsent | done].
Qed.

(** A host that faults twice on a page of the caller. *)
Definition ex_faults : ienv :=
  let E := IoctlSafety.ex_env (fun _ _ => 0) in
  IEnv (i_user E) (i_fget E) (i_pids E) (i_migrate E) (i_ring E)
    (fun t _ p a => if (t <? 4)%nat then Fwd (- EFAULT) 0x7000 p a else Fwd 0 0 p a) (i_resolve E).

Lemma forwarding_ends_witness :
  sent (k_log (snd (forward_loop ex_faults None 0 None 0 IoctlSafety.ex_kst))) = [0; 1; 1] /\
  exists r s' tail faults, forward_loop ex_faults None 0 None 0 IoctlSafety.ex_kst = (Done r, s') /\ k_log s' = k_log IoctlSafety.ex_kst ++ tail /\
    sent tail = 0 :: replicate (length faults) NVKVM_IOCTL_FL_RETRY_EFAULT /\ ended 128 faults r tail.
Proof. split; [vm_compute; reflexivity |]. apply (forwarding_ends ex_faults None 0 None 0 IoctlSafety.ex_kst); exact I. Defined.

(** ** The cache of validated ranges *)

(** What the driver would answer for a range of the session's UVM file: 0 for one that is
    registered. *)
Definition uvm_answer : Type := Z -> Z -> Z.

(** Commands on a session's ranges, each run to its end before the next: a
    validation, a command after which the driver answers by [h], and a teardown. *)
Inductive vop := V_validate (base len : Z) | V_other (h : uvm_answer) | V_teardown (cmd : Z) (h : uvm_answer).

(** The validation with its answer, and the answer the driver has at that moment. *)
Definition vstep (op : vop) (hg : uvm_answer * gstate) : option (Z * Z) * (uvm_answer * gstate) :=
  let '(h, g) := hg in
  match op with
  | V_validate base len =>
      match vc_lookup base len (vcache g) with
      | Some st => (Some (st, h base len), (h, g))
      | None => (Some (h base len, h base len), (h, vc_insert base len (h base len) g))
      end
  | V_other h' => (None, (h', g))
  | V_teardown cmd h' => (None, (h', if is_teardown cmd then nvkvm_session_vcache_clear g else g))
  end.

Fixpoint vrun (ops : list vop) (hg : uvm_answer * gstate) : list (Z * Z) :=
  match ops with
  | [] => []
  | op :: ops' => let '(o, hg') := vstep op hg in (match o with Some a => [a] | None => [] end) ++ vrun ops' hg'
  end.

(** Ranges cease to be registered by a teardown only. *)
Fixpoint torn_down (ops : list vop) (h : uvm_answer) : Prop :=
  match ops with
  | [] => True
  | V_validate _ _ :: ops' => torn_down ops' h
  | V_other h' :: ops' => (forall base len, h base len = 0 -> h' base len = 0) /\ torn_down ops' h'
  | V_teardown cmd h' :: ops' => is_teardown cmd = true /\ torn_down ops' h'
  end.

(** A range the cache has as registered is registered. *)
Definition coherent (h : uvm_answer) (g : gstate) : Prop :=
  forall k, 0 <= k < NVKVM_VCACHE_N -> vc_valid (vcache g).[k] = true -> vc_status (vcache g).[k] = 0 ->
    h (vc_base (vcache g).[k]) (vc_len (vcache g).[k]) = 0.

Lemma vc_lookup_some base len c st :
  vc_lookup base len c = Some st ->
  exists k, 0 <= k < NVKVM_VCACHE_N /\ vc_valid c.[k] = true /\ vc_base c.[k] = base /\ vc_len c.[k] = len /\ vc_status c.[k] = st.
Proof.
  unfold vc_lookup. intros (k & (Hk & Hm & _)%scan_Some & ->)%fmap_Some. exists k. unfold vc_match in Hm. nv_bool. split; [|done].
  unfold NVKVM_VCACHE_N in *. lia.
Qed.

Lemma coherent_insert h g base len : coherent h g -> coherent h (vc_insert base len (h base len) g).
Proof.
  intros Hc k Hk. cbn. rewrite aget_set. case_decide; [done |]. by apply Hc.
Qed.

Lemma coherent_clear h g : coherent h (nvkvm_session_vcache_clear g).
Proof.
  intros k Hk. unfold nvkvm_session_vcache_clear. cbn [vcache set_vcache].
  pose proof (sweep_ind (fun i (c : gmap Z vent) => forall j, 0 <= j < i -> vc_valid c.[j] = false)
    (fun k c => c.[k <- invalid c.[k]]) 0 (Z.to_nat NVKVM_VCACHE_N) (vcache g)) as Hs.
  rewrite Hs; [done | intros; lia | | change (Z.of_nat _) with 16; unfold NVKVM_VCACHE_N in Hk; lia].
  intros i c Hi HI j Hj. rewrite aget_set. case_decide; [done |]. apply HI. lia.
Qed.

Lemma vstep_coherent op ops h g :
  torn_down (op :: ops) h -> coherent h g ->
  let '(o, (h', g')) := vstep op (h, g) in
  torn_down ops h' /\ coherent h' g' /\ match o with Some (st, now) => st = 0 -> now = 0 | None => True end.
Proof.
  intros Ht Hc. destruct op as [base len|h'|cmd h']; cbn in Ht |- *.
  - destruct (vc_lookup base len (vcache g)) as [st|] eqn:E.
    + apply vc_lookup_some in E as (k & Hk & Hv & <- & <- & <-). auto.
    + split; [done |]. split; [by apply coherent_insert | done].
  - destruct Ht as [Hk Ht]. split; [done |]. split; [|done]. intros k Hr Hv Hz. by apply Hk, Hc.
  - destruct Ht as [-> Ht]. split; [done |]. split; [apply coherent_clear | done].
Qed.

(** With one UVM file open in the session, commands that follow one another, and
    registrations that end by the five teardown commands only, a range that is reported
    as valid is valid at that moment, whether the answer comes from the driver or from
    the cache. *)
Lemma validated_ranges_live ops h g :
  coherent h g -> torn_down ops h -> Forall (fun a => fst a = 0 -> snd a = 0) (vrun ops (h, g)).
Proof.
  revert h g. induction ops as [|op ops IH]; intros h g Hc Ht; [constructor |].
  pose proof (vstep_coherent op ops h g Ht Hc) as Hs. cbn [vrun]. destruct (vstep op (h, g)) as [o [h' g']].
  destruct Hs as (Ht' & Hc' & Ho). apply Forall_app. split; [|by apply IH]. destruct o as [[st now]|]; by repeat constructor.
Qed.

(** A range that is registered, and no range. *)
Definition ex_one (base len : Z) : Z := if (base =? 0x200000) && (len =? 0x1000) then 0 else 0x1f.
Definition ex_nothing (base len : Z) : Z := 0x1f.

Lemma validated_ranges_live_witness :
  vrun [V_validate 0x200000 0x1000; V_validate 0x200000 0x1000; V_teardown 34 ex_nothing; V_validate 0x200000 0x1000] (ex_one, IoctlSafety.ex_gstate) =
    [(0, 0); (0, 0); (0x1f, 0x1f)] /\
  Forall (fun a => fst a = 0 -> snd a = 0)
    (vrun [V_validate 0x200000 0x1000; V_validate 0x200000 0x1000; V_teardown 34 ex_nothing; V_validate 0x200000 0x1000] (ex_one, IoctlSafety.ex_gstate)).
Proof.
  split; [vm_compute; reflexivity |]. apply validated_ranges_live; [|cbn; auto].
  intros k _ Hv. exfalso. cbn in Hv. unfold aget in Hv. rewrite lookup_empty in Hv. cbn in Hv. discriminate Hv.
Defined.

(** ** Several threads

    The cache is locked for one look or one entry, and not while the call is under way. *)
Inductive vthread_op := R_ask (thread base len : Z) | R_store (thread : Z) | R_clear | R_answers (h : uvm_answer).

Record vthreads := VThreads { rs_host : uvm_answer; rs_state : gstate; rs_pending : gmap Z (Z * Z * Z) }.

Definition vthread_step (op : vthread_op) (s : vthreads) : vthreads :=
  match op with
  | R_ask t base len =>
      match vc_lookup base len (vcache (rs_state s)) with
      | Some _ => s
      | None => VThreads (rs_host s) (rs_state s) (<[t := (base, len, rs_host s base len)]> (rs_pending s))
      end
  | R_store t =>
      match rs_pending s !! t with
      | Some (base, len, st) => VThreads (rs_host s) (vc_insert base len st (rs_state s)) (delete t (rs_pending s))
      | None => s
      end
  | R_clear => VThreads (rs_host s) (nvkvm_session_vcache_clear (rs_state s)) (rs_pending s)
  | R_answers h => VThreads h (rs_state s) (rs_pending s)
  end.

(** [validate_cache_stale]: outside those bounds the cache answers what is no longer so.  An
    error stays cached when the range is registered later, as no command that
    registers one clears the cache.  And with two threads a range that is no more
    stays valid: one thread frees it, another asks for it between the clearing of the
    cache and the end of the registration. *)
Theorem validate_cache_stale :
  vrun [V_validate 0x200000 0x1000; V_other ex_one; V_validate 0x200000 0x1000] (ex_nothing, IoctlSafety.ex_gstate) = [(0x1f, 0x1f); (0x1f, 0)] /\
  let s := foldl (fun s op => vthread_step op s) (VThreads ex_one IoctlSafety.ex_gstate ∅) [R_clear; R_ask 2 0x200000 0x1000; R_answers ex_nothing; R_store 2] in
  vc_lookup 0x200000 0x1000 (vcache (rs_state s)) = Some 0 /\ rs_host s 0x200000 0x1000 = 0x1f.
Proof. split; [|split]; vm_compute; reflexivity. Qed.

(** ** The validation in the code

    [validate_or_forward] with a driver behind it that answers by [h] does what
    [vstep] does. *)
Section validation.
Context (E : ienv) (h : uvm_answer) (h_word : forall base len, 0 <= h base len < 2 ^ 32).

(** The reply to a validation is its parameters with the status filled in. *)
Definition validated (pl : list Z) : list Z :=
  let d := bytes_of pl in read_bytes (put32 d 16 (h (get64 d 0) (get64 d 8))) 0 (Z.of_nat (length pl)).

Context (Hfwd : forall t flags pl al, i_forward E t flags pl al = Fwd 0 0 (validated pl) al).
Context (Hring : forall t pl al, i_ring E t pl al = None).

Lemma fit_read n d : 0 <= n -> fit n (read_bytes d 0 n) = read_bytes d 0 n.
Proof. intros Hn. unfold fit. rewrite take_app_le, firstn_all2 by (rewrite length_read_bytes; lia). done. Qed.

Context (p : nat) (ps : Z) (d : bytes) (s : kst gstate act).
Context (Hp : k_heap s !! p = Some (Buf ps d)) (Hps : 20 <= ps).

Lemma validated_reply : validated (read_bytes d 0 ps) = read_bytes (put32 d 16 (h (get64 d 0) (get64 d 8))) 0 ps.
Proof.
  unfold validated. rewrite length_read_bytes, Z2Nat.id by lia.
  pose proof (IoctlFields.bytes_of_read d ps) as Ha. rewrite !(agree_get64 _ _ _ _ _ Ha) by lia.
  apply (agree_read _ _ 0 ps); [|lia | lia]. unfold put32, put16. by repeat apply agree_put8_both.
Qed.

(** The call as it is forwarded: once, by the queue. *)
Lemma validation_forwarded :
  exists s' d', forward_call E (Some p) ps (unstaged 0) s = (Done 0, s') /\ k_x s' = k_x s /\ k_heap s' !! p = Some (Buf ps d') /\
    agree d' (put32 d 16 (h (get64 d 0) (get64 d 8))) 0 ps.
Proof.
  assert (forall s1, k_heap s1 !! p = Some (Buf ps d) -> rd_opt (Some p) ps s1 = (Done (read_bytes d 0 ps), s1)) as Hrd.
  { intros s1 H1. unfold rd_opt, rdbuf, mthen, at_buf. rewrite H1. cbn [b_len b_data].
    by rewrite (proj2 (Z.leb_le 0 0)), (proj2 (Z.leb_le 0 ps)), (proj2 (Z.leb_le (0 + ps) ps)) by lia. }
  unfold forward_call. cbn [unstaged sg_gpi sg_export sg_import sg_aux sg_size fst]. unfold mthen at 1. rewrite (Hrd s Hp).
  unfold mthen at 1. cbn [rd_opt mdone]. unfold mthen at 1. cbn [tick]. rewrite Hring.
  unfold forward_loop, mthen at 1. change (Z.to_nat NVKVM_MAX_EFAULT_RETRIES) with (S 127). cbn [mloop]. unfold mthen at 1.
  unfold forward_once. unfold mthen at 1. rewrite Hrd by done. unfold mthen at 1. cbn [rd_opt mdone fst]. unfold mthen at 1. cbn [emit].
  unfold mthen at 1. cbn [tick]. rewrite Hfwd. cbn [fw_param fw_aux fw_ret fw_fault].
  rewrite validated_reply. set (d1 := put32 _ _ _). unfold mthen at 1. cbn [wr_opt]. rewrite fit_read by lia.
  unfold wrbuf. unfold mthen at 1. unfold at_buf. cbn [k_heap]. rewrite Hp. cbn [b_len b_data].
  rewrite length_read_bytes, Z2Nat.id by lia.
  rewrite (proj2 (Z.leb_le 0 0)), (proj2 (Z.leb_le 0 ps)), (proj2 (Z.leb_le (0 + ps) ps)) by lia. cbn [andb].
  unfold mthen. cbn. eexists _, _. split; [reflexivity |]. cbn. split; [done |]. rewrite lookup_insert, decide_True by done. split; [done |].
  intros i Hi. replace i with (0 + Z.of_nat (Z.to_nat i)) at 1 by lia.
  rewrite (get8_write_in _ _ _ _ (get8 d1 i)); [done | apply octets_read |]. rewrite lookup_read by lia. do 2 f_equal. lia.
Qed.

Lemma validation_run cmd :
  (forall k, 0 <= vc_status (vcache (k_x s)).[k] < 2 ^ 32) ->
  exists s' d', validate_or_forward E cmd p ps (unstaged 0) s = (Done 0, s') /\ k_heap s' !! p = Some (Buf ps d') /\
    vstep (V_validate (get64 d 0) (get64 d 8)) (h, k_x s) = (Some (get32 d' 16, h (get64 d 0) (get64 d 8)), (h, k_x s')).
Proof.
  intros Hw. unfold validate_or_forward. unfold mthen at 1. rewrite (IoctlFields.run_ld64 s p ps d Hp 0) by lia.
  unfold mthen at 1. rewrite (IoctlFields.run_ld64 s p ps d Hp 8) by lia. unfold mthen at 1. cbn [getx vstep].
  destruct (vc_lookup (get64 d 0) (get64 d 8) (vcache (k_x s))) as [st|] eqn:El.
  - unfold mthen at 1. rewrite (IoctlFields.run_st32 s p ps d Hp 16) by lia. eexists _, _. split; [reflexivity |].
    split; [apply IoctlFields.stored_at |]. apply vc_lookup_some in El as (k & _ & _ & _ & _ & <-).
    rewrite get32_put32, u32_small by apply Hw. done.
  - destruct validation_forwarded as (s1 & d1 & Hf & Hx & H1 & Ha). unfold mthen at 1. rewrite Hf. cbn [Z.eqb].
    assert (get64 d1 0 = get64 d 0 /\ get64 d1 8 = get64 d 8 /\ get32 d1 16 = h (get64 d 0) (get64 d 8)) as (E0 & E8 & E16).
    { rewrite (agree_get64 _ _ _ _ 0 Ha), (agree_get64 _ _ _ _ 8 Ha), (agree_get32 _ _ _ _ 16 Ha) by lia.
      rewrite !get64_put32_ne, get32_put32 by lia. split; [done |]. split; [done |]. apply u32_small, h_word. }
    unfold mthen. rewrite (IoctlFields.run_ld64 s1 p ps d1 H1 0), (IoctlFields.run_ld64 s1 p ps d1 H1 8), (IoctlFields.run_ld32 s1 p ps d1 H1 16) by lia.
    cbn. eexists _, d1. split; [reflexivity |]. split; [done |]. cbn. by rewrite E0, E8, E16, Hx.
Qed.

End validation.

(** [validate_refines]: with a driver that answers by [h], a validation gives the caller
    the status that [vstep] gives and leaves the cache that [vstep] leaves, on a hit
    and on a miss. *)
Theorem validate_refines E h cmd p ps d s :
  (forall base len, 0 <= h base len < 2 ^ 32) ->
  (forall t flags pl al, i_forward E t flags pl al = Fwd 0 0 (validated h pl) al) -> (forall t pl al, i_ring E t pl al = None) ->
  k_heap s !! p = Some (Buf ps d) -> 20 <= ps -> (forall k, 0 <= vc_status (vcache (k_x s)).[k] < 2 ^ 32) ->
  exists s' d', validate_or_forward E cmd p ps (unstaged 0) s = (Done 0, s') /\ k_heap s' !! p = Some (Buf ps d') /\
    vstep (V_validate (get64 d 0) (get64 d 8)) (h, k_x s) = (Some (get32 d' 16, h (get64 d 0) (get64 d 8)), (h, k_x s')).
Proof. intros. by apply validation_run. Qed.

Definition ex_driver : ienv :=
  let E := IoctlSafety.ex_env (fun _ _ => 0) in
  IEnv (i_user E) (i_fget E) (i_pids E) (i_migrate E) (i_ring E) (fun _ _ pl al => Fwd 0 0 (validated ex_one pl) al) (i_resolve E).

Definition ex_range : bytes := put64 (put64 ∅ 0 0x200000) 8 0x1000.

Lemma validate_refines_witness :
  get64 ex_range 0 = 0x200000 /\
  exists s' d', validate_or_forward ex_driver 72 0 24 (unstaged 0) (set_heap {[ 0%nat := Buf 24 ex_range ]} IoctlSafety.ex_kst) = (Done 0, s') /\
    k_heap s' !! 0%nat = Some (Buf 24 d') /\
    vstep (V_validate (get64 ex_range 0) (get64 ex_range 8)) (ex_one, IoctlSafety.ex_gstate) =
      (Some (get32 d' 16, ex_one (get64 ex_range 0) (get64 ex_range 8)), (ex_one, k_x s')).
Proof.
  split; [vm_compute; reflexivity |].
  apply (validate_refines ex_driver ex_one 72 0 24 ex_range (set_heap {[ 0%nat := Buf 24 ex_range ]} IoctlSafety.ex_kst)).
  - intros base len. unfold ex_one. destruct (_ && _); lia.
  - reflexivity.
  - reflexivity.
  - reflexivity.
  - lia.
  - intros k. cbn. unfold aget. rewrite lookup_empty. cbn. lia.
Defined.
End IoctlCalls.
