(* ===== verification/AbiAgreement.v ===== *)
(** * The layouts the three programs use

    The guest's module lays out the driver's structures with the declarations of
    src/abi; the VMM and the stub have the same sizes and offsets as numbers.  Here
    the numbers are compared with the declarations. *)

From S2P Require Import Prelude Bytes Abi Allowlists UvmVa HandleTable IoctlGate StubIoctl Layout GuestIoctl IoctlFields.
From stdpp Require Import strings.
Local Open Scope string_scope.
Local Open Scope list_scope.
Local Open Scope Z_scope.
Local Open Scope nv_scope.

Module AbiAgreement.
Import Allow Layout StubIoctl.

(** The structure behind a front-end number, for those that have an RM status; the
    layout of 0x57 comes from the profile. *)
Definition frontend_struct (nr size : Z) : option ctype :=
  if nr =? 0x27 then Some nv_ioctl_nvos02_parameters_with_fd
  else if nr =? 0x29 then Some nvos00_parameters
  else if nr =? 0x2a then Some nvos54_parameters
  else if nr =? 0x2b then Some (if size =? sizeof nvos64_parameters then nvos64_parameters else nvos21_parameters)
  else if nr =? 0x34 then Some nvos55_parameters
  else if nr =? 0x35 then Some nvos57_parameters
  else if nr =? 0x41 then Some nv_ioctl_idle_channels
  else if nr =? 0x4a then Some nvos32_parameters
  else if nr =? 0x4e then Some nv_ioctl_nvos33_parameters_with_fd
  else if nr =? 0x4f then Some nv_ioctl_nvos34_parameters
  else if nr =? 0x54 then Some nv_ioctl_alloc_context_dma2
  else if nr =? 0x58 then Some nvos47_parameters
  else if nr =? 0x5e then Some nvos56_parameters
  else if nr =? 0x70 then Some nv_ioctl_export_to_dmabuf_fd
  else if nr =? 0xce then Some nv_ioctl_alloc_os_event
  else if nr =? 0xcf then Some nv_ioctl_free_os_event
  else None.

(** Those whose status the stub takes from another field: the short RM_ALLOC, RM_SHARE,
    IDLE_CHANNELS, ALLOC_CONTEXT_DMA2, UPDATE_DEVICE_MAPPING_INFO and
    EXPORT_TO_DMABUF_FD. *)
Definition misread (nr size : Z) : bool :=
  listed nr [0x35; 0x41; 0x54; 0x5e; 0x70] || (nr =? 0x2b) && negb (size =? sizeof nvos64_parameters).

(** The guest's size of a UVM command is the one the VMM insists on. *)
Lemma uvm_sizes_agree nv P cmd d n :
  P ∈ Abi.nvkvm_abi_profiles -> Gate.abi nv = Some P -> UvmVa.nvkvm_uvm_lookup cmd = Some d -> UvmVa.d_min_size d <> 0 ->
  GuestIoctl.nvkvm_ioctl_param_size P cmd = Some n -> n = Gate.uvm_min_size nv cmd d.
Proof.
  intros HP Ha Hd Hm Hn. unfold Gate.uvm_min_size. rewrite Ha. unfold UvmVa.nvkvm_uvm_lookup, UvmVa.nvkvm_uvm_schema in Hd.
  repeat (cbn [UvmVa.schema_find UvmVa.d_cmd] in Hd; match type of Hd with (if ?k =? cmd then _ else _) = _ => destruct (Z.eqb_spec k cmd) as [<-|_] end).
  all: try discriminate Hd; injection Hd as <-; try (by destruct Hm).
  all: try (by vm_compute in Hn; injection Hn as <-).
  all: unfold GuestIoctl.nvkvm_ioctl_param_size in Hn; cbn in Hn; injection Hn as <-; done.
Qed.

(** The stub finds a descriptor where the guest put it. *)
Lemma fd_offsets_agree j :
  let P := Abi.nvkvm_abi_by_id (abi_profile j) in
  4 <= param_size j -> IoctlFields.fd_field P (cmd j) = match uvm_fd_off j with Some o => Some o | None => fe_fd_off j end.
Proof.
  intros P Hs. unfold IoctlFields.fd_field, uvm_fd_off, fe_fd_off, job_type, job_nr. rewrite (proj2 (Z.leb_le _ _) Hs). layout_eval. fold P.
  repeat (case_match; try done); nv_bool; lia.
Qed.

(** Where the stub reads the status. *)
Lemma status_offsets P j T :
  ioc_type (cmd j) = type_F -> GuestIoctl.fe_param_size P (cmd j) = Some (param_size j) -> frontend_struct (job_nr j) (param_size j) = Some T ->
  sizeof T = param_size j /\ (fe_status_off j = Some (offsetof T "status") <-> misread (job_nr j) (param_size j) = false).
Proof.
  intros Ht Hs HT. unfold frontend_struct in HT. unfold fe_status_off, misread.
  repeat match type of HT with (if ?c =? ?k then Some ?t else _) = _ => destruct (Z.eqb_spec c k) as [Hn|_]; [unfold job_nr in Hn |- *; GuestIoctl.fe_size_of Hs Hn; rewrite Hn |] end.
  4:{ destruct (_ || _) eqn:E in Hs; [|done]. injection Hs as Hs. rewrite Hs in E. injection HT as <-.
      apply orb_true_iff in E as [E%Z.eqb_eq|E%Z.eqb_eq]; rewrite E; (split; [by vm_compute | vm_compute; split; congruence]). }
  all: try done; injection HT as <-; injection Hs as <-; (split; [by vm_compute | vm_compute; split; congruence]).
Qed.

(** C25. [layouts_agree]: for a command of at least four bytes that the guest sends with the
    size it has for it, under the profile that both sides selected.  A UVM command has
    exactly the size the VMM insists on where it insists on one.  The stub takes a
    descriptor from the field the guest put it into, and takes none where there is
    none.  A front-end command with a structure in [frontend_struct] (16 numbers, RM_ALLOC
    in two forms; 0x57, whose layout comes from the profile, is left out) is as long as
    that structure, and the stub reads the status from its status field exactly when the
    command is not one of the six in [misread]. *)
Theorem layouts_agree nv j (P := Abi.nvkvm_abi_by_id (abi_profile j)) :
  P ∈ Abi.nvkvm_abi_profiles -> Gate.abi nv = Some P ->
  GuestIoctl.nvkvm_ioctl_param_size P (cmd j) = Some (param_size j) -> 4 <= param_size j ->
  (forall d, UvmVa.nvkvm_uvm_lookup (cmd j) = Some d -> UvmVa.d_min_size d <> 0 -> param_size j = Gate.uvm_min_size nv (cmd j) d) /\
  IoctlFields.fd_field P (cmd j) = match uvm_fd_off j with Some o => Some o | None => fe_fd_off j end /\
  (forall T, ioc_type (cmd j) = type_F -> frontend_struct (job_nr j) (param_size j) = Some T ->
     sizeof T = param_size j /\ (fe_status_off j = Some (offsetof T "status") <-> misread (job_nr j) (param_size j) = false)).
Proof.
  intros HP Ha Hs H4. split; [|split].
  - intros d Hd Hm. by apply (uvm_sizes_agree nv P).
  - by apply fd_offsets_agree.
  - intros T Ht HT. apply (status_offsets P); [done | by rewrite <- GuestIoctl.fe_size | done].
Qed.

Definition ex_job (cmd size : Z) : ioctl_job := Job 1 2 cmd Abi.NVKVM_ABI_570 ∅ size ∅ 0.
Definition ex_device : Gate.device := Gate.Dev HTab.nvkvm_handle_table_init UvmVa.va_init [] true (Some (Abi.nvkvm_abi_by_id Abi.NVKVM_ABI_570)).

(** RM_SHARE, of 16 bytes. *)
Lemma layouts_agree_witness :
  let j := ex_job 0xc0104635 16 in
  let P := Abi.nvkvm_abi_by_id (abi_profile j) in
  GuestIoctl.nvkvm_ioctl_param_size P (cmd j) = Some (param_size j) /\ fe_status_off j <> Some (offsetof nvos57_parameters "status").
Proof.
  cbv zeta. split; [vm_compute; reflexivity |].
  destruct (layouts_agree ex_device (ex_job 0xc0104635 16)) as (_ & _ & H).
  - vm_compute. repeat (apply elem_of_cons; first [left; reflexivity | right]).
  - reflexivity.
  - vm_compute. reflexivity.
  - vm_compute. discriminate.
  - destruct (H nvos57_parameters eq_refl eq_refl) as [_ [H' _]]. intros E. specialize (H' E). vm_compute in H'. discriminate.
Defined.

End AbiAgreement.
