(* ===== verification/GuestMmap.v ===== *)
(** * Memory of the guest process on the host

    src/guest/nvkvm_mmap.c: mapping device memory into a process, and moving pages of
    a process to memory that the host shares with the isolate, so that the driver
    finds them at the same addresses.  The state is the one of a process and of one
    open file: page frames with the references the module holds on them, the page
    table, the memory handles of the host with the pages written to them, the guest
    addresses at which they appear, and the module's own lists.  The kernel's and the
    host's answers are an environment that may differ at every step. *)

From S2P Require Import Prelude Bytes HandleTable Kmem.
Local Open Scope Z_scope.
Local Open Scope nv_scope.

Module GuestMmap.
Import Kmem.

Definition PAGE_SIZE : Z := 4096.
Definition PROT_READ : Z := 1.
Definition PROT_WRITE : Z := 2.
Definition VM_READ : Z := 0x1.
Definition VM_WRITE : Z := 0x2.
Definition VM_SHARED : Z := 0x8.
Definition VM_MAYWRITE : Z := 0x20.
Definition VM_PFNMAP : Z := 0x400.
Definition VM_IO : Z := 0x4000.
Definition VM_DONTEXPAND : Z := 0x40000.
Definition VM_DONTDUMP : Z := 0x4000000.
Definition E2BIG : Z := 7.

(** What a page of the process is: one of its own frames, or a page of the window. *)
Inductive home := Frame (f : Z) | Host (g : Z).

(** [struct nvkvm_cpu_page], [cp_page]: the pinned frame of a page that was moved alone. *)
Record cpu_page := CPage { cp_page : option Z; cp_gva : Z; cp_gpa : Z; cp_handle : Z; cp_token : Z; cp_prot : Z }.

(** [struct nvkvm_mmap_region]. *)
Record guest_region := MRegion { mr_token : Z; mr_handle : Z; mr_gpa : Z; mr_length : Z; mr_offset : Z }.

(** The contents of a page are one value. *)
Record mmst := MMSt {
  mm_frames : gmap Z Z;
  mm_pins : gmap Z Z;
  mm_pt : gmap Z home;
  mm_flags : Z;
  mm_fds : gmap Z (gmap Z Z);
  mm_iso : gset Z;
  mm_gpa : gmap Z (Z * Z);
  mm_maps : gmap Z (Z * Z);
  mm_slots : Z;
  mm_cpu : list cpu_page;
  mm_regions : list guest_region
}.

(** The answers of the kernel and of the host. *)
Record menv := MEnv {
  n_alloc : nat -> bool;
  n_gup : nat -> Z -> Z -> Z;
  n_vma : nat -> Z -> option (Z * Z);
  n_remap : nat -> Z;
  n_slot : nat -> option Z;
  n_slot_ok : nat -> bool;
  n_open : nat -> Z;
  n_write : nat -> Z;
  n_read : nat -> Z;
  n_copy : nat -> Z;
  n_mmap : nat -> Z * Z;
  n_region : nat -> Z -> option guest_region
}.

Inductive mact := A_vcache_clear | A_dirty (f : Z) | A_munmap (token : Z) | A_mmap (handle gva len : Z) | A_closed (handle : Z).

Abbreviation PM := (M mmst mact).

(** The open file and the device, as far as they do not change. *)
Record mctx := MCtx {
  mc_handle : Z;
  mc_dev : Z;
  mc_isolate : Z;
  mc_slot_size : Z;
  mc_window : Z;
  mc_window_len : Z
}.

Section mmap.
Context (E : menv) (ctx : mctx).

Definition upd (f : mmst -> mmst) : PM unit := do x <- getx ;;; putx (f x).

(** ** Fields *)

Definition set_pins (p : gmap Z Z) (x : mmst) : mmst :=
  MMSt (mm_frames x) p (mm_pt x) (mm_flags x) (mm_fds x) (mm_iso x) (mm_gpa x) (mm_maps x) (mm_slots x) (mm_cpu x) (mm_regions x).
Definition set_frames (f : gmap Z Z) (x : mmst) : mmst :=
  MMSt f (mm_pins x) (mm_pt x) (mm_flags x) (mm_fds x) (mm_iso x) (mm_gpa x) (mm_maps x) (mm_slots x) (mm_cpu x) (mm_regions x).
Definition set_pt (p : gmap Z home) (x : mmst) : mmst :=
  MMSt (mm_frames x) (mm_pins x) p (mm_flags x) (mm_fds x) (mm_iso x) (mm_gpa x) (mm_maps x) (mm_slots x) (mm_cpu x) (mm_regions x).
Definition set_vmflags (v : Z) (x : mmst) : mmst :=
  MMSt (mm_frames x) (mm_pins x) (mm_pt x) v (mm_fds x) (mm_iso x) (mm_gpa x) (mm_maps x) (mm_slots x) (mm_cpu x) (mm_regions x).
Definition set_fds (v : gmap Z (gmap Z Z)) (x : mmst) : mmst :=
  MMSt (mm_frames x) (mm_pins x) (mm_pt x) (mm_flags x) v (mm_iso x) (mm_gpa x) (mm_maps x) (mm_slots x) (mm_cpu x) (mm_regions x).
Definition set_iso (v : gset Z) (x : mmst) : mmst :=
  MMSt (mm_frames x) (mm_pins x) (mm_pt x) (mm_flags x) (mm_fds x) v (mm_gpa x) (mm_maps x) (mm_slots x) (mm_cpu x) (mm_regions x).
Definition set_maps (g : gmap Z (Z * Z)) (m : gmap Z (Z * Z)) (x : mmst) : mmst :=
  MMSt (mm_frames x) (mm_pins x) (mm_pt x) (mm_flags x) (mm_fds x) (mm_iso x) g m (mm_slots x) (mm_cpu x) (mm_regions x).
Definition set_slots (v : Z) (x : mmst) : mmst :=
  MMSt (mm_frames x) (mm_pins x) (mm_pt x) (mm_flags x) (mm_fds x) (mm_iso x) (mm_gpa x) (mm_maps x) v (mm_cpu x) (mm_regions x).
Definition set_cpu (v : list cpu_page) (x : mmst) : mmst :=
  MMSt (mm_frames x) (mm_pins x) (mm_pt x) (mm_flags x) (mm_fds x) (mm_iso x) (mm_gpa x) (mm_maps x) (mm_slots x) v (mm_regions x).
Definition set_regions (v : list guest_region) (x : mmst) : mmst :=
  MMSt (mm_frames x) (mm_pins x) (mm_pt x) (mm_flags x) (mm_fds x) (mm_iso x) (mm_gpa x) (mm_maps x) (mm_slots x) (mm_cpu x) v.

(** ** Calls of the kernel *)

(** The pages from [a] on that the process has in frames of its own. *)
Fixpoint frame_run (pt : gmap Z home) (a : Z) (n : nat) : list Z :=
  match n with
  | O => []
  | S n' => match pt !! a with Some (Frame f) => f :: frame_run pt (a + 1) n' | _ => [] end
  end.

Definition pin_all (l : list Z) (p : gmap Z Z) : gmap Z Z := foldl (fun p f => p.[f <- p.[f] + 1]) p l.
Definition unpin_all (l : list Z) (p : gmap Z Z) : gmap Z Z := foldl (fun p f => p.[f <- p.[f] - 1]) p l.

(** [get_user_pages_fast]: a number of pages from the first on, or an error. *)
Definition get_user_pages (addr n : Z) : PM (Z * list Z) :=
  do t <- tick ;;;
  do x <- getx ;;;
  let c := n_gup E t addr n in
  if c <=? 0 then mdone (c, [])
  else
    let l := frame_run (mm_pt x) (addr / PAGE_SIZE) (Z.to_nat (Z.min c n)) in
    upd (fun x => set_pins (pin_all l (mm_pins x)) x) ;;;
    mdone (if Z.of_nat (length l) =? 0 then - EFAULT else Z.of_nat (length l), l).

Definition put_pages (l : list Z) : PM unit := upd (fun x => set_pins (unpin_all l (mm_pins x)) x).

(** The contents of the frame at [i] of an array of pages. *)
Definition page_at (pages : list Z) (i : Z) : PM Z :=
  do x <- getx ;;;
  match (if 0 <=? i then pages !! Z.to_nat i else None) ≫= (fun f => mm_frames x !! f) with
  | Some c => mdone c
  | None => mfault
  end.

Definition alloc_node : PM bool := do t <- tick ;;; mdone (n_alloc E t).
Definition find_vma (addr : Z) : PM (option (Z * Z)) := do t <- tick ;;; mdone (n_vma E t addr).

Definition is_cow_mapping (flags : Z) : bool := Z.land flags (Z.lor VM_SHARED VM_MAYWRITE) =? VM_MAYWRITE.

Definition zap_page_range (a n : Z) : PM unit :=
  upd (fun x => set_pt (foldl (fun p i => delete (a + i) p) (mm_pt x) (seqZ 0 n)) x).

(** [remap_pfn_range] of [n] pages at page [a] of a mapping, to the page [g] of the
    window; of a private mapping only as a whole. *)
Definition remap_pfn_range (vma : Z * Z) (a g n : Z) : PM Z :=
  do t <- tick ;;;
  do x <- getx ;;;
  let r := if is_cow_mapping (mm_flags x) && negb ((fst vma =? a * PAGE_SIZE) && (snd vma =? (a + n) * PAGE_SIZE)) then - EINVAL
           else n_remap E t in
  if r =? 0 then upd (fun x => set_pt (foldl (fun p i => <[a + i := Host (g + i)]> p) (mm_pt x) (seqZ 0 n)) x) ;;; mdone 0
  else mdone r.

(** ** Calls of the transport *)

Definition slot_alloc : PM bool :=
  do t <- tick ;;;
  match n_slot E t with
  | Some _ => upd (fun x => set_slots (mm_slots x + 1) x) ;;; mdone true
  | None => mdone false
  end.

Definition slot_free : PM unit := upd (fun x => set_slots (mm_slots x - 1) x).
Definition slot_addr : PM bool := do t <- tick ;;; mdone (n_slot_ok E t).

(** A new memory handle of [n] pages, all zero. *)
Definition open_memory_handle (n : Z) : PM (Z * Z) :=
  do t <- tick ;;;
  do x <- getx ;;;
  let r := n_open E t in
  if r =? 0 then
    let h := fresh (dom (mm_fds x)) in
    putx (set_fds (<[h := list_to_map ((fun i => (i, 0)) <$> seqZ 0 n)]> (mm_fds x)) x) ;;; mdone (0, h)
  else mdone (r, 0).

(** The pages [l] written to a handle from its page [o] on. *)
Definition write_pages (o : Z) (l : list Z) (d : gmap Z Z) : gmap Z Z :=
  foldl (fun d e => <[o + fst e := snd e]> d) d (zip (seqZ 0 (Z.of_nat (length l))) l).

Definition write_memory_handle (h o : Z) (l : list Z) : PM Z :=
  do t <- tick ;;;
  let r := n_write E t in
  if r =? 0 then upd (fun x => set_fds (alter (write_pages o l) h (mm_fds x)) x) ;;; mdone 0 else mdone r.

Definition copy_handle_to_isolate (h : Z) : PM Z :=
  do t <- tick ;;;
  let r := n_copy E t in
  if r =? 0 then upd (fun x => set_iso ({[h]} ∪ mm_iso x) x) ;;; mdone 0 else mdone r.

(** Whether none of [n] pages from [g] on is in use; the host maps only at such. *)
Definition gpa_free (g n : Z) (m : gmap Z (Z * Z)) : bool :=
  forallb (fun i => match m !! (g + i) with None => true | Some _ => false end) (seqZ 0 n).

(** [n] pages from page [o] of the handle on appear at page [g], and disappear. *)
Definition map_token (h o g n token : Z) (x : mmst) : mmst :=
  set_maps (foldl (fun m i => <[g + i := (h, o + i)]> m) (mm_gpa x) (seqZ 0 n)) (<[token := (g, n)]> (mm_maps x)) x.

Definition unmap_token (token : Z) (x : mmst) : mmst :=
  match mm_maps x !! token with
  | Some (g, n) => set_maps (foldl (fun m i => delete (g + i) m) (mm_gpa x) (seqZ 0 n)) (delete token (mm_maps x)) x
  | None => x
  end.

(** The answer, the guest address and the token of a mapping. *)
Definition mmap_on_isolate (h gva o n : Z) : PM (Z * (Z * Z)) :=
  do t <- tick ;;;
  do x <- getx ;;;
  let '(r, gpa) := n_mmap E t in
  let g := gpa / PAGE_SIZE in
  if negb (r =? 0) then mdone (r, (0, 0))
  else if negb (gpa_free g n (mm_gpa x)) then mdone (- ENOMEM, (0, 0))
  else
    let token := fresh (dom (mm_maps x)) in
    putx (map_token h o g n token x) ;;;
    emit (EvDo (A_mmap h gva (n * PAGE_SIZE))) ;;;
    mdone (0, (gpa, token)).

Definition munmap_on_isolate (token : Z) : PM unit :=
  emit (EvDo (A_munmap token)) ;;;
  upd (unmap_token token).

Definition close_handle_on_isolate (h : Z) : PM unit := upd (fun x => set_iso (mm_iso x ∖ {[h]}) x).
Definition close_handle (h : Z) : PM unit :=
  emit (EvDo (A_closed h)) ;;; upd (fun x => set_fds (delete h (mm_fds x)) x).

(** ** Single pages *)

Definition nvkvm_gpa_in_mmap_window (gpa len : Z) : bool :=
  if (mc_window ctx =? 0) || (mc_window_len ctx =? 0) then false
  else if gpa <? mc_window ctx then false
  else if u64 (mc_window ctx + mc_window_len ctx) <? u64 (gpa + len) then false
  else if u64 (gpa + len) <? gpa then false
  else true.

Definition page_tracked (gva : Z) (l : list cpu_page) : bool := existsb (fun c => cp_gva c =? gva) l.
Definition track (c : cpu_page) : PM unit := upd (fun x => set_cpu (mm_cpu x ++ [c]) x).

Definition cpu_page_migrate (page_gva prot : Z) : PM unit :=
  do x <- getx ;;;
  if page_tracked page_gva (mm_cpu x) then mret 0
  else
    do g <- get_user_pages page_gva 1 ;;;
    match snd g with
    | [f] =>
        let err_page r := put_pages [f] ;;; mret r in
        let err_slot r := slot_free ;;; err_page r in
        do ok <- slot_alloc ;;;
        if negb ok then err_page (- ENOSPC)
        else
          do ok <- slot_addr ;;;
          if negb ok || (mc_slot_size ctx <? PAGE_SIZE) then err_slot (- ENOMEM)
          else
            do c <- page_at [f] 0 ;;;
            do o <- open_memory_handle 1 ;;;
            let h := snd o in
            if negb (fst o =? 0) then err_slot (fst o)
            else
              do r <- write_memory_handle h 0 [c] ;;;
              if negb (r =? 0) then close_handle h ;;; err_slot r
              else
                slot_free ;;;
                do r <- copy_handle_to_isolate h ;;;
                if negb (r =? 0) then close_handle h ;;; err_page r
                else
                  do m <- mmap_on_isolate h page_gva 0 1 ;;;
                  if negb (fst m =? 0) then close_handle h ;;; err_page (fst m)
                  else
                    do node <- alloc_node ;;;
                    (if node : bool then track (CPage (Some f) page_gva (fst (snd m)) h (snd (snd m)) prot) else mdone tt) ;;;
                    mret 0
    | _ => mret (if fst g <? 0 then fst g else - EFAULT)
    end.

Definition nvkvm_cpu_page_migrate (page_gva prot : Z) : PM Z := mcall (cpu_page_migrate page_gva prot).

Definition vma_prot (flags : Z) : Z :=
  Z.lor (if Z.land flags VM_READ =? 0 then 0 else PROT_READ) (if Z.land flags VM_WRITE =? 0 then 0 else PROT_WRITE).

Definition nvkvm_efault_resolve (fault_addr : Z) : PM Z :=
  if mc_isolate ctx =? 0 then mdone (- ENOENT)
  else
    do v <- find_vma fault_addr ;;;
    match v with
    | None => mdone (- EFAULT)
    | Some (vs, ve) =>
        if fault_addr <? vs then mdone (- EFAULT)
        else
          do t <- tick ;;;
          do x <- getx ;;;
          match n_region E t vs with
          | Some r =>
              if mr_handle r =? 0 then mdone (- ENOENT)
              else
                do m <- mmap_on_isolate (mr_handle r) vs (mr_offset r / PAGE_SIZE) ((ve - vs) / PAGE_SIZE) ;;;
                mdone (fst m)
          | None => nvkvm_cpu_page_migrate (mask_down fault_addr PAGE_SIZE) (vma_prot (mm_flags x))
          end
    end.

(** ** Writing back *)

Definition NVKVM_WB_BATCH : Z := 64.

(** The frames to write back, with their handles. *)
Fixpoint wb_batch (n : Z) (l : list cpu_page) : list (Z * Z) :=
  match l with
  | [] => []
  | c :: l' =>
      match cp_page c with
      | Some f => if (Z.land (cp_prot c) PROT_WRITE =? 0) || (NVKVM_WB_BATCH <=? n) then wb_batch n l' else (cp_handle c, f) :: wb_batch (n + 1) l'
      | None => wb_batch n l'
      end
  end.

Definition read_memory_handle (h : Z) : PM (Z * Z) :=
  do t <- tick ;;;
  do x <- getx ;;;
  mdone (n_read E t, default 0 (mm_fds x !! h ≫= (fun d => d !! 0))).

Definition wb_one (h f : Z) : PM unit :=
  do ok <- slot_alloc ;;;
  (if ok : bool then
     do r <- read_memory_handle h ;;;
     (if fst r =? 0 then
        do ok <- slot_addr ;;;
        if ok : bool then upd (fun x => set_frames (<[f := snd r]> (mm_frames x)) x) ;;; emit (EvDo (A_dirty f)) else mdone tt
      else mdone tt) ;;;
     slot_free
   else mdone tt) ;;;
  put_pages [f].

Fixpoint wb_each (l : list (Z * Z)) : PM unit :=
  match l with [] => mdone tt | (h, f) :: l' => wb_one h f ;;; wb_each l' end.

Definition nvkvm_cpu_pages_writeback : PM unit :=
  do x <- getx ;;;
  let batch := wb_batch 0 (mm_cpu x) in
  upd (fun x => set_pins (pin_all (snd <$> batch) (mm_pins x)) x) ;;;
  wb_each batch.

Definition free_one (c : cpu_page) : PM unit :=
  (if negb (mc_isolate ctx =? 0) then munmap_on_isolate (cp_token c) ;;; close_handle_on_isolate (cp_handle c) else mdone tt) ;;;
  close_handle (cp_handle c) ;;;
  match cp_page c with Some f => put_pages [f] | None => mdone tt end.

Fixpoint free_each (l : list cpu_page) : PM unit :=
  match l with [] => mdone tt | c :: l' => free_one c ;;; free_each l' end.

Definition nvkvm_cpu_pages_free : PM unit :=
  do x <- getx ;;;
  upd (set_cpu []) ;;;
  free_each (mm_cpu x).

(** ** Mapping device memory *)

Definition PASSTHROUGH : Z := Z.lor VM_PFNMAP (Z.lor VM_IO (Z.lor VM_DONTEXPAND VM_DONTDUMP)).
Definition add_flags : PM unit := upd (fun x => set_vmflags (Z.lor (mm_flags x) PASSTHROUGH) x).

(** [vs], [ve]: the mapping; [offset]: of the file, in bytes. *)
Definition mmap_request_isolate (vs ve offset : Z) : PM unit :=
  let len := ve - vs in
  do m <- mmap_on_isolate (mc_handle ctx) vs (offset / PAGE_SIZE) (len / PAGE_SIZE) ;;;
  if negb (fst m =? 0) then mret (fst m)
  else
    let gpa := fst (snd m) in
    let token := snd (snd m) in
    if negb (nvkvm_gpa_in_mmap_window gpa len) then mret (- EIO)
    else
      add_flags ;;;
      do r <- remap_pfn_range (vs, ve) (vs / PAGE_SIZE) (gpa / PAGE_SIZE) (len / PAGE_SIZE) ;;;
      if negb (r =? 0) then
        do ok <- alloc_node ;;;
        (if ok : bool then munmap_on_isolate token else mdone tt) ;;; mret r
      else
        do ok <- alloc_node ;;;
        (if ok : bool then upd (fun x => set_regions (mm_regions x ++ [MRegion token (mc_handle ctx) gpa len offset]) x) else mdone tt) ;;;
        mret 0.

Definition nvkvm_mmap_request_isolate (vs ve offset : Z) : PM Z := mcall (mmap_request_isolate vs ve offset).

Definition nvkvm_mmap_request (vs ve offset : Z) : PM Z :=
  let len := ve - vs in
  if (len =? 0) || negb (len mod PAGE_SIZE =? 0) then mdone (- EINVAL)
  else if 2 ^ 30 <? len then mdone (- EINVAL)
  else if (mc_handle ctx =? 0) || (mc_isolate ctx =? 0) then mdone (- EBADF)
  else nvkvm_mmap_request_isolate vs ve offset.

Fixpoint release_each (l : list guest_region) : PM unit :=
  match l with
  | [] => mdone tt
  | r :: l' =>
      (if negb (mr_handle r =? 0) && negb (mc_isolate ctx =? 0) then
         do ok <- alloc_node ;;; if ok : bool then munmap_on_isolate (mr_token r) else mdone tt
       else mdone tt) ;;;
      release_each l'
  end.

Definition nvkvm_mmap_release_fd : PM unit :=
  do x <- getx ;;;
  upd (set_regions []) ;;;
  release_each (mm_regions x).

(** ** Moving a range *)

Definition NVKVM_MIG_CHUNK : Z := 2 ^ 21.
Definition NVKVM_MIG_MAX_RANGE : Z := 2 ^ 31.

(** Rounds of a loop over [n] bytes in steps of [k]. *)
Definition rounds (n k : Z) : nat := Z.to_nat ((n + k - 1) / k).

(** The pages of the range, pinned until all are there: the error and the frames. *)
Fixpoint pin_loop (fuel : nat) (start npages : Z) (got : list Z) : PM (option (Z * list Z)) :=
  if Z.of_nat (length got) <? npages then
    match fuel with
    | O => mdone None
    | S fuel' =>
        do g <- get_user_pages (start + Z.of_nat (length got) * PAGE_SIZE) (npages - Z.of_nat (length got)) ;;;
        if fst g <=? 0 then mdone (Some (if fst g <? 0 then fst g else - EFAULT, got))
        else pin_loop fuel' start npages (got ++ snd g)
    end
  else mdone (Some (0, got)).

(** One page after the other into a slot. *)
Definition fill_slot (pages : list Z) (off this : Z) : PM (list Z) :=
  mloop (fun i l =>
    if mc_slot_size ctx <? i * PAGE_SIZE + PAGE_SIZE then mfault
    else do c <- page_at pages ((off + i * PAGE_SIZE) / PAGE_SIZE) ;;; mdone (true, l ++ [c])) (rounds this PAGE_SIZE) 0 [].

Definition upload_slot (pages : list Z) (h coff clen j : Z) : PM Z :=
  let uoff := j * mc_slot_size ctx in
  let this := Z.min (mc_slot_size ctx) (clen - uoff) in
  do ok <- slot_alloc ;;;
  if negb ok then mdone (- ENOSPC)
  else
    do ok <- slot_addr ;;;
    if negb ok then slot_free ;;; mdone (- ENOMEM)
    else
      do l <- fill_slot pages (coff + uoff) this ;;;
      do r <- write_memory_handle h (uoff / PAGE_SIZE) l ;;;
      slot_free ;;; mdone r.

Definition upload (pages : list Z) (h coff clen : Z) : PM Z :=
  mloop (fun j _ => do r <- upload_slot pages h coff clen j ;;; mdone (r =? 0, r)) (rounds clen (mc_slot_size ctx)) 0 0.

(** The page table turned to the host's pages. *)
Definition swap_chunk (cbase gpa clen : Z) : PM Z :=
  do v <- find_vma cbase ;;;
  match v with
  | Some (vs, ve) =>
      if (cbase <? vs) || (ve <? cbase + clen) then mdone (- EFAULT)
      else
        zap_page_range (cbase / PAGE_SIZE) (clen / PAGE_SIZE) ;;;
        remap_pfn_range (vs, ve) (cbase / PAGE_SIZE) (gpa / PAGE_SIZE) (clen / PAGE_SIZE)
  | None => mdone (- EFAULT)
  end.

Definition chunk_fail_mapped (h token r : Z) : PM Z :=
  munmap_on_isolate token ;;; close_handle_on_isolate h ;;; close_handle h ;;; mdone r.

(** A filled handle mapped, the page table turned to it, the chunk recorded, and its
    frames released. *)
Definition map_chunk (pages : list Z) (h coff clen cbase prot : Z) : PM Z :=
  do m <- mmap_on_isolate h cbase 0 (clen / PAGE_SIZE) ;;;
  let gpa := fst (snd m) in
  let token := snd (snd m) in
  if negb (fst m =? 0) then close_handle_on_isolate h ;;; close_handle h ;;; mdone (fst m)
  else if negb (nvkvm_gpa_in_mmap_window gpa clen) then chunk_fail_mapped h token (- EIO)
  else
    do r <- swap_chunk cbase gpa clen ;;;
    if negb (r =? 0) then chunk_fail_mapped h token r
    else
      do node <- alloc_node ;;;
      (if node : bool then track (CPage None cbase gpa h token prot) else mdone tt) ;;;
      put_pages (take (Z.to_nat (clen / PAGE_SIZE)) (drop (Z.to_nat (coff / PAGE_SIZE)) pages)) ;;;
      mdone 0.

Definition migrate_chunk (pages : list Z) (start range_len prot i : Z) : PM Z :=
  let coff := i * NVKVM_MIG_CHUNK in
  let clen := Z.min NVKVM_MIG_CHUNK (range_len - coff) in
  do o <- open_memory_handle (clen / PAGE_SIZE) ;;;
  let h := snd o in
  if negb (fst o =? 0) then mdone (fst o)
  else
    do r <- upload pages h coff clen ;;;
    if negb (r =? 0) then close_handle h ;;; mdone r
    else
      do r <- copy_handle_to_isolate h ;;;
      if negb (r =? 0) then close_handle h ;;; mdone r
      else map_chunk pages h coff clen (start + coff) prot.

(** All chunks, in order: the result and how many pages are done. *)
Definition migrate_chunks (pages : list Z) (start range_len prot : Z) : PM (Z * Z) :=
  mloop (fun i st =>
    do r <- migrate_chunk pages start range_len prot i ;;;
    mdone (if r =? 0 then (true, (0, Z.min ((i + 1) * NVKVM_MIG_CHUNK) range_len / PAGE_SIZE)) else (false, (r, snd st))))
    (rounds range_len NVKVM_MIG_CHUNK) 0 (0, 0).

(** The one conversion of the mapping: passed through, and no longer private. *)
Definition convert_vma (start end_ : Z) : PM Z :=
  do v <- find_vma start ;;;
  match v with
  | Some (vs, ve) =>
      if (start <? vs) || (ve <? end_) then mdone (- EFAULT)
      else
        add_flags ;;;
        upd (fun x => if is_cow_mapping (mm_flags x) then set_vmflags (Z.ldiff (mm_flags x) VM_MAYWRITE) x else x) ;;;
        mdone 0
  | None => mdone (- EFAULT)
  end.

Definition err_unpin (pages : list Z) (done : Z) (r : Z) : PM unit := put_pages (drop (Z.to_nat done) pages) ;;; mret r.

Definition migrate_pinned (start end_ prot : Z) (pages : list Z) : PM unit :=
  do r <- convert_vma start end_ ;;;
  if negb (r =? 0) then err_unpin pages 0 r
  else
    do st <- migrate_chunks pages start (end_ - start) prot ;;;
    if negb (fst st =? 0) then err_unpin pages (snd st) (fst st) else mret 0.

Definition range_start (gva : Z) : Z := mask_down gva PAGE_SIZE.
Definition range_end (gva len : Z) : Z := mask_down (u64 (gva + len + PAGE_SIZE - 1)) PAGE_SIZE.

Definition cpu_pages_migrate_range (gva len prot : Z) : PM unit :=
  let start := range_start gva in
  let end_ := range_end gva len in
  if len =? 0 then mret 0
  else if end_ <? start then mret (- EINVAL)
  else if NVKVM_MIG_MAX_RANGE <? end_ - start then mret (- E2BIG)
  else if mc_isolate ctx =? 0 then mret (- ENOENT)
  else if mc_slot_size ctx <? PAGE_SIZE then mret (- ENOMEM)
  else
    do x <- getx ;;;
    if page_tracked start (mm_cpu x) then mret 0
    else
      emit (EvDo A_vcache_clear) ;;;
      let npages := (end_ - start) / PAGE_SIZE in
      do ok <- alloc_node ;;;
      if negb ok then mret (- ENOMEM)
      else
        do p <- pin_loop (Z.to_nat npages) start npages [] ;;;
        match p with
        | None => mfault
        | Some (r, pages) => if negb (r =? 0) then err_unpin pages 0 r else migrate_pinned start end_ prot pages
        end.

Definition nvkvm_cpu_pages_migrate_range (gva len prot : Z) : PM Z := mcall (cpu_pages_migrate_range gva len prot).

End mmap.
End GuestMmap.
