(* ===== verification/MmapMigrate.v ===== *)
(** * Moving pages keeps them

    The migration of [GuestMmap]: what the process sees in its memory does not change,
    no reference on a frame is lost or dropped twice, and everything that was opened
    on the host is recorded or closed again. *)

From S2P Require Import Prelude Bytes Kmem GuestMmap.
Local Open Scope Z_scope.
Local Open Scope nv_scope.

Module MmapMigrate.
Import Kmem GuestMmap.

(** ** Reasoning on the state alone

    [px m Q R x]: from every state with [x], whatever the environment answers, [m]
    runs on with [Q] or returns with [R], and does not fault. *)
Definition px {A} (m : PM A) (Q : A -> mmst -> Prop) (R : Z -> mmst -> Prop) (x : mmst) : Prop :=
  forall s, k_x s = x -> wp m (fun a s' => Q a (k_x s')) (fun r s' => R r (k_x s')) (fun _ => False) s.

Section rules.
Context {A B : Type}.

Lemma px_done (a : A) (Q : A -> mmst -> Prop) R x : Q a x -> px (mdone a) Q R x.
Proof. intros H s <-. by apply wp_done. Qed.

Lemma px_ret r (Q : A -> mmst -> Prop) (R : Z -> mmst -> Prop) x : R r x -> px (mret r) Q R x.
Proof. intros H s <-. by apply wp_ret. Qed.

Lemma px_then (m : PM A) (k : A -> PM B) Q R x : px m (fun a x' => px (k a) Q R x') R x -> px (mthen m k) Q R x.
Proof. intros H s Hs. apply wp_then. eapply wp_mono; [by apply H | | done | done]. intros a s' Hk. by apply Hk. Qed.

Lemma px_mono (m : PM A) (Q Q' : A -> mmst -> Prop) (R R' : Z -> mmst -> Prop) x :
  px m Q R x -> (forall a x', Q a x' -> Q' a x') -> (forall r x', R r x' -> R' r x') -> px m Q' R' x.
Proof. intros H HQ HR s Hs. eapply wp_mono; [by apply H | eauto | eauto | done]. Qed.

End rules.

Lemma px_tick (Q : nat -> mmst -> Prop) R x : (forall t, Q t x) -> px tick Q R x.
Proof. intros H s <-. apply H. Qed.

Lemma px_getx (Q : mmst -> mmst -> Prop) R x : Q x x -> px getx Q R x.
Proof. intros H s <-. exact H. Qed.

Lemma px_putx y (Q : unit -> mmst -> Prop) R x : Q tt y -> px (putx y) Q R x.
Proof. intros H s <-. exact H. Qed.

Lemma px_emit e (Q : unit -> mmst -> Prop) R x : Q tt x -> px (emit e) Q R x.
Proof. intros H s <-. exact H. Qed.

Lemma px_upd f (Q : unit -> mmst -> Prop) R x : Q tt (f x) -> px (upd f) Q R x.
Proof. intros H. unfold upd. apply px_then, px_getx, px_putx, H. Qed.

Lemma px_call m (Q : Z -> mmst -> Prop) R x : px m (fun _ => Q 0) Q x -> px (mcall m) Q R x.
Proof. intros H s Hs. apply wp_call. by apply H. Qed.

Lemma px_loop {A} (I : Z -> A -> mmst -> Prop) (body : Z -> A -> PM (bool * A)) n i a (Q : A -> mmst -> Prop) R x :
  I i a x ->
  (forall j b x', i <= j < i + Z.of_nat n -> I j b x' ->
     px (body j b) (fun r x'' => if fst r then I (j + 1) (snd r) x'' else Q (snd r) x'') R x') ->
  (forall b x', I (i + Z.of_nat n) b x' -> Q b x') -> px (mloop body n i a) Q R x.
Proof.
  intros HI Hb HQ s Hs. apply (wp_loop (fun j b s' => I j b (k_x s'))); [by subst | | auto].
  intros j b s' Hj HIj. eapply wp_mono; [by apply (Hb j b (k_x s')) | | done | done]. by intros [[] c] s'' H.
Qed.

(** ** Ranges of maps *)

Lemma seqZ_snoc n : 0 <= n -> seqZ 0 (n + 1) = seqZ 0 n ++ [n].
Proof. intros. rewrite seqZ_app by lia. by rewrite Z.add_0_l. Qed.

Section ranges.
Context {V : Type} (m : gmap Z V) (a : Z).

Lemma lookup_insert_range (F : Z -> V) (n : nat) k :
  foldl (fun m i => <[a + i := F i]> m) m (seqZ 0 (Z.of_nat n)) !! k = if decide (a <= k < a + Z.of_nat n) then Some (F (k - a)) else m !! k.
Proof.
  induction n as [|n IH]; [cbn; by rewrite decide_False by lia |].
  rewrite Nat2Z.inj_succ, <- Z.add_1_r, seqZ_snoc, foldl_app by lia. cbn.
  destruct (decide (k = a + Z.of_nat n)) as [->|Hk].
  - rewrite lookup_insert, decide_True by done. rewrite decide_True by lia. do 2 f_equal. lia.
  - rewrite lookup_insert_ne, IH by done. destruct (decide (a <= k < a + Z.of_nat n)); [rewrite decide_True by lia | rewrite decide_False by lia]; done.
Qed.

Lemma lookup_delete_range (n : nat) k :
  foldl (fun m i => delete (a + i) m) m (seqZ 0 (Z.of_nat n)) !! k = if decide (a <= k < a + Z.of_nat n) then None else m !! k.
Proof.
  induction n as [|n IH]; [cbn; by rewrite decide_False by lia |].
  rewrite Nat2Z.inj_succ, <- Z.add_1_r, seqZ_snoc, foldl_app by lia. cbn.
  destruct (decide (k = a + Z.of_nat n)) as [->|Hk].
  - rewrite lookup_delete_eq. by rewrite decide_True by lia.
  - rewrite lookup_delete_ne, IH by done. destruct (decide (a <= k < a + Z.of_nat n)); [rewrite decide_True by lia | rewrite decide_False by lia]; done.
Qed.

End ranges.

(** How often a frame occurs. *)
Definition occ (f : Z) (l : list Z) : Z := Z.of_nat (length (filter (fun g => g = f) l)).

Lemma occ_app f l1 l2 : occ f (l1 ++ l2) = occ f l1 + occ f l2.
Proof. unfold occ. rewrite filter_app, length_app. lia. Qed.

Lemma occ_take_drop f n l : occ f (take n l) + occ f (drop n l) = occ f l.
Proof. by rewrite <- occ_app, take_drop. Qed.

Lemma pin_all_get l p f : (pin_all l p).[f] = p.[f] + occ f l.
Proof.
  revert p. induction l as [|g l IH]; intros p; [unfold occ; cbn; lia |]. cbn. unfold pin_all in IH. rewrite IH, aget_set.
  unfold occ. rewrite filter_cons. destruct (decide (g = f)); cbn [length]; subst; lia.
Qed.

Lemma unpin_all_get l p f : (unpin_all l p).[f] = p.[f] - occ f l.
Proof.
  revert p. induction l as [|g l IH]; intros p; [unfold occ; cbn; lia |]. cbn. unfold unpin_all in IH. rewrite IH, aget_set.
  unfold occ. rewrite filter_cons. destruct (decide (g = f)); cbn [length]; subst; lia.
Qed.

Lemma lookup_write_pages o l d k :
  write_pages o l d !! k = if decide (o <= k < o + Z.of_nat (length l)) then l !! Z.to_nat (k - o) else d !! k.
Proof.
  induction l as [|c l IH] using rev_ind; [cbn; by rewrite decide_False by lia |].
  unfold write_pages in *. rewrite length_app. cbn [length]. rewrite Nat2Z.inj_add, seqZ_snoc by lia.
  rewrite zip_with_app by by rewrite length_seqZ; lia. rewrite foldl_app. cbn.
  destruct (decide (k = o + Z.of_nat (length l))) as [->|Hk].
  - rewrite lookup_insert, decide_True by done. rewrite decide_True by lia. rewrite lookup_app_r by lia.
    by replace (Z.to_nat (o + Z.of_nat (length l) - o) - length l)%nat with 0%nat by lia.
  - rewrite lookup_insert_ne, IH by done. destruct (decide (o <= k < o + Z.of_nat (length l))).
    + rewrite decide_True by lia. by rewrite lookup_app_l by lia.
    + by rewrite decide_False by lia.
Qed.

(** ** What a process sees *)

Definition seen (x : mmst) (a : Z) : option Z :=
  match mm_pt x !! a with
  | Some (Frame f) => mm_frames x !! f
  | Some (Host g) => '(h, i) ← mm_gpa x !! g; d ← mm_fds x !! h; d !! i
  | None => None
  end.

(** The page table names frames that are there and pages of the window that the host
    has mapped, from handles that are open. *)
Record wf (x : mmst) : Prop := {
  wf_frame : forall a f, mm_pt x !! a = Some (Frame f) -> is_Some (mm_frames x !! f);
  wf_host : forall a g, mm_pt x !! a = Some (Host g) -> is_Some (mm_gpa x !! g);
  wf_gpa : forall g h i, mm_gpa x !! g = Some (h, i) -> is_Some (mm_fds x !! h);
  wf_iso : mm_iso x ⊆ dom (mm_fds x)
}.

(** One more handle. *)
Definition with_fd (h : Z) (d : gmap Z Z) (x : mmst) : mmst := set_fds (<[h := d]> (mm_fds x)) x.

(** ** Filling a handle *)

Section upload.
Context (E : menv) (ctx : mctx) (sp : Z) (Hsp : 0 < sp) (Hslot : mc_slot_size ctx = sp * PAGE_SIZE).
Context (pages : list Z) (h : Z) (x : mmst).

(** The contents of the [q]-th page of the range. *)
Definition cont (q : Z) : option Z := pages !! Z.to_nat q ≫= (fun f => mm_frames x !! f).

Lemma px_page_at (Q : Z -> mmst -> Prop) R y q :
  mm_frames y = mm_frames x -> 0 <= q -> is_Some (cont q) -> (forall c, cont q = Some c -> Q c y) -> px (page_at pages q) Q R y.
Proof.
  intros Hf Hq [c Hc] HQ. unfold page_at. apply px_then, px_getx. rewrite (proj2 (Z.leb_le _ _) Hq), Hf. unfold cont in Hc.
  rewrite Hc. by apply px_done, HQ.
Qed.

Lemma rounds_exact n k : 0 < k -> 0 <= n -> rounds (n * k) k = Z.to_nat n.
Proof. intros. unfold rounds. f_equal. replace (n * k + k - 1) with (k - 1 + n * k) by lia. rewrite Z.div_add, Z.div_small by lia. lia. Qed.

Lemma px_fill_slot (Q : list Z -> mmst -> Prop) R y o m :
  mm_frames y = mm_frames x -> 0 <= o -> 0 <= m <= sp -> (forall q, o <= q < o + m -> is_Some (cont q)) ->
  (forall l, Z.of_nat (length l) = m -> (forall i, 0 <= i < m -> l !! Z.to_nat i = cont (o + i)) -> Q l y) ->
  px (fill_slot ctx pages (o * PAGE_SIZE) (m * PAGE_SIZE)) Q R y.
Proof.
  intros Hf Ho Hm Hc HQ. unfold fill_slot. rewrite rounds_exact by (unfold PAGE_SIZE; lia).
  apply (px_loop (fun i l y' => y' = y /\ Z.of_nat (length l) = i /\ forall j, 0 <= j < i -> l !! Z.to_nat j = cont (o + j))).
  - split; [done |]. split; [done |]. intros; lia.
  - intros i l y' Hi (-> & Hl & Hp). rewrite Hslot. rewrite (proj2 (Z.ltb_ge _ _)) by (unfold PAGE_SIZE; lia).
    apply px_then. replace ((o * PAGE_SIZE + i * PAGE_SIZE) / PAGE_SIZE) with (o + i) by (rewrite <- Z.mul_add_distr_r, Z.div_mul by (unfold PAGE_SIZE; lia); done).
    apply px_page_at; [done | lia | apply Hc; lia |]. intros c Ec. apply px_done. cbn [fst snd]. split; [done |].
    split; [rewrite length_app; cbn [length]; lia |]. intros j Hj. destruct (decide (j = i)) as [->|].
    + rewrite lookup_app_r by lia. replace (Z.to_nat i - length l)%nat with 0%nat by lia. by rewrite Ec.
    + rewrite lookup_app_l by lia. apply Hp. lia.
  - intros l y' (-> & Hl & Hp). apply HQ; [lia |]. intros i Hi. apply Hp. lia.
Qed.

Lemma with_fd_alter f d : set_fds (alter f h (mm_fds (with_fd h d x))) (with_fd h d x) = with_fd h (f d) x.
Proof. unfold with_fd, set_fds. cbn. by rewrite alter_insert_eq. Qed.

(** A slot taken and given back. *)
Lemma slots_back y : set_slots (mm_slots y + 1 - 1) y = y.
Proof. destruct y. unfold set_slots. cbn. f_equal. lia. Qed.

Context (k n : Z) (Hk : 0 <= k) (Hn : 0 <= n) (Hcont : forall q, k <= q < k + n -> is_Some (cont q)).

(** The first [m] pages are in the handle. *)
Definition filled (m : Z) (d : gmap Z Z) : Prop := forall q, 0 <= q < m -> d !! q = cont (k + q).

Lemma px_upload_slot j d :
  0 <= j -> j * sp < n -> filled (j * sp) d ->
  px (upload_slot E ctx pages h (k * PAGE_SIZE) (n * PAGE_SIZE) j)
    (fun r y => exists d', y = with_fd h d' x /\ (r = 0 -> filled (Z.min ((j + 1) * sp) n) d')) (fun _ _ => False) (with_fd h d x).
Proof.
  intros Hj Hjn Hd. unfold upload_slot. rewrite Hslot.
  replace (k * PAGE_SIZE + j * (sp * PAGE_SIZE)) with ((k + j * sp) * PAGE_SIZE) by (unfold PAGE_SIZE; lia).
  replace (Z.min (sp * PAGE_SIZE) (n * PAGE_SIZE - j * (sp * PAGE_SIZE))) with (Z.min sp (n - j * sp) * PAGE_SIZE) by (unfold PAGE_SIZE; lia).
  replace (j * (sp * PAGE_SIZE) / PAGE_SIZE) with (j * sp) by (rewrite Z.mul_assoc, Z.div_mul by (unfold PAGE_SIZE; lia); done).
  set (m := Z.min sp (n - j * sp)). apply px_then. unfold slot_alloc. apply px_then, px_tick. intros t.
  destruct (n_slot E t); [|apply px_done; cbn [negb]; apply px_done; by exists d].
  apply px_then, px_upd, px_done. cbn [negb]. apply px_then. unfold slot_addr. apply px_then, px_tick. intros t1. apply px_done.
  destruct (n_slot_ok E t1); cbn [negb].
  2:{ apply px_then, px_upd, px_done. exists d. split; [apply (slots_back (with_fd h d x)) | done]. }
  apply px_then. apply px_fill_slot; [done | nia | lia | intros q Hq; apply Hcont; nia |].
  intros l Hl Hp. apply px_then. unfold write_memory_handle. apply px_then, px_tick. intros t2.
  destruct (Z.eqb_spec (n_write E t2) 0) as [_|Hr].
  - apply px_then, px_upd, px_done, px_then, px_upd, px_done. exists (write_pages (j * sp) l d). split.
    + rewrite <- (slots_back (with_fd h (write_pages (j * sp) l d) x)), <- with_fd_alter. done.
    + intros _ q Hq. rewrite lookup_write_pages, Hl. destruct (decide _) as [Hr|Hr].
      * rewrite Hp by lia. f_equal. lia.
      * apply Hd. lia.
  - apply px_done, px_then, px_upd, px_done. exists d. split; [apply (slots_back (with_fd h d x)) | done].
Qed.

Lemma px_upload d :
  px (upload E ctx pages h (k * PAGE_SIZE) (n * PAGE_SIZE))
    (fun r y => exists d', y = with_fd h d' x /\ (r = 0 -> filled n d')) (fun _ _ => False) (with_fd h d x).
Proof.
  unfold upload. rewrite Hslot.
  assert (rounds (n * PAGE_SIZE) (sp * PAGE_SIZE) = rounds n sp) as ->.
  { unfold rounds. f_equal. unfold PAGE_SIZE. replace (n * 4096 + sp * 4096 - 1) with ((n + sp - 1) * 4096 + 4095) by lia.
    rewrite (Z.mul_comm sp 4096), <- Z.div_div by lia. f_equal. rewrite Z.div_add_l by lia. by rewrite Z.add_0_r. }
  assert (Z.of_nat (rounds n sp) = (n + sp - 1) / sp) as Hr.
  { unfold rounds. rewrite Z2Nat.id; [done |]. apply Z.div_pos; lia. }
  apply (px_loop (fun j r y => r = 0 /\ exists d', y = with_fd h d' x /\ filled (Z.min (j * sp) n) d')).
  - split; [done |]. exists d. split; [done |]. intros q Hq. lia.
  - intros j r y Hj (-> & d' & -> & Hd). assert (j * sp < n) by (assert (j < (n + sp - 1) / sp) by lia; pose proof (Z.mul_div_le (n + sp - 1) sp ltac:(lia)); nia).
    apply px_then. eapply px_mono; [apply (px_upload_slot j d'); [lia | done | by rewrite Z.min_l in Hd by lia] | | done].
    intros r y (d'' & -> & Hd''). apply px_done. cbn [fst snd]. destruct (Z.eqb_spec r 0) as [->|Hne]; [split; [done |]; exists d''; auto | by exists d''].
  - intros r y (-> & d' & -> & Hd). exists d'. split; [done |]. intros _. rewrite Z.min_r in Hd; [done |].
    pose proof (Z.mul_succ_div_gt (n + sp - 1) sp ltac:(lia)). nia.
Qed.

End upload.

(** ** Undoing *)

Lemma gpa_free_spec g (n : nat) m : gpa_free g (Z.of_nat n) m = true -> forall k, g <= k < g + Z.of_nat n -> m !! k = None.
Proof.
  intros Hf k Hk. unfold gpa_free in Hf. rewrite forallb_forall in Hf. specialize (Hf (k - g)).
  replace (g + (k - g)) with k in Hf by lia. destruct (m !! k); [|done]. discriminate Hf. apply list_elem_of_In, elem_of_seqZ. lia.
Qed.

Lemma unmap_map h o g (n : nat) token x :
  gpa_free g (Z.of_nat n) (mm_gpa x) = true -> mm_maps x !! token = None -> unmap_token token (map_token h o g (Z.of_nat n) token x) = x.
Proof.
  intros Hf Ht. destruct x. unfold unmap_token, map_token. cbn in *. rewrite lookup_insert, decide_True by done. unfold set_maps. cbn.
  rewrite delete_insert_id by done. f_equal. apply map_eq. intros k.
  rewrite lookup_delete_range, (lookup_insert_range _ _ (fun i => (h, o + i))). case_decide; [|done]. by rewrite (gpa_free_spec _ _ _ Hf).
Qed.

Lemma close_with_fd h d x : mm_fds x !! h = None -> set_fds (delete h (mm_fds (with_fd h d x))) (with_fd h d x) = x.
Proof. intros Hh. destruct x. unfold with_fd, set_fds. cbn in *. by rewrite delete_insert_id. Qed.

Lemma iso_back h x : h ∉ mm_iso x -> set_iso (mm_iso (set_iso ({[h]} ∪ mm_iso x) x) ∖ {[h]}) (set_iso ({[h]} ∪ mm_iso x) x) = x.
Proof. intros Hh. destruct x. unfold set_iso. cbn in *. f_equal. set_solver. Qed.

(** ** A chunk turned to the host *)

(** [n] pages from [a] on in the page table, first removed and then the host's from [g] on. *)
Definition turned (a g n : Z) (p : gmap Z home) : gmap Z home :=
  foldl (fun p i => <[a + i := Host (g + i)]> p) (foldl (fun p i => delete (a + i) p) p (seqZ 0 n)) (seqZ 0 n).

Lemma lookup_turned a g (n : nat) p b :
  turned a g (Z.of_nat n) p !! b = if decide (a <= b < a + Z.of_nat n) then Some (Host (g + (b - a))) else p !! b.
Proof.
  unfold turned. rewrite (lookup_insert_range _ _ (fun i => Host (g + i))). case_decide; [done |].
  rewrite lookup_delete_range. by rewrite decide_False.
Qed.

(** The handle [h] with the contents [d], mapped at [g]. *)
Definition shared (h : Z) (d : gmap Z Z) (g n token : Z) (x : mmst) : mmst :=
  map_token h 0 g n token (set_iso ({[h]} ∪ mm_iso x) (with_fd h d x)).

Definition swapped (a h : Z) (d : gmap Z Z) (g n token : Z) (x : mmst) : mmst :=
  set_pt (turned a g n (mm_pt x)) (shared h d g n token x).

Section swapped.
Context (pages : list Z) (x : mmst) (a k h : Z) (d : gmap Z Z) (g : Z) (n : nat) (token : Z).
Context (Hwf : wf x) (Hh : mm_fds x !! h = None) (Hfree : gpa_free g (Z.of_nat n) (mm_gpa x) = true).

Lemma swapped_wf : wf (swapped a h d g (Z.of_nat n) token x).
Proof.
  destruct Hwf as [H1 H2 H3 H4]. split; cbn.
  - intros b f. rewrite lookup_turned. case_decide; [done |]. apply H1.
  - intros b g'. rewrite lookup_turned, (lookup_insert_range _ _ (fun i => (h, 0 + i))). case_decide.
    + intros [= <-]. rewrite decide_True by lia. by eexists.
    + intros Hb. case_decide; [by eexists | by eapply H2].
  - intros g' h' i. rewrite (lookup_insert_range _ _ (fun i => (h, 0 + i))). case_decide.
    + intros [= <- <-]. rewrite lookup_insert, decide_True by done. by eexists.
    + intros Hg. apply H3 in Hg as [e He]. destruct (decide (h' = h)) as [->|]; [by rewrite Hh in He |].
      rewrite lookup_insert_ne by done. by eexists.
  - rewrite dom_insert_L. set_solver.
Qed.

Lemma swapped_seen :
  filled pages x k (Z.of_nat n) d ->
  (forall q, 0 <= q < Z.of_nat n -> exists f, mm_pt x !! (a + q) = Some (Frame f) /\ pages !! Z.to_nat (k + q) = Some f) ->
  forall b, seen (swapped a h d g (Z.of_nat n) token x) b = seen x b.
Proof.
  intros Hd Hp b. unfold seen. cbn. rewrite lookup_turned. destruct (decide (a <= b < a + Z.of_nat n)) as [Hb|Hb].
  - rewrite (lookup_insert_range _ _ (fun i => (h, 0 + i))), decide_True by lia. cbn. rewrite lookup_insert, decide_True by done. cbn.
    destruct (Hp (b - a)) as (f & Hf & Hpf); [lia |]. replace (a + (b - a)) with b in Hf by lia. rewrite Hf.
    replace (0 + (g + (b - a) - g)) with (b - a) by lia. rewrite (Hd (b - a)) by lia. unfold cont. by rewrite Hpf.
  - destruct (mm_pt x !! b) as [[f|g']|] eqn:Eb; [done | | done].
    destruct (wf_host _ Hwf _ _ Eb) as [[h' i] Hg']. rewrite (lookup_insert_range _ _ (fun i => (h, 0 + i))).
    rewrite decide_False by (intros Hr; by rewrite (gpa_free_spec _ _ _ Hfree g' Hr) in Hg'). rewrite Hg'. cbn.
    destruct (wf_gpa _ Hwf _ _ _ Hg') as [e He]. rewrite lookup_insert_ne; [done |]. intros ->. by rewrite Hh in He.
Qed.

End swapped.

(** ** The window *)

(** Exactly the ranges inside. *)
Lemma window_check ctx gpa len :
  0 < mc_window ctx -> 0 < mc_window_len ctx -> mc_window ctx + mc_window_len ctx < 2 ^ 64 -> 0 <= gpa -> 0 <= len < 2 ^ 64 ->
  nvkvm_gpa_in_mmap_window ctx gpa len = true <-> mc_window ctx <= gpa /\ gpa + len <= mc_window ctx + mc_window_len ctx.
Proof.
  intros Hw Hl Hs Hg Hlen. unfold nvkvm_gpa_in_mmap_window. rewrite (u64_small (mc_window ctx + _)) by lia.
  rewrite (proj2 (Z.eqb_neq (mc_window ctx) 0)), (proj2 (Z.eqb_neq (mc_window_len ctx) 0)) by lia. cbn [orb].
  destruct (Z.ltb_spec gpa (mc_window ctx)); [split; [done | lia] |].
  destruct (decide (gpa + len < 2 ^ 64)) as [Hr|Hr].
  - rewrite u64_small by lia. destruct (Z.ltb_spec (mc_window ctx + mc_window_len ctx) (gpa + len)); [split; [done | lia] |].
    rewrite (proj2 (Z.ltb_ge _ _)) by lia. split; [lia | done].
  - split; [|lia]. intros Hc. exfalso. destruct (_ <? u64 _) in Hc; [done |].
    assert (u64 (gpa + len) < gpa); [|by rewrite (proj2 (Z.ltb_lt _ _)) in Hc].
    unfold u64. destruct (decide (gpa < 2 ^ 64)).
    + replace (gpa + len) with ((gpa + len - 2 ^ 64) + 1 * 2 ^ 64) by lia. rewrite Z.mod_add, Z.mod_small by lia. lia.
    + pose proof (Z.mod_pos_bound (gpa + len) (2 ^ 64)). lia.
Qed.

(** The pages of a range inside the window. *)
Lemma window_pages ctx gpa n j :
  0 < mc_window ctx -> 0 < mc_window_len ctx -> mc_window ctx + mc_window_len ctx < 2 ^ 64 -> (PAGE_SIZE | mc_window ctx) ->
  0 <= n < 2 ^ 40 -> nvkvm_gpa_in_mmap_window ctx gpa (n * PAGE_SIZE) = true -> 0 <= j < n ->
  mc_window ctx <= (gpa / PAGE_SIZE + j) * PAGE_SIZE /\ (gpa / PAGE_SIZE + j + 1) * PAGE_SIZE <= mc_window ctx + mc_window_len ctx.
Proof.
  intros Hw Hl Hs [c Hc] Hn Hi Hj.
  assert (0 <= gpa) as Hg.
  { unfold nvkvm_gpa_in_mmap_window in Hi. destruct (_ || _); [done |]. destruct (Z.ltb_spec gpa (mc_window ctx)); [done |]. lia. }
  apply window_check in Hi as [H1 H2]; [|unfold PAGE_SIZE in *; lia..]. unfold PAGE_SIZE in *.
  pose proof (Z.div_mod gpa 4096 ltac:(lia)). pose proof (Z.mod_pos_bound gpa 4096 ltac:(lia)). lia.
Qed.

(** [window_check_exact]: the check of an address from the host accepts exactly the ranges
    that lie inside the window, also where the end of the range would wrap around. *)
Theorem window_check_exact ctx gpa len :
  0 < mc_window ctx -> 0 < mc_window_len ctx -> mc_window ctx + mc_window_len ctx < 2 ^ 64 -> 0 <= gpa -> 0 <= len < 2 ^ 64 ->
  nvkvm_gpa_in_mmap_window ctx gpa len = true <-> mc_window ctx <= gpa /\ gpa + len <= mc_window ctx + mc_window_len ctx.
Proof. apply window_check. Qed.

(** ** All chunks *)

Section migrate.
Context (E : menv) (ctx : mctx) (sp : Z) (Hsp : 0 < sp) (Hslot : mc_slot_size ctx = sp * PAGE_SIZE).
Context (Hw : 0 < mc_window ctx) (Hwl : 0 < mc_window_len ctx) (Hws : mc_window ctx + mc_window_len ctx < 2 ^ 64) (Hwa : (PAGE_SIZE | mc_window ctx)).
Context (pages : list Z) (S N prot : Z) (HN : Z.of_nat (length pages) = N) (HNb : N < 2 ^ 40) (x0 : mmst) (Hwf0 : wf x0).
Context (Hpages : forall q, 0 <= q < N -> exists f, mm_pt x0 !! (S + q) = Some (Frame f) /\ pages !! Z.to_nat q = Some f).

(** What the module opened since [x0] is in its list, as long as nodes can be allocated. *)
Definition owned (x : mmst) : Prop :=
  exists new, mm_cpu x = mm_cpu x0 ++ new /\
    ((forall t, n_alloc E t = true) ->
       dom (mm_fds x) = dom (mm_fds x0) ∪ list_to_set (cp_handle <$> new) /\
       mm_iso x = mm_iso x0 ∪ list_to_set (cp_handle <$> new) /\
       dom (mm_maps x) = dom (mm_maps x0) ∪ list_to_set (cp_token <$> new) /\
       Forall (fun c => cp_page c = None /\ (cp_handle c ∉ dom (mm_fds x0)) /\ (cp_token c ∉ dom (mm_maps x0))) new).

(** With [k] pages done: whatever happens, ... *)
Record base (k : Z) (x : mmst) : Prop := {
  b_frames : mm_frames x = mm_frames x0;
  b_slots : mm_slots x = mm_slots x0;
  b_pins : forall f, (mm_pins x).[f] = (mm_pins x0).[f] - occ f (take (Z.to_nat k) pages);
  b_own : owned x
}.

(** ... and as long as the page table can be filled. *)
Record minv (k : Z) (x : mmst) : Prop := {
  m_base : base k x;
  m_wf : wf x;
  m_cow : is_cow_mapping (mm_flags x) = false;
  m_out : forall a, ~ (S <= a < S + k) -> mm_pt x !! a = mm_pt x0 !! a;
  m_in : forall a, S <= a < S + k -> exists g, mm_pt x !! a = Some (Host g) /\
           mc_window ctx <= g * PAGE_SIZE /\ (g + 1) * PAGE_SIZE <= mc_window ctx + mc_window_len ctx;
  m_seen : forall a, seen x a = seen x0 a
}.

Definition stopped (k r : Z) (x : mmst) : Prop := r <> 0 /\ base k x /\ ((forall t, n_remap E t = 0) -> minv k x).

Lemma cont_some x q : mm_frames x = mm_frames x0 -> 0 <= q < N -> is_Some (cont pages x q).
Proof.
  intros Hx Hq. destruct (Hpages q Hq) as (f & Hf & Hp). unfold cont. rewrite Hp, Hx. by apply (wf_frame _ Hwf0 _ _ Hf).
Qed.

Lemma px_fail_mapped (h : Z) (d : gmap Z Z) g (n : nat) token r x :
  mm_fds x !! h = None -> h ∉ mm_iso x -> mm_maps x !! token = None -> gpa_free g (Z.of_nat n) (mm_gpa x) = true ->
  px (chunk_fail_mapped h token r) (fun r' y => r' = r /\ y = x) (fun _ _ => False) (shared h d g (Z.of_nat n) token x).
Proof.
  intros Hh Hi Ht Hg. unfold chunk_fail_mapped. apply px_then. unfold munmap_on_isolate. apply px_then, px_emit, px_upd.
  unfold shared. rewrite unmap_map by done. apply px_then. unfold close_handle_on_isolate. apply px_upd.
  match goal with |- px _ _ _ ?y => replace y with (with_fd h d x) by (symmetry; by apply (iso_back h (with_fd h d x))) end.
  apply px_then. unfold close_handle. apply px_then, px_emit, px_upd.
  rewrite close_with_fd by done. by apply px_done.
Qed.

(** How the page table is turned. *)
Lemma px_swap_chunk a gpa (n : nat) y :
  is_cow_mapping (mm_flags y) = false ->
  px (swap_chunk E (a * PAGE_SIZE) gpa (Z.of_nat n * PAGE_SIZE))
    (fun r y' => r = 0 /\ y' = set_pt (turned a (gpa / PAGE_SIZE) (Z.of_nat n) (mm_pt y)) y \/
                 r <> 0 /\ (y' = y \/ exists p t, y' = set_pt p y /\ n_remap E t = r)) (fun _ _ => False) y.
Proof.
  intros Hc. unfold swap_chunk. rewrite !Z.div_mul by by unfold PAGE_SIZE. apply px_then. unfold find_vma. apply px_then, px_tick. intros t. apply px_done.
  destruct (n_vma E t (a * PAGE_SIZE)) as [[vs ve]|]; [|apply px_done; right; split; [done | by left]].
  destruct (_ || _); [apply px_done; right; split; [done | by left] |].
  apply px_then. unfold zap_page_range. apply px_upd. unfold remap_pfn_range. apply px_then, px_tick. intros t1. apply px_then, px_getx.
  cbn [mm_flags set_pt]. rewrite Hc. cbn [andb]. destruct (Z.eqb_spec (n_remap E t1) 0) as [H0|H0].
  - apply px_then, px_upd, px_done. by left.
  - apply px_done. right. split; [done |]. right. eexists _, t1. split; [reflexivity | done].
Qed.

(** The chunk done: recorded where a node is there, its frames released. *)
Definition finished (k n h : Z) (d : gmap Z Z) (gpa token : Z) (node : bool) (x : mmst) : mmst :=
  let y := swapped (S + k) h d (gpa / PAGE_SIZE) n token x in
  let c := CPage None ((S + k) * PAGE_SIZE) gpa h token prot in
  let z := if node then set_cpu (mm_cpu y ++ [c]) y else y in
  set_pins (unpin_all (take (Z.to_nat n) (drop (Z.to_nat k) pages)) (mm_pins z)) z.

Lemma finished_owned k n h d gpa token (node : bool) x :
  ((forall t, n_alloc E t = true) -> node = true) -> mm_fds x !! h = None -> mm_maps x !! token = None ->
  owned x -> owned (finished k n h d gpa token node x).
Proof.
  intros Hnode Hh%not_elem_of_dom Ht%not_elem_of_dom (new & Hc & Ho). destruct node.
  - exists (new ++ [CPage None ((S + k) * PAGE_SIZE) gpa h token prot]). split; [cbn; by rewrite Hc, app_assoc |].
    intros Ha. destruct (Ho Ha) as (H1 & H2 & H3 & H4). rewrite !fmap_app, !list_to_set_app_L. cbn. rewrite !dom_insert_L, H1, H2, H3.
    split; [set_solver |]. split; [set_solver |]. split; [set_solver |]. apply Forall_app. split; [done |]. apply Forall_singleton. cbn. set_solver.
  - exists new. split; [done |]. intros Ha. by specialize (Hnode Ha).
Qed.

Lemma finished_minv k n h d gpa token node x :
  minv k x -> 0 <= k -> 0 < n -> k + n <= N -> mm_fds x !! h = None -> gpa_free (gpa / PAGE_SIZE) n (mm_gpa x) = true ->
  filled pages x k n d -> nvkvm_gpa_in_mmap_window ctx gpa (n * PAGE_SIZE) = true -> ((forall t, n_alloc E t = true) -> node = true) ->
  mm_maps x !! token = None -> minv (k + n) (finished k n h d gpa token node x).
Proof.
  intros [[B1 B2 B3 B4] Hwf Hc Hout Hin Hseen] Hk Hn HkN Hh Hg Hd Hwin Hnode Htok.
  replace n with (Z.of_nat (Z.to_nat n)) in Hg, Hd by lia.
  assert (forall q, 0 <= q < Z.of_nat (Z.to_nat n) -> exists f, mm_pt x !! (S + k + q) = Some (Frame f) /\ pages !! Z.to_nat (k + q) = Some f) as Hp.
  { intros q Hq. destruct (Hpages (k + q)) as (f & Hf & Hpf); [lia |]. exists f. split; [|done]. rewrite Hout by lia. by replace (S + k + q) with (S + (k + q)) by lia. }
  split.
  - split; [by destruct node | by destruct node | | by apply finished_owned].
    intros f. assert (mm_pins (finished k n h d gpa token node x) = unpin_all (take (Z.to_nat n) (drop (Z.to_nat k) pages)) (mm_pins x)) as -> by by destruct node.
    rewrite unpin_all_get, B3. replace (take (Z.to_nat (k + n)) pages) with (take (Z.to_nat k) pages ++ take (Z.to_nat n) (drop (Z.to_nat k) pages)).
    + rewrite occ_app. lia.
    + rewrite <- (take_drop (Z.to_nat k) (take (Z.to_nat (k + n)) pages)). rewrite take_take, skipn_firstn_comm. f_equal; f_equal; lia.
  - assert (wf (swapped (S + k) h d (gpa / PAGE_SIZE) n token x)) as [W1 W2 W3 W4] by (rewrite <- (Z2Nat.id n) by lia; by apply swapped_wf).
    by destruct node; split.
  - by destruct node.
  - intros a Ha. assert (mm_pt (finished k n h d gpa token node x) = turned (S + k) (gpa / PAGE_SIZE) n (mm_pt x)) as -> by by destruct node.
    replace n with (Z.of_nat (Z.to_nat n)) by lia. rewrite lookup_turned, decide_False by lia. apply Hout. lia.
  - intros a Ha. assert (mm_pt (finished k n h d gpa token node x) = turned (S + k) (gpa / PAGE_SIZE) n (mm_pt x)) as -> by by destruct node.
    replace n with (Z.of_nat (Z.to_nat n)) by lia. rewrite lookup_turned. case_decide.
    + eexists. split; [done |]. apply (window_pages ctx gpa n); try done; lia.
    + apply Hin. lia.
  - intros a. rewrite <- Hseen, <- (swapped_seen pages x (S + k) k h d (gpa / PAGE_SIZE) (Z.to_nat n) token Hwf Hh Hg Hd Hp a).
    rewrite Z2Nat.id by lia. by destruct node.
Qed.

(** Stopped with nothing changed, or with the page table of the chunk emptied. *)
Lemma stopped_same k r x : r <> 0 -> minv k x -> stopped k r x.
Proof. intros Hr Hm. split; [done |]. split; [apply Hm | done]. Qed.

Lemma stopped_zapped k r p t x : r <> 0 -> n_remap E t = r -> minv k x -> stopped k r (set_pt p x).
Proof.
  intros Hr Ht Hm. split; [done |]. split; [by destruct Hm as [[] _ _ _ _ _] |]. intros H0. by rewrite H0 in Ht.
Qed.

Lemma fresh_lookup {V} (m : gmap Z V) : m !! fresh (dom m) = None.
Proof. apply not_elem_of_dom, is_fresh. Qed.

Lemma px_map_chunk k n h d x :
  minv k x -> 0 <= k -> 0 < n -> k + n <= N -> mm_fds x !! h = None -> h ∉ mm_iso x -> filled pages x k n d ->
  px (map_chunk E ctx pages h (k * PAGE_SIZE) (n * PAGE_SIZE) ((S + k) * PAGE_SIZE) prot)
    (fun r y => r = 0 /\ minv (k + n) y \/ stopped k r y) (fun _ _ => False) (set_iso ({[h]} ∪ mm_iso x) (with_fd h d x)).
Proof.
  intros Hm Hk Hn Hkn Hh Hhi Hd. unfold map_chunk. rewrite !Z.div_mul by by unfold PAGE_SIZE.
  assert (Z.of_nat (Z.to_nat n) = n) as En by lia. apply px_then. unfold mmap_on_isolate. apply px_then, px_tick. intros t. apply px_then, px_getx.
  destruct (n_mmap E t) as [r gpa]. cbn [mm_gpa mm_maps set_iso with_fd set_fds].
  assert (forall r, r <> 0 -> px (close_handle_on_isolate h ;;; close_handle h ;;; mdone r)
    (fun r y => r = 0 /\ minv (k + n) y \/ stopped k r y) (fun _ _ => False) (set_iso ({[h]} ∪ mm_iso x) (with_fd h d x))) as Hback.
  { intros e He. apply px_then. unfold close_handle_on_isolate. apply px_upd.
    match goal with |- px _ _ _ ?y => replace y with (with_fd h d x) by (symmetry; by apply (iso_back h (with_fd h d x))) end.
    apply px_then. unfold close_handle. apply px_then, px_emit, px_upd. rewrite close_with_fd by done. apply px_done. right. by apply stopped_same. }
  destruct (Z.eqb_spec r 0) as [->|Hr]; cbn [negb]; [|apply px_done; cbn [fst]; rewrite (proj2 (Z.eqb_neq _ _) Hr); by apply Hback].
  destruct (gpa_free (gpa / PAGE_SIZE) n (mm_gpa x)) eqn:Hg; cbn [negb]; [|apply px_done; by apply Hback].
  set (token := fresh (dom (mm_maps x))). apply px_then, px_putx, px_then, px_emit, px_done. cbn [fst snd Z.eqb negb].
  assert (mm_maps x !! token = None) as Ht by apply fresh_lookup.
  change (map_token h 0 _ _ _ _) with (shared h d (gpa / PAGE_SIZE) n token x).
  assert (forall y e, e <> 0 -> mm_fds y !! h = None -> h ∉ mm_iso y -> mm_maps y !! token = None -> gpa_free (gpa / PAGE_SIZE) n (mm_gpa y) = true ->
    (stopped k e y) -> px (chunk_fail_mapped h token e) (fun r y => r = 0 /\ minv (k + n) y \/ stopped k r y) (fun _ _ => False) (shared h d (gpa / PAGE_SIZE) n token y)) as Hfail.
  { intros y e He ???? Hs. rewrite <- En. eapply px_mono; [apply px_fail_mapped; try done; by rewrite En | | done]. intros ?? [-> ->]. by right. }
  destruct (nvkvm_gpa_in_mmap_window ctx gpa (n * PAGE_SIZE)) eqn:Hwin; cbn [negb]; [|apply Hfail; try done; by apply stopped_same].
  apply px_then. rewrite <- En. eapply px_mono; [apply px_swap_chunk, Hm | | done]. rewrite En.
  intros r y [[-> ->]|(Hr & [->|(p & t1 & -> & Hr1)])]; rewrite ?(proj2 (Z.eqb_neq _ _) Hr); cbn [Z.eqb negb].
  - apply px_then. unfold alloc_node. apply px_then, px_tick. intros t2. apply px_done, px_then.
    assert (minv (k + n) (finished k n h d gpa token (n_alloc E t2) x)) as Hfin by (apply finished_minv; auto).
    unfold finished, track, put_pages in *. destruct (n_alloc E t2); [apply px_upd | apply px_done]; apply px_then, px_upd, px_done; by left.
  - apply Hfail; try done. by apply stopped_same.
  - change (set_pt p (shared h d (gpa / PAGE_SIZE) n token x)) with (shared h d (gpa / PAGE_SIZE) n token (set_pt p x)).
    apply Hfail; try done. by apply (stopped_zapped k r p t1).
Qed.

Lemma px_migrate_chunk i x (k := i * 512) :
  0 <= i -> k < N -> minv k x ->
  px (migrate_chunk E ctx pages (S * PAGE_SIZE) (N * PAGE_SIZE) prot i)
    (fun r y => r = 0 /\ minv (Z.min ((i + 1) * 512) N) y \/ stopped k r y) (fun _ _ => False) x.
Proof.
  intros Hi HkN Hm. unfold migrate_chunk. set (n := Z.min 512 (N - k)).
  replace (i * NVKVM_MIG_CHUNK) with (k * PAGE_SIZE) by (unfold k, NVKVM_MIG_CHUNK, PAGE_SIZE; lia).
  replace (Z.min NVKVM_MIG_CHUNK (N * PAGE_SIZE - k * PAGE_SIZE)) with (n * PAGE_SIZE) by (unfold n, NVKVM_MIG_CHUNK, PAGE_SIZE; lia).
  replace (S * PAGE_SIZE + k * PAGE_SIZE) with ((S + k) * PAGE_SIZE) by lia. rewrite !Z.div_mul by by unfold PAGE_SIZE.
  assert (0 < n <= 512 /\ k + n <= N /\ k + n = Z.min ((i + 1) * 512) N) as (Hn & Hkn & Ekn) by (unfold n, k in *; lia).
  apply px_then. unfold open_memory_handle. apply px_then, px_tick. intros t. apply px_then, px_getx.
  destruct (Z.eqb_spec (n_open E t) 0) as [_|Hr]; [|apply px_done; cbn [fst snd]; rewrite (proj2 (Z.eqb_neq _ _) Hr); apply px_done; right; by apply stopped_same].
  apply px_then, px_putx, px_done. cbn [fst snd Z.eqb negb]. set (h := fresh (dom (mm_fds x))).
  assert (mm_fds x !! h = None) as Hh by apply fresh_lookup. assert (h ∉ mm_iso x) as Hhi by (intros Hin; apply (wf_iso _ (m_wf _ _ Hm)) in Hin; by apply is_fresh in Hin).
  set (d0 := list_to_map _). change (set_fds _ x) with (with_fd h d0 x). apply px_then.
  eapply px_mono; [apply (px_upload E ctx sp Hsp Hslot pages h x k n); [unfold k; lia | lia |] | | done].
  { intros q Hq. apply cont_some; [apply Hm | unfold k in *; lia]. }
  intros r y (d & -> & Hd). destruct (Z.eqb_spec r 0) as [->|Hr]; cbn [negb].
  2:{ apply px_then. unfold close_handle. apply px_then, px_emit, px_upd. rewrite close_with_fd by done. apply px_done. right. by apply stopped_same. }
  specialize (Hd eq_refl). apply px_then. unfold copy_handle_to_isolate. apply px_then, px_tick. intros t1.
  destruct (Z.eqb_spec (n_copy E t1) 0) as [_|Hr].
  2:{ apply px_done. rewrite (proj2 (Z.eqb_neq _ _) Hr). cbn [negb]. apply px_then. unfold close_handle. apply px_then, px_emit, px_upd.
      rewrite close_with_fd by done. apply px_done. right. by apply stopped_same. }
  apply px_then, px_upd, px_done. cbn [Z.eqb negb]. eapply px_mono; [apply (px_map_chunk k n h d x); try done; unfold k; lia | | done].
  intros r y [[-> Hy]|Hy]; [left; by rewrite <- Ekn | by right].
Qed.

Lemma px_migrate_chunks x :
  minv 0 x ->
  px (migrate_chunks E ctx pages (S * PAGE_SIZE) (N * PAGE_SIZE) prot)
    (fun st y => fst st = 0 /\ minv N y \/ 0 <= snd st <= N /\ stopped (snd st) (fst st) y) (fun _ _ => False) x.
Proof.
  intros Hm. unfold migrate_chunks.
  assert (rounds (N * PAGE_SIZE) NVKVM_MIG_CHUNK = Z.to_nat ((N + 511) / 512)) as ->.
  { unfold rounds, NVKVM_MIG_CHUNK, PAGE_SIZE. f_equal. change (2 ^ 21) with (4096 * 512). rewrite <- Z.div_div by lia. f_equal.
    replace (N * 4096 + 4096 * 512 - 1) with ((N + 511) * 4096 + 4095) by lia. rewrite Z.div_add_l by lia. by rewrite Z.add_0_r. }
  assert (0 <= (N + 511) / 512) as H0 by (apply Z.div_pos; lia).
  apply (px_loop (fun i st y => st = (0, Z.min (i * 512) N) /\ minv (Z.min (i * 512) N) y)).
  - replace (Z.min (0 * 512) N) with 0 by lia. done.
  - intros i st y Hi [-> Hy]. assert (i * 512 < N) as HiN by (pose proof (Z.mul_div_le (N + 511) 512 ltac:(lia)); lia).
    rewrite Z.min_l in Hy by lia. rewrite (Z.min_l (i * 512)) by lia. apply px_then. eapply px_mono; [apply px_migrate_chunk; [lia | lia | done] | | done].
    intros r z [[-> Hz]|Hz]; apply px_done.
    + cbn [Z.eqb fst snd]. replace (Z.min ((i + 1) * NVKVM_MIG_CHUNK) (N * PAGE_SIZE) / PAGE_SIZE) with (Z.min ((i + 1) * 512) N); [done |].
      replace (Z.min ((i + 1) * NVKVM_MIG_CHUNK) (N * PAGE_SIZE)) with (Z.min ((i + 1) * 512) N * PAGE_SIZE) by (unfold NVKVM_MIG_CHUNK, PAGE_SIZE; lia).
      by rewrite Z.div_mul by by unfold PAGE_SIZE.
    + rewrite (proj2 (Z.eqb_neq r 0) (proj1 Hz)). cbn [fst snd]. right. split; [lia | done].
  - intros st y [-> Hy]. left. split; [done |]. rewrite Z.min_r in Hy; [done |]. pose proof (Z.mul_succ_div_gt (N + 511) 512 ltac:(lia)). lia.
Qed.

End migrate.

(** ** Pinning *)

Lemma frame_run_length pt a n : (length (frame_run pt a n) <= n)%nat.
Proof. revert a. induction n as [|n IH]; intros a; cbn; [lia |]. destruct (pt !! a) as [[]|]; cbn; [specialize (IH (a + 1)) |..]; lia. Qed.

Lemma frame_run_lookup pt a n i f : frame_run pt a n !! i = Some f -> pt !! (a + Z.of_nat i) = Some (Frame f).
Proof.
  revert a i. induction n as [|n IH]; intros a i; [done |]. cbn. destruct (pt !! a) as [[g|]|] eqn:Ea; [|done..].
  destruct i as [|i]; cbn; [intros [= ->]; by rewrite Z.add_0_r |]. intros Hf. apply IH in Hf. rewrite <- Hf. f_equal. lia.
Qed.

Lemma pin_all_app l1 l2 p : pin_all (l1 ++ l2) p = pin_all l2 (pin_all l1 p).
Proof. apply foldl_app. Qed.

(** The frames [l] are those of the pages from [S] on. *)
Definition run_of (x : mmst) (S : Z) (l : list Z) : Prop := forall i f, l !! i = Some f -> mm_pt x !! (S + Z.of_nat i) = Some (Frame f).

Definition pinned (l : list Z) (x : mmst) : mmst := set_pins (pin_all l (mm_pins x)) x.

Lemma pinned_nil x : pinned [] x = x.
Proof. by destruct x. Qed.

Section pinning.
Context (E : menv) (x : mmst) (S : Z).

Lemma px_gup got n (Q : Z * list Z -> mmst -> Prop) R :
  (forall c, c <= 0 -> Q (c, []) (pinned got x)) ->
  (forall l, l <> [] -> Z.of_nat (length l) <= Z.max 0 n -> run_of x (S + Z.of_nat (length got)) l -> Q (Z.of_nat (length l), l) (pinned (got ++ l) x)) ->
  px (get_user_pages E (S * PAGE_SIZE + Z.of_nat (length got) * PAGE_SIZE) n) Q R (pinned got x).
Proof.
  intros H0 Hl. unfold get_user_pages. apply px_then, px_tick. intros t. apply px_then, px_getx.
  rewrite <- Z.mul_add_distr_r. destruct (Z.leb_spec (n_gup E t ((S + Z.of_nat (length got)) * PAGE_SIZE) n) 0); [by apply px_done, H0 |].
  rewrite Z.div_mul by by unfold PAGE_SIZE. cbn [mm_pt pinned set_pins]. set (l := frame_run _ _ _).
  pose proof (frame_run_length (mm_pt x) (S + Z.of_nat (length got)) (Z.to_nat (Z.min (n_gup E t ((S + Z.of_nat (length got)) * PAGE_SIZE) n) n))) as Hlen. fold l in Hlen.
  apply px_then, px_upd, px_done. change (mm_pins (pinned got x)) with (pin_all got (mm_pins x)).
  replace (set_pins _ (pinned got x)) with (pinned (got ++ l) x) by (unfold pinned; by rewrite pin_all_app).
  destruct l as [|f l'] eqn:El; [cbn [length Z.of_nat Z.eqb]; rewrite app_nil_r; by apply H0 |]. rewrite <- El in *.
  rewrite (proj2 (Z.eqb_neq _ _)) by (rewrite El; cbn [length]; lia). apply Hl; [by rewrite El | lia |].
  intros i g Hg. by apply frame_run_lookup in Hg.
Qed.

(** With as much fuel as pages are missing, the loop comes to an end. *)
Lemma px_pin_loop fuel npages got :
  npages - Z.of_nat (length got) <= Z.of_nat fuel -> Z.of_nat (length got) <= Z.max 0 npages -> run_of x S got ->
  px (pin_loop E fuel (S * PAGE_SIZE) npages got)
    (fun p y => exists r l, p = Some (r, l) /\ y = pinned l x /\ run_of x S l /\ (r = 0 -> Z.of_nat (length l) = Z.max 0 npages)) (fun _ _ => False) (pinned got x).
Proof.
  revert got. induction fuel as [|fuel IH]; intros got Hf Hg Hr; cbn [pin_loop]; destruct (Z.ltb_spec (Z.of_nat (length got)) npages) as [Hlt|Hge].
  - lia.
  - apply px_done. exists 0, got. repeat split; try done. lia.
  - apply px_then, px_gup.
    + intros c Hc. cbn [fst]. rewrite (proj2 (Z.leb_le _ _) Hc). apply px_done. eexists _, got. split; [reflexivity |]. repeat split; try done.
      destruct (Z.ltb_spec c 0); [lia | done].
    + intros l Hl Hn Hrl. cbn [fst snd]. assert (0 < length l)%nat by (destruct l; [done | cbn; lia]).
      rewrite (proj2 (Z.leb_gt _ _)) by lia. apply IH; rewrite ?length_app; [lia | lia |].
      intros i f Hi. apply lookup_app_Some in Hi as [Hi|[Hi1 Hi2]]; [by apply Hr |]. apply Hrl in Hi2.
      by replace (S + Z.of_nat i) with (S + Z.of_nat (length got) + Z.of_nat (i - length got)) by lia.
  - apply px_done. exists 0, got. repeat split; try done. lia.
Qed.

End pinning.

(** ** The whole call *)

Lemma cow_dropped flags : is_cow_mapping (if is_cow_mapping flags then Z.ldiff flags VM_MAYWRITE else flags) = false.
Proof.
  destruct (is_cow_mapping flags) eqn:Ec; [|done]. unfold is_cow_mapping. apply Z.eqb_neq. intros H.
  assert (Z.testbit (Z.land (Z.ldiff flags VM_MAYWRITE) (Z.lor VM_SHARED VM_MAYWRITE)) 5 = Z.testbit VM_MAYWRITE 5) as Hb by by rewrite H.
  rewrite Z.land_spec, Z.ldiff_spec in Hb. cbn in Hb. by rewrite andb_false_r in Hb.
Qed.

Lemma px_convert E start end_ (Q : Z -> mmst -> Prop) R x :
  (forall r, r <> 0 -> Q r x) -> (forall f, is_cow_mapping f = false -> Q 0 (set_vmflags f x)) -> px (convert_vma E start end_) Q R x.
Proof.
  intros H1 H2. unfold convert_vma. apply px_then. unfold find_vma. apply px_then, px_tick. intros t. apply px_done.
  destruct (n_vma E t start) as [[vs ve]|]; [|by apply px_done, H1]. destruct (_ || _); [by apply px_done, H1 |].
  apply px_then. unfold add_flags. apply px_upd, px_then, px_upd, px_done. cbn [mm_flags set_vmflags]. set (f := Z.lor _ _).
  pose proof (cow_dropped f) as Hc. by destruct (is_cow_mapping f); apply H2.
Qed.

(** What holds whatever fails, and what holds as long as the page table can be filled;
    [S], [N]: the range in pages. *)
Definition kept_all (E : menv) (ctx : mctx) (S N r : Z) (x y : mmst) : Prop :=
  (forall f, (mm_pins y).[f] = (mm_pins x).[f]) /\ mm_slots y = mm_slots x /\ owned E x y /\
  ((forall t, n_remap E t = 0) ->
     wf y /\ (forall a, seen y a = seen x a) /\
     (r = 0 -> forall a, S <= a < S + N -> exists g, mm_pt y !! a = Some (Host g) /\
        mc_window ctx <= g * PAGE_SIZE /\ (g + 1) * PAGE_SIZE <= mc_window ctx + mc_window_len ctx)).

Lemma owned_refl E x : owned E x x.
Proof. exists []. rewrite app_nil_r. split; [done |]. intros _. cbn. by rewrite !(right_id_L ∅ (∪)). Qed.

Section call.
Context (E : menv) (ctx : mctx) (sp : Z) (Hsp : 0 < sp) (Hslot : mc_slot_size ctx = sp * PAGE_SIZE).
Context (Hw : 0 < mc_window ctx) (Hwl : 0 < mc_window_len ctx) (Hws : mc_window ctx + mc_window_len ctx < 2 ^ 64) (Hwa : (PAGE_SIZE | mc_window ctx)).
Context (x : mmst) (Hwf : wf x) (S N prot : Z) (HNb : 0 <= N < 2 ^ 40).

(** Giving the pins back undoes the pinning. *)
Lemma kept_unpinned l r : r <> 0 -> kept_all E ctx S N r x (set_pins (unpin_all l (mm_pins (pinned l x))) (pinned l x)).
Proof.
  intros Hr. split; [intros f; cbn; rewrite unpin_all_get, pin_all_get; lia |]. split; [done |]. split; [exact (owned_refl E x) |].
  intros _. split; [by destruct Hwf; split |]. by split.
Qed.

Lemma px_migrate_pinned pages :
  Z.of_nat (length pages) = N -> run_of x S pages ->
  px (migrate_pinned E ctx (S * PAGE_SIZE) ((S + N) * PAGE_SIZE) prot pages) (fun _ _ => False) (fun r y => kept_all E ctx S N r x y) (pinned pages x).
Proof.
  intros HN Hrun. unfold migrate_pinned. apply px_then, px_convert.
  { intros r Hr. rewrite (proj2 (Z.eqb_neq _ _) Hr). cbn [negb]. unfold err_unpin. apply px_then. unfold put_pages. apply px_upd, px_ret. by apply kept_unpinned. }
  intros fl Hfl. cbn [Z.eqb negb]. replace ((S + N) * PAGE_SIZE - S * PAGE_SIZE) with (N * PAGE_SIZE) by lia. set (x0 := set_vmflags fl (pinned pages x)).
  assert (wf x0) as Hwf0 by by destruct Hwf; split.
  assert (forall q, 0 <= q < N -> exists f, mm_pt x0 !! (S + q) = Some (Frame f) /\ pages !! Z.to_nat q = Some f) as Hpages.
  { intros q Hq. destruct (lookup_lt_is_Some_2 pages (Z.to_nat q)) as [f Hf]; [lia |]. exists f. split; [|done].
    apply Hrun in Hf. by rewrite Z2Nat.id in Hf by lia. }
  assert (minv E ctx pages S x0 0 x0) as Hm0.
  { split; [split | done | done | done | intros; lia | done]; [done | done | intros f; change (occ f (take (Z.to_nat 0) pages)) with 0; lia | apply owned_refl]. }
  apply px_then. eapply px_mono; [apply (px_migrate_chunks E ctx sp); first [done | lia] | | done].
  assert (forall f, (mm_pins x0).[f] = (mm_pins x).[f] + occ f pages) as Hpin by (intros f; apply pin_all_get).
  intros [r k] y [[E0 Hy]|[Hk (Hr & Hb & Hy)]]; cbn [fst snd] in *.
  - rewrite E0. cbn [Z.eqb negb]. apply px_ret. destruct Hy as [[B1 B2 B3 B4] H1 H2 H3 H4 H5]. split; [|split; [done | split; [exact B4 |]]].
    + intros f. rewrite B3, Hpin, firstn_all2 by lia. lia.
    + intros _. split; [done |]. split; [done |]. intros _ a Ha. apply H4. lia.
  - rewrite (proj2 (Z.eqb_neq _ _) Hr). cbn [negb]. unfold err_unpin. apply px_then. unfold put_pages. apply px_upd, px_ret.
    destruct Hb as [B1 B2 B3 B4]. split; [|split; [done | split; [exact B4 |]]].
    + intros f. cbn. rewrite unpin_all_get, B3, Hpin. pose proof (occ_take_drop f (Z.to_nat k) pages). lia.
    + intros H0. destruct (Hy H0) as [_ H1 H2 H3 H4 H5]. split; [by destruct H1; split |]. by split.
Qed.

End call.

(** What is fixed about the device: a slot holds whole pages, and the window lies on
    pages and below the end of the address space. *)
Record sane (ctx : mctx) : Prop := {
  sane_slot : (PAGE_SIZE | mc_slot_size ctx);
  sane_window : 0 < mc_window ctx;
  sane_len : 0 < mc_window_len ctx;
  sane_end : mc_window ctx + mc_window_len ctx < 2 ^ 64;
  sane_align : (PAGE_SIZE | mc_window ctx)
}.

(** The range in pages. *)
Definition first_page (gva : Z) : Z := gva / PAGE_SIZE.
Definition page_count (gva len : Z) : Z := u64 (gva + len + PAGE_SIZE - 1) / PAGE_SIZE - gva / PAGE_SIZE.

Lemma range_pages gva len :
  0 <= gva < 2 ^ 64 -> range_start gva = first_page gva * PAGE_SIZE /\ range_end gva len = (first_page gva + page_count gva len) * PAGE_SIZE.
Proof.
  intros Hg. unfold range_start, range_end, first_page, page_count. unfold PAGE_SIZE. rewrite !mask_down_4096 by (done || apply u64_range).
  pose proof (Z.div_mod gva 4096 ltac:(lia)). pose proof (Z.div_mod (u64 (gva + len + 4096 - 1)) 4096 ltac:(lia)). lia.
Qed.

Lemma px_migrate_range E ctx gva len prot x :
  sane ctx -> wf x -> 0 <= gva < 2 ^ 64 ->
  px (cpu_pages_migrate_range E ctx gva len prot) (fun _ _ => False)
    (fun r y => y = x /\ r = 0 /\ (len = 0 \/ page_tracked (range_start gva) (mm_cpu x) = true) \/
                kept_all E ctx (first_page gva) (page_count gva len) r x y) x.
Proof.
  intros [[sp Hslot] Hw Hwl Hws Hwa] Hwf Hg. destruct (range_pages gva len Hg) as [Es Ee]. unfold cpu_pages_migrate_range.
  assert (forall r, r <> 0 -> kept_all E ctx (first_page gva) (page_count gva len) r x x) as Hsame.
  { intros r Hr. split; [done |]. split; [done |]. split; [apply owned_refl |]. intros _. by split. }
  destruct (Z.eqb_spec len 0); [apply px_ret; auto |]. rewrite Es, Ee.
  destruct (Z.ltb_spec ((first_page gva + page_count gva len) * PAGE_SIZE) (first_page gva * PAGE_SIZE)); [apply px_ret; right; by apply Hsame |].
  destruct (Z.ltb_spec NVKVM_MIG_MAX_RANGE ((first_page gva + page_count gva len) * PAGE_SIZE - first_page gva * PAGE_SIZE)); [apply px_ret; right; by apply Hsame |].
  destruct (mc_isolate ctx =? 0); [apply px_ret; right; by apply Hsame |].
  destruct (Z.ltb_spec (mc_slot_size ctx) PAGE_SIZE); [apply px_ret; right; by apply Hsame |].
  apply px_then, px_getx. rewrite <- Es. destruct (page_tracked (range_start gva) (mm_cpu x)) eqn:Et; [apply px_ret; auto |]. rewrite Es.
  apply px_then, px_emit, px_then. unfold alloc_node. apply px_then, px_tick. intros t. apply px_done.
  destruct (n_alloc E t); cbn [negb]; [|apply px_ret; right; by apply Hsame].
  set (S := first_page gva) in *. set (N := page_count gva len) in *.
  replace ((S + N) * PAGE_SIZE - S * PAGE_SIZE) with (N * PAGE_SIZE) in * by lia. rewrite Z.div_mul by by unfold PAGE_SIZE.
  assert (0 <= N < 2 ^ 40) as HN by (unfold NVKVM_MIG_MAX_RANGE, PAGE_SIZE in *; lia).
  apply px_then. pose proof (px_pin_loop E x S (Z.to_nat N) N []) as Hpin. rewrite pinned_nil in Hpin.
  eapply px_mono; [apply Hpin; [cbn; lia | cbn; lia | done] | | done].
  intros p y (r & l & -> & -> & Hrun & Hlen). destruct (Z.eqb_spec r 0) as [->|Hr]; cbn [negb].
  - eapply px_mono; [apply (px_migrate_pinned E ctx sp) | done |]; try done; [unfold PAGE_SIZE in *; lia | rewrite Hlen by done; lia |]. auto.
  - unfold err_unpin. apply px_then. unfold put_pages. apply px_upd, px_ret. right. by apply kept_unpinned.
Qed.

Lemma migrate_range_runs E ctx gva len prot s :
  sane ctx -> wf (k_x s) -> 0 <= gva < 2 ^ 64 ->
  exists r s', nvkvm_cpu_pages_migrate_range E ctx gva len prot s = (Done r, s') /\
    (k_x s' = k_x s /\ r = 0 /\ (len = 0 \/ page_tracked (range_start gva) (mm_cpu (k_x s)) = true) \/
     kept_all E ctx (first_page gva) (page_count gva len) r (k_x s) (k_x s')).
Proof.
  intros Hs Hwf Hg. pose proof (px_migrate_range E ctx gva len prot (k_x s) Hs Hwf Hg s eq_refl) as H. unfold wp in H.
  unfold nvkvm_cpu_pages_migrate_range, mcall. destruct (cpu_pages_migrate_range E ctx gva len prot s) as [[[]|r|] s']; try done. by exists r, s'.
Qed.

(** C24. [migration_balanced]: moving a range to the host always comes back, and however it ends,
    with every frame as often pinned as before and no slot kept.  As long as nodes of the
    list can be allocated, every handle, copy in the isolate and mapping that is there
    in addition belongs to an entry of the list. *)
Theorem migration_balanced E ctx gva len prot s :
  sane ctx -> wf (k_x s) -> 0 <= gva < 2 ^ 64 ->
  exists r s', nvkvm_cpu_pages_migrate_range E ctx gva len prot s = (Done r, s') /\
    (forall f, (mm_pins (k_x s')).[f] = (mm_pins (k_x s)).[f]) /\ mm_slots (k_x s') = mm_slots (k_x s) /\ owned E (k_x s) (k_x s').
Proof.
  intros Hs Hwf Hg. destruct (migrate_range_runs E ctx gva len prot s Hs Hwf Hg) as (r & s' & Hr & [(Ex & _)|(H1 & H2 & H3 & _)]).
  - exists r, s'. rewrite Ex. split; [done |]. split; [done |]. split; [done | apply owned_refl].
  - by exists r, s'.
Qed.

(** C22. [migration_transparent]: as long as the kernel can fill the page table, a process sees in
    every page of its memory what it saw before, whether the call succeeds or fails.
    When it succeeds, every page of the range, as the code rounds its ends to pages modulo
    2^64, is one of the window, or the page the range starts with had been moved before. *)
Theorem migration_transparent E ctx gva len prot s :
  sane ctx -> wf (k_x s) -> 0 <= gva < 2 ^ 64 -> (forall t, n_remap E t = 0) ->
  exists r s', nvkvm_cpu_pages_migrate_range E ctx gva len prot s = (Done r, s') /\
    wf (k_x s') /\ (forall a, seen (k_x s') a = seen (k_x s) a) /\
    (r = 0 -> len = 0 \/ page_tracked (range_start gva) (mm_cpu (k_x s)) = true \/
       forall a, first_page gva <= a < first_page gva + page_count gva len -> exists g, mm_pt (k_x s') !! a = Some (Host g) /\
         mc_window ctx <= g * PAGE_SIZE /\ (g + 1) * PAGE_SIZE <= mc_window ctx + mc_window_len ctx).
Proof.
  intros Hs Hwf Hg H0. destruct (migrate_range_runs E ctx gva len prot s Hs Hwf Hg) as (r & s' & Hr & [(Ex & _ & Hl)|(_ & _ & _ & H)]).
  - exists r, s'. rewrite Ex. split; [done |]. split; [done |]. split; [done |]. tauto.
  - destruct (H H0) as (H1 & H2 & H3). exists r, s'. split; [done |]. split; [done |]. split; [done |]. auto.
Qed.

End MmapMigrate.
