(* ===== verification/MmapPages.v ===== *)
(** * Pages of the guest process: writing back, releasing, and what goes wrong

    The rest of [GuestMmap]: the copy of single pages back from the host, the release
    of everything a file holds, a range moved and released again, and the cases in which
    memory of the process or of the host is lost. *)

From S2P Require Import Prelude Bytes Kmem GuestMmap MmapMigrate.
Local Open Scope Z_scope.
Local Open Scope nv_scope.

Module MmapPages.
Import Kmem GuestMmap MmapMigrate.

(** ** Writing back *)

(** The pages that are written back, were there no limit. *)
Fixpoint writable (l : list cpu_page) : list (Z * Z) :=
  match l with
  | [] => []
  | c :: l' => match cp_page c with
               | Some f => if Z.land (cp_prot c) PROT_WRITE =? 0 then writable l' else (cp_handle c, f) :: writable l'
               | None => writable l'
               end
  end.

Lemma wb_batch_take n l : 0 <= n -> wb_batch n l = take (Z.to_nat (NVKVM_WB_BATCH - n)) (writable l).
Proof.
  revert n. induction l as [|c l IH]; intros n Hn; cbn; [by destruct (Z.to_nat _) |].
  destruct (cp_page c) as [f|]; [|by apply IH]. destruct (Z.land (cp_prot c) PROT_WRITE =? 0); cbn [orb]; [by apply IH |].
  destruct (Z.leb_spec NVKVM_WB_BATCH n).
  - rewrite IH by done. by replace (Z.to_nat (NVKVM_WB_BATCH - n)) with 0%nat by lia.
  - rewrite IH by lia. by replace (Z.to_nat (NVKVM_WB_BATCH - n)) with (S (Z.to_nat (NVKVM_WB_BATCH - (n + 1)))) by lia.
Qed.

(** The host's page of a handle. *)
Definition host_page (x : mmst) (h : Z) : Z := default 0 (mm_fds x !! h ≫= (fun d => d !! 0)).

(** Frames and pins after the pages [l], which were pinned once more, are written back. *)
Definition written (x : mmst) (l : list (Z * Z)) : mmst :=
  set_frames (foldl (fun m e => <[snd e := host_page x (fst e)]> m) (mm_frames x) l)
    (set_pins (unpin_all (snd <$> l) (mm_pins x)) x).

Section writeback.
Context (E : menv) (Hslot : forall t, is_Some (n_slot E t)) (Hok : forall t, n_slot_ok E t = true) (Hread : forall t, n_read E t = 0).

Lemma px_wb_one h f x : px (wb_one E h f) (fun _ y => y = written x [(h, f)]) (fun _ _ => False) x.
Proof.
  unfold wb_one. apply px_then. unfold slot_alloc. apply px_then, px_tick. intros t. destruct (Hslot t) as [sl ->].
  apply px_then, px_upd, px_done, px_then, px_then. unfold read_memory_handle. apply px_then, px_tick. intros t1. apply px_then, px_getx, px_done.
  cbn [fst snd]. rewrite Hread. cbn [Z.eqb]. apply px_then, px_then. unfold slot_addr. apply px_then, px_tick. intros t2. rewrite Hok.
  apply px_done, px_then, px_upd, px_emit. unfold slot_free. apply px_upd. unfold put_pages. apply px_upd.
  destruct x. unfold written, set_frames, set_pins, set_slots. cbn. f_equal. lia.
Qed.

Lemma written_fds x l : mm_fds (written x l) = mm_fds x.
Proof. done. Qed.

Lemma px_wb_each l x : px (wb_each E l) (fun _ y => y = written x l) (fun _ _ => False) x.
Proof.
  revert x. induction l as [|[h f] l IH]; intros x; cbn [wb_each].
  - apply px_done. destruct x. done.
  - apply px_then. eapply px_mono; [apply px_wb_one | | done]. intros _ y ->. eapply px_mono; [apply IH | | done]. intros _ z ->.
    destruct x. done.
Qed.

End writeback.

Lemma lookup_written x l h f :
  NoDup (snd <$> l) -> (h, f) ∈ l -> mm_frames (written x l) !! f = Some (host_page x h).
Proof.
  intros Hnd Hin. cbn. revert Hnd Hin. induction l as [|[h' f'] l IH] using rev_ind; intros Hnd Hin; [by apply elem_of_nil in Hin |].
  rewrite foldl_app. cbn. rewrite fmap_app in Hnd. apply NoDup_app in Hnd as (Hnd & Hx & _).
  apply elem_of_app in Hin as [Hin|Hin%list_elem_of_singleton].
  - rewrite lookup_insert_ne; [by apply IH |]. intros ->. apply (Hx f); [|cbn; set_solver]. apply list_elem_of_fmap. by exists (h, f).
  - simplify_eq. by rewrite lookup_insert, decide_True.
Qed.

Lemma lookup_written_other x l f : f ∉ (snd <$> l) -> mm_frames (written x l) !! f = mm_frames x !! f.
Proof.
  cbn. induction l as [|[h' f'] l IH] using rev_ind; intros Hf; [done |]. rewrite foldl_app. cbn. rewrite fmap_app in Hf.
  rewrite lookup_insert_ne by (cbn in Hf; set_solver). apply IH. set_solver.
Qed.

Lemma px_run {A} (m : PM A) Q s : px m Q (fun _ _ => False) (k_x s) -> exists a s', m s = (Done a, s') /\ Q a (k_x s').
Proof. intros H. specialize (H s eq_refl). unfold wp in H. destruct (m s) as [[a|r|] s']; [eauto | done | done]. Qed.

(** [writeback_exact]: where the host answers, writing back gives each of the first 64 writable
    pages that were moved alone the contents it has on the host, changes no other frame,
    and leaves the pins and the slots as they were. *)
Theorem writeback_exact E s (l := take 64 (writable (mm_cpu (k_x s)))) :
  (forall t, is_Some (n_slot E t)) -> (forall t, n_slot_ok E t = true) -> (forall t, n_read E t = 0) -> NoDup (snd <$> l) ->
  exists s', nvkvm_cpu_pages_writeback E s = (Done tt, s') /\
    (forall h f, (h, f) ∈ l -> mm_frames (k_x s') !! f = Some (host_page (k_x s) h)) /\
    (forall f, f ∉ (snd <$> l) -> mm_frames (k_x s') !! f = mm_frames (k_x s) !! f) /\
    (forall f, (mm_pins (k_x s')).[f] = (mm_pins (k_x s)).[f]) /\ mm_slots (k_x s') = mm_slots (k_x s).
Proof.
  intros Hs Hok Hr Hnd.
  assert (px (nvkvm_cpu_pages_writeback E) (fun _ y => y = written (set_pins (pin_all (snd <$> l) (mm_pins (k_x s))) (k_x s)) l) (fun _ _ => False) (k_x s)) as H.
  { unfold nvkvm_cpu_pages_writeback. apply px_then, px_getx. rewrite wb_batch_take by lia. change (Z.to_nat (NVKVM_WB_BATCH - 0)) with 64%nat.
    apply px_then, px_upd. by apply px_wb_each. }
  apply px_run in H as ([] & s' & Hrun & Hx). exists s'. split; [done |]. rewrite Hx. split; [|split; [|split]].
  - intros h f Hin. by apply (lookup_written (set_pins _ (k_x s))).
  - intros f Hf. by apply (lookup_written_other (set_pins _ (k_x s))).
  - intros f. cbn. rewrite unpin_all_get, pin_all_get. lia.
  - done.
Qed.

(** ** Releasing *)

Definition freed_one (iso : bool) (x : mmst) (c : cpu_page) : mmst :=
  let y := if iso then set_iso (mm_iso (unmap_token (cp_token c) x) ∖ {[cp_handle c]}) (unmap_token (cp_token c) x) else x in
  let z := set_fds (delete (cp_handle c) (mm_fds y)) y in
  match cp_page c with Some f => set_pins (unpin_all [f] (mm_pins z)) z | None => z end.

Lemma px_free_each ctx l x :
  px (free_each ctx l) (fun _ y => y = foldl (freed_one (negb (mc_isolate ctx =? 0))) x l) (fun _ _ => False) x.
Proof.
  revert x. induction l as [|c l IH]; intros x; cbn [free_each]; [by apply px_done |].
  apply px_then. unfold free_one. apply px_then.
  assert (forall y, y = freed_one (negb (mc_isolate ctx =? 0)) x c -> px (free_each ctx l) (fun _ z => z = foldl (freed_one (negb (mc_isolate ctx =? 0))) x (c :: l)) (fun _ _ => False) y) as Hrest.
  { intros y ->. apply IH. }
  unfold freed_one in Hrest. destruct (mc_isolate ctx =? 0); cbn [negb] in *.
  - apply px_done, px_then. unfold close_handle. apply px_then, px_emit, px_upd. destruct (cp_page c); [unfold put_pages; apply px_upd | apply px_done]; by apply Hrest.
  - apply px_then. unfold munmap_on_isolate. apply px_then, px_emit, px_upd. unfold close_handle_on_isolate. apply px_upd.
    apply px_then. unfold close_handle. apply px_then, px_emit, px_upd. destruct (cp_page c); [unfold put_pages; apply px_upd | apply px_done]; by apply Hrest.
Qed.

(** The frames that single pages hold. *)
Definition held (l : list cpu_page) : list Z := omap cp_page l.

Lemma unmap_maps token x : dom (mm_maps (unmap_token token x)) = dom (mm_maps x) ∖ {[token]} /\
  mm_fds (unmap_token token x) = mm_fds x /\ mm_iso (unmap_token token x) = mm_iso x /\ mm_pins (unmap_token token x) = mm_pins x.
Proof.
  unfold unmap_token. destruct (mm_maps x !! token) as [[g n]|] eqn:Et; [split; [cbn; by rewrite dom_delete_L | done] |].
  split; [|done]. apply not_elem_of_dom in Et. set_solver.
Qed.

Lemma freed_one_effect c x (y := freed_one true x c) :
  dom (mm_fds y) = dom (mm_fds x) ∖ {[cp_handle c]} /\ mm_iso y = mm_iso x ∖ {[cp_handle c]} /\
  dom (mm_maps y) = dom (mm_maps x) ∖ {[cp_token c]} /\ forall f, (mm_pins y).[f] = (mm_pins x).[f] - occ f (held [c]).
Proof.
  destruct (unmap_maps (cp_token c) x) as (Hm & Hf & Hi & Hp). unfold y, freed_one, held.
  destruct (cp_page c) as [g|] eqn:Ec; cbn; rewrite ?dom_delete_L, ?Hm, ?Hf, ?Hi, ?Hp, ?Ec; repeat split.
  - intros f. unfold occ. rewrite filter_cons, aget_set. destruct (decide (g = f)); cbn [length filter list_filter]; subst; cbn; lia.
  - intros f. unfold occ. cbn. lia.
Qed.

Lemma freed_all l x (y := foldl (freed_one true) x l) :
  dom (mm_fds y) = dom (mm_fds x) ∖ list_to_set (cp_handle <$> l) /\ mm_iso y = mm_iso x ∖ list_to_set (cp_handle <$> l) /\
  dom (mm_maps y) = dom (mm_maps x) ∖ list_to_set (cp_token <$> l) /\ forall f, (mm_pins y).[f] = (mm_pins x).[f] - occ f (held l).
Proof.
  unfold y. clear y. revert x. induction l as [|c l IH]; intros x; cbn [foldl].
  - cbn. repeat split; try set_solver. intros f. unfold occ. cbn. lia.
  - destruct (IH (freed_one true x c)) as (-> & -> & -> & Hp). destruct (freed_one_effect c x) as (-> & -> & -> & Hp1).
    cbn [fmap list_fmap list_to_set foldr]. repeat split; [set_solver.. |]. intros f. rewrite Hp, Hp1.
    change (held (c :: l)) with (held ([c] ++ l)). unfold held. rewrite omap_app, occ_app. lia.
Qed.

Lemma freed_cpu l y : mm_cpu (foldl (freed_one true) y l) = mm_cpu y.
Proof.
  revert y. induction l as [|c l IH]; intros y; [done |]. cbn [foldl]. rewrite IH. unfold freed_one, unmap_token.
  by destruct (cp_page c), (mm_maps y !! cp_token c) as [[]|].
Qed.

Lemma free_runs ctx s :
  mc_isolate ctx <> 0 -> exists s', nvkvm_cpu_pages_free ctx s = (Done tt, s') /\ k_x s' = foldl (freed_one true) (set_cpu [] (k_x s)) (mm_cpu (k_x s)).
Proof.
  intros Hi.
  assert (px (nvkvm_cpu_pages_free ctx) (fun _ y => y = foldl (freed_one true) (set_cpu [] (k_x s)) (mm_cpu (k_x s))) (fun _ _ => False) (k_x s)) as H.
  { unfold nvkvm_cpu_pages_free. apply px_then, px_getx, px_then, px_upd. eapply px_mono; [apply px_free_each | | done].
    intros _ y ->. by rewrite (proj2 (Z.eqb_neq _ _) Hi). }
  apply px_run in H as ([] & s' & Hrun & Hx). by exists s'.
Qed.

(** [pages_free_exact]: releasing the pages of a file with an isolate leaves none of them
    behind: the list is empty, each handle of it is closed on both sides, each of its
    mappings is gone, and each frame it held is released as often as it was held. *)
Theorem pages_free_exact ctx s (l := mm_cpu (k_x s)) :
  mc_isolate ctx <> 0 ->
  exists s', nvkvm_cpu_pages_free ctx s = (Done tt, s') /\ mm_cpu (k_x s') = [] /\
    dom (mm_fds (k_x s')) = dom (mm_fds (k_x s)) ∖ list_to_set (cp_handle <$> l) /\
    mm_iso (k_x s') = mm_iso (k_x s) ∖ list_to_set (cp_handle <$> l) /\
    dom (mm_maps (k_x s')) = dom (mm_maps (k_x s)) ∖ list_to_set (cp_token <$> l) /\
    forall f, (mm_pins (k_x s')).[f] = (mm_pins (k_x s)).[f] - occ f (held l).
Proof.
  intros Hi. destruct (free_runs ctx s Hi) as (s' & Hrun & Hx). exists s'. split; [done |]. rewrite Hx.
  split; [apply freed_cpu | apply (freed_all l (set_cpu [] (k_x s)))].
Qed.

Lemma held_none l : Forall (fun c => cp_page c = None) l -> held l = [].
Proof. induction 1 as [|c l Hc _ IH]; [done |]. unfold held in *. cbn. by rewrite Hc. Qed.

Lemma set_undo (A B C : gset Z) : A = B ∪ C -> (forall c, c ∈ C -> c ∉ B) -> A ∖ C = B.
Proof. intros -> H. set_solver. Qed.

(** [migrate_release_roundtrip]: a file with nothing moved yet that moves a range and is then
    closed leaves on the host and in the isolate what was there before, and every frame
    as often pinned as before, whether the move succeeded or failed. *)
Theorem migrate_release_roundtrip E ctx gva len prot s :
  sane ctx -> wf (k_x s) -> 0 <= gva < 2 ^ 64 -> mc_isolate ctx <> 0 -> mm_cpu (k_x s) = [] -> (forall t, n_alloc E t = true) ->
  exists r s1 s2, nvkvm_cpu_pages_migrate_range E ctx gva len prot s = (Done r, s1) /\ nvkvm_cpu_pages_free ctx s1 = (Done tt, s2) /\
    dom (mm_fds (k_x s2)) = dom (mm_fds (k_x s)) /\ mm_iso (k_x s2) = mm_iso (k_x s) /\ dom (mm_maps (k_x s2)) = dom (mm_maps (k_x s)) /\
    mm_cpu (k_x s2) = [] /\ forall f, (mm_pins (k_x s2)).[f] = (mm_pins (k_x s)).[f].
Proof.
  intros Hs Hwf Hg Hi Hc Ha. destruct (migrate_range_runs E ctx gva len prot s Hs Hwf Hg) as (r & s1 & Hr & Hk).
  assert ((forall f, (mm_pins (k_x s1)).[f] = (mm_pins (k_x s)).[f]) /\ owned E (k_x s) (k_x s1)) as [Hp (new & Hn & Ho)].
  { destruct Hk as [(-> & _)|(H1 & _ & H3 & _)]; [split; [done | apply owned_refl] | done]. }
  destruct (Ho Ha) as (Hf & Hiso & Hm & Hd). rewrite Hc in Hn. cbn in Hn. destruct (free_runs ctx s1 Hi) as (s2 & H2 & Hx).
  exists r, s1, s2. split; [done |]. split; [done |]. rewrite Hx, Hn.
  destruct (freed_all new (set_cpu [] (k_x s1))) as (E1 & E2 & E3 & E4). rewrite Forall_forall in Hd.
  assert (forall h, h ∈ (list_to_set (cp_handle <$> new) : gset Z) -> h ∉ dom (mm_fds (k_x s))) as Dh.
  { intros h (c & -> & Hin)%elem_of_list_to_set%list_elem_of_fmap. by apply Hd. }
  split; [rewrite E1; by apply set_undo |]. split; [rewrite E2; apply set_undo; [done |]; intros h Hh Hin; apply (Dh h Hh); by apply (wf_iso _ Hwf) |].
  split; [rewrite E3; apply set_undo; [done |]; intros t (c & -> & Hin)%elem_of_list_to_set%list_elem_of_fmap; by apply Hd |].
  split; [by rewrite freed_cpu |]. intros f. rewrite E4, held_none; [cbn; rewrite Hp; unfold occ; cbn; lia |].
  apply Forall_forall. intros c Hin. by apply Hd.
Qed.

(** ** Examples *)

(** A kernel and a host that do all they are asked; [refill]: the answers of
    [remap_pfn_range], [gpa]: the addresses of the host. *)
Definition ex_menv (refill : Z) (gpa : nat -> Z) : menv :=
  MEnv (fun _ => true) (fun _ _ n => n) (fun _ _ => Some (0x10000, 0x20000)) (fun _ => refill) (fun _ => Some 0) (fun _ => true)
    (fun _ => 0) (fun _ => 0) (fun _ => 0) (fun _ => 0) (fun t => (0, gpa t)) (fun _ _ => Some (MRegion 1 7 0 0x1000 0)).

Definition ex_gpas (t : nat) : Z := 2 ^ 32 + Z.of_nat t * 2 ^ 21.
Definition ex_mctx : mctx := MCtx 7 0 3 8192 (2 ^ 32) (2 ^ 37).

(** Three pages at 0x10000, private and writable. *)
Definition ex_mm : mmst :=
  MMSt {[1 := 11; 2 := 12; 3 := 13]} ∅ {[0x10 := Frame 1; 0x11 := Frame 2; 0x12 := Frame 3]} 0x33 ∅ ∅ ∅ ∅ 0 [] [].

Definition ex_mst (x : mmst) : kst mmst mact := KSt ∅ 0 0 [] x.

Lemma ex_sane : sane ex_mctx.
Proof. split; cbn; try lia; [by exists 2 | by exists (2 ^ 20)]. Qed.

Lemma ex_wf : wf ex_mm.
Proof.
  split; cbn.
  - intros a f Ha. apply lookup_insert_Some in Ha as [[<- [= <-]]|[_ Ha]]; [by eexists |].
    apply lookup_insert_Some in Ha as [[<- [= <-]]|[_ Ha]]; [by eexists |]. apply lookup_singleton_Some in Ha as [<- [= <-]]. by eexists.
  - intros a g Ha. apply lookup_insert_Some in Ha as [[<- [=]]|[_ Ha]]. apply lookup_insert_Some in Ha as [[<- [=]]|[_ Ha]].
    by apply lookup_singleton_Some in Ha as [<- [=]].
  - intros g h i Hg. by rewrite lookup_empty in Hg.
  - set_solver.
Qed.

Lemma migration_balanced_witness :
  sane ex_mctx /\ wf ex_mm /\
  exists r s', nvkvm_cpu_pages_migrate_range (ex_menv 0 ex_gpas) ex_mctx 0x10010 0x2ff0 3 (ex_mst ex_mm) = (Done r, s') /\
    (forall f, (mm_pins (k_x s')).[f] = (mm_pins ex_mm).[f]) /\ mm_slots (k_x s') = mm_slots ex_mm /\ owned (ex_menv 0 ex_gpas) ex_mm (k_x s').
Proof.
  split; [apply ex_sane |]. split; [apply ex_wf |].
  apply (migration_balanced (ex_menv 0 ex_gpas) ex_mctx 0x10010 0x2ff0 3 (ex_mst ex_mm)); [apply ex_sane | apply ex_wf | lia].
Defined.

Lemma migration_transparent_witness :
  page_count 0x10010 0x2ff0 = 3 /\
  exists r s', nvkvm_cpu_pages_migrate_range (ex_menv 0 ex_gpas) ex_mctx 0x10010 0x2ff0 3 (ex_mst ex_mm) = (Done r, s') /\
    wf (k_x s') /\ (forall a, seen (k_x s') a = seen ex_mm a) /\
    (r = 0 -> 0x2ff0 = 0 \/ page_tracked (range_start 0x10010) (mm_cpu ex_mm) = true \/
       forall a, first_page 0x10010 <= a < first_page 0x10010 + page_count 0x10010 0x2ff0 -> exists g, mm_pt (k_x s') !! a = Some (Host g) /\
         mc_window ex_mctx <= g * PAGE_SIZE /\ (g + 1) * PAGE_SIZE <= mc_window ex_mctx + mc_window_len ex_mctx).
Proof.
  split; [vm_compute; reflexivity |].
  apply (migration_transparent (ex_menv 0 ex_gpas) ex_mctx 0x10010 0x2ff0 3 (ex_mst ex_mm)); [apply ex_sane | apply ex_wf | lia | reflexivity].
Defined.

Lemma window_check_exact_witness :
  0 < mc_window ex_mctx /\ (nvkvm_gpa_in_mmap_window ex_mctx (2 ^ 32) 4096 = true <-> mc_window ex_mctx <= 2 ^ 32 /\ 2 ^ 32 + 4096 <= mc_window ex_mctx + mc_window_len ex_mctx).
Proof. split; [vm_compute; reflexivity |]. apply window_check_exact; cbn; lia. Defined.

Lemma migrate_release_roundtrip_witness :
  mm_cpu ex_mm = [] /\
  exists r s1 s2, nvkvm_cpu_pages_migrate_range (ex_menv 0 ex_gpas) ex_mctx 0x10010 0x2ff0 3 (ex_mst ex_mm) = (Done r, s1) /\
    nvkvm_cpu_pages_free ex_mctx s1 = (Done tt, s2) /\
    dom (mm_fds (k_x s2)) = dom (mm_fds ex_mm) /\ mm_iso (k_x s2) = mm_iso ex_mm /\ dom (mm_maps (k_x s2)) = dom (mm_maps ex_mm) /\
    mm_cpu (k_x s2) = [] /\ forall f, (mm_pins (k_x s2)).[f] = (mm_pins ex_mm).[f].
Proof.
  split; [reflexivity |].
  apply (migrate_release_roundtrip (ex_menv 0 ex_gpas) ex_mctx 0x10010 0x2ff0 3 (ex_mst ex_mm)); [apply ex_sane | apply ex_wf | lia | discriminate | reflexivity | reflexivity].
Defined.

(** One page moved alone. *)
Definition ex_single (n : nat) : list cpu_page := (fun i => CPage (Some i) (i * 4096) 0 i i 3) <$> seqZ 1 (Z.of_nat n).
Definition ex_moved (n : nat) : mmst :=
  MMSt (list_to_map ((fun i => (i, 0)) <$> seqZ 1 (Z.of_nat n))) ∅ ∅ 0 (list_to_map ((fun i => (i, {[0 := i]})) <$> seqZ 1 (Z.of_nat n))) ∅ ∅ ∅ 0 (ex_single n) [].

Lemma writeback_exact_witness :
  NoDup (snd <$> take 64 (writable (ex_single 2))) /\
  exists s', nvkvm_cpu_pages_writeback (ex_menv 0 ex_gpas) (ex_mst (ex_moved 2)) = (Done tt, s') /\
    (forall h f, (h, f) ∈ take 64 (writable (ex_single 2)) -> mm_frames (k_x s') !! f = Some (host_page (ex_moved 2) h)) /\
    (forall f, f ∉ (snd <$> take 64 (writable (ex_single 2))) -> mm_frames (k_x s') !! f = mm_frames (ex_moved 2) !! f) /\
    (forall f, (mm_pins (k_x s')).[f] = (mm_pins (ex_moved 2)).[f]) /\ mm_slots (k_x s') = mm_slots (ex_moved 2).
Proof.
  assert (NoDup (snd <$> take 64 (writable (ex_single 2)))) as Hnd by (apply (bool_decide_unpack _); vm_compute; exact I).
  split; [exact Hnd |]. apply (writeback_exact (ex_menv 0 ex_gpas) (ex_mst (ex_moved 2))); [intros t; exists 0; reflexivity | reflexivity | reflexivity | exact Hnd].
Defined.

Lemma pages_free_exact_witness :
  mc_isolate ex_mctx <> 0 /\
  exists s', nvkvm_cpu_pages_free ex_mctx (ex_mst (ex_moved 2)) = (Done tt, s') /\ mm_cpu (k_x s') = [] /\
    dom (mm_fds (k_x s')) = dom (mm_fds (ex_moved 2)) ∖ list_to_set (cp_handle <$> ex_single 2) /\
    mm_iso (k_x s') = mm_iso (ex_moved 2) ∖ list_to_set (cp_handle <$> ex_single 2) /\
    dom (mm_maps (k_x s')) = dom (mm_maps (ex_moved 2)) ∖ list_to_set (cp_token <$> ex_single 2) /\
    forall f, (mm_pins (k_x s')).[f] = (mm_pins (ex_moved 2)).[f] - occ f (held (ex_single 2)).
Proof. split; [discriminate |]. apply (pages_free_exact ex_mctx (ex_mst (ex_moved 2))). discriminate. Defined.

(** ** What goes wrong *)

(** [process_memory_lost]: five ways in which data of the process are lost or not shared.  When
    the page table cannot be filled the chunk has been emptied before, and its pages are
    gone.  When the file is closed the host's pages are released while the process still
    maps them.  Of 65 single pages the last is never written back.  A range is taken
    for moved when its first page is the first page of one that was.  And a length just
    below 2^64 wraps around to nothing, which is reported as success. *)
Example process_memory_lost :
  seen ex_mm 0x10 = Some 11 /\
  (let '(r, s) := nvkvm_cpu_pages_migrate_range (ex_menv (- ENOMEM) ex_gpas) ex_mctx 0x10000 0x1000 3 (ex_mst ex_mm) in
   r = Done (- ENOMEM) /\ seen (k_x s) 0x10 = None) /\
  (let '(r, s) := nvkvm_cpu_pages_migrate_range (ex_menv 0 ex_gpas) ex_mctx 0x10000 0x1000 3 (ex_mst ex_mm) in
   r = Done 0 /\ seen (k_x s) 0x10 = Some 11 /\ seen (k_x (snd (nvkvm_cpu_pages_free ex_mctx s))) 0x10 = None /\
   let '(r', s') := nvkvm_cpu_pages_migrate_range (ex_menv 0 ex_gpas) ex_mctx 0x10000 0x3000 3 s in
   r' = Done 0 /\ mm_pt (k_x s') !! 0x12 = Some (Frame 3)) /\
  (let s := snd (nvkvm_cpu_pages_writeback (ex_menv 0 ex_gpas) (ex_mst (ex_moved 65))) in
   mm_frames (k_x s) !! 64 = Some 64 /\ mm_frames (k_x s) !! 65 = Some 0) /\
  (let '(r, s) := nvkvm_cpu_pages_migrate_range (ex_menv 0 ex_gpas) ex_mctx 0x10000 (2 ^ 64 - 1) 3 (ex_mst ex_mm) in
   r = Done 0 /\ mm_pt (k_x s) !! 0x10 = Some (Frame 1)).
Proof. vm_compute. repeat split. Qed.

(** [host_mappings_leak]: three ways in which something stays on the host that the module
    does not know of: a mapping whose address is refused, a mapping made again after a
    fault, and the copy in the isolate of a page that could not be mapped. *)
Theorem host_mappings_leak :
  (let '(r, s) := nvkvm_mmap_request (ex_menv 0 (fun _ => 0)) ex_mctx 0x10000 0x12000 0 (ex_mst ex_mm) in
   r = Done (- EIO) /\ size (mm_maps (k_x s)) = 1%nat /\ mm_regions (k_x s) = []) /\
  (let '(r, s) := nvkvm_efault_resolve (ex_menv 0 ex_gpas) ex_mctx 0x10000 (ex_mst ex_mm) in
   r = Done 0 /\ size (mm_maps (k_x s)) = 1%nat /\ mm_regions (k_x s) = []) /\
  (let E := ex_menv 0 ex_gpas in
   let E' := MEnv (n_alloc E) (n_gup E) (n_vma E) (n_remap E) (n_slot E) (n_slot_ok E) (n_open E) (n_write E) (n_read E) (n_copy E) (fun _ => (- ENOMEM, 0)) (n_region E) in
   let '(r, s) := nvkvm_cpu_page_migrate E' ex_mctx 0x10000 3 (ex_mst ex_mm) in
   r = Done (- ENOMEM) /\ size (mm_fds (k_x s)) = 0%nat /\ size (mm_iso (k_x s)) = 1%nat /\ mm_cpu (k_x s) = []).
Proof. vm_compute. repeat split. Qed.

End MmapPages.
