(* ===== verification/GuestFiles.v ===== *)
(** * Open device files, sessions and buffer objects of the guest

    src/guest/nvkvm_main.c (opening, closing, polling and the events of the host),
    src/guest/nvkvm_session.c, and the objects of src/guest/nvkvm_drm.c that refer to open
    files.  Any number of threads run these functions at once; what one does under a
    lock, and every call to the host, is one step.  Sessions, file contexts and
    buffer objects are reached through pointers, and a step that follows a pointer to
    freed memory is [Oops].  The host is an interface with a state of its own. *)

From S2P Require Import Prelude HandleTable Ring Sessions Requests GuestMmap.
Local Open Scope Z_scope.
Local Open Scope nv_scope.

(** What the functions ask of the host: the first argument tells one answer from
    another.  An answer begins with 0 or a negative error. *)
Class file_host (H : Type) := FileHost {
  fh_create : nat -> Z -> H -> H * (Z * Z);
  fh_kill : nat -> Z -> H -> H;
  fh_ring : nat -> Z -> H -> H * (Z * (Z * Z));
  fh_open : nat -> Z -> Z -> H -> H * (Z * Z);
  fh_close_on : nat -> Z -> Z -> H -> H;
  fh_close : nat -> Z -> H -> H;
  fh_arm : nat -> Z -> Z -> H -> H * Z;
  fh_forward : nat -> Z -> Z -> H -> H * (Z * Z);
  fh_import : nat -> Z -> Z -> Z -> Z -> Z -> H -> H * (Z * Z)
}.

Module GuestFiles.

Definition NV_MAJOR : Z := 195.
Definition NV_MINOR_CONTROL : Z := 255.
Definition NV_MINOR_MODESET : Z := 254.

(** The device of [nvkvm_open]. *)
Definition open_dev_id (ctl_major uvm_major major minor : Z) : Z :=
  if (major =? ctl_major) && (minor =? NV_MINOR_CONTROL) then HTab.NVKVM_DEV_CTL
  else if (major =? NV_MAJOR) && (minor =? NV_MINOR_MODESET) then Sessions.NVKVM_DEV_MODESET
  else if major =? uvm_major then HTab.NVKVM_DEV_UVM
  else Requests.NVKVM_DEV_GPU minor.

(** ** Objects *)

(** [struct nvkvm_session]; [se_lock]: whether [isolate_lock] is held. *)
Record gsession := GSession {
  se_id : Z;
  se_mm : option Z;
  se_pid : option Z;
  se_refs : Z;
  se_iso : Z;
  se_lock : bool;
  se_ring : option Z;
  se_pump : bool
}.

(** [struct nvkvm_fd_ctx]; [fc_held]: whether its reference to the session is still
    counted, which the code has no field for. *)
Record fd_ctx := FdCtx {
  fc_handle : Z;
  fc_dev : Z;
  fc_session : option nat;
  fc_held : bool;
  fc_refs : Z;
  fc_events : Z;
  fc_armed : bool;
  fc_uvm : bool
}.

(** [struct nvkvm_gem_object]; [gm_dead]: the core has called its free function,
    [gm_held]: its reference to the context is still counted. *)
Record gem_object := Gem {
  gm_ctx : nat;
  gm_stub : Z;
  gm_xiso : Z * Z;
  gm_dead : bool;
  gm_held : bool
}.

(** The local variables of [nvkvm_session_put]. *)
Record dying := Dying { dm_iso : Z; dm_ring : option Z; dm_mm : option Z; dm_pid : option Z }.

(** ** Threads *)

(** Why a context is freed: an open that failed, or the last reference; then an
    object may be left to free. *)
Inductive closing := Failed (r : Z) | Closed (after : option nat).
Inductive dstage := D_unreg | D_close_on | D_close | D_pages.
Inductive kstage := K_pump | K_unmap | K_kill | K_mm | K_free.

Inductive fpc :=
| P_alloc (dev mm tgid : Z)
| P_session (c : nat) (mm tgid : Z)
| P_lock (c : nat)
| P_create (c s : nat)
| P_ring (c s : nat)
| P_handle (c : nat)
| P_uvm (c : nat)
| P_put (c : nat) (after : option nat)
| P_destroy (st : dstage) (c : nat) (after : option nat)
| P_drop (c : nat) (k : closing)
| P_teardown (st : kstage) (s : nat) (d : dying) (c : nat) (k : closing)
| P_ctx (c : nat) (k : closing)
| P_gem_close (g : nat)
| P_gem_free (g : nat)
| P_object (f c : nat)
| P_proxy (f c : nat) (stub : Z)
| P_broker (f g : nat)
| P_export_put (f c g : nat)
| P_export_use (f c : nat)
| P_arm (f c : nat).

(** The open file a thread works on, and the object it has looked up: neither is
    released meanwhile. *)
Definition uses (p : fpc) : option nat :=
  match p with
  | P_object f _ | P_proxy f _ _ | P_broker f _ | P_export_put f _ _ | P_export_use f _ | P_arm f _ => Some f
  | _ => None
  end.

Definition looks (p : fpc) : option nat :=
  match p with P_broker _ g | P_export_put _ _ g => Some g | _ => None end.

(** What is counted on the host and in the kernel: references to address spaces and
    pids, mappings of rings, isolates and handles. *)
Definition R_mm (m : Z) : Z * Z := (0, m).
Definition R_pid (p : Z) : Z * Z := (1, p).
Definition R_ring (g : Z) : Z * Z := (2, g).
Definition R_iso (i : Z) : Z * Z := (3, i).
Definition R_handle (h : Z) : Z * Z := (4, h).

Record fworld {H : Type} := FWorld {
  w_sess : gmap nat gsession;
  w_idr : gmap Z nat;
  w_ctx : gmap nat fd_ctx;
  w_evt : list nat;
  w_files : gmap nat nat;
  w_gems : gmap nat gem_object;
  w_pumps : gset nat;
  w_tasks : gmap nat fpc;
  w_next : nat;
  w_res : gmap (Z * Z) Z;
  w_host : H
}.
Arguments fworld : clear implicits.

Section files.
Context {H : Type} `{file_host H} (win : GuestMmap.mctx) (ctl_major uvm_major : Z).

Abbreviation world := (fworld H).

Inductive fout := Go (w : world) | Stuck | Oops.

(** ** Fields *)

Definition on_sess (v : gmap nat gsession) (w : world) : world :=
  FWorld _ v (w_idr w) (w_ctx w) (w_evt w) (w_files w) (w_gems w) (w_pumps w) (w_tasks w) (w_next w) (w_res w) (w_host w).
Definition on_idr (v : gmap Z nat) (w : world) : world :=
  FWorld _ (w_sess w) v (w_ctx w) (w_evt w) (w_files w) (w_gems w) (w_pumps w) (w_tasks w) (w_next w) (w_res w) (w_host w).
Definition on_ctx (v : gmap nat fd_ctx) (w : world) : world :=
  FWorld _ (w_sess w) (w_idr w) v (w_evt w) (w_files w) (w_gems w) (w_pumps w) (w_tasks w) (w_next w) (w_res w) (w_host w).
Definition on_evt (v : list nat) (w : world) : world :=
  FWorld _ (w_sess w) (w_idr w) (w_ctx w) v (w_files w) (w_gems w) (w_pumps w) (w_tasks w) (w_next w) (w_res w) (w_host w).
Definition on_files (v : gmap nat nat) (w : world) : world :=
  FWorld _ (w_sess w) (w_idr w) (w_ctx w) (w_evt w) v (w_gems w) (w_pumps w) (w_tasks w) (w_next w) (w_res w) (w_host w).
Definition on_gems (v : gmap nat gem_object) (w : world) : world :=
  FWorld _ (w_sess w) (w_idr w) (w_ctx w) (w_evt w) (w_files w) v (w_pumps w) (w_tasks w) (w_next w) (w_res w) (w_host w).
Definition on_pumps (v : gset nat) (w : world) : world :=
  FWorld _ (w_sess w) (w_idr w) (w_ctx w) (w_evt w) (w_files w) (w_gems w) v (w_tasks w) (w_next w) (w_res w) (w_host w).
Definition on_tasks (v : gmap nat fpc) (w : world) : world :=
  FWorld _ (w_sess w) (w_idr w) (w_ctx w) (w_evt w) (w_files w) (w_gems w) (w_pumps w) v (w_next w) (w_res w) (w_host w).
Definition on_next (v : nat) (w : world) : world :=
  FWorld _ (w_sess w) (w_idr w) (w_ctx w) (w_evt w) (w_files w) (w_gems w) (w_pumps w) (w_tasks w) v (w_res w) (w_host w).
Definition on_res (v : gmap (Z * Z) Z) (w : world) : world :=
  FWorld _ (w_sess w) (w_idr w) (w_ctx w) (w_evt w) (w_files w) (w_gems w) (w_pumps w) (w_tasks w) (w_next w) v (w_host w).
Definition on_host (v : H) (w : world) : world :=
  FWorld _ (w_sess w) (w_idr w) (w_ctx w) (w_evt w) (w_files w) (w_gems w) (w_pumps w) (w_tasks w) (w_next w) (w_res w) v.

Definition held_res (r : Z * Z) (w : world) : Z := default 0 (w_res w !! r).
Definition take_res (n : Z) (r : Z * Z) (w : world) : world := on_res (<[r := held_res r w + n]> (w_res w)) w.
Definition set_ctx (c : nat) (x : fd_ctx) (w : world) : world := on_ctx (<[c := x]> (w_ctx w)) w.
Definition set_sess (s : nat) (x : gsession) (w : world) : world := on_sess (<[s := x]> (w_sess w)) w.
Definition set_gem (g : nat) (x : gem_object) (w : world) : world := on_gems (<[g := x]> (w_gems w)) w.
Definition adv (t : nat) (p : fpc) (w : world) : world := on_tasks (<[t := p]> (w_tasks w)) w.
Definition fin (t : nat) (w : world) : world := on_tasks (delete t (w_tasks w)) w.

(** Following a pointer. *)
Definition at_ctx (c : nat) (w : world) (k : fd_ctx -> fout) : fout := match w_ctx w !! c with Some x => k x | None => Oops end.
Definition at_sess (s : nat) (w : world) (k : gsession -> fout) : fout := match w_sess w !! s with Some x => k x | None => Oops end.
Definition at_session (x : fd_ctx) (w : world) (k : nat -> gsession -> fout) : fout :=
  match fc_session x with Some s => at_sess s w (k s) | None => Oops end.
Definition at_gem (g : nat) (w : world) (k : gem_object -> fout) : fout := match w_gems w !! g with Some x => k x | None => Oops end.

Definition ctx_refs (n : Z) (x : fd_ctx) : fd_ctx :=
  FdCtx (fc_handle x) (fc_dev x) (fc_session x) (fc_held x) n (fc_events x) (fc_armed x) (fc_uvm x).
Definition ctx_session (s : option nat) (held : bool) (x : fd_ctx) : fd_ctx :=
  FdCtx (fc_handle x) (fc_dev x) s held (fc_refs x) (fc_events x) (fc_armed x) (fc_uvm x).
Definition ctx_handle (h : Z) (x : fd_ctx) : fd_ctx :=
  FdCtx h (fc_dev x) (fc_session x) (fc_held x) (fc_refs x) (fc_events x) (fc_armed x) (fc_uvm x).
Definition ctx_poll (events : Z) (armed : bool) (x : fd_ctx) : fd_ctx :=
  FdCtx (fc_handle x) (fc_dev x) (fc_session x) (fc_held x) (fc_refs x) events armed (fc_uvm x).
Definition ctx_uvm (u : bool) (x : fd_ctx) : fd_ctx :=
  FdCtx (fc_handle x) (fc_dev x) (fc_session x) (fc_held x) (fc_refs x) (fc_events x) (fc_armed x) u.

Definition sess_refs (n : Z) (x : gsession) : gsession :=
  GSession (se_id x) (se_mm x) (se_pid x) n (se_iso x) (se_lock x) (se_ring x) (se_pump x).
Definition sess_iso (i : Z) (lock : bool) (x : gsession) : gsession :=
  GSession (se_id x) (se_mm x) (se_pid x) (se_refs x) i lock (se_ring x) (se_pump x).
Definition sess_ring (r : option Z) (pump : bool) (x : gsession) : gsession :=
  GSession (se_id x) (se_mm x) (se_pid x) (se_refs x) (se_iso x) (se_lock x) r pump.

(** What decides a step besides: allocations and the like, and which answer the host
    gives. *)
Record answers := Ans { a_ok : bool; a_ok' : bool; a_ok'' : bool; a_seed : nat }.

(** ** Sessions *)

(** The session of an address space among those listed. *)
Fixpoint seek_mm (mm : Z) (l : list (Z * nat)) (w : world) : option (option nat) :=
  match l with
  | [] => Some None
  | (_, s) :: l' =>
      match w_sess w !! s with
      | None => None
      | Some x => if bool_decide (se_mm x = Some mm) then Some (Some s) else seek_mm mm l' w
      end
  end.

(** [idr_alloc] from 1 on. *)
Fixpoint lowest_free (n : nat) (i : Z) (m : gmap Z nat) : Z :=
  match n with
  | O => i
  | S n' => match m !! i with Some _ => lowest_free n' (i + 1) m | None => i end
  end.

Definition idr_alloc (m : gmap Z nat) : Z := lowest_free (size m) 1 m.

(** [None] is a fault.  [a_ok]: the allocation, [a_ok']: the id. *)
Definition nvkvm_session_get_or_create (a : answers) (mm tgid : Z) (w : world) : option (res nat * world) :=
  match seek_mm mm (map_to_list (w_idr w)) w with
  | None => None
  | Some (Some s) =>
      match w_sess w !! s with
      | Some x => Some (Ok s, set_sess s (sess_refs (se_refs x + 1) x) w)
      | None => None
      end
  | Some None =>
      if negb (a_ok a) then Some (Err ENOMEM, w)
      else
        let s := w_next w in
        let w1 := take_res 1 (R_pid tgid) (take_res 1 (R_mm mm) w) in
        if negb (a_ok' a) then Some (Err ENOMEM, take_res (-1) (R_mm mm) w1)
        else
          let id := idr_alloc (w_idr w) in
          let x := GSession id (Some mm) (Some tgid) 1 0 false None false in
          Some (Ok s, on_next (S s) (on_idr (<[id := s]> (w_idr w)) (set_sess s x w1)))
  end.

(** The part of [nvkvm_session_put] under the lock. *)
Definition session_put_locked (s : nat) (x : gsession) (w : world) : option dying * world :=
  if se_refs x - 1 =? 0 then
    (Some (Dying (se_iso x) (se_ring x) (se_mm x) (se_pid x)),
     on_idr (delete (se_id x) (w_idr w))
       (set_sess s (GSession (se_id x) None None 0 0 (se_lock x) None (se_pump x)) w))
  else (None, set_sess s (sess_refs (se_refs x - 1) x) w).

Definition drop_res (f : Z -> Z * Z) (o : option Z) (w : world) : world :=
  match o with Some v => take_res (-1) (f v) w | None => w end.

(** The rest of it, for the last reference. *)
Definition session_teardown (a : answers) (st : kstage) (t s : nat) (d : dying) (c : nat) (k : closing) (w : world) : fout :=
  let next st := P_teardown st s d c k in
  match st with
  | K_pump =>
      at_sess s w (fun x =>
        Go (adv t (next K_unmap)
          (on_pumps (if se_pump x then w_pumps w ∖ {[s]} else w_pumps w) (set_sess s (sess_ring (se_ring x) false x) w))))
  | K_unmap => Go (adv t (next K_kill) (drop_res R_ring (dm_ring d) w))
  | K_kill =>
      Go (adv t (next K_mm)
        (if dm_iso d =? 0 then w else take_res (-1) (R_iso (dm_iso d)) (on_host (fh_kill (a_seed a) (dm_iso d) (w_host w)) w)))
  | K_mm => Go (adv t (next K_free) (drop_res R_pid (dm_pid d) (drop_res R_mm (dm_mm d) w)))
  | K_free => at_sess s w (fun _ => Go (adv t (P_ctx c k) (on_sess (delete s (w_sess w)) w)))
  end.

(** [a_ok]: the mapping, [a_ok']: both control blocks read back, [a_ok'']: the pump's
    thread. *)
Definition nvkvm_session_setup_ring (a : answers) (s : nat) (x : gsession) (w : world) : world :=
  match se_ring x with
  | Some _ => w
  | None =>
      let '(h', (r, (gpa, bytes))) := fh_ring (a_seed a) (se_id x) (w_host w) in
      let w1 := on_host h' w in
      if negb (r =? 0) || (gpa =? 0) || negb (Ring.nvkvm_ring_size_ok bytes) then w1
      else if negb (GuestMmap.nvkvm_gpa_in_mmap_window win gpa (u32 (Ring.nvkvm_ring_region_size bytes))) then w1
      else if negb (a_ok a) then w1
      else if a_ok' a && a_ok'' a
      then on_pumps ({[s]} ∪ w_pumps w1) (take_res 1 (R_ring gpa) (set_sess s (sess_ring (Some gpa) true x) w1))
      else w1
  end.

Definition unlock (s : nat) (w : world) : fout :=
  at_sess s w (fun x => Go (set_sess s (sess_iso (se_iso x) false x) w)).

(** Going on with a step. *)
Definition go_on (o : fout) (f : world -> world) : fout := match o with Go w => Go (f w) | Stuck => Stuck | Oops => Oops end.

(** [nvkvm_ensure_isolate]: taking the lock, the call, and the ring. *)
Definition ensure_lock (t c : nat) (w : world) : fout :=
  at_ctx c w (fun x => at_session x w (fun s y =>
    if se_lock y then Stuck
    else if negb (se_iso y =? 0) then Go (adv t (P_handle c) w)
    else Go (adv t (P_create c s) (set_sess s (sess_iso 0 true y) w)))).

Definition ensure_create (a : answers) (t c s : nat) (w : world) : fout :=
  at_sess s w (fun y =>
    let '(h', (r, iso)) := fh_create (a_seed a) (se_id y) (w_host w) in
    let w1 := on_host h' w in
    if r =? 0
    then Go (adv t (P_ring c s) (set_sess s (sess_iso iso true y) (if iso =? 0 then w1 else take_res 1 (R_iso iso) w1)))
    else Go (adv t (P_drop c (Failed r)) (set_sess s (sess_iso (se_iso y) false y) w1))).

Definition ensure_ring (a : answers) (t c s : nat) (w : world) : fout :=
  at_sess s w (fun y => go_on (unlock s (nvkvm_session_setup_ring a s y w)) (adv t (P_handle c))).

(** ** Events *)

Definition nvkvm_evt_ctx_register (c : nat) (w : world) : world := on_evt (c :: w_evt w) w.
Definition nvkvm_evt_ctx_unregister (c : nat) (w : world) : world := on_evt (filter (fun d => d <> c) (w_evt w)) w.

Fixpoint evt_each (iso handle events : Z) (l : list nat) (w : world) : fout :=
  match l with
  | [] => Go w
  | c :: l' =>
      at_ctx c w (fun x =>
        if negb (fc_handle x =? handle) then evt_each iso handle events l' w
        else
          match fc_session x with
          | None => evt_each iso handle events l' w
          | Some s =>
              at_sess s w (fun y =>
                if se_iso y =? iso
                then evt_each iso handle events l' (set_ctx c (ctx_poll (Z.lor (fc_events x) events) false x) w)
                else evt_each iso handle events l' w)
          end)
  end.

Definition nvkvm_evt_deliver (iso handle events : Z) (w : world) : fout := evt_each iso handle events (w_evt w) w.

(** The events returned, and whether the host is asked to report the next. *)
Definition nvkvm_poll (iso : Z) (x : fd_ctx) : Z * bool * fd_ctx :=
  let ev := fc_events x in
  let arm := (ev =? 0) && negb (fc_handle x =? 0) && negb (iso =? 0) && negb (fc_armed x) in
  (ev, arm, ctx_poll 0 (fc_armed x || arm) x).

(** ** Opening and closing *)

(** [nvkvm_fd_ctx_open_dev] up to the session. *)
Definition open_alloc (a : answers) (t : nat) (dev mm tgid : Z) (w : world) : fout :=
  if a_ok a then
    let c := w_next w in
    Go (adv t (P_session c mm tgid) (on_next (S c) (set_ctx c (FdCtx 0 dev None false 1 0 false false) w)))
  else Go (fin t w).

Definition open_session (a : answers) (t c : nat) (mm tgid : Z) (w : world) : fout :=
  at_ctx c w (fun x =>
    match nvkvm_session_get_or_create a mm tgid w with
    | None => Oops
    | Some (Err e, w1) => Go (adv t (P_ctx c (Failed (- e))) w1)
    | Some (Ok s, w1) => Go (adv t (P_lock c) (set_ctx c (ctx_session (Some s) true x) w1))
    end).

Definition open_handle (a : answers) (t c : nat) (w : world) : fout :=
  at_ctx c w (fun x => at_session x w (fun s y =>
    let '(h', (r, h)) := fh_open (a_seed a) (fc_dev x) (se_id y) (w_host w) in
    let w1 := on_host h' w in
    if negb (r =? 0) then Go (adv t (P_drop c (Failed r)) w1)
    else Go (adv t (P_uvm c) (nvkvm_evt_ctx_register c (set_ctx c (ctx_handle h x)
               (if h =? 0 then w1 else take_res 1 (R_handle h) w1)))))).

(** The end of [nvkvm_open]: the state of a UVM file, and the context in the file. *)
Definition open_install (a : answers) (t c : nat) (w : world) : fout :=
  at_ctx c w (fun x =>
    let install w := fin t (on_next (S (w_next w)) (on_files (<[w_next w := c]> (w_files w)) w)) in
    if fc_dev x =? HTab.NVKVM_DEV_UVM
    then if a_ok a then Go (install (set_ctx c (ctx_uvm true x) w)) else Go (adv t (P_put c None) w)
    else Go (install w)).

Definition after_put (t : nat) (after : option nat) (w : world) : world :=
  match after with Some g => adv t (P_gem_free g) w | None => fin t w end.

Definition nvkvm_fd_ctx_put (t c : nat) (after : option nat) (w : world) : fout :=
  at_ctx c w (fun x =>
    let w1 := set_ctx c (ctx_refs (fc_refs x - 1) x) w in
    if fc_refs x - 1 =? 0 then Go (adv t (P_destroy D_unreg c after) w1) else Go (after_put t after w1)).

Definition nvkvm_fd_ctx_destroy (a : answers) (st : dstage) (t c : nat) (after : option nat) (w : world) : fout :=
  at_ctx c w (fun x =>
    match st with
    | D_unreg => Go (adv t (P_destroy D_close_on c after) (nvkvm_evt_ctx_unregister c w))
    | D_close_on =>
        at_session x w (fun _ y =>
          Go (adv t (P_destroy D_close c after)
            (if negb (fc_handle x =? 0) && negb (se_iso y =? 0)
             then on_host (fh_close_on (a_seed a) (fc_handle x) (se_iso y) (w_host w)) w else w)))
    | D_close =>
        Go (adv t (P_destroy D_pages c after)
          (if fc_handle x =? 0 then w
           else set_ctx c (ctx_handle 0 x)
                  (take_res (-1) (R_handle (fc_handle x)) (on_host (fh_close (a_seed a) (fc_handle x) (w_host w)) w))))
    | D_pages => at_session x w (fun _ _ => Go (adv t (P_drop c (Closed after)) (set_ctx c (ctx_uvm false x) w)))
    end).

(** The reference to the session, and the memory of the context. *)
Definition drop_session (t c : nat) (k : closing) (w : world) : fout :=
  at_ctx c w (fun x => at_session x w (fun s y =>
    let '(d, w1) := session_put_locked s y w in
    let w2 := set_ctx c (ctx_session (Some s) false x) w1 in
    match d with
    | Some d => Go (adv t (P_teardown K_pump s d c k) w2)
    | None => Go (adv t (P_ctx c k) w2)
    end)).

Definition free_ctx (t c : nat) (k : closing) (w : world) : fout :=
  at_ctx c w (fun _ =>
    let w1 := on_ctx (delete c (w_ctx w)) w in
    Go (match k with Closed after => after_put t after w1 | Failed _ => fin t w1 end)).

(** ** Buffer objects *)

(** An ioctl that makes an object in the stub: the call, and
    [nvkvm_gem_proxy_create], with [a_ok] for the memory and [a_ok'] for the handle. *)
Definition forward_object (a : answers) (t f c : nat) (w : world) : fout :=
  at_ctx c w (fun x => at_session x w (fun _ y =>
    let '(h', (r, stub)) := fh_forward (a_seed a) (se_iso y) (fc_handle x) (w_host w) in
    let w1 := on_host h' w in
    if (r <? 0) || (stub =? 0) then Go (fin t w1) else Go (adv t (P_proxy f c stub) w1))).

Definition nvkvm_gem_proxy_create (a : answers) (t c : nat) (stub : Z) (w : world) : fout :=
  if negb (a_ok a) then Go (fin t w)
  else
    at_ctx c w (fun x =>
      let g := w_next w in
      let w1 := on_next (S g) (set_gem g (Gem c stub (0, 0) (negb (a_ok' a)) true) (set_ctx c (ctx_refs (fc_refs x + 1) x) w)) in
      if a_ok' a then Go (fin t w1) else Go (adv t (P_gem_close g) w1)).

(** [nvkvm_gem_free]: closing the object in the stub, then the reference to the
    context, then the memory. *)
Definition gem_free_close (a : answers) (t g : nat) (w : world) : fout :=
  at_gem g w (fun y => at_ctx (gm_ctx y) w (fun x => at_session x w (fun _ z =>
    let '(h', _) := fh_forward (a_seed a) (se_iso z) (fc_handle x) (w_host w) in
    Go (adv t (P_put (gm_ctx y) (Some g)) (set_gem g (Gem (gm_ctx y) (gm_stub y) (gm_xiso y) (gm_dead y) false) (on_host h' w)))))).

Definition gem_free_memory (t g : nat) (w : world) : fout :=
  at_gem g w (fun _ => Go (fin t (on_gems (delete g (w_gems w)) w))).

(** [nvkvm_gem_resolve_fwd] for the object [g] looked up in the file [f] of context
    [c]: the context to forward on, or a call to the broker. *)
Definition resolve_lookup (t f c g : nat) (w : world) : fout :=
  at_gem g w (fun y => at_ctx (gm_ctx y) w (fun ox => at_session ox w (fun _ oz =>
    at_ctx c w (fun cx => at_session cx w (fun _ cz =>
      if (se_iso oz =? 0) || (se_iso oz =? se_iso cz) then Go (adv t (P_export_put f (gm_ctx y) g) w)
      else if (fst (gm_xiso y) =? se_iso cz) && negb (snd (gm_xiso y) =? 0) then Go (adv t (P_export_put f c g) w)
      else Go (adv t (P_broker f g) w)))))).

Definition resolve_broker (a : answers) (t f g : nat) (w : world) : fout :=
  match w_files w !! f with
  | None => Oops
  | Some c =>
      at_gem g w (fun y => at_ctx (gm_ctx y) w (fun ox => at_session ox w (fun _ oz =>
        at_ctx c w (fun cx => at_session cx w (fun _ cz =>
          if fc_handle ox =? 0 then Go (fin t w)
          else
          let '(h', (r, gem)) := fh_import (a_seed a) (se_iso oz) (fc_handle ox) (gm_stub y) (se_iso cz) (fc_handle cx) (w_host w) in
          let w1 := on_host h' w in
          if (r =? 0) && negb (gem =? 0)
          then Go (adv t (P_export_put f c g) (set_gem g (Gem (gm_ctx y) (gm_stub y) (se_iso cz, gem) (gm_dead y) (gm_held y)) w1))
          else Go (fin t w1))))))
  end.

(** The forwarded call itself, once the object has been put. *)
Definition forward_on (a : answers) (t c : nat) (w : world) : fout :=
  at_ctx c w (fun x => at_session x w (fun _ y =>
    Go (fin t (on_host (fst (fh_forward (a_seed a) (se_iso y) (fc_handle x) (w_host w))) w)))).

Definition poll_arm_call (a : answers) (t c : nat) (w : world) : fout :=
  at_ctx c w (fun x => at_session x w (fun _ y =>
    Go (fin t (on_host (fst (fh_arm (a_seed a) (se_iso y) (fc_handle x) (w_host w))) w)))).

(** ** Runs *)

Definition task_step (t : nat) (a : answers) (w : world) : fout :=
  match w_tasks w !! t with
  | None => Stuck
  | Some p =>
      match p with
      | P_alloc dev mm tgid => open_alloc a t dev mm tgid w
      | P_session c mm tgid => open_session a t c mm tgid w
      | P_lock c => ensure_lock t c w
      | P_create c s => ensure_create a t c s w
      | P_ring c s => ensure_ring a t c s w
      | P_handle c => open_handle a t c w
      | P_uvm c => open_install a t c w
      | P_put c after => nvkvm_fd_ctx_put t c after w
      | P_destroy st c after => nvkvm_fd_ctx_destroy a st t c after w
      | P_drop c k => drop_session t c k w
      | P_teardown st s d c k => session_teardown a st t s d c k w
      | P_ctx c k => free_ctx t c k w
      | P_gem_close g => gem_free_close a t g w
      | P_gem_free g => gem_free_memory t g w
      | P_object f c => forward_object a t f c w
      | P_proxy f c stub => nvkvm_gem_proxy_create a t c stub w
      | P_broker f g => resolve_broker a t f g w
      | P_export_put f c g => Go (adv t (P_export_use f c) w)
      | P_export_use f c => forward_on a t c w
      | P_arm f c => poll_arm_call a t c w
      end
  end.

(** The calls of the kernel: opening a device, closing and polling a file, an event of
    the host, a round of a session's pump, an ioctl that makes an object, the
    core freeing one, and an ioctl on an object of some file. *)
Inductive fop :=
| F_open (t : nat) (major minor mm tgid : Z)
| F_drm_open (t : nat) (mm tgid : Z)
| F_step (t : nat) (a : answers)
| F_close (t f : nat)
| F_poll (t f : nat)
| F_deliver (iso handle events : Z)
| F_pump (s : nat)
| F_object (t f : nat)
| F_gem_free (t g : nat)
| F_export (t f g : nat).

Definition idle (t : nat) (w : world) (o : fout) : fout := match w_tasks w !! t with None => o | Some _ => Stuck end.
Definition at_file (f : nat) (w : world) (k : nat -> fout) : fout := match w_files w !! f with Some c => k c | None => Stuck end.

Definition fstep (o : fop) (w : world) : fout :=
  match o with
  | F_open t major minor mm tgid => idle t w (Go (adv t (P_alloc (open_dev_id ctl_major uvm_major major minor) mm tgid) w))
  | F_drm_open t mm tgid => idle t w (Go (adv t (P_alloc (Sessions.NVKVM_DEV_DRM_RD 0) mm tgid) w))
  | F_step t a => task_step t a w
  | F_close t f =>
      idle t w (at_file f w (fun c =>
        if bool_decide (map_Forall (fun _ p => uses p <> Some f) (w_tasks w))
        then Go (adv t (P_put c None) (on_files (delete f (w_files w)) w)) else Stuck))
  | F_poll t f =>
      idle t w (at_file f w (fun c => at_ctx c w (fun x => at_session x w (fun _ y =>
        let '(_, arm, x') := nvkvm_poll (se_iso y) x in
        let w1 := set_ctx c x' w in
        Go (if arm then adv t (P_arm f c) w1 else w1)))))
  | F_deliver iso handle events => nvkvm_evt_deliver iso handle events w
  | F_pump s => if bool_decide (s ∈ w_pumps w) then at_sess s w (fun _ => Go w) else Stuck
  | F_object t f => idle t w (at_file f w (fun c => Go (adv t (P_object f c) w)))
  | F_gem_free t g =>
      idle t w (match w_gems w !! g with
        | Some y =>
            if gm_dead y || negb (bool_decide (map_Forall (fun _ p => looks p <> Some g) (w_tasks w))) then Stuck
            else Go (adv t (P_gem_close g) (set_gem g (Gem (gm_ctx y) (gm_stub y) (gm_xiso y) true (gm_held y)) w))
        | None => Stuck
        end)
  | F_export t f g =>
      idle t w (at_file f w (fun c =>
        match w_gems w !! g with
        | Some y => if gm_dead y then Stuck else resolve_lookup t f c g w
        | None => Stuck
        end))
  end.

Fixpoint frun (l : list fop) (w : world) : fout :=
  match l with
  | [] => Go w
  | o :: l' => match fstep o w with Go w' => frun l' w' | Stuck => Stuck | Oops => Oops end
  end.

(** The module as loaded. *)
Definition files_init (h : H) : world := FWorld _ ∅ ∅ ∅ [] ∅ ∅ ∅ ∅ 0 ∅ h.

(** The isolate a context's calls go to. *)
Definition iso_of (c : nat) (w : world) : Z :=
  match w_ctx w !! c with
  | Some x => match fc_session x with Some s => from_option se_iso 0 (w_sess w !! s) | None => 0 end
  | None => 0
  end.

(** An ioctl on an object is not forwarded on the context of another file. *)
Definition own_export (o : fop) (w : world) : Prop :=
  match o with
  | F_export _ f g =>
      forall c y, w_files w !! f = Some c -> w_gems w !! g = Some y ->
        gm_ctx y = c \/ iso_of (gm_ctx y) w <> 0 /\ iso_of (gm_ctx y) w <> iso_of c w
  | _ => True
  end.

Inductive freach (h : H) : world -> Prop :=
| freach_init : freach h (files_init h)
| freach_step o w w' : freach h w -> own_export o w -> fstep o w = Go w' -> freach h w'.

End files.
End GuestFiles.
