(* ===== verification/FileLives.v ===== *)
(** * Lifetimes of open files, sessions and buffer objects

    What the threads of [GuestFiles] share is freed when nothing refers to it and not
    before.  The proof counts: every reference count is a sum over the files, threads
    and objects that hold a reference, and every phase in the life of an object is
    the work of one thread. *)

From S2P Require Import Prelude HandleTable Ring Sessions Requests GuestMmap GuestFiles.
Local Open Scope Z_scope.
Local Open Scope nv_scope.

Module FileLives.
Import GuestFiles.

(** ** Sums over maps *)

Definition msum {A} (f : A -> Z) (m : gmap nat A) : Z := map_fold (fun _ x n => f x + n) 0 m.

Section sums.
Context {A : Type} (f : A -> Z).

Lemma msum_new m k x : m !! k = None -> msum f (<[k := x]> m) = f x + msum f m.
Proof. intros Hk. unfold msum. rewrite map_fold_insert_L; [done | intros; lia | done]. Qed.

Lemma msum_split m k x : m !! k = Some x -> msum f m = f x + msum f (delete k m).
Proof. intros Hk. rewrite <- (insert_delete_id m k x) at 1 by done. by rewrite msum_new by apply lookup_delete_eq. Qed.

Lemma msum_del m k : msum f (delete k m) = msum f m - from_option f 0 (m !! k).
Proof.
  destruct (m !! k) as [x|] eqn:Hk; cbn; [rewrite (msum_split m k x) by done; lia |].
  rewrite delete_id by done. lia.
Qed.

Lemma msum_set m k x : msum f (<[k := x]> m) = msum f m + f x - from_option f 0 (m !! k).
Proof. rewrite <- insert_delete_eq, msum_new by apply lookup_delete_eq. rewrite msum_del. lia. Qed.

Lemma msum_empty : msum f ∅ = 0.
Proof. apply map_fold_empty. Qed.

Context (Hf : forall x, 0 <= f x).

Lemma msum_nonneg m : 0 <= msum f m.
Proof.
  induction m as [|k x m Hk IH] using map_ind; [by rewrite msum_empty |]. rewrite msum_new by done. specialize (Hf x). lia.
Qed.

Lemma msum_ge m k x : m !! k = Some x -> f x <= msum f m.
Proof. intros Hk. rewrite (msum_split m k x) by done. pose proof (msum_nonneg (delete k m)). lia. Qed.

Lemma msum_pos m : 1 <= msum f m -> exists k x, m !! k = Some x /\ 1 <= f x.
Proof.
  induction m as [|k x m Hk IH] using map_ind; [rewrite msum_empty; lia |]. rewrite msum_new by done. intros H.
  destruct (Z.leb_spec 1 (f x)).
  - exists k, x. split; [apply lookup_insert_eq | done].
  - destruct IH as (k' & x' & Hk' & Hx'); [specialize (Hf x); lia |]. exists k', x'. split; [|done].
    rewrite lookup_insert_ne; [done | congruence].
Qed.

End sums.

Lemma msum_mono {A} (f g : A -> Z) m : (forall k x, m !! k = Some x -> f x <= g x) -> msum f m <= msum g m.
Proof.
  induction m as [|k x m Hk IH] using map_ind; intros H; [by rewrite !msum_empty |]. rewrite !msum_new by done.
  assert (f x <= g x) by (apply (H k); apply lookup_insert_eq).
  assert (msum f m <= msum g m); [|lia]. apply IH. intros k' x' Hk'. apply (H k'). rewrite lookup_insert_ne; congruence.
Qed.

Lemma msum_plus {A} (f g : A -> Z) m : msum (fun x => f x + g x) m = msum f m + msum g m.
Proof. induction m as [|k x m Hk IH] using map_ind; [by rewrite !msum_empty |]. rewrite !msum_new by done. lia. Qed.

Definition hit (o : option nat) (c : nat) : Z := if decide (o = Some c) then 1 else 0.

Lemma hit_nonneg o c : 0 <= hit o c.
Proof. unfold hit. case_decide; lia. Qed.
Lemma hit_one o c : 1 <= hit o c -> o = Some c.
Proof. unfold hit. case_decide; [done | lia]. Qed.
Lemma hit_eq c : hit (Some c) c = 1.
Proof. unfold hit. by rewrite decide_True. Qed.

(** ** Phases of a thread *)

Definition opens (p : fpc) : option nat :=
  match p with P_session c _ _ | P_lock c | P_create c _ | P_ring c _ | P_handle c | P_uvm c => Some c | _ => None end.
Definition puts (p : fpc) : option nat := match p with P_put c _ => Some c | _ => None end.
(** Freeing a context, and doing so after an open that failed. *)
Definition ends (p : fpc) : option nat :=
  match p with P_destroy _ c _ | P_drop c _ | P_teardown _ _ _ c _ | P_ctx c _ => Some c | _ => None end.
Definition fails (p : fpc) : option nat :=
  match p with P_drop c (Failed _) | P_teardown _ _ _ c (Failed _) | P_ctx c (Failed _) => Some c | _ => None end.
(** The context has no session, is not registered, has no handle. *)
Definition unheld (p : fpc) : option nat :=
  match p with P_session c _ _ | P_teardown _ _ _ c _ | P_ctx c _ => Some c | _ => None end.
Definition unlisted (p : fpc) : option nat :=
  match p with
  | P_session c _ _ | P_lock c | P_create c _ | P_ring c _ | P_handle c => Some c
  | P_destroy (D_close_on | D_close | D_pages) c _ | P_drop c _ | P_teardown _ _ _ c _ | P_ctx c _ => Some c
  | _ => None
  end.
Definition nohandle (p : fpc) : option nat :=
  match p with
  | P_session c _ _ | P_lock c | P_create c _ | P_ring c _ | P_handle c => Some c
  | P_destroy D_pages c _ | P_drop c _ | P_teardown _ _ _ c _ | P_ctx c _ => Some c
  | _ => None
  end.
(** Freeing a session, past the pump; holding its lock, before it has an isolate. *)
Definition kills (p : fpc) : option nat := match p with P_teardown _ s _ _ _ => Some s | _ => None end.
Definition stopped (p : fpc) : option nat := match p with P_teardown K_pump _ _ _ _ => None | P_teardown _ s _ _ _ => Some s | _ => None end.
Definition locks (p : fpc) : option nat := match p with P_create _ s | P_ring _ s => Some s | _ => None end.
Definition creates (p : fpc) : option nat := match p with P_create _ s => Some s | _ => None end.
(** Freeing an object, past its reference to the context. *)
Definition freed (p : fpc) : option nat :=
  match p with
  | P_gem_free g | P_put _ (Some g) | P_destroy _ _ (Some g) | P_drop _ (Closed (Some g))
  | P_teardown _ _ _ _ (Closed (Some g)) | P_ctx _ (Closed (Some g)) => Some g
  | _ => None
  end.
Definition frees (p : fpc) : option nat := match p with P_gem_close g => Some g | p => freed p end.

(** ** Counts *)

Section lives.
Context {H : Type}.

Abbreviation world := (fworld H).

Definition tk (f : fpc -> option nat) (w : world) (c : nat) : Z := msum (fun p => hit (f p) c) (w_tasks w).
Definition filed (w : world) (c : nat) : Z := msum (fun d => hit (Some d) c) (w_files w).
Definition gem_ref (y : gem_object) : option nat := if gm_held y then Some (gm_ctx y) else None.
Definition gemmed (w : world) (c : nat) : Z := msum (fun y => hit (gem_ref y) c) (w_gems w).
Definition sess_ref (x : fd_ctx) : option nat := if fc_held x then fc_session x else None.
Definition joined (w : world) (s : nat) : Z := msum (fun x => hit (sess_ref x) s) (w_ctx w).

(** All references to a context. *)
Definition total (w : world) (c : nat) : Z := filed w c + gemmed w c + tk opens w c + tk puts w c + tk fails w c.

Definition ctx_ok (w : world) (c : nat) : Prop :=
  match w_ctx w !! c with
  | Some x =>
      fc_refs x = total w c /\
      (tk ends w c = 0 /\ tk opens w c = 0 /\ 1 <= total w c \/
       tk ends w c = 0 /\ tk opens w c = 1 /\ total w c = 1 \/
       tk ends w c = 1 /\ tk opens w c = 0 /\ total w c = tk fails w c) /\
      tk unheld w c = (if fc_held x then 0 else 1) /\ (fc_held x = true -> fc_session x <> None) /\
      tk unlisted w c = (if decide (c ∈ w_evt w) then 0 else 1) /\ (1 <= tk nohandle w c -> fc_handle x = 0)
  | None => total w c = 0 /\ tk ends w c = 0 /\ c ∉ w_evt w
  end.

Definition sess_ok (w : world) (s : nat) : Prop :=
  match w_sess w !! s with
  | Some y =>
      se_refs y = joined w s /\ tk locks w s = (if se_lock y then 1 else 0) /\ (1 <= tk creates w s -> se_iso y = 0) /\
      (s ∈ w_pumps w <-> se_pump y = true) /\ (1 <= tk stopped w s -> se_pump y = false) /\
      (tk kills w s = 0 /\ 1 <= joined w s /\ se_mm y <> None \/
       tk kills w s = 1 /\ joined w s = 0 /\ se_mm y = None /\ se_iso y = 0 /\ se_ring y = None)
  | None => joined w s = 0 /\ tk kills w s = 0 /\ s ∉ w_pumps w
  end.

Definition gem_ok (w : world) (g : nat) : Prop :=
  match w_gems w !! g with
  | Some y =>
      tk frees w g = (if gm_dead y then 1 else 0) /\ tk freed w g = (if gm_held y then 0 else 1) /\
      (1 <= tk looks w g -> gm_dead y = false)
  | None => tk frees w g = 0 /\ tk looks w g = 0
  end.

Definition local_ok (w : world) (p : fpc) : Prop :=
  match p with
  | P_create c s | P_ring c s => exists x, w_ctx w !! c = Some x /\ sess_ref x = Some s
  | P_object f c | P_proxy f c _ | P_export_put f c _ | P_export_use f c | P_arm f c => w_files w !! f = Some c
  | P_broker f _ => exists c, w_files w !! f = Some c
  | _ => True
  end.

Record lives (w : world) : Prop := Lives {
  lv_ctx : forall c, ctx_ok w c;
  lv_sess : forall s, sess_ok w s;
  lv_gem : forall g, gem_ok w g;
  lv_local : forall t p, w_tasks w !! t = Some p -> local_ok w p;
  lv_idr : forall i s, w_idr w !! i = Some s -> exists y, w_sess w !! s = Some y /\ se_id y = i /\ se_mm y <> None;
  lv_listed : forall s y, w_sess w !! s = Some y -> se_mm y <> None -> w_idr w !! se_id y = Some s;
  lv_mm : forall s s' y y' m, w_sess w !! s = Some y -> w_sess w !! s' = Some y' -> se_mm y = Some m -> se_mm y' = Some m -> s = s';
  lv_fresh : forall p, (w_next w <= p)%nat -> w_ctx w !! p = None /\ w_sess w !! p = None /\ w_gems w !! p = None /\ w_files w !! p = None
}.

(** ** Steps *)

Inductive ftrans (w : world) : world -> Prop :=
| tr_start t dev mm tgid : w_tasks w !! t = None -> ftrans w (adv t (P_alloc dev mm tgid) w)
| tr_alloc t dev mm tgid :
    w_tasks w !! t = Some (P_alloc dev mm tgid) ->
    ftrans w (adv t (P_session (w_next w) mm tgid) (on_next (S (w_next w)) (set_ctx (w_next w) (FdCtx 0 dev None false 1 0 false false) w)))
| tr_end t p h :
    w_tasks w !! t = Some p ->
    match p with P_alloc _ _ _ | P_object _ _ | P_proxy _ _ _ | P_broker _ _ | P_export_use _ _ | P_arm _ _ => True | _ => False end ->
    ftrans w (fin t (on_host h w))
| tr_join t c mm tgid x i s y :
    w_tasks w !! t = Some (P_session c mm tgid) -> w_ctx w !! c = Some x -> w_idr w !! i = Some s -> w_sess w !! s = Some y ->
    ftrans w (adv t (P_lock c) (set_ctx c (ctx_session (Some s) true x) (set_sess s (sess_refs (se_refs y + 1) y) w)))
| tr_none t c mm tgid e :
    w_tasks w !! t = Some (P_session c mm tgid) -> ftrans w (adv t (P_ctx c (Failed e)) w)
| tr_no_id t c mm tgid e :
    w_tasks w !! t = Some (P_session c mm tgid) ->
    ftrans w (adv t (P_ctx c (Failed e)) (take_res (-1) (R_mm mm) (take_res 1 (R_pid tgid) (take_res 1 (R_mm mm) w))))
| tr_new t c mm tgid x i :
    w_tasks w !! t = Some (P_session c mm tgid) -> w_ctx w !! c = Some x -> w_idr w !! i = None ->
    (forall j s' y, w_idr w !! j = Some s' -> w_sess w !! s' = Some y -> se_mm y <> Some mm) ->
    ftrans w (adv t (P_lock c) (set_ctx c (ctx_session (Some (w_next w)) true x) (on_next (S (w_next w)) (on_idr (<[i := w_next w]> (w_idr w))
      (set_sess (w_next w) (GSession i (Some mm) (Some tgid) 1 0 false None false) (take_res 1 (R_pid tgid) (take_res 1 (R_mm mm) w)))))))
| tr_locked t c : w_tasks w !! t = Some (P_lock c) -> ftrans w (adv t (P_handle c) w)
| tr_lock t c x s y :
    w_tasks w !! t = Some (P_lock c) -> w_ctx w !! c = Some x -> fc_session x = Some s -> w_sess w !! s = Some y ->
    se_lock y = false -> se_iso y = 0 -> ftrans w (adv t (P_create c s) (set_sess s (sess_iso 0 true y) w))
| tr_create t c s y h iso :
    w_tasks w !! t = Some (P_create c s) -> w_sess w !! s = Some y ->
    ftrans w (adv t (P_ring c s) (set_sess s (sess_iso iso true y) (if iso =? 0 then on_host h w else take_res 1 (R_iso iso) (on_host h w))))
| tr_create_fail t c s y h r :
    w_tasks w !! t = Some (P_create c s) -> w_sess w !! s = Some y ->
    ftrans w (adv t (P_drop c (Failed r)) (set_sess s (sess_iso (se_iso y) false y) (on_host h w)))
| tr_no_ring t c s y h :
    w_tasks w !! t = Some (P_ring c s) -> w_sess w !! s = Some y ->
    ftrans w (adv t (P_handle c) (set_sess s (sess_iso (se_iso y) false y) (on_host h w)))
| tr_ring t c s y h g :
    w_tasks w !! t = Some (P_ring c s) -> w_sess w !! s = Some y -> se_ring y = None ->
    ftrans w (adv t (P_handle c) (set_sess s (sess_iso (se_iso y) false (sess_ring (Some g) true y))
      (on_pumps ({[s]} ∪ w_pumps w) (take_res 1 (R_ring g) (set_sess s (sess_ring (Some g) true y) (on_host h w))))))
| tr_handle t c x h n :
    w_tasks w !! t = Some (P_handle c) -> w_ctx w !! c = Some x ->
    ftrans w (adv t (P_uvm c) (nvkvm_evt_ctx_register c (set_ctx c (ctx_handle n x) (if n =? 0 then on_host h w else take_res 1 (R_handle n) (on_host h w)))))
| tr_handle_fail t c h r :
    w_tasks w !! t = Some (P_handle c) -> ftrans w (adv t (P_drop c (Failed r)) (on_host h w))
| tr_install t c x u :
    w_tasks w !! t = Some (P_uvm c) -> w_ctx w !! c = Some x ->
    ftrans w (fin t (on_next (S (w_next w)) (on_files (<[w_next w := c]> (w_files w)) (set_ctx c (ctx_uvm u x) w))))
| tr_uvm_fail t c : w_tasks w !! t = Some (P_uvm c) -> ftrans w (adv t (P_put c None) w)
| tr_put_last t c after x :
    w_tasks w !! t = Some (P_put c after) -> w_ctx w !! c = Some x -> fc_refs x - 1 = 0 ->
    ftrans w (adv t (P_destroy D_unreg c after) (set_ctx c (ctx_refs (fc_refs x - 1) x) w))
| tr_put t c after x :
    w_tasks w !! t = Some (P_put c after) -> w_ctx w !! c = Some x -> fc_refs x - 1 <> 0 ->
    ftrans w (after_put t after (set_ctx c (ctx_refs (fc_refs x - 1) x) w))
| tr_unreg t c after :
    w_tasks w !! t = Some (P_destroy D_unreg c after) -> ftrans w (adv t (P_destroy D_close_on c after) (nvkvm_evt_ctx_unregister c w))
| tr_close_on t c after h :
    w_tasks w !! t = Some (P_destroy D_close_on c after) -> ftrans w (adv t (P_destroy D_close c after) (on_host h w))
| tr_close t c after x h :
    w_tasks w !! t = Some (P_destroy D_close c after) -> w_ctx w !! c = Some x ->
    ftrans w (adv t (P_destroy D_pages c after)
      (if fc_handle x =? 0 then w else set_ctx c (ctx_handle 0 x) (take_res (-1) (R_handle (fc_handle x)) (on_host h w))))
| tr_pages t c after x :
    w_tasks w !! t = Some (P_destroy D_pages c after) -> w_ctx w !! c = Some x ->
    ftrans w (adv t (P_drop c (Closed after)) (set_ctx c (ctx_uvm false x) w))
| tr_drop_last t c k x s y :
    w_tasks w !! t = Some (P_drop c k) -> w_ctx w !! c = Some x -> fc_session x = Some s -> w_sess w !! s = Some y -> se_refs y - 1 = 0 ->
    ftrans w (adv t (P_teardown K_pump s (Dying (se_iso y) (se_ring y) (se_mm y) (se_pid y)) c k) (set_ctx c (ctx_session (Some s) false x)
      (on_idr (delete (se_id y) (w_idr w)) (set_sess s (GSession (se_id y) None None 0 0 (se_lock y) None (se_pump y)) w))))
| tr_drop t c k x s y :
    w_tasks w !! t = Some (P_drop c k) -> w_ctx w !! c = Some x -> fc_session x = Some s -> w_sess w !! s = Some y -> se_refs y - 1 <> 0 ->
    ftrans w (adv t (P_ctx c k) (set_ctx c (ctx_session (Some s) false x) (set_sess s (sess_refs (se_refs y - 1) y) w)))
| tr_pump t s d c k y :
    w_tasks w !! t = Some (P_teardown K_pump s d c k) -> w_sess w !! s = Some y ->
    ftrans w (adv t (P_teardown K_unmap s d c k) (on_pumps (if se_pump y then w_pumps w ∖ {[s]} else w_pumps w) (set_sess s (sess_ring (se_ring y) false y) w)))
| tr_unmap t s d c k :
    w_tasks w !! t = Some (P_teardown K_unmap s d c k) -> ftrans w (adv t (P_teardown K_kill s d c k) (drop_res R_ring (dm_ring d) w))
| tr_kill t s d c k h :
    w_tasks w !! t = Some (P_teardown K_kill s d c k) ->
    ftrans w (adv t (P_teardown K_mm s d c k) (if dm_iso d =? 0 then w else take_res (-1) (R_iso (dm_iso d)) (on_host h w)))
| tr_mm t s d c k :
    w_tasks w !! t = Some (P_teardown K_mm s d c k) ->
    ftrans w (adv t (P_teardown K_free s d c k) (drop_res R_pid (dm_pid d) (drop_res R_mm (dm_mm d) w)))
| tr_free t s d c k :
    w_tasks w !! t = Some (P_teardown K_free s d c k) -> ftrans w (adv t (P_ctx c k) (on_sess (delete s (w_sess w)) w))
| tr_ctx t c k x :
    w_tasks w !! t = Some (P_ctx c k) -> w_ctx w !! c = Some x ->
    ftrans w (match k with Closed after => after_put t after (on_ctx (delete c (w_ctx w)) w) | Failed _ => fin t (on_ctx (delete c (w_ctx w)) w) end)
| tr_gem_close t g y h :
    w_tasks w !! t = Some (P_gem_close g) -> w_gems w !! g = Some y ->
    ftrans w (adv t (P_put (gm_ctx y) (Some g)) (set_gem g (Gem (gm_ctx y) (gm_stub y) (gm_xiso y) (gm_dead y) false) (on_host h w)))
| tr_gem_free t g : w_tasks w !! t = Some (P_gem_free g) -> ftrans w (fin t (on_gems (delete g (w_gems w)) w))
| tr_object t f c stub h : w_tasks w !! t = Some (P_object f c) -> ftrans w (adv t (P_proxy f c stub) (on_host h w))
| tr_proxy t f c stub x :
    w_tasks w !! t = Some (P_proxy f c stub) -> w_ctx w !! c = Some x ->
    ftrans w (fin t (on_next (S (w_next w)) (set_gem (w_next w) (Gem c stub (0, 0) false true) (set_ctx c (ctx_refs (fc_refs x + 1) x) w))))
| tr_proxy_fail t f c stub x :
    w_tasks w !! t = Some (P_proxy f c stub) -> w_ctx w !! c = Some x ->
    ftrans w (adv t (P_gem_close (w_next w)) (on_next (S (w_next w)) (set_gem (w_next w) (Gem c stub (0, 0) true true) (set_ctx c (ctx_refs (fc_refs x + 1) x) w))))
| tr_broker t f g c y z h :
    w_tasks w !! t = Some (P_broker f g) -> w_files w !! f = Some c -> w_gems w !! g = Some y ->
    ftrans w (adv t (P_export_put f c g) (set_gem g (Gem (gm_ctx y) (gm_stub y) z (gm_dead y) (gm_held y)) (on_host h w)))
| tr_looked t f c g : w_tasks w !! t = Some (P_export_put f c g) -> ftrans w (adv t (P_export_use f c) w)
| tr_release t f c :
    w_tasks w !! t = None -> w_files w !! f = Some c -> (forall t' p, w_tasks w !! t' = Some p -> uses p <> Some f) ->
    ftrans w (adv t (P_put c None) (on_files (delete f (w_files w)) w))
| tr_poll c x ev arm : w_ctx w !! c = Some x -> ftrans w (set_ctx c (ctx_poll ev arm x) w)
| tr_arm t f c x ev arm :
    w_tasks w !! t = None -> w_files w !! f = Some c -> w_ctx w !! c = Some x -> ftrans w (adv t (P_arm f c) (set_ctx c (ctx_poll ev arm x) w))
| tr_on_file t f c : w_tasks w !! t = None -> w_files w !! f = Some c -> ftrans w (adv t (P_object f c) w)
| tr_gem_dead t g y :
    w_tasks w !! t = None -> w_gems w !! g = Some y -> gm_dead y = false -> (forall t' p, w_tasks w !! t' = Some p -> looks p <> Some g) ->
    ftrans w (adv t (P_gem_close g) (set_gem g (Gem (gm_ctx y) (gm_stub y) (gm_xiso y) true (gm_held y)) w))
| tr_export t f c g y :
    w_tasks w !! t = None -> w_files w !! f = Some c -> w_gems w !! g = Some y -> gm_dead y = false -> ftrans w (adv t (P_export_put f c g) w)
| tr_ask t f c g y :
    w_tasks w !! t = None -> w_files w !! f = Some c -> w_gems w !! g = Some y -> gm_dead y = false -> ftrans w (adv t (P_broker f g) w).

End lives.

(** Going through the tests of a step that was made. *)
Ltac follow :=
  repeat match goal with
  | H : at_ctx _ _ _ = Go _ |- _ => unfold at_ctx in H
  | H : at_sess _ _ _ = Go _ |- _ => unfold at_sess in H
  | H : at_session _ _ _ = Go _ |- _ => unfold at_session in H
  | H : at_gem _ _ _ = Go _ |- _ => unfold at_gem in H
  | H : at_file _ _ _ = Go _ |- _ => unfold at_file in H
  | H : match w_ctx ?w !! ?c with _ => _ end = Go _ |- _ => destruct (w_ctx w !! c) eqn:?; [|discriminate]
  | H : match w_sess ?w !! ?s with _ => _ end = Go _ |- _ => destruct (w_sess w !! s) eqn:?; [|discriminate]
  | H : match fc_session ?x with _ => _ end = Go _ |- _ => destruct (fc_session x) eqn:?; [|discriminate]
  | H : match w_gems ?w !! ?g with _ => _ end = Go _ |- _ => destruct (w_gems w !! g) eqn:?; [|discriminate]
  | H : match w_files ?w !! ?f with _ => _ end = Go _ |- _ => destruct (w_files w !! f) eqn:?; [|discriminate]
  | H : idle ?t ?w _ = Go _ |- _ => unfold idle in H; destruct (w_tasks w !! t) eqn:?; [discriminate |]
  | H : (let '(_, _) := ?e in _) = Go _ |- _ => destruct e as [? ?] eqn:?
  | H : (if ?b then _ else _) = Go _ |- _ => destruct b eqn:?
  | H : Go _ = Go _ |- _ => injection H as <-
  | H : Stuck = Go _ |- _ => discriminate
  | H : Oops = Go _ |- _ => discriminate
  end.

Section code.
Context {H : Type} `{file_host H} (win : GuestMmap.mctx) (ctl_major uvm_major : Z).

Abbreviation world := (fworld H).

(** ** The code makes these steps *)

Lemma on_host_id (w : world) : on_host (w_host w) w = w.
Proof. by destruct w. Qed.

Lemma set_ctx_id c x (w : world) : w_ctx w !! c = Some x -> set_ctx c x w = w.
Proof. intros Hc. unfold set_ctx. rewrite insert_id by done. by destruct w. Qed.

Lemma ctx_uvm_id x : ctx_uvm (fc_uvm x) x = x.
Proof. by destruct x. Qed.

Lemma seek_mm_found mm l (w : world) s :
  seek_mm mm l w = Some (Some s) -> exists i y, (i, s) ∈ l /\ w_sess w !! s = Some y /\ se_mm y = Some mm.
Proof.
  induction l as [|[i s'] l IH]; cbn; [done |]. destruct (w_sess w !! s') as [y|] eqn:Hs; [|done].
  case_bool_decide as Hm; [intros [= <-]; exists i, y; split; [left | done] |].
  intros (j & z & Hin & Hz)%IH. exists j, z. split; [by right | done].
Qed.

Lemma seek_mm_none mm l (w : world) :
  seek_mm mm l w = Some None -> forall i s y, (i, s) ∈ l -> w_sess w !! s = Some y -> se_mm y <> Some mm.
Proof.
  induction l as [|[i s] l IH]; cbn; [intros _ ? ? ? []%not_elem_of_nil |].
  destruct (w_sess w !! s) as [y|] eqn:Hs; [|done]. case_bool_decide as Hm; [done |].
  intros Hl j s' y' [[= <- <-]|Hin]%elem_of_cons Hy; [congruence |]. by eapply IH.
Qed.

Lemma lowest_free_used m n i j : is_Some (m !! lowest_free n i m) -> i <= j <= i + Z.of_nat n -> is_Some (m !! j).
Proof.
  revert i. induction n as [|n IH]; intros i; cbn [lowest_free]; [intros Hu Hj; by replace j with i by lia |].
  destruct (m !! i) eqn:Hi; [|intros []; congruence]. intros Hu Hj. destruct (decide (j = i)) as [->|]; [eauto |].
  apply (IH (i + 1)); [done | lia].
Qed.

Lemma idr_alloc_free m : m !! idr_alloc m = None.
Proof.
  apply eq_None_not_Some. intros Hu. unfold idr_alloc in Hu.
  assert (list_to_set (seqZ 1 (Z.of_nat (size m) + 1)) ⊆ dom m) as Hsub.
  { intros j Hj%elem_of_list_to_set%elem_of_seqZ. apply elem_of_dom. eapply lowest_free_used; [exact Hu | lia]. }
  apply subseteq_size in Hsub. rewrite size_list_to_set in Hsub by apply NoDup_seqZ.
  rewrite length_seqZ, size_dom in Hsub. lia.
Qed.

Lemma trans_open_session a t c mm tgid (w w' : world) :
  w_tasks w !! t = Some (P_session c mm tgid) -> open_session a t c mm tgid w = Go w' -> ftrans w w'.
Proof.
  intros Ht Hs. unfold open_session in Hs. follow. unfold nvkvm_session_get_or_create in Hs.
  destruct (seek_mm mm (map_to_list (w_idr w)) w) as [[s|]|] eqn:Hk; [| |done].
  - apply seek_mm_found in Hk as (i & y & Hi%elem_of_map_to_list & Hy & _). rewrite Hy in Hs. follow. by eapply tr_join.
  - destruct (negb (a_ok a)); [follow; by eapply tr_none |]. destruct (negb (a_ok' a)); [follow; by eapply tr_no_id |]. follow.
    eapply tr_new; [done | done | apply idr_alloc_free |]. intros j s y Hj. eapply seek_mm_none; [exact Hk |]. by apply elem_of_map_to_list.
Qed.

Lemma trans_ring a t c s (w w' : world) :
  w_tasks w !! t = Some (P_ring c s) -> ensure_ring win a t c s w = Go w' -> ftrans w w'.
Proof.
  intros Ht Hs. unfold ensure_ring in Hs. follow.
  assert (forall h, unlock s (on_host h w) = Go (set_sess s (sess_iso (se_iso g) false g) (on_host h w))) as Hun.
  { intros h. unfold unlock, at_sess. cbn. by rewrite Heqo. }
  assert (forall h, ftrans w (adv t (P_handle c) (set_sess s (sess_iso (se_iso g) false g) (on_host h w)))) as Hno by (intros; by eapply tr_no_ring).
  unfold nvkvm_session_setup_ring in Hs. destruct (se_ring g) as [r|] eqn:Hr.
  { rewrite <- (on_host_id w) in Hs. rewrite Hun in Hs. cbn [go_on] in Hs. injection Hs as <-. apply Hno. }
  destruct (fh_ring _ _ _) as [h' [r [gpa bytes]]].
  destruct (_ || _); [rewrite Hun in Hs; cbn [go_on] in Hs; injection Hs as <-; apply Hno |].
  destruct (negb _); [rewrite Hun in Hs; cbn [go_on] in Hs; injection Hs as <-; apply Hno |].
  destruct (negb (a_ok a)); [rewrite Hun in Hs; cbn [go_on] in Hs; injection Hs as <-; apply Hno |].
  destruct (_ && _); [|rewrite Hun in Hs; cbn [go_on] in Hs; injection Hs as <-; apply Hno].
  unfold unlock, at_sess in Hs. cbn in Hs. rewrite lookup_insert_eq in Hs. cbn [go_on] in Hs. injection Hs as <-.
  by eapply tr_ring.
Qed.

Lemma trans_deliver iso handle events l (w w' : world) : evt_each iso handle events l w = Go w' -> rtc ftrans w w'.
Proof.
  revert w. induction l as [|c l IH]; intros w; cbn; [by intros [= <-] |]. unfold at_ctx. destruct (w_ctx w !! c) as [x|] eqn:Hc; [|done].
  destruct (negb _); [by apply IH |]. destruct (fc_session x) as [s|] eqn:Hf; [|by apply IH].
  intros Hs. follow; [|by apply IH].
  apply IH in Hs. eapply rtc_l; [by apply tr_poll | exact Hs].
Qed.

Lemma trans_resolve t f c g y (w w' : world) :
  w_tasks w !! t = None -> w_files w !! f = Some c -> w_gems w !! g = Some y -> gm_dead y = false ->
  own_export (F_export t f g) w -> resolve_lookup t f c g w = Go w' -> ftrans w w'.
Proof.
  intros Ht Hf Hg Hd Hown Hs. specialize (Hown c y Hf Hg). unfold resolve_lookup in Hs. follow; simplify_eq.
  - destruct Hown as [->|[H1 H2]]; [by eapply tr_export |]. exfalso. revert H1 H2. unfold iso_of.
    repeat match goal with E : ?a = Some _ |- context [?a] => rewrite E; cbn [from_option] end. intros. nv_bool; lia.
  - by eapply tr_export.
  - by eapply tr_ask.
Qed.

Lemma trans_task t a (w w' : world) : task_step win t a w = Go w' -> ftrans w w'.
Proof.
  unfold task_step. destruct (w_tasks w !! t) as [p|] eqn:Ht; [|done]. destruct p.
  - unfold open_alloc. intros Hs. follow; [by eapply tr_alloc |]. rewrite <- (on_host_id w) at 2. by eapply tr_end.
  - by apply trans_open_session.
  - unfold ensure_lock. intros Hs. follow; [by eapply tr_locked | nv_bool; by eapply tr_lock].
  - unfold ensure_create. intros Hs. follow; [by eapply tr_create | by eapply tr_create_fail].
  - by apply trans_ring.
  - unfold open_handle. intros Hs. follow; [by eapply tr_handle_fail | by eapply tr_handle].
  - unfold open_install. intros Hs. follow; [by eapply tr_install | by eapply tr_uvm_fail |].
    pose proof (tr_install w t c f (fc_uvm f) Ht Heqo) as Hi. by rewrite ctx_uvm_id, set_ctx_id in Hi.
  - unfold nvkvm_fd_ctx_put. intros Hs. follow; nv_bool; [by eapply tr_put_last | by eapply tr_put].
  - unfold nvkvm_fd_ctx_destroy. intros Hs. follow. destruct st; follow.
    + by eapply tr_unreg.
    + destruct (_ && _); [by eapply tr_close_on |]. rewrite <- (on_host_id w) at 2. by eapply tr_close_on.
    + by eapply tr_close.
    + by eapply tr_pages.
  - unfold drop_session. intros Hs. follow. unfold session_put_locked in Heqp.
    destruct (Z.eqb_spec (se_refs g - 1) 0); simplify_eq; follow; [by eapply tr_drop_last | by eapply tr_drop].
  - unfold session_teardown. intros Hs. destruct st; follow.
    + by eapply tr_pump.
    + by eapply tr_unmap.
    + by eapply tr_kill.
    + by eapply tr_mm.
    + by eapply tr_free.
  - unfold free_ctx. intros Hs. follow. by eapply tr_ctx.
  - unfold gem_free_close. intros Hs. follow. by eapply tr_gem_close.
  - unfold gem_free_memory. intros Hs. follow. by eapply tr_gem_free.
  - unfold forward_object. intros Hs. follow; [by eapply tr_end | by eapply tr_object].
  - unfold nvkvm_gem_proxy_create. intros Hs. follow; [rewrite <- (on_host_id w) at 2; by eapply tr_end | by eapply tr_proxy | by eapply tr_proxy_fail].
  - unfold resolve_broker. intros Hs. destruct (w_files w !! f) eqn:Hf; [|done].
    follow; [rewrite <- (on_host_id w) at 2; by eapply tr_end | by eapply tr_broker | by eapply tr_end].
  - intros [= <-]. by eapply tr_looked.
  - unfold forward_on. intros Hs. follow. by eapply tr_end.
  - unfold poll_arm_call. intros Hs. follow. by eapply tr_end.
Qed.

Lemma fstep_trans o (w w' : world) : own_export o w -> fstep win ctl_major uvm_major o w = Go w' -> rtc ftrans w w'.
Proof.
  intros Hown Hs. destruct o; cbn [fstep] in Hs.
  - follow. by apply rtc_once, tr_start.
  - follow. by apply rtc_once, tr_start.
  - by eapply rtc_once, trans_task.
  - follow. apply bool_decide_eq_true in Heqb as Hu. apply rtc_once, tr_release; [done | done |]. intros t' p. apply Hu.
  - follow. unfold nvkvm_poll in *. simplify_eq. destruct (_ && _); [by eapply rtc_once, tr_arm | by eapply rtc_once, tr_poll].
  - by eapply trans_deliver.
  - follow. apply rtc_refl.
  - follow. by apply rtc_once, tr_on_file.
  - unfold idle in Hs. destruct (w_tasks w !! t) eqn:Ht; [done |]. destruct (w_gems w !! g) as [y|] eqn:Hg; [|done].
    destruct (gm_dead y) eqn:Hd; cbn [orb] in Hs; [done |]. case_bool_decide as Hl; cbn [negb] in Hs; follow.
    eapply rtc_once, tr_gem_dead; [done | done | done |]. intros t' p. apply Hl.
  - unfold idle in Hs. destruct (w_tasks w !! t) eqn:Ht; [done |]. unfold at_file in Hs. destruct (w_files w !! f) as [c|] eqn:Hf; [|done].
    destruct (w_gems w !! g) as [y|] eqn:Hg; [|done]. destruct (gm_dead y) eqn:Hd; [done |]. by eapply rtc_once, trans_resolve.
Qed.

End code.

Section bounds.
Context {H : Type}.

Abbreviation world := (fworld H).

(** ** Contexts *)

Lemma tk_nonneg f (w : world) c : 0 <= tk f w c.
Proof. apply msum_nonneg. intros. apply hit_nonneg. Qed.

Lemma tk_le f g (w : world) c : (forall p, f p = Some c -> g p = Some c) -> tk f w c <= tk g w c.
Proof.
  intros Hfg. apply msum_mono. intros t p _. unfold hit. repeat case_decide; try lia. naive_solver.
Qed.

Lemma tk_has f (w : world) t p c : w_tasks w !! t = Some p -> f p = Some c -> 1 <= tk f w c.
Proof.
  intros Ht Hp. pose proof (msum_ge (fun p => hit (f p) c) (fun p => hit_nonneg (f p) c) _ _ _ Ht) as Hg. cbn in Hg.
  rewrite Hp, hit_eq in Hg. done.
Qed.

Lemma tk_none f (w : world) c : (forall t p, w_tasks w !! t = Some p -> f p <> Some c) -> tk f w c = 0.
Proof.
  intros Hn. destruct (Z.le_gt_cases 1 (tk f w c)) as [Hp|]; [|pose proof (tk_nonneg f w c); lia].
  apply msum_pos in Hp as (t & p & Ht & Hp%hit_one); [by apply Hn in Ht | intros; apply hit_nonneg].
Qed.

Lemma filed_has (w : world) f c : w_files w !! f = Some c -> 1 <= filed w c.
Proof.
  intros Hf. pose proof (msum_ge (fun d => hit (Some d) c) (fun d => hit_nonneg (Some d) c) _ _ _ Hf) as Hg. cbn in Hg. by rewrite hit_eq in Hg.
Qed.

Lemma gemmed_has (w : world) g y : w_gems w !! g = Some y -> gm_held y = true -> 1 <= gemmed w (gm_ctx y).
Proof.
  intros Hg Hh. pose proof (msum_ge (fun y' => hit (gem_ref y') (gm_ctx y)) (fun y' => hit_nonneg (gem_ref y') (gm_ctx y)) _ _ _ Hg) as Hge. cbn in Hge.
  unfold gem_ref in Hge at 1. by rewrite Hh, hit_eq in Hge.
Qed.

Lemma joined_has (w : world) c x s : w_ctx w !! c = Some x -> sess_ref x = Some s -> 1 <= joined w s.
Proof.
  intros Hc Hs. pose proof (msum_ge (fun x' => hit (sess_ref x') s) (fun x' => hit_nonneg (sess_ref x') s) _ _ _ Hc) as Hge. cbn in Hge.
  by rewrite Hs, hit_eq in Hge.
Qed.

Lemma filed_nonneg (w : world) c : 0 <= filed w c.
Proof. apply msum_nonneg. intros. apply hit_nonneg. Qed.
Lemma gemmed_nonneg (w : world) c : 0 <= gemmed w c.
Proof. apply msum_nonneg. intros. apply hit_nonneg. Qed.
Lemma joined_nonneg (w : world) c : 0 <= joined w c.
Proof. apply msum_nonneg. intros. apply hit_nonneg. Qed.

(** Bounds between the phases. *)
Definition phases_of (w : world) (c : nat) : Prop :=
  0 <= filed w c /\ 0 <= gemmed w c /\ 0 <= tk opens w c /\ 0 <= tk puts w c /\ 0 <= tk fails w c <= tk ends w c /\
  0 <= tk unheld w c <= tk opens w c + tk ends w c /\ 0 <= tk unlisted w c <= tk opens w c + tk ends w c /\
  0 <= tk nohandle w c <= tk unlisted w c.

Lemma phases (w : world) c : phases_of w c.
Proof.
  assert (forall f, (forall p, f p = Some c -> opens p = Some c \/ ends p = Some c) -> tk f w c <= tk opens w c + tk ends w c) as Hor.
  { intros f Hf. unfold tk. rewrite <- msum_plus. apply msum_mono. intros t p _. unfold hit. destruct (decide (f p = Some c)) as [E|]; [destruct (Hf p E) as [->| ->] |];
      repeat case_decide; lia || done. }
  repeat split; try (apply tk_nonneg || apply filed_nonneg || apply gemmed_nonneg).
  - apply tk_le. intros []; cbn; repeat case_match; naive_solver.
  - apply Hor. intros []; cbn; repeat case_match; naive_solver.
  - apply Hor. intros []; cbn; repeat case_match; naive_solver.
  - apply tk_le. intros []; cbn; repeat case_match; naive_solver.
Qed.

(** A context with a reference that is not of an opening thread is in use. *)
Lemma in_use (w : world) c :
  lives w -> 1 <= filed w c + gemmed w c + tk puts w c ->
  exists x s, w_ctx w !! c = Some x /\ fc_held x = true /\ fc_session x = Some s /\ tk ends w c = 0 /\ tk opens w c = 0.
Proof.
  intros Hl Hr. pose proof (phases w c) as Hp. unfold phases_of in Hp. pose proof (lv_ctx _ Hl c) as Hc. unfold ctx_ok, total in Hc.
  destruct (w_ctx w !! c) as [x|]; [|lia]. destruct Hc as (_ & Hc & Hu & Hs & _ & _).
  assert (fc_held x = true) as Hh by (destruct (fc_held x); [done | lia]).
  destruct (fc_session x) as [s|] eqn:Es; [|by destruct Hs]. exists x, s. repeat split; [done | done | lia | lia].
Qed.

Lemma hit_none c : hit None c = 0.
Proof. unfold hit. by rewrite decide_False. Qed.
Lemma hit_ne d c : d <> c -> hit (Some d) c = 0.
Proof. intros. unfold hit. rewrite decide_False; congruence. Qed.

Lemma tk_adv f t p (w v : world) c :
  w_tasks v = w_tasks w -> tk f (adv t p v) c = tk f w c + hit (f p) c - from_option (fun p => hit (f p) c) 0 (w_tasks w !! t).
Proof. intros Hv. unfold tk. cbn [adv on_tasks w_tasks]. by rewrite msum_set, Hv. Qed.

Lemma tk_fin f t (w v : world) c :
  w_tasks v = w_tasks w -> tk f (fin t v) c = tk f w c - from_option (fun p => hit (f p) c) 0 (w_tasks w !! t).
Proof. intros Hv. unfold tk. cbn [fin on_tasks w_tasks]. by rewrite msum_del, Hv. Qed.

Lemma filed_set f d (w v : world) c :
  w_files v = <[f := d]> (w_files w) -> filed v c = filed w c + hit (Some d) c - from_option (fun d => hit (Some d) c) 0 (w_files w !! f).
Proof. intros Hv. unfold filed. by rewrite Hv, msum_set. Qed.

Lemma filed_del f (w v : world) c :
  w_files v = delete f (w_files w) -> filed v c = filed w c - from_option (fun d => hit (Some d) c) 0 (w_files w !! f).
Proof. intros Hv. unfold filed. by rewrite Hv, msum_del. Qed.

Lemma gemmed_set g y (w v : world) c :
  w_gems v = <[g := y]> (w_gems w) -> gemmed v c = gemmed w c + hit (gem_ref y) c - from_option (fun y => hit (gem_ref y) c) 0 (w_gems w !! g).
Proof. intros Hv. unfold gemmed. by rewrite Hv, msum_set. Qed.

Lemma gemmed_del g (w v : world) c :
  w_gems v = delete g (w_gems w) -> gemmed v c = gemmed w c - from_option (fun y => hit (gem_ref y) c) 0 (w_gems w !! g).
Proof. intros Hv. unfold gemmed. by rewrite Hv, msum_del. Qed.

Lemma joined_set c x (w v : world) s :
  w_ctx v = <[c := x]> (w_ctx w) -> joined v s = joined w s + hit (sess_ref x) s - from_option (fun x => hit (sess_ref x) s) 0 (w_ctx w !! c).
Proof. intros Hv. unfold joined. by rewrite Hv, msum_set. Qed.

Lemma joined_del c (w v : world) s :
  w_ctx v = delete c (w_ctx w) -> joined v s = joined w s - from_option (fun x => hit (sess_ref x) s) 0 (w_ctx w !! c).
Proof. intros Hv. unfold joined. by rewrite Hv, msum_del. Qed.

End bounds.

(** The branches inside the result of a step. *)
Ltac branches :=
  repeat match goal with
  | |- context [if ?b =? 0 then _ else _] => destruct (b =? 0) eqn:?
  | |- context [after_put _ ?o _] => destruct o; cbn [after_put]
  | |- context [drop_res _ ?o _] => destruct o; cbn [drop_res]
  | |- context [match ?k with Failed _ => _ | Closed _ => _ end] => destruct k
  end.

(** Every count after the step from the counts before. *)
Ltac recount w :=
  unfold total;
  repeat match goal with
  | |- context [tk ?f (adv ?t ?p ?v) ?c] => rewrite (tk_adv f t p w v c eq_refl)
  | |- context [tk ?f (fin ?t ?v) ?c] => rewrite (tk_fin f t w v c eq_refl)
  | |- context [tk ?f ?v ?c] => lazymatch v with w => fail | _ => change (tk f v c) with (tk f w c) end
  | |- context [filed ?v ?c] =>
      lazymatch v with
      | w => fail
      | _ => first [change (filed v c) with (filed w c) | rewrite (filed_set _ _ w v c eq_refl) | rewrite (filed_del _ w v c eq_refl)]
      end
  | |- context [gemmed ?v ?c] =>
      lazymatch v with
      | w => fail
      | _ => first [change (gemmed v c) with (gemmed w c) | rewrite (gemmed_set _ _ w v c eq_refl) | rewrite (gemmed_del _ w v c eq_refl)]
      end
  | |- context [joined ?v ?c] =>
      lazymatch v with
      | w => fail
      | _ => first [change (joined v c) with (joined w c) | rewrite (joined_set _ _ w v c eq_refl) | rewrite (joined_del _ w v c eq_refl)]
      end
  end;
  repeat match goal with E : ?a = Some _ |- context [from_option _ _ ?a] => rewrite !E end;
  repeat match goal with E : ?a = None |- context [from_option _ _ ?a] => rewrite !E end;
  cbn [from_option opens puts ends fails unheld unlisted nohandle kills stopped locks creates freed frees looks
       gem_ref gm_held gm_ctx gm_dead sess_ref ctx_session ctx_refs ctx_handle ctx_poll ctx_uvm
       fc_refs fc_handle fc_held fc_session].

Ltac hits := rewrite ?hit_none, ?hit_eq in *; repeat rewrite hit_ne in * by done.

Ltac fields :=
  cbn [w_ctx w_sess w_idr w_evt w_gems w_files w_pumps w_tasks w_next adv fin set_ctx set_sess set_gem on_tasks on_files on_gems on_ctx
       on_sess on_idr on_evt on_pumps on_next on_res on_host take_res nvkvm_evt_ctx_register nvkvm_evt_ctx_unregister].

(** A lookup at [d] in what a step leaves. *)
Ltac same k d := let E := fresh in destruct (decide (k = d)) as [E|]; [first [subst k | rewrite E in *] | ].
Ltac look d :=
  repeat match goal with
  | |- context [hit (Some d) d] => rewrite (hit_eq d)
  | |- context [hit (Some ?k) d] => same k d; [| rewrite !(hit_ne k d) by done]
  | |- context [<[d := _]> _ !! d] => rewrite lookup_insert_eq
  | |- context [delete d _ !! d] => rewrite lookup_delete_eq
  | |- context [<[?k := _]> _ !! d] => first [rewrite (lookup_insert_ne _ k d) by done | same k d]
  | |- context [delete ?k _ !! d] => first [rewrite (lookup_delete_ne _ k d) by done | same k d]
  end.

Ltac known :=
  repeat match goal with
  | E : ?a = Some _, G : context [match ?a with Some _ => _ | None => _ end] |- _ => rewrite E in G
  | E : ?a = None, G : context [match ?a with Some _ => _ | None => _ end] |- _ => rewrite E in G
  | E : ?a = Some _ |- context [match ?a with Some _ => _ | None => _ end] => rewrite E
  end.

(** What a thread's phase says about the counts, of it and of the other threads. *)
Ltac has1 f w E := try (let B := fresh "B" in pose proof (tk_has f w _ _ _ E eq_refl) as B; cbn beta in B).
Ltac phase_facts w :=
  match goal with
  | E : w_tasks w !! _ = Some _ |- _ =>
      has1 opens w E; has1 puts w E; has1 ends w E; has1 fails w E; has1 unheld w E; has1 unlisted w E; has1 nohandle w E;
      has1 kills w E; has1 stopped w E; has1 locks w E; has1 creates w E; has1 freed w E; has1 frees w E; has1 looks w E
  | _ => idtac
  end.

Ltac ctx_fin Hc :=
  lazymatch type of Hc with
  | _ /\ _ /\ _ /\ _ /\ _ /\ _ =>
      let H1 := fresh in let H2 := fresh in let H3 := fresh in let H4 := fresh in let H5 := fresh in let H6 := fresh in
      destruct Hc as (H1 & H2 & H3 & H4 & H5 & H6); cbn [ctx_refs ctx_session ctx_handle ctx_poll ctx_uvm fc_refs fc_held fc_session fc_handle];
      lazymatch goal with
      | |- _ /\ _ /\ _ /\ _ /\ _ /\ _ =>
          split_and!;
            [lia | lia | first [lia | case_match; lia] | first [done | congruence | case_match; lia]
            | first [lia | repeat case_decide; first [lia | exfalso; rewrite ?elem_of_cons, ?list_elem_of_filter in *; intuition congruence]]
            | first [done | lia | intros; apply H6; lia]]
      | |- _ => split_and!; [lia | lia | case_decide; [lia | done]]
      end
  | _ /\ _ /\ _ =>
      let H1 := fresh in let H2 := fresh in let H3 := fresh in
      destruct Hc as (H1 & H2 & H3); cbn [fc_refs fc_held fc_session fc_handle];
      lazymatch goal with
      | |- _ /\ _ /\ _ /\ _ /\ _ /\ _ => first [exfalso; lia | split_and!; [lia | lia | lia | done | rewrite decide_False by done; lia | done]]
      | |- _ => first [exfalso; lia | split_and!; [lia | lia | first [done | rewrite ?elem_of_cons, ?list_elem_of_filter in *; intuition congruence]]]
      end
  end.


Section contexts.
Context {H : Type}.

Abbreviation world := (fworld H).

Lemma phases_rest (w : world) t p c :
  w_tasks w !! t = Some p ->
  let n f := tk f w c - hit (f p) c in
  0 <= n opens /\ 0 <= n puts /\ 0 <= n fails <= n ends /\ 0 <= n unheld <= n opens + n ends /\
  0 <= n unlisted <= n opens + n ends /\ 0 <= n nohandle <= n unlisted.
Proof.
  intros Ht. pose proof (phases (fin t w) c) as Hq. unfold phases_of in Hq. rewrite !(tk_fin _ t w w c eq_refl), Ht in Hq. cbn [from_option] in Hq.
  cbv zeta. lia.
Qed.

Lemma gem_frees (w : world) g : 0 <= tk freed w g <= tk frees w g.
Proof. split; [apply tk_nonneg |]. apply tk_le. intros []; cbn; repeat case_match; naive_solver. Qed.

Lemma gem_closing (w : world) t g y :
  lives w -> w_tasks w !! t = Some (P_gem_close g) -> w_gems w !! g = Some y -> gm_held y = true /\ gm_dead y = true.
Proof.
  intros Hl Ht Hg. pose proof (lv_gem _ Hl g) as Hc. unfold gem_ok in Hc. rewrite Hg in Hc. phase_facts w.
  pose proof (gem_frees (fin t w) g) as Hf. rewrite !(tk_fin _ t w w g eq_refl), Ht in Hf. cbn [from_option frees freed] in Hf.
  rewrite hit_eq, hit_none in Hf. destruct (gm_held y), (gm_dead y); lia || done.
Qed.

Lemma gem_freeing (w : world) t p g :
  lives w -> w_tasks w !! t = Some p -> freed p = Some g -> exists y, w_gems w !! g = Some y /\ gm_held y = false /\ gm_dead y = true.
Proof.
  intros Hl Ht Hp. pose proof (tk_has freed w t p g Ht Hp). pose proof (gem_frees w g). pose proof (lv_gem _ Hl g) as Hc. unfold gem_ok in Hc.
  destruct (w_gems w !! g) as [y|]; [|lia]. exists y. split; [done |]. destruct (gm_held y), (gm_dead y); lia || done.
Qed.

End contexts.

(** What is known of the pointers of a step. *)
Ltac step_facts w Hl :=
  try match goal with
  | E : w_tasks w !! _ = Some (P_proxy _ ?c _) |- _ =>
      let F := fresh "F" in pose proof (lv_local _ Hl _ _ E) as F; cbn [local_ok] in F; apply filed_has in F
  | E : w_tasks w !! _ = Some (P_gem_close _), G : w_gems w !! _ = Some _ |- _ => destruct (gem_closing w _ _ _ Hl E G)
  | E : w_tasks w !! _ = Some (P_gem_free _) |- _ => destruct (gem_freeing w _ _ _ Hl E eq_refl) as (? & ? & ? & ?)
  | E : w_tasks w !! _ = None, F : w_files w !! _ = Some _ |- _ => apply filed_has in F as ?
  end.

Ltac rest_facts w d :=
  match goal with
  | E : w_tasks w !! _ = Some _ |- _ =>
      let Q := fresh "Q" in pose proof (phases_rest w _ _ d E) as Q; cbv zeta in Q; cbn [opens puts ends fails unheld unlisted nohandle] in Q
  | _ => idtac
  end.

Section context_steps.
Context {H : Type}.

Abbreviation world := (fworld H).

Lemma ctx_ok_step (w w' : world) : lives w -> ftrans w w' -> forall c, ctx_ok w' c.
Proof.
  intros Hl Ht d. pose proof (lv_ctx _ Hl d) as Hc. pose proof (phases w d) as Hp. unfold phases_of in Hp.
  destruct (lv_fresh _ Hl (w_next w) ltac:(lia)) as (N1 & N2 & N3 & N4).
  destruct Ht; try (destruct p; try done); phase_facts w; step_facts w Hl; rest_facts w d; branches;
  unfold ctx_ok in *; recount w; unfold total in Hc; fields; unfold gem_ref; cbn [gm_held gm_ctx];
  repeat match goal with E : gm_held _ = _ |- _ => rewrite !E in * end; look d; known; hits.
  all: try (ctx_fin Hc).
  all: try (destruct (w_ctx w !! d); ctx_fin Hc).
Qed.

(** What a thread that opens or frees a context knows of it. *)
Lemma ctx_unheld (w : world) t p c :
  lives w -> w_tasks w !! t = Some p -> unheld p = Some c -> exists x, w_ctx w !! c = Some x /\ fc_held x = false.
Proof.
  intros Hl Ht Hp. pose proof (tk_has unheld w t p c Ht Hp) as Hu. pose proof (phases w c) as Hq. unfold phases_of in Hq.
  pose proof (lv_ctx _ Hl c) as Hc. unfold ctx_ok, total in Hc. destruct (w_ctx w !! c) as [x|]; [|lia]. exists x. split; [done |].
  destruct (fc_held x); [lia | done].
Qed.

Lemma ctx_held (w : world) t p c :
  lives w -> w_tasks w !! t = Some p -> opens p = Some c \/ puts p = Some c \/ ends p = Some c -> unheld p <> Some c ->
  exists x s, w_ctx w !! c = Some x /\ fc_held x = true /\ fc_session x = Some s.
Proof.
  intros Hl Ht Hp Hn. pose proof (phases_rest w t p c Ht) as Hq. cbv zeta in Hq. assert (hit (unheld p) c = 0) as E0 by (unfold hit; by rewrite decide_False).
  assert (hit (opens p) c + hit (puts p) c + hit (ends p) c = 1) as E1.
  { unfold hit. repeat case_decide; destruct p; cbn in *; simplify_eq; try done; intuition congruence. }
  pose proof (phases w c) as Hw. unfold phases_of in Hw.
  pose proof (lv_ctx _ Hl c) as Hc. unfold ctx_ok, total in Hc. destruct (w_ctx w !! c) as [x|] eqn:Ex; [|exfalso].
  - destruct Hc as (_ & Hc & Hu & Hs & _). assert (fc_held x = true) as Hh.
    { destruct (fc_held x); [done | exfalso]. pose proof (hit_nonneg (puts p) c). pose proof (hit_nonneg (opens p) c). pose proof (hit_nonneg (ends p) c). lia. }
    destruct (fc_session x) as [s|] eqn:Es; [|by destruct Hs]. by exists x, s.
  - pose proof (hit_nonneg (puts p) c). pose proof (hit_nonneg (opens p) c). pose proof (hit_nonneg (ends p) c). lia.
Qed.

End context_steps.
End FileLives.
