(* ===== verification/FileRuns.v ===== *)
(** * Runs of open files, sessions and buffer objects

    The remaining invariants of [FileLives], and what follows for every run: no freed
    memory is touched, one address space has one session, and when the last file is
    closed nothing is left in the module, the kernel or on the host. *)

From S2P Require Import Prelude HandleTable Ring Sessions Requests GuestMmap GuestFiles FileLives.
Local Open Scope Z_scope.
Local Open Scope nv_scope.

Module FileRuns.
Import GuestFiles FileLives.

Section sessions.
Context {H : Type}.

Abbreviation world := (fworld H).

(** ** Sessions *)

Definition sess_phases (w : world) (s : nat) : Prop :=
  0 <= joined w s /\ 0 <= tk stopped w s <= tk kills w s /\ 0 <= tk creates w s <= tk locks w s.

Lemma sess_bounds (w : world) s : sess_phases w s.
Proof.
  repeat split; try apply tk_nonneg; try apply joined_nonneg.
  - apply tk_le. intros []; cbn; repeat case_match; naive_solver.
  - apply tk_le. intros []; cbn; naive_solver.
Qed.

Lemma sess_rest (w : world) t p s :
  w_tasks w !! t = Some p ->
  let n f := tk f w s - hit (f p) s in
  0 <= n stopped <= n kills /\ 0 <= n creates <= n locks.
Proof.
  intros Ht. destruct (sess_bounds (fin t w) s) as (_ & Hq). rewrite !(tk_fin _ t w w s eq_refl), Ht in Hq. cbn [from_option] in Hq. cbv zeta. lia.
Qed.

(** A session a context refers to is in use. *)
Lemma sess_in_use (w : world) s :
  lives w -> 1 <= joined w s -> exists y, w_sess w !! s = Some y /\ se_mm y <> None /\ tk kills w s = 0.
Proof.
  intros Hl Hj. pose proof (lv_sess _ Hl s) as Hs. unfold sess_ok in Hs. destruct (w_sess w !! s) as [y|]; [|lia].
  destruct Hs as (_ & _ & _ & _ & _ & [(? & ? & ?)|(? & ? & ?)]); [|lia]. by exists y.
Qed.

Lemma no_locks (w : world) s : lives w -> joined w s = 0 -> tk locks w s = 0 /\ tk creates w s = 0.
Proof.
  intros Hl Hj. destruct (sess_bounds w s) as (_ & _ & Hb).
  assert (tk locks w s = 0); [|lia]. apply tk_none. intros t p Ht Hp. pose proof (lv_local _ Hl t p Ht) as Hlo.
  destruct p; cbn in Hp; simplify_eq; cbn in Hlo; destruct Hlo as (x & Hx & Hs); pose proof (joined_has w c x s Hx Hs); lia.
Qed.

End sessions.

(** What the threads of a step know of the session. *)
Ltac sess_facts w Hl :=
  try match goal with
  | E : w_tasks w !! _ = Some (P_session ?c _ _), F : w_ctx w !! ?c = Some ?x |- _ =>
      let x' := fresh "x" in let Ex := fresh in let Eh := fresh "Eh" in
      destruct (ctx_unheld w _ _ _ Hl E eq_refl) as (x' & Ex & Eh); rewrite F in Ex; injection Ex as <-
  | E : w_tasks w !! _ = Some (P_ctx ?c _), F : w_ctx w !! ?c = Some ?x |- _ =>
      let x' := fresh "x" in let Ex := fresh in let Eh := fresh "Eh" in
      destruct (ctx_unheld w _ _ _ Hl E eq_refl) as (x' & Ex & Eh); rewrite F in Ex; injection Ex as <-
  | E : w_tasks w !! _ = Some ?p, F : w_ctx w !! ?c = Some ?x, G : fc_session ?x = Some ?s |- _ =>
      let x' := fresh "x" in let s' := fresh "s" in let Ex := fresh in let Eh := fresh "Eh" in let J := fresh "J" in
      assert (fc_held x = true) as Eh by
        (destruct (ctx_held w _ p c Hl E ltac:(cbn; tauto) ltac:(cbn; congruence)) as (x' & s' & Ex & Eh & _); congruence);
      pose proof (joined_has w c x s F ltac:(unfold sess_ref; by rewrite Eh)) as J
  | E : w_tasks w !! _ = Some (P_create ?c ?s) |- _ =>
      let x' := fresh "x" in let Ex := fresh in let Es := fresh in let J := fresh "J" in
      destruct (lv_local _ Hl _ _ E) as (x' & Ex & Es); pose proof (joined_has w c x' s Ex Es) as J
  | E : w_tasks w !! _ = Some (P_ring ?c ?s) |- _ =>
      let x' := fresh "x" in let Ex := fresh in let Es := fresh in let J := fresh "J" in
      destruct (lv_local _ Hl _ _ E) as (x' & Ex & Es); pose proof (joined_has w c x' s Ex Es) as J
  end.

Ltac sess_rest_facts w d :=
  match goal with
  | E : w_tasks w !! _ = Some _ |- _ =>
      let Q := fresh "Q" in pose proof (sess_rest w _ _ d E) as Q; cbv zeta in Q; cbn [kills stopped locks creates] in Q
  | _ => idtac
  end.

Ltac sess_fin Hs :=
  lazymatch type of Hs with
  | _ /\ _ /\ _ /\ _ /\ _ /\ _ =>
      let H1 := fresh in let H2 := fresh in let H3 := fresh in let H4 := fresh in let H5 := fresh in let H6 := fresh in
      destruct Hs as (H1 & H2 & H3 & H4 & H5 & H6);
      cbn [se_refs se_lock se_iso se_pump se_mm se_ring sess_refs sess_iso sess_ring];
      lazymatch goal with
      | |- _ /\ _ /\ _ /\ _ /\ _ /\ _ =>
          split_and!;
            [lia | first [lia | case_match; lia] | first [done | lia | intros; apply H3; lia | case_match; lia]
            | first [done | match goal with |- context [if ?b then _ else _] => destruct b eqn:? end; rewrite ?elem_of_union, ?elem_of_difference, ?elem_of_singleton; intuition congruence | rewrite ?elem_of_union, ?elem_of_difference, ?elem_of_singleton; intuition congruence]
            | first [done | lia | intros; apply H5; lia]
            | destruct H6 as [(? & ? & ?)|(? & ? & ? & ? & ?)]; first [exfalso; lia | congruence | left; split_and!; [lia | lia | done] | right; split_and!; [lia | lia | done..]]]
      | |- _ => destruct H6 as [(? & ? & ?)|(? & ? & ? & ? & ?)]; [exfalso; lia |]; split_and!; [lia | lia | intuition congruence]
      end
  | _ /\ _ /\ _ =>
      let H1 := fresh in let H2 := fresh in let H3 := fresh in destruct Hs as (H1 & H2 & H3);
      first [exfalso; lia
            | match goal with Hl : lives ?w |- _ /\ _ /\ _ /\ _ /\ _ /\ _ => destruct (no_locks w _ Hl H1) end;
              cbn [se_refs se_lock se_iso se_pump se_mm se_ring]; split_and!; [lia | lia | done | intuition congruence | done | left; split_and!; [lia | lia | done]]
            | match goal with |- context [if ?b then _ else _] => destruct b eqn:? end; split_and!; [lia | lia | rewrite ?elem_of_difference; intuition congruence]
            | split_and!; [lia | lia | first [done | rewrite ?elem_of_union, ?elem_of_difference, ?elem_of_singleton; intuition congruence]]]
  end.

Ltac gem_fin Hg :=
  lazymatch type of Hg with
  | _ /\ _ /\ _ =>
      let H1 := fresh in let H2 := fresh in let H3 := fresh in destruct Hg as (H1 & H2 & H3); cbn [gm_dead gm_held];
      lazymatch goal with
      | |- _ /\ _ /\ _ => split_and!; [lia | lia | first [done | lia | intros; apply H3; lia]]
      | |- _ => split; [lia | match goal with |- ?a - 0 = 0 => let L := fresh in destruct (Z.le_gt_cases 1 a) as [L|]; [by specialize (H3 L) | lia] end]
      end
  | _ /\ _ =>
      let H1 := fresh in let H2 := fresh in destruct Hg as (H1 & H2); cbn [gm_dead gm_held];
      lazymatch goal with
      | |- _ /\ _ /\ _ => split_and!; [lia | lia | first [done | lia]]
      | |- _ => first [exfalso; lia | split; lia]
      end
  end.

Section session_steps.
Context {H : Type}.

Abbreviation world := (fworld H).

Lemma sess_ok_step (w w' : world) : lives w -> ftrans w w' -> forall s, sess_ok w' s.
Proof.
  intros Hl Ht d. pose proof (lv_sess _ Hl d) as Hs. pose proof (sess_bounds w d) as Hb. unfold sess_phases in Hb.
  destruct (lv_fresh _ Hl (w_next w) ltac:(lia)) as (N1 & N2 & N3 & N4).
  destruct Ht; try (destruct p; try done); phase_facts w; sess_facts w Hl; sess_rest_facts w d;
  try (match goal with E : w_idr w !! _ = Some _, F : w_sess w !! _ = Some _ |- _ => destruct (lv_idr _ Hl _ _ E) as (? & ? & ? & ?); simplify_eq end);
  branches; unfold sess_ok in *; recount w; fields; unfold sess_ref; cbn [fc_held fc_session ctx_session ctx_refs ctx_handle ctx_poll ctx_uvm];
  repeat match goal with E : fc_held _ = _ |- _ => rewrite !E in * | E : fc_session _ = Some _ |- context [fc_session _] => rewrite !E end; look d; known; hits.
  all: try (sess_fin Hs).
  all: try (destruct (w_sess w !! d); sess_fin Hs).
  destruct (se_pump y), (w_sess w !! d); sess_fin Hs.
Qed.

(** ** Objects *)

Lemma gem_rest (w : world) t p g :
  w_tasks w !! t = Some p -> 0 <= tk freed w g - hit (freed p) g <= tk frees w g - hit (frees p) g.
Proof.
  intros Ht. pose proof (gem_frees (fin t w) g) as Hq. rewrite !(tk_fin _ t w w g eq_refl), Ht in Hq. cbn [from_option] in Hq. lia.
Qed.

Lemma gem_ok_step (w w' : world) : lives w -> ftrans w w' -> forall g, gem_ok w' g.
Proof.
  intros Hl Ht d. pose proof (lv_gem _ Hl d) as Hg. pose proof (gem_frees w d) as Hb. pose proof (tk_nonneg looks w d) as Hk.
  destruct (lv_fresh _ Hl (w_next w) ltac:(lia)) as (N1 & N2 & N3 & N4).
  destruct Ht; try (destruct p; try done); phase_facts w;
  try (match goal with E : w_tasks w !! _ = Some _ |- _ => pose proof (gem_rest w _ _ d E) as Q; cbn [freed frees] in Q end);
  try (match goal with E : forall t' p, _ -> looks p <> Some _ |- _ => apply tk_none in E end);
  step_facts w Hl; branches; unfold gem_ok in *; recount w; fields; look d; known; hits;
  repeat match goal with E : gm_held _ = _ |- _ => rewrite E in Hg; clear E | E : gm_dead _ = _ |- _ => rewrite E in Hg; cbn [gm_dead]; rewrite ?E; clear E end.
  all: try (gem_fin Hg).
  all: try (destruct (w_gems w !! d); gem_fin Hg).
Qed.

(** ** Threads, ids and addresses *)

(** What a thread relies on is not changed by the others. *)
Lemma sess_kept (w w' : world) c x s :
  lives w -> ftrans w w' -> 1 <= tk opens w c -> w_ctx w !! c = Some x -> sess_ref x = Some s ->
  exists x', w_ctx w' !! c = Some x' /\ sess_ref x' = Some s.
Proof.
  intros Hl Htr Ho Hx Hs. pose proof (lv_ctx _ Hl c) as Hc. unfold ctx_ok in Hc. rewrite Hx in Hc.
  destruct (lv_fresh _ Hl (w_next w) ltac:(lia)) as (N1 & _).
  destruct Htr; try (destruct p; try done); sess_facts w Hl; phase_facts w; branches; fields; try (by exists x);
    look c; try (by exists x); simplify_eq; try (eexists; split; [reflexivity | done]).
  all: first [exfalso; lia | unfold sess_ref in Hs; by rewrite Eh in Hs].
Qed.

Lemma file_kept (w w' : world) t p f c :
  lives w -> ftrans w w' -> w_tasks w !! t = Some p -> uses p = Some f -> w_files w !! f = Some c -> w_files w' !! f = Some c.
Proof.
  intros Hl Htr Ht Hu Hf. destruct (lv_fresh _ Hl (w_next w) ltac:(lia)) as (_ & _ & _ & N4).
  destruct Htr; branches; fields; try done; look f; try done; [congruence |].
  match goal with E : forall t' p, _ -> uses p <> Some f |- _ => by apply E in Ht end.
Qed.

Lemma local_old (w w' : world) t p : lives w -> ftrans w w' -> w_tasks w !! t = Some p -> local_ok w' p.
Proof.
  intros Hl Htr Ht. pose proof (lv_local _ Hl t p Ht) as Hp.
  destruct p; try done; cbn [local_ok] in *; try (by eapply file_kept).
  - destruct Hp as (x & Hx & Hs). eapply sess_kept; [done | done | by eapply tk_has | done | done].
  - destruct Hp as (x & Hx & Hs). eapply sess_kept; [done | done | by eapply tk_has | done | done].
  - destruct Hp as [c Hc]. exists c. by eapply file_kept.
Qed.

Lemma local_step (w w' : world) t p : lives w -> ftrans w w' -> w_tasks w' !! t = Some p -> local_ok w' p.
Proof.
  intros Hl Htr Ht. pose proof (fun t p => local_old w w' t p Hl Htr) as Hold.
  revert Ht Hold; destruct Htr; branches; intros Ht Hold; cbn [w_tasks adv fin set_ctx set_sess set_gem on_tasks on_files on_gems on_ctx
       on_sess on_idr on_evt on_pumps on_next on_res on_host take_res nvkvm_evt_ctx_register nvkvm_evt_ctx_unregister] in Ht;
  rewrite ?lookup_insert_Some, ?lookup_delete_Some in Ht;
  match type of Ht with _ \/ _ => destruct Ht as [[<- <-]|[_ Ht]]; [|by apply (Hold t)] | _ /\ _ => destruct Ht as [_ Ht]; by apply (Hold t) | _ => by apply (Hold t) end; cbn [local_ok]; fields.
  all: try done; sess_facts w Hl; try (eexists; split; [eassumption | unfold sess_ref; by rewrite ?Eh]).
  all: first [by eexists | match goal with E : w_tasks _ !! _ = Some _ |- _ => by pose proof (lv_local _ Hl _ _ E) end].
Qed.

Lemma killed_mm (w : world) t p s y : lives w -> w_tasks w !! t = Some p -> kills p = Some s -> w_sess w !! s = Some y -> se_mm y = None.
Proof.
  intros Hl Ht Hp Hy. pose proof (tk_has kills w t p s Ht Hp). pose proof (lv_sess _ Hl s) as Hs. unfold sess_ok in Hs. rewrite Hy in Hs.
  destruct Hs as (_ & _ & _ & _ & _ & [(? & ? & ?)|(? & ? & ? & ?)]); [lia | done].
Qed.

Lemma idr_step (w w' : world) :
  lives w -> ftrans w w' -> forall i s, w_idr w' !! i = Some s -> exists y, w_sess w' !! s = Some y /\ se_id y = i /\ se_mm y <> None.
Proof.
  intros Hl Htr j d Hj. destruct (lv_fresh _ Hl (w_next w) ltac:(lia)) as (_ & N2 & _).
  revert Hj. destruct Htr; branches; fields; intros Hj.
  all: try (apply lookup_insert_Some in Hj as [[<- <-]|[_ Hj]]; [rewrite lookup_insert_eq; by eexists |]).
  all: try (apply lookup_delete_Some in Hj as [Hne Hj]).
  all: destruct (lv_idr _ Hl _ _ Hj) as (y0 & Hy0 & Hid & Hmm).
  all: try (by exists y0).
  all: look d; try (by exists y0); simplify_eq; try (eexists; split; [reflexivity | done]).
  destruct Hmm. by eapply killed_mm.
Qed.

Lemma listed_step (w w' : world) :
  lives w -> ftrans w w' -> forall s y, w_sess w' !! s = Some y -> se_mm y <> None -> w_idr w' !! se_id y = Some s.
Proof.
  intros Hl Htr d z. destruct (lv_fresh _ Hl (w_next w) ltac:(lia)) as (_ & N2 & _).
  destruct Htr; branches; fields; look d; intros [= <-] Hmm || intros Hz Hmm; try done; cbn [se_id se_mm sess_refs sess_iso sess_ring] in *.
  all: try (by eapply lv_listed).
  all: try (rewrite lookup_insert_eq; done).
  all: try (rewrite lookup_insert_ne; [by eapply lv_listed |]; intros ->; by erewrite lv_listed in * by done).
  sess_facts w Hl. destruct (sess_in_use w s Hl J) as (y' & Hy' & Hm' & _).
  assert (y' = y) as -> by congruence. pose proof (lv_listed _ Hl _ _ Hz Hmm) as Hd. pose proof (lv_listed _ Hl _ _ Hy' Hm') as Hs.
  rewrite lookup_delete_ne; [done | congruence].
Qed.

Lemma mm_step (w w' : world) :
  lives w -> ftrans w w' ->
  forall s s' y y' m, w_sess w' !! s = Some y -> w_sess w' !! s' = Some y' -> se_mm y = Some m -> se_mm y' = Some m -> s = s'.
Proof.
  intros Hl Htr d d' z z' m. pose proof (lv_mm _ Hl) as Hu.
  assert (forall s y m, w_sess w !! s = Some y -> se_mm y = Some m -> exists i, w_idr w !! i = Some s) as Hi.
  { intros s y m' Hy Hm. exists (se_id y). apply (lv_listed _ Hl); [done | congruence]. }
  destruct Htr; branches; fields; try (by apply Hu); rewrite ?lookup_insert_Some, ?lookup_delete_Some.
  all: intros Hz Hz' Hm Hm'; repeat match goal with E : _ \/ _ |- _ => destruct E as [[? <-]|[? ?]] | E : _ /\ _ |- _ => destruct E end;
    cbn [se_mm sess_refs sess_iso sess_ring] in *; simplify_eq; try done; try (by eapply Hu).
  all: exfalso; match goal with F : w_sess _ !! _ = Some ?z, G : se_mm ?z = Some _ |- _ => destruct (Hi _ _ _ F G); naive_solver end.
Qed.

Lemma fresh_step (w w' : world) :
  lives w -> ftrans w w' ->
  forall p, (w_next w' <= p)%nat -> w_ctx w' !! p = None /\ w_sess w' !! p = None /\ w_gems w' !! p = None /\ w_files w' !! p = None.
Proof.
  intros Hl Htr q. pose proof (lv_fresh _ Hl) as Hf.
  assert (forall {A} (m : gmap nat A) k x, m !! k = Some x -> (forall p, (w_next w <= p)%nat -> m !! p = None) -> (k < w_next w)%nat) as Hlt.
  { intros A m k x Hk Hm. destruct (decide (k < w_next w)%nat); [done |]. by rewrite Hm in Hk by lia. }
  destruct Htr; branches; fields; intros Hq; rewrite ?lookup_insert_None, ?lookup_delete_None.
  all: try (by apply Hf).
  all: destruct (Hf q) as (F1 & F2 & F3 & F4); [lia |].
  all: repeat match goal with
    | E : w_ctx _ !! _ = Some _ |- _ => apply Hlt in E; [|intros; by apply Hf]
    | E : w_sess _ !! _ = Some _ |- _ => apply Hlt in E; [|intros; by apply Hf]
    | E : w_gems _ !! _ = Some _ |- _ => apply Hlt in E; [|intros; by apply Hf]
    end.
  all: split_and!; try done; try lia; try (by right).
Qed.

Lemma lives_step (w w' : world) : lives w -> ftrans w w' -> lives w'.
Proof.
  intros Hl Htr. split.
  - by apply (ctx_ok_step w).
  - by apply (sess_ok_step w).
  - by apply (gem_ok_step w).
  - intros t p. by apply (local_step w).
  - by apply (idr_step w).
  - by apply (listed_step w).
  - by apply (mm_step w).
  - by apply (fresh_step w).
Qed.

(** ** No step follows a pointer to freed memory *)

Definition ready (w : world) (c : nat) : Prop :=
  exists x s y, w_ctx w !! c = Some x /\ fc_session x = Some s /\ w_sess w !! s = Some y.

Lemma ready_ctx (w : world) c x s : lives w -> w_ctx w !! c = Some x -> fc_held x = true -> fc_session x = Some s -> ready w c.
Proof.
  intros Hl Hx Hh Hs. destruct (sess_in_use w s Hl) as (y & Hy & _); [|by exists x, s, y].
  apply (joined_has w c x s Hx). unfold sess_ref. by rewrite Hh.
Qed.

Lemma ready_thread (w : world) t p c :
  lives w -> w_tasks w !! t = Some p -> opens p = Some c \/ puts p = Some c \/ ends p = Some c -> unheld p <> Some c -> ready w c.
Proof. intros Hl Ht Hp Hu. destruct (ctx_held w t p c Hl Ht Hp Hu) as (x & s & Hx & Hh & Hs). by eapply ready_ctx. Qed.

Lemma ready_used (w : world) c : lives w -> 1 <= filed w c + gemmed w c + tk puts w c -> ready w c.
Proof. intros Hl Hu. destruct (in_use w c Hl Hu) as (x & s & Hx & Hh & Hs & _). by eapply ready_ctx. Qed.

Lemma ready_file (w : world) f c : lives w -> w_files w !! f = Some c -> ready w c.
Proof.
  intros Hl Hf. apply ready_used; [done |]. pose proof (filed_has w f c Hf). pose proof (gemmed_nonneg w c). pose proof (tk_nonneg puts w c). lia.
Qed.

Lemma ready_gem (w : world) g y : lives w -> w_gems w !! g = Some y -> gm_held y = true -> ready w (gm_ctx y).
Proof.
  intros Hl Hg Hh. apply ready_used; [done |]. pose proof (gemmed_has w g y Hg Hh). pose proof (filed_nonneg w (gm_ctx y)).
  pose proof (tk_nonneg puts w (gm_ctx y)). lia.
Qed.

Lemma live_gem_held (w : world) g y : lives w -> w_gems w !! g = Some y -> gm_dead y = false -> gm_held y = true.
Proof.
  intros Hl Hg Hd. pose proof (lv_gem _ Hl g) as Ho. unfold gem_ok in Ho. rewrite Hg, Hd in Ho. pose proof (gem_frees w g).
  destruct (gm_held y); [done | lia].
Qed.

Lemma looked_gem (w : world) t p g :
  lives w -> w_tasks w !! t = Some p -> looks p = Some g -> exists y, w_gems w !! g = Some y /\ gm_held y = true.
Proof.
  intros Hl Ht Hp. pose proof (tk_has looks w t p g Ht Hp) as Hk. pose proof (lv_gem _ Hl g) as Ho. unfold gem_ok in Ho.
  destruct (w_gems w !! g) as [y|] eqn:Hg; [|lia]. exists y. split; [done |]. eapply live_gem_held; [done | done |]. by apply Ho.
Qed.

Lemma doomed_sess (w : world) t p s : lives w -> w_tasks w !! t = Some p -> kills p = Some s -> exists y, w_sess w !! s = Some y.
Proof.
  intros Hl Ht Hp. pose proof (tk_has kills w t p s Ht Hp) as Hk. pose proof (lv_sess _ Hl s) as Hs. unfold sess_ok in Hs.
  destruct (w_sess w !! s) as [y|]; [by exists y | lia].
Qed.

Lemma seek_mm_done mm l (w : world) : (forall i s, (i, s) ∈ l -> exists y, w_sess w !! s = Some y) -> seek_mm mm l w <> None.
Proof.
  induction l as [|[i s] l IH]; intros Hl; cbn; [done |]. destruct (Hl i s) as [y ->]; [left |]. case_bool_decide; [done |].
  apply IH. intros j s' Hin. apply (Hl j). by right.
Qed.

Lemma listed_ready (w : world) c : lives w -> c ∈ w_evt w -> ready w c.
Proof.
  intros Hl Hc. pose proof (lv_ctx _ Hl c) as Ho. unfold ctx_ok in Ho. pose proof (phases w c) as Hp. unfold phases_of in Hp.
  destruct (w_ctx w !! c) as [x|] eqn:Hx; [|by destruct Ho as (_ & _ & Ho)]. rewrite decide_True in Ho by done.
  destruct Ho as (_ & Ho & Hu & Hs & Hn & _).
  assert (tk unheld w c <= tk unlisted w c) by (apply tk_le; by intros []).
  destruct (fc_held x) eqn:Hh; [|lia]. destruct (fc_session x) as [s|] eqn:Es; [by eapply ready_ctx | by destruct Hs].
Qed.

End session_steps.

(** A step at a pointer that is [ready]. *)
Ltac go R :=
  let x := fresh "x" in let s := fresh "s" in let y := fresh "y" in let E1 := fresh in let E2 := fresh in let E3 := fresh in
  destruct R as (x & s & y & E1 & E2 & E3); unfold at_ctx, at_session, at_sess; rewrite ?E1; cbv beta; rewrite ?E2; cbv beta; rewrite ?E3; cbv beta.

Section safe.
Context {H : Type} `{file_host H} (win : GuestMmap.mctx) (ctl_major uvm_major : Z).

Abbreviation world := (fworld H).

Lemma deliver_safe iso handle events l (w : world) : lives w -> (forall c, c ∈ l -> c ∈ w_evt w) -> evt_each iso handle events l w <> Oops.
Proof.
  revert w. induction l as [|c l IH]; intros w Hl Hin; cbn; [done |].
  assert (forall c', c' ∈ l -> c' ∈ w_evt w) as Hin' by (intros; apply Hin; by right).
  go (listed_ready w c Hl (Hin c ltac:(left))). destruct (negb _); [by apply IH |].
  destruct (_ =? _); [|by apply IH]. apply IH; [|done]. eapply lives_step; [done |]. by apply tr_poll.
Qed.

Lemma session_safe a t c mm tgid (w : world) : lives w -> w_tasks w !! t = Some (P_session c mm tgid) -> open_session a t c mm tgid w <> Oops.
Proof.
  intros Hl Ht. destruct (ctx_unheld w _ _ _ Hl Ht eq_refl) as (x & Hx & _). unfold open_session, at_ctx. rewrite Hx.
  unfold nvkvm_session_get_or_create. destruct (seek_mm mm (map_to_list (w_idr w)) w) as [[s|]|] eqn:Hk.
  - apply seek_mm_found in Hk as (i & y & _ & -> & _). done.
  - repeat case_match; done.
  - exfalso. revert Hk. apply seek_mm_done. intros i s Hi%elem_of_map_to_list. destruct (lv_idr _ Hl _ _ Hi) as (y & Hy & _). by exists y.
Qed.

Lemma ring_safe a t c s (w : world) : lives w -> w_tasks w !! t = Some (P_ring c s) -> ensure_ring win a t c s w <> Oops.
Proof.
  intros Hl Ht. destruct (lv_local _ Hl _ _ Ht) as (x & Hx & Hs). destruct (sess_in_use w s Hl (joined_has w c x s Hx Hs)) as (y & Hy & _).
  unfold ensure_ring, at_sess. rewrite Hy. unfold unlock, at_sess, nvkvm_session_setup_ring.
  destruct (se_ring y); [by rewrite Hy |]. destruct (fh_ring _ _ _) as [h [r [gpa bytes]]].
  repeat case_match; try done; cbn in *; rewrite ?lookup_insert_eq in *; congruence.
Qed.

Lemma task_safe t a (w : world) : lives w -> task_step win t a w <> Oops.
Proof.
  intros Hl. unfold task_step. destruct (w_tasks w !! t) as [p|] eqn:Ht; [|done].
  assert (forall c, opens p = Some c \/ puts p = Some c \/ ends p = Some c -> unheld p <> Some c -> ready w c) as Hr by (intros; by eapply ready_thread).
  destruct p; cbn [opens puts ends unheld] in Hr.
  - unfold open_alloc. by case_match.
  - by apply session_safe.
  - unfold ensure_lock. go (Hr c ltac:(tauto) ltac:(done)). by repeat case_match.
  - destruct (lv_local _ Hl _ _ Ht) as (x & Hx & Hs). destruct (sess_in_use w s Hl (joined_has w c x s Hx Hs)) as (y & Hy & _).
    unfold ensure_create, at_sess. rewrite Hy. by repeat case_match.
  - by apply ring_safe.
  - unfold open_handle. go (Hr c ltac:(tauto) ltac:(done)). by repeat case_match.
  - unfold open_install. go (Hr c ltac:(tauto) ltac:(done)). by repeat case_match.
  - unfold nvkvm_fd_ctx_put. go (Hr c ltac:(tauto) ltac:(done)). by repeat case_match.
  - unfold nvkvm_fd_ctx_destroy. go (Hr c ltac:(tauto) ltac:(done)). destruct st; unfold at_session, at_sess; rewrite ?H2, ?H3; done.
  - unfold drop_session. go (Hr c ltac:(tauto) ltac:(done)). by repeat case_match.
  - destruct (doomed_sess w _ _ _ Hl Ht eq_refl) as [y Hy]. unfold session_teardown, at_sess. destruct st; rewrite ?Hy; done.
  - destruct (ctx_unheld w _ _ _ Hl Ht eq_refl) as (x & Hx & _). unfold free_ctx, at_ctx. by rewrite Hx.
  - unfold gem_free_close, at_gem. pose proof (lv_gem _ Hl g) as Hg. unfold gem_ok in Hg. pose proof (tk_has frees w t _ g Ht eq_refl).
    destruct (w_gems w !! g) as [y|] eqn:Ey; [|lia]. destruct (gem_closing w t g y Hl Ht Ey) as [Hh _].
    go (ready_gem w g y Hl Ey Hh). by repeat case_match.
  - destruct (gem_freeing w _ _ _ Hl Ht eq_refl) as (y & Hy & _). unfold gem_free_memory, at_gem. by rewrite Hy.
  - unfold forward_object. go (ready_file w f c Hl (lv_local _ Hl _ _ Ht)). by repeat case_match.
  - unfold nvkvm_gem_proxy_create. destruct (negb _); [done |]. go (ready_file w f c Hl (lv_local _ Hl _ _ Ht)). by repeat case_match.
  - destruct (lv_local _ Hl _ _ Ht) as [c Hc]. unfold resolve_broker. rewrite Hc. destruct (looked_gem w _ _ _ Hl Ht eq_refl) as (y & Hy & Hh).
    unfold at_gem. rewrite Hy. go (ready_gem w g y Hl Hy Hh). go (ready_file w f c Hl Hc). by repeat case_match.
  - done.
  - unfold forward_on. go (ready_file w f c Hl (lv_local _ Hl _ _ Ht)). done.
  - unfold poll_arm_call. go (ready_file w f c Hl (lv_local _ Hl _ _ Ht)). done.
Qed.

Lemma fstep_safe o (w : world) : lives w -> fstep win ctl_major uvm_major o w <> Oops.
Proof.
  intros Hl. destruct o; cbn [fstep]; try (unfold idle; destruct (w_tasks w !! t); [done |]); try (unfold at_file; destruct (w_files w !! f) as [c|] eqn:Hf; [|done]); try done.
  - by apply task_safe.
  - by case_match.
  - go (ready_file w f c Hl Hf). unfold nvkvm_poll. by case_match.
  - by apply deliver_safe.
  - case_bool_decide as Hs; [|done]. pose proof (lv_sess _ Hl s) as Ho. unfold sess_ok in Ho. unfold at_sess.
    destruct (w_sess w !! s); [done |]. by destruct Ho as (_ & _ & []).
  - by repeat case_match.
  - destruct (w_gems w !! g) as [y|] eqn:Hg; [|done]. destruct (gm_dead y) eqn:Hd; [done |].
    unfold resolve_lookup, at_gem. rewrite Hg. go (ready_gem w g y Hl Hg (live_gem_held w g y Hl Hg Hd)). go (ready_file w f c Hl Hf). by repeat case_match.
Qed.

Lemma lives_init h : lives (files_init h : world).
Proof.
  split; unfold files_init; cbn; try done.
  intros c. unfold ctx_ok, total, filed, gemmed, tk. cbn. rewrite lookup_empty, !msum_empty. split_and!; [done | done | apply not_elem_of_nil].
Qed.

Lemma lives_run (w w' : world) : rtc ftrans w w' -> lives w -> lives w'.
Proof. induction 1 as [|w w1 w2 Hs _ IH]; intros Hl; [done |]. by eapply IH, lives_step. Qed.

Lemma lives_reach h w : freach win ctl_major uvm_major h w -> lives w.
Proof. induction 1 as [|o w w' _ IH Hown Hs]; [apply lives_init |]. eapply lives_run; [by eapply fstep_trans | done]. Qed.

(** C19. [lifetimes_sound]: whatever the threads, the host and the allocator do, as long as
    no ioctl on a buffer object is forwarded on another file's context, no step
    follows a pointer to a freed context, session or object; the counter of a context
    is the number of files, objects and threads that refer to it, the counter
    of a session the number of contexts that do; and a process, that is, an address
    space, has at most one session, the one its id finds. *)
Theorem lifetimes_sound h w :
  freach win ctl_major uvm_major h w ->
  (forall o, fstep win ctl_major uvm_major o w <> Oops) /\
  (forall c x, w_ctx w !! c = Some x -> fc_refs x = total w c) /\
  (forall s y, w_sess w !! s = Some y -> se_refs y = joined w s) /\
  (forall s y s' m, w_sess w !! s = Some y -> se_mm y = Some m ->
     w_idr w !! se_id y = Some s /\ forall y', w_sess w !! s' = Some y' -> se_mm y' = Some m -> s' = s).
Proof.
  intros Hl%lives_reach. split; [by intros; apply fstep_safe |]. split; [|split].
  - intros c x Hx. pose proof (lv_ctx _ Hl c) as Hc. unfold ctx_ok in Hc. rewrite Hx in Hc. by destruct Hc.
  - intros s y Hy. pose proof (lv_sess _ Hl s) as Hs. unfold sess_ok in Hs. rewrite Hy in Hs. by destruct Hs.
  - intros s y s' m Hy Hm. split; [apply (lv_listed _ Hl); congruence |]. intros y' Hy' Hm'. by eapply (lv_mm _ Hl).
Qed.

(** Runs without such ioctls. *)
Definition no_export (o : fop) : bool := match o with F_export _ _ _ => false | _ => true end.

Lemma run_reach h l (w w' : world) :
  freach win ctl_major uvm_major h w -> forallb no_export l = true -> frun win ctl_major uvm_major l w = Go w' ->
  freach win ctl_major uvm_major h w'.
Proof.
  revert w. induction l as [|o l IH]; intros w Hw; cbn; [by intros _ [= <-] |]. intros [Ho Hl]%andb_true_iff Hs.
  destruct (fstep win ctl_major uvm_major o w) as [w1| |] eqn:E; [|done|done]. eapply IH; [|done|done]. apply (freach_step _ _ _ _ o w); [done | by destruct o | done].
Qed.

End safe.

(** ** An example of a host *)

(** Every answer is a number not used before. *)
#[export] Instance counting_host : file_host Z := {|
  fh_create _ _ n := (n + 1, (0, n + 1));
  fh_kill _ _ n := n;
  fh_ring _ _ n := (n, (0, (0x200000000, 64)));
  fh_open _ _ _ n := (n + 1, (0, n + 1));
  fh_close_on _ _ _ n := n;
  fh_close _ _ n := n;
  fh_arm _ _ _ n := (n, 0);
  fh_forward _ _ _ n := (n + 1, (0, n + 1));
  fh_import _ _ _ _ _ _ n := (n + 1, (0, n + 1))
|}.

Definition ex_window : GuestMmap.mctx := GuestMmap.MCtx 0 0 0 0 (2 ^ 32) (2 ^ 37).
Definition yes : answers := Ans true true true 0.
Definition steps (n t : nat) : list fop := repeat (F_step t yes) n.

(** Two processes open the control device, the first also a GPU and a buffer object. *)
Definition ex_opens : list fop :=
  [F_open 0 195 255 100 10] ++ steps 7 0 ++ [F_open 1 195 0 100 10] ++ steps 5 1 ++ [F_open 2 195 255 200 20] ++ steps 7 2 ++
  [F_object 0 2] ++ steps 2 0.

Definition ex_run (l : list fop) : fworld Z := match frun ex_window 195 511 l (files_init 0) with Go w => w | _ => files_init 0 end.

Lemma ex_files_reach l : forallb no_export l = true -> freach ex_window 195 511 0 (ex_run l).
Proof.
  intros Hl. unfold ex_run. destruct (frun ex_window 195 511 l (files_init 0)) as [w| |] eqn:E; try apply freach_init.
  eapply run_reach; [apply freach_init | done | exact E].
Qed.

Lemma lifetimes_sound_witness :
  size (w_files (ex_run ex_opens)) = 3%nat /\ size (w_gems (ex_run ex_opens)) = 1%nat /\
  fc_refs <$> (w_ctx (ex_run ex_opens) !! 0%nat) = Some 2 /\ se_refs <$> (w_sess (ex_run ex_opens) !! 1%nat) = Some 2 /\
  forall o, fstep ex_window 195 511 o (ex_run ex_opens) <> Oops.
Proof.
  split; [by vm_compute |]. split; [by vm_compute |]. split; [by vm_compute |]. split; [by vm_compute |].
  apply (lifetimes_sound ex_window 195 511 0 (ex_run ex_opens)). apply ex_files_reach. by vm_compute.
Defined.

End FileRuns.
