(* ===== verification/FileOwns.v ===== *)
(** * What open files hold, and that closing gives it back

    The address spaces, pids, ring mappings, isolates and host handles that the
    threads of [GuestFiles] hold are those of the sessions and contexts there are, and
    of the sessions being freed.  Every thread ends, whatever the others do, and once all
    have and every file is closed and every object freed, nothing is left. *)

From S2P Require Import Prelude HandleTable Ring Sessions Requests GuestMmap GuestFiles FileLives FileRuns.
Local Open Scope Z_scope.
Local Open Scope nv_scope.

Module FileOwns.
Import GuestFiles FileLives FileRuns.

(** ** Owners *)

Definition own (o : option (Z * Z)) (r : Z * Z) : Z := if decide (o = Some r) then 1 else 0.
Definition nonzero (f : Z -> Z * Z) (v : Z) : option (Z * Z) := if v =? 0 then None else Some (f v).

Definition sess_res (r : Z * Z) (y : gsession) : Z :=
  own (R_mm <$> se_mm y) r + own (match se_mm y with Some _ => R_pid <$> se_pid y | None => None end) r + own (R_ring <$> se_ring y) r +
  own (nonzero R_iso (se_iso y)) r.
Definition ctx_res (r : Z * Z) (x : fd_ctx) : Z := own (nonzero R_handle (fc_handle x)) r.
(** What a session being freed still has. *)
Definition pc_res (r : Z * Z) (p : fpc) : Z :=
  match p with
  | P_teardown st _ d _ _ =>
      match st with K_free => 0 | _ => own (R_mm <$> dm_mm d) r + own (R_pid <$> dm_pid d) r end +
      match st with K_pump | K_unmap => own (R_ring <$> dm_ring d) r | _ => 0 end +
      match st with K_pump | K_unmap | K_kill => own (nonzero R_iso (dm_iso d)) r | _ => 0 end
  | _ => 0
  end.

Section owns.
Context {H : Type}.

Abbreviation world := (fworld H).

(** Held without an owner. *)
Definition spare (r : Z * Z) (w : world) : Z :=
  held_res r w - msum (sess_res r) (w_sess w) - msum (ctx_res r) (w_ctx w) - msum (pc_res r) (w_tasks w).

Lemma spare_take r n r' (w : world) : spare r (take_res n r' w) = spare r w + n * own (Some r') r.
Proof.
  unfold spare, own. cbn. unfold held_res at 1. cbn. case_decide as E.
  - injection E as ->. rewrite lookup_insert_eq. cbn. lia.
  - rewrite lookup_insert_ne by congruence. unfold held_res. lia.
Qed.

Lemma spare_drop r f o (w : world) : spare r (drop_res f o w) = spare r w - own (f <$> o) r.
Proof. destruct o as [v|]; cbn; [rewrite spare_take; lia |]. unfold own. rewrite decide_False by done. lia. Qed.

Lemma spare_adv r t p (w : world) : spare r (adv t p w) = spare r w - pc_res r p + from_option (pc_res r) 0 (w_tasks w !! t).
Proof. unfold spare. cbn. rewrite msum_set. unfold held_res. cbn. lia. Qed.

Lemma spare_fin r t (w : world) : spare r (fin t w) = spare r w + from_option (pc_res r) 0 (w_tasks w !! t).
Proof. unfold spare. cbn. rewrite msum_del. unfold held_res. cbn. lia. Qed.

Lemma spare_set_ctx r c x (w : world) : spare r (set_ctx c x w) = spare r w - ctx_res r x + from_option (ctx_res r) 0 (w_ctx w !! c).
Proof. unfold spare. cbn. rewrite msum_set. unfold held_res. cbn. lia. Qed.

Lemma spare_del_ctx r c (w : world) : spare r (on_ctx (delete c (w_ctx w)) w) = spare r w + from_option (ctx_res r) 0 (w_ctx w !! c).
Proof. unfold spare. cbn. rewrite msum_del. unfold held_res. cbn. lia. Qed.

Lemma spare_set_sess r s y (w : world) : spare r (set_sess s y w) = spare r w - sess_res r y + from_option (sess_res r) 0 (w_sess w !! s).
Proof. unfold spare. cbn. rewrite msum_set. unfold held_res. cbn. lia. Qed.

Lemma spare_del_sess r s (w : world) : spare r (on_sess (delete s (w_sess w)) w) = spare r w + from_option (sess_res r) 0 (w_sess w !! s).
Proof. unfold spare. cbn. rewrite msum_del. unfold held_res. cbn. lia. Qed.

Lemma spare_after_put r t g (w : world) : spare r (after_put t g w) = spare r w + from_option (pc_res r) 0 (w_tasks w !! t).
Proof. destruct g; cbn; [rewrite spare_adv; cbn; lia | apply spare_fin]. Qed.

(** ** Steps *)

Lemma own_none r : own None r = 0.
Proof. unfold own. by rewrite decide_False. Qed.

Lemma own_nonneg o r : 0 <= own o r.
Proof. unfold own. case_decide; lia. Qed.

Lemma own_pid p r : fst r <> 1 -> own (Some (R_pid p)) r = 0.
Proof. intros Hr. unfold own. case_decide as E; [|done]. by injection E as <-. Qed.

Lemma doomed_empty (w : world) t s d c k st y :
  lives w -> w_tasks w !! t = Some (P_teardown st s d c k) -> w_sess w !! s = Some y -> se_mm y = None /\ se_iso y = 0 /\ se_ring y = None.
Proof.
  intros Hl Ht Hy. pose proof (lv_sess _ Hl s) as Hs. unfold sess_ok in Hs. rewrite Hy in Hs. pose proof (tk_has kills w t _ s Ht eq_refl).
  destruct Hs as (_ & _ & _ & _ & _ & [(Hk & _)|(_ & _ & Hm & Hi & Hr)]); [lia | done].
Qed.

Lemma creating_empty (w : world) t c s y : lives w -> w_tasks w !! t = Some (P_create c s) -> w_sess w !! s = Some y -> se_iso y = 0.
Proof.
  intros Hl Ht Hy. pose proof (lv_sess _ Hl s) as Hs. unfold sess_ok in Hs. rewrite Hy in Hs. pose proof (tk_has creates w t _ s Ht eq_refl).
  by apply Hs.
Qed.

Lemma no_handle (w : world) t p c x : lives w -> w_tasks w !! t = Some p -> nohandle p = Some c -> w_ctx w !! c = Some x -> fc_handle x = 0.
Proof.
  intros Hl Ht Hp Hx. pose proof (lv_ctx _ Hl c) as Hc. unfold ctx_ok in Hc. rewrite Hx in Hc. pose proof (tk_has nohandle w t _ c Ht Hp).
  by apply Hc.
Qed.

Lemma dropped_mm (w : world) t c k x s y :
  lives w -> w_tasks w !! t = Some (P_drop c k) -> w_ctx w !! c = Some x -> fc_session x = Some s -> w_sess w !! s = Some y -> se_mm y <> None.
Proof.
  intros Hl Ht Hx Hs Hy. destruct (ctx_held w t _ c Hl Ht (or_intror (or_intror eq_refl)) ltac:(done)) as (x' & s' & Hx' & Hh & Hs').
  simplify_eq. pose proof (joined_has w c x s Hx ltac:(unfold sess_ref; by rewrite Hh)).
  pose proof (lv_sess _ Hl s) as Hk. unfold sess_ok in Hk. rewrite Hy in Hk. destruct Hk as (_ & _ & _ & _ & _ & [(_ & _ & Hm)|(_ & Hj & _)]); [done | lia].
Qed.

Lemma drop_res_tasks f o (w : world) : w_tasks (drop_res f o w) = w_tasks w.
Proof. by destruct o. Qed.

Lemma spare_on_host r h (w : world) : spare r (on_host h w) = spare r w.
Proof. done. Qed.
Lemma spare_on_next r n (w : world) : spare r (on_next n w) = spare r w.
Proof. done. Qed.
Lemma spare_on_idr r m (w : world) : spare r (on_idr m w) = spare r w.
Proof. done. Qed.
Lemma spare_on_files r m (w : world) : spare r (on_files m w) = spare r w.
Proof. done. Qed.
Lemma spare_on_gems r m (w : world) : spare r (on_gems m w) = spare r w.
Proof. done. Qed.
Lemma spare_set_gem r g y (w : world) : spare r (set_gem g y w) = spare r w.
Proof. done. Qed.
Lemma spare_on_pumps r m (w : world) : spare r (on_pumps m w) = spare r w.
Proof. done. Qed.
Lemma spare_register r c (w : world) : spare r (nvkvm_evt_ctx_register c w) = spare r w.
Proof. done. Qed.
Lemma spare_unregister r c (w : world) : spare r (nvkvm_evt_ctx_unregister c w) = spare r w.
Proof. done. Qed.

End owns.

Create Rewrite HintDb spare.
#[export] Hint Rewrite @spare_take @spare_drop @spare_adv @spare_fin @spare_set_ctx @spare_del_ctx @spare_set_sess @spare_del_sess @spare_after_put
  @spare_on_host @spare_on_next @spare_on_idr @spare_on_files @spare_on_gems @spare_set_gem @spare_on_pumps @spare_register @spare_unregister : spare.

(** Computing what a step leaves spare. *)
Ltac settle :=
  autorewrite with spare; cbn; rewrite ?drop_res_tasks, ?lookup_insert_eq; repeat match goal with E : _ !! _ = _ |- _ => rewrite E end; cbn;
  unfold sess_res, ctx_res, nonzero; cbn;
  repeat match goal with E : _ = 0 |- _ => rewrite !E | E : _ = None |- _ => rewrite !E end; cbn; rewrite ?own_none; try lia.

Section balance.
Context {H : Type}.

Abbreviation world := (fworld H).

Definition balanced (r : Z * Z) (w w' : world) : Prop := spare r w <= spare r w' /\ (fst r <> 1 -> spare r w' = spare r w).

Lemma balanced_eq r (w w' : world) : spare r w' = spare r w -> balanced r w w'.
Proof. intros E. split; [lia | done]. Qed.

Lemma owns_step r (w w' : world) : lives w -> ftrans w w' -> balanced r w w'.
Proof.
  intros Hl Hs. destruct (lv_fresh _ Hl (w_next w) ltac:(lia)) as (Hfc & Hfs & Hfg & Hff).
  destruct Hs.
  all: try (apply balanced_eq; settle; fail).
  - apply balanced_eq. destruct p; try done; settle.
  - split; [settle; pose proof (own_nonneg (Some (R_pid tgid)) r); lia |]. intros Hr. settle. pose proof (own_pid tgid r Hr). lia.
  - apply balanced_eq. pose proof (creating_empty w t c s y Hl ltac:(done) ltac:(done)). destruct (Z.eqb_spec iso 0) as [->|]; settle.
    rewrite (proj2 (Z.eqb_neq iso 0)) by done. lia.
  - apply balanced_eq. pose proof (no_handle w t _ c x Hl ltac:(done) eq_refl ltac:(done)). destruct (Z.eqb_spec n 0) as [->|]; settle.
    rewrite (proj2 (Z.eqb_neq n 0)) by done. lia.
  - apply balanced_eq. destruct (Z.eqb_spec (fc_handle x) 0); settle. rewrite (proj2 (Z.eqb_neq (fc_handle x) 0)) by done. lia.
  - apply balanced_eq. pose proof (dropped_mm w t c k x s y Hl ltac:(done) ltac:(done) ltac:(done) ltac:(done)). destruct (se_mm y) eqn:Hm; [settle; rewrite Hm; cbn; lia | done].
  - apply balanced_eq. destruct (Z.eqb_spec (dm_iso d) 0); settle. rewrite (proj2 (Z.eqb_neq (dm_iso d) 0)) by done. lia.
  - apply balanced_eq. destruct (w_sess w !! s) as [y|] eqn:Hy; [|settle]. destruct (doomed_empty w t s d c k _ y Hl ltac:(done) Hy) as (? & ? & ?). settle.
  - apply balanced_eq. pose proof (no_handle w t _ c x Hl ltac:(done) eq_refl ltac:(done)). destruct k; settle.
Qed.

End balance.

(** ** Winding down *)

(** The steps a thread has at most before it, an object or an open file counting as the thread that will
    free or close it. *)
Definition rank (p : fpc) : Z :=
  match p with
  | P_alloc _ _ _ => 22 | P_session _ _ _ => 21 | P_lock _ => 20 | P_create _ _ => 19 | P_ring _ _ => 18 | P_handle _ => 17
  | P_uvm _ => 16 | P_put _ _ => 13
  | P_destroy st _ _ => match st with D_unreg => 12 | D_close_on => 11 | D_close => 10 | D_pages => 9 end
  | P_drop _ _ => 8
  | P_teardown st _ _ _ _ => match st with K_pump => 7 | K_unmap => 6 | K_kill => 5 | K_mm => 4 | K_free => 3 end
  | P_ctx _ _ => 2 | P_gem_free _ => 1 | P_gem_close _ => 14
  | P_object _ _ => 18 | P_proxy _ _ _ => 17 | P_broker _ _ => 3 | P_export_put _ _ _ => 2 | P_export_use _ _ => 1 | P_arm _ _ => 1
  end.
Definition gem_rank (y : gem_object) : Z := if gm_dead y then 0 else 15.

(** Finishing what was begun, closing files, freeing objects. *)
Definition winds (o : fop) : bool := match o with F_step _ _ | F_close _ _ | F_gem_free _ _ => true | _ => false end.

Section winding.
Context {H : Type} `{file_host H} (win : GuestMmap.mctx) (ctl_major uvm_major : Z).

Abbreviation world := (fworld H).

Definition winding_work (w : world) : Z := msum rank (w_tasks w) + msum (fun _ => 14) (w_files w) + msum gem_rank (w_gems w).

Lemma work_adv t p (w : world) : winding_work (adv t p w) = winding_work w + rank p - from_option rank 0 (w_tasks w !! t).
Proof. unfold winding_work. cbn. rewrite msum_set. lia. Qed.
Lemma work_fin t (w : world) : winding_work (fin t w) = winding_work w - from_option rank 0 (w_tasks w !! t).
Proof. unfold winding_work. cbn. rewrite msum_del. lia. Qed.
Lemma work_files f c (w : world) : winding_work (on_files (<[f := c]> (w_files w)) w) <= winding_work w + 14.
Proof. unfold winding_work. cbn. rewrite msum_set. destruct (w_files w !! f); cbn; lia. Qed.
Lemma work_closed f (w : world) : winding_work (on_files (delete f (w_files w)) w) = winding_work w - from_option (fun _ => 14) 0 (w_files w !! f).
Proof. unfold winding_work. cbn. rewrite msum_del. lia. Qed.
Lemma work_set_gem g y (w : world) : winding_work (set_gem g y w) = winding_work w + gem_rank y - from_option gem_rank 0 (w_gems w !! g).
Proof. unfold winding_work. cbn. rewrite msum_set. lia. Qed.
Lemma work_new_gem g y (w : world) : winding_work (set_gem g y w) <= winding_work w + gem_rank y.
Proof. rewrite work_set_gem. destruct (w_gems w !! g) as [z|]; cbn; [|lia]. unfold gem_rank at 2. case_match; lia. Qed.
Lemma work_del_gem g (w : world) : winding_work (on_gems (delete g (w_gems w)) w) = winding_work w - from_option gem_rank 0 (w_gems w !! g).
Proof. unfold winding_work. cbn. rewrite msum_del. lia. Qed.

(** What only the other fields differ in. *)
Definition same_work (w w' : world) : Prop := w_tasks w' = w_tasks w /\ w_files w' = w_files w /\ w_gems w' = w_gems w.

Lemma same_work_eq w w' : same_work w w' -> winding_work w' = winding_work w.
Proof. intros (E1 & E2 & E3). unfold winding_work. by rewrite E1, E2, E3. Qed.

Lemma adv_less t p q (w w' : world) : same_work w w' -> w_tasks w !! t = Some q -> rank p < rank q -> winding_work (adv t p w') < winding_work w.
Proof. intros Hs Ht Hr. pose proof (same_work_eq _ _ Hs). destruct Hs as (E & _). rewrite work_adv, E, Ht. cbn. lia. Qed.

Lemma fin_less t q (w w' : world) : same_work w w' -> w_tasks w !! t = Some q -> winding_work (fin t w') < winding_work w.
Proof.
  intros Hs Ht. pose proof (same_work_eq _ _ Hs). destruct Hs as (E & _). rewrite work_fin, E, Ht. cbn.
  assert (0 < rank q); [|lia]. destruct q; cbn; repeat case_match; lia.
Qed.

Lemma after_put_less t g p (w w' : world) : same_work w w' -> w_tasks w !! t = Some p -> 2 <= rank p -> winding_work (after_put t g w') < winding_work w.
Proof. intros Hs Ht Hp. destruct g; [|by eapply fin_less]. eapply adv_less; [done | done |]. cbn. lia. Qed.

Lemma install_less t c x (w : world) :
  w_tasks w !! t = Some (P_uvm c) -> winding_work (fin t (on_next (S (w_next w)) (on_files (<[w_next w := c]> (w_files w)) (set_ctx c x w)))) < winding_work w.
Proof.
  intros Ht. rewrite work_fin. cbn. rewrite Ht. pose proof (work_files (w_next w) c (set_ctx c x w)) as Hf. cbn in *.
  unfold winding_work in *. cbn in *. lia.
Qed.

Lemma ring_same a s x (w : world) : same_work w (nvkvm_session_setup_ring win a s x w).
Proof. unfold nvkvm_session_setup_ring. by repeat case_match. Qed.

Lemma get_or_create_same a mm tgid (w w' : world) r : nvkvm_session_get_or_create a mm tgid w = Some (r, w') -> same_work w w'.
Proof. unfold nvkvm_session_get_or_create. intros E. by repeat case_match; simplify_eq. Qed.

Lemma task_less t a (w w' : world) : task_step win t a w = Go w' -> winding_work w' < winding_work w.
Proof.
  unfold task_step. destruct (w_tasks w !! t) as [p|] eqn:Ht; [|done]. destruct p.
  - unfold open_alloc. intros Hs. follow; [by eapply adv_less | by eapply fin_less].
  - unfold open_session. intros Hs. follow. destruct (nvkvm_session_get_or_create a mm tgid w) as [[[s|e] w1]|] eqn:E; [| |done];
      apply get_or_create_same in E; follow; by eapply adv_less.
  - unfold ensure_lock. intros Hs. follow; by eapply adv_less.
  - unfold ensure_create. intros Hs. follow; eapply adv_less; try done. by repeat case_match.
  - unfold ensure_ring. intros Hs. follow. pose proof (ring_same a s g w) as Hr. unfold unlock in Hs. unfold at_sess in Hs.
    destruct (w_sess (nvkvm_session_setup_ring win a s g w) !! s); [|done]. cbn [go_on] in Hs. follow. by eapply adv_less.
  - unfold open_handle. intros Hs. follow; eapply adv_less; try done. by repeat case_match.
  - unfold open_install. intros Hs. follow; [by apply install_less | by eapply adv_less |].
    pose proof (install_less t c f w Ht) as Hi. by rewrite set_ctx_id in Hi.
  - unfold nvkvm_fd_ctx_put. intros Hs. follow; [by eapply adv_less |]. by eapply after_put_less.
  - unfold nvkvm_fd_ctx_destroy. intros Hs. follow. destruct st; follow; eapply adv_less; try done; by repeat case_match.
  - unfold drop_session. intros Hs. follow. unfold session_put_locked in *. repeat case_match; simplify_eq; follow; by eapply adv_less.
  - unfold session_teardown. intros Hs. destruct st; follow; eapply adv_less; try done.
    + by destruct (dm_ring d).
    + by repeat case_match.
    + by destruct (dm_mm d), (dm_pid d).
  - unfold free_ctx. intros Hs. follow. destruct k as [|after]; [by eapply fin_less |]. by eapply after_put_less.
  - unfold gem_free_close. intros Hs. follow. rewrite work_adv, work_set_gem. cbn. rewrite Ht, Heqo. unfold gem_rank, winding_work. cbn. lia.
  - unfold gem_free_memory. intros Hs. follow. rewrite work_fin, work_del_gem. cbn. rewrite Ht, Heqo. unfold gem_rank. cbn. destruct (gm_dead g0); lia.
  - unfold forward_object. intros Hs. follow; [by eapply fin_less | by eapply adv_less].
  - unfold nvkvm_gem_proxy_create. intros Hs. follow; [by eapply fin_less | |];
      (rewrite ?work_fin, ?work_adv; cbn; rewrite Ht; cbn; match goal with |- context [set_gem ?g ?y ?v] => pose proof (work_new_gem g y v) as Hg end;
       unfold winding_work, gem_rank in *; cbn in *; lia).
  - unfold resolve_broker. intros Hs. destruct (w_files w !! f) eqn:Hf; [|done]. follow; [by eapply fin_less | |by eapply fin_less].
    rewrite work_adv, work_set_gem. cbn. rewrite Ht, Heqo. unfold gem_rank, winding_work. cbn. lia.
  - intros [= <-]. by eapply adv_less.
  - unfold forward_on. intros Hs. follow. by eapply fin_less.
  - unfold poll_arm_call. intros Hs. follow. by eapply fin_less.
Qed.

Lemma winds_less o (w w' : world) : winds o = true -> fstep win ctl_major uvm_major o w = Go w' -> winding_work w' < winding_work w.
Proof.
  destruct o; try done; intros _; cbn [fstep].
  - apply task_less.
  - intros Hs. follow. rewrite work_adv, work_closed. cbn. rewrite Heqo, Heqo0. cbn. lia.
  - intros Hs. unfold idle in Hs. destruct (w_tasks w !! t) eqn:Ht; [done |]. destruct (w_gems w !! g) as [y|] eqn:Hg; [|done].
    destruct (gm_dead y) eqn:Hd; cbn [orb] in Hs; [done |]. follow.
    rewrite work_adv, work_set_gem. cbn. rewrite Ht, Hg. unfold gem_rank. cbn. rewrite Hd. lia.
Qed.

Lemma winding_nonneg (w : world) : 0 <= winding_work w.
Proof.
  unfold winding_work.
  assert (0 <= msum rank (w_tasks w)) by (apply msum_nonneg; intros []; cbn; repeat case_match; lia).
  assert (0 <= msum (fun _ => 14) (w_files w)) by (by apply msum_nonneg).
  assert (0 <= msum gem_rank (w_gems w)) by (apply msum_nonneg; intros []; unfold gem_rank; case_match; lia). lia.
Qed.

Lemma winds_run l (w w' : world) :
  forallb winds l = true -> frun win ctl_major uvm_major l w = Go w' -> Z.of_nat (length l) + winding_work w' <= winding_work w.
Proof.
  revert w. induction l as [|o l IH]; intros w; cbn; [intros _ [= <-]; lia |]. intros [Ho Hl]%andb_true_iff Hs.
  destruct (fstep win ctl_major uvm_major o w) as [w1| |] eqn:E; [|done|done]. apply winds_less in E; [|done]. specialize (IH _ Hl Hs). lia.
Qed.

(** A thread waits for a lock only. *)
Lemma waits t a (w : world) p :
  w_tasks w !! t = Some p -> task_step win t a w = Stuck ->
  exists c x s y, p = P_lock c /\ w_ctx w !! c = Some x /\ fc_session x = Some s /\ w_sess w !! s = Some y /\ se_lock y = true.
Proof.
  intros Ht. unfold task_step. rewrite Ht. destruct p; cbn.
  3: { unfold ensure_lock, at_ctx, at_session, at_sess. intros Hs. repeat case_match; try done. naive_solver. }
  all: unfold open_alloc, open_session, ensure_create, ensure_ring, unlock, go_on, open_handle, open_install, nvkvm_fd_ctx_put, nvkvm_fd_ctx_destroy,
    drop_session, session_teardown, free_ctx, gem_free_close, gem_free_memory, forward_object, nvkvm_gem_proxy_create, resolve_broker, forward_on,
    poll_arm_call, at_ctx, at_session, at_sess, at_gem; intros Hs; by repeat case_match.
Qed.

Lemma some_runs a (w : world) : lives w -> w_tasks w <> ∅ -> exists t w', task_step win t a w = Go w'.
Proof.
  intros Hl (t & p & Ht)%map_choose. destruct (task_step win t a w) as [w'| |] eqn:E; [by eauto | | by destruct (task_safe win t a w Hl)].
  destruct (waits t a w p Ht E) as (c & x & s & y & _ & _ & _ & Hy & Hk). pose proof (lv_sess _ Hl s) as Hs. unfold sess_ok in Hs.
  rewrite Hy, Hk in Hs. destruct Hs as (_ & Hn & _). destruct (msum_pos (fun p => hit (locks p) s)) with (m := w_tasks w) as (t' & p' & Ht' & Hp').
  { intros. apply hit_nonneg. }
  { unfold tk in Hn. lia. }
  apply hit_one in Hp'. exists t'. destruct (task_step win t' a w) as [w'| |] eqn:E'; [by eauto | | by destruct (task_safe win t' a w Hl)].
  by destruct (waits t' a w p' Ht' E') as (? & ? & ? & ? & -> & _).
Qed.

Lemma alive_gem (w : world) g y : lives w -> w_tasks w = ∅ -> w_gems w !! g = Some y -> gm_dead y = false.
Proof.
  intros Hl Ht Hg. pose proof (lv_gem _ Hl g) as Hk. unfold gem_ok, tk in Hk. rewrite Hg, Ht, msum_empty in Hk. destruct (gm_dead y); [lia | done].
Qed.

(** Nothing left to do. *)
Lemma wound_down (w : world) :
  lives w -> (forall o w', winds o = true -> fstep win ctl_major uvm_major o w <> Go w') -> w_tasks w = ∅ /\ w_files w = ∅ /\ w_gems w = ∅.
Proof.
  intros Hl Hq. destruct (decide (w_tasks w = ∅)) as [Ht|Ht]; [|destruct (some_runs yes w Hl Ht) as (t & w' & E); by destruct (Hq (F_step t yes) w')].
  assert (forall t, w_tasks w !! t = None) as Hn by (intros; by rewrite Ht, lookup_empty).
  split_and!; [done | |]; apply map_empty.
  - intros f. apply eq_None_not_Some. intros [c Hf]. eapply (Hq (F_close 0 f)); [done |]. cbn. unfold idle, at_file. rewrite Hn, Hf, bool_decide_true; [done |].
    rewrite Ht. apply map_Forall_empty.
  - intros g. apply eq_None_not_Some. intros [y Hg]. eapply (Hq (F_gem_free 0 g)); [done |]. cbn. unfold idle.
    rewrite Hn, Hg, (alive_gem w g y), bool_decide_true; [done | | done ..]. rewrite Ht. apply map_Forall_empty.
Qed.

Lemma at_rest (w : world) o w' :
  w_tasks w = ∅ -> w_files w = ∅ -> w_gems w = ∅ -> winds o = true -> fstep win ctl_major uvm_major o w <> Go w'.
Proof.
  intros Ht Hf Hg Ho. destruct o; try done; cbn [fstep]; unfold task_step, idle, at_file; by rewrite ?Ht, ?Hf, ?Hg, ?lookup_empty.
Qed.

Definition nothing_left (w : world) : Prop :=
  w_ctx w = ∅ /\ w_sess w = ∅ /\ w_idr w = ∅ /\ w_evt w = [] /\ w_pumps w = ∅ /\ forall r, fst r <> 1 -> held_res r w = 0.

Lemma released (w : world) :
  lives w -> (forall r, fst r <> 1 -> spare r w = 0) -> w_tasks w = ∅ -> w_files w = ∅ -> w_gems w = ∅ -> nothing_left w.
Proof.
  intros Hl Hr Ht Hf Hg.
  assert (w_ctx w = ∅) as Hc.
  { apply map_empty. intros c. pose proof (lv_ctx _ Hl c) as Ho. unfold ctx_ok, total, filed, gemmed, tk in Ho. rewrite Ht, Hf, Hg in Ho.
    rewrite !msum_empty in Ho. destruct (w_ctx w !! c); [lia | done]. }
  assert (w_sess w = ∅) as Hs.
  { apply map_empty. intros s. pose proof (lv_sess _ Hl s) as Ho. unfold sess_ok, joined, tk in Ho. rewrite Ht, Hc in Ho.
    rewrite !msum_empty in Ho. destruct (w_sess w !! s); [lia | done]. }
  unfold nothing_left. split_and!; [done | done | | | |].
  - apply map_empty. intros i. apply eq_None_not_Some. intros [s (y & Hy & _)%(lv_idr _ Hl)]. by rewrite Hs, lookup_empty in Hy.
  - destruct (w_evt w) as [|c l] eqn:E; [done |]. pose proof (lv_ctx _ Hl c) as Ho. unfold ctx_ok in Ho. rewrite Hc, lookup_empty, E in Ho.
    destruct Ho as (_ & _ & []). left.
  - apply set_eq. intros s. pose proof (lv_sess _ Hl s) as Ho. unfold sess_ok in Ho. rewrite Hs, lookup_empty in Ho. set_solver.
  - intros r H1. specialize (Hr r H1). unfold spare in Hr. rewrite Ht, Hc, Hs, !msum_empty in Hr. lia.
Qed.

Lemma spare_reach h w r : freach win ctl_major uvm_major h w -> fst r <> 1 -> spare r w = 0.
Proof.
  intros Hw Hr. induction Hw as [|o w w' Hw IH Hown Hs]; [done |]. rewrite <- IH. apply fstep_trans in Hs; [|done].
  apply lives_reach in Hw. clear IH Hown. induction Hs as [|w w1 w2 H1 _ IH]; [done |].
  rewrite IH by (by eapply lives_step). by apply (owns_step r w w1).
Qed.

Lemma winds_exports l : forallb winds l = true -> forallb no_export l = true.
Proof. induction l as [|[] l IH]; cbn; try done; auto. Qed.

(** C20. [shutdown_releases]: take any state reached by opens, closes, ioctls, imports and the other
    calls in any interleaving, except that no ioctl on a buffer object was forwarded on the
    context of another file than the one it was made on (the condition of
    [lifetimes_sound]; without it a context can be freed while a thread still uses it).
    From there threads finishing their calls, files being closed and buffer objects freed
    come to an end within [winding_work w] steps, in whatever order and whatever the
    host answers; and when none of these is possible any more, no thread waits and no
    file or object is left: every context and session has been freed, no id is taken,
    no event list entry or pump remains, and every address space, ring mapping, isolate
    and host handle has been given back (references to process ids are not part of
    the claim). *)
Theorem shutdown_releases h w l w' :
  freach win ctl_major uvm_major h w -> forallb winds l = true -> frun win ctl_major uvm_major l w = Go w' ->
  Z.of_nat (length l) <= winding_work w /\
  ((forall o w2, winds o = true -> fstep win ctl_major uvm_major o w' <> Go w2) ->
   w_tasks w' = ∅ /\ w_files w' = ∅ /\ w_gems w' = ∅ /\ nothing_left w').
Proof.
  intros Hw Hl Hs. split; [pose proof (winds_run l w w' Hl Hs); pose proof (winding_nonneg w'); lia |]. intros Hq.
  apply run_reach with (h := h) in Hs; [|done|by apply winds_exports]. pose proof (lives_reach _ _ _ _ _ Hs) as Hv.
  destruct (wound_down w' Hv Hq) as (Ht & Hf & Hg). split_and!; [done ..|]. apply released; try done. intros. by eapply spare_reach.
Qed.

End winding.

(** Closing all of [ex_opens] again. *)
Definition ex_closes : list fop :=
  [F_close 0 2] ++ steps 1 0 ++ [F_close 1 4] ++ steps 7 1 ++ [F_gem_free 0 8] ++ steps 14 0 ++ [F_close 2 7] ++ steps 12 2.

Definition ex_end : fworld Z := ex_run (ex_opens ++ ex_closes).

Lemma shutdown_releases_witness :
  frun ex_window 195 511 ex_closes (ex_run ex_opens) = Go ex_end /\ Z.of_nat (length ex_closes) <= winding_work (ex_run ex_opens) /\
  held_res (R_mm 100) (ex_run ex_opens) = 1 /\ nothing_left ex_end.
Proof.
  destruct (shutdown_releases ex_window 195 511 0 (ex_run ex_opens) ex_closes ex_end) as [Hn Hq]; [apply ex_files_reach; by vm_compute | by vm_compute | by vm_compute |].
  split_and!; [by vm_compute | done | by vm_compute |]. apply Hq. intros o w2. apply at_rest; by vm_compute.
Defined.

(** Two render files of one process; the object of the first is resolved in the second, and
    then closed and freed before the call is made. *)
Definition ex_resolve : list fop :=
  [F_drm_open 0 100 10] ++ steps 7 0 ++ [F_drm_open 1 100 10] ++ steps 5 1 ++ [F_object 0 2] ++ steps 2 0 ++
  [F_export 1 4 5] ++ steps 1 1 ++ [F_close 0 2] ++ steps 1 0 ++ [F_gem_free 2 5] ++ steps 9 2.

(** [resolved_context_freed]: an ioctl on an object of another file of the process forwards on the
    context of that file after giving up the reference to the object that kept it;
    when the file is closed and the object freed meanwhile, the call uses freed
    memory. *)
Example resolved_context_freed :
  (exists w f c, frun ex_window 195 511 ex_resolve (files_init 0) = Go w /\ w_tasks w !! 1%nat = Some (P_export_use f c) /\ w_ctx w !! c = None) /\
  frun ex_window 195 511 (ex_resolve ++ steps 1 1) (files_init 0) = Oops.
Proof.
  split; [|by vm_compute]. destruct (frun ex_window 195 511 ex_resolve (files_init 0)) as [w| |] eqn:E; [|by vm_compute in E ..].
  exists w, 4%nat, 0%nat. split; [done |]. vm_compute in E. injection E as <-. by vm_compute.
Qed.

(** An open whose session gets no id. *)
Definition ex_no_id : list fop := [F_open 0 195 255 100 10] ++ steps 1 0 ++ [F_step 0 (Ans true false true 0)] ++ steps 1 0.

(** [pid_reference_lost]: when no id can be allocated the session is freed with its reference to the
    address space dropped and its reference to the pid kept: nothing is left that would drop it. *)
Theorem pid_reference_lost :
  let w := ex_run ex_no_id in
  w_tasks w = ∅ /\ w_ctx w = ∅ /\ w_sess w = ∅ /\ held_res (R_mm 100) w = 0 /\ held_res (R_pid 10) w = 1.
Proof. cbv zeta. by split_and!; vm_compute. Qed.

End FileOwns.
