(* ===== verification/FileIsolates.v ===== *)
(** * Every process has an isolate of its own

    A session of the guest asks the host by its id, and the host keeps the isolates it
    made for every id.  As long as an id is not given out again before the isolate of
    the session that had it is killed, the host has exactly one isolate for a session, the
    one the session knows, and two sessions never have the same.  [isolate_host] is
    what this needs of the host; the calls of [GuestCalls] provide it.  Without the
    condition it fails. *)

From S2P Require Import Prelude Extents HandleTable GpaAlloc UvmVa Ring IsoMmap Sessions SessionRuns Requests HostFiles StubWire VirtioTx GuestCalls GuestMmap GuestFiles FileLives FileRuns FileOwns.
Local Open Scope Z_scope.
Local Open Scope nv_scope.

(** The calls that neither make nor kill an isolate. *)
Inductive quiet_call {H} `{file_host H} (h : H) : H -> Prop :=
| pc_none : quiet_call h h
| pc_ring n sid : quiet_call h (fst (fh_ring n sid h))
| pc_open n dev sid : quiet_call h (fst (fh_open n dev sid h))
| pc_close_on n hd iso : quiet_call h (fh_close_on n hd iso h)
| pc_close n hd : quiet_call h (fh_close n hd h)
| pc_arm n iso hd : quiet_call h (fst (fh_arm n iso hd h))
| pc_forward n iso hd : quiet_call h (fst (fh_forward n iso hd h))
| pc_import n oi oh os ii ih : quiet_call h (fst (fh_import n oi oh os ii ih h)).

Definition iso_list (iso : Z) : list Z := if iso =? 0 then [] else [iso].

(** [hosted i h]: the isolates the host has for session id [i]. *)
Class isolate_host (H : Type) `{file_host H} := IsolateHost {
  hosted : Z -> H -> list Z;
  host_ok : H -> Prop;
  create_hosts n sid h h' r iso :
    host_ok h -> hosted sid h = [] -> fh_create n sid h = (h', (r, iso)) ->
    host_ok h' /\ (forall i, i <> sid -> hosted i h' = hosted i h) /\ hosted sid h' = if r =? 0 then iso_list iso else [];
  kill_hosts n iso sid h :
    host_ok h -> hosted sid h = [iso] ->
    host_ok (fh_kill n iso h) /\ forall i, hosted i (fh_kill n iso h) = filter (fun j => j <> iso) (hosted i h);
  plain_hosts h h' : quiet_call h h' -> host_ok h -> host_ok h' /\ forall i, hosted i h' = hosted i h;
  hosted_once h iso i j : host_ok h -> iso ∈ hosted i h -> iso ∈ hosted j h -> i = j
}.

Module FileIsolates.
Import GuestFiles FileLives FileRuns FileOwns.

(** ** Claims *)

(** The session a thread has still to kill the isolate of. *)
Definition pre (p : fpc) : option (nat * Z) :=
  match p with P_teardown (K_pump | K_unmap | K_kill) s d _ _ => Some (s, dm_iso d) | _ => None end.

Definition face (y : gsession) : Z * bool * Z := (se_id y, bool_decide (se_mm y <> None), se_iso y).

Section isolates.
Context {H : Type} `{isolate_host H} (win : GuestMmap.mctx) (ctl_major uvm_major : Z).

Abbreviation world := (fworld H).

(** Session [s] has isolate [iso] (0: none yet) under the id [i]. *)
Definition claims (w : world) (s : nat) (i iso : Z) : Prop :=
  exists live j, face <$> (w_sess w !! s) = Some (i, live, j) /\
    (live = true /\ iso = j \/ exists t, (w_tasks w !! t) ≫= pre = Some (s, iso)).

Record isolated (w : world) : Prop := {
  is_ok : host_ok (w_host w);
  is_claim : forall s i iso, claims w s i iso -> hosted i (w_host w) = iso_list iso;
  is_none : forall i, (forall s iso, ~ claims w s i iso) -> hosted i (w_host w) = [];
  is_one : forall s s' i iso iso', claims w s i iso -> claims w s' i iso' -> s = s' /\ iso = iso'
}.

Definition same_view (w w' : world) : Prop :=
  (forall s, face <$> (w_sess w' !! s) = face <$> (w_sess w !! s)) /\ (forall t, (w_tasks w' !! t) ≫= pre = (w_tasks w !! t) ≫= pre).

Lemma claims_view w w' s i iso : same_view w w' -> claims w' s i iso <-> claims w s i iso.
Proof. intros [Hs Ht]. unfold claims. rewrite Hs. by setoid_rewrite Ht. Qed.

(** A step that changes no claims. *)
Lemma isolated_same w w' :
  isolated w -> (forall s i iso, claims w' s i iso <-> claims w s i iso) -> quiet_call (w_host w) (w_host w') -> isolated w'.
Proof.
  intros [Ho Hc Hn Hu] Hv Hp. destruct (plain_hosts _ _ Hp Ho) as [Ho' Hh]. split; [done | | |].
  - intros s i iso Hk. rewrite Hh. apply (Hc s). by apply Hv.
  - intros i Hk. rewrite Hh. apply Hn. intros s iso Hk'. by apply (Hk s iso), Hv.
  - intros s s' i iso iso' Hk%Hv Hk'%Hv. by eapply Hu.
Qed.

Lemma isolated_view w w' : isolated w -> same_view w w' -> quiet_call (w_host w) (w_host w') -> isolated w'.
Proof. intros Hi Hv. apply isolated_same; [done |]. intros. by apply claims_view. Qed.

(** A step that changes the claims of one session. *)
Lemma isolated_change w w' s (o : option (Z * Z)) :
  isolated w -> host_ok (w_host w') ->
  (forall s' i iso, claims w' s' i iso <-> if decide (s' = s) then o = Some (i, iso) else claims w s' i iso) ->
  (forall i iso, o = Some (i, iso) -> hosted i (w_host w') = iso_list iso /\ forall s' iso', s' <> s -> ~ claims w s' i iso') ->
  (forall s' i iso, s' <> s -> claims w s' i iso -> hosted i (w_host w') = iso_list iso) ->
  (forall i, (forall s' iso, s' <> s -> ~ claims w s' i iso) -> (forall iso, o <> Some (i, iso)) -> hosted i (w_host w') = []) ->
  isolated w'.
Proof.
  intros [_ _ _ Hu] Hok Hv Hnew Hold Hnone. split; [done | | |].
  - intros s' i iso Hk%Hv. case_decide; [by apply Hnew in Hk as [? _] | by eapply Hold].
  - intros i Hk. apply Hnone.
    + intros s' iso Hne Hc. apply (Hk s' iso), Hv. by rewrite decide_False.
    + intros iso Ho. apply (Hk s iso), Hv. by rewrite decide_True.
  - intros s1 s2 i iso iso' Hk1%Hv Hk2%Hv. destruct (decide (s1 = s)) as [->|N1], (decide (s2 = s)) as [->|N2].
    + split; [done | congruence].
    + by destruct (proj2 (Hnew _ _ Hk1) s2 iso' N2).
    + by destruct (proj2 (Hnew _ _ Hk2) s1 iso N1).
    + by eapply Hu.
Qed.

(** ** Threads that free a session *)

Lemma pre_kills p s iso : pre p = Some (s, iso) -> kills p = Some s.
Proof. destruct p; try done. cbn. intros E. destruct st; by simplify_eq. Qed.

Lemma live_no_pre (w : world) s y t iso :
  lives w -> w_sess w !! s = Some y -> se_mm y <> None -> (w_tasks w !! t) ≫= pre <> Some (s, iso).
Proof.
  intros Hl Hy Hm Hp. destruct (w_tasks w !! t) as [p|] eqn:Ht; [|done]. apply pre_kills in Hp. pose proof (tk_has kills w t p s Ht Hp).
  pose proof (lv_sess _ Hl s) as Hs. unfold sess_ok in Hs. rewrite Hy in Hs. destruct Hs as (_ & _ & _ & _ & _ & [(Hk & _)|(_ & _ & Hn & _)]); [lia | done].
Qed.

Lemma one_kill (w : world) s t t' p p' :
  lives w -> w_tasks w !! t = Some p -> kills p = Some s -> w_tasks w !! t' = Some p' -> kills p' = Some s -> t' = t.
Proof.
  intros Hl Ht Hp Ht' Hp'. destruct (decide (t' = t)) as [|Hne]; [done |]. exfalso.
  assert (2 <= tk kills w s).
  { unfold tk. rewrite (msum_split _ _ t p) by done. pose proof (msum_ge (fun p => hit (kills p) s) ltac:(intros; apply hit_nonneg) (delete t (w_tasks w)) t' p') as Hg.
    cbv beta in Hg. rewrite Hp', hit_eq in Hg. rewrite Hp, hit_eq. specialize (Hg ltac:(by rewrite lookup_delete_ne)). lia. }
  pose proof (lv_sess _ Hl s) as Hs. unfold sess_ok in Hs. destruct (w_sess w !! s); lia.
Qed.

(** ** Views *)

Lemma view_tasks (w w' : world) t p q :
  w_tasks w !! t = Some p -> pre q = pre p -> (forall s, face <$> (w_sess w' !! s) = face <$> (w_sess w !! s)) -> w_tasks w' = w_tasks w ->
  same_view w (adv t q w').
Proof.
  intros Ht Hq Hs E. split; [done |]. intros t'. cbn. rewrite E. destruct (decide (t' = t)) as [->|]; [by rewrite lookup_insert_eq, Ht | by rewrite lookup_insert_ne].
Qed.

Lemma view_fin (w w' : world) t p :
  w_tasks w !! t = Some p -> pre p = None -> (forall s, face <$> (w_sess w' !! s) = face <$> (w_sess w !! s)) -> w_tasks w' = w_tasks w ->
  same_view w (fin t w').
Proof.
  intros Ht Hq Hs E. split; [done |]. intros t'. cbn. rewrite E. destruct (decide (t' = t)) as [->|]; [by rewrite lookup_delete_eq, Ht | by rewrite lookup_delete_ne].
Qed.

Lemma view_new (w w' : world) t q :
  w_tasks w !! t = None -> pre q = None -> (forall s, face <$> (w_sess w' !! s) = face <$> (w_sess w !! s)) -> w_tasks w' = w_tasks w ->
  same_view w (adv t q w').
Proof.
  intros Ht Hq Hs E. split; [done |]. intros t'. cbn. rewrite E. destruct (decide (t' = t)) as [->|]; [by rewrite lookup_insert_eq, Ht | by rewrite lookup_insert_ne].
Qed.

Lemma view_set_sess (w : world) s y y' : w_sess w !! s = Some y -> face y' = face y -> forall s', face <$> (<[s := y']> (w_sess w) !! s') = face <$> (w_sess w !! s').
Proof. intros Hy Hf s'. destruct (decide (s' = s)) as [->|]; [by rewrite lookup_insert_eq, Hy; cbn; rewrite Hf | by rewrite lookup_insert_ne]. Qed.

(** ** The steps that matter *)

Lemma new_step (w w' : world) t c mm tgid x i :
  lives w -> isolated w -> w_tasks w !! t = Some (P_session c mm tgid) -> w_idr w !! i = None ->
  (forall t' s iso y, (w_tasks w !! t') ≫= pre = Some (s, iso) -> w_sess w !! s = Some y -> se_id y <> i) ->
  w_sess w' = <[w_next w := GSession i (Some mm) (Some tgid) 1 0 false None false]> (w_sess w) ->
  w_tasks w' = <[t := P_lock x]> (w_tasks w) -> w_host w' = w_host w -> isolated w'.
Proof.
  intros Hl Hi Ht Hid Hfree Es Et Eh. destruct (lv_fresh _ Hl (w_next w) ltac:(lia)) as (_ & Hn & _).
  assert (forall t', (w_tasks w' !! t') ≫= pre = (w_tasks w !! t') ≫= pre) as Hpre.
  { intros t'. rewrite Et. destruct (decide (t' = t)) as [->|]; [by rewrite lookup_insert_eq, Ht | by rewrite lookup_insert_ne]. }
  assert (forall s iso, ~ claims w s i iso) as Hno.
  { intros s iso (live & j & Hf & Hc). destruct (w_sess w !! s) as [y|] eqn:Hy; [|done]. cbn in Hf. injection Hf as Hii Hlive _.
    destruct Hc as [[-> _]|[t' Hp]]; [|by eapply Hfree]. apply bool_decide_eq_true in Hlive. pose proof (lv_listed _ Hl s y Hy Hlive). congruence. }
  eapply (isolated_change w w' (w_next w) (Some (i, 0))); [done | rewrite Eh; apply Hi | | | |]; rewrite ?Eh.
  - intros s' i' iso. unfold claims. setoid_rewrite Hpre. rewrite Es. case_decide as E.
    + subst s'. rewrite lookup_insert_eq. cbn. split.
      * intros (live & j & [= <- <- <-] & [[_ ->]|[t' Hp]]); [done |]. exfalso.
        destruct (w_tasks w !! t') as [p|] eqn:Ht'; [|done]. destruct (doomed_sess w t' p (w_next w) Hl Ht' (pre_kills _ _ _ Hp)). congruence.
      * intros [= <- <-]. exists true, 0. split; [done | by left].
    + by rewrite lookup_insert_ne by done.
  - intros i' iso [= <- <-]. split; [by apply (is_none _ Hi) | intros s' iso' _; apply Hno].
  - intros s' i' iso _. apply (is_claim _ Hi).
  - intros i' Hc _. apply (is_none _ Hi). intros s iso Hk. destruct (decide (s = w_next w)) as [->|]; [|by eapply Hc].
    destruct Hk as (? & ? & Hf & _). by rewrite Hn in Hf.
Qed.

(** A live session without an isolate. *)
Lemma create_step (w w' : world) t c s y n r iso h' lock :
  lives w -> isolated w -> w_tasks w !! t = Some (P_create c s) -> w_sess w !! s = Some y ->
  fh_create n (se_id y) (w_host w) = (h', (r, iso)) ->
  w_sess w' = <[s := sess_iso (if r =? 0 then iso else 0) lock y]> (w_sess w) ->
  (forall t', (w_tasks w' !! t') ≫= pre = (w_tasks w !! t') ≫= pre) -> w_host w' = h' -> isolated w'.
Proof.
  intros Hl Hi Ht Hy Hc Es Hpre <-. pose proof (creating_empty w t c s y Hl Ht Hy) as H0'. destruct (lv_local _ Hl _ _ Ht) as (x & Hx & Hr).
  pose proof (joined_has w c x s Hx Hr) as Hj. pose proof (lv_sess _ Hl s) as Hs. unfold sess_ok in Hs. rewrite Hy in Hs.
  destruct Hs as (_ & _ & _ & _ & _ & [(_ & _ & Hm)|(_ & Hj' & _)]); [|lia].
  assert (claims w s (se_id y) 0) as Hk.
  { exists true, 0. rewrite Hy. cbn. unfold face. rewrite bool_decide_true, H0' by done. split; [done | by left]. }
  assert (hosted (se_id y) (w_host w) = []) as He by apply (is_claim _ Hi _ _ _ Hk).
  destruct (create_hosts _ _ _ _ _ _ (is_ok _ Hi) He Hc) as (Hok & Hoth & Hown).
  assert (forall s' i' iso', s' <> s -> claims w s' i' iso' -> i' <> se_id y) as Hne.
  { intros s' i' iso' Hn Hk' ->. by destruct (is_one _ Hi _ _ _ _ _ Hk Hk') as [-> _]. }
  eapply (isolated_change w w' s (Some (se_id y, if r =? 0 then iso else 0))); [done | done | | | |].
  - intros s' i' iso'. unfold claims. setoid_rewrite Hpre. rewrite Es. case_decide as E.
    + subst s'. rewrite lookup_insert_eq. cbn. unfold face. cbn. rewrite bool_decide_true by done. split.
      * intros (live & j & [= <- <- <-] & [[_ ->]|[t' Hp]]); [done |]. by apply (live_no_pre w s y t' iso' Hl Hy Hm) in Hp.
      * intros [= <- <-]. exists true, (if r =? 0 then iso else 0). split; [done | by left].
    + by rewrite lookup_insert_ne by done.
  - intros i' iso' [= <- <-]. split; [rewrite Hown; by destruct (r =? 0) |]. intros s' iso' Hn Hk'. by apply (Hne _ _ _ Hn Hk').
  - intros s' i' iso' Hn Hk'. rewrite Hoth by (by eapply Hne). by apply (is_claim _ Hi s').
  - intros i' Hn Ho. assert (i' <> se_id y) by (intros ->; by eapply Ho). rewrite Hoth by done. apply (is_none _ Hi).
    intros s' iso' Hk'. destruct (decide (s' = s)) as [->|]; [|by eapply Hn]. destruct Hk' as (live & j & Hf & _). rewrite Hy in Hf. cbn in Hf. by injection Hf as <-.
Qed.

Lemma filter_out (iso : Z) (l : list Z) : iso ∉ l -> filter (fun j => j <> iso) l = l.
Proof. induction l as [|i l IH]; intros Hn; [done |]. rewrite filter_cons_True by set_solver. f_equal. apply IH. set_solver. Qed.

(** What is left on the host when the isolate of the id [i] is killed. *)
Lemma killed_hosts (w : world) i iso n :
  isolated w -> hosted i (w_host w) = iso_list iso ->
  let h' := if iso =? 0 then w_host w else fh_kill n iso (w_host w) in
  host_ok h' /\ hosted i h' = [] /\ forall i', i' <> i -> hosted i' h' = hosted i' (w_host w).
Proof.
  intros Hi Hh. unfold iso_list in Hh. cbv zeta. destruct (Z.eqb_spec iso 0); [split_and!; [apply Hi | done | done] |].
  destruct (kill_hosts n _ _ _ (is_ok _ Hi) Hh) as [Hok Hf]. split_and!; [done | |].
  - rewrite Hf, Hh, filter_cons_False by auto. done.
  - intros i' Hne. rewrite Hf. apply filter_out. intros Hin. apply Hne. apply (hosted_once _ _ _ _ (is_ok _ Hi) Hin). rewrite Hh. set_solver.
Qed.

Lemma kill_step (w w' : world) t s d c k n :
  lives w -> isolated w -> w_tasks w !! t = Some (P_teardown K_kill s d c k) ->
  w_sess w' = w_sess w -> w_tasks w' = <[t := P_teardown K_mm s d c k]> (w_tasks w) ->
  w_host w' = (if dm_iso d =? 0 then w_host w else fh_kill n (dm_iso d) (w_host w)) -> isolated w'.
Proof.
  intros Hl Hi Ht Es Et Eh. destruct (doomed_sess w t _ s Hl Ht eq_refl) as [y Hy].
  destruct (doomed_empty w t s d c k _ y Hl Ht Hy) as (Hm & _).
  assert (face y = (se_id y, false, se_iso y)) as Hface by (unfold face; by rewrite bool_decide_false by (intros Hn; by apply Hn)).
  assert (claims w s (se_id y) (dm_iso d)) as Hk.
  { exists false, (se_iso y). rewrite Hy. cbn. rewrite Hface. split; [done |]. right. exists t. by rewrite Ht. }
  destruct (killed_hosts w (se_id y) (dm_iso d) n Hi (is_claim _ Hi _ _ _ Hk)) as (Hok & Hgone & Hkeep). rewrite <- Eh in Hok, Hgone, Hkeep.
  assert (forall s' i' iso', s' <> s -> claims w s' i' iso' -> i' <> se_id y) as Hne.
  { intros s' i' iso' Hn Hk' ->. by destruct (is_one _ Hi _ _ _ _ _ Hk Hk') as [-> _]. }
  eapply (isolated_change w w' s None); [done | done | | done | |].
  - intros s' i' iso'. unfold claims. rewrite Es, Et. case_decide as E.
    + subst s'. rewrite Hy. cbn. rewrite Hface. split; [|done]. intros (live & j & [= <- <- <-] & [[? _]|[t' Hp]]); [done |]. exfalso.
      destruct (decide (t' = t)) as [->|Hn]; [by rewrite lookup_insert_eq in Hp |]. rewrite lookup_insert_ne in Hp by done.
      destruct (w_tasks w !! t') as [p|] eqn:Ht'; [|done]. apply Hn. eapply (one_kill w s t t'); [done | exact Ht | done | exact Ht' | by eapply pre_kills].
    + assert (forall t', (<[t := P_teardown K_mm s d c k]> (w_tasks w) !! t') ≫= pre = Some (s', iso') <-> (w_tasks w !! t') ≫= pre = Some (s', iso')) as Hpre.
      { intros t'. destruct (decide (t' = t)) as [->|]; [rewrite lookup_insert_eq, Ht | by rewrite lookup_insert_ne]. cbn. split; [done |]. intros [= -> _]. done. }
      by setoid_rewrite Hpre.
  - intros s' i' iso' Hn Hk'. rewrite Hkeep by (by eapply Hne). by apply (is_claim _ Hi s').
  - intros i' Hn _. destruct (decide (i' = se_id y)) as [->|]; [done |]. rewrite Hkeep by done. apply (is_none _ Hi).
    intros s' iso' Hk'. destruct (decide (s' = s)) as [->|]; [|by eapply Hn]. destruct Hk' as (live & j & Hf & _). rewrite Hy in Hf. cbn in Hf. by injection Hf as <-.
Qed.

(** The last reference to a session moves its isolate to the thread. *)
Lemma drop_step (w w' : world) t c k s y :
  isolated w -> w_tasks w !! t = Some (P_drop c k) -> w_sess w !! s = Some y -> se_mm y <> None ->
  w_sess w' = <[s := GSession (se_id y) None None 0 0 (se_lock y) None (se_pump y)]> (w_sess w) ->
  w_tasks w' = <[t := P_teardown K_pump s (Dying (se_iso y) (se_ring y) (se_mm y) (se_pid y)) c k]> (w_tasks w) ->
  w_host w' = w_host w -> isolated w'.
Proof.
  intros Hi Ht Hy Hm Es Et Eh. apply (isolated_same w); [done | | rewrite Eh; constructor]. intros s' i iso. unfold claims. rewrite Es, Et.
  assert (face y = (se_id y, true, se_iso y)) as Hface by (unfold face; by rewrite bool_decide_true).
  destruct (decide (s' = s)) as [->|Hn].
  - rewrite lookup_insert_eq, Hy. cbn. rewrite Hface. split.
    + intros (live & j & [= <- <- <-] & [[? _]|[t' Hp]]); [done |]. exists true, (se_iso y). split; [done |].
      destruct (decide (t' = t)) as [->|Hn]; [rewrite lookup_insert_eq in Hp; cbn in Hp; left; by simplify_eq |].
      right. exists t'. by rewrite lookup_insert_ne in Hp.
    + intros (live & j & [= <- <- <-] & [[_ ->]|[t' Hp]]); exists false, 0; (split; [done |]); right; [exists t; by rewrite lookup_insert_eq |].
      exists t'. rewrite lookup_insert_ne; [done |]. intros <-. by rewrite Ht in Hp.
  - rewrite lookup_insert_ne by done.
    assert (forall t', (<[t := P_teardown K_pump s (Dying (se_iso y) (se_ring y) (se_mm y) (se_pid y)) c k]> (w_tasks w) !! t') ≫= pre = Some (s', iso) <->
      (w_tasks w !! t') ≫= pre = Some (s', iso)) as Hpre.
    { intros t'. destruct (decide (t' = t)) as [->|]; [rewrite lookup_insert_eq, Ht | by rewrite lookup_insert_ne]. cbn. split; [|done]. intros [= -> _]. done. }
    by setoid_rewrite Hpre.
Qed.

Lemma free_step (w w' : world) t s d c k :
  lives w -> isolated w -> w_tasks w !! t = Some (P_teardown K_free s d c k) ->
  w_sess w' = delete s (w_sess w) -> w_tasks w' = <[t := P_ctx c k]> (w_tasks w) -> w_host w' = w_host w -> isolated w'.
Proof.
  intros Hl Hi Ht Es Et Eh. apply (isolated_same w); [done | | rewrite Eh; constructor]. intros s' i iso. unfold claims. rewrite Es, Et.
  assert (forall t', (<[t := P_ctx c k]> (w_tasks w) !! t') ≫= pre = (w_tasks w !! t') ≫= pre) as Hpre.
  { intros t'. destruct (decide (t' = t)) as [->|]; [by rewrite lookup_insert_eq, Ht | by rewrite lookup_insert_ne]. }
  setoid_rewrite Hpre. destruct (decide (s' = s)) as [->|Hn]; [|by rewrite lookup_delete_ne]. rewrite lookup_delete_eq. cbn.
  split; [by intros (? & ? & ? & _) |]. intros (live & j & Hf & Hc). exfalso. destruct (w_sess w !! s) as [y|] eqn:Hy; [|done]. cbn in Hf. injection Hf as _ Hlive _.
  destruct (doomed_empty w t s d c k _ y Hl Ht Hy) as (Hm & _). destruct Hc as [[-> _]|[t' Hp]]; [by apply bool_decide_eq_true in Hlive |].
  destruct (w_tasks w !! t') as [p|] eqn:Ht'; [|done]. destruct (decide (t' = t)) as [->|Hn]; [by rewrite Ht in Ht'; simplify_eq |].
  apply Hn. eapply (one_kill w s t t'); [done | exact Ht | done | exact Ht' | by eapply pre_kills].
Qed.

End isolates.

(** A call that leaves the isolates alone. *)
Ltac plain :=
  cbn; solve
    [ apply pc_none | apply pc_close_on | apply pc_close | apply pc_arm | apply pc_forward
    | match goal with
      | E : fh_ring ?n ?s ?h = (?h', _) |- quiet_call ?h ?h' => let P := fresh in pose proof (pc_ring h n s) as P; rewrite E in P; exact P
      | E : fh_open ?n ?d ?s ?h = (?h', _) |- quiet_call ?h ?h' => let P := fresh in pose proof (pc_open h n d s) as P; rewrite E in P; exact P
      | E : fh_forward ?n ?i ?d ?h = (?h', _) |- quiet_call ?h ?h' => let P := fresh in pose proof (pc_forward h n i d) as P; rewrite E in P; exact P
      | E : fh_import ?n ?oi ?oh ?os ?ii ?ih ?h = (?h', _) |- quiet_call ?h ?h' =>
          let P := fresh in pose proof (pc_import h n oi oh os ii ih) as P; rewrite E in P; exact P
      end ].

Section runs.
Context {H : Type} `{isolate_host H} (win : GuestMmap.mctx) (ctl_major uvm_major : Z).

Abbreviation world := (fworld H).

(** A new session does not get the id of one whose isolate is still to be killed. *)
Definition no_reuse (o : fop) (w : world) : Prop :=
  match o with
  | F_step t _ =>
      forall c mm tgid, w_tasks w !! t = Some (P_session c mm tgid) -> seek_mm mm (map_to_list (w_idr w)) w = Some None ->
        forall t' s iso y, (w_tasks w !! t') ≫= pre = Some (s, iso) -> w_sess w !! s = Some y -> se_id y <> idr_alloc (w_idr w)
  | _ => True
  end.

Lemma session_isolated a t c mm tgid (w w' : world) :
  lives w -> isolated w -> w_tasks w !! t = Some (P_session c mm tgid) -> no_reuse (F_step t a) w -> open_session a t c mm tgid w = Go w' -> isolated w'.
Proof.
  intros Hl Hi Ht Hno Hs. specialize (Hno c mm tgid Ht). unfold open_session in Hs. follow. unfold nvkvm_session_get_or_create in Hs.
  destruct (seek_mm mm (map_to_list (w_idr w)) w) as [[s|]|] eqn:Hk; [| |done].
  - apply seek_mm_found in Hk as (i & y & _ & Hy & _). rewrite Hy in Hs. follow.
    eapply isolated_view; [exact Hi | eapply view_tasks; [exact Ht | done | by eapply view_set_sess | done] | plain].
  - destruct (negb (a_ok a)); [follow; eapply isolated_view; [exact Hi | by eapply view_tasks | plain] |].
    destruct (negb (a_ok' a)); [follow; eapply isolated_view; [exact Hi | by eapply view_tasks | plain] |]. follow.
    eapply (new_step w _ t c mm tgid); [done | done | done | apply idr_alloc_free | by apply Hno | done ..].
Qed.

Lemma ring_isolated a t c s (w w' : world) :
  isolated w -> w_tasks w !! t = Some (P_ring c s) -> ensure_ring win a t c s w = Go w' -> isolated w'.
Proof.
  intros Hi Ht Hs. unfold ensure_ring in Hs. follow. unfold nvkvm_session_setup_ring in Hs.
  destruct (se_ring g) as [r|]; [|destruct (fh_ring _ _ _) as [h' [r [gpa bytes]]] eqn:E; repeat match type of Hs with context [if ?b then _ else _] => destruct b end].
  all: unfold unlock, at_sess in Hs; cbn in Hs; rewrite ?lookup_insert_eq, ?Heqo in Hs; cbn [go_on] in Hs; injection Hs as <-.
  all: eapply isolated_view; [exact Hi | eapply view_tasks; [exact Ht | done | | done] | plain].
  all: intros s'; cbn; rewrite ?insert_insert_eq; by eapply view_set_sess.
Qed.

Lemma adv_pre (w : world) t p q :
  w_tasks w !! t = Some p -> pre q = pre p -> forall t', (<[t := q]> (w_tasks w) !! t') ≫= pre = (w_tasks w !! t') ≫= pre.
Proof. intros Ht Hq t'. destruct (decide (t' = t)) as [->|]; [by rewrite lookup_insert_eq, Ht | by rewrite lookup_insert_ne]. Qed.

(** Steps that touch no session and no isolate. *)
Lemma adv_isolated (w w' : world) t p q :
  isolated w -> w_tasks w !! t = Some p -> pre q = pre p -> w_sess w' = w_sess w -> w_tasks w' = w_tasks w -> quiet_call (w_host w) (w_host w') ->
  isolated (adv t q w').
Proof. intros Hi Ht Hq Es Et Hp. eapply isolated_view; [exact Hi | eapply view_tasks; [exact Ht | done | by rewrite Es | done] | done]. Qed.

Lemma fin_isolated (w w' : world) t p :
  isolated w -> w_tasks w !! t = Some p -> pre p = None -> w_sess w' = w_sess w -> w_tasks w' = w_tasks w -> quiet_call (w_host w) (w_host w') ->
  isolated (fin t w').
Proof. intros Hi Ht Hq Es Et Hp. eapply isolated_view; [exact Hi | eapply view_fin; [exact Ht | done | by rewrite Es | done] | done]. Qed.

Lemma start_isolated (w w' : world) t q :
  isolated w -> w_tasks w !! t = None -> pre q = None -> w_sess w' = w_sess w -> w_tasks w' = w_tasks w -> quiet_call (w_host w) (w_host w') ->
  isolated (adv t q w').
Proof. intros Hi Ht Hq Es Et Hp. eapply isolated_view; [exact Hi | eapply view_new; [exact Ht | done | by rewrite Es | done] | done]. Qed.

Lemma after_isolated (w w' : world) t p g :
  isolated w -> w_tasks w !! t = Some p -> pre p = None -> w_sess w' = w_sess w -> w_tasks w' = w_tasks w -> quiet_call (w_host w) (w_host w') ->
  isolated (after_put t g w').
Proof. intros. destruct g; [by eapply adv_isolated | by eapply fin_isolated]. Qed.

Lemma task_isolated t a (w w' : world) : lives w -> isolated w -> no_reuse (F_step t a) w -> task_step win t a w = Go w' -> isolated w'.
Proof.
  intros Hl Hi Hno. unfold task_step. destruct (w_tasks w !! t) as [p|] eqn:Ht; [|done].
  assert (forall w1 q, pre q = pre p -> w_sess w1 = w_sess w -> w_tasks w1 = w_tasks w -> quiet_call (w_host w) (w_host w1) -> isolated (adv t q w1)) as Hadv
    by (intros; by eapply adv_isolated).
  assert (forall w1, pre p = None -> w_sess w1 = w_sess w -> w_tasks w1 = w_tasks w -> quiet_call (w_host w) (w_host w1) -> isolated (fin t w1)) as Hfin
    by (intros; by eapply fin_isolated).
  destruct p.
  - unfold open_alloc. intros Hs. follow; [apply Hadv | apply Hfin]; try done; plain.
  - by apply session_isolated.
  - unfold ensure_lock. intros Hs. follow; [apply Hadv; try done; plain |]. nv_bool.
    eapply isolated_view; [exact Hi | eapply view_tasks; [exact Ht | done | | done] | plain]. eapply view_set_sess; [done |]. unfold face, sess_iso. cbn. by f_equal.
  - unfold ensure_create. intros Hs. follow; nv_bool.
    + subst. eapply (create_step w _ t c s g); [done | done | done | done | eassumption | | | ]; destruct (_ =? 0); cbn; try done; by apply (adv_pre w _ _ _ Ht).
    + eapply (create_step w _ t c s g); [done | done | done | done | eassumption | | by apply (adv_pre w _ _ _ Ht) | done].
      cbn. rewrite (proj2 (Z.eqb_neq _ 0)) by done. by rewrite (creating_empty w t c s g Hl Ht Heqo).
  - by apply ring_isolated.
  - unfold open_handle. intros Hs. follow; apply Hadv; try done; try plain; match goal with |- context [if ?b then _ else _] => destruct b end; try done; plain.
  - unfold open_install. intros Hs. follow; [apply Hfin | apply Hadv | apply Hfin]; try done; plain.
  - unfold nvkvm_fd_ctx_put. intros Hs. follow; [apply Hadv; try done; plain |]. eapply after_isolated; try done; plain.
  - unfold nvkvm_fd_ctx_destroy. intros Hs. follow. destruct st; follow; apply Hadv; try done; try plain; match goal with |- context [if ?b then _ else _] => destruct b end; try done; plain.
  - unfold drop_session. intros Hs. follow. unfold session_put_locked in *. repeat case_match; simplify_eq; follow.
    + eapply (drop_step w); try done. by eapply dropped_mm.
    + eapply isolated_view; [exact Hi | eapply view_tasks; [exact Ht | done | by eapply view_set_sess | done] | plain].
  - unfold session_teardown. intros Hs. destruct st; follow.
    + eapply isolated_view; [exact Hi | eapply view_tasks; [exact Ht | done | by eapply view_set_sess | done] | plain].
    + destruct (dm_ring d); apply Hadv; try done; plain.
    + eapply (kill_step w _ t s d c k (a_seed a)); try done; cbn; by destruct (_ =? 0).
    + destruct (dm_mm d), (dm_pid d); apply Hadv; try done; plain.
    + by eapply (free_step w).
  - unfold free_ctx. intros Hs. follow. destruct k as [|after]; [apply Hfin; try done; plain |]. eapply after_isolated; try done; plain.
  - unfold gem_free_close. intros Hs. follow. apply Hadv; try done; plain.
  - unfold gem_free_memory. intros Hs. follow. apply Hfin; try done; plain.
  - unfold forward_object. intros Hs. follow; [apply Hfin | apply Hadv]; try done; plain.
  - unfold nvkvm_gem_proxy_create. intros Hs. follow; [apply Hfin | apply Hfin | apply Hadv]; try done; plain.
  - unfold resolve_broker. intros Hs. destruct (w_files w !! f) eqn:Hf; [|done]. follow; [apply Hfin | apply Hadv | apply Hfin]; try done; plain.
  - intros [= <-]. apply Hadv; try done; plain.
  - unfold forward_on. intros Hs. follow. apply Hfin; try done; plain.
  - unfold poll_arm_call. intros Hs. follow. apply Hfin; try done; plain.
Qed.

Lemma deliver_keeps iso handle events l (w w' : world) :
  evt_each iso handle events l w = Go w' -> w_sess w' = w_sess w /\ w_tasks w' = w_tasks w /\ w_host w' = w_host w.
Proof.
  revert w. induction l as [|c l IH]; intros w; cbn; [by intros [= <-] |]. unfold at_ctx. destruct (w_ctx w !! c) as [x|]; [|done].
  destruct (negb _); [by apply IH |]. destruct (fc_session x) as [s|]; [|by apply IH]. intros Hs. follow; [|by apply IH]. apply IH in Hs. done.
Qed.

Lemma fstep_isolated o (w w' : world) :
  lives w -> isolated w -> no_reuse o w -> fstep win ctl_major uvm_major o w = Go w' -> isolated w'.
Proof.
  intros Hl Hi Hno Hs. destruct o; cbn [fstep] in Hs.
  - follow. eapply start_isolated; try done; plain.
  - follow. eapply start_isolated; try done; plain.
  - by eapply task_isolated.
  - follow. eapply start_isolated; try done; plain.
  - follow. unfold nvkvm_poll in *. simplify_eq. destruct (_ && _); [eapply start_isolated; try done; plain |]. eapply isolated_view; [done | done | plain].
  - apply deliver_keeps in Hs as (Es & Et & Eh). eapply isolated_view; [done | split; intros; by rewrite ?Es, ?Et | rewrite Eh; plain].
  - by follow.
  - follow. eapply start_isolated; try done; plain.
  - unfold idle in Hs. destruct (w_tasks w !! t) eqn:Ht; [done |]. destruct (w_gems w !! g) as [y|]; [|done]. follow. eapply start_isolated; try done; plain.
  - unfold idle in Hs. destruct (w_tasks w !! t) eqn:Ht; [done |]. unfold at_file in Hs. destruct (w_files w !! f) as [c|]; [|done].
    destruct (w_gems w !! g) as [y|]; [|done]. destruct (gm_dead y); [done |]. unfold resolve_lookup in Hs. follow; eapply start_isolated; try done; plain.
Qed.

(** Runs in which no id is given out too early. *)
Inductive ireach (h : H) : world -> Prop :=
| ireach_init : ireach h (files_init h)
| ireach_step o w w' :
    ireach h w -> own_export o w -> no_reuse o w -> fstep win ctl_major uvm_major o w = Go w' -> ireach h w'.

Lemma ireach_freach h w : ireach h w -> freach win ctl_major uvm_major h w.
Proof. induction 1; [constructor | by econstructor]. Qed.

Lemma ireach_isolated h w : host_ok h -> (forall i, hosted i h = []) -> ireach h w -> isolated w.
Proof.
  intros Hok He. induction 1 as [|o w w' Hr IH Ho Hn Hs].
  - assert (forall s i iso, ~ claims (files_init h) s i iso) as Hn by (intros s i iso (? & ? & Hf & _); cbn in Hf; by rewrite lookup_empty in Hf).
    split; cbn; [done | by intros s i iso []%Hn | done | by intros s s' i iso iso' []%Hn].
  - eapply fstep_isolated; [|exact IH | exact Hn | exact Hs]. by eapply lives_reach, ireach_freach.
Qed.

Lemma live_claim (w : world) s y : w_sess w !! s = Some y -> se_mm y <> None -> claims w s (se_id y) (se_iso y).
Proof. intros Hy Hm. exists true, (se_iso y). rewrite Hy. cbn. unfold face. rewrite bool_decide_true by done. split; [done | by left]. Qed.

(** When no session id is given out before the isolate of its last holder is killed,
    the host has for the id of every process's session exactly the isolate that
    session knows, or none as long as it knows none; two processes never have the
    same isolate; and for an id that no session holds the host has nothing. *)
Lemma own_isolate h w :
  host_ok h -> (forall i, hosted i h = []) -> ireach h w ->
  (forall s y, w_sess w !! s = Some y -> se_mm y <> None -> hosted (se_id y) (w_host w) = iso_list (se_iso y)) /\
  (forall s s' y y', w_sess w !! s = Some y -> w_sess w !! s' = Some y' -> se_mm y <> None -> se_mm y' <> None ->
     se_iso y <> 0 -> se_iso y' = se_iso y -> s' = s) /\
  (forall i, (forall s y, w_sess w !! s = Some y -> se_id y <> i) -> hosted i (w_host w) = []).
Proof.
  intros Hok He Hr. pose proof (ireach_isolated h w Hok He Hr) as Hi.
  assert (lives w) as Hl by (by eapply lives_reach, ireach_freach).
  assert (forall s y, w_sess w !! s = Some y -> se_mm y <> None -> hosted (se_id y) (w_host w) = iso_list (se_iso y)) as Hown.
  { intros s y Hy Hm. apply (is_claim _ Hi s). by apply live_claim. }
  split_and!; [done | |].
  - intros s s' y y' Hy Hy' Hm Hm' H0' E. assert (se_id y' = se_id y) as Hid.
    { apply (hosted_once (w_host w) (se_iso y)); [apply Hi | rewrite (Hown s' y'), E by done | rewrite (Hown s y) by done];
        unfold iso_list; rewrite (proj2 (Z.eqb_neq _ 0)) by done; by left. }
    pose proof (lv_listed _ Hl s y Hy Hm). pose proof (lv_listed _ Hl s' y' Hy' Hm'). congruence.
  - intros i Hn. apply (is_none _ Hi). intros s iso (live & j & Hf & _). destruct (w_sess w !! s) as [y|] eqn:Hy; [|done]. cbn in Hf.
    injection Hf as <- _ _. by eapply Hn.
Qed.

(** Runs in which no isolate waits to be killed. *)
Definition calm (w : world) : bool := forallb (fun tp => match pre tp.2 with None => true | Some _ => false end) (map_to_list (w_tasks w)).

Fixpoint calm_run (l : list fop) (w : world) : bool :=
  match l with
  | [] => true
  | o :: l' => no_export o && calm w && match fstep win ctl_major uvm_major o w with Go w' => calm_run l' w' | _ => false end
  end.

Lemma calm_no_reuse o (w : world) : calm w = true -> no_reuse o w.
Proof.
  intros Hc. destruct o; try done. intros c mm tgid _ _ t' s iso y Hp. exfalso. destruct (w_tasks w !! t') as [p|] eqn:Ht; [|done].
  unfold calm in Hc. rewrite forallb_forall in Hc. specialize (Hc (t', p)). cbn in Hc, Hp. rewrite Hp in Hc.
  discriminate Hc. by apply list_elem_of_In, elem_of_map_to_list.
Qed.

Lemma calm_ireach h l (w w' : world) :
  ireach h w -> calm_run l w = true -> frun win ctl_major uvm_major l w = Go w' -> ireach h w'.
Proof.
  revert w. induction l as [|o l IH]; intros w Hw; cbn; [by intros _ [= <-] |]. intros [[Ho Hc]%andb_true_iff Hl]%andb_true_iff Hs.
  destruct (fstep win ctl_major uvm_major o w) as [w1| |] eqn:E; [|done|done]. eapply IH; [|done|done].
  apply (ireach_step _ o w); [done | by destruct o | by apply calm_no_reuse | done].
Qed.

End runs.
End FileIsolates.
