(* ===== verification/FileHost.v ===== *)
(** * The host behind the open files

    The calls that open files make ([GuestFiles.file_host]) are those of [GuestCalls], so they
    are answered by the handlers of [Sessions] and [Requests]: this host provides
    what [FileIsolates] needs.  The last part shows what happens when a session id is
    given out too early, and when an object's context is used after the object. *)

From S2P Require Import Prelude Extents KvmSlots GpaWindow HandleTable GpaAlloc UvmVa Ring IsoMmap Sessions SessionRuns Requests HostFiles StubWire VirtioTx GuestCalls GuestMmap GuestFiles FileLives FileRuns FileOwns FileIsolates.
Local Open Scope Z_scope.
Local Open Scope nv_scope.

Module FileHost.
Import HTab UvmVa IsoMmap Sessions SessionRuns Requests VirtioTx GuestCalls.

(** ** Sessions of the host *)

Definition isolates_of (i : Z) (l : list session) : list Z := match nvkvm_session_find i l with Some s => isolate_ids s | None => [] end.

Lemma find_iff i l s : NoDup (s_id <$> l) -> nvkvm_session_find i l = Some s <-> s ∈ l /\ s_id s = i.
Proof.
  intros Hn. pose proof (find_split i l) as Hf. destruct (nvkvm_session_find i l) as [s'|].
  - destruct Hf as (l1 & l2 & -> & Hs & Hl & _). split; [intros [= ->]; split; [set_solver | done] |]. intros [Hin Hid].
    rewrite fmap_app, fmap_cons, <- Permutation_middle in Hn. apply NoDup_cons in Hn as [Hx _]. rewrite elem_of_app, elem_of_cons in Hin.
    destruct Hin as [Hin|[->|Hin]]; [| done |]; destruct Hx; rewrite Hs, <- Hid, <- fmap_app; apply list_elem_of_fmap_2; set_solver.
  - split; [done |]. intros [Hin Hid]. by destruct (Hf s Hin).
Qed.

Lemma find_none i l : nvkvm_session_find i l = None -> forall s, s ∈ l -> s_id s <> i.
Proof. intros E. pose proof (find_split i l) as Hf. by rewrite E in Hf. Qed.

(** The isolate table: what the sessions need of it. *)
Record table_ok (t : iso_table) : Prop := {
  to_next : 1 <= it_next_id t <= 4095;
  to_used : forall k, o_in_use (it_isolates t).[k] = true -> 1 <= k <= 4095
}.

Section host.
Context {W : Type} `{GpaAllocator W}.

Lemma ring_keeps env id t (w : W) t' w' eff r :
  nvkvm_isolate_ring_setup env id t w = (t', w', eff, r) ->
  it_next_id t' = it_next_id t /\ forall k, o_in_use (it_isolates t').[k] = o_in_use (it_isolates t).[k] /\ o_session_id (it_isolates t').[k] = o_session_id (it_isolates t).[k].
Proof.
  unfold nvkvm_isolate_ring_setup. destruct (iso_entry id t) as [o|] eqn:Ee; [|by intros [= <- _ _ _]].
  assert ((it_isolates t).[id mod NVKVM_ISOLATE_MAX] = o) as Ho.
  { unfold iso_entry in Ee. repeat case_match; by simplify_eq. }
  intros E. repeat case_match; simplify_eq; try done. split; [done |]. intros k. cbn. rewrite aget_set. case_decide; [by subst | done].
Qed.

Lemma create_keeps socketpair sp ring sid t (w : W) t' w' eff r :
  table_ok t -> nvkvm_isolate_create socketpair sp ring sid t w = (t', w', eff, r) ->
  table_ok t' /\
  match r with
  | Ok id => 1 <= id <= 4095 /\ o_in_use (it_isolates t).[id] = false /\ o_in_use (it_isolates t').[id] = true /\
      o_session_id (it_isolates t').[id] = sid /\
      forall k, k <> id -> o_in_use (it_isolates t').[k] = o_in_use (it_isolates t).[k] /\ o_session_id (it_isolates t').[k] = o_session_id (it_isolates t).[k]
  | Err _ => forall k, o_in_use (it_isolates t).[k] = true ->
      o_in_use (it_isolates t').[k] = true /\ o_session_id (it_isolates t').[k] = o_session_id (it_isolates t).[k]
  end.
Proof.
  intros [Hn Hu]. unfold nvkvm_isolate_create. destruct socketpair; [by intros [= <- _ _ <-] |].
  pose proof (alloc_isolate_loop_spec iso_attempts t Hn) as Ha. unfold alloc_isolate_slot.
  destruct (alloc_isolate_loop iso_attempts t) as [t1 [id|]]; destruct Ha as [Hn1 Ha].
  2: { intros [= <- _ _ <-]. rewrite Ha. split; [split; [done | by rewrite Ha] | done]. }
  destruct Ha as (Hr & Hf & Ha). rewrite mod_iso by done. rewrite Ha, aget_set_eq. unfold put_iso. rewrite !Ha.
  assert (forall o, table_ok (ITb ((it_isolates t).[id <- o]) (it_next_id t1))) as Hput.
  { intros o. split; cbn; [done |]. intros k. rewrite aget_set. case_decide; [by subst | apply Hu]. }
  destruct sp as [e|pid e|pid]; rewrite insert_insert_eq.
  - intros [= <- _ _ <-]. split; [apply Hput |]. intros k Hk. cbn. rewrite aget_set_ne by congruence. done.
  - intros [= <- _ _ <-]. split; [apply Hput |]. intros k Hk. cbn. rewrite aget_set_ne by congruence. done.
  - set (o := set_life _ _ _ _). destruct ring as [env|].
    + destruct (nvkvm_isolate_ring_setup _ _ _ _) as [[[t3 w3] eff3] r3] eqn:Er. apply ring_keeps in Er as [En Ek]. cbn in En, Ek.
      intros [= <- _ _ <-]. split; [|split_and!; [lia | lia | done | ..]].
      * split; [by rewrite En |]. intros k. rewrite (proj1 (Ek k)), aget_set. case_decide; [by subst | apply Hu].
      * by rewrite (proj1 (Ek id)), aget_set_eq.
      * by rewrite (proj2 (Ek id)), aget_set_eq.
      * intros k Hk. destruct (Ek k) as [-> ->]. by rewrite aget_set_ne.
    + intros [= <- _ _ <-]. split; [apply Hput |]. cbn. rewrite aget_set_eq. split_and!; try done; try lia. intros k Hk. by rewrite aget_set_ne.
Qed.

(** ** The three kinds of calls *)

Definition dev_ok (d : dev W) : Prop := table_ok (d_isolates d) /\ sess_inv (it_isolates (d_isolates d)) (d_sessions d).

Lemma no_isolates d i : dev_ok d -> isolates_of i (d_sessions d) = [] -> nvkvm_session_find i (d_sessions d) = None.
Proof.
  intros [_ [Hn Hs]] He. unfold isolates_of in He. destruct (nvkvm_session_find i (d_sessions d)) as [s|] eqn:Ef; [|done].
  apply find_iff in Ef as [Hin _]; [|done]. rewrite Forall_forall in Hs. by destruct (so_some _ _ (Hs s Hin)).
Qed.

Lemma create_isolates socketpair sp ring sid d d' eff id st :
  dev_ok d -> isolates_of sid (d_sessions d) = [] -> nvkvm_req_create_isolate socketpair sp ring sid d = (d', eff, id, st) ->
  dev_ok d' /\ (forall i, i <> sid -> isolates_of i (d_sessions d') = isolates_of i (d_sessions d)) /\
  (1 <= id <= 4095 /\ st = 0 /\ isolates_of sid (d_sessions d') = [id] \/ id = 0 /\ isolates_of sid (d_sessions d') = []).
Proof.
  intros Hd He. pose proof (no_isolates d sid Hd He) as Hf. destruct Hd as [Ht Hs]. unfold nvkvm_req_create_isolate.
  destruct (nvkvm_isolate_create _ _ _ _ _ _) as [[[t1 w1] eff1] r] eqn:Ec. destruct (create_keeps _ _ _ _ _ _ _ _ _ _ Ht Ec) as [Ht1 Hr].
  destruct r as [nid|e]; intros [= <- _ <- <-].
  2: { split_and!; [split; [done |] | done | by right]. cbn. by apply (sess_inv_ext (it_isolates (d_isolates d))). }
  destruct Hr as (Hb & Hu & Hu1 & Hsid & Hk).
  assert (forall f, update_session sid f (nvkvm_session_create sid (d_sessions d)) = d_sessions d ++ [f (Ses sid [] [])]) as Hup.
  { intros f. pose proof (find_none _ _ Hf) as Hne. unfold nvkvm_session_create. clear -Hne. induction (d_sessions d) as [|s l IH]; cbn; [by rewrite Z.eqb_refl |].
    rewrite (proj2 (Z.eqb_neq _ _)) by (apply Hne; set_solver). f_equal. apply IH. set_solver. }
  rewrite Hf. unfold dev_ok. cbn [d_sessions d_isolates with_sessions with_isolates]. rewrite Hup.
  pose proof (create_sess_inv (it_isolates (d_isolates d)) ((it_isolates (d_isolates d)).[nid <- (it_isolates t1).[nid]]) (d_sessions d) sid nid Hs Hu) as Hi.
  rewrite Hf, Hup, !aget_set_eq in Hi. specialize (Hi Hu1 Hsid ltac:(intros; by rewrite aget_set_ne)).
  change (add_isolate nid (Ses sid [] [])) with (Ses sid [nid] []) in *.
  split_and!; [done | | | left; split_and!; try lia; try done].
  - apply (sess_inv_ext _ _ _ Hi). intros k. rewrite aget_set. case_decide; [by subst |]. intros. by destruct (Hk k) as [-> ->].
  - intros i Hne. unfold isolates_of. clear -Hne. induction (d_sessions d) as [|s l IH]; cbn; [by rewrite (proj2 (Z.eqb_neq sid i)) by auto |]. by destruct (s_id s =? i).
  - unfold isolates_of. pose proof (find_none _ _ Hf) as Hne. clear -Hne. induction (d_sessions d) as [|s l IH]; cbn; [by rewrite Z.eqb_refl |].
    rewrite (proj2 (Z.eqb_neq _ _)) by (apply Hne; set_solver). apply IH. set_solver.
Qed.

Lemma kill_keeps id t (w : W) t' w' eff r :
  table_ok t -> 1 <= id <= 4095 -> nvkvm_isolate_kill id t w = (t', w', eff, r) ->
  table_ok t' /\ forall k, k <> id -> (it_isolates t').[k] = (it_isolates t).[k].
Proof.
  intros [Hn Hu] Hid. unfold nvkvm_isolate_kill. destruct (iso_entry id t) as [o|]; [|by intros [= <- _ _ _]].
  destruct (if _ && _ && _ then _ else _) as [w1 eff1]. intros [= <- _ _ _]. rewrite mod_iso by done. split; cbn; [|intros; by apply aget_set_ne].
  split; cbn; [done |]. intros k. rewrite aget_set. case_decide; [by subst | apply Hu].
Qed.

Lemma kill_isolates kvm_vm_fd id i d d' eff cl st :
  dev_ok d -> isolates_of i (d_sessions d) = [id] -> nvkvm_req_kill_isolate kvm_vm_fd id d = (d', eff, cl, st) ->
  dev_ok d' /\ forall j, isolates_of j (d_sessions d') = filter (fun x => x <> id) (isolates_of j (d_sessions d)).
Proof.
  intros [Ht Hs] Hi. unfold nvkvm_req_kill_isolate.
  assert (1 <= id <= 4095) as Hid.
  { unfold isolates_of in Hi. destruct (nvkvm_session_find i (d_sessions d)) as [s|] eqn:Ef; [|done]. apply find_iff in Ef as [Hin _]; [|apply Hs].
    apply (to_used _ Ht). pose proof (proj1 (Forall_forall _ _) (si_ok _ _ Hs) s Hin) as Hok. apply (so_live _ _ Hok). rewrite Hi. set_solver. }
  destruct (nvkvm_isolate_kill _ _ _) as [[[t1 w1] eff1] r] eqn:Ek. apply kill_keeps in Ek as [Ht1 Hk]; [|done..].
  destruct (nvkvm_iso_mmap_reap_isolate _ _ _) as [[m1 eff2] k2]. cbn [d_sessions with_isolates].
  destruct (prune id 0 (d_sessions d)) as [l dl] eqn:Ep. set (d1 := with_maps m1 (with_isolates t1 w1 d)).
  destruct (destroy_all dl (with_sessions l d1)) as [d2 cl2] eqn:Ed. intros [= <- _ _ _].
  destruct (kill_sessions (it_isolates (d_isolates d)) id d1 _ _ _ _ Hs Ep Ed) as (Ei & _).
  pose proof (kill_sess_ok _ (it_isolates t1) id d1 _ _ _ _ Hs Hk Ep Ed) as Hs2.
  pose proof (kill_sessions_kept _ id d1 _ _ _ _ Hs Ep Ed) as Hkept. cbn [d1 d_sessions with_maps with_isolates] in Hkept.
  split; [unfold dev_ok; rewrite Ei; by split |]. intros j. unfold isolates_of.
  destruct (nvkvm_session_find j (d_sessions d)) as [s|] eqn:Ef.
  - apply find_iff in Ef as [Hin Hj]; [|apply Hs]. destruct (nvkvm_session_find j (d_sessions d2)) as [s'|] eqn:Ef'.
    + apply find_iff in Ef' as [Hin' Hj']; [|apply Hs2]. apply Hkept in Hin' as (s0 & Hin0 & -> & _).
      assert (s0 = s) as ->; [|done]. pose proof (find_iff j (d_sessions d) s (si_ids _ _ Hs)) as F1. pose proof (find_iff j (d_sessions d) s0 (si_ids _ _ Hs)) as F2.
      pose proof (proj2 F1 (conj Hin Hj)). pose proof (proj2 F2 (conj Hin0 Hj')). congruence.
    + destruct (decide (isolate_ids (without id s) = [])) as [E|Hne]; [by cbn in E; rewrite E |]. pose proof (find_none _ _ Ef') as Hno.
      exfalso. apply (Hno (without id s)); [apply Hkept; eauto | done].
  - pose proof (find_none _ _ Ef) as Hno. destruct (nvkvm_session_find j (d_sessions d2)) as [s'|] eqn:Ef'; [|done].
    apply find_iff in Ef' as [Hin' Hj']; [|apply Hs2]. apply Hkept in Hin' as (s0 & Hin0 & -> & _). by destruct (Hno s0 Hin0).
Qed.

(** Sessions and isolates as before, but for the counters of transactions. *)
Definition same_hosts (d d' : dev W) : Prop := d_sessions d' = d_sessions d /\ but_txn (d_isolates d) (d_isolates d').

Lemma same_hosts_ok d d' : same_hosts d d' -> dev_ok d -> dev_ok d' /\ forall i, isolates_of i (d_sessions d') = isolates_of i (d_sessions d).
Proof.
  intros [Es [En Ek]] [[Hn Hu] Hs]. split; [|by rewrite Es]. split.
  - split; [by rewrite En |]. intros k. destruct (Ek k) as [n ->]. apply Hu.
  - rewrite Es. apply (sess_inv_ext _ _ _ Hs). intros k Hk. by destruct (Ek k) as [n ->].
Qed.

Lemma but_txn_put t k n : but_txn t (put_iso k (set_txn n (it_isolates t).[k]) t).
Proof.
  split; [done |]. intros j. unfold put_iso. cbn. rewrite aget_set. case_decide; [subst; by exists n |]. exists (o_next_txn_id (it_isolates t).[j]). by rewrite set_txn_same.
Qed.

Lemma open_hosts env req d : same_hosts d (nvkvm_req_open_nvidia_handle env req d).1.1.1.
Proof.
  unfold nvkvm_req_open_nvidia_handle, nvkvm_isolate_open_device.
  repeat case_match; simplify_eq; cbn; split; try done; try apply but_txn_refl; apply but_txn_put.
Qed.

Lemma import_hosts exported imported req d : same_hosts d (nvkvm_req_xiso_import exported imported req d).1.1.1.1.
Proof.
  unfold nvkvm_req_xiso_import, nvkvm_isolate_present_export, nvkvm_isolate_xiso_import.
  repeat case_match; simplify_eq; cbn; split; try done; repeat apply but_txn_take; apply but_txn_refl.
Qed.

Lemma close_on_hosts sync iso hd d : same_hosts d (nvkvm_req_close_handle_on_isolate sync iso hd d).1.
Proof. unfold nvkvm_req_close_handle_on_isolate. repeat case_match; cbn; split; try done; apply but_txn_refl. Qed.

Lemma close_hosts hd d : same_hosts d (nvkvm_req_close_handle hd d).1.1.
Proof. unfold nvkvm_req_close_handle. repeat case_match; cbn; split; try done; apply but_txn_refl. Qed.

End host.

(** ** The calls of open files *)

Section calls.
Context {W : Type} `{GpaAllocator W} (kvm_vm_fd slot_size shm_size : Z).
(** What the kernel of the host and the stubs answer to each call; a forwarded ioctl changes the
    owned UVM ranges and has its own answer.  [oflags]: the flags a file is opened with. *)
Context (env : nat -> host) (ioctl_va : nat -> Z -> Z -> vdev (W := W) -> va_table) (ioctl_ret : nat -> Z -> Z -> vdev (W := W) -> Z * Z).
Context (oflags : nat -> Z).

Definition made (n : nat) (r : request) (v : vdev (W := W)) : vdev (W := W) * (Z * list Z) :=
  match direct kvm_vm_fd slot_size shm_size (env n) r v with Some a => fst a | None => (v, (- EIO, [])) end.

Definition out1 (a : vdev (W := W) * (Z * list Z)) : vdev (W := W) * (Z * Z) := (a.1, (a.2.1, nth 0 a.2.2 0)).

Instance device_host : file_host (vdev (W := W)) := {|
  fh_create n sid v := out1 (made n (Q_create_isolate sid) v);
  fh_kill n iso v := (made n (Q_kill_isolate iso) v).1;
  fh_ring n sid v := let '(v', (r, outs)) := made n (Q_setup_ring sid) v in (v', (r, (nth 0 outs 0, nth 1 outs 0)));
  fh_open n dev sid v := out1 (made n (Q_open_nvidia_handle dev (oflags n) sid) v);
  fh_close_on n hd iso v := (made n (Q_close_handle_on_isolate hd iso) v).1;
  fh_close n hd v := (made n (Q_close_handle hd) v).1;
  fh_arm n iso hd v := let '(v', (r, _)) := made n (Q_poll_arm iso hd true) v in (v', r);
  fh_forward n iso hd v := (set_dev (set_va (ioctl_va n iso hd v) (t_dev v)) v, ioctl_ret n iso hd v);
  fh_import n oi oh os ii ih v := out1 (made n (Q_xiso_import oi oh os ii ih) v)
|}.

Lemma device_plain v v' : quiet_call v v' -> same_hosts (t_dev v) (t_dev v').
Proof.
  intros Hp. destruct Hp as [|n sid|n id sid|n hd iso|n hd|n iso hd|n iso hd|n oi oh os ii ih]; cbn.
  - split; [done | apply but_txn_refl].
  - unfold made. cbn. repeat case_match; simplify_eq; (split; [done | apply but_txn_refl]).
  - unfold made. cbn. pose proof (open_hosts (x_open (env n)) (OpenReq sid id (oflags n)) (t_dev v)) as Ho. destruct (nvkvm_req_open_nvidia_handle _ _ _) as [[[? ?] ?] ?]. done.
  - unfold made. cbn. pose proof (close_on_hosts (x_sync (env n)) iso hd (t_dev v)) as Ho. by destruct (nvkvm_req_close_handle_on_isolate _ _ _ _).
  - unfold made. cbn. pose proof (close_hosts hd (t_dev v)) as Ho. by destruct (nvkvm_req_close_handle _ _) as [[? ?] ?].
  - unfold made. cbn. destruct (nvkvm_isolate_poll _ _ _ _ _) as [sent r]. cbn. destruct (answer _ _). split; [done | apply but_txn_refl].
  - split; [done | apply but_txn_refl].
  - unfold made. cbn. pose proof (import_hosts (x_export (env n)) (x_import (env n)) (XisoReq oi oh os ii ih) (t_dev v)) as Ho.
    by destruct (nvkvm_req_xiso_import _ _ _ _) as [[[[? ?] ?] ?] ?].
Qed.

Program Instance device_isolates : isolate_host (vdev (W := W)) := {|
  hosted i v := isolates_of i (d_sessions (t_dev v));
  host_ok v := dev_ok (t_dev v)
|}.
Next Obligation.
  intros n sid v v' r iso Hd He Hc. cbn in Hc. unfold made in Hc. cbn in Hc.
  destruct (nvkvm_req_create_isolate _ _ _ _ _) as [[[d' eff] id] st] eqn:E.
  destruct (create_isolates _ _ _ _ _ _ _ _ _ Hd He E) as (Hd' & Hoth & Hown). unfold out1, answer in Hc.
  destruct Hown as [(Hb & -> & Hl)|(-> & Hl)].
  - cbn in Hc. injection Hc as <- <- <-. split_and!; [exact Hd' | exact Hoth |]. cbn. rewrite Hl, u32_small by lia. unfold iso_list. by rewrite (proj2 (Z.eqb_neq _ 0)) by lia.
  - destruct (s32 st =? 0); cbn in Hc; injection Hc as <- <- <-; (split_and!; [exact Hd' | exact Hoth |]); cbn; rewrite Hl; [done |]. by case_match.
Qed.
Next Obligation.
  intros n iso sid v Hd He. cbn. unfold made. cbn. destruct (nvkvm_req_kill_isolate _ _ _) as [[[d' eff] cl] st] eqn:E.
  exact (kill_isolates _ _ _ _ _ _ _ _ Hd He E).
Qed.
Next Obligation. intros v v' Hp Hd. apply same_hosts_ok; [by apply device_plain | done]. Qed.
Next Obligation.
  intros v iso i j [_ Hs] Hi Hj. unfold isolates_of in *. destruct (nvkvm_session_find i _) as [s|] eqn:E1; [|set_solver].
  destruct (nvkvm_session_find j _) as [s'|] eqn:E2; [|set_solver]. apply find_iff in E1 as [H1 <-]; [|apply Hs]. apply find_iff in E2 as [H2 <-]; [|apply Hs].
  destruct Hs as [_ Hs]. rewrite Forall_forall in Hs. destruct (so_live _ _ (Hs s H1) iso Hi) as [_ <-]. by destruct (so_live _ _ (Hs s' H2) iso Hj) as [_ <-].
Qed.

(** C21. [device_isolation]: when every session id is given out only after the isolate of its last
    holder is killed, the requests a process makes by its session id, through the
    driver, the wire and the device, reach its own isolate and no other: the first
    isolate the device has for the id is the one the driver's session knows, the device
    has no other for it, that isolate's slot is in use and names this session, and two
    processes never have the same isolate. *)
Theorem device_isolation (win : GuestMmap.mctx) (ctl_major uvm_major : Z) (v : vdev (W := W)) (w : GuestFiles.fworld (vdev (W := W))) :
  let d := t_dev v in
  let d' := t_dev (GuestFiles.w_host w) in
  d_isolates d = nvkvm_isolate_table_init -> d_sessions d = [] -> FileIsolates.ireach win ctl_major uvm_major v w ->
  (forall s y, GuestFiles.w_sess w !! s = Some y -> GuestFiles.se_mm y <> None -> GuestFiles.se_iso y <> 0 ->
     session_first_isolate (GuestFiles.se_id y) (d_sessions d') = GuestFiles.se_iso y /\
     (forall iso, session_has_isolate (GuestFiles.se_id y) iso (d_sessions d') = true <-> iso = GuestFiles.se_iso y) /\
     let o := (it_isolates (d_isolates d')).[GuestFiles.se_iso y] in o_in_use o = true /\ o_session_id o = GuestFiles.se_id y) /\
  (forall s s' y y', GuestFiles.w_sess w !! s = Some y -> GuestFiles.w_sess w !! s' = Some y' -> GuestFiles.se_mm y <> None ->
     GuestFiles.se_mm y' <> None -> GuestFiles.se_iso y <> 0 -> GuestFiles.se_iso y' = GuestFiles.se_iso y -> s' = s).
Proof.
  intros d d' Et Es Hr.
  assert (dev_ok d) as Hd.
  { unfold dev_ok. rewrite Et, Es. split; [split; [done |] | split; [constructor | done]]. intros k. cbn. by rewrite aget_empty. }
  assert (forall i, isolates_of i (d_sessions d) = []) as He by (intros; by rewrite Es).
  pose proof (FileIsolates.is_ok _ (FileIsolates.ireach_isolated win ctl_major uvm_major v w Hd He Hr)) as [_ Hs'].
  pose proof (FileIsolates.own_isolate win ctl_major uvm_major v w) as Ho. specialize (Ho Hd He Hr) as (Hown & Hone & _). split; [|exact Hone].
  intros s y Hy Hm H0'. specialize (Hown s y Hy Hm). cbn in Hown. unfold isolates_of, iso_list in Hown. rewrite (proj2 (Z.eqb_neq _ 0)) in Hown by done.
  unfold session_first_isolate, session_has_isolate. fold d' in Hown, Hs'. destruct (nvkvm_session_find _ _) as [x|] eqn:Ef; [|done].
  apply find_iff in Ef as [Hin Hid]; [|apply Hs']. rewrite Hown. split; [done |]. split.
  - intros iso. rewrite bool_decide_eq_true. by rewrite list_elem_of_singleton.
  - cbv zeta. rewrite <- Hid. apply (so_live _ _ (proj1 (Forall_forall _ _) (si_ok _ _ Hs') x Hin)). rewrite Hown. by left.
Qed.

End calls.

(** ** Examples *)

Section examples.
#[local] Existing Instance IsoMmap.ex_allocator.
Import GuestFiles FileRuns.

(** A kernel that starts every stub and opens every device. *)
Definition willing (n : nat) : host :=
  Host (x_access refusing) (OEnv (fun _ _ => Ok 30) (Ok 31) 0 (fun _ _ _ => (0, 32))) (x_memfd refusing) None None (Spawned 100) None 0 None
    (x_export refusing) (x_import refusing) false None (x_mmap refusing) 0 (x_realize refusing) (x_pwrite refusing) (x_pread refusing) None
    (x_fopen refusing) [].

#[local] Instance ex_device : file_host (vdev (W := Sparse.sparse_win * Slots.slot_pool)) :=
  device_host 3 4096 (2 ^ 20) willing (fun _ _ _ v => d_va (t_dev v)) (fun _ _ _ _ => (0, 5)) (fun _ => 2).

Definition ex_vdev := u_dev ex_q0.

Definition device_run (l : list fop) := match frun ex_window 195 511 l (files_init ex_vdev) with Go w => w | _ => files_init ex_vdev end.

Lemma device_isolation_witness :
  let w := device_run ex_opens in
  session_first_isolate 1 (d_sessions (t_dev (w_host w))) = 1 /\ session_first_isolate 2 (d_sessions (t_dev (w_host w))) = 2 /\
  forall s s' y y', w_sess w !! s = Some y -> w_sess w !! s' = Some y' -> se_mm y <> None -> se_mm y' <> None -> se_iso y <> 0 -> se_iso y' = se_iso y -> s' = s.
Proof.
  split; [by vm_compute |]. split; [by vm_compute |].
  apply (device_isolation 3 4096 (2 ^ 20) willing (fun _ _ _ v => d_va (t_dev v)) (fun _ _ _ _ => (0, 5)) (fun _ => 2) ex_window 195 511 ex_vdev (device_run ex_opens));
    [by vm_compute | by vm_compute |].
  apply (FileIsolates.calm_ireach ex_window 195 511 ex_vdev ex_opens (files_init ex_vdev)); [constructor | by vm_compute | by vm_compute].
Defined.

(** A process closes its only file and has reached the end of its session's entry in the
    table of ids; another opens the control device. *)
Definition ex_reuse : list fop :=
  [F_open 0 195 255 100 10] ++ steps 7 0 ++ [F_close 0 2] ++ steps 6 0 ++ [F_open 1 195 255 200 20] ++ steps 7 1.

(** [session_id_reused]: the id of a session is free for the next process while the isolate of
    the last is still to be killed; the new process makes isolate 2 for itself, but the
    device has both isolates for the id, and the new process's file was opened by isolate 1, the
    stub of the other process. *)
Example session_id_reused :
  let w := device_run ex_reuse in
  let d := t_dev (w_host w) in
  (exists s y, w_sess w !! s = Some y /\ se_mm y = Some 200 /\ se_id y = 1 /\ se_iso y = 2) /\
  (exists s dy c k, w_tasks w !! 0%nat = Some (P_teardown K_pump s dy c k) /\ dm_mm dy = Some 100 /\ dm_iso dy = 1) /\
  isolates_of 1 (d_sessions d) = [1; 2] /\ session_first_isolate 1 (d_sessions d) = 1 /\
  o_next_txn_id (it_isolates (d_isolates d)).[1] = 3 /\ o_next_txn_id (it_isolates (d_isolates d)).[2] = 1.
Proof.
  cbv zeta. split_and!; [| | by vm_compute ..].
  - exists 4%nat, (GSession 1 (Some 200) (Some 20) 1 2 false None false). by vm_compute.
  - exists 1%nat, (Dying 1 None (Some 100) (Some 10)), 0%nat, (Closed None). by vm_compute.
Qed.

End examples.
End FileHost.
